(* ===== verification/_CoqProject ===== *)
-Q . S2P
Prelude.v
Codec.v
Parser.v
Amounts.v
Golomb.v
TxAddr.v
Balance.v
IndexCodec.v
Store.v
Scan.v
FixUtxos.v
Assets.v
Connect.v
Ledger.v
ConnectCorrect.v
ConnectIndex.v
BlockRows.v
ConnectStore.v
Chain.v
Disconnect.v
DisconnectCorrect.v
DisconnectStore.v
Rollback.v
Mempool.v
MempoolCorrect.v
MempoolResync.v
GoSort.v
InternalState.v
WsLimiter.v
Sync.v
SyncCorrect.v
SyncIndex.v
Bulk.v
BulkCorrect.v
BulkSequential.v
ParallelSync.v
ParallelCorrect.v
ParallelIndex.v
EthTokens.v
EthContracts.v
EthIndex.v
EthParser.v
EthRows.v
EthContractInfo.v
EthAliases.v
EthState.v
EthRegistry.v
EthRegistryCorrect.v
EthConnect.v
EthEvents.v
EthConnectCorrect.v
EthBlock.v
EthBlockCorrect.v
EthDisconnect.v
EthUndo.v
EthDisconnectCorrect.v
EthReorg.v
EthRestore.v
EthLogs.v
EthLogsCorrect.v
EthMempool.v
EthMempoolCorrect.v
Paging.v
History.v
Xpub.v
AddressUtxo.v
BalanceHistory.v
AccountHistory.v
TtlValue.v
XpubHistory.v
ClientIP.v
