(* ===== verification/Prelude.v ===== *)
(** * Verification of the blockbook indexer

    Blockbook (the Syscoin fork) indexes a blockchain by address. A backend node is asked for
    blocks ([src/db/sync.go]); every block is processed into rows and written to RocksDB
    ([src/db/rocksdb.go], [src/db/bulkconnect.go], [src/db/rocksdb_syscointype.go]); blocks of
    a fork are undone; unconfirmed transactions are kept in a mempool
    ([src/bchain/mempool_bitcoin_type.go], [src/bchain/mempool_ethereum_type.go],
    [src/bchain/basemempool.go]); the server answers queries from these indexes
    ([src/api/worker.go], [src/api/xpub.go]). Coins of the Ethereum type have an index of their own
    ([src/db/rocksdb_ethereumtype.go], [src/db/rocksdb_contracts.go],
    [src/db/rocksdb_protocols.go]). This library models both indexes with the Syscoin assets,
    the synchronisation, the mempools, the bookkeeping around them, and the queries for the
    history, the unspent outputs and the accounts.

    ** Files, and what they model

    Foundations:
    - [Prelude]: bytes, machine integers at their width ([u32], [i32], ...), the result type
      of fallible code ([Ok], [Err], [Panic]) with its bind notation, tactics, list lemmas.
    - [Codec]: the helpers of [rocksdb.go]: big-endian and variable-length integers, big
      integers, length-prefixed fields, address keys, asset amounts. The package [vlq] is the
      class [Vlq] with its laws and a reference instance.
    - [Parser]: [bchain/types.go] (transactions, blocks), the interface [BlockChainParser] as
      the class [ChainParser], and the packing of txids and hashes of [bchain/baseparser.go].
    - [Amounts]: amounts as decimal strings, [AmountToBigInt] and [AmountToDecimalString] of
      [bchain/baseparser.go].
    - [Golomb]: [bchain/golomb.go]; the package [gcs] is the class [Gcs].

    Rows of the database:
    - [TxAddr], [Balance], [IndexCodec]: the columns txAddresses, addressBalance, addresses,
      blockTxs and height: encoders, decoders, partial readers, and the operations of
      [AddrBalance] on its unspent outputs.
    - [Store]: RocksDB as the class [KV] with its laws (and the instance [MapKV]), write
      batches, read and write faults, the readers and writers of single rows.
    - [Scan]: [GetAddrDescTransactions].
    - [FixUtxos]: the repair of the unspent outputs, [FixUtxos], [fixUtxo], [reorderUtxo].
    - [Assets]: [rocksdb_syscointype.go] and the asset rows of [coins/sys/syscoinparser.go];
      the wire format of an asset is the class [AssetWire].

    Blocks:
    - [Connect]: [processAddressesBitcoinType] and [ConnectBlock].
    - [Ledger]: the specification: transaction rows and balances agree.
    - [ConnectCorrect], [ConnectIndex], [ConnectStore], [Chain]: connecting keeps the ledger,
      counts transactions, and what it stores is read back.
    - [BlockRows]: the effect of a block on the transaction rows as a function, up to what the
      column does not store ([keptTxAddresses]).
    - [Disconnect]: [disconnectBlock] and [DisconnectBlockRangeBitcoinType];
      [DisconnectCorrect], [DisconnectStore], [Rollback]: their theorems.
    - [Bulk]: [bulkconnect.go] and the writer loop of [BulkConnectBlocks]; [BulkCorrect],
      [BulkSequential]: their theorems.
    - [ParallelSync]: the parallel download of blocks, [ParallelConnectBlocks], [BulkConnectBlocks] and
      [getBlockWorker]: the coordinator, the workers and the writer as a step relation over channels of their
      capacities. [ParallelCorrect]: theorems for any backend and writer; [ParallelIndex]: a stable
      backend and the two writers.

    The process:
    - [Mempool]: the mempool; a resync is a step relation over transactions with the workers
      that resolve their inputs. [MempoolCorrect], [MempoolResync]: its theorems.
    - [InternalState]: [common/internalstate.go].
    - [WsLimiter]: [server/websocket_rate_limiter.go]. [TtlValue]: [common/ttlvalue.go], the critical
      sections of concurrent calls as a step relation. [ClientIP]: [server/client_ip.go] and the keys
      of a new websocket connection; addresses are integers, their text the class [NetipText].
    - [Sync]: [ResyncIndex], [resyncIndex], [handleFork], [connectBlocks], [getBlockChain] over
      the interface [ChainIndex] and a backend ([World]) that may answer every call
      differently. [SyncCorrect]: theorems against the laws of the interface; [SyncIndex]: the
      database satisfies the laws.

    The index of Ethereum-type coins:
    - [EthTokens]: the tokens an address holds ([Ids], [MultiTokenValues]) and their forms whose
      integers are decoded when they are needed; [EthContracts]: the row addressContracts in
      both versions and its partly decoded form; [EthIndex]: the tracker of hot addresses
      ([address_hotness.go]) and the index over the contracts of an address.
    - [EthParser]: addresses, checksums and txids of [coins/eth/ethparser.go]; Keccak is the
      class [GoEth], the parser as the index sees it the class [EthChainParser].
    - [EthRows]: rows of blocks, internal data, failed internal data, four-byte signatures.
    - [EthContractInfo], [EthState], [EthRegistry]: rows of contracts and protocols, the cache
      of contracts with its generations, and the monad [EthM] over the state of the index;
      [EthRegistryCorrect]: its theorems. [EthAliases]: names of addresses and their cache.
    - [EthConnect], [EthBlock]: the Ethereum-type branch of [ConnectBlock] with the cache of
      address contracts, and the reconnection of internal data. [EthEvents]: the specification,
      a block is a list of events at addresses; [EthConnectCorrect], [EthBlockCorrect]: the code
      runs them.
    - [EthDisconnect]: [DisconnectBlockRangeEthereumType]. [EthUndo]: the movements of tokens and
      their reverse; [EthDisconnectCorrect]: the code runs a list of operations; [EthReorg],
      [EthRestore]: the operations take back what the events did.
    - [EthLogs]: the token transfers and names in the logs of a transaction
      ([coins/eth/contract.go], [coins/eth/ens.go]); what it uses of go-ethereum's addresses is the
      class [GoEthCommon]. [EthLogsCorrect]: its theorems.
    - [EthMempool]: [bchain/mempool_ethereum_type.go]; the calls that run concurrently are a step
      relation over their critical sections. [EthMempoolCorrect]: its theorems.

    Queries:
    - [Paging]: [computePaging], [computeAccountPaging] and the checks of paging parameters.
    - [History]: [getAddressTxids] and the paged history of an address in [GetAddress].
    - [AddressUtxo]: [getAddrDescUtxo]. [BalanceHistory]: [SortAndAggregate]; [AccountHistory]: the
      balance history of an address and of an account, without fiat rates.
    - [Xpub]: the accounts of extended public keys of [api/xpub.go]: configuration, scan of
      addresses, cache. Deriving addresses is the class [XpubDeriver]. [XpubHistory]: the transactions
      of its addresses, extended incrementally.

    State is passed explicitly; Go maps are [gmap]s, and where the order of a map walk can
    matter it is an argument or the theorem holds for any order. A run-time panic is [Panic],
    an error value is [Err].

    ** What the theorems show

    - Encodings: rows are read back as stored, with what follows them untouched; readers of a
      part agree with the full decoders; keys order the rows of an address by height.
    - Amounts: a printed amount is read back; scientific notation is read exactly.
    - Ledger: after any sequence of connected blocks, and after a block is disconnected, the
      balance of every indexed address is the sum of its listed unspent outputs, which are
      exactly the unspent outputs that the transaction rows give to it; counters and index
      rows are those of the block. A disconnected block leaves the rows of the other
      transactions, with the outputs that its inputs with an address spent unspent again.
    - Bulk connecting reaches the same rows, in everything they store, and the same balances as
      connecting one by one, whatever is written early and in whatever order, and leaves the rows
      of every block.
    - Parallel download: whatever the interleaving and the answers of the backend, the writer gets
      the blocks of the range in order; without a shutdown no round gets stuck; over a stable
      backend every round ends and has connected and announced the whole range.
    - Queries: the history scan reports exactly the transactions in the range, newest first,
      or an error; the best block is the highest. A page of the history, computed from the first
      part of it, is the window of the whole history; unspent outputs are listed once and none that
      a pending transaction spends; the scan of an account ends within its limit and finds every
      used address before the first gap; the cache of accounts keeps its caps by evicting the
      oldest entries; a balance history sums up every interval and,
      over an account, what its transactions move, or is refused when it is too long.
    - Repair: every balance is checked once; outputs are reordered, or rebuilt from the history
      so that they sum up to the balance; nothing else changes.
    - Rollback: all undo data is checked before anything changes; blocks are undone from the
      top down.
    - Synchronisation: with a stable backend a resync finds the fork, undoes exactly the blocks
      above it, connects the rest in order and ends, on the real database too, where the undo
      rows of the fork can be reversed.
    - Mempool: whatever the interleaving of the workers, a resync leaves exactly the
      listed transactions, and the address index is the exact inverse of the entries. The mempool
      of Ethereum-type coins keeps its index under any interleaving of its critical sections and any
      answers of the backend, as long as no two additions of a transaction overlap; a
      resync leaves exactly the entries that are listed or new and not timed out, and a mined nonce
      retires exactly the entries it makes impossible.
    - Ethereum-type coins: holdings are sets and maps whether decoded or not; a lookup of a
      contract answers the same with and without the index; the hot addresses are those used last,
      in the order of their use; connecting a block computes the
      events of the block whatever is cached; disconnecting the block restores the row of every
      address but the zero address, when the senders held what they sent; the caches of contracts
      and names answer what the database says; rows, addresses and checksums are read back. Transfers encoded as the token standards
      say are read from the logs as they were; whatever contracts log, the decoders do not panic.
    - A time-to-live value: at most one fetch runs, also when it panics; answers are those of the last
      fetch.
    - Limits: open connections are counted exactly and never pass the limit; the message
      counter is that of the last 60 buckets; blocked clients are refused exactly as long as
      some request says so. A peer that is not trusted cannot change the address it is limited
      under; no address of a proxy or of the local network is blocked.
    - Findings are theorems too: a rollback to height 0 ends in a panic, outputs without
      address stay spent after a disconnect, a rebuilt output loses its asset, a block search
      misses an out-of-order tail, a reorganisation between two calls of a resync goes unnoticed,
      a lookup before a batch is written outdates the caches of signatures and contracts, a
      healed creation loses a later destruction, two overlapping calls list a pending transaction
      twice or leave an outpoint that is never removed, a sender that did not hold a token gets it
      when the transfer is disconnected, a shutdown can park the parallel download for ever, and a
      balance history drops the transactions before its first interval.

    ** Bounds and fuel

    Loops over a counter or over the backend take fuel: the parser of blockTxs gets the length
    of its buffer, the rollback loop one more than the number of blocks, and the theorems about
    the sync state the fuel that is enough (the blocks on both sides of the fork, plus two). The
    scan of an account takes one more than the limit of derivations, because every round derives
    an address.
    Theorems about encodings carry the bounds under which they hold (amounts below 2^1984,
    lengths and heights at 32 bits); the hypotheses on blocks ([connectable],
    [bulk_connectable]) say that txids are new, no output is spent twice and the rows fit.
    For Ethereum-type blocks [EthBlockCorrect.connectable] says that txids can be packed and the
    rows fit, and [EthRestore.reorgable] that tokens that leave were held, that addresses new in
    the block are not cached yet and that the zero address has enough transactions.

    ** Not modelled

    - Of the Ethereum-type coins: the protobuf form of transactions,
      [SortAddressContracts] and the bulk connect.
    - The channels of the mempool workers: a resync hands transactions and inputs to the workers
      as independent steps ([Mempool.rstep]), so blocking on a full channel is not expressed.
    - Calls that read the time before they wait for a lock: the limiter is called in the order of time.
    - Of [api]: transactions with their details, contracts, assets, statistics of blocks and fee
      estimates, and the merged transactions of an account of an extended public key. Of [server]: the
      handlers of requests, the limiter of REST calls and the rendering; its websocket limits, the
      addresses of clients and its checks of paging parameters are modelled.
    - RPC clients and parsers of the coins ([bchain/coins]), fiat rates, metrics, logging,
      configuration, start-up: input and output, or parameters of the model.
    - Locks: operations that a lock makes atomic are single steps. *)

From stdpp Require Export base list list_numbers gmap sorting countable strings.
From Stdlib Require Export Init.Byte.
From Stdlib Require Import Strings.Byte.
From Stdlib Require Export ZArith Lia.

Local Open Scope Z_scope.

(** ** Bytes and machine integers *)

Abbreviation bytes := (list byte).

(** The unsigned value of a byte, and Go's conversion [byte(x)]. *)
Definition b2z (b : byte) : Z := Z.of_N (Byte.to_N b).

Definition z2b (z : Z) : byte :=
  match Byte.of_N (Z.to_N (z mod 256)) with
  | Some b => b
  | None => x00
  end.

#[export] Instance byte_eq_decision : EqDecision byte := Byte.byte_eq_dec.

#[export] Program Instance byte_countable : Countable byte :=
  inj_countable Byte.to_N Byte.of_N Byte.of_to_N.

(** Wrap-around of Go's fixed-width integer conversions. *)
Definition u32 (z : Z) : Z := z mod 2 ^ 32.
Definition u64 (z : Z) : Z := z mod 2 ^ 64.
Definition i32 (z : Z) : Z := (z + 2 ^ 31) mod 2 ^ 32 - 2 ^ 31.
Definition i64 (z : Z) : Z := (z + 2 ^ 63) mod 2 ^ 64 - 2 ^ 63.

(** The ranges of the Go integer types. *)
Definition is_u32 (z : Z) : Prop := 0 <= z < 2 ^ 32.
Definition is_u64 (z : Z) : Prop := 0 <= z < 2 ^ 64.
Definition is_i32 (z : Z) : Prop := - 2 ^ 31 <= z < 2 ^ 31.
Definition is_i64 (z : Z) : Prop := - 2 ^ 63 <= z < 2 ^ 63.

#[export] Instance is_u32_dec z : Decision (is_u32 z).
Proof. unfold is_u32. apply _. Defined.
#[export] Instance is_u64_dec z : Decision (is_u64 z).
Proof. unfold is_u64. apply _. Defined.
#[export] Instance is_i32_dec z : Decision (is_i32 z).
Proof. unfold is_i32. apply _. Defined.

(** Go's [^x] on [uint32]; on signed integers [^x] is [Z.lnot x]. *)
Definition not32 (z : Z) : Z := Z.lxor z (2 ^ 32 - 1).

Definition zlen {A} (l : list A) : Z := Z.of_nat (length l).

(** Lexicographic comparison of byte slices ([bytes.Compare]). *)
Fixpoint bytes_compare (a b : bytes) : comparison :=
  match a, b with
  | [], [] => Eq
  | [], _ :: _ => Lt
  | _ :: _, [] => Gt
  | x :: a', y :: b' =>
      match b2z x ?= b2z y with
      | Eq => bytes_compare a' b'
      | c => c
      end
  end.

(** Big-endian encoding of [z] on [n] bytes, and decoding. *)
Fixpoint be_put (n : nat) (z : Z) : bytes :=
  match n with
  | O => []
  | S n' => z2b (Z.shiftr z (8 * Z.of_nat n')) :: be_put n' z
  end.

Definition be_get (l : bytes) : Z :=
  fold_left (fun a b => a * 256 + b2z b) l 0.

(** ** Errors and panics

    A Go function that can fail returns [Err]; a run-time panic (slice or index
    out of range, nil map write) is [Panic]. *)

Inductive goerror : Type :=
| ErrTxidMissing
| ErrAddressMissing
| ErrBlockNotFound
| ErrNetwork                  (* a timeout, or a connection that is closed or refused *)
| ErrDB                       (* an error reported by the storage engine *)
| ErrStop                     (* StopIteration, returned by a callback *)
| ErrMsg (msg : string).

#[export] Instance goerror_eq_decision : EqDecision goerror.
Proof. solve_decision. Defined.

Inductive result (A : Type) : Type :=
| Ok (a : A)
| Err (e : goerror)
| Panic.
Arguments Ok {A} a.
Arguments Err {A} e.
Arguments Panic {A}.

Definition rbind {A B} (r : result A) (k : A -> result B) : result B :=
  match r with
  | Ok a => k a
  | Err e => Err e
  | Panic => Panic
  end.

Declare Scope go_scope.
Delimit Scope go_scope with go.

Notation "'let!' x ':=' e 'in' k" := (rbind e (fun x => k))
  (at level 10, x name, e at level 100, k at level 200,
   format "'[v' 'let!'  x  ':='  e  'in' '/' k ']'") : go_scope.
Notation "'let!' ' x ':=' e 'in' k" := (rbind e (fun x => k))
  (at level 10, x strict pattern, e at level 100, k at level 200) : go_scope.
Open Scope go_scope.

(** A Go loop over a slice with early exit on error. *)
Fixpoint rfold {A S} (f : S -> A -> result S) (l : list A) (s : S) : result S :=
  match l with
  | [] => Ok s
  | a :: l' => let! s' := f s a in rfold f l' s'
  end.

(** ** Slices: [buf[i:]], [buf[i:j]] and [buf[i]] with their run-time checks. *)

Definition slice_from {A} (buf : list A) (i : Z) : result (list A) :=
  if (0 <=? i) && (i <=? zlen buf) then Ok (drop (Z.to_nat i) buf) else Panic.

Definition slice {A} (buf : list A) (i j : Z) : result (list A) :=
  if (0 <=? i) && (i <=? j) && (j <=? zlen buf)
  then Ok (take (Z.to_nat (j - i)) (drop (Z.to_nat i) buf)) else Panic.

Definition index {A} (buf : list A) (i : Z) : result A :=
  if 0 <=? i then
    match buf !! Z.to_nat i with Some b => Ok b | None => Panic end
  else Panic.

(** ** Automation *)

Create HintDb bb discriminated.
#[export] Hint Constants Opaque : bb.

(** Case analysis on the tests of the code, turned into arithmetic facts. *)
Ltac case_test :=
  match goal with
  | |- context [?a <=? ?b] => destruct (Z.leb_spec a b)
  | |- context [?a <? ?b] => destruct (Z.ltb_spec a b)
  | |- context [?a =? ?b] => destruct (Z.eqb_spec a b)
  end.

Ltac case_tests := repeat (case_test; cbn [andb orb negb] in *; try lia).

(** Invert a bind that returned a value. *)
Ltac bind_inv H :=
  match type of H with
  | rbind ?e _ = Ok _ =>
      let E := fresh "E" in
      destruct e eqn:E; cbn [rbind] in H; [| discriminate H | discriminate H]
  end.
Ltac bind_invs H := repeat bind_inv H.

(** Goals [l ≡ₚ l'] between concatenations of the same pieces: each piece of the left side
    is cancelled after the right side is rotated to it. *)
Ltac perm_norm := repeat rewrite <- app_assoc; rewrite ?app_nil_r; cbn [app].

Ltac perm_rotate :=
  lazymatch goal with
  | |- _ ≡ₚ ?p ++ ?r => transitivity (r ++ p); [|apply Permutation_app_comm]
  | |- _ ≡ₚ ?x :: ?r => transitivity (r ++ [x]); [|symmetry; apply Permutation_cons_append]
  end; perm_norm.

Ltac perm_loop n :=
  first [ reflexivity
        | apply Permutation_app_head; perm_loop constr:(12%nat)
        | apply perm_skip; perm_loop constr:(12%nat)
        | lazymatch n with S ?m => perm_rotate; perm_loop m end ].

Ltac perm := perm_norm; perm_loop constr:(12%nat).

(** ** Byte lemmas *)

Lemma b2z_range b : 0 <= b2z b < 256.
Proof.
  unfold b2z. pose proof (Byte.to_N_bounded b). lia.
Qed.

Lemma b2z_inj a b : b2z a = b2z b -> a = b.
Proof.
  unfold b2z. intros H%N2Z.inj.
  pose proof (Byte.of_to_N a) as Ha. rewrite H, Byte.of_to_N in Ha. congruence.
Qed.

Lemma b2z_z2b z : b2z (z2b z) = z mod 256.
Proof.
  unfold b2z, z2b. pose proof (Z.mod_pos_bound z 256 ltac:(lia)).
  destruct (Byte.of_N _) as [b|] eqn:E.
  - apply Byte.to_of_N in E. rewrite E. lia.
  - apply Byte.of_N_None_iff in E. lia.
Qed.

Lemma z2b_b2z b : z2b (b2z b) = b.
Proof. apply b2z_inj. rewrite b2z_z2b. apply Z.mod_small, b2z_range. Qed.

Lemma z2b_mod z : z2b (z mod 256) = z2b z.
Proof. apply b2z_inj. rewrite !b2z_z2b. apply Z.mod_mod. lia. Qed.

(** ** Machine-integer lemmas *)

Lemma u32_id z : is_u32 z -> u32 z = z.
Proof. unfold is_u32, u32. intros. apply Z.mod_small. lia. Qed.

Lemma u64_id z : is_u64 z -> u64 z = z.
Proof. unfold is_u64, u64. intros. apply Z.mod_small. lia. Qed.

Lemma i32_id z : is_i32 z -> i32 z = z.
Proof. unfold is_i32, i32. intros. rewrite Z.mod_small; lia. Qed.

Lemma i64_id z : is_i64 z -> i64 z = z.
Proof. unfold is_i64, i64. intros. rewrite Z.mod_small; lia. Qed.

Lemma u32_range z : is_u32 (u32 z).
Proof. unfold is_u32, u32. apply Z.mod_pos_bound. lia. Qed.

Lemma u64_range z : is_u64 (u64 z).
Proof. unfold is_u64, u64. apply Z.mod_pos_bound. lia. Qed.

Lemma i32_range z : is_i32 (i32 z).
Proof.
  unfold is_i32, i32. pose proof (Z.mod_pos_bound (z + 2 ^ 31) (2 ^ 32)). lia.
Qed.

(** A 32-bit signed value survives the round trip through [uint]. *)
Lemma i32_u64 z : is_i32 z -> i32 (u64 z) = z.
Proof.
  unfold is_i32, i32, u64. intros.
  rewrite <- Zplus_mod_idemp_l.
  replace (2 ^ 64) with (2 ^ 32 * 2 ^ 32) by reflexivity.
  rewrite Z.mod_mod_divide by (exists (2 ^ 32); lia).
  rewrite Zplus_mod_idemp_l, Z.mod_small; lia.
Qed.

Lemma i64_u64 z : is_i64 z -> i64 (u64 z) = z.
Proof.
  unfold is_i64, i64, u64. intros. rewrite Zplus_mod_idemp_l, Z.mod_small; lia.
Qed.

Lemma u64_i64_add a b : 0 <= i64 a + b < 2 ^ 63 -> u64 (a + b) = i64 a + b.
Proof.
  unfold u64, i64. intros H.
  assert (a = (a + 2 ^ 63) mod 2 ^ 64 - 2 ^ 63 + 2 ^ 64 * ((a + 2 ^ 63) / 2 ^ 64)) as Ha.
  { pose proof (Z.div_mod (a + 2 ^ 63) (2 ^ 64) ltac:(lia)). lia. }
  set (r := (a + 2 ^ 63) mod 2 ^ 64) in *. set (q := (a + 2 ^ 63) / 2 ^ 64) in *.
  replace (a + b) with (r - 2 ^ 63 + b + q * 2 ^ 64) by lia.
  rewrite Z.mod_add by lia. apply Z.mod_small. lia.
Qed.

(** ** Lists and slices *)

Lemma zlen_nonneg {A} (l : list A) : 0 <= zlen l.
Proof. unfold zlen. lia. Qed.

Lemma zlen_app {A} (a b : list A) : zlen (a ++ b) = zlen a + zlen b.
Proof. unfold zlen. rewrite length_app. lia. Qed.

Lemma zlen_cons {A} (x : A) l : zlen (x :: l) = 1 + zlen l.
Proof. unfold zlen. cbn [length]. lia. Qed.

Lemma zlen_0 {A} (l : list A) : zlen l = 0 -> l = [].
Proof. unfold zlen. intros H. apply nil_length_inv. lia. Qed.

Lemma zlen_nil {A} : zlen (@nil A) = 0.
Proof. reflexivity. Qed.

Create HintDb zlen discriminated.
#[export] Hint Rewrite @zlen_app @zlen_cons @zlen_nil : zlen.

(** Arithmetic about lengths: normalise [zlen], recall it is not negative. *)
Ltac zlen_lia :=
  autorewrite with zlen in *;
  repeat match goal with
  | |- context [zlen ?l] =>
      lazymatch goal with
      | _ : 0 <= zlen l |- _ => fail
      | _ => pose proof (zlen_nonneg l)
      end
  | _ : context [zlen ?l] |- _ =>
      lazymatch goal with
      | _ : 0 <= zlen l |- _ => fail
      | _ => pose proof (zlen_nonneg l)
      end
  end; lia.

Lemma to_nat_zlen {A} (l : list A) : Z.to_nat (zlen l) = length l.
Proof. unfold zlen. lia. Qed.

Lemma slice_from_app {A} (a b : list A) i :
  i = zlen a -> slice_from (a ++ b) i = Ok b.
Proof.
  intros ->. unfold slice_from. case_tests; try zlen_lia.
  unfold zlen. by rewrite Nat2Z.id, drop_app_length.
Qed.

Lemma slice_from_0 {A} (b : list A) : slice_from b 0 = Ok b.
Proof. apply (slice_from_app []). reflexivity. Qed.

Lemma slice_app {A} (a b c : list A) i j :
  i = zlen a -> j = zlen a + zlen b -> slice (a ++ b ++ c) i j = Ok b.
Proof.
  intros -> ->. unfold slice. case_tests; try zlen_lia.
  replace (zlen a + zlen b - zlen a) with (zlen b) by lia.
  unfold zlen. by rewrite !Nat2Z.id, drop_app_length, take_app_length.
Qed.

Lemma slice_0_app {A} (b c : list A) j : j = zlen b -> slice (b ++ c) 0 j = Ok b.
Proof. intros ->. by apply (slice_app []). Qed.

Lemma slice_0_app' {A} (b c : list A) i j :
  i = 0 -> j = zlen b -> slice (b ++ c) i j = Ok b.
Proof. intros -> ->. by apply slice_0_app. Qed.

(** Skipping a prefix that lies before the accessed positions. *)
Lemma slice_from_skip {A} (a b : list A) i :
  zlen a <= i -> slice_from (a ++ b) i = slice_from b (i - zlen a).
Proof.
  intros Hi. unfold slice_from. case_tests; try zlen_lia; cbn; try done.
  rewrite drop_app_ge by (unfold zlen in *; lia). unfold zlen in *. do 2 f_equal. lia.
Qed.

Lemma slice_skip {A} (a b : list A) i j :
  zlen a <= i -> slice (a ++ b) i j = slice b (i - zlen a) (j - zlen a).
Proof.
  intros Hi. unfold slice. case_tests; try zlen_lia; cbn; try done.
  rewrite drop_app_ge by (unfold zlen in *; lia). unfold zlen in *.
  f_equal. f_equal; [lia|]. f_equal. lia.
Qed.

Lemma index_skip {A} (a b : list A) i :
  zlen a <= i -> index (a ++ b) i = index b (i - zlen a).
Proof.
  intros Hi. unfold index. case_tests; try zlen_lia.
  rewrite lookup_app_r by (unfold zlen in *; lia). unfold zlen in *.
  by replace (Z.to_nat i - length a)%nat with (Z.to_nat (i - Z.of_nat (length a))) by lia.
Qed.

(** Evaluate a slice expression on a concatenation of pieces whose lengths add up
    to its bounds. *)
Ltac eval_slice :=
  match goal with
  | |- context [slice_from (?a ++ ?b) ?i] =>
      first
        [ rewrite (slice_from_skip a b i) by zlen_lia; eval_slice
        | replace i with 0 by zlen_lia; rewrite slice_from_0 ]
  | |- context [slice_from ?b ?i] =>
      replace i with 0 by zlen_lia; rewrite slice_from_0
  | |- context [slice (?a ++ ?b) ?i ?j] =>
      first
        [ rewrite (slice_0_app' a b i j) by zlen_lia
        | rewrite (slice_skip a b i j) by zlen_lia; eval_slice ]
  end; cbn [rbind].

Lemma index_app {A} (a : list A) x b i : i = zlen a -> index (a ++ x :: b) i = Ok x.
Proof.
  intros ->. unfold index. case_tests; try zlen_lia.
  unfold zlen. by rewrite Nat2Z.id, list_lookup_middle.
Qed.

Lemma index_0 {A} (x : A) l : index (x :: l) 0 = Ok x.
Proof. reflexivity. Qed.

Lemma index_Ok {A} (l : list A) i x :
  index l i = Ok x -> 0 <= i < zlen l /\ l !! Z.to_nat i = Some x.
Proof.
  unfold index. case_tests; [|discriminate]. destruct (l !! Z.to_nat i) eqn:E; [|discriminate].
  intros [= ->]. apply lookup_lt_Some in E as Hl. unfold zlen. split; [lia|done].
Qed.

Lemma slice_from_Ok {A} (buf r : list A) i :
  slice_from buf i = Ok r ->
  0 <= i <= zlen buf /\ r = drop (Z.to_nat i) buf /\ zlen r = zlen buf - i.
Proof.
  unfold slice_from. case_tests; cbn; intros [= <-]; try discriminate.
  split_and!; [lia .. | done |].
  unfold zlen in *. rewrite length_drop. lia.
Qed.

Lemma slice_Ok {A} (buf r : list A) i j :
  slice buf i j = Ok r -> 0 <= i /\ i <= j /\ j <= zlen buf /\ zlen r = j - i.
Proof.
  unfold slice. case_tests; cbn; intros [= <-]; try discriminate.
  split_and!; [lia .. |]. unfold zlen in *. rewrite length_take, length_drop. lia.
Qed.

Lemma slice_from_slice_from {A} (buf r r' : list A) i j :
  slice_from buf i = Ok r -> slice_from r j = Ok r' ->
  slice_from buf (i + j) = Ok r'.
Proof.
  intros (Hi & -> & Hl)%slice_from_Ok (Hj & -> & Hl')%slice_from_Ok.
  unfold slice_from. case_tests; cbn; try lia.
  rewrite drop_drop. do 2 f_equal. lia.
Qed.

Lemma index_slice_from {A} (buf r : list A) i j c :
  slice_from buf i = Ok r -> index r j = Ok c -> index buf (i + j) = Ok c.
Proof.
  intros (Hi & -> & Hl)%slice_from_Ok (Hj & Hc)%index_Ok.
  unfold index. case_tests. rewrite lookup_drop in Hc.
  replace (Z.to_nat (i + j)) with (Z.to_nat i + Z.to_nat j)%nat by lia. by rewrite Hc.
Qed.

Lemma rbind_Ok {A B} (r : result A) (k : A -> result B) b :
  rbind r k = Ok b <-> exists a, r = Ok a /\ k a = Ok b.
Proof. destruct r; cbn; split; intros H; [eauto | destruct H as (? & [= ->] & ?); done | done | destruct H as (? & [=] & ?) | done | destruct H as (? & [=] & ?)]. Qed.

Lemma rfold_app {A S} (f : S -> A -> result S) l1 l2 s :
  rfold f (l1 ++ l2) s = let! s' := rfold f l1 s in rfold f l2 s'.
Proof.
  revert s. induction l1 as [|a l1 IH]; intros s; cbn; [done|].
  destruct (f s a); cbn; auto.
Qed.

(** Rule for loops: an invariant kept by every iteration holds at the end. *)
Lemma rfold_inv {A S} (f : S -> A -> result S) (P : list A -> S -> Prop) l s s' :
  P [] s ->
  (forall done a rest s1 s2, l = done ++ a :: rest -> P done s1 -> f s1 a = Ok s2 ->
     P (done ++ [a]) s2) ->
  rfold f l s = Ok s' -> P l s'.
Proof.
  intros H0 Hstep. 
  cut (forall done rest s1, l = done ++ rest -> P done s1 ->
         rfold f rest s1 = Ok s' -> P l s').
  { intros Hc H. eapply (Hc [] l s); eauto. }
  intros done rest. revert done. induction rest as [|a rest IH]; intros done s1 Hl HP H.
  - rewrite app_nil_r in Hl. subst. cbn in H. congruence.
  - cbn in H. apply rbind_Ok in H as (s2 & Hf & H).
    eapply (IH (done ++ [a]) s2); [by rewrite <- app_assoc | by eapply Hstep | done].
Qed.

(** Rule for loops that finish: when every iteration succeeds, so does the loop. *)
Lemma rfold_total {A S} (f : S -> A -> result S) (P : list A -> S -> Prop) l s :
  P [] s ->
  (forall done a rest s1, l = done ++ a :: rest -> P done s1 ->
     exists s2, f s1 a = Ok s2 /\ P (done ++ [a]) s2) ->
  exists s', rfold f l s = Ok s' /\ P l s'.
Proof.
  intros H0 Hstep.
  cut (forall done rest s1, l = done ++ rest -> P done s1 ->
         exists s', rfold f rest s1 = Ok s' /\ P l s').
  { intros Hc. by apply (Hc [] l s). }
  intros done rest. revert done. induction rest as [|a rest IH]; intros done s1 Hl HP.
  - rewrite app_nil_r in Hl. subst. by exists s1.
  - destruct (Hstep done a rest s1 Hl HP) as (s2 & Hf & HP2). cbn. rewrite Hf. cbn.
    apply (IH (done ++ [a]) s2); [by rewrite <- app_assoc|done].
Qed.

(** ** Filters *)

Lemma filter_all {A} (Q : A -> Prop) `{forall x, Decision (Q x)} (l : list A) :
  (forall x, x ∈ l -> Q x) -> filter Q l = l.
Proof.
  induction l as [|x l IH]; intros Hl; [done|].
  rewrite filter_cons_True by (apply Hl; left). rewrite IH; [done|]. intros y Hy. apply Hl. by right.
Qed.

Lemma filter_none {A} (Q : A -> Prop) `{forall x, Decision (Q x)} (l : list A) :
  (forall x, x ∈ l -> ~ Q x) -> filter Q l = [].
Proof.
  induction l as [|x l IH]; intros Hl; [done|].
  rewrite filter_cons_False by (apply Hl; left). apply IH. intros y Hy. apply Hl. by right.
Qed.

Lemma zlen_pos {A} (l : list A) : (0 <? zlen l) = true <-> l <> [].
Proof. destruct l; unfold zlen; cbn [length]; split; intros; [done..|by apply Z.ltb_lt]. Qed.

(** ** Big-endian integers *)

Lemma pow256_pos n : 0 <= n -> 0 < 256 ^ n.
Proof. intros. by apply Z.pow_pos_nonneg. Qed.

Lemma be_put_length n z : length (be_put n z) = n.
Proof. induction n; cbn; auto. Qed.

Lemma zlen_be_put n z : zlen (be_put n z) = Z.of_nat n.
Proof. unfold zlen. by rewrite be_put_length. Qed.
#[export] Hint Rewrite zlen_be_put : zlen.

Lemma be_get_acc l a :
  fold_left (fun a b => a * 256 + b2z b) l a = a * 256 ^ zlen l + be_get l.
Proof.
  unfold be_get. revert a. induction l as [|b l IH]; intros a; cbn [fold_left].
  - rewrite zlen_nil. lia.
  - rewrite (IH (a * 256 + b2z b)), (IH (0 * 256 + b2z b)), zlen_cons.
    rewrite Z.pow_add_r by zlen_lia. lia.
Qed.

Lemma be_get_cons b l : be_get (b :: l) = b2z b * 256 ^ zlen l + be_get l.
Proof. unfold be_get at 1. cbn [fold_left]. rewrite be_get_acc. lia. Qed.

Lemma be_get_app a b : be_get (a ++ b) = be_get a * 256 ^ zlen b + be_get b.
Proof. unfold be_get at 1. rewrite fold_left_app, be_get_acc. reflexivity. Qed.

Lemma be_get_range l : 0 <= be_get l < 256 ^ zlen l.
Proof.
  induction l as [|b l IH]; [by split|].
  rewrite be_get_cons, zlen_cons, Z.pow_add_r by zlen_lia.
  pose proof (b2z_range b). nia.
Qed.

Lemma be_get_put n z : be_get (be_put n z) = z mod 256 ^ Z.of_nat n.
Proof.
  induction n as [|n IH].
  - cbn. by rewrite Z.mod_1_r.
  - cbn [be_put]. rewrite be_get_cons, IH, b2z_z2b, zlen_be_put.
    rewrite Z.shiftr_div_pow2 by lia.
    replace (2 ^ (8 * Z.of_nat n)) with (256 ^ Z.of_nat n) by (by rewrite Z.pow_mul_r by lia).
    rewrite Nat2Z.inj_succ, Z.pow_succ_r by lia.
    pose proof (pow256_pos (Z.of_nat n) ltac:(lia)).
    rewrite (Z.mul_comm 256), Z.rem_mul_r by lia. lia.
Qed.

Lemma be_put_small n z : 0 <= z < 256 ^ Z.of_nat n -> be_get (be_put n z) = z.
Proof. intros. rewrite be_get_put. by apply Z.mod_small. Qed.

Lemma be_put_get l : be_put (length l) (be_get l) = l.
Proof.
  induction l as [|b l IH]; [done|]. cbn [length be_put]. f_equal.
  - rewrite be_get_cons. apply b2z_inj. rewrite b2z_z2b, Z.shiftr_div_pow2 by lia.
    replace (2 ^ (8 * Z.of_nat (length l))) with (256 ^ zlen l)
      by (unfold zlen; by rewrite Z.pow_mul_r by lia).
    pose proof (be_get_range l). pose proof (b2z_range b).
    pose proof (pow256_pos (zlen l) ltac:(zlen_lia)).
    rewrite Z.div_add_l, Z.div_small, Z.add_0_r by lia. apply Z.mod_small. lia.
  - rewrite be_get_cons. transitivity (be_put (length l) (be_get l)); [clear IH|done].
    generalize (be_get l) as v. intros v.
    enough (forall n k, Z.of_nat n <= zlen l ->
              be_put n (k * 256 ^ zlen l + v) = be_put n v) as Hn.
    { apply Hn. unfold zlen. lia. }
    induction n as [|n IHn]; intros k Hk; [done|]. cbn [be_put]. f_equal; [|apply IHn; lia].
    rewrite !Z.shiftr_div_pow2 by lia. apply b2z_inj. rewrite !b2z_z2b.
    rewrite Z.pow_mul_r by lia. change (2 ^ 8) with 256.
    replace (zlen l) with (Z.of_nat n + (1 + (zlen l - Z.of_nat n - 1))) by lia.
    rewrite !Z.pow_add_r by lia.
    replace (k * (256 ^ Z.of_nat n * (256 ^ 1 * 256 ^ (zlen l - Z.of_nat n - 1))))
      with ((k * 256 ^ (zlen l - Z.of_nat n - 1) * 256) * 256 ^ Z.of_nat n) by ring.
    pose proof (pow256_pos (Z.of_nat n) ltac:(lia)).
    rewrite Z.div_add_l by lia.
    rewrite Z.add_comm, Z.mod_add by lia. done.
Qed.

(** [bytes.Compare] of encodings of the same width is the order of the numbers. *)
Lemma bytes_compare_be a b :
  length a = length b -> bytes_compare a b = (be_get a ?= be_get b).
Proof.
  revert b. induction a as [|x a IH]; intros [|y b] Hl; try discriminate; [done|].
  injection Hl as Hl. cbn [bytes_compare].
  rewrite !be_get_cons. replace (zlen b) with (zlen a) by (unfold zlen; lia).
  pose proof (be_get_range a). pose proof (be_get_range b) as Hb.
  replace (zlen b) with (zlen a) in Hb by (unfold zlen; lia).
  destruct (Z.compare_spec (b2z x) (b2z y)) as [->|Hlt|Hlt].
  - rewrite IH by done.
    destruct (Z.compare_spec (be_get a) (be_get b)); symmetry;
      [apply Z.compare_eq_iff | apply Z.compare_lt_iff | apply Z.compare_gt_iff]; lia.
  - symmetry. apply Z.compare_lt_iff. nia.
  - symmetry. apply Z.compare_gt_iff. nia.
Qed.

Lemma bytes_compare_app p a b : bytes_compare (p ++ a) (p ++ b) = bytes_compare a b.
Proof. induction p as [|x p IH]; cbn; [done|]. by rewrite Z.compare_refl. Qed.

Lemma bytes_compare_eq a b : bytes_compare a b = Eq <-> a = b.
Proof.
  split; [|intros ->; induction b; cbn; rewrite ?Z.compare_refl; auto].
  revert b. induction a as [|x a IH]; intros [|y b]; cbn; try discriminate; [done|].
  destruct (Z.compare_spec (b2z x) (b2z y)) as [->%b2z_inj| |]; try discriminate.
  intros ->%IH. done.
Qed.

Lemma bytes_compare_antisym a b : bytes_compare b a = CompOpp (bytes_compare a b).
Proof.
  revert b. induction a as [|x a IH]; intros [|y b]; cbn; try done.
  rewrite (Z.compare_antisym (b2z x) (b2z y)).
  destruct (b2z x ?= b2z y); cbn; auto.
Qed.

Lemma bytes_compare_trans a b c :
  bytes_compare a b = Lt -> bytes_compare b c = Lt -> bytes_compare a c = Lt.
Proof.
  revert b c. induction a as [|x a IH]; intros [|y b] [|z c]; cbn; try discriminate; auto.
  destruct (Z.compare_spec (b2z x) (b2z y)) as [Exy|Hxy|]; try discriminate;
  destruct (Z.compare_spec (b2z y) (b2z z)) as [Eyz|Hyz|]; try discriminate; intros.
  - rewrite Exy, Eyz, Z.compare_refl. by eapply IH.
  - by rewrite Exy, (proj2 (Z.compare_lt_iff _ _) Hyz).
  - by rewrite <- Eyz, (proj2 (Z.compare_lt_iff _ _) Hxy).
  - by rewrite (proj2 (Z.compare_lt_iff (b2z x) (b2z z))) by lia.
Qed.

(** ** Sums over lists *)

Fixpoint sumZ {A} (f : A -> Z) (l : list A) : Z :=
  match l with
  | [] => 0
  | x :: r => f x + sumZ f r
  end.

Lemma sumZ_app {A} (f : A -> Z) l1 l2 : sumZ f (l1 ++ l2) = sumZ f l1 + sumZ f l2.
Proof. induction l1 as [|x l1 IH]; cbn [app sumZ]; [done|]. rewrite IH. ring. Qed.

#[export] Instance sumZ_perm {A} (f : A -> Z) : Proper (Permutation ==> eq) (sumZ f).
Proof. induction 1; cbn [sumZ]; lia. Qed.

Lemma sumZ_nonneg {A} (f : A -> Z) l : Forall (fun x => 0 <= f x) l -> 0 <= sumZ f l.
Proof. induction 1; cbn [sumZ]; lia. Qed.

Lemma sumZ_take {A} (f : A -> Z) l k : (forall e, 0 <= f e) -> 0 <= sumZ f (take k l) <= sumZ f l.
Proof.
  intros Hf. revert k. induction l as [|e l IH]; intros k; [by rewrite take_nil|]. destruct k as [|k]; cbn [take sumZ].
  - specialize (IH 0%nat). specialize (Hf e). rewrite take_0 in IH. cbn in IH. lia.
  - specialize (IH k). specialize (Hf e). lia.
Qed.

(** ** Concatenations *)

Lemma concat_perm {A} (l l' : list (list A)) : l ≡ₚ l' -> concat l ≡ₚ concat l'.
Proof.
  induction 1; cbn [concat]; [done|by f_equiv| |by etransitivity]. rewrite !app_assoc. f_equiv. apply Permutation_app_comm.
Qed.

Lemma foldl_appends {A} (f : bytes -> A -> bytes) (enc : A -> bytes) buf xs :
  (forall b x, f b x = b ++ enc x) -> foldl f buf xs = buf ++ concat (map enc xs).
Proof.
  intros Hf. revert buf. induction xs as [|x xs IH]; intros buf; cbn [foldl map concat]; [by rewrite app_nil_r|].
  by rewrite IH, Hf, <- app_assoc.
Qed.
