(* ===== verification/Codec.v ===== *)
(** Primitive encodings of the database layer (the "Helpers" part of
    [db/rocksdb.go]): variable-length integers, big-endian heights, address keys,
    length-prefixed byte strings, big integers and the optional asset suffix.

    The variable-length integers come from the package [go-vlq], which is not part
    of the repository: it is the class [Vlq], and [VlqLaws] is what its
    documentation promises (decoding what was encoded, at most [MaxLen64] bytes). *)

From S2P Require Import Prelude.

Local Open Scope Z_scope.

(** ** The package go-vlq *)

(** [vlq_PutUint x] is what [vlq.PutUint(buf, x)] writes at the start of [buf] (its
    result is the number of bytes written); [vlq_Uint buf] is [vlq.Uint(buf)], the
    value and the number of bytes read. *)
Class Vlq := {
  vlq_PutUint : Z -> bytes;
  vlq_Uint : bytes -> Z * Z;
  vlq_PutInt : Z -> bytes;
  vlq_Int : bytes -> Z * Z;
}.

Class VlqLaws (V : Vlq) : Prop := {
  vlq_Uint_PutUint x rest :
    is_u64 x -> vlq_Uint (vlq_PutUint x ++ rest) = (x, zlen (vlq_PutUint x));
  vlq_PutUint_len x : is_u64 x -> 1 <= zlen (vlq_PutUint x) <= 10;
  vlq_Int_PutInt x rest :
    is_i64 x -> vlq_Int (vlq_PutInt x ++ rest) = (x, zlen (vlq_PutInt x));
  vlq_PutInt_len x : is_i64 x -> 1 <= zlen (vlq_PutInt x) <= 10;
  (* the count is of bytes of the buffer; a failed read may report it negated *)
  vlq_Uint_count buf : Z.abs (snd (vlq_Uint buf)) <= zlen buf;
}.

(** ** Data carried by the encodings *)

(** [bchain.AssetInfo]: the SPT asset attached to an output; [ValueSat] is a pointer
    that may be nil. *)
Record AssetInfo := mkAssetInfo { AssetGuid : Z; AssetValueSat : option Z }.

#[export] Instance AssetInfo_eq_decision : EqDecision AssetInfo.
Proof. solve_decision. Defined.

(** ** Fixed-width integers and keys *)

Definition packUint (i : Z) : bytes := be_put 4 i.

(** [binary.BigEndian.Uint32] reads the first four bytes, and panics without them. *)
Definition unpackUint (buf : bytes) : result Z :=
  let! b := slice buf 0 4 in Ok (be_get b).

Definition packedHeightBytes : Z := 4.

Definition packAddressKey (addrDesc : bytes) (height : Z) : bytes :=
  addrDesc ++ be_put 4 (not32 height).

Definition unpackAddressKey (key : bytes) : result (bytes * Z) :=
  let i := zlen key - packedHeightBytes in
  if i <=? 0 then Err (ErrMsg "Invalid address key")
  else
    let! a := slice key 0 i in
    let! hb := slice key i (i + packedHeightBytes) in
    let! h := unpackUint hb in
    Ok (a, not32 h).

(** ** Big integers *)

Definition wordBits : Z := 64.
Definition maxPackedBigintWords : Z := 31.

(** The words of [|z|], least significant first, as [big.Int.Bits] returns them. *)
Fixpoint nat_words (fuel : nat) (z : Z) : list Z :=
  match fuel with
  | O => []
  | S f => if z =? 0 then [] else z mod 2 ^ wordBits :: nat_words f (z / 2 ^ wordBits)
  end.

Definition Bits (z : Z) : list Z :=
  nat_words (Z.to_nat (Z.log2 (Z.abs z) / wordBits + 1)) (Z.abs z).

(** The loop that skips the leading zero bytes of the most significant word:
    [for w0&mask == 0 { fb--; mask >>= 8 }]. *)
Fixpoint skip_zero_bytes (fuel : nat) (w0 mask fb : Z) : Z :=
  match fuel with
  | O => fb
  | S f => if Z.land w0 mask =? 0
           then skip_zero_bytes f w0 (Z.shiftr mask 8) (fb - 1) else fb
  end.

(** [for i := fb + n; i > fb; i-- { buf[i] = byte(w); w >>= 8 }] : the [n] low bytes of
    [w], written from the last to the first. *)
Fixpoint put_word (n : nat) (w : Z) (acc : bytes) : bytes :=
  match n with
  | O => acc
  | S n' => put_word n' (Z.shiftr w 8) (z2b w :: acc)
  end.

Definition packBigint (bi : Z) : bytes :=
  let w := Bits bi in
  let lw := zlen w in
  match rev w with
  | [] => [x00]
  | w0 :: rest =>
      let fb := skip_zero_bytes 8 w0 (Z.shiftl 255 (wordBits - 8)) 8 in
      let s := if maxPackedBigintWords <? lw then lw - maxPackedBigintWords else 0 in
      (* words j = lw-2 down to s *)
      let kept := take (Z.to_nat (lw - 1 - s)) rest in
      let body := put_word (Z.to_nat fb) w0 [] ++ concat (map (fun d => put_word 8 d []) kept) in
      z2b (fb + 8 * zlen kept) :: body
  end.

Definition packedBigintLen (buf : bytes) : result Z :=
  let! b := index buf 0 in Ok (b2z b + 1).

Definition unpackBigint (buf : bytes) : result (Z * Z) :=
  let! b := index buf 0 in
  let l := b2z b + 1 in
  let! d := slice buf 1 l in
  Ok (be_get d, l).

Section Vlq.
Context `{V : Vlq}.

Definition packVarint32 (i : Z) : bytes := vlq_PutInt i.
Definition packVarint (i : Z) : bytes := vlq_PutInt i.
Definition packVaruint (i : Z) : bytes := vlq_PutUint i.
Definition packVaruint64 (i : Z) : bytes := vlq_PutUint i.

Definition unpackVarint32 (buf : bytes) : Z * Z :=
  let '(i, ofs) := vlq_Int buf in (i32 i, ofs).
Definition unpackVarint (buf : bytes) : Z * Z := vlq_Int buf.
Definition unpackVaruint (buf : bytes) : Z * Z := vlq_Uint buf.
Definition unpackVaruint64 (buf : bytes) : Z * Z := vlq_Uint buf.

(** ** Length-prefixed byte strings *)

Definition packVarBytes (value : bytes) : bytes := packVaruint (zlen value) ++ value.

(** [int(l)] of the decoded [uint] is [i64 l]. *)
Definition unpackVarBytes (buf : bytes) : result (bytes * Z) :=
  let '(l, ll) := unpackVaruint buf in
  let! v := slice buf ll (ll + i64 l) in
  Ok (v, ll + i64 l).

Definition packString (s : bytes) : bytes := packVaruint (zlen s) ++ s.

Definition unpackStringBytes (buf : bytes) : result (bytes * Z) :=
  let '(sl, l) := unpackVaruint buf in
  let so := l + i64 sl in
  let! v := slice buf l so in
  Ok (v, so).

Definition unpackString (buf : bytes) : result (bytes * Z) := unpackStringBytes buf.

(** ** The optional asset suffix *)

Definition appendAssetInfo (assetInfo : option AssetInfo) (buf : bytes) : bytes :=
  match assetInfo with
  | None => buf ++ packVaruint 0
  | Some a =>
      let buf := buf ++ packVaruint 1 in
      let buf := buf ++ packVaruint64 (AssetGuid a) in
      let valueSat := match AssetValueSat a with None => 0 | Some v => v end in
      buf ++ packBigint valueSat
  end.

Definition unpackAssetInfo (buf : bytes) : result (option AssetInfo * Z) :=
  let '(flag, l) := unpackVaruint buf in
  if flag =? 0 then Ok (None, l)
  else
    let! b := slice_from buf l in
    let '(assetGuid, ll) := unpackVaruint64 b in
    let l := l + ll in
    let! b := slice_from buf l in
    let! '(valueSat, ll) := unpackBigint b in
    Ok (Some (mkAssetInfo assetGuid (Some valueSat)), l + ll).

Definition packedAssetInfoLen (buf : bytes) : result Z :=
  let '(flag, pos) := unpackVaruint buf in
  if flag =? 0 then Ok pos
  else
    let! b := slice_from buf pos in
    let '(_, n) := unpackVaruint64 b in
    let pos := pos + n in
    let! c := index buf pos in
    Ok (pos + (b2z c + 1)).
End Vlq.

(** ** Correctness of the keys *)

Lemma not32_sub h : is_u32 h -> not32 h = 2 ^ 32 - 1 - h.
Proof.
  unfold is_u32, not32. intros Hh.
  change (2 ^ 32 - 1) with (Z.ones 32).
  assert (Z.ldiff h (Z.ones 32) = 0) as Hd.
  { rewrite Z.ldiff_ones_r, Z.shiftr_div_pow2, Z.div_small by lia. done. }
  rewrite Z.sub_nocarry_ldiff by done.
  apply Z.bits_inj'. intros n Hn. rewrite Z.lxor_spec, Z.ldiff_spec.
  assert (Z.testbit (Z.ldiff h (Z.ones 32)) n = false) as Hb by (by rewrite Hd, Z.bits_0).
  rewrite Z.ldiff_spec in Hb.
  destruct (Z.testbit h n), (Z.testbit (Z.ones 32) n); cbn in *; congruence.
Qed.

Lemma not32_range h : is_u32 h -> is_u32 (not32 h).
Proof. intros Hh. rewrite not32_sub by done. unfold is_u32 in *. lia. Qed.

Lemma not32_involutive h : is_u32 h -> not32 (not32 h) = h.
Proof. intros Hh. rewrite not32_sub by (by apply not32_range). rewrite not32_sub; [lia|done]. Qed.

Lemma unpackUint_pack h rest : is_u32 h -> unpackUint (packUint h ++ rest) = Ok h.
Proof.
  intros Hh. unfold unpackUint, packUint. rewrite slice_0_app by (by rewrite zlen_be_put).
  cbn [rbind]. rewrite be_put_small; [done | exact Hh].
Qed.

Lemma packUint_inj h1 h2 : is_u32 h1 -> is_u32 h2 -> packUint h1 = packUint h2 -> h1 = h2.
Proof.
  intros H1 H2 E. apply (f_equal be_get) in E. unfold packUint in E.
  rewrite !be_put_small in E; done.
Qed.

Lemma zlen_packAddressKey a h : zlen (packAddressKey a h) = zlen a + packedHeightBytes.
Proof. unfold packAddressKey, packedHeightBytes. rewrite zlen_app, zlen_be_put. lia. Qed.
#[export] Hint Rewrite zlen_packAddressKey : zlen.

Lemma unpackAddressKey_pack a h :
  a <> [] -> is_u32 h -> unpackAddressKey (packAddressKey a h) = Ok (a, h).
Proof.
  intros Ha Hh. unfold unpackAddressKey. rewrite zlen_packAddressKey.
  assert (0 < zlen a) by (destruct a; [done|zlen_lia]).
  case_tests. unfold packAddressKey.
  replace (zlen a + packedHeightBytes - packedHeightBytes) with (zlen a) by lia.
  rewrite slice_0_app by done. cbn [rbind].
  replace (a ++ be_put 4 (not32 h)) with (a ++ be_put 4 (not32 h) ++ []) by (by rewrite app_nil_r).
  rewrite slice_app by (rewrite ?zlen_be_put; done). cbn [rbind].
  fold (packUint (not32 h)). rewrite <- (app_nil_r (packUint _)).
  rewrite unpackUint_pack by (by apply not32_range). cbn [rbind].
  by rewrite not32_involutive.
Qed.

(** Two keys of one descriptor compare in the opposite order of the heights. *)
Lemma packAddressKey_compare a h1 h2 :
  is_u32 h1 -> is_u32 h2 ->
  bytes_compare (packAddressKey a h1) (packAddressKey a h2) = (h2 ?= h1).
Proof.
  intros H1 H2. unfold packAddressKey.
  rewrite bytes_compare_app, bytes_compare_be by (by rewrite !be_put_length).
  rewrite !be_put_small by (by apply not32_range).
  rewrite !not32_sub by done.
  destruct (Z.compare_spec h2 h1); [apply Z.compare_eq_iff | apply Z.compare_lt_iff
    | apply Z.compare_gt_iff]; lia.
Qed.

Lemma packAddressKey_inj a h1 h2 :
  is_u32 h1 -> is_u32 h2 -> packAddressKey a h1 = packAddressKey a h2 -> h1 = h2.
Proof.
  intros H1 H2 E. pose proof (packAddressKey_compare a h1 h2 H1 H2) as Hc.
  rewrite E, (proj2 (bytes_compare_eq _ _) eq_refl) in Hc. symmetry in Hc.
  by apply Z.compare_eq_iff in Hc.
Qed.

(** ** Correctness of the big integers *)

Lemma put_word_be n w acc : put_word n w acc = be_put n w ++ acc.
Proof.
  revert w acc. induction n as [|n IH]; intros w acc; [done|].
  cbn [put_word]. rewrite IH. 
  replace (be_put (S n) w) with (be_put n (Z.shiftr w 8) ++ [z2b w]).
  { by rewrite <- app_assoc. }
  clear. revert w. induction n as [|n IH]; intros w.
  - cbn. by rewrite Z.shiftr_0_r.
  - cbn [be_put]. rewrite <- app_comm_cons, IH. cbn [be_put].
    rewrite Z.shiftr_shiftr by lia. do 3 f_equal. lia.
Qed.

(** Value of a list of words, most significant first. *)
Definition words_val (l : list Z) : Z := fold_left (fun a w => a * 2 ^ 64 + w) l 0.

Lemma words_val_acc l a :
  fold_left (fun a w => a * 2 ^ 64 + w) l a = a * 2 ^ (64 * zlen l) + words_val l.
Proof.
  unfold words_val. revert a. induction l as [|w l IH]; intros a; cbn [fold_left].
  - change (zlen (@nil Z)) with 0. lia.
  - rewrite (IH (a * 2 ^ 64 + w)), (IH (0 * 2 ^ 64 + w)), zlen_cons.
    replace (64 * (1 + zlen l)) with (64 + 64 * zlen l) by lia.
    rewrite Z.pow_add_r by zlen_lia. lia.
Qed.

Lemma words_val_app a b : words_val (a ++ b) = words_val a * 2 ^ (64 * zlen b) + words_val b.
Proof. unfold words_val at 1. by rewrite fold_left_app, words_val_acc. Qed.

Lemma words_val_cons w l : words_val (w :: l) = w * 2 ^ (64 * zlen l) + words_val l.
Proof. apply (words_val_app [w] l). Qed.

Definition is_word (w : Z) : Prop := 0 <= w < 2 ^ 64.

Lemma words_val_range l : Forall is_word l -> 0 <= words_val l < 2 ^ (64 * zlen l).
Proof.
  induction 1 as [|w l Hw Hl IH]; [done|].
  rewrite words_val_cons, zlen_cons.
  replace (64 * (1 + zlen l)) with (64 + 64 * zlen l) by lia.
  rewrite Z.pow_add_r by zlen_lia. unfold is_word in Hw. nia.
Qed.

Lemma nat_words_val fuel z :
  0 <= z < 2 ^ (64 * Z.of_nat fuel) -> words_val (rev (nat_words fuel z)) = z.
Proof.
  unfold wordBits. revert z. induction fuel as [|f IH]; intros z Hz.
  - cbn in *. lia.
  - cbn [nat_words]. unfold wordBits. destruct (Z.eqb_spec z 0) as [->|Hn]; [done|].
    cbn [rev]. rewrite words_val_app, IH.
    + rewrite zlen_cons. change (zlen (@nil Z)) with 0.
      change (words_val [z mod 2 ^ 64]) with (z mod 2 ^ 64).
      pose proof (Z.div_mod z (2 ^ 64) ltac:(lia)). lia.
    + split; [apply Z.div_pos; lia|]. apply Z.div_lt_upper_bound; [lia|].
      rewrite <- Z.pow_add_r by lia. replace (64 + 64 * Z.of_nat f) with (64 * Z.of_nat (S f)) by lia.
      lia.
Qed.

Lemma nat_words_is_word fuel z : Forall is_word (nat_words fuel z).
Proof.
  revert z. induction fuel as [|f IH]; intros z; cbn [nat_words]; [constructor|].
  destruct (z =? 0); constructor; [|apply IH]. apply Z.mod_pos_bound. by unfold wordBits.
Qed.

(** The most significant word of a number is not zero. *)
Lemma nat_words_top fuel z w0 rest :
  0 <= z < 2 ^ (64 * Z.of_nat fuel) -> rev (nat_words fuel z) = w0 :: rest -> w0 <> 0.
Proof.
  revert z w0 rest. induction fuel as [|f IH]; intros z w0 rest Hz; cbn [nat_words]; [done|].
  unfold wordBits. destruct (Z.eqb_spec z 0) as [->|Hn]; [done|]. cbn [rev].
  assert (0 <= z / 2 ^ 64 < 2 ^ (64 * Z.of_nat f)) as Hq.
  { split; [apply Z.div_pos; lia|]. apply Z.div_lt_upper_bound; [lia|].
    rewrite <- Z.pow_add_r by lia.
    replace (64 + 64 * Z.of_nat f) with (64 * Z.of_nat (S f)) by lia. lia. }
  destruct (rev (nat_words f (z / 2 ^ 64))) as [|w1 r1] eqn:E; cbn.
  - intros [= <- <-]. pose proof (nat_words_val f _ Hq) as Hv. rewrite E in Hv. cbn in Hv.
    pose proof (Z.div_mod z (2 ^ 64) ltac:(lia)). lia.
  - intros [= <- <-]. by eapply IH.
Qed.

Lemma land_byte_mask w k :
  0 <= k -> Z.land w (Z.shiftl 255 k) = Z.shiftl (Z.shiftr w k mod 256) k.
Proof.
  intros Hk. change 256 with (2 ^ 8). rewrite <- Z.land_ones by lia.
  rewrite Z.shiftl_land. change (Z.ones 8) with 255.
  rewrite <- Z.ldiff_ones_r by lia.
  apply Z.bits_inj'. intros n Hn. rewrite !Z.land_spec, Z.ldiff_spec.
  rewrite Z.shiftl_spec by lia. rewrite Z.testbit_ones by lia.
  destruct (Z.leb_spec 0 n); [|lia]. destruct (Z.ltb_spec n k); cbn.
  - by rewrite (Z.testbit_neg_r 255), !andb_false_r by lia.
  - by rewrite andb_true_r.
Qed.

(** The loop stops at the number of significant bytes of a non-zero word. *)
Lemma skip_zero_bytes_spec fuel w0 fb :
  0 < w0 -> w0 < 256 ^ fb -> 1 <= fb <= Z.of_nat fuel ->
  let r := skip_zero_bytes fuel w0 (Z.shiftl 255 (8 * (fb - 1))) fb in
  1 <= r <= fb /\ 256 ^ (r - 1) <= w0 < 256 ^ r.
Proof.
  revert fb. induction fuel as [|f IH]; intros fb Hw Hlt Hfb; [lia|].
  cbn [skip_zero_bytes]. rewrite land_byte_mask by lia.
  rewrite Z.shiftr_div_pow2 by lia. rewrite Z.pow_mul_r by lia. change (2 ^ 8) with 256.
  assert (0 < 256 ^ (fb - 1)) by (apply pow256_pos; lia).
  assert (0 <= w0 / 256 ^ (fb - 1) < 256) as Hq.
  { split; [apply Z.div_pos; lia|]. apply Z.div_lt_upper_bound; [lia|].
    rewrite (Z.mul_comm (256 ^ _)), <- Z.pow_succ_r by lia.
    replace (Z.succ (fb - 1)) with fb by lia. lia. }
  rewrite Z.mod_small by lia.
  destruct (Z.eqb_spec (Z.shiftl (w0 / 256 ^ (fb - 1)) (8 * (fb - 1))) 0) as [E|E].
  - assert (w0 / 256 ^ (fb - 1) = 0) as Ez.
    { apply Z.shiftl_eq_0_iff in E; lia. }
    assert (w0 < 256 ^ (fb - 1)) as Hlt'.
    { destruct (Z.lt_ge_cases w0 (256 ^ (fb - 1))); [done|].
      assert (1 <= w0 / 256 ^ (fb - 1)) by (apply Z.div_le_lower_bound; lia). lia. }
    assert (2 <= fb) as Hfb2.
    { destruct (Z.lt_ge_cases fb 2); [|done]. replace (fb - 1) with 0 in Hlt' by lia. lia. }
    rewrite Z.shiftr_shiftl_l by lia.
    replace (8 * (fb - 1) - 8) with (8 * (fb - 1 - 1)) by lia.
    destruct (IH (fb - 1)); [done|done|lia|]. cbn zeta in *. lia.
  - split; [lia|]. split; [|done].
    destruct (Z.lt_ge_cases w0 (256 ^ (fb - 1))) as [Hl|]; [|done].
    rewrite Z.div_small, Z.shiftl_0_l in E by lia. done.
Qed.

Lemma pow256_words n : 0 <= n -> 256 ^ (8 * n) = 2 ^ (64 * n).
Proof. intros. replace (64 * n) with (8 * (8 * n)) by lia. by rewrite (Z.pow_mul_r 2 8) by lia. Qed.

Lemma concat_words kept :
  Forall is_word kept ->
  zlen (concat (map (fun d => put_word 8 d []) kept)) = 8 * zlen kept /\
  be_get (concat (map (fun d => put_word 8 d []) kept)) = words_val kept.
Proof.
  induction 1 as [|w l Hw Hl [IH1 IH2]]; [done|]. cbn [map concat].
  rewrite put_word_be, app_nil_r, zlen_app, zlen_be_put, be_get_app, IH1, IH2.
  split; [zlen_lia|]. rewrite words_val_cons, be_put_small by (unfold is_word in Hw; lia).
  by rewrite pow256_words by zlen_lia.
Qed.

(** The significant bytes of the top word followed by the kept words. *)
Lemma packBigint_body w0 kept fb :
  Forall is_word kept -> 1 <= fb -> 256 ^ (fb - 1) <= w0 < 256 ^ fb ->
  let body := put_word (Z.to_nat fb) w0 [] ++ concat (map (fun d => put_word 8 d []) kept) in
  zlen body = fb + 8 * zlen kept /\ be_get body = words_val (w0 :: kept) /\
  256 ^ (zlen body - 1) <= be_get body.
Proof.
  intros Hk Hfb Hw body. destruct (concat_words kept Hk) as [Hcl Hcv].
  assert (zlen body = fb + 8 * zlen kept) as Hbl.
  { subst body. rewrite put_word_be, app_nil_r, zlen_app, zlen_be_put, Hcl. lia. }
  assert (be_get body = words_val (w0 :: kept)) as Hbv.
  { subst body. rewrite put_word_be, app_nil_r, be_get_app, Hcv, Hcl, words_val_cons.
    assert (0 < 256 ^ (fb - 1)) by (apply pow256_pos; lia).
    rewrite be_put_small by (rewrite Z2Nat.id by lia; lia).
    by rewrite pow256_words by zlen_lia. }
  split_and!; [done..|]. rewrite Hbl, Hbv, words_val_cons.
  pose proof (words_val_range kept Hk).
  replace (fb + 8 * zlen kept - 1) with (fb - 1 + 8 * zlen kept) by lia.
  rewrite Z.pow_add_r, pow256_words by zlen_lia. nia.
Qed.

Lemma words_val_take w0 rest k :
  Forall is_word rest ->
  words_val (w0 :: take k rest) = words_val (w0 :: rest) / 2 ^ (64 * zlen (drop k rest)).
Proof.
  intros Hr. rewrite <- (take_drop k rest) at 2. rewrite app_comm_cons, words_val_app.
  pose proof (words_val_range (drop k rest) (Forall_drop _ _ _ Hr)).
  rewrite Z.div_add_l, Z.div_small by lia. lia.
Qed.

(** The number of low words the packing drops, as bits. *)
Definition bigint_dropped (z : Z) : Z :=
  64 * Z.max 0 (zlen (Bits z) - maxPackedBigintWords).

Lemma Bits_fuel z :
  0 <= Z.abs z < 2 ^ (64 * Z.of_nat (Z.to_nat (Z.log2 (Z.abs z) / wordBits + 1))).
Proof.
  unfold wordBits. split; [lia|]. destruct (Z.eq_dec (Z.abs z) 0) as [->|Hz]; [done|].
  pose proof (Z.log2_nonneg (Z.abs z)).
  rewrite Z2Nat.id by (pose proof (Z.div_pos (Z.log2 (Z.abs z)) 64); lia).
  apply Z.log2_lt_pow2; [lia|].
  pose proof (Z.mod_pos_bound (Z.log2 (Z.abs z)) 64).
  pose proof (Z.div_mod (Z.log2 (Z.abs z)) 64). lia.
Qed.

Lemma Bits_val z : words_val (rev (Bits z)) = Z.abs z.
Proof. apply nat_words_val, Bits_fuel. Qed.

(** What [packBigint] writes: a length byte and the minimal big-endian bytes of the
    number, without its low words when there are more than 31. *)
Lemma packBigint_form z :
  exists n : nat, Z.of_nat n <= 248 /\
    packBigint z = z2b (Z.of_nat n) :: be_put n (Z.abs z / 2 ^ bigint_dropped z) /\
    0 <= Z.abs z / 2 ^ bigint_dropped z < 256 ^ Z.of_nat n /\
    (n <> 0%nat -> 256 ^ (Z.of_nat n - 1) <= Z.abs z / 2 ^ bigint_dropped z).
Proof.
  pose proof (Bits_val z) as Hval. unfold packBigint, bigint_dropped, maxPackedBigintWords.
  assert (Forall is_word (rev (Bits z))) as Hw by apply Forall_rev, nat_words_is_word.
  assert (zlen (Bits z) = zlen (rev (Bits z))) as Hlw by (unfold zlen; by rewrite length_rev).
  destruct (rev (Bits z)) as [|w0 rest] eqn:E.
  { cbn in Hval. exists 0%nat. rewrite <- Hval, Z.div_0_l by (apply Z.pow_nonzero; lia).
    split_and!; done. }
  assert (w0 <> 0) as Hw0 by (by eapply nat_words_top; [apply Bits_fuel|exact E]).
  inversion Hw as [|? ? Hw0w Hrest]; subst. unfold is_word in Hw0w.
  destruct (skip_zero_bytes_spec 8 w0 8) as [Hfb Hfbv]; [lia|lia|lia|].
  change (8 * (8 - 1)) with (wordBits - 8) in Hfb, Hfbv.
  set (fb := skip_zero_bytes 8 w0 _ 8) in *. rewrite Hlw, zlen_cons in *.
  set (s := if _ <? _ then _ else _).
  assert (s = Z.max 0 (1 + zlen rest - 31)) as Hs by (subst s; case_tests).
  rewrite <- Hs. set (k := Z.to_nat (1 + zlen rest - 1 - s)).
  assert (zlen (take k rest) = zlen rest - s) as Hk.
  { unfold zlen in *. rewrite length_take. lia. }
  assert (zlen (drop k rest) = s) as Hd.
  { unfold zlen in *. rewrite length_drop. lia. }
  destruct (packBigint_body w0 (take k rest) fb) as (Hbl & Hbv & Hlow);
    [by apply Forall_take | lia | lia |].
  rewrite words_val_take, Hd, Hval in Hbv by done.
  set (body := put_word _ _ _ ++ _) in *.
  exists (length body). change (Z.of_nat (length body)) with (zlen body).
  rewrite <- Hbv, be_put_get, <- Hbl. pose proof (be_get_range body).
  split_and!; [lia|done|lia|lia|done].
Qed.

Lemma zlen_packBigint z : 1 <= zlen (packBigint z) <= 249.
Proof.
  destruct (packBigint_form z) as (n & Hn & -> & _). rewrite zlen_cons, zlen_be_put. lia.
Qed.

Lemma unpackBigint_cons n d rest :
  Z.of_nat n < 256 -> zlen d = Z.of_nat n ->
  unpackBigint ((z2b (Z.of_nat n) :: d) ++ rest) = Ok (be_get d, 1 + zlen d).
Proof.
  intros Hn Hd. unfold unpackBigint. cbn [app]. rewrite index_0. cbn [rbind].
  rewrite b2z_z2b, Z.mod_small by lia.
  rewrite (slice_app [z2b (Z.of_nat n)] d rest) by zlen_lia. cbn [rbind]. do 2 f_equal. lia.
Qed.

(** Reading back what was packed gives the magnitude without the dropped words. *)
Lemma unpackBigint_packBigint z rest :
  unpackBigint (packBigint z ++ rest) =
  Ok (Z.abs z / 2 ^ bigint_dropped z, zlen (packBigint z)).
Proof.
  destruct (packBigint_form z) as (n & Hn & -> & Hr & _).
  rewrite unpackBigint_cons by (rewrite ?zlen_be_put; lia).
  by rewrite be_put_small, zlen_cons.
Qed.

(** Amounts the encoding keeps: at most 248 bytes, and no sign. *)
Definition packable (z : Z) : Prop := 0 <= z < 2 ^ 1984.

#[export] Instance packable_dec z : Decision (packable z).
Proof. unfold packable. apply _. Defined.

Lemma bigint_dropped_packable z : packable z -> bigint_dropped z = 0.
Proof.
  unfold packable, bigint_dropped, maxPackedBigintWords. intros Hz.
  enough (zlen (Bits z) <= 31) by lia.
  destruct (Z.lt_ge_cases 31 (zlen (Bits z))) as [Hlt|]; [|done]. exfalso.
  pose proof (Bits_val z) as Hval.
  assert (Forall is_word (rev (Bits z))) as Hw by apply Forall_rev, nat_words_is_word.
  assert (zlen (Bits z) = zlen (rev (Bits z))) as Hlw by (unfold zlen; by rewrite length_rev).
  destruct (rev (Bits z)) as [|w0 rest] eqn:E; [rewrite Hlw in Hlt; change (zlen (@nil Z)) with 0 in Hlt; lia|].
  assert (w0 <> 0) as Hw0 by (by eapply nat_words_top; [apply Bits_fuel|exact E]).
  inversion Hw as [|? ? Hw0w Hrest]; subst. unfold is_word in Hw0w.
  pose proof (words_val_range rest Hrest).
  rewrite words_val_cons in Hval. rewrite Hlw, zlen_cons in Hlt.
  assert (2 ^ 1984 <= 2 ^ (64 * zlen rest)) by (apply Z.pow_le_mono_r; lia).
  nia.
Qed.

Lemma unpackBigint_pack z rest :
  packable z -> unpackBigint (packBigint z ++ rest) = Ok (z, zlen (packBigint z)).
Proof.
  intros Hz. rewrite unpackBigint_packBigint, bigint_dropped_packable by done.
  rewrite Z.div_1_r. unfold packable in Hz. do 2 f_equal. lia.
Qed.

Lemma unpackBigint_Ok buf v l :
  unpackBigint buf = Ok (v, l) ->
  exists c, index buf 0 = Ok c /\ l = b2z c + 1 /\ 1 <= l <= zlen buf /\
    exists d, slice buf 1 l = Ok d /\ v = be_get d.
Proof.
  unfold unpackBigint. intros (c & Hc & (d & Hd & [= <- <-])%rbind_Ok)%rbind_Ok.
  exists c. pose proof (slice_Ok _ _ _ _ Hd). split_and!; try lia; [done|eauto].
Qed.

(** ** Correctness of the variable-length encodings *)

(** An encoding [enc] of [x] is read back, whatever follows it. *)
Definition decodes {A} (dec : bytes -> result (A * Z)) (enc : bytes) (x : A) : Prop :=
  forall rest, dec (enc ++ rest) = Ok (x, zlen enc).

Section VlqCorrect.
Context {V : Vlq} {VL : VlqLaws V}.

Lemma unpackVaruint_pack x rest :
  is_u64 x -> unpackVaruint (packVaruint x ++ rest) = (x, zlen (packVaruint x)).
Proof. apply vlq_Uint_PutUint. Qed.

Lemma unpackVaruint64_pack x rest :
  is_u64 x -> unpackVaruint64 (packVaruint64 x ++ rest) = (x, zlen (packVaruint64 x)).
Proof. apply vlq_Uint_PutUint. Qed.

Lemma unpackVarint_pack x rest :
  is_i64 x -> unpackVarint (packVarint x ++ rest) = (x, zlen (packVarint x)).
Proof. apply vlq_Int_PutInt. Qed.

Lemma unpackVarint32_pack x rest :
  is_i32 x -> unpackVarint32 (packVarint32 x ++ rest) = (x, zlen (packVarint32 x)).
Proof.
  intros Hx. unfold unpackVarint32, packVarint32.
  rewrite vlq_Int_PutInt by (unfold is_i32, is_i64 in *; lia). by rewrite i32_id.
Qed.

Lemma zlen_packVaruint x : is_u64 x -> 1 <= zlen (packVaruint x) <= 10.
Proof. apply vlq_PutUint_len. Qed.

Lemma zlen_packVarint x : is_i64 x -> 1 <= zlen (packVarint x) <= 10.
Proof. apply vlq_PutInt_len. Qed.

(** Lengths of Go slices fit in an [int]. *)
Definition fits (b : bytes) : Prop := zlen b < 2 ^ 63.

#[export] Instance fits_dec b : Decision (fits b).
Proof. unfold fits. apply _. Defined.

Lemma fits_u64 b : fits b -> is_u64 (zlen b).
Proof. unfold fits, is_u64. intros. zlen_lia. Qed.

Lemma fits_i64 b : fits b -> is_i64 (zlen b).
Proof. unfold fits, is_i64. intros. zlen_lia. Qed.

Lemma unpackVarBytes_pack v : fits v -> decodes unpackVarBytes (packVarBytes v) v.
Proof.
  intros Hv rest. unfold unpackVarBytes, packVarBytes. rewrite <- app_assoc.
  rewrite unpackVaruint_pack by (by apply fits_u64).
  rewrite i64_id by (by apply fits_i64).
  rewrite slice_app by done. cbn [rbind]. by rewrite zlen_app.
Qed.

Lemma unpackString_pack v : fits v -> decodes unpackString (packString v) v.
Proof. apply unpackVarBytes_pack. Qed.

(** What is read back for an asset suffix: a missing value reads as zero. *)
Definition norm_asset (a : option AssetInfo) : option AssetInfo :=
  match a with
  | None => None
  | Some a => Some (mkAssetInfo (AssetGuid a)
                      (Some (match AssetValueSat a with None => 0 | Some v => v end)))
  end.

Definition asset_ok (a : option AssetInfo) : Prop :=
  match a with
  | None => True
  | Some a => is_u64 (AssetGuid a) /\
              match AssetValueSat a with None => True | Some v => packable v end
  end.

#[export] Instance asset_ok_dec a : Decision (asset_ok a).
Proof. destruct a as [[g [v|]]|]; cbn; apply _. Defined.

Lemma appendAssetInfo_app a buf : appendAssetInfo a buf = buf ++ appendAssetInfo a [].
Proof. destruct a as [[g v]|]; cbn; by rewrite <- ?app_assoc. Qed.

Lemma unpackAssetInfo_append a :
  asset_ok a -> decodes unpackAssetInfo (appendAssetInfo a []) (norm_asset a).
Proof.
  intros Ha rest. unfold unpackAssetInfo. destruct a as [[g v]|]; cbn [appendAssetInfo app].
  - destruct Ha as [Hg Hv]. cbn [AssetGuid AssetValueSat] in *. rewrite <- !app_assoc.
    rewrite unpackVaruint_pack by done. cbn [Z.eqb].
    rewrite slice_from_app by done. cbn [rbind].
    rewrite unpackVaruint64_pack by done.
    rewrite app_assoc, slice_from_app by (by rewrite zlen_app). cbn [rbind].
    rewrite unpackBigint_pack by (destruct v; [done | unfold packable; lia]).
    cbn [rbind norm_asset AssetGuid AssetValueSat]. rewrite !zlen_app. do 2 f_equal. lia.
  - by rewrite unpackVaruint_pack.
Qed.

Lemma unpackAssetInfo_count buf a l :
  unpackAssetInfo buf = Ok (a, l) -> Z.abs l <= zlen buf.
Proof.
  unfold unpackAssetInfo, unpackVaruint. pose proof (vlq_Uint_count buf) as Hc.
  destruct (vlq_Uint buf) as [flag pos]. cbn in Hc.
  destruct (flag =? 0); [intros [= _ <-]; done|].
  intros (b & Hb & H)%rbind_Ok. destruct (unpackVaruint64 b) as [g n].
  apply rbind_Ok in H as (b2 & (Hr & _ & Hl)%slice_from_Ok & H).
  apply rbind_Ok in H as ([v ll] & (c & _ & _ & Hll & _)%unpackBigint_Ok & [= _ <-]). lia.
Qed.

(** The skipping reader consumes exactly what the allocating reader consumes, on
    every buffer the latter accepts. *)
Lemma packedAssetInfoLen_sync buf a l :
  unpackAssetInfo buf = Ok (a, l) -> packedAssetInfoLen buf = Ok l.
Proof.
  unfold unpackAssetInfo, packedAssetInfoLen.
  destruct (unpackVaruint buf) as [flag pos]. destruct (flag =? 0); [congruence|].
  intros (b & Hb & H)%rbind_Ok. rewrite Hb. cbn [rbind].
  destruct (unpackVaruint64 b) as [g n]. apply rbind_Ok in H as (b2 & Hb2 & H).
  apply rbind_Ok in H as ([v ll] & (c & Hc & -> & _)%unpackBigint_Ok & [= _ <-]).
  rewrite <- (Z.add_0_r (pos + n)), (index_slice_from _ _ _ _ _ Hb2 Hc). cbn.
  reflexivity.
Qed.
End VlqCorrect.

(** ** A codec with the documented properties

    A little-endian base-128 codec satisfies the laws; it is used by the concrete
    runs of the development (the byte layout of go-vlq itself is not needed). *)

Module RefVlq.

Fixpoint put (fuel : nat) (x : Z) : bytes :=
  match fuel with
  | O => [z2b x]
  | S f => if x <? 128 then [z2b x] else z2b (x mod 128 + 128) :: put f (x / 128)
  end.

Fixpoint get (buf : bytes) : Z * Z :=
  match buf with
  | [] => (0, 0)
  | b :: r => if b2z b <? 128 then (b2z b, 1)
              else let '(v, n) := get r in (v * 128 + (b2z b - 128), n + 1)
  end.

Definition zig (x : Z) : Z := if 0 <=? x then 2 * x else - 2 * x - 1.
Definition zag (x : Z) : Z := if Z.even x then x / 2 else - ((x + 1) / 2).

#[export] Instance vlq : Vlq := {
  vlq_PutUint x := put 9 x;
  vlq_Uint := get;
  vlq_PutInt x := put 9 (zig x);
  vlq_Int buf := let '(v, n) := get buf in (zag v, n);
}.

Lemma get_put fuel x rest :
  0 <= x < 128 ^ Z.of_nat (S fuel) ->
  get (put fuel x ++ rest) = (x, zlen (put fuel x)) /\ 1 <= zlen (put fuel x) <= Z.of_nat fuel + 1.
Proof.
  revert x. induction fuel as [|f IH]; intros x Hx.
  - cbn in Hx. cbn [put app get]. rewrite b2z_z2b, Z.mod_small by lia.
    case_tests. split; [done|zlen_lia].
  - cbn [put]. destruct (Z.ltb_spec x 128).
    + cbn [app get]. rewrite b2z_z2b, Z.mod_small by lia. case_tests.
      split; [done|]. zlen_lia.
    + cbn [app get]. pose proof (Z.mod_pos_bound x 128 ltac:(lia)).
      rewrite b2z_z2b, Z.mod_small by lia. case_tests.
      destruct (IH (x / 128)) as [-> Hl].
      { split; [apply Z.div_pos; lia|]. apply Z.div_lt_upper_bound; [lia|].
        rewrite <- Z.pow_succ_r by lia. replace (Z.succ (Z.of_nat (S f))) with (Z.of_nat (S (S f))) by lia. lia. }
      rewrite zlen_cons. split; [|lia]. pose proof (Z.div_mod x 128). f_equal; lia.
Qed.

Lemma get_count buf : 0 <= snd (get buf) <= zlen buf.
Proof.
  induction buf as [|b r IH]; [done|]. cbn [get]. rewrite zlen_cons.
  pose proof (zlen_nonneg r). destruct (b2z b <? 128); [cbn; lia|].
  destruct (get r) as [v n]. cbn in *. lia.
Qed.

Lemma zag_zig x : zag (zig x) = x.
Proof.
  unfold zag, zig. case_tests.
  - rewrite Z.even_mul. cbn. rewrite Z.mul_comm, Z.div_mul; lia.
  - replace (-2 * x - 1) with (-2 * x + -1) by lia. rewrite Z.even_add, Z.even_mul. cbn.
    replace (-2 * x + -1 + 1) with (- x * 2) by lia. rewrite Z.div_mul; lia.
Qed.

#[export] Instance vlq_laws : VlqLaws vlq.
Proof.
  assert (forall x, is_u64 x -> 0 <= x < 128 ^ Z.of_nat 10) as Hb.
  { intros x Hx. unfold is_u64 in Hx. cbn. lia. }
  assert (forall x, is_i64 x -> is_u64 (zig x)) as Hz.
  { intros x Hx. unfold is_i64, is_u64, zig in *. case_tests. }
  constructor; intros; cbn [vlq_Uint vlq_PutUint vlq_Int vlq_PutInt vlq].
  - apply (get_put 9), Hb. done.
  - apply (get_put 9 x []), Hb. done.
  - destruct (get_put 9 (zig x) rest) as [-> _]; [by apply Hb, Hz|]. by rewrite zag_zig.
  - apply (get_put 9 (zig x) []), Hb, Hz. done.
  - pose proof (get_count buf). lia.
Qed.

End RefVlq.

(** ** Properties *)

(** The keys of the address index. A key built by [packAddressKey] is taken apart by
    [unpackAddressKey] into the same descriptor and height, and for one descriptor the byte
    order of the keys is the reverse of the order of the heights, so that an iterator visits
    the blocks of an address from the newest to the oldest. *)
Theorem address_key_codec a h1 h2 :
  a <> [] -> is_u32 h1 -> is_u32 h2 ->
  unpackAddressKey (packAddressKey a h1) = Ok (a, h1) /\
  bytes_compare (packAddressKey a h1) (packAddressKey a h2) = (h2 ?= h1).
Proof. intros Ha H1 H2. split; [by apply unpackAddressKey_pack|by apply packAddressKey_compare]. Qed.

Lemma address_key_codec_witness :
  unpackAddressKey (packAddressKey [x76; xa9] 1000) = Ok ([x76; xa9], 1000) /\
  bytes_compare (packAddressKey [x76; xa9] 1000) (packAddressKey [x76; xa9] 1001) = Gt.
Proof. apply (address_key_codec [x76; xa9] 1000 1001); done. Defined.

(** The encoding of amounts. A packed amount fits the 249 bytes of the buffer the code
    reserves; unpacking, whatever follows in the buffer, returns the amount exactly when it is
    below 2^1984, and otherwise the amount without its low 64-bit words beyond the 31 highest. *)
Theorem bigint_codec z rest :
  1 <= zlen (packBigint z) <= 249 /\
  unpackBigint (packBigint z ++ rest) = Ok (Z.abs z / 2 ^ bigint_dropped z, zlen (packBigint z)) /\
  (packable z -> Z.abs z / 2 ^ bigint_dropped z = z).
Proof.
  split; [apply zlen_packBigint|]. split; [apply unpackBigint_packBigint|].
  intros Hp. rewrite bigint_dropped_packable by done. unfold packable in Hp. rewrite Z.pow_0_r, Z.div_1_r. lia.
Qed.

Lemma bigint_codec_witness :
  unpackBigint (packBigint (10 ^ 30) ++ [x01]) = Ok (10 ^ 30, 14).
Proof.
  destruct (bigint_codec (10 ^ 30) [x01]) as (_ & H & _). rewrite H. vm_compute. reflexivity.
Defined.

(** The variable-length fields of rows are self-delimiting. A byte string or a string
    packed with its length, and an asset annotation, are read back with the exact number of
    bytes consumed, whatever follows them; the length-only reader [packedAssetInfoLen] skips
    the same bytes as the decoder on every buffer the decoder accepts. *)
Theorem fields_codec {V : Vlq} {VL : VlqLaws V} (v : bytes) (a : option AssetInfo) buf a' l :
  fits v -> asset_ok a -> unpackAssetInfo buf = Ok (a', l) ->
  decodes unpackVarBytes (packVarBytes v) v /\
  decodes unpackString (packString v) v /\
  decodes unpackAssetInfo (appendAssetInfo a []) (norm_asset a) /\
  packedAssetInfoLen buf = Ok l.
Proof.
  intros Hv Ha Hb. split; [by apply unpackVarBytes_pack|]. split; [by apply unpackString_pack|].
  split; [by apply unpackAssetInfo_append|]. by eapply packedAssetInfoLen_sync.
Qed.

Lemma fields_codec_witness :
  packedAssetInfoLen (V := RefVlq.vlq) (appendAssetInfo (V := RefVlq.vlq) (Some (mkAssetInfo 123456 (Some 500))) []) = Ok 7.
Proof.
  refine (proj2 (proj2 (proj2 (fields_codec (VL := RefVlq.vlq_laws) [x01; x02] (Some (mkAssetInfo 123456 (Some 500)))
           (appendAssetInfo (V := RefVlq.vlq) (Some (mkAssetInfo 123456 (Some 500))) [])
           (Some (mkAssetInfo 123456 (Some 500))) 7 _ _ _)))).
  - done.
  - split; [done|]. unfold packable. cbn. lia.
  - vm_compute. reflexivity.
Defined.
