(* ===== verification/Parser.v ===== *)
(** The blockchain data handed to the indexer ([bchain/types.go]) and the part of the
    interface [BlockChainParser] the database layer calls, as the class [ChainParser].
    The defaults of [bchain/baseparser.go] (hex txids of 32 bytes) are modelled and
    shown to make every lower-case 64-digit txid a valid one. *)

From S2P Require Import Prelude Codec.

Local Open Scope Z_scope.

(** ** Blocks and transactions (the fields the modelled code reads) *)

Record Vin := mkVin {
  vin_Coinbase : bytes;
  vin_Txid : bytes;
  vin_Vout : Z;
  vin_Witness : list bytes;
}.

Record Vout := mkVout {
  vout_ValueSat : Z;
  vout_N : Z;
  vout_ScriptHex : bytes;
  vout_AssetInfo : option AssetInfo;
}.

Record Tx := mkTx {
  tx_Hex : bytes;
  tx_Txid : bytes;
  tx_Version : Z;
  tx_LockTime : Z;
  tx_VSize : Z;
  tx_Vin : list Vin;
  tx_Vout : list Vout;
  tx_Memo : bytes;
}.

Record Block := mkBlock {
  blk_Hash : bytes;
  blk_Prev : bytes;
  blk_Next : bytes;
  blk_Height : Z;
  blk_Size : Z;
  blk_Time : Z;
  blk_Txs : list Tx;
}.

Inductive ChainType := ChainBitcoinType | ChainEthereumType.

#[export] Instance ChainType_eq_decision : EqDecision ChainType.
Proof. solve_decision. Defined.

(** ** The parser interface *)

Class ChainParser := {
  GetChainType : ChainType;
  PackedTxidLen : Z;
  PackTxid : bytes -> result bytes;
  UnpackTxid : bytes -> result bytes;
  PackBlockHash : bytes -> result bytes;
  UnpackBlockHash : bytes -> result bytes;
  KeepBlockAddresses : Z;
  GetAddrDescFromVout : Vout -> result bytes;
  GetAddrDescForUnknownInput : Tx -> Z -> bytes;
  IsAddrDescIndexable : bytes -> bool;
  (* the optional interface syscoinAssetsSupport *)
  supportsSyscoinAssets : bool;
}.

(** A txid the parser packs to its fixed width and unpacks to the same string. *)
Definition valid_txid {P : ChainParser} (t : bytes) : Prop :=
  exists b, PackTxid t = Ok b /\ zlen b = PackedTxidLen /\ UnpackTxid b = Ok t.

#[export] Instance valid_txid_dec {P : ChainParser} t : Decision (valid_txid t).
Proof.
  unfold valid_txid.
  destruct (PackTxid t) as [b| |]; [|right; by intros (? & ? & _)..].
  destruct (decide (zlen b = PackedTxidLen)); [|right; by intros (? & [= <-] & ? & _)].
  destruct (UnpackTxid b) as [t'| |] eqn:E; [|right; intros (? & [= <-] & _ & ?); congruence..].
  destruct (decide (t' = t)) as [->|]; [by left; exists b|right; intros (? & [= <-] & _ & ?); congruence].
Defined.

(** ** The package encoding/hex *)

Definition hex_digit (v : Z) : byte := z2b (if v <? 10 then 48 + v else 87 + v).

Definition from_hex_digit (c : byte) : option Z :=
  let z := b2z c in
  if (48 <=? z) && (z <=? 57) then Some (z - 48)
  else if (97 <=? z) && (z <=? 102) then Some (z - 87)
  else if (65 <=? z) && (z <=? 70) then Some (z - 55)
  else None.

Fixpoint hex_EncodeToString (src : bytes) : bytes :=
  match src with
  | [] => []
  | b :: r => hex_digit (b2z b / 16) :: hex_digit (b2z b mod 16) :: hex_EncodeToString r
  end.

Fixpoint hex_DecodeString (s : bytes) : result bytes :=
  match s with
  | [] => Ok []
  | [p] => match from_hex_digit p with
           | None => Err (ErrMsg "encoding/hex: invalid byte")
           | Some _ => Err (ErrMsg "encoding/hex: odd length hex string")
           end
  | p :: q :: r =>
      match from_hex_digit p, from_hex_digit q with
      | Some a, Some b => let! r' := hex_DecodeString r in Ok (z2b (a * 16 + b) :: r')
      | _, _ => Err (ErrMsg "encoding/hex: invalid byte")
      end
  end.

(** ** BaseParser *)

Module BaseParser.

Definition PackedTxidLen : Z := 32.

Definition PackTxid (txid : bytes) : result bytes :=
  if bool_decide (txid = []) then Err ErrTxidMissing else hex_DecodeString txid.

Definition UnpackTxid (buf : bytes) : result bytes := Ok (hex_EncodeToString buf).

Definition PackBlockHash (hash : bytes) : result bytes := hex_DecodeString hash.

Definition UnpackBlockHash (buf : bytes) : result bytes := Ok (hex_EncodeToString buf).

Definition GetAddrDescForUnknownInput (tx : Tx) (input : Z) : bytes := [].

End BaseParser.

Lemma from_hex_digit_hex v : 0 <= v < 16 -> from_hex_digit (hex_digit v) = Some v.
Proof.
  intros Hv. unfold from_hex_digit, hex_digit. rewrite b2z_z2b.
  destruct (Z.ltb_spec v 10); rewrite Z.mod_small by lia; case_tests; f_equal; lia.
Qed.

Lemma hex_Decode_Encode b : hex_DecodeString (hex_EncodeToString b) = Ok b.
Proof.
  induction b as [|x b IH]; [done|]. cbn [hex_EncodeToString hex_DecodeString].
  pose proof (b2z_range x). pose proof (Z.mod_pos_bound (b2z x) 16).
  rewrite !from_hex_digit_hex by (try split; try apply Z.div_pos; try apply Z.div_lt_upper_bound; lia).
  rewrite IH. cbn [rbind]. do 2 f_equal. apply b2z_inj. rewrite b2z_z2b.
  pose proof (Z.div_mod (b2z x) 16). rewrite Z.mod_small by lia. lia.
Qed.

Lemma hex_Encode_length b : length (hex_EncodeToString b) = (2 * length b)%nat.
Proof. induction b; cbn; lia. Qed.

(** A lower-case hex digit. *)
Definition is_hex_lower (c : byte) : bool :=
  let z := b2z c in ((48 <=? z) && (z <=? 57)) || ((97 <=? z) && (z <=? 102)).

Lemma hex_digit_lower c v :
  is_hex_lower c = true -> from_hex_digit c = Some v -> 0 <= v < 16 /\ hex_digit v = c.
Proof.
  unfold is_hex_lower, from_hex_digit, hex_digit. pose proof (b2z_range c).
  intros Hl Hv. apply orb_true_iff in Hl as [Hl|Hl]; apply andb_true_iff in Hl as [H1 H2];
    apply Z.leb_le in H1, H2;
    repeat (revert Hv; case_tests; intros Hv); try congruence;
    injection Hv as <-; (split; [lia|]); apply b2z_inj; rewrite b2z_z2b; case_tests;
    rewrite Z.mod_small by lia; lia.
Qed.

Lemma hex_Encode_Decode s b :
  forallb is_hex_lower s = true -> hex_DecodeString s = Ok b -> hex_EncodeToString b = s.
Proof.
  revert b. induction s as [s IH] using (induction_ltof1 _ (@length byte)); unfold ltof in IH.
  intros b Hs Hd. destruct s as [|p [|q r]]; cbn in Hd.
  - by injection Hd as <-.
  - destruct (from_hex_digit p); discriminate.
  - cbn in Hs. apply andb_true_iff in Hs as [Hp Hs]. apply andb_true_iff in Hs as [Hq Hr].
    destruct (from_hex_digit p) as [a|] eqn:Ea; [|discriminate].
    destruct (from_hex_digit q) as [c|] eqn:Ec; [|discriminate].
    apply rbind_Ok in Hd as (r' & Hr' & [= <-]).
    destruct (hex_digit_lower _ _ Hp Ea) as [Ha <-], (hex_digit_lower _ _ Hq Ec) as [Hc <-].
    cbn [hex_EncodeToString]. rewrite b2z_z2b, Z.mod_small by lia.
    rewrite Z.div_add_l, Z.div_small, Z.add_0_r, Z.add_comm, Z.mod_add, Z.mod_small by lia.
    do 2 f_equal. apply IH; [cbn; lia|done|done].
Qed.

Lemma hex_Decode_length s b : hex_DecodeString s = Ok b -> length s = (2 * length b)%nat.
Proof.
  revert b. induction s as [s IH] using (induction_ltof1 _ (@length byte)); unfold ltof in IH.
  intros b Hd. destruct s as [|p [|q r]]; cbn in Hd.
  - by injection Hd as <-.
  - destruct (from_hex_digit p); discriminate.
  - destruct (from_hex_digit p); [|discriminate]. destruct (from_hex_digit q); [|discriminate].
    apply rbind_Ok in Hd as (r' & Hr' & [= <-]). apply IH in Hr'; cbn in *; lia.
Qed.

Lemma hex_Decode_total s :
  forallb is_hex_lower s = true -> Nat.Even (length s) -> exists b, hex_DecodeString s = Ok b.
Proof.
  induction s as [s IH] using (induction_ltof1 _ (@length byte)); unfold ltof in IH.
  intros Hs He. destruct s as [|p [|q r]].
  - by exists [].
  - destruct He as [k Hk]. cbn in Hk. lia.
  - cbn in Hs. apply andb_true_iff in Hs as [Hp Hs]. apply andb_true_iff in Hs as [Hq Hr].
    assert (forall c, is_hex_lower c = true -> exists v, from_hex_digit c = Some v) as Hd.
    { intros c Hc. unfold is_hex_lower, from_hex_digit in *.
      destruct ((48 <=? b2z c) && (b2z c <=? 57)); [eauto|].
      destruct ((97 <=? b2z c) && (b2z c <=? 102)); [eauto|discriminate]. }
    destruct (Hd p Hp) as [a Ha], (Hd q Hq) as [c Hc].
    destruct (IH r) as [b Hb]; [cbn; lia | done | |].
    { destruct He as [k Hk]. exists (k - 1)%nat. cbn in Hk. lia. }
    exists (z2b (a * 16 + c) :: b). cbn. by rewrite Ha, Hc, Hb.
Qed.

(** The parser of a coin that keeps the defaults, with the remaining operations given. *)
Definition base_parser (voutDesc : Vout -> result bytes) (indexable : bytes -> bool)
    (keep : Z) (assets : bool) : ChainParser := {|
  GetChainType := ChainBitcoinType;
  PackedTxidLen := BaseParser.PackedTxidLen;
  PackTxid := BaseParser.PackTxid;
  UnpackTxid := BaseParser.UnpackTxid;
  PackBlockHash := BaseParser.PackBlockHash;
  UnpackBlockHash := BaseParser.UnpackBlockHash;
  KeepBlockAddresses := keep;
  GetAddrDescFromVout := voutDesc;
  GetAddrDescForUnknownInput := BaseParser.GetAddrDescForUnknownInput;
  IsAddrDescIndexable := indexable;
  supportsSyscoinAssets := assets;
|}.

Lemma base_valid_txid vd ix keep assets t :
  forallb is_hex_lower t = true -> zlen t = 64 ->
  @valid_txid (base_parser vd ix keep assets) t.
Proof.
  intros Ht Hl. unfold zlen in Hl.
  destruct (hex_Decode_total t Ht) as [b Hb]; [exists 32%nat; lia|].
  exists b. pose proof (hex_Decode_length _ _ Hb). cbn.
  unfold BaseParser.PackTxid. rewrite bool_decide_eq_false_2 by (intros ->; cbn in Hl; lia).
  split_and!; [done | unfold zlen, BaseParser.PackedTxidLen; lia |].
  unfold BaseParser.UnpackTxid. by rewrite (hex_Encode_Decode t b).
Qed.
