(* ===== verification/Amounts.v ===== *)
(** Amounts as decimal strings ([bchain/baseparser.go]: [AmountToBigInt],
    [AmountToDecimalString] and their helpers): amounts are integers in the smallest unit, the
    interfaces show them with a decimal point.

    The theorems: an amount survives being printed and parsed ([amount_roundtrip]), and the
    parser of scientific notation gives the exact value, cut off below the smallest unit
    ([scientific_value]). *)

From S2P Require Import Prelude Codec Parser.

Local Open Scope Z_scope.

(** ** Characters *)

Definition ch (z : Z) : byte := z2b z.
Definition chMinus : byte := x2d.
Definition chPlus : byte := x2b.
Definition chDot : byte := x2e.
Definition ch0 : byte := x30.

Definition isDigit (c : byte) : bool := (48 <=? b2z c) && (b2z c <=? 57).
Definition isExp (c : byte) : bool := bool_decide (c = x65) || bool_decide (c = x45).

(** [strings.IndexByte] and [strings.IndexAny]: the first position, or -1. *)
Fixpoint indexFunc (f : byte -> bool) (s : bytes) : Z :=
  match s with
  | [] => -1
  | c :: s => if f c then 0 else let i := indexFunc f s in if i =? -1 then -1 else i + 1
  end.

Definition IndexByte (s : bytes) (c : byte) : Z := indexFunc (fun x => bool_decide (x = c)) s.

Fixpoint dropWhile (f : byte -> bool) (s : bytes) : bytes :=
  match s with
  | [] => []
  | c :: r => if f c then dropWhile f r else s
  end.

Definition isZero (c : byte) : bool := bool_decide (c = ch0).
Definition TrimLeft0 (s : bytes) : bytes := dropWhile isZero s.
Definition TrimRight0 (s : bytes) : bytes := reverse (dropWhile isZero (reverse s)).

(** White space of Unicode, in UTF-8. *)
Definition spaces : list bytes :=
  [[x09]; [x0a]; [x0b]; [x0c]; [x0d]; [x20]; [xc2; x85]; [xc2; xa0]; [xe1; x9a; x80];
   [xe2; x80; x80]; [xe2; x80; x81]; [xe2; x80; x82]; [xe2; x80; x83]; [xe2; x80; x84]; [xe2; x80; x85];
   [xe2; x80; x86]; [xe2; x80; x87]; [xe2; x80; x88]; [xe2; x80; x89]; [xe2; x80; x8a];
   [xe2; x80; xa8]; [xe2; x80; xa9]; [xe2; x80; xaf]; [xe2; x81; x9f]; [xe3; x80; x80]].

(** The space a string starts with. *)
Definition leadingSpace (pats : list bytes) (s : bytes) : option bytes :=
  head (filter (fun p => take (length p) s = p) pats).

Fixpoint trimSpaces (fuel : nat) (pats : list bytes) (s : bytes) : bytes :=
  match fuel with
  | O => s
  | S fuel =>
      match leadingSpace pats s with
      | Some p => trimSpaces fuel pats (drop (length p) s)
      | None => s
      end
  end.

Definition TrimSpace (s : bytes) : bytes :=
  let s := trimSpaces (length s) spaces s in
  reverse (trimSpaces (length s) (map reverse spaces) (reverse s)).

(** ** Integers *)

(** The value of digits. *)
Definition valueOf (s : bytes) : Z := foldl (fun n c => 10 * n + (b2z c - 48)) 0 s.

Fixpoint printDigits (fuel : nat) (n : Z) (acc : bytes) : bytes :=
  match fuel with
  | O => acc
  | S fuel =>
      let acc := ch (48 + n mod 10) :: acc in
      if n / 10 =? 0 then acc else printDigits fuel (n / 10) acc
  end.

Definition printNat (n : Z) : bytes := printDigits (S (Z.to_nat (Z.log2 n))) n [].

(** [a.String()] of a big integer *)
Definition bigString (a : Z) : bytes := if a <? 0 then chMinus :: printNat (- a) else printNat a.

(** The sign and the digits of a number. *)
Definition splitSign (s : bytes) : bool * bytes :=
  match s with
  | c :: r => if bool_decide (c = chMinus) then (true, r) else if bool_decide (c = chPlus) then (false, r) else (false, s)
  | [] => (false, s)
  end.

Definition digits (s : bytes) : bool := negb (bool_decide (s = [])) && forallb isDigit s.

(** [SetString(s, 10)]: an optional sign and at least one digit *)
Definition SetString (s : bytes) : option Z :=
  let '(neg, r) := splitSign s in
  if digits r then Some (if neg then - valueOf r else valueOf r) else None.

(** [strconv.Atoi] *)
Definition Atoi (s : bytes) : option Z :=
  let '(neg, r) := splitSign s in
  if digits r then
    let v := if neg then - valueOf r else valueOf r in
    if bool_decide (is_i64 v) then Some v else None
  else None.

(** ** The parser *)

Definition zeros : bytes := replicate 40 ch0.
Definition maxAmountExpandedDigits : Z := 1024.

Definition normalizePlainAmountToIntString (s : bytes) (decimalPoint : Z) : result bytes :=
  let i := IndexByte s chDot in
  if i =? -1 then
    let! z := slice zeros 0 decimalPoint in
    Ok (s ++ z)
  else
    let z := decimalPoint - zlen s + i + 1 in
    let! a := slice s 0 i in
    if 0 <? z then
      let! b := slice_from s (i + 1) in
      let! z := slice zeros 0 z in
      Ok (a ++ b ++ z)
    else
      let! b := slice s (i + 1) (zlen s + z) in
      Ok (a ++ b).

(** The exponent and the mantissa. *)
Definition splitExponent (s : bytes) : result (Z * bytes) :=
  let i := indexFunc isExp s in
  if i =? -1 then Ok (0, s)
  else
    let! e := slice_from s (i + 1) in
    if negb (indexFunc isExp e =? -1) then Err (ErrMsg "invalid scientific notation")
    else
      match Atoi e with
      | None => Err (ErrMsg "invalid exponent")
      | Some exponent =>
          let! s := slice s 0 i in
          if bool_decide (s = []) then Err (ErrMsg "empty mantissa") else Ok (exponent, s)
      end.

(** The digits without the point, and how many of them are after it. *)
Definition splitFraction (s : bytes) : result (Z * bytes) :=
  let i := IndexByte s chDot in
  if i =? -1 then Ok (0, s)
  else
    let! r := slice_from s (i + 1) in
    if negb (IndexByte r chDot =? -1) then Err (ErrMsg "invalid decimal notation")
    else
      let! l := slice s 0 i in
      Ok (zlen s - i - 1, l ++ r).

(** The digits moved by [shift] places. *)
Definition shiftDigits (s : bytes) (shift : Z) : result bytes :=
  if 0 <=? shift then
    if (maxAmountExpandedDigits <? shift) || (maxAmountExpandedDigits - shift <? zlen s)
    then Err (ErrMsg "expanded value too large")
    else Ok (s ++ replicate (Z.to_nat shift) ch0)
  else
    let keep := zlen s + shift in
    if 0 <? keep then slice s 0 keep else Ok [ch0].

Definition normalizeScientificAmountToIntString (s : bytes) (decimalPoint : Z) : result bytes :=
  let s := TrimSpace s in
  let s := if bool_decide (s = []) then [ch0] else s in
  let '(neg, s) := splitSign s in
  if bool_decide (s = []) then Err (ErrMsg "empty mantissa")
  else
    let! '(exponent, s) := splitExponent s in
    let! '(fractionDigits, s) := splitFraction s in
    if bool_decide (s = []) then Err (ErrMsg "empty value")
    else if negb (forallb isDigit s) then Err (ErrMsg "invalid value")
    else
      let s := TrimLeft0 s in
      if bool_decide (s = []) then Ok [ch0]
      else
        let! s := shiftDigits s (i64 (i64 (exponent - fractionDigits) + decimalPoint)) in
        Ok (if neg && negb (bool_decide (s = [ch0])) then chMinus :: s else s).

Definition clampDecimals (point : Z) : Z :=
  let d := Z.min point (zlen zeros) in if d <? 0 then 0 else d.

Definition AmountToBigInt (point : Z) (n : bytes) : result Z :=
  let d := clampDecimals point in
  let! s :=
    (if indexFunc isExp n =? -1 then normalizePlainAmountToIntString n d
     else
       match normalizeScientificAmountToIntString n d with
       | Err _ => Err (ErrMsg "AmountToBigInt: failed to convert")
       | r => r
       end) in
  match SetString s with
  | Some r => Ok r
  | None => Err (ErrMsg "AmountToBigInt: failed to convert")
  end.

(** ** The printer *)

Definition AmountToDecimalString (a : option Z) (d : Z) : result bytes :=
  match a with
  | None => Ok []
  | Some a =>
      let '(neg, n) := (a <? 0, printNat (Z.abs a)) in
      let d := if zlen zeros <? d then zlen zeros else d in
      let! n := (if zlen n <=? d then let! z := slice zeros 0 (d - zlen n + 1) in Ok (z ++ n) else Ok n) in
      let i := zlen n - d in
      let! l := slice_from n i in
      let! h := slice n 0 i in
      let ad := TrimRight0 l in
      let n := if 0 <? zlen ad then h ++ [chDot] ++ ad else h in
      Ok (if neg then chMinus :: n else n)
  end.

(** ** Lemmas on digits *)

Definition allDigits (s : bytes) : Prop := forallb isDigit s = true.

Lemma allDigits_app a b : allDigits (a ++ b) <-> allDigits a /\ allDigits b.
Proof. unfold allDigits. rewrite forallb_app. apply andb_true_iff. Qed.

Lemma isDigit_range c : isDigit c = true <-> 48 <= b2z c <= 57.
Proof. unfold isDigit. rewrite andb_true_iff, !Z.leb_le. reflexivity. Qed.

Lemma allDigits_zeros k : allDigits (replicate k ch0).
Proof. unfold allDigits. induction k; [reflexivity | exact IHk]. Qed.

Lemma valueOf_acc s n : foldl (fun n c => 10 * n + (b2z c - 48)) n s = n * 10 ^ zlen s + valueOf s.
Proof.
  unfold valueOf. revert n. induction s as [|c s IH]; intros n; [change (n = n * 10 ^ 0 + 0); lia |].
  cbn [foldl]. rewrite IH, (IH (10 * 0 + _)), zlen_cons.
  rewrite Z.pow_add_r by (pose proof (zlen_nonneg s); lia). ring.
Qed.

Lemma valueOf_app a b : valueOf (a ++ b) = valueOf a * 10 ^ zlen b + valueOf b.
Proof. unfold valueOf at 1. rewrite foldl_app. apply valueOf_acc. Qed.

Lemma valueOf_zeros k : valueOf (replicate k ch0) = 0.
Proof.
  induction k; [reflexivity |].
  change (replicate (S k) ch0) with ([ch0] ++ replicate k ch0). rewrite valueOf_app, IHk. reflexivity.
Qed.

Lemma zlen_replicate {A} k (x : A) : zlen (replicate k x) = Z.of_nat k.
Proof. unfold zlen. now rewrite length_replicate. Qed.

Lemma valueOf_range s : allDigits s -> 0 <= valueOf s < 10 ^ zlen s.
Proof.
  induction s as [|c s IH]; [intros _; change (0 <= 0 < 10 ^ 0); lia |]. unfold allDigits. cbn [forallb].
  rewrite andb_true_iff, isDigit_range. intros [Hc Hs]. specialize (IH Hs).
  change (c :: s) with ([c] ++ s). rewrite valueOf_app, zlen_app.
  change (valueOf [c]) with (10 * 0 + (b2z c - 48)). change (zlen [c]) with 1.
  rewrite Z.pow_add_r by (pose proof (zlen_nonneg s); lia). nia.
Qed.

Lemma ch_digit n : 0 <= n < 10 -> b2z (ch (48 + n)) = 48 + n.
Proof. intros. unfold ch. rewrite b2z_z2b. apply Z.mod_small. lia. Qed.

Lemma printDigits_app fuel n acc : printDigits fuel n acc = printDigits fuel n [] ++ acc.
Proof.
  revert n acc. induction fuel as [|fuel IH]; intros n acc; [reflexivity |]. cbn [printDigits].
  destruct (n / 10 =? 0); [reflexivity |]. rewrite IH, (IH _ [_]), <- app_assoc. reflexivity.
Qed.

Lemma printDigits_spec fuel n :
  0 <= n < 2 ^ Z.of_nat fuel -> (0 < fuel)%nat ->
  let s := printDigits fuel n [] in allDigits s /\ valueOf s = n /\ s <> [].
Proof.
  revert n. induction fuel as [|fuel IH]; intros n Hn Hf; [lia |]. cbn [printDigits].
  pose proof (Z.mod_pos_bound n 10 ltac:(lia)) as Hm.
  assert (Hd : allDigits [ch (48 + n mod 10)]).
  { unfold allDigits. cbn [forallb]. rewrite andb_true_iff, isDigit_range, ch_digit; lia. }
  assert (Hv : valueOf [ch (48 + n mod 10)] = n mod 10).
  { change (10 * 0 + (b2z (ch (48 + n mod 10)) - 48) = n mod 10). rewrite ch_digit; lia. }
  pose proof (Z.div_mod n 10 ltac:(lia)) as Hdm.
  destruct (Z.eqb_spec (n / 10) 0) as [E|E]; [split; [exact Hd | split; [lia | discriminate]] |].
  assert (Hp : n / 10 < 2 ^ Z.of_nat fuel).
  { rewrite Nat2Z.inj_succ, Z.pow_succ_r in Hn by lia.
    apply Z.div_lt_upper_bound; lia. }
  pose proof (Z.div_pos n 10 ltac:(lia) ltac:(lia)).
  destruct (IH (n / 10) ltac:(lia)) as (A & V & N).
  { destruct fuel; [cbn in Hp; lia | lia]. }
  cbv zeta. rewrite printDigits_app. split; [now apply allDigits_app |].
  split; [rewrite valueOf_app, V, Hv; change (zlen [_]) with 1; lia |].
  intros H0. apply app_eq_nil in H0. tauto.
Qed.

Lemma printNat_spec n : 0 <= n -> allDigits (printNat n) /\ valueOf (printNat n) = n /\ printNat n <> [].
Proof.
  intros H. apply printDigits_spec; [| lia]. split; [exact H |].
  rewrite Nat2Z.inj_succ, Z2Nat.id by apply Z.log2_nonneg.
  destruct (Z.eq_dec n 0) as [->|]; [cbn; lia |]. apply Z.log2_spec. lia.
Qed.

(** ** Lemmas on searching *)

Lemma indexFunc_none f s : Forall (fun c => f c = false) s -> indexFunc f s = -1.
Proof. induction 1 as [|c s H _ IH]; [reflexivity |]. cbn [indexFunc]. now rewrite H, IH. Qed.

Lemma indexFunc_first f a c b :
  Forall (fun c => f c = false) a -> f c = true -> indexFunc f (a ++ c :: b) = zlen a.
Proof.
  intros Ha Hc. induction Ha as [|x a H _ IH]; cbn [app indexFunc]; [now rewrite Hc |].
  rewrite H, IH, zlen_cons. pose proof (zlen_nonneg a). destruct (Z.eqb_spec (zlen a) (-1)); lia.
Qed.

Lemma digit_not_exp c : isDigit c = true -> isExp c = false.
Proof.
  rewrite isDigit_range. unfold isExp. intros H.
  rewrite !bool_decide_eq_false_2; [reflexivity | |]; intros ->; cbn in H; lia.
Qed.

Lemma digit_not c x : isDigit c = true -> isDigit x = false -> bool_decide (c = x) = false.
Proof. intros H1 H2. apply bool_decide_eq_false_2. intros ->. congruence. Qed.

Lemma allDigits_Forall (P : byte -> Prop) s :
  (forall c, isDigit c = true -> P c) -> allDigits s -> Forall P s.
Proof.
  unfold allDigits. rewrite forallb_forall, Forall_forall. intros HP H c Hc.
  apply HP, H. now apply list_elem_of_In.
Qed.

Lemma dropWhile_zeros s : exists k, s = replicate k ch0 ++ dropWhile isZero s.
Proof.
  induction s as [|c s [k IH]]; [now exists 0%nat |]. cbn [dropWhile]. unfold isZero at 1.
  destruct (bool_decide_reflect (c = ch0)) as [->|]; [exists (S k); cbn; congruence | now exists 0%nat].
Qed.

Lemma trimRight0_zeros s : exists k, s = TrimRight0 s ++ replicate k ch0.
Proof.
  destruct (dropWhile_zeros (reverse s)) as [k E]. exists k. unfold TrimRight0.
  apply (f_equal reverse) in E. rewrite reverse_involutive, reverse_app, reverse_replicate in E. exact E.
Qed.

(** ** Lemmas on numbers *)

Definition signOf (neg : bool) : bytes := if neg then [chMinus] else [].
Definition signed (neg : bool) (n : Z) : Z := if neg then - n else n.

Lemma digits_iff s : digits s = true <-> s <> [] /\ allDigits s.
Proof. unfold digits. rewrite andb_true_iff, negb_true_iff, bool_decide_eq_false. reflexivity. Qed.

Lemma splitSign_signOf neg s : (forall c, head s = Some c -> c <> chMinus /\ c <> chPlus) ->
  splitSign (signOf neg ++ s) = (neg, s).
Proof.
  intros H. destruct neg; [reflexivity |]. destruct s as [|c s]; [reflexivity |].
  destruct (H c eq_refl). cbn [signOf app splitSign]. now rewrite !bool_decide_eq_false_2.
Qed.

Lemma digit_no_sign s : allDigits s -> forall c, head s = Some c -> c <> chMinus /\ c <> chPlus.
Proof.
  destruct s as [|x s]; [discriminate |]. unfold allDigits. cbn [forallb]. rewrite andb_true_iff.
  intros [H _] c [= <-]. split; intros ->; discriminate.
Qed.

Lemma SetString_signed neg s : s <> [] -> allDigits s -> SetString (signOf neg ++ s) = Some (signed neg (valueOf s)).
Proof.
  intros Hn Hd. unfold SetString. rewrite splitSign_signOf by now apply digit_no_sign.
  now rewrite (proj2 (digits_iff s) (conj Hn Hd)).
Qed.

Lemma slice_zeros k : 0 <= k <= 40 -> slice zeros 0 k = Ok (replicate (Z.to_nat k) ch0).
Proof.
  intros H. unfold zeros.
  replace 40%nat with (Z.to_nat k + (40 - Z.to_nat k))%nat by lia.
  rewrite replicate_add. apply slice_0_app. rewrite zlen_replicate. lia.
Qed.

Lemma plain_int s d :
  Forall (fun c => bool_decide (c = chDot) = false) s -> 0 <= d <= 40 ->
  normalizePlainAmountToIntString s d = Ok (s ++ replicate (Z.to_nat d) ch0).
Proof.
  intros Hs Hd. unfold normalizePlainAmountToIntString, IndexByte.
  rewrite (indexFunc_none _ _ Hs), slice_zeros by lia. reflexivity.
Qed.

Lemma plain_frac a q d :
  Forall (fun c => bool_decide (c = chDot) = false) a -> 0 <= d <= 40 ->
  normalizePlainAmountToIntString (a ++ chDot :: q) d
  = Ok (a ++ take (Z.to_nat d) q ++ replicate (Z.to_nat d - length q) ch0).
Proof.
  intros Ha Hd. unfold normalizePlainAmountToIntString, IndexByte.
  rewrite (indexFunc_first _ a chDot q) by (try exact Ha; reflexivity).
  pose proof (zlen_nonneg a). destruct (Z.eqb_spec (zlen a) (-1)) as [|_]; [lia |].
  rewrite slice_0_app by reflexivity. cbn [rbind]. rewrite zlen_app, zlen_cons.
  change (a ++ chDot :: q) with (a ++ [chDot] ++ q). rewrite app_assoc.
  destruct (Z.ltb_spec 0 (d - (zlen a + (1 + zlen q)) + zlen a + 1)) as [Hz|Hz]; unfold zlen in Hz.
  - rewrite slice_from_app by (rewrite zlen_app; reflexivity). cbn [rbind].
    rewrite slice_zeros by (unfold zlen; lia). cbn [rbind].
    rewrite take_ge by lia. do 4 f_equal. unfold zlen. lia.
  - rewrite <- (take_drop (Z.to_nat d) q) at 1.
    rewrite slice_app; [| rewrite zlen_app; reflexivity |].
    2: { rewrite zlen_app. unfold zlen. rewrite length_take. change (length [chDot]) with 1%nat. lia. }
    cbn [rbind]. replace (Z.to_nat d - length q)%nat with 0%nat by lia.
    cbn [replicate]. now rewrite app_nil_r.
Qed.

(** ** Printing and parsing *)

(** The digits padded so that at least one is before the point. *)
Lemma padded_digits n d : 0 <= n -> 0 <= d <= 40 ->
  exists h l,
    (if zlen (printNat n) <=? d
     then let! z := slice zeros 0 (d - zlen (printNat n) + 1) in Ok (z ++ printNat n)
     else Ok (printNat n)) = Ok (h ++ l)
    /\ zlen l = d /\ h <> [] /\ allDigits (h ++ l) /\ valueOf (h ++ l) = n.
Proof.
  intros Hn Hd. destruct (printNat_spec n Hn) as (Hdig & Hval & Hne).
  pose proof (zlen_nonneg (printNat n)).
  assert (exists m, (if zlen (printNat n) <=? d
     then let! z := slice zeros 0 (d - zlen (printNat n) + 1) in Ok (z ++ printNat n)
     else Ok (printNat n)) = Ok m /\ d < zlen m /\ allDigits m /\ valueOf m = n) as (m & -> & Hl & Hm & Hv).
  { destruct (Z.leb_spec (zlen (printNat n)) d).
    - assert (1 <= zlen (printNat n)).
      { destruct (printNat n) as [|x r]; [easy | rewrite zlen_cons; pose proof (zlen_nonneg r); lia]. }
      rewrite slice_zeros by lia. cbn [rbind]. eexists; split; [reflexivity |].
      rewrite zlen_app, zlen_replicate, allDigits_app, valueOf_app, valueOf_zeros, Hval.
      repeat split; auto using allDigits_zeros; lia.
    - now exists (printNat n). }
  exists (take (Z.to_nat (zlen m - d)) m), (drop (Z.to_nat (zlen m - d)) m).
  rewrite take_drop. repeat split; auto.
  - unfold zlen in *. rewrite length_drop. lia.
  - destruct m; [rewrite zlen_nil in Hl; lia |].
    destruct (Z.to_nat (zlen (b :: m) - d)) eqn:E; [lia | discriminate].
Qed.

Lemma allDigits_no_dot s : allDigits s -> Forall (fun c => bool_decide (c = chDot) = false) s.
Proof. apply allDigits_Forall. intros c Hc. now apply digit_not. Qed.

Lemma allDigits_no_exp s : allDigits s -> Forall (fun c => isExp c = false) s.
Proof. apply allDigits_Forall. exact digit_not_exp. Qed.

Lemma signOf_no_dot neg : Forall (fun c => bool_decide (c = chDot) = false) (signOf neg).
Proof. destruct neg; cbn; auto. Qed.

Lemma signOf_no_exp neg : Forall (fun c => isExp c = false) (signOf neg).
Proof. destruct neg; cbn; auto. Qed.

#[local] Hint Resolve allDigits_no_dot allDigits_no_exp signOf_no_dot signOf_no_exp : core.

Lemma printed_parses neg h l d :
  zlen l = d -> 0 <= d <= 40 -> h <> [] -> allDigits (h ++ l) ->
  let ad := TrimRight0 l in
  let n := if 0 <? zlen ad then h ++ [chDot] ++ ad else h in
  let s := signOf neg ++ n in
  indexFunc isExp s = -1 /\ normalizePlainAmountToIntString s d = Ok (signOf neg ++ h ++ l).
Proof.
  intros Hl Hd Hh Hdig. apply allDigits_app in Hdig as [H1 H2].
  destruct (trimRight0_zeros l) as [k E]. cbv zeta. set (ad := TrimRight0 l) in *.
  assert (H3 : allDigits ad) by (rewrite E in H2; now apply allDigits_app in H2).
  assert (zlen l = zlen ad + Z.of_nat k) by (rewrite E at 1; rewrite zlen_app, zlen_replicate; lia).
  destruct (Z.ltb_spec 0 (zlen ad)) as [Hp|Hp].
  - split.
    { apply indexFunc_none. rewrite !Forall_app. repeat split; auto. }
    rewrite app_assoc. cbn [app]. rewrite plain_frac; [| rewrite Forall_app; auto | lia].
    rewrite take_ge by (unfold zlen in *; lia). rewrite <- !app_assoc, E at 1. do 5 f_equal.
    unfold zlen in *. lia.
  - assert (zlen ad = 0) as H0 by (pose proof (zlen_nonneg ad); lia). apply zlen_0 in H0.
    split; [apply indexFunc_none; rewrite Forall_app; auto |].
    rewrite plain_int; [| rewrite Forall_app; auto | lia].
    rewrite <- app_assoc, E at 1. rewrite H0. cbn [app]. do 4 f_equal.
    rewrite H0, zlen_nil in *. lia.
Qed.

Lemma clampDecimals_spec d : 0 <= d ->
  clampDecimals d = (if zlen zeros <? d then zlen zeros else d) /\ 0 <= clampDecimals d <= 40.
Proof. intros H. unfold clampDecimals. change (zlen zeros) with 40. case_tests; auto; lia. Qed.

(** C35: an amount printed with a decimal point is read back as it was: for every integer
    amount and every position of the point, [AmountToDecimalString] gives a string and
    [AmountToBigInt] at the same position gives the amount. *)
Theorem amount_roundtrip (a d : Z) : 0 <= d ->
  exists s, AmountToDecimalString (Some a) d = Ok s /\ AmountToBigInt d s = Ok a.
Proof.
  intros Hd. destruct (clampDecimals_spec d Hd) as [Ec Hc].
  destruct (padded_digits (Z.abs a) (clampDecimals d) (Z.abs_nonneg a) Hc) as (h & l & E & Hl & Hh & Hdig & Hval).
  destruct (printed_parses (a <? 0) h l _ Hl Hc Hh Hdig) as [P1 P2].
  eexists. split.
  - unfold AmountToDecimalString. rewrite <- Ec, E. cbn [rbind].
    replace (zlen (h ++ l) - clampDecimals d) with (zlen h) by (rewrite zlen_app; lia).
    rewrite slice_from_app, slice_0_app by reflexivity. cbn [rbind].
    instantiate (1 := signOf (a <? 0) ++ (if 0 <? zlen (TrimRight0 l) then h ++ [chDot] ++ TrimRight0 l else h)).
    destruct (a <? 0); reflexivity.
  - unfold AmountToBigInt. rewrite P1, P2. cbn [Z.eqb Pos.eqb rbind].
    rewrite SetString_signed, Hval; [| intros H0; apply app_eq_nil in H0; tauto | exact Hdig].
    unfold signed. destruct (Z.ltb_spec a 0); do 2 f_equal; lia.
Qed.

(** An amount of 0.00000123 coins at eight decimals. *)
Lemma amount_roundtrip_witness :
  exists s, AmountToDecimalString (Some (-123)) 8 = Ok s /\ AmountToBigInt 8 s = Ok (-123).
Proof. apply (amount_roundtrip (-123) 8). lia. Defined.

(** ** Scientific notation *)

(** A number in scientific notation: a sign, digits, a fraction, the character of the exponent
    and the exponent. *)
Definition fractionOf (q : option bytes) : bytes := match q with Some q => chDot :: q | None => [] end.
Definition literal (neg : bool) (p : bytes) (q : option bytes) (c : byte) (es : bytes) : bytes :=
  signOf neg ++ (p ++ fractionOf q) ++ c :: es.

Definition graphic (c : byte) : bool := (33 <=? b2z c) && (b2z c <=? 126).

Lemma leadingSpace_none pats c s :
  forallb (fun p => match p with x :: _ => negb (graphic x) | [] => false end) pats = true ->
  graphic c = true -> leadingSpace pats (c :: s) = None.
Proof.
  rewrite forallb_forall. intros Hp Hc. unfold leadingSpace. rewrite filter_none; [reflexivity |].
  intros p Hin Ht. apply list_elem_of_In in Hin. specialize (Hp p Hin). destruct p as [|x p]; [discriminate |].
  cbn in Ht. injection Ht as -> _. rewrite Hc in Hp. discriminate.
Qed.

Lemma TrimSpace_id s c c' : head s = Some c -> last s = Some c' -> graphic c = true -> graphic c' = true -> TrimSpace s = s.
Proof.
  intros Hh Hl Hc Hc'. unfold TrimSpace.
  assert (E : trimSpaces (length s) spaces s = s).
  { destruct s as [|x s]; [discriminate |]. injection Hh as ->. cbn [length trimSpaces].
    now rewrite leadingSpace_none by (auto; reflexivity). }
  rewrite E. rewrite <- head_reverse in Hl. destruct (reverse s) as [|x r] eqn:Er; [discriminate |].
  injection Hl as ->. destruct s as [|y s]; [discriminate |]. cbn [length trimSpaces].
  rewrite leadingSpace_none by (auto; reflexivity). rewrite <- Er. apply reverse_involutive.
Qed.

Lemma digit_graphic c : isDigit c = true -> graphic c = true.
Proof. rewrite isDigit_range. intros. unfold graphic. rewrite andb_true_iff, !Z.leb_le. lia. Qed.

Lemma exp_cases c : isExp c = true -> c = x65 \/ c = x45.
Proof. unfold isExp. rewrite orb_true_iff, !bool_decide_eq_true. tauto. Qed.

Lemma exp_graphic c : isExp c = true -> graphic c = true.
Proof. intros [-> | ->]%exp_cases; reflexivity. Qed.

Lemma allDigits_last s : allDigits s -> s <> [] -> exists c, last s = Some c /\ isDigit c = true.
Proof.
  intros Hd Hn. destruct (last s) as [c|] eqn:E; [| now apply last_None in E].
  exists c. split; [reflexivity |]. apply last_Some in E as [r ->].
  apply allDigits_app in Hd as [_ Hd]. unfold allDigits in Hd. cbn in Hd. now apply andb_true_iff in Hd.
Qed.

(** An exponent ends with a digit and has no character of an exponent. *)
Lemma Atoi_shape s e : Atoi s = Some e ->
  Forall (fun c => isExp c = false) s /\ exists c, last s = Some c /\ isDigit c = true.
Proof.
  unfold Atoi, splitSign. destruct s as [|c s]; [discriminate |].
  assert (K : forall x, digits s = true -> isExp x = false ->
    Forall (fun c => isExp c = false) (x :: s) /\ exists c, last (x :: s) = Some c /\ isDigit c = true).
  { intros x [Hn Hd]%digits_iff Hx. split; [auto |]. destruct (allDigits_last s Hd Hn) as (y & Ey & Dy).
    exists y. split; [| exact Dy]. destruct s; [easy | exact Ey]. }
  destruct (bool_decide_reflect (c = chMinus)) as [->|];
    [destruct (digits s); [intros _; apply K; reflexivity | discriminate] |].
  destruct (bool_decide_reflect (c = chPlus)) as [->|];
    [destruct (digits s); [intros _; apply K; reflexivity | discriminate] |].
  destruct (digits (c :: s)) eqn:D; [intros _ | discriminate].
  apply digits_iff in D as [Hn Hd]. split; [auto | now apply allDigits_last].
Qed.

Lemma valueOf_take k s : allDigits s -> 0 <= k <= zlen s ->
  valueOf (take (Z.to_nat k) s) = valueOf s / 10 ^ (zlen s - k).
Proof.
  intros Hd Hk. rewrite <- (take_drop (Z.to_nat k) s) in Hd. apply allDigits_app in Hd as [_ Hr].
  rewrite <- (take_drop (Z.to_nat k) s) at 2. rewrite valueOf_app.
  replace (zlen (drop (Z.to_nat k) s)) with (zlen s - k) by (unfold zlen in *; rewrite length_drop; lia).
  apply valueOf_range in Hr.
  replace (zlen (drop (Z.to_nat k) s)) with (zlen s - k) in Hr by (unfold zlen in *; rewrite length_drop; lia).
  apply Z.div_unique with (r := valueOf (drop (Z.to_nat k) s)); lia.
Qed.

(** The value of shifted digits: multiplied or cut off, or too long. *)
Definition shifted (neg : bool) (v len k : Z) : result Z :=
  if v =? 0 then Ok 0
  else if k <? 0 then Ok (signed neg (v / 10 ^ (- k)))
  else if maxAmountExpandedDigits <? k + len then Err (ErrMsg "AmountToBigInt: failed to convert")
  else Ok (signed neg (v * 10 ^ k)).

Lemma shiftDigits_spec s k : allDigits s -> s <> [] ->
  (0 <= k /\ maxAmountExpandedDigits < k + zlen s /\ exists e, shiftDigits s k = Err e)
  \/ exists r, shiftDigits s k = Ok r /\ allDigits r /\ r <> []
       /\ (k < 0 /\ valueOf r = valueOf s / 10 ^ (- k)
           \/ 0 <= k /\ k + zlen s <= maxAmountExpandedDigits /\ valueOf r = valueOf s * 10 ^ k).
Proof.
  intros Hd Hn. unfold shiftDigits.
  assert (Hl : 0 < zlen s) by (now apply Z.ltb_lt, zlen_pos).
  destruct (Z.leb_spec 0 k) as [Hk|Hk].
  - destruct (Z.ltb_spec maxAmountExpandedDigits k); cbn [orb]; [left; split; [lia | split; [lia | eauto]] |].
    destruct (Z.ltb_spec (maxAmountExpandedDigits - k) (zlen s)); [left; split; [lia | split; [lia | eauto]] |].
    right. eexists. split; [reflexivity |]. rewrite allDigits_app, valueOf_app, valueOf_zeros, zlen_replicate.
    rewrite Z2Nat.id by lia. repeat split; auto using allDigits_zeros; [now destruct s |]. right. lia.
  - right. destruct (Z.ltb_spec 0 (zlen s + k)) as [Hp|Hp].
    + exists (take (Z.to_nat (zlen s + k)) s). split.
      { rewrite <- (take_drop (Z.to_nat (zlen s + k)) s) at 1.
        apply slice_0_app. unfold zlen in *. rewrite length_take. lia. } rewrite valueOf_take by (auto; lia).
      repeat split; [| | left; split; [lia | do 2 f_equal; lia]].
      * rewrite <- (take_drop (Z.to_nat (zlen s + k)) s) in Hd. now apply allDigits_app in Hd.
      * destruct s; [easy |]. destruct (Z.to_nat _) eqn:E; [lia | discriminate].
    + eexists. split; [reflexivity |]. repeat split; [discriminate |]. left. split; [lia |].
      symmetry. apply Z.div_small. pose proof (valueOf_range s Hd).
      pose proof (Z.pow_le_mono_r 10 (zlen s) (- k) ltac:(lia) ltac:(lia)). change (valueOf [ch0]) with 0. lia.
Qed.

Lemma SetString_signed_zero neg s : s <> [] -> allDigits s ->
  SetString (if neg && negb (bool_decide (s = [ch0])) then chMinus :: s else s) = Some (signed neg (valueOf s)).
Proof.
  intros Hn Hd. destruct neg; cbn [andb]; [| exact (SetString_signed false s Hn Hd)].
  destruct (bool_decide_reflect (s = [ch0])) as [->|]; [reflexivity | exact (SetString_signed true s Hn Hd)].
Qed.

Lemma fractionOf_shape p q : allDigits p -> allDigits (default [] q) ->
  Forall (fun c => isExp c = false) (p ++ fractionOf q)
  /\ splitFraction (p ++ fractionOf q) = Ok (zlen (default [] q), p ++ default [] q).
Proof.
  intros Hp Hq. split.
  { rewrite Forall_app. split; [auto |]. destruct q as [q|]; cbn in *; [constructor; auto | constructor]. }
  unfold splitFraction, IndexByte. destruct q as [q|]; cbn [fractionOf default] in *.
  - rewrite (indexFunc_first _ p chDot q) by (auto; reflexivity). pose proof (zlen_nonneg p).
    destruct (Z.eqb_spec (zlen p) (-1)) as [|_]; [lia |].
    change (p ++ chDot :: q) with (p ++ [chDot] ++ q). rewrite slice_0_app by reflexivity.
    rewrite (app_assoc p [chDot] q), slice_from_app by (rewrite zlen_app; reflexivity). cbn [rbind].
    rewrite indexFunc_none by auto. cbn [Z.eqb Pos.eqb negb rbind]. f_equal.
    rewrite !zlen_app. change (zlen [chDot]) with 1. unfold id. f_equal. lia.
  - rewrite app_nil_r, indexFunc_none by auto. reflexivity.
Qed.

Lemma splitExponent_literal m c es e :
  Forall (fun c => isExp c = false) m -> m <> [] -> isExp c = true -> Atoi es = Some e ->
  splitExponent (m ++ c :: es) = Ok (e, m).
Proof.
  intros Hm Hn Hc He. unfold splitExponent. rewrite (indexFunc_first _ m c es Hm Hc).
  pose proof (zlen_nonneg m). destruct (Z.eqb_spec (zlen m) (-1)) as [|_]; [lia |].
  change (m ++ c :: es) with (m ++ [c] ++ es). rewrite slice_0_app by reflexivity.
  rewrite (app_assoc m [c] es), slice_from_app by (rewrite zlen_app; reflexivity). cbn [rbind].
  destruct (Atoi_shape es e He) as [H0 _]. rewrite (indexFunc_none _ _ H0), He. cbn [Z.eqb Pos.eqb negb rbind].
  now rewrite bool_decide_eq_false_2.
Qed.

Lemma literal_trim neg p q c es e : allDigits p -> isExp c = true -> Atoi es = Some e ->
  TrimSpace (literal neg p q c es) = literal neg p q c es /\ literal neg p q c es <> [].
Proof.
  intros Hp Hc He. destruct (Atoi_shape es e He) as (_ & y & Hl & Hy).
  assert (Hlast : last (literal neg p q c es) = Some y).
  { unfold literal. rewrite app_assoc, last_app_cons. destruct es; [discriminate | exact Hl]. }
  assert (exists x, head (literal neg p q c es) = Some x /\ graphic x = true) as (x & Hx & Gx).
  { unfold literal. destruct neg; [now eexists |]. destruct p as [|x p]; cbn [signOf app].
    - destruct q; cbn; eauto using exp_graphic.
    - unfold allDigits in Hp. cbn in Hp. apply andb_true_iff in Hp as [Hp _]. cbn. eauto using digit_graphic. }
  split; [| now destruct (literal neg p q c es)]. eapply TrimSpace_id; eauto using digit_graphic.
Qed.

Lemma trimLeft0_value s : valueOf (TrimLeft0 s) = valueOf s.
Proof.
  destruct (dropWhile_zeros s) as [k E]. unfold TrimLeft0. rewrite E at 2.
  rewrite valueOf_app, valueOf_zeros. lia.
Qed.

Lemma trimLeft0_digits s : allDigits s -> allDigits (TrimLeft0 s).
Proof. destruct (dropWhile_zeros s) as [k E]. rewrite E at 1. rewrite allDigits_app. tauto. Qed.

Lemma dropWhile_head f s c r : dropWhile f s = c :: r -> f c = false.
Proof. induction s as [|x s IH]; [discriminate |]. cbn [dropWhile]. destruct (f x) eqn:E; [exact IH | congruence]. Qed.

Lemma trimLeft0_pos s : allDigits s -> TrimLeft0 s <> [] -> 0 < valueOf (TrimLeft0 s).
Proof.
  intros Hd%trimLeft0_digits Hn. unfold TrimLeft0 in *. destruct (dropWhile isZero s) as [|c r] eqn:E; [easy |].
  apply dropWhile_head, bool_decide_eq_false in E. change (c :: r) with ([c] ++ r) in *.
  apply allDigits_app in Hd as [Hc Hr]. pose proof (valueOf_range r Hr). rewrite valueOf_app.
  unfold allDigits in Hc. cbn in Hc. rewrite andb_true_iff, isDigit_range in Hc.
  assert (b2z c <> 48) by (intros H0; apply E, b2z_inj; exact H0).
  change (valueOf [c]) with (10 * 0 + (b2z c - 48)). pose proof (zlen_nonneg r). nia.
Qed.

Lemma literal_no_sign p q c es : allDigits p -> isExp c = true ->
  forall x, head ((p ++ fractionOf q) ++ c :: es) = Some x -> x <> chMinus /\ x <> chPlus.
Proof.
  intros Hp Hc x. destruct p as [|y p]; cbn [app head].
  - destruct q; cbn; intros [= <-]; [split; discriminate |].
    destruct (exp_cases c Hc) as [-> | ->]; split; discriminate.
  - intros [= <-]. now apply (digit_no_sign (y :: p)).
Qed.

(** The normalised literal, before it is read as an integer. *)
Lemma scientific_normalized neg p q c es e d :
  allDigits p -> allDigits (default [] q) -> p ++ default [] q <> [] -> isExp c = true -> Atoi es = Some e ->
  normalizeScientificAmountToIntString (literal neg p q c es) d
  = let s := TrimLeft0 (p ++ default [] q) in
    if bool_decide (s = []) then Ok [ch0]
    else let! s := shiftDigits s (i64 (i64 (e - zlen (default [] q)) + d)) in
         Ok (if neg && negb (bool_decide (s = [ch0])) then chMinus :: s else s).
Proof.
  intros Hp Hq Hn Hc He. destruct (fractionOf_shape p q Hp Hq) as [F1 F2].
  assert (Hm : p ++ fractionOf q <> []).
  { intros [-> H0]%app_eq_nil. destruct q; [discriminate | easy]. }
  unfold normalizeScientificAmountToIntString.
  destruct (literal_trim neg p q c es e Hp Hc He) as [-> Hl]. rewrite bool_decide_eq_false_2 by exact Hl.
  unfold literal. rewrite splitSign_signOf by now apply literal_no_sign.
  rewrite bool_decide_eq_false_2 by (intros [_ H0]%app_eq_nil; discriminate).
  rewrite (splitExponent_literal _ _ _ _ F1 Hm Hc He). cbn [rbind]. rewrite F2. cbn [rbind].
  rewrite bool_decide_eq_false_2 by exact Hn.
  replace (forallb isDigit (p ++ default [] q)) with true by (symmetry; now apply allDigits_app).
  reflexivity.
Qed.

(** The parser of scientific notation is exact: a literal with mantissa [m] of [f] fraction
    digits and exponent [e] is [m * 10^(e - f + d)] in the smallest unit, cut off towards zero
    below it, and an error exactly when the written out number would pass 1024 digits. *)
Theorem scientific_value neg p q c es e d :
  allDigits p -> allDigits (default [] q) -> p ++ default [] q <> [] -> isExp c = true -> Atoi es = Some e ->
  let k := e - zlen (default [] q) + clampDecimals d in
  is_i64 (e - zlen (default [] q)) -> is_i64 k ->
  AmountToBigInt d (literal neg p q c es)
  = shifted neg (valueOf (p ++ default [] q)) (zlen (TrimLeft0 (p ++ default [] q))) k.
Proof.
  intros Hp Hq Hn Hc He k Hi Hk. destruct (fractionOf_shape p q Hp Hq) as [F1 _].
  unfold AmountToBigInt. rewrite (scientific_normalized neg p q c es e _ Hp Hq Hn Hc He).
  unfold literal. rewrite app_assoc, (indexFunc_first isExp (signOf neg ++ p ++ fractionOf q) c es) by (rewrite ?Forall_app in *; tauto || auto).
  match goal with |- context [zlen ?x =? -1] => pose proof (zlen_nonneg x); destruct (Z.eqb_spec (zlen x) (-1)) as [|_]; [lia |] end.
  rewrite (i64_id _ Hi). fold k. rewrite (i64_id _ Hk). cbv zeta.
  assert (Hd : allDigits (TrimLeft0 (p ++ default [] q))) by (now apply trimLeft0_digits, allDigits_app).
  rewrite <- (trimLeft0_value (p ++ default [] q)). unfold shifted.
  destruct (bool_decide_reflect (TrimLeft0 (p ++ default [] q) = [])) as [Ht|Ht]; [now rewrite Ht |].
  pose proof (trimLeft0_pos _ (proj2 (allDigits_app _ _) (conj Hp Hq)) Ht).
  destruct (shiftDigits_spec _ k Hd Ht) as [(K0 & K1 & err & ->) | (r & -> & Hr & Hrn & HV)]; cbn [rbind].
  - case_tests. reflexivity.
  - rewrite SetString_signed_zero by assumption. destruct HV as [[K0 ->] | (K0 & K1 & ->)]; case_tests; reflexivity.
Qed.

(** 1.23e-7 coins at eight decimals are 12 of the smallest unit. *)
Lemma scientific_value_witness :
  AmountToBigInt 8 (literal false [x31] (Some [x32; x33]) x65 [x2d; x37]) = Ok 12.
Proof.
  refine (eq_trans (scientific_value false [x31] (Some [x32; x33]) x65 [x2d; x37] (-7) 8 _ _ _ _ _ _ _) _);
    try reflexivity; try discriminate; vm_compute; split; congruence.
Defined.
