(* ===== verification/Golomb.v ===== *)
(** Block filters ([bchain/golomb.go]): which address descriptors enter the Golomb filter
    of a block. The construction of the filter bits is the package [gcs], a parameter.

    The theorems say which descriptors a filter holds: all of them, the taproot ones, or
    the taproot ones of transactions that neither carry ordinal data nor are spent by one
    that does; each once, whatever the order of the loop over the map. *)

From S2P Require Import Prelude Codec Parser.

Local Open Scope Z_scope.

Inductive FilterScriptsType :=
| FilterScriptsInvalid | FilterScriptsAll | FilterScriptsTaproot | FilterScriptsTaprootNoOrdinals.

#[export] Instance FilterScriptsType_eq_decision : EqDecision FilterScriptsType.
Proof. solve_decision. Defined.

Definition filterScriptsToScriptsType (filterScripts : string) : FilterScriptsType :=
  if bool_decide (filterScripts = ""%string) then FilterScriptsAll
  else if bool_decide (filterScripts = "taproot"%string) then FilterScriptsTaproot
  else if bool_decide (filterScripts = "taproot-noordinals"%string) then FilterScriptsTaprootNoOrdinals
  else FilterScriptsInvalid.

(** The package gcs: the key size, and the bytes of the filter over a list of elements
    ([None] is an error of the package). *)
Class Gcs := {
  gcs_KeySize : Z;
  gcs_Build : Z -> Z -> bytes -> list bytes -> option bytes;
}.

Record GolombFilter := mkGolombFilter {
  gf_Enabled : bool;
  gf_UseZeroedKey : bool;
  gf_p : Z;
  gf_key : bytes;
  gf_filterScriptsType : FilterScriptsType;
  gf_filterData : list bytes;
  gf_uniqueData : gset bytes;
  gf_ordinalTxIds : gset bytes;
  gf_allAddressDescriptors : gmap bytes (list bytes);
}.

Definition NewGolombFilter (p : Z) (filterScripts : string) (key : bytes) (useZeroedKey : bool)
    : result GolombFilter :=
  if p =? 0 then Ok (mkGolombFilter false false 0 [] FilterScriptsInvalid [] ∅ ∅ ∅)
  else
    let ty := filterScriptsToScriptsType filterScripts in
    match ty with
    | FilterScriptsInvalid => Err (ErrMsg "Invalid/unsupported filterScripts parameter")
    | _ => Ok (mkGolombFilter true useZeroedKey p key ty [] ∅ ∅ ∅)
    end.

Definition GetGolombParamM (p : Z) : Z := u64 (Z.shiftl 1 p).

Definition IsTaproot (ad : bytes) : bool :=
  match ad with
  | a :: b :: _ => (zlen ad =? 34) && (b2z a =? 81) && (b2z b =? 32)
  | _ => false
  end.

Fixpoint is_prefix (pat s : bytes) : bool :=
  match pat, s with
  | [], _ => true
  | a :: pat, b :: s => bool_decide (a = b) && is_prefix pat s
  | _, [] => false
  end.

(** [bytes.Contains] *)
Fixpoint bytes_Contains (s pat : bytes) : bool :=
  is_prefix pat s || match s with [] => false | _ :: s => bytes_Contains s pat end.

Definition byte_pattern : bytes := [x00; x63; x03; x6f; x72; x64; x01].

Definition isInputOrdinal (vin : Vin) : bool :=
  match vin_Witness vin with
  | _ :: w1 :: _ => (2 <? zlen (vin_Witness vin)) && bytes_Contains w1 byte_pattern
  | _ => false
  end.

Definition txContainsOrdinal (tx : Tx) : bool := existsb isInputOrdinal (tx_Vin tx).

Definition ignoreNonTaproot (f : GolombFilter) : bool :=
  match gf_filterScriptsType f with
  | FilterScriptsTaproot | FilterScriptsTaprootNoOrdinals => true
  | _ => false
  end.

Definition ignoreOrdinals (f : GolombFilter) : bool :=
  match gf_filterScriptsType f with
  | FilterScriptsTaprootNoOrdinals => true
  | _ => false
  end.

Definition set_data (data : list bytes) (uniq : gset bytes) (f : GolombFilter) : GolombFilter :=
  mkGolombFilter (gf_Enabled f) (gf_UseZeroedKey f) (gf_p f) (gf_key f) (gf_filterScriptsType f)
    data uniq (gf_ordinalTxIds f) (gf_allAddressDescriptors f).

Definition set_ordinals (ids : gset bytes) (all : gmap bytes (list bytes)) (f : GolombFilter) : GolombFilter :=
  mkGolombFilter (gf_Enabled f) (gf_UseZeroedKey f) (gf_p f) (gf_key f) (gf_filterScriptsType f)
    (gf_filterData f) (gf_uniqueData f) ids all.

Definition markTxAndParentsAsOrdinals (tx : Tx) (f : GolombFilter) : GolombFilter :=
  set_ordinals (foldl (fun ids vin => {[vin_Txid vin]} ∪ ids) ({[tx_Txid tx]} ∪ gf_ordinalTxIds f) (tx_Vin tx))
    (gf_allAddressDescriptors f) f.

Definition addTxIdMapping (ad : bytes) (tx : Tx) (f : GolombFilter) : GolombFilter :=
  let old := default [] (gf_allAddressDescriptors f !! tx_Txid tx) in
  set_ordinals (gf_ordinalTxIds f) (<[tx_Txid tx := old ++ [ad]]> (gf_allAddressDescriptors f)) f.

Definition includeAddrDesc (ad : bytes) (f : GolombFilter) : GolombFilter :=
  if bool_decide (ad ∈ gf_uniqueData f) then f
  else set_data (gf_filterData f ++ [ad]) ({[ad]} ∪ gf_uniqueData f) f.

(** The transaction may be nil. *)
Definition AddAddrDesc (ad : bytes) (tx : option Tx) (f : GolombFilter) : GolombFilter :=
  if ignoreNonTaproot f && negb (IsTaproot ad) then f
  else
    match (if ignoreOrdinals f then tx else None) with
    | Some t =>
        if txContainsOrdinal t then markTxAndParentsAsOrdinals t f
        else if zlen ad =? 0 then f
        else addTxIdMapping ad t f
    | None => if zlen ad =? 0 then f else includeAddrDesc ad f
    end.

(** The loop over the map runs in the given order. *)
Definition includeAllAddressDescriptorsOrdinals (order : list (bytes * list bytes)) (f : GolombFilter)
    : GolombFilter :=
  foldl (fun f e =>
           if bool_decide (e.1 ∈ gf_ordinalTxIds f) then f
           else foldl (fun f ad => includeAddrDesc ad f) f e.2)
    f order.

(** The bytes [hex.DecodeString] returns beside an error: the pairs before it. *)
Fixpoint hex_DecodePrefix (s : bytes) : bytes :=
  match s with
  | p :: q :: r =>
      match from_hex_digit p, from_hex_digit q with
      | Some a, Some b => z2b (a * 16 + b) :: hex_DecodePrefix r
      | _, _ => []
      end
  | _ => []
  end.

(** [Compute]: the completed filter and its bytes ([None] is nil). *)
Definition Compute {G : Gcs} (order : list (bytes * list bytes)) (f : GolombFilter)
    : GolombFilter * option bytes :=
  let m := GetGolombParamM (gf_p f) in
  let f := if ignoreOrdinals f then includeAllAddressDescriptorsOrdinals order f else f in
  if bool_decide (gf_filterData f = []) then (f, None)
  else
    let key :=
      if gf_UseZeroedKey f then Some (replicate (Z.to_nat gcs_KeySize) x00)
      else
        (* the error of DecodeString is ignored *)
        let b := hex_DecodePrefix (gf_key f) in
        if zlen b <? gcs_KeySize then None else Some (take (Z.to_nat gcs_KeySize) b) in
    match key with
    | None => (f, None)
    | Some key => (f, gcs_Build (gf_p f) m key (gf_filterData f))
    end.

(** ** What a filter holds *)

Definition empty_filter (ty : FilterScriptsType) (p : Z) (key : bytes) (z : bool) : GolombFilter :=
  mkGolombFilter true z p key ty [] ∅ ∅ ∅.

Definition addAll (evs : list (bytes * Tx)) (f : GolombFilter) : GolombFilter :=
  foldl (fun f e => AddAddrDesc e.1 (Some e.2) f) f evs.

(** The data are the set of included descriptors, each once. *)
Definition data_ok (f : GolombFilter) : Prop :=
  NoDup (gf_filterData f) /\ forall ad, ad ∈ gf_uniqueData f <-> ad ∈ gf_filterData f.

Lemma includeAddrDesc_data ad f :
  data_ok f ->
  data_ok (includeAddrDesc ad f) /\
  (forall x, x ∈ gf_filterData (includeAddrDesc ad f) <-> x = ad \/ x ∈ gf_filterData f) /\
  gf_ordinalTxIds (includeAddrDesc ad f) = gf_ordinalTxIds f.
Proof.
  intros [Hn Hu]. unfold includeAddrDesc. case_bool_decide as E.
  - split; [done|]. split; [|done]. intros x. split; [auto|].
    intros [->|]; [by apply Hu|done].
  - unfold data_ok. cbn. rewrite Hu in E. split; [split|split; [|done]].
    + apply NoDup_app. split; [done|]. split; [|apply NoDup_singleton].
      intros x Hx ->%list_elem_of_singleton. done.
    + intros x. rewrite elem_of_union, elem_of_singleton, elem_of_app, Hu, list_elem_of_singleton. tauto.
    + intros x. rewrite elem_of_app, list_elem_of_singleton. tauto.
Qed.

Lemma includeList_data ads f :
  data_ok f ->
  let f' := foldl (fun f ad => includeAddrDesc ad f) f ads in
  data_ok f' /\ (forall x, x ∈ gf_filterData f' <-> x ∈ ads \/ x ∈ gf_filterData f) /\
  gf_ordinalTxIds f' = gf_ordinalTxIds f.
Proof.
  revert f. induction ads as [|ad ads IH]; intros f Hf; cbn.
  - split; [done|]. split; [|done]. intros x. rewrite elem_of_nil. tauto.
  - destruct (includeAddrDesc_data ad f Hf) as (H1 & H2 & H3).
    destruct (IH _ H1) as (H4 & H5 & H6). split; [done|]. split; [|by rewrite H6].
    intros x. rewrite H5, H2, elem_of_cons. tauto.
Qed.

Lemma includeAll_data order f :
  data_ok f ->
  let f' := includeAllAddressDescriptorsOrdinals order f in
  data_ok f' /\
  forall x, x ∈ gf_filterData f' <->
    x ∈ gf_filterData f \/ exists t ads, (t, ads) ∈ order /\ t ∉ gf_ordinalTxIds f /\ x ∈ ads.
Proof.
  revert f. induction order as [|[t ads] order IH]; intros f Hf; cbn.
  - split; [done|]. intros x. split; [auto|]. intros [|(t & ads & []%not_elem_of_nil & _)]; done.
  - case_bool_decide as E.
    + destruct (IH f Hf) as [H1 H2]. split; [done|]. intros x. unfold includeAllAddressDescriptorsOrdinals in H2.
      rewrite H2. split; (intros [?|(t' & ads' & Hin & Ht & Hx)]; [by left|right; exists t', ads']).
      * split; [by right|done].
      * apply elem_of_cons in Hin as [[= -> ->]|]; [done|done].
    + destruct (includeList_data ads f Hf) as (H1 & H2 & H3).
      destruct (IH _ H1) as [H4 H5]. split; [done|]. intros x. unfold includeAllAddressDescriptorsOrdinals in H5.
      rewrite H5, H2, H3. split.
      * intros [[Hx|Hx]|(t' & ads' & Hin & Ht & Hx)]; [right|by left|right].
        -- exists t, ads. split; [left|done].
        -- exists t', ads'. split; [by right|done].
      * intros [Hx|(t' & ads' & Hin & Ht & Hx)]; [auto|].
        apply elem_of_cons in Hin as [[= -> ->]|]; [auto|]. right. eauto.
Qed.

Definition marks (t : bytes) (e : bytes * Tx) : Prop :=
  IsTaproot e.1 = true /\ txContainsOrdinal e.2 = true /\
  (t = tx_Txid e.2 \/ t ∈ map vin_Txid (tx_Vin e.2)).

Definition maps (t ad : bytes) (e : bytes * Tx) : Prop :=
  ad = e.1 /\ IsTaproot ad = true /\ txContainsOrdinal e.2 = false /\ tx_Txid e.2 = t.

Lemma markTxs_elem (vins : list Vin) (s : gset bytes) (t : bytes) :
  t ∈ foldl (fun ids vin => {[vin_Txid vin]} ∪ ids) s vins <-> t ∈ s \/ t ∈ map vin_Txid vins.
Proof.
  revert s. induction vins as [|v vins IH]; intros s; cbn.
  - rewrite elem_of_nil. tauto.
  - rewrite IH, elem_of_union, elem_of_singleton, elem_of_cons. tauto.
Qed.

Lemma IsTaproot_nonempty ad : IsTaproot ad = true -> (zlen ad =? 0) = false.
Proof. destruct ad; [done|]. intros _. apply Z.eqb_neq. unfold zlen. cbn. lia. Qed.

Definition noord_state (evs : list (bytes * Tx)) (f : GolombFilter) : Prop :=
  gf_filterScriptsType f = FilterScriptsTaprootNoOrdinals /\ gf_filterData f = [] /\ gf_uniqueData f = ∅ /\
  (forall t, t ∈ gf_ordinalTxIds f <-> Exists (marks t) evs) /\
  (forall t ad, ad ∈ default [] (gf_allAddressDescriptors f !! t) <-> Exists (maps t ad) evs).

Lemma Exists_snoc {B} (Q : B -> Prop) l x : Exists Q (l ++ [x]) <-> Exists Q l \/ Q x.
Proof. rewrite Exists_app, Exists_cons, Exists_nil. tauto. Qed.

Lemma noord_step evs f e :
  noord_state evs f -> noord_state (evs ++ [e]) (AddAddrDesc e.1 (Some e.2) f).
Proof.
  intros (Hty & Hd & Hu & Ho & Ha). unfold AddAddrDesc, ignoreNonTaproot, ignoreOrdinals. rewrite Hty.
  destruct (IsTaproot e.1) eqn:ET; cbn [andb negb].
  - destruct (txContainsOrdinal e.2) eqn:EO.
    + repeat (split; [done|]). split; intros t; [|intros ad]; rewrite Exists_snoc; cbn.
      * rewrite markTxs_elem, elem_of_union, elem_of_singleton, Ho. unfold marks. tauto.
      * rewrite Ha. unfold maps. split; [tauto|]. intros [?|(_ & _ & ? & _)]; [done|congruence].
    + rewrite IsTaproot_nonempty by done. repeat (split; [done|]). split; intros t; [|intros ad]; rewrite Exists_snoc; cbn.
      * rewrite Ho. unfold marks. split; [tauto|]. intros [?|(_ & ? & _)]; [done|congruence].
      * rewrite lookup_insert. rewrite <- Ha. unfold maps. case_decide as E; cbn.
        -- subst t. rewrite elem_of_app, list_elem_of_singleton. split; [intros [?| ->]; auto|]. intros [?|(-> & _)]; auto.
        -- split; [auto|]. intros [?|(_ & _ & _ & ?)]; [done|congruence].
  - repeat (split; [done|]). split; intros t; [|intros ad]; rewrite Exists_snoc.
    + rewrite Ho. unfold marks. split; [tauto|]. intros [?|(? & _)]; [done|congruence].
    + rewrite Ha. unfold maps. split; [tauto|]. intros [?|(-> & ? & _)]; [done|congruence].
Qed.

Lemma noord_addAll evs p key z : noord_state evs (addAll evs (empty_filter FilterScriptsTaprootNoOrdinals p key z)).
Proof.
  induction evs as [|e evs IH] using rev_ind.
  - repeat (split; [done|]). split; intros t; [|intros ad]; rewrite Exists_nil; cbn.
    + by rewrite elem_of_empty.
    + by rewrite lookup_empty, elem_of_nil.
  - unfold addAll. rewrite foldl_app. by apply noord_step.
Qed.

(** Filters that take descriptors as they come. *)
Lemma direct_addAll ty evs p key z :
  ty = FilterScriptsAll \/ ty = FilterScriptsTaproot ->
  let f := addAll evs (empty_filter ty p key z) in
  gf_filterScriptsType f = ty /\ data_ok f /\
  forall ad, ad ∈ gf_filterData f <->
    ad <> [] /\ (ty = FilterScriptsTaproot -> IsTaproot ad = true) /\ ad ∈ evs.*1.
Proof.
  intros Hty. induction evs as [|e evs IH] using rev_ind.
  - split; [done|]. split; [split; [apply NoDup_nil_2|intros ad; cbn; by rewrite elem_of_empty, elem_of_nil]|]. intros ad. cbn. rewrite !elem_of_nil. tauto.
  - unfold addAll in *. rewrite foldl_app, fmap_app. change ([e].*1) with [e.1]. destruct IH as (H1 & H2 & H3).
    cbn zeta. cbn [foldl]. set (f := foldl _ _ evs) in *.
    assert (ignoreOrdinals f = false) as Hio by (unfold ignoreOrdinals; rewrite H1; by destruct Hty as [-> | ->]).
    assert (ignoreNonTaproot f = bool_decide (ty = FilterScriptsTaproot)) as Hin
      by (unfold ignoreNonTaproot; rewrite H1; by destruct Hty as [-> | ->]).
    unfold AddAddrDesc. rewrite Hio, Hin.
    destruct (bool_decide (ty = FilterScriptsTaproot) && negb (IsTaproot e.1)) eqn:E.
    + split; [done|]. split; [done|]. intros ad. rewrite H3, elem_of_app, list_elem_of_singleton.
      apply andb_true_iff in E as [->%bool_decide_eq_true E%negb_true_iff].
      split; [tauto|]. intros (? & Ht & [?| ->]); [done|]. rewrite Ht in E; done.
    + destruct (Z.eqb_spec (zlen e.1) 0) as [E0|E0].
      * split; [done|]. split; [done|]. intros ad. rewrite H3, elem_of_app, list_elem_of_singleton.
        assert (e.1 = []) as -> by (apply nil_length_inv; unfold zlen in E0; lia). tauto.
      * destruct (includeAddrDesc_data e.1 f H2) as (H4 & H5 & _).
        split; [unfold includeAddrDesc; destruct (bool_decide (e.1 ∈ _)); exact H1|]. split; [done|].
        intros ad. rewrite H5, H3, elem_of_app, list_elem_of_singleton. split; [|tauto].
        intros [->|?]; [|tauto]. split; [intros Ee; apply E0; by rewrite Ee|]. split; [|auto].
        intros ->. rewrite bool_decide_true in E by done. by apply negb_false_iff in E.
Qed.

(** ** Properties *)

Section GolombProperties.
Context {G : Gcs}.

(** The filter of a block without ordinals holds exactly the descriptors it should. After
    any sequence of [AddAddrDesc] on a "taproot-noordinals" filter, [Compute] builds it from
    each taproot descriptor, once, of the transactions that carry no ordinal data and are not
    spent by an added transaction that does; the order of the loop over the map is irrelevant. *)
Theorem golomb_noordinals_data evs p key z order :
  let f := addAll evs (empty_filter FilterScriptsTaprootNoOrdinals p key z) in
  order ≡ₚ map_to_list (gf_allAddressDescriptors f) ->
  NoDup (gf_filterData (Compute order f).1) /\
  forall ad, ad ∈ gf_filterData (Compute order f).1 <->
    exists tx, (ad, tx) ∈ evs /\ IsTaproot ad = true /\ txContainsOrdinal tx = false /\
      ~ Exists (marks (tx_Txid tx)) evs.
Proof.
  intros f Ho. destruct (noord_addAll evs p key z) as (Hty & Hd & Hu & Hm & Ha). fold f in Hty, Hd, Hu, Hm, Ha.
  assert (data_ok f) as Hok.
  { split; [rewrite Hd; apply NoDup_nil_2|]. intros ad. by rewrite Hu, Hd, elem_of_empty, elem_of_nil. }
  destruct (includeAll_data order f Hok) as [H1 H2].
  replace (gf_filterData (Compute order f).1)
    with (gf_filterData (includeAllAddressDescriptorsOrdinals order f)).
  - split; [apply H1|]. intros ad. rewrite H2, Hd, elem_of_nil. split.
    + intros [[]|(t & ads & Hin & Ht & Hx)]. rewrite Ho, elem_of_map_to_list in Hin.
      assert (Exists (maps t ad) evs) as He by (apply Ha; by rewrite Hin).
      apply Exists_exists in He as ([ad' tx] & Hel & -> & Htap & Hord & <-).
      exists tx. rewrite <- Hm. done.
    + intros (tx & Hel & Htap & Hord & Hnm). right.
      assert (ad ∈ default [] (gf_allAddressDescriptors f !! tx_Txid tx)) as Hx
        by (apply Ha, Exists_exists; exists (ad, tx); done).
      destruct (gf_allAddressDescriptors f !! tx_Txid tx) as [ads|] eqn:E;
        [|by apply not_elem_of_nil in Hx].
      exists (tx_Txid tx), ads. rewrite Ho, elem_of_map_to_list, Hm. done.
  - unfold Compute. assert (ignoreOrdinals f = true) as -> by (unfold ignoreOrdinals; by rewrite Hty).
    by repeat case_match.
Qed.

(** The other two filter types hold every non-empty descriptor added, restricted to the
    taproot ones for "taproot", each once. *)
Theorem golomb_direct_data ty evs p key z order :
  ty = FilterScriptsAll \/ ty = FilterScriptsTaproot ->
  let f := addAll evs (empty_filter ty p key z) in
  NoDup (gf_filterData (Compute order f).1) /\
  forall ad, ad ∈ gf_filterData (Compute order f).1 <->
    ad <> [] /\ (ty = FilterScriptsTaproot -> IsTaproot ad = true) /\ ad ∈ evs.*1.
Proof.
  intros Hty f. destruct (direct_addAll ty evs p key z Hty) as (H1 & H2 & H3). fold f in H1, H2, H3.
  replace (gf_filterData (Compute order f).1) with (gf_filterData f).
  - split; [apply H2|]. apply H3.
  - unfold Compute. assert (ignoreOrdinals f = false) as -> by (unfold ignoreOrdinals; rewrite H1; by destruct Hty as [-> | ->]).
    by repeat case_match.
Qed.
End GolombProperties.

Module GolombExample.

#[local] Instance gcs : Gcs := {
  gcs_KeySize := 16;
  gcs_Build := fun p m key data => Some (z2b p :: key ++ concat data);
}.

Definition taproot (b : byte) : bytes := [x51; x20] ++ replicate 32 b.
Definition ordinalTx : Tx :=
  mkTx [] [x01] 2 0 0 [mkVin [] [x02] 0 [[x00]; [xaa] ++ byte_pattern; [x01]]] [] [].
Definition plainTx (id : byte) : Tx := mkTx [] [id] 2 0 0 [mkVin [] [x09] 0 []] [] [].
(** A transaction with ordinal data, the one it spends, and another one. *)
Definition evs : list (bytes * Tx) :=
  [(taproot x11, plainTx x02); (taproot x22, plainTx x03); (taproot x33, ordinalTx)].
Definition filter0 : GolombFilter := addAll evs (empty_filter FilterScriptsTaprootNoOrdinals 20 [] true).

Lemma golomb_noordinals_witness :
  gf_filterData (Compute (map_to_list (gf_allAddressDescriptors filter0)) filter0).1 = [taproot x22] /\
  NoDup (gf_filterData (Compute (map_to_list (gf_allAddressDescriptors filter0)) filter0).1).
Proof.
  split; [vm_compute; reflexivity|].
  exact (proj1 (golomb_noordinals_data evs 20 [] true _ (Permutation_refl _))).
Defined.

Lemma golomb_direct_witness :
  taproot x11 ∈ gf_filterData (Compute [] (addAll evs (empty_filter FilterScriptsTaproot 20 [] true))).1.
Proof.
  apply (proj2 (golomb_direct_data FilterScriptsTaproot evs 20 [] true [] (or_intror eq_refl))).
  split; [done|]. split; [intros _; vm_compute; reflexivity|]. left.
Defined.

End GolombExample.
