(* ===== verification/TxAddr.v ===== *)
(** The [txAddresses] column: the record kept for every indexed transaction, its
    encoding, and the reader that resolves one output without unpacking the record
    ([db/rocksdb.go]: [TxInput], [TxOutput], [TxAddresses], [packTxAddresses] to
    [packedTxOutputLen], and the body of [GetTxAddressesOutput]). *)

From S2P Require Import Prelude Codec Parser.

Local Open Scope Z_scope.

Record TxInput := mkTxInput {
  ti_AddrDesc : bytes;
  ti_ValueSat : Z;
  ti_AssetInfo : option AssetInfo;
  ti_Txid : bytes;
  ti_Vout : Z;
}.

Record TxOutput := mkTxOutput {
  to_AddrDesc : bytes;
  to_Spent : bool;
  to_ValueSat : Z;
  to_AssetInfo : option AssetInfo;
  to_SpentTxid : bytes;
  to_SpentIndex : Z;
  to_SpentHeight : Z;
}.

Record TxAddresses := mkTxAddresses {
  ta_Height : Z;
  ta_Inputs : list TxInput;
  ta_Outputs : list TxOutput;
  ta_Version : Z;
  ta_Memo : bytes;
  ta_VSize : Z;
}.

#[export] Instance TxInput_eq_decision : EqDecision TxInput.
Proof. solve_decision. Defined.
#[export] Instance TxOutput_eq_decision : EqDecision TxOutput.
Proof. solve_decision. Defined.
#[export] Instance TxAddresses_eq_decision : EqDecision TxAddresses.
Proof. solve_decision. Defined.

(** The options of the [RocksDB] handle the encodings depend on. *)
Class IndexOpts := { extendedIndex : bool }.

Section TxAddr.
Context {V : Vlq} {P : ChainParser} {IX : IndexOpts}.

(** [make([]byte, d.chainParser.PackedTxidLen())] *)
Definition zeroTxid : bytes := replicate (Z.to_nat PackedTxidLen) x00.

(** A txid that cannot be packed is stored as zeros. *)
Definition packTxidOrZero (txid : bytes) : bytes :=
  match PackTxid txid with Ok b => b | _ => zeroTxid end.

Definition appendTxInput (txi : TxInput) (buf : bytes) : bytes :=
  let la := zlen (ti_AddrDesc txi) in
  let buf :=
    if extendedIndex then
      let la := if bool_decide (ti_Txid txi = []) then Z.lnot la else la in
      let buf := buf ++ packVarint la in
      let buf := buf ++ ti_AddrDesc txi in
      let buf := buf ++ packBigint (ti_ValueSat txi) in
      if 0 <=? la then
        let buf := buf ++ packTxidOrZero (ti_Txid txi) in
        buf ++ packVaruint (ti_Vout txi)
      else buf
    else
      let buf := buf ++ packVaruint la in
      let buf := buf ++ ti_AddrDesc txi in
      buf ++ packBigint (ti_ValueSat txi) in
  if supportsSyscoinAssets then appendAssetInfo (ti_AssetInfo txi) buf else buf.

Definition appendTxOutput (txo : TxOutput) (buf : bytes) : bytes :=
  let la := zlen (to_AddrDesc txo) in
  let la := if to_Spent txo then Z.lnot la else la in
  let buf := buf ++ packVarint la in
  let buf := buf ++ to_AddrDesc txo in
  let buf := buf ++ packBigint (to_ValueSat txo) in
  let buf :=
    if extendedIndex && to_Spent txo then
      let buf := buf ++ packTxidOrZero (to_SpentTxid txo) in
      let buf := buf ++ packVaruint (to_SpentIndex txo) in
      buf ++ packVaruint (to_SpentHeight txo)
    else buf in
  if supportsSyscoinAssets then appendAssetInfo (to_AssetInfo txo) buf else buf.

Definition packTxAddresses (ta : TxAddresses) : bytes :=
  let buf := [] in
  let buf := if supportsSyscoinAssets then buf ++ packVaruint (u64 (ta_Version ta)) else buf in
  let buf := buf ++ packVaruint (ta_Height ta) in
  let buf := if extendedIndex then buf ++ packVaruint (ta_VSize ta) else buf in
  let buf := buf ++ packVaruint (zlen (ta_Inputs ta)) in
  let buf := foldl (fun b i => appendTxInput i b) buf (ta_Inputs ta) in
  let buf := buf ++ packVaruint (zlen (ta_Outputs ta)) in
  let buf := foldl (fun b o => appendTxOutput o b) buf (ta_Outputs ta) in
  if supportsSyscoinAssets then buf ++ packVarBytes (ta_Memo ta) else buf.

(** The asset suffix of a record, read at position [al]. *)
Definition unpackAssetSuffix (buf : bytes) (al : Z) : result (option AssetInfo * Z) :=
  if supportsSyscoinAssets then
    let! b := slice_from buf al in
    let! '(a, assetLen) := unpackAssetInfo b in
    Ok (a, al + assetLen)
  else Ok (None, al).

Definition okOrEmpty (r : result bytes) : bytes := match r with Ok t => t | _ => [] end.

Definition unpackTxInput (buf : bytes) : result (TxInput * Z) :=
  if extendedIndex then
    let '(al, l) := unpackVarint buf in
    let coinbase := al <? 0 in
    let al := if coinbase then Z.lnot al else al in
    let! addrDesc := slice buf l (l + al) in
    let al := al + l in
    let! b := slice_from buf al in
    let! '(valueSat, l) := unpackBigint b in
    let al := al + l in
    let! '(txid, vout, al) :=
      (if coinbase then Ok ([], 0, al)
       else
         let l := PackedTxidLen in
         let! t := slice buf al (al + l) in
         let txid := okOrEmpty (UnpackTxid t) in
         let al := al + l in
         let! b := slice_from buf al in
         let '(i, l) := unpackVaruint b in
         Ok (txid, u32 i, al + l)) in
    let! '(asset, al) := unpackAssetSuffix buf al in
    Ok (mkTxInput addrDesc valueSat asset txid vout, al)
  else
    let '(al, l) := unpackVaruint buf in
    let! addrDesc := slice buf l (l + i64 al) in
    let al := u64 (al + l) in
    let! b := slice_from buf al in
    let! '(valueSat, l) := unpackBigint b in
    let al := u64 (al + l) in
    let! '(asset, al) := unpackAssetSuffix buf al in
    Ok (mkTxInput addrDesc valueSat asset [] 0, i64 (u64 al)).

Definition unpackTxOutput (buf : bytes) : result (TxOutput * Z) :=
  let '(al, l) := unpackVarint buf in
  let spent := al <? 0 in
  let al := if spent then Z.lnot al else al in
  let! addrDesc := slice buf l (l + al) in
  let al := al + l in
  let! b := slice_from buf al in
  let! '(valueSat, l) := unpackBigint b in
  let al := al + l in
  let! '(txid, index, height, al) :=
    (if extendedIndex && spent then
       let l := PackedTxidLen in
       let! t := slice buf al (al + l) in
       let txid := okOrEmpty (UnpackTxid t) in
       let al := al + l in
       let! b := slice_from buf al in
       let '(i, l) := unpackVaruint b in
       let al := al + l in
       let! b := slice_from buf al in
       let '(h, l) := unpackVaruint b in
       Ok (txid, u32 i, u32 h, al + l)
     else Ok ([], 0, 0, al)) in
  let! '(asset, al) := unpackAssetSuffix buf al in
  Ok (mkTxOutput addrDesc spent valueSat asset txid index height, al).

(** [for i := uint(0); i < n; i++ { l += unpack(&v[i], buf[l:]) }] *)
Fixpoint unpackN {A} (unpack : bytes -> result (A * Z)) (n : nat) (buf : bytes) (l : Z)
    : result (list A * Z) :=
  match n with
  | O => Ok ([], l)
  | S n' =>
      let! b := slice_from buf l in
      let! '(x, k) := unpack b in
      let! '(xs, l) := unpackN unpack n' buf (l + k) in
      Ok (x :: xs, l)
  end.

(** Read a varuint at position [l]; the new position is returned. *)
Definition readVaruint (buf : bytes) (l : Z) : result (Z * Z) :=
  let! b := slice_from buf l in
  let '(x, ll) := unpackVaruint b in
  Ok (x, l + ll).

Definition unpackTxAddresses (buf : bytes) : result TxAddresses :=
  let l := 0 in
  let! '(version, l) :=
    (if supportsSyscoinAssets
     then let! '(v, l) := readVaruint buf l in Ok (i32 v, l) else Ok (0, l)) in
  let! '(height, l) := readVaruint buf l in
  let! '(vsize, l) :=
    (if extendedIndex
     then let! '(v, l) := readVaruint buf l in Ok (u32 v, l) else Ok (0, l)) in
  let! '(inputs, l) := readVaruint buf l in
  let! '(ins, l) := unpackN unpackTxInput (Z.to_nat inputs) buf l in
  let! '(outputs, l) := readVaruint buf l in
  let! '(outs, l) := unpackN unpackTxOutput (Z.to_nat outputs) buf l in
  let! memo :=
    (if supportsSyscoinAssets
     then let! b := slice_from buf l in
          let! '(m, _) := unpackVarBytes b in Ok m
     else Ok []) in
  Ok (mkTxAddresses (u32 height) ins outs version memo vsize).

Definition packedAssetSuffixLen (buf : bytes) (pos : Z) : result Z :=
  if supportsSyscoinAssets then
    let! b := slice_from buf pos in
    let! n := packedAssetInfoLen b in
    Ok (pos + n)
  else Ok pos.

Definition packedTxInputLen (buf : bytes) : result Z :=
  if extendedIndex then
    let '(al, pos) := unpackVarint buf in
    let coinbase := al <? 0 in
    let al := if coinbase then Z.lnot al else al in
    let pos := pos + al in
    let! c := index buf pos in
    let pos := pos + (b2z c + 1) in
    let! pos :=
      (if coinbase then Ok pos
       else
         let pos := pos + PackedTxidLen in
         let! b := slice_from buf pos in
         let '(_, n) := unpackVaruint b in
         Ok (pos + n)) in
    packedAssetSuffixLen buf pos
  else
    let '(al, pos) := unpackVaruint buf in
    let pos := pos + i64 al in
    let! c := index buf pos in
    let pos := pos + (b2z c + 1) in
    packedAssetSuffixLen buf pos.

Definition packedTxOutputLen (buf : bytes) : result Z :=
  let '(al, pos) := unpackVarint buf in
  let spent := al <? 0 in
  let al := if spent then Z.lnot al else al in
  let pos := pos + al in
  let! c := index buf pos in
  let pos := pos + (b2z c + 1) in
  let! pos :=
    (if extendedIndex && spent then
       let pos := pos + PackedTxidLen in
       let! b := slice_from buf pos in
       let '(_, n) := unpackVaruint b in
       let pos := pos + n in
       let! b := slice_from buf pos in
       let '(_, n) := unpackVaruint b in
       Ok (pos + n)
     else Ok pos) in
  packedAssetSuffixLen buf pos.

(** [for i := uint(0); i < n; i++ { l += len(buf[l:]) }] *)
Fixpoint skipN (len : bytes -> result Z) (n : nat) (buf : bytes) (l : Z) : result Z :=
  match n with
  | O => Ok l
  | S n' =>
      let! b := slice_from buf l in
      let! k := len b in
      skipN len n' buf (l + k)
  end.

(** The body of [GetTxAddressesOutput], on the stored record. *)
Definition txAddressesOutput (buf : bytes) (vout : Z) : result (option TxOutput) :=
  if zlen buf <? 3 then Ok None
  else
    let l := 0 in
    let! l := (if supportsSyscoinAssets
               then let! '(_, l) := readVaruint buf l in Ok l else Ok l) in
    let! '(_, l) := readVaruint buf l in
    let! l := (if extendedIndex
               then let! '(_, l) := readVaruint buf l in Ok l else Ok l) in
    let! '(inputs, l) := readVaruint buf l in
    let! l := skipN packedTxInputLen (Z.to_nat inputs) buf l in
    let! '(outputs, l) := readVaruint buf l in
    if outputs <=? vout then Ok None
    else
      let! l := skipN packedTxOutputLen (Z.to_nat vout) buf l in
      let! b := slice_from buf l in
      let! '(output, _) := unpackTxOutput b in
      Ok (Some output).
End TxAddr.

(** ** The skipping readers agree with the unpacking readers

    Both kinds of reader walk the same layout; the statements hold on every buffer
    the unpacking reader accepts, not only on well-formed records. *)

Lemma unpackBigint_at buf al b v l :
  slice_from buf al = Ok b -> unpackBigint b = Ok (v, l) ->
  exists c, index buf al = Ok c /\ l = b2z c + 1 /\ al + l <= zlen buf.
Proof.
  intros Hb (c & Hc & -> & Hl & _)%unpackBigint_Ok. exists c.
  pose proof (slice_from_Ok _ _ _ Hb) as (? & _ & ?).
  rewrite <- (Z.add_0_r al). split_and!; [by eapply index_slice_from | done | lia].
Qed.

Section Sync.
Context {V : Vlq} {VL : VlqLaws V} {P : ChainParser} {IX : IndexOpts}.

Lemma unpackAssetSuffix_count buf al a l :
  0 <= al <= zlen buf -> unpackAssetSuffix buf al = Ok (a, l) ->
  - zlen buf <= l <= zlen buf.
Proof.
  unfold unpackAssetSuffix. intros Hal. destruct supportsSyscoinAssets; [|intros [= _ <-]; lia].
  intros (b & (_ & _ & Hl)%slice_from_Ok & H)%rbind_Ok.
  apply rbind_Ok in H as ([a' n] & Hn%unpackAssetInfo_count & [= _ <-]). lia.
Qed.

Lemma packedAssetSuffixLen_sync buf al a l :
  unpackAssetSuffix buf al = Ok (a, l) -> packedAssetSuffixLen buf al = Ok l.
Proof.
  unfold unpackAssetSuffix, packedAssetSuffixLen. destruct supportsSyscoinAssets; [|congruence].
  intros (b & -> & ([a' n] & Ha & [= _ <-])%rbind_Ok)%rbind_Ok. cbn [rbind].
  by rewrite (packedAssetInfoLen_sync _ _ _ Ha).
Qed.

Lemma packedTxInputLen_sync buf ti l :
  fits buf -> unpackTxInput buf = Ok (ti, l) -> packedTxInputLen buf = Ok l.
Proof.
  intros Hfit. unfold unpackTxInput, packedTxInputLen. destruct extendedIndex.
  - destruct (unpackVarint buf) as [al l0]. set (cb := al <? 0).
    set (al' := if cb then _ else _). intros (d & Hd & H)%rbind_Ok.
    apply rbind_Ok in H as (b & Hb & H). apply rbind_Ok in H as ([v lv] & Hv & H).
    destruct (unpackBigint_at _ _ _ _ _ Hb Hv) as (c & Hc & -> & _).
    replace (l0 + al') with (al' + l0) by lia. rewrite Hc. cbn [rbind].
    destruct cb; cbn [rbind] in *.
    + apply rbind_Ok in H as ([a l'] & Ha & [= _ <-]). by eapply packedAssetSuffixLen_sync.
    + apply rbind_Ok in H as ([[t vo] al2] & H2 & H).
      apply rbind_Ok in H2 as (t' & Ht & H2). apply rbind_Ok in H2 as (b' & Hb' & H2).
      rewrite Hb'. cbn [rbind]. destruct (unpackVaruint b') as [i n].
      injection H2 as <- <- <-. cbn [rbind].
      apply rbind_Ok in H as ([a l'] & Ha & [= _ <-]). by eapply packedAssetSuffixLen_sync.
  - destruct (unpackVaruint buf) as [al l0]. intros (d & Hd & H)%rbind_Ok.
    pose proof (slice_Ok _ _ _ _ Hd) as Hr. unfold fits in Hfit.
    rewrite (u64_i64_add al l0) in H by lia.
    apply rbind_Ok in H as (b & Hb & H). apply rbind_Ok in H as ([v lv] & Hv & H).
    destruct (unpackBigint_at _ _ _ _ _ Hb Hv) as (c & Hc & -> & Hle).
    pose proof (b2z_range c).
    replace (l0 + i64 al) with (i64 al + l0) by lia. rewrite Hc. cbn [rbind].
    rewrite u64_id in H by (unfold is_u64; lia).
    apply rbind_Ok in H as ([a l'] & Ha & [= _ <-]).
    rewrite i64_u64 by (apply unpackAssetSuffix_count in Ha; unfold is_i64; lia).
    by eapply packedAssetSuffixLen_sync.
Qed.

Lemma packedTxOutputLen_sync buf to l :
  unpackTxOutput buf = Ok (to, l) -> packedTxOutputLen buf = Ok l.
Proof.
  unfold unpackTxOutput, packedTxOutputLen.
  destruct (unpackVarint buf) as [al l0]. set (sp := al <? 0).
  set (al' := if sp then _ else _). intros (d & Hd & H)%rbind_Ok.
  apply rbind_Ok in H as (b & Hb & H). apply rbind_Ok in H as ([v lv] & Hv & H).
  destruct (unpackBigint_at _ _ _ _ _ Hb Hv) as (c & Hc & -> & _).
  replace (l0 + al') with (al' + l0) by lia. rewrite Hc. cbn [rbind].
  destruct (extendedIndex && sp); cbn [rbind] in *.
  - apply rbind_Ok in H as ([[[t ix] h] al2] & H2 & H).
    apply rbind_Ok in H2 as (t' & Ht & H2). apply rbind_Ok in H2 as (b' & Hb' & H2).
    rewrite Hb'. cbn [rbind]. destruct (unpackVaruint b') as [i n].
    apply rbind_Ok in H2 as (b'' & Hb'' & H2). rewrite Hb''. cbn [rbind].
    destruct (unpackVaruint b'') as [h' n']. injection H2 as <- <- <- <-. cbn [rbind].
    apply rbind_Ok in H as ([a l'] & Ha & [= _ <-]). by eapply packedAssetSuffixLen_sync.
  - apply rbind_Ok in H as ([a l'] & Ha & [= _ <-]). by eapply packedAssetSuffixLen_sync.
Qed.

(** Skipping [n] items stops where unpacking them stops. *)
Lemma skipN_sync {A} (unpack : bytes -> result (A * Z)) (len : bytes -> result Z) buf :
  (forall b x k, fits b -> unpack b = Ok (x, k) -> len b = Ok k) -> fits buf ->
  forall n l xs l', unpackN unpack n buf l = Ok (xs, l') -> skipN len n buf l = Ok l'.
Proof.
  intros Hs Hfit n. induction n as [|n IH]; intros l xs l'; cbn; [congruence|].
  intros (b & Hb & H)%rbind_Ok. rewrite Hb. cbn [rbind].
  apply rbind_Ok in H as ([x k] & Hx & H). apply rbind_Ok in H as ([xs' l2] & Hn & [= _ <-]).
  rewrite (Hs b x k) by (done || (pose proof (slice_from_Ok _ _ _ Hb); unfold fits in *; lia)).
  cbn [rbind]. by eapply IH.
Qed.

Lemma unpackN_length {A} (unpack : bytes -> result (A * Z)) buf n l xs l' :
  unpackN unpack n buf l = Ok (xs, l') -> length xs = n.
Proof.
  revert l xs. induction n as [|n IH]; intros l xs; cbn; [by intros [= <- _]|].
  intros (b & _ & H)%rbind_Ok. apply rbind_Ok in H as ([x k] & _ & H).
  apply rbind_Ok in H as ([xs' l2] & Hn & [= <- <-]). cbn. f_equal. by eapply IH.
Qed.

(** After skipping [i] items the next one is item [i]. *)
Lemma unpackN_nth {A} (unpack : bytes -> result (A * Z)) (len : bytes -> result Z) buf :
  (forall b x k, fits b -> unpack b = Ok (x, k) -> len b = Ok k) -> fits buf ->
  forall n l xs l' i x, unpackN unpack n buf l = Ok (xs, l') -> xs !! i = Some x ->
  exists li b k, skipN len i buf l = Ok li /\ slice_from buf li = Ok b /\ unpack b = Ok (x, k).
Proof.
  intros Hs Hfit n. induction n as [|n IH]; intros l xs l' i x; cbn; [by intros [= <- _]|].
  intros (b & Hb & H)%rbind_Ok. apply rbind_Ok in H as ([y k] & Hy & H).
  apply rbind_Ok in H as ([xs' l2] & Hn & [= <- <-]). destruct i as [|i]; cbn.
  - intros [= <-]. by exists l, b, k.
  - intros Hi. rewrite Hb. cbn [rbind].
    rewrite (Hs b y k) by (done || (pose proof (slice_from_Ok _ _ _ Hb); unfold fits in *; lia)).
    cbn [rbind]. by eapply IH.
Qed.

Lemma vout_lookup {A} (outs : list A) outputs vout :
  length outs = Z.to_nat outputs -> 0 <= vout ->
  if outputs <=? vout then outs !! Z.to_nat vout = None
  else exists x, outs !! Z.to_nat vout = Some x.
Proof.
  intros Hl Hv. case_tests.
  - apply lookup_ge_None. lia.
  - apply lookup_lt_is_Some. lia.
Qed.

Lemma txAddressesOutput_sync buf ta vout :
  fits buf -> 3 <= zlen buf -> 0 <= vout ->
  unpackTxAddresses buf = Ok ta ->
  txAddressesOutput buf vout = Ok (ta_Outputs ta !! Z.to_nat vout).
Proof.
  intros Hfit H3 Hv H. unfold txAddressesOutput, unpackTxAddresses in *.
  destruct (Z.ltb_spec (zlen buf) 3); [lia|].
  apply rbind_Ok in H as ([ver l1] & H1 & H).
  assert ((if supportsSyscoinAssets
           then let! '(_, l) := readVaruint buf 0 in Ok l else Ok 0) = Ok l1) as ->.
  { destruct supportsSyscoinAssets; [|congruence].
    apply rbind_Ok in H1 as ([v l] & -> & [= _ <-]). done. }
  cbn [rbind]. apply rbind_Ok in H as ([h l2] & -> & H). cbn [rbind].
  apply rbind_Ok in H as ([vs l3] & H3' & H).
  assert ((if extendedIndex
           then let! '(_, l) := readVaruint buf l2 in Ok l else Ok l2) = Ok l3) as ->.
  { destruct extendedIndex; [|congruence].
    apply rbind_Ok in H3' as ([v l] & -> & [= _ <-]). done. }
  cbn [rbind]. apply rbind_Ok in H as ([ni l4] & -> & H). cbn [rbind].
  apply rbind_Ok in H as ([ins l5] & Hins & H).
  rewrite (skipN_sync _ packedTxInputLen _ packedTxInputLen_sync Hfit _ _ _ _ Hins). cbn [rbind].
  apply rbind_Ok in H as ([no l6] & -> & H). cbn [rbind].
  apply rbind_Ok in H as ([outs l7] & Houts & H). apply rbind_Ok in H as (m & _ & [= <-]).
  cbn [ta_Outputs]. pose proof (unpackN_length _ _ _ _ _ _ Houts) as Hlen.
  pose proof (vout_lookup outs no vout Hlen Hv) as Hlook.
  destruct (no <=? vout); [by rewrite Hlook|]. destruct Hlook as [x Hx].
  destruct (unpackN_nth _ packedTxOutputLen _
    (fun b x k _ => packedTxOutputLen_sync b x k) Hfit _ _ _ _ _ _ Houts Hx)
    as (li & b & k & -> & Hb & Hu).
  cbn [rbind]. rewrite Hb. cbn [rbind]. rewrite Hu. cbn [rbind]. by rewrite Hx.
Qed.
End Sync.

(** ** Round trip of the record *)

Section RoundTrip.
Context {V : Vlq} {VL : VlqLaws V} {P : ChainParser} {IX : IndexOpts}.

(** What the column keeps of a record: the asset suffix only for Syscoin, the
    spending data only with the extended index and for what is spent. *)
Definition keptAsset (a : option AssetInfo) : option AssetInfo :=
  if supportsSyscoinAssets then norm_asset a else None.

Definition keptInput (ti : TxInput) : TxInput :=
  mkTxInput (ti_AddrDesc ti) (ti_ValueSat ti) (keptAsset (ti_AssetInfo ti))
    (if extendedIndex then ti_Txid ti else [])
    (if extendedIndex && negb (bool_decide (ti_Txid ti = [])) then ti_Vout ti else 0).

Definition keptOutput (to : TxOutput) : TxOutput :=
  let e := extendedIndex && to_Spent to in
  mkTxOutput (to_AddrDesc to) (to_Spent to) (to_ValueSat to) (keptAsset (to_AssetInfo to))
    (if e then to_SpentTxid to else []) (if e then to_SpentIndex to else 0)
    (if e then to_SpentHeight to else 0).

Definition keptTxAddresses (ta : TxAddresses) : TxAddresses :=
  mkTxAddresses (ta_Height ta) (map keptInput (ta_Inputs ta)) (map keptOutput (ta_Outputs ta))
    (if supportsSyscoinAssets then ta_Version ta else 0)
    (if supportsSyscoinAssets then ta_Memo ta else [])
    (if extendedIndex then ta_VSize ta else 0).

(** Address descriptors are short (outputs with more than [maxAddrDescLen] bytes
    are not indexed). *)
Definition addr_fits (b : bytes) : Prop := zlen b < 2 ^ 32.

(** Well-formed records: values in the ranges of their Go types, amounts that the
    big-integer encoding keeps, txids the parser packs. *)
Definition input_ok (ti : TxInput) : Prop :=
  addr_fits (ti_AddrDesc ti) /\ packable (ti_ValueSat ti) /\ asset_ok (ti_AssetInfo ti) /\
  is_u32 (ti_Vout ti) /\ (ti_Txid ti = [] \/ valid_txid (ti_Txid ti)).

Definition output_ok (to : TxOutput) : Prop :=
  addr_fits (to_AddrDesc to) /\ packable (to_ValueSat to) /\ asset_ok (to_AssetInfo to) /\
  is_u32 (to_SpentIndex to) /\ is_u32 (to_SpentHeight to) /\
  (to_Spent to = true -> extendedIndex = true -> valid_txid (to_SpentTxid to)).

Definition txAddresses_ok (ta : TxAddresses) : Prop :=
  is_u32 (ta_Height ta) /\ is_i32 (ta_Version ta) /\ is_u32 (ta_VSize ta) /\
  fits (ta_Memo ta) /\ zlen (ta_Inputs ta) < 2 ^ 63 /\ zlen (ta_Outputs ta) < 2 ^ 63 /\
  Forall input_ok (ta_Inputs ta) /\ Forall output_ok (ta_Outputs ta).

#[export] Instance input_ok_dec ti : Decision (input_ok ti).
Proof. unfold input_ok, addr_fits. apply _. Defined.
#[export] Instance output_ok_dec to : Decision (output_ok to).
Proof. unfold output_ok, addr_fits. apply _. Defined.
#[export] Instance txAddresses_ok_dec ta : Decision (txAddresses_ok ta).
Proof. unfold txAddresses_ok. apply _. Defined.

Definition assetSuffix (a : option AssetInfo) : bytes :=
  if supportsSyscoinAssets then appendAssetInfo a [] else [].

Lemma assetSuffix_append a buf :
  (if supportsSyscoinAssets then appendAssetInfo a buf else buf) = buf ++ assetSuffix a.
Proof.
  unfold assetSuffix. destruct supportsSyscoinAssets; [apply appendAssetInfo_app|].
  by rewrite app_nil_r.
Qed.

Lemma zlen_assetSuffix a : asset_ok a -> 0 <= zlen (assetSuffix a) <= 269.
Proof.
  unfold assetSuffix, appendAssetInfo. destruct supportsSyscoinAssets; [|zlen_lia].
  destruct a as [[g v]|]; cbn [app]; intros Ha.
  - destruct Ha as [Hg _]. cbn [AssetGuid AssetValueSat] in *. rewrite !zlen_app.
    pose proof (zlen_packVaruint 1 ltac:(done)). pose proof (zlen_packVaruint g Hg).
    fold (packVaruint g) in *. change (packVaruint64 g) with (packVaruint g).
    pose proof (zlen_packBigint (match v with Some v => v | None => 0 end)).
    destruct v; lia.
  - pose proof (zlen_packVaruint 0 ltac:(done)). lia.
Qed.

Lemma unpackAssetSuffix_append a pre rest i :
  asset_ok a -> i = zlen pre ->
  unpackAssetSuffix (pre ++ assetSuffix a ++ rest) i =
  Ok (keptAsset a, i + zlen (assetSuffix a)).
Proof.
  intros Ha ->. unfold unpackAssetSuffix, keptAsset, assetSuffix.
  destruct supportsSyscoinAssets.
  - rewrite slice_from_app by done. cbn [rbind].
    by rewrite (unpackAssetInfo_append a Ha rest).
  - cbn. by rewrite Z.add_0_r.
Qed.

Lemma lnot_len (b : bytes) (s : bool) :
  addr_fits b ->
  let la := if s then Z.lnot (zlen b) else zlen b in
  is_i64 la /\ (la <? 0) = s /\ (if s then Z.lnot la else la) = zlen b /\ (0 <=? la) = negb s.
Proof.
  unfold addr_fits, is_i64. intros Hb. pose proof (zlen_nonneg b).
  destruct s; cbn zeta; rewrite ?Z.lnot_involutive; unfold Z.lnot; split_and!; try lia.
  all: case_tests; done.
Qed.

Lemma appendTxInput_app ti buf : appendTxInput ti buf = buf ++ appendTxInput ti [].
Proof.
  unfold appendTxInput. destruct extendedIndex; rewrite !assetSuffix_append;
    [destruct (0 <=? _)|]; cbn [app]; by rewrite <- ?app_assoc.
Qed.

Lemma appendTxOutput_app to buf : appendTxOutput to buf = buf ++ appendTxOutput to [].
Proof.
  unfold appendTxOutput. rewrite !assetSuffix_append.
  destruct (extendedIndex && to_Spent to); cbn [app]; by rewrite <- ?app_assoc.
Qed.

Lemma valid_txid_packed t : valid_txid t ->
  zlen (packTxidOrZero t) = PackedTxidLen /\ okOrEmpty (UnpackTxid (packTxidOrZero t)) = t.
Proof. intros (b & Hp & Hl & Hu). unfold packTxidOrZero. rewrite Hp, Hu. done. Qed.

Lemma unpackTxInput_append ti :
  input_ok ti -> decodes unpackTxInput (appendTxInput ti []) (keptInput ti).
Proof.
  intros (Ha & Hv & Has & Hvo & Ht) rest.
  pose proof (zlen_assetSuffix _ Has) as Hsl. pose proof (zlen_packBigint (ti_ValueSat ti)) as Hbl.
  unfold unpackTxInput, appendTxInput, keptInput. destruct extendedIndex;
    rewrite !assetSuffix_append; cbn [app andb].
  - destruct (lnot_len (ti_AddrDesc ti) (bool_decide (ti_Txid ti = [])) Ha) as (Hla & Hneg & Habs & Hpos).
    cbn zeta in *. set (la := if bool_decide _ then _ else _) in *. rewrite Hpos.
    destruct (bool_decide_reflect (ti_Txid ti = [])) as [Et|Et]; cbn [negb] in *.
    + rewrite <- !app_assoc, unpackVarint_pack by done. rewrite Hneg, Habs.
      do 2 eval_slice. rewrite unpackBigint_pack by done. cbn [rbind].
      rewrite !app_assoc, <- (app_assoc _ _ rest).
      rewrite unpackAssetSuffix_append by (done || zlen_lia). cbn [rbind]. rewrite Et.
      do 3 f_equal. zlen_lia.
    + destruct Ht as [?|Ht]; [done|]. destruct (valid_txid_packed _ Ht) as [Htl Htu].
      rewrite <- !app_assoc, unpackVarint_pack by done. rewrite Hneg, Habs.
      do 2 eval_slice. rewrite unpackBigint_pack by done. cbn [rbind].
      rewrite <- Htl. do 2 eval_slice.
      rewrite unpackVaruint_pack by (unfold is_u32, is_u64 in *; lia). cbn [rbind].
      rewrite !app_assoc, <- (app_assoc _ _ rest).
      rewrite unpackAssetSuffix_append by (done || zlen_lia). cbn [rbind].
      rewrite Htu, u32_id by done. do 3 f_equal. zlen_lia.
  - unfold addr_fits in Ha. pose proof (zlen_nonneg (ti_AddrDesc ti)).
    assert (is_u64 (zlen (ti_AddrDesc ti))) as Hu by (unfold is_u64; lia).
    pose proof (zlen_packVaruint _ Hu).
    rewrite <- !app_assoc, unpackVaruint_pack by done.
    rewrite i64_id by (unfold is_i64; lia). eval_slice.
    rewrite u64_id by (unfold is_u64; lia). eval_slice.
    rewrite unpackBigint_pack by done. cbn [rbind]. rewrite u64_id by (unfold is_u64; lia).
    rewrite !app_assoc, <- (app_assoc _ _ rest).
    rewrite unpackAssetSuffix_append by (done || zlen_lia). cbn [rbind].
    rewrite i64_u64 by (unfold is_i64; zlen_lia). do 3 f_equal. zlen_lia.
Qed.

Lemma unpackTxOutput_append to :
  output_ok to -> decodes unpackTxOutput (appendTxOutput to []) (keptOutput to).
Proof.
  intros (Ha & Hv & Has & Hix & Hh & Ht) rest.
  unfold unpackTxOutput, appendTxOutput, keptOutput. rewrite !assetSuffix_append. cbn [app].
  destruct (lnot_len (to_AddrDesc to) (to_Spent to) Ha) as (Hla & Hneg & Habs & _).
  cbn zeta in *. set (la := if to_Spent to then _ else _) in *.
  destruct (extendedIndex && to_Spent to) eqn:E.
  - apply andb_true_iff in E as [Ee Es].
    destruct (valid_txid_packed _ (Ht Es Ee)) as [Htl Htu].
    rewrite <- !app_assoc, unpackVarint_pack by done. rewrite Hneg, Habs, Ee, Es. cbn [andb].
    do 2 eval_slice. rewrite unpackBigint_pack by done. cbn [rbind].
    rewrite <- Htl. do 2 eval_slice.
    rewrite unpackVaruint_pack by (unfold is_u32, is_u64 in *; lia). eval_slice.
    rewrite unpackVaruint_pack by (unfold is_u32, is_u64 in *; lia). cbn [rbind].
    rewrite !app_assoc, <- (app_assoc _ _ rest).
    rewrite unpackAssetSuffix_append by (done || zlen_lia). cbn [rbind].
    rewrite Htu, !u32_id by done. do 3 f_equal. zlen_lia.
  - rewrite <- !app_assoc, unpackVarint_pack by done. rewrite Hneg, Habs, E.
    do 2 eval_slice. rewrite unpackBigint_pack by done. cbn [rbind].
    rewrite !app_assoc, <- (app_assoc _ _ rest).
    rewrite unpackAssetSuffix_append by (done || zlen_lia). cbn [rbind].
    do 3 f_equal. zlen_lia.
Qed.

Lemma foldl_append {A} (app1 : A -> bytes -> bytes) l buf :
  (forall x b, app1 x b = b ++ app1 x []) ->
  foldl (fun b x => app1 x b) buf l = buf ++ concat (map (fun x => app1 x []) l).
Proof.
  intros Ha. revert buf. induction l as [|x l IH]; intros buf; cbn; [by rewrite app_nil_r|].
  by rewrite IH, (Ha x buf), app_assoc.
Qed.

Lemma unpackN_concat {A} (unpack : bytes -> result (A * Z)) (enc : A -> bytes) (kept : A -> A) l :
  Forall (fun x => decodes unpack (enc x) (kept x)) l ->
  forall pre rest i n, i = zlen pre -> n = length l ->
  unpackN unpack n (pre ++ concat (map enc l) ++ rest) i =
  Ok (map kept l, i + zlen (concat (map enc l))).
Proof.
  induction 1 as [|x l Hx Hl IH]; intros pre rest i n -> ->; cbn [length unpackN map concat].
  - by rewrite Z.add_0_r.
  - rewrite <- app_assoc, slice_from_app by done. cbn [rbind]. rewrite (Hx _). cbn [rbind].
    rewrite (app_assoc pre), IH by zlen_lia. cbn [rbind]. do 2 f_equal. zlen_lia.
Qed.

Lemma readVaruint_at pre x rest i :
  is_u64 x -> i = zlen pre ->
  readVaruint (pre ++ packVaruint x ++ rest) i = Ok (x, i + zlen (packVaruint x)).
Proof.
  intros Hx ->. unfold readVaruint. rewrite slice_from_app by done. cbn [rbind].
  by rewrite unpackVaruint_pack.
Qed.

(** A field present only under the option [c]. *)
Lemma readOpt_at (c : bool) (conv : Z -> Z) pre x rest i :
  is_u64 x -> i = zlen pre ->
  (if c then let! '(v, l) := readVaruint (pre ++ (if c then packVaruint x else []) ++ rest) i in
             Ok (conv v, l)
   else Ok (0, i)) =
  Ok (if c then conv x else 0, i + zlen (if c then packVaruint x else [])).
Proof.
  intros Hx Hi. destruct c; [by rewrite readVaruint_at|]. change (zlen []) with 0.
  by rewrite Z.add_0_r.
Qed.

Lemma readOpt_0 (c : bool) (conv : Z -> Z) x rest :
  is_u64 x ->
  (if c then let! '(v, l) := readVaruint ((if c then packVaruint x else []) ++ rest) 0 in
             Ok (conv v, l)
   else Ok (0, 0)) =
  Ok (if c then conv x else 0, zlen (if c then packVaruint x else [])).
Proof. intros Hx. by apply (readOpt_at c conv [] x rest 0 Hx). Qed.

(** The encoding as a concatenation of its fields. *)
Lemma packTxAddresses_pieces ta :
  packTxAddresses ta =
  (if supportsSyscoinAssets then packVaruint (u64 (ta_Version ta)) else []) ++
  packVaruint (ta_Height ta) ++
  (if extendedIndex then packVaruint (ta_VSize ta) else []) ++
  packVaruint (zlen (ta_Inputs ta)) ++
  concat (map (fun i => appendTxInput i []) (ta_Inputs ta)) ++
  packVaruint (zlen (ta_Outputs ta)) ++
  concat (map (fun o => appendTxOutput o []) (ta_Outputs ta)) ++
  (if supportsSyscoinAssets then packVarBytes (ta_Memo ta) else []).
Proof.
  unfold packTxAddresses.
  rewrite !(foldl_append appendTxInput) by apply appendTxInput_app.
  rewrite !(foldl_append appendTxOutput) by apply appendTxOutput_app.
  destruct supportsSyscoinAssets, extendedIndex; cbn [app];
    by rewrite <- ?app_assoc, ?app_nil_r.
Qed.

Lemma unpackTxAddresses_pack ta :
  txAddresses_ok ta -> unpackTxAddresses (packTxAddresses ta) = Ok (keptTxAddresses ta).
Proof.
  intros (Hh & Hver & Hvs & Hm & Hni & Hno & Hin & Hout).
  assert (Forall (fun i => decodes unpackTxInput (appendTxInput i []) (keptInput i))
            (ta_Inputs ta)) as Hdi.
  { eapply Forall_impl; [exact Hin|]. intros; by apply unpackTxInput_append. }
  assert (Forall (fun o => decodes unpackTxOutput (appendTxOutput o []) (keptOutput o))
            (ta_Outputs ta)) as Hdo.
  { eapply Forall_impl; [exact Hout|]. intros; by apply unpackTxOutput_append. }
  rewrite packTxAddresses_pieces. unfold unpackTxAddresses, keptTxAddresses.
  rewrite (readOpt_0 supportsSyscoinAssets i32) by apply u64_range. cbn [rbind]. rewrite i32_u64 by done.
  set (pv := if supportsSyscoinAssets then packVaruint _ else []).
  rewrite readVaruint_at by (unfold is_u32, is_u64 in *; lia || done). cbn [rbind].
  rewrite (app_assoc pv), (readOpt_at extendedIndex u32)
    by (unfold is_u32, is_u64 in *; zlen_lia). cbn [rbind].
  set (pvs := if extendedIndex then packVaruint _ else []). rewrite u32_id by done.
  rewrite (app_assoc _ pvs), readVaruint_at by (unfold is_u64; zlen_lia). cbn [rbind].
  rewrite (app_assoc _ (packVaruint _)), (unpackN_concat _ _ keptInput _ Hdi)
    by (apply to_nat_zlen || zlen_lia). cbn [rbind].
  rewrite (app_assoc _ (concat _)), readVaruint_at by (unfold is_u64; zlen_lia). cbn [rbind].
  rewrite (app_assoc _ (packVaruint _)), (unpackN_concat _ _ keptOutput _ Hdo)
    by (apply to_nat_zlen || zlen_lia).
  cbn [rbind]. rewrite u32_id by done. destruct supportsSyscoinAssets; [|done].
  rewrite (app_assoc _ (concat _)), slice_from_app by zlen_lia. cbn [rbind].
  rewrite <- (app_nil_r (packVarBytes _)), unpackVarBytes_pack by done. done.
Qed.
End RoundTrip.

(** ** Properties *)

Section TxAddrProperties.
Context {V : Vlq} {VL : VlqLaws V} {P : ChainParser} {IX : IndexOpts}.

(** A transaction row is read back as it was written. Unpacking a packed [TxAddresses]
    returns it, with the spent flags, amounts and descriptors of all inputs and outputs; only
    what the configuration does not store (asset data, the extended index) is dropped. *)
Theorem tx_row_codec ta :
  txAddresses_ok ta -> unpackTxAddresses (packTxAddresses ta) = Ok (keptTxAddresses ta).
Proof. apply unpackTxAddresses_pack. Qed.

(** Reading one output agrees with decoding the whole row. On every row the decoder
    accepts, the reader of a single output, which skips over the inputs and the preceding
    outputs by their lengths only, returns exactly that output of the decoded row, and
    nothing when the row has no such output. *)
Theorem tx_output_reader buf ta vout :
  fits buf -> 3 <= zlen buf -> 0 <= vout -> unpackTxAddresses buf = Ok ta ->
  txAddressesOutput buf vout = Ok (ta_Outputs ta !! Z.to_nat vout).
Proof. apply txAddressesOutput_sync. Qed.
End TxAddrProperties.

Module TxAddrExample.

#[local] Existing Instance RefVlq.vlq.
#[local] Existing Instance RefVlq.vlq_laws.
#[local] Instance parser : ChainParser :=
  base_parser (fun _ => Err ErrAddressMissing) (fun _ => true) 100 true.
#[local] Instance opts : IndexOpts := { extendedIndex := false }.

(** One input, an output that is spent, and one that holds an asset. *)
Definition row : TxAddresses :=
  mkTxAddresses 1000 [mkTxInput [x76; xa9] 5000 None [] 0]
    [mkTxOutput [x00; x14] true 4000 None [] 0 0;
     mkTxOutput [x51; x20] false 546 (Some (mkAssetInfo 123456 (Some 77))) [] 0 0] 142 [x01] 0.

Lemma row_ok : txAddresses_ok row.
Proof.
  unfold txAddresses_ok, input_ok, output_ok, packable, is_u32, is_i32, fits, addr_fits. cbn.
  repeat split; try lia; repeat constructor; cbn; try lia; done.
Qed.

Lemma tx_row_codec_witness : unpackTxAddresses (packTxAddresses row) = Ok row.
Proof. exact (tx_row_codec row row_ok). Defined.

Lemma tx_output_reader_witness :
  txAddressesOutput (packTxAddresses row) 1 =
  Ok (Some (mkTxOutput [x51; x20] false 546 (Some (mkAssetInfo 123456 (Some 77))) [] 0 0)).
Proof. apply (tx_output_reader (packTxAddresses row) row 1); done. Defined.

End TxAddrExample.
