(* ===== verification/Balance.v ===== *)
(** The [addressBalance] column: balances of addresses with their unspent outputs
    ([db/rocksdb.go]: [Utxo], [AddrBalance] and its methods, [packAddrBalance],
    [unpackAddrBalance]). A spent output stays in the slice with [Vout = -1] until the
    balance is stored; from 16 outputs on, [utxosMap] indexes the first position of
    every transaction. *)

From S2P Require Import Prelude Codec Parser TxAddr.

Local Open Scope Z_scope.

Record Utxo := mkUtxo {
  u_BtxID : bytes;
  u_Vout : Z;
  u_Height : Z;
  u_ValueSat : Z;
  u_AssetInfo : option AssetInfo;
}.

Record AssetBalance := mkAssetBalance {
  asb_Transfers : Z;
  asb_BalanceSat : Z;
  asb_SentSat : Z;
}.

Record AddrBalance := mkAddrBalance {
  ab_Txs : Z;
  ab_SentSat : Z;
  ab_BalanceSat : Z;
  ab_Utxos : list Utxo;
  ab_AssetBalances : gmap Z AssetBalance;
  ab_utxosMap : gmap bytes nat;
}.

#[export] Instance Utxo_eq_decision : EqDecision Utxo.
Proof. solve_decision. Defined.
#[export] Instance AssetBalance_eq_decision : EqDecision AssetBalance.
Proof. solve_decision. Defined.

(** [&AddrBalance{}] *)
Definition emptyBalance : AddrBalance := mkAddrBalance 0 0 0 [] ∅ ∅.

(** Assignments to one field. *)
Definition set_Utxos (us : list Utxo) (m : gmap bytes nat) (ab : AddrBalance) : AddrBalance :=
  mkAddrBalance (ab_Txs ab) (ab_SentSat ab) (ab_BalanceSat ab) us (ab_AssetBalances ab) m.
Definition set_Vout (v : Z) (u : Utxo) : Utxo :=
  mkUtxo (u_BtxID u) v (u_Height u) (u_ValueSat u) (u_AssetInfo u).

(** The comparison of txids in the loops over outputs: the first eight bytes are
    compared as a machine word (through [unsafe.Pointer]) before [bytes.Equal]. *)
Definition sameTxid (a b : bytes) : bool :=
  bool_decide (take 8 a = take 8 b) && bool_decide (a = b).

Definition ReceivedSat (ab : AddrBalance) : Z := ab_BalanceSat ab + ab_SentSat ab.

(** [if _, e := m[s]; !e { m[s] = i }] *)
Definition insert_first (s : bytes) (i : nat) (m : gmap bytes nat) : gmap bytes nat :=
  match m !! s with
  | Some _ => m
  | None => <[s := i]> m
  end.

(** The loop that builds the index of the slice [us], from position [i] on. *)
Fixpoint build_utxosMap (i : nat) (us : list Utxo) (m : gmap bytes nat) : gmap bytes nat :=
  match us with
  | [] => m
  | u :: us' => build_utxosMap (S i) us' (insert_first (u_BtxID u) i m)
  end.

Definition manageUtxoMap (u : Utxo) (ab : AddrBalance) : AddrBalance :=
  let l := length (ab_Utxos ab) in
  if (16 <=? l)%nat then
    if bool_decide (ab_utxosMap ab = ∅)
    then set_Utxos (ab_Utxos ab) (build_utxosMap 0 (ab_Utxos ab) ∅) ab
    else set_Utxos (ab_Utxos ab) (insert_first (u_BtxID u) (l - 1) (ab_utxosMap ab)) ab
  else ab.

Definition addUtxo (u : Utxo) (ab : AddrBalance) : AddrBalance :=
  manageUtxoMap u (set_Utxos (ab_Utxos ab ++ [u]) (ab_utxosMap ab) ab).

(** Position of the first output of the transaction [btxID]. *)
Fixpoint findTx (btxID : bytes) (us : list Utxo) (i : nat) : option nat :=
  match us with
  | [] => None
  | u :: us' => if sameTxid (u_BtxID u) btxID then Some i else findTx btxID us' (S i)
  end.

(** The loop of [addUtxoInDisconnect] over the positions from [insert] on: the slice
    with [u] inserted before the first output that has a greater vout or belongs to
    another transaction, if there is one. *)
Fixpoint insertUtxo (u : Utxo) (us : list Utxo) : option (list Utxo) :=
  match us with
  | [] => None
  | x :: us' =>
      if (u_Vout u <? u_Vout x) || negb (sameTxid (u_BtxID x) (u_BtxID u))
      then Some (u :: x :: us')
      else cons x <$> insertUtxo u us'
  end.

Definition addUtxoInDisconnect (u : Utxo) (ab : AddrBalance) : AddrBalance :=
  let insert :=
    if bool_decide (ab_utxosMap ab = ∅) then findTx (u_BtxID u) (ab_Utxos ab) 0
    else ab_utxosMap ab !! u_BtxID u in
  let appended := addUtxo u ab in
  match insert with
  | Some i =>
      match insertUtxo u (drop i (ab_Utxos ab)) with
      | Some tail => set_Utxos (take i (ab_Utxos ab) ++ tail) ∅ ab
      | None => appended
      end
  | None => appended
  end.

(** Linear search for [btxID:vout], marked as spent where it is found. *)
Fixpoint markLinear (btxID : bytes) (vout : Z) (us : list Utxo) : option (list Utxo) :=
  match us with
  | [] => None
  | u :: us' =>
      if (u_Vout u =? vout) && sameTxid (u_BtxID u) btxID
      then Some (set_Vout (-1) u :: us')
      else cons u <$> markLinear btxID vout us'
  end.

(** The search from the indexed position: the first output with that vout decides. *)
Fixpoint markFrom (btxID : bytes) (vout : Z) (us : list Utxo) : option (list Utxo) :=
  match us with
  | [] => None
  | u :: us' =>
      if u_Vout u =? vout then
        if bool_decide (u_BtxID u = btxID) then Some (set_Vout (-1) u :: us') else None
      else cons u <$> markFrom btxID vout us'
  end.

Definition markUtxoAsSpent (btxID : bytes) (vout : Z) (ab : AddrBalance) : AddrBalance :=
  if bool_decide (ab_utxosMap ab = ∅) then
    match markLinear btxID vout (ab_Utxos ab) with
    | Some us => set_Utxos us (ab_utxosMap ab) ab
    | None => ab
    end
  else
    match ab_utxosMap ab !! btxID with
    | Some i =>
        match markFrom btxID vout (drop i (ab_Utxos ab)) with
        | Some tail => set_Utxos (take i (ab_Utxos ab) ++ tail) (ab_utxosMap ab) ab
        | None => ab
        end
    | None => ab
    end.

(** ** Encoding *)

Inductive AddressBalanceDetail :=
| AddressBalanceDetailNoUTXO
| AddressBalanceDetailUTXO
| addressBalanceDetailUTXOIndexed.

Section BalanceCodec.
Context {V : Vlq} {P : ChainParser}.

(** One live output; those marked as spent are left out. *)
Definition appendUtxo (buf : bytes) (utxo : Utxo) : bytes :=
  if 0 <=? u_Vout utxo then
    let buf := buf ++ u_BtxID utxo in
    let buf := buf ++ packVaruint (u_Vout utxo) in
    let buf := buf ++ packVaruint (u_Height utxo) in
    let buf := buf ++ packBigint (u_ValueSat utxo) in
    if supportsSyscoinAssets then appendAssetInfo (u_AssetInfo utxo) buf else buf
  else buf.

Definition appendAssetBalance (buf : bytes) (e : Z * AssetBalance) : bytes :=
  let '(guid, balance) := e in
  let buf := buf ++ packVaruint64 guid in
  let buf := buf ++ packBigint (asb_BalanceSat balance) in
  let buf := buf ++ packBigint (asb_SentSat balance) in
  buf ++ packVaruint (asb_Transfers balance).

(** [order] is the order in which Go iterates over the map of asset balances, which
    the language leaves open. *)
Definition packAddrBalance (order : list (Z * AssetBalance)) (ab : AddrBalance) : bytes :=
  let buf := packVaruint (ab_Txs ab) in
  let buf := buf ++ packBigint (ab_SentSat ab) in
  let buf := buf ++ packBigint (ab_BalanceSat ab) in
  let buf :=
    if supportsSyscoinAssets then
      let buf := buf ++ packVaruint (Z.of_nat (size (ab_AssetBalances ab))) in
      foldl appendAssetBalance buf order
    else buf in
  foldl appendUtxo buf (ab_Utxos ab).

Fixpoint unpackAssetBalances (n : nat) (buf : bytes) (l : Z) (m : gmap Z AssetBalance)
    : result (gmap Z AssetBalance * Z) :=
  match n with
  | O => Ok (m, l)
  | S n' =>
      let! b := slice_from buf l in
      let '(assetGuid, ll) := unpackVaruint64 b in
      let l := l + ll in
      let! b := slice_from buf l in
      let! '(balanceValue, ll) := unpackBigint b in
      let l := l + ll in
      let! b := slice_from buf l in
      let! '(sentValue, ll) := unpackBigint b in
      let l := l + ll in
      let! b := slice_from buf l in
      let '(transfers, ll) := unpackVaruint b in
      let l := l + ll in
      unpackAssetBalances n' buf l
        (<[assetGuid := mkAssetBalance (u32 transfers) balanceValue sentValue]> m)
  end.

(** One stored output, read at position [l]. *)
Definition unpackUtxo (buf : bytes) (txidUnpackedLen l : Z) : result (Utxo * Z) :=
  let! btxID := slice buf l (l + txidUnpackedLen) in
  let l := l + txidUnpackedLen in
  let! '(vout, l) := readVaruint buf l in
  let! '(height, l) := readVaruint buf l in
  let! b := slice_from buf l in
  let! '(valueSat, ll) := unpackBigint b in
  let l := l + ll in
  let! '(asset, l) := unpackAssetSuffix buf l in
  Ok (mkUtxo btxID (i32 vout) (u32 height) valueSat asset, l).

(** [for len(buf[l:]) >= txidUnpackedLen+3 { ... }]; the fuel bounds the number of
    iterations. *)
Fixpoint unpackUtxos (fuel : nat) (buf : bytes) (txidUnpackedLen : Z)
    (detail : AddressBalanceDetail) (l : Z) (ab : AddrBalance) : result AddrBalance :=
  match fuel with
  | O => Panic
  | S f =>
      let! b := slice_from buf l in
      if zlen b <? txidUnpackedLen + 3 then Ok ab
      else
        let! '(u, l) := unpackUtxo buf txidUnpackedLen l in
        let ab :=
          match detail with
          | AddressBalanceDetailUTXO => set_Utxos (ab_Utxos ab ++ [u]) (ab_utxosMap ab) ab
          | _ => addUtxo u ab
          end in
        unpackUtxos f buf txidUnpackedLen detail l ab
  end.

Definition unpackAddrBalance (buf : bytes) (txidUnpackedLen : Z)
    (detail : AddressBalanceDetail) : result AddrBalance :=
  let '(txs, l) := unpackVaruint buf in
  let! b := slice_from buf l in
  let! '(sentSat, sl) := unpackBigint b in
  let! b := slice_from buf (l + sl) in
  let! '(balanceSat, bl) := unpackBigint b in
  let l := l + sl + bl in
  let! '(assets, l) :=
    (if supportsSyscoinAssets then
       let! '(n, l) := readVaruint buf l in
       unpackAssetBalances (Z.to_nat n) buf l ∅
     else Ok (∅, l)) in
  let ab := mkAddrBalance (u32 txs) sentSat balanceSat [] assets ∅ in
  match detail with
  | AddressBalanceDetailNoUTXO => Ok ab
  | _ => unpackUtxos (S (length buf)) buf txidUnpackedLen detail l ab
  end.
End BalanceCodec.

(** ** The index of unspent outputs

    [utxos_ok]: the outputs of one transaction are contiguous, and the index, when it
    is built, gives the first position of every transaction. *)

Definition ids (us : list Utxo) : list bytes := map u_BtxID us.

Fixpoint grouped (l : list bytes) : Prop :=
  match l with
  | [] => True
  | x :: r => (x ∉ r \/ head r = Some x) /\ grouped r
  end.

Definition map_ok (m : gmap bytes nat) (us : list Utxo) : Prop :=
  forall id, m !! id = findTx id us 0.

Definition utxos_ok (ab : AddrBalance) : Prop :=
  grouped (ids (ab_Utxos ab)) /\
  (ab_utxosMap ab = ∅ \/
   (16 <= length (ab_Utxos ab))%nat /\ map_ok (ab_utxosMap ab) (ab_Utxos ab)).

Lemma sameTxid_eq a b : sameTxid a b = bool_decide (a = b).
Proof.
  unfold sameTxid. destruct (bool_decide_reflect (a = b)) as [->|Hn].
  - by rewrite bool_decide_eq_true_2.
  - by rewrite andb_false_r.
Qed.

Lemma findTx_S id us i : findTx id us (S i) = S <$> findTx id us i.
Proof. revert i. induction us as [|u us IH]; intros i; cbn; [done|]. by destruct sameTxid. Qed.

Lemma findTx_None id us i : findTx id us i = None <-> id ∉ ids us.
Proof.
  revert i. induction us as [|u us IH]; intros i; cbn.
  - split; [intros _; apply not_elem_of_nil | done].
  - rewrite not_elem_of_cons, sameTxid_eq. case_bool_decide.
    + split; [done|]. intros [? _]. congruence.
    + rewrite IH. naive_solver.
Qed.

Lemma findTx_app id us u i :
  findTx id (us ++ [u]) i =
  match findTx id us i with
  | Some k => Some k
  | None => if bool_decide (u_BtxID u = id) then Some (i + length us)%nat else None
  end.
Proof.
  revert i. induction us as [|x us IH]; intros i; cbn; rewrite sameTxid_eq.
  - rewrite Nat.add_0_r. by case_bool_decide.
  - destruct (bool_decide (u_BtxID x = id)); [done|]. by rewrite IH, Nat.add_succ_r.
Qed.

(** The position found splits the slice: nothing before it belongs to the transaction. *)
Lemma findTx_Some id us k :
  findTx id us 0 = Some k ->
  (id ∉ ids (take k us)) /\ head (ids (drop k us)) = Some id.
Proof.
  revert k. induction us as [|u us IH]; intros k; cbn; [done|].
  rewrite sameTxid_eq. case_bool_decide as Hu.
  - intros [= <-]. cbn. subst. split; [apply not_elem_of_nil|done].
  - rewrite findTx_S. destruct (findTx id us 0) as [k'|] eqn:E; [|done]. cbn.
    intros [= <-]. cbn. destruct (IH k' eq_refl) as [H1 H2]. split; [|done].
    by apply not_elem_of_cons.
Qed.

Lemma insert_first_lookup s i m id :
  insert_first s i m !! id =
  match m !! id with Some k => Some k | None => if bool_decide (s = id) then Some i else None end.
Proof.
  unfold insert_first. destruct (m !! s) as [k|] eqn:E.
  - destruct (m !! id) eqn:E2; [done|]. case_bool_decide; congruence.
  - rewrite lookup_insert. case_decide as Hd; subst.
    + rewrite E. by rewrite bool_decide_eq_true_2.
    + destruct (m !! id); [done|]. by rewrite bool_decide_eq_false_2.
Qed.

Lemma build_utxosMap_lookup us : forall i m id,
  build_utxosMap i us m !! id =
  match m !! id with Some k => Some k | None => findTx id us i end.
Proof.
  induction us as [|u us IH]; intros i m id; cbn; [by destruct (m !! id)|].
  rewrite IH, insert_first_lookup, sameTxid_eq. destruct (m !! id); [done|].
  by case_bool_decide.
Qed.

Lemma map_ok_build us : map_ok (build_utxosMap 0 us ∅) us.
Proof. intros id. by rewrite build_utxosMap_lookup, lookup_empty. Qed.

Lemma map_ok_snoc m us u :
  map_ok m us -> map_ok (insert_first (u_BtxID u) (length us) m) (us ++ [u]).
Proof. intros Hm id. rewrite insert_first_lookup, Hm, findTx_app. done. Qed.

Lemma addUtxo_Utxos u ab : ab_Utxos (addUtxo u ab) = ab_Utxos ab ++ [u].
Proof.
  unfold addUtxo, manageUtxoMap. destruct (_ <=? _)%nat; [|done]. by case_bool_decide.
Qed.

Lemma grouped_snoc l x : grouped l -> x ∉ l \/ last l = Some x -> grouped (l ++ [x]).
Proof.
  induction l as [|y l IH]; intros Hg Hx; cbn; [split; [left; apply not_elem_of_nil|done]|].
  destruct Hg as [Hy Hg]. split.
  - destruct Hy as [Hy|Hy].
    + destruct (decide (x = y)) as [->|Hne].
      * destruct l as [|z l]; [by right|]. exfalso.
        destruct Hx as [Hx|Hx]; [apply Hx; left|].
        rewrite last_cons_cons in Hx. apply Hy. apply last_Some in Hx as [l' ->]. set_solver.
      * left. set_solver.
    + right. by destruct l.
  - apply IH; [done|]. destruct Hx as [Hx|Hx]; [left; set_solver|].
    destruct l; [left; apply not_elem_of_nil | by right].
Qed.

(** Appending an output keeps the index correct, whatever its transaction is. *)
Lemma addUtxo_map u ab :
  ab_utxosMap ab = ∅ \/ (16 <= length (ab_Utxos ab))%nat /\ map_ok (ab_utxosMap ab) (ab_Utxos ab) ->
  let ab' := addUtxo u ab in
  ab_utxosMap ab' = ∅ \/ (16 <= length (ab_Utxos ab'))%nat /\ map_ok (ab_utxosMap ab') (ab_Utxos ab').
Proof.
  intros Hm. cbn zeta. rewrite addUtxo_Utxos. unfold addUtxo, manageUtxoMap.
  cbn [ab_Utxos set_Utxos ab_utxosMap]. rewrite length_app. cbn [length].
  destruct (Nat.leb_spec 16 (length (ab_Utxos ab) + 1)) as [Hl|Hl].
  - case_bool_decide as He; cbn; right; (split; [lia|]); [apply map_ok_build|].
    destruct Hm as [Hm|[_ Hm]]; [done|].
    replace (length (ab_Utxos ab) + 1 - 1)%nat with (length (ab_Utxos ab)) by lia.
    by apply map_ok_snoc.
  - cbn. destruct Hm as [Hm|[Hm _]]; [by left | lia].
Qed.

Lemma addUtxo_ok u ab :
  utxos_ok ab -> u_BtxID u ∉ ids (ab_Utxos ab) \/ last (ids (ab_Utxos ab)) = Some (u_BtxID u) ->
  utxos_ok (addUtxo u ab).
Proof.
  intros [Hg Hm] Hu. split; [|by apply addUtxo_map].
  rewrite addUtxo_Utxos. unfold ids. rewrite map_app. by apply grouped_snoc.
Qed.

(** ** Marking an output as spent *)

Lemma markLinear_None id vout us : id ∉ ids us -> markLinear id vout us = None.
Proof.
  induction us as [|u us IH]; cbn; [done|]. intros [Hu Hus]%not_elem_of_cons.
  rewrite sameTxid_eq, bool_decide_eq_false_2, andb_false_r by congruence. by rewrite IH.
Qed.

Lemma markFrom_None id vout us : id ∉ ids us -> markFrom id vout us = None.
Proof.
  induction us as [|u us IH]; cbn; [done|]. intros [Hu Hus]%not_elem_of_cons.
  rewrite bool_decide_eq_false_2 by congruence. rewrite IH by done. by destruct (_ =? _).
Qed.

Lemma markLinear_app id vout pre us :
  id ∉ ids pre -> markLinear id vout (pre ++ us) = app pre <$> markLinear id vout us.
Proof.
  induction pre as [|u pre IH]; cbn [app].
  { intros _. by destruct (markLinear id vout us). }
  cbn. intros [Hu Hus]%not_elem_of_cons.
  rewrite sameTxid_eq, bool_decide_eq_false_2, andb_false_r by congruence.
  rewrite IH by done. by destruct (markLinear id vout us).
Qed.

(** From the start of the group of a transaction both searches agree. *)
Lemma markFrom_linear id vout us :
  grouped (ids us) -> head (ids us) = Some id -> markFrom id vout us = markLinear id vout us.
Proof.
  induction us as [|u us IH]; cbn; [done|]. intros [Hu Hg] [= Hid].
  rewrite sameTxid_eq, Hid, bool_decide_eq_true_2, andb_true_r by done.
  destruct (u_Vout u =? vout); [done|]. destruct Hu as [Hu|Hu].
  - rewrite Hid in Hu. by rewrite markFrom_None, markLinear_None.
  - rewrite IH; [done|done|]. by rewrite <- Hid.
Qed.

Lemma grouped_drop k l : grouped l -> grouped (drop k l).
Proof. revert l. induction k as [|k IH]; intros [|x l]; cbn; [done..|]. intros [_ ?]. by apply IH. Qed.

Lemma ids_drop k us : ids (drop k us) = drop k (ids us).
Proof. unfold ids. symmetry. apply skipn_map. Qed.

(** The indexed search finds exactly what the linear search finds. *)
Lemma markUtxoAsSpent_linear id vout ab :
  utxos_ok ab ->
  markUtxoAsSpent id vout ab =
  match markLinear id vout (ab_Utxos ab) with
  | Some us => set_Utxos us (ab_utxosMap ab) ab
  | None => ab
  end.
Proof.
  intros [Hg Hm]. unfold markUtxoAsSpent. case_bool_decide as He; [done|].
  destruct Hm as [Hm|[_ Hm]]; [done|]. rewrite Hm.
  destruct (findTx id (ab_Utxos ab) 0) as [k|] eqn:Ek.
  - apply findTx_Some in Ek as [H1 H2].
    rewrite markFrom_linear by (done || (rewrite ids_drop; by apply grouped_drop)).
    replace (markLinear id vout (ab_Utxos ab))
      with (markLinear id vout (take k (ab_Utxos ab) ++ drop k (ab_Utxos ab)))
      by (by rewrite take_drop).
    rewrite markLinear_app by done.
    by destruct (markLinear id vout (drop k (ab_Utxos ab))).
  - apply findTx_None in Ek. by rewrite markLinear_None.
Qed.

Lemma markLinear_ids id vout us us' : markLinear id vout us = Some us' -> ids us' = ids us.
Proof.
  revert us'. induction us as [|u us IH]; intros us'; cbn; [done|].
  destruct (_ && _); [intros [= <-]; done|].
  destruct (markLinear id vout us); [|done]. intros [= <-]. cbn. f_equal. by apply IH.
Qed.

Lemma findTx_ids id us us' i : ids us' = ids us -> findTx id us' i = findTx id us i.
Proof.
  revert us' i. induction us as [|u us IH]; intros [|u' us'] i; cbn; try discriminate; [done|].
  intros [= -> Hi]. by rewrite (IH us' (S i)).
Qed.

Lemma set_Utxos_ok us ab :
  ids us = ids (ab_Utxos ab) -> utxos_ok ab -> utxos_ok (set_Utxos us (ab_utxosMap ab) ab).
Proof.
  intros Hi [Hg Hm]. split; cbn [ab_Utxos ab_utxosMap set_Utxos]; [by rewrite Hi|]. destruct Hm as [Hm|[Hl Hm]]; [by left|right].
  split.
  - apply (f_equal length) in Hi. unfold ids in Hi. rewrite !length_map in Hi. lia.
  - intros x. rewrite (findTx_ids _ (ab_Utxos ab) us) by done. apply Hm.
Qed.

Lemma markUtxoAsSpent_ok id vout ab : utxos_ok ab -> utxos_ok (markUtxoAsSpent id vout ab).
Proof.
  intros Hok. rewrite markUtxoAsSpent_linear by done.
  destruct (markLinear id vout (ab_Utxos ab)) as [us|] eqn:E; [|done].
  apply set_Utxos_ok; [by eapply markLinear_ids | done].
Qed.

(** ** Restoring an output on disconnect *)

Lemma grouped_replace a b b' :
  grouped (a ++ b) -> grouped b' -> head b' = head b -> (forall x, x ∈ b' <-> x ∈ b) ->
  grouped (a ++ b').
Proof.
  induction a as [|x a IH]; cbn; [done|]. intros [Hx Hg] Hb' Hh He. split; [|by apply IH].
  destruct Hx as [Hx|Hx].
  - left. rewrite elem_of_app in *. rewrite He. done.
  - right. destruct a; cbn in *; [by rewrite Hh|done].
Qed.

Lemma insertUtxo_Some u us tail :
  grouped (ids us) -> head (ids us) = Some (u_BtxID u) -> insertUtxo u us = Some tail ->
  grouped (ids tail) /\ head (ids tail) = Some (u_BtxID u) /\ tail ≡ₚ u :: us.
Proof.
  revert tail. induction us as [|x us IH]; intros tail; cbn; [done|]. intros [Hx Hg] [= Hid].
  rewrite sameTxid_eq, Hid, bool_decide_eq_true_2, orb_false_r by done.
  destruct (u_Vout u <? u_Vout x).
  - intros [= <-]. cbn. rewrite Hid. split_and!; [by right | by rewrite <- Hid | done | done | done].
  - destruct (insertUtxo u us) as [t|] eqn:E; [|done]. intros [= <-].
    destruct Hx as [Hx|Hx].
    + (* the group ends here: the output goes right after it *)
      destruct us as [|y us]; [done|]. cbn in E. rewrite sameTxid_eq in E.
      rewrite bool_decide_eq_false_2, orb_true_r in E.
      2:{ intros Hy. apply Hx. cbn. rewrite Hid, <- Hy. left. }
      injection E as <-. cbn. rewrite Hid in *.
      split; [split; [by right|split; [by left|exact Hg]] | split; [done|by apply perm_swap]].
    + destruct (IH t) as (Hgt & Hht & Hpt); [done | unfold ids; by rewrite Hx, Hid | done |].
      cbn. rewrite Hid. split_and!; [by right | done | done |].
      rewrite Hpt. apply perm_swap.
Qed.

Lemma insertUtxo_None u us :
  us <> [] -> insertUtxo u us = None -> last (ids us) = Some (u_BtxID u).
Proof.
  induction us as [|x us IH]; [done|]. intros _. cbn. rewrite sameTxid_eq.
  destruct (u_Vout u <? u_Vout x); cbn; [done|]. case_bool_decide as Hx; cbn; [|done].
  destruct (insertUtxo u us) eqn:E; [done|]. intros _. destruct us as [|y us].
  - cbn. by rewrite Hx.
  - apply IH; done.
Qed.

Lemma insert_position u ab :
  utxos_ok ab ->
  (if bool_decide (ab_utxosMap ab = ∅) then findTx (u_BtxID u) (ab_Utxos ab) 0
   else ab_utxosMap ab !! u_BtxID u) = findTx (u_BtxID u) (ab_Utxos ab) 0.
Proof.
  intros [_ Hm]. case_bool_decide; [done|]. destruct Hm as [Hm|[_ Hm]]; [done|]. apply Hm.
Qed.

(** Restoring an output keeps the grouping and the index, and adds that output only. *)
Lemma addUtxoInDisconnect_ok u ab :
  utxos_ok ab ->
  utxos_ok (addUtxoInDisconnect u ab) /\
  ab_Utxos (addUtxoInDisconnect u ab) ≡ₚ u :: ab_Utxos ab.
Proof.
  intros Hok. unfold addUtxoInDisconnect. rewrite insert_position by done.
  assert (ab_Utxos (addUtxo u ab) ≡ₚ u :: ab_Utxos ab) as Hp.
  { rewrite addUtxo_Utxos. rewrite <- Permutation_cons_append. done. }
  destruct (findTx (u_BtxID u) (ab_Utxos ab) 0) as [k|] eqn:Ek.
  - apply findTx_Some in Ek as [H1 H2]. pose proof Hok as [Hg Hm].
    assert (grouped (ids (drop k (ab_Utxos ab)))) as Hgd.
    { rewrite ids_drop. by apply grouped_drop. }
    assert (ids (ab_Utxos ab) = ids (take k (ab_Utxos ab)) ++ ids (drop k (ab_Utxos ab))) as Hsplit.
    { unfold ids. by rewrite <- map_app, take_drop. }
    destruct (insertUtxo u (drop k (ab_Utxos ab))) as [tail|] eqn:Ei.
    + destruct (insertUtxo_Some _ _ _ Hgd H2 Ei) as (Hgt & Hht & Hpt).
      split; [split|]; cbn [ab_Utxos ab_utxosMap set_Utxos]; [|by left|].
      * unfold ids at 1. rewrite map_app. rewrite Hsplit in Hg.
        eapply grouped_replace; [exact Hg|done|by rewrite <- H2 in Hht|].
        intros x. unfold ids. rewrite Hpt. cbn. rewrite elem_of_cons.
        split; [|auto]. intros [->|?]; [|done].
        destruct (drop k (ab_Utxos ab)) as [|y r]; [done|]. cbn in *. injection H2 as ->. left.
      * rewrite Hpt, <- Permutation_middle, take_drop. done.
    + split; [|done]. apply addUtxo_ok; [done|]. right.
      apply insertUtxo_None in Ei; [|intros E; by rewrite E in H2].
      by rewrite Hsplit, last_app, Ei.
  - split; [|done]. apply addUtxo_ok; [done|]. left. by eapply findTx_None.
Qed.

(** ** Round trip of the balance record *)

Definition live (us : list Utxo) : list Utxo := filter (fun u => 0 <= u_Vout u) us.

Lemma foldl_insert (l : list (Z * AssetBalance)) (m : gmap Z AssetBalance) :
  NoDup l.*1 -> foldl (fun m e => <[e.1 := e.2]> m) m l = list_to_map l ∪ m.
Proof.
  revert m. induction l as [|[k v] l IH]; intros m Hn; cbn; [by rewrite (left_id_L ∅ (∪))|].
  inversion Hn; subst. rewrite IH by done.
  by rewrite <- insert_union_r, insert_union_l by (by apply not_elem_of_list_to_map_1).
Qed.

Lemma foldl_insert_perm (m : gmap Z AssetBalance) order :
  order ≡ₚ map_to_list m -> foldl (fun m e => <[e.1 := e.2]> m) ∅ order = m.
Proof.
  intros Hp. assert (NoDup order.*1) as Hn by (rewrite Hp; apply NoDup_fst_map_to_list).
  rewrite foldl_insert, (right_id_L ∅ (∪)) by done.
  rewrite (list_to_map_proper _ _ Hn Hp). apply list_to_map_to_list.
Qed.

Section BalanceRoundTrip.
Context {V : Vlq} {VL : VlqLaws V} {P : ChainParser}.

Definition keptUtxo (u : Utxo) : Utxo :=
  mkUtxo (u_BtxID u) (u_Vout u) (u_Height u) (u_ValueSat u) (keptAsset (u_AssetInfo u)).

(** What reading a stored balance gives, for each level of detail. *)
Definition keptBalance (detail : AddressBalanceDetail) (ab : AddrBalance) : AddrBalance :=
  let base := mkAddrBalance (ab_Txs ab) (ab_SentSat ab) (ab_BalanceSat ab) []
                (if supportsSyscoinAssets then ab_AssetBalances ab else ∅) ∅ in
  match detail with
  | AddressBalanceDetailNoUTXO => base
  | AddressBalanceDetailUTXO => set_Utxos (map keptUtxo (live (ab_Utxos ab))) ∅ base
  | addressBalanceDetailUTXOIndexed =>
      foldl (fun b u => addUtxo u b) base (map keptUtxo (live (ab_Utxos ab)))
  end.

Definition utxo_ok (u : Utxo) : Prop :=
  zlen (u_BtxID u) = PackedTxidLen /\ is_i32 (u_Vout u) /\ is_u32 (u_Height u) /\
  packable (u_ValueSat u) /\ asset_ok (u_AssetInfo u).

Definition assetBalance_ok (e : Z * AssetBalance) : Prop :=
  is_u64 e.1 /\ is_u32 (asb_Transfers e.2) /\ packable (asb_BalanceSat e.2) /\
  packable (asb_SentSat e.2).

Definition balance_ok (ab : AddrBalance) : Prop :=
  is_u32 (ab_Txs ab) /\ packable (ab_SentSat ab) /\ packable (ab_BalanceSat ab) /\
  Forall utxo_ok (ab_Utxos ab) /\ is_u64 (Z.of_nat (size (ab_AssetBalances ab))) /\
  Forall assetBalance_ok (map_to_list (ab_AssetBalances ab)).

#[export] Instance utxo_ok_dec u : Decision (utxo_ok u).
Proof. unfold utxo_ok. apply _. Defined.
#[export] Instance assetBalance_ok_dec e : Decision (assetBalance_ok e).
Proof. unfold assetBalance_ok. apply _. Defined.
#[export] Instance balance_ok_dec ab : Decision (balance_ok ab).
Proof. unfold balance_ok. apply _. Defined.

Definition encUtxo (u : Utxo) : bytes := appendUtxo [] u.
Definition encAssetBalance (e : Z * AssetBalance) : bytes := appendAssetBalance [] e.

Lemma foldl_appendUtxo buf us :
  foldl appendUtxo buf us = buf ++ concat (map encUtxo (live us)).
Proof.
  revert buf. induction us as [|u us IH]; intros buf; cbn [foldl]; [by rewrite app_nil_r|].
  rewrite IH. unfold live. rewrite filter_cons. unfold encUtxo, appendUtxo.
  destruct (Z.leb_spec 0 (u_Vout u)); case_decide; try lia; [|done].
  cbn [map concat]. destruct (Z.leb_spec 0 (u_Vout u)); [|lia].
  rewrite !assetSuffix_append. cbn [app]. by rewrite <- !app_assoc.
Qed.

Lemma foldl_appendAssetBalance buf l :
  foldl appendAssetBalance buf l = buf ++ concat (map encAssetBalance l).
Proof.
  revert buf. induction l as [|[g b] l IH]; intros buf; cbn [foldl]; [by rewrite app_nil_r|].
  rewrite IH. unfold encAssetBalance. cbn [map concat appendAssetBalance app].
  by rewrite <- !app_assoc.
Qed.

Lemma encUtxo_pieces u :
  0 <= u_Vout u ->
  encUtxo u = u_BtxID u ++ packVaruint (u_Vout u) ++ packVaruint (u_Height u) ++
              packBigint (u_ValueSat u) ++ assetSuffix (u_AssetInfo u).
Proof.
  intros Hv. unfold encUtxo, appendUtxo. case_tests. rewrite assetSuffix_append. cbn [app].
  by rewrite <- !app_assoc.
Qed.

Lemma unpackUtxo_at u pre rest i :
  utxo_ok u -> 0 <= u_Vout u -> i = zlen pre ->
  unpackUtxo (pre ++ encUtxo u ++ rest) PackedTxidLen i =
  Ok (keptUtxo u, i + zlen (encUtxo u)).
Proof.
  intros (Hid & Hvo & Hh & Hv & Ha) H0 ->. rewrite encUtxo_pieces by done.
  unfold unpackUtxo, is_i32, is_u32 in *. rewrite <- Hid, <- !app_assoc.
  rewrite slice_app by done. cbn [rbind].
  rewrite (app_assoc pre), readVaruint_at by (unfold is_u64; zlen_lia). cbn [rbind].
  rewrite (app_assoc _ (packVaruint _)), readVaruint_at by (unfold is_u64; zlen_lia). cbn [rbind].
  rewrite (app_assoc _ (packVaruint _)), slice_from_app by zlen_lia. cbn [rbind].
  rewrite unpackBigint_pack by done. cbn [rbind].
  rewrite (app_assoc _ (packBigint _)), unpackAssetSuffix_append by (done || zlen_lia). cbn [rbind].
  rewrite i32_id, u32_id by done. unfold keptUtxo. do 2 f_equal. zlen_lia.
Qed.

Lemma zlen_encUtxo u : utxo_ok u -> 0 <= u_Vout u -> PackedTxidLen + 3 <= zlen (encUtxo u).
Proof.
  intros (Hid & Hvo & Hh & Hv & Ha) H0. rewrite encUtxo_pieces by done.
  unfold is_i32, is_u32 in *.
  pose proof (zlen_packVaruint (u_Vout u) ltac:(unfold is_u64; lia)).
  pose proof (zlen_packVaruint (u_Height u) ltac:(unfold is_u64; lia)).
  pose proof (zlen_packBigint (u_ValueSat u)). zlen_lia.
Qed.

(** Adding an output to the balance being read. *)
Definition addRead (detail : AddressBalanceDetail) (ab : AddrBalance) (u : Utxo) : AddrBalance :=
  match detail with
  | AddressBalanceDetailUTXO => set_Utxos (ab_Utxos ab ++ [u]) (ab_utxosMap ab) ab
  | _ => addUtxo u ab
  end.

Lemma unpackUtxos_concat detail us : 
  0 <= PackedTxidLen -> Forall (fun u => utxo_ok u /\ 0 <= u_Vout u) us ->
  forall fuel pre i ab, (length us < fuel)%nat -> i = zlen pre ->
  unpackUtxos fuel (pre ++ concat (map encUtxo us)) PackedTxidLen detail i ab =
  Ok (foldl (addRead detail) ab (map keptUtxo us)).
Proof.
  intros HP. induction 1 as [|u us [Hu H0] Hus IH]; intros [|f] pre i ab Hf ->; cbn [length] in Hf;
    try lia; cbn [unpackUtxos map concat foldl].
  - rewrite slice_from_app by done. cbn [rbind]. change (zlen []) with 0. case_tests. done.
  - rewrite slice_from_app by done. cbn [rbind].
    pose proof (zlen_encUtxo u Hu H0).
    destruct (Z.ltb_spec (zlen (encUtxo u ++ concat (map encUtxo us))) (PackedTxidLen + 3)); [zlen_lia|].
    rewrite unpackUtxo_at by done. cbn [rbind]. rewrite (app_assoc pre).
    rewrite IH by (lia || by rewrite zlen_app). by destruct detail.
Qed.

Lemma encAssetBalance_pieces g b :
  encAssetBalance (g, b) =
  packVaruint64 g ++ packBigint (asb_BalanceSat b) ++ packBigint (asb_SentSat b) ++
  packVaruint (asb_Transfers b).
Proof. unfold encAssetBalance. cbn [appendAssetBalance app]. by rewrite <- !app_assoc. Qed.

Lemma unpackAssetBalances_concat order :
  Forall assetBalance_ok order ->
  forall pre rest i m, i = zlen pre ->
  unpackAssetBalances (length order) (pre ++ concat (map encAssetBalance order) ++ rest) i m =
  Ok (foldl (fun m e => <[e.1 := e.2]> m) m order,
      i + zlen (concat (map encAssetBalance order))).
Proof.
  induction 1 as [|[g b] l (Hg & Ht & Hb & Hs) Hl IH]; intros pre rest i m ->;
    cbn [length unpackAssetBalances map concat foldl]; [by rewrite Z.add_0_r|].
  cbn [fst snd] in *. rewrite encAssetBalance_pieces, <- !app_assoc. rewrite slice_from_app by done. cbn [rbind].
  rewrite unpackVaruint64_pack by done. eval_slice.
  rewrite unpackBigint_pack by done. cbn [rbind]. eval_slice.
  rewrite unpackBigint_pack by done. cbn [rbind]. eval_slice.
  rewrite unpackVaruint_pack by (unfold is_u32, is_u64 in *; lia).
  rewrite u32_id by done.
  rewrite (app_assoc pre), (app_assoc _ (packBigint _)), (app_assoc _ (packBigint (asb_SentSat b))),
    (app_assoc _ (packVaruint _)).
  rewrite IH by zlen_lia. destruct b. cbn. do 2 f_equal. zlen_lia.
Qed.

Lemma foldl_addRead_UTXO us ab :
  ab_utxosMap ab = ∅ ->
  foldl (addRead AddressBalanceDetailUTXO) ab us = set_Utxos (ab_Utxos ab ++ us) ∅ ab.
Proof.
  revert ab. induction us as [|u us IH]; intros ab He; cbn [foldl].
  - rewrite app_nil_r. destruct ab. cbn in *. by subst.
  - rewrite IH by done. cbn. rewrite <- app_assoc. done.
Qed.

Lemma length_concat_encUtxo us :
  0 <= PackedTxidLen -> Forall (fun u => utxo_ok u /\ 0 <= u_Vout u) us ->
  zlen us <= zlen (concat (map encUtxo us)).
Proof.
  intros HP. induction 1 as [|u us [Hu H0] Hus IH]; [done|]. cbn [map concat].
  pose proof (zlen_encUtxo u Hu H0). zlen_lia.
Qed.

Lemma packAddrBalance_pieces order ab :
  packAddrBalance order ab =
  packVaruint (ab_Txs ab) ++ packBigint (ab_SentSat ab) ++ packBigint (ab_BalanceSat ab) ++
  (if supportsSyscoinAssets
   then packVaruint (Z.of_nat (size (ab_AssetBalances ab))) ++ concat (map encAssetBalance order)
   else []) ++
  concat (map encUtxo (live (ab_Utxos ab))).
Proof.
  unfold packAddrBalance. rewrite foldl_appendUtxo, foldl_appendAssetBalance.
  destruct supportsSyscoinAssets; by rewrite <- !app_assoc.
Qed.

Lemma live_ok ab : balance_ok ab ->
  Forall (fun u => utxo_ok u /\ 0 <= u_Vout u) (live (ab_Utxos ab)).
Proof.
  intros (_ & _ & _ & Hu & _). apply Forall_forall. intros u [Hl Hin]%list_elem_of_filter.
  rewrite Forall_forall in Hu. auto.
Qed.

(** The stored asset balances read back as the map, in whatever order they were
    written. *)
Lemma unpackAssets_at (order : list (Z * AssetBalance)) ab pre rest i :
  balance_ok ab -> order ≡ₚ map_to_list (ab_AssetBalances ab) -> i = zlen pre ->
  let enc := if supportsSyscoinAssets
    then packVaruint (Z.of_nat (size (ab_AssetBalances ab))) ++ concat (map encAssetBalance order)
    else [] in
  (if supportsSyscoinAssets then
     let! '(n, l) := readVaruint (pre ++ enc ++ rest) i in
     unpackAssetBalances (Z.to_nat n) (pre ++ enc ++ rest) l ∅
   else Ok (∅, i)) =
  Ok (if supportsSyscoinAssets then ab_AssetBalances ab else ∅, i + zlen enc).
Proof.
  intros (_ & _ & _ & _ & Hsz & Has) Hp Hi. destruct supportsSyscoinAssets; cbn zeta;
    [|change (zlen []) with 0; by rewrite Z.add_0_r].
  rewrite <- (app_assoc (packVaruint _)), readVaruint_at by done. cbn [rbind].
  rewrite (app_assoc pre).
  assert (Z.to_nat (Z.of_nat (size (ab_AssetBalances ab))) = length order) as ->.
  { rewrite Hp, length_map_to_list. lia. }
  rewrite unpackAssetBalances_concat by (try (by rewrite Hp); zlen_lia).
  rewrite (foldl_insert_perm (ab_AssetBalances ab)) by done. do 2 f_equal. zlen_lia.
Qed.

Lemma unpackAddrBalance_pack order ab detail :
  0 <= PackedTxidLen -> balance_ok ab -> order ≡ₚ map_to_list (ab_AssetBalances ab) ->
  unpackAddrBalance (packAddrBalance order ab) PackedTxidLen detail = Ok (keptBalance detail ab).
Proof.
  intros HP Hok Hord. pose proof (live_ok _ Hok) as Hlive.
  pose proof Hok as (Htx & Hs & Hb & _).
  rewrite packAddrBalance_pieces. unfold unpackAddrBalance.
  rewrite unpackVaruint_pack by (unfold is_u32, is_u64 in *; lia).
  eval_slice. rewrite unpackBigint_pack by done. cbn [rbind]. eval_slice.
  rewrite unpackBigint_pack by done. cbn [rbind]. rewrite !(app_assoc (packVaruint (ab_Txs ab))),
    !(app_assoc _ (packBigint (ab_BalanceSat ab))).
  set (pre := (packVaruint (ab_Txs ab) ++ _) ++ _).
  rewrite (unpackAssets_at order ab pre) by (try done; subst pre; zlen_lia). cbn [rbind].
  rewrite u32_id by done. set (enc := if supportsSyscoinAssets then _ else []).
  assert (zlen (packVaruint (ab_Txs ab)) + zlen (packBigint (ab_SentSat ab)) +
          zlen (packBigint (ab_BalanceSat ab)) = zlen pre) as -> by (subst pre; zlen_lia).
  rewrite (app_assoc pre). pose proof (length_concat_encUtxo _ HP Hlive).
  destruct detail; unfold keptBalance; [done|..];
    rewrite unpackUtxos_concat by (done || zlen_lia || (unfold zlen in *; rewrite length_app; lia)).
  - rewrite foldl_addRead_UTXO by done. done.
  - done.
Qed.

(** The in-memory index of a balance read for updates is correct. *)
Lemma keptBalance_Utxos ab :
  ab_Utxos (keptBalance addressBalanceDetailUTXOIndexed ab) = map keptUtxo (live (ab_Utxos ab)).
Proof.
  unfold keptBalance.
  assert (forall us b, ab_Utxos (foldl (fun b u => addUtxo u b) b us) = ab_Utxos b ++ us) as H.
  { induction us as [|u us IH]; intros b; cbn; [by rewrite app_nil_r|].
    by rewrite IH, addUtxo_Utxos, <- app_assoc. }
  rewrite H. done.
Qed.
End BalanceRoundTrip.

(** ** Well-formed balances rebuilt from their unspent outputs *)

Lemma grouped_sublist_head x l l' :
  grouped (x :: l) -> l' `sublist_of` l -> x ∉ l' \/ head l' = Some x.
Proof.
  intros Hg Hs. revert Hg. induction Hs as [|y l' l Hs IH|y l' l Hs IH]; intros [Hx Hl].
  - left. apply not_elem_of_nil.
  - destruct (decide (x = y)) as [->|Hne]; [by right|]. left.
    destruct Hx as [Hx|Hx]; [|cbn in Hx; congruence]. intros Hin. apply Hx.
    eapply elem_of_submseteq; [exact Hin|]. by apply sublist_submseteq, sublist_skip.
  - destruct (decide (x = y)) as [->|Hne]; [by apply IH|]. left.
    destruct Hx as [Hx|Hx]; [|cbn in Hx; congruence]. intros Hin. apply Hx. right.
    eapply elem_of_submseteq; [exact Hin|]. by apply sublist_submseteq.
Qed.

Lemma grouped_sublist l l' : l' `sublist_of` l -> grouped l -> grouped l'.
Proof.
  induction 1 as [|x l' l Hs IH|x l' l Hs IH]; intros Hg; [done| |].
  - split; [by eapply grouped_sublist_head|]. apply IH, Hg.
  - apply IH, Hg.
Qed.

Lemma grouped_live us : grouped (ids us) -> grouped (ids (live us)).
Proof.
  apply grouped_sublist. unfold live. induction us as [|u us IH]; [constructor|].
  rewrite filter_cons. case_decide; cbn [ids map]; by constructor.
Qed.

Lemma grouped_middle l x r : grouped (l ++ x :: r) -> x ∉ l \/ last l = Some x.
Proof.
  induction l as [|y l IH]; intros Hg; [left; apply not_elem_of_nil|].
  destruct Hg as [Hy Hg]. destruct (IH Hg) as [Hn|Hl].
  - destruct (decide (x = y)) as [->|Hne]; [|left; by apply not_elem_of_cons].
    destruct Hy as [Hy|Hy]; [exfalso; apply Hy; set_solver|].
    destruct l as [|z l]; [by right|]. cbn in Hy. injection Hy as ->. exfalso. apply Hn. left.
  - right. by destruct l.
Qed.

Lemma addUtxos_ok us b :
  utxos_ok b -> grouped (ids (ab_Utxos b ++ us)) -> utxos_ok (foldl (fun b u => addUtxo u b) b us).
Proof.
  revert b. induction us as [|u us IH]; intros b Hb Hg; [done|]. cbn [foldl]. apply IH.
  - apply addUtxo_ok; [done|]. unfold ids in Hg. rewrite map_app in Hg. by apply grouped_middle in Hg.
  - rewrite addUtxo_Utxos, <- app_assoc. done.
Qed.

(** ** Properties *)

(** The indexed search for a spent output is the plain one. From 16 outputs on,
    [markUtxoAsSpent] starts at the position the map gives for the transaction and stops at
    the first output with the wanted number; on every well-formed balance this marks exactly
    the output the linear search marks (or none), and keeps the balance well-formed. *)
Theorem mark_spent_index_sound btxID vout ab :
  utxos_ok ab ->
  markUtxoAsSpent btxID vout ab =
    match markLinear btxID vout (ab_Utxos ab) with
    | Some us => set_Utxos us (ab_utxosMap ab) ab
    | None => ab
    end /\
  utxos_ok (markUtxoAsSpent btxID vout ab).
Proof. intros Hok. split; [by apply markUtxoAsSpent_linear|by apply markUtxoAsSpent_ok]. Qed.

(** Restoring an output on a disconnect. [addUtxoInDisconnect] adds exactly the given
    output, at a position that keeps the outputs of a transaction together, so the index over
    the outputs stays sound. *)
Theorem restore_output_sound u ab :
  utxos_ok ab ->
  utxos_ok (addUtxoInDisconnect u ab) /\ ab_Utxos (addUtxoInDisconnect u ab) ≡ₚ u :: ab_Utxos ab.
Proof. apply addUtxoInDisconnect_ok. Qed.

(** A balance is read back as it was stored. For every order in which the asset map is
    walked, unpacking a packed balance gives the same counters, amounts and asset balances,
    and the unspent outputs without those marked as spent (indexed on request). *)
Theorem balance_codec {V : Vlq} {VL : VlqLaws V} {P : ChainParser} order ab detail :
  0 <= PackedTxidLen -> balance_ok ab -> order ≡ₚ map_to_list (ab_AssetBalances ab) ->
  unpackAddrBalance (packAddrBalance order ab) PackedTxidLen detail = Ok (keptBalance detail ab).
Proof. apply unpackAddrBalance_pack. Qed.

Module BalanceExample.

#[local] Existing Instance RefVlq.vlq.
#[local] Existing Instance RefVlq.vlq_laws.
#[local] Instance parser : ChainParser :=
  base_parser (fun _ => Err ErrAddressMissing) (fun _ => true) 100 true.

Definition utxo (b : byte) (v : Z) : Utxo := mkUtxo (replicate 32 b) v 100 (1000 + v) None.

(** Twenty outputs of three transactions: enough for the map. *)
Definition outputs : list Utxo :=
  map (fun i => utxo x01 (Z.of_nat i)) (seq 0 8) ++ map (fun i => utxo x02 (Z.of_nat i)) (seq 0 8) ++
  map (fun i => utxo x03 (Z.of_nat i)) (seq 0 4).
Definition balance : AddrBalance := foldl (fun b u => addUtxo u b) emptyBalance outputs.

Lemma balance_utxos_ok : utxos_ok balance.
Proof.
  unfold balance. apply (addUtxos_ok outputs emptyBalance); [split; [done|by left]|].
  vm_compute. repeat split; first [by right | left; intros Hin; repeat (apply elem_of_cons in Hin as [Hin|Hin]; [discriminate Hin|]); by apply not_elem_of_nil in Hin].
Qed.

Lemma mark_spent_index_sound_witness :
  u_Vout <$> ab_Utxos (markUtxoAsSpent (replicate 32 x02) 3 balance) !! 11%nat = Some (-1) /\
  utxos_ok (markUtxoAsSpent (replicate 32 x02) 3 balance).
Proof.
  destruct (mark_spent_index_sound (replicate 32 x02) 3 balance balance_utxos_ok) as [H1 H2].
  split; [|exact H2]. rewrite H1. vm_compute. reflexivity.
Defined.

Lemma restore_output_sound_witness :
  ab_Utxos (addUtxoInDisconnect (utxo x02 9) balance) ≡ₚ utxo x02 9 :: outputs.
Proof. exact (proj2 (restore_output_sound (utxo x02 9) balance balance_utxos_ok)). Defined.

Definition stored : AddrBalance :=
  mkAddrBalance 3 700 1546 [utxo x01 0; mkUtxo (replicate 32 x02) (-1) 100 546 None; utxo x03 1]
    {[123456 := mkAssetBalance 2 50 7]} ∅.

Lemma stored_ok : balance_ok stored.
Proof.
  unfold balance_ok, utxo_ok, assetBalance_ok, packable, is_u32, is_u64, is_i32. cbn.
  repeat split; try lia; repeat constructor; cbn; try lia; done.
Qed.

Lemma balance_codec_witness :
  unpackAddrBalance (packAddrBalance (map_to_list (ab_AssetBalances stored)) stored) 32 AddressBalanceDetailUTXO =
  Ok (mkAddrBalance 3 700 1546 [utxo x01 0; utxo x03 1] {[123456 := mkAssetBalance 2 50 7]} ∅).
Proof.
  refine (balance_codec (map_to_list (ab_AssetBalances stored)) stored AddressBalanceDetailUTXO _ stored_ok (Permutation_refl _)).
  done.
Defined.

End BalanceExample.
