(* ===== verification/IndexCodec.v ===== *)
(** The encodings of the columns [addresses], [blockTxs] and [height]
    ([db/rocksdb.go]: [packTxIndexes] to [unpackBlockInfo], the parsing loop of
    [getBlockTxs] and the encoding loop of [storeAndCleanupBlockTxs]). *)

From S2P Require Import Prelude Codec Parser TxAddr.

Local Open Scope Z_scope.

(** The appearances of one address in one transaction: outputs [i >= 0], inputs [^i]. *)
Record txIndexes := mkTxIndexes { txi_btxID : bytes; txi_indexes : list Z }.

Record outpoint := mkOutpoint { op_btxID : bytes; op_index : Z }.

Record blockTxs := mkBlockTxs { bt_btxID : bytes; bt_inputs : list outpoint }.

Record BlockInfo := mkBlockInfo {
  bi_Hash : bytes;
  bi_Time : Z;
  bi_Txs : Z;
  bi_Size : Z;
  bi_Height : Z;      (* not packed *)
}.

#[export] Instance txIndexes_eq_decision : EqDecision txIndexes.
Proof. solve_decision. Defined.
#[export] Instance outpoint_eq_decision : EqDecision outpoint.
Proof. solve_decision. Defined.
#[export] Instance blockTxs_eq_decision : EqDecision blockTxs.
Proof. solve_decision. Defined.

Section IndexCodec.
Context {V : Vlq} {P : ChainParser}.

(** [index <<= 1; if last { index |= 1 }] on an [int32]. *)
Definition tagIndex (last : bool) (index : Z) : Z :=
  let index := i32 (Z.shiftl index 1) in
  if last then Z.lor index 1 else index.

Fixpoint packIndexes (indexes : list Z) : bytes :=
  match indexes with
  | [] => []
  | [index] => packVarint32 (tagIndex true index)
  | index :: r => packVarint32 (tagIndex false index) ++ packIndexes r
  end.

(** The transactions are stored from the last one to the first one. *)
Definition packTxIndexes (txi : list txIndexes) : bytes :=
  concat (map (fun t => txi_btxID t ++ packIndexes (txi_indexes t)) (rev txi)).

(** The inner loop: read indexes until one carries the end mark. With [lenient] (the
    loop of [GetAddrDescTransactions]) the end of the data also ends it. *)
Fixpoint unpackIndexes (lenient : bool) (fuel : nat) (buf : bytes) (acc : list Z)
    : result (list Z * bytes) :=
  match fuel with
  | O => Panic
  | S f =>
      let '(index, l) := unpackVarint32 buf in
      let acc := acc ++ [Z.shiftr index 1] in
      let! buf := slice_from buf l in
      if Z.land index 1 =? 1 then Ok (acc, buf)
      else if lenient && (zlen buf =? 0) then Ok (acc, buf)
      else unpackIndexes lenient f buf acc
  end.

Fixpoint unpackTxIndexesLoop (lenient : bool) (fuel : nat) (buf : bytes) (acc : list txIndexes)
    : result (list txIndexes * bytes) :=
  match fuel with
  | O => Panic
  | S f =>
      if PackedTxidLen <? zlen buf then
        let! btxID := slice buf 0 PackedTxidLen in
        let! buf := slice_from buf PackedTxidLen in
        let! '(indexes, buf) := unpackIndexes lenient (S (length buf)) buf [] in
        unpackTxIndexesLoop lenient f buf (acc ++ [mkTxIndexes btxID indexes])
      else Ok (acc, buf)
  end.

Definition unpackTxIndexes (buf : bytes) : result (list txIndexes) :=
  let! '(retval, _) := unpackTxIndexesLoop false (S (length buf)) buf [] in
  Ok (rev retval).

Definition packOutpoints (outpoints : list outpoint) : bytes :=
  concat (map (fun o => op_btxID o ++ packVarint32 (op_index o)) outpoints).

Fixpoint unpackOutpointsLoop (n : nat) (buf : bytes) (p : Z) : result (list outpoint * Z) :=
  match n with
  | O => Ok ([], p)
  | S n' =>
      if zlen buf <=? p + PackedTxidLen
      then Err (ErrMsg "Inconsistent data in unpackNOutpoints")
      else
        let! btxID := slice buf p (p + PackedTxidLen) in
        let p := p + PackedTxidLen in
        let! b := slice_from buf p in
        let '(vout, voutLen) := unpackVarint32 b in
        let! '(os, p) := unpackOutpointsLoop n' buf (p + voutLen) in
        Ok (mkOutpoint btxID vout :: os, p)
  end.

Definition unpackNOutpoints (buf : bytes) : result (list outpoint * Z) :=
  let '(n, p) := unpackVaruint buf in
  unpackOutpointsLoop (Z.to_nat n) buf p.

(** One transaction of the [blockTxs] row. *)
Definition packBlockTx (t : blockTxs) : bytes :=
  bt_btxID t ++ packVaruint (zlen (bt_inputs t)) ++ packOutpoints (bt_inputs t).

(** The outpoints spent by the inputs; an input without txid is stored as zeros. *)
Fixpoint txOutpoints (vin : list Vin) : result (list outpoint) :=
  match vin with
  | [] => Ok []
  | v :: r =>
      let! btxID :=
        match PackTxid (vin_Txid v) with
        | Err ErrTxidMissing => Ok zeroTxid
        | res => res
        end in
      let! os := txOutpoints r in
      Ok (mkOutpoint btxID (i32 (vin_Vout v)) :: os)
  end.

Fixpoint blockTxsOf (txs : list Tx) : result (list blockTxs) :=
  match txs with
  | [] => Ok []
  | tx :: r =>
      let! o := txOutpoints (tx_Vin tx) in
      let! btxID := PackTxid (tx_Txid tx) in
      let! bts := blockTxsOf r in
      Ok (mkBlockTxs btxID o :: bts)
  end.

Definition packBlockTxs (bts : list blockTxs) : bytes := concat (map packBlockTx bts).

(** The loop of [getBlockTxs] on the stored row, from position [i] on. *)
Fixpoint parseBlockTxs (fuel : nat) (buf : bytes) (i : Z) : result (list blockTxs) :=
  match fuel with
  | O => Panic
  | S f =>
      if i <? zlen buf then
        if zlen buf - i <? PackedTxidLen then Err (ErrMsg "Inconsistent data in blockTxs")
        else
          let! txid := slice buf i (i + PackedTxidLen) in
          let i := i + PackedTxidLen in
          let! b := slice_from buf i in
          match unpackNOutpoints b with
          | Err _ => Err (ErrMsg "Inconsistent data in blockTxs")
          | Panic => Panic
          | Ok (o, ol) =>
              let! bts := parseBlockTxs f buf (i + ol) in
              Ok (mkBlockTxs txid o :: bts)
          end
      else Ok []
  end.

(** ** Block info *)

Definition packBlockInfo (block : BlockInfo) : result bytes :=
  let! b := PackBlockHash (bi_Hash block) in
  let pl := PackedTxidLen in
  let! b :=
    (if negb (zlen b =? pl) then
       if pl <? zlen b then slice b 0 pl
       else Ok (b ++ replicate (Z.to_nat (pl - zlen b)) x00)
     else Ok b) in
  let packed := b ++ packUint (u32 (bi_Time block)) in
  let packed := packed ++ packVaruint (bi_Txs block) in
  Ok (packed ++ packVaruint (bi_Size block)).

(** [None] is the nil result on short data. *)
Definition unpackBlockInfo (buf : bytes) : result (option BlockInfo) :=
  let pl := PackedTxidLen in
  if zlen buf <? pl + 4 + 2 then Ok None
  else
    let! h := slice buf 0 pl in
    let! txid := UnpackBlockHash h in
    let! b := slice_from buf pl in
    let! t := unpackUint b in
    let! b := slice_from buf (pl + 4) in
    let '(txs, l) := unpackVaruint b in
    let! b := slice_from buf (pl + 4 + l) in
    let '(size, _) := unpackVaruint b in
    Ok (Some (mkBlockInfo txid t (u32 txs) (u32 size) 0)).
End IndexCodec.

(** ** Round trips *)

Section IndexRoundTrip.
Context {V : Vlq} {VL : VlqLaws V} {P : ChainParser}.

(** The indexes that survive the shift by one bit: block sizes keep them far below. *)
Definition index_ok (i : Z) : Prop := - 2 ^ 30 <= i < 2 ^ 30.

Definition txIndexes_ok (t : txIndexes) : Prop :=
  zlen (txi_btxID t) = PackedTxidLen /\ txi_indexes t <> [] /\ Forall index_ok (txi_indexes t).

Lemma land_1 x : Z.land x 1 = x mod 2.
Proof. apply (Z.land_ones x 1). lia. Qed.

Lemma tagIndex_spec last i :
  index_ok i ->
  is_i32 (tagIndex last i) /\ Z.shiftr (tagIndex last i) 1 = i /\
  Z.land (tagIndex last i) 1 = if last then 1 else 0.
Proof.
  intros Hi. unfold index_ok in Hi.
  assert (tagIndex last i = 2 * i + if last then 1 else 0) as ->.
  { unfold tagIndex. rewrite Z.shiftl_mul_pow2 by lia. change (2 ^ 1) with 2.
    rewrite i32_id by (unfold is_i32; lia). destruct last; [|lia].
    rewrite <- Z.lxor_lor, <- Z.add_nocarry_lxor; [lia|..];
      rewrite land_1, Z.mul_comm, Z.mul_comm, Z.mod_mul; done. }
  unfold is_i32. rewrite land_1, Z.shiftr_div_pow2 by lia. change (2 ^ 1) with 2.
  destruct last; split_and!; Z.div_mod_to_equations; lia.
Qed.

Lemma zlen_packVarint32 i : is_i32 i -> 1 <= zlen (packVarint32 i).
Proof. intros Hi. apply zlen_packVarint. unfold is_i32, is_i64 in *. lia. Qed.

Lemma packIndexes_length ixs : Forall index_ok ixs -> zlen ixs <= zlen (packIndexes ixs).
Proof.
  induction 1 as [|i ixs Hi His IH]; [done|]. destruct ixs as [|j ixs].
  - cbn [packIndexes]. destruct (tagIndex_spec true i Hi) as [H _].
    pose proof (zlen_packVarint32 _ H). zlen_lia.
  - cbn [packIndexes] in *. destruct (tagIndex_spec false i Hi) as [H _].
    pose proof (zlen_packVarint32 _ H). zlen_lia.
Qed.

Lemma unpackIndexes_pack lenient ixs :
  ixs <> [] -> Forall index_ok ixs ->
  forall fuel acc rest, (length ixs <= fuel)%nat ->
  unpackIndexes lenient fuel (packIndexes ixs ++ rest) acc = Ok (acc ++ ixs, rest).
Proof.
  intros Hne His. induction His as [|i ixs Hi His IH]; [done|].
  intros [|f] acc rest Hf; cbn [length] in Hf; [lia|]. cbn [unpackIndexes].
  destruct ixs as [|j ixs].
  - cbn [packIndexes]. destruct (tagIndex_spec true i Hi) as (H & Hs & Hl).
    rewrite unpackVarint32_pack by done. rewrite slice_from_app by done. cbn [rbind].
    by rewrite Hl, Hs.
  - change (packIndexes (i :: j :: ixs)) with
      (packVarint32 (tagIndex false i) ++ packIndexes (j :: ixs)).
    destruct (tagIndex_spec false i Hi) as (H & Hs & Hl). rewrite <- app_assoc.
    rewrite unpackVarint32_pack by done. rewrite slice_from_app by done. cbn [rbind].
    rewrite Hl, Hs. cbn [Z.eqb]. 
    pose proof (packIndexes_length (j :: ixs) His).
    destruct (Z.eqb_spec (zlen (packIndexes (j :: ixs) ++ rest)) 0); [zlen_lia|].
    rewrite andb_false_r, IH by (done || lia). by rewrite <- app_assoc.
Qed.

Definition encTxIndexes (t : txIndexes) : bytes := txi_btxID t ++ packIndexes (txi_indexes t).

Lemma zlen_encTxIndexes t : txIndexes_ok t -> PackedTxidLen + zlen (txi_indexes t) <= zlen (encTxIndexes t).
Proof.
  intros (Hl & _ & Hi). unfold encTxIndexes. pose proof (packIndexes_length _ Hi). zlen_lia.
Qed.

Lemma unpackTxIndexesLoop_concat lenient ts :
  0 <= PackedTxidLen -> Forall txIndexes_ok ts ->
  forall fuel acc, (length ts < fuel)%nat ->
  unpackTxIndexesLoop lenient fuel (concat (map encTxIndexes ts)) acc = Ok (acc ++ ts, []).
Proof.
  intros HP. induction 1 as [|t ts Ht Hts IH]; intros [|f] acc Hf; cbn [length] in Hf; try lia;
    cbn [unpackTxIndexesLoop map concat].
  - change (zlen []) with 0. case_tests. by rewrite app_nil_r.
  - pose proof (zlen_encTxIndexes t Ht) as Hel. destruct Ht as (Hl & Hne & Hi).
    assert (1 <= zlen (txi_indexes t)) by (destruct (txi_indexes t); [done|zlen_lia]).
    destruct (Z.ltb_spec PackedTxidLen (zlen (encTxIndexes t ++ concat (map encTxIndexes ts)))); [|zlen_lia].
    set (tl := concat (map encTxIndexes ts)) in *. unfold encTxIndexes. rewrite <- app_assoc.
    rewrite <- Hl. do 2 eval_slice.
    rewrite unpackIndexes_pack; [|done|done|].
    2:{ pose proof (packIndexes_length _ Hi). unfold zlen in *. rewrite length_app. lia. }
    cbn [rbind app]. subst tl. rewrite IH by lia. rewrite <- app_assoc. by destruct t.
Qed.

Lemma length_concat_encTxIndexes ts :
  0 <= PackedTxidLen -> Forall txIndexes_ok ts -> zlen ts <= zlen (concat (map encTxIndexes ts)).
Proof.
  intros HP. induction 1 as [|t ts Ht Hts IH]; [done|]. cbn [map concat].
  pose proof (zlen_encTxIndexes t Ht). destruct Ht as (_ & Hne & _).
  assert (1 <= zlen (txi_indexes t)) by (destruct (txi_indexes t); [done|zlen_lia]).
  zlen_lia.
Qed.

Lemma unpackTxIndexes_pack ts :
  0 <= PackedTxidLen -> Forall txIndexes_ok ts ->
  unpackTxIndexes (packTxIndexes ts) = Ok ts.
Proof.
  intros HP Hts. unfold unpackTxIndexes, packTxIndexes.
  apply Forall_rev in Hts. pose proof (length_concat_encTxIndexes _ HP Hts).
  fold encTxIndexes. rewrite unpackTxIndexesLoop_concat by (done || (unfold zlen in *; lia)).
  cbn. by rewrite rev_involutive.
Qed.

(** ** The blockTxs row *)

Definition outpoint_ok (o : outpoint) : Prop :=
  zlen (op_btxID o) = PackedTxidLen /\ is_i32 (op_index o).

Definition blockTx_ok (t : blockTxs) : Prop :=
  zlen (bt_btxID t) = PackedTxidLen /\ zlen (bt_inputs t) < 2 ^ 63 /\
  Forall outpoint_ok (bt_inputs t).

Definition encOutpoint (o : outpoint) : bytes := op_btxID o ++ packVarint32 (op_index o).

Lemma unpackOutpointsLoop_concat os :
  Forall outpoint_ok os -> forall pre rest p, p = zlen pre ->
  unpackOutpointsLoop (length os) (pre ++ concat (map encOutpoint os) ++ rest) p =
  Ok (os, p + zlen (concat (map encOutpoint os))).
Proof.
  induction 1 as [|o os [Hl Hi] Hos IH]; intros pre rest p ->;
    cbn [length unpackOutpointsLoop map concat]; [by rewrite Z.add_0_r|].
  set (tl := concat (map encOutpoint os)) in *. unfold encOutpoint. rewrite <- !app_assoc.
  pose proof (zlen_packVarint32 _ Hi).
  destruct (Z.leb_spec (zlen (pre ++ op_btxID o ++ packVarint32 (op_index o) ++ tl ++ rest))
    (zlen pre + PackedTxidLen)); [zlen_lia|].
  rewrite <- Hl, slice_app by done. cbn [rbind].
  rewrite (app_assoc pre), slice_from_app by zlen_lia. cbn [rbind].
  rewrite unpackVarint32_pack by done.
  rewrite (app_assoc _ (packVarint32 _)), IH by zlen_lia. cbn [rbind].
  destruct o. cbn. do 2 f_equal. zlen_lia.
Qed.

Lemma unpackNOutpoints_pack os rest :
  Forall outpoint_ok os -> zlen os < 2 ^ 63 ->
  unpackNOutpoints (packVaruint (zlen os) ++ packOutpoints os ++ rest) =
  Ok (os, zlen (packVaruint (zlen os)) + zlen (packOutpoints os)).
Proof.
  intros Hos Hl. unfold unpackNOutpoints.
  rewrite unpackVaruint_pack by (unfold is_u64; zlen_lia). rewrite to_nat_zlen.
  by apply unpackOutpointsLoop_concat.
Qed.

Lemma parseBlockTxs_concat bts :
  0 < PackedTxidLen -> Forall blockTx_ok bts ->
  forall fuel pre i, (length bts < fuel)%nat -> i = zlen pre ->
  parseBlockTxs fuel (pre ++ packBlockTxs bts) i = Ok bts.
Proof.
  intros HP. unfold packBlockTxs.
  induction 1 as [|t bts (Hl & Hn & Ho) Hbts IH]; intros [|f] pre i Hf ->; cbn [length] in Hf;
    try lia; cbn [parseBlockTxs map concat].
  - rewrite app_nil_r. case_tests. done.
  - set (tl := concat (map packBlockTx bts)) in *. unfold packBlockTx. rewrite <- !app_assoc.
    set (buf := pre ++ _). assert (zlen buf = zlen pre + PackedTxidLen +
      zlen (packVaruint (zlen (bt_inputs t))) + zlen (packOutpoints (bt_inputs t)) + zlen tl) as Hb
      by (subst buf; zlen_lia).
    destruct (Z.ltb_spec (zlen pre) (zlen buf)); [|zlen_lia].
    destruct (Z.ltb_spec (zlen buf - zlen pre) PackedTxidLen); [zlen_lia|]. subst buf.
    rewrite <- Hl, slice_app by done. cbn [rbind].
    rewrite (app_assoc pre), slice_from_app by zlen_lia. cbn [rbind].
    rewrite unpackNOutpoints_pack by done. cbn [rbind].
    rewrite (app_assoc _ (packVaruint _)), (app_assoc _ (packOutpoints _)).
    rewrite IH by (lia || zlen_lia). cbn. by destruct t.
Qed.

Lemma length_packBlockTxs bts :
  0 < PackedTxidLen -> Forall blockTx_ok bts -> zlen bts <= zlen (packBlockTxs bts).
Proof.
  intros HP. unfold packBlockTxs. induction 1 as [|t bts (Hl & _) Hbts IH]; [done|].
  cbn [map concat]. unfold packBlockTx at 1. zlen_lia.
Qed.

Lemma parseBlockTxs_pack bts :
  0 < PackedTxidLen -> Forall blockTx_ok bts ->
  parseBlockTxs (S (length (packBlockTxs bts))) (packBlockTxs bts) 0 = Ok bts.
Proof.
  intros HP Hb. pose proof (length_packBlockTxs _ HP Hb).
  apply (parseBlockTxs_concat bts HP Hb _ []); [unfold zlen in *; lia | done].
Qed.

(** ** Block info *)

(** A block hash of the width of a txid is read back; one of another width is cut
    or padded with zeros. *)
Definition hashBytes (b : bytes) : bytes :=
  take (Z.to_nat PackedTxidLen) (b ++ replicate (Z.to_nat (PackedTxidLen - zlen b)) x00).

Lemma packBlockInfo_form bi b :
  0 <= PackedTxidLen -> PackBlockHash (bi_Hash bi) = Ok b ->
  packBlockInfo bi = Ok (hashBytes b ++ packUint (u32 (bi_Time bi)) ++
                         packVaruint (bi_Txs bi) ++ packVaruint (bi_Size bi)).
Proof.
  intros HP Hb. unfold packBlockInfo. rewrite Hb. cbn [rbind].
  enough ((if negb (zlen b =? PackedTxidLen) then
             if PackedTxidLen <? zlen b then slice b 0 PackedTxidLen
             else Ok (b ++ replicate (Z.to_nat (PackedTxidLen - zlen b)) x00)
           else Ok b) = Ok (hashBytes b)) as ->.
  { cbn [rbind]. by rewrite <- !app_assoc. }
  unfold hashBytes. destruct (Z.eqb_spec (zlen b) PackedTxidLen) as [E|E]; cbn [negb].
  - rewrite <- E, to_nat_zlen, take_app_length. done.
  - destruct (Z.ltb_spec PackedTxidLen (zlen b)).
    + unfold slice. case_tests. rewrite drop_0, Z.sub_0_r, take_app_le by (unfold zlen in *; lia). done.
    + rewrite take_ge; [done|]. rewrite length_app, length_replicate. unfold zlen in *. lia.
Qed.

Lemma zlen_hashBytes b : 0 <= PackedTxidLen -> zlen (hashBytes b) = PackedTxidLen.
Proof.
  intros HP. unfold hashBytes, zlen. rewrite length_take, length_app, length_replicate. lia.
Qed.

Lemma unpackBlockInfo_pack bi b h packed :
  0 <= PackedTxidLen -> is_u32 (bi_Txs bi) -> is_u32 (bi_Size bi) ->
  PackBlockHash (bi_Hash bi) = Ok b -> UnpackBlockHash (hashBytes b) = Ok h ->
  packBlockInfo bi = Ok packed ->
  unpackBlockInfo packed =
  Ok (Some (mkBlockInfo h (u32 (bi_Time bi)) (bi_Txs bi) (bi_Size bi) 0)).
Proof.
  intros HP Ht Hs Hb Hu Hp. rewrite (packBlockInfo_form bi b HP Hb) in Hp.
  match type of Hp with Ok ?x = _ => assert (packed = x) as -> by congruence end. clear Hp.
  pose proof (zlen_hashBytes b HP) as Hl. unfold unpackBlockInfo.
  pose proof (zlen_packVaruint (bi_Txs bi) ltac:(unfold is_u32, is_u64 in *; lia)).
  pose proof (zlen_packVaruint (bi_Size bi) ltac:(unfold is_u32, is_u64 in *; lia)).
  assert (zlen (packUint (u32 (bi_Time bi))) = 4) as H4 by (unfold packUint; by rewrite zlen_be_put).
  destruct (Z.ltb_spec (zlen (hashBytes b ++ packUint (u32 (bi_Time bi)) ++
    packVaruint (bi_Txs bi) ++ packVaruint (bi_Size bi))) (PackedTxidLen + 4 + 2)); [zlen_lia|].
  rewrite <- Hl, slice_0_app by done. cbn [rbind]. rewrite Hu. cbn [rbind].
  rewrite (slice_from_app (hashBytes b) _ (zlen (hashBytes b)) eq_refl). cbn [rbind].
  rewrite unpackUint_pack by apply u32_range. cbn [rbind].
  eval_slice. rewrite unpackVaruint_pack by (unfold is_u32, is_u64 in *; lia).
  eval_slice. rewrite <- (app_nil_r (packVaruint (bi_Size bi))).
  rewrite unpackVaruint_pack by (unfold is_u32, is_u64 in *; lia). by rewrite (u32_id (bi_Txs bi)), (u32_id (bi_Size bi)).
Qed.
End IndexRoundTrip.

(** ** Properties *)

Section IndexProperties.
Context {V : Vlq} {VL : VlqLaws V} {P : ChainParser}.

(** The rows of the address index are read back as written: the transactions of a block
    that touch an address, in order, each with the numbers of the inputs (negative) and
    outputs where the address appears. *)
Theorem tx_indexes_codec ts :
  0 <= PackedTxidLen -> Forall txIndexes_ok ts -> unpackTxIndexes (packTxIndexes ts) = Ok ts.
Proof. apply unpackTxIndexes_pack. Qed.

(** The undo data of a block are read back as written: for every transaction its txid and
    the outpoints its inputs spend, as [getBlockTxs] parses them before a disconnect. *)
Theorem block_txs_codec bts :
  0 < PackedTxidLen -> Forall blockTx_ok bts ->
  parseBlockTxs (S (length (packBlockTxs bts))) (packBlockTxs bts) 0 = Ok bts.
Proof. apply parseBlockTxs_pack. Qed.

(** The header row of a block is read back: hash, time (modulo 2^32), number of
    transactions and size. A hash of another width than a txid is cut or padded. *)
Theorem block_info_codec bi b h packed :
  0 <= PackedTxidLen -> is_u32 (bi_Txs bi) -> is_u32 (bi_Size bi) ->
  PackBlockHash (bi_Hash bi) = Ok b -> UnpackBlockHash (hashBytes b) = Ok h ->
  packBlockInfo bi = Ok packed ->
  unpackBlockInfo packed = Ok (Some (mkBlockInfo h (u32 (bi_Time bi)) (bi_Txs bi) (bi_Size bi) 0)).
Proof. apply unpackBlockInfo_pack. Qed.
End IndexProperties.

Module IndexExample.

#[local] Existing Instance RefVlq.vlq.
#[local] Existing Instance RefVlq.vlq_laws.
#[local] Instance parser : ChainParser :=
  base_parser (fun _ => Err ErrAddressMissing) (fun _ => true) 100 false.

Definition ts : list txIndexes :=
  [mkTxIndexes (replicate 32 x11) [0; 5; -1]; mkTxIndexes (replicate 32 x22) [-3]].

Lemma tx_indexes_codec_witness : unpackTxIndexes (packTxIndexes ts) = Ok ts.
Proof.
  apply (tx_indexes_codec ts); [done|].
  repeat constructor; cbn; unfold index_ok; try lia; done.
Defined.

Definition bts : list blockTxs :=
  [mkBlockTxs (replicate 32 x11) [mkOutpoint (replicate 32 x00) (-1)];
   mkBlockTxs (replicate 32 x22) [mkOutpoint (replicate 32 x33) 4; mkOutpoint (replicate 32 x11) 0]].

Lemma block_txs_codec_witness : parseBlockTxs (S (length (packBlockTxs bts))) (packBlockTxs bts) 0 = Ok bts.
Proof.
  apply (block_txs_codec bts); [done|].
  repeat constructor; cbn; try lia; done.
Defined.

Definition info : BlockInfo := mkBlockInfo (replicate 64 x61) 1600000000 12 4096 100.

Lemma block_info_codec_witness :
  unpackBlockInfo (match packBlockInfo info with Ok p => p | _ => [] end) =
  Ok (Some (mkBlockInfo (replicate 64 x61) 1600000000 12 4096 0)).
Proof.
  apply (block_info_codec info (replicate 32 xaa)); try done; vm_compute; reflexivity.
Defined.

End IndexExample.
