(* ===== verification/Store.v ===== *)
(** The storage engine and the row-level operations of the index.

    RocksDB is not part of the repository: a column family is the class [KV] (get, put,
    delete, and the pairs in iterator order) with the documented laws [KVLaws]; a finite
    map sorted by key satisfies them ([MapKV]). A write batch is the list of its
    operations, applied in order and as a whole. Reads and writes may fail: the reads
    that fail are given by [db_rfault], a failing write by [db_wfault].

    On top of it: the readers and writers of [db/rocksdb.go] for balances,
    transactions, block rows and heights. *)

From S2P Require Import Prelude Codec Parser TxAddr Balance IndexCodec.

Local Open Scope Z_scope.

(** ** Column families *)

Inductive CF :=
| cfDefault | cfHeight | cfAddresses | cfBlockTxs | cfTransactions | cfFiatRates
| cfAddressBalance | cfTxAddresses | cfBlockFilter | cfAssets | cfTxAssets
| cfAddressContracts | cfInternalData | cfContracts | cfFunctionSignatures
| cfBlockInternalDataErrors | cfAddressAliases | cfErcProtocols.

#[export] Instance CF_eq_decision : EqDecision CF.
Proof. solve_decision. Defined.

Class KV := {
  kv : Type;
  kv_get : kv -> bytes -> option bytes;
  kv_put : bytes -> bytes -> kv -> kv;
  kv_del : bytes -> kv -> kv;
  kv_list : kv -> list (bytes * bytes);
}.

Definition key_lt (a b : bytes * bytes) : Prop := bytes_compare a.1 b.1 = Lt.

Class KVLaws (K : KV) : Prop := {
  kv_get_put k v s k' :
    kv_get (kv_put k v s) k' = if decide (k = k') then Some v else kv_get s k';
  kv_get_del k s k' :
    kv_get (kv_del k s) k' = if decide (k = k') then None else kv_get s k';
  kv_list_get s k v : (k, v) ∈ kv_list s <-> kv_get s k = Some v;
  kv_list_sorted s : StronglySorted key_lt (kv_list s);
}.

Record DB {K : KV} := mkDB {
  db_cf : CF -> kv;
  db_rfault : CF -> bytes -> bool;
  db_wfault : bool;
}.
Arguments DB : clear implicits.
Arguments DB K : assert.

Inductive BatchOp :=
| PutCF (cf : CF) (key val : bytes)
| DeleteCF (cf : CF) (key : bytes).

Section Store.
Context {V : Vlq} {P : ChainParser} {IX : IndexOpts} {K : KV}.
Implicit Types (d : DB K) (wb : list BatchOp).

(** [d.db.GetCF]: [None] is a key that is not in the column. *)
Definition GetCF d (cf : CF) (key : bytes) : result (option bytes) :=
  if db_rfault d cf key then Err ErrDB else Ok (kv_get (db_cf d cf) key).

Definition apply_op (s : CF -> kv) (op : BatchOp) : CF -> kv :=
  match op with
  | PutCF cf k v => fun c => if decide (c = cf) then kv_put k v (s cf) else s c
  | DeleteCF cf k => fun c => if decide (c = cf) then kv_del k (s cf) else s c
  end.

(** [d.WriteBatch(wb)] *)
Definition WriteBatch wb d : result (DB K) :=
  if db_wfault d then Err ErrDB
  else Ok (mkDB K (foldl apply_op (db_cf d) wb) (db_rfault d) (db_wfault d)).

(** [val.Data()] of a missing key is an empty slice. *)
Definition valData (v : option bytes) : bytes := match v with Some b => b | None => [] end.

(** ** Readers *)

Definition GetAddrDescBalance d (addrDesc : bytes) (detail : AddressBalanceDetail)
    : result (option AddrBalance) :=
  let! val := GetCF d cfAddressBalance addrDesc in
  let buf := valData val in
  if zlen buf <? 3 then Ok None
  else let! ab := unpackAddrBalance buf PackedTxidLen detail in Ok (Some ab).

Definition getTxAddresses d (btxID : bytes) : result (option TxAddresses) :=
  let! val := GetCF d cfTxAddresses btxID in
  let buf := valData val in
  if zlen buf <? 3 then Ok None
  else let! ta := unpackTxAddresses buf in Ok (Some ta).

Definition GetTxAddresses d (txid : bytes) : result (option TxAddresses) :=
  let! btxID := PackTxid txid in
  getTxAddresses d btxID.

Definition GetTxAddressesOutput d (txid : bytes) (vout : Z) : result (option TxOutput) :=
  let! btxID := PackTxid txid in
  let! val := GetCF d cfTxAddresses btxID in
  txAddressesOutput (valData val) vout.

(** Descriptor, value and asset of an outpoint; a negative vout names an input. Any
    failure reads as "not found". *)
Definition AddrDescForOutpoint d (txid : bytes) (vout : Z)
    : option (bytes * Z * option AssetInfo) :=
  match GetTxAddresses d txid with
  | Ok (Some ta) =>
      if vout <? 0 then
        (fun i => (ti_AddrDesc i, ti_ValueSat i, ti_AssetInfo i)) <$>
          ta_Inputs ta !! Z.to_nat (Z.lnot vout)
      else
        (fun o => (to_AddrDesc o, to_ValueSat o, to_AssetInfo o)) <$>
          ta_Outputs ta !! Z.to_nat vout
  | _ => None
  end.

Definition getTxIndexesForAddressAndBlock d (addrDesc : bytes) (height : Z)
    : result (list txIndexes) :=
  let! val := GetCF d cfAddresses (packAddressKey addrDesc height) in
  match val with
  | None => Ok []
  | Some buf => unpackTxIndexes buf
  end.

Definition getBlockTxs d (height : Z) : result (list blockTxs) :=
  let! val := GetCF d cfBlockTxs (packUint height) in
  let buf := valData val in
  parseBlockTxs (S (length buf)) buf 0.

(** The empty hash is "not found". *)
Definition GetBlockHash d (height : Z) : result bytes :=
  let! val := GetCF d cfHeight (packUint height) in
  let! info := unpackBlockInfo (valData val) in
  match info with
  | None => Ok []
  | Some bi => Ok (bi_Hash bi)
  end.

Definition GetBlockInfo d (height : Z) : result (option BlockInfo) :=
  let! val := GetCF d cfHeight (packUint height) in
  let! info := unpackBlockInfo (valData val) in
  match info with
  | None => Ok None
  | Some bi => Ok (Some (mkBlockInfo (bi_Hash bi) (bi_Time bi) (bi_Txs bi) (bi_Size bi) height))
  end.

(** A row that cannot be unpacked counts as no row: the error is dropped. *)
Definition GetBestBlock d : result (Z * bytes) :=
  match last (kv_list (db_cf d cfHeight)) with
  | None => Ok (0, [])
  | Some (key, val) =>
      let! bestHeight := unpackUint key in
      match unpackBlockInfo val with
      | Ok (Some bi) => Ok (bestHeight, bi_Hash bi)
      | Ok None | Err _ => Ok (0, [])
      | Panic => Panic
      end
  end.

(** ** Writers: each appends its operations to the batch *)

Definition storeAddresses wb (height : Z) (addresses : gmap bytes (list txIndexes)) : list BatchOp :=
  wb ++ map (fun e => PutCF cfAddresses (packAddressKey e.1 height) (packTxIndexes e.2))
          (map_to_list addresses).

Definition storeTxAddresses wb (am : gmap bytes TxAddresses) : list BatchOp :=
  wb ++ map (fun e => PutCF cfTxAddresses e.1 (packTxAddresses e.2)) (map_to_list am).

(** A balance without transactions is removed; [None] is a nil balance. *)
Definition storeBalance (addrDesc : bytes) (ab : option AddrBalance) : BatchOp :=
  match ab with
  | None => DeleteCF cfAddressBalance addrDesc
  | Some ab =>
      if ab_Txs ab <=? 0 then DeleteCF cfAddressBalance addrDesc
      else PutCF cfAddressBalance addrDesc
             (packAddrBalance (map_to_list (ab_AssetBalances ab)) ab)
  end.

Definition storeBalances wb (abm : gmap bytes (option AddrBalance)) : list BatchOp :=
  wb ++ map (fun e => storeBalance e.1 e.2) (map_to_list abm).

(** [for rh := start; rh > 0; rh-- { ... }]: delete the rows below until one is missing. *)
Fixpoint cleanupLoop (fuel : nat) d wb (rh : Z) : result (list BatchOp) :=
  match fuel with
  | O => Ok wb
  | S f =>
      if 0 <? rh then
        let! val := GetCF d cfBlockTxs (packUint rh) in
        match val with
        | None => Ok wb
        | Some _ => cleanupLoop f d (wb ++ [DeleteCF cfBlockTxs (packUint rh)]) (rh - 1)
        end
      else Ok wb
  end.

Definition cleanupBlockTxs d wb (block : Block) : result (list BatchOp) :=
  let keep := u32 KeepBlockAddresses in
  if keep <? blk_Height block
  then cleanupLoop (Z.to_nat (blk_Height block)) d wb (blk_Height block - keep)
  else Ok wb.

Definition storeAndCleanupBlockTxs d wb (block : Block) : result (list BatchOp) :=
  let! bts := blockTxsOf (blk_Txs block) in
  cleanupBlockTxs d (wb ++ [PutCF cfBlockTxs (packUint (blk_Height block)) (packBlockTxs bts)]) block.

Inductive WriteOp := opInsert | opDelete.

(** The second component is the best height kept in the internal state. *)
Definition writeHeight wb (height : Z) (bi : BlockInfo) (op : WriteOp)
    : result (list BatchOp * Z) :=
  let key := packUint height in
  match op with
  | opInsert =>
      let! val := packBlockInfo bi in
      Ok (wb ++ [PutCF cfHeight key val], height)
  | opDelete => Ok (wb ++ [DeleteCF cfHeight key], u32 (height - 1))
  end.

Definition writeHeightFromBlock wb (block : Block) (op : WriteOp) : result (list BatchOp * Z) :=
  writeHeight wb (blk_Height block)
    (mkBlockInfo (blk_Hash block) (blk_Time block) (u32 (zlen (blk_Txs block)))
       (u32 (blk_Size block)) (blk_Height block)) op.
End Store.

(** ** Reading after a batch *)

Definition op_cf (op : BatchOp) : CF :=
  match op with PutCF cf _ _ => cf | DeleteCF cf _ => cf end.
Definition op_key (op : BatchOp) : bytes :=
  match op with PutCF _ k _ => k | DeleteCF _ k => k end.
Definition op_val (op : BatchOp) : option bytes :=
  match op with PutCF _ _ v => Some v | DeleteCF _ _ => None end.

(** What the batch leaves at a key: [None] when it does not touch it. *)
Fixpoint batch_get (cf : CF) (k : bytes) (wb : list BatchOp) : option (option bytes) :=
  match wb with
  | [] => None
  | op :: rest =>
      match batch_get cf k rest with
      | Some r => Some r
      | None => if decide (op_cf op = cf /\ op_key op = k) then Some (op_val op) else None
      end
  end.

Lemma batch_get_app cf k a b :
  batch_get cf k (a ++ b) =
  match batch_get cf k b with Some r => Some r | None => batch_get cf k a end.
Proof.
  induction a as [|op a IH]; cbn; [by destruct (batch_get cf k b)|].
  rewrite IH. by destruct (batch_get cf k b).
Qed.

Lemma batch_get_other cf k wb :
  Forall (fun op => op_cf op <> cf \/ op_key op <> k) wb -> batch_get cf k wb = None.
Proof.
  induction 1 as [|op wb Hop _ IH]; cbn; [done|]. rewrite IH, decide_False; [done|tauto].
Qed.

(** A loop over a map writes one operation per entry: at the key of an entry the batch
    holds the operation of that entry, in whatever order the loop runs. *)
Lemma batch_get_map {A} (m : gmap bytes A) (f : bytes * A -> BatchOp) (kf : bytes -> bytes) cf k :
  (forall e, op_cf (f e) = cf) -> (forall e, op_key (f e) = kf e.1) ->
  (forall k', kf k' = kf k -> k' = k) ->
  batch_get cf (kf k) (map f (map_to_list m)) = (fun x => op_val (f (k, x))) <$> m !! k.
Proof.
  intros Hcf Hk Hinj. pose proof (NoDup_fst_map_to_list m) as Hn.
  assert (forall x, m !! k = Some x <-> (k, x) ∈ map_to_list m) as Hm
    by (intros; by rewrite elem_of_map_to_list).
  revert Hn Hm. generalize (map_to_list m) (m !! k). intros l o.
  revert o. induction l as [|[k' x'] l IH]; intros o Hn Hm; cbn [map batch_get].
  - destruct o as [x|]; [|done]. exfalso. apply (not_elem_of_nil (k, x)). by apply Hm.
  - inversion Hn as [|? ? Hnk Hnl]; subst. destruct (decide (k' = k)) as [->|Hne].
    + rewrite (IH None Hnl).
      * cbn. rewrite decide_True by (rewrite Hcf, Hk; done).
        assert (o = Some x') as -> by (apply Hm; left). done.
      * intros x. split; [done|]. intros Hx. exfalso. apply Hnk.
        apply list_elem_of_fmap. by exists (k, x).
    + rewrite (IH o Hnl).
      * destruct o; cbn; [done|]. rewrite decide_False; [done|]. rewrite Hk. cbn.
        intros [_ Hkk]. by apply Hne, Hinj.
      * intros x. rewrite Hm, elem_of_cons. split; [|tauto]. intros [Hx|]; [congruence|done].
Qed.

(** A batch extended by operations on the given columns only. *)
Definition extends (cfs : list CF) (wb wb' : list BatchOp) : Prop :=
  exists ops, wb' = wb ++ ops /\ Forall (fun op => op_cf op ∈ cfs) ops.

Lemma batch_get_extends cfs wb wb' cf k :
  extends cfs wb wb' -> cf ∉ cfs -> batch_get cf k wb' = batch_get cf k wb.
Proof.
  intros (ops & -> & Hops) Hcf. rewrite batch_get_app, (batch_get_other cf k ops); [done|].
  eapply Forall_impl; [exact Hops|]. intros op Hop. left. by intros <-.
Qed.

(** Reads of other columns skip the extension. *)
Ltac skip_cf H := rewrite (batch_get_extends _ _ _ _ _ H) by set_solver.

Lemma extends_refl cfs wb : extends cfs wb wb.
Proof. exists []. by rewrite app_nil_r. Qed.

Lemma extends_app cfs wb ops : Forall (fun op => op_cf op ∈ cfs) ops -> extends cfs wb (wb ++ ops).
Proof. by exists ops. Qed.

Lemma extends_trans cfs wb1 wb2 wb3 : extends cfs wb1 wb2 -> extends cfs wb2 wb3 -> extends cfs wb1 wb3.
Proof.
  intros (o1 & -> & H1) (o2 & -> & H2). exists (o1 ++ o2). rewrite app_assoc. split; [done|]. by apply Forall_app_2.
Qed.

Lemma batch_get_map_key {A} (m : gmap bytes A) (f : bytes * A -> BatchOp) cf k :
  (forall e, op_cf (f e) = cf) -> (forall e, op_key (f e) = e.1) ->
  batch_get cf k (map f (map_to_list m)) = (fun x => op_val (f (k, x))) <$> m !! k.
Proof. intros Hcf Hk. by apply (batch_get_map m f id). Qed.

Section StoreLaws.
Context {V : Vlq} {P : ChainParser} {IX : IndexOpts} {K : KV} {KL : KVLaws K}.
Implicit Types (d : DB K) (wb : list BatchOp).

Lemma kv_get_batch (s : CF -> kv) wb cf k :
  kv_get (foldl apply_op s wb cf) k =
  match batch_get cf k wb with Some r => r | None => kv_get (s cf) k end.
Proof.
  revert s. induction wb as [|op wb IH]; intros s; cbn; [done|].
  rewrite IH. destruct (batch_get cf k wb); [done|].
  destruct op as [c k' v|c k']; cbn; destruct (decide (cf = c)) as [->|Hne].
  - rewrite kv_get_put. repeat case_decide; destruct_and?; subst; tauto.
  - rewrite decide_False; [done|]. intros [? _]; congruence.
  - rewrite kv_get_del. repeat case_decide; destruct_and?; subst; tauto.
  - rewrite decide_False; [done|]. intros [? _]; congruence.
Qed.

(** Reads after a successful batch, on a store whose reads do not fail. *)
Lemma GetCF_WriteBatch wb d d' cf k :
  WriteBatch wb d = Ok d' -> db_rfault d cf k = false ->
  GetCF d' cf k = Ok (match batch_get cf k wb with Some r => r | None => kv_get (db_cf d cf) k end).
Proof.
  unfold WriteBatch, GetCF. destruct (db_wfault d); [discriminate|].
  intros [= <-] Hr. cbn. by rewrite Hr, kv_get_batch.
Qed.

(** What each writer leaves in the batch. *)
Lemma batch_get_storeTxAddresses wb am k :
  batch_get cfTxAddresses k (storeTxAddresses wb am) =
  match am !! k with
  | Some ta => Some (Some (packTxAddresses ta))
  | None => batch_get cfTxAddresses k wb
  end.
Proof.
  unfold storeTxAddresses. rewrite batch_get_app.
  rewrite batch_get_map_key by done. by destruct (am !! k).
Qed.

Lemma batch_get_storeBalances wb abm k :
  batch_get cfAddressBalance k (storeBalances wb abm) =
  match abm !! k with
  | Some ab => Some (op_val (storeBalance k ab))
  | None => batch_get cfAddressBalance k wb
  end.
Proof.
  unfold storeBalances. rewrite batch_get_app.
  rewrite batch_get_map_key; [by destruct (abm !! k)| |];
    intros [a ab]; destruct ab as [ab|]; cbn; try done; case_match; done.
Qed.

Lemma batch_get_storeAddresses wb h am a :
  batch_get cfAddresses (packAddressKey a h) (storeAddresses wb h am) =
  match am !! a with
  | Some ts => Some (Some (packTxIndexes ts))
  | None => batch_get cfAddresses (packAddressKey a h) wb
  end.
Proof.
  unfold storeAddresses. rewrite batch_get_app.
  rewrite (batch_get_map am _ (fun k => packAddressKey k h)); [by destruct (am !! a)|done|done|].
  intros k'. unfold packAddressKey. apply app_inj_2. done.
Qed.

Lemma extends_storeTxAddresses wb am : extends [cfTxAddresses] wb (storeTxAddresses wb am).
Proof. apply extends_app, List.Forall_map, Forall_true. intros e. left. Qed.

Lemma extends_storeBalances wb abm : extends [cfAddressBalance] wb (storeBalances wb abm).
Proof.
  apply extends_app, List.Forall_map, Forall_true. intros [a [ab|]]; cbn; [case_match|]; left.
Qed.

Lemma extends_storeAddresses wb h am : extends [cfAddresses] wb (storeAddresses wb h am).
Proof. apply extends_app, List.Forall_map, Forall_true. intros e. left. Qed.

(** The loop below the kept blocks deletes rows of [blockTxs], and ends. *)
Lemma cleanupLoop_ok d fuel wb rh :
  (forall k, db_rfault d cfBlockTxs k = false) ->
  exists wb', cleanupLoop fuel d wb rh = Ok wb' /\ extends [cfBlockTxs] wb wb'.
Proof.
  intros Hr. revert wb rh. induction fuel as [|f IH]; intros wb rh; cbn [cleanupLoop];
    [exists wb; split; [done|apply extends_refl]|].
  destruct (0 <? rh); [|exists wb; split; [reflexivity|apply extends_refl]].
  unfold GetCF. rewrite Hr. cbn [rbind].
  destruct (kv_get (db_cf d cfBlockTxs) (packUint rh)); [|exists wb; split; [reflexivity|apply extends_refl]].
  destruct (IH (wb ++ [DeleteCF cfBlockTxs (packUint rh)]) (rh - 1)) as (wb' & Hw & Hext).
  exists wb'. split; [done|]. eapply extends_trans; [|exact Hext].
  apply extends_app. repeat constructor.
Qed.

Lemma storeAndCleanupBlockTxs_ok d wb block bts :
  (forall k, db_rfault d cfBlockTxs k = false) -> blockTxsOf (blk_Txs block) = Ok bts ->
  exists wb', storeAndCleanupBlockTxs d wb block = Ok wb' /\ extends [cfBlockTxs] wb wb'.
Proof.
  intros Hr Hb. unfold storeAndCleanupBlockTxs. rewrite Hb. cbn [rbind]. unfold cleanupBlockTxs.
  set (wb1 := wb ++ _). assert (extends [cfBlockTxs] wb wb1) as H1 by (apply extends_app; repeat constructor).
  destruct (u32 KeepBlockAddresses <? blk_Height block); [|by eexists].
  destruct (cleanupLoop_ok d (Z.to_nat (blk_Height block)) wb1 (blk_Height block - u32 KeepBlockAddresses) Hr)
    as (wb' & Hw & Hext).
  exists wb'. split; [done|]. by eapply extends_trans.
Qed.
End StoreLaws.

(** ** A finite map as a column family *)

Module MapKV.

Definition key_le (a b : bytes * bytes) : Prop := bytes_compare a.1 b.1 <> Gt.

#[export] Instance key_le_dec : RelDecision key_le.
Proof. intros a b. unfold key_le. apply _. Defined.

#[export] Instance key_le_total : Total key_le.
Proof.
  intros a b. unfold key_le. rewrite (bytes_compare_antisym a.1 b.1).
  destruct (bytes_compare a.1 b.1); cbn; auto.
Qed.

#[export] Instance key_le_trans : Transitive key_le.
Proof.
  intros a b c. unfold key_le. intros H1 H2.
  destruct (bytes_compare a.1 b.1) eqn:E1; [|clear H1|done].
  - apply bytes_compare_eq in E1. by rewrite E1.
  - destruct (bytes_compare b.1 c.1) eqn:E2; [|clear H2|done].
    + apply bytes_compare_eq in E2. by rewrite <- E2, E1.
    + by rewrite (bytes_compare_trans _ _ _ E1 E2).
Qed.

#[export] Instance map_kv : KV := {
  kv := gmap bytes bytes;
  kv_get s k := s !! k;
  kv_put k v s := <[k := v]> s;
  kv_del k s := delete k s;
  kv_list s := merge_sort key_le (map_to_list s);
}.

Lemma sorted_strict l :
  NoDup l.*1 -> StronglySorted key_le l -> StronglySorted key_lt l.
Proof.
  induction l as [|a l IH]; intros Hn Hs; [constructor|].
  inversion Hn as [|? ? Hna Hnl]; inversion Hs as [|? ? Hsl Hfa]; subst.
  constructor; [by apply IH|]. apply Forall_forall. intros b Hb.
  rewrite Forall_forall in Hfa. specialize (Hfa b Hb). unfold key_le, key_lt in *.
  destruct (bytes_compare a.1 b.1) eqn:E; [|done|done].
  apply bytes_compare_eq in E. exfalso. apply Hna. rewrite E.
  apply list_elem_of_fmap. eauto.
Qed.

#[export] Instance map_kv_laws : KVLaws map_kv.
Proof.
  constructor; cbn; intros.
  - rewrite lookup_insert. case_decide; done.
  - rewrite lookup_delete. case_decide; done.
  - rewrite (merge_sort_Permutation key_le), elem_of_map_to_list. done.
  - apply sorted_strict.
    + rewrite (merge_sort_Permutation key_le). apply NoDup_fst_map_to_list.
    + apply StronglySorted_merge_sort; apply _.
Qed.

End MapKV.

(** ** The best block *)

Section BestBlock.
Context {V : Vlq} {P : ChainParser} {K : KV} {KL : KVLaws K}.

(** The column of heights holds block rows under the keys of their heights. *)
Definition height_rows (d : DB K) : Prop :=
  forall k v, kv_get (db_cf d cfHeight) k = Some v ->
  exists h bi, is_u32 h /\ k = packUint h /\ unpackBlockInfo v = Ok (Some bi).

Lemma packUint_compare h1 h2 :
  is_u32 h1 -> is_u32 h2 -> bytes_compare (packUint h1) (packUint h2) = (h1 ?= h2).
Proof.
  intros H1 H2. unfold packUint. rewrite bytes_compare_be by by rewrite !be_put_length.
  by rewrite !be_put_small.
Qed.

Lemma sorted_last l e x : StronglySorted key_lt l -> last l = Some e -> x ∈ l -> x = e \/ key_lt x e.
Proof.
  intros Hs Hl Hx. apply last_Some in Hl as [l' ->].
  apply elem_of_app in Hx as [Hx| ->%list_elem_of_singleton]; [|by left]. right.
  clear -Hs Hx. induction l' as [|y l' IH]; [by apply not_elem_of_nil in Hx|].
  cbn in Hs. inversion Hs as [|? ? Hs' Hf]; subst. apply elem_of_cons in Hx as [->|Hx]; [|by apply IH].
  rewrite Forall_forall in Hf. apply Hf. set_solver.
Qed.

Lemma GetBestBlock_spec (d : DB K) :
  height_rows d ->
  match GetBestBlock d with
  | Ok (h, hash) =>
      (forall h', is_u32 h' -> is_Some (kv_get (db_cf d cfHeight) (packUint h')) -> h' <= h) /\
      ((h = 0 /\ hash = [] /\ forall k, kv_get (db_cf d cfHeight) k = None) \/
       exists v bi, is_u32 h /\ kv_get (db_cf d cfHeight) (packUint h) = Some v /\
                    unpackBlockInfo v = Ok (Some bi) /\ hash = bi_Hash bi)
  | _ => False
  end.
Proof.
  intros Hrows. unfold GetBestBlock.
  assert (forall k v, (k, v) ∈ kv_list (db_cf d cfHeight) <-> kv_get (db_cf d cfHeight) k = Some v) as Hin
    by (intros; apply kv_list_get).
  destruct (last (kv_list (db_cf d cfHeight))) as [[key val]|] eqn:El.
  - assert (kv_get (db_cf d cfHeight) key = Some val) as Hk.
    { apply Hin. apply last_Some in El as [l' ->]. set_solver. }
    destruct (Hrows _ _ Hk) as (h & bi & Hh & -> & Hbi).
    rewrite <- (app_nil_r (packUint h)), unpackUint_pack by done. cbn [rbind]. rewrite Hbi. cbn [rbind].
    split; [|right; rewrite ?app_nil_r; eauto 6]. intros h' Hh' [v Hv].
    destruct (sorted_last _ _ (packUint h', v) (kv_list_sorted (db_cf d cfHeight)) El) as [E|E]; [by apply Hin| |].
    + apply (f_equal fst) in E. cbn [fst] in E. apply packUint_inj in E; [lia|done|done].
    + unfold key_lt in E. change (bytes_compare (packUint h') (packUint h) = Lt) in E.
      rewrite packUint_compare in E by done. change (h' < h) in E. lia.
  - apply last_None in El. assert (forall k, kv_get (db_cf d cfHeight) k = None) as Hnone.
    { intros k. destruct (kv_get (db_cf d cfHeight) k) as [v|] eqn:Ek; [|done].
      apply Hin in Ek. rewrite El in Ek. by apply not_elem_of_nil in Ek. }
    split; [|by left]. intros h' _ [v Hv]. by rewrite Hnone in Hv.
Qed.

(** The best block is the highest one. [GetBestBlock] takes the last key of the column of
    heights; on a column of block rows this is the greatest height, with the hash of its row,
    and an empty column gives height 0 and no hash. *)
Theorem best_block_highest (d : DB K) :
  height_rows d ->
  match GetBestBlock d with
  | Ok (h, hash) =>
      (forall h', is_u32 h' -> is_Some (kv_get (db_cf d cfHeight) (packUint h')) -> h' <= h) /\
      ((h = 0 /\ hash = [] /\ forall k, kv_get (db_cf d cfHeight) k = None) \/
       exists v bi, kv_get (db_cf d cfHeight) (packUint h) = Some v /\
                    unpackBlockInfo v = Ok (Some bi) /\ hash = bi_Hash bi)
  | _ => False
  end.
Proof.
  intros Hrows. pose proof (GetBestBlock_spec d Hrows) as H. destruct (GetBestBlock d) as [[h hash]| |]; [|done|done].
  destruct H as [H1 [H2|(v & bi & _ & H2)]]; eauto 6.
Qed.
End BestBlock.

Module StoreExample.

#[local] Existing Instance RefVlq.vlq.
#[local] Existing Instance MapKV.map_kv.
#[local] Existing Instance MapKV.map_kv_laws.
#[local] Instance parser : ChainParser :=
  base_parser (fun _ => Err ErrAddressMissing) (fun _ => true) 100 false.

Definition rowOf (h : Z) : bytes :=
  match packBlockInfo (mkBlockInfo (replicate 64 (if h =? 7 then x61 else x62)) 1600000000 1 200 h) with
  | Ok p => p | _ => [] end.

Definition heights : DB MapKV.map_kv :=
  mkDB MapKV.map_kv
    (fun cf => if decide (cf = cfHeight) then <[packUint 7 := rowOf 7]> {[packUint 300 := rowOf 300]} else ∅)
    (fun _ _ => false) false.

Lemma best_block_highest_witness :
  GetBestBlock heights = Ok (300, replicate 64 x62) /\
  (forall h', is_u32 h' -> is_Some (kv_get (db_cf heights cfHeight) (packUint h')) -> h' <= 300).
Proof.
  assert (GetBestBlock heights = Ok (300, replicate 64 x62)) as Hb by (vm_compute; reflexivity).
  split; [exact Hb|].
  assert (height_rows heights) as Hrows.
  { intros k v Hk. change ((<[packUint 7 := rowOf 7]> {[packUint 300 := rowOf 300]} : gmap bytes bytes) !! k = Some v) in Hk.
    apply lookup_insert_Some in Hk as [[<- <-]|[_ Hk]].
    - exists 7. eexists. split; [unfold is_u32; lia|]. split; [reflexivity|]. vm_compute. reflexivity.
    - apply lookup_singleton_Some in Hk as [<- <-].
      exists 300. eexists. split; [unfold is_u32; lia|]. split; [reflexivity|]. vm_compute. reflexivity. }
  pose proof (best_block_highest heights Hrows) as H. rewrite Hb in H. exact (proj1 H).
Defined.

End StoreExample.
