(* ===== verification/Scan.v ===== *)
(** The address history: [GetAddrDescTransactions] walks the column [addresses] from the
    key of the highest wanted block and hands the transactions of the address to a
    callback, newest block first. The column mixes the rows of all descriptors, so rows
    of longer descriptors may lie between those of the address; they are skipped, and
    too many of them are an error.

    The theorems: the callback sees exactly the transactions of the blocks in the range
    ([scan_complete]), and a scan that gives up reports it ([scan_exhausted]). *)

From S2P Require Import Prelude Codec Parser TxAddr Balance IndexCodec Store.

Local Open Scope Z_scope.

Definition maxAddrDescScanNonMatching : Z := 1000.

Definition before (a b : bytes) : bool :=
  match bytes_compare a b with Lt => true | _ => false end.

(** [it.Seek(key)]: the rest of the column from the first key that is not smaller. *)
Fixpoint seek (key : bytes) (l : list (bytes * bytes)) : list (bytes * bytes) :=
  match l with
  | [] => []
  | e :: r => if before e.1 key then seek key r else l
  end.

Section Scan.
Context {V : Vlq} {P : ChainParser} {K : KV}.

(** The callback of the caller: it updates the caller's state, or fails; the error
    [StopIteration] ends the walk without an error. *)
Context {A : Type} (fn : bytes -> Z -> list Z -> A -> A * option goerror).

(** What a loop does next: go on ([Ok false]), return nil ([Ok true]) or fail. *)
Definition callback (tx : bytes) (height : Z) (indexes : list Z) (s : A) : A * result bool :=
  match fn tx height indexes s with
  | (s, None) => (s, Ok false)
  | (s, Some ErrStop) => (s, Ok true)
  | (s, Some e) => (s, Err e)
  end.

(** Go on with [k] unless the walk ended. *)
Definition andThen (r : A * result bool) (k : A -> A * result bool) : A * result bool :=
  match r with
  | (s, Ok false) => k s
  | r => r
  end.

(** [for len(val) > txidUnpackedLen { ... }] *)
Fixpoint scanVal (fuel : nat) (val : bytes) (height : Z) (s : A) : A * result bool :=
  match fuel with
  | O => (s, Panic)
  | S f =>
      if PackedTxidLen <? zlen val then
        match (let! b := slice val 0 PackedTxidLen in
               let! tx := UnpackTxid b in
               let! val := slice_from val PackedTxidLen in
               let! '(indexes, val) := unpackIndexes true (S (length val)) val [] in
               Ok (tx, indexes, val)) with
        | Ok (tx, indexes, val) =>
            andThen (callback tx height indexes s) (fun s => scanVal f val height s)
        | Err e => (s, Err e)
        | Panic => (s, Panic)
        end
      else (s, Ok false)
  end.

Fixpoint scanRows (addrDescLen : Z) (stopKey : bytes) (rows : list (bytes * bytes))
    (nonMatching : Z) (s : A) : A * result bool :=
  match rows with
  | [] => (s, Ok false)
  | (key, val) :: rest =>
      if before stopKey key then (s, Ok false)
      else if negb (zlen key =? addrDescLen + packedHeightBytes) then
        let nonMatching := nonMatching + 1 in
        if maxAddrDescScanNonMatching <? nonMatching
        then (s, Err (ErrMsg "address transaction scan limit exceeded"))
        else scanRows addrDescLen stopKey rest nonMatching s
      else
        match unpackAddressKey key with
        | Ok (_, height) =>
            andThen (scanVal (S (length val)) val height s)
              (fun s => scanRows addrDescLen stopKey rest nonMatching s)
        | Err e => (s, Err e)
        | Panic => (s, Panic)
        end
  end.

Definition GetAddrDescTransactions (d : DB K) (addrDesc : bytes) (lower higher : Z) (s : A)
    : A * result unit :=
  let startKey := packAddressKey addrDesc higher in
  let stopKey := packAddressKey addrDesc lower in
  let '(s, r) := scanRows (zlen addrDesc) stopKey (seek startKey (kv_list (db_cf d cfAddresses))) 0 s in
  (s, let! _ := r in Ok tt).
End Scan.

(** What every call of the callback keeps, the scan keeps. *)
Section ScanInvariant.
Context {V : Vlq} {P : ChainParser} {K : KV} {A : Type}.
Context (fn : bytes -> Z -> list Z -> A -> A * option goerror) (Q : A -> Prop).
Context (Hfn : forall tx h ixs s, Q s -> Q (fn tx h ixs s).1).

Lemma andThen_inv r k : Q r.1 -> (forall s, Q s -> Q (k s).1) -> Q (andThen r k).1.
Proof. destruct r as [s [[|]| |]]; cbn; auto. Qed.

Lemma callback_inv tx h ixs s : Q s -> Q (callback fn tx h ixs s).1.
Proof.
  intros Hs. specialize (Hfn tx h ixs s Hs). unfold callback.
  destruct (fn tx h ixs s) as [s' [[]|]]; exact Hfn.
Qed.

Lemma scanVal_inv fuel val h s : Q s -> Q (scanVal fn fuel val h s).1.
Proof.
  revert val s. induction fuel as [|fuel IH]; intros val s Hs; cbn [scanVal]; [done|].
  case_match; [|done]. repeat (case_match; try done).
  apply andThen_inv; [by apply callback_inv|]. auto.
Qed.

Lemma GetAddrDescTransactions_inv (d : DB K) a lower higher s :
  Q s -> Q (GetAddrDescTransactions fn d a lower higher s).1.
Proof.
  unfold GetAddrDescTransactions. generalize (seek (packAddressKey a higher) (kv_list (db_cf d cfAddresses))) 0.
  intros rows n Hs. enough (Q (scanRows fn (zlen a) (packAddressKey a lower) rows n s).1) as H
    by by destruct (scanRows _ _ _ _ _ _).
  revert n s Hs. induction rows as [|[k v] rows IH]; intros n s Hs; cbn [scanRows]; [done|].
  repeat (case_match; try done; auto). apply andThen_inv; [by apply scanVal_inv|]. auto.
Qed.
End ScanInvariant.

(** ** Keys between two keys of the address *)

Lemma before_antisym a b : before a b = true -> before b a = false.
Proof. unfold before. rewrite (bytes_compare_antisym a b). by destruct (bytes_compare a b). Qed.

(** A key between two extensions of a prefix extends the prefix. *)
Lemma sandwich p x y k :
  before k (p ++ x) = false -> before (p ++ y) k = false -> exists z, k = p ++ z.
Proof.
  unfold before. revert k. induction p as [|c p IH]; intros k; [by exists k|].
  destruct k as [|c' k]; cbn; [done|].
  rewrite (Z.compare_antisym (b2z c) (b2z c')).
  destruct (Z.compare_spec (b2z c) (b2z c')) as [->%b2z_inj| |]; cbn; try done.
  intros H1 H2. destruct (IH k H1 H2) as [z ->]. by exists z.
Qed.

Definition inRange (start stop : bytes) (e : bytes * bytes) : bool :=
  negb (before e.1 start) && negb (before stop e.1).

(** A key of the address's length in the range of the scan is the key of one of its
    blocks in the range. *)
Lemma matching_key a lower higher k :
  is_u32 lower -> is_u32 higher ->
  before k (packAddressKey a higher) = false -> before (packAddressKey a lower) k = false ->
  zlen k = zlen a + packedHeightBytes ->
  exists h, is_u32 h /\ lower <= h <= higher /\ k = packAddressKey a h.
Proof.
  intros Hl Hh H1 H2 Hz. destruct (sandwich _ _ _ _ H1 H2) as [z ->].
  assert (zlen z = 4) as H4 by (unfold packedHeightBytes in Hz; zlen_lia).
  pose proof (be_get_range z) as Hr. rewrite H4 in Hr.
  set (h := not32 (be_get z)). assert (is_u32 (be_get z)) as Hu by (unfold is_u32; lia).
  assert (a ++ z = packAddressKey a h) as E.
  { unfold packAddressKey, h. rewrite not32_involutive by done.
    rewrite <- (be_put_get z) at 1. f_equal. f_equal. unfold zlen in H4. lia. }
  assert (is_u32 h) as Hih by by apply not32_range.
  exists h. split; [done|]. split; [|done].
  rewrite E in H1, H2. unfold before in H1, H2.
  rewrite packAddressKey_compare in H1, H2 by done.
  destruct (Z.compare_spec higher h), (Z.compare_spec h lower); try discriminate; lia.
Qed.

Lemma inRange_key a lower higher h v :
  is_u32 lower -> is_u32 higher -> is_u32 h ->
  inRange (packAddressKey a higher) (packAddressKey a lower) (packAddressKey a h, v) = true <->
  lower <= h <= higher.
Proof.
  intros Hl Hh Hi. unfold inRange, before. cbn [fst].
  rewrite !packAddressKey_compare by done.
  destruct (Z.compare_spec higher h), (Z.compare_spec h lower); cbn; split; intros; try done; lia.
Qed.

Section ScanCorrect.
Context {V : Vlq} {VL : VlqLaws V} {P : ChainParser} {K : KV} {KL : KVLaws K}.
Context {A : Type} (fn : bytes -> Z -> list Z -> A -> A * option goerror).

(** ** What the callback should see *)

(** Calls of the callback in order, until one ends the walk. *)
Fixpoint runEvents (evs : list (bytes * Z * list Z)) (s : A) : A * result bool :=
  match evs with
  | [] => (s, Ok false)
  | (tx, h, ixs) :: r => andThen (callback fn tx h ixs s) (runEvents r)
  end.

Lemma andThen_assoc r (k1 k2 : A -> A * result bool) :
  andThen (andThen r k1) k2 = andThen r (fun s => andThen (k1 s) k2).
Proof. by destruct r as [s [[|]|e|]]. Qed.

Lemma runEvents_app e1 e2 s :
  runEvents (e1 ++ e2) s = andThen (runEvents e1 s) (runEvents e2).
Proof.
  revert s. induction e1 as [|[[tx h] ixs] e1 IH]; intros s; cbn; [done|].
  rewrite andThen_assoc. destruct (callback fn tx h ixs s) as [s' [[|]|e|]]; cbn; auto.
Qed.

(** The events of one row, the last transaction of the block first. *)
Definition rowEvents (h : Z) (ts : list txIndexes) : list (bytes * Z * list Z) :=
  map (fun t => (okOrEmpty (UnpackTxid (txi_btxID t)), h, txi_indexes t)) (rev ts).

Definition row_ok (ts : list txIndexes) : Prop :=
  Forall txIndexes_ok ts /\ Forall (fun t => exists x, UnpackTxid (txi_btxID t) = Ok x) ts.

(** ** One row *)

Lemma scanVal_concat h ts :
  0 <= PackedTxidLen -> row_ok ts ->
  forall fuel s, (length ts < fuel)%nat ->
  scanVal fn fuel (concat (map encTxIndexes ts)) h s =
  runEvents (map (fun t => (okOrEmpty (UnpackTxid (txi_btxID t)), h, txi_indexes t)) ts) s.
Proof.
  intros HP [Hts Hux]. induction ts as [|t ts IH]; intros fuel s Hf;
    (destruct fuel as [|fuel]; [cbn in Hf; lia|]).
  - cbn [map concat scanVal]. rewrite zlen_nil. by destruct (Z.ltb_spec PackedTxidLen 0); [lia|].
  - apply Forall_cons in Hts as [Ht Hts], Hux as [[x Hx] Hux].
    specialize (IH Hts Hux fuel). cbn [map concat runEvents scanVal].
    revert IH. generalize (concat (map encTxIndexes ts)). intros rest IH. pose proof (zlen_encTxIndexes t Ht) as Hz. destruct Ht as (Hl & Hne & Hi).
    assert (1 <= zlen (txi_indexes t)) by (destruct (txi_indexes t); [done|]; unfold zlen; cbn; lia).
    destruct (Z.ltb_spec PackedTxidLen (zlen (encTxIndexes t ++ rest)));
      [|zlen_lia].
    unfold encTxIndexes. rewrite <- !app_assoc, <- Hl, slice_0_app by done.
    cbn [rbind]. rewrite Hx. cbn [rbind].
    rewrite slice_from_app by done. cbn [rbind].
    rewrite unpackIndexes_pack; [|done|done|].
    + cbn [rbind okOrEmpty app]. destruct (callback fn x h (txi_indexes t) s) as [s' [[|]|e|]];
        cbn [andThen]; try done. apply IH. cbn in Hf. lia.
    + pose proof (packIndexes_length _ Hi) as Hp. rewrite length_app. unfold zlen in Hp. lia.
Qed.

Lemma scanVal_row h ts s :
  0 <= PackedTxidLen -> row_ok ts ->
  scanVal fn (S (length (packTxIndexes ts))) (packTxIndexes ts) h s = runEvents (rowEvents h ts) s.
Proof.
  intros HP [H1 H2].
  assert (row_ok (rev ts)) as Hr by (split; by apply Forall_rev).
  apply scanVal_concat; [done..|]. pose proof (length_concat_encTxIndexes _ HP (proj1 Hr)).
  unfold packTxIndexes, zlen, encTxIndexes in *. lia.
Qed.

(** ** The walk over the column *)

Lemma before_trans a b c : before a b = true -> before b c = true -> before a c = true.
Proof.
  unfold before. intros H1 H2.
  destruct (bytes_compare a b) eqn:E1; try done. destruct (bytes_compare b c) eqn:E2; try done.
  by rewrite (bytes_compare_trans _ _ _ E1 E2).
Qed.

Lemma key_lt_before e e' : key_lt e e' -> before e.1 e'.1 = true.
Proof. unfold key_lt, before. by intros ->. Qed.

Lemma not_before_trans start k k' : before k start = false -> before k k' = true -> before k' start = false.
Proof.
  intros H1 H2. destruct (before k' start) eqn:E; [|done].
  by rewrite (before_trans _ _ _ H2 E) in H1.
Qed.

Lemma filterb_none {B} (f : B -> bool) l : Forall (fun e => f e = false) l -> List.filter f l = [].
Proof. induction 1 as [|e l He _ IH]; cbn; [done|]. by rewrite He. Qed.

(** The break at the stop key leaves out only rows after it. *)
Lemma scanRows_range start stop len l :
  StronglySorted key_lt l -> Forall (fun e => before e.1 start = false) l -> forall n s,
  scanRows fn len stop l n s = scanRows fn len stop (List.filter (inRange start stop) l) n s.
Proof.
  induction 1 as [|[k v] l Hs IH Hf]; intros Hb n s; [done|].
  apply Forall_cons in Hb as [Hk Hb]. cbn [fst] in Hk. cbn [List.filter]. unfold inRange at 1. cbn [fst].
  rewrite Hk. cbn [negb andb]. destruct (before stop k) eqn:E; cbn [negb scanRows]; rewrite E.
  - rewrite filterb_none; [done|]. apply Forall_forall. intros e He.
    rewrite Forall_forall in Hf. pose proof (key_lt_before _ _ (Hf e He)) as Hlt. cbn [fst] in Hlt.
    unfold inRange. rewrite (before_trans _ _ _ E Hlt). apply andb_false_r.
  - specialize (IH Hb). case_match; [case_match; [done|apply IH]|].
    destruct (unpackAddressKey k) as [[? h]|e|]; try done.
    destruct (scanVal fn (S (length v)) v h s) as [s' [[|]|e|]]; cbn [andThen]; auto.
Qed.

Lemma seek_spec start stop l :
  StronglySorted key_lt l ->
  StronglySorted key_lt (seek start l) /\ Forall (fun e => before e.1 start = false) (seek start l) /\
  List.filter (inRange start stop) (seek start l) = List.filter (inRange start stop) l.
Proof.
  induction 1 as [|e l Hs IH Hf]; [cbn; repeat constructor|]. cbn [seek].
  destruct (before e.1 start) eqn:E.
  - destruct IH as (H1 & H2 & H3). split; [done|]. split; [done|]. cbn [List.filter].
    unfold inRange at 2. rewrite E. cbn. done.
  - split; [by constructor|]. split; [|done]. constructor; [done|].
    eapply Forall_impl; [exact Hf|]. intros e' He'.
    eapply not_before_trans; [exact E|]. by apply key_lt_before.
Qed.

Lemma seek_range start stop len l n s :
  StronglySorted key_lt l ->
  scanRows fn len stop (seek start l) n s =
  scanRows fn len stop (List.filter (inRange start stop) l) n s.
Proof.
  intros Hs. destruct (seek_spec start stop l Hs) as (H1 & H2 & H3).
  rewrite (scanRows_range start) by done. by rewrite H3.
Qed.

(** ** The rows of the address *)

Definition foreign (a : bytes) (e : bytes * bytes) : bool :=
  negb (zlen e.1 =? zlen a + packedHeightBytes).

(** Rows in the range, the address's own ones given by the heights [hs]. *)
Inductive rows_of (a : bytes) (txs : Z -> list txIndexes) : list (bytes * bytes) -> list Z -> Prop :=
| rows_nil : rows_of a txs [] []
| rows_foreign e l hs : foreign a e = true -> rows_of a txs l hs -> rows_of a txs (e :: l) hs
| rows_own h l hs :
    is_u32 h -> rows_of a txs l hs ->
    rows_of a txs ((packAddressKey a h, packTxIndexes (txs h)) :: l) (h :: hs).

Definition historyOf (txs : Z -> list txIndexes) (hs : list Z) : list (bytes * Z * list Z) :=
  concat (map (fun h => rowEvents h (txs h)) hs).

Lemma scanRows_own a h stop l n s ts :
  a <> [] -> is_u32 h -> 0 <= PackedTxidLen -> row_ok ts ->
  before stop (packAddressKey a h) = false ->
  scanRows fn (zlen a) stop ((packAddressKey a h, packTxIndexes ts) :: l) n s =
  andThen (runEvents (rowEvents h ts) s) (scanRows fn (zlen a) stop l n).
Proof.
  intros Ha Hh HP Hok Hb. cbn [scanRows]. rewrite Hb, zlen_packAddressKey, Z.eqb_refl. cbn [negb].
  by rewrite unpackAddressKey_pack, scanVal_row by done.
Qed.

Lemma scanRows_history a txs stop l hs :
  a <> [] -> 0 <= PackedTxidLen -> (forall h, h ∈ hs -> row_ok (txs h)) ->
  rows_of a txs l hs -> Forall (fun e => before stop e.1 = false) l ->
  forall n s, n + zlen (List.filter (foreign a) l) <= maxAddrDescScanNonMatching ->
  scanRows fn (zlen a) stop l n s = runEvents (historyOf txs hs) s.
Proof.
  intros Ha HP Hok Hrows. induction Hrows as [|[k v] l hs Hf Hr IH|h l hs Hh Hr IH];
    intros Hb n s Hn; [done| |]; apply Forall_cons in Hb as [Hk Hb]; cbn [fst] in Hk.
  - cbn [List.filter] in Hn. rewrite Hf in Hn. unfold foreign in Hf. cbn [fst] in Hf.
    cbn [scanRows]. rewrite Hk, Hf.
    rewrite zlen_cons in Hn. pose proof (zlen_nonneg (List.filter (foreign a) l)).
    destruct (Z.ltb_spec maxAddrDescScanNonMatching (n + 1)); [lia|]. apply IH; [done|done|lia].
  - rewrite scanRows_own; [|done|done|done|apply Hok; left|done].
    unfold historyOf. cbn [map concat]. rewrite runEvents_app.
    assert (foreign a (packAddressKey a h, packTxIndexes (txs h)) = false) as Hf.
    { unfold foreign. cbn [fst]. by rewrite zlen_packAddressKey, Z.eqb_refl. }
    cbn [List.filter] in Hn. rewrite Hf in Hn.
    destruct (runEvents (rowEvents h (txs h)) s) as [s' [[|]|e|]]; cbn [andThen]; try done.
    apply IH; [|done|done]. intros h' Hh'. apply Hok. by right.
Qed.

(** More than the allowed number of foreign rows: the walk fails. *)
Lemma scanRows_exhausted a txs stop l hs :
  a <> [] -> 0 <= PackedTxidLen -> (forall h, h ∈ hs -> row_ok (txs h)) ->
  rows_of a txs l hs -> Forall (fun e => before stop e.1 = false) l ->
  forall n s s', runEvents (historyOf txs hs) s = (s', Ok false) ->
  n <= maxAddrDescScanNonMatching < n + zlen (List.filter (foreign a) l) ->
  exists e, snd (scanRows fn (zlen a) stop l n s) = Err e.
Proof.
  intros Ha HP Hok Hrows. induction Hrows as [|[k v] l hs Hf Hr IH|h l hs Hh Hr IH];
    intros Hb n s s' He Hn; [unfold zlen in Hn; cbn in Hn; lia| |];
    apply Forall_cons in Hb as [Hk Hb]; cbn [fst] in Hk.
  - cbn [List.filter] in Hn. rewrite Hf, zlen_cons in Hn. unfold foreign in Hf. cbn [fst] in Hf.
    cbn [scanRows]. rewrite Hk, Hf.
    destruct (Z.ltb_spec maxAddrDescScanNonMatching (n + 1)); [by eexists|].
    eapply IH; [done|done|exact He|lia].
  - rewrite scanRows_own; [|done|done|done|apply Hok; left|done].
    unfold historyOf in He. cbn [map concat] in He. rewrite runEvents_app in He.
    assert (foreign a (packAddressKey a h, packTxIndexes (txs h)) = false) as Hf.
    { unfold foreign. cbn [fst]. by rewrite zlen_packAddressKey, Z.eqb_refl. }
    cbn [List.filter] in Hn. rewrite Hf in Hn.
    destruct (runEvents (rowEvents h (txs h)) s) as [s1 [[|]|e|]]; cbn [andThen] in *; try done.
    eapply IH; [|done|exact He|done]. intros h' Hh'. apply Hok. by right.
Qed.

Lemma rows_exist a lower higher txs l :
  is_u32 lower -> is_u32 higher -> StronglySorted key_lt l ->
  Forall (fun e => inRange (packAddressKey a higher) (packAddressKey a lower) e = true) l ->
  (forall h v, is_u32 h -> (packAddressKey a h, v) ∈ l -> v = packTxIndexes (txs h)) ->
  exists hs, rows_of a txs l hs /\ StronglySorted Z.gt hs /\
    forall h, h ∈ hs <-> is_u32 h /\ exists v, (packAddressKey a h, v) ∈ l.
Proof.
  intros Hl Hh. induction 1 as [|[k v] l Hs IH Hf]; intros Hr Hv.
  { exists []. split; [constructor|]. split; [constructor|]. intros h. split.
    - by intros ?%not_elem_of_nil.
    - by intros (_ & v & ?%not_elem_of_nil). }
  apply Forall_cons in Hr as [Hk Hr].
  destruct IH as (hs & H1 & H2 & H3); [done| |].
  { intros h v' Hi Hin. apply Hv; [done|]. by right. }
  destruct (foreign a (k, v)) eqn:Ef.
  - exists hs. split; [by constructor|]. split; [done|]. intros h. rewrite H3.
    split; intros (Hi & v' & Hin); (split; [done|]); exists v'; [by right|].
    apply elem_of_cons in Hin as [[= <- <-]|]; [|done].
    unfold foreign in Ef. cbn [fst] in Ef. by rewrite zlen_packAddressKey, Z.eqb_refl in Ef.
  - unfold inRange in Hk. cbn [fst] in Hk. apply andb_true_iff in Hk as [Hk1 Hk2].
    apply negb_true_iff in Hk1, Hk2. unfold foreign in Ef. cbn [fst] in Ef.
    apply negb_false_iff, Z.eqb_eq in Ef.
    destruct (matching_key a lower higher k Hl Hh Hk1 Hk2 Ef) as (h0 & Hi0 & _ & ->).
    rewrite (Hv h0 v Hi0 ltac:(left)). exists (h0 :: hs). split; [by constructor|]. split.
    + constructor; [done|]. apply Forall_forall. intros h' Hin. apply H3 in Hin as (Hi & v' & Hin).
      rewrite Forall_forall in Hf. specialize (Hf _ Hin). unfold key_lt in Hf. cbn [fst] in Hf.
      rewrite packAddressKey_compare in Hf by done. apply Z.compare_lt_iff in Hf. by apply Z.lt_gt.
    + intros h. rewrite elem_of_cons, H3. split.
      * intros [->|(Hi & v' & Hin)]; (split; [done|]); eexists; [left|by right].
      * intros (Hi & v' & Hin). apply elem_of_cons in Hin as [[= E _]|]; [|right; eauto].
        left. by apply (packAddressKey_inj a).
Qed.

(** ** The history of an address *)

(** The rows of the address, given by what each block holds for it. *)
Definition history_rows (d : DB K) (a : bytes) (txs : Z -> list txIndexes) : Prop :=
  forall h v, is_u32 h -> kv_get (db_cf d cfAddresses) (packAddressKey a h) = Some v ->
  v = packTxIndexes (txs h) /\ row_ok (txs h).

Definition rangeRows (d : DB K) (a : bytes) (lower higher : Z) : list (bytes * bytes) :=
  List.filter (inRange (packAddressKey a higher) (packAddressKey a lower))
    (kv_list (db_cf d cfAddresses)).

Lemma StronglySorted_filter {B} (R : B -> B -> Prop) (f : B -> bool) l :
  StronglySorted R l -> StronglySorted R (List.filter f l).
Proof.
  induction 1 as [|e l Hs IH Hf]; cbn; [constructor|]. destruct (f e); [|done].
  constructor; [done|]. rewrite Forall_forall in Hf |- *. intros x Hx. apply Hf.
  apply list_elem_of_In in Hx. apply list_elem_of_In. by apply List.filter_In in Hx as [Hx _].
Qed.

Lemma history_exists (d : DB K) a lower higher txs :
  a <> [] -> is_u32 lower -> is_u32 higher -> history_rows d a txs ->
  exists hs, StronglySorted Z.gt hs /\
    (forall h, h ∈ hs <-> is_u32 h /\ lower <= h <= higher /\
                        is_Some (kv_get (db_cf d cfAddresses) (packAddressKey a h))) /\
    rows_of a txs (rangeRows d a lower higher) hs /\
    (forall h, h ∈ hs -> row_ok (txs h)).
Proof.
  intros Ha Hl Hh Hrows.
  assert (forall e, e ∈ rangeRows d a lower higher <->
            kv_get (db_cf d cfAddresses) e.1 = Some e.2 /\
            inRange (packAddressKey a higher) (packAddressKey a lower) e = true) as Hin.
  { intros [k v]. unfold rangeRows. rewrite list_elem_of_In, List.filter_In, <- list_elem_of_In.
    by rewrite kv_list_get. }
  destruct (rows_exist a lower higher txs (rangeRows d a lower higher) Hl Hh) as (hs & H1 & H2 & H3).
  - apply StronglySorted_filter, kv_list_sorted.
  - apply Forall_forall. intros e He. by apply Hin in He as [_ He].
  - intros h v Hi He. apply Hin in He as [He _]. cbn [fst snd] in He. by apply Hrows in He as [-> _].
  - exists hs. split; [done|].
    assert (forall h, h ∈ hs <-> is_u32 h /\ lower <= h <= higher /\
                        is_Some (kv_get (db_cf d cfAddresses) (packAddressKey a h))) as Hiff.
    { intros h. rewrite H3. split.
      - intros (Hi & v & [Hg Hr]%Hin). split; [done|]. split; [by eapply inRange_key|]. by exists v.
      - intros (Hi & Hr & v & Hv). split; [done|]. exists v. apply Hin. split; [done|].
        by apply inRange_key. }
    split; [done|]. split; [done|]. intros h (Hi & _ & v & Hv)%Hiff. by apply Hrows in Hv as [_ ?].
Qed.

Lemma rangeRows_stop (d : DB K) a lower higher :
  Forall (fun e => before (packAddressKey a lower) e.1 = false) (rangeRows d a lower higher).
Proof.
  apply Forall_forall. intros e He. apply list_elem_of_In, List.filter_In in He as [_ He].
  unfold inRange in He. apply andb_true_iff in He as [_ He]. by apply negb_true_iff in He.
Qed.
End ScanCorrect.

(** ** Properties *)

Section ScanProperties.
  Context {V : Vlq} {VL : VlqLaws V} {P : ChainParser} {K : KV} {KL : KVLaws K}.
  Context {A : Type} (fn : bytes -> Z -> list Z -> A -> A * option goerror).

(** The walk over the rows of an address. *)
Lemma scan_runs (d : DB K) (a : bytes) (lower higher : Z) (txs : Z -> list txIndexes) (s : A) :
  a <> [] -> is_u32 lower -> is_u32 higher -> 0 <= PackedTxidLen ->
  history_rows d a txs ->
  zlen (List.filter (foreign a) (rangeRows d a lower higher)) <= maxAddrDescScanNonMatching ->
  exists hs,
    StronglySorted Z.gt hs /\
    (forall h, h ∈ hs <-> is_u32 h /\ lower <= h <= higher /\
                        is_Some (kv_get (db_cf d cfAddresses) (packAddressKey a h))) /\
    GetAddrDescTransactions fn d a lower higher s =
      (let '(s', r) := runEvents fn (historyOf txs hs) s in (s', let! _ := r in Ok tt)).
Proof.
  intros Ha Hl Hh HP Hrows Hn.
  destruct (history_exists d a lower higher txs Ha Hl Hh Hrows) as (hs & H1 & H2 & H3 & H4).
  exists hs. split; [done|]. split; [done|]. unfold GetAddrDescTransactions.
  rewrite seek_range by apply kv_list_sorted.
  by rewrite (scanRows_history fn a txs _ _ hs Ha HP H4 H3 (rangeRows_stop d a lower higher)).
Qed.

(** C11: the history of an address is complete and ordered. For a range of heights, the
    callback of [GetAddrDescTransactions] is called exactly with the transactions stored
    for the address in the blocks of the range, from the newest block to the oldest (within
    a block from the last transaction to the first), until it ends the walk; rows of other
    descriptors that share the prefix are skipped as long as there are at most 1000. *)
Theorem scan_complete (d : DB K) (a : bytes) (lower higher : Z) (txs : Z -> list txIndexes) (s : A) :
  a <> [] -> is_u32 lower -> is_u32 higher -> 0 <= PackedTxidLen ->
  history_rows d a txs ->
  zlen (List.filter (foreign a) (rangeRows d a lower higher)) <= maxAddrDescScanNonMatching ->
  exists hs,
    StronglySorted Z.gt hs /\
    (forall h, h ∈ hs <-> is_u32 h /\ lower <= h <= higher /\
                        is_Some (kv_get (db_cf d cfAddresses) (packAddressKey a h))) /\
    GetAddrDescTransactions fn d a lower higher s =
      (let '(s', r) := runEvents fn (historyOf txs hs) s in (s', let! _ := r in Ok tt)).
Proof. apply scan_runs. Qed.

(** A scan that gives up says so. When more than 1000 rows of other descriptors lie in
    the range and the callback itself never ends the walk, [GetAddrDescTransactions] returns
    an error: a partial history is never reported as a complete one. *)
Theorem scan_exhausted (d : DB K) (a : bytes) (lower higher : Z) (txs : Z -> list txIndexes)
    (s : A) :
  a <> [] -> is_u32 lower -> is_u32 higher -> 0 <= PackedTxidLen ->
  history_rows d a txs ->
  (forall tx h ixs s, snd (fn tx h ixs s) = None) ->
  maxAddrDescScanNonMatching < zlen (List.filter (foreign a) (rangeRows d a lower higher)) ->
  exists e, snd (GetAddrDescTransactions fn d a lower higher s) = Err e.
Proof.
  intros Ha Hl Hh HP Hrows Hfn Hn.
  destruct (history_exists d a lower higher txs Ha Hl Hh Hrows) as (hs & _ & _ & H3 & H4).
  assert (exists s', runEvents fn (historyOf txs hs) s = (s', Ok false)) as [s' Hs'].
  { clear -Hfn. revert s. induction (historyOf txs hs) as [|[[tx h] ixs] evs IH]; intros s; cbn; [eauto|].
    unfold callback. specialize (Hfn tx h ixs s). destruct (fn tx h ixs s) as [s1 o]. cbn in Hfn.
    subst o. cbn. apply IH. }
  unfold GetAddrDescTransactions. rewrite seek_range by apply kv_list_sorted.
  assert (0 <= maxAddrDescScanNonMatching) by (unfold maxAddrDescScanNonMatching; lia).
  destruct (scanRows_exhausted fn a txs _ _ hs Ha HP H4 H3 (rangeRows_stop d a lower higher) 0 s s' Hs')
    as [e He]; [lia|].
  destruct (scanRows fn (zlen a) _ _ 0 s) as [s2 r]. cbn in He. subst r. cbn. eauto.
Qed.
End ScanProperties.

(** ** Examples *)

Module ScanExample.

#[local] Existing Instance RefVlq.vlq.
#[local] Existing Instance RefVlq.vlq_laws.
#[local] Existing Instance MapKV.map_kv.
#[local] Existing Instance MapKV.map_kv_laws.
#[local] Instance parser : ChainParser :=
  base_parser (fun _ => Err ErrAddressMissing) (fun _ => true) 100 false.

Definition addr : bytes := [x76; xa9].
Definition txA : txIndexes := mkTxIndexes (replicate 32 x11) [0; 2; -1].
Definition txB : txIndexes := mkTxIndexes (replicate 32 x22) [1].
Definition txsAt (h : Z) : list txIndexes := if h =? 7 then [txA; txB] else [txA].

Definition dbOf (col : gmap bytes bytes) : DB MapKV.map_kv :=
  mkDB MapKV.map_kv (fun cf => if decide (cf = cfAddresses) then col else ∅)
    (fun _ _ => false) false.

(** Two blocks of the address and a row of a longer descriptor between them. *)
Definition column : gmap bytes bytes :=
  <[packAddressKey addr 5 := packTxIndexes (txsAt 5)]>
  (<[packAddressKey addr 7 := packTxIndexes (txsAt 7)]>
   {[packAddressKey (addr ++ [xff; xff; xff; xf9]) 6 := packTxIndexes [txB]]}).

(** Rows of more than a thousand longer descriptors, and none of the address. *)
Definition crowded : gmap bytes bytes :=
  list_to_map (map (fun i => (packAddressKey addr 5 ++ be_put 2 (Z.of_nat i), [x00])) (seq 0 1001)).

(** A callback that collects what it is given. *)
Definition collect (tx : bytes) (h : Z) (ixs : list Z) (s : list (bytes * Z * list Z))
    : list (bytes * Z * list Z) * option goerror := (s ++ [(tx, h, ixs)], None).

Lemma tx_ok t : t = txA \/ t = txB -> txIndexes_ok t /\ exists x, UnpackTxid (txi_btxID t) = Ok x.
Proof.
  intros [-> | ->]; (split; [split; [done|split; [done|]]|by eexists]);
    cbn [txi_indexes txA txB]; repeat apply Forall_cons_2; try apply Forall_nil_2; unfold index_ok; lia.
Qed.

Lemma txsAt_ok h : row_ok (txsAt h).
Proof.
  assert (Forall (fun t => t = txA \/ t = txB) (txsAt h)) as Hf
    by (unfold txsAt; destruct (h =? 7); repeat apply Forall_cons_2; auto).
  split; (eapply Forall_impl; [exact Hf|]); intros t Ht; by apply tx_ok.
Qed.

Lemma column_rows : history_rows (dbOf column) addr txsAt.
Proof.
  intros h v Hh Hv. change (column !! packAddressKey addr h = Some v) in Hv. unfold column in Hv.
  apply lookup_insert_Some in Hv as [[E <-]|[_ Hv]].
  { apply packAddressKey_inj in E as <-; [|done..]. split; [done|apply txsAt_ok]. }
  apply lookup_insert_Some in Hv as [[E <-]|[_ Hv]].
  { apply packAddressKey_inj in E as <-; [|done..]. split; [done|apply txsAt_ok]. }
  apply lookup_singleton_Some in Hv as [E _]. apply (f_equal zlen) in E.
  rewrite !zlen_packAddressKey in E. by vm_compute in E.
Qed.

Lemma scan_complete_witness :
  exists hs,
    StronglySorted Z.gt hs /\
    (forall h, h ∈ hs <-> is_u32 h /\ 1 <= h <= 9 /\
                        is_Some (kv_get (db_cf (dbOf column) cfAddresses) (packAddressKey addr h))) /\
    GetAddrDescTransactions collect (dbOf column) addr 1 9 [] =
      (let '(s', r) := runEvents collect (historyOf txsAt hs) [] in (s', let! _ := r in Ok tt)).
Proof.
  apply (scan_complete collect (dbOf column) addr 1 9 txsAt []); [done..|apply column_rows|].
  vm_compute. discriminate.
Defined.

Lemma scan_exhausted_witness :
  exists e, snd (GetAddrDescTransactions collect (dbOf crowded) addr 1 9 []) = Err e.
Proof.
  apply (scan_exhausted collect (dbOf crowded) addr 1 9 txsAt []); [done..| |done|].
  - intros h v Hh Hv. change (crowded !! packAddressKey addr h = Some v) in Hv. unfold crowded in Hv.
    apply elem_of_list_to_map_2, list_elem_of_fmap in Hv as (i & E & _).
    apply (f_equal (fun e => zlen e.1)) in E. cbn [fst] in E.
    rewrite zlen_app, !zlen_packAddressKey, zlen_be_put in E. lia.
  - vm_compute. reflexivity.
Defined.

End ScanExample.
