(* ===== verification/FixUtxos.v ===== *)
(** Repair of the unspent outputs ([db/rocksdb.go]: [FixUtxos], [fixUtxo], [reorderUtxo]):
    every balance is checked against the sum of its outputs; outputs of a transaction that are
    out of order are sorted, and outputs that do not sum up are collected anew from the
    history of the address.

    The theorems: sorting gives the same outputs with those of every transaction in order
    ([reorder_correct]); the walk over the column, which opens a new iterator from time to
    time, repairs every row once, and keeps everything but the outputs ([fix_utxos_repairs]);
    a rebuilt output has lost its asset ([FixExample.rebuilt_outputs_lose_assets]). *)

From S2P Require Import Prelude Codec Parser TxAddr Balance IndexCodec Store Scan.

Local Open Scope Z_scope.

(** ** Sorting the outputs of a transaction *)

(** [sort.SliceStable] by [Vout] *)
Fixpoint insertByVout (u : Utxo) (us : list Utxo) : list Utxo :=
  match us with
  | [] => [u]
  | x :: r => if u_Vout u <=? u_Vout x then u :: us else x :: insertByVout u r
  end.

Fixpoint sortByVout (us : list Utxo) : list Utxo :=
  match us with
  | [] => []
  | u :: us => insertByVout u (sortByVout us)
  end.

(** [for from = index; from >= 0; from-- { ... }; from++], started with [i = index + 1] *)
Fixpoint runStart (us : list Utxo) (b : bytes) (i : nat) : nat :=
  match i with
  | O => O
  | S j =>
      match us !! j with
      | Some u => if bool_decide (u_BtxID u = b) then runStart us b j else i
      | None => i
      end
  end.

(** [for to = index + 1; to < len(utxos); to++ { ... }] *)
Fixpoint runEnd (us : list Utxo) (b : bytes) (to : nat) : nat :=
  match us with
  | [] => to
  | u :: us => if bool_decide (u_BtxID u = b) then runEnd us b (S to) else to
  end.

Definition reorderUtxo (utxos : list Utxo) (index : nat) : list Utxo :=
  match utxos !! index with
  | None => utxos
  | Some u =>
      let from := runStart utxos (u_BtxID u) (S index) in
      let to := runEnd (drop (S index) utxos) (u_BtxID u) (S index) in
      take from utxos ++ sortByVout (take (to - from) (drop from utxos)) ++ drop to utxos
  end.

(** [for i := range ba.Utxos { ... }] over the [n] slots from [i] on: [utxo] and [prevUtxo]
    point to the slots [i] and [i - 1], whatever is in them. *)
Fixpoint checkLoop (n i : nat) (us : list Utxo) (checksum : Z) (reorder : bool) : list Utxo * Z * bool :=
  match n with
  | O => (us, checksum, reorder)
  | S n =>
      match us !! i with
      | None => (us, checksum, reorder)
      | Some utxo =>
          let checksum := checksum + u_ValueSat utxo in
          let descends :=
            match i with
            | O => false
            | S j =>
                match us !! j with
                | None => false
                | Some prevUtxo =>
                    (u_Vout utxo <? u_Vout prevUtxo) && sameTxid (u_BtxID utxo) (u_BtxID prevUtxo)
                end
            end in
          if descends then checkLoop n (S i) (reorderUtxo us i) checksum true
          else checkLoop n (S i) us checksum reorder
      end
  end.

Definition sumValues (us : list Utxo) : Z := foldl (fun s u => s + u_ValueSat u) 0 us.

Section FixUtxos.
Context {V : Vlq} {P : ChainParser} {IX : IndexOpts} {K : KV}.
Implicit Types d : DB K.

(** ** Collecting the outputs from the history *)

Record FixAcc := mkFixAcc { fa_checksum : Z; fa_utxos : list Utxo; fa_panic : bool }.

Section Take.
Context (d : DB K) (balance : Z).

(** [for _, index := range indexes { ... }] *)
Fixpoint takeOutputs (txid : bytes) (height : Z) (ta : option TxAddresses)
    (indexes : list Z) (s : FixAcc) : FixAcc * option goerror :=
  match indexes with
  | [] => (s, None)
  | index :: rest =>
      if index <? 0 then (s, None)
      else
        match (match ta with Some _ => Ok ta | None => GetTxAddresses d txid end) with
        | Err e => (s, Some e)
        | Panic => (mkFixAcc (fa_checksum s) (fa_utxos s) true, Some ErrStop)
        | Ok None => (s, Some (ErrMsg "DB inconsistency: tx not found in txAddresses"))
        | Ok (Some t) =>
            match ta_Outputs t !! Z.to_nat index with
            | None => takeOutputs txid height (Some t) rest s
            | Some tao =>
                if to_Spent tao then takeOutputs txid height (Some t) rest s
                else
                  let bTxid := okOrEmpty (PackTxid txid) in
                  let checksum := fa_checksum s + to_ValueSat tao in
                  let s := mkFixAcc checksum
                             (fa_utxos s ++ [mkUtxo bTxid index height (to_ValueSat tao) None]) (fa_panic s) in
                  if checksum =? balance then (s, Some ErrStop)
                  else takeOutputs txid height (Some t) rest s
            end
        end
  end.
End Take.

(** The callback: the indexes are sorted so that outputs come first, the last one first. *)
Definition fixCallback d (balance : Z) (txid : bytes) (height : Z) (indexes : list Z) (s : FixAcc)
    : FixAcc * option goerror :=
  takeOutputs d balance txid height None (merge_sort Z.ge indexes) s.

Definition rebuildUtxos d (balance : Z) (addrDesc : bytes) : FixAcc * result unit :=
  GetAddrDescTransactions (fixCallback d balance) d addrDesc 0 (2 ^ 32 - 1) (mkFixAcc 0 [] false).

(** ** One balance *)

Definition storeFixed d (addrDesc : bytes) (ba : AddrBalance) : result (DB K) :=
  WriteBatch (storeBalances [] {[ addrDesc := Some ba ]}) d.

(** The result is [(fixed, reordered, error)]; a repair is reported as an error too. *)
Definition fixUtxo d (addrDesc : bytes) (ba : AddrBalance)
    : result (DB K * (bool * bool * option goerror)) :=
  let '(us, checksum, reorder) := checkLoop (length (ab_Utxos ba)) 0 (ab_Utxos ba) 0 false in
  let checksum := if reorder then sumValues us else checksum in
  let ba := set_Utxos us (ab_utxosMap ba) ba in
  if negb (checksum =? ab_BalanceSat ba) then
    let '(acc, r) := rebuildUtxos d (ab_BalanceSat ba) addrDesc in
    if fa_panic acc then Panic
    else
      match r with
      | Panic => Panic
      | Err e => Ok (d, (false, false, Some e))
      | Ok _ =>
          if fa_checksum acc =? ab_BalanceSat ba then
            match storeFixed d addrDesc (set_Utxos (reverse (fa_utxos acc)) (ab_utxosMap ba) ba) with
            | Ok d => Ok (d, (true, false, Some (ErrMsg "balance, checksum, from txa, txs")))
            | Err _ => Ok (d, (false, false, Some (ErrMsg "error storing fixed utxos")))
            | Panic => Panic
            end
          else Ok (d, (false, false, Some (ErrMsg "balance, checksum, from txa, txs")))
      end
  else if reorder then
    match storeFixed d addrDesc ba with
    | Ok d => Ok (d, (false, true, None))
    | Err _ => Ok (d, (false, false, Some (ErrMsg "error storing reordered utxos")))
    | Panic => Panic
    end
  else Ok (d, (false, false, None)).

(** ** The walk over the column *)

Definition refreshIterator : Z := 5000000.

Record FixState := mkFixState { fx_db : DB K; fx_row : Z; fx_errors : Z; fx_fixed : Z }.

(** The body of the inner loop after [row++]. *)
Definition fixRow (key buf : bytes) (s : FixState) : result FixState :=
  let '(mkFixState d row errorsCount fixedCount) := s in
  let row := row + 1 in
  if zlen buf <? 3 then Ok (mkFixState d row (errorsCount + 1) fixedCount)
  else
    match unpackAddrBalance buf PackedTxidLen AddressBalanceDetailUTXO with
    | Err _ => Ok (mkFixState d row (errorsCount + 1) fixedCount)
    | Panic => Panic
    | Ok ba =>
        let! '(d, (fixed, reordered, err)) := fixUtxo d key ba in
        match err with
        | Some _ => Ok (mkFixState d row (errorsCount + 1) (if fixed then fixedCount + 1 else fixedCount))
        | None => Ok (mkFixState d row errorsCount (if reordered then fixedCount + 1 else fixedCount))
        end
    end.

(** [for count := 0; it.Valid() && count < refreshIterator; it.Next() { ... }]: the state, the
    last key, whether the iterator is still valid, and an error when the signal [stop] came
    before a row. *)
Fixpoint fixBatch (stop : Z -> bool) (refresh count : Z) (rows : list (bytes * bytes)) (addrDesc : bytes) (s : FixState)
    : result (FixState * bytes * bool * option goerror) :=
  match rows with
  | [] => Ok (s, addrDesc, false, None)
  | (key, buf) :: rest =>
      if negb (count <? refresh) then Ok (s, addrDesc, true, None)
      else if stop (fx_row s) then Ok (s, addrDesc, true, Some (ErrMsg "Interrupted"))
      else let! s := fixRow key buf s in fixBatch stop refresh (count + 1) rest key s
  end.

Fixpoint fixLoop (fuel : nat) (stop : Z -> bool) (refresh : Z) (seekKey : bytes) (s : FixState)
    : result (FixState * option goerror) :=
  match fuel with
  | O => Panic
  | S fuel =>
      let column := kv_list (db_cf (fx_db s) cfAddressBalance) in
      let it := if fx_row s =? 0 then column else tail (seek seekKey column) in
      let! '(s, addrDesc, valid, err) := fixBatch stop refresh 0 it [] s in
      match err with
      | Some e => Ok (s, Some e)
      | None => if valid then fixLoop fuel stop refresh addrDesc s else Ok (s, None)
      end
  end.

Definition FixUtxos (fuel : nat) (stop : Z -> bool) d : result (FixState * option goerror) :=
  if bool_decide (GetChainType <> ChainBitcoinType) then Ok (mkFixState d 0 0 0, None)
  else fixLoop fuel stop refreshIterator [] (mkFixState d 0 0 0).
End FixUtxos.

(** ** Sorting *)

(** Outputs of a transaction that are next to each other are in the order of their vouts. *)
Fixpoint inOrder (us : list Utxo) : bool :=
  match us with
  | u :: ((v :: _) as r) => negb (sameTxid (u_BtxID u) (u_BtxID v) && (u_Vout v <? u_Vout u)) && inOrder r
  | _ => true
  end.

Lemma sameTxid_iff a b : sameTxid a b = true <-> a = b.
Proof.
  unfold sameTxid. rewrite andb_true_iff, !bool_decide_eq_true. split; [tauto | intros ->; auto].
Qed.

Lemma insertByVout_perm u us : insertByVout u us ≡ₚ u :: us.
Proof.
  induction us as [|x us IH]; cbn [insertByVout]; [done |]. case_match; [done |].
  rewrite IH. apply Permutation_swap.
Qed.

Lemma sortByVout_perm us : sortByVout us ≡ₚ us.
Proof. induction us as [|u us IH]; cbn [sortByVout]; [done |]. by rewrite insertByVout_perm, IH. Qed.

Lemma insertByVout_head u x r : exists y t, insertByVout u (x :: r) = y :: t /\ (y = u \/ y = x).
Proof. cbn. case_match; eauto. Qed.

Lemma inOrder_cons u us :
  inOrder (u :: us) = true <-> inOrder us = true /\ forall v, head us = Some v -> u_BtxID u = u_BtxID v -> u_Vout u <= u_Vout v.
Proof.
  destruct us as [|v us]; [cbn; naive_solver |].
  change (inOrder (u :: v :: us))
    with (negb (sameTxid (u_BtxID u) (u_BtxID v) && (u_Vout v <? u_Vout u)) && inOrder (v :: us)).
  rewrite andb_true_iff, negb_true_iff, andb_false_iff, Z.ltb_ge.
  rewrite <- not_true_iff_false, sameTxid_iff. split.
  - intros [H1 H2]. split; [done |]. intros w [= <-]. tauto.
  - intros [H1 H2]. split; [| done]. destruct (decide (u_BtxID u = u_BtxID v)); [right; auto | tauto].
Qed.

Lemma inOrder_insert u us : inOrder us = true -> inOrder (insertByVout u us) = true.
Proof.
  induction us as [|x us IH]; [done |]. rewrite inOrder_cons. intros [H1 H2]. cbn [insertByVout].
  destruct (Z.leb_spec (u_Vout u) (u_Vout x)).
  - rewrite !inOrder_cons. split; [done |]. intros v [= <-]. lia.
  - rewrite inOrder_cons. split; [auto |]. destruct us as [|y us]; [cbn; intros v [= <-]; lia |].
    destruct (insertByVout_head u y us) as (z & t & -> & [-> | ->]); intros v [= <-]; [lia | now apply H2].
Qed.

Lemma inOrder_sort us : inOrder (sortByVout us) = true.
Proof. induction us; cbn [sortByVout]; auto using inOrder_insert. Qed.

Lemma inOrder_app a b :
  inOrder a = true -> inOrder b = true ->
  (forall x y, last a = Some x -> head b = Some y -> u_BtxID x = u_BtxID y -> u_Vout x <= u_Vout y) ->
  inOrder (a ++ b) = true.
Proof.
  induction a as [|u a IH]; [done |]. intros Ha Hb H. apply inOrder_cons in Ha as [Ha Hu].
  cbn [app]. apply inOrder_cons. destruct a as [|v a].
  - split; [done |]. intros w. apply H. done.
  - split; [apply IH; auto | exact Hu].
Qed.

Lemma inOrder_app_inv a b : inOrder (a ++ b) = true -> inOrder a = true /\ inOrder b = true.
Proof.
  induction a as [|u a IH]; [done |]. cbn [app]. rewrite inOrder_cons. intros [H1 H2].
  destruct (IH H1) as [I1 I2]. split; [| done]. apply inOrder_cons. split; [done |].
  destruct a; [done | exact H2].
Qed.

(** ** The run of a transaction *)

Lemma runStart_spec us b i : (i <= length us)%nat ->
  let f := runStart us b i in
  (f <= i)%nat
  /\ Forall (fun u => u_BtxID u = b) (take (i - f) (drop f us))
  /\ forall x, last (take f us) = Some x -> u_BtxID x <> b.
Proof.
  induction i as [|j IH]; intros Hi; cbn [runStart]; cbv zeta.
  { split; [lia |]. split; [constructor | done]. }
  destruct (lookup_lt_is_Some_2 us j ltac:(lia)) as [u Hu]. rewrite Hu.
  destruct (bool_decide_reflect (u_BtxID u = b)) as [E|E].
  - destruct (IH ltac:(lia)) as (H1 & H2 & H3). split; [lia |]. split; [| exact H3].
    replace (S j - runStart us b j)%nat with (S (j - runStart us b j)) by lia.
    erewrite take_S_r; [apply Forall_app; split; [exact H2 | by repeat constructor] |].
    rewrite lookup_drop, <- Hu. f_equal. lia.
  - split; [lia |]. replace (S j - S j)%nat with 0%nat by lia. split; [constructor |].
    intros x. rewrite (take_S_r us j u Hu), last_snoc. by intros [= <-].
Qed.

Lemma runEnd_spec us b to : exists r t, us = r ++ t /\ runEnd us b to = (to + length r)%nat
  /\ Forall (fun u => u_BtxID u = b) r /\ forall x, head t = Some x -> u_BtxID x <> b.
Proof.
  revert to. induction us as [|u us IH]; intros to; cbn [runEnd]; [exists [], []; repeat split; auto; cbn; lia |].
  destruct (bool_decide_reflect (u_BtxID u = b)) as [E|E].
  - destruct (IH (S to)) as (r & t & -> & -> & H1 & H2). exists (u :: r), t. repeat split; auto; cbn; lia.
  - exists [], (u :: us). repeat split; auto; try (cbn; lia). by intros x [= <-].
Qed.

(** The outputs around [index]: before the run, the run, after it. *)
Lemma reorderUtxo_split us i u : us !! i = Some u ->
  exists a r c, us = a ++ r ++ c /\ reorderUtxo us i = a ++ sortByVout r ++ c
  /\ Forall (fun x => u_BtxID x = u_BtxID u) r
  /\ (forall x, last a = Some x -> u_BtxID x <> u_BtxID u)
  /\ (length a <= i < length a + length r)%nat.
Proof.
  intros Hu. pose proof (lookup_lt_Some _ _ _ Hu) as Hl. unfold reorderUtxo. rewrite Hu.
  destruct (runStart_spec us (u_BtxID u) (S i) ltac:(lia)) as (F1 & F2 & F3).
  assert (Hf : (runStart us (u_BtxID u) (S i) <= i)%nat).
  { cbn [runStart]. rewrite Hu, bool_decide_eq_true_2 by done.
    apply (runStart_spec us (u_BtxID u) i). lia. }
  destruct (runEnd_spec (drop (S i) us) (u_BtxID u) (S i)) as (r & t & E & -> & R1 & _).
  set (f := runStart us (u_BtxID u) (S i)) in *. cbv zeta.
  assert (Hr : (length r <= length us - S i)%nat).
  { apply (f_equal length) in E. rewrite length_app, length_drop in E. lia. }
  assert (Ed : drop f us = (take (S i - f) (drop f us) ++ r) ++ t).
  { rewrite <- app_assoc, <- E. rewrite <- (take_drop (S i - f) (drop f us)) at 1. f_equal.
    rewrite drop_drop. f_equal. lia. }
  exists (take f us), (take (S i - f) (drop f us) ++ r), t.
  assert (Hlen : length (take (S i - f) (drop f us) ++ r) = (S i + length r - f)%nat).
  { rewrite length_app, length_take, length_drop. lia. }
  rewrite <- Ed, take_drop. split; [done |]. split; [| split; [by apply Forall_app |]].
  - f_equal. replace (drop (S i + length r) us) with t.
    + revert Ed Hlen. generalize (take (S i - f) (drop f us) ++ r). intros m -> <-. by rewrite take_app_length.
    + rewrite <- (drop_app_length' (take (S i - f) (drop f us) ++ r) t (S i + length r - f)) by done.
      rewrite <- Ed, drop_drop. f_equal. lia.
  - split; [exact F3 |]. rewrite Hlen, length_take. lia.
Qed.

Lemma map_const {A B} (f : A -> B) b l : Forall (fun x => f x = b) l -> map f l = replicate (length l) b.
Proof. induction 1; cbn; congruence. Qed.

Lemma reorderUtxo_perm us i : reorderUtxo us i ≡ₚ us.
Proof.
  destruct (us !! i) as [u|] eqn:Hu; [| by unfold reorderUtxo; rewrite Hu].
  destruct (reorderUtxo_split us i u Hu) as (a & r & c & E & -> & _). rewrite E. by rewrite sortByVout_perm.
Qed.

Lemma reorderUtxo_txids us i : map u_BtxID (reorderUtxo us i) = map u_BtxID us.
Proof.
  destruct (us !! i) as [u|] eqn:Hu; [| by unfold reorderUtxo; rewrite Hu].
  destruct (reorderUtxo_split us i u Hu) as (a & r & c & E & -> & Hr & _). rewrite E, !map_app. do 2 f_equal.
  rewrite (map_const _ _ _ Hr). rewrite <- (length_reverse r), length_reverse.
  rewrite <- (Permutation_length (sortByVout_perm r)) at 1.
  apply map_const. by rewrite sortByVout_perm.
Qed.

Lemma reorderUtxo_inOrder us i : (i < length us)%nat -> inOrder (take i us) = true ->
  inOrder (take (S i) (reorderUtxo us i)) = true.
Proof.
  intros Hi. destruct (lookup_lt_is_Some_2 us i Hi) as [u Hu].
  destruct (reorderUtxo_split us i u Hu) as (a & r & c & E & -> & Hr & Ha & Hai). rewrite E.
  rewrite take_app_ge by lia. intros [Ho _]%inOrder_app_inv. rewrite take_app_ge by lia.
  assert (length (sortByVout r) = length r) as Hl by (apply Permutation_length, sortByVout_perm).
  rewrite take_app_le by lia. apply inOrder_app; [done | |].
  - apply (inOrder_app_inv _ (drop (S i - length a) (sortByVout r))). rewrite take_drop. apply inOrder_sort.
  - intros x y Hx Hy Hxy. exfalso. apply (Ha x Hx). rewrite Hxy.
    assert (Forall (fun x => u_BtxID x = u_BtxID u) (sortByVout r)) as Hs by by rewrite sortByVout_perm.
    rewrite Forall_forall in Hs. apply Hs. destruct (take _ _) as [|z t] eqn:Et; [done |].
    injection Hy as ->. rewrite <- (take_drop (S i - length a) (sortByVout r)), Et. left.
Qed.

(** A slot that does not descend extends the order of the slots before it. *)
Lemma inOrder_step us i u :
  us !! i = Some u -> inOrder (take i us) = true ->
  match i with
  | O => false
  | S j =>
      match us !! j with
      | None => false
      | Some v => (u_Vout u <? u_Vout v) && sameTxid (u_BtxID u) (u_BtxID v)
      end
  end = false -> inOrder (take (S i) us) = true.
Proof.
  intros Hu Ho Hd. rewrite (take_S_r _ _ _ Hu). apply inOrder_app; [done | done |].
  intros x y Hx [= <-] Hxy. destruct i as [|j]; [done |].
  assert (us !! j = Some x) as Hj.
  { rewrite last_lookup, length_take in Hx. pose proof (lookup_lt_Some _ _ _ Hu).
    rewrite lookup_take_lt in Hx by lia. rewrite <- Hx. f_equal. lia. }
  rewrite Hj, andb_false_iff, Z.ltb_ge, <- not_true_iff_false, sameTxid_iff in Hd.
  destruct Hd; [lia | congruence].
Qed.

Lemma checkLoop_inv n : forall i us cs re us' cs' re',
  (n + i = length us)%nat -> inOrder (take i us) = true -> checkLoop n i us cs re = (us', cs', re') ->
  us' ≡ₚ us /\ map u_BtxID us' = map u_BtxID us /\ inOrder us' = true.
Proof.
  induction n as [|n IH]; intros i us cs re us' cs' re' Hn Ho; cbn [checkLoop].
  { intros [= <- _ _]. rewrite take_ge in Ho by lia. auto. }
  destruct (lookup_lt_is_Some_2 us i ltac:(lia)) as [u Hu]. rewrite Hu. cbv zeta.
  match goal with |- (if ?b then _ else _) = _ -> _ => destruct b eqn:Hd end; intros H.
  - pose proof (Permutation_length (reorderUtxo_perm us i)) as Hl. apply IH in H as (H1 & H2 & H3).
    + split; [by rewrite H1, reorderUtxo_perm |]. by rewrite H2, reorderUtxo_txids.
    + lia.
    + apply reorderUtxo_inOrder; [lia | done].
  - eapply IH; [| eapply inOrder_step | exact H]; eauto. lia.
Qed.

Lemma sumValues_cons u us : sumValues (u :: us) = u_ValueSat u + sumValues us.
Proof.
  unfold sumValues. cbn [foldl]. generalize (u_ValueSat u). intros z.
  assert (forall a b, foldl (fun s u => s + u_ValueSat u) (a + b) us = a + foldl (fun s u => s + u_ValueSat u) b us) as H.
  { induction us as [|v us IH]; intros a b; cbn [foldl]; [done |]. rewrite <- Z.add_assoc. apply IH. }
  rewrite Z.add_comm. apply H.
Qed.

Lemma checkLoop_same n : forall i us cs re us' cs' re',
  (n + i = length us)%nat -> checkLoop n i us cs re = (us', cs', re') ->
  (re' = false -> re = false /\ us' = us /\ cs' = cs + sumValues (drop i us))
  /\ (inOrder us = true -> re' = re).
Proof.
  induction n as [|n IH]; intros i us cs re us' cs' re' Hn; cbn [checkLoop].
  { intros [= <- <- <-]. rewrite drop_ge by lia. split; [| done]. intros ->. repeat split. cbn. lia. }
  destruct (lookup_lt_is_Some_2 us i ltac:(lia)) as [u Hu]. rewrite Hu. cbv zeta.
  match goal with |- (if ?b then _ else _) = _ -> _ => destruct b eqn:Hd end; intros H.
  - pose proof (Permutation_length (reorderUtxo_perm us i)) as Hl. apply IH in H as [H1 H2]; [| lia].
    split; [intros E; destruct (H1 E); discriminate |]. intros Ho. exfalso.
    destruct i as [|j]; [done |]. destruct (us !! j) as [v|] eqn:Hv; [| done].
    rewrite <- (take_drop j us), (drop_S us v j Hv), (drop_S us u (S j) Hu) in Ho.
    apply inOrder_app_inv in Ho as [_ Ho]. apply inOrder_cons in Ho as [_ Ho].
    apply andb_true_iff in Hd as [Hd1%Z.ltb_lt Hd2%sameTxid_iff]. specialize (Ho u eq_refl (eq_sym Hd2)). lia.
  - apply IH in H as [H1 H2]; [| lia]. split; [| done]. intros E. destruct (H1 E) as (-> & -> & ->).
    rewrite (drop_S us u i Hu), sumValues_cons. repeat split. lia.
Qed.

(** Checking the outputs of an address leaves the same outputs, in the same order of
    transactions, with the outputs of a transaction that stand next to each other in the order
    of their vouts; nothing changes exactly when they were in order already, and then the
    checksum is the sum of their values. *)
Theorem reorder_correct (us us' : list Utxo) (checksum : Z) (reorder : bool) :
  checkLoop (length us) 0 us 0 false = (us', checksum, reorder) ->
  us' ≡ₚ us /\ map u_BtxID us' = map u_BtxID us /\ inOrder us' = true
  /\ reorder = negb (inOrder us)
  /\ (reorder = false -> us' = us /\ checksum = sumValues us).
Proof.
  intros H. destruct (checkLoop_inv _ _ _ _ _ _ _ _ (Nat.add_0_r _) eq_refl H) as (H1 & H2 & H3).
  destruct (checkLoop_same _ _ _ _ _ _ _ _ (Nat.add_0_r _) H) as [H4 H5].
  repeat split; try done.
  - destruct reorder.
    + destruct (inOrder us) eqn:E; [| done]. by specialize (H5 eq_refl).
    + destruct (H4 eq_refl) as (_ & <- & _). by rewrite H3.
  - by destruct (H4 ltac:(done)) as (_ & -> & _).
  - destruct (H4 ltac:(done)) as (_ & -> & ->). done.
Qed.

(** ** Rebuilding from the history *)

Section Rebuild.
Context {V : Vlq} {VL : VlqLaws V} {P : ChainParser} {IX : IndexOpts} {K : KV} {KL : KVLaws K}.
Implicit Types d : DB K.

(** The unspent output at an index of a transaction. *)
Definition unspentAt (t : TxAddresses) (bTxid : bytes) (height : Z) (index : Z) : option Utxo :=
  match ta_Outputs t !! Z.to_nat index with
  | Some o => if to_Spent o then None else Some (mkUtxo bTxid index height (to_ValueSat o) None)
  | None => None
  end.

(** The unspent outputs that an entry of the history gives to the address. *)
Definition unspentOf d (ev : bytes * Z * list Z) : list Utxo :=
  let '(tx, h, ixs) := ev in
  match GetTxAddresses d tx with
  | Ok (Some t) => omap (unspentAt t (okOrEmpty (PackTxid tx)) h) (filter (fun i => 0 <= i) ixs)
  | _ => []
  end.

(** The row of every transaction in the history can be read. *)
Definition history_read d (evs : list (bytes * Z * list Z)) : Prop :=
  Forall (fun ev => exists t, GetTxAddresses d ev.1.1 = Ok (Some t)) evs.

Lemma sumValues_app a b : sumValues (a ++ b) = sumValues a + sumValues b.
Proof. induction a as [|u a IH]; cbn [app]; [done |]. rewrite !sumValues_cons, IH. lia. Qed.

#[global] Instance sumValues_perm : Proper (Permutation ==> eq) sumValues.
Proof.
  induction 1 as [|u a b _ IH| |]; rewrite ?sumValues_cons; try lia; try congruence.
Qed.

(** [pre] was added to [s]: all there is, or what reached the balance. *)
Definition added (balance : Z) (all pre : list Utxo) (s s' : FixAcc) (e : option goerror) : Prop :=
  s' = mkFixAcc (fa_checksum s + sumValues pre) (fa_utxos s ++ pre) (fa_panic s)
  /\ (e = None /\ pre = all \/ e = Some ErrStop /\ pre `prefix_of` all /\ fa_checksum s' = balance).

Lemma takeOutputs_spec d balance txid h t ixs o s :
  GetTxAddresses d txid = Ok (Some t) -> (o = None \/ o = Some t) ->
  StronglySorted Z.ge ixs ->
  exists pre, let '(s', e) := takeOutputs d balance txid h o ixs s in
    added balance (omap (unspentAt t (okOrEmpty (PackTxid txid)) h) (filter (fun i => 0 <= i) ixs)) pre s s' e.
Proof.
  intros Ht Ho Hs. revert o s Ho. induction Hs as [|i ixs Hs IH Hf]; intros o s Ho; cbn [takeOutputs].
  { exists []. split; [| by left]. destruct s. cbn. f_equal; [lia | by rewrite app_nil_r]. }
  destruct (Z.ltb_spec i 0) as [Hi|Hi].
  { exists []. rewrite filter_none.
    - split; [| by left]. destruct s. cbn. f_equal; [lia | by rewrite app_nil_r].
    - intros j Hj. apply elem_of_cons in Hj as [->|Hj]; [lia |]. rewrite Forall_forall in Hf. specialize (Hf _ Hj). lia. }
  rewrite filter_cons_True by done. cbn [omap list_omap].
  assert ((match o with Some _ => Ok o | None => GetTxAddresses d txid end) = Ok (Some t)) as ->
    by (destruct Ho as [-> | ->]; done).
  unfold unspentAt at 1. destruct (ta_Outputs t !! Z.to_nat i) as [tao|]; [| by apply IH; right].
  destruct (to_Spent tao); [by apply IH; right |]. cbv zeta.
  set (u := mkUtxo (okOrEmpty (PackTxid txid)) i h (to_ValueSat tao) None).
  destruct (Z.eqb_spec (fa_checksum s + to_ValueSat tao) balance) as [E|E].
  { exists [u]. split; [cbn; f_equal; lia |]. right. split; [done |]. split; [| done].
    by eexists. }
  edestruct (IH (Some t) (mkFixAcc (fa_checksum s + to_ValueSat tao) (fa_utxos s ++ [u]) (fa_panic s))) as [pre Hp];
    [by right |].
  exists (u :: pre). destruct (takeOutputs _ _ _ _ _ _ _) as [s' e]. destruct Hp as [-> Hp].
  split; [rewrite sumValues_cons; cbn; f_equal; [lia | by rewrite <- app_assoc] |].
  destruct Hp as [[-> ->] | (-> & Hp & Hc)]; [by left | right]. split; [done |]. split; [by apply prefix_cons | exact Hc].
Qed.

Lemma prefix_submseteq {A} (a b : list A) : a `prefix_of` b -> a ⊆+ b.
Proof. intros [k ->]. by apply submseteq_inserts_r. Qed.

(** The walk over the history adds unspent outputs of the address, all of them or as many as
    reach the balance. *)
Lemma runEvents_spec d balance evs s s' r :
  history_read d evs -> runEvents (fixCallback d balance) evs s = (s', r) ->
  exists pre, pre ⊆+ concat (map (unspentOf d) evs)
    /\ s' = mkFixAcc (fa_checksum s + sumValues pre) (fa_utxos s ++ pre) (fa_panic s)
    /\ (r = Ok false /\ pre ≡ₚ concat (map (unspentOf d) evs) \/ r = Ok true /\ fa_checksum s' = balance).
Proof.
  intros Hr. revert s. induction Hr as [|[[tx h] ixs] evs [t Ht] Hr IH]; intros s; cbn [runEvents map concat].
  { intros [= <- <-]. exists []. split; [done |]. split; [| by left]. destruct s. cbn. f_equal; [lia | by rewrite app_nil_r]. }
  unfold callback, fixCallback. cbn [fst] in Ht.
  destruct (takeOutputs_spec d balance tx h t (merge_sort Z.ge ixs) None s Ht (or_introl eq_refl)) as [pre Hp].
  { apply StronglySorted_merge_sort; [intros a b c; lia | intros a b; lia]. }
  destruct (takeOutputs _ _ _ _ _ _ _) as [s1 e]. destruct Hp as [-> Hp].
  assert (omap (unspentAt t (okOrEmpty (PackTxid tx)) h) (filter (fun i => 0 <= i) (merge_sort Z.ge ixs))
    ≡ₚ unspentOf d (tx, h, ixs)) as Hperm.
  { unfold unspentOf. rewrite Ht. apply omap_Permutation. by rewrite merge_sort_Permutation. }
  revert Hp Hperm. generalize (omap (unspentAt t (okOrEmpty (PackTxid tx)) h) (filter (fun i => 0 <= i) (merge_sort Z.ge ixs))).
  intros all Hp Hperm. destruct Hp as [[-> ->] | (-> & Hp & Hc)]; cbn [andThen].
  - intros H. apply IH in H as (pre' & Hs & -> & Hcase).
    exists (all ++ pre'). split; [apply submseteq_app; [by rewrite Hperm | exact Hs] |]. cbn.
    rewrite sumValues_app, app_assoc, Z.add_assoc. split; [done |].
    destruct Hcase as [[-> Hpm] | [-> Hc]]; [left | right; auto]. split; [done |]. by rewrite Hperm, Hpm.
  - intros [= <- <-]. exists pre. split; [| split; [done | by right]].
    apply submseteq_inserts_r. rewrite <- Hperm. by apply prefix_submseteq.
Qed.
End Rebuild.

(** ** The walk *)

Section Walk.
Context {V : Vlq} {VL : VlqLaws V} {P : ChainParser} {IX : IndexOpts} {K : KV} {KL : KVLaws K}.
Implicit Types d : DB K.

Definition column d : kv := db_cf d cfAddressBalance.

(** What [fixUtxo] decides: the new outputs, if it writes any, and what it returns. *)
Definition plan d (k : bytes) (ba : AddrBalance) : result (option (list Utxo) * (bool * bool * option goerror)) :=
  let '(us, checksum, reorder) := checkLoop (length (ab_Utxos ba)) 0 (ab_Utxos ba) 0 false in
  if negb ((if reorder then sumValues us else checksum) =? ab_BalanceSat ba) then
    let '(acc, r) := rebuildUtxos d (ab_BalanceSat ba) k in
    if fa_panic acc then Panic
    else
      match r with
      | Panic => Panic
      | Err e => Ok (None, (false, false, Some e))
      | Ok _ =>
          if fa_checksum acc =? ab_BalanceSat ba
          then Ok (Some (reverse (fa_utxos acc)), (true, false, Some (ErrMsg "balance, checksum, from txa, txs")))
          else Ok (None, (false, false, Some (ErrMsg "balance, checksum, from txa, txs")))
      end
  else Ok (if reorder then Some us else None, (false, reorder, None)).

(** The row of a balance with other outputs. *)
Definition rowWith (us : list Utxo) (ba : AddrBalance) : bytes :=
  let ba := set_Utxos us (ab_utxosMap ba) ba in packAddrBalance (map_to_list (ab_AssetBalances ba)) ba.

Definition putBalance d (k v : bytes) : DB K :=
  mkDB K (apply_op (db_cf d) (PutCF cfAddressBalance k v)) (db_rfault d) (db_wfault d).

Lemma storeFixed_put d k us ba : db_wfault d = false -> 0 < ab_Txs ba ->
  storeFixed d k (set_Utxos us (ab_utxosMap ba) ba) = Ok (putBalance d k (rowWith us ba)).
Proof.
  intros Hw Ht. unfold storeFixed, WriteBatch, storeBalances. rewrite Hw, map_to_list_singleton.
  cbn [app map storeBalance fst snd set_Utxos ab_Txs]. destruct (Z.leb_spec (ab_Txs ba) 0); [lia |].
  unfold putBalance. rewrite Hw. reflexivity.
Qed.

Lemma fixUtxo_plan d k ba : db_wfault d = false -> 0 < ab_Txs ba ->
  fixUtxo d k ba =
  (let! '(o, r) := plan d k ba in Ok (match o with Some us => putBalance d k (rowWith us ba) | None => d end, r)).
Proof.
  intros Hw Ht. unfold fixUtxo, plan. destruct (checkLoop _ _ _ _ _) as [[us cs] re]. cbv zeta.
  change (ab_BalanceSat (set_Utxos us (ab_utxosMap ba) ba)) with (ab_BalanceSat ba).
  destruct (negb _).
  - destruct (rebuildUtxos d (ab_BalanceSat ba) k) as [acc r]. destruct (fa_panic acc); [done |].
    destruct r; [| done | done]. destruct (fa_checksum acc =? ab_BalanceSat ba); [| done].
    change (set_Utxos (reverse (fa_utxos acc)) _ _) with (set_Utxos (reverse (fa_utxos acc)) (ab_utxosMap ba) ba).
    by rewrite storeFixed_put.
  - destruct re; [by rewrite storeFixed_put | done].
Qed.

(** What becomes of a row: its new bytes, whether it counts as an error and as fixed. *)
Definition rowPlan d (k buf : bytes) : result (bytes * (Z * Z)) :=
  if zlen buf <? 3 then Ok (buf, (1, 0))
  else
    match unpackAddrBalance buf PackedTxidLen AddressBalanceDetailUTXO with
    | Err _ => Ok (buf, (1, 0))
    | Panic => Panic
    | Ok ba =>
        let! '(o, (fixed, reordered, err)) := plan d k ba in
        Ok (match o with Some us => rowWith us ba | None => buf end,
            match err with
            | Some _ => (1, if (fixed : bool) then 1 else 0)
            | None => (0, if (reordered : bool) then 1 else 0)
            end)
    end.

(** The same database but for the column of balances. *)
Definition sameIndex d d' : Prop :=
  db_wfault d' = false /\ db_rfault d' = db_rfault d
  /\ (forall cf, cf <> cfAddressBalance -> db_cf d' cf = db_cf d cf)
  /\ forall k buf, rowPlan d' k buf = rowPlan d k buf.

Lemma sameIndex_put d d' k v : sameIndex d d' -> sameIndex d (putBalance d' k v).
Proof.
  intros (H1 & H2 & H3 & H4). split; [done |]. split; [done |]. split.
  - intros cf Hcf. cbn. rewrite decide_False by done. by apply H3.
  - exact H4.
Qed.

(** Rows that are decoded have transactions, so that storing them never deletes them. *)
Definition live_row (e : bytes * bytes) : Prop :=
  forall ba, unpackAddrBalance e.2 PackedTxidLen AddressBalanceDetailUTXO = Ok ba -> 0 < ab_Txs ba.

Lemma fixRow_plan d0 s k buf v e f :
  sameIndex d0 (fx_db s) -> live_row (k, buf) -> kv_get (column (fx_db s)) k = Some buf ->
  rowPlan d0 k buf = Ok (v, (e, f)) ->
  exists d', fixRow k buf s = Ok (mkFixState d' (fx_row s + 1) (fx_errors s + e) (fx_fixed s + f))
    /\ sameIndex d0 d'
    /\ forall k', kv_get (column d') k' = if decide (k = k') then Some v else kv_get (column (fx_db s)) k'.
Proof.
  intros Hsame Hlive Hget Hplan. pose proof Hsame as (Hw & _ & _ & Hp). rewrite <- Hp in Hplan. clear Hp.
  destruct s as [d row er fi]. cbn [fx_db fx_row fx_errors fx_fixed] in *.
  assert (forall k', kv_get (column d) k' = if decide (k = k') then Some buf else kv_get (column d) k') as Hself
    by (intros k'; case_decide; by subst).
  unfold fixRow. unfold rowPlan in Hplan. destruct (zlen buf <? 3).
  { injection Hplan as <- <- <-. exists d. rewrite Z.add_0_r. auto. }
  pose proof (Hlive : forall ba, unpackAddrBalance buf _ _ = Ok ba -> _) as Hl.
  destruct (unpackAddrBalance buf PackedTxidLen AddressBalanceDetailUTXO) as [ba| |]; [| | discriminate].
  2: { injection Hplan as <- <- <-. exists d. rewrite Z.add_0_r. auto. }
  rewrite fixUtxo_plan by eauto. destruct (plan d k ba) as [[o [[fixed reord] err]]| |]; [| done | done].
  cbn [rbind] in *. injection Hplan as <- He.
  exists (match o with Some us => putBalance d k (rowWith us ba) | None => d end). split; [| split].
  - destruct err; injection He as <- <-; [destruct fixed | destruct reord]; rewrite ?Z.add_0_r; done.
  - destruct o; [by apply sameIndex_put | done].
  - destruct o; [| exact Hself]. intros k'. unfold column. cbn. apply kv_get_put.
Qed.

(** ** The column after a row *)

Lemma key_lt_irrefl e : ~ key_lt e e.
Proof. unfold key_lt. by rewrite (proj2 (bytes_compare_eq e.1 e.1)). Qed.

Lemma sorted_keys l l' : map fst l = map fst l' -> StronglySorted key_lt l -> StronglySorted key_lt l'.
Proof.
  revert l'. induction l as [|e l IH]; intros [|e' l']; try discriminate; [constructor |].
  intros [= E1 E2] Hs. apply StronglySorted_inv in Hs as [Hs Hf]. constructor; [by apply IH |].
  apply Forall_forall. intros x Hx. assert (x.1 ∈ map fst l) as Hin.
  { rewrite E2. apply list_elem_of_fmap. eauto. }
  apply list_elem_of_fmap in Hin as (y & Ey & Hy). rewrite Forall_forall in Hf. specialize (Hf y Hy).
  unfold key_lt in *. congruence.
Qed.

Lemma sorted_NoDup l : StronglySorted key_lt l -> NoDup l.
Proof.
  induction 1 as [|e l _ IH Hf]; constructor; [| done]. intros Hin. rewrite Forall_forall in Hf.
  by apply (key_lt_irrefl e), Hf.
Qed.

Lemma list_of_gets (s : kv) l :
  StronglySorted key_lt l -> (forall k v, (k, v) ∈ l <-> kv_get s k = Some v) -> kv_list s = l.
Proof.
  intros Hs Hl. pose proof (kv_list_sorted s) as Hk.
  assert (kv_list s ≡ₚ l) as Hp.
  { apply NoDup_Permutation; [by apply sorted_NoDup | by apply sorted_NoDup |].
    intros [k v]. by rewrite Hl, kv_list_get. }
  revert Hp Hk Hs. clear. generalize (kv_list s). intros m. revert l.
  induction m as [|e m IH]; intros l Hp Hm Hl; [by apply Permutation_nil in Hp |].
  destruct l as [|e' l]; [by apply Permutation_sym, Permutation_nil in Hp |].
  apply StronglySorted_inv in Hm as [Hm Hfm], Hl as [Hl Hfl].
  assert (e = e') as ->.
  { assert (e ∈ e' :: l) as H1 by (rewrite <- Hp; left).
    assert (e' ∈ e :: m) as H2 by (rewrite Hp; left).
    apply elem_of_cons in H1 as [|H1]; [done |]. apply elem_of_cons in H2 as [|H2]; [done |].
    rewrite Forall_forall in Hfm, Hfl. specialize (Hfm _ H2). specialize (Hfl _ H1).
    exfalso. unfold key_lt in *. rewrite bytes_compare_antisym, Hfl in Hfm. discriminate. }
  f_equal. apply IH; [by eapply Permutation_cons_inv | done | done].
Qed.

Lemma sorted_key_unique l k v w : StronglySorted key_lt l -> (k, v) ∈ l -> (k, w) ∈ l -> v = w.
Proof.
  induction 1 as [|e l _ IH Hf]; [by intros ?%not_elem_of_nil |]. rewrite Forall_forall in Hf.
  rewrite !elem_of_cons. intros [E1|H1] [E2|H2]; [congruence | | | auto]; exfalso; apply (key_lt_irrefl (k, v)).
  - subst e. exact (Hf _ H2).
  - subst e. exact (Hf _ H1).
Qed.

(** Replacing the value of a key. *)
Lemma kv_list_replace s s' a k v v' b :
  kv_list s = a ++ (k, v) :: b ->
  (forall k', kv_get s' k' = if decide (k = k') then Some v' else kv_get s k') ->
  kv_list s' = a ++ (k, v') :: b.
Proof.
  intros Hl Hg. pose proof (kv_list_sorted s) as Hs.
  assert (StronglySorted key_lt (a ++ (k, v') :: b)) as Hs'.
  { eapply sorted_keys; [| exact Hs]. rewrite Hl, !map_app. done. }
  apply list_of_gets; [exact Hs' |]. intros k' w. rewrite Hg.
  rewrite elem_of_app, elem_of_cons. case_decide as E.
  - subst k'. split; [| intros [= <-]; auto].
    intros Hin. f_equal. apply (sorted_key_unique _ k _ _ Hs'); rewrite elem_of_app, elem_of_cons; auto.
  - rewrite <- kv_list_get, Hl, elem_of_app, elem_of_cons. naive_solver.
Qed.

(** ** The batches *)

Definition fixedEntry d (e : bytes * bytes) : bytes * bytes :=
  match rowPlan d e.1 e.2 with Ok (v, _) => (e.1, v) | _ => e end.

Definition planned d (e : bytes * bytes) : Prop := live_row e /\ exists p, rowPlan d e.1 e.2 = Ok p.

(** [a] is done, [b] is not. *)
Definition walked d0 (a b : list (bytes * bytes)) (s : FixState) : Prop :=
  sameIndex d0 (fx_db s) /\ kv_list (column (fx_db s)) = map (fixedEntry d0) a ++ b /\ fx_row s = zlen a.

Lemma fixRow_walked d0 a k buf b s :
  walked d0 a ((k, buf) :: b) s -> planned d0 (k, buf) ->
  exists s', fixRow k buf s = Ok s' /\ walked d0 (a ++ [(k, buf)]) b s'.
Proof.
  intros (H1 & H2 & H3) [Hl [[v [e f]] Hp]].
  assert (kv_get (column (fx_db s)) k = Some buf) as Hg.
  { apply kv_list_get. rewrite H2, elem_of_app, elem_of_cons. auto. }
  destruct (fixRow_plan d0 s k buf v e f H1 Hl Hg Hp) as (d' & -> & S' & G').
  eexists. split; [done |]. split; [exact S' |]. split.
  - cbn [fx_db]. rewrite (kv_list_replace _ _ _ _ _ v _ H2 G'), map_app, <- app_assoc.
    unfold fixedEntry at 3. cbn [map fst snd]. cbn [fst snd] in Hp. by rewrite Hp.
  - cbn [fx_row]. rewrite H3, zlen_app. done.
Qed.

Lemma fixBatch_walked d0 refresh b : forall a count key s,
  walked d0 a b s -> Forall (planned d0) b ->
  exists s' b1 b2 key', b = b1 ++ b2
    /\ fixBatch (fun _ => false) refresh count b key s = Ok (s', key', negb (bool_decide (b2 = [])), None)
    /\ walked d0 (a ++ b1) b2 s' /\ (b2 = [] \/ refresh <= count + zlen b1)
    /\ (b1 = [] /\ key' = key \/ exists v, last b1 = Some (key', v)).
Proof.
  induction b as [|[k buf] b IH]; intros a count key s Hw Hp.
  { exists s, [], [], key. cbn. rewrite app_nil_r. auto 10. }
  apply Forall_cons in Hp as [Hpk Hp]. cbn [fixBatch]. destruct (Z.ltb_spec count refresh) as [Hc|Hc]; cbn [negb].
  - destruct (fixRow_walked d0 a k buf b s Hw Hpk) as (s' & -> & Hw'). cbn [rbind].
    destruct (IH (a ++ [(k, buf)]) (count + 1) k s' Hw' Hp) as (s2 & b1 & b2 & k2 & -> & E & W & C & L).
    exists s2, ((k, buf) :: b1), b2, k2. rewrite <- app_assoc in W. rewrite zlen_cons.
    split; [done |]. split; [exact E |]. split; [exact W |]. split; [destruct C; [auto | right; lia] |].
    right. destruct L as [[-> ->] | [v L]]; [by eexists | exists v]. destruct b1; [done | exact L].
  - exists s, [], ((k, buf) :: b), key. rewrite app_nil_r. cbn. repeat split; auto; try apply Hw.
    right. unfold zlen. cbn. lia.
Qed.

Lemma seek_last a k v b :
  StronglySorted key_lt (a ++ [(k, v)] ++ b) -> tail (seek k (a ++ [(k, v)] ++ b)) = b.
Proof.
  induction a as [|e a IH]; cbn [app].
  - intros _. cbn [seek fst]. unfold before. by rewrite (proj2 (bytes_compare_eq k k)).
  - intros Hs. apply StronglySorted_inv in Hs as [Hs Hf]. cbn [seek].
    rewrite Forall_forall in Hf. specialize (Hf (k, v)). unfold before, key_lt in *. cbn [fst] in Hf.
    rewrite Hf by (rewrite elem_of_app, elem_of_cons; auto). by apply IH.
Qed.

(** However often the iterator is opened anew, every row is visited once. *)
Lemma fixLoop_walked d0 refresh fuel : forall a b key s,
  0 < refresh -> walked d0 a b s -> Forall (planned d0) b ->
  (a = [] /\ fx_row s = 0 \/ exists v, last a = Some (key, v)) -> (length b < fuel)%nat ->
  exists s', fixLoop fuel (fun _ => false) refresh key s = Ok (s', None) /\ walked d0 (a ++ b) [] s'.
Proof.
  induction fuel as [|fuel IH]; intros a b key s Hr Hw Hp Hk Hf; [lia |]. cbn [fixLoop]. cbv zeta.
  assert ((if fx_row s =? 0 then kv_list (column (fx_db s)) else tail (seek key (kv_list (column (fx_db s))))) = b) as Eit.
  { destruct Hw as (_ & E & Hrow). pose proof (kv_list_sorted (column (fx_db s))) as Hs. rewrite E in *.
    destruct Hk as [[-> ->] | [v Hv]]; [done |].
    apply last_Some in Hv as [a' ->]. rewrite Hrow, zlen_app. pose proof (zlen_nonneg a').
    destruct (Z.eqb_spec (zlen a' + zlen [(key, v)]) 0) as [H0|_]; [unfold zlen in H0; cbn in H0; lia |].
    rewrite map_app, <- app_assoc in *. unfold fixedEntry in Hs at 2 |- * at 2. cbn [map] in *.
    destruct (rowPlan d0 _ _) as [[? ?]| |]; by apply seek_last. }
  unfold column in Eit. rewrite Eit. clear Eit.
  destruct (fixBatch_walked d0 refresh b a 0 [] s Hw Hp) as (s' & b1 & b2 & key' & -> & E & W & C & L).
  rewrite E. cbn [rbind]. destruct b2 as [|e b2]; cbn [negb].
  { rewrite bool_decide_eq_true_2 by done. cbn [negb]. rewrite app_nil_r. eauto. }
  rewrite bool_decide_eq_false_2 by done. cbn [negb]. rewrite app_assoc.
  destruct C as [C|C]; [done |]. destruct L as [[-> ->] | [v L]]; [unfold zlen in C; cbn in C; lia |].
  apply Forall_app in Hp as [_ Hp]. apply IH; try done.
  - right. exists v. rewrite last_app, L. done.
  - rewrite length_app in Hf. destruct b1; [done | cbn in *; lia].
Qed.

(** ** What is written *)

(** The checksum that decides is the sum of the outputs. *)
Lemma check_result us : exists us' cs re,
  checkLoop (length us) 0 us 0 false = (us', cs, re)
  /\ us' ≡ₚ us /\ inOrder us' = true /\ re = negb (inOrder us) /\ (if re then sumValues us' else cs) = sumValues us.
Proof.
  destruct (checkLoop (length us) 0 us 0 false) as [[us' cs] re] eqn:H. exists us', cs, re. split; [done |].
  destruct (checkLoop_inv _ _ _ _ _ _ _ _ (Nat.add_0_r _) eq_refl H) as (H1 & _ & H3).
  destruct (checkLoop_same _ _ _ _ _ _ _ _ (Nat.add_0_r _) H) as [H4 H5].
  split; [done |]. split; [done |]. destruct re.
  - split; [| by rewrite H1]. destruct (inOrder us); [| done]. by specialize (H5 eq_refl).
  - destruct (H4 eq_refl) as (_ & <- & ->). rewrite H3. done.
Qed.

(** The outputs written for a balance, if any. *)
Definition repaired (ba : AddrBalance) (o : option (list Utxo)) : Prop :=
  if bool_decide (sumValues (ab_Utxos ba) = ab_BalanceSat ba) then
    match o with
    | None => inOrder (ab_Utxos ba) = true
    | Some us => inOrder (ab_Utxos ba) = false /\ us ≡ₚ ab_Utxos ba /\ inOrder us = true
    end
  else
    match o with
    | None => True
    | Some us => sumValues us = ab_BalanceSat ba
    end.

(** What the walk over the history collected sums up to the checksum. *)
Lemma rebuild_sum d balance k acc r :
  rebuildUtxos d balance k = (acc, r) -> fa_checksum acc = sumValues (fa_utxos acc).
Proof.
  intros H. apply (f_equal fst) in H. cbn [fst] in H. rewrite <- H. unfold rebuildUtxos.
  apply (GetAddrDescTransactions_inv _ (fun s => fa_checksum s = sumValues (fa_utxos s))); [| done].
  intros tx h ixs s. unfold fixCallback. generalize (merge_sort Z.ge ixs) (@None TxAddresses). clear.
  intros ixs. revert s. induction ixs as [|i ixs IH]; intros s o Hs; cbn [takeOutputs]; [done |].
  assert (forall u, fa_checksum s + u_ValueSat u = sumValues (fa_utxos s ++ [u])) as Hsum.
  { intros u. rewrite sumValues_app, Hs. reflexivity. }
  repeat (case_match; cbn [fst fa_checksum fa_utxos]; auto);
    try apply IH; try exact (Hsum (mkUtxo _ _ _ _ _)).
Qed.

Lemma plan_repaired d k ba o r : plan d k ba = Ok (o, r) -> repaired ba o.
Proof.
  unfold plan, repaired. destruct (check_result (ab_Utxos ba)) as (us' & cs & re & -> & H1 & H2 & H3 & ->).
  destruct (bool_decide_reflect (sumValues (ab_Utxos ba) = ab_BalanceSat ba)) as [E|E].
  - rewrite (proj2 (Z.eqb_eq _ _) E). cbn [negb]. intros [= <- _]. destruct re, (inOrder (ab_Utxos ba)); done.
  - rewrite (proj2 (Z.eqb_neq _ _) E). cbn [negb].
    destruct (rebuildUtxos d (ab_BalanceSat ba) k) as [acc r'] eqn:Hb. apply rebuild_sum in Hb.
    destruct (fa_panic acc); [done |]. destruct r'; [| by intros [= <- _] | done].
    destruct (Z.eqb_spec (fa_checksum acc) (ab_BalanceSat ba)) as [Ec|]; intros [= <- _]; [| done].
    by rewrite reverse_Permutation, <- Hb.
Qed.

Lemma walked_start d : db_wfault d = false -> walked d [] (kv_list (column d)) (mkFixState d 0 0 0).
Proof. intros Hw. repeat split; done. Qed.
End Walk.

Section FixProperties.
Context {V : Vlq} {VL : VlqLaws V} {P : ChainParser} {IX : IndexOpts} {K : KV} {KL : KVLaws K}.

(** C34: the repair of the unspent outputs visits every balance once, although it opens a new
    iterator every 5000000 rows while it rewrites the column, and it ends. Other columns keep
    their contents. A balance whose outputs sum up keeps them, written anew exactly when
    outputs of a transaction were out of order, and then only reordered; a balance whose
    outputs do not sum up keeps its row or gets outputs that do. *)
Theorem fix_utxos_repairs (d : DB K) :
  GetChainType = ChainBitcoinType -> db_wfault d = false ->
  Forall (planned d) (kv_list (column d)) ->
  exists s, FixUtxos (S (length (kv_list (column d)))) (fun _ => false) d = Ok (s, None)
    /\ fx_row s = zlen (kv_list (column d))
    /\ (forall cf, cf <> cfAddressBalance -> db_cf (fx_db s) cf = db_cf d cf)
    /\ map fst (kv_list (column (fx_db s))) = map fst (kv_list (column d))
    /\ forall k buf ba, kv_get (column d) k = Some buf -> 3 <= zlen buf ->
        unpackAddrBalance buf PackedTxidLen AddressBalanceDetailUTXO = Ok ba ->
        exists o, repaired ba o
          /\ kv_get (column (fx_db s)) k = Some (match o with Some us => rowWith us ba | None => buf end).
Proof.
  intros Hc Hw Hp. unfold FixUtxos. rewrite bool_decide_eq_false_2 by congruence.
  destruct (fixLoop_walked d refreshIterator (S (length (kv_list (column d)))) [] (kv_list (column d)) []
    (mkFixState d 0 0 0)) as (s & E & (S1 & S2 & S3)); [done | by apply walked_start | done | by left | lia |].
  rewrite app_nil_r in S2. cbn [app] in S2, S3. exists s. split; [exact E |]. split; [exact S3 |].
  split; [apply S1 |]. split.
  { rewrite S2, map_map. apply map_ext. intros e. unfold fixedEntry. by destruct (rowPlan d e.1 e.2) as [[]| |]. }
  intros k buf ba Hk Hlen Hba. apply kv_list_get in Hk. rewrite Forall_forall in Hp.
  destruct (Hp _ Hk) as [_ [p Hpl]]. pose proof Hpl as Hpl'. cbn [fst snd] in Hpl. unfold rowPlan in Hpl.
  destruct (Z.ltb_spec (zlen buf) 3); [lia |]. rewrite Hba in Hpl.
  destruct (plan d k ba) as [[o [[fx ro] er]]| |] eqn:Ho; [| done | done]. cbn [rbind] in Hpl.
  exists o. split; [by eapply plan_repaired |].
  apply kv_list_get. rewrite S2. apply list_elem_of_fmap. exists (k, buf). split; [| done].
  unfold fixedEntry. rewrite Hpl'. by injection Hpl as <-.
Qed.

(** Outputs that do not sum up are rebuilt from the history of the address. When its
    transactions can be read and its unspent outputs sum up to the balance, [fixUtxo] reports
    the balance as fixed and stores outputs that sum up to it, all taken from those unspent
    outputs; when it does not fix the balance, it changes nothing. *)
Theorem rebuild_from_history (d : DB K) (a : bytes) (ba : AddrBalance) (txs : Z -> list txIndexes) :
  a <> [] -> 0 <= PackedTxidLen -> db_wfault d = false -> 0 < ab_Txs ba ->
  sumValues (ab_Utxos ba) <> ab_BalanceSat ba ->
  history_rows d a txs ->
  zlen (List.filter (foreign a) (rangeRows d a 0 (2 ^ 32 - 1))) <= maxAddrDescScanNonMatching ->
  (forall h t, is_u32 h -> t ∈ txs h ->
     exists ta, GetTxAddresses d (okOrEmpty (UnpackTxid (txi_btxID t))) = Ok (Some ta)) ->
  exists hs, (forall h, h ∈ hs <-> is_u32 h /\ is_Some (kv_get (db_cf d cfAddresses) (packAddressKey a h))) /\
  let all := concat (map (unspentOf d) (historyOf txs hs)) in
  exists us fixed e,
    fixUtxo d a ba = Ok (if (fixed : bool) then putBalance d a (rowWith us ba) else d, (fixed, false, Some e))
    /\ (fixed = true -> sumValues us = ab_BalanceSat ba /\ us ⊆+ all)
    /\ (sumValues all = ab_BalanceSat ba -> fixed = true).
Proof.
  intros Ha HP Hw Ht Hsum Hrows Hf Hread.
  destruct (history_exists d a 0 (2 ^ 32 - 1) txs) as (hs & _ & H2 & H3 & H4); [done | done | done | done |].
  exists hs. split.
  { intros h. rewrite H2. unfold is_u32. split; intros; destruct_and?; split_and?; auto; lia. }
  cbv zeta. rewrite fixUtxo_plan by done. unfold plan.
  destruct (check_result (ab_Utxos ba)) as (us' & cs & re & -> & _ & _ & _ & ->).
  rewrite (proj2 (Z.eqb_neq _ _) Hsum). cbn [negb].
  unfold rebuildUtxos, GetAddrDescTransactions. rewrite seek_range by apply kv_list_sorted.
  rewrite (scanRows_history _ a txs _ _ hs Ha HP H4 H3 (rangeRows_stop d a 0 (2 ^ 32 - 1))) by exact Hf.
  destruct (runEvents _ _ _) as [s r] eqn:Hev.
  apply runEvents_spec in Hev as (pre & Hsub & -> & Hcase).
  - cbn [fa_checksum fa_utxos fa_panic app] in *. rewrite Z.add_0_l in *.
    exists (reverse pre), (sumValues pre =? ab_BalanceSat ba), (ErrMsg "balance, checksum, from txa, txs").
    split; [| split].
    + destruct Hcase as [[-> _] | [-> _]]; cbn [rbind]; destruct (sumValues pre =? ab_BalanceSat ba); done.
    + intros ?%Z.eqb_eq. by rewrite reverse_Permutation.
    + intros Hall. apply Z.eqb_eq. destruct Hcase as [[_ E] | [_ E]]; [by rewrite E | exact E].
  - apply Forall_forall. intros ev Hin. apply list_elem_of_In, List.in_concat in Hin as (row & Hrow & Hin).
    apply List.in_map_iff in Hrow as (h & <- & Hh%list_elem_of_In). unfold rowEvents in Hin.
    apply List.in_map_iff in Hin as (t & <- & Hin). apply List.in_rev, list_elem_of_In in Hin. cbn [fst].
    apply H2 in Hh as [Hh _]. by apply (Hread h).
Qed.
End FixProperties.

Module FixExample.

#[local] Existing Instance RefVlq.vlq.
#[local] Existing Instance RefVlq.vlq_laws.
#[local] Existing Instance MapKV.map_kv.
#[local] Existing Instance MapKV.map_kv_laws.
#[local] Instance opts : IndexOpts := {| extendedIndex := false |}.
#[local] Instance parser : ChainParser :=
  base_parser (fun _ => Err ErrAddressMissing) (fun _ => true) 100 true.

Definition addr : bytes := [x76; xa9].
Definition asset : option AssetInfo := Some (mkAssetInfo 123456 (Some 50)).
Definition btx : bytes := replicate 32 x11.
Definition txs (_ : Z) : list txIndexes := [mkTxIndexes btx [0]].

(** The row of a transaction with one output of the address that carries an asset. *)
Definition row : TxAddresses :=
  mkTxAddresses 7 [] [mkTxOutput addr false 700 asset [] 0 0] 2 [] 0.

(** A balance whose output is missing. *)
Definition broken : AddrBalance := mkAddrBalance 1 0 700 [] ∅ ∅.

Definition db : DB MapKV.map_kv :=
  mkDB MapKV.map_kv
    (fun cf =>
       match cf with
       | cfAddresses => {[ packAddressKey addr 7 := packTxIndexes (txs 7) ]}
       | cfTxAddresses => {[ btx := packTxAddresses row ]}
       | cfAddressBalance => {[ addr := packAddrBalance [] broken ]}
       | _ => ∅
       end)
    (fun _ _ => false) false.

(** The outcome of a repair of the example. *)
Definition fixedDB : DB MapKV.map_kv :=
  match FixUtxos 2 (fun _ => false) db with Ok (s, _) => fx_db s | _ => db end.

(** The rebuilt output has the amount of the transaction row but not its asset: [fixUtxo]
    builds [Utxo{BtxID, Height, Vout, ValueSat}]. *)
Theorem rebuilt_outputs_lose_assets :
  (exists t, getTxAddresses db btx = Ok (Some t) /\ to_AssetInfo <$> ta_Outputs t !! 0%nat = Some asset)
  /\ GetAddrDescBalance fixedDB addr AddressBalanceDetailUTXO
     = Ok (Some (mkAddrBalance 1 0 700 [mkUtxo btx 0 7 700 None] ∅ ∅)).
Proof. split; [eexists; split; vm_compute; reflexivity | vm_compute; reflexivity]. Qed.

Lemma history h v : is_u32 h -> kv_get (db_cf db cfAddresses) (packAddressKey addr h) = Some v ->
  v = packTxIndexes (txs h) /\ row_ok (txs h).
Proof.
  intros Hh Hv. change (({[ packAddressKey addr 7 := packTxIndexes (txs 7) ]} : gmap bytes bytes) !! packAddressKey addr h = Some v) in Hv.
  apply lookup_singleton_Some in Hv as [E <-]. apply packAddressKey_inj in E as <-; [| done..].
  split; [done |]. split; repeat apply Forall_cons_2; try apply Forall_nil_2; [| by eexists].
  split; [done |]. split; [done |]. cbn [txi_indexes]. repeat constructor; lia.
Qed.

Lemma fix_utxos_repairs_witness :
  exists s, FixUtxos 2 (fun _ => false) db = Ok (s, None) /\ fx_row s = 1.
Proof.
  destruct (fix_utxos_repairs db) as (s & H1 & H2 & _).
  - done.
  - done.
  - assert (kv_list (column db) = [(addr, packAddrBalance [] broken)]) as -> by (vm_compute; reflexivity).
    constructor; [| constructor]. split; [| eexists; vm_compute; reflexivity].
    intros ba Hba. vm_compute in Hba. injection Hba as <-. cbn. lia.
  - exists s. split; [exact H1 | exact H2].
Defined.

Lemma rebuild_from_history_witness :
  exists us fixed e,
    fixUtxo db addr broken = Ok (if (fixed : bool) then putBalance db addr (rowWith us broken) else db, (fixed, false, Some e))
    /\ (fixed = true -> sumValues us = 700).
Proof.
  destruct (rebuild_from_history db addr broken txs) as (hs & _ & us & fixed & e & H1 & H2 & _).
  - discriminate.
  - vm_compute. discriminate.
  - reflexivity.
  - reflexivity.
  - discriminate.
  - exact history.
  - vm_compute. discriminate.
  - intros h t _ Ht. apply list_elem_of_singleton in Ht as ->. eexists. vm_compute. reflexivity.
  - exists us, fixed, e. split; [exact H1 |]. intros Hf. exact (proj1 (H2 Hf)).
Defined.
End FixExample.
