(* ===== verification/Assets.v ===== *)
(** Syscoin assets: the SPT asset table, its cache, and the per-block asset bookkeeping
    ([db/rocksdb_syscointype.go], with the asset rows of [bchain/coins/sys/syscoinparser.go]).

    The state threaded through the operations holds the maps of the block being
    processed and the process-wide cache. The asset payload of the wire protocol and the
    contract metadata fetched over NEVM are parameters. Asset pointers are handled by
    value: an operation that changes an asset stores it back into the map it came from. *)

From stdpp Require Import pretty.
From S2P Require Import Prelude Codec Parser TxAddr Balance IndexCodec Store Scan.

Local Open Scope Z_scope.

(** ** Parameters *)

(** [syscoinwire.AssetType]: its fields the index reads or writes, the literal
    [AssetType{Symbol: s, Precision: p}], and its serialization. *)
Class AssetWire := {
  AssetObj : Type;
  ao_Symbol : AssetObj -> bytes;
  ao_Precision : AssetObj -> Z;
  ao_Contract : AssetObj -> bytes;
  ao_TotalSupply : AssetObj -> Z;
  ao_new : bytes -> Z -> AssetObj;
  ao_setTotalSupply : Z -> AssetObj -> AssetObj;
  ao_Serialize : AssetObj -> result bytes;
  ao_Deserialize : bytes -> result AssetObj;
}.

Class AssetWireLaws (W : AssetWire) : Prop := {
  ao_new_Symbol s p : ao_Symbol (ao_new s p) = s;
  ao_new_Precision s p : ao_Precision (ao_new s p) = p;
  ao_new_Contract s p : ao_Contract (ao_new s p) = [];
  ao_new_TotalSupply s p : ao_TotalSupply (ao_new s p) = 0;
  ao_set_TotalSupply t o : ao_TotalSupply (ao_setTotalSupply t o) = t;
  ao_Deserialize_Serialize o b : ao_Serialize o = Ok b -> ao_Deserialize b = Ok o;
}.

Section Assets.
Context {V : Vlq} {P : ChainParser} {K : KV} {W : AssetWire}.

Record Asset := mkAsset {
  as_Transactions : Z;
  as_AssetObj : AssetObj;
  as_MetaData : bytes;
}.

Definition set_Transactions (n : Z) (a : Asset) : Asset := mkAsset n (as_AssetObj a) (as_MetaData a).

Definition ascii (s : string) : bytes := Stdlib.Strings.String.list_byte_of_string s.

Definition syscoinSYSXAssetGuid : Z := 123456.

Definition builtinSYSXAsset (transactions : Z) : Asset :=
  mkAsset transactions (ao_new (ascii "SYSX") 8) (ascii "Syscoin Native Asset").

(** [fmt.Sprintf("%d", guid)] *)
Definition decimal (guid : Z) : bytes := ascii (pretty (Z.to_N guid)).

Definition fallbackSyscoinAsset (guid : Z) : Asset := mkAsset 0 (ao_new (decimal guid) 8) [].

Definition isFallbackSyscoinAsset (guid : Z) (asset : Asset) : bool :=
  bool_decide (ao_Symbol (as_AssetObj asset) = decimal guid) &&
  (ao_Precision (as_AssetObj asset) =? 8) &&
  (zlen (ao_Contract (as_AssetObj asset)) =? 0) &&
  (zlen (as_MetaData asset) =? 0).

(** ** Asset rows *)

Definition SYSCOIN_TX_VERSION_ALLOCATION_BURN_TO_SYSCOIN : Z := 138.
Definition SYSCOIN_TX_VERSION_SYSCOIN_BURN_TO_ALLOCATION : Z := 139.
Definition SYSCOIN_TX_VERSION_ALLOCATION_MINT : Z := 140.
Definition SYSCOIN_TX_VERSION_ALLOCATION_BURN_TO_NEVM : Z := 141.
Definition SYSCOIN_TX_VERSION_ALLOCATION_SEND : Z := 142.

Definition AllMask : Z := 0.
Definition BaseCoinMask : Z := 1.
Definition AssetAllocationSendMask : Z := 2.
Definition AssetSyscoinBurnToAllocationMask : Z := 4.
Definition AssetAllocationBurnToSyscoinMask : Z := 8.
Definition AssetAllocationBurnToNEVMMask : Z := 16.
Definition AssetAllocationMintMask : Z := 32.

Definition GetAssetsMaskFromVersion (nVersion : Z) : Z :=
  if nVersion =? SYSCOIN_TX_VERSION_ALLOCATION_MINT then AssetAllocationMintMask
  else if nVersion =? SYSCOIN_TX_VERSION_ALLOCATION_BURN_TO_NEVM then AssetAllocationBurnToNEVMMask
  else if nVersion =? SYSCOIN_TX_VERSION_ALLOCATION_BURN_TO_SYSCOIN then AssetAllocationBurnToSyscoinMask
  else if nVersion =? SYSCOIN_TX_VERSION_SYSCOIN_BURN_TO_ALLOCATION then AssetSyscoinBurnToAllocationMask
  else if nVersion =? SYSCOIN_TX_VERSION_ALLOCATION_SEND then AssetAllocationSendMask
  else BaseCoinMask.

Record TxAssetIndex := mkTxAssetIndex { tai_Type : Z; tai_BtxID : bytes }.
Record TxAsset := mkTxAsset { tas_Height : Z; tas_Txs : list TxAssetIndex }.

Definition PackAssetKey (assetGuid height : Z) : bytes :=
  packVaruint64 assetGuid ++ packUint (not32 height).

Definition UnpackAssetKey (buf : bytes) : result (Z * Z) :=
  let '(assetGuid, l) := unpackVaruint64 buf in
  let! b := slice_from buf l in
  let! height := unpackUint b in
  Ok (assetGuid, not32 height).

Definition PackAssetTxIndex (txAsset : TxAsset) : bytes :=
  packVaruint (zlen (tas_Txs txAsset)) ++
  concat (map (fun t => packUint (tai_Type t) ++ tai_BtxID t) (tas_Txs txAsset)).

Fixpoint unpackAssetTxIndexLoop (n : nat) (buf : bytes) (l : Z) : result (list TxAssetIndex) :=
  match n with
  | O => Ok []
  | S n =>
      let! b := slice_from buf l in
      let! ty := unpackUint b in
      let l := l + 4 in
      let! btxID := slice buf l (l + PackedTxidLen) in
      let l := l + PackedTxidLen in
      let! r := unpackAssetTxIndexLoop n buf l in
      Ok (mkTxAssetIndex ty btxID :: r)
  end.

(** The empty list is nil. *)
Definition UnpackAssetTxIndex (buf : bytes) : result (list TxAssetIndex) :=
  let '(numTxIndexes, l) := unpackVaruint buf in
  unpackAssetTxIndexLoop (Z.to_nat numTxIndexes) buf l.

Definition PackAsset (asset : Asset) : result bytes :=
  let buf := packVaruint (as_Transactions asset) in
  let buf := buf ++ packVarBytes (as_MetaData asset) in
  let! buffer := ao_Serialize (as_AssetObj asset) in
  Ok (buf ++ buffer).

Definition UnpackAsset (buf : bytes) : result Asset :=
  let '(transactions, l) := unpackVaruint buf in
  let! b := slice_from buf l in
  let! '(metaData, ll) := unpackVarBytes b in
  let! r := slice_from buf (l + ll) in
  let! obj := ao_Deserialize r in
  Ok (mkAsset (u32 transactions) obj metaData).

Definition packAssetGuid (guid : Z) : bytes := vlq_PutUint guid.

Definition unpackAssetGuid (buf : bytes) : Z * Z := vlq_Uint buf.

(** ** State *)

Record TxAssetAddressIndex := mkTxAssetAddressIndex { taa_AddrDesc : bytes; taa_BtxID : bytes }.

(** The maps of the block ([None] is a nil map) and the process-wide cache. *)
Record AssetState := mkAssetState {
  ast_assets : option (gmap Z Asset);
  ast_txAssets : option (gmap bytes TxAsset);
  ast_addresses : gmap Z (list TxAssetAddressIndex);
  ast_cache : option (gmap Z Asset);
}.

Definition set_assets m (s : AssetState) := mkAssetState m (ast_txAssets s) (ast_addresses s) (ast_cache s).
Definition set_txAssets m (s : AssetState) := mkAssetState (ast_assets s) m (ast_addresses s) (ast_cache s).
Definition set_addresses m (s : AssetState) := mkAssetState (ast_assets s) (ast_txAssets s) m (ast_cache s).
Definition set_cache m (s : AssetState) := mkAssetState (ast_assets s) (ast_txAssets s) (ast_addresses s) m.

(** A write to a nil map panics. *)
Definition map_write {A} (k : Z) (v : A) (m : option (gmap Z A)) : result (option (gmap Z A)) :=
  match m with
  | None => Panic
  | Some m => Ok (Some (<[k := v]> m))
  end.

(** [AssetCache[guid] = a] *)
Definition cache_put (guid : Z) (a : Asset) (s : AssetState) : AssetState :=
  set_cache (Some (<[guid := a]> (default ∅ (ast_cache s)))) s.

End Assets.
Arguments Asset : clear implicits.
Arguments Asset W : assert.
Arguments AssetState : clear implicits.
Arguments AssetState W : assert.

(** What the database layer knows of the chain: nil, a chain without the fetcher of NEVM
    metadata, or one with it (a failing fetch is [None]). [hasAssetParser]: the chain parser implements
    [syscoinAssetParser]. *)
Class AssetEnv (W : AssetWire) := {
  chain : option (option (Z -> option (Asset W)));
  hasAssetParser : bool;
}.

Section AssetOps.
Context {V : Vlq} {P : ChainParser} {K : KV} {W : AssetWire} {E : AssetEnv W}.
Implicit Types (d : DB K) (st : AssetState W).

Definition fetchNEVMAssetDetails (guid : Z) : result (Asset W) :=
  match chain with
  | None => Err (ErrMsg "GetAsset: asset not found in DB")
  | Some None => Err (ErrMsg "GetAsset: NEVM asset fetcher is not configured")
  | Some (Some fetch) =>
      match fetch guid with
      | Some a => Ok a
      | None => Err (ErrMsg "FetchNEVMAssetDetails failed")
      end
  end.

(** The metadata of a fallback asset are fetched again; the transaction count is kept. *)
Definition refresh (guid : Z) (a : Asset W) : option (Asset W) :=
  if isFallbackSyscoinAsset guid a then
    match fetchNEVMAssetDetails guid with
    | Ok fetched => Some (set_Transactions (as_Transactions a) fetched)
    | _ => None
    end
  else None.

(** The lookup in the column, after the maps missed. *)
Definition GetAsset_db d (guid : Z) st : AssetState W * result (Asset W) :=
  let st := set_cache (Some (default ∅ (ast_cache st))) st in
  match GetCF d cfAssets (packAssetGuid guid) with
  | Err e => (st, Err e)
  | Panic => (st, Panic)
  | Ok None =>
      if guid =? syscoinSYSXAssetGuid then
        let a := builtinSYSXAsset 0 in (cache_put guid a st, Ok a)
      else
        match fetchNEVMAssetDetails guid with
        | Ok a => (cache_put guid a st, Ok a)
        | r => (st, r)
        end
  | Ok (Some buf) =>
      if zlen buf =? 0 then (st, Err (ErrMsg "GetAsset: empty value in asset db"))
      else if negb hasAssetParser then (st, Err (ErrMsg "GetAsset: Syscoin asset parser is not configured"))
      else
        match UnpackAsset buf with
        | Ok a =>
            let a := if guid =? syscoinSYSXAssetGuid then builtinSYSXAsset (as_Transactions a) else a in
            let a := default a (refresh guid a) in
            (cache_put guid a st, Ok a)
        | r => (st, r)
        end
  end.

Definition GetAsset d (guid : Z) st : AssetState W * result (Asset W) :=
  match default ∅ (ast_assets st) !! guid with
  | Some assetL1 =>
      if guid =? syscoinSYSXAssetGuid then (st, Ok (builtinSYSXAsset (as_Transactions assetL1)))
      else
        match refresh guid assetL1 with
        | Some a => (set_assets (Some (<[guid := a]> (default ∅ (ast_assets st)))) st, Ok a)
        | None => (st, Ok assetL1)
        end
  | None =>
      match default ∅ (ast_cache st) !! guid with
      | Some assetDbCache =>
          if guid =? syscoinSYSXAssetGuid then
            let a := builtinSYSXAsset (as_Transactions assetDbCache) in
            (cache_put guid a st, Ok a)
          else
            match refresh guid assetDbCache with
            | Some a => (cache_put guid a st, Ok a)
            | None => (st, Ok assetDbCache)
            end
      | None => GetAsset_db d guid st
      end
  end.

Definition hasTx (btxID : bytes) (txs : list TxAssetIndex) : bool :=
  existsb (fun t => bool_decide (btxID = tai_BtxID t)) txs.

(** The flag is true when the transaction was processed before. *)
Definition addToAssetsMap (assetGuid : Z) (btxID : bytes) (version height : Z) st
    : result (AssetState W * bool) :=
  if negb hasAssetParser then Ok (st, false)
  else
    let key := PackAssetKey assetGuid height in
    let entry := mkTxAssetIndex (GetAssetsMaskFromVersion version) btxID in
    match ast_txAssets st with
    | None => Panic
    | Some m =>
        match m !! key with
        | Some at_ =>
            if hasTx btxID (tas_Txs at_) then Ok (st, true)
            else Ok (set_txAssets (Some (<[key := mkTxAsset height (tas_Txs at_ ++ [entry])]> m)) st, false)
        | None => Ok (set_txAssets (Some (<[key := mkTxAsset height [entry]]> m)) st, false)
        end
    end.

Definition hasTxAddress (btxID addrDesc : bytes) (txs : list TxAssetAddressIndex) : bool :=
  existsb (fun t => bool_decide (btxID = taa_BtxID t) && bool_decide (addrDesc = taa_AddrDesc t)) txs.

Definition addToAssetAddressMap (assetGuid : Z) (btxID addrDesc : bytes) st : AssetState W * bool :=
  let m := ast_addresses st in
  let txs := default [] (m !! assetGuid) in
  if hasTxAddress btxID addrDesc txs then (st, true)
  else (set_addresses (<[assetGuid := txs ++ [mkTxAssetAddressIndex addrDesc btxID]]> m) st, false).

(** [GetAsset], or the fallback asset when it fails. *)
Definition GetAssetOrFallback d (guid : Z) st : result (AssetState W * Asset W) :=
  match GetAsset d guid st with
  | (st, Ok a) => Ok (st, a)
  | (st, Err _) => Ok (st, fallbackSyscoinAsset guid)
  | (_, Panic) => Panic
  end.

Definition floor0 (z : Z) : Z := if z <? 0 then 0 else z.

(** The common part of connecting an input or output: count the transaction once per
    asset, and the transfer once per asset, transaction and address. *)
Definition countConnect d (addrDesc : bytes) (height version : Z) (btxID : bytes) (guid : Z) st
    : result (AssetState W * bool) :=
  let! '(st, dBAsset) := GetAssetOrFallback d guid st in
  let! '(st, counted) := addToAssetsMap guid btxID version height st in
  let! st :=
    (if counted then Ok st
     else
       let! m := map_write guid (set_Transactions (u32 (as_Transactions dBAsset + 1)) dBAsset) (ast_assets st) in
       Ok (set_assets m st)) in
  Ok (addToAssetAddressMap guid btxID addrDesc st).

Definition ConnectAllocationInput d (addrDesc : bytes) (height version : Z) (balanceAsset : AssetBalance)
    (btxID : bytes) (assetInfo : AssetInfo) st : result (AssetState W * AssetBalance) :=
  let! '(st, counted) := countConnect d addrDesc height version btxID (AssetGuid assetInfo) st in
  let transfers := if counted then asb_Transfers balanceAsset else u32 (asb_Transfers balanceAsset + 1) in
  match AssetValueSat assetInfo with
  | None => Panic
  | Some v =>
      Ok (st, mkAssetBalance transfers (floor0 (asb_BalanceSat balanceAsset - v)) (asb_SentSat balanceAsset + v))
  end.

Definition ConnectAllocationOutput d (addrDesc : bytes) (height : Z) (balanceAsset : AssetBalance)
    (version : Z) (btxID : bytes) (assetInfo : AssetInfo) st : result (AssetState W * AssetBalance) :=
  let! '(st, counted) := countConnect d addrDesc height version btxID (AssetGuid assetInfo) st in
  let transfers := if counted then asb_Transfers balanceAsset else u32 (asb_Transfers balanceAsset + 1) in
  match AssetValueSat assetInfo with
  | None => Panic
  | Some v => Ok (st, mkAssetBalance transfers (asb_BalanceSat balanceAsset + v) (asb_SentSat balanceAsset))
  end.

(** [exists_]: the asset was seen in the transaction before. The count of an output that
    drops to zero marks the asset for removal. *)
Definition DisconnectAllocationOutput d (addrDesc : bytes) (balanceAsset : AssetBalance) (btxID : bytes)
    (assetInfo : AssetInfo) (exists_ : bool) st : result (AssetState W * AssetBalance) :=
  let guid := AssetGuid assetInfo in
  let! '(st, dBAsset) := GetAssetOrFallback d guid st in
  match AssetValueSat assetInfo with
  | None => Panic
  | Some v =>
      let balanceSat := floor0 (asb_BalanceSat balanceAsset - v) in
      let dBAsset :=
        if exists_ then dBAsset
        else
          let n := u32 (as_Transactions dBAsset - 1) in
          if n =? 0 then mkAsset n (ao_setTotalSupply (-1) (as_AssetObj dBAsset)) (as_MetaData dBAsset)
          else set_Transactions n dBAsset in
      let '(st, counted) := addToAssetAddressMap guid btxID addrDesc st in
      let transfers := if counted then asb_Transfers balanceAsset else u32 (asb_Transfers balanceAsset - 1) in
      let! m := map_write guid dBAsset (ast_assets st) in
      Ok (set_assets m st, mkAssetBalance transfers balanceSat (asb_SentSat balanceAsset))
  end.

Definition DisconnectAllocationInput d (addrDesc : bytes) (balanceAsset : AssetBalance) (btxID : bytes)
    (assetInfo : AssetInfo) (exists_ : bool) st : result (AssetState W * AssetBalance) :=
  let guid := AssetGuid assetInfo in
  let! '(st, dBAsset) := GetAssetOrFallback d guid st in
  match AssetValueSat assetInfo with
  | None => Panic
  | Some v =>
      let balanceSat := asb_BalanceSat balanceAsset + v in
      let sentSat := floor0 (asb_SentSat balanceAsset - v) in
      let dBAsset := if exists_ then dBAsset else set_Transactions (u32 (as_Transactions dBAsset - 1)) dBAsset in
      let '(st, counted) := addToAssetAddressMap guid btxID addrDesc st in
      let transfers := if counted then asb_Transfers balanceAsset else u32 (asb_Transfers balanceAsset - 1) in
      let! m := map_write guid dBAsset (ast_assets st) in
      Ok (set_assets m st, mkAssetBalance transfers balanceSat sentSat)
  end.

(** One asset of [storeAssets]: the cache and the batch operation. *)
Definition storeAsset (guid : Z) (asset : Asset W) (cache : gmap Z (Asset W))
    : result (gmap Z (Asset W) * BatchOp) :=
  let asset := if guid =? syscoinSYSXAssetGuid then builtinSYSXAsset (as_Transactions asset) else asset in
  let key := packAssetGuid guid in
  if ao_TotalSupply (as_AssetObj asset) =? -1 then Ok (delete guid cache, DeleteCF cfAssets key)
  else if negb hasAssetParser then Err (ErrMsg "storeAssets: Syscoin asset parser is not configured")
  else
    let! buf := PackAsset asset in
    Ok (<[guid := asset]> cache, PutCF cfAssets key buf).

(** The loop over the map runs in the given order. *)
Definition storeAssets (order : list (Z * Asset W)) (wb : list BatchOp) st : result (list BatchOp * AssetState W) :=
  match ast_assets st with
  | None => Ok (wb, st)
  | Some _ =>
      let! '(wb, cache) :=
        rfold (fun s e =>
                 let '(wb, cache) := s in
                 let! '(cache, op) := storeAsset e.1 e.2 cache in
                 Ok (wb ++ [op], cache))
          order (wb, default ∅ (ast_cache st)) in
      Ok (wb, set_cache (Some cache) st)
  end.

Definition storeTxAssets (wb : list BatchOp) st : result (list BatchOp) :=
  let m := default ∅ (ast_txAssets st) in
  if bool_decide (m = ∅) then Ok wb
  else if negb hasAssetParser then Err (ErrMsg "storeTxAssets: Syscoin asset parser is not configured")
  else Ok (wb ++ map (fun e => PutCF cfTxAssets e.1 (PackAssetTxIndex e.2)) (map_to_list m)).

(** ** The history of an asset *)

Context {A : Type} (fn : list bytes -> A -> A * option goerror).

Definition maskMatches (assetsBitMask : Z) (t : TxAssetIndex) : bool :=
  (assetsBitMask =? AllMask) || (Z.land assetsBitMask (tai_Type t) =? tai_Type t).

Fixpoint scanAssetRows (stopKey : bytes) (assetsBitMask : Z) (rows : list (bytes * bytes)) (s : A)
    : A * result unit :=
  match rows with
  | [] => (s, Ok tt)
  | (key, val) :: rest =>
      if before stopKey key then (s, Ok tt)
      else
        match UnpackAssetTxIndex val with
        | Ok txIndexes =>
            let txids := map (fun t => hex_EncodeToString (tai_BtxID t))
                           (List.filter (maskMatches assetsBitMask) txIndexes) in
            if 0 <? zlen txids then
              match fn txids s with
              | (s, None) => scanAssetRows stopKey assetsBitMask rest s
              | (s, Some ErrStop) => (s, Ok tt)
              | (s, Some e) => (s, Err e)
              end
            else scanAssetRows stopKey assetsBitMask rest s
        | Err e => (s, Err e)
        | Panic => (s, Panic)
        end
  end.

Definition GetTxAssets d (assetGuid lower higher assetsBitMask : Z) (s : A) : A * result unit :=
  if negb hasAssetParser then (s, Err (ErrMsg "GetTxAssets: Syscoin asset parser is not configured"))
  else
    scanAssetRows (PackAssetKey assetGuid lower) assetsBitMask
      (seek (PackAssetKey assetGuid higher) (kv_list (db_cf d cfTxAssets))) s.

End AssetOps.

(** ** Round trips *)

Section AssetRows.
Context {V : Vlq} {VL : VlqLaws V} {P : ChainParser} {K : KV} {KL : KVLaws K}
  {W : AssetWire} {WL : AssetWireLaws W}.

Lemma zlen_packUint h : zlen (packUint h) = 4.
Proof. unfold packUint. by rewrite zlen_be_put. Qed.

Lemma UnpackAssetKey_Pack guid height :
  is_u64 guid -> is_u32 height -> UnpackAssetKey (PackAssetKey guid height) = Ok (guid, height).
Proof.
  intros Hg Hh. unfold UnpackAssetKey, PackAssetKey. rewrite unpackVaruint64_pack by done.
  rewrite slice_from_app by done. cbn [rbind]. rewrite <- (app_nil_r (packUint _)).
  rewrite unpackUint_pack by by apply not32_range. cbn [rbind]. by rewrite not32_involutive.
Qed.

Definition txAssetIndex_ok (t : TxAssetIndex) : Prop :=
  is_u32 (tai_Type t) /\ zlen (tai_BtxID t) = PackedTxidLen.

Definition encTxAssetIndex (t : TxAssetIndex) : bytes := packUint (tai_Type t) ++ tai_BtxID t.

Lemma unpackAssetTxIndexLoop_concat ts :
  0 <= PackedTxidLen -> Forall txAssetIndex_ok ts -> forall pre l, l = zlen pre ->
  unpackAssetTxIndexLoop (length ts) (pre ++ concat (map encTxAssetIndex ts)) l = Ok ts.
Proof.
  intros HP. induction 1 as [|t ts [Ht Hl] Hts IH]; intros pre l ->; [done|].
  cbn [length map concat unpackAssetTxIndexLoop]. rewrite slice_from_app by done. cbn [rbind].
  revert IH. generalize (concat (map encTxAssetIndex ts)). intros rest IH.
  unfold encTxAssetIndex. rewrite <- !app_assoc, unpackUint_pack by done. cbn [rbind].
  rewrite (app_assoc pre).
  rewrite slice_app by (rewrite ?zlen_app, ?zlen_packUint; lia). cbn [rbind].
  rewrite (app_assoc (pre ++ packUint (tai_Type t))), IH by (rewrite !zlen_app, zlen_packUint; lia).
  cbn [rbind]. by destruct t.
Qed.

Lemma UnpackAssetTxIndex_Pack h ts :
  0 <= PackedTxidLen -> Forall txAssetIndex_ok ts -> zlen ts < 2 ^ 63 ->
  UnpackAssetTxIndex (PackAssetTxIndex (mkTxAsset h ts)) = Ok ts.
Proof.
  intros HP Hts Hn. unfold UnpackAssetTxIndex, PackAssetTxIndex. cbn [tas_Txs].
  rewrite unpackVaruint_pack by (unfold is_u64; pose proof (zlen_nonneg ts); lia).
  rewrite to_nat_zlen. by apply unpackAssetTxIndexLoop_concat.
Qed.

Definition asset_row_ok (a : Asset W) : Prop :=
  is_u32 (as_Transactions a) /\ fits (as_MetaData a).

#[export] Instance asset_row_ok_dec a : Decision (asset_row_ok a).
Proof. unfold asset_row_ok. apply _. Defined.

Lemma UnpackAsset_Pack (a : Asset W) buf :
  asset_row_ok a -> PackAsset a = Ok buf -> UnpackAsset buf = Ok a.
Proof.
  intros [Ht Hm] Hp. unfold PackAsset in Hp.
  destruct (ao_Serialize (as_AssetObj a)) as [b| |] eqn:Eb; try discriminate. cbn [rbind] in Hp.
  injection Hp as <-. unfold UnpackAsset. rewrite <- app_assoc.
  rewrite unpackVaruint_pack by (unfold is_u32, is_u64 in *; lia).
  rewrite slice_from_app by done. cbn [rbind].
  rewrite (unpackVarBytes_pack _ Hm). cbn [rbind].
  rewrite app_assoc, slice_from_app by by rewrite zlen_app. cbn [rbind].
  rewrite (ao_Deserialize_Serialize _ _ Eb). cbn [rbind]. rewrite u32_id by done. by destruct a.
Qed.
End AssetRows.

(** ** The operations succeed *)

Section AssetOpsOk.
Context {V : Vlq} {P : ChainParser} {K : KV} {W : AssetWire} {E : AssetEnv W}.
Implicit Types (d : DB K) (st : AssetState W).

Definition assets_readable d : Prop :=
  forall guid buf, GetCF d cfAssets (packAssetGuid guid) = Ok (Some buf) -> UnpackAsset buf <> Panic.

(** The maps of the block exist. *)
Definition asset_ready st : Prop := is_Some (ast_assets st) /\ is_Some (ast_txAssets st).

Lemma GetAsset_db_ok d guid st :
  assets_readable d -> is_Some (ast_assets st) ->
  let r := GetAsset_db d guid st in
  is_Some (ast_assets r.1) /\ ast_txAssets r.1 = ast_txAssets st /\ r.2 <> Panic.
Proof.
  intros Hd Hr. specialize (Hd guid). unfold GetAsset_db, GetCF in *.
  destruct (db_rfault d cfAssets (packAssetGuid guid)); [done|].
  destruct (kv_get (db_cf d cfAssets) (packAssetGuid guid)) as [buf|].
  - specialize (Hd buf eq_refl). destruct (zlen buf =? 0); [done|]. destruct (negb hasAssetParser); [done|].
    by destruct (UnpackAsset buf).
  - destruct (guid =? syscoinSYSXAssetGuid); [done|].
    unfold fetchNEVMAssetDetails. by repeat case_match.
Qed.

Lemma GetAsset_ok d guid st :
  assets_readable d -> is_Some (ast_assets st) ->
  let r := GetAsset d guid st in
  is_Some (ast_assets r.1) /\ ast_txAssets r.1 = ast_txAssets st /\ r.2 <> Panic.
Proof.
  intros Hd Hr. unfold GetAsset. destruct (default ∅ (ast_assets st) !! guid) as [a|].
  - destruct (guid =? syscoinSYSXAssetGuid); [done|]. destruct (refresh guid a); [|done].
    split; [by eexists|done].
  - destruct (default ∅ (ast_cache st) !! guid) as [a|]; [|by apply GetAsset_db_ok].
    destruct (guid =? syscoinSYSXAssetGuid); [done|]. by destruct (refresh guid a).
Qed.

Lemma GetAssetOrFallback_ok d guid st :
  assets_readable d -> is_Some (ast_assets st) ->
  exists st' a, GetAssetOrFallback d guid st = Ok (st', a) /\ is_Some (ast_assets st') /\
    ast_txAssets st' = ast_txAssets st.
Proof.
  intros Hd Hr. destruct (GetAsset_ok d guid st Hd Hr) as (H1 & H2 & H3). unfold GetAssetOrFallback.
  destruct (GetAsset d guid st) as [st' [a| |]]; cbn in *; [eauto 10|eauto 10|done].
Qed.

Lemma addToAssetsMap_ok guid btxID version height st :
  asset_ready st ->
  exists st' c, addToAssetsMap guid btxID version height st = Ok (st', c) /\ asset_ready st'.
Proof.
  intros [Ha [m Hm]]. unfold addToAssetsMap. destruct (negb hasAssetParser); [by eexists _, _; split|].
  rewrite Hm. assert (forall m', asset_ready (set_txAssets (Some m') st)) as Hs by (split; [done|by eexists]).
  destruct (m !! PackAssetKey guid height) as [at_|]; [destruct (hasTx btxID (tas_Txs at_))|];
    (eexists _, _; split; [reflexivity|]); [split; [done|by eexists]|apply Hs|apply Hs].
Qed.

Lemma countConnect_ok d addrDesc height version btxID guid st :
  assets_readable d -> asset_ready st ->
  exists st' c, countConnect d addrDesc height version btxID guid st = Ok (st', c) /\ asset_ready st'.
Proof.
  intros Hd Hr. unfold countConnect.
  destruct (GetAssetOrFallback_ok d guid st Hd (proj1 Hr)) as (st1 & a & -> & Hr1 & Ht1). cbn [rbind].
  assert (asset_ready st1) as Hready by (split; [done|]; rewrite Ht1; apply Hr). clear Hr1. rename Hready into Hr1.
  destruct (addToAssetsMap_ok guid btxID version height st1 Hr1) as (st2 & c & -> & Hr2). cbn [rbind].
  assert (exists st3, (if c then Ok st2
     else let! m := map_write guid (set_Transactions (u32 (as_Transactions a + 1)) a) (ast_assets st2) in
          Ok (set_assets m st2)) = Ok st3 /\ asset_ready st3) as (st3 & -> & Hr3).
  { destruct c; [eauto|]. destruct Hr2 as [[m Hm] Ht]. rewrite Hm. cbn [map_write rbind].
    eexists. split; [done|]. split; [by eexists|done]. }
  cbn [rbind]. destruct (addToAssetAddressMap guid btxID addrDesc st3) as [st4 c4] eqn:E4.
  exists st4, c4. split; [done|]. unfold addToAssetAddressMap in E4. by case_match; simplify_eq.
Qed.

Lemma ConnectAllocationOutput_ok d addrDesc height b version btxID ai v st :
  assets_readable d -> asset_ready st -> AssetValueSat ai = Some v ->
  exists st' b', ConnectAllocationOutput d addrDesc height b version btxID ai st = Ok (st', b') /\
    asset_ready st' /\ asb_BalanceSat b' = asb_BalanceSat b + v.
Proof.
  intros Hd Hr Hv. unfold ConnectAllocationOutput.
  destruct (countConnect_ok d addrDesc height version btxID (AssetGuid ai) st Hd Hr) as (st1 & c & -> & Hr1).
  cbn [rbind]. rewrite Hv. by eexists _, _.
Qed.

Lemma ConnectAllocationInput_ok d addrDesc height b version btxID ai v st :
  assets_readable d -> asset_ready st -> AssetValueSat ai = Some v -> v <= asb_BalanceSat b ->
  exists st' b', ConnectAllocationInput d addrDesc height version b btxID ai st = Ok (st', b') /\
    asset_ready st' /\ asb_BalanceSat b' = asb_BalanceSat b - v.
Proof.
  intros Hd Hr Hv Hb. unfold ConnectAllocationInput.
  destruct (countConnect_ok d addrDesc height version btxID (AssetGuid ai) st Hd Hr) as (st1 & c & -> & Hr1).
  cbn [rbind]. rewrite Hv. eexists _, _. split; [done|]. split; [done|]. cbn. unfold floor0.
  destruct (Z.ltb_spec (asb_BalanceSat b - v) 0); lia.
Qed.

Lemma addToAssetAddressMap_keeps guid btxID addrDesc st :
  ast_assets (addToAssetAddressMap guid btxID addrDesc st).1 = ast_assets st.
Proof. unfold addToAssetAddressMap. by case_match. Qed.

Lemma DisconnectAllocationInput_ok d addrDesc b btxID ai v seen st :
  assets_readable d -> is_Some (ast_assets st) -> AssetValueSat ai = Some v ->
  exists st' b', DisconnectAllocationInput d addrDesc b btxID ai seen st = Ok (st', b') /\
    is_Some (ast_assets st') /\ asb_BalanceSat b' = asb_BalanceSat b + v.
Proof.
  intros Hd Hr Hv. unfold DisconnectAllocationInput.
  destruct (GetAssetOrFallback_ok d (AssetGuid ai) st Hd Hr) as (st1 & a & -> & Hr1 & _). cbn [rbind]. rewrite Hv.
  pose proof (addToAssetAddressMap_keeps (AssetGuid ai) btxID addrDesc st1) as Hk.
  destruct (addToAssetAddressMap _ _ _ st1) as [st2 c]. cbn in Hk. destruct Hr1 as [m Hm].
  rewrite Hk, Hm. cbn [map_write rbind]. eexists _, _. split; [done|]. split; [by eexists|done].
Qed.

Lemma DisconnectAllocationOutput_ok d addrDesc b btxID ai v seen st :
  assets_readable d -> is_Some (ast_assets st) -> AssetValueSat ai = Some v -> v <= asb_BalanceSat b ->
  exists st' b', DisconnectAllocationOutput d addrDesc b btxID ai seen st = Ok (st', b') /\
    is_Some (ast_assets st') /\ asb_BalanceSat b' = asb_BalanceSat b - v.
Proof.
  intros Hd Hr Hv Hle. unfold DisconnectAllocationOutput.
  destruct (GetAssetOrFallback_ok d (AssetGuid ai) st Hd Hr) as (st1 & a & -> & Hr1 & _). cbn [rbind]. rewrite Hv.
  pose proof (addToAssetAddressMap_keeps (AssetGuid ai) btxID addrDesc st1) as Hk.
  destruct (addToAssetAddressMap _ _ _ st1) as [st2 c]. cbn in Hk. destruct Hr1 as [m Hm].
  rewrite Hk, Hm. cbn [map_write rbind]. eexists _, _. split; [done|]. split; [by eexists|]. cbn. unfold floor0.
  destruct (Z.ltb_spec (asb_BalanceSat b - v) 0); lia.
Qed.
End AssetOpsOk.

(** ** A reference payload: two byte strings and two numbers, serialized bit by bit *)

Module RefWire.

Fixpoint bits (p : positive) : bytes :=
  match p with
  | xH => []
  | xO p => x00 :: bits p
  | xI p => x01 :: bits p
  end.

Fixpoint unbits (b : bytes) : positive :=
  match b with
  | [] => xH
  | x00 :: r => xO (unbits r)
  | _ :: r => xI (unbits r)
  end.

Lemma unbits_bits p : unbits (bits p) = p.
Proof. induction p as [p IH|p IH|]; cbn; by rewrite ?IH. Qed.

Definition payload : Type := bytes * Z * bytes * Z.

#[export] Instance wire : AssetWire := {
  AssetObj := payload;
  ao_Symbol o := o.1.1.1;
  ao_Precision o := o.1.1.2;
  ao_Contract o := o.1.2;
  ao_TotalSupply o := o.2;
  ao_new s p := (s, p, [], 0);
  ao_setTotalSupply t o := (o.1, t);
  ao_Serialize o := Ok (bits (encode o));
  ao_Deserialize b :=
    match decode (A := payload) (unbits b) with
    | Some o => Ok o
    | None => Err (ErrMsg "malformed asset")
    end;
}.

#[export] Instance wire_laws : AssetWireLaws wire.
Proof.
  constructor; try done. cbn. intros o b [= <-]. by rewrite unbits_bits, decode_encode.
Qed.

(** No NEVM node, and the parser of assets. *)
#[export] Instance env : AssetEnv wire := { chain := None; hasAssetParser := true }.

End RefWire.
