(* ===== verification/Connect.v ===== *)
(** Connecting a block ([db/rocksdb.go]: [processAddressesBitcoinType], [addToAddressesMap],
    the Bitcoin-type branch of [ConnectBlock]).

    The maps of the block are the record [ConnState]. The entries of [txAddressesMap] are
    pointers in the code, also reached through [blockTxAddresses]; the model looks the
    entry of a transaction up by its txid. The two agree: only the outputs of an entry
    are read back, always through the map, and the inputs are written as a whole. *)

From S2P Require Import Prelude Codec Parser Golomb TxAddr Balance IndexCodec Store Scan Assets.

Local Open Scope Z_scope.

Definition maxAddrDescLen : Z := 1024.

(** The filter settings of the internal state. *)
Class FilterOpts := {
  BlockGolombFilterP : Z;
  BlockFilterScripts : string;
  BlockFilterUseZeroedKey : bool;
}.

Record ConnState {W : AssetWire} := mkConnState {
  cs_addresses : gmap bytes (list txIndexes);
  cs_txAddresses : gmap bytes TxAddresses;
  cs_balances : gmap bytes AddrBalance;
  cs_gf : option GolombFilter;
  cs_assets : AssetState W;
}.
Arguments ConnState : clear implicits.
Arguments ConnState W : assert.

(** ** The address index of the block *)

Fixpoint appendIndex (btxID : bytes) (index : Z) (l : list txIndexes) : option (list txIndexes) :=
  match l with
  | [] => None
  | t :: r =>
      if bool_decide (btxID = txi_btxID t)
      then Some (mkTxIndexes (txi_btxID t) (txi_indexes t ++ [index]) :: r)
      else cons t <$> appendIndex btxID index r
  end.

(** The flag is true when the transaction was listed before. *)
Definition addToAddressesMap (addresses : gmap bytes (list txIndexes)) (strAddrDesc btxID : bytes)
    (index : Z) : gmap bytes (list txIndexes) * bool :=
  let at_ := default [] (addresses !! strAddrDesc) in
  match appendIndex btxID index at_ with
  | Some at_ => (<[strAddrDesc := at_]> addresses, true)
  | None => (<[strAddrDesc := at_ ++ [mkTxIndexes btxID [index]]]> addresses, false)
  end.

(** ** Field updates *)

Definition blankOutput : TxOutput := mkTxOutput [] false 0 None [] 0 0.
Definition blankInput : TxInput := mkTxInput [] 0 None [] 0.

Definition set_Outputs (os : list TxOutput) (ta : TxAddresses) : TxAddresses :=
  mkTxAddresses (ta_Height ta) (ta_Inputs ta) os (ta_Version ta) (ta_Memo ta) (ta_VSize ta).
Definition set_Inputs (l : list TxInput) (ta : TxAddresses) : TxAddresses :=
  mkTxAddresses (ta_Height ta) l (ta_Outputs ta) (ta_Version ta) (ta_Memo ta) (ta_VSize ta).

Definition set_Txs (n : Z) (ab : AddrBalance) : AddrBalance :=
  mkAddrBalance n (ab_SentSat ab) (ab_BalanceSat ab) (ab_Utxos ab) (ab_AssetBalances ab) (ab_utxosMap ab).
Definition set_BalanceSat (v : Z) (ab : AddrBalance) : AddrBalance :=
  mkAddrBalance (ab_Txs ab) (ab_SentSat ab) v (ab_Utxos ab) (ab_AssetBalances ab) (ab_utxosMap ab).
Definition set_SentSat (v : Z) (ab : AddrBalance) : AddrBalance :=
  mkAddrBalance (ab_Txs ab) v (ab_BalanceSat ab) (ab_Utxos ab) (ab_AssetBalances ab) (ab_utxosMap ab).
Definition set_AssetBalance (guid : Z) (b : AssetBalance) (ab : AddrBalance) : AddrBalance :=
  mkAddrBalance (ab_Txs ab) (ab_SentSat ab) (ab_BalanceSat ab) (ab_Utxos ab)
    (<[guid := b]> (ab_AssetBalances ab)) (ab_utxosMap ab).

(** [balance.AssetBalances[guid]], created when missing *)
Definition assetBalanceOf (guid : Z) (ab : AddrBalance) : AssetBalance :=
  default (mkAssetBalance 0 0 0) (ab_AssetBalances ab !! guid).

(** [if !counted { balance.Txs++ }] *)
Definition countTx (counted : bool) (ab : AddrBalance) : AddrBalance :=
  if counted then ab else set_Txs (u32 (ab_Txs ab + 1)) ab.

Definition enumerate {A} (l : list A) : list (nat * A) := imap pair l.

Section Connect.
Context {V : Vlq} {P : ChainParser} {IX : IndexOpts} {K : KV} {W : AssetWire} {E : AssetEnv W}
  {G : Gcs} {FO : FilterOpts}.
Implicit Types (d : DB K) (st : ConnState W).

Definition with_addresses m st := mkConnState W m (cs_txAddresses st) (cs_balances st) (cs_gf st) (cs_assets st).
Definition with_txAddresses m st := mkConnState W (cs_addresses st) m (cs_balances st) (cs_gf st) (cs_assets st).
Definition with_balances m st := mkConnState W (cs_addresses st) (cs_txAddresses st) m (cs_gf st) (cs_assets st).
Definition with_gf f st := mkConnState W (cs_addresses st) (cs_txAddresses st) (cs_balances st) f (cs_assets st).
Definition with_assets a st := mkConnState W (cs_addresses st) (cs_txAddresses st) (cs_balances st) (cs_gf st) a.

(** Assignments through the entry of a transaction. *)
Definition updTx (t : bytes) (f : TxAddresses -> TxAddresses) st : ConnState W :=
  with_txAddresses (alter f t (cs_txAddresses st)) st.
Definition updOutput (t : bytes) (i : nat) (f : TxOutput -> TxOutput) : ConnState W -> ConnState W :=
  updTx t (fun ta => set_Outputs (alter f i (ta_Outputs ta)) ta).
Definition updInput (t : bytes) (i : nat) (f : TxInput -> TxInput) : ConnState W -> ConnState W :=
  updTx t (fun ta => set_Inputs (alter f i (ta_Inputs ta)) ta).

Definition gfAdd (addrDesc : bytes) (tx : Tx) st : ConnState W :=
  with_gf (AddAddrDesc addrDesc (Some tx) <$> cs_gf st) st.

(** [balances[strAddrDesc]], read from the database when missing *)
Definition getBalance d (addrDesc : bytes) st : result (AddrBalance * ConnState W) :=
  match cs_balances st !! addrDesc with
  | Some b => Ok (b, st)
  | None =>
      let! o := GetAddrDescBalance d addrDesc addressBalanceDetailUTXOIndexed in
      let b := default emptyBalance o in
      Ok (b, with_balances (<[addrDesc := b]> (cs_balances st)) st)
  end.

Definition putBalance (addrDesc : bytes) (b : AddrBalance) st : ConnState W :=
  with_balances (<[addrDesc := b]> (cs_balances st)) st.

(** ** Outputs *)

Definition connectOutputAsset d (addrDesc : bytes) (height : Z) (tx : Tx) (btxID : bytes)
    (ai : option AssetInfo) (balance : AddrBalance) st : result (AddrBalance * ConnState W) :=
  match ai with
  | None => Ok (balance, st)
  | Some ai =>
      let! '(ast, ba) := ConnectAllocationOutput d addrDesc height (assetBalanceOf (AssetGuid ai) balance)
                           (tx_Version tx) btxID ai (cs_assets st) in
      Ok (set_AssetBalance (AssetGuid ai) ba balance, with_assets ast st)
  end.

(** The part for a descriptor that is indexed. *)
Definition creditOutput d (height : Z) (tx : Tx) (btxID addrDesc : bytes) (i : nat) (output : Vout) st
    : result (ConnState W) :=
  let! '(balance, st) := getBalance d addrDesc st in
  let balance := set_BalanceSat (ab_BalanceSat balance + vout_ValueSat output) balance in
  let! '(balance, st) := connectOutputAsset d addrDesc height tx btxID (vout_AssetInfo output) balance st in
  let balance := addUtxo (mkUtxo btxID (i32 (Z.of_nat i)) height (vout_ValueSat output) (vout_AssetInfo output)) balance in
  let '(addresses, counted) := addToAddressesMap (cs_addresses st) addrDesc btxID (i32 (Z.of_nat i)) in
  Ok (putBalance addrDesc (countTx counted balance) (with_addresses addresses st)).

Definition processOutput d (height : Z) (tx : Tx) (btxID : bytes) st (e : nat * Vout) : result (ConnState W) :=
  let '(i, output) := e in
  let st := updOutput btxID i (fun o => mkTxOutput (to_AddrDesc o) (to_Spent o) (vout_ValueSat output)
              (vout_AssetInfo output) (to_SpentTxid o) (to_SpentIndex o) (to_SpentHeight o)) st in
  match GetAddrDescFromVout output with
  | Panic => Panic
  | Err _ => Ok st
  | Ok addrDesc =>
      if (zlen addrDesc =? 0) || (maxAddrDescLen <? zlen addrDesc) then Ok st
      else
        let st := gfAdd addrDesc tx st in
        let st := updOutput btxID i (fun o => mkTxOutput addrDesc (to_Spent o) (to_ValueSat o)
                    (to_AssetInfo o) (to_SpentTxid o) (to_SpentIndex o) (to_SpentHeight o)) st in
        if IsAddrDescIndexable addrDesc then creditOutput d height tx btxID addrDesc i output st
        else Ok st
  end.

Definition newTxAddresses (height : Z) (tx : Tx) : TxAddresses :=
  mkTxAddresses height [] (replicate (length (tx_Vout tx)) blankOutput) (tx_Version tx) (tx_Memo tx)
    (if extendedIndex then if 0 <? tx_VSize tx then u32 (tx_VSize tx) else u32 (zlen (tx_Hex tx)) else 0).

Definition processTxOutputs d (height : Z) st (tx : Tx) : result (ConnState W) :=
  let! btxID := PackTxid (tx_Txid tx) in
  let st := with_txAddresses (<[btxID := newTxAddresses height tx]> (cs_txAddresses st)) st in
  rfold (processOutput d height tx btxID) (enumerate (tx_Vout tx)) st.

(** ** Inputs *)

Definition connectInputAsset d (addrDesc : bytes) (height : Z) (tx : Tx) (spendingTxid : bytes)
    (ai : option AssetInfo) (balance : AddrBalance) st : result (AddrBalance * ConnState W) :=
  match ai with
  | None => Ok (balance, st)
  | Some ai =>
      let! '(ast, ba) := ConnectAllocationInput d addrDesc height (tx_Version tx)
                           (assetBalanceOf (AssetGuid ai) balance) spendingTxid ai (cs_assets st) in
      Ok (set_AssetBalance (AssetGuid ai) ba balance, with_assets ast st)
  end.

Definition debitInput d (height : Z) (tx : Tx) (spendingTxid btxID : bytes) (i : nat) (input : Vin)
    (spentOutput : TxOutput) st : result (ConnState W) :=
  let addrDesc := to_AddrDesc spentOutput in
  let! '(balance, st) := getBalance d addrDesc st in
  let '(addresses, counted) := addToAddressesMap (cs_addresses st) addrDesc spendingTxid (Z.lnot (i32 (Z.of_nat i))) in
  let st := with_addresses addresses st in
  let balance := countTx counted balance in
  let balance := set_BalanceSat (ab_BalanceSat balance - to_ValueSat spentOutput) balance in
  let! '(balance, st) := connectInputAsset d addrDesc height tx spendingTxid (to_AssetInfo spentOutput) balance st in
  let balance := markUtxoAsSpent btxID (i32 (vin_Vout input)) balance in
  let balance := if ab_BalanceSat balance <? 0 then set_BalanceSat 0 balance else balance in
  Ok (putBalance addrDesc (set_SentSat (ab_SentSat balance + to_ValueSat spentOutput) balance) st).

(** [ita, e := txAddressesMap[stxID]], read from the database when missing *)
Definition getSpentTx d (btxID : bytes) st : result (option TxAddresses * ConnState W) :=
  match cs_txAddresses st !! btxID with
  | Some ita => Ok (Some ita, st)
  | None =>
      let! o := getTxAddresses d btxID in
      match o with
      | None => Ok (None, st)
      | Some ita => Ok (Some ita, with_txAddresses (<[btxID := ita]> (cs_txAddresses st)) st)
      end
  end.

Definition spendOutput (height : Z) (tx : Tx) (i : nat) (o : TxOutput) : TxOutput :=
  if extendedIndex
  then mkTxOutput (to_AddrDesc o) true (to_ValueSat o) (to_AssetInfo o) (tx_Txid tx) (u32 (Z.of_nat i)) height
  else mkTxOutput (to_AddrDesc o) true (to_ValueSat o) (to_AssetInfo o) (to_SpentTxid o) (to_SpentIndex o) (to_SpentHeight o).

Definition spendingInput (input : Vin) (o : TxOutput) (ti : TxInput) : TxInput :=
  if extendedIndex
  then mkTxInput (to_AddrDesc o) (to_ValueSat o) (to_AssetInfo o) (vin_Txid input) (vin_Vout input)
  else mkTxInput (to_AddrDesc o) (to_ValueSat o) (to_AssetInfo o) (ti_Txid ti) (ti_Vout ti).

Definition processInput d (height : Z) (tx : Tx) (spendingTxid : bytes) st (e : nat * Vin) : result (ConnState W) :=
  let '(i, input) := e in
  match PackTxid (vin_Txid input) with
  | Panic => Panic
  | Err ErrTxidMissing => Ok st
  | Err e => Err e
  | Ok btxID =>
      let! '(oita, st) := getSpentTx d btxID st in
      match oita with
      | None =>
          let addrDesc := GetAddrDescForUnknownInput tx (Z.of_nat i) in
          Ok (updInput spendingTxid i (fun ti => mkTxInput addrDesc (ti_ValueSat ti) (ti_AssetInfo ti) (ti_Txid ti) (ti_Vout ti)) st)
      | Some ita =>
          match ta_Outputs ita !! Z.to_nat (vin_Vout input) with
          | None => Ok st
          | Some o =>
              let st := gfAdd (to_AddrDesc o) tx st in
              let st := updInput spendingTxid i (spendingInput input o) st in
              let st := updOutput btxID (Z.to_nat (vin_Vout input)) (spendOutput height tx i) st in
              if zlen (to_AddrDesc o) =? 0 then Ok st
              else if IsAddrDescIndexable (to_AddrDesc o)
              then debitInput d height tx spendingTxid btxID i input o st
              else Ok st
          end
      end
  end.

Definition processTxInputs d (height : Z) st (tx : Tx) : result (ConnState W) :=
  let! spendingTxid := PackTxid (tx_Txid tx) in
  let st := updTx spendingTxid (set_Inputs (replicate (length (tx_Vin tx)) blankInput)) st in
  rfold (processInput d height tx spendingTxid) (enumerate (tx_Vin tx)) st.

(** First all outputs, so that inputs can refer to transactions of the same block. *)
Definition processAddressesBitcoinType d (block : Block) st : result (ConnState W) :=
  let! st := rfold (processTxOutputs d (blk_Height block)) (blk_Txs block) st in
  rfold (processTxInputs d (blk_Height block)) (blk_Txs block) st.

(** ** The block *)

Definition storeBlockFilter (wb : list BatchOp) (blockHash : bytes) (blockFilter : option bytes)
    : result (list BatchOp) :=
  let! blockHashBytes := hex_DecodeString blockHash in
  Ok (wb ++ [PutCF cfBlockFilter blockHashBytes (default [] blockFilter)]).

(** A filter that cannot be created, or is disabled, is nil. *)
Definition blockGolombFilter (block : Block) : option GolombFilter :=
  match NewGolombFilter BlockGolombFilterP BlockFilterScripts (blk_Hash block) BlockFilterUseZeroedKey with
  | Ok gf => if gf_Enabled gf then Some gf else None
  | _ => None
  end.

Definition initState (cache : option (gmap Z (Asset W))) (gf : option GolombFilter) : ConnState W :=
  let m {A} `{Countable B} : option (gmap B A) := if supportsSyscoinAssets then Some ∅ else None in
  mkConnState W ∅ ∅ ∅ gf (mkAssetState m m ∅ cache).

(** The Bitcoin-type branch of [ConnectBlock]: the database, the asset cache and the best
    height after the block. *)
Definition ConnectBlock d (cache : option (gmap Z (Asset W))) (block : Block)
    : result (DB K * option (gmap Z (Asset W)) * Z) :=
  let! '(wb, bestHeight) := writeHeightFromBlock [] block opInsert in
  let! st := processAddressesBitcoinType d block (initState cache (blockGolombFilter block)) in
  let wb := storeTxAddresses wb (cs_txAddresses st) in
  let wb := storeBalances wb (Some <$> cs_balances st) in
  let! wb := storeAndCleanupBlockTxs d wb block in
  let! '(wb, ast) :=
    (if supportsSyscoinAssets then
       let! '(wb, ast) := storeAssets (map_to_list (default ∅ (ast_assets (cs_assets st)))) wb (cs_assets st) in
       let! wb := storeTxAssets wb ast in
       Ok (wb, ast)
     else Ok (wb, cs_assets st)) in
  let! wb :=
    match cs_gf st with
    | None => Ok wb
    | Some gf => storeBlockFilter wb (blk_Hash block) (Compute (map_to_list (gf_allAddressDescriptors gf)) gf).2
    end in
  let wb := storeAddresses wb (blk_Height block) (cs_addresses st) in
  let! d := WriteBatch wb d in
  Ok (d, ast_cache ast, bestHeight).

End Connect.
