(* ===== verification/Ledger.v ===== *)
(** The ledger specification of the Bitcoin-type index: how the rows of the transactions
    and the balances of the addresses must agree, and what creating and spending one
    output does to it. The handlers of blocks are proved against it in [ConnectCorrect]. *)

From S2P Require Import Prelude Codec Parser Golomb TxAddr Balance IndexCodec Store Scan Assets Connect.

Local Open Scope Z_scope.

(** ** Sums over unspent outputs *)

(** The amount of an asset an output holds. *)
Definition assetAmount (guid : Z) (ai : option AssetInfo) : Z :=
  match ai with
  | Some ai => if decide (AssetGuid ai = guid) then default 0 (AssetValueSat ai) else 0
  | None => 0
  end.

(** ** Ownership *)

(** The unspent-output entry of output [i] of transaction [t]. *)
Definition utxo_of (t : bytes) (height : Z) (i : nat) (o : TxOutput) : Utxo :=
  mkUtxo t (Z.of_nat i) height (to_ValueSat o) (to_AssetInfo o).

(** [u] is an unspent output of address [a], by the transaction rows. *)
Definition owns (tx : bytes -> option TxAddresses) (a : bytes) (u : Utxo) : Prop :=
  exists t ta i o, tx t = Some ta /\ ta_Outputs ta !! i = Some o /\ to_AddrDesc o = a /\
    to_Spent o = false /\ u = utxo_of t (ta_Height ta) i o.

(** The balance of an address agrees with the transaction rows. *)
Record addr_ok (tx : bytes -> option TxAddresses) (a : bytes) (ab : AddrBalance) : Prop := {
  (* its unspent outputs are those of the rows, each listed once *)
  aok_live u : u ∈ live (ab_Utxos ab) <-> owns tx a u;
  aok_nodup : NoDup (live (ab_Utxos ab));
  (* its balances are the sums over them *)
  aok_sum : ab_BalanceSat ab = sumZ u_ValueSat (live (ab_Utxos ab));
  aok_assets guid : asb_BalanceSat (assetBalanceOf guid ab) =
                    sumZ (fun u => assetAmount guid (u_AssetInfo u)) (live (ab_Utxos ab));
  (* the index over the outputs is sound *)
  aok_utxos : utxos_ok ab;
  aok_known id : id ∈ ids (ab_Utxos ab) -> is_Some (tx id);
}.

(** Amounts are not negative, and present; assets occur on chains that have them. *)
Definition asset_value_ok {P : ChainParser} (ai : option AssetInfo) : Prop :=
  match ai with
  | None => True
  | Some ai => supportsSyscoinAssets = true /\ exists v, AssetValueSat ai = Some v /\ 0 <= v
  end.

Definition output_value_ok {P : ChainParser} (o : TxOutput) : Prop :=
  0 <= to_ValueSat o /\ asset_value_ok (to_AssetInfo o).

Definition values_ok {P : ChainParser} (tx : bytes -> option TxAddresses) : Prop :=
  forall t ta, tx t = Some ta -> Forall output_value_ok (ta_Outputs ta).

Record ledger_ok {P : ChainParser} (tx : bytes -> option TxAddresses) (bal : bytes -> AddrBalance) : Prop := {
  ledger_addr a : a <> [] -> IsAddrDescIndexable a = true -> addr_ok tx a (bal a);
  ledger_values : values_ok tx;
}.

(** The invariant depends on the rows only through their values. *)
Lemma owns_ext tx tx' a u : (forall t, tx t = tx' t) -> owns tx a u <-> owns tx' a u.
Proof. intros H. unfold owns. by setoid_rewrite H. Qed.

Lemma addr_ok_ext tx tx' a ab : (forall t, tx t = tx' t) -> addr_ok tx a ab -> addr_ok tx' a ab.
Proof.
  intros H [H1 H2 H3 H4 H5 H6]. constructor; auto.
  - intros u. by rewrite H1, (owns_ext tx tx').
  - intros id Hid. rewrite <- H. auto.
Qed.

(** ** Changing one output *)

Definition upd_tx (tx : bytes -> option TxAddresses) (t : bytes) (ta : TxAddresses) : bytes -> option TxAddresses :=
  fun t' => if decide (t' = t) then Some ta else tx t'.

Definition outpointOf (u : Utxo) : bytes * Z := (u_BtxID u, u_Vout u).

Lemma utxo_of_outpoint t h i o : outpointOf (utxo_of t h i o) = (t, Z.of_nat i).
Proof. done. Qed.

(** The rows determine the entry of an outpoint. *)
Lemma owns_inj tx a a' u u' : owns tx a u -> owns tx a' u' -> outpointOf u = outpointOf u' -> u = u' /\ a = a'.
Proof.
  intros (t & ta & i & o & H1 & H2 & H3 & H4 & ->) (t' & ta' & i' & o' & H1' & H2' & H3' & H4' & ->) E.
  cbn in E. injection E as -> E. apply Nat2Z.inj in E as ->.
  assert (ta = ta') as -> by congruence. assert (o = o') as -> by congruence. split; congruence.
Qed.

Lemma owns_upd tx t ta i o o' a u :
  tx t = Some ta -> ta_Outputs ta !! i = Some o ->
  owns (upd_tx tx t (set_Outputs (<[i := o']> (ta_Outputs ta)) ta)) a u <->
  (owns tx a u /\ outpointOf u <> (t, Z.of_nat i)) \/
  (to_AddrDesc o' = a /\ to_Spent o' = false /\ u = utxo_of t (ta_Height ta) i o').
Proof.
  intros Ht Ho. split.
  - intros (t1 & ta1 & i1 & o1 & H1 & H2 & H3 & H4 & ->). unfold upd_tx in H1.
    case_decide as Et; [|left; split; [by exists t1, ta1, i1, o1|by intros [= ? _]]].
    subst t1. injection H1 as <-. cbn [ta_Outputs set_Outputs] in H2.
    apply list_lookup_insert_Some in H2 as [(-> & <- & _)|[Hne H2]].
    + right. done.
    + left. split; [by exists t, ta, i1, o1|]. intros [= E]. by apply Hne, Nat2Z.inj.
  - intros [[(t1 & ta1 & i1 & o1 & H1 & H2 & H3 & H4 & ->) Hne]|(H3 & H4 & ->)].
    + destruct (decide (t1 = t)) as [->|Hnt].
      * assert (ta1 = ta) as -> by congruence.
        exists t, (set_Outputs (<[i:=o']> (ta_Outputs ta)) ta), i1, o1. unfold upd_tx.
        rewrite decide_True by done. split; [done|]. cbn [ta_Outputs set_Outputs].
        rewrite list_lookup_insert_ne; [done|]. intros <-. by apply Hne.
      * exists t1, ta1, i1, o1. unfold upd_tx. rewrite decide_False by done. done.
    + exists t, (set_Outputs (<[i:=o']> (ta_Outputs ta)) ta), i, o'. unfold upd_tx.
      rewrite decide_True by done. split; [done|]. cbn [ta_Outputs set_Outputs].
      rewrite list_lookup_insert_eq by by eapply lookup_lt_Some. done.
Qed.

(** An update leaves the addresses of the old and of the new output aside. *)
Lemma addr_ok_other tx tx' a ab :
  (forall u, owns tx' a u <-> owns tx a u) -> (forall t, is_Some (tx t) -> is_Some (tx' t)) ->
  addr_ok tx a ab -> addr_ok tx' a ab.
Proof.
  intros Ho Hd [H1 H2 H3 H4 H5 H6]. constructor; auto. intros u. by rewrite H1, Ho.
Qed.

Lemma upd_tx_dom tx t ta t' : is_Some (tx t') -> is_Some (upd_tx tx t ta t').
Proof. unfold upd_tx. case_decide; [eauto|done]. Qed.

(** ** Creating an output *)

Lemma live_app us us' : live (us ++ us') = live us ++ live us'.
Proof. unfold live. apply filter_app. Qed.

Lemma live_one u : 0 <= u_Vout u -> live [u] = [u].
Proof. intros H. unfold live. rewrite filter_cons, decide_True by done. done. Qed.

Lemma addr_ok_credit tx tx' a ab ab' u :
  addr_ok tx a ab ->
  (forall x, owns tx' a x <-> owns tx a x \/ x = u) -> ~ owns tx a u ->
  (forall t, is_Some (tx t) -> is_Some (tx' t)) -> is_Some (tx' (u_BtxID u)) ->
  0 <= u_Vout u ->
  ab_Utxos ab' ≡ₚ u :: ab_Utxos ab -> utxos_ok ab' ->
  ab_BalanceSat ab' = ab_BalanceSat ab + u_ValueSat u ->
  (forall guid, asb_BalanceSat (assetBalanceOf guid ab') =
                asb_BalanceSat (assetBalanceOf guid ab) + assetAmount guid (u_AssetInfo u)) ->
  addr_ok tx' a ab'.
Proof.
  intros [H1 H2 H3 H4 H5 H6] Ho Hn Hd Hu Hv HU Hok HB HA.
  assert (live (ab_Utxos ab') ≡ₚ u :: live (ab_Utxos ab)) as HL.
  { unfold live. rewrite HU, filter_cons, decide_True by done. done. }
  constructor.
  - intros x. rewrite HL, elem_of_cons, H1, Ho. tauto.
  - rewrite HL. apply NoDup_cons. split; [|done]. intros Hx. by apply Hn, H1.
  - rewrite HB, H3, HL. cbn. lia.
  - intros guid. rewrite HA, H4, HL. cbn. lia.
  - done.
  - intros id. unfold ids. rewrite HU. cbn [map]. rewrite elem_of_cons. intros [->|Hid]; [done|by apply Hd, H6].
Qed.

(** ** Spending an output *)

Lemma markLinear_split t v us :
  (exists u, u ∈ us /\ outpointOf u = (t, v)) ->
  exists us1 u us2, us = us1 ++ u :: us2 /\ outpointOf u = (t, v) /\
    markLinear t v us = Some (us1 ++ set_Vout (-1) u :: us2).
Proof.
  induction us as [|x us IH]; intros (u & Hu & Ho); [by apply not_elem_of_nil in Hu|].
  cbn [markLinear]. rewrite sameTxid_eq.
  destruct ((u_Vout x =? v) && bool_decide (u_BtxID x = t)) eqn:Ex.
  - apply andb_true_iff in Ex as [Ev%Z.eqb_eq Et%bool_decide_eq_true].
    exists [], x, us. split; [done|]. split; [|done]. unfold outpointOf. congruence.
  - apply elem_of_cons in Hu as [->|Hu].
    { unfold outpointOf in Ho. injection Ho as E1 E2. rewrite E1, E2, Z.eqb_refl, bool_decide_true in Ex by done. done. }
    destruct (IH ltac:(eauto)) as (us1 & u' & us2 & -> & Ho' & Hm).
    exists (x :: us1), u', us2. split; [done|]. split; [done|]. by rewrite Hm.
Qed.

Lemma live_marked us1 u us2 :
  0 <= u_Vout u -> live (us1 ++ u :: us2) ≡ₚ u :: live (us1 ++ set_Vout (-1) u :: us2).
Proof.
  intros H. rewrite !live_app. unfold live at 2 4. rewrite !filter_cons, decide_True by done.
  rewrite decide_False by (cbn; lia). fold (live us2). by rewrite <- Permutation_middle.
Qed.

Lemma addr_ok_debit tx tx' a ab ab' u us :
  addr_ok tx a ab ->
  (forall x, owns tx' a x <-> owns tx a x /\ outpointOf x <> outpointOf u) -> owns tx a u ->
  (forall t, is_Some (tx t) -> is_Some (tx' t)) ->
  markLinear (u_BtxID u) (u_Vout u) (ab_Utxos ab) = Some us ->
  ab_Utxos ab' = us -> utxos_ok ab' ->
  ab_BalanceSat ab' = ab_BalanceSat ab - u_ValueSat u ->
  (forall guid, asb_BalanceSat (assetBalanceOf guid ab') =
                asb_BalanceSat (assetBalanceOf guid ab) - assetAmount guid (u_AssetInfo u)) ->
  addr_ok tx' a ab'.
Proof.
  intros [H1 H2 H3 H4 H5 H6] Ho Hu Hd Hm HU Hok HB HA.
  assert (u ∈ live (ab_Utxos ab)) as Hul by by apply H1.
  assert (u ∈ ab_Utxos ab /\ 0 <= u_Vout u) as [Hui Hv]
    by (unfold live in Hul; apply list_elem_of_filter in Hul; tauto).
  destruct (markLinear_split (u_BtxID u) (u_Vout u) (ab_Utxos ab)) as (us1 & u' & us2 & E1 & E2 & E3);
    [by exists u|].
  rewrite E3 in Hm. injection Hm as <-.
  assert (0 <= u_Vout u') as Hv' by (injection E2 as _ E2'; lia).
  assert (u' = u) as ->.
  { assert (u' ∈ live (ab_Utxos ab)) as Hl.
    { unfold live. apply list_elem_of_filter. split; [done|]. rewrite E1. set_solver. }
    apply H1 in Hl. by destruct (owns_inj _ _ _ _ _ Hl Hu E2). }
  assert (live (ab_Utxos ab) ≡ₚ u :: live (ab_Utxos ab')) as HL
    by (rewrite E1, HU; by apply live_marked).
  pose proof H2 as H2'. rewrite HL in H2'. apply NoDup_cons in H2' as [Hnu Hnd].
  constructor.
  - intros x. rewrite Ho, <- H1. split.
    + intros Hx. split; [rewrite HL; by right|]. intros Hxu.
      assert (x ∈ live (ab_Utxos ab)) as Hx' by (rewrite HL; by right).
      apply H1 in Hx'. destruct (owns_inj _ _ _ _ _ Hx' Hu Hxu) as [-> _]. done.
    + intros [Hx Hne]. rewrite HL, elem_of_cons in Hx. destruct Hx as [->|]; [done|done].
  - done.
  - rewrite HB, H3, HL. cbn. lia.
  - intros guid. rewrite HA, H4, HL. cbn. lia.
  - done.
  - intros id Hid. apply Hd, H6. rewrite E1. rewrite HU in Hid.
    unfold ids in *. rewrite map_app in *. done.
Qed.
