(* ===== verification/ConnectCorrect.v ===== *)
(** Connecting a block keeps the ledger: [processAddressesBitcoinType] and [ConnectBlock]
    (of [Connect]) against the specification [ledger_ok] (of [Ledger]). *)

From S2P Require Import Prelude Codec Parser Golomb TxAddr Balance IndexCodec Store Scan Assets Connect Ledger.

Local Open Scope Z_scope.

(** ** Views: the maps of the block over the database *)

Section Views.
Context {V : Vlq} {P : ChainParser} {IX : IndexOpts} {K : KV} {W : AssetWire} {E : AssetEnv W}.
Implicit Types (d : DB K) (st : ConnState W).

Definition dbTx d (t : bytes) : option TxAddresses :=
  match getTxAddresses d t with Ok o => o | _ => None end.

Definition dbBal d (a : bytes) : AddrBalance :=
  match GetAddrDescBalance d a addressBalanceDetailUTXOIndexed with
  | Ok (Some b) => b
  | _ => emptyBalance
  end.

Definition txView d st (t : bytes) : option TxAddresses :=
  match cs_txAddresses st !! t with Some ta => Some ta | None => dbTx d t end.

Definition balView d st (a : bytes) : AddrBalance :=
  match cs_balances st !! a with Some b => b | None => dbBal d a end.

(** The rows can be read. *)
Record reads_ok d : Prop := {
  reads_tx t : exists o, getTxAddresses d t = Ok o;
  reads_bal a : exists o, GetAddrDescBalance d a addressBalanceDetailUTXOIndexed = Ok o;
  reads_assets : assets_readable d;
}.

Lemma txView_updTx d st t f ta t' :
  cs_txAddresses st !! t = Some ta -> txView d (updTx t f st) t' = upd_tx (txView d st) t (f ta) t'.
Proof.
  intros Ht. unfold txView, updTx, upd_tx. cbn [cs_txAddresses with_txAddresses].
  case_decide as Ed; [subst t'; by rewrite lookup_alter_eq, Ht|by rewrite lookup_alter_ne].
Qed.

Lemma balView_put d st a b a' :
  balView d (putBalance a b st) a' = if decide (a' = a) then b else balView d st a'.
Proof.
  unfold balView, putBalance. cbn [cs_balances with_balances].
  case_decide as Ed; [subst a'; by rewrite lookup_insert_eq|by rewrite lookup_insert_ne].
Qed.

Lemma getBalance_ok d a st :
  reads_ok d ->
  exists m, getBalance d a st = Ok (balView d st a, with_balances m st) /\
    forall a', balView d (with_balances m st) a' = balView d st a'.
Proof.
  intros Hd. unfold getBalance, balView at 1. destruct (cs_balances st !! a) as [b|] eqn:Eb.
  - exists (cs_balances st). by destruct st.
  - unfold dbBal. destruct (reads_bal d Hd a) as [o Ho]. rewrite Ho. cbn [rbind].
    eexists. split; [by destruct o|]. intros a'. unfold balView. cbn [cs_balances with_balances].
    destruct (decide (a' = a)) as [->|Hne]; [|by rewrite lookup_insert_ne].
    rewrite lookup_insert_eq, Eb. unfold dbBal. rewrite Ho. by destruct o.
Qed.

Lemma getSpentTx_ok d t st :
  reads_ok d ->
  exists m, getSpentTx d t st = Ok (txView d st t, with_txAddresses m st) /\
    (forall t', txView d (with_txAddresses m st) t' = txView d st t') /\
    (forall t', is_Some (cs_txAddresses st !! t') -> m !! t' = cs_txAddresses st !! t') /\
    m !! t = txView d st t.
Proof.
  intros Hd. unfold getSpentTx. destruct (cs_txAddresses st !! t) as [ta|] eqn:Et.
  - assert (txView d st t = Some ta) as -> by (unfold txView; by rewrite Et).
    exists (cs_txAddresses st). by destruct st.
  - assert (txView d st t = dbTx d t) as -> by (unfold txView; by rewrite Et).
    destruct (reads_tx d Hd t) as [o Ho]. assert (dbTx d t = o) as Hdb by (unfold dbTx; by rewrite Ho).
    rewrite Ho, Hdb. cbn [rbind]. destruct o as [ta|].
    + eexists. split; [done|]. split; [|split].
      * intros t'. unfold txView. cbn [cs_txAddresses with_txAddresses].
        destruct (decide (t' = t)) as [->|Hne]; [|by rewrite lookup_insert_ne].
        by rewrite lookup_insert_eq, Et.
      * intros t' [x Hx]. destruct (decide (t' = t)) as [->|Hne]; [congruence|by rewrite lookup_insert_ne].
      * by rewrite lookup_insert_eq.
    + exists (cs_txAddresses st). by destruct st.
Qed.
End Views.

(** ** Balances *)

Lemma utxos_ok_ext ab ab' :
  ab_Utxos ab' = ab_Utxos ab -> ab_utxosMap ab' = ab_utxosMap ab -> utxos_ok ab -> utxos_ok ab'.
Proof. unfold utxos_ok. by intros -> ->. Qed.

Lemma addUtxo_fields u ab :
  ab_Txs (addUtxo u ab) = ab_Txs ab /\ ab_SentSat (addUtxo u ab) = ab_SentSat ab /\
  ab_BalanceSat (addUtxo u ab) = ab_BalanceSat ab /\ ab_AssetBalances (addUtxo u ab) = ab_AssetBalances ab.
Proof. unfold addUtxo, manageUtxoMap. by repeat case_match. Qed.

Lemma markUtxoAsSpent_fields t v ab :
  ab_Txs (markUtxoAsSpent t v ab) = ab_Txs ab /\ ab_SentSat (markUtxoAsSpent t v ab) = ab_SentSat ab /\
  ab_BalanceSat (markUtxoAsSpent t v ab) = ab_BalanceSat ab /\
  ab_AssetBalances (markUtxoAsSpent t v ab) = ab_AssetBalances ab.
Proof. unfold markUtxoAsSpent. by repeat case_match. Qed.

Lemma assetBalanceOf_set g b ab guid :
  assetBalanceOf guid (set_AssetBalance g b ab) = if decide (guid = g) then b else assetBalanceOf guid ab.
Proof.
  unfold assetBalanceOf, set_AssetBalance. cbn [ab_AssetBalances].
  case_decide as Ed; [subst; by rewrite lookup_insert_eq|by rewrite lookup_insert_ne].
Qed.

Lemma assetBalanceOf_ext guid ab ab' :
  ab_AssetBalances ab = ab_AssetBalances ab' -> assetBalanceOf guid ab = assetBalanceOf guid ab'.
Proof. unfold assetBalanceOf. by intros ->. Qed.

Lemma countTx_fields c ab :
  ab_SentSat (countTx c ab) = ab_SentSat ab /\ ab_BalanceSat (countTx c ab) = ab_BalanceSat ab /\
  ab_Utxos (countTx c ab) = ab_Utxos ab /\ ab_AssetBalances (countTx c ab) = ab_AssetBalances ab /\
  ab_utxosMap (countTx c ab) = ab_utxosMap ab.
Proof. by destruct c. Qed.

Lemma alter_lookup {A} (f : A -> A) (l : list A) i x : l !! i = Some x -> alter f i l = <[i := f x]> l.
Proof.
  revert i. induction l as [|y l IH]; intros [|i] H; cbn in *; simplify_eq; [done|].
  f_equal. by apply IH.
Qed.

(** ** Outputs *)

Section Outputs.
Context {V : Vlq} {P : ChainParser} {IX : IndexOpts} {K : KV} {W : AssetWire} {E : AssetEnv W}.
Implicit Types (d : DB K) (st : ConnState W).

Definition assets_ready st : Prop := supportsSyscoinAssets = true -> asset_ready (cs_assets st).

Definition vout_value_ok (output : Vout) : Prop :=
  0 <= vout_ValueSat output /\ asset_value_ok (vout_AssetInfo output).

(** The asset part of an output credits the asset balance, and touches nothing else. *)
Lemma connectOutputAsset_ok d a height tx t ai b st :
  reads_ok d -> assets_ready st -> asset_value_ok ai ->
  exists b' ast, connectOutputAsset d a height tx t ai b st = Ok (b', with_assets ast st) /\
    assets_ready (with_assets ast st) /\
    ab_Utxos b' = ab_Utxos b /\ ab_utxosMap b' = ab_utxosMap b /\ ab_BalanceSat b' = ab_BalanceSat b /\
    ab_Txs b' = ab_Txs b /\
    forall guid, asb_BalanceSat (assetBalanceOf guid b') =
                 asb_BalanceSat (assetBalanceOf guid b) + assetAmount guid ai.
Proof.
  intros Hd Hr Hai. destruct ai as [ai|]; cbn [connectOutputAsset].
  - destruct Hai as (Hs & v & Hv & Hv0).
    destruct (ConnectAllocationOutput_ok d a height (assetBalanceOf (AssetGuid ai) b) (tx_Version tx) t ai v
                (cs_assets st) (reads_assets d Hd) (Hr Hs) Hv) as (ast & ba & -> & Hr' & Hb).
    cbn [rbind]. eexists _, ast. split; [done|]. split; [unfold assets_ready; done|]. do 4 (split; [done|]).
    intros guid. rewrite assetBalanceOf_set. cbn [assetAmount]. rewrite Hv. cbn [default].
    destruct (decide (guid = AssetGuid ai)) as [->|Hne].
    + by rewrite decide_True, Hb.
    + rewrite decide_False by congruence. lia.
  - exists b, (cs_assets st). split; [by destruct st|]. split; [by destruct st|]. do 4 (split; [done|]). intros guid. cbn [assetAmount]. lia.
Qed.

(** Crediting an indexed output: the address gets the output, the others are unchanged. *)
Lemma creditOutput_ok d height tx t a i output st tx0 ta :
  reads_ok d -> assets_ready st -> vout_value_ok output -> Z.of_nat i < 2 ^ 31 ->
  addr_ok tx0 a (balView d st a) ->
  let u := mkUtxo t (Z.of_nat i) height (vout_ValueSat output) (vout_AssetInfo output) in
  txView d st t = Some ta ->
  (forall x, owns (txView d st) a x <-> owns tx0 a x \/ x = u) -> ~ owns tx0 a u ->
  (forall t', is_Some (tx0 t') -> is_Some (txView d st t')) ->
  t ∉ ids (ab_Utxos (balView d st a)) \/ last (ids (ab_Utxos (balView d st a))) = Some t ->
  exists st', creditOutput d height tx t a i output st = Ok st' /\
    addr_ok (txView d st) a (balView d st' a) /\
    (forall a', a' <> a -> balView d st' a' = balView d st a') /\
    cs_txAddresses st' = cs_txAddresses st /\ assets_ready st' /\
    ids (ab_Utxos (balView d st' a)) = ids (ab_Utxos (balView d st a)) ++ [t].
Proof.
  intros Hd Hr [Hv Hai] Hi Hok u Ht Ho Hn Hdom Hg. unfold creditOutput.
  destruct (getBalance_ok d a st Hd) as (m & -> & Hview). cbn [rbind].
  set (b0 := balView d st a) in *.
  set (b1 := set_BalanceSat (ab_BalanceSat b0 + vout_ValueSat output) b0).
  destruct (connectOutputAsset_ok d a height tx t (vout_AssetInfo output) b1 (with_balances m st) Hd Hr Hai)
    as (b2 & ast & -> & Hr2 & HU & HM & HB & HT & HA). cbn [rbind].
  assert (i32 (Z.of_nat i) = Z.of_nat i) as -> by (apply i32_id; unfold is_i32; lia). fold u.
  destruct (addToAddressesMap _ _ _ _) as [addresses counted].
  eexists. split; [reflexivity|]. rewrite balView_put, decide_True by done.
  destruct (countTx_fields counted (addUtxo u b2)) as (_ & C2 & C3 & C4 & C5).
  destruct (addUtxo_fields u b2) as (_ & _ & F3 & F4).
  assert (ab_Utxos (countTx counted (addUtxo u b2)) = ab_Utxos b0 ++ [u]) as HUtx
    by (rewrite C3, addUtxo_Utxos, HU; done).
  split; [|split; [|split; [done|split; [done|]]]].
  - apply (addr_ok_credit tx0 _ a b0 _ u); try done.
    + subst u. cbn. lia.
    + rewrite HUtx, <- Permutation_cons_append. done.
    + eapply utxos_ok_ext; [exact C3|exact C5|]. apply addUtxo_ok.
      * eapply utxos_ok_ext; [exact HU|exact HM|]. exact (aok_utxos _ _ _ Hok).
      * by rewrite HU.
    + rewrite C2, F3, HB. done.
    + intros guid. rewrite (assetBalanceOf_ext guid _ b2) by by rewrite C4, F4. rewrite HA. done.
  - intros a' Hne. rewrite balView_put, decide_False by done. apply Hview.
  - rewrite HUtx. unfold ids. by rewrite map_app.
Qed.

(** A new row with blank outputs owns nothing. *)
Lemma owns_blank tx t ta a x :
  tx t = None -> Forall (fun o => to_AddrDesc o = []) (ta_Outputs ta) -> a <> [] ->
  owns (upd_tx tx t ta) a x <-> owns tx a x.
Proof.
  intros Ht Hb Ha. split; intros (t1 & ta1 & i1 & o1 & H1 & H2 & H3 & H4 & ->).
  - unfold upd_tx in H1. case_decide as Ed; [|by exists t1, ta1, i1, o1].
    injection H1 as <-. rewrite Forall_lookup in Hb. rewrite (Hb _ _ H2) in H3. congruence.
  - exists t1, ta1, i1, o1. unfold upd_tx. by rewrite decide_False by congruence.
Qed.

(** Filling a blank output adds at most one owner. *)
Lemma owns_fill tx t ta i o o' a x :
  tx t = Some ta -> ta_Outputs ta !! i = Some o -> to_AddrDesc o = [] -> a <> [] ->
  owns (upd_tx tx t (set_Outputs (<[i := o']> (ta_Outputs ta)) ta)) a x <->
  owns tx a x \/ (to_AddrDesc o' = a /\ to_Spent o' = false /\ x = utxo_of t (ta_Height ta) i o').
Proof.
  intros Ht Ho Hb Ha. rewrite (owns_upd tx t ta i o o' a x Ht Ho). split; [tauto|].
  intros [Hx|Hx]; [|by right]. left. split; [done|]. intros Eo.
  destruct Hx as (t1 & ta1 & i1 & o1 & H1 & H2 & H3 & H4 & ->). injection Eo as -> Ei.
  apply Nat2Z.inj in Ei as ->. congruence.
Qed.

Lemma values_upd tx t ta i o' :
  values_ok tx -> tx t = Some ta -> output_value_ok o' ->
  values_ok (upd_tx tx t (set_Outputs (<[i := o']> (ta_Outputs ta)) ta)).
Proof.
  intros Hv Ht Ho t1 ta1. unfold upd_tx. case_decide; [|apply Hv].
  intros [= <-]. cbn [ta_Outputs set_Outputs]. apply Forall_insert; [by eapply Hv|done].
Qed.

(** What holds while the outputs of transaction [t] are processed, from output [i] on. *)
Record out_inv d (st0 : ConnState W) (t : bytes) (height : Z) (n i : nat) st : Prop := {
  oi_ledger : ledger_ok (txView d st) (balView d st);
  oi_assets : assets_ready st;
  oi_row : exists ta, cs_txAddresses st !! t = Some ta /\ ta_Height ta = height /\
    length (ta_Outputs ta) = n /\ Forall (fun o => to_Spent o = false) (ta_Outputs ta) /\
    forall j, (i <= j < n)%nat -> ta_Outputs ta !! j = Some blankOutput;
  oi_group a : a <> [] -> IsAddrDescIndexable a = true ->
    t ∉ ids (ab_Utxos (balView d st a)) \/ last (ids (ab_Utxos (balView d st a))) = Some t;
  oi_frame t' : t' <> t -> txView d st t' = txView d st0 t';
}.

(** The row of [t] after output [i] was filled with [o']. *)
Lemma fill_row d st t height n i f :
  (exists ta, cs_txAddresses st !! t = Some ta /\ ta_Height ta = height /\
    length (ta_Outputs ta) = n /\ Forall (fun o => to_Spent o = false) (ta_Outputs ta) /\
    forall j, (i <= j < n)%nat -> ta_Outputs ta !! j = Some blankOutput) ->
  to_Spent (f blankOutput) = false -> (i < n)%nat ->
  exists ta, cs_txAddresses st !! t = Some ta /\ ta_Height ta = height /\
    ta_Outputs ta !! i = Some blankOutput /\
    (forall t', txView d (updOutput t i f st) t' =
       upd_tx (txView d st) t (set_Outputs (<[i := f blankOutput]> (ta_Outputs ta)) ta) t') /\
    exists ta', cs_txAddresses (updOutput t i f st) !! t = Some ta' /\ ta_Height ta' = height /\
      length (ta_Outputs ta') = n /\ Forall (fun o => to_Spent o = false) (ta_Outputs ta') /\
      forall j, (S i <= j < n)%nat -> ta_Outputs ta' !! j = Some blankOutput.
Proof.
  intros (ta & Ht & Hh & Hl & Hs & Hb) Hf Hi. exists ta.
  pose proof (Hb i ltac:(lia)) as Hbi. split; [done|]. split; [done|]. split; [done|]. split.
  - intros t'. unfold updOutput. rewrite (txView_updTx d st t _ ta) by done.
    by rewrite (alter_lookup f _ _ _ Hbi).
  - exists (set_Outputs (<[i := f blankOutput]> (ta_Outputs ta)) ta). split; [|split; [done|]].
    { unfold updOutput, updTx. cbn [cs_txAddresses with_txAddresses].
      rewrite lookup_alter_eq, Ht. cbn. by rewrite (alter_lookup f _ _ _ Hbi). }
    cbn [ta_Outputs set_Outputs]. split; [by rewrite length_insert|]. split; [by apply Forall_insert|].
    intros j Hj. rewrite list_lookup_insert_ne by lia. apply Hb. lia.
Qed.

Lemma fill_other tx tx' t ta i o' a b :
  tx t = Some ta -> ta_Outputs ta !! i = Some blankOutput ->
  (forall t', tx' t' = upd_tx tx t (set_Outputs (<[i := o']> (ta_Outputs ta)) ta) t') ->
  a <> [] -> to_AddrDesc o' <> a -> addr_ok tx a b -> addr_ok tx' a b.
Proof.
  intros Ht Hb Hv Ha Hne. apply addr_ok_other.
  - intros u. rewrite (owns_ext _ _ a u Hv), (owns_fill tx t ta i blankOutput o' a u) by done. tauto.
  - intros t' Ht'. rewrite Hv. by apply upd_tx_dom.
Qed.

Lemma updOutput_twice t i f g (h : ConnState W -> ConnState W) st :
  (forall s, cs_txAddresses (h s) = cs_txAddresses s) ->
  cs_txAddresses (updOutput t i g (h (updOutput t i f st))) =
  cs_txAddresses (updOutput t i (fun o => g (f o)) st).
Proof.
  intros Hh. unfold updOutput, updTx. cbn [cs_txAddresses with_txAddresses]. rewrite Hh.
  cbn [cs_txAddresses with_txAddresses]. rewrite alter_alter_eq. apply alter_ext.
  intros ta _. unfold set_Outputs, compose. cbn. by rewrite list_alter_alter_eq.
Qed.

Lemma out_inv_step d st0 t height n i f st st' :
  out_inv d st0 t height n i st -> (i < n)%nat -> output_value_ok (f blankOutput) ->
  to_Spent (f blankOutput) = false ->
  cs_txAddresses st' = cs_txAddresses (updOutput t i f st) -> assets_ready st' ->
  (forall a, a <> [] -> IsAddrDescIndexable a = true -> to_AddrDesc (f blankOutput) <> a ->
     balView d st' a = balView d st a) ->
  (forall a, a <> [] -> IsAddrDescIndexable a = true -> to_AddrDesc (f blankOutput) = a ->
     addr_ok (txView d st') a (balView d st' a) /\
     ids (ab_Utxos (balView d st' a)) = ids (ab_Utxos (balView d st a)) ++ [t]) ->
  out_inv d st0 t height n (S i) st'.
Proof.
  intros [[HL HV] HA HR HG HF] Hi Hvo Hs Hst' Hr Hother Hsame.
  destruct (fill_row d st t height n i f HR Hs Hi) as (ta & Ht & Hh & Hb & Hview & Hrow).
  assert (txView d st t = Some ta) as Htv by (unfold txView; by rewrite Ht).
  assert (forall t', txView d st' t' =
            upd_tx (txView d st) t (set_Outputs (<[i := f blankOutput]> (ta_Outputs ta)) ta) t') as Hview'
    by (intros t'; rewrite <- Hview; unfold txView; by rewrite Hst').
  constructor.
  - constructor.
    + intros a Ha Hia. destruct (decide (to_AddrDesc (f blankOutput) = a)) as [Ea|Ea]; [by apply Hsame|].
      rewrite Hother by done. eapply fill_other; eauto.
    + intros t1 ta1. rewrite Hview'. by apply (values_upd (txView d st)).
  - done.
  - by rewrite Hst'.
  - intros a Ha Hia. destruct (decide (to_AddrDesc (f blankOutput) = a)) as [Ea|Ea].
    + right. destruct (Hsame a Ha Hia Ea) as [_ ->]. apply last_snoc.
    + rewrite Hother by done. by apply HG.
  - intros t' Hne. rewrite Hview'. unfold upd_tx. rewrite decide_False by done. by apply HF.
Qed.

Lemma processOutput_ok d st0 height tx t n i output st :
  reads_ok d -> vout_value_ok output -> Z.of_nat n <= 2 ^ 31 -> GetAddrDescFromVout output <> Panic ->
  (i < n)%nat -> out_inv d st0 t height n i st ->
  exists st', processOutput d height tx t st (i, output) = Ok st' /\ out_inv d st0 t height n (S i) st'.
Proof.
  intros Hd Hvo Hn Hnp Hi Hinv. pose proof Hvo as [Hv1 Hv2]. unfold processOutput.
  set (f1 := fun o => mkTxOutput (to_AddrDesc o) (to_Spent o) (vout_ValueSat output) (vout_AssetInfo output)
               (to_SpentTxid o) (to_SpentIndex o) (to_SpentHeight o)).
  assert (out_inv d st0 t height n (S i) (updOutput t i f1 st)) as Hnone.
  { apply (out_inv_step d st0 t height n i f1 st); [done..|by destruct Hinv|done|].
    intros a Ha _ Ea. by rewrite <- Ea in Ha. }
  destruct (GetAddrDescFromVout output) as [a| |]; [|eauto|done].
  destruct (Z.eqb_spec (zlen a) 0) as [|Ez]; cbn [orb]; [eauto|].
  destruct (maxAddrDescLen <? zlen a); [eauto|].
  assert (a <> []) as Ha by (intros ->; done).
  set (g := fun o => mkTxOutput a (to_Spent o) (to_ValueSat o) (to_AssetInfo o) (to_SpentTxid o)
              (to_SpentIndex o) (to_SpentHeight o)).
  set (st2 := updOutput t i g (gfAdd a tx (updOutput t i f1 st))).
  assert (cs_txAddresses st2 = cs_txAddresses (updOutput t i (fun o => g (f1 o)) st)) as Hst2
    by by apply updOutput_twice.
  destruct (IsAddrDescIndexable a) eqn:Eia.
  - pose proof Hinv as [[HL HV] HA HR HG HF].
    destruct (fill_row d st t height n i (fun o => g (f1 o)) HR eq_refl Hi) as (ta & Ht & Hh & Hb & Hview & Hrow).
    assert (txView d st t = Some ta) as Htv by (unfold txView; by rewrite Ht).
    assert (forall t', txView d st2 t' = upd_tx (txView d st) t
              (set_Outputs (<[i := g (f1 blankOutput)]> (ta_Outputs ta)) ta) t') as Hview'
      by (intros t'; rewrite <- Hview; unfold txView; by rewrite Hst2).
    assert (forall x, owns (txView d st2) a x <-> owns (txView d st) a x \/
              x = mkUtxo t (Z.of_nat i) height (vout_ValueSat output) (vout_AssetInfo output)) as Hown.
    { intros x. rewrite (owns_ext _ _ a x Hview').
      rewrite (owns_fill (txView d st) t ta i blankOutput (g (f1 blankOutput)) a x) by done.
      cbn. rewrite <- Hh. unfold utxo_of. cbn. tauto. }
    destruct (creditOutput_ok d height tx t a i output st2 (txView d st)
                (set_Outputs (<[i := g (f1 blankOutput)]> (ta_Outputs ta)) ta))
      as (st' & -> & H1 & H2 & H3 & H4 & H5); try done.
    + lia.
    + by apply HL.
    + rewrite Hview'. unfold upd_tx. by rewrite decide_True.
    + intros (t1 & ta1 & i1 & o1 & E1 & E2 & E3 & E4 & E5). injection E5 as <- E5 _ _ _.
      apply Nat2Z.inj in E5 as <-. rewrite Htv in E1. injection E1 as <-. rewrite Hb in E2.
      injection E2 as <-. by rewrite <- E3 in Ha.
    + intros t' Ht'. rewrite Hview'. by apply upd_tx_dom.
    + by apply HG.
    + exists st'. split; [done|].
      apply (out_inv_step d st0 t height n i (fun o => g (f1 o)) st); [done..|by rewrite H3|done| |].
      * intros b Hb0 Hib Hne. apply H2. cbn in Hne. congruence.
      * intros b Hb0 Hib Heq. cbn in Heq. subst b. split; [|exact H5].
        eapply addr_ok_ext; [|exact H1]. intros t'. unfold txView. by rewrite H3.
  - eexists. split; [done|].
    apply (out_inv_step d st0 t height n i (fun o => g (f1 o)) st); [done..|by destruct Hinv|done|].
    intros b _ Hib Heq. cbn in Heq. congruence.
Qed.
End Outputs.

Lemma enumerate_split {A} (l : list A) pre i x post :
  enumerate l = pre ++ (i, x) :: post -> i = length pre /\ l !! i = Some x.
Proof.
  intros He. assert (enumerate l !! length pre = Some (i, x)) as Hl
    by (rewrite He; by apply list_lookup_middle).
  unfold enumerate in Hl. rewrite list_lookup_imap in Hl.
  destruct (l !! length pre) as [y|] eqn:Ey; cbn in Hl; [|done]. by injection Hl as <- <-.
Qed.

Lemma length_enumerate {A} (l : list A) : length (enumerate l) = length l.
Proof. apply length_imap. Qed.

Section OutputPhase.
Context {V : Vlq} {P : ChainParser} {IX : IndexOpts} {K : KV} {W : AssetWire} {E : AssetEnv W}.
Implicit Types (d : DB K) (st : ConnState W).

(** Transactions whose outputs can be indexed. *)
Definition tx_outputs_ok (tx : Tx) : Prop :=
  zlen (tx_Vout tx) <= 2 ^ 31 /\
  Forall (fun o => vout_value_ok o /\ GetAddrDescFromVout o <> Panic) (tx_Vout tx).

Lemma out_inv_start d height tx t st :
  ledger_ok (txView d st) (balView d st) -> assets_ready st -> txView d st t = None ->
  out_inv d st t height (length (tx_Vout tx)) 0
    (with_txAddresses (<[t := newTxAddresses height tx]> (cs_txAddresses st)) st).
Proof.
  intros [HL HV] Hr Ht. set (st1 := with_txAddresses _ st).
  assert (forall t', txView d st1 t' = upd_tx (txView d st) t (newTxAddresses height tx) t') as Hview.
  { intros t'. unfold txView, upd_tx, st1. cbn [cs_txAddresses with_txAddresses].
    case_decide; [subst; by rewrite lookup_insert_eq|by rewrite lookup_insert_ne]. }
  assert (Forall (fun o => o = blankOutput) (ta_Outputs (newTxAddresses height tx))) as Hblank
    by (cbn; by apply Forall_replicate).
  constructor.
  - constructor.
    + intros a Ha Hia. eapply (addr_ok_other (txView d st)); [| |by apply HL].
      * intros u. rewrite (owns_ext _ _ a u Hview). apply owns_blank; [done| |done].
        eapply Forall_impl; [exact Hblank|]. by intros o ->.
      * intros t'. rewrite Hview. apply upd_tx_dom.
    + intros t1 ta1. rewrite Hview. unfold upd_tx. case_decide; [|apply HV]. intros [= <-].
      eapply Forall_impl; [exact Hblank|]. intros o ->. by split.
  - done.
  - exists (newTxAddresses height tx). split; [apply lookup_insert_eq|]. split; [done|].
    split; [cbn; by rewrite length_replicate|]. split.
    + eapply Forall_impl; [exact Hblank|]. by intros o ->.
    + intros j Hj. cbn. apply lookup_replicate_2. lia.
  - intros a Ha Hia. left. intros Hin. pose proof (aok_known _ _ _ (HL a Ha Hia) t Hin) as Hk.
    rewrite Ht in Hk. by destruct Hk.
  - intros t' Hne. rewrite Hview. unfold upd_tx. by rewrite decide_False.
Qed.

Lemma processTxOutputs_ok d height tx t st :
  reads_ok d -> tx_outputs_ok tx -> PackTxid (tx_Txid tx) = Ok t ->
  ledger_ok (txView d st) (balView d st) -> assets_ready st -> txView d st t = None ->
  exists st', processTxOutputs d height st tx = Ok st' /\
    out_inv d st t height (length (tx_Vout tx)) (length (tx_Vout tx)) st'.
Proof.
  intros Hd [Hn Ho] Hp HL Hr Ht. unfold processTxOutputs. rewrite Hp. cbn [rbind].
  destruct (rfold_total (processOutput d height tx t)
              (fun dn s => out_inv d st t height (length (tx_Vout tx)) (length dn) s)
              (enumerate (tx_Vout tx))
              (with_txAddresses (<[t := newTxAddresses height tx]> (cs_txAddresses st)) st))
    as (st' & Hst' & Hinv).
  - by apply out_inv_start.
  - intros dn [i o] rest s1 He Hs1. apply enumerate_split in He as [-> Hl].
    rewrite Forall_lookup in Ho. destruct (Ho _ _ Hl) as [Hvo Hnp].
    rewrite length_app. cbn [length]. rewrite Nat.add_1_r.
    apply processOutput_ok; try done. by eapply lookup_lt_Some.
  - exists st'. split; [done|]. by rewrite length_enumerate in Hinv.
Qed.

(** ** All outputs of the block *)

Definition packedId (tx : Tx) : bytes := okOrEmpty (PackTxid (tx_Txid tx)).

Record outs_inv d (st0 : ConnState W) (done_ : list Tx) st : Prop := {
  os_ledger : ledger_ok (txView d st) (balView d st);
  os_assets : assets_ready st;
  os_frame t : t ∉ map packedId done_ -> txView d st t = txView d st0 t;
  os_new t : t ∈ map packedId done_ -> exists ta, txView d st t = Some ta /\
    Forall (fun o => to_Spent o = false) (ta_Outputs ta);
}.

Lemma outputs_ok d height txs st :
  reads_ok d -> Forall tx_outputs_ok txs -> Forall (fun tx => PackTxid (tx_Txid tx) = Ok (packedId tx)) txs ->
  NoDup (map packedId txs) -> Forall (fun tx => txView d st (packedId tx) = None) txs ->
  ledger_ok (txView d st) (balView d st) -> assets_ready st ->
  exists st', rfold (processTxOutputs d height) txs st = Ok st' /\ outs_inv d st txs st'.
Proof.
  intros Hd Ho Hp Hnd Hnew HL Hr.
  apply (rfold_total (processTxOutputs d height) (fun dn s => outs_inv d st dn s)).
  - constructor; [done|done|done|]. intros t Ht. by apply not_elem_of_nil in Ht.
  - intros dn tx rest s1 Hl [H1 H2 H3 H4]. subst txs.
    rewrite Forall_app, Forall_cons in Ho, Hp, Hnew. destruct Ho as (_ & Ho & _), Hp as (_ & Hp & _), Hnew as (_ & Hnew & _).
    rewrite map_app, map_cons in Hnd. apply NoDup_app in Hnd as (_ & Hnd & _).
    assert (packedId tx ∉ map packedId dn) as Hnin.
    { intros Hin. apply (Hnd _ Hin). left. }
    destruct (processTxOutputs_ok d height tx (packedId tx) s1 Hd Ho Hp H1 H2) as (s2 & Hs2 & Hinv).
    { by rewrite H3. }
    exists s2. split; [done|]. destruct Hinv as [I1 I2 (ta & I3 & _ & _ & I4 & _) I5 I6].
    constructor; [done|done| |]; intros t; rewrite map_app, elem_of_app; cbn [map]; rewrite list_elem_of_singleton.
    + intros Hn. rewrite I6 by tauto. apply H3. tauto.
    + intros Hin. destruct (decide (t = packedId tx)) as [->|Hne].
      * exists ta. split; [|done]. unfold txView. by rewrite I3.
      * rewrite I6 by done. apply H4. tauto.
Qed.
End OutputPhase.

(** ** Inputs *)

Section Inputs.
Context {V : Vlq} {P : ChainParser} {IX : IndexOpts} {K : KV} {W : AssetWire} {E : AssetEnv W}.
Implicit Types (d : DB K) (st : ConnState W).

(** The part of a row the ledger depends on. *)
Definition outCore (o : TxOutput) : bytes * bool * Z * option AssetInfo :=
  (to_AddrDesc o, to_Spent o, to_ValueSat o, to_AssetInfo o).
Definition rowCore (ta : TxAddresses) : Z * list (bytes * bool * Z * option AssetInfo) :=
  (ta_Height ta, map outCore (ta_Outputs ta)).

Definition same_rows (tx tx' : bytes -> option TxAddresses) : Prop :=
  forall t, rowCore <$> tx t = rowCore <$> tx' t.

#[global] Instance same_rows_equiv : Equivalence same_rows.
Proof.
  split; [by intros tx t|by intros tx tx' H t; symmetry|]. intros tx1 tx2 tx3 H1 H2 t. by rewrite H1.
Qed.

Lemma same_rows_Some tx tx' t ta :
  same_rows tx tx' -> tx t = Some ta ->
  exists ta', tx' t = Some ta' /\ ta_Height ta' = ta_Height ta /\
    map outCore (ta_Outputs ta') = map outCore (ta_Outputs ta).
Proof.
  intros H Ht. specialize (H t). rewrite Ht in H. destruct (tx' t) as [ta'|]; [|done].
  unfold rowCore in H. injection H as H1 H2. by exists ta'.
Qed.

Lemma outCore_lookup os os' i o :
  map outCore os' = map outCore os -> os !! i = Some o ->
  exists o', os' !! i = Some o' /\ outCore o' = outCore o.
Proof.
  intros Hm Ho. assert (map outCore os' !! i = Some (outCore o)) as H.
  { rewrite Hm. change (map outCore os) with (outCore <$> os). by rewrite list_lookup_fmap, Ho. }
  change (map outCore os') with (outCore <$> os') in H. rewrite list_lookup_fmap in H.
  destruct (os' !! i) as [o'|]; [|done]. exists o'. split; [done|]. cbn in H. congruence.
Qed.

Lemma owns_same_rows tx tx' a u : same_rows tx tx' -> owns tx a u -> owns tx' a u.
Proof.
  intros H (t & ta & i & o & H1 & H2 & H3 & H4 & ->).
  destruct (same_rows_Some _ _ _ _ H H1) as (ta' & H1' & Hh & Ho).
  destruct (outCore_lookup _ _ _ _ Ho H2) as (o' & H2' & Ec). unfold outCore in Ec. injection Ec as E1 E2 E3 E4.
  exists t, ta', i, o'. unfold utxo_of. rewrite Hh, E1, E2, E3, E4. done.
Qed.

Lemma ledger_same_rows tx tx' bal : same_rows tx tx' -> ledger_ok tx bal -> ledger_ok tx' bal.
Proof.
  intros H [HL HV]. constructor.
  - intros a Ha Hia. eapply addr_ok_other; [| |by apply HL].
    + intros u. split; apply owns_same_rows; [by symmetry|done].
    + intros t [ta Ht]. destruct (same_rows_Some _ _ _ _ H Ht) as (ta' & -> & _). by eexists.
  - intros t ta' Ht. destruct (same_rows_Some tx' tx t ta') as (ta & Ht' & _ & Ho); [by symmetry|done|].
    apply Forall_lookup. intros i o' Hi. destruct (outCore_lookup _ _ _ _ Ho Hi) as (o & Hi' & Ec).
    unfold outCore in Ec. injection Ec as E1 E2 E3 E4. unfold output_value_ok. rewrite <- E3, <- E4.
    pose proof (HV t ta Ht') as Hf. rewrite Forall_lookup in Hf. by apply (Hf i).
Qed.

Lemma same_rows_updTx d st t f :
  (forall ta, rowCore (f ta) = rowCore ta) -> same_rows (txView d st) (txView d (updTx t f st)).
Proof.
  intros Hf t'. unfold txView, updTx. cbn [cs_txAddresses with_txAddresses].
  destruct (decide (t' = t)) as [->|Hne]; [|by rewrite lookup_alter_ne].
  rewrite lookup_alter_eq. destruct (cs_txAddresses st !! t); [|done]. cbn. by rewrite Hf.
Qed.

Lemma owned_value tx a u : values_ok tx -> owns tx a u -> 0 <= u_ValueSat u /\ asset_value_ok (u_AssetInfo u).
Proof.
  intros HV (t & ta & i & o & H1 & H2 & _ & _ & ->). pose proof (HV t ta H1) as Hf.
  rewrite Forall_lookup in Hf. apply (Hf _ _ H2).
Qed.

Lemma assetAmount_nonneg guid ai : asset_value_ok ai -> 0 <= assetAmount guid ai.
Proof.
  destruct ai as [ai|]; [|done]. intros (_ & v & Hv & H0). cbn. rewrite Hv. case_decide; cbn; lia.
Qed.

(** One of the summands is at most the sum. *)
Lemma sumZ_le {A} (f : A -> Z) l x : (forall y, y ∈ l -> 0 <= f y) -> x ∈ l -> f x <= sumZ f l.
Proof.
  intros Hf Hx. apply list_elem_of_split in Hx as (l1 & l2 & ->). rewrite sumZ_app. cbn [sumZ].
  assert (0 <= sumZ f l1) by (apply sumZ_nonneg, Forall_forall; intros y Hy; apply Hf; set_solver).
  assert (0 <= sumZ f l2) by (apply sumZ_nonneg, Forall_forall; intros y Hy; apply Hf; set_solver).
  lia.
Qed.

Lemma addr_ok_covers tx a ab u :
  addr_ok tx a ab -> values_ok tx -> owns tx a u ->
  u_ValueSat u <= ab_BalanceSat ab /\
  forall guid, assetAmount guid (u_AssetInfo u) <= asb_BalanceSat (assetBalanceOf guid ab).
Proof.
  intros Hok HV Hu. pose proof (proj2 (aok_live _ _ _ Hok u) Hu) as Hin.
  assert (forall y, y ∈ live (ab_Utxos ab) -> 0 <= u_ValueSat y /\ asset_value_ok (u_AssetInfo y)) as Hy.
  { intros y Hy. apply (aok_live _ _ _ Hok) in Hy. by eapply owned_value. }
  split.
  - rewrite (aok_sum _ _ _ Hok). apply sumZ_le; [|done]. intros y ?. by apply Hy.
  - intros guid. rewrite (aok_assets _ _ _ Hok).
    apply (sumZ_le (fun u => assetAmount guid (u_AssetInfo u))); [|done].
    intros y ?. by apply assetAmount_nonneg, Hy.
Qed.

Lemma connectInputAsset_ok d a height tx t ai b st :
  reads_ok d -> assets_ready st -> asset_value_ok ai ->
  (forall guid, assetAmount guid ai <= asb_BalanceSat (assetBalanceOf guid b)) ->
  exists b' ast, connectInputAsset d a height tx t ai b st = Ok (b', with_assets ast st) /\
    assets_ready (with_assets ast st) /\
    ab_Utxos b' = ab_Utxos b /\ ab_utxosMap b' = ab_utxosMap b /\ ab_BalanceSat b' = ab_BalanceSat b /\
    ab_Txs b' = ab_Txs b /\
    forall guid, asb_BalanceSat (assetBalanceOf guid b') =
                 asb_BalanceSat (assetBalanceOf guid b) - assetAmount guid ai.
Proof.
  intros Hd Hr Hai Hle. destruct ai as [ai|]; cbn [connectInputAsset].
  - destruct Hai as (Hs & v & Hv & Hv0).
    pose proof (Hle (AssetGuid ai)) as Hle'. cbn [assetAmount] in Hle'. rewrite Hv, decide_True in Hle' by done.
    destruct (ConnectAllocationInput_ok d a height (assetBalanceOf (AssetGuid ai) b) (tx_Version tx) t ai v
                (cs_assets st) (reads_assets d Hd) (Hr Hs) Hv Hle') as (ast & ba & -> & Hr' & Hb).
    cbn [rbind]. eexists _, ast. split; [done|]. split; [unfold assets_ready; done|]. do 4 (split; [done|]).
    intros guid. rewrite assetBalanceOf_set. cbn [assetAmount]. rewrite Hv. cbn [default].
    destruct (decide (guid = AssetGuid ai)) as [->|Hne].
    + by rewrite decide_True, Hb.
    + rewrite decide_False by congruence. lia.
  - exists b, (cs_assets st). split; [by destruct st|]. split; [by destruct st|]. do 4 (split; [done|]).
    intros guid. cbn [assetAmount]. lia.
Qed.

(** Debiting a spent output: the address loses the output, the others are unchanged. *)
Lemma debitInput_ok d height tx sp t i input o st tx0 h :
  reads_ok d -> assets_ready st -> 0 <= vin_Vout input < 2 ^ 31 ->
  let a := to_AddrDesc o in
  let u := utxo_of t h (Z.to_nat (vin_Vout input)) o in
  addr_ok tx0 a (balView d st a) -> values_ok tx0 -> owns tx0 a u ->
  (forall x, owns (txView d st) a x <-> owns tx0 a x /\ outpointOf x <> outpointOf u) ->
  (forall t', is_Some (tx0 t') -> is_Some (txView d st t')) ->
  exists st', debitInput d height tx sp t i input o st = Ok st' /\
    addr_ok (txView d st) a (balView d st' a) /\
    (forall a', a' <> a -> balView d st' a' = balView d st a') /\
    cs_txAddresses st' = cs_txAddresses st /\ assets_ready st'.
Proof.
  intros Hd Hr Hvo a u Hok HV Hu Ho Hdom. unfold debitInput. fold a.
  destruct (getBalance_ok d a st Hd) as (m & -> & Hview). cbn [rbind].
  set (b0 := balView d st a) in *.
  destruct (addToAddressesMap _ _ _ _) as [addresses counted].
  destruct (addr_ok_covers tx0 a b0 u Hok HV Hu) as [Hcov Hcova].
  destruct (owned_value tx0 a u HV Hu) as [Hv0 Hai].
  destruct (countTx_fields counted b0) as (_ & C2 & C3 & C4 & C5).
  set (b1 := set_BalanceSat (ab_BalanceSat (countTx counted b0) - to_ValueSat o) (countTx counted b0)).
  destruct (connectInputAsset_ok d a height tx sp (to_AssetInfo o) b1
              (with_addresses addresses (with_balances m st)) Hd Hr Hai)
    as (b2 & ast & -> & Hr2 & HU & HM & HB & HT & HA).
  { intros guid. rewrite (assetBalanceOf_ext guid b1 b0) by done. apply Hcova. }
  cbn [rbind].
  assert (i32 (vin_Vout input) = u_Vout u) as -> by (rewrite i32_id by (unfold is_i32; lia); subst u; cbn; lia).
  assert (utxos_ok b2) as Hok2 by (eapply utxos_ok_ext; [by rewrite HU|by rewrite HM|]; exact (aok_utxos _ _ _ Hok)).
  assert (ab_Utxos b2 = ab_Utxos b0) as HU2 by (by rewrite HU).
  destruct (markLinear_split (u_BtxID u) (u_Vout u) (ab_Utxos b0)) as (us1 & u' & us2 & _ & _ & Hm).
  { exists u. split; [|done]. pose proof (proj2 (aok_live _ _ _ Hok u) Hu) as Hin.
    unfold live in Hin. by apply list_elem_of_filter in Hin as [_ ?]. }
  change t with (u_BtxID u).
  assert (markUtxoAsSpent (u_BtxID u) (u_Vout u) b2 = set_Utxos (us1 ++ set_Vout (-1) u' :: us2) (ab_utxosMap b2) b2) as Hmark
    by (rewrite markUtxoAsSpent_linear, HU2, Hm; done).
  assert (ab_BalanceSat b2 = ab_BalanceSat b0 - u_ValueSat u) as HB2 by (rewrite HB; cbn; by rewrite C2).
  pose proof (markUtxoAsSpent_ok (u_BtxID u) (u_Vout u) b2 Hok2) as Hok3.
  rewrite Hmark in Hok3 |- *. cbn [ab_BalanceSat set_Utxos].
  destruct (Z.ltb_spec (ab_BalanceSat b2) 0) as [Hlt|_]; [lia|].
  eexists. split; [reflexivity|]. rewrite balView_put, decide_True by done.
  split; [|split; [|split; [done|done]]].
  - eapply (addr_ok_debit tx0 _ a b0 _ u); [done|done|done|done|exact Hm|done| |done|].
    + eapply utxos_ok_ext; [| |exact Hok3]; done.
    + intros guid. rewrite (assetBalanceOf_ext guid _ b2) by done. rewrite HA.
      by rewrite (assetBalanceOf_ext guid b1 b0) by done.
  - intros a' Hne. rewrite balView_put, decide_False by done. apply Hview.
Qed.

(** ** One input *)

Definition outpoint_unspent (tx : bytes -> option TxAddresses) (p : bytes * Z) : Prop :=
  forall ta o, tx p.1 = Some ta -> ta_Outputs ta !! Z.to_nat p.2 = Some o -> to_Spent o = false.

(** The outpoint an input spends; coinbase inputs have none. *)
Definition inputOutpoint (vin : Vin) : list (bytes * Z) :=
  match PackTxid (vin_Txid vin) with Ok b => [(b, vin_Vout vin)] | _ => [] end.

Definition vin_ok (vin : Vin) : Prop :=
  ((exists b, PackTxid (vin_Txid vin) = Ok b) \/ PackTxid (vin_Txid vin) = Err ErrTxidMissing) /\
  0 <= vin_Vout vin < 2 ^ 31.

(** What holds while inputs are processed; [rest] are the outpoints still to be spent. *)
Record in_inv d st (rest : list (bytes * Z)) : Prop := {
  ii_ledger : ledger_ok (txView d st) (balView d st);
  ii_assets : assets_ready st;
  ii_unspent : Forall (outpoint_unspent (txView d st)) rest;
}.

Lemma unspent_same_rows tx tx' p : same_rows tx tx' -> outpoint_unspent tx p -> outpoint_unspent tx' p.
Proof.
  intros H Hu ta' o Ht Ho. destruct (same_rows_Some tx' tx p.1 ta') as (ta & Ht' & _ & Eo); [by symmetry|done|].
  destruct (outCore_lookup _ _ _ _ Eo Ho) as (o' & Ho' & Ec). unfold outCore in Ec. injection Ec as _ Es _ _.
  rewrite <- Es. by apply (Hu ta).
Qed.

Lemma in_inv_same_rows d st st' rest :
  same_rows (txView d st) (txView d st') -> (forall a, balView d st' a = balView d st a) -> assets_ready st' ->
  in_inv d st rest -> in_inv d st' rest.
Proof.
  intros Hs Hb Hr [[HL HV] _ Hu]. constructor; [|done|].
  - apply (ledger_same_rows (txView d st)); [done|]. constructor; [|done]. intros a Ha Hia. rewrite Hb. by apply HL.
  - eapply Forall_impl; [exact Hu|]. intros p. by apply unspent_same_rows.
Qed.

Lemma spendOutput_fields height tx i o :
  to_AddrDesc (spendOutput height tx i o) = to_AddrDesc o /\ to_Spent (spendOutput height tx i o) = true /\
  to_ValueSat (spendOutput height tx i o) = to_ValueSat o /\ to_AssetInfo (spendOutput height tx i o) = to_AssetInfo o.
Proof. unfold spendOutput. by destruct extendedIndex. Qed.

(** Marking an output as spent. *)
Lemma owns_spend tx t ta n o o' a x :
  tx t = Some ta -> ta_Outputs ta !! n = Some o -> to_Spent o' = true ->
  owns (upd_tx tx t (set_Outputs (<[n := o']> (ta_Outputs ta)) ta)) a x <->
  owns tx a x /\ outpointOf x <> (t, Z.of_nat n).
Proof. intros Ht Ho Hs. rewrite (owns_upd tx t ta n o o' a x Ht Ho). rewrite Hs. intuition congruence. Qed.

Lemma unspent_spend tx t ta n o' p :
  tx t = Some ta -> p <> (t, Z.of_nat n) -> 0 <= p.2 ->
  outpoint_unspent tx p ->
  outpoint_unspent (upd_tx tx t (set_Outputs (<[n := o']> (ta_Outputs ta)) ta)) p.
Proof.
  intros Ht Hp Hz Hu ta1 o1. unfold upd_tx. case_decide as Ed; [|apply Hu].
  intros [= <-]. cbn [ta_Outputs set_Outputs]. rewrite list_lookup_insert_ne.
  - apply Hu. by rewrite Ed.
  - intros ->. apply Hp. destruct p as [p1 p2]. cbn in *. rewrite Z2Nat.id by done. congruence.
Qed.

(** Spending an output: the state after the row was marked, before the balance. *)
Lemma spend_inv d st st2 t ta n o o' rest :
  in_inv d st rest -> txView d st t = Some ta -> ta_Outputs ta !! n = Some o -> to_Spent o = false ->
  to_Spent o' = true -> output_value_ok o' ->
  (forall t', txView d st2 t' = upd_tx (txView d st) t (set_Outputs (<[n := o']> (ta_Outputs ta)) ta) t') ->
  assets_ready st2 -> Forall (fun p => p <> (t, Z.of_nat n) /\ 0 <= p.2) rest ->
  (forall a, a <> [] -> IsAddrDescIndexable a = true -> a <> to_AddrDesc o -> balView d st2 a = balView d st a) ->
  (to_AddrDesc o <> [] -> IsAddrDescIndexable (to_AddrDesc o) = true ->
     addr_ok (txView d st2) (to_AddrDesc o) (balView d st2 (to_AddrDesc o))) ->
  in_inv d st2 rest.
Proof.
  intros [[HL HV] HA HU] Ht Ho Hs Hs' Hvo Hview Hr Hrest Hother Hsame. constructor; [constructor|done|].
  - intros a Ha Hia. destruct (decide (a = to_AddrDesc o)) as [->|Hne]; [by apply Hsame|].
    rewrite Hother by done. eapply addr_ok_other; [| |by apply HL].
    + intros x. rewrite (owns_ext _ _ a x Hview), (owns_spend (txView d st) t ta n o o' a x Ht Ho Hs').
      split; [by intros [? _]|]. intros Hx. split; [done|]. intros Ex.
      assert (owns (txView d st) (to_AddrDesc o) (utxo_of t (ta_Height ta) n o)) as Hy by by exists t, ta, n, o.
      by destruct (owns_inj _ _ _ _ _ Hx Hy Ex) as [_ ?].
    + intros t'. rewrite Hview. apply upd_tx_dom.
  - intros t1 ta1. rewrite Hview. by apply (values_upd (txView d st)).
  - rewrite Forall_forall in HU, Hrest. apply Forall_forall. intros p Hp ta1 o1.
    rewrite Hview. destruct (Hrest p Hp) as [Hp1 Hp2].
    by apply (unspent_spend (txView d st) t ta n o' p Ht Hp1 Hp2 (HU p Hp)).
Qed.

Lemma rowCore_alter (f : TxAddresses -> TxAddresses) (m : gmap bytes TxAddresses) t sp ta :
  (forall x, ta_Height (f x) = ta_Height x /\ ta_Outputs (f x) = ta_Outputs x) -> m !! t = Some ta ->
  exists ta', alter f sp m !! t = Some ta' /\ ta_Height ta' = ta_Height ta /\ ta_Outputs ta' = ta_Outputs ta.
Proof.
  intros Hf Ht. rewrite lookup_alter. case_decide as Ed; [subst sp|]; rewrite Ht; cbn; [|by eauto].
  eexists. split; [done|]. apply Hf.
Qed.

(** The known transaction of an input: the row is marked and the balance debited. *)
Lemma spendKnown_ok d height tx sp i input t ita o st rest :
  reads_ok d -> in_inv d st ((t, vin_Vout input) :: rest) -> 0 <= vin_Vout input < 2 ^ 31 ->
  Forall (fun p => p <> (t, vin_Vout input) /\ 0 <= p.2) rest ->
  cs_txAddresses st !! t = Some ita -> ta_Outputs ita !! Z.to_nat (vin_Vout input) = Some o ->
  let st1 := updInput sp i (spendingInput input o) (gfAdd (to_AddrDesc o) tx st) in
  let st2 := updOutput t (Z.to_nat (vin_Vout input)) (spendOutput height tx i) st1 in
  exists st', (if zlen (to_AddrDesc o) =? 0 then Ok st2
               else if IsAddrDescIndexable (to_AddrDesc o)
               then debitInput d height tx sp t i input o st2 else Ok st2) = Ok st' /\ in_inv d st' rest.
Proof.
  intros Hd Hinv Hvo Hrest Hita Ho st1 st2.
  set (n := Z.to_nat (vin_Vout input)) in *.
  assert (Z.of_nat n = vin_Vout input) as Hn by (subst n; lia). rewrite <- Hn in Hrest.
  assert (to_Spent o = false) as Hs.
  { pose proof (ii_unspent _ _ _ Hinv) as Hu. apply Forall_cons in Hu as [Hu _].
    apply (Hu ita o); [|done]. cbn. unfold txView. by rewrite Hita. }
  (* the input row is not part of the ledger *)
  assert (in_inv d st1 rest) as Hinv1.
  { apply (in_inv_same_rows d st); [|done|by destruct Hinv|].
    - apply (same_rows_updTx d (gfAdd (to_AddrDesc o) tx st)). done.
    - destruct Hinv as [H1 H2 H3]. constructor; [done|done|]. by apply Forall_cons in H3 as [_ ?]. }
  destruct (rowCore_alter (fun ta => set_Inputs (alter (spendingInput input o) i (ta_Inputs ta)) ta)
              (cs_txAddresses st) t sp ita ltac:(done) Hita) as (ta & Hta & Hh & Hout).
  assert (cs_txAddresses st1 !! t = Some ta) as Hta1 by exact Hta.
  assert (txView d st1 t = Some ta) as Htv by (unfold txView; by rewrite Hta1).
  assert (ta_Outputs ta !! n = Some o) as Hon by by rewrite Hout.
  destruct (spendOutput_fields height tx i o) as (S1 & S2 & S3 & S4).
  assert (forall t', txView d st2 t' = upd_tx (txView d st1) t
            (set_Outputs (<[n := spendOutput height tx i o]> (ta_Outputs ta)) ta) t') as Hview.
  { intros t'. unfold st2, updOutput. rewrite (txView_updTx d st1 t _ ta) by done. by rewrite (alter_lookup _ _ _ _ Hon). }
  assert (output_value_ok (spendOutput height tx i o)) as Hvok.
  { pose proof (ledger_values _ _ (ii_ledger _ _ _ Hinv1) t ta Htv) as HV. rewrite Forall_lookup in HV.
    unfold output_value_ok. rewrite S3, S4. by apply (HV n). }
  assert (forall st', cs_txAddresses st' = cs_txAddresses st2 ->
            forall t', txView d st' t' = upd_tx (txView d st1) t
              (set_Outputs (<[n := spendOutput height tx i o]> (ta_Outputs ta)) ta) t') as Hview'.
  { intros st' Est t'. rewrite <- Hview. unfold txView. by rewrite Est. }
  pose proof (ii_assets _ _ _ Hinv1) as Har.
  destruct (Z.eqb_spec (zlen (to_AddrDesc o)) 0) as [Ez|Ez]; [|destruct (IsAddrDescIndexable (to_AddrDesc o)) eqn:Ei].
  - exists st2. split; [done|].
    apply (spend_inv d st1 st2 t ta n o (spendOutput height tx i o) rest); try done.
    intros Hne. exfalso. apply Hne, nil_length_inv. unfold zlen in Ez. lia.
  - assert (to_AddrDesc o <> []) as Hne by (intros Hnil; by rewrite Hnil in Ez).
    destruct (debitInput_ok d height tx sp t i input o st2 (txView d st1) (ta_Height ta)) as (st' & -> & D1 & D2 & D3 & D4); try done.
    + by apply (ii_ledger _ _ _ Hinv1).
    + apply (ii_ledger _ _ _ Hinv1).
    + by exists t, ta, n, o.
    + intros x. rewrite (owns_ext _ _ _ x Hview).
      rewrite (owns_spend (txView d st1) t ta n o (spendOutput height tx i o) _ x Htv Hon S2). done.
    + intros t'. rewrite Hview. apply upd_tx_dom.
    + exists st'. split; [done|].
      apply (spend_inv d st1 st' t ta n o (spendOutput height tx i o) rest); try done; [by apply Hview'| |].
      * intros a _ _ Ha. by rewrite D2.
      * intros _ _. eapply addr_ok_ext; [|exact D1]. intros t'. by rewrite (Hview' st' D3), (Hview' st2 eq_refl).
  - exists st2. split; [done|].
    apply (spend_inv d st1 st2 t ta n o (spendOutput height tx i o) rest); try done. congruence.
Qed.

Lemma processInput_ok d height tx sp i input st rest :
  reads_ok d -> vin_ok input -> in_inv d st (inputOutpoint input ++ rest) ->
  NoDup (inputOutpoint input ++ rest) -> Forall (fun p => 0 <= p.2) rest ->
  exists st', processInput d height tx sp st (i, input) = Ok st' /\ in_inv d st' rest.
Proof.
  intros Hd [Hp Hvo] Hinv Hnd Hnn. unfold processInput, inputOutpoint in *.
  destruct Hp as [[t Hp]|Hp]; rewrite Hp in *; cbn [app] in *; [|by eauto].
  destruct (getSpentTx_ok d t st Hd) as (m & -> & Hview & Hkeep & Hm). cbn [rbind].
  assert (in_inv d (with_txAddresses m st) ((t, vin_Vout input) :: rest)) as Hinv1.
  { apply (in_inv_same_rows d st); [|done|by destruct Hinv|done]. intros t'. by rewrite Hview. }
  assert (in_inv d (with_txAddresses m st) rest) as Hinv2.
  { destruct Hinv1 as [H1 H2 H3]. constructor; [done|done|]. by apply Forall_cons in H3 as [_ ?]. }
  destruct (txView d st t) as [ita|] eqn:Et.
  - destruct (ta_Outputs ita !! Z.to_nat (vin_Vout input)) as [o|] eqn:Eo; [|by eauto].
    apply (spendKnown_ok d height tx sp i input t ita o (with_txAddresses m st) rest Hd Hinv1 Hvo); [|exact Hm|exact Eo].
    apply NoDup_cons in Hnd as [Hnin _]. rewrite Forall_forall in Hnn. apply Forall_forall.
    intros p Hpin. split; [|by apply Hnn]. by intros ->.
  - eexists. split; [done|].
    apply (in_inv_same_rows d (with_txAddresses m st)); [|done|by destruct Hinv|done].
    by apply same_rows_updTx.
Qed.
End Inputs.

(** ** All inputs of the block *)

Section InputPhase.
Context {V : Vlq} {P : ChainParser} {IX : IndexOpts} {K : KV} {W : AssetWire} {E : AssetEnv W}.
Implicit Types (d : DB K) (st : ConnState W).

Definition txOutpointsSpent (tx : Tx) : list (bytes * Z) := concat (map inputOutpoint (tx_Vin tx)).
Definition blockOutpoints (txs : list Tx) : list (bytes * Z) := concat (map txOutpointsSpent txs).

Definition inputs_ok (tx : Tx) : Prop := Forall vin_ok (tx_Vin tx).

Lemma inputs_nonneg tx : inputs_ok tx -> Forall (fun p => 0 <= p.2) (txOutpointsSpent tx).
Proof.
  unfold inputs_ok, txOutpointsSpent. induction 1 as [|vin vins [_ Hv] _ IH]; [constructor|].
  cbn [map concat]. apply Forall_app_2; [|done]. unfold inputOutpoint.
  destruct (PackTxid (vin_Txid vin)); repeat constructor. cbn. lia.
Qed.

Lemma block_nonneg txs : Forall inputs_ok txs -> Forall (fun p => 0 <= p.2) (blockOutpoints txs).
Proof.
  unfold blockOutpoints. induction 1 as [|tx txs Htx _ IH]; [constructor|].
  cbn [map concat]. apply Forall_app_2; [by apply inputs_nonneg|done].
Qed.

(** A suffix of the inputs, with the outpoints spent after it. *)
Lemma processVins_ok d height tx sp vins rest :
  reads_ok d -> Forall vin_ok vins -> forall k st,
  in_inv d st (concat (map inputOutpoint vins) ++ rest) ->
  NoDup (concat (map inputOutpoint vins) ++ rest) -> Forall (fun p => 0 <= p.2) rest ->
  exists st', rfold (processInput d height tx sp) (imap (fun i v => ((k + i)%nat, v)) vins) st = Ok st' /\
    in_inv d st' rest.
Proof.
  intros Hd Hv. induction Hv as [|vin vins Hvin Hvins IH]; intros k st Hinv Hnd Hnn.
  - by exists st.
  - cbn [map concat] in Hinv, Hnd. rewrite <- app_assoc in Hinv, Hnd.
    assert (Forall (fun p => 0 <= p.2) (concat (map inputOutpoint vins) ++ rest)) as Hnn'
      by (apply Forall_app_2; [exact (inputs_nonneg (mkTx [] [] 0 0 0 vins [] []) Hvins)|done]).
    cbn [imap rfold]. rewrite Nat.add_0_r.
    destruct (processInput_ok d height tx sp k vin st _ Hd Hvin Hinv Hnd Hnn') as (st1 & Hst1 & Hinv1).
    rewrite Hst1. cbn [rbind]. apply NoDup_app in Hnd as (_ & _ & Hnd).
    destruct (IH (S k) st1 Hinv1 Hnd Hnn) as (st' & Hst' & Hinv').
    exists st'. split; [|done]. rewrite <- Hst'. f_equal. apply imap_ext. intros i v _. cbn. by rewrite Nat.add_succ_r.
Qed.

Lemma processTxInputs_ok d height tx t st rest :
  reads_ok d -> inputs_ok tx -> PackTxid (tx_Txid tx) = Ok t ->
  in_inv d st (txOutpointsSpent tx ++ rest) -> NoDup (txOutpointsSpent tx ++ rest) ->
  Forall (fun p => 0 <= p.2) rest ->
  exists st', processTxInputs d height st tx = Ok st' /\ in_inv d st' rest.
Proof.
  intros Hd Hi Hp Hinv Hnd Hnn. unfold processTxInputs. rewrite Hp. cbn [rbind].
  apply (processVins_ok d height tx t (tx_Vin tx) rest Hd Hi 0); [|done|done].
  apply (in_inv_same_rows d st); [by apply same_rows_updTx|done|by destruct Hinv|done].
Qed.

Lemma inputs_phase_ok d height txs :
  reads_ok d -> Forall inputs_ok txs -> Forall (fun tx => PackTxid (tx_Txid tx) = Ok (packedId tx)) txs ->
  forall st, in_inv d st (blockOutpoints txs) -> NoDup (blockOutpoints txs) ->
  exists st', rfold (processTxInputs d height) txs st = Ok st' /\ in_inv d st' [].
Proof.
  intros Hd. induction txs as [|tx txs IH]; intros Hi Hp st Hinv Hnd; [by exists st|].
  apply Forall_cons in Hi as [Hi1 Hi], Hp as [Hp1 Hp].
  unfold blockOutpoints in Hinv, Hnd. cbn [map concat] in Hinv, Hnd.
  destruct (processTxInputs_ok d height tx (packedId tx) st (blockOutpoints txs) Hd Hi1 Hp1 Hinv Hnd
              (block_nonneg txs Hi)) as (st1 & Hst1 & Hinv1).
  cbn [rfold]. rewrite Hst1. cbn [rbind]. apply IH; [done|done|done|].
  by apply NoDup_app in Hnd as (_ & _ & ?).
Qed.

(** ** The block *)

(** A block that fits the index: its transactions are new and can be packed, its amounts
    are not negative, and it spends no output twice. Inputs that refer to unknown
    transactions or outputs are allowed. *)
Record valid_over (tx : bytes -> option TxAddresses) (block : Block) : Prop := {
  vb_outputs : Forall tx_outputs_ok (blk_Txs block);
  vb_txids : Forall (fun tx => PackTxid (tx_Txid tx) = Ok (packedId tx)) (blk_Txs block);
  vb_distinct : NoDup (map packedId (blk_Txs block));
  vb_new : Forall (fun t => tx (packedId t) = None) (blk_Txs block);
  vb_inputs : Forall inputs_ok (blk_Txs block);
  vb_spends : NoDup (blockOutpoints (blk_Txs block));
  vb_unspent : Forall (outpoint_unspent tx) (blockOutpoints (blk_Txs block));
}.

Definition valid_block d (block : Block) : Prop := valid_over (dbTx d) block.

Lemma txView_init d cache gf t : txView d (initState cache gf) t = dbTx d t.
Proof. unfold txView, initState. cbn [cs_txAddresses]. by rewrite lookup_empty. Qed.

Lemma balView_init d cache gf a : balView d (initState cache gf) a = dbBal d a.
Proof. unfold balView, initState. cbn [cs_balances]. by rewrite lookup_empty. Qed.

Lemma ledger_ok_ext tx tx' bal bal' :
  (forall t, tx t = tx' t) -> (forall a, bal a = bal' a) -> ledger_ok tx bal -> ledger_ok tx' bal'.
Proof.
  intros Ht Hb [HL HV]. constructor.
  - intros a Ha Hia. rewrite <- Hb. eapply addr_ok_ext; [exact Ht|]. by apply HL.
  - intros t ta. rewrite <- Ht. apply HV.
Qed.

(** Processing a block over maps that may hold rows of earlier blocks already. *)
Lemma process_ledger_from d block st0 :
  reads_ok d -> valid_over (txView d st0) block -> ledger_ok (txView d st0) (balView d st0) -> assets_ready st0 ->
  exists st, processAddressesBitcoinType d block st0 = Ok st /\
    ledger_ok (txView d st) (balView d st) /\ assets_ready st.
Proof.
  intros Hd [Ho Hp Hdist Hnew Hi Hs Hu] HL Hr.
  destruct (outputs_ok d (blk_Height block) (blk_Txs block) st0) as (st1 & Hst1 & [O1 O2 O3 O4]); [done..|].
  destruct (inputs_phase_ok d (blk_Height block) (blk_Txs block) Hd Hi Hp st1) as (st2 & Hst2 & Hinv); [|done|].
  - constructor; [done|done|]. eapply Forall_impl; [exact Hu|]. intros p Hpu ta o Ht Hlo.
    destruct (decide (p.1 ∈ map packedId (blk_Txs block))) as [Hin|Hnin].
    + destruct (O4 _ Hin) as (ta' & Ht' & Hf). rewrite Ht in Ht'. injection Ht' as <-.
      rewrite Forall_lookup in Hf. by eapply Hf.
    + rewrite (O3 _ Hnin) in Ht. by eapply Hpu.
  - exists st2. unfold processAddressesBitcoinType. rewrite Hst1. cbn [rbind].
    split; [done|]. split; apply Hinv.
Qed.

Lemma valid_over_ext tx tx' block : (forall t, tx t = tx' t) -> valid_over tx block -> valid_over tx' block.
Proof.
  intros H [H1 H2 H3 H4 H5 H6 H7]. constructor; try done.
  - eapply Forall_impl; [exact H4|]. intros t Ht. cbn in *. by rewrite <- H.
  - eapply Forall_impl; [exact H7|]. intros p Hp ta o. rewrite <- H. apply Hp.
Qed.

Lemma process_ledger d cache gf block :
  reads_ok d -> valid_block d block -> ledger_ok (dbTx d) (dbBal d) ->
  exists st, processAddressesBitcoinType d block (initState cache gf) = Ok st /\
    ledger_ok (txView d st) (balView d st) /\ assets_ready st.
Proof.
  intros Hd Hv HL. apply process_ledger_from; [done| | |].
  - eapply valid_over_ext; [|exact Hv]. intros t. by rewrite txView_init.
  - eapply ledger_ok_ext; [| |exact HL]; intros; by rewrite ?txView_init, ?balView_init.
  - intros Hsup. unfold initState. cbn. rewrite Hsup. split; by eexists.
Qed.
End InputPhase.
