(* ===== verification/ConnectIndex.v ===== *)
(** The address index of a block and the transaction counters of the balances: every
    address touched by the block is listed with the transactions that touch it, once
    each, and its counter grows by exactly their number. *)

From S2P Require Import Prelude Codec Parser Golomb TxAddr Balance IndexCodec Store Scan Assets Connect Ledger ConnectCorrect.

Local Open Scope Z_scope.

(** ** One entry of the map *)

Definition listed (l : list txIndexes) : list bytes := map txi_btxID l.

Lemma appendIndex_listed t ix l l' :
  appendIndex t ix l = Some l' -> t ∈ listed l /\ listed l' = listed l.
Proof.
  revert l'. induction l as [|x l IH]; intros l' H; cbn in H; [done|].
  case_bool_decide as Et.
  - injection H as <-. subst t. cbn. split; [left|done].
  - destruct (appendIndex t ix l) as [r|]; [|done]. injection H as <-.
    destruct (IH r eq_refl) as [H1 H2]. split; [by right|]. unfold listed in *. cbn. by rewrite H2.
Qed.

Lemma appendIndex_None t ix l : appendIndex t ix l = None -> t ∉ listed l.
Proof.
  induction l as [|x l IH]; intros H; [by apply not_elem_of_nil|]. cbn in H.
  case_bool_decide as Et; [done|]. destruct (appendIndex t ix l); [done|].
  cbn. apply not_elem_of_cons. split; [done|]. by apply IH.
Qed.

(** The flag says whether the transaction was listed; afterwards it is, once. *)
Lemma addToAddressesMap_spec m a t ix m' c :
  addToAddressesMap m a t ix = (m', c) ->
  exists l, m' = <[a := l]> m /\ l <> [] /\
    listed l = (if c then listed (default [] (m !! a)) else listed (default [] (m !! a)) ++ [t]) /\
    (NoDup (listed (default [] (m !! a))) -> NoDup (listed l)).
Proof.
  unfold addToAddressesMap. destruct (appendIndex t ix (default [] (m !! a))) as [l|] eqn:El; intros [= <- <-].
  - destruct (appendIndex_listed _ _ _ _ El) as [H1 H2]. exists l. split; [done|]. split; [|by rewrite H2].
    intros ->. cbn in H2. rewrite <- H2 in H1. by apply not_elem_of_nil in H1.
  - apply appendIndex_None in El. exists (default [] (m !! a) ++ [mkTxIndexes t [ix]]). split; [done|].
    split; [by destruct (default [] (m !! a))|]. unfold listed at 1 4. rewrite map_app. cbn. split; [done|].
    intros Hn. apply NoDup_app. split; [done|]. split; [|apply NoDup_singleton].
    intros x Hx ->%list_elem_of_singleton. done.
Qed.

Section Counting.
Context {V : Vlq} {P : ChainParser} {IX : IndexOpts} {K : KV} {W : AssetWire} {E : AssetEnv W}.
Implicit Types (d : DB K) (st : ConnState W).

(** The balances in the map and the lists of the index belong together. *)
Definition counted_ok d (base : bytes -> Z) st : Prop :=
  forall a,
    match cs_balances st !! a, cs_addresses st !! a with
    | Some ab, Some l => l <> [] /\ NoDup (listed l) /\ ab_Txs ab = u32 (base a + zlen l)
    | None, None => u32 (base a) = ab_Txs (dbBal d a)
    | _, _ => False
    end.

Lemma u32_succ x n : u32 (u32 (x + n) + 1) = u32 (x + (n + 1)).
Proof. unfold u32. rewrite Z.add_mod_idemp_l by done. f_equal. lia. Qed.

(** A step that lists the transaction, counts it, and stores the balance. *)
Lemma counted_step d base st st' a t ix m c b ab :
  counted_ok d base st -> addToAddressesMap (cs_addresses st) a t ix = (m, c) ->
  b = balView d st a -> ab_Txs ab = ab_Txs (countTx c b) ->
  cs_addresses st' = m -> (exists m', cs_balances st' = <[a := ab]> m' /\
     forall a', a' <> a -> m' !! a' = cs_balances st !! a') ->
  counted_ok d base st'.
Proof.
  intros Hc Hadd Hb Hab Hm (m' & Hm' & Hother) a'. rewrite Hm, Hm'.
  destruct (addToAddressesMap_spec _ _ _ _ _ _ Hadd) as (l & Em & Hne & Hl & Hnd). rewrite Em.
  destruct (decide (a' = a)) as [->|Hna].
  - rewrite !lookup_insert_eq. split; [done|]. specialize (Hc a). unfold balView in Hb.
    assert (zlen l = zlen (default [] (cs_addresses st !! a)) + (if c then 0 else 1)) as Hlen.
    { apply (f_equal length) in Hl. unfold listed, zlen in *. rewrite length_map in Hl.
      destruct c; [rewrite length_map in Hl; lia|].
      rewrite length_app, length_map in Hl. cbn in Hl. lia. }
    destruct (cs_balances st !! a) as [ab0|], (cs_addresses st !! a) as [l0|]; try done; cbn [from_option id] in *.
    + destruct Hc as (Hl0 & Hn0 & Ht0). split; [by apply Hnd|]. rewrite Hab, Hlen, Hb. destruct c; cbn [countTx].
      * rewrite Ht0. f_equal. lia.
      * cbn [ab_Txs set_Txs]. rewrite Ht0. apply u32_succ.
    + split; [apply Hnd, NoDup_nil_2|]. destruct c.
      * exfalso. cbn in Hl. apply Hne. by destruct l.
      * rewrite Hab, Hlen, Hb. cbn [countTx ab_Txs set_Txs]. rewrite <- Hc.
        rewrite <- (Z.add_0_r (base a)) at 1. rewrite u32_succ. f_equal.
  - rewrite !lookup_insert_ne by done. rewrite Hother by done. apply Hc.
Qed.

Lemma getBalance_inv d a st b st1 :
  getBalance d a st = Ok (b, st1) ->
  exists m, st1 = with_balances m st /\ b = balView d st a /\
    (forall a', a' <> a -> m !! a' = cs_balances st !! a').
Proof.
  unfold getBalance, balView. destruct (cs_balances st !! a) as [ab|] eqn:Ea.
  - intros [= <- <-]. exists (cs_balances st). by destruct st.
  - intros H. apply rbind_Ok in H as (o & Ho & [= <- <-]). eexists. split; [done|].
    split; [unfold dbBal; by rewrite Ho; destruct o|]. intros a' Hne. by rewrite lookup_insert_ne.
Qed.

Lemma connectOutputAsset_inv d a h tx t ai b st b' st' :
  connectOutputAsset d a h tx t ai b st = Ok (b', st') ->
  ab_Txs b' = ab_Txs b /\ exists ast, st' = with_assets ast st.
Proof.
  unfold connectOutputAsset. destruct ai as [ai|]; intros H.
  - apply rbind_Ok in H as ([ast ba] & _ & [= <- <-]). eauto.
  - injection H as <- <-. split; [done|]. exists (cs_assets st). by destruct st.
Qed.

Lemma connectInputAsset_inv d a h tx t ai b st b' st' :
  connectInputAsset d a h tx t ai b st = Ok (b', st') ->
  ab_Txs b' = ab_Txs b /\ exists ast, st' = with_assets ast st.
Proof.
  unfold connectInputAsset. destruct ai as [ai|]; intros H.
  - apply rbind_Ok in H as ([ast ba] & _ & [= <- <-]). eauto.
  - injection H as <- <-. split; [done|]. exists (cs_assets st). by destruct st.
Qed.

Lemma countTx_Txs c b b' : ab_Txs b = ab_Txs b' -> ab_Txs (countTx c b) = ab_Txs (countTx c b').
Proof. destruct c; cbn; by intros ->. Qed.

Lemma creditOutput_counted d base h tx t a i output st st' :
  counted_ok d base st -> creditOutput d h tx t a i output st = Ok st' -> counted_ok d base st'.
Proof.
  intros Hc H. unfold creditOutput in H.
  apply rbind_Ok in H as ([b st1] & Hb & H). apply getBalance_inv in Hb as (m & -> & -> & Hm).
  apply rbind_Ok in H as ([b2 st2] & Hb2 & H). apply connectOutputAsset_inv in Hb2 as (Ht & ast & ->).
  destruct (addToAddressesMap _ _ _ _) as [ads c] eqn:Ea. injection H as <-.
  eapply (counted_step d base st _ a); [done|exact Ea|done| |done|by eexists].
  apply countTx_Txs. destruct (addUtxo_fields (mkUtxo t (i32 (Z.of_nat i)) h (vout_ValueSat output)
    (vout_AssetInfo output)) b2) as (-> & _). by rewrite Ht.
Qed.

Lemma debitInput_counted d base h tx sp t i input o st st' :
  counted_ok d base st -> debitInput d h tx sp t i input o st = Ok st' -> counted_ok d base st'.
Proof.
  intros Hc H. unfold debitInput in H.
  apply rbind_Ok in H as ([b st1] & Hb & H). apply getBalance_inv in Hb as (m & -> & -> & Hm).
  destruct (addToAddressesMap _ _ _ _) as [ads c] eqn:Ea.
  apply rbind_Ok in H as ([b2 st2] & Hb2 & H). apply connectInputAsset_inv in Hb2 as (Ht & ast & ->).
  injection H as <-.
  eapply (counted_step d base st _ (to_AddrDesc o)); [done|exact Ea|done| |done|by eexists].
  destruct (markUtxoAsSpent_fields t (i32 (vin_Vout input)) b2) as (F1 & _).
  cbn [ab_Txs set_SentSat]. rewrite <- F1 in Ht. by case_match.
Qed.

Lemma processOutput_counted d base h tx t st e st' :
  counted_ok d base st -> processOutput d h tx t st e = Ok st' -> counted_ok d base st'.
Proof.
  intros Hc H. destruct e as [i output]. unfold processOutput in H.
  destruct (GetAddrDescFromVout output) as [a| |]; [|by injection H as <-|done].
  case_match; [by injection H as <-|]. case_match; [|by injection H as <-].
  by eapply creditOutput_counted in H.
Qed.

Lemma processInput_counted d base h tx sp st e st' :
  counted_ok d base st -> processInput d h tx sp st e = Ok st' -> counted_ok d base st'.
Proof.
  intros Hc H. destruct e as [i input]. unfold processInput in H.
  destruct (PackTxid (vin_Txid input)) as [t|[]|]; try done; [|by injection H as <-].
  apply rbind_Ok in H as ([oita st1] & Hs & H).
  assert (exists m, st1 = with_txAddresses m st) as [m ->].
  { unfold getSpentTx in Hs. destruct (cs_txAddresses st !! t).
    - injection Hs as <- <-. exists (cs_txAddresses st). by destruct st.
    - apply rbind_Ok in Hs as ([ita|] & _ & [= <- <-]); [by eexists|].
      exists (cs_txAddresses st). by destruct st. }
  destruct oita as [ita|]; [|by injection H as <-].
  destruct (ta_Outputs ita !! Z.to_nat (vin_Vout input)) as [o|]; [|by injection H as <-].
  case_match; [by injection H as <-|]. case_match; [|by injection H as <-].
  by eapply debitInput_counted in H.
Qed.

Lemma rfold_keeps {A S} (f : S -> A -> result S) (Q : S -> Prop) l s s' :
  (forall s a s', Q s -> f s a = Ok s' -> Q s') -> Q s -> rfold f l s = Ok s' -> Q s'.
Proof.
  intros Hf Hs Hr. apply (rfold_inv f (fun _ => Q) l s s' Hs); [|done]. intros ? ? ? ? ? _. apply Hf.
Qed.

Lemma process_counted d base block st st' :
  counted_ok d base st -> processAddressesBitcoinType d block st = Ok st' -> counted_ok d base st'.
Proof.
  intros Hc H. unfold processAddressesBitcoinType in H. apply rbind_Ok in H as (st1 & H1 & H2).
  eapply (rfold_keeps _ (counted_ok d base)); [| |exact H2].
  - intros s tx s' Hs H. unfold processTxInputs in H. apply rbind_Ok in H as (t & _ & H).
    eapply (rfold_keeps _ (counted_ok d base)); [| |exact H]; [|done].
    intros s1 e s2. apply processInput_counted.
  - eapply (rfold_keeps _ (counted_ok d base)); [| |exact H1]; [|done].
    intros s tx s' Hs H. unfold processTxOutputs in H. apply rbind_Ok in H as (t & _ & H).
    eapply (rfold_keeps _ (counted_ok d base)); [| |exact H]; [|done].
    intros s1 e s2. apply processOutput_counted.
Qed.

Lemma counted_init d cache gf :
  (forall a, is_u32 (ab_Txs (dbBal d a))) ->
  counted_ok d (fun a => ab_Txs (dbBal d a)) (initState cache gf).
Proof. intros Hu a. unfold initState. cbn [cs_balances cs_addresses]. rewrite !lookup_empty. by apply u32_id. Qed.
End Counting.
