(* ===== verification/BlockRows.v ===== *)
(** What a block does to the transaction rows, as a function on rows: every transaction adds
    its row, every input is recorded and marks the output it spends. [processAddressesBitcoinType]
    computes exactly this function, whatever is in its maps and whatever is still in the database.
    Rows are compared in everything their column stores ([eqRows]). *)

From S2P Require Import Prelude Codec Parser Golomb TxAddr Balance IndexCodec Store Scan Assets Connect Ledger ConnectCorrect ConnectIndex.

Local Open Scope Z_scope.

(** ** Rows *)

Definition Rows : Type := bytes -> option TxAddresses.

Section Rows.
Context {P : ChainParser} {IX : IndexOpts}.

(** Two tables of rows hold the same: heights, inputs, outputs with what spent them, version, memo and size, as far
    as the column keeps them. *)
Definition eqRows (r r' : Rows) : Prop := forall t, keptTxAddresses <$> r t = keptTxAddresses <$> r' t.

#[export] Instance eqRows_equiv : Equivalence eqRows.
Proof.
  split; [intros r t; done|intros r r' H t; by rewrite H|]. intros r1 r2 r3 H1 H2 t. by rewrite (H1 t).
Qed.

Lemma eqRows_ext (r r' : Rows) : (forall t, r t = r' t) -> eqRows r r'.
Proof. intros H t. by rewrite H. Qed.

Lemma keptAsset_idem a : keptAsset (keptAsset a) = keptAsset a.
Proof. unfold keptAsset. destruct supportsSyscoinAssets; [|done]. by destruct a as [[? []]|]. Qed.

Lemma keptInput_idem i : keptInput (keptInput i) = keptInput i.
Proof. unfold keptInput. cbn. rewrite keptAsset_idem. destruct extendedIndex; [|done]. cbn. by case_bool_decide. Qed.

Lemma keptOutput_idem o : keptOutput (keptOutput o) = keptOutput o.
Proof. unfold keptOutput. cbn. rewrite keptAsset_idem. by destruct (extendedIndex && to_Spent o). Qed.

(** Storing what was stored changes nothing. *)
Lemma keptTxAddresses_idem ta : keptTxAddresses (keptTxAddresses ta) = keptTxAddresses ta.
Proof.
  unfold keptTxAddresses. cbn. rewrite !map_map.
  rewrite (map_ext _ _ keptInput_idem), (map_ext _ _ keptOutput_idem). by destruct supportsSyscoinAssets, extendedIndex.
Qed.

(** *** Updates respect the equivalence *)

Lemma kept_alter {A} (k f f' : A -> A) i l l' :
  map k l = map k l' -> (forall x x', k x = k x' -> k (f x) = k (f' x')) -> map k (alter f i l) = map k (alter f' i l').
Proof.
  intros H Hf. revert i l' H. induction l as [|x l IH]; intros i [|x' l']; try done. cbn. intros [= Hx Hl].
  destruct i as [|i]; cbn; [by rewrite Hl, (Hf x x')|by rewrite Hx, (IH i l')].
Qed.

Lemma kept_set_Outputs ta ta' os os' :
  keptTxAddresses ta = keptTxAddresses ta' -> map keptOutput os = map keptOutput os' ->
  keptTxAddresses (set_Outputs os ta) = keptTxAddresses (set_Outputs os' ta').
Proof. unfold keptTxAddresses. cbn. intros [= -> -> _ -> -> ->] ->. done. Qed.

Lemma kept_set_Inputs ta ta' l l' :
  keptTxAddresses ta = keptTxAddresses ta' -> map keptInput l = map keptInput l' ->
  keptTxAddresses (set_Inputs l ta) = keptTxAddresses (set_Inputs l' ta').
Proof. unfold keptTxAddresses. cbn. intros [= -> _ -> -> -> ->] ->. done. Qed.

Lemma kept_lists ta ta' : keptTxAddresses ta = keptTxAddresses ta' ->
  map keptInput (ta_Inputs ta) = map keptInput (ta_Inputs ta') /\ map keptOutput (ta_Outputs ta) = map keptOutput (ta_Outputs ta').
Proof. unfold keptTxAddresses. by intros [= _ -> -> _ _ _]. Qed.

Lemma kept_spendOutput h tx i o o' : keptOutput o = keptOutput o' -> keptOutput (spendOutput h tx i o) = keptOutput (spendOutput h tx i o').
Proof. unfold keptOutput, spendOutput. intros [= -> _ -> Ha _ _ _]. destruct extendedIndex; cbn; by rewrite Ha. Qed.

Lemma kept_spendingInput input o o' t t' : keptOutput o = keptOutput o' -> keptInput t = keptInput t' ->
  keptInput (spendingInput input o t) = keptInput (spendingInput input o' t').
Proof. unfold keptOutput, keptInput, spendingInput. intros [= -> _ -> Ha _ _ _] _. destruct extendedIndex; cbn; by rewrite Ha. Qed.

(** ** The specification *)

(** Descriptors that are missing or too long are not recorded. *)
Definition recordedAddr (output : Vout) : bytes :=
  match GetAddrDescFromVout output with
  | Ok a => if (zlen a =? 0) || (maxAddrDescLen <? zlen a) then [] else a
  | _ => []
  end.

(** What an output becomes: its amount, its asset and, if recorded, its descriptor. *)
Definition fillOutput (output : Vout) (o : TxOutput) : TxOutput :=
  mkTxOutput (if bool_decide (recordedAddr output = []) then to_AddrDesc o else recordedAddr output) (to_Spent o)
    (vout_ValueSat output) (vout_AssetInfo output) (to_SpentTxid o) (to_SpentIndex o) (to_SpentHeight o).

Definition createdOutputs (vs : list Vout) : list TxOutput := map (fun v => fillOutput v blankOutput) vs.

Definition updRow (t : bytes) (f : TxAddresses -> TxAddresses) (rows : Rows) : Rows :=
  fun t' => if decide (t' = t) then f <$> rows t' else rows t'.

Definition createRow (height : Z) (rows : Rows) (tx : Tx) : Rows :=
  fun t => if decide (t = packedId tx) then Some (set_Outputs (createdOutputs (tx_Vout tx)) (newTxAddresses height tx)) else rows t.

(** An input that spends an unknown transaction only has an address. *)
Definition unknownInput (tx : Tx) (i : nat) (ti : TxInput) : TxInput :=
  mkTxInput (GetAddrDescForUnknownInput tx (Z.of_nat i)) (ti_ValueSat ti) (ti_AssetInfo ti) (ti_Txid ti) (ti_Vout ti).

Definition spendRow (height : Z) (tx : Tx) (rows : Rows) (e : nat * Vin) : Rows :=
  let '(i, input) := e in
  match PackTxid (vin_Txid input) with
  | Ok spent =>
      match rows spent with
      | None => updRow (packedId tx) (fun ta => set_Inputs (alter (unknownInput tx i) i (ta_Inputs ta)) ta) rows
      | Some ita =>
          match ta_Outputs ita !! Z.to_nat (vin_Vout input) with
          | None => rows
          | Some o =>
              updRow spent (fun ta => set_Outputs (alter (spendOutput height tx i) (Z.to_nat (vin_Vout input)) (ta_Outputs ta)) ta)
                (updRow (packedId tx) (fun ta => set_Inputs (alter (spendingInput input o) i (ta_Inputs ta)) ta) rows)
          end
      end
  | _ => rows
  end.

Definition spendRows (height : Z) (rows : Rows) (tx : Tx) : Rows :=
  foldl (spendRow height tx) (updRow (packedId tx) (set_Inputs (replicate (length (tx_Vin tx)) blankInput)) rows) (enumerate (tx_Vin tx)).

Definition blockRows (rows : Rows) (block : Block) : Rows :=
  foldl (spendRows (blk_Height block)) (foldl (createRow (blk_Height block)) rows (blk_Txs block)) (blk_Txs block).

(** *** The functions respect the equivalence *)

Lemma updRow_eq t f f' r r' :
  (forall ta ta', keptTxAddresses ta = keptTxAddresses ta' -> keptTxAddresses (f ta) = keptTxAddresses (f' ta')) ->
  eqRows r r' -> eqRows (updRow t f r) (updRow t f' r').
Proof.
  intros Hf Hr t'. unfold updRow. case_decide; [|apply Hr]. specialize (Hr t').
  destruct (r t') as [ta|], (r' t') as [ta'|]; try done. apply (f_equal Some), Hf. exact (inj Some _ _ Hr).
Qed.

#[export] Instance createRow_proper h : Proper (eqRows ==> eq ==> eqRows) (createRow h).
Proof. intros r r' Hr tx _ <- t. unfold createRow. by case_decide. Qed.

#[export] Instance spendRow_proper h tx : Proper (eqRows ==> eq ==> eqRows) (spendRow h tx).
Proof.
  intros r r' Hr [i input] _ <-. unfold spendRow. destruct (PackTxid _) as [spent| |]; [|exact Hr..].
  pose proof (Hr spent) as Hs. destruct (r spent) as [ita|], (r' spent) as [ita'|]; try done.
  - apply (inj Some) in Hs. apply kept_lists in Hs as [_ Ho].
    apply (f_equal (fun l => l !! Z.to_nat (vin_Vout input))) in Ho. rewrite !list_lookup_fmap in Ho.
    destruct (ta_Outputs ita !! _) as [o|], (ta_Outputs ita' !! _) as [o'|]; try done. apply (inj Some) in Ho.
    apply updRow_eq; [|apply updRow_eq; [|done]]; intros ta ta' Hk; pose proof (kept_lists _ _ Hk) as [Hi Hout].
    + apply kept_set_Outputs; [done|]. apply kept_alter; [done|]. apply kept_spendOutput.
    + apply kept_set_Inputs; [done|]. apply kept_alter; [done|]. intros x x'. by apply kept_spendingInput.
  - apply updRow_eq; [|done]. intros ta ta' Hk. pose proof (kept_lists _ _ Hk) as [Hi _]. apply kept_set_Inputs; [done|].
    apply kept_alter; [done|]. unfold keptInput, unknownInput. cbn. by intros x x' [= _ -> -> -> ->].
Qed.

Lemma foldl_rows {A} (f : Rows -> A -> Rows) l r r' :
  Proper (eqRows ==> eq ==> eqRows) f -> eqRows r r' -> eqRows (foldl f r l) (foldl f r' l).
Proof. intros Hf. revert r r'. induction l as [|x l IH]; intros r r' Hr; [done|]. apply IH. by apply Hf. Qed.

#[export] Instance spendRows_proper h : Proper (eqRows ==> eq ==> eqRows) (spendRows h).
Proof.
  intros r r' Hr tx _ <-. apply foldl_rows; [apply _|]. apply updRow_eq; [|done]. intros. by apply kept_set_Inputs.
Qed.

#[export] Instance blockRows_proper : Proper (eqRows ==> eq ==> eqRows) blockRows.
Proof. intros r r' Hr block _ <-. unfold blockRows. apply foldl_rows; [apply _|]. apply foldl_rows; [apply _|done]. Qed.
End Rows.

(** ** The code *)

Section BlockRows.
Context {V : Vlq} {P : ChainParser} {IX : IndexOpts} {K : KV} {W : AssetWire} {E : AssetEnv W} {G : Gcs} {FO : FilterOpts}.
Implicit Types (d : DB K) (st : ConnState W).

Lemma list_alter_twice {A} (f g : A -> A) i (l : list A) : alter f i (alter g i l) = alter (fun x => f (g x)) i l.
Proof. revert i. induction l as [|x l IH]; intros [|i]; cbn; [done..|]. f_equal. apply IH. Qed.

(** *** Outputs *)

Lemma creditOutput_txs d h tx t a i output st st' :
  creditOutput d h tx t a i output st = Ok st' -> cs_txAddresses st' = cs_txAddresses st.
Proof.
  unfold creditOutput. intros H. apply rbind_Ok in H as ([b st1] & H1 & H). apply rbind_Ok in H as ([b' st2] & H2 & H).
  apply getBalance_inv in H1 as (m & -> & _). apply connectOutputAsset_inv in H2 as (_ & ast & ->).
  destruct (addToAddressesMap _ _ _ _). by injection H as <-.
Qed.

Lemma debitInput_txs d h tx sp t i input o st st' :
  debitInput d h tx sp t i input o st = Ok st' -> cs_txAddresses st' = cs_txAddresses st.
Proof.
  unfold debitInput. intros H. apply rbind_Ok in H as ([b st1] & H1 & H).
  apply getBalance_inv in H1 as (m & -> & _). destruct (addToAddressesMap _ _ _ _).
  apply rbind_Ok in H as ([b' st2] & H2 & H). apply connectInputAsset_inv in H2 as (_ & ast & ->). by injection H as <-.
Qed.

Lemma processOutput_txs d h tx t st i output st' ta :
  processOutput d h tx t st (i, output) = Ok st' -> cs_txAddresses st !! t = Some ta ->
  cs_txAddresses st' !! t = Some (set_Outputs (alter (fillOutput output) i (ta_Outputs ta)) ta) /\
  forall t', t' <> t -> cs_txAddresses st' !! t' = cs_txAddresses st !! t'.
Proof.
  intros H Ht. unfold processOutput in H. set (f1 := fun o => mkTxOutput (to_AddrDesc o) _ _ _ _ _ _) in H.
  assert (forall l : list TxOutput, recordedAddr output = [] -> alter (fillOutput output) i l = alter f1 i l) as Hf1.
  { intros l Hr. apply list_alter_ext; [|done]. intros o _. unfold fillOutput. by rewrite bool_decide_eq_true_2. }
  assert (forall st1, cs_txAddresses st1 = cs_txAddresses (updOutput t i f1 st) -> recordedAddr output = [] ->
    cs_txAddresses st1 !! t = Some (set_Outputs (alter (fillOutput output) i (ta_Outputs ta)) ta) /\
    forall t', t' <> t -> cs_txAddresses st1 !! t' = cs_txAddresses st !! t') as Hnone.
  { intros st1 -> Hr. unfold updOutput, updTx. cbn [cs_txAddresses with_txAddresses]. rewrite lookup_alter_eq, Ht, Hf1 by done.
    split; [done|]. intros t' Hne. by rewrite lookup_alter_ne. }
  unfold recordedAddr in *. destruct (GetAddrDescFromVout output) as [a|e|] eqn:Ea; [|by injection H as <-; apply Hnone|done].
  destruct ((zlen a =? 0) || (maxAddrDescLen <? zlen a)) eqn:Ez; [by injection H as <-; apply Hnone|].
  set (f2 := fun o => mkTxOutput a _ _ _ _ _ _) in H.
  assert (cs_txAddresses st' = cs_txAddresses (updOutput t i f2 (gfAdd a tx (updOutput t i f1 st)))) as ->.
  { destruct (IsAddrDescIndexable a); [by apply creditOutput_txs in H|by injection H as <-]. }
  clear H Hnone Hf1. unfold updOutput, updTx. cbn [cs_txAddresses with_txAddresses gfAdd with_gf].
  rewrite !lookup_alter_eq, Ht. cbn [fmap option_fmap option_map ta_Outputs set_Outputs]. split.
  - assert (alter f2 i (alter f1 i (ta_Outputs ta)) = alter (fillOutput output) i (ta_Outputs ta)) as ->; [|done].
    rewrite list_alter_twice. apply list_alter_ext; [|done]. intros o _.
    unfold fillOutput, recordedAddr. rewrite Ea, Ez, bool_decide_eq_false_2; [done|]. intros ->. by rewrite zlen_nil in Ez.
  - intros t' Hne. by rewrite !lookup_alter_ne.
Qed.

(** A row whose first outputs are filled in. *)
Lemma processVouts_rows d h tx t vs : forall pre st st' ta,
  rfold (processOutput d h tx t) (imap (fun i v => ((length pre + i)%nat, v)) vs) st = Ok st' ->
  cs_txAddresses st !! t = Some ta -> ta_Outputs ta = pre ++ replicate (length vs) blankOutput ->
  cs_txAddresses st' !! t = Some (set_Outputs (pre ++ createdOutputs vs) ta) /\
  forall t', t' <> t -> cs_txAddresses st' !! t' = cs_txAddresses st !! t'.
Proof.
  induction vs as [|v vs IH]; intros pre st st' ta H Ht Ho; cbn [imap rfold] in H.
  - injection H as <-. split; [|done]. rewrite Ht. cbn in *. rewrite <- Ho. by destruct ta.
  - rewrite Nat.add_0_r in H. apply rbind_Ok in H as (st1 & H1 & H).
    destruct (processOutput_txs d h tx t st _ v st1 ta H1 Ht) as [Ht1 Hoth1].
    destruct (IH (pre ++ [fillOutput v blankOutput]) st1 st'
      (set_Outputs (alter (fillOutput v) (length pre) (ta_Outputs ta)) ta)) as [Ht' Hoth].
    + rewrite <- H. f_equal. apply imap_ext. intros i x _. cbn. rewrite length_app. cbn. f_equal. lia.
    + exact Ht1.
    + cbn [ta_Outputs set_Outputs]. rewrite Ho. cbn [length replicate].
      rewrite <- (Nat.add_0_r (length pre)), alter_app_r. cbn. by rewrite <- app_assoc.
    + split; [|intros t' Hne; by rewrite Hoth, Hoth1]. rewrite Ht', <- app_assoc. done.
Qed.

Lemma processTxOutputs_rows d h st tx st' :
  processTxOutputs d h st tx = Ok st' -> PackTxid (tx_Txid tx) = Ok (packedId tx) ->
  eqRows (txView d st') (createRow h (txView d st) tx) /\
  dom (cs_txAddresses st') = {[packedId tx]} ∪ dom (cs_txAddresses st).
Proof.
  intros H Hp. unfold processTxOutputs in H. rewrite Hp in H. cbn [rbind] in H. set (t := packedId tx) in *.
  destruct (processVouts_rows d h tx t (tx_Vout tx) [] _ st' (newTxAddresses h tx) H) as [Ht' Hoth].
  - cbn [cs_txAddresses with_txAddresses]. apply lookup_insert_eq.
  - done.
  - cbn [app] in Ht'. split.
    + apply eqRows_ext. intros t'. unfold createRow, txView. fold t. case_decide as Ed; [subst t'; by rewrite Ht'|].
      rewrite Hoth by done. cbn [cs_txAddresses with_txAddresses]. by rewrite lookup_insert_ne by done.
    + apply set_eq. intros t'. rewrite elem_of_union, elem_of_singleton, !elem_of_dom. destruct (decide (t' = t)) as [->|Hne].
      * rewrite Ht'. split; [by left|by eexists].
      * rewrite Hoth by done. cbn [cs_txAddresses with_txAddresses]. rewrite lookup_insert_ne by done. naive_solver.
Qed.

(** *** Inputs *)

Lemma txView_upd d st t f t' : t ∈ dom (cs_txAddresses st) -> txView d (updTx t f st) t' = updRow t f (txView d st) t'.
Proof.
  intros [ta Ht]%elem_of_dom. rewrite (txView_updTx d st t f ta t' Ht). unfold upd_tx, updRow, txView. case_decide; [|done].
  subst t'. by rewrite Ht.
Qed.

Lemma dom_updTx t f st : dom (cs_txAddresses (updTx t f st)) = dom (cs_txAddresses st).
Proof. apply dom_alter_L. Qed.

Lemma getSpentTx_inv d t st o st1 :
  getSpentTx d t st = Ok (o, st1) ->
  o = txView d st t /\ (forall t', txView d st1 t' = txView d st t') /\ cs_txAddresses st1 !! t = o.
Proof.
  unfold getSpentTx. destruct (cs_txAddresses st !! t) as [ta|] eqn:Et.
  - intros [= <- <-]. unfold txView. by rewrite Et.
  - intros H. apply rbind_Ok in H as (o' & Ho & H). unfold txView at 1. rewrite Et. unfold dbTx. rewrite Ho.
    destruct o' as [ta|]; injection H as <- <-; (split; [done|]); [|done].
    split; [|apply lookup_insert_eq]. intros t'. unfold txView. cbn [cs_txAddresses with_txAddresses].
    destruct (decide (t' = t)) as [->|Hne]; [|by rewrite lookup_insert_ne].
    rewrite lookup_insert_eq, Et. unfold dbTx. by rewrite Ho.
Qed.

Lemma getSpentTx_dom d t st o st1 : getSpentTx d t st = Ok (o, st1) -> dom (cs_txAddresses st) ⊆ dom (cs_txAddresses st1).
Proof.
  unfold getSpentTx. case_match; [by intros [= _ <-]|]. intros G1. apply rbind_Ok in G1 as (o' & _ & G1).
  destruct o'; injection G1 as _ <-; cbn [cs_txAddresses with_txAddresses]; [rewrite dom_insert_L; set_solver|done].
Qed.

Lemma processInput_rows d h tx st e st' :
  processInput d h tx (packedId tx) st e = Ok st' -> packedId tx ∈ dom (cs_txAddresses st) ->
  eqRows (txView d st') (spendRow h tx (txView d st) e) /\ dom (cs_txAddresses st) ⊆ dom (cs_txAddresses st').
Proof.
  destruct e as [i input]. unfold processInput, spendRow. destruct (PackTxid (vin_Txid input)) as [t|e|]; [|by destruct e; intros [= <-]|done].
  intros H Hsp. apply rbind_Ok in H as ([o st1] & H1 & H). pose proof (getSpentTx_dom d t st o st1 H1) as Hdom.
  apply getSpentTx_inv in H1 as (-> & Hview & Hin). assert (packedId tx ∈ dom (cs_txAddresses st1)) as Hsp1 by auto.
  set (n := Z.to_nat (vin_Vout input)) in *. clearbody n. destruct (txView d st t) as [ita|] eqn:Et.
  - destruct (ta_Outputs ita !! n) as [o|] eqn:Eo.
    + set (st2 := updInput _ i _ _) in H.
      assert (cs_txAddresses st' = cs_txAddresses (updOutput t n (spendOutput h tx i) st2)) as Hst'.
      { destruct (zlen (to_AddrDesc o) =? 0); [by injection H as <-|].
        destruct (IsAddrDescIndexable (to_AddrDesc o)); [by apply debitInput_txs in H|by injection H as <-]. }
      assert (dom (cs_txAddresses st2) = dom (cs_txAddresses st1)) as Hd2 by exact (dom_updTx _ _ (gfAdd (to_AddrDesc o) tx st1)).
      split; [|rewrite Hst'; unfold updOutput; by rewrite dom_updTx, Hd2].
      apply eqRows_ext. intros t'. transitivity (txView d (updOutput t n (spendOutput h tx i) st2) t'); [unfold txView; by rewrite Hst'|].
      assert (t ∈ dom (cs_txAddresses st2)) as Ht2 by (rewrite Hd2; apply elem_of_dom; by exists ita).
      unfold updOutput. rewrite txView_upd by done. unfold updRow at 1 3. unfold st2, updInput.
      rewrite txView_upd by done. unfold updRow. change (txView d (gfAdd (to_AddrDesc o) tx st1)) with (txView d st1).
      by rewrite Hview.
    + injection H as <-. split; [|done]. by apply eqRows_ext.
  - injection H as <-. split; [|unfold updInput; by rewrite dom_updTx]. apply eqRows_ext. intros t'.
    unfold updInput. rewrite txView_upd by done. unfold updRow. by rewrite Hview.
Qed.

Lemma processTxInputs_rows d h st tx st' :
  processTxInputs d h st tx = Ok st' -> PackTxid (tx_Txid tx) = Ok (packedId tx) -> packedId tx ∈ dom (cs_txAddresses st) ->
  eqRows (txView d st') (spendRows h (txView d st) tx) /\ dom (cs_txAddresses st) ⊆ dom (cs_txAddresses st').
Proof.
  unfold processTxInputs. intros H Hp Hsp. rewrite Hp in H. cbn [rbind] in H. set (st1 := updTx _ _ _) in H.
  assert (dom (cs_txAddresses st1) = dom (cs_txAddresses st)) as Hd1 by apply dom_updTx.
  assert (forall es st0, rfold (processInput d h tx (packedId tx)) es st0 = Ok st' -> packedId tx ∈ dom (cs_txAddresses st0) ->
    eqRows (txView d st') (foldl (spendRow h tx) (txView d st0) es) /\ dom (cs_txAddresses st0) ⊆ dom (cs_txAddresses st')) as Hloop.
  { induction es as [|e es IH]; intros st0 H0 Hs0; cbn [rfold foldl] in *; [by injection H0 as <-|].
    apply rbind_Ok in H0 as (st2 & H2 & H0). apply processInput_rows in H2 as [R2 D2]; [|done].
    destruct (IH st2 H0 (D2 _ Hs0)) as [R0 D0]. split; [|by etransitivity]. etransitivity; [exact R0|].
    apply foldl_rows; [apply _|exact R2]. }
  destruct (Hloop _ st1 H) as [R D]; [by rewrite Hd1|]. split; [|by rewrite <- Hd1]. etransitivity; [exact R|].
  apply foldl_rows; [apply _|]. apply eqRows_ext. intros t. by apply txView_upd.
Qed.

(** Processing a block computes its effect on the transaction rows. Whatever rows are in the
    maps already and whatever rows are still in the database, after
    [processAddressesBitcoinType] the rows are those before it, with a row for every
    transaction of the block that holds its outputs unspent, and then with every input recorded and every output
    marked that an input of the block refers to; unknown outputs and coinbase inputs mark
    nothing. *)
Theorem process_rows d block st st' :
  processAddressesBitcoinType d block st = Ok st' ->
  Forall (fun tx => PackTxid (tx_Txid tx) = Ok (packedId tx)) (blk_Txs block) ->
  eqRows (txView d st') (blockRows (txView d st) block).
Proof.
  intros H Hp. unfold processAddressesBitcoinType in H. apply rbind_Ok in H as (st1 & H1 & H2). unfold blockRows.
  assert (forall txs st0, Forall (fun tx => PackTxid (tx_Txid tx) = Ok (packedId tx)) txs ->
    rfold (processTxOutputs d (blk_Height block)) txs st0 = Ok st1 ->
    eqRows (txView d st1) (foldl (createRow (blk_Height block)) (txView d st0) txs) /\
    (forall t, t ∈ dom (cs_txAddresses st0) \/ t ∈ map packedId txs -> t ∈ dom (cs_txAddresses st1))) as Hout.
  { induction txs as [|tx txs IH]; intros st0 Hps H0; cbn [rfold foldl] in *; [injection H0 as <-; split; [done|set_solver]|].
    apply Forall_cons in Hps as [Hp1 Hps]. apply rbind_Ok in H0 as (st2 & H3 & H0).
    apply processTxOutputs_rows in H3 as [R3 D3]; [|done]. destruct (IH st2 Hps H0) as [R0 D0]. split.
    - etransitivity; [exact R0|]. apply foldl_rows; [apply _|exact R3].
    - intros t Ht. apply D0. rewrite D3. set_solver. }
  assert (forall txs st0, Forall (fun tx => PackTxid (tx_Txid tx) = Ok (packedId tx)) txs ->
    Forall (fun tx => packedId tx ∈ dom (cs_txAddresses st0)) txs ->
    rfold (processTxInputs d (blk_Height block)) txs st0 = Ok st' ->
    eqRows (txView d st') (foldl (spendRows (blk_Height block)) (txView d st0) txs)) as Hin.
  { induction txs as [|tx txs IH]; intros st0 Hps Hds H0; cbn [rfold foldl] in *; [by injection H0 as <-|].
    apply Forall_cons in Hps as [Hp1 Hps]. apply Forall_cons in Hds as [Hd1 Hds].
    apply rbind_Ok in H0 as (st2 & H3 & H0). apply processTxInputs_rows in H3 as [R3 D3]; [|done..].
    etransitivity; [apply (IH st2 Hps); [|exact H0]|apply foldl_rows; [apply _|exact R3]].
    eapply Forall_impl; [exact Hds|]. cbn. auto. }
  destruct (Hout _ st Hp H1) as [R1 D1]. etransitivity; [apply (Hin _ st1 Hp); [|exact H2]|apply foldl_rows; [apply _|exact R1]].
  apply Forall_forall. intros tx Htx. apply D1. right. by apply list_elem_of_fmap_2.
Qed.
End BlockRows.
