(* ===== verification/ConnectStore.v ===== *)
(** What [ConnectBlock] leaves in the database: after the batch is written, the rows read
    back give the ledger the block was processed to. *)

From S2P Require Import Prelude Codec Parser Golomb TxAddr Balance IndexCodec Store Scan Assets Connect Ledger ConnectCorrect ConnectIndex BlockRows.

Local Open Scope Z_scope.

(** ** Stored balances *)

Lemma addUtxos_fields us b :
  let b' := foldl (fun b u => addUtxo u b) b us in
  ab_Txs b' = ab_Txs b /\ ab_BalanceSat b' = ab_BalanceSat b /\ ab_AssetBalances b' = ab_AssetBalances b.
Proof.
  revert b. induction us as [|u us IH]; intros b; [done|]. cbn [foldl].
  destruct (IH (addUtxo u b)) as (-> & -> & ->). by destruct (addUtxo_fields u b) as (-> & _ & -> & ->).
Qed.

Section Kept.
Context {V : Vlq} {VL : VlqLaws V} {P : ChainParser} {IX : IndexOpts}.

(** Assets of valid outputs are stored as they are. *)
Lemma keptAsset_id ai : asset_value_ok ai -> keptAsset ai = ai.
Proof.
  unfold keptAsset. destruct ai as [ai|]; intros H.
  - destruct H as (-> & v & Hv & _). destruct ai as [g v']. cbn in *. by rewrite Hv.
  - by destruct supportsSyscoinAssets.
Qed.

Lemma keptUtxo_id u : asset_value_ok (u_AssetInfo u) -> keptUtxo u = u.
Proof. intros H. unfold keptUtxo. rewrite keptAsset_id by done. by destruct u. Qed.

Lemma keptRow_core ta : Forall output_value_ok (ta_Outputs ta) -> rowCore (keptTxAddresses ta) = rowCore ta.
Proof.
  intros H. unfold rowCore, keptTxAddresses. cbn [ta_Height ta_Outputs]. f_equal.
  induction H as [|o os [_ Ha] _ IH]; [done|]. cbn [map]. rewrite IH. f_equal.
  unfold outCore, keptOutput. cbn. by rewrite keptAsset_id.
Qed.

(** Rows that store the same are the same for the ledger. *)
Lemma eqRows_same tx tx' : values_ok tx -> values_ok tx' -> eqRows tx tx' -> same_rows tx tx'.
Proof.
  intros HV HV' H t. specialize (H t). specialize (HV t). specialize (HV' t). destruct (tx t) as [ta|], (tx' t) as [ta'|]; try done.
  apply (inj Some) in H. apply (f_equal Some). rewrite <- (keptRow_core ta), <- (keptRow_core ta') by auto. by rewrite H.
Qed.

Lemma live_live us : live (live us) = live us.
Proof. unfold live. apply list_filter_filter_l. done. Qed.

Lemma kept_live us : (forall u, u ∈ live us -> asset_value_ok (u_AssetInfo u)) -> map keptUtxo (live us) = live us.
Proof.
  intros H. rewrite <- (map_id (live us)) at 2. apply map_ext_in. intros u Hu.
  apply keptUtxo_id, H. by apply list_elem_of_In.
Qed.

(** A stored and reloaded balance agrees with the rows when the stored one did. *)
Lemma keptBalance_addr_ok tx a ab :
  values_ok tx -> addr_ok tx a ab -> addr_ok tx a (keptBalance addressBalanceDetailUTXOIndexed ab).
Proof.
  intros HV Hok.
  assert (forall u, u ∈ live (ab_Utxos ab) -> asset_value_ok (u_AssetInfo u)) as Hval.
  { intros u Hu. apply (aok_live _ _ _ Hok) in Hu. by eapply owned_value. }
  pose proof (keptBalance_Utxos ab) as HU. rewrite kept_live in HU by done.
  assert (live (ab_Utxos (keptBalance addressBalanceDetailUTXOIndexed ab)) = live (ab_Utxos ab)) as HL
    by (rewrite HU; apply live_live).
  destruct (addUtxos_fields (map keptUtxo (live (ab_Utxos ab)))
    (mkAddrBalance (ab_Txs ab) (ab_SentSat ab) (ab_BalanceSat ab) []
       (if supportsSyscoinAssets then ab_AssetBalances ab else ∅) ∅)) as (_ & FB & FA).
  constructor; rewrite ?HL.
  - apply (aok_live _ _ _ Hok).
  - apply (aok_nodup _ _ _ Hok).
  - cbn [keptBalance]. rewrite FB. apply (aok_sum _ _ _ Hok).
  - intros guid. cbn [keptBalance]. rewrite (assetBalanceOf_ext guid _ _ FA).
    unfold assetBalanceOf at 1. cbn [ab_AssetBalances].
    destruct supportsSyscoinAssets eqn:Es; [apply (aok_assets _ _ _ Hok)|].
    rewrite lookup_empty. cbn. clear -Hval Es. induction (live (ab_Utxos ab)) as [|u us IH]; [done|].
    cbn [sumZ]. rewrite <- IH by (intros; apply Hval; by right).
    specialize (Hval u ltac:(left)). destruct (u_AssetInfo u) as [ai|]; [|done].
    destruct Hval as [Hs _]. congruence.
  - cbn [keptBalance]. apply addUtxos_ok; [split; [done|by left]|]. cbn [ab_Utxos app].
    rewrite kept_live by done. apply grouped_live. apply (aok_utxos _ _ _ Hok).
  - intros id. rewrite HU. intros Hin. apply (aok_known _ _ _ Hok).
    unfold ids, live in *. apply list_elem_of_fmap in Hin as (u & -> & Hu).
    apply list_elem_of_filter in Hu as [_ Hu]. apply list_elem_of_fmap. eauto.
Qed.
End Kept.

(** ** The batch of a block *)

Lemma batch_get_Forall (Q : bytes -> Prop) cf k wb v :
  Forall (fun op => op_cf op = cf -> forall v, op_val op = Some v -> Q v) wb ->
  batch_get cf k wb = Some (Some v) -> Q v.
Proof.
  induction 1 as [|op wb Hop _ IH]; cbn; [done|].
  destruct (batch_get cf k wb) as [r|]; [intros [= ->]; by apply IH|].
  case_decide as Ed; [|done]. intros [= Hv]. by apply Hop; [apply Ed|].
Qed.

Section Batch.
Context {V : Vlq} {VL : VlqLaws V} {P : ChainParser} {IX : IndexOpts} {K : KV} {KL : KVLaws K}
  {W : AssetWire} {WL : AssetWireLaws W} {E : AssetEnv W} {G : Gcs} {FO : FilterOpts}.
Implicit Types (d : DB K) (st : ConnState W).

(** The database accepts writes, and the block's hash and assets can be encoded. *)
Record writes_ok d (block : Block) : Prop := {
  wr_fault : db_wfault d = false;
  wr_reads k : db_rfault d cfBlockTxs k = false;
  wr_len : 0 <= PackedTxidLen;
  wr_hash : exists b, PackBlockHash (blk_Hash block) = Ok b;
  wr_hex : exists b, hex_DecodeString (blk_Hash block) = Ok b;
  wr_assets : supportsSyscoinAssets = true ->
    hasAssetParser = true /\ forall o : AssetObj, exists b, ao_Serialize o = Ok b;
}.

Lemma txOutpoints_ok vins : Forall vin_ok vins -> exists os, txOutpoints vins = Ok os.
Proof.
  induction 1 as [|vin vins [Hp _] _ [os IH]]; [by eexists|]. cbn [txOutpoints].
  destruct Hp as [[b ->]| ->]; rewrite IH; cbn [rbind]; by eexists.
Qed.

Lemma blockTxsOf_ok txs :
  Forall inputs_ok txs -> Forall (fun tx => PackTxid (tx_Txid tx) = Ok (packedId tx)) txs ->
  exists bts, blockTxsOf txs = Ok bts.
Proof.
  induction txs as [|tx txs IH]; intros Hi Hp; [by eexists|].
  apply Forall_cons in Hi as [Hi1 Hi], Hp as [Hp1 Hp]. destruct (IH Hi Hp) as [bts Hb].
  destruct (txOutpoints_ok _ Hi1) as [os Ho]. cbn [blockTxsOf]. rewrite Ho, Hp1, Hb. cbn [rbind]. by eexists.
Qed.

(** Storing the assets of the block; what is stored can be read back. *)
Lemma storeAsset_ok guid (a : Asset W) cache :
  hasAssetParser = true -> (forall o : AssetObj, exists b, ao_Serialize o = Ok b) -> asset_row_ok a ->
  exists cache' op, storeAsset guid a cache = Ok (cache', op) /\ op_cf op = cfAssets /\
    forall v, op_val op = Some v -> UnpackAsset v <> Panic.
Proof.
  intros Hh Hs Hok. unfold storeAsset. rewrite Hh. cbn [negb].
  set (a' := if guid =? syscoinSYSXAssetGuid then builtinSYSXAsset (as_Transactions a) else a).
  assert (asset_row_ok a') as Hok'.
  { subst a'. destruct (guid =? syscoinSYSXAssetGuid); [|done]. split; [apply Hok|]. by vm_compute. }
  destruct (ao_TotalSupply (as_AssetObj a') =? -1); [by eexists _, _|].
  destruct (Hs (as_AssetObj a')) as [b Hb].
  assert (exists buf, PackAsset a' = Ok buf) as [buf Hbuf] by (unfold PackAsset; rewrite Hb; by eexists).
  rewrite Hbuf. cbn [rbind]. eexists _, _. split; [done|]. split; [done|]. intros v [= <-].
  by rewrite (UnpackAsset_Pack a' buf).
Qed.

Lemma storeAssets_ok order wb (ast : AssetState W) :
  hasAssetParser = true -> (forall o : AssetObj, exists b, ao_Serialize o = Ok b) ->
  is_Some (ast_assets ast) -> Forall (fun e => asset_row_ok e.2) order ->
  exists ops ast', storeAssets order wb ast = Ok (wb ++ ops, ast') /\ ast_txAssets ast' = ast_txAssets ast /\
    Forall (fun op => op_cf op = cfAssets /\ forall v, op_val op = Some v -> UnpackAsset v <> Panic) ops.
Proof.
  intros Hh Hs [m Hm] Hok. unfold storeAssets. rewrite Hm.
  assert (forall wb cache, exists ops cache', rfold (fun s e => let '(wb, cache) := s in
            let! '(cache, op) := storeAsset e.1 e.2 cache in Ok (wb ++ [op], cache)) order (wb, cache)
            = Ok (wb ++ ops, cache') /\
            Forall (fun op => op_cf op = cfAssets /\ forall v, op_val op = Some v -> UnpackAsset v <> Panic) ops) as Hloop.
  { induction Hok as [|e order He _ IH]; intros wb0 cache; [exists [], cache; by rewrite app_nil_r|].
    cbn [rfold]. destruct (storeAsset_ok e.1 e.2 cache Hh Hs He) as (c1 & op & -> & Hop). cbn [rbind].
    destruct (IH (wb0 ++ [op]) c1) as (ops & c2 & -> & Hops). exists (op :: ops), c2.
    rewrite <- app_assoc. split; [done|]. by constructor. }
  destruct (Hloop wb (default ∅ (ast_cache ast))) as (ops & c & -> & Hops). cbn [rbind].
  eexists ops, _. split; [done|]. done.
Qed.

(** The maps of the block fit the encodings. *)
Record state_fits d st : Prop := {
  sf_txs : map_Forall (fun _ ta => txAddresses_ok ta) (cs_txAddresses st);
  sf_bals : map_Forall (fun _ ab => balance_ok ab) (cs_balances st);
  sf_count : map_Forall (fun a l => ab_Txs (dbBal d a) + zlen l < 2 ^ 32) (cs_addresses st);
  sf_assets : map_Forall (fun _ a => asset_row_ok a) (default ∅ (ast_assets (cs_assets st)));
}.

#[export] Instance state_fits_dec d st : Decision (state_fits d st).
Proof.
  destruct (decide (
    map_Forall (fun _ ta => txAddresses_ok ta) (cs_txAddresses st) /\
    map_Forall (fun _ ab => balance_ok ab) (cs_balances st) /\
    map_Forall (fun a l => ab_Txs (dbBal d a) + zlen l < 2 ^ 32) (cs_addresses st) /\
    map_Forall (fun _ a => asset_row_ok a) (default ∅ (ast_assets (cs_assets st))))) as [(? & ? & ? & ?)|Hn].
  - by left.
  - right. intros []. by apply Hn.
Defined.

Definition blockInfoOf (block : Block) : BlockInfo :=
  mkBlockInfo (blk_Hash block) (blk_Time block) (u32 (zlen (blk_Txs block))) (u32 (blk_Size block)) (blk_Height block).

(** The operations of the batch on the columns of the ledger. *)
Record block_batch d (block : Block) st (wb : list BatchOp) : Prop := {
  bb_tx t : batch_get cfTxAddresses t wb = (fun ta => Some (packTxAddresses ta)) <$> cs_txAddresses st !! t;
  bb_bal a : batch_get cfAddressBalance a wb = (fun ab => op_val (storeBalance a (Some ab))) <$> cs_balances st !! a;
  bb_addr a : batch_get cfAddresses (packAddressKey a (blk_Height block)) wb =
              (fun l => Some (packTxIndexes l)) <$> cs_addresses st !! a;
  bb_assets k v : batch_get cfAssets k wb = Some (Some v) -> UnpackAsset v <> Panic;
  bb_height : exists val, packBlockInfo (blockInfoOf block) = Ok val /\
              batch_get cfHeight (packUint (blk_Height block)) wb = Some (Some val);
}.

Lemma storeTxAssets_ok wb (ast : AssetState W) :
  hasAssetParser = true -> exists wb', storeTxAssets wb ast = Ok wb' /\ extends [cfTxAssets] wb wb'.
Proof.
  intros Hh. unfold storeTxAssets. rewrite Hh. cbn [negb].
  case_bool_decide; (eexists; split; [done|]); [apply extends_refl|].
  apply extends_app, List.Forall_map, Forall_true. intros e. left.
Qed.

(** The asset part of the batch. *)
Lemma assets_batch_ok d block st wb :
  writes_ok d block -> assets_ready st -> state_fits d st ->
  exists ops ast', (if supportsSyscoinAssets then
       let! '(wb, ast) := storeAssets (map_to_list (default ∅ (ast_assets (cs_assets st)))) wb (cs_assets st) in
       let! wb := storeTxAssets wb ast in
       Ok (wb, ast)
     else Ok (wb, cs_assets st)) = Ok (wb ++ ops, ast') /\
    Forall (fun op => op_cf op ∈ [cfAssets; cfTxAssets]) ops /\
    Forall (fun op => op_cf op = cfAssets -> forall v, op_val op = Some v -> UnpackAsset v <> Panic) ops.
Proof.
  intros Hw Hr Hf. destruct supportsSyscoinAssets eqn:Es;
    [|exists [], (cs_assets st); by rewrite app_nil_r].
  destruct (wr_assets _ _ Hw Es) as [Hh Hser]. destruct (Hr Es) as [Ha Ht].
  destruct (storeAssets_ok (map_to_list (default ∅ (ast_assets (cs_assets st)))) wb (cs_assets st) Hh Hser Ha)
    as (ops & ast' & -> & _ & Hops).
  { apply Forall_forall. intros [g a] Hin%elem_of_map_to_list. by apply (sf_assets _ _ Hf) in Hin. }
  cbn [rbind]. destruct (storeTxAssets_ok (wb ++ ops) ast' Hh) as (wb' & -> & (ops2 & -> & Hops2)). cbn [rbind].
  exists (ops ++ ops2), ast'. rewrite app_assoc. split; [done|]. split; apply Forall_app_2.
  - eapply Forall_impl; [exact Hops|]. intros op [H _]. rewrite H. left.
  - eapply Forall_impl; [exact Hops2|]. intros op H%list_elem_of_singleton. rewrite H. right. left.
  - eapply Forall_impl; [exact Hops|]. by intros op [_ ?].
  - eapply Forall_impl; [exact Hops2|]. intros op H%list_elem_of_singleton. by rewrite H.
Qed.

Lemma writeHeight_ok d block :
  writes_ok d block -> exists val, packBlockInfo (blockInfoOf block) = Ok val /\
    writeHeightFromBlock [] block opInsert = Ok ([PutCF cfHeight (packUint (blk_Height block)) val], blk_Height block).
Proof.
  intros Hw. destruct (wr_hash _ _ Hw) as [b Hb].
  pose proof (packBlockInfo_form (blockInfoOf block) b (wr_len _ _ Hw) Hb) as Hp.
  eexists. split; [exact Hp|]. unfold writeHeightFromBlock, writeHeight. unfold blockInfoOf in Hp. rewrite Hp. done.
Qed.

Lemma blockFilter_ok d block (ogf : option GolombFilter) wb :
  writes_ok d block ->
  exists wb', match ogf with
    | None => Ok wb
    | Some gf => storeBlockFilter wb (blk_Hash block) (Compute (map_to_list (gf_allAddressDescriptors gf)) gf).2
    end = Ok wb' /\ extends [cfBlockFilter] wb wb'.
Proof.
  intros Hw. destruct ogf as [gf|]; [|exists wb; split; [done|apply extends_refl]].
  unfold storeBlockFilter. destruct (wr_hex _ _ Hw) as [b ->]. cbn [rbind].
  eexists. split; [done|]. apply extends_app. repeat constructor.
Qed.

(** The batch is assembled and written. *)
Lemma ConnectBlock_batch d cache block st :
  valid_block d block -> writes_ok d block ->
  processAddressesBitcoinType d block (initState cache (blockGolombFilter block)) = Ok st ->
  assets_ready st -> state_fits d st ->
  exists wb d' cache', ConnectBlock d cache block = Ok (d', cache', blk_Height block) /\
    WriteBatch wb d = Ok d' /\ block_batch d block st wb.
Proof.
  intros Hv Hw Hp Hr Hf. unfold ConnectBlock.
  destruct (writeHeight_ok d block Hw) as (val & Hval & ->). cbn [rbind].
  rewrite Hp. cbn [rbind]. set (wb0 := [PutCF _ _ val]).
  pose proof (extends_storeTxAddresses wb0 (cs_txAddresses st)) as E1.
  pose proof (batch_get_storeTxAddresses wb0 (cs_txAddresses st)) as B1.
  set (wb1 := storeTxAddresses wb0 (cs_txAddresses st)) in *.
  pose proof (extends_storeBalances wb1 (Some <$> cs_balances st)) as E2.
  pose proof (batch_get_storeBalances wb1 (Some <$> cs_balances st)) as B2.
  set (wb2 := storeBalances wb1 (Some <$> cs_balances st)) in *.
  destruct (blockTxsOf_ok (blk_Txs block) (vb_inputs _ _ Hv) (vb_txids _ _ Hv)) as [bts Hbts].
  destruct (storeAndCleanupBlockTxs_ok d wb2 block bts (wr_reads _ _ Hw) Hbts) as (wb3 & -> & E3). cbn [rbind].
  destruct (assets_batch_ok d block st wb3 Hw Hr Hf) as (ops & ast' & Has & Hops & Hval4).
  rewrite Has. cbn [rbind]. clear Has.
  assert (extends [cfAssets; cfTxAssets] wb3 (wb3 ++ ops)) as E4 by by apply extends_app.
  destruct (blockFilter_ok d block (cs_gf st) (wb3 ++ ops) Hw) as (wb5 & -> & E5). cbn [rbind].
  pose proof (extends_storeAddresses wb5 (blk_Height block) (cs_addresses st)) as E6.
  pose proof (batch_get_storeAddresses wb5 (blk_Height block) (cs_addresses st)) as B6.
  set (wb6 := storeAddresses wb5 (blk_Height block) (cs_addresses st)) in *.
  unfold WriteBatch at 1. rewrite (wr_fault _ _ Hw). cbn [rbind].
  exists wb6. eexists _, _. split; [reflexivity|]. split; [unfold WriteBatch; by rewrite (wr_fault _ _ Hw)|].
  constructor.
  - intros t. skip_cf E6. skip_cf E5. skip_cf E4. skip_cf E3. skip_cf E2. rewrite B1.
    by destruct (cs_txAddresses st !! t).
  - intros a. skip_cf E6. skip_cf E5. skip_cf E4. skip_cf E3. rewrite B2, lookup_fmap.
    destruct (cs_balances st !! a); [done|]. cbn [fmap option_fmap option_map]. by skip_cf E1.
  - intros a. rewrite B6. destruct (cs_addresses st !! a); [done|].
    skip_cf E5. skip_cf E4. skip_cf E3. skip_cf E2. by skip_cf E1.
  - intros k v. skip_cf E6. skip_cf E5. rewrite batch_get_app. skip_cf E3. skip_cf E2. skip_cf E1.
    destruct (batch_get cfAssets k ops) as [r|] eqn:Er; [|done]. intros [= ->].
    by apply (batch_get_Forall (fun v => UnpackAsset v <> Panic) cfAssets k ops).
  - exists val. split; [done|]. skip_cf E6. skip_cf E5. skip_cf E4. skip_cf E3. skip_cf E2. skip_cf E1.
    cbn [wb0 batch_get op_cf op_key op_val]. by rewrite decide_True.
Qed.
End Batch.

(** ** Reading the rows back *)

Section ReadBack.
Context {V : Vlq} {VL : VlqLaws V} {P : ChainParser} {IX : IndexOpts} {K : KV} {KL : KVLaws K}
  {W : AssetWire} {WL : AssetWireLaws W} {E : AssetEnv W} {G : Gcs} {FO : FilterOpts}.
Implicit Types (d : DB K) (st : ConnState W).

Lemma zlen_packTxAddresses ta : txAddresses_ok ta -> 3 <= zlen (packTxAddresses ta).
Proof.
  intros (Hh & Hv & Hvs & Hm & Hi & Ho & _). rewrite packTxAddresses_pieces, !zlen_app.
  pose proof (zlen_packVaruint (ta_Height ta) ltac:(unfold is_u32, is_u64 in *; lia)).
  pose proof (zlen_packVaruint (zlen (ta_Inputs ta)) ltac:(unfold is_u64; pose proof (zlen_nonneg (ta_Inputs ta)); lia)).
  pose proof (zlen_packVaruint (zlen (ta_Outputs ta)) ltac:(unfold is_u64; pose proof (zlen_nonneg (ta_Outputs ta)); lia)).
  repeat match goal with |- context [zlen ?l] =>
    lazymatch goal with _ : 0 <= zlen l |- _ => fail | _ : _ <= zlen l <= _ |- _ => fail | _ => pose proof (zlen_nonneg l) end end.
  lia.
Qed.

Lemma zlen_packAddrBalance order ab : balance_ok ab -> 3 <= zlen (packAddrBalance order ab).
Proof.
  intros (Ht & _). rewrite packAddrBalance_pieces, !zlen_app.
  pose proof (zlen_packVaruint (ab_Txs ab) ltac:(unfold is_u32, is_u64 in *; lia)).
  pose proof (zlen_packBigint (ab_SentSat ab)). pose proof (zlen_packBigint (ab_BalanceSat ab)).
  repeat match goal with |- context [zlen ?l] =>
    lazymatch goal with _ : 0 <= zlen l |- _ => fail | _ : _ <= zlen l <= _ |- _ => fail | _ => pose proof (zlen_nonneg l) end end.
  lia.
Qed.

Lemma unpackUtxos_Txs fuel buf tl detail l ab ab' :
  unpackUtxos fuel buf tl detail l ab = Ok ab' -> ab_Txs ab' = ab_Txs ab.
Proof.
  revert l ab. induction fuel as [|f IH]; intros l ab H; [done|]. cbn [unpackUtxos] in H.
  apply rbind_Ok in H as (b & _ & H). case_match; [by injection H as <-|].
  apply rbind_Ok in H as ([u l'] & _ & H). apply IH in H. rewrite H.
  destruct detail; [|done|]; by destruct (addUtxo_fields u ab) as (-> & _).
Qed.

Lemma dbBal_u32 d a : is_u32 (ab_Txs (dbBal d a)).
Proof.
  unfold dbBal. destruct (GetAddrDescBalance d a addressBalanceDetailUTXOIndexed) as [[b|]| |] eqn:Eb; try done.
  unfold GetAddrDescBalance in Eb. apply rbind_Ok in Eb as (val & _ & Eb).
  case_match; [done|]. apply rbind_Ok in Eb as (ab & Eu & [= <-]).
  unfold unpackAddrBalance in Eu. destruct (unpackVaruint (valData val)) as [txs l].
  apply rbind_Ok in Eu as (? & _ & Eu). apply rbind_Ok in Eu as ([? ?] & _ & Eu).
  apply rbind_Ok in Eu as (? & _ & Eu). apply rbind_Ok in Eu as ([? ?] & _ & Eu).
  apply rbind_Ok in Eu as ([? ?] & _ & Eu).
  apply unpackUtxos_Txs in Eu. rewrite Eu. apply u32_range.
Qed.

(** A row of a transaction after a batch that stores the transactions of a map. *)
Lemma getTxAddresses_batch d d' (wb : list BatchOp) (txm : gmap bytes TxAddresses) t :
  reads_ok d -> WriteBatch wb d = Ok d' ->
  batch_get cfTxAddresses t wb = (fun ta => Some (packTxAddresses ta)) <$> txm !! t ->
  map_Forall (fun _ ta => txAddresses_ok ta) txm ->
  getTxAddresses d' t = match txm !! t with
                        | Some ta => Ok (Some (keptTxAddresses ta))
                        | None => getTxAddresses d t
                        end.
Proof.
  intros Hd Hw Hb Hf.
  assert (db_rfault d cfTxAddresses t = false) as Hr.
  { destruct (reads_tx d Hd t) as [o Ho]. unfold getTxAddresses, GetCF in Ho. by destruct (db_rfault d cfTxAddresses t). }
  unfold getTxAddresses. rewrite (GetCF_WriteBatch wb d d' _ _ Hw Hr). cbn [rbind].
  rewrite Hb. destruct (txm !! t) as [ta|] eqn:Et; cbn [fmap option_fmap option_map].
  - pose proof (Hf _ _ Et) as Hok. cbn [valData].
    pose proof (zlen_packTxAddresses ta Hok). destruct (Z.ltb_spec (zlen (packTxAddresses ta)) 3); [lia|].
    by rewrite unpackTxAddresses_pack.
  - unfold GetCF. by rewrite Hr.
Qed.

Lemma getTxAddresses_after d d' block st wb t :
  reads_ok d -> WriteBatch wb d = Ok d' -> block_batch d block st wb -> state_fits d st ->
  getTxAddresses d' t = match cs_txAddresses st !! t with
                        | Some ta => Ok (Some (keptTxAddresses ta))
                        | None => getTxAddresses d t
                        end.
Proof. intros Hd Hw Hb Hf. eapply getTxAddresses_batch; [done|done|apply Hb|apply Hf]. Qed.

(** A balance after a batch that stores the balances of a map. *)
Lemma GetAddrDescBalance_batch d d' (wb : list BatchOp) (bals : gmap bytes AddrBalance) a :
  reads_ok d -> 0 <= PackedTxidLen -> WriteBatch wb d = Ok d' ->
  batch_get cfAddressBalance a wb = (fun ab => op_val (storeBalance a (Some ab))) <$> bals !! a ->
  (forall ab, bals !! a = Some ab -> balance_ok ab /\ 0 < ab_Txs ab) ->
  GetAddrDescBalance d' a addressBalanceDetailUTXOIndexed =
  match bals !! a with
  | Some ab => Ok (Some (keptBalance addressBalanceDetailUTXOIndexed ab))
  | None => GetAddrDescBalance d a addressBalanceDetailUTXOIndexed
  end.
Proof.
  intros Hd HP Hw Hb Hf.
  assert (db_rfault d cfAddressBalance a = false) as Hr.
  { destruct (reads_bal d Hd a) as [o Ho]. unfold GetAddrDescBalance, GetCF in Ho. by destruct (db_rfault d cfAddressBalance a). }
  unfold GetAddrDescBalance. rewrite (GetCF_WriteBatch wb d d' _ _ Hw Hr). cbn [rbind].
  rewrite Hb. destruct (bals !! a) as [ab|] eqn:Ea; cbn [fmap option_fmap option_map].
  - destruct (Hf ab eq_refl) as [Hok Hpos].
    unfold storeBalance. destruct (Z.leb_spec (ab_Txs ab) 0); [lia|]. cbn [op_val valData].
    pose proof (zlen_packAddrBalance (map_to_list (ab_AssetBalances ab)) ab Hok) as Hz.
    rewrite (proj2 (Z.ltb_ge _ _) Hz). by rewrite unpackAddrBalance_pack.
  - unfold GetCF. by rewrite Hr.
Qed.

Lemma GetAddrDescBalance_after d d' block st wb a :
  reads_ok d -> 0 <= PackedTxidLen -> WriteBatch wb d = Ok d' -> block_batch d block st wb -> state_fits d st ->
  counted_ok d (fun a => ab_Txs (dbBal d a)) st ->
  GetAddrDescBalance d' a addressBalanceDetailUTXOIndexed =
  match cs_balances st !! a with
  | Some ab => Ok (Some (keptBalance addressBalanceDetailUTXOIndexed ab))
  | None => GetAddrDescBalance d a addressBalanceDetailUTXOIndexed
  end.
Proof.
  intros Hd HP Hw Hb Hf Hc. eapply GetAddrDescBalance_batch; [done|done|done|apply Hb|].
  intros ab Ea. split; [by apply (sf_bals _ _ Hf _ _ Ea)|]. specialize (Hc a). rewrite Ea in Hc.
  destruct (cs_addresses st !! a) as [l|] eqn:El; [|done]. destruct Hc as (Hne & _ & Ht).
  pose proof (sf_count _ _ Hf _ _ El) as Hlt. cbv beta in Hlt. pose proof (dbBal_u32 d a) as Hu. unfold is_u32 in Hu.
  assert (0 < zlen l) by (destruct l; [done|]; unfold zlen; cbn; lia).
  rewrite Ht, u32_id by (unfold is_u32; lia). lia.
Qed.

(** Spent outputs are not stored. *)
Definition stored_live d : Prop := forall a, Forall (fun u => 0 <= u_Vout u) (ab_Utxos (dbBal d a)).

(** The index is consistent: its rows can be read, and they form a ledger. *)
Definition index_ok d : Prop := reads_ok d /\ ledger_ok (dbTx d) (dbBal d) /\ stored_live d.

Lemma kept_stored_live ab :
  Forall (fun u => 0 <= u_Vout u) (ab_Utxos (keptBalance addressBalanceDetailUTXOIndexed ab)).
Proof.
  rewrite keptBalance_Utxos. apply List.Forall_map, List.Forall_forall. intros u Hu%list_elem_of_In.
  by apply list_elem_of_filter in Hu as [? _].
Qed.

Lemma assets_readable_after d d' wb :
  assets_readable d -> WriteBatch wb d = Ok d' ->
  (forall k v, batch_get cfAssets k wb = Some (Some v) -> UnpackAsset v <> Panic) -> assets_readable d'.
Proof.
  intros Hd Hw Hb guid buf H. unfold GetCF in H.
  destruct (db_rfault d' cfAssets (packAssetGuid guid)) eqn:Er; [done|]. injection H as H.
  assert (db_rfault d cfAssets (packAssetGuid guid) = false) as Er'.
  { unfold WriteBatch in Hw. destruct (db_wfault d); [done|]. by injection Hw as <-. }
  assert (GetCF d' cfAssets (packAssetGuid guid) = Ok (Some buf)) as HG by (unfold GetCF; by rewrite Er, H).
  rewrite (GetCF_WriteBatch wb d d' _ _ Hw Er') in HG. injection HG as HG.
  destruct (batch_get cfAssets (packAssetGuid guid) wb) as [r|] eqn:Eb.
  - subst r. by eapply Hb.
  - apply (Hd guid). unfold GetCF. by rewrite Er', HG.
Qed.

Lemma index_ok_after d d' block st wb :
  reads_ok d -> 0 <= PackedTxidLen -> WriteBatch wb d = Ok d' -> block_batch d block st wb -> state_fits d st ->
  counted_ok d (fun a => ab_Txs (dbBal d a)) st -> ledger_ok (txView d st) (balView d st) -> stored_live d ->
  index_ok d'.
Proof.
  intros Hd HP Hw Hb Hf Hc [HL HV] Hlive.
  assert (forall t, getTxAddresses d' t = match cs_txAddresses st !! t with
            | Some ta => Ok (Some (keptTxAddresses ta)) | None => getTxAddresses d t end) as Htx
    by (intros t; by eapply getTxAddresses_after).
  assert (forall a, GetAddrDescBalance d' a addressBalanceDetailUTXOIndexed = match cs_balances st !! a with
            | Some ab => Ok (Some (keptBalance addressBalanceDetailUTXOIndexed ab))
            | None => GetAddrDescBalance d a addressBalanceDetailUTXOIndexed end) as Hbal
    by (intros a; by eapply GetAddrDescBalance_after).
  split; [constructor|split].
  - intros t. rewrite Htx. destruct (cs_txAddresses st !! t); [by eexists|]. apply (reads_tx d Hd).
  - intros a. rewrite Hbal. destruct (cs_balances st !! a); [by eexists|]. apply (reads_bal d Hd).
  - eapply assets_readable_after; [apply Hd|done|]. apply Hb.
  - apply (ledger_same_rows (txView d st)).
    + intros t. unfold dbTx at 1. rewrite Htx. unfold txView at 1.
      destruct (cs_txAddresses st !! t) as [ta|] eqn:Et; [|done]. cbn. f_equal. symmetry. apply keptRow_core.
      apply (HV t). unfold txView. by rewrite Et.
    + constructor; [|done]. intros a Ha Hia. specialize (HL a Ha Hia). unfold dbBal. rewrite Hbal.
      unfold balView in HL. destruct (cs_balances st !! a) as [ab|]; [|exact HL].
      by apply keptBalance_addr_ok.
  - intros a. unfold dbBal. rewrite Hbal. destruct (cs_balances st !! a) as [ab|]; [apply kept_stored_live|apply Hlive].
Qed.

Lemma ConnectBlock_index_ok d cache block :
  index_ok d -> valid_block d block -> writes_ok d block ->
  (forall st, processAddressesBitcoinType d block (initState cache (blockGolombFilter block)) = Ok st -> state_fits d st) ->
  exists d' cache' st, ConnectBlock d cache block = Ok (d', cache', blk_Height block) /\ index_ok d' /\
    processAddressesBitcoinType d block (initState cache (blockGolombFilter block)) = Ok st /\
    exists wb, WriteBatch wb d = Ok d' /\ block_batch d block st wb.
Proof.
  intros (Hd & HL & Hlive) Hv Hw Hf.
  destruct (process_ledger d cache (blockGolombFilter block) block Hd Hv HL) as (st & Hst & HL' & Hr).
  specialize (Hf st Hst).
  destruct (ConnectBlock_batch d cache block st Hv Hw Hst Hr Hf) as (wb & d' & cache' & Hc & Hwb & Hb).
  exists d', cache', st. split; [done|]. split; [|by eauto].
  eapply (index_ok_after d d' block st wb); try done; [apply Hw|].
  eapply process_counted; [|exact Hst]. apply counted_init, dbBal_u32.
Qed.
End ReadBack.
