(* ===== verification/Chain.v ===== *)
(** Chains of blocks: the databases that connecting blocks can produce, starting from an
    empty one, and the theorems about them. *)

From S2P Require Import Prelude Codec Parser Golomb TxAddr Balance IndexCodec Store Scan Assets Connect Ledger ConnectCorrect ConnectIndex BlockRows ConnectStore.

Local Open Scope Z_scope.

Section Chain.
Context {V : Vlq} {VL : VlqLaws V} {P : ChainParser} {IX : IndexOpts} {K : KV} {KL : KVLaws K}
  {W : AssetWire} {WL : AssetWireLaws W} {E : AssetEnv W} {G : Gcs} {FO : FilterOpts}.
Implicit Types (d : DB K).

(** A new database. *)
Definition empty_db d : Prop :=
  (forall cf k, kv_get (db_cf d cf) k = None) /\ (forall cf k, db_rfault d cf k = false).

(** The block can be connected to the database. *)
Record connectable d (cache : option (gmap Z (Asset W))) (block : Block) : Prop := {
  cn_valid : valid_block d block;
  cn_writes : writes_ok d block;
  cn_fits st : processAddressesBitcoinType d block (initState cache (blockGolombFilter block)) = Ok st ->
               state_fits d st;
}.

(** Databases reached by connecting blocks. *)
Inductive synced : DB K -> Prop :=
| synced_empty d : empty_db d -> synced d
| synced_connect d cache block d' cache' h :
    synced d -> connectable d cache block -> ConnectBlock d cache block = Ok (d', cache', h) -> synced d'.

Lemma empty_index_ok d : empty_db d -> index_ok d.
Proof.
  intros [Hn Hr].
  assert (forall t, getTxAddresses d t = Ok None) as Htx
    by (intros t; unfold getTxAddresses, GetCF; by rewrite Hr, Hn).
  assert (forall a, GetAddrDescBalance d a addressBalanceDetailUTXOIndexed = Ok None) as Hbal
    by (intros a; unfold GetAddrDescBalance, GetCF; by rewrite Hr, Hn).
  split; [constructor|split; [constructor|]].
  - intros t. rewrite Htx. by eexists.
  - intros a. rewrite Hbal. by eexists.
  - intros guid buf. unfold GetCF. by rewrite Hr, Hn.
  - intros a Ha Hia. unfold dbBal. rewrite Hbal.
    assert (forall u, ~ owns (dbTx d) a u) as Hno.
    { intros u (t & ta & i & o & H & _). unfold dbTx in H. by rewrite Htx in H. }
    constructor; cbn.
    + intros u. rewrite elem_of_nil. split; [done|]. apply Hno.
    + apply NoDup_nil_2.
    + done.
    + intros guid. unfold assetBalanceOf. cbn. by rewrite lookup_empty.
    + split; [done|by left].
    + intros id. by rewrite elem_of_nil.
  - intros t ta H. unfold dbTx in H. by rewrite Htx in H.
  - intros a. unfold dbBal. by rewrite Hbal.
Qed.

Lemma synced_index_ok d : synced d -> index_ok d.
Proof.
  induction 1 as [d Hd|d cache block d' cache' h _ IH [Hv Hw Hf] Hc]; [by apply empty_index_ok|].
  destruct (ConnectBlock_index_ok d cache block IH Hv Hw Hf) as (d1 & c1 & st & H1 & H2 & _).
  rewrite H1 in Hc. by injection Hc as <- _ _.
Qed.

(** ** Properties *)

(** C1: connecting a block keeps the ledger. Processing and storing a block that fits the
    index succeeds, and afterwards the rows of the database again form a ledger: for every
    indexed address, the unspent outputs listed in its balance are exactly the outputs of the
    transaction rows that pay it and are not marked as spent, each once and with its height,
    amount and asset; its balance, and its balance of every asset, are their sums; and the
    index over the outputs is sound. *)
Theorem connect_keeps_ledger d cache block :
  index_ok d -> connectable d cache block ->
  exists d' cache', ConnectBlock d cache block = Ok (d', cache', blk_Height block) /\ index_ok d'.
Proof.
  intros Hd [Hv Hw Hf].
  destruct (ConnectBlock_index_ok d cache block Hd Hv Hw Hf) as (d' & c' & st & H1 & H2 & _). eauto.
Qed.

(** C8: every database built by connecting blocks is a ledger. From an empty database on, after
    any sequence of blocks that fit the index, the balance of every indexed address is the sum
    of the outputs that pay it and are not marked as spent in the transaction rows, and lists
    exactly these outputs. *)
Theorem synced_balance d a :
  synced d -> a <> [] -> IsAddrDescIndexable a = true ->
  exists ab, GetAddrDescBalance d a addressBalanceDetailUTXOIndexed = Ok ab /\
    let b := default emptyBalance ab in
    ab_BalanceSat b = sumZ u_ValueSat (live (ab_Utxos b)) /\ NoDup (live (ab_Utxos b)) /\
    forall u, u ∈ live (ab_Utxos b) <-> owns (dbTx d) a u.
Proof.
  intros Hs Ha Hia. destruct (synced_index_ok d Hs) as (Hd & [HL _] & _).
  destruct (reads_bal d Hd a) as [ab Hab]. exists ab. split; [done|].
  specialize (HL a Ha Hia). unfold dbBal in HL. rewrite Hab in HL.
  destruct ab as [b|]; cbn [default from_option id]; (split; [apply (aok_sum _ _ _ HL)|]);
    (split; [apply (aok_nodup _ _ _ HL)|apply (aok_live _ _ _ HL)]).
Qed.

(** The index entries of a block for an address: distinct transactions, at least one. *)
Definition block_entries (m : gmap bytes (list txIndexes)) (a : bytes) (l : list txIndexes) : Prop :=
  m !! a = Some l /\ l <> [] /\ NoDup (listed l).

(** Transactions are counted once per address. After the maps of a block are built, every
    touched address is listed in the index with a non-empty list of distinct transactions,
    and its transaction counter is the stored one plus the length of the list (modulo 2^32). *)
Theorem connect_counts_txs d cache gf block st a ab :
  processAddressesBitcoinType d block (initState cache gf) = Ok st -> cs_balances st !! a = Some ab ->
  exists l, block_entries (cs_addresses st) a l /\ ab_Txs ab = u32 (ab_Txs (dbBal d a) + zlen l).
Proof.
  intros Hp Ha.
  assert (counted_ok d (fun a => ab_Txs (dbBal d a)) st) as Hc.
  { eapply process_counted; [|exact Hp]. apply counted_init, dbBal_u32. }
  specialize (Hc a). rewrite Ha in Hc. unfold block_entries. destruct (cs_addresses st !! a) as [l|]; [|done].
  destruct Hc as (? & ? & ?). by exists l.
Qed.

(** C9: what a block stores can be read back. After the block is connected, the row of every
    transaction in its maps is the processed one (without what the configuration does not
    store), the address index returns for every touched address exactly the list built for
    the block, and the row of the height gives the block's hash, time, size and number of
    transactions. *)
Theorem connect_rows_read_back d cache block :
  index_ok d -> connectable d cache block ->
  exists d' cache' st, ConnectBlock d cache block = Ok (d', cache', blk_Height block) /\
    processAddressesBitcoinType d block (initState cache (blockGolombFilter block)) = Ok st /\
    (forall t ta, cs_txAddresses st !! t = Some ta -> getTxAddresses d' t = Ok (Some (keptTxAddresses ta))) /\
    (forall a l, cs_addresses st !! a = Some l -> Forall txIndexes_ok l ->
       db_rfault d cfAddresses (packAddressKey a (blk_Height block)) = false ->
       getTxIndexesForAddressAndBlock d' a (blk_Height block) = Ok l) /\
    (forall b h, PackBlockHash (blk_Hash block) = Ok b -> UnpackBlockHash (hashBytes b) = Ok h ->
       db_rfault d cfHeight (packUint (blk_Height block)) = false ->
       GetBlockInfo d' (blk_Height block) =
         Ok (Some (mkBlockInfo h (u32 (blk_Time block)) (u32 (zlen (blk_Txs block))) (u32 (blk_Size block))
                     (blk_Height block)))).
Proof.
  intros Hix [Hv Hw Hf]. pose proof Hix as (Hd & HL & _).
  destruct (ConnectBlock_index_ok d cache block Hix Hv Hw Hf) as (d' & c' & st & H1 & _ & H3 & wb & Hwb & Hb).
  exists d', c', st. split; [done|]. split; [done|]. split; [|split].
  - intros t ta Ht. rewrite (getTxAddresses_after d d' block st wb t); [|done..|by apply Hf]. by rewrite Ht.
  - intros a l Ha Hok Hr. unfold getTxIndexesForAddressAndBlock. rewrite (GetCF_WriteBatch wb d d' _ _ Hwb Hr).
    cbn [rbind]. rewrite (bb_addr _ _ _ _ Hb), Ha. cbn [fmap option_fmap option_map].
    apply unpackTxIndexes_pack; [apply Hw|done].
  - intros b h Hpb Hub Hr. destruct (bb_height _ _ _ _ Hb) as (val & Hval & Hget).
    unfold GetBlockInfo. rewrite (GetCF_WriteBatch wb d d' _ _ Hwb Hr). cbn [rbind]. rewrite Hget. cbn [valData].
    rewrite (unpackBlockInfo_pack (blockInfoOf block) b h val); try done; [apply Hw|apply u32_range..].
Qed.
End Chain.

(** ** An example chain *)

Module ChainExample.

#[local] Existing Instance RefVlq.vlq.
#[local] Existing Instance RefVlq.vlq_laws.
#[local] Existing Instance MapKV.map_kv.
#[local] Existing Instance MapKV.map_kv_laws.
#[local] Existing Instance RefWire.wire.
#[local] Existing Instance RefWire.wire_laws.
#[local] Existing Instance RefWire.env.
#[local] Existing Instance GolombExample.gcs.
#[local] Instance opts : IndexOpts := { extendedIndex := false }.
#[local] Instance filter_opts : FilterOpts :=
  { BlockGolombFilterP := 20; BlockFilterScripts := ""%string; BlockFilterUseZeroedKey := true }.
(** The script is its own descriptor. *)
#[local] Instance parser : ChainParser :=
  base_parser (fun o => if bool_decide (vout_ScriptHex o = []) then Err ErrAddressMissing else Ok (vout_ScriptHex o))
    (fun _ => true) 100 true.

Definition db0 : DB MapKV.map_kv := mkDB MapKV.map_kv (fun _ => ∅) (fun _ _ => false) false.

Definition addrA : bytes := [x76; xa9; x0a].
Definition addrB : bytes := [x76; xa9; x0b].
Definition txid1 : bytes := replicate 64 x61.
Definition txid2 : bytes := replicate 64 x62.

(** A coinbase with an output without address, and a transaction of the same block that
    spends its first output and allocates an asset. *)
Definition tx1 : Tx :=
  mkTx [] txid1 1 0 100 [mkVin [x01] [] 0 []]
    [mkVout 5000 0 addrA None; mkVout 0 1 [] None; mkVout 300 2 addrB None] [].
Definition tx2 : Tx :=
  mkTx [] txid2 139 0 100 [mkVin [] txid1 0 []]
    [mkVout 4000 0 addrB (Some (mkAssetInfo 123456 (Some 70))); mkVout 900 1 addrA None] [].
Definition block1 : Block := mkBlock (replicate 64 x63) [] [] 1 500 1600000000 [tx1; tx2].

Lemma empty0 : empty_db db0.
Proof. split; [intros cf k; exact (lookup_empty (M := gmap bytes) k)|done]. Qed.

Lemma valid1 : valid_block db0 block1.
Proof.
  constructor.
  - repeat constructor; cbn; try discriminate; try done; exists 70; done.
  - repeat constructor.
  - apply (bool_decide_unpack _). vm_compute. exact I.
  - repeat constructor.
  - assert (vin_ok (mkVin [x01] [] 0 [])) by (split; [by right|cbn; lia]).
    assert (vin_ok (mkVin [] txid1 0 [])) by (split; [left; eexists; vm_compute; reflexivity|cbn; lia]).
    do 2 (apply Forall_cons_2; [by apply Forall_cons_2; [|apply Forall_nil_2]|]). apply Forall_nil_2.
  - apply (bool_decide_unpack _). vm_compute. exact I.
  - repeat constructor. intros ta o H. vm_compute in H. discriminate.
Qed.

Lemma writes1 : writes_ok db0 block1.
Proof.
  constructor; try done; try (eexists; vm_compute; reflexivity).
  intros _. split; [done|]. intros o. by eexists.
Qed.

Lemma fits1 st :
  processAddressesBitcoinType db0 block1 (initState None (blockGolombFilter block1)) = Ok st -> state_fits db0 st.
Proof.
  enough (match processAddressesBitcoinType db0 block1 (initState None (blockGolombFilter block1)) with
          | Ok st => bool_decide (state_fits db0 st) | _ => false end = true) as H.
  { intros Hst. rewrite Hst in H. by apply bool_decide_eq_true in H. }
  vm_compute. reflexivity.
Qed.

Lemma connectable1 : connectable db0 None block1.
Proof. constructor; [exact valid1|exact writes1|exact fits1]. Qed.

(** The database after the block. *)
Definition db1 : DB MapKV.map_kv :=
  match ConnectBlock db0 None block1 with Ok (d, _, _) => d | _ => db0 end.

Lemma connect_keeps_ledger_witness :
  exists d' cache', ConnectBlock db0 None block1 = Ok (d', cache', 1) /\ index_ok d'.
Proof. exact (connect_keeps_ledger db0 None block1 (empty_index_ok db0 empty0) connectable1). Defined.

Lemma connects1 : exists c' h, ConnectBlock db0 None block1 = Ok (db1, c', h).
Proof.
  destruct connectable1 as [Hv Hw Hf].
  destruct (ConnectBlock_index_ok db0 None block1 (empty_index_ok db0 empty0) Hv Hw Hf) as (d' & c' & st & H & _).
  exists c', (blk_Height block1). unfold db1. by rewrite H.
Qed.

Lemma synced1 : synced db1.
Proof.
  destruct connects1 as (c' & h & H).
  by apply (synced_connect db0 None block1 db1 c' h); [apply synced_empty, empty0|exact connectable1|].
Qed.

Lemma synced_balance_witness :
  exists ab, GetAddrDescBalance db1 addrB addressBalanceDetailUTXOIndexed = Ok ab /\
    ab_BalanceSat (default emptyBalance ab) = sumZ u_ValueSat (live (ab_Utxos (default emptyBalance ab))).
Proof.
  destruct (synced_balance db1 addrB synced1) as (ab & H1 & H2 & _); [discriminate|reflexivity|].
  exists ab. split; [exact H1|exact H2].
Defined.

(** The maps built for the block. *)
Definition st1 :=
  match processAddressesBitcoinType db0 block1 (initState None (blockGolombFilter block1)) with
  | Ok st => st | _ => initState None (blockGolombFilter block1) end.

(** Address A is touched by both transactions, and counted twice. *)
Lemma connect_counts_txs_witness :
  exists ab l, cs_balances st1 !! addrA = Some ab /\ cs_addresses st1 !! addrA = Some l /\ NoDup (listed l) /\
    ab_Txs ab = u32 (0 + zlen l) /\ zlen l = 2.
Proof.
  destruct (cs_balances st1 !! addrA) as [ab|] eqn:Hab; [|vm_compute in Hab; discriminate].
  destruct (connect_counts_txs db0 None (blockGolombFilter block1) block1 st1 addrA ab) as (l & (Hl & _ & Hd) & Hn);
    [vm_compute; reflexivity|exact Hab|].
  exists ab, l. split; [done|]. split; [exact Hl|]. split; [exact Hd|]. split; [exact Hn|].
  vm_compute in Hl. injection Hl as <-. reflexivity.
Defined.

Lemma connect_rows_read_back_witness :
  exists d' c', ConnectBlock db0 None block1 = Ok (d', c', 1) /\
    GetBlockInfo d' 1 = Ok (Some (mkBlockInfo (replicate 64 x63) 1600000000 2 500 1)).
Proof.
  destruct (connect_rows_read_back db0 None block1 (empty_index_ok db0 empty0) connectable1)
    as (d' & c' & st & H1 & _ & _ & _ & H2).
  exists d', c'. split; [exact H1|].
  apply (H2 (replicate 32 xcc)); [vm_compute; reflexivity..].
Defined.

(** The first output of the first transaction is spent within the block, and the input that spends it is recorded. *)
Example process_rows_example :
  keptTxAddresses <$> txView db0 st1 (packedId tx1) = Some (mkTxAddresses 1 [blankInput]
    [mkTxOutput addrA true 5000 None [] 0 0; blankOutput; mkTxOutput addrB false 300 None [] 0 0] 1 [] 0).
Proof.
  rewrite (process_rows db0 block1 (initState None (blockGolombFilter block1)) st1).
  - vm_compute. reflexivity.
  - vm_compute. reflexivity.
  - apply valid1.
Defined.

End ChainExample.
