(* ===== verification/Disconnect.v ===== *)
(** Disconnecting blocks ([db/rocksdb.go]: [disconnectTxAddressesInputs] to
    [storeBalancesDisconnect]).

    The maps and sets that the closures of [disconnectBlock] share are the record
    [DiscState]. The rows read at the start of a transaction ([txAddresses] in the code)
    and the rows to update ([txAddressesToUpdate]) are different objects there too. *)

From S2P Require Import Prelude Codec Parser Golomb TxAddr Balance IndexCodec Store Scan Assets Connect.

Local Open Scope Z_scope.

Record DiscState {W : AssetWire} := mkDiscState {
  ds_txs : gmap bytes TxAddresses;                (* txAddressesToUpdate *)
  ds_balances : gmap bytes (option AddrBalance);  (* balances; None is nil *)
  ds_addrTxs : gmap bytes (gset bytes);           (* blockAddressesTxs *)
  ds_assetTxs : gmap Z (gset bytes);              (* blockAssetTxs *)
  ds_touched : gset Z;                            (* touchedAssets *)
  ds_assets : AssetState W;                       (* assets, blockTxAssetAddresses, cache *)
}.
Arguments DiscState : clear implicits.
Arguments DiscState W : assert.

(** [if _, exist = m[k][btxID]; !exist { ... add it ... }] *)
Definition foundIn {A} `{Countable A} (k : A) (btxID : bytes) (m : gmap A (gset bytes))
    : gmap A (gset bytes) * bool :=
  match m !! k with
  | None => (<[k := {[btxID]}]> m, false)
  | Some a => (<[k := {[btxID]} ∪ a]> m, bool_decide (btxID ∈ a))
  end.

(** [if !exist { balance.Txs-- }] *)
Definition uncountTx (exist_ : bool) (ab : AddrBalance) : AddrBalance :=
  if exist_ then ab else set_Txs (u32 (ab_Txs ab - 1)) ab.

Definition unspend (o : TxOutput) : TxOutput :=
  mkTxOutput (to_AddrDesc o) false (to_ValueSat o) (to_AssetInfo o) (to_SpentTxid o) (to_SpentIndex o) (to_SpentHeight o).

(** [sort.SliceStable] by height: an insertion sort that keeps the order of equal heights. *)
Fixpoint insertByHeight (u : Utxo) (us : list Utxo) : list Utxo :=
  match us with
  | [] => [u]
  | x :: r => if u_Height u <=? u_Height x then u :: x :: r else x :: insertByHeight u r
  end.

Definition sortByHeight (us : list Utxo) : list Utxo := foldr insertByHeight [] us.

Section Disconnect.
Context {V : Vlq} {P : ChainParser} {IX : IndexOpts} {K : KV} {W : AssetWire} {E : AssetEnv W}.
Implicit Types (d : DB K) (st : DiscState W).

Definition dwith_txs m st := mkDiscState W m (ds_balances st) (ds_addrTxs st) (ds_assetTxs st) (ds_touched st) (ds_assets st).
Definition dwith_balances m st := mkDiscState W (ds_txs st) m (ds_addrTxs st) (ds_assetTxs st) (ds_touched st) (ds_assets st).
Definition dwith_addrTxs m st := mkDiscState W (ds_txs st) (ds_balances st) m (ds_assetTxs st) (ds_touched st) (ds_assets st).
Definition dwith_assetTxs m t st := mkDiscState W (ds_txs st) (ds_balances st) (ds_addrTxs st) m t (ds_assets st).
Definition dwith_assets a st := mkDiscState W (ds_txs st) (ds_balances st) (ds_addrTxs st) (ds_assetTxs st) (ds_touched st) a.

(** The flag is true when the address was met in the transaction before. *)
Definition addressFoundInTx (addrDesc btxID : bytes) st : DiscState W * bool :=
  let '(m, exist_) := foundIn addrDesc btxID (ds_addrTxs st) in
  (dwith_addrTxs m st, exist_).

Definition assetFoundInTx (asset : Z) (btxID : bytes) st : DiscState W * bool :=
  let '(m, exist_) := foundIn asset btxID (ds_assetTxs st) in
  (dwith_assetTxs m ({[asset]} ∪ ds_touched st) st, exist_).

Definition getAddressBalance d (addrDesc : bytes) st : result (option AddrBalance * DiscState W) :=
  match ds_balances st !! addrDesc with
  | Some b => Ok (b, st)
  | None =>
      let! b := GetAddrDescBalance d addrDesc addressBalanceDetailUTXOIndexed in
      Ok (b, dwith_balances (<[addrDesc := b]> (ds_balances st)) st)
  end.

Definition dputBalance (addrDesc : bytes) (b : AddrBalance) st : DiscState W :=
  dwith_balances (<[addrDesc := Some b]> (ds_balances st)) st.

(** The row of a spent transaction, kept in the map when it exists. *)
Definition getTxToUpdate d (btxID : bytes) st : result (option TxAddresses * DiscState W) :=
  match ds_txs st !! btxID with
  | Some sa => Ok (Some sa, st)
  | None =>
      let! sa := getTxAddresses d btxID in
      match sa with
      | Some sa => Ok (Some sa, dwith_txs (<[btxID := sa]> (ds_txs st)) st)
      | None => Ok (None, st)
      end
  end.

(** [sa.Outputs[input.index].Spent = false; inputHeight = sa.Height] *)
Definition unspendOutput (sa : option TxAddresses) (input : outpoint) st : result (Z * DiscState W) :=
  match sa with
  | None => Ok (0, st)
  | Some sa =>
      if (0 <=? op_index input) && (op_index input <? zlen (ta_Outputs sa)) then
        Ok (ta_Height sa,
            dwith_txs (<[op_btxID input :=
              set_Outputs (alter unspend (Z.to_nat (op_index input)) (ta_Outputs sa)) sa]> (ds_txs st)) st)
      else Panic
  end.

(** The asset part of an input or output, [f] being [DisconnectAllocationInput] or
    [DisconnectAllocationOutput]. *)
Definition disconnectAsset (f : AssetBalance -> AssetInfo -> bool -> AssetState W -> result (AssetState W * AssetBalance))
    (btxID : bytes) (ai : option AssetInfo) (balance : AddrBalance) st : result (AddrBalance * DiscState W) :=
  match ai with
  | None => Ok (balance, st)
  | Some ai =>
      let '(st, exist_) := assetFoundInTx (AssetGuid ai) btxID st in
      let! '(ast, ba) := f (assetBalanceOf (AssetGuid ai) balance) ai exist_ (ds_assets st) in
      Ok (set_AssetBalance (AssetGuid ai) ba balance, dwith_assets ast st)
  end.

Definition disconnectInput d (btxID : bytes) (inputs : list outpoint) st (e : nat * TxInput) : result (DiscState W) :=
  let '(i, t) := e in
  let addrDesc := ti_AddrDesc t in
  if zlen addrDesc =? 0 then Ok st
  else
    match inputs !! i with
    | None => Panic
    | Some input =>
        let '(st, exist_) := addressFoundInTx addrDesc btxID st in
        let! '(sa, st) := getTxToUpdate d (op_btxID input) st in
        let! '(inputHeight, st) := unspendOutput sa input st in
        if IsAddrDescIndexable addrDesc then
          let! '(balance, st) := getAddressBalance d addrDesc st in
          match balance with
          | None => Ok st
          | Some balance =>
              let balance := uncountTx exist_ balance in
              let balance := set_SentSat (floor0 (ab_SentSat balance - ti_ValueSat t)) balance in
              let balance := set_BalanceSat (ab_BalanceSat balance + ti_ValueSat t) balance in
              let balance := addUtxoInDisconnect
                (mkUtxo (op_btxID input) (op_index input) inputHeight (ti_ValueSat t) (ti_AssetInfo t)) balance in
              let! '(balance, st) :=
                disconnectAsset (fun ba ai exist_ => DisconnectAllocationInput d addrDesc ba btxID ai exist_)
                  btxID (ti_AssetInfo t) balance st in
              Ok (dputBalance addrDesc balance st)
          end
        else Ok st
    end.

Definition disconnectTxAddressesInputs d (btxID : bytes) (inputs : list outpoint) (txa : TxAddresses) st
    : result (DiscState W) :=
  rfold (disconnectInput d btxID inputs) (enumerate (ta_Inputs txa)) st.

Definition disconnectOutput d (btxID : bytes) st (e : nat * TxOutput) : result (DiscState W) :=
  let '(i, t) := e in
  let addrDesc := to_AddrDesc t in
  if zlen addrDesc =? 0 then Ok st
  else
    let '(st, exist_) := addressFoundInTx addrDesc btxID st in
    if IsAddrDescIndexable addrDesc then
      let! '(balance, st) := getAddressBalance d addrDesc st in
      match balance with
      | None => Ok st
      | Some balance =>
          let balance := uncountTx exist_ balance in
          let balance := set_BalanceSat (floor0 (ab_BalanceSat balance - to_ValueSat t)) balance in
          let! '(balance, st) :=
            disconnectAsset (fun ba ai exist_ => DisconnectAllocationOutput d addrDesc ba btxID ai exist_)
              btxID (to_AssetInfo t) balance st in
          Ok (dputBalance addrDesc (markUtxoAsSpent btxID (i32 (Z.of_nat i)) balance) st)
      end
    else Ok st.

Definition disconnectTxAddressesOutputs d (btxID : bytes) (txa : TxAddresses) st : result (DiscState W) :=
  rfold (disconnectOutput d btxID) (enumerate (ta_Outputs txa)) st.

(** ** The block *)

(** First loop of [disconnectBlock]: the inputs of all transactions; the rows read are
    kept for the second loop. *)
Definition disconnectTxInputs d (s : list (option TxAddresses) * DiscState W) (bt : blockTxs)
    : result (list (option TxAddresses) * DiscState W) :=
  let '(txAddresses, st) := s in
  let! txa := getTxAddresses d (bt_btxID bt) in
  match txa with
  | None => Ok (txAddresses ++ [None], st)
  | Some txa =>
      let! st := disconnectTxAddressesInputs d (bt_btxID bt) (bt_inputs bt) txa st in
      Ok (txAddresses ++ [Some txa], st)
  end.

Definition disconnectTxOutputs d st (e : blockTxs * option TxAddresses) : result (DiscState W) :=
  match e.2 with
  | None => Ok st
  | Some txa => disconnectTxAddressesOutputs d (bt_btxID e.1) txa st
  end.

Definition disconnectTxs d (bts : list blockTxs) st : result (DiscState W) :=
  let! '(txAddresses, st) := rfold (disconnectTxInputs d) bts ([], st) in
  rfold (disconnectTxOutputs d) (zip bts txAddresses) st.

(** Spent outputs are dropped, the others sorted by height. *)
Definition trimBalance (b : AddrBalance) : AddrBalance :=
  set_Utxos (sortByHeight (live (ab_Utxos b))) (ab_utxosMap b) b.

Definition storeBalancesDisconnect (wb : list BatchOp) (balances : gmap bytes (option AddrBalance)) : list BatchOp :=
  storeBalances wb (option_map trimBalance <$> balances).

Definition disconnectBlockFilter d (wb : list BatchOp) (height : Z) : result (list BatchOp) :=
  let! blockHash := GetBlockHash d height in
  let! blockHashBytes := hex_DecodeString blockHash in
  Ok (wb ++ [DeleteCF cfBlockFilter blockHashBytes]).

Definition initDisc (cache : option (gmap Z (Asset W))) : DiscState W :=
  mkDiscState W ∅ ∅ ∅ ∅ ∅ (mkAssetState (Some ∅) None ∅ cache).

(** The part of the batch that removes the rows of the block's own transactions. *)
Definition deleteTxs (bts : list blockTxs) : list BatchOp :=
  concat (map (fun b => [DeleteCF cfTransactions b; DeleteCF cfTxAddresses b])
            (elements (list_to_set (map bt_btxID bts) : gset bytes))).

Definition disconnectBlock d (cache : option (gmap Z (Asset W))) (height : Z) (bts : list blockTxs)
    : result (DB K * option (gmap Z (Asset W))) :=
  let! st := disconnectTxs d bts (initDisc cache) in
  let wb := map (fun a => DeleteCF cfAddresses (packAddressKey a height)) (elements (dom (ds_addrTxs st))) in
  let wb := wb ++ [DeleteCF cfBlockTxs (packUint height); DeleteCF cfHeight (packUint height)] in
  let wb := storeTxAddresses wb (ds_txs st) in
  let wb := storeBalancesDisconnect wb (ds_balances st) in
  let! '(wb, ast) :=
    (if supportsSyscoinAssets then
       if negb hasAssetParser then Err (ErrMsg "disconnectBlock: Syscoin asset parser is not configured")
       else
         let wb := wb ++ map (fun asset => DeleteCF cfTxAssets (PackAssetKey asset height)) (elements (ds_touched st)) in
         storeAssets (map_to_list (default ∅ (ast_assets (ds_assets st)))) wb (ds_assets st)
     else Ok (wb, ds_assets st)) in
  let wb := wb ++ deleteTxs bts in
  let! wb := disconnectBlockFilter d wb height in
  let! d := WriteBatch wb d in
  Ok (d, ast_cache ast).

(** ** A range of blocks *)

(** [blocks[i] = v] *)
Definition setBlock (i : Z) (v : list blockTxs) (blocks : list (list blockTxs)) : result (list (list blockTxs)) :=
  if i <? zlen blocks then Ok (<[Z.to_nat i := v]> blocks) else Panic.

(** [for height := lower; height <= higher; height++]; the counter is a [uint32]. *)
Fixpoint readBlockTxs (fuel : nat) d (lower higher height : Z) (blocks : list (list blockTxs))
    : result (list (list blockTxs)) :=
  match fuel with
  | O => Panic
  | S f =>
      if height <=? higher then
        let! bts := getBlockTxs d height in
        if zlen bts =? 0 then Err (ErrMsg "Cannot disconnect blocks with height and lower")
        else
          let! blocks := setBlock (u32 (height - lower)) bts blocks in
          readBlockTxs f d lower higher (u32 (height + 1)) blocks
      else Ok blocks
  end.

(** [for height := higher; height >= lower; height--]: the database and the cache when the
    loop ends, and how it ends. *)
Fixpoint disconnectLoop (fuel : nat) d (cache : option (gmap Z (Asset W))) (lower height : Z)
    (blocks : list (list blockTxs)) : DB K * option (gmap Z (Asset W)) * result unit :=
  match fuel with
  | O => (d, cache, Panic)
  | S f =>
      if lower <=? height then
        match blocks !! Z.to_nat (u32 (height - lower)) with
        | None => (d, cache, Panic)
        | Some bts =>
            match disconnectBlock d cache height bts with
            | Ok (d, cache) => disconnectLoop f d cache lower (u32 (height - 1)) blocks
            | Err e => (d, cache, Err e)
            | Panic => (d, cache, Panic)
            end
        end
      else (d, cache, Ok tt)
  end.

(** The number of iterations of either loop, and one more for its final test. *)
Definition rangeFuel (lower higher : Z) : nat := S (S (Z.to_nat (higher - lower))).

Definition DisconnectBlockRangeBitcoinType d (cache : option (gmap Z (Asset W))) (lower higher : Z)
    : DB K * option (gmap Z (Asset W)) * result unit :=
  let blocks := replicate (Z.to_nat (u32 (higher - lower + 1))) [] in
  match readBlockTxs (rangeFuel lower higher) d lower higher lower blocks with
  | Err e => (d, cache, Err e)
  | Panic => (d, cache, Panic)
  | Ok blocks => disconnectLoop (rangeFuel lower higher) d cache lower higher blocks
  end.
End Disconnect.
