(* ===== verification/DisconnectCorrect.v ===== *)
(** Disconnecting a block keeps the ledger: the two passes of [disconnectBlock] (of
    [Disconnect]) against the specification [ledger_ok] (of [Ledger]). The first pass turns
    the outputs spent by the block back into unspent ones, the second removes the outputs
    the block created. *)

From S2P Require Import Prelude Codec Parser Golomb TxAddr Balance IndexCodec Store Scan Assets Connect Ledger ConnectCorrect Disconnect.

Local Open Scope Z_scope.

(** ** Rows with some outputs changed *)

Definition mapRows (f : bytes -> nat -> TxOutput -> TxOutput) (tx : bytes -> option TxAddresses)
    (t : bytes) : option TxAddresses :=
  (fun ta => set_Outputs (imap (f t) (ta_Outputs ta)) ta) <$> tx t.

Definition markSpent (o : TxOutput) : TxOutput :=
  mkTxOutput (to_AddrDesc o) true (to_ValueSat o) (to_AssetInfo o) (to_SpentTxid o) (to_SpentIndex o) (to_SpentHeight o).

(** The outputs in [ps] are unspent again; the outputs in [ps] are gone. *)
Definition restored (ps : list (bytes * Z)) : (bytes -> option TxAddresses) -> bytes -> option TxAddresses :=
  mapRows (fun t i o => if decide ((t, Z.of_nat i) ∈ ps) then unspend o else o).
Definition removed (ps : list (bytes * Z)) : (bytes -> option TxAddresses) -> bytes -> option TxAddresses :=
  mapRows (fun t i o => if decide ((t, Z.of_nat i) ∈ ps) then markSpent o else o).

Lemma mapRows_Some f tx t ta' :
  mapRows f tx t = Some ta' <-> exists ta, tx t = Some ta /\ ta' = set_Outputs (imap (f t) (ta_Outputs ta)) ta.
Proof. unfold mapRows. rewrite fmap_Some. done. Qed.

Lemma mapRows_dom f tx t : is_Some (mapRows f tx t) <-> is_Some (tx t).
Proof. unfold mapRows. apply fmap_is_Some. Qed.

Lemma owns_mapRows f tx a u :
  owns (mapRows f tx) a u <->
  exists t ta i o, tx t = Some ta /\ ta_Outputs ta !! i = Some o /\ to_AddrDesc (f t i o) = a /\
    to_Spent (f t i o) = false /\ u = utxo_of t (ta_Height ta) i (f t i o).
Proof.
  split.
  - intros (t & ta' & i & o' & H1 & H2 & H3 & H4 & ->). apply mapRows_Some in H1 as (ta & Ht & ->).
    cbn [ta_Outputs ta_Height set_Outputs] in *. rewrite list_lookup_imap in H2.
    destruct (ta_Outputs ta !! i) as [o|] eqn:Eo; [|done]. injection H2 as <-. by exists t, ta, i, o.
  - intros (t & ta & i & o & H1 & H2 & H3 & H4 & ->).
    exists t, (set_Outputs (imap (f t) (ta_Outputs ta)) ta), i, (f t i o).
    split; [by apply mapRows_Some; eauto|]. cbn [ta_Outputs set_Outputs]. by rewrite list_lookup_imap, H2.
Qed.

Lemma values_mapRows {P : ChainParser} f tx :
  (forall t i o, output_value_ok o -> output_value_ok (f t i o)) -> values_ok tx -> values_ok (mapRows f tx).
Proof.
  intros Hf HV t ta' H. apply mapRows_Some in H as (ta & Ht & ->). cbn [ta_Outputs set_Outputs].
  apply Forall_lookup. intros i o'. rewrite list_lookup_imap.
  destruct (ta_Outputs ta !! i) as [o|] eqn:Eo; [|done]. intros [= <-]. apply Hf.
  pose proof (HV t ta Ht) as H. rewrite Forall_lookup in H. by apply (H i).
Qed.

Lemma values_restored {P : ChainParser} ps tx : values_ok tx -> values_ok (restored ps tx).
Proof. apply values_mapRows. intros t i o H. by case_decide. Qed.
Lemma values_removed {P : ChainParser} ps tx : values_ok tx -> values_ok (removed ps tx).
Proof. apply values_mapRows. intros t i o H. by case_decide. Qed.

Lemma owns_restored_cons tx ps t n ta o a x :
  tx t = Some ta -> ta_Outputs ta !! n = Some o -> to_Spent o = true -> (t, Z.of_nat n) ∉ ps ->
  owns (restored ((t, Z.of_nat n) :: ps) tx) a x <->
  owns (restored ps tx) a x \/ (to_AddrDesc o = a /\ x = utxo_of t (ta_Height ta) n o).
Proof.
  intros Ht Ho Hs Hn. unfold restored. rewrite !owns_mapRows. split.
  - intros (t1 & ta1 & i1 & o1 & H1 & H2 & H3 & H4 & ->).
    case_decide as E1; [apply elem_of_cons in E1 as [[= -> ->%Nat2Z.inj]|E1]|].
    + right. assert (ta1 = ta) as -> by congruence. assert (o1 = o) as -> by congruence. done.
    + left. exists t1, ta1, i1, o1. by rewrite decide_True.
    + left. exists t1, ta1, i1, o1. rewrite decide_False; [done|]. intros ?. apply E1. by right.
  - intros [(t1 & ta1 & i1 & o1 & H1 & H2 & H3 & H4 & ->)|[H3 ->]].
    + exists t1, ta1, i1, o1. case_decide as E1; [by rewrite decide_True by (by right)|].
      rewrite decide_False; [done|]. intros [[= -> ->%Nat2Z.inj]|?]%elem_of_cons; [|done].
      assert (ta1 = ta) as -> by congruence. congruence.
    + exists t, ta, n, o. rewrite decide_True by (by left). done.
Qed.

Lemma owns_removed_cons tx ps p a x :
  owns (removed (p :: ps) tx) a x <-> owns (removed ps tx) a x /\ outpointOf x <> p.
Proof.
  unfold removed. rewrite !owns_mapRows. split.
  - intros (t1 & ta1 & i1 & o1 & H1 & H2 & H3 & H4 & ->). case_decide as E1; [done|].
    rewrite elem_of_cons in E1. split; [|cbn; tauto].
    exists t1, ta1, i1, o1. rewrite decide_False by tauto. done.
  - intros [(t1 & ta1 & i1 & o1 & H1 & H2 & H3 & H4 & ->) Hne]. case_decide as E1; [done|].
    exists t1, ta1, i1, o1. rewrite decide_False; [done|].
    intros [Ee|?]%elem_of_cons; [by apply Hne|done].
Qed.

Lemma mapRows_id f tx t : (forall i o, f t i o = o) -> mapRows f tx t = tx t.
Proof.
  intros Hf. unfold mapRows. destruct (tx t) as [ta|]; [|done]. cbn. f_equal.
  rewrite (imap_ext _ (const id)) by (intros; apply Hf). rewrite imap_const, list_fmap_id. by destruct ta.
Qed.

Lemma removed_nil tx t : removed [] tx t = tx t.
Proof. apply mapRows_id. intros i o. by rewrite decide_False by apply not_elem_of_nil. Qed.
Lemma restored_nil tx t : restored [] tx t = tx t.
Proof. apply mapRows_id. intros i o. by rewrite decide_False by apply not_elem_of_nil. Qed.

(** ** Views: the maps of the block over the database *)

Section Views.
Context {V : Vlq} {P : ChainParser} {IX : IndexOpts} {K : KV} {W : AssetWire} {E : AssetEnv W}.
Implicit Types (d : DB K) (st : DiscState W).

Definition dtxView d st (t : bytes) : option TxAddresses :=
  match ds_txs st !! t with Some ta => Some ta | None => dbTx d t end.

Definition dbalView d st (a : bytes) : AddrBalance :=
  match ds_balances st !! a with Some ob => default emptyBalance ob | None => dbBal d a end.

(** A nil balance stands for a row that is missing. *)
Definition nil_ok d st : Prop :=
  forall a, ds_balances st !! a = Some None -> GetAddrDescBalance d a addressBalanceDetailUTXOIndexed = Ok None.

Definition has_balance d (a : bytes) : Prop :=
  exists b, GetAddrDescBalance d a addressBalanceDetailUTXOIndexed = Ok (Some b).

Lemma dbalView_put d st a b a' :
  dbalView d (dputBalance a b st) a' = if decide (a' = a) then b else dbalView d st a'.
Proof.
  unfold dbalView, dputBalance. cbn [ds_balances dwith_balances].
  case_decide as Ed; [subst a'; by rewrite lookup_insert_eq|by rewrite lookup_insert_ne].
Qed.

Lemma nil_ok_put d st a b : nil_ok d st -> nil_ok d (dputBalance a b st).
Proof.
  intros H a'. unfold dputBalance. cbn [ds_balances dwith_balances].
  destruct (decide (a' = a)) as [->|Hne]; [by rewrite lookup_insert_eq|rewrite lookup_insert_ne by done; apply H].
Qed.

Lemma getAddressBalance_ok d a st :
  reads_ok d -> nil_ok d st -> has_balance d a ->
  exists m, getAddressBalance d a st = Ok (Some (dbalView d st a), dwith_balances m st) /\
    (forall a', dbalView d (dwith_balances m st) a' = dbalView d st a') /\ nil_ok d (dwith_balances m st).
Proof.
  intros Hd Hn [b0 Hb]. unfold getAddressBalance, dbalView at 1.
  destruct (ds_balances st !! a) as [[b|]|] eqn:Eb.
  - exists (ds_balances st). by destruct st.
  - pose proof (Hn a Eb). congruence.
  - rewrite Hb. cbn [rbind]. eexists. split; [unfold dbBal; by rewrite Hb|].
    split; intros a'; unfold dbalView; cbn [ds_balances dwith_balances];
      (destruct (decide (a' = a)) as [->|Hne]; [rewrite lookup_insert_eq|rewrite lookup_insert_ne by done]);
      [|done|done|apply Hn].
    rewrite Eb. unfold dbBal. by rewrite Hb.
Qed.

Lemma getTxToUpdate_ok d t st ta :
  dtxView d st t = Some ta -> reads_ok d ->
  exists m, getTxToUpdate d t st = Ok (Some ta, dwith_txs m st) /\
    forall t', dtxView d (dwith_txs m st) t' = dtxView d st t'.
Proof.
  intros Ht Hd. unfold getTxToUpdate. unfold dtxView in Ht. destruct (ds_txs st !! t) as [ta'|] eqn:Et.
  - injection Ht as ->. exists (ds_txs st). by destruct st.
  - destruct (reads_tx d Hd t) as [o Ho]. unfold dbTx in Ht. rewrite Ho in Ht |- *. subst o. cbn [rbind].
    eexists. split; [done|]. intros t'. unfold dtxView. cbn [ds_txs dwith_txs].
    destruct (decide (t' = t)) as [->|Hne]; [|by rewrite lookup_insert_ne].
    rewrite lookup_insert_eq, Et. unfold dbTx. by rewrite Ho.
Qed.

(** The asset part of an input or output changes the asset balance and nothing else. *)
Lemma disconnectAsset_ok f btxID ai b st (delta : Z -> Z) :
  is_Some (ast_assets (ds_assets st)) ->
  (forall g v seen ast ba, ai = Some (mkAssetInfo g (Some v)) -> is_Some (ast_assets ast) -> ba = assetBalanceOf g b ->
     exists ast' ba', f ba (mkAssetInfo g (Some v)) seen ast = Ok (ast', ba') /\ is_Some (ast_assets ast') /\
       asb_BalanceSat ba' = asb_BalanceSat ba + delta v) ->
  asset_value_ok ai -> delta 0 = 0 ->
  exists b' st', disconnectAsset f btxID ai b st = Ok (b', st') /\
    ds_txs st' = ds_txs st /\ ds_balances st' = ds_balances st /\ ds_addrTxs st' = ds_addrTxs st /\
    is_Some (ast_assets (ds_assets st')) /\
    ab_Utxos b' = ab_Utxos b /\ ab_utxosMap b' = ab_utxosMap b /\ ab_BalanceSat b' = ab_BalanceSat b /\
    ab_Txs b' = ab_Txs b /\
    forall guid, asb_BalanceSat (assetBalanceOf guid b') =
                 asb_BalanceSat (assetBalanceOf guid b) + delta (assetAmount guid ai).
Proof.
  intros Hr Hf Hai Hz. destruct ai as [[g av]|]; cbn [disconnectAsset].
  - destruct Hai as (_ & v & Hv & _). cbn in Hv. subst av.
    destruct (assetFoundInTx (AssetGuid (mkAssetInfo g (Some v))) btxID st) as [st1 seen] eqn:Ef.
    assert (ds_txs st1 = ds_txs st /\ ds_balances st1 = ds_balances st /\ ds_addrTxs st1 = ds_addrTxs st /\
            ds_assets st1 = ds_assets st) as (F1 & F2 & F3 & F4).
    { unfold assetFoundInTx in Ef. destruct (foundIn _ _ _) as [m s]. by injection Ef as <- <-. }
    destruct (Hf g v seen (ds_assets st1) (assetBalanceOf g b)) as (ast' & ba' & Hok & Hr' & Hb); [done|by rewrite F4|done|].
    cbn [AssetGuid]. rewrite Hok. cbn [rbind]. eexists _, _. split; [done|].
    do 3 (split; [done|]). split; [done|]. do 4 (split; [done|]).
    intros guid. rewrite assetBalanceOf_set. cbn [assetAmount AssetGuid AssetValueSat default].
    destruct (decide (guid = g)) as [->|Hne]; [by rewrite decide_True|].
    rewrite decide_False by congruence. rewrite Hz. lia.
  - exists b, st. do 9 (split; [done|]). intros guid. cbn [assetAmount]. rewrite Hz. lia.
Qed.
End Views.

(** ** First pass: outputs become unspent *)

Lemma restored_cons ps tx t n t' :
  restored ((t, Z.of_nat n) :: ps) tx t' =
  if decide (t' = t) then (fun ta => set_Outputs (alter unspend n (ta_Outputs ta)) ta) <$> restored ps tx t
  else restored ps tx t'.
Proof.
  unfold restored, mapRows. destruct (decide (t' = t)) as [->|Hne]; [|].
  - destruct (tx t) as [ta|]; [|done]. cbn. f_equal. unfold set_Outputs. cbn. f_equal.
    apply list_eq. intros i. rewrite list_lookup_imap. destruct (decide (i = n)) as [->|Hi].
    + rewrite list_lookup_alter_eq, list_lookup_imap. destruct (ta_Outputs ta !! n) as [o|]; [|done]. cbn.
      rewrite decide_True by (by left). by case_decide.
    + rewrite list_lookup_alter_ne, list_lookup_imap by done. destruct (ta_Outputs ta !! i) as [o|]; [|done]. cbn.
      f_equal. case_decide as E1; [apply elem_of_cons in E1 as [[= Ei%Nat2Z.inj]|E1]|]; [done|by rewrite decide_True|].
      rewrite decide_False; [done|]. intros ?. apply E1. by right.
  - destruct (tx t') as [ta|]; [|done]. cbn. f_equal. f_equal. apply imap_ext. intros i o _.
    case_decide as E1; [apply elem_of_cons in E1 as [[= ? _]|E1]|]; [done|by rewrite decide_True|].
    rewrite decide_False; [done|]. intros ?. apply E1. by right.
Qed.

Section Restore.
Context {V : Vlq} {P : ChainParser} {IX : IndexOpts} {K : KV} {W : AssetWire} {E : AssetEnv W}.
Implicit Types (d : DB K) (st : DiscState W).

Definition opPair (p : outpoint) : bytes * Z := (op_btxID p, op_index p).

(** Input [t] records the spending of the output [p]. *)
Definition spent_by (tx : bytes -> option TxAddresses) (p : outpoint) (t : TxInput) : Prop :=
  exists ta o, tx (op_btxID p) = Some ta /\ 0 <= op_index p < 2 ^ 31 /\
    ta_Outputs ta !! Z.to_nat (op_index p) = Some o /\ to_AddrDesc o = ti_AddrDesc t /\
    to_ValueSat o = ti_ValueSat t /\ to_AssetInfo o = ti_AssetInfo t /\ to_Spent o = true.

Record restore_inv d (ps : list (bytes * Z)) st : Prop := {
  ri_rows t : dtxView d st t = restored ps (dbTx d) t;
  ri_bal a : a <> [] -> IsAddrDescIndexable a = true -> addr_ok (restored ps (dbTx d)) a (dbalView d st a);
  ri_nil : nil_ok d st;
  ri_assets : is_Some (ast_assets (ds_assets st));
}.

(** The row is updated, the balances are not yet. *)
Lemma unspendOutput_ok d ps st p t :
  reads_ok d -> restore_inv d ps st -> spent_by (dbTx d) p t ->
  exists sa m1 h m2, getTxToUpdate d (op_btxID p) st = Ok (Some sa, dwith_txs m1 st) /\
    unspendOutput (Some sa) p (dwith_txs m1 st) = Ok (h, dwith_txs m2 (dwith_txs m1 st)) /\
    (exists ta, dbTx d (op_btxID p) = Some ta /\ h = ta_Height ta) /\
    forall t', dtxView d (dwith_txs m2 (dwith_txs m1 st)) t' = restored (opPair p :: ps) (dbTx d) t'.
Proof.
  intros Hd [HR _ _ _] (ta & o & Ht & Hi & Ho & _).
  assert (restored ps (dbTx d) (op_btxID p) = Some (set_Outputs
            (imap (fun i o => if decide ((op_btxID p, Z.of_nat i) ∈ ps) then unspend o else o) (ta_Outputs ta)) ta)) as Hrow
    by (apply mapRows_Some; eauto).
  set (sa := set_Outputs _ ta) in Hrow.
  destruct (getTxToUpdate_ok d (op_btxID p) st sa) as (m1 & Hg & Hv1); [by rewrite HR|done|].
  assert (op_index p < zlen (ta_Outputs sa)) as Hlen.
  { apply lookup_lt_Some in Ho. unfold zlen, sa. cbn. rewrite length_imap. lia. }
  exists sa, m1, (ta_Height sa), (<[op_btxID p := set_Outputs (alter unspend (Z.to_nat (op_index p)) (ta_Outputs sa)) sa]> m1).
  split; [done|]. split; [|split; [by exists ta|]].
  - unfold unspendOutput. rewrite (proj2 (Z.leb_le _ _)), (proj2 (Z.ltb_lt _ _)) by lia. done.
  - intros t'. unfold opPair. replace (op_index p) with (Z.of_nat (Z.to_nat (op_index p))) at 2 by lia.
    rewrite restored_cons. unfold dtxView. cbn [ds_txs dwith_txs].
    case_decide as Ed; [subst t'; rewrite lookup_insert_eq, Hrow; done|].
    rewrite lookup_insert_ne by done. rewrite <- HR, <- Hv1. done.
Qed.

(** The restored output. *)
Definition restoredUtxo (ta : TxAddresses) (p : outpoint) (t : TxInput) : Utxo :=
  mkUtxo (op_btxID p) (op_index p) (ta_Height ta) (ti_ValueSat t) (ti_AssetInfo t).

Lemma owns_restored_spent d ps p t ta a x :
  spent_by (dbTx d) p t -> dbTx d (op_btxID p) = Some ta -> opPair p ∉ ps ->
  owns (restored (opPair p :: ps) (dbTx d)) a x <->
  owns (restored ps (dbTx d)) a x \/ (ti_AddrDesc t = a /\ x = restoredUtxo ta p t).
Proof.
  intros (ta' & o & Ht' & Hi & Ho & Ha & Hv & Has & Hs) Ht Hn. assert (ta' = ta) as -> by congruence.
  unfold opPair in *. replace (op_index p) with (Z.of_nat (Z.to_nat (op_index p))) in Hn |- * by lia.
  rewrite (owns_restored_cons (dbTx d) ps (op_btxID p) (Z.to_nat (op_index p)) ta o a x) by done.
  rewrite Ha. unfold utxo_of, restoredUtxo. rewrite Hv, Has, Z2Nat.id by lia. done.
Qed.

(** The address of the restored output. *)
Lemma creditRestored_ok tx ps p t ta d a b0 b :
  tx = dbTx d -> values_ok tx ->
  spent_by tx p t -> tx (op_btxID p) = Some ta -> opPair p ∉ ps -> ti_AddrDesc t = a ->
  addr_ok (restored ps tx) a b0 ->
  utxos_ok b -> ab_Utxos b ≡ₚ restoredUtxo ta p t :: ab_Utxos b0 ->
  ab_BalanceSat b = ab_BalanceSat b0 + ti_ValueSat t ->
  (forall guid, asb_BalanceSat (assetBalanceOf guid b) =
                asb_BalanceSat (assetBalanceOf guid b0) + assetAmount guid (ti_AssetInfo t)) ->
  addr_ok (restored (opPair p :: ps) tx) a b.
Proof.
  intros -> HV Hs Ht Hn Ha Hok Hu HU HB HA. pose proof Hs as (ta' & o & Ht' & Hi & Ho & _ & _ & _ & Hsp).
  eapply (addr_ok_credit (restored ps (dbTx d)) _ a b0 b (restoredUtxo ta p t)); [done| | | | |cbn; lia|done|done|done|done].
  - intros x. rewrite (owns_restored_spent d ps p t ta a x Hs Ht Hn). naive_solver.
  - unfold restored. rewrite owns_mapRows. intros (t1 & ta1 & i1 & o1 & E1 & E2 & _ & E4 & E5).
    injection E5 as <- E5 _ _ _. rewrite decide_False in E4 by (by rewrite <- E5).
    assert (ta' = ta1) as -> by congruence. rewrite E5, Nat2Z.id in Ho. congruence.
  - intros t'. unfold restored. by rewrite !mapRows_dom.
  - unfold restored. rewrite mapRows_dom. by eexists.
Qed.

Lemma restore_other d ps p t a b :
  spent_by (dbTx d) p t -> opPair p ∉ ps -> ti_AddrDesc t <> a ->
  addr_ok (restored ps (dbTx d)) a b -> addr_ok (restored (opPair p :: ps) (dbTx d)) a b.
Proof.
  intros Hs Hn Hne. pose proof Hs as (ta & _ & Ht & _). apply addr_ok_other.
  - intros x. rewrite (owns_restored_spent d ps p t ta a x Hs Ht Hn). naive_solver.
  - intros t'. unfold restored. by rewrite !mapRows_dom.
Qed.

Lemma uncountTx_fields c ab :
  ab_SentSat (uncountTx c ab) = ab_SentSat ab /\ ab_BalanceSat (uncountTx c ab) = ab_BalanceSat ab /\
  ab_Utxos (uncountTx c ab) = ab_Utxos ab /\ ab_AssetBalances (uncountTx c ab) = ab_AssetBalances ab /\
  ab_utxosMap (uncountTx c ab) = ab_utxosMap ab.
Proof. by destruct c. Qed.

Lemma addUtxoInDisconnect_fields u ab :
  ab_Txs (addUtxoInDisconnect u ab) = ab_Txs ab /\
  ab_BalanceSat (addUtxoInDisconnect u ab) = ab_BalanceSat ab /\
  ab_AssetBalances (addUtxoInDisconnect u ab) = ab_AssetBalances ab.
Proof.
  destruct (addUtxo_fields u ab) as (H1 & _ & H2 & H3). unfold addUtxoInDisconnect.
  destruct (if bool_decide _ then _ else _); [destruct (insertUtxo _ _)|]; done.
Qed.

Lemma addressFoundInTx_fields a t st :
  let st' := (addressFoundInTx a t st).1 in
  ds_txs st' = ds_txs st /\ ds_balances st' = ds_balances st /\ ds_assets st' = ds_assets st.
Proof. unfold addressFoundInTx. by destruct (foundIn a t (ds_addrTxs st)). Qed.

Lemma restore_inv_ext d ps st st' :
  ds_txs st' = ds_txs st -> ds_balances st' = ds_balances st -> is_Some (ast_assets (ds_assets st')) ->
  restore_inv d ps st -> restore_inv d ps st'.
Proof.
  intros H1 H2 H3 [R1 R2 R3 R4]. constructor; [| | |done].
  - intros t. rewrite <- R1. unfold dtxView. by rewrite H1.
  - intros a. unfold dbalView. rewrite H2. apply R2.
  - unfold nil_ok. rewrite H2. apply R3.
Qed.

(** What an input that is reversed must satisfy. *)
Definition input_undo_ok d (p : outpoint) (t : TxInput) : Prop :=
  spent_by (dbTx d) p t /\ (IsAddrDescIndexable (ti_AddrDesc t) = true -> has_balance d (ti_AddrDesc t)).

Lemma restoreBalance_ok d ps p t ta st btxID seen :
  reads_ok d -> values_ok (dbTx d) -> spent_by (dbTx d) p t -> dbTx d (op_btxID p) = Some ta -> opPair p ∉ ps ->
  let a := ti_AddrDesc t in let b0 := dbalView d st a in
  addr_ok (restored ps (dbTx d)) a b0 -> is_Some (ast_assets (ds_assets st)) ->
  let bs := set_SentSat (floor0 (ab_SentSat (uncountTx seen b0) - ti_ValueSat t)) (uncountTx seen b0) in
  let b1 := addUtxoInDisconnect (restoredUtxo ta p t) (set_BalanceSat (ab_BalanceSat bs + ti_ValueSat t) bs) in
  exists b' st', disconnectAsset (fun ba ai exist_ => DisconnectAllocationInput d a ba btxID ai exist_)
                   btxID (ti_AssetInfo t) b1 st = Ok (b', st') /\
    ds_txs st' = ds_txs st /\ ds_balances st' = ds_balances st /\ ds_addrTxs st' = ds_addrTxs st /\
    is_Some (ast_assets (ds_assets st')) /\ ab_Txs b' = ab_Txs (uncountTx seen b0) /\
    addr_ok (restored (opPair p :: ps) (dbTx d)) a b'.
Proof.
  intros Hd HV Hs Ht Hn a b0 Hok Hr bs b1. destruct (uncountTx_fields seen b0) as (_ & C2 & C3 & C4 & C5).
  set (b00 := set_BalanceSat _ _) in b1.
  destruct (addUtxoInDisconnect_ok (restoredUtxo ta p t) b00) as [Hu HU].
  { eapply utxos_ok_ext; [exact C3|exact C5|]. exact (aok_utxos _ _ _ Hok). }
  destruct (addUtxoInDisconnect_fields (restoredUtxo ta p t) b00) as (T1 & T2 & T3).
  assert (asset_value_ok (ti_AssetInfo t)) as Hai.
  { destruct Hs as (ta' & o & Ht' & _ & Ho & _ & _ & <- & _). pose proof (HV _ _ Ht') as Hf.
    rewrite Forall_lookup in Hf. apply (Hf _ _ Ho). }
  destruct (disconnectAsset_ok (fun ba ai exist_ => DisconnectAllocationInput d a ba btxID ai exist_) btxID
              (ti_AssetInfo t) b1 st (fun v => v) Hr) as (b' & st' & -> & S1 & S2 & S3 & S4 & B1 & B2 & B3 & B4 & B5);
    [|done|done|].
  { intros g v seen' ast ba _ Hast _. by apply DisconnectAllocationInput_ok; [apply (reads_assets d Hd)|..]. }
  exists b', st'. do 5 (split; [done|]). split; [by rewrite B4; unfold b1; rewrite T1|].
  eapply (creditRestored_ok (dbTx d) ps p t ta d a b0); try done.
  - by eapply utxos_ok_ext; [exact B1|exact B2|].
  - rewrite B1. unfold b1. rewrite HU. cbn. by rewrite C3.
  - rewrite B3. unfold b1. rewrite T2. cbn. by rewrite C2.
  - intros guid. rewrite B5. f_equal. f_equal. apply assetBalanceOf_ext. unfold b1. rewrite T3. exact C4.
Qed.

Lemma disconnectInput_ok d ps btxID inputs i t p st :
  reads_ok d -> values_ok (dbTx d) -> restore_inv d ps st -> ti_AddrDesc t <> [] -> inputs !! i = Some p ->
  input_undo_ok d p t -> opPair p ∉ ps ->
  exists st', disconnectInput d btxID inputs st (i, t) = Ok st' /\ restore_inv d (opPair p :: ps) st'.
Proof.
  intros Hd HV Hinv Ha Hp [Hs Hb] Hn. unfold disconnectInput.
  destruct (Z.eqb_spec (zlen (ti_AddrDesc t)) 0) as [Ez|_]; [by apply zlen_0 in Ez|]. rewrite Hp.
  pose proof (addressFoundInTx_fields (ti_AddrDesc t) btxID st) as F.
  destruct (addressFoundInTx (ti_AddrDesc t) btxID st) as [st1 seen]. cbn in F. destruct F as (F1 & F2 & F3).
  assert (restore_inv d ps st1) as Hinv1.
  { apply (restore_inv_ext d ps st); [done|done|rewrite F3; apply Hinv|done]. }
  destruct (unspendOutput_ok d ps st1 p t Hd Hinv1 Hs) as (sa & m1 & h & m2 & -> & Hu & (ta & Hta & ->) & Hv).
  cbn [rbind]. rewrite Hu. cbn [rbind]. set (st2 := dwith_txs m2 (dwith_txs m1 st1)) in *.
  destruct Hinv1 as [R1 R2 R3 R4]. destruct (IsAddrDescIndexable (ti_AddrDesc t)) eqn:Ei.
  - destruct (getAddressBalance_ok d (ti_AddrDesc t) st2 Hd R3 (Hb eq_refl)) as (m & -> & Hbv & Hnil). cbn [rbind].
    destruct (restoreBalance_ok d ps p t ta (dwith_balances m st2) btxID seen Hd HV Hs Hta Hn)
      as (b' & st3 & Hok & S1 & S2 & _ & S4 & _ & Hadr); [rewrite Hbv; by apply R2|done|].
    rewrite Hbv in Hok. change (dbalView d st1 (ti_AddrDesc t)) with (dbalView d st2 (ti_AddrDesc t)) in *.
    unfold restoredUtxo in Hok. rewrite Hok. cbn [rbind]. eexists. split; [done|]. constructor.
    + intros t'. rewrite <- Hv. unfold dtxView. cbn [ds_txs dputBalance dwith_balances]. by rewrite S1.
    + intros a Hne Hia. rewrite dbalView_put. case_decide as Ed; [by subst a|].
      replace (dbalView d st3 a) with (dbalView d st1 a);
        [apply (restore_other d ps p t); [done|done|congruence|by apply R2]|].
      change (dbalView d st1 a) with (dbalView d st2 a). rewrite <- Hbv. unfold dbalView. by rewrite S2.
    + apply nil_ok_put. unfold nil_ok. rewrite S2. exact Hnil.
    + done.
  - eexists. split; [done|]. constructor; [done| |done|done].
    intros a Hne Hia. apply (restore_other d ps p t); [done|done|congruence|]. by apply R2.
Qed.

(** ** All inputs *)

(** The outputs an input list spends, with the inputs that record it. *)
Definition txSpends (inputs : list outpoint) (ins : list TxInput) : list (outpoint * TxInput) :=
  filter (fun e => ti_AddrDesc e.2 <> []) (zip inputs ins).

Definition blockSpends d (bts : list blockTxs) : list (outpoint * TxInput) :=
  concat (map (fun bt => match dbTx d (bt_btxID bt) with
                         | Some txa => txSpends (bt_inputs bt) (ta_Inputs txa)
                         | None => []
                         end) bts).

Definition spendPairs (l : list (outpoint * TxInput)) : list (bytes * Z) := map (fun e => opPair e.1) l.

Lemma disconnectIns_ok d btxID inputs ins :
  reads_ok d -> values_ok (dbTx d) -> forall k ps st,
  (k + length ins <= length inputs)%nat ->
  let l := txSpends (drop k inputs) ins in
  Forall (fun e => input_undo_ok d e.1 e.2) l -> NoDup (spendPairs l ++ ps) -> restore_inv d ps st ->
  exists st', rfold (disconnectInput d btxID inputs) (imap (fun i t => ((k + i)%nat, t)) ins) st = Ok st' /\
    restore_inv d (rev (spendPairs l) ++ ps) st'.
Proof.
  intros Hd HV. induction ins as [|t ins IH]; intros k ps st Hk l Hl Hnd Hinv.
  - exists st. split; [done|]. subst l. unfold txSpends. by rewrite zip_with_nil_r.
  - cbn [length] in Hk. destruct (lookup_lt_is_Some_2 inputs k ltac:(lia)) as [p Hp].
    subst l. unfold txSpends in *. rewrite (drop_S _ _ _ Hp) in *. cbn [zip_with] in *. rewrite filter_cons in *.
    cbn [imap rfold]. rewrite Nat.add_0_r. rewrite (imap_ext _ (fun i t => ((S k + i)%nat, t))) by (intros; cbn; by rewrite Nat.add_succ_r).
    destruct (decide (ti_AddrDesc (p, t).2 <> [])) as [Ha|Ha]; cbn [snd] in Ha.
    + apply Forall_cons in Hl as [H1 Hl]. cbn [spendPairs map app] in Hnd. apply NoDup_cons in Hnd as [Hn Hnd].
      destruct (disconnectInput_ok d ps btxID inputs k t p st) as (st1 & -> & Hinv1); try done.
      { intros Hin. apply Hn, elem_of_app. by right. }
      cbn [rbind]. destruct (IH (S k) (opPair p :: ps) st1) as (st' & Hst' & Hinv'); [lia|done| |done|].
      { rewrite <- Permutation_middle. by apply NoDup_cons. }
      exists st'. split; [exact Hst'|]. cbn [spendPairs map rev]. by rewrite <- app_assoc.
    + assert (ti_AddrDesc t = []) as Ha' by (destruct (ti_AddrDesc t); [done|by exfalso; apply Ha]).
      unfold disconnectInput at 1. rewrite Ha', zlen_nil. cbn [Z.eqb rbind]. apply (IH (S k)); [lia|done..].
Qed.

(** What the rows of a block must record so that it can be reversed. *)
Record undo_inputs_ok d (bts : list blockTxs) : Prop := {
  ui_len : Forall (fun bt => forall txa, dbTx d (bt_btxID bt) = Some txa ->
                               (length (ta_Inputs txa) <= length (bt_inputs bt))%nat) bts;
  ui_spent : Forall (fun e => input_undo_ok d e.1 e.2) (blockSpends d bts);
  ui_nodup : NoDup (spendPairs (blockSpends d bts));
}.

Lemma spendPairs_app l1 l2 : spendPairs (l1 ++ l2) = spendPairs l1 ++ spendPairs l2.
Proof. apply map_app. Qed.

Lemma disconnectInputs_ok d bts :
  reads_ok d -> values_ok (dbTx d) -> forall acc ps st,
  Forall (fun bt => forall txa, dbTx d (bt_btxID bt) = Some txa ->
                      (length (ta_Inputs txa) <= length (bt_inputs bt))%nat) bts ->
  Forall (fun e => input_undo_ok d e.1 e.2) (blockSpends d bts) ->
  NoDup (spendPairs (blockSpends d bts) ++ ps) -> restore_inv d ps st ->
  exists st', rfold (disconnectTxInputs d) bts (acc, st) = Ok (acc ++ map (fun bt => dbTx d (bt_btxID bt)) bts, st') /\
    restore_inv d (rev (spendPairs (blockSpends d bts)) ++ ps) st'.
Proof.
  intros Hd HV. induction bts as [|bt bts IH]; intros acc ps st Hlen Hsp Hnd Hinv.
  - exists st. by rewrite app_nil_r.
  - apply Forall_cons in Hlen as [Hl1 Hlen]. unfold blockSpends in *. cbn [map concat] in *.
    apply Forall_app in Hsp as [Hs1 Hsp]. rewrite spendPairs_app, <- app_assoc in Hnd.
    cbn [rfold]. unfold disconnectTxInputs at 1.
    destruct (reads_tx d Hd (bt_btxID bt)) as [o Ho].
    assert (dbTx d (bt_btxID bt) = o) as Hdb by (unfold dbTx; by rewrite Ho).
    rewrite Ho, Hdb in *. cbn [rbind]. destruct o as [txa|].
    + destruct (disconnectIns_ok d (bt_btxID bt) (bt_inputs bt) (ta_Inputs txa) Hd HV 0 ps st)
        as (st1 & Hst1 & Hinv1); [by apply Hl1|done| |done|].
      { rewrite (Permutation_app_comm (spendPairs (concat _))), app_assoc in Hnd.
        by apply NoDup_app in Hnd as (? & _). }
      rewrite drop_0 in Hinv1. unfold disconnectTxAddressesInputs. unfold enumerate.
      change (imap pair (ta_Inputs txa)) with (imap (fun i t => ((0 + i)%nat, t)) (ta_Inputs txa)).
      rewrite Hst1. cbn [rbind].
      destruct (IH (acc ++ [Some txa]) (rev (spendPairs (txSpends (bt_inputs bt) (ta_Inputs txa))) ++ ps) st1)
        as (st' & Hst' & Hinv'); [done|done| |done|].
      { rewrite <- (Permutation_rev (spendPairs (txSpends _ _))). rewrite app_assoc.
        rewrite (Permutation_app_comm (spendPairs (concat _)) (spendPairs (txSpends _ _))).
        by rewrite <- app_assoc. }
      exists st'. rewrite Hst', <- app_assoc. split; [done|].
      by rewrite spendPairs_app, rev_app_distr, <- app_assoc.
    + cbn [app spendPairs map rbind] in *. destruct (IH (acc ++ [None]) ps st) as (st' & Hst' & Hinv'); [done..|].
      exists st'. by rewrite Hst', <- app_assoc.
Qed.
End Restore.

(** ** Second pass: outputs are removed *)

Section Remove.
Context {V : Vlq} {P : ChainParser} {IX : IndexOpts} {K : KV} {W : AssetWire} {E : AssetEnv W}.
Implicit Types (d : DB K) (st : DiscState W) (tx : bytes -> option TxAddresses).

Record remove_inv d tx (m : gmap bytes TxAddresses) (gone : list (bytes * Z)) st : Prop := {
  mi_rows : ds_txs st = m;
  mi_bal a : a <> [] -> IsAddrDescIndexable a = true -> addr_ok (removed gone tx) a (dbalView d st a);
  mi_nil : nil_ok d st;
  mi_assets : is_Some (ast_assets (ds_assets st));
}.

(** Output [i] of transaction [t] is [o], and it is unspent when it has an address. *)
Definition output_at tx (t : bytes) (i : nat) (o : TxOutput) (h : Z) : Prop :=
  exists ta o', tx t = Some ta /\ ta_Height ta = h /\ ta_Outputs ta !! i = Some o' /\
    to_AddrDesc o' = to_AddrDesc o /\ to_ValueSat o' = to_ValueSat o /\ to_AssetInfo o' = to_AssetInfo o /\
    (to_AddrDesc o <> [] -> to_Spent o' = false).

Lemma owns_removed_at tx gone t i o h :
  output_at tx t i o h -> to_AddrDesc o <> [] -> (t, Z.of_nat i) ∉ gone ->
  owns (removed gone tx) (to_AddrDesc o) (utxo_of t h i o).
Proof.
  intros (ta & o' & Ht & Hh & Ho & Ha & Hv & Has & Hs) Hne Hn. unfold removed. rewrite owns_mapRows.
  exists t, ta, i, o'. rewrite decide_False by done. specialize (Hs Hne).
  split; [done|]. split; [done|]. split; [done|]. split; [done|]. unfold utxo_of. congruence.
Qed.

Lemma remove_other tx gone t i o h a b :
  output_at tx t i o h -> to_AddrDesc o <> a ->
  addr_ok (removed gone tx) a b -> addr_ok (removed ((t, Z.of_nat i) :: gone) tx) a b.
Proof.
  intros (ta & o' & Ht & Hh & Ho & Ha & _) Hne. apply addr_ok_other.
  - intros x. rewrite owns_removed_cons. split; [by intros [? _]|]. intros Hx. split; [done|].
    unfold removed in Hx. rewrite owns_mapRows in Hx. destruct Hx as (t1 & ta1 & i1 & o1 & E1 & E2 & E3 & E4 & ->).
    intros [= -> Ei%Nat2Z.inj]. subst i1. assert (ta1 = ta) as -> by congruence.
    assert (o1 = o') as -> by congruence. revert E3 E4. case_decide; [done|]. congruence.
  - intros t'. unfold removed. by rewrite !mapRows_dom.
Qed.

Lemma removeBalance_ok d tx gone t i o h st seen :
  reads_ok d -> values_ok tx -> output_at tx t i o h -> to_AddrDesc o <> [] -> (t, Z.of_nat i) ∉ gone ->
  Z.of_nat i < 2 ^ 31 ->
  let a := to_AddrDesc o in let b0 := dbalView d st a in
  addr_ok (removed gone tx) a b0 -> is_Some (ast_assets (ds_assets st)) ->
  let b1 := set_BalanceSat (floor0 (ab_BalanceSat (uncountTx seen b0) - to_ValueSat o)) (uncountTx seen b0) in
  exists b' st', disconnectAsset (fun ba ai exist_ => DisconnectAllocationOutput d a ba t ai exist_)
                   t (to_AssetInfo o) b1 st = Ok (b', st') /\
    ds_txs st' = ds_txs st /\ ds_balances st' = ds_balances st /\ ds_addrTxs st' = ds_addrTxs st /\
    is_Some (ast_assets (ds_assets st')) /\ ab_Txs b' = ab_Txs (uncountTx seen b0) /\
    addr_ok (removed ((t, Z.of_nat i) :: gone) tx) a (markUtxoAsSpent t (i32 (Z.of_nat i)) b').
Proof.
  intros Hd HV Hat Hne Hn Hi a b0 Hok Hr b1. destruct (uncountTx_fields seen b0) as (_ & C2 & C3 & C4 & C5).
  set (u := utxo_of t h i o).
  assert (owns (removed gone tx) a u) as Hu by (by apply owns_removed_at).
  pose proof (values_removed gone tx HV) as HV'.
  destruct (addr_ok_covers _ a b0 u Hok HV' Hu) as [Hcov Hcova].
  destruct (owned_value _ a u HV' Hu) as [Hv0 Hai]. cbn in Hcov, Hv0, Hai.
  destruct (disconnectAsset_ok (fun ba ai exist_ => DisconnectAllocationOutput d a ba t ai exist_) t
              (to_AssetInfo o) b1 st (fun v => - v) Hr) as (b' & st' & -> & S1 & S2 & S3 & S4 & B1 & B2 & B3 & B4 & B5);
    [|done|done|].
  { intros g v seen' ast ba Eai Hast ->. destruct (DisconnectAllocationOutput_ok d a (assetBalanceOf g b1) t
      (mkAssetInfo g (Some v)) v seen' ast (reads_assets d Hd) Hast eq_refl) as (ast' & ba' & -> & H1 & H2); [|by eauto].
    rewrite (assetBalanceOf_ext g b1 b0) by exact C4. specialize (Hcova g). cbn in Hcova. rewrite Eai in Hcova.
    cbn in Hcova. by rewrite decide_True in Hcova. }
  assert (ab_Utxos b' = ab_Utxos b0) as HU by (by rewrite B1).
  assert (utxos_ok b') as Hok' by (eapply utxos_ok_ext; [exact HU|by rewrite B2|]; exact (aok_utxos _ _ _ Hok)).
  rewrite i32_id by (unfold is_i32; lia).
  destruct (markLinear_split (u_BtxID u) (u_Vout u) (ab_Utxos b0)) as (us1 & u' & us2 & _ & _ & Hm).
  { exists u. split; [|done]. pose proof (proj2 (aok_live _ _ _ Hok u) Hu) as Hin.
    unfold live in Hin. by apply list_elem_of_filter in Hin as [_ ?]. }
  pose proof (markUtxoAsSpent_ok t (Z.of_nat i) b' Hok') as Hok3.
  assert (markUtxoAsSpent t (Z.of_nat i) b' = set_Utxos (us1 ++ set_Vout (-1) u' :: us2) (ab_utxosMap b') b') as Hmark
    by (rewrite markUtxoAsSpent_linear, HU by done; cbn in Hm; by rewrite Hm).
  exists b', st'. do 5 (split; [done|]). split; [by rewrite B4|]. rewrite Hmark in Hok3 |- *.
  eapply (addr_ok_debit (removed gone tx) _ a b0 _ u); [done| |done| |exact Hm|done|done| |].
  - intros x. rewrite owns_removed_cons. done.
  - intros t'. unfold removed. by rewrite !mapRows_dom.
  - cbn [ab_BalanceSat set_Utxos]. rewrite B3. cbn. rewrite C2. unfold floor0.
    destruct (Z.ltb_spec (ab_BalanceSat b0 - to_ValueSat o) 0); lia.
  - intros guid. rewrite (assetBalanceOf_ext guid _ b') by done. rewrite B5.
    rewrite (assetBalanceOf_ext guid b1 b0) by exact C4. cbn. lia.
Qed.

Definition output_undo_ok d tx (t : bytes) (i : nat) (o : TxOutput) : Prop :=
  (exists h, output_at tx t i o h) /\ Z.of_nat i < 2 ^ 31 /\
  (to_AddrDesc o <> [] -> IsAddrDescIndexable (to_AddrDesc o) = true -> has_balance d (to_AddrDesc o)).

Lemma disconnectOutput_ok d tx m gone t i o st :
  reads_ok d -> values_ok tx -> remove_inv d tx m gone st -> output_undo_ok d tx t i o -> (t, Z.of_nat i) ∉ gone ->
  exists st', disconnectOutput d t st (i, o) = Ok st' /\ remove_inv d tx m ((t, Z.of_nat i) :: gone) st'.
Proof.
  intros Hd HV Hinv ([h Hat] & Hi & Hb) Hn. unfold disconnectOutput.
  pose proof Hinv as [M1 M2 M3 M4].
  destruct (Z.eqb_spec (zlen (to_AddrDesc o)) 0) as [Ez|Ez].
  { apply zlen_0 in Ez. exists st. split; [done|]. constructor; [done| |done|done].
    intros a Ha Hia. apply (remove_other tx gone t i o h); [done|congruence|by apply M2]. }
  assert (to_AddrDesc o <> []) as Hne by (intros Hnil; by rewrite Hnil in Ez).
  pose proof (addressFoundInTx_fields (to_AddrDesc o) t st) as F.
  destruct (addressFoundInTx (to_AddrDesc o) t st) as [st1 seen]. cbn in F. destruct F as (F1 & F2 & F3).
  assert (forall a, dbalView d st1 a = dbalView d st a) as Hv1 by (intros a; unfold dbalView; by rewrite F2).
  assert (nil_ok d st1) as N1 by (unfold nil_ok; by rewrite F2).
  destruct (IsAddrDescIndexable (to_AddrDesc o)) eqn:Ei.
  - destruct (getAddressBalance_ok d (to_AddrDesc o) st1 Hd N1 (Hb Hne eq_refl)) as (mb & -> & Hbv & Hnil). cbn [rbind].
    destruct (removeBalance_ok d tx gone t i o h (dwith_balances mb st1) seen Hd HV Hat Hne Hn Hi)
      as (b' & st3 & Hok & S1 & S2 & _ & S4 & _ & Hadr); [rewrite Hbv, Hv1; by apply M2|cbn; by rewrite F3|].
    rewrite Hbv in Hok. rewrite Hok. cbn [rbind]. eexists. split; [done|]. constructor.
    + cbn. rewrite S1. cbn. by rewrite F1.
    + intros a Ha Hia. rewrite dbalView_put. case_decide as Ed; [by subst a|].
      replace (dbalView d st3 a) with (dbalView d st a);
        [apply (remove_other tx gone t i o h); [done|congruence|by apply M2]|].
      rewrite <- Hv1, <- Hbv. unfold dbalView. by rewrite S2.
    + apply nil_ok_put. unfold nil_ok. rewrite S2. exact Hnil.
    + done.
  - exists st1. split; [done|]. constructor; [by rewrite F1| |done|by rewrite F3].
    intros a Ha Hia. rewrite Hv1. apply (remove_other tx gone t i o h); [done|congruence|by apply M2].
Qed.

(** ** All outputs *)

Definition txOutputs (t : bytes) (os : list TxOutput) : list (bytes * Z) := imap (fun i _ => (t, Z.of_nat i)) os.

Lemma txOutputs_elem t os p : p ∈ txOutputs t os <-> exists i, (i < length os)%nat /\ p = (t, Z.of_nat i).
Proof.
  unfold txOutputs. rewrite elem_of_lookup_imap. split.
  - intros (i & o & -> & Ho). exists i. split; [by eapply lookup_lt_Some|done].
  - intros (i & Hi & ->). destruct (lookup_lt_is_Some_2 os i Hi) as [o Ho]. by exists i, o.
Qed.

Lemma disconnectOuts_ok d tx m gone t txa st :
  reads_ok d -> values_ok tx -> remove_inv d tx m gone st ->
  (forall i o, ta_Outputs txa !! i = Some o -> output_undo_ok d tx t i o) -> Forall (fun p => p.1 <> t) gone ->
  exists st' gone', disconnectTxAddressesOutputs d t txa st = Ok st' /\ remove_inv d tx m gone' st' /\
    forall p, p ∈ gone' <-> p ∈ gone \/ p ∈ txOutputs t (ta_Outputs txa).
Proof.
  intros Hd HV Hinv Ho Hg. unfold disconnectTxAddressesOutputs.
  destruct (rfold_total (disconnectOutput d t)
    (fun dn s => exists gone', remove_inv d tx m gone' s /\
       forall p, p ∈ gone' <-> p ∈ gone \/ exists i, (i < length dn)%nat /\ p = (t, Z.of_nat i))
    (enumerate (ta_Outputs txa)) st) as (st' & Hst' & gone' & H1 & H2).
  - exists gone. split; [done|]. intros p. split; [by left|]. intros [?|(i & Hi & _)]; [done|]. cbn in Hi. lia.
  - intros dn [i o] rest s1 He (g1 & Hg1 & Hp). apply enumerate_split in He as [-> Hl].
    destruct (disconnectOutput_ok d tx m g1 t (length dn) o s1) as (s2 & Hs2 & Hinv2); [done|done|done|by apply Ho| |].
    { rewrite Hp. intros [Hin|(i & Hi & [= Ei%Nat2Z.inj])]; [|lia].
      rewrite Forall_forall in Hg. by apply (Hg _ Hin). }
    exists s2. split; [done|]. eexists. split; [exact Hinv2|]. intros p. rewrite elem_of_cons, Hp, length_app. cbn [length].
    split; [intros [->|[?|(i & Hi & ->)]]|intros [?|(i & Hi & ->)]];
      [right; exists (length dn); split; [lia|done]|by left|right; exists i; split; [lia|done]|by right; left|].
    destruct (decide (i = length dn)) as [->|]; [by left|]. right. right. exists i. split; [lia|done].
  - exists st', gone'. split; [done|]. split; [done|]. intros p. rewrite H2, length_enumerate, txOutputs_elem. done.
Qed.

Lemma disconnectOutputs_ok d tx m bts :
  reads_ok d -> values_ok tx -> NoDup (map bt_btxID bts) ->
  (forall bt txa i o, bt ∈ bts -> dbTx d (bt_btxID bt) = Some txa -> ta_Outputs txa !! i = Some o ->
     output_undo_ok d tx (bt_btxID bt) i o) ->
  forall gone st, remove_inv d tx m gone st -> Forall (fun p => p.1 ∉ map bt_btxID bts) gone ->
  exists st' gone', rfold (disconnectTxOutputs d) (zip bts (map (fun bt => dbTx d (bt_btxID bt)) bts)) st = Ok st' /\
    remove_inv d tx m gone' st' /\
    forall p, p ∈ gone' <-> p ∈ gone \/
      exists bt txa, bt ∈ bts /\ dbTx d (bt_btxID bt) = Some txa /\ p ∈ txOutputs (bt_btxID bt) (ta_Outputs txa).
Proof.
  intros Hd HV. induction bts as [|bt bts IH]; intros Hnd Ho gone st Hinv Hg.
  - exists st, gone. split; [done|]. split; [done|]. intros p. split; [by left|].
    intros [?|(bt & _ & Hin & _)]; [done|by apply not_elem_of_nil in Hin].
  - cbn [map] in *. apply NoDup_cons in Hnd as [Hn Hnd]. cbn [zip_with rfold].
    assert (exists st1 gone1, disconnectTxOutputs d st (bt, dbTx d (bt_btxID bt)) = Ok st1 /\
              remove_inv d tx m gone1 st1 /\ forall p, p ∈ gone1 <-> p ∈ gone \/
                exists txa, dbTx d (bt_btxID bt) = Some txa /\ p ∈ txOutputs (bt_btxID bt) (ta_Outputs txa))
      as (st1 & gone1 & -> & Hinv1 & Hg1).
    { unfold disconnectTxOutputs. cbn [fst snd]. destruct (dbTx d (bt_btxID bt)) as [txa|] eqn:Et.
      - destruct (disconnectOuts_ok d tx m gone (bt_btxID bt) txa st Hd HV Hinv) as (st1 & g1 & H1 & H2 & H3).
        + intros i o Hio. apply (Ho bt txa i o); [left|done|done].
        + eapply Forall_impl; [exact Hg|]. intros p Hp Ep. apply Hp. rewrite Ep. left.
        + exists st1, g1. split; [done|]. split; [done|]. intros p. rewrite H3. naive_solver.
      - exists st, gone. split; [done|]. split; [done|]. naive_solver. }
    cbn [rbind]. destruct (IH Hnd) with (gone := gone1) (st := st1) as (st' & gone' & H1 & H2 & H3).
    + intros bt' txa i o Hbt. apply (Ho bt' txa i o). by right.
    + done.
    + apply Forall_forall. intros p [Hp|(txa & _ & Hp)]%Hg1.
      * rewrite Forall_forall in Hg. specialize (Hg _ Hp). set_solver.
      * apply txOutputs_elem in Hp as (i & _ & ->). done.
    + exists st', gone'. split; [done|]. split; [done|]. intros p. rewrite H3, Hg1. setoid_rewrite elem_of_cons.
      split; [intros [[?|(txa & ?)]|(bt' & txa & ?)]|intros [?|(bt' & txa & [->|?] & ?)]]; naive_solver.
Qed.

(** ** The block *)

(** The rows of a block record how to reverse it: every input tells the output it spent,
    that output is marked as spent, and the outputs of the block are unspent or spent
    within the block. *)
Record undo_ok d (bts : list blockTxs) : Prop := {
  uo_inputs : undo_inputs_ok d bts;
  uo_ids : NoDup (map bt_btxID bts);
  uo_outputs bt txa i o : bt ∈ bts -> dbTx d (bt_btxID bt) = Some txa -> ta_Outputs txa !! i = Some o ->
    Z.of_nat i < 2 ^ 31 /\
    (to_AddrDesc o <> [] -> to_Spent o = false \/ (bt_btxID bt, Z.of_nat i) ∈ spendPairs (blockSpends d bts)) /\
    (to_AddrDesc o <> [] -> IsAddrDescIndexable (to_AddrDesc o) = true -> has_balance d (to_AddrDesc o));
}.

(** The rows after the block is gone. *)
Definition rowsWithout d (bts : list blockTxs) (t : bytes) : option TxAddresses :=
  if decide (t ∈ map bt_btxID bts) then None
  else restored (spendPairs (blockSpends d bts)) (dbTx d) t.

Lemma restored_ext ps ps' tx t : (forall p, p ∈ ps <-> p ∈ ps') -> restored ps tx t = restored ps' tx t.
Proof.
  intros H. unfold restored, mapRows. destruct (tx t) as [ta|]; [|done]. cbn. f_equal. f_equal. apply imap_ext.
  intros i o _. by rewrite (decide_ext _ _ _ _ (H (t, Z.of_nat i))).
Qed.

Lemma owns_rowsWithout d bts gone a u :
  (forall p, p ∈ gone <-> exists bt txa, bt ∈ bts /\ dbTx d (bt_btxID bt) = Some txa /\
     p ∈ txOutputs (bt_btxID bt) (ta_Outputs txa)) ->
  owns (removed gone (restored (spendPairs (blockSpends d bts)) (dbTx d))) a u <-> owns (rowsWithout d bts) a u.
Proof.
  intros Hg. set (R := spendPairs (blockSpends d bts)). unfold removed. rewrite owns_mapRows. split.
  - intros (t & ta & i & o & H1 & H2 & H3 & H4 & ->). case_decide as Ed; [done|].
    exists t, ta, i, o. split; [|done]. unfold rowsWithout. rewrite decide_False; [done|].
    intros Hin. apply Ed, Hg. apply list_elem_of_fmap in Hin as (bt & -> & Hbt).
    apply mapRows_Some in H1 as (txa & Ht & ->). exists bt, txa. split; [done|]. split; [done|].
    apply txOutputs_elem. exists i. split; [|done]. apply lookup_lt_Some in H2. cbn [ta_Outputs set_Outputs] in H2. by rewrite length_imap in H2.
  - intros (t & ta & i & o & H1 & H2 & H3 & H4 & ->). unfold rowsWithout in H1.
    destruct (decide (t ∈ map bt_btxID bts)) as [|Hn]; [done|].
    exists t, ta, i, o. split; [done|]. split; [done|]. rewrite decide_False; [done|].
    intros (bt & txa & Hbt & _ & Hp)%Hg. apply txOutputs_elem in Hp as (j & _ & [= -> _]).
    apply Hn, list_elem_of_fmap. eauto.
Qed.

Lemma disconnectTxs_ok d cache bts :
  reads_ok d -> ledger_ok (dbTx d) (dbBal d) -> undo_ok d bts ->
  exists st gone, disconnectTxs d bts (initDisc cache) = Ok st /\
    (forall t, dtxView d st t = restored (spendPairs (blockSpends d bts)) (dbTx d) t) /\
    (forall a, a <> [] -> IsAddrDescIndexable a = true ->
       addr_ok (removed gone (restored (spendPairs (blockSpends d bts)) (dbTx d))) a (dbalView d st a)) /\
    (forall a u, owns (removed gone (restored (spendPairs (blockSpends d bts)) (dbTx d))) a u <->
                 owns (rowsWithout d bts) a u) /\
    nil_ok d st /\ is_Some (ast_assets (ds_assets st)).
Proof.
  intros Hd [HL HV] [[U1 U2 U3] U4 U5]. unfold disconnectTxs. set (R := spendPairs (blockSpends d bts)) in *.
  destruct (disconnectInputs_ok d bts Hd HV [] [] (initDisc cache) U1 U2) as (st1 & -> & I1).
  { by rewrite app_nil_r. }
  { constructor; [by intros t; rewrite restored_nil| |done|by eexists]. intros a Ha Hia.
    eapply addr_ok_ext; [|by apply HL]. intros t. by rewrite restored_nil. }
  cbn [rbind app]. rewrite app_nil_r in I1.
  assert (forall t, restored (rev R) (dbTx d) t = restored R (dbTx d) t) as Hrev.
  { intros t. apply restored_ext. intros p. by rewrite <- Permutation_rev. }
  destruct I1 as [I1 I2 I3 I4].
  destruct (disconnectOutputs_ok d (restored R (dbTx d)) (ds_txs st1) bts Hd (values_restored R _ HV) U4)
    with (gone := @nil (bytes * Z)) (st := st1) as (st2 & gone & H1 & [M1 M2 M3 M4] & H3).
  - intros bt txa i o Hbt Ht Ho. destruct (U5 bt txa i o Hbt Ht Ho) as (Hi & Hs & Hb). split; [|done].
    exists (ta_Height txa), (set_Outputs (imap (fun i o => if decide ((bt_btxID bt, Z.of_nat i) ∈ R) then unspend o else o)
              (ta_Outputs txa)) txa), (if decide ((bt_btxID bt, Z.of_nat i) ∈ R) then unspend o else o).
    split; [apply mapRows_Some; eauto|]. split; [done|]. cbn [ta_Outputs set_Outputs]. rewrite list_lookup_imap, Ho.
    split; [done|]. case_decide as Ed; (split; [done|]); (split; [done|]); (split; [done|]); [done|].
    intros Ha. by destruct (Hs Ha).
  - constructor; [done| |done|done]. intros a Ha Hia. eapply addr_ok_ext; [|by apply I2].
    intros t. by rewrite removed_nil, Hrev.
  - by apply Forall_nil_2.
  - exists st2, gone. split; [done|]. split; [|split; [done|split; [|done]]].
    + intros t. rewrite <- Hrev, <- I1. unfold dtxView. by rewrite M1.
    + intros a u. apply owns_rowsWithout. intros p. rewrite H3, elem_of_nil. tauto.
Qed.
End Remove.
