(* ===== verification/DisconnectStore.v ===== *)
(** What [disconnectBlock] leaves in the database: the balances that are stored, the
    transaction counters, the batch, and the rows read back. *)

From S2P Require Import Prelude Codec Parser Golomb TxAddr Balance IndexCodec Store Scan Assets Connect Ledger ConnectCorrect ConnectIndex BlockRows ConnectStore Disconnect DisconnectCorrect.

Local Open Scope Z_scope.

(** ** The stable sort by height *)

Definition byHeight (u v : Utxo) : Prop := u_Height u <= u_Height v.

Lemma insertByHeight_split u us :
  StronglySorted byHeight us ->
  exists us1 us2, us = us1 ++ us2 /\ insertByHeight u us = us1 ++ u :: us2 /\
    Forall (fun x => u_Height x < u_Height u) us1 /\ Forall (fun x => u_Height u <= u_Height x) us2.
Proof.
  induction 1 as [|x us Hs IH Hx]; [by exists [], []|]. cbn [insertByHeight].
  destruct (Z.leb_spec (u_Height u) (u_Height x)) as [Hle|Hlt].
  - exists [], (x :: us). split; [done|]. split; [done|]. split; [done|]. constructor; [done|].
    eapply Forall_impl; [exact Hx|]. unfold byHeight. intros y ?. cbn in *. lia.
  - destruct IH as (us1 & us2 & -> & -> & H1 & H2). exists (x :: us1), us2. do 2 (split; [done|]). split; [|done].
    by constructor.
Qed.

Lemma sortByHeight_perm us : sortByHeight us ≡ₚ us.
Proof.
  induction us as [|u us IH]; [done|]. cbn [sortByHeight foldr]. change (foldr insertByHeight [] us) with (sortByHeight us).
  rewrite <- IH at 2. generalize (sortByHeight us) as l. clear. induction l as [|x l IH]; [done|]. cbn [insertByHeight].
  case_match; [done|]. rewrite IH. apply perm_swap.
Qed.

Lemma sortByHeight_sorted us : StronglySorted byHeight (sortByHeight us).
Proof.
  induction us as [|u us IH]; [constructor|]. cbn [sortByHeight foldr]. fold (sortByHeight us).
  destruct (insertByHeight_split u (sortByHeight us) IH) as (us1 & us2 & E1 & -> & H1 & H2).
  rewrite E1 in IH. clear E1. induction us1 as [|x us1 IHl]; cbn [app] in *.
  - constructor; [done|]. eapply Forall_impl; [exact H2|]. done.
  - apply StronglySorted_inv in IH as [IH Hx]. apply Forall_cons in H1 as [Hxu H1]. constructor; [by apply IHl|].
    apply Forall_app in Hx as [Hx1 Hx2]. apply Forall_app. split; [done|]. constructor; [|done]. unfold byHeight. lia.
Qed.

(** Outputs of equal height keep their order. *)
Lemma sortByHeight_stable h us :
  filter (fun x => u_Height x = h) (sortByHeight us) = filter (fun x => u_Height x = h) us.
Proof.
  induction us as [|u us IH]; [done|]. cbn [sortByHeight foldr]. fold (sortByHeight us).
  destruct (insertByHeight_split u (sortByHeight us) (sortByHeight_sorted us)) as (us1 & us2 & E1 & -> & H1 & _).
  rewrite filter_cons, <- IH, E1, !filter_app, filter_cons. case_decide as Eu; [|done].
  assert (filter (fun x => u_Height x = h) us1 = []) as ->; [|done].
  clear -H1 Eu. induction H1 as [|x us1 Hx _ IH]; [done|]. rewrite filter_cons, decide_False by lia. done.
Qed.

Lemma grouped_app a b : grouped a -> grouped b -> (forall x, x ∈ a -> x ∉ b) -> grouped (a ++ b).
Proof.
  induction a as [|x a IH]; [done|]. cbn [app grouped]. intros [Hx Ha] Hb Hd. split.
  - destruct Hx as [Hx|Hx]; [left|right].
    + rewrite elem_of_app. intros [?|?]; [done|]. apply (Hd x); [left|done].
    + by destruct a.
  - apply IH; [done|done|]. intros y Hy. apply Hd. by right.
Qed.

(** Sorting keeps the outputs of a transaction together. *)
Lemma sortByHeight_grouped us :
  (forall u v, u ∈ us -> v ∈ us -> u_BtxID u = u_BtxID v -> u_Height u = u_Height v) ->
  grouped (ids us) -> grouped (ids (sortByHeight us)).
Proof.
  induction us as [|u us IH]; [done|]. intros Hc [Hu Hg]. cbn [sortByHeight foldr]. fold (sortByHeight us).
  assert (grouped (ids (sortByHeight us))) as Hs by (apply IH; [intros; apply Hc; (by right) || done|done]).
  destruct (insertByHeight_split u (sortByHeight us) (sortByHeight_sorted us)) as (us1 & us2 & E1 & -> & H1 & H2).
  assert (forall x, x ∈ us1 ++ us2 <-> x ∈ us) as Hin by (intros x; by rewrite <- E1, (sortByHeight_perm us)).
  assert (forall x y, x ∈ us1 -> y ∈ u :: us2 -> u_BtxID x <> u_BtxID y) as Hdis.
  { intros x y Hx Hy Exy. rewrite Forall_forall in H1, H2. pose proof (H1 x Hx).
    assert (u_Height x = u_Height y); [|apply elem_of_cons in Hy as [->|Hy]; [lia|pose proof (H2 y Hy); lia]].
    apply Hc; [right; apply Hin; set_solver| |done]. apply elem_of_cons in Hy as [->|Hy]; [left|right; apply Hin; set_solver]. }
  assert (grouped (ids us1) /\ grouped (ids us2)) as [Hg1 Hg2].
  { rewrite E1 in Hs. unfold ids in *. rewrite map_app in Hs. split; (eapply grouped_sublist; [|exact Hs]);
      [apply sublist_inserts_r|apply sublist_inserts_l]; done. }
  unfold ids. rewrite map_app. apply grouped_app; [done| |].
  - cbn [map grouped]. split; [|done].
    destruct (decide (u_BtxID u ∈ map u_BtxID us2)) as [Hin2|]; [right|by left].
    (* an output of the transaction was there: it is the first of its height *)
    assert (u_BtxID u ∈ ids us) as Hiu.
    { apply list_elem_of_fmap in Hin2 as (v & -> & Hv). apply list_elem_of_fmap. exists v. split; [done|]. apply Hin. set_solver. }
    destruct Hu as [Hu|Hu]; [done|]. destruct us as [|v us']; [done|]. cbn in Hu. injection Hu as Hu.
    assert (u_Height v = u_Height u) as Hvu by (apply Hc; [right; left|left|done]).
    pose proof (sortByHeight_stable (u_Height u) (v :: us')) as Hst. rewrite E1, filter_app in Hst.
    assert (filter (fun x => u_Height x = u_Height u) us1 = []) as Hnil.
    { clear -H1. induction H1 as [|x us1 Hx _ IH]; [done|]. rewrite filter_cons, decide_False by lia. done. }
    rewrite Hnil, (filter_cons _ v), decide_True in Hst by done. cbn [app] in Hst.
    pose proof (sortByHeight_sorted (v :: us')) as Hsrt. rewrite E1 in Hsrt.
    destruct us2 as [|w us2]; [done|]. cbn. rewrite filter_cons in Hst. case_decide as Ew; [by injection Hst as -> _; rewrite Hu|].
    exfalso. assert (v ∈ w :: us2) as Hvw.
    { right. assert (v ∈ filter (fun x => u_Height x = u_Height u) us2) as Hv by (rewrite Hst; left).
      by apply list_elem_of_filter in Hv as [_ ?]. }
    apply Forall_cons in H2 as [Hw _]. apply elem_of_cons in Hvw as [->|Hvw]; [done|].
    assert (StronglySorted byHeight (w :: us2)) as Hsw.
    { clear -Hsrt. induction us1 as [|x us1 IH]; [done|]. cbn [app] in Hsrt. apply StronglySorted_inv in Hsrt as [? _]. auto. }
    apply StronglySorted_inv in Hsw as [_ Hsw]. rewrite Forall_forall in Hsw. pose proof (Hsw v Hvw) as Hle.
    unfold byHeight in Hle. lia.
  - intros x Hx1 Hx2. apply list_elem_of_fmap in Hx1 as (y & -> & Hy).
    change (u_BtxID u :: map u_BtxID us2) with (map u_BtxID (u :: us2)) in Hx2.
    apply list_elem_of_fmap in Hx2 as (z & Ez & Hz). by apply (Hdis y z).
Qed.

(** ** Stored balances *)

Section Trim.
Context {V : Vlq} {VL : VlqLaws V} {P : ChainParser} {IX : IndexOpts}.

Lemma live_sort us : live (sortByHeight (live us)) = sortByHeight (live us).
Proof.
  unfold live at 1. apply filter_all. intros u Hu.
  rewrite sortByHeight_perm in Hu. by apply list_elem_of_filter in Hu as [? _].
Qed.

(** A balance agrees with the rows without the block when it is trimmed and stored. *)
Lemma trimmed_addr_ok tx tx' a ab :
  values_ok tx' -> (forall u, owns tx a u <-> owns tx' a u) ->
  addr_ok tx a ab -> addr_ok tx' a (keptBalance addressBalanceDetailUTXOIndexed (trimBalance ab)).
Proof.
  intros HV Ho [H1 H2 H3 H4 [H5 _] H6].
  change (keptBalance addressBalanceDetailUTXOIndexed (trimBalance ab)) with
    (keptBalance addressBalanceDetailUTXOIndexed (set_Utxos (sortByHeight (live (ab_Utxos ab))) ∅ ab)).
  apply keptBalance_addr_ok; [done|].
  constructor; cbn [ab_Utxos ab_BalanceSat set_Utxos]; rewrite ?live_sort.
  - intros u. by rewrite sortByHeight_perm, H1, Ho.
  - by rewrite sortByHeight_perm.
  - by rewrite sortByHeight_perm.
  - intros guid. etransitivity; [exact (H4 guid)|]. by rewrite sortByHeight_perm.
  - split; [|by left]. cbn [ab_Utxos set_Utxos]. apply sortByHeight_grouped; [|by apply grouped_live].
    intros u v (t & ta & i & o & E1 & E2 & _ & _ & ->)%H1 (t' & ta' & i' & o' & E1' & E2' & _ & _ & ->)%H1.
    cbn. intros <-. congruence.
  - intros id Hid. apply list_elem_of_fmap in Hid as (u & -> & Hu). rewrite sortByHeight_perm in Hu.
    apply H1, Ho in Hu as (t & ta & i & o & E1 & _ & _ & _ & ->). by exists ta.
Qed.
End Trim.

(** ** Transaction counters *)

Section Count.
Context {V : Vlq} {P : ChainParser} {IX : IndexOpts} {K : KV} {W : AssetWire} {E : AssetEnv W}.
Implicit Types (d : DB K) (st : DiscState W).

Definition metIn st (a : bytes) : gset bytes := default ∅ (ds_addrTxs st !! a).

(** The counter of a loaded balance is the stored one less the transactions met. *)
Definition uncounted_ok d st : Prop :=
  forall a, IsAddrDescIndexable a = true ->
    match ds_balances st !! a with
    | Some (Some b) => ab_Txs b = u32 (ab_Txs (dbBal d a) - Z.of_nat (size (metIn st a)))
    | Some None => True
    | None => ds_addrTxs st !! a = None
    end.

Lemma u32_sub_1 x y : u32 (u32 x - y) = u32 (x - y).
Proof. unfold u32. apply Zminus_mod_idemp_l. Qed.


Lemma foundIn_spec a t st :
  let '(st', seen) := addressFoundInTx a t st in
  ds_balances st' = ds_balances st /\ seen = bool_decide (t ∈ metIn st a) /\
  (forall a', metIn st' a' = if decide (a' = a) then {[t]} ∪ metIn st a else metIn st a') /\
  (forall a', a' <> a -> ds_addrTxs st' !! a' = ds_addrTxs st !! a').
Proof.
  unfold addressFoundInTx, foundIn, metIn. destruct (ds_addrTxs st !! a) as [s|] eqn:Es; cbn.
  - split; [done|]. split; [done|]. split; intros a'; [case_decide as Ed; [subst a'; by rewrite lookup_insert_eq|]|intros Hne];
      by rewrite lookup_insert_ne.
  - split; [done|]. split; [by rewrite bool_decide_eq_false_2 by apply not_elem_of_empty|].
    split; intros a'; [case_decide as Ed; [subst a'; rewrite lookup_insert_eq; cbn; set_solver|]|intros Hne];
      by rewrite lookup_insert_ne.
Qed.

(** After the address was met in [t], and its balance uncounted if it was not met before. *)
Lemma uncounted_step d a t st st1 seen st2 b b' :
  IsAddrDescIndexable a = true -> uncounted_ok d st -> addressFoundInTx a t st = (st1, seen) ->
  getAddressBalance d a st1 = Ok (Some b, st2) -> ab_Txs b' = ab_Txs (uncountTx seen b) ->
  uncounted_ok d (dputBalance a b' st2) /\ ds_addrTxs st2 = ds_addrTxs st1.
Proof.
  intros Hia Hu Hf Hg Hb. pose proof (foundIn_spec a t st) as Hs. rewrite Hf in Hs. destruct Hs as (S1 & S2 & S3 & S4).
  assert (ds_addrTxs st2 = ds_addrTxs st1 /\ ab_Txs b = u32 (ab_Txs (dbBal d a) - Z.of_nat (size (metIn st a))) /\
          (forall a', a' <> a -> ds_balances st2 !! a' = ds_balances st1 !! a')) as (A1 & A2 & A3).
  { unfold getAddressBalance in Hg. specialize (Hu a Hia). rewrite S1 in Hg. destruct (ds_balances st !! a) as [ob|] eqn:Eb.
    - injection Hg as -> <-. done.
    - apply rbind_Ok in Hg as (ob & Hob & Hg). injection Hg as -> <-. split; [done|]. split.
      + unfold metIn. rewrite Hu. cbn. unfold dbBal. rewrite Hob. pose proof (dbBal_u32 d a) as Hr.
        unfold dbBal in Hr. rewrite Hob in Hr. rewrite size_empty, Z.sub_0_r. by rewrite u32_id.
      + intros a' Hne. cbn. rewrite <- S1. by rewrite lookup_insert_ne. }
  split; [|done]. intros a' Hia'. unfold dputBalance. cbn [ds_balances dwith_balances].
  destruct (decide (a' = a)) as [->|Hne].
  - rewrite lookup_insert_eq, Hb. unfold metIn. cbn [ds_addrTxs dwith_balances]. rewrite A1. fold (metIn st1 a).
    rewrite S3, decide_True by done. unfold uncountTx. rewrite S2. case_bool_decide as Hin.
    + rewrite A2. f_equal. f_equal. f_equal. f_equal. set_solver.
    + cbn [ab_Txs set_Txs]. rewrite A2, u32_sub_1. f_equal. rewrite size_union by set_solver. rewrite size_singleton. lia.
  - rewrite lookup_insert_ne, A3, S1 by done. specialize (Hu a' Hia'). unfold metIn. cbn [ds_addrTxs dwith_balances]. rewrite A1.
    fold (metIn st1 a'). rewrite S4 by done. rewrite S3, decide_False by done. exact Hu.
Qed.

(** The same when the balance is nil, or the address is not indexed. *)
Lemma uncounted_nil d a t st st1 seen st2 :
  uncounted_ok d st -> addressFoundInTx a t st = (st1, seen) ->
  getAddressBalance d a st1 = Ok (None, st2) -> uncounted_ok d st2 /\ ds_addrTxs st2 = ds_addrTxs st1.
Proof.
  intros Hu Hf Hg. pose proof (foundIn_spec a t st) as Hs. rewrite Hf in Hs. destruct Hs as (S1 & _ & S3 & S4).
  assert (ds_addrTxs st2 = ds_addrTxs st1 /\ ds_balances st2 !! a = Some None /\
          (forall a', a' <> a -> ds_balances st2 !! a' = ds_balances st1 !! a')) as (A1 & A2 & A3).
  { unfold getAddressBalance in Hg. destruct (ds_balances st1 !! a) as [ob|] eqn:Eb; [by injection Hg as -> <-|].
    apply rbind_Ok in Hg as (ob & Hob & Hg). injection Hg as -> <-. split; [done|]. cbn.
    split; [by rewrite lookup_insert_eq|]. intros a' Hne. by rewrite lookup_insert_ne. }
  split; [|done]. intros a' Hia'. destruct (decide (a' = a)) as [->|Hne]; [by rewrite A2|].
  rewrite A3, S1 by done. specialize (Hu a' Hia'). unfold metIn in *. rewrite A1. rewrite S4 by done. exact Hu.
Qed.

Lemma uncounted_other d a t st st1 seen :
  uncounted_ok d st -> addressFoundInTx a t st = (st1, seen) -> IsAddrDescIndexable a = false -> uncounted_ok d st1.
Proof.
  intros Hu Hf Hia. pose proof (foundIn_spec a t st) as Hs. rewrite Hf in Hs. destruct Hs as (S1 & _ & S3 & S4).
  intros a' Hia'. rewrite S1. specialize (Hu a' Hia'). unfold metIn in *. by rewrite S4 by congruence.
Qed.

Lemma disconnectAsset_frame f btxID ai b st b' st' :
  disconnectAsset f btxID ai b st = Ok (b', st') ->
  ds_balances st' = ds_balances st /\ ds_addrTxs st' = ds_addrTxs st /\ ab_Txs b' = ab_Txs b.
Proof.
  destruct ai as [ai|]; cbn [disconnectAsset]; [|by intros [= <- <-]].
  unfold assetFoundInTx. destruct (foundIn _ _ _) as [m seen]. intros H.
  apply rbind_Ok in H as ([ast ba] & _ & [= <- <-]). done.
Qed.

Lemma getTxToUpdate_frame d t st o st' :
  getTxToUpdate d t st = Ok (o, st') -> ds_balances st' = ds_balances st /\ ds_addrTxs st' = ds_addrTxs st.
Proof.
  unfold getTxToUpdate. case_match; [by intros [= _ <-]|]. intros G. apply rbind_Ok in G as (sa & _ & G).
  destruct sa; by injection G as _ <-.
Qed.

Lemma unspendOutput_frame sa p st h st' :
  unspendOutput sa p st = Ok (h, st') -> ds_balances st' = ds_balances st /\ ds_addrTxs st' = ds_addrTxs st.
Proof. unfold unspendOutput. repeat case_match; try done; by intros [= _ <-]. Qed.

Lemma uncounted_ext d st st' :
  ds_balances st' = ds_balances st -> ds_addrTxs st' = ds_addrTxs st -> uncounted_ok d st -> uncounted_ok d st'.
Proof. intros H1 H2 Hu a Hia. specialize (Hu a Hia). unfold metIn. by rewrite H1, H2. Qed.

(** Only transactions of the block that involve the address are met. *)
Definition rowAddrs (ta : TxAddresses) : list bytes :=
  map ti_AddrDesc (ta_Inputs ta) ++ map to_AddrDesc (ta_Outputs ta).
Definition touchesRow (a : bytes) (ta : TxAddresses) : Prop := a ∈ rowAddrs ta.

Definition met_ok d (bts : list blockTxs) st : Prop :=
  forall a t, t ∈ metIn st a -> t ∈ map bt_btxID bts /\ exists ta, dbTx d t = Some ta /\ touchesRow a ta.

Definition count_inv d bts st : Prop := uncounted_ok d st /\ met_ok d bts st.

Lemma met_ok_step d bts a t st st1 seen st2 ta :
  met_ok d bts st -> addressFoundInTx a t st = (st1, seen) -> ds_addrTxs st2 = ds_addrTxs st1 ->
  t ∈ map bt_btxID bts -> dbTx d t = Some ta -> touchesRow a ta -> met_ok d bts st2.
Proof.
  intros Hm Hf Ha Ht Hta Hto a' t'. pose proof (foundIn_spec a t st) as Hs. rewrite Hf in Hs. destruct Hs as (_ & _ & S3 & _).
  unfold metIn at 1. rewrite Ha. fold (metIn st1 a'). rewrite S3. case_decide as Ed; [subst a'|apply Hm].
  rewrite elem_of_union, elem_of_singleton. intros [->|Hin]; [|by apply Hm]. split; [done|by exists ta].
Qed.

Lemma disconnectInput_count d bts t inputs txa i x st st' :
  count_inv d bts st -> t ∈ map bt_btxID bts -> dbTx d t = Some txa -> ta_Inputs txa !! i = Some x ->
  disconnectInput d t inputs st (i, x) = Ok st' -> count_inv d bts st'.
Proof.
  intros [Hu Hm] Ht Hta Hx. unfold disconnectInput. case_match; [by intros [= <-]|]. case_match; [|done].
  assert (touchesRow (ti_AddrDesc x) txa) as Hto.
  { apply elem_of_app. left. apply list_elem_of_fmap. exists x. split; [done|]. by eapply list_elem_of_lookup_2. }
  destruct (addressFoundInTx (ti_AddrDesc x) t st) as [st1 seen] eqn:Ef. intros H1.
  apply rbind_Ok in H1 as ([sa st2] & G1 & H1). apply getTxToUpdate_frame in G1 as [F1 F2].
  apply rbind_Ok in H1 as ([h st3] & G2 & H1). apply unspendOutput_frame in G2 as [F3 F4].
  assert (forall st4, ds_addrTxs st4 = ds_addrTxs st1 -> met_ok d bts st4) as Hmet by (intros; by eapply met_ok_step).
  destruct (IsAddrDescIndexable (ti_AddrDesc x)) eqn:Ei.
  - apply rbind_Ok in H1 as ([ob st4] & G3 & H1).
    assert (exists st4', getAddressBalance d (ti_AddrDesc x) st1 = Ok (ob, st4') /\
              ds_balances st4 = ds_balances st4' /\ ds_addrTxs st4 = ds_addrTxs st4') as (st4' & G3' & F5 & F6).
    { unfold getAddressBalance in *. rewrite F3, F1 in G3. destruct (ds_balances st1 !! ti_AddrDesc x) as [b|].
      - injection G3 as <- <-. exists st1. split; [done|]. split; congruence.
      - apply rbind_Ok in G3 as (b & -> & [= <- <-]). eexists. split; [done|]. cbn. split; congruence. }
    destruct ob as [b|].
    + apply rbind_Ok in H1 as ([b' st5] & G4 & [= <-]). apply disconnectAsset_frame in G4 as (F7 & F8 & F9).
      destruct (uncounted_step d (ti_AddrDesc x) t st st1 seen st4' b b' Ei Hu Ef G3') as [U1 U2].
      { rewrite F9. by destruct (addUtxoInDisconnect_fields (mkUtxo (op_btxID o) (op_index o) h (ti_ValueSat x) (ti_AssetInfo x))
          (set_BalanceSat (ab_BalanceSat (set_SentSat (floor0 (ab_SentSat (uncountTx seen b) - ti_ValueSat x)) (uncountTx seen b))
             + ti_ValueSat x) (set_SentSat (floor0 (ab_SentSat (uncountTx seen b) - ti_ValueSat x)) (uncountTx seen b)))) as (-> & _). }
      split; [|apply Hmet; cbn; congruence]. eapply uncounted_ext; [| |exact U1]; cbn; congruence.
    + injection H1 as <-. destruct (uncounted_nil d _ t st st1 seen st4' Hu Ef G3') as [U1 U2].
      split; [|apply Hmet; congruence]. by eapply uncounted_ext; [| |exact U1].
  - injection H1 as <-. split; [|apply Hmet; congruence].
    eapply uncounted_ext; [| |by eapply uncounted_other]; congruence.
Qed.

Lemma disconnectOutput_count d bts t txa i x st st' :
  count_inv d bts st -> t ∈ map bt_btxID bts -> dbTx d t = Some txa -> ta_Outputs txa !! i = Some x ->
  disconnectOutput d t st (i, x) = Ok st' -> count_inv d bts st'.
Proof.
  intros [Hu Hm] Ht Hta Hx. unfold disconnectOutput. case_match; [by intros [= <-]|].
  assert (touchesRow (to_AddrDesc x) txa) as Hto.
  { apply elem_of_app. right. apply list_elem_of_fmap. exists x. split; [done|]. by eapply list_elem_of_lookup_2. }
  destruct (addressFoundInTx (to_AddrDesc x) t st) as [st1 seen] eqn:Ef.
  assert (forall st4, ds_addrTxs st4 = ds_addrTxs st1 -> met_ok d bts st4) as Hmet by (intros; by eapply met_ok_step).
  destruct (IsAddrDescIndexable (to_AddrDesc x)) eqn:Ei.
  - intros H1. apply rbind_Ok in H1 as ([[b|] st4] & G3 & H1).
    + apply rbind_Ok in H1 as ([b' st5] & G4 & [= <-]). apply disconnectAsset_frame in G4 as (F7 & F8 & F9).
      destruct (uncounted_step d (to_AddrDesc x) t st st1 seen st4 b (markUtxoAsSpent t (i32 (Z.of_nat i)) b') Ei Hu Ef G3)
        as [U1 U2].
      { destruct (markUtxoAsSpent_fields t (i32 (Z.of_nat i)) b') as (-> & _). by rewrite F9. }
      split; [|apply Hmet; cbn; congruence]. eapply uncounted_ext; [| |exact U1]; cbn; congruence.
    + injection H1 as <-. destruct (uncounted_nil d _ t st st1 seen st4 Hu Ef G3) as [U1 U2]. split; [done|by apply Hmet].
  - intros [= <-]. split; [by eapply uncounted_other|by apply Hmet].
Qed.

Lemma disconnectTxs_count d cache bts st :
  disconnectTxs d bts (initDisc cache) = Ok st -> count_inv d bts st.
Proof.
  intros H. unfold disconnectTxs in H. apply rbind_Ok in H as ([txs st1] & H1 & H2).
  assert (count_inv d bts st1 /\ txs = map (fun bt => dbTx d (bt_btxID bt)) bts) as [Hc ->].
  { revert H1. apply (rfold_inv (disconnectTxInputs d)
      (fun dn s => count_inv d bts s.2 /\ s.1 = map (fun bt => dbTx d (bt_btxID bt)) dn)).
    - split; [|done]. split; [done|]. intros a t Hin. by apply not_elem_of_empty in Hin.
    - intros dn bt rest [acc s1] [acc2 s2] -> [Hc Ha] Hs. cbn in *. subst acc. unfold disconnectTxInputs in Hs.
      apply rbind_Ok in Hs as (txa & Hg & Hs).
      assert (dbTx d (bt_btxID bt) = txa) as Hdb by (unfold dbTx; by rewrite Hg).
      assert (bt_btxID bt ∈ map bt_btxID (dn ++ bt :: rest)) as Hin by (apply list_elem_of_fmap; exists bt; set_solver).
      rewrite map_app. cbn [map]. rewrite Hdb. destruct txa as [txa|]; [|by injection Hs as <- <-].
      apply rbind_Ok in Hs as (s3 & Hs & [= <- <-]). split; [|done]. revert Hs. unfold disconnectTxAddressesInputs.
      apply (rfold_inv (disconnectInput d (bt_btxID bt) (bt_inputs bt)) (fun _ s => count_inv d (dn ++ bt :: rest) s)); [done|].
      intros dn' [i x] rest' s4 s5 He Hc4 Hs5. apply enumerate_split in He as [-> Hx]. by eapply disconnectInput_count. }
  revert H2. apply (rfold_inv (disconnectTxOutputs d) (fun _ s => count_inv d bts s)); [done|].
  intros dn [bt o] rest s1 s2 He Hc1 Hs. unfold disconnectTxOutputs in Hs. cbn in Hs.
  assert ((bt, o) ∈ zip bts (map (fun bt => dbTx d (bt_btxID bt)) bts)) as Hin by (rewrite He; set_solver).
  apply elem_of_zip_with in Hin as (bt' & o' & [= <- <-] & Hbt & Ho).
  destruct o as [txa|]; [|by injection Hs as <-].
  assert (dbTx d (bt_btxID bt) = Some txa) as Hdb.
  { assert (zip bts (map (fun bt => dbTx d (bt_btxID bt)) bts) !! length dn = Some (bt, Some txa)) as Hl
      by (rewrite He; by apply list_lookup_middle).
    apply lookup_zip_with_Some in Hl as (x & y & [= -> ->] & L1 & L2).
    change (map ?f bts) with (f <$> bts) in L2. rewrite list_lookup_fmap, L1 in L2. by injection L2. }
  assert (bt_btxID bt ∈ map bt_btxID bts) as Hid by (apply list_elem_of_fmap; eauto).
  revert Hs. unfold disconnectTxAddressesOutputs.
  apply (rfold_inv (disconnectOutput d (bt_btxID bt)) (fun _ s => count_inv d bts s)); [done|].
  intros dn' [i x] rest' s4 s5 He' Hc4 Hs5. apply enumerate_split in He' as [-> Hx]. by eapply disconnectOutput_count.
Qed.

(** The addresses of a block still have their counted transactions. *)
Definition touched d (bts : list blockTxs) (a : bytes) : list bytes :=
  filter (fun t => a ∈ default [] (rowAddrs <$> dbTx d t)) (map bt_btxID bts).

Lemma metIn_touched d bts st a : met_ok d bts st -> Z.of_nat (size (metIn st a)) <= zlen (touched d bts a).
Proof.
  intros Hm. unfold zlen. apply Nat2Z.inj_le. unfold size, set_size. cbn. apply submseteq_length, NoDup_submseteq; [apply NoDup_elements|].
  intros t Ht%elem_of_elements. apply Hm in Ht as (Hid & ta & Hta & Hto). unfold touched. apply list_elem_of_filter.
  split; [|done]. rewrite Hta. exact Hto.
Qed.

(** No more transactions of an address than its counter says are in the block, and if they
    are all in the block then no output outside of it pays the address. *)
Definition counters_ok d (bts : list blockTxs) : Prop :=
  forall a, a <> [] -> IsAddrDescIndexable a = true ->
    zlen (touched d bts a) <= ab_Txs (dbBal d a) /\
    (zlen (touched d bts a) = ab_Txs (dbBal d a) ->
     forall t ta, dbTx d t = Some ta -> a ∈ map to_AddrDesc (ta_Outputs ta) -> t ∈ map bt_btxID bts).
End Count.

(** ** The batch *)

Section Batch.
Context {V : Vlq} {VL : VlqLaws V} {P : ChainParser} {IX : IndexOpts} {K : KV} {KL : KVLaws K}
  {W : AssetWire} {WL : AssetWireLaws W} {E : AssetEnv W}.
Implicit Types (d : DB K) (st : DiscState W).

(** The database accepts writes, the hash of the block is known, assets can be encoded. *)
Record undo_writes_ok d (height : Z) : Prop := {
  uw_fault : db_wfault d = false;
  uw_len : 0 <= PackedTxidLen;
  uw_hash : exists h b, GetBlockHash d height = Ok h /\ hex_DecodeString h = Ok b;
  uw_assets : supportsSyscoinAssets = true ->
    hasAssetParser = true /\ forall o : AssetObj, exists b, ao_Serialize o = Ok b;
}.

(** The maps of the block fit the encodings. *)
Record undo_fits st : Prop := {
  uf_txs : map_Forall (fun _ ta => txAddresses_ok ta) (ds_txs st);
  uf_bals : map_Forall (fun _ ob => match ob with Some b => balance_ok (trimBalance b) | None => True end) (ds_balances st);
  uf_assets : map_Forall (fun _ a => asset_row_ok a) (default ∅ (ast_assets (ds_assets st)));
}.

#[export] Instance undo_fits_dec st : Decision (undo_fits st).
Proof.
  assert (forall ob : option AddrBalance, Decision match ob with Some b => balance_ok (trimBalance b) | None => True end)
    as Hdec by (intros [b|]; apply _).
  destruct (decide (
    map_Forall (fun _ ta => txAddresses_ok ta) (ds_txs st) /\
    map_Forall (fun _ ob => match ob with Some b => balance_ok (trimBalance b) | None => True end) (ds_balances st) /\
    map_Forall (fun _ a => asset_row_ok a) (default ∅ (ast_assets (ds_assets st))))) as [(? & ? & ?)|Hn].
  - by left.
  - right. intros []. by apply Hn.
Defined.

Record undo_batch (bts : list blockTxs) st (wb : list BatchOp) : Prop := {
  ub_tx t : batch_get cfTxAddresses t wb =
    if decide (t ∈ map bt_btxID bts) then Some None else (fun ta => Some (packTxAddresses ta)) <$> ds_txs st !! t;
  ub_bal a : batch_get cfAddressBalance a wb =
    (fun ob => op_val (storeBalance a (option_map trimBalance ob))) <$> ds_balances st !! a;
  ub_assets k v : batch_get cfAssets k wb = Some (Some v) -> UnpackAsset v <> Panic;
}.

Lemma batch_get_deleteTxs bts t :
  batch_get cfTxAddresses t (deleteTxs bts) = if decide (t ∈ map bt_btxID bts) then Some None else None.
Proof.
  assert (forall l, batch_get cfTxAddresses t
            (concat (map (fun b => [DeleteCF cfTransactions b; DeleteCF cfTxAddresses b]) l)) =
            if decide (t ∈ l) then Some None else None) as H.
  { induction l as [|x l IH]; [done|]. cbn [map concat app batch_get]. rewrite IH. cbn.
    destruct (decide (t = x)) as [->|Hne].
    - rewrite (decide_True (P := x ∈ x :: l)) by (by left). case_decide; [done|]. by rewrite decide_True.
    - case_decide as E1; [by rewrite decide_True by (by right)|].
      rewrite decide_False by (intros [_ ?]; congruence). rewrite decide_False by (intros [? _]; discriminate).
      rewrite decide_False; [done|]. by intros [?|?]%elem_of_cons. }
  unfold deleteTxs. rewrite H. apply decide_ext. rewrite elem_of_elements, elem_of_list_to_set. done.
Qed.

Lemma disconnectBlock_batch d cache height bts st :
  undo_writes_ok d height -> disconnectTxs d bts (initDisc cache) = Ok st ->
  is_Some (ast_assets (ds_assets st)) -> undo_fits st ->
  exists wb d' cache', disconnectBlock d cache height bts = Ok (d', cache') /\ WriteBatch wb d = Ok d' /\
    undo_batch bts st wb.
Proof.
  intros Hw Hst Hr Hf. unfold disconnectBlock. rewrite Hst. cbn [rbind].
  set (wb0 := _ ++ [DeleteCF cfBlockTxs _; _]).
  assert (extends [cfAddresses; cfBlockTxs; cfHeight] [] wb0) as E0.
  { exists wb0. split; [done|]. unfold wb0. apply Forall_app_2; [apply List.Forall_map, Forall_true; intros a; left|].
    constructor; [right; left|]. constructor; [right; right; left|done]. }
  pose proof (extends_storeTxAddresses wb0 (ds_txs st)) as E1.
  pose proof (batch_get_storeTxAddresses wb0 (ds_txs st)) as B1.
  set (wb1 := storeTxAddresses wb0 (ds_txs st)) in *. unfold storeBalancesDisconnect.
  pose proof (extends_storeBalances wb1 (option_map trimBalance <$> ds_balances st)) as E2.
  pose proof (batch_get_storeBalances wb1 (option_map trimBalance <$> ds_balances st)) as B2.
  set (wb2 := storeBalances wb1 _) in *.
  assert (exists ops ast', (if supportsSyscoinAssets then
       if negb hasAssetParser then Err (ErrMsg "disconnectBlock: Syscoin asset parser is not configured")
       else storeAssets (map_to_list (default ∅ (ast_assets (ds_assets st))))
              (wb2 ++ map (fun asset => DeleteCF cfTxAssets (PackAssetKey asset height)) (elements (ds_touched st))) (ds_assets st)
     else Ok (wb2, ds_assets st)) = Ok (wb2 ++ ops, ast') /\ Forall (fun op => op_cf op ∈ [cfAssets; cfTxAssets]) ops /\
     Forall (fun op => op_cf op = cfAssets -> forall v, op_val op = Some v -> UnpackAsset v <> Panic) ops)
    as (ops & ast' & -> & Hops & Hval).
  { destruct supportsSyscoinAssets eqn:Es; [|exists [], (ds_assets st); by rewrite app_nil_r].
    destruct (uw_assets _ _ Hw Es) as [Hh Hser]. rewrite Hh. cbn [negb].
    destruct (storeAssets_ok (map_to_list (default ∅ (ast_assets (ds_assets st))))
      (wb2 ++ map (fun asset => DeleteCF cfTxAssets (PackAssetKey asset height)) (elements (ds_touched st))) (ds_assets st) Hh Hser Hr)
      as (ops & ast' & -> & _ & Hops).
    { apply Forall_forall. intros [g a] Hin%elem_of_map_to_list. by apply (uf_assets _ Hf) in Hin. }
    rewrite <- app_assoc. eexists _, _. split; [done|].
    split; apply Forall_app_2; [apply List.Forall_map, Forall_true; intros; right; left| |apply List.Forall_map, Forall_true; done|].
    - eapply Forall_impl; [exact Hops|]. intros op [H _]. rewrite H. left.
    - eapply Forall_impl; [exact Hops|]. by intros op [_ ?]. }
  cbn [rbind]. destruct (uw_hash _ _ Hw) as (h & b & Hh & Hb). unfold disconnectBlockFilter. rewrite Hh. cbn [rbind].
  rewrite Hb. cbn [rbind]. unfold WriteBatch at 1. rewrite (uw_fault _ _ Hw). cbn [rbind].
  eexists _, _, _. split; [reflexivity|]. split; [unfold WriteBatch; by rewrite (uw_fault _ _ Hw)|].
  assert (extends [cfAssets; cfTxAssets] wb2 (wb2 ++ ops)) as E3 by by apply extends_app.
  assert (extends [cfTransactions; cfTxAddresses] (wb2 ++ ops) ((wb2 ++ ops) ++ deleteTxs bts)) as E4.
  { apply extends_app. unfold deleteTxs. apply Forall_concat, List.Forall_map, Forall_true. intros t.
    constructor; [left|]. constructor; [right; left|done]. }
  assert (extends [cfBlockFilter] ((wb2 ++ ops) ++ deleteTxs bts)
            (((wb2 ++ ops) ++ deleteTxs bts) ++ [DeleteCF cfBlockFilter b])) as E5
    by (apply extends_app; constructor; [left|done]).
  constructor.
  - intros t. skip_cf E5. rewrite batch_get_app, batch_get_deleteTxs. case_decide; [done|]. skip_cf E3. skip_cf E2.
    rewrite B1. destruct (ds_txs st !! t); [done|]. cbn. by skip_cf E0.
  - intros a. skip_cf E5. skip_cf E4. skip_cf E3. rewrite B2, lookup_fmap.
    destruct (ds_balances st !! a); [done|]. cbn [fmap option_fmap option_map]. skip_cf E1. by skip_cf E0.
  - intros k v. skip_cf E5. skip_cf E4. rewrite batch_get_app. skip_cf E2. skip_cf E1. skip_cf E0.
    destruct (batch_get cfAssets k ops) as [r|] eqn:Er; [|done]. intros [= ->].
    by apply (batch_get_Forall (fun v => UnpackAsset v <> Panic) cfAssets k ops).
Qed.
End Batch.

(** ** Reading the rows back *)

Section ReadBack.
Context {V : Vlq} {VL : VlqLaws V} {P : ChainParser} {IX : IndexOpts} {K : KV} {KL : KVLaws K}
  {W : AssetWire} {WL : AssetWireLaws W} {E : AssetEnv W}.
Implicit Types (d : DB K) (st : DiscState W).

Lemma getTxAddresses_undone d d' bts st wb t :
  reads_ok d -> WriteBatch wb d = Ok d' -> undo_batch bts st wb -> undo_fits st ->
  getTxAddresses d' t =
  if decide (t ∈ map bt_btxID bts) then Ok None
  else match ds_txs st !! t with Some ta => Ok (Some (keptTxAddresses ta)) | None => getTxAddresses d t end.
Proof.
  intros Hd Hw Hb Hf.
  assert (db_rfault d cfTxAddresses t = false) as Hr.
  { destruct (reads_tx d Hd t) as [o Ho]. unfold getTxAddresses, GetCF in Ho. by destruct (db_rfault d cfTxAddresses t). }
  unfold getTxAddresses at 1. rewrite (GetCF_WriteBatch wb d d' _ _ Hw Hr). cbn [rbind].
  rewrite (ub_tx _ _ _ Hb). case_decide; [done|].
  destruct (ds_txs st !! t) as [ta|] eqn:Et; cbn [fmap option_fmap option_map].
  - pose proof (uf_txs _ Hf _ _ Et) as Hok. cbn [valData].
    pose proof (zlen_packTxAddresses ta Hok). destruct (Z.ltb_spec (zlen (packTxAddresses ta)) 3); [lia|].
    by rewrite unpackTxAddresses_pack.
  - unfold getTxAddresses, GetCF. by rewrite Hr.
Qed.

Lemma GetAddrDescBalance_undone d d' bts st wb a :
  reads_ok d -> 0 <= PackedTxidLen -> WriteBatch wb d = Ok d' -> undo_batch bts st wb -> undo_fits st ->
  GetAddrDescBalance d' a addressBalanceDetailUTXOIndexed =
  match ds_balances st !! a with
  | Some (Some b) => if ab_Txs b <=? 0 then Ok None
                     else Ok (Some (keptBalance addressBalanceDetailUTXOIndexed (trimBalance b)))
  | Some None => Ok None
  | None => GetAddrDescBalance d a addressBalanceDetailUTXOIndexed
  end.
Proof.
  intros Hd HP Hw Hb Hf.
  assert (db_rfault d cfAddressBalance a = false) as Hr.
  { destruct (reads_bal d Hd a) as [o Ho]. unfold GetAddrDescBalance, GetCF in Ho. by destruct (db_rfault d cfAddressBalance a). }
  unfold GetAddrDescBalance at 1. rewrite (GetCF_WriteBatch wb d d' _ _ Hw Hr). cbn [rbind].
  rewrite (ub_bal _ _ _ Hb). destruct (ds_balances st !! a) as [[b|]|] eqn:Ea; cbn [fmap option_fmap option_map storeBalance op_val];
    [|done|unfold GetAddrDescBalance, GetCF; by rewrite Hr].
  pose proof (uf_bals _ Hf _ _ Ea) as Hok. cbv beta iota in Hok.
  change (ab_Txs (trimBalance b)) with (ab_Txs b). destruct (ab_Txs b <=? 0); [done|]. cbn [op_val valData].
  pose proof (zlen_packAddrBalance (map_to_list (ab_AssetBalances (trimBalance b))) (trimBalance b) Hok) as Hz.
  rewrite (proj2 (Z.ltb_ge _ _) Hz). by rewrite unpackAddrBalance_pack.
Qed.

(** A balance without spent outputs only depends on who owns what. *)
Lemma addr_ok_live_other tx tx' a b :
  Forall (fun u => 0 <= u_Vout u) (ab_Utxos b) -> (forall u, owns tx a u <-> owns tx' a u) ->
  addr_ok tx a b -> addr_ok tx' a b.
Proof.
  intros Hl Ho [H1 H2 H3 H4 H5 H6]. constructor; [|done..|].
  - intros u. by rewrite H1.
  - intros id Hid. apply list_elem_of_fmap in Hid as (u & -> & Hu).
    assert (u ∈ live (ab_Utxos b)) as (t & ta & i & o & E1 & _ & _ & _ & ->)%H1%Ho; [|by exists ta].
    unfold live. rewrite filter_all; [done|by apply Forall_forall].
Qed.

Lemma values_rowsWithout d bts : values_ok (dbTx d) -> values_ok (rowsWithout d bts).
Proof.
  intros HV t ta. unfold rowsWithout. case_decide; [done|].
  by apply (values_restored (spendPairs (blockSpends d bts)) (dbTx d) HV).
Qed.

(** An address whose counter drops to zero owns nothing any more. *)
Lemma emptied_owns_nothing d bts st a b u :
  counters_ok d bts -> count_inv d bts st -> a <> [] -> IsAddrDescIndexable a = true ->
  ds_balances st !! a = Some (Some b) -> ab_Txs b <= 0 -> ~ owns (rowsWithout d bts) a u.
Proof.
  intros Hc [Hu Hm] Ha Hia Hb Ht (t & ta & i & o & E1 & E2 & E3 & _). specialize (Hu a Hia). rewrite Hb in Hu.
  destruct (Hc a Ha Hia) as [Hle Heq]. pose proof (metIn_touched d bts st a Hm) as Hsz.
  pose proof (dbBal_u32 d a) as Hr. unfold is_u32 in Hr.
  rewrite u32_id in Hu by (unfold is_u32; lia).
  unfold rowsWithout in E1. destruct (decide (t ∈ map bt_btxID bts)) as [|Hn]; [done|].
  apply mapRows_Some in E1 as (ta0 & Et & ->). cbn [ta_Outputs set_Outputs] in E2. rewrite list_lookup_imap in E2.
  destruct (ta_Outputs ta0 !! i) as [o0|] eqn:Eo; [|done]. injection E2 as <-.
  apply Hn, (Heq ltac:(lia) t ta0 Et). apply list_elem_of_fmap. exists o0. split; [|by eapply list_elem_of_lookup_2].
  rewrite <- E3. by case_decide.
Qed.

Lemma undone_addr_ok d bts st gone a d' :
  index_ok d -> counters_ok d bts -> count_inv d bts st -> nil_ok d st ->
  let R := spendPairs (blockSpends d bts) in
  (forall u, owns (removed gone (restored R (dbTx d))) a u <-> owns (rowsWithout d bts) a u) ->
  addr_ok (removed gone (restored R (dbTx d))) a (dbalView d st a) -> a <> [] -> IsAddrDescIndexable a = true ->
  GetAddrDescBalance d' a addressBalanceDetailUTXOIndexed =
    match ds_balances st !! a with
    | Some (Some b) => if ab_Txs b <=? 0 then Ok None
                       else Ok (Some (keptBalance addressBalanceDetailUTXOIndexed (trimBalance b)))
    | Some None => Ok None
    | None => GetAddrDescBalance d a addressBalanceDetailUTXOIndexed
    end ->
  addr_ok (rowsWithout d bts) a (dbBal d' a).
Proof.
  intros (Hd & [_ HV] & Hlive) Hc Hci Hnil R Ho Hok Ha Hia Hbal. unfold dbBal. rewrite Hbal. unfold dbalView in Hok.
  destruct (ds_balances st !! a) as [[b|]|] eqn:Eb; cbn [default from_option id] in Hok.
  - destruct (Z.leb_spec (ab_Txs b) 0) as [Hz|Hz].
    + assert (forall u, ~ owns (rowsWithout d bts) a u) as Hno by (intros u; by eapply emptied_owns_nothing).
      constructor; cbn; [intros u; rewrite elem_of_nil; split; [done|apply Hno]|apply NoDup_nil_2|done| |split; [done|by left]|].
      * intros guid. unfold assetBalanceOf. cbn. by rewrite lookup_empty.
      * intros id. by rewrite elem_of_nil.
    + eapply trimmed_addr_ok; [by apply values_rowsWithout|exact Ho|done].
  - by eapply addr_ok_live_other; [|exact Ho|exact Hok].
  - eapply addr_ok_live_other; [apply Hlive|exact Ho|exact Hok].
Qed.

Lemma disconnect_index_ok d cache height bts :
  index_ok d -> undo_ok d bts -> counters_ok d bts -> undo_writes_ok d height ->
  (forall st, disconnectTxs d bts (initDisc cache) = Ok st -> undo_fits st) ->
  exists d' cache', disconnectBlock d cache height bts = Ok (d', cache') /\ index_ok d' /\
    eqRows (dbTx d') (rowsWithout d bts).
Proof.
  intros Hix Hu Hc Hw Hf. pose proof Hix as (Hd & [HL HV] & Hlive).
  destruct (disconnectTxs_ok d cache bts Hd ltac:(done) Hu) as (st & gone & Hst & Hrows & Hbals & Hown & Hnil & Hr).
  specialize (Hf st Hst). pose proof (disconnectTxs_count d cache bts st Hst) as Hci.
  destruct (disconnectBlock_batch d cache height bts st Hw Hst Hr Hf) as (wb & d' & cache' & Hdb & Hwb & Hb).
  exists d', cache'. split; [done|].
  assert (forall t, getTxAddresses d' t = if decide (t ∈ map bt_btxID bts) then Ok None
            else match ds_txs st !! t with Some ta => Ok (Some (keptTxAddresses ta)) | None => getTxAddresses d t end)
    as Htx by (intros; by eapply getTxAddresses_undone).
  assert (same_rows (rowsWithout d bts) (dbTx d')) as Hsame.
  { intros t. unfold dbTx at 1. rewrite Htx. pose proof (Hrows t) as Hv. unfold rowsWithout. case_decide; [done|].
    rewrite <- Hv. unfold dtxView in Hv |- *. destruct (ds_txs st !! t) as [ta|] eqn:Et; [|reflexivity]. cbn. f_equal. symmetry.
    apply keptRow_core. by apply (values_restored (spendPairs (blockSpends d bts)) (dbTx d) HV t). }
  assert (eqRows (dbTx d') (rowsWithout d bts)) as Heq.
  { intros t. unfold dbTx at 1. rewrite Htx. pose proof (Hrows t) as Hv. unfold rowsWithout. case_decide; [done|].
    rewrite <- Hv. unfold dtxView. destruct (ds_txs st !! t) as [ta|]; [|done]. cbn [default from_option id fmap option_fmap option_map]. by rewrite keptTxAddresses_idem. }
  split; [|done].
  assert (forall a, GetAddrDescBalance d' a addressBalanceDetailUTXOIndexed = match ds_balances st !! a with
     | Some (Some b) => if ab_Txs b <=? 0 then Ok None
                        else Ok (Some (keptBalance addressBalanceDetailUTXOIndexed (trimBalance b)))
     | Some None => Ok None
     | None => GetAddrDescBalance d a addressBalanceDetailUTXOIndexed end) as Hbal
    by (intros; eapply GetAddrDescBalance_undone; [done|apply Hw|done..]).
  split; [constructor|split].
  - intros t. rewrite Htx. case_decide; [by eexists|]. destruct (ds_txs st !! t); [by eexists|apply (reads_tx d Hd)].
  - intros a. rewrite Hbal. destruct (ds_balances st !! a) as [[b|]|]; [destruct (ab_Txs b <=? 0); by eexists|by eexists|apply (reads_bal d Hd)].
  - eapply assets_readable_after; [apply Hd|done|]. apply Hb.
  - apply (ledger_same_rows (rowsWithout d bts)); [done|]. constructor; [|by apply values_rowsWithout].
    intros a Ha Hia. by eapply (undone_addr_ok d bts st gone); eauto.
  - intros a. unfold dbBal. rewrite Hbal. destruct (ds_balances st !! a) as [[b|]|]; [destruct (ab_Txs b <=? 0); [done|]|done|apply Hlive].
    apply kept_stored_live.
Qed.
End ReadBack.
