(* ===== verification/Rollback.v ===== *)
(** Rolling blocks back: one block ([disconnectBlock]) and a range of blocks
    ([DisconnectBlockRangeBitcoinType]). *)

From S2P Require Import Prelude Codec Parser Golomb TxAddr Balance IndexCodec Store Scan Assets Connect Ledger ConnectCorrect ConnectIndex BlockRows ConnectStore Chain Disconnect DisconnectCorrect DisconnectStore.

Local Open Scope Z_scope.

Section Rollback.
Context {V : Vlq} {VL : VlqLaws V} {P : ChainParser} {IX : IndexOpts} {K : KV} {KL : KVLaws K}
  {W : AssetWire} {WL : AssetWireLaws W} {E : AssetEnv W}.
Implicit Types (d : DB K) (cache : option (gmap Z (Asset W))).

(** ** The range: all undo data is read before anything is written *)

(** The undo data of a range of heights. *)
Definition undo_rows d (lower : Z) (bss : list (list blockTxs)) : Prop :=
  forall i bts, bss !! i = Some bts -> getBlockTxs d (lower + Z.of_nat i) = Ok bts /\ bts <> [].

Lemma readBlockTxs_prefix d lower higher bss : forall rest fuel pre,
  0 <= lower -> higher < 2 ^ 32 - 1 -> undo_rows d (lower + zlen pre) bss ->
  lower + zlen pre + zlen bss <= higher + 1 -> zlen rest = zlen bss + (higher + 1 - (lower + zlen pre + zlen bss)) ->
  (length bss <= fuel)%nat ->
  readBlockTxs fuel d lower higher (lower + zlen pre) (pre ++ rest) =
  readBlockTxs (fuel - length bss) d lower higher (lower + zlen pre + zlen bss) (pre ++ bss ++ drop (length bss) rest).
Proof.
  induction bss as [|bts bss IH]; intros rest fuel pre Hl Hh Hrows Hle Hrest Hf.
  - rewrite zlen_nil, Z.add_0_r. cbn [length app]. by rewrite Nat.sub_0_r, drop_0.
  - destruct fuel as [|f]; [cbn in Hf; lia|]. cbn [length] in *. rewrite zlen_cons in *.
    pose proof (zlen_nonneg bss). pose proof (zlen_nonneg pre). cbn [readBlockTxs].
    destruct (Hrows 0%nat bts eq_refl) as [Hg Hne]. rewrite Z.add_0_r in Hg.
    destruct (Z.leb_spec (lower + zlen pre) higher); [|lia]. rewrite Hg. cbn [rbind].
    destruct (Z.eqb_spec (zlen bts) 0) as [E0|_]; [by apply zlen_0 in E0|].
    destruct rest as [|r rest]; [rewrite zlen_nil in Hrest; lia|]. rewrite zlen_cons in Hrest.
    unfold setBlock. rewrite u32_id by (unfold is_u32; lia).
    replace (lower + zlen pre - lower) with (zlen pre) by lia. rewrite zlen_app, zlen_cons. pose proof (zlen_nonneg rest).
    destruct (Z.ltb_spec (zlen pre) (zlen pre + (1 + zlen rest))); [|lia]. cbn [rbind].
    replace (Z.to_nat (zlen pre)) with (length pre + 0)%nat by (unfold zlen; lia). rewrite insert_app_r. cbn [insert list_insert].
    rewrite u32_id by (unfold is_u32; lia).
    specialize (IH rest f (pre ++ [bts])). replace (zlen (pre ++ [bts])) with (zlen pre + 1) in IH by (by rewrite zlen_app).
    replace (lower + (zlen pre + 1)) with (lower + zlen pre + 1) in IH by lia.
    rewrite <- !app_assoc in IH. cbn [app] in IH. cbn [drop app].
    rewrite IH; [f_equal; lia|done|done| |lia|lia|lia].
    intros i b Hi. replace (lower + zlen pre + 1 + Z.of_nat i) with (lower + zlen pre + Z.of_nat (S i)) by lia. by apply Hrows.
Qed.

Lemma length_range lower higher : 0 <= lower -> higher < 2 ^ 32 - 1 -> lower <= higher ->
  length (replicate (Z.to_nat (u32 (higher - lower + 1))) (@nil blockTxs)) = Z.to_nat (higher - lower + 1).
Proof. intros. by rewrite length_replicate, u32_id by (unfold is_u32; lia). Qed.

(** All blocks of the range have undo data. *)
Lemma readBlockTxs_all d lower higher bss :
  0 <= lower -> higher < 2 ^ 32 - 1 -> lower <= higher -> undo_rows d lower bss -> zlen bss = higher - lower + 1 ->
  readBlockTxs (rangeFuel lower higher) d lower higher lower
    (replicate (Z.to_nat (u32 (higher - lower + 1))) []) = Ok bss.
Proof.
  intros Hl Hh Hle Hr Hz. pose proof (length_range lower higher Hl Hh Hle) as Hrep.
  pose proof (readBlockTxs_prefix d lower higher bss (replicate (Z.to_nat (u32 (higher - lower + 1))) [])
                (rangeFuel lower higher) [] Hl Hh) as H.
  rewrite zlen_nil, Z.add_0_r in H. cbn [app] in H. rewrite H; [|done|lia|unfold zlen in *; lia|unfold zlen, rangeFuel in *; lia].
  clear H. rewrite drop_ge by (rewrite Hrep; unfold zlen in *; lia). rewrite app_nil_r.
  replace (rangeFuel lower higher - length bss)%nat with 1%nat by (unfold rangeFuel, zlen in *; lia).
  cbn [readBlockTxs]. destruct (Z.leb_spec (lower + zlen bss) higher); [lia|done].
Qed.

(** Disconnecting the heights of the range from the top down. *)
Fixpoint disconnectDown d cache (lower : Z) (bss : list (list blockTxs)) (n : nat)
    : DB K * option (gmap Z (Asset W)) * result unit :=
  match n with
  | O => (d, cache, Ok tt)
  | S n' =>
      match bss !! n' with
      | None => (d, cache, Panic)
      | Some bts =>
          match disconnectBlock d cache (lower + Z.of_nat n') bts with
          | Ok (d, cache) => disconnectDown d cache lower bss n'
          | Err e => (d, cache, Err e)
          | Panic => (d, cache, Panic)
          end
      end
  end.

Lemma disconnectLoop_down lower bss : 0 < lower -> forall n fuel d cache,
  lower + Z.of_nat n < 2 ^ 32 -> (n < fuel)%nat ->
  disconnectLoop fuel d cache lower (lower + Z.of_nat n - 1) bss = disconnectDown d cache lower bss n.
Proof.
  intros Hl. induction n as [|n IH]; intros fuel d cache Hn Hf; (destruct fuel as [|f]; [lia|]); cbn [disconnectLoop disconnectDown].
  - destruct (Z.leb_spec lower (lower + Z.of_nat 0 - 1)); [lia|done].
  - destruct (Z.leb_spec lower (lower + Z.of_nat (S n) - 1)); [|lia].
    replace (lower + Z.of_nat (S n) - 1) with (lower + Z.of_nat n) by lia.
    rewrite u32_id by (unfold is_u32; lia). replace (Z.to_nat (lower + Z.of_nat n - lower)) with n by lia.
    destruct (bss !! n) as [bts|]; [|done]. destruct (disconnectBlock d cache (lower + Z.of_nat n) bts) as [[d' c']| |]; [|done|done].
    rewrite u32_id by (unfold is_u32; lia). apply IH; lia.
Qed.

(** The outcome of a rollback that goes on below height zero: what would have been a success is a panic. *)
Definition wrapsAround (r : DB K * option (gmap Z (Asset W)) * result unit) : DB K * option (gmap Z (Asset W)) * result unit :=
  match r with (d, cache, Ok _) => (d, cache, Panic) | _ => r end.

Lemma disconnectLoop_wraps bss : zlen bss < 2 ^ 32 -> forall n fuel d cache,
  Z.of_nat n < 2 ^ 32 -> (n < fuel)%nat ->
  disconnectLoop fuel d cache 0 (u32 (Z.of_nat n - 1)) bss = wrapsAround (disconnectDown d cache 0 bss n).
Proof.
  intros Hz. induction n as [|n IH]; intros fuel d cache Hn Hf; (destruct fuel as [|f]; [lia|]); cbn [disconnectLoop disconnectDown].
  - change (u32 (Z.of_nat 0 - 1)) with (2 ^ 32 - 1). rewrite Z.sub_0_r, (u32_id (2 ^ 32 - 1)) by (unfold is_u32; lia).
    destruct (Z.leb_spec 0 (2 ^ 32 - 1)); [|lia]. rewrite lookup_ge_None_2; [done|]. unfold zlen in Hz. lia.
  - rewrite (u32_id (Z.of_nat (S n) - 1)) by (unfold is_u32; lia). destruct (Z.leb_spec 0 (Z.of_nat (S n) - 1)); [|lia].
    replace (Z.of_nat (S n) - 1) with (Z.of_nat n) by lia. rewrite Z.sub_0_r, (u32_id (Z.of_nat n)) by (unfold is_u32; lia).
    rewrite Nat2Z.id, Z.add_0_l. destruct (bss !! n) as [bts|]; [|done].
    destruct (disconnectBlock d cache (Z.of_nat n) bts) as [[d' c']| |]; [|done|done]. apply IH; lia.
Qed.

(** With a lower bound of zero the loop never ends normally. *)
Lemma disconnectLoop_zero bss : zlen bss < 2 ^ 32 -> forall fuel d cache height,
  is_u32 height -> (disconnectLoop fuel d cache 0 height bss).2 <> Ok tt.
Proof.
  intros Hz. induction fuel as [|f IH]; intros d cache height Hh; cbn [disconnectLoop]; [done|].
  destruct (Z.leb_spec 0 height); [|unfold is_u32 in Hh; lia].
  destruct (bss !! _) as [bts|]; [|done]. destruct (disconnectBlock d cache height bts) as [[d' c']| |]; [|done|done].
  apply IH, u32_range.
Qed.

(** The block can be disconnected: its rows record how to reverse it, the counters of its
    addresses cover it, and what is written fits. *)
Record undoable d cache (height : Z) (bts : list blockTxs) : Prop := {
  ud_rows : undo_ok d bts;
  ud_counters : counters_ok d bts;
  ud_writes : undo_writes_ok d height;
  ud_fits st : disconnectTxs d bts (initDisc cache) = Ok st -> undo_fits st;
}.

(** The blocks of a range can be disconnected from the top down. *)
Fixpoint undoable_down d cache (lower : Z) (bss : list (list blockTxs)) (n : nat) : Prop :=
  match n with
  | O => True
  | S n' => exists bts, bss !! n' = Some bts /\ undoable d cache (lower + Z.of_nat n') bts /\
      forall d' cache', disconnectBlock d cache (lower + Z.of_nat n') bts = Ok (d', cache') -> undoable_down d' cache' lower bss n'
  end.

Lemma undoable_disconnects d cache height bts : index_ok d -> undoable d cache height bts ->
  exists d' cache', disconnectBlock d cache height bts = Ok (d', cache') /\ index_ok d' /\ eqRows (dbTx d') (rowsWithout d bts).
Proof. intros Hd [H1 H2 H3 H4]. by apply disconnect_index_ok. Qed.

(** A rollback of such a range succeeds and keeps the ledger. *)
Lemma disconnectDown_ok lower bss n : forall d cache, index_ok d -> undoable_down d cache lower bss n ->
  exists d' cache', disconnectDown d cache lower bss n = (d', cache', Ok tt) /\ index_ok d'.
Proof.
  induction n as [|n IH]; intros d cache Hd; cbn [disconnectDown undoable_down]; [by intros _; exists d, cache|].
  intros (bts & -> & Hu & Hn). destruct (undoable_disconnects _ _ _ _ Hd Hu) as (d1 & c1 & H1 & Hd1 & _). rewrite H1. by apply IH; [|apply Hn].
Qed.

(** The rollback returned without an error. *)
Definition rolled_back (r : DB K * option (gmap Z (Asset W)) * result unit) : Prop := r.2 = Ok tt.

Lemma rollback_to_zero d cache higher :
  0 <= higher < 2 ^ 32 - 1 -> ~ rolled_back (DisconnectBlockRangeBitcoinType d cache 0 higher).
Proof.
  intros Hh. unfold rolled_back, DisconnectBlockRangeBitcoinType.
  assert (forall fuel height blocks blocks', readBlockTxs fuel d 0 higher height blocks = Ok blocks' -> zlen blocks' = zlen blocks) as Hlen.
  { induction fuel as [|f IH]; intros height blocks blocks' H; cbn [readBlockTxs] in H; [done|].
    destruct (height <=? higher); [|by injection H as <-]. apply rbind_Ok in H as (bts & _ & H).
    destruct (zlen bts =? 0); [done|]. apply rbind_Ok in H as (b1 & H1 & H). apply IH in H. rewrite H.
    unfold setBlock in H1. case_match; [|done]. injection H1 as <-. unfold zlen. by rewrite length_insert. }
  destruct (readBlockTxs _ d 0 higher 0 _) as [blocks| |] eqn:Er; [|done|done].
  apply Hlen in Er. apply disconnectLoop_zero; [|unfold is_u32; lia]. rewrite Er. unfold zlen.
  rewrite length_replicate, u32_id by (unfold is_u32; lia). lia.
Qed.

(** ** Properties *)

(** C2: disconnecting a block keeps the ledger. When the rows of the block record how to
    reverse it, [disconnectBlock] succeeds, and balances, asset balances and unspent outputs of all addresses agree
    with the transaction rows that are left. These are, in everything the column stores, exactly the rows of the other
    transactions, in which an output is unspent again if an input of the block with an address spent it. Outputs without
    an address that the block spent stay marked as spent. *)
Theorem disconnect_keeps_ledger d cache height bts :
  index_ok d -> undoable d cache height bts ->
  exists d' cache', disconnectBlock d cache height bts = Ok (d', cache') /\ index_ok d' /\
    forall t, keptTxAddresses <$> dbTx d' t = keptTxAddresses <$> rowsWithout d bts t.
Proof. apply undoable_disconnects. Qed.

(** The order of a rollback. When all heights from [lower > 0] to [higher] have undo data,
    the blocks are disconnected one by one from the highest down to [lower], up to the first
    failure, and the loops end. *)
Theorem rollback_order d cache lower higher bss :
  0 < lower -> higher < 2 ^ 32 - 1 -> lower <= higher -> undo_rows d lower bss -> zlen bss = higher - lower + 1 ->
  DisconnectBlockRangeBitcoinType d cache lower higher = disconnectDown d cache lower bss (length bss).
Proof.
  intros Hl Hh Hle Hr Hz. unfold DisconnectBlockRangeBitcoinType. rewrite (readBlockTxs_all d lower higher bss) by (done || lia).
  replace higher with (lower + Z.of_nat (length bss) - 1) at 2 by (unfold zlen in Hz; lia).
  apply disconnectLoop_down; [done|unfold zlen in Hz; lia|unfold rangeFuel, zlen in *; lia].
Qed.

(** A rollback that lacks undo data changes nothing. If a height of the range has no undo
    data, the error is reported before any block is disconnected. *)
Theorem rollback_checks_first d cache lower higher bss :
  0 <= lower -> higher < 2 ^ 32 - 1 -> undo_rows d lower bss -> lower + zlen bss <= higher ->
  getBlockTxs d (lower + zlen bss) = Ok [] ->
  exists e, DisconnectBlockRangeBitcoinType d cache lower higher = (d, cache, Err e).
Proof.
  intros Hl Hh Hr Hle Hnone. pose proof (zlen_nonneg bss). unfold DisconnectBlockRangeBitcoinType.
  pose proof (length_range lower higher Hl Hh ltac:(lia)) as Hrep.
  pose proof (readBlockTxs_prefix d lower higher bss (replicate (Z.to_nat (u32 (higher - lower + 1))) [])
                (rangeFuel lower higher) [] Hl Hh) as Hp.
  rewrite zlen_nil, Z.add_0_r in Hp. cbn [app] in Hp. rewrite Hp; [|done|lia|unfold zlen in *; lia|unfold zlen, rangeFuel in *; lia].
  destruct (rangeFuel lower higher - length bss)%nat as [|f] eqn:Ef; [unfold rangeFuel, zlen in *; lia|].
  cbn [readBlockTxs]. destruct (Z.leb_spec (lower + zlen bss) higher); [|lia]. rewrite Hnone. by eexists.
Qed.

(** C36: a rollback to height zero never succeeds. When all heights from zero have undo data, the blocks are
    disconnected from the top down as in any rollback, and if a block fails so does the rollback; but after the block of
    height zero was disconnected and written, the unsigned height wraps around to the largest number and the undo data
    is indexed out of range: the database has lost all blocks, and the call panics. *)
Theorem rollback_to_zero_fails d cache higher :
  0 <= higher < 2 ^ 32 - 1 ->
  ~ rolled_back (DisconnectBlockRangeBitcoinType d cache 0 higher) /\
  forall bss, undo_rows d 0 bss -> zlen bss = higher + 1 ->
    DisconnectBlockRangeBitcoinType d cache 0 higher =
    match disconnectDown d cache 0 bss (length bss) with
    | (d', cache', Ok _) => (d', cache', Panic)
    | r => r
    end.
Proof.
  intros Hh. split; [by apply rollback_to_zero|]. intros bss Hr Hz. unfold DisconnectBlockRangeBitcoinType.
  rewrite (readBlockTxs_all d 0 higher bss) by (done || lia). 
  transitivity (wrapsAround (disconnectDown d cache 0 bss (length bss))); [|by destruct (disconnectDown _ _ _ _ _) as [[? ?] []]].
  rewrite <- (disconnectLoop_wraps bss) with (fuel := rangeFuel 0 higher); [|lia|unfold zlen in *; lia|unfold rangeFuel, zlen in *; lia].
  f_equal. rewrite u32_id by (unfold is_u32, zlen in *; lia). unfold zlen in Hz. lia.
Qed.
End Rollback.

Module RollbackExample.
Import ChainExample.

#[local] Existing Instance RefVlq.vlq.
#[local] Existing Instance RefVlq.vlq_laws.
#[local] Existing Instance MapKV.map_kv.
#[local] Existing Instance MapKV.map_kv_laws.
#[local] Existing Instance RefWire.wire.
#[local] Existing Instance RefWire.wire_laws.
#[local] Existing Instance RefWire.env.
#[local] Existing Instance GolombExample.gcs.
#[local] Existing Instance ChainExample.opts.
#[local] Existing Instance ChainExample.filter_opts.
#[local] Existing Instance ChainExample.parser.

(** The undo data of the example block. *)
Definition id1 : bytes := packedId tx1.
Definition id2 : bytes := packedId tx2.
Definition bts1 : list blockTxs :=
  [mkBlockTxs id1 [mkOutpoint (replicate 32 x00) 0]; mkBlockTxs id2 [mkOutpoint id1 0]].

Lemma bts1_read : getBlockTxs db1 1 = Ok bts1.
Proof. vm_compute. reflexivity. Qed.

Definition row1 : option TxAddresses := Eval vm_compute in dbTx db1 id1.
Definition row2 : option TxAddresses := Eval vm_compute in dbTx db1 id2.
Lemma row1_eq : dbTx db1 id1 = row1.
Proof. vm_compute. reflexivity. Qed.
Lemma row2_eq : dbTx db1 id2 = row2.
Proof. vm_compute. reflexivity. Qed.

Lemma index1 : index_ok db1.
Proof. apply synced_index_ok, synced1. Qed.

Lemma spends1 : blockSpends db1 bts1 = [(mkOutpoint id1 0, mkTxInput addrA 5000 None [] 0)].
Proof. vm_compute. reflexivity. Qed.

Lemma balanceA : has_balance db1 addrA.
Proof. eexists. vm_compute. reflexivity. Qed.
Lemma balanceB : has_balance db1 addrB.
Proof. eexists. vm_compute. reflexivity. Qed.

Lemma balances1 a : a ∈ [addrA; addrB] -> has_balance db1 a.
Proof. intros [->|[->|H]%elem_of_cons]%elem_of_cons; [exact balanceA|exact balanceB|by apply not_elem_of_nil in H]. Qed.

Ltac each_output :=
  intros [= <-]; cbn [ta_Outputs];
  match goal with i : nat |- _ => destruct i as [|[|[|i]]] end;
  (intros Ho; first [injection Ho as <- | (exfalso; revert Ho; clear; vm_compute; discriminate)]);
  (split; [lia|]); cbn [to_AddrDesc to_Spent spendPairs map opPair fst op_btxID op_index];
  (split; [intros _; first [left; reflexivity | right; left] | ]);
  (intros Hne _; first [by exfalso; apply Hne | apply balances1; first [left | right; left]]).

Lemma undo1 : undo_ok db1 bts1.
Proof.
  constructor; [constructor| |].
  - apply Forall_cons_2; [|apply Forall_cons_2; [|apply Forall_nil_2]]; cbn [bt_btxID bt_inputs];
      intros txa; rewrite ?row1_eq, ?row2_eq; intros [= <-]; cbn; lia.
  - rewrite spends1. apply Forall_cons_2; [|apply Forall_nil_2]. split; [|intros _; exact balanceA].
    cbn [fst snd]. unfold spent_by. cbn [op_btxID op_index]. rewrite row1_eq.
    eexists _, _. split; [reflexivity|]. split; [lia|]. split; [reflexivity|]. done.
  - rewrite spends1. apply NoDup_singleton.
  - apply (bool_decide_unpack _). vm_compute. exact I.
  - intros bt txa i o Hbt. rewrite spends1.
    apply elem_of_cons in Hbt as [->|[->|Hbt]%elem_of_cons]; [| |destruct (not_elem_of_nil _ Hbt)]; cbn [bt_btxID].
    + rewrite row1_eq. each_output.
    + rewrite row2_eq. each_output.
Qed.

Lemma rows1 : elements (dom (db_cf db1 cfTxAddresses : gmap bytes bytes)) = [id2; id1].
Proof. vm_compute. reflexivity. Qed.

Lemma counters1 : counters_ok db1 bts1.
Proof.
  intros a Ha _. split.
  - destruct (decide (a = addrA)) as [->|HA]; [vm_compute; discriminate|].
    destruct (decide (a = addrB)) as [->|HB]; [vm_compute; discriminate|].
    assert (touched db1 bts1 a = []) as ->; [|rewrite zlen_nil; apply (dbBal_u32 db1 a)].
    unfold touched. cbn [map bts1 bt_btxID]. rewrite !filter_cons, row1_eq, row2_eq.
    rewrite !decide_False; [reflexivity| |]; clear -Ha HA HB; cbn; unfold addrA, addrB in *;
      rewrite !elem_of_cons, elem_of_nil; intuition congruence.
  - intros _ t ta Ht _. assert (forall t, is_Some (kv_get (db_cf db1 cfTxAddresses) t) -> t ∈ [id1; id2]) as Hdom.
    { intros t' Ht'. change (is_Some ((db_cf db1 cfTxAddresses : gmap bytes bytes) !! t')) in Ht'.
      apply elem_of_dom, elem_of_elements in Ht'. rewrite rows1 in Ht'. rewrite Permutation_swap. exact Ht'. }
    apply Hdom. unfold dbTx, getTxAddresses, GetCF in Ht. change (db_rfault db1 cfTxAddresses t) with false in Ht.
    cbn [rbind] in Ht. by destruct (kv_get (db_cf db1 cfTxAddresses) t) as [v|].
Qed.

Lemma undo_writes1 : undo_writes_ok db1 1.
Proof.
  constructor; [reflexivity|discriminate| |].
  - eexists _, _. split; vm_compute; reflexivity.
  - intros _. split; [done|]. intros o. by eexists.
Qed.

Lemma undo_fits1 st : disconnectTxs db1 bts1 (initDisc None) = Ok st -> undo_fits st.
Proof.
  enough (match disconnectTxs db1 bts1 (initDisc None) with
          | Ok st => bool_decide (undo_fits st) | _ => false end = true) as H.
  { intros Hst. rewrite Hst in H. by apply bool_decide_eq_true in H. }
  vm_compute. reflexivity.
Qed.

Lemma undoable1 : undoable db1 None 1 bts1.
Proof. constructor; [exact undo1|exact counters1|exact undo_writes1|exact undo_fits1]. Qed.

(** Disconnecting the only block leaves no rows. *)
Lemma disconnect_keeps_ledger_witness :
  exists d' c', disconnectBlock db1 None 1 bts1 = Ok (d', c') /\ index_ok d' /\ dbTx d' id1 = None.
Proof.
  destruct (disconnect_keeps_ledger db1 None 1 bts1 index1 undoable1)
    as (d' & c' & H1 & H2 & H3).
  exists d', c'. split; [exact H1|]. split; [exact H2|].
  specialize (H3 id1). unfold rowsWithout in H3. rewrite decide_True in H3 by left. by destruct (dbTx d' id1).
Defined.

Lemma undo_rows1 : undo_rows db1 1 [bts1].
Proof. intros [|i] bts; cbn [lookup list_lookup]; [|done]. intros [= <-]. split; [exact bts1_read|done]. Qed.

Lemma rollback_order_witness :
  DisconnectBlockRangeBitcoinType db1 None 1 1 = disconnectDown db1 None 1 [bts1] 1.
Proof. apply (rollback_order db1 None 1 1 [bts1]); [lia|lia|lia|exact undo_rows1|reflexivity]. Defined.

(** Height 2 has no undo data. *)
Lemma rollback_checks_first_witness :
  exists e, DisconnectBlockRangeBitcoinType db1 None 1 2 = (db1, None, Err e).
Proof.
  apply (rollback_checks_first db1 None 1 2 [bts1]); [lia|lia|exact undo_rows1|vm_compute; discriminate|vm_compute; reflexivity].
Defined.

(** A database whose first block has height zero: the block is gone, and the call panics. *)
Definition block0 : Block := mkBlock (replicate 64 x63) [] [] 0 500 1600000000 [tx1; tx2].
Definition dbz : DB MapKV.map_kv := match ConnectBlock db0 None block0 with Ok (d, _, _) => d | _ => db0 end.

Lemma rollback_to_zero_fails_witness :
  exists d' c', DisconnectBlockRangeBitcoinType dbz None 0 0 = (d', c', Panic) /\ dbTx dbz id1 <> None /\ dbTx d' id1 = None.
Proof.
  destruct (rollback_to_zero_fails dbz None 0 ltac:(lia)) as [_ H]. specialize (H [bts1]).
  assert (match disconnectDown dbz None 0 [bts1] 1 with (d', _, Ok _) => bool_decide (dbTx d' id1 = None) | _ => false end = true) as Hd
    by (vm_compute; reflexivity).
  change (length [bts1]) with 1%nat in H. destruct (disconnectDown dbz None 0 [bts1] 1) as [[d' c'] [[]| |]]; [|discriminate Hd..].
  exists d', c'. split; [apply H; [|reflexivity]|split; [vm_compute; discriminate|by apply bool_decide_eq_true in Hd]].
  intros [|i] bts; cbn [lookup list_lookup]; [|done]. intros [= <-]. split; [vm_compute; reflexivity|done].
Defined.

(** A second block, whose transaction spends the output without address of the first. *)
Definition tx3 : Tx := mkTx [] (replicate 64 x65) 1 0 100 [mkVin [] txid1 1 []] [mkVout 0 0 addrB None] [].
Definition block2 : Block := mkBlock (replicate 64 x64) [] [] 2 300 1600000600 [tx3].

Definition spentFlags (d : DB MapKV.map_kv) (t : bytes) : option (list bool) :=
  (fun ta => map to_Spent (ta_Outputs ta)) <$> dbTx d t.

(** Connecting and disconnecting a block is not the identity on the transaction rows. The
    output without address that the block spent is still marked as spent after the block
    is gone, because only inputs with an address are reversed. *)
Theorem addressless_stays_spent :
  exists d2 c2 d3 c3, ConnectBlock db1 None block2 = Ok (d2, c2, 2) /\
    DisconnectBlockRangeBitcoinType d2 c2 2 2 = (d3, c3, Ok tt) /\
    spentFlags db1 id1 = Some [true; false; false] /\ spentFlags d3 id1 = Some [true; true; false].
Proof.
  pose (r2 := ConnectBlock db1 None block2).
  assert (match r2 with
          | Ok (d2, c2, h) =>
              match DisconnectBlockRangeBitcoinType d2 c2 2 2 with
              | (d3, _, Ok _) => bool_decide (h = 2 /\ spentFlags d3 id1 = Some [true; true; false])
              | _ => false
              end
          | _ => false
          end = true) as H by (vm_compute; reflexivity).
  destruct r2 as [[[d2 c2] h]| |] eqn:E2; [|discriminate H..].
  destruct (DisconnectBlockRangeBitcoinType d2 c2 2 2) as [[d3 c3] [[]| |]] eqn:E3; [|discriminate H..].
  apply bool_decide_eq_true in H as [-> H3]. exists d2, c2, d3, c3.
  split; [exact E2|]. split; [exact E3|]. split; [vm_compute; reflexivity|exact H3].
Qed.
End RollbackExample.
