(* ===== verification/Mempool.v ===== *)
(** The mempool of Bitcoin-type coins ([bchain/mempool_bitcoin_type.go],
    [bchain/basemempool.go]): the entries of unconfirmed transactions and the index from
    address descriptors to them, resynchronised with the backend by concurrent workers.

    The backend is the class [MempoolChain]; what it answers is fixed during one resync.
    The workers and channels of [dispatchResyncPayloads] and [getTxAddrs] are the step
    relation [rstep]: every interleaving the channels allow is a run of it, since a step
    may take any transaction that is with a worker, any input that is dispatched and any
    result that is ready. [schedule] is one deterministic schedule of it. The channels of the
    relation are unbounded and it does not count workers: it has every run of the code and more, so
    what holds in all its runs holds for the code, but it cannot say that the bounded channels
    never block.

    The theorems: the index is the exact inverse of the entries; a resync leaves exactly
    the listed transactions, whatever the interleaving; the cache of outputs is
    transparent; every run ends, and only when all transactions are processed. *)

From S2P Require Import Prelude Codec Parser Golomb.

Local Open Scope Z_scope.

(** ** Data *)

Record Outpoint := mkOut { out_Txid : bytes; out_Vout : Z }.

#[export] Instance Outpoint_eq_decision : EqDecision Outpoint.
Proof. solve_decision. Defined.

#[export] Program Instance Outpoint_countable : Countable Outpoint :=
  inj_countable' (fun o => (out_Txid o, out_Vout o)) (fun p => mkOut p.1 p.2) _.
Next Obligation. by intros []. Qed.

Record addrIndex := mkAddrIndex { ai_addrDesc : bytes; ai_n : Z; ai_AssetInfo : option AssetInfo }.

Record txEntry := mkTxEntry {
  te_addrIndexes : list addrIndex;
  te_time : Z;
  te_filter : bytes;
  (* Ethereum type only *)
  te_from : bytes;
  te_nonce : Z;
}.

Record txidio := mkTxidio { tio_txid : bytes; tio_io : list addrIndex; tio_filter : bytes }.

Record BaseMempool := mkMempool {
  txEntries : gmap bytes txEntry;
  addrDescToTx : gmap bytes (list Outpoint);
}.

Record MempoolVin := mkMempoolVin {
  mv_Vin : Vin;
  mv_AddrDesc : bytes;
  mv_ValueSat : Z;
  mv_AssetInfo : option AssetInfo;
}.

Record MempoolTx := mkMempoolTx {
  mtx_Hex : bytes;
  mtx_Txid : bytes;
  mtx_Version : Z;
  mtx_LockTime : Z;
  mtx_VSize : Z;
  mtx_Vin : list MempoolVin;
  mtx_Vout : list Vout;
  mtx_Blocktime : Z;
}.

Record MempoolTxidEntry := mkMempoolTxidEntry { mte_Txid : bytes; mte_Time : Z }.

Record MempoolTxidFilterEntries := mkFilterEntries {
  mfe_Entries : gmap bytes bytes;
  mfe_UsedZeroedKey : bool;
}.

Record txPayload := mkTxPayload { tp_txid : bytes; tp_tx : option Tx }.

(** ** The cache of outputs during a resync *)

Record outpointInfo := mkOutpointInfo {
  oi_addrDesc : bytes;
  oi_value : Z;
  oi_AssetInfo : option AssetInfo;
}.

Record resyncOutpointCache := mkCache {
  c_entries : gmap Outpoint outpointInfo;
  c_hits : Z;
  c_misses : Z;
}.

Definition newResyncOutpointCache : resyncOutpointCache := mkCache ∅ 0 0.

Definition cache_get (c : resyncOutpointCache) (o : Outpoint) : option outpointInfo * resyncOutpointCache :=
  match c_entries c !! o with
  | None => (None, mkCache (c_entries c) (c_hits c) (u64 (c_misses c + 1)))
  | Some e => (Some e, mkCache (c_entries c) (u64 (c_hits c + 1)) (c_misses c))
  end.

Definition cache_set (o : Outpoint) (addrDesc : bytes) (value : option Z) (a : option AssetInfo)
    (c : resyncOutpointCache) : resyncOutpointCache :=
  match value with
  | None => c
  | Some v =>
      if zlen addrDesc =? 0 then c
      else mkCache (<[o := mkOutpointInfo addrDesc v a]> (c_entries c)) (c_hits c) (c_misses c)
  end.

Definition cache_len (c : resyncOutpointCache) : Z := Z.of_nat (size (c_entries c)).

(** ** The backend *)

Class MempoolChain := {
  GetMempoolTransactions : goerror + list bytes;
  GetTransactionForMempool : bytes -> option Tx;
  (* the optional interface MempoolBatcher *)
  GetRawTransactionsForMempoolBatch : option (list bytes -> goerror + gmap bytes Tx);
  GetAddrDescFromAddress : bytes -> result bytes;
}.

Record MempoolConfig := mkMempoolConfig {
  AddrDescForOutpoint : option (Outpoint -> option outpointInfo);
  golombFilterP : Z;
  filterScripts : string;
  useZeroedKey : bool;
  resyncBatchSize : Z;
}.

(** ** Reading and removing ([BaseMempool]) *)

Module BaseMempool.

Definition GetAddrDescTransactions (m : BaseMempool) (addrDesc : bytes) : list Outpoint :=
  reverse (default [] (addrDescToTx m !! addrDesc)).

Definition GetTransactions {C : MempoolChain} (m : BaseMempool) (address : bytes) : result (list Outpoint) :=
  let! addrDesc := GetAddrDescFromAddress address in
  Ok (GetAddrDescTransactions m addrDesc).

(** The loop body of [removeEntryFromMempool] for one address index: the state is the
    index and the descriptors processed so far. *)
Definition removeIndex (txid : bytes) (s : gmap bytes (list Outpoint) * gset bytes) (si : addrIndex)
    : gmap bytes (list Outpoint) * gset bytes :=
  let '(ix, processed) := s in
  match ix !! ai_addrDesc si with
  | None => s
  | Some outpoints =>
      if bool_decide (ai_addrDesc si ∈ processed) then s
      else
        let outpoints := filter (fun o => out_Txid o <> txid) outpoints in
        (if 0 <? zlen outpoints then <[ai_addrDesc si := outpoints]> ix
         else delete (ai_addrDesc si) ix,
         {[ai_addrDesc si]} ∪ processed)
  end.

Definition removeEntryFromMempool (txid : bytes) (entry : txEntry) (m : BaseMempool) : BaseMempool :=
  mkMempool (delete txid (txEntries m))
    (foldl (removeIndex txid) (addrDescToTx m, ∅) (te_addrIndexes entry)).1.

(** [a.Less(i, j)] *)
Definition Less (a b : MempoolTxidEntry) : bool :=
  if mte_Time a =? mte_Time b
  then match bytes_compare (mte_Txid a) (mte_Txid b) with Gt => true | _ => false end
  else mte_Time b <? mte_Time a.

(** [a] may stay before [b]. *)
Definition ordered (a b : MempoolTxidEntry) : Prop := Less b a = false.

#[export] Instance ordered_dec : RelDecision ordered.
Proof. intros a b. unfold ordered. apply _. Defined.

(** [sort.Sort]; the loops over the map run in the given order. *)
Definition GetAllEntries (order : list (bytes * txEntry)) : list MempoolTxidEntry :=
  merge_sort ordered (map (fun '(txid, entry) => mkMempoolTxidEntry txid (te_time entry)) order).

Definition hasAsset (assetGuid : Z) (entry : txEntry) : bool :=
  existsb (fun ai => match ai_AssetInfo ai with
                     | Some a => AssetGuid a =? assetGuid
                     | None => false
                     end) (te_addrIndexes entry).

Definition GetTxAssets (order : list (bytes * txEntry)) (assetGuid : Z) : list MempoolTxidEntry :=
  let step := fun '(mapTxid, entries) '(txid, entry) =>
    if bool_decide (txid ∈ mapTxid) then (mapTxid, entries)
    else if hasAsset assetGuid entry
    then ({[txid]} ∪ mapTxid, entries ++ [mkMempoolTxidEntry txid (te_time entry)])
    else (mapTxid, entries) in
  merge_sort ordered (foldl step (∅ : gset bytes, []) order).2.

Definition GetTransactionTime (m : BaseMempool) (txid : bytes) : Z :=
  match txEntries m !! txid with Some e => te_time e | None => 0 end.

Definition txToMempoolTx (now : Z) (tx : Tx) : MempoolTx :=
  mkMempoolTx (tx_Hex tx) (tx_Txid tx) (tx_Version tx) (tx_LockTime tx) (tx_VSize tx)
    (map (fun vin => mkMempoolVin vin [] 0 None) (tx_Vin tx)) (tx_Vout tx) now.

End BaseMempool.
Import BaseMempool.

Section Mempool.
Context {P : ChainParser} {G : Gcs} {C : MempoolChain} (cfg : MempoolConfig).
(* the clock: the same second during a resync *)
Context (now : Z).

(** ** One input *)

(** The loop over the outputs of the parent: all are cached, the one that is spent is
    returned; [None] is the return of nil. *)
Fixpoint cacheOutputs (txid : bytes) (vout : Z) (outs : list Vout) (found : option outpointInfo)
    (c : resyncOutpointCache) : option outpointInfo * resyncOutpointCache :=
  match outs with
  | [] => (found, c)
  | o :: outs =>
      match GetAddrDescFromVout o with
      | Ok outDesc =>
          let c := cache_set (mkOut txid (i32 (vout_N o))) outDesc (Some (vout_ValueSat o)) (vout_AssetInfo o) c in
          let found := if vout_N o =? vout
                       then Some (mkOutpointInfo outDesc (vout_ValueSat o) (vout_AssetInfo o)) else found in
          cacheOutputs txid vout outs found c
      | _ => if vout_N o =? vout then (None, c) else cacheOutputs txid vout outs found c
      end
  end.

(** The spent output: from the database, from the cache, or from the backend. *)
Definition findSpent (vin : Vin) (cache : option resyncOutpointCache)
    : option outpointInfo * option resyncOutpointCache :=
  let o := mkOut (vin_Txid vin) (i32 (vin_Vout vin)) in
  match (match AddrDescForOutpoint cfg with Some f => f o | None => None end) with
  | Some info => (Some info, cache)
  | None =>
      let '(cached, cache) :=
        match cache with
        | Some c => let '(e, c) := cache_get c o in (e, Some c)
        | None => (None, None)
        end in
      match cached with
      | Some info => (Some info, cache)
      | None =>
          match GetTransactionForMempool (vin_Txid vin) with
          | None => (None, cache)
          | Some itx =>
              if zlen (tx_Vout itx) <=? vin_Vout vin then (None, cache)
              else
                match cache with
                | Some c =>
                    let '(r, c) := cacheOutputs (vin_Txid vin) (vin_Vout vin) (tx_Vout itx) None c in
                    (r, Some c)
                | None =>
                    match tx_Vout itx !! Z.to_nat (vin_Vout vin) with
                    | Some o =>
                        match GetAddrDescFromVout o with
                        | Ok d => (Some (mkOutpointInfo d (vout_ValueSat o) (vout_AssetInfo o)), cache)
                        | _ => (None, cache)
                        end
                    | None => (None, cache)
                    end
                end
          end
      end
  end.

Definition set_vin (index : nat) (v : MempoolVin) (mtx : MempoolTx) : MempoolTx :=
  mkMempoolTx (mtx_Hex mtx) (mtx_Txid mtx) (mtx_Version mtx) (mtx_LockTime mtx) (mtx_VSize mtx)
    (<[index := v]> (mtx_Vin mtx)) (mtx_Vout mtx) (mtx_Blocktime mtx).

Definition getInputAddress (mtx : MempoolTx) (index : nat) (cache : option resyncOutpointCache)
    : option addrIndex * MempoolTx * option resyncOutpointCache :=
  match mtx_Vin mtx !! index with
  | None => (None, mtx, cache)
  | Some mv =>
      let vin := mv_Vin mv in
      if bool_decide (vin_Txid vin = []) then (None, mtx, cache)
      else
        let '(spent, cache) := findSpent vin cache in
        match spent with
        | None => (None, mtx, cache)
        | Some info =>
            (Some (mkAddrIndex (oi_addrDesc info) (Z.lnot (i32 (vin_Vout vin))) (oi_AssetInfo info)),
             set_vin index (mkMempoolVin vin (oi_addrDesc info) (oi_value info) (oi_AssetInfo info)) mtx,
             cache)
        end
  end.

(** ** One transaction *)

Definition computeGolombFilter (mtx : MempoolTx) (tx : Tx) : bytes :=
  match NewGolombFilter (golombFilterP cfg) (filterScripts cfg) (mtx_Txid mtx) (useZeroedKey cfg) with
  | Ok gf =>
      if gf_Enabled gf then
        let gf := foldl (fun gf vin => AddAddrDesc (mv_AddrDesc vin) (Some tx) gf) gf (mtx_Vin mtx) in
        let gf := foldl (fun gf vout =>
                           match hex_DecodeString (vout_ScriptHex vout) with
                           | Ok b => AddAddrDesc b (Some tx) gf
                           | _ => gf
                           end) gf (mtx_Vout mtx) in
        let '(_, fb) := Compute (map_to_list (gf_allAddressDescriptors gf)) gf in
        hex_EncodeToString (default [] fb)
      else []
  | _ => []
  end.

(** The loop of [getTxAddrs] over the outputs. *)
Fixpoint outputIndexes (txid : bytes) (outs : list Vout) (io : list addrIndex)
    (cache : option resyncOutpointCache) : list addrIndex * option resyncOutpointCache :=
  match outs with
  | [] => (io, cache)
  | o :: outs =>
      match GetAddrDescFromVout o with
      | Ok addrDesc =>
          let cache := (cache_set (mkOut txid (i32 (vout_N o))) addrDesc (Some (vout_ValueSat o)) (vout_AssetInfo o)) <$> cache in
          let io := if 0 <? zlen addrDesc
                    then io ++ [mkAddrIndex addrDesc (i32 (vout_N o)) (vout_AssetInfo o)] else io in
          outputIndexes txid outs io cache
      | _ => outputIndexes txid outs io cache
      end
  end.

(** The inputs that are dispatched: all but the coinbase ones. *)
Definition isDispatched (tx : Tx) (i : nat) : bool :=
  match tx_Vin tx !! i with Some vin => bool_decide (vin_Coinbase vin = []) | None => false end.

Definition dispatchedInputs (tx : Tx) : list nat :=
  filter (fun i => isDispatched tx i = true) (seq 0 (length (tx_Vin tx))).

(** A transaction with a worker after its outputs are processed: the inputs that wait
    for a subworker, the results in [chanResult], and the indexes collected so far. *)
Record Job := mkJob {
  j_txid : bytes;
  j_tx : Tx;
  j_mtx : MempoolTx;
  j_todo : list nat;
  j_results : list (option addrIndex);
  j_io : list addrIndex;
}.

Definition startTx (txid : bytes) (tx : Tx) (cache : option resyncOutpointCache)
    : Job * option resyncOutpointCache :=
  let '(io, cache) := outputIndexes txid (tx_Vout tx) [] cache in
  (mkJob txid tx (txToMempoolTx now tx) (dispatchedInputs tx) [] io, cache).

Definition finishTx (j : Job) : txidio :=
  mkTxidio (j_txid j) (j_io j)
    (if 0 <? golombFilterP cfg then computeGolombFilter (j_mtx j) (j_tx j) else []).

(** ** The workers *)

Record Dispatch := mkDispatch {
  d_queue : list txPayload;            (* not yet sent to [chanTx] *)
  d_sent : list txPayload;             (* sent, not yet fetched *)
  d_jobs : list Job;
  d_results : list txidio;             (* on the way through [chanAddrIndex] *)
  d_cache : option resyncOutpointCache;
  d_notified : list MempoolTx;         (* the calls of [OnNewTx] *)
  d_mempool : BaseMempool;
}.

Definition addPosting (txid : bytes) (ix : gmap bytes (list Outpoint)) (si : addrIndex)
    : gmap bytes (list Outpoint) :=
  <[ai_addrDesc si := default [] (ix !! ai_addrDesc si) ++ [mkOut txid (ai_n si)]]> ix.

Definition onNewEntry (txid : bytes) (entry : txEntry) (m : BaseMempool) : BaseMempool :=
  if 0 <? zlen (te_addrIndexes entry)
  then mkMempool (<[txid := entry]> (txEntries m))
         (foldl (addPosting txid) (addrDescToTx m) (te_addrIndexes entry))
  else m.

(** The transaction of a payload: given with it, or fetched by the worker. *)
Definition payloadTx (p : txPayload) : option Tx :=
  match tp_tx p with Some tx => Some tx | None => GetTransactionForMempool (tp_txid p) end.

(** A step of the coordinator, a worker or a subworker. The channels hold one element each and there is a fixed number
    of workers in the code; here a send never waits, which allows more interleavings. The lookup of an input is one step,
    though it reads the cache, may call the backend and writes the cache: the cache only ever holds outputs as the
    backend answers them, so what other lookups do in between does not change the result. *)
Inductive rstep (txTime : Z) : Dispatch -> Dispatch -> Prop :=
| r_send p q sent jobs res c nt m :
    rstep txTime (mkDispatch (p :: q) sent jobs res c nt m)
                 (mkDispatch q (sent ++ [p]) jobs res c nt m)
| r_fetch_fails q s1 p s2 jobs res c nt m :
    payloadTx p = None ->
    rstep txTime (mkDispatch q (s1 ++ p :: s2) jobs res c nt m)
                 (mkDispatch q (s1 ++ s2) jobs (res ++ [mkTxidio (tp_txid p) [] []]) c nt m)
| r_fetch q s1 p s2 jobs res c nt m tx j c' :
    payloadTx p = Some tx -> startTx (tp_txid p) tx c = (j, c') ->
    rstep txTime (mkDispatch q (s1 ++ p :: s2) jobs res c nt m)
                 (mkDispatch q (s1 ++ s2) (jobs ++ [j]) res c' nt m)
| r_input q sent j1 t tx mtx i1 i i2 rs io j2 res c nt m r mtx' c' :
    getInputAddress mtx i c = (r, mtx', c') ->
    rstep txTime
      (mkDispatch q sent (j1 ++ mkJob t tx mtx (i1 ++ i :: i2) rs io :: j2) res c nt m)
      (mkDispatch q sent (j1 ++ mkJob t tx mtx' (i1 ++ i2) (rs ++ [r]) io :: j2) res c' nt m)
| r_collect q sent j1 t tx mtx todo r1 r r2 io j2 res c nt m :
    rstep txTime
      (mkDispatch q sent (j1 ++ mkJob t tx mtx todo (r1 ++ r :: r2) io :: j2) res c nt m)
      (mkDispatch q sent (j1 ++ mkJob t tx mtx todo (r1 ++ r2) (io ++ option_list r) :: j2) res c nt m)
| r_finish q sent j1 t tx mtx io j2 res c nt m :
    rstep txTime
      (mkDispatch q sent (j1 ++ mkJob t tx mtx [] [] io :: j2) res c nt m)
      (mkDispatch q sent (j1 ++ j2) (res ++ [finishTx (mkJob t tx mtx [] [] io)]) c (nt ++ [mtx]) m)
| r_receive q sent jobs res1 tio res2 c nt m :
    rstep txTime
      (mkDispatch q sent jobs (res1 ++ tio :: res2) c nt m)
      (mkDispatch q sent jobs (res1 ++ res2) c nt
         (onNewEntry (tio_txid tio) (mkTxEntry (tio_io tio) txTime (tio_filter tio) [] 0) m)).

(** All transactions are sent, processed and received. *)
Definition finished (s : Dispatch) : Prop :=
  d_queue s = [] /\ d_sent s = [] /\ d_jobs s = [] /\ d_results s = [].

Definition payloads (txids : list bytes) (cache : gmap bytes Tx) : list txPayload :=
  map (fun t => mkTxPayload t (cache !! t)) txids.

Definition startDispatch (txids : list bytes) (cache : gmap bytes Tx) (c : option resyncOutpointCache)
    (nt : list MempoolTx) (m : BaseMempool) : Dispatch :=
  mkDispatch (payloads txids cache) [] [] [] c nt m.

(** [dispatchResyncPayloads] returns in state [s']. *)
Definition dispatchResyncPayloads (txTime : Z) (txids : list bytes) (cache : gmap bytes Tx)
    (c : option resyncOutpointCache) (nt : list MempoolTx) (m : BaseMempool) (s' : Dispatch) : Prop :=
  rtc (rstep txTime) (startDispatch txids cache c nt m) s' /\ finished s'.

(** ** The whole resync *)

(** The slices [missing[start:end]]. *)
Fixpoint batches (fuel : nat) (size : nat) (missing : list bytes) : list (list bytes) :=
  match fuel, missing with
  | S fuel, _ :: _ => take size missing :: batches fuel size (drop size missing)
  | _, _ => []
  end.

(** The batches are dispatched one after another, in the order their results arrive. *)
Inductive dispatchBatches (txTime : Z) (fetch : list bytes -> goerror + gmap bytes Tx)
    : list (list bytes) -> option resyncOutpointCache -> list MempoolTx -> BaseMempool ->
      option resyncOutpointCache -> list MempoolTx -> BaseMempool -> Prop :=
| db_nil c nt m : dispatchBatches txTime fetch [] c nt m c nt m
| db_cons b bs cache c nt m s c' nt' m' :
    fetch b = inr cache ->
    dispatchResyncPayloads txTime b cache c nt m s ->
    dispatchBatches txTime fetch bs (d_cache s) (d_notified s) (d_mempool s) c' nt' m' ->
    dispatchBatches txTime fetch (b :: bs) c nt m c' nt' m'.

(** The batches handled before the first error arrives; those after it are dropped. *)
Inductive resyncBatchedMissing (txTime : Z) (fetch : list bytes -> goerror + gmap bytes Tx)
    (missing : list bytes) (batchSize : nat) (c : option resyncOutpointCache) (m : BaseMempool)
    : option goerror -> list MempoolTx -> BaseMempool -> Prop :=
| rb_ok bs c' nt' m' :
    bs ≡ₚ batches (length missing) batchSize missing ->
    dispatchBatches txTime fetch bs c [] m c' nt' m' ->
    resyncBatchedMissing txTime fetch missing batchSize c m None nt' m'
| rb_error bs b rest e c' nt' m' :
    bs ++ b :: rest ≡ₚ batches (length missing) batchSize missing ->
    fetch b = inl e ->
    dispatchBatches txTime fetch bs c [] m c' nt' m' ->
    resyncBatchedMissing txTime fetch missing batchSize c m (Some e) nt' m'.

Definition missingTxs (txs : list bytes) (m : BaseMempool) : list bytes :=
  filter (fun t => txEntries m !! t = None) txs.

(** The loop over the entries that are no longer listed, in the order of the map. *)
Definition removeUnlisted (txs : list bytes) (order : list (bytes * txEntry)) (m : BaseMempool)
    : BaseMempool :=
  foldl (fun m '(txid, entry) =>
           if bool_decide (txid ∈ txs) then m else removeEntryFromMempool txid entry m) m order.

Definition effectiveBatchSize : Z := if resyncBatchSize cfg <? 1 then 1 else resyncBatchSize cfg.

(** The outcome is the returned count or error, the notifications and the mempool. *)
Inductive Resync (txTime : Z) (m : BaseMempool)
    : goerror + Z -> list MempoolTx -> BaseMempool -> Prop :=
| rs_list_fails e :
    GetMempoolTransactions = inl e -> Resync txTime m (inl e) [] m
| rs_no_batcher txs :
    GetMempoolTransactions = inr txs -> 1 < effectiveBatchSize ->
    GetRawTransactionsForMempoolBatch = None ->
    Resync txTime m
      (inl (ErrMsg "mempool: batch resync requested but backend does not support batch fetch")) [] m
| rs_single txs s order :
    GetMempoolTransactions = inr txs -> effectiveBatchSize = 1 ->
    dispatchResyncPayloads txTime (missingTxs txs m) ∅ (Some newResyncOutpointCache) [] m s ->
    order ≡ₚ map_to_list (txEntries (d_mempool s)) ->
    let m' := removeUnlisted txs order (d_mempool s) in
    Resync txTime m (inr (Z.of_nat (size (txEntries m')))) (d_notified s) m'
| rs_batched txs fetch nt m1 order :
    GetMempoolTransactions = inr txs -> 1 < effectiveBatchSize ->
    GetRawTransactionsForMempoolBatch = Some fetch ->
    resyncBatchedMissing txTime fetch (missingTxs txs m) (Z.to_nat effectiveBatchSize)
      (Some newResyncOutpointCache) m None nt m1 ->
    order ≡ₚ map_to_list (txEntries m1) ->
    let m' := removeUnlisted txs order m1 in
    Resync txTime m (inr (Z.of_nat (size (txEntries m')))) nt m'
| rs_batch_fails txs fetch e nt m1 :
    GetMempoolTransactions = inr txs -> 1 < effectiveBatchSize ->
    GetRawTransactionsForMempoolBatch = Some fetch ->
    resyncBatchedMissing txTime fetch (missingTxs txs m) (Z.to_nat effectiveBatchSize)
      (Some newResyncOutpointCache) m (Some e) nt m1 ->
    Resync txTime m (inl e) nt m1.

Definition GetTxidFilterEntries (m : BaseMempool) (scripts : string) (fromTimestamp : Z)
    : result MempoolTxidFilterEntries :=
  if bool_decide (filterScripts cfg = scripts) then
    Ok (mkFilterEntries
          (omap (fun entry => if bool_decide (te_filter entry <> []) && (fromTimestamp <=? te_time entry)
                              then Some (te_filter entry) else None) (txEntries m))
          (useZeroedKey cfg))
  else Err (ErrMsg "Unsupported script filter").

End Mempool.
