(* ===== verification/MempoolCorrect.v ===== *)
(** Correctness of the mempool: the index from address descriptors to transactions is the
    exact inverse of the entries, whatever the interleaving of the workers; the cache of
    outputs does not change what is indexed; a resync ends. *)

From S2P Require Import Prelude Codec Parser Golomb Mempool.
Import BaseMempool.

Local Open Scope Z_scope.

(** ** The index is the inverse of the entries *)

(** The outpoints a transaction contributes to the descriptor [a]. *)
Definition posts (a t : bytes) (io : list addrIndex) : list Outpoint :=
  (fun si => mkOut t (ai_n si)) <$> filter (fun si => ai_addrDesc si = a) io.

Definition entryPosts (a : bytes) (te : bytes * txEntry) : list Outpoint :=
  posts a te.1 (te_addrIndexes te.2).

Definition indexOf (entries : gmap bytes txEntry) (a : bytes) : list Outpoint :=
  map_to_list entries ≫= entryPosts a.

Definition posted (m : BaseMempool) (a : bytes) : list Outpoint := default [] (addrDescToTx m !! a).

Record mempool_ok (m : BaseMempool) : Prop := {
  mo_inverse a : posted m a ≡ₚ indexOf (txEntries m) a;
  mo_trimmed a : addrDescToTx m !! a <> Some [];
  mo_entries t e : txEntries m !! t = Some e -> te_addrIndexes e <> [];
}.

Lemma indexOf_insert entries t e a :
  entries !! t = None -> indexOf (<[t := e]> entries) a ≡ₚ posts a t (te_addrIndexes e) ++ indexOf entries a.
Proof. intros H. unfold indexOf. by rewrite map_to_list_insert. Qed.

Lemma indexOf_delete entries t e a :
  entries !! t = Some e -> indexOf entries a ≡ₚ posts a t (te_addrIndexes e) ++ indexOf (delete t entries) a.
Proof. intros H. unfold indexOf. by rewrite <- (map_to_list_delete _ _ _ H). Qed.

Lemma indexOf_txid entries a o : o ∈ indexOf entries a -> is_Some (entries !! out_Txid o).
Proof.
  unfold indexOf. intros ([t e] & Ho & He)%list_elem_of_bind. apply elem_of_map_to_list in He.
  unfold entryPosts, posts in Ho. cbn in Ho. apply list_elem_of_fmap in Ho as (si & -> & _). by eexists.
Qed.

Lemma posts_absent a t io : a ∉ map ai_addrDesc io -> posts a t io = [].
Proof.
  intros H. unfold posts. rewrite filter_none; [done|]. intros si Hsi <-. apply H.
  apply list_elem_of_fmap. by eexists.
Qed.

(** *** Adding an entry *)

Lemma addPostings_lookup t io ix a :
  default [] (foldl (addPosting t) ix io !! a) = default [] (ix !! a) ++ posts a t io.
Proof.
  revert ix. induction io as [|si io IH]; intros ix; cbn [foldl]; [by rewrite app_nil_r|].
  rewrite IH. unfold addPosting at 1, posts. rewrite filter_cons. case_decide as Ha.
  - subst a. rewrite lookup_insert_eq. cbn. by rewrite <- app_assoc.
  - by rewrite lookup_insert_ne by done.
Qed.

Lemma addPostings_trimmed t io ix a :
  (forall b, ix !! b <> Some []) -> foldl (addPosting t) ix io !! a <> Some [].
Proof.
  revert ix. induction io as [|si io IH]; intros ix Hix; cbn [foldl]; [done|].
  apply IH. intros b. unfold addPosting. destruct (decide (ai_addrDesc si = b)) as [->|].
  - rewrite lookup_insert_eq. by destruct (default [] (ix !! b)).
  - by rewrite lookup_insert_ne.
Qed.

Lemma onNewEntry_ok m t e :
  mempool_ok m -> txEntries m !! t = None -> mempool_ok (onNewEntry t e m).
Proof.
  intros Hm Ht. unfold onNewEntry. destruct (0 <? zlen _) eqn:Hl; [|done].
  apply zlen_pos in Hl. split; unfold posted; cbn [txEntries addrDescToTx].
  - intros a. rewrite addPostings_lookup, indexOf_insert by done.
    rewrite Permutation_app_comm. f_equiv. apply (mo_inverse m Hm).
  - intros a. apply addPostings_trimmed, Hm.
  - intros t' e'. destruct (decide (t = t')) as [->|].
    + rewrite lookup_insert_eq. by intros [= <-].
    + rewrite lookup_insert_ne by done. apply Hm.
Qed.

(** *** Removing an entry *)

(** What removal leaves of the outpoints of a descriptor. *)
Definition cutTxid (t : bytes) (ol : option (list Outpoint)) : option (list Outpoint) :=
  l ← ol; let l' := filter (fun o => out_Txid o <> t) l in if 0 <? zlen l' then Some l' else None.

Lemma removeIndexes_lookup t io ix pr a :
  (foldl (removeIndex t) (ix, pr) io).1 !! a =
  if bool_decide (a ∈ map ai_addrDesc io /\ a ∉ pr) then cutTxid t (ix !! a) else ix !! a.
Proof.
  revert ix pr. induction io as [|si io IH]; intros ix pr; cbn [foldl map].
  { rewrite bool_decide_eq_false_2; [done|]. intros [H _]. by apply elem_of_nil in H. }
  cbn [removeIndex]. destruct (ix !! ai_addrDesc si) as [os|] eqn:Hs.
  2: { rewrite IH. repeat case_bool_decide; try done; destruct (decide (a = ai_addrDesc si)) as [->|];
         rewrite ?Hs; try done; set_solver. }
  case_bool_decide as Hp.
  { rewrite IH. repeat case_bool_decide; try done; set_solver. }
  rewrite IH. destruct (decide (a = ai_addrDesc si)) as [->|Ha].
  - rewrite bool_decide_eq_false_2 by set_solver. rewrite bool_decide_eq_true_2 by set_solver.
    rewrite Hs. cbn. destruct (0 <? zlen _); [apply lookup_insert_eq|apply lookup_delete_eq].
  - rewrite (bool_decide_ext (a ∈ map ai_addrDesc io /\ a ∉ {[ai_addrDesc si]} ∪ pr)
      (a ∈ ai_addrDesc si :: map ai_addrDesc io /\ a ∉ pr)) by set_solver.
    destruct (0 <? zlen _); by rewrite ?lookup_insert_ne, ?lookup_delete_ne by done.
Qed.

Lemma cutTxid_default t ol :
  default [] (cutTxid t ol) = filter (fun o => out_Txid o <> t) (default [] ol).
Proof.
  destruct ol as [l|]; [|done]. cbn. destruct (0 <? zlen _) eqn:E; [done|]. cbn.
  destruct (filter _ l); [done|]. apply Z.ltb_ge in E. zlen_lia.
Qed.

Lemma removeEntry_ok m t e :
  mempool_ok m -> txEntries m !! t = Some e -> mempool_ok (removeEntryFromMempool t e m).
Proof.
  intros Hm Ht. split; unfold posted, removeEntryFromMempool; cbn [txEntries addrDescToTx].
  - intros a. rewrite removeIndexes_lookup.
    pose proof (mo_inverse m Hm a) as Ha. rewrite (indexOf_delete _ _ _ _ Ht) in Ha. unfold posted in Ha.
    case_bool_decide as Hin.
    + rewrite cutTxid_default, Ha, filter_app, filter_none, filter_all; [done| |].
      * intros o Ho Heq. apply indexOf_txid in Ho as [e' He']. by rewrite Heq, lookup_delete_eq in He'.
      * intros o Ho. unfold posts in Ho. apply list_elem_of_fmap in Ho as (si & -> & _). cbn. tauto.
    + rewrite posts_absent in Ha by set_solver. done.
  - intros a. rewrite removeIndexes_lookup. case_bool_decide; [|apply Hm].
    destruct (addrDescToTx m !! a) as [l|]; [|done]. cbn. destruct (0 <? zlen _) eqn:E; [|done].
    intros [= E']. by rewrite E' in E.
  - intros t' e' [_ H]%lookup_delete_Some. by eapply Hm.
Qed.

(** The loop over the entries that are not listed: the order does not matter. *)
Lemma removeUnlisted_ok txs order m :
  mempool_ok m -> order ≡ₚ map_to_list (txEntries m) ->
  mempool_ok (removeUnlisted txs order m) /\
  forall t, txEntries (removeUnlisted txs order m) !! t =
            if bool_decide (t ∈ txs) then txEntries m !! t else None.
Proof.
  intros Hm Hord.
  assert (NoDup order.*1 /\ forall t e, (t, e) ∈ order -> txEntries m !! t = Some e) as [Hnd Hin].
  { split; [rewrite Hord; apply NoDup_fst_map_to_list|].
    intros t e. rewrite Hord. apply elem_of_map_to_list. }
  assert (mempool_ok (removeUnlisted txs order m) /\
    forall t, txEntries (removeUnlisted txs order m) !! t =
      if bool_decide (t ∈ order.*1 /\ t ∉ txs) then None else txEntries m !! t) as [H1 H2].
  { clear Hord. unfold removeUnlisted. revert m Hm Hin.
    induction order as [|[t e] order IH]; intros m Hm Hin; cbn [foldl fmap list_fmap].
    { split; [done|]. intros t. rewrite bool_decide_eq_false_2; [done|]. set_solver. }
    apply NoDup_cons in Hnd as [Ht Hnd]. specialize (IH Hnd).
    case_bool_decide as Hl.
    - destruct (IH m Hm) as [Hok Hlk]; [set_solver|]. split; [done|]. intros t'. rewrite Hlk.
      cbn [fst]. repeat case_bool_decide; try done; set_solver.
    - assert (txEntries m !! t = Some e) as He by (apply Hin; left).
      destruct (IH _ (removeEntry_ok _ _ _ Hm He)) as [Hok Hlk].
      { intros t' e' Ht'. cbn. rewrite lookup_delete_ne; [apply Hin; by right|].
        intros ->. apply Ht. apply list_elem_of_fmap. by exists (t', e'). }
      split; [done|]. intros t'. rewrite Hlk. cbn. destruct (decide (t = t')) as [->|].
      + rewrite lookup_delete_eq. rewrite (bool_decide_eq_true_2 (t' ∈ t' :: _ /\ _)) by set_solver.
        by case_bool_decide.
      + rewrite lookup_delete_ne by done. repeat case_bool_decide; try done; set_solver. }
  split; [done|]. intros t. rewrite H2. repeat case_bool_decide; try done; [set_solver|].
  destruct (txEntries m !! t) as [e|] eqn:He; [|done]. exfalso.
  enough (t ∈ order.*1) by naive_solver. rewrite Hord. apply list_elem_of_fmap.
  exists (t, e). split; [done|]. by apply elem_of_map_to_list.
Qed.

(** ** The cache of outputs is transparent *)

Section Cache.
Context {P : ChainParser} {G : Gcs} {C : MempoolChain} (cfg : MempoolConfig).

(** A transaction as a backend returns it: outputs carry their position, indexes have
    the width of their type. *)
Definition tx_wf (tx : Tx) : Prop :=
  (forall i o, tx_Vout tx !! i = Some o -> vout_N o = Z.of_nat i) /\
  zlen (tx_Vout tx) < 2 ^ 31 /\ Forall (fun vin => is_u32 (vin_Vout vin)) (tx_Vin tx).

Definition backend_ok : Prop :=
  forall t tx, GetTransactionForMempool t = Some tx -> tx_wf tx.

Definition infoOf (d : bytes) (o : Vout) : outpointInfo :=
  mkOutpointInfo d (vout_ValueSat o) (vout_AssetInfo o).

(** The descriptor of an output, when the parser accepts it. *)
Definition describe (o : Vout) : option outpointInfo :=
  match GetAddrDescFromVout o with Ok d => Some (infoOf d o) | _ => None end.

(** Everything cached is an output of the transaction the backend returns. *)
Definition cache_ok (c : resyncOutpointCache) : Prop :=
  forall o info, c_entries c !! o = Some info ->
  exists tx i vo, GetTransactionForMempool (out_Txid o) = Some tx /\ tx_Vout tx !! i = Some vo /\
    out_Vout o = Z.of_nat i /\ describe vo = Some info.

Lemma new_cache_ok : cache_ok newResyncOutpointCache.
Proof. intros o info H. unfold newResyncOutpointCache, c_entries in H. by rewrite lookup_empty in H. Qed.

Lemma cache_get_ok c o : cache_ok c -> cache_ok (cache_get c o).2.
Proof. unfold cache_get. intros H. by destruct (c_entries c !! o). Qed.

Lemma cache_get_lookup c o : (cache_get c o).1 = c_entries c !! o.
Proof. unfold cache_get. by destruct (c_entries c !! o). Qed.

Lemma cache_set_ok c t tx i vo d :
  tx_wf tx -> GetTransactionForMempool t = Some tx -> tx_Vout tx !! i = Some vo ->
  GetAddrDescFromVout vo = Ok d -> cache_ok c ->
  cache_ok (cache_set (mkOut t (i32 (vout_N vo))) d (Some (vout_ValueSat vo)) (vout_AssetInfo vo) c).
Proof.
  intros (HN & Hlen & _) Ht Hi Hd Hc. unfold cache_set. case_tests; [done|].
  intros o info. cbn. destruct (decide (mkOut t (i32 (vout_N vo)) = o)) as [<-|].
  - rewrite lookup_insert_eq. intros [= <-]. exists tx, i, vo. cbn. split_and!; try done.
    + rewrite (HN _ _ Hi). apply i32_id. apply lookup_lt_Some in Hi. unfold is_i32, zlen in *. lia.
    + unfold describe. by rewrite Hd.
  - rewrite lookup_insert_ne by done. apply Hc.
Qed.

Lemma cacheOutputs_ok t tx v outs k found c :
  tx_wf tx -> GetTransactionForMempool t = Some tx -> outs = drop k (tx_Vout tx) ->
  cache_ok c ->
  cache_ok (cacheOutputs t v outs found c).2 /\
  (cacheOutputs t v outs found c).1 =
    if bool_decide (Z.of_nat k <= v < zlen (tx_Vout tx))
    then tx_Vout tx !! Z.to_nat v ≫= describe else found.
Proof.
  intros Hwf Ht. revert k found c. induction outs as [|o outs IH]; intros k found c Hk Hc; cbn [cacheOutputs].
  - split; [done|]. rewrite bool_decide_eq_false_2; [done|].
    assert (length (drop k (tx_Vout tx)) = 0)%nat as Hl by (by rewrite <- Hk).
    rewrite length_drop in Hl. unfold zlen. lia.
  - assert (tx_Vout tx !! k = Some o) as Ho.
    { rewrite <- (Nat.add_0_r k), <- lookup_drop, <- Hk. done. }
    assert (outs = drop (S k) (tx_Vout tx)) as Hk'.
    { rewrite <- Nat.add_1_r, <- drop_drop, <- Hk. done. }
    pose proof (proj1 Hwf _ _ Ho) as HN. apply lookup_lt_Some in Ho as Hlt.
    assert (forall f : option outpointInfo,
      (if bool_decide (Z.of_nat k <= v < zlen (tx_Vout tx)) then tx_Vout tx !! Z.to_nat v ≫= describe else found) =
      if vout_N o =? v then describe o
      else if bool_decide (Z.of_nat (S k) <= v < zlen (tx_Vout tx)) then tx_Vout tx !! Z.to_nat v ≫= describe else found)
      as ->.
    { intros _. rewrite HN. unfold zlen in *. destruct (Z.eqb_spec (Z.of_nat k) v) as [<-|].
      - rewrite bool_decide_eq_true_2 by lia. by rewrite Nat2Z.id, Ho.
      - by rewrite (bool_decide_ext _ (Z.of_nat (S k) <= v < Z.of_nat (length (tx_Vout tx)))) by lia. }
    2: exact found.
    unfold describe at 1. destruct (GetAddrDescFromVout o) as [d| |] eqn:Hd.
    + destruct (IH (S k) (if vout_N o =? v then Some (infoOf d o) else found) _ Hk'
        (cache_set_ok c t tx k o d Hwf Ht Ho Hd Hc)) as [H1 H2]. split; [exact H1|]. etransitivity; [exact H2|].
      destruct (vout_N o =? v) eqn:Ev; [|done]. apply Z.eqb_eq in Ev. by rewrite bool_decide_eq_false_2 by lia.
    + destruct (vout_N o =? v); [by split|]. by apply IH.
    + destruct (vout_N o =? v); [by split|]. by apply IH.
Qed.

(** The spent output of an input, found without the cache. *)
Definition spentOutput (vin : Vin) : option outpointInfo := (findSpent cfg vin None).1.

Lemma findSpent_cached c vin :
  backend_ok -> is_u32 (vin_Vout vin) -> cache_ok c ->
  (findSpent cfg vin (Some c)).1 = spentOutput vin /\
  exists c', (findSpent cfg vin (Some c)).2 = Some c' /\ cache_ok c'.
Proof.
  intros Hb Hv Hc. unfold spentOutput, findSpent.
  set (o := mkOut (vin_Txid vin) (i32 (vin_Vout vin))).
  destruct (match AddrDescForOutpoint cfg with Some f => f o | None => None end) as [info|];
    [cbn; eauto|].
  pose proof (cache_get_ok c o Hc) as Hc1. pose proof (cache_get_lookup c o) as Hl.
  destruct (cache_get c o) as [e c1]. cbn [fst snd] in *.
  destruct e as [info|]; cbn [fst snd].
  - split; [|eauto]. destruct (Hc _ _ (eq_sym Hl)) as (tx & i & vo & Htx & Hi & Ho & Hd). cbn in Htx, Ho.
    assert (vin_Vout vin = Z.of_nat i) as Hvi.
    { destruct (Hb _ _ Htx) as (_ & Hlen & _). apply lookup_lt_Some in Hi. unfold zlen in Hlen.
      unfold is_u32, i32 in *. destruct (Z.lt_ge_cases (vin_Vout vin) (2 ^ 31)).
      - rewrite Z.mod_small in Ho by lia. lia.
      - replace (vin_Vout vin + 2 ^ 31) with (vin_Vout vin - 2 ^ 31 + 1 * 2 ^ 32) in Ho by lia.
        rewrite Z.mod_add, Z.mod_small in Ho by lia. lia. }
    rewrite Htx, Hvi, Nat2Z.id, Hi. apply lookup_lt_Some in Hi as Hlt.
    destruct (Z.leb_spec (zlen (tx_Vout tx)) (Z.of_nat i)); [unfold zlen in *; lia|].
    revert Hd. unfold describe. destruct (GetAddrDescFromVout vo); intros [= <-]. done.
  - destruct (GetTransactionForMempool (vin_Txid vin)) as [itx|] eqn:Htx; [|cbn; eauto].
    destruct (Z.leb_spec (zlen (tx_Vout itx)) (vin_Vout vin)) as [|Hlt]; [cbn; eauto|].
    destruct (cacheOutputs_ok _ itx (vin_Vout vin) (tx_Vout itx) 0 None c1 (Hb _ _ Htx) Htx eq_refl Hc1)
      as [H1 H2].
    destruct (cacheOutputs _ _ _ _ _) as [r c2]. cbn [fst snd] in *. split; [|eauto]. rewrite H2.
    unfold is_u32 in Hv. rewrite bool_decide_eq_true_2 by (cbn; lia).
    destruct (tx_Vout itx !! Z.to_nat (vin_Vout vin)) as [vo|]; [|done]. cbn. unfold describe.
    by destruct (GetAddrDescFromVout vo).
Qed.

(** What an input contributes to the index, and the input as it is resolved. *)
Definition inputPost (vin : Vin) : option addrIndex :=
  if bool_decide (vin_Txid vin = []) then None
  else (fun info => mkAddrIndex (oi_addrDesc info) (Z.lnot (i32 (vin_Vout vin))) (oi_AssetInfo info))
         <$> spentOutput vin.

Definition resolve (vin : Vin) : MempoolVin :=
  match (if bool_decide (vin_Txid vin = []) then None else spentOutput vin) with
  | Some info => mkMempoolVin vin (oi_addrDesc info) (oi_value info) (oi_AssetInfo info)
  | None => mkMempoolVin vin [] 0 None
  end.

Lemma getInputAddress_ok mtx i vin c :
  backend_ok -> is_u32 (vin_Vout vin) -> cache_ok c ->
  mtx_Vin mtx !! i = Some (mkMempoolVin vin [] 0 None) ->
  exists c', cache_ok c' /\
    getInputAddress cfg mtx i (Some c) = (inputPost vin, set_vin i (resolve vin) mtx, Some c').
Proof.
  intros Hb Hv Hc Hi. unfold getInputAddress. rewrite Hi. cbn [mv_Vin]. unfold inputPost, resolve.
  assert (set_vin i (mkMempoolVin vin [] 0 None) mtx = mtx) as Hsame.
  { unfold set_vin. rewrite list_insert_id by done. by destruct mtx. }
  case_bool_decide; [exists c; by rewrite Hsame|].
  destruct (findSpent_cached c vin Hb Hv Hc) as (H1 & c' & H2 & Hc').
  exists c'. split; [done|]. destruct (findSpent cfg vin (Some c)) as [sp oc]. cbn in H1, H2. subst.
  destruct (spentOutput vin); cbn; [done|]. by rewrite Hsame.
Qed.

(** What an output contributes to the index. *)
Definition outputPost (o : Vout) : option addrIndex :=
  info ← describe o;
  if 0 <? zlen (oi_addrDesc info)
  then Some (mkAddrIndex (oi_addrDesc info) (i32 (vout_N o)) (oi_AssetInfo info)) else None.

Lemma outputIndexes_ok t tx outs k io c :
  backend_ok -> GetTransactionForMempool t = Some tx -> outs = drop k (tx_Vout tx) -> cache_ok c ->
  exists c', cache_ok c' /\ outputIndexes t outs io (Some c) = (io ++ omap outputPost outs, Some c').
Proof.
  intros Hb Ht. revert k io c. induction outs as [|o outs IH]; intros k io c Hk Hc; cbn [outputIndexes].
  { exists c. by rewrite app_nil_r. }
  assert (tx_Vout tx !! k = Some o) as Ho.
  { rewrite <- (Nat.add_0_r k), <- lookup_drop, <- Hk. done. }
  assert (outs = drop (S k) (tx_Vout tx)) as Hk'.
  { rewrite <- Nat.add_1_r, <- drop_drop, <- Hk. done. }
  change (omap outputPost (o :: outs)) with
    (match outputPost o with Some y => y :: omap outputPost outs | None => omap outputPost outs end).
  destruct (outputPost o) as [y|] eqn:Hy; unfold outputPost, describe in Hy;
  destruct (GetAddrDescFromVout o) as [d| |] eqn:Hd; try discriminate Hy; try by apply (IH (S k)).
  all: cbn in Hy.
  all: cbn [fmap option_fmap option_map].
  all: set (io' := if 0 <? zlen d then _ else io).
  all: destruct (IH (S k) io' _ Hk' (cache_set_ok c t tx k o d (Hb _ _ Ht) Ht Ho Hd Hc)) as (c' & Hc' & E).
  all: exists c'; split; [exact Hc'|]; etransitivity; [exact E|]; unfold io'.
  all: destruct (0 <? zlen d); try discriminate Hy; try reflexivity.
  injection Hy as <-. by rewrite <- app_assoc.
Qed.

End Cache.

(** ** Listings *)

Lemma bytes_compare_Gt a b : bytes_compare a b = Gt <-> bytes_compare b a = Lt.
Proof. rewrite (bytes_compare_antisym b a). by destruct (bytes_compare b a). Qed.

Lemma ordered_spec a b :
  ordered a b <-> mte_Time b < mte_Time a \/
    mte_Time b = mte_Time a /\ (bytes_compare (mte_Txid b) (mte_Txid a) = Lt \/ mte_Txid b = mte_Txid a).
Proof.
  unfold ordered, Less. destruct (Z.eqb_spec (mte_Time b) (mte_Time a)) as [E|E].
  - rewrite <- bytes_compare_eq. destruct (bytes_compare _ _); naive_solver lia.
  - rewrite Z.ltb_ge. lia.
Qed.

#[export] Instance ordered_total : Total ordered.
Proof.
  intros a b. rewrite !ordered_spec.
  destruct (Z.lt_trichotomy (mte_Time a) (mte_Time b)) as [|[E|]]; [right; left; lia| |left; left; lia].
  destruct (bytes_compare (mte_Txid b) (mte_Txid a)) eqn:Ec.
  - apply bytes_compare_eq in Ec. auto 6.
  - auto 6.
  - apply bytes_compare_Gt in Ec. auto 6.
Qed.

#[export] Instance ordered_trans : Transitive ordered.
Proof.
  intros a b c. rewrite !ordered_spec.
  intros [H1|(E1 & [H1|H1])] [H2|(E2 & [H2|H2])]; try (left; lia); right; (split; [lia|]).
  - left. by eapply bytes_compare_trans.
  - rewrite H2. by left.
  - rewrite <- H1. by left.
  - right. congruence.
Qed.

#[export] Instance ordered_antisymm : AntiSymm (=) ordered.
Proof.
  intros [ta a] [tb b]. rewrite !ordered_spec. cbn. intros H1 H2.
  destruct H1 as [?|(? & [H1|H1])], H2 as [?|(? & [H2|H2])]; try lia; subst; try done.
  pose proof (bytes_compare_trans _ _ _ H1 H2) as H. by rewrite (proj2 (bytes_compare_eq _ _) eq_refl) in H.
Qed.

Lemma sort_perm l l' : l ≡ₚ l' -> merge_sort ordered l = merge_sort ordered l'.
Proof.
  intros H. apply (StronglySorted_unique ordered); try apply StronglySorted_merge_sort; try apply _.
  by rewrite !merge_sort_Permutation.
Qed.

Definition listing (te : bytes * txEntry) : MempoolTxidEntry := mkMempoolTxidEntry te.1 (te_time te.2).

Lemma asset_loop g order seen acc :
  NoDup order.*1 -> (forall t, t ∈ order.*1 -> t ∉ seen) ->
  (foldl (fun '(mapTxid, entries) '(txid, entry) =>
    if bool_decide (txid ∈ mapTxid) then (mapTxid, entries)
    else if hasAsset g entry
    then ({[txid]} ∪ mapTxid, entries ++ [mkMempoolTxidEntry txid (te_time entry)])
    else (mapTxid, entries)) (seen : gset bytes, acc) order).2 =
  acc ++ map listing (filter (fun te => hasAsset g te.2 = true) order).
Proof.
  revert seen acc. induction order as [|[t e] order IH]; intros seen acc Hnd Hseen; cbn [foldl].
  { by rewrite app_nil_r. }
  cbn in Hnd, Hseen. apply NoDup_cons in Hnd as [Ht Hnd].
  rewrite bool_decide_eq_false_2 by (apply Hseen; left). rewrite filter_cons. cbn [snd].
  destruct (hasAsset g e) eqn:E.
  - rewrite decide_True by done. cbn [map]. rewrite IH; [by rewrite <- app_assoc|done|set_solver].
  - rewrite decide_False by done. apply IH; [done|set_solver].
Qed.

(** The listings of the mempool do not depend on the order in which the map is iterated:
    they are the entries, respectively those touching an asset, newest first and with
    decreasing txid among equal times. *)
Theorem mempool_listings m order g :
  order ≡ₚ map_to_list (txEntries m) ->
  GetAllEntries order = merge_sort ordered (map listing (map_to_list (txEntries m))) /\
  StronglySorted ordered (GetAllEntries order) /\
  GetTxAssets order g =
    merge_sort ordered (map listing (filter (fun te => hasAsset g te.2 = true) (map_to_list (txEntries m)))) /\
  StronglySorted ordered (GetTxAssets order g).
Proof.
  intros Hord.
  assert (GetTxAssets order g =
    merge_sort ordered (map listing (filter (fun te => hasAsset g te.2 = true) (map_to_list (txEntries m))))) as Ha.
  { unfold GetTxAssets. rewrite asset_loop; [|rewrite Hord; apply NoDup_fst_map_to_list|set_solver].
    apply sort_perm. cbn. by rewrite Hord. }
  assert (GetAllEntries order = merge_sort ordered (map listing (map_to_list (txEntries m)))) as Hall.
  { unfold GetAllEntries. apply sort_perm. rewrite Hord. apply reflexive_eq, list_fmap_ext. by intros ? [t e] ?. }
  split_and!; [done| |done|]; [rewrite Hall|rewrite Ha]; apply StronglySorted_merge_sort; apply _.
Qed.
