(* ===== verification/MempoolResync.v ===== *)
(** The resync of the mempool over all interleavings of its workers. *)

From S2P Require Import Prelude Codec Parser Golomb Mempool MempoolCorrect.
Import BaseMempool.

Local Open Scope Z_scope.

Section Resync.
Context {P : ChainParser} {G : Gcs} {C : MempoolChain} (cfg : MempoolConfig) (now : Z) (txTime : Z).

(** ** What a transaction should contribute *)

Definition inputAt (tx : Tx) (i : nat) : option addrIndex := tx_Vin tx !! i ≫= inputPost cfg.

(** The address indexes of a transaction, found without cache and workers. *)
Definition txPosts (tx : Tx) : list addrIndex :=
  omap outputPost (tx_Vout tx) ++ omap (inputAt tx) (dispatchedInputs tx).

(** The transaction with all inputs resolved but those in [todo]. *)
Definition resolvedTx (todo : list nat) (tx : Tx) : MempoolTx :=
  mkMempoolTx (tx_Hex tx) (tx_Txid tx) (tx_Version tx) (tx_LockTime tx) (tx_VSize tx)
    (imap (fun i vin => if bool_decide (i ∈ todo \/ isDispatched tx i = false)
                        then mkMempoolVin vin [] 0 None else resolve cfg vin) (tx_Vin tx))
    (tx_Vout tx) now.

Definition txFilter (tx : Tx) : bytes :=
  if 0 <? golombFilterP cfg then computeGolombFilter cfg (resolvedTx [] tx) tx else [].

Definition entry_for (t : bytes) (e : txEntry) : Prop :=
  exists tx, GetTransactionForMempool t = Some tx /\
    te_addrIndexes e ≡ₚ txPosts tx /\ te_filter e = txFilter tx /\
    te_time e = txTime /\ te_from e = [] /\ te_nonce e = 0.

(** The call of [OnNewTx] for a transaction. *)
Definition notification (t : bytes) : option MempoolTx := resolvedTx [] <$> GetTransactionForMempool t.

(** ** Invariant of the workers *)

Definition payload_ok (p : txPayload) : Prop := payloadTx p = GetTransactionForMempool (tp_txid p).

Record job_ok (j : Job) : Prop := {
  jo_tx : GetTransactionForMempool (j_txid j) = Some (j_tx j);
  jo_nodup : NoDup (j_todo j);
  jo_todo i : i ∈ j_todo j -> isDispatched (j_tx j) i = true;
  jo_mtx : j_mtx j = resolvedTx (j_todo j) (j_tx j);
  jo_io : j_io j ++ omap id (j_results j) ++ omap (inputAt (j_tx j)) (j_todo j) ≡ₚ txPosts (j_tx j);
}.

Definition result_ok (r : txidio) : Prop :=
  match GetTransactionForMempool (tio_txid r) with
  | Some tx => tio_io r ≡ₚ txPosts tx /\ tio_filter r = txFilter tx
  | None => tio_io r = []
  end.

Definition workIds (s : Dispatch) : list bytes :=
  (tp_txid <$> d_queue s) ++ (tp_txid <$> d_sent s) ++ (j_txid <$> d_jobs s).

Definition pendingIds (s : Dispatch) : list bytes := workIds s ++ (tio_txid <$> d_results s).

(** What is with the workers is sound. *)
Record work_ok (nt0 : list MempoolTx) (missing : list bytes) (s : Dispatch) : Prop := {
  wo_cache : exists c, d_cache s = Some c /\ cache_ok c;
  wo_payloads : Forall payload_ok (d_queue s ++ d_sent s);
  wo_jobs : Forall job_ok (d_jobs s);
  wo_results : Forall result_ok (d_results s);
  wo_notified : d_notified s ++ omap notification (workIds s) ≡ₚ nt0 ++ omap notification missing;
}.

Lemma startTx_ok t tx c :
  backend_ok -> GetTransactionForMempool t = Some tx -> cache_ok c ->
  exists j c', startTx now t tx (Some c) = (j, Some c') /\ cache_ok c' /\ job_ok j /\ j_txid j = t.
Proof.
  intros Hb Ht Hc. unfold startTx.
  destruct (outputIndexes_ok t tx (tx_Vout tx) 0 [] c Hb Ht eq_refl Hc) as (c' & Hc' & ->).
  eexists _, c'. split_and!; [reflexivity|done| |done].
  split; cbn.
  - done.
  - apply NoDup_filter, NoDup_seq.
  - by intros i [? _]%list_elem_of_filter.
  - unfold txToMempoolTx, resolvedTx. f_equal. apply list_eq. intros i.
    rewrite list_lookup_fmap, list_lookup_imap. destruct (tx_Vin tx !! i) as [vin|] eqn:Hi; [|done].
    cbn. f_equal. rewrite bool_decide_eq_true_2; [done|].
    destruct (isDispatched tx i) eqn:Hd; [left|by right].
    apply list_elem_of_filter. split; [done|]. apply elem_of_seq. apply lookup_lt_Some in Hi. lia.
  - reflexivity.
Qed.

Lemma resolvedTx_step tx i1 i i2 vin :
  tx_Vin tx !! i = Some vin -> isDispatched tx i = true -> NoDup (i1 ++ i :: i2) ->
  set_vin i (resolve cfg vin) (resolvedTx (i1 ++ i :: i2) tx) = resolvedTx (i1 ++ i2) tx.
Proof.
  intros Hi Hd Hnd. unfold set_vin, resolvedTx. cbn. f_equal. apply list_eq. intros k.
  apply lookup_lt_Some in Hi as Hlt. destruct (decide (i = k)) as [<-|Hne].
  - rewrite list_lookup_insert_eq by (by rewrite length_imap).
    rewrite list_lookup_imap, Hi. cbn. f_equal. rewrite bool_decide_eq_false_2; [done|].
    rewrite Hd. apply NoDup_app in Hnd as (_ & H1 & [H2 _]%NoDup_cons). set_solver.
  - rewrite list_lookup_insert_ne by done. rewrite !list_lookup_imap.
    destruct (tx_Vin tx !! k); [|done]. cbn. f_equal.
    by rewrite (bool_decide_ext _ (k ∈ i1 ++ i2 \/ isDispatched tx k = false)) by set_solver.
Qed.

Lemma input_step_ok t tx mtx i1 i i2 rs io c r mtx' oc' :
  backend_ok -> cache_ok c -> job_ok (mkJob t tx mtx (i1 ++ i :: i2) rs io) ->
  getInputAddress cfg mtx i (Some c) = (r, mtx', oc') ->
  job_ok (mkJob t tx mtx' (i1 ++ i2) (rs ++ [r]) io) /\ exists c', oc' = Some c' /\ cache_ok c'.
Proof.
  intros Hb Hc [Htx Hnd Htodo Hmtx Hio] Hg. cbn in *.
  assert (isDispatched tx i = true) as Hd by (apply Htodo; set_solver).
  destruct (tx_Vin tx !! i) as [vin|] eqn:Hi; [|by unfold isDispatched in Hd; rewrite Hi in Hd].
  assert (mtx_Vin mtx !! i = Some (mkMempoolVin vin [] 0 None)) as Hmi.
  { rewrite Hmtx. cbn. rewrite list_lookup_imap, Hi. cbn. by rewrite bool_decide_eq_true_2 by set_solver. }
  assert (is_u32 (vin_Vout vin)) as Hv.
  { destruct (Hb _ _ Htx) as (_ & _ & Hall). eapply Forall_lookup_1 in Hall; eauto. }
  destruct (getInputAddress_ok cfg mtx i vin c Hb Hv Hc Hmi) as (c' & Hc' & E).
  rewrite E in Hg. injection Hg as <- <- <-. split; [|eauto]. split; cbn.
  - done.
  - apply NoDup_app in Hnd as (? & ? & [? ?]%NoDup_cons). apply NoDup_app. set_solver.
  - set_solver.
  - subst mtx. by apply resolvedTx_step.
  - assert (inputAt tx i = inputPost cfg vin) as Ha by (unfold inputAt; by rewrite Hi).
    rewrite <- Hio. rewrite !omap_app. cbn. rewrite Ha.
    destruct (inputPost cfg vin); cbn; perm.
Qed.

Lemma collect_step_ok t tx mtx todo r1 r r2 io :
  job_ok (mkJob t tx mtx todo (r1 ++ r :: r2) io) ->
  job_ok (mkJob t tx mtx todo (r1 ++ r2) (io ++ option_list r)).
Proof.
  intros [Htx Hnd Htodo Hmtx Hio]. split; cbn in *; try done.
  rewrite <- Hio, !omap_app. cbn. destruct r; cbn; perm.
Qed.

Lemma finish_step_ok t tx mtx io :
  job_ok (mkJob t tx mtx [] [] io) ->
  result_ok (finishTx cfg (mkJob t tx mtx [] [] io)) /\ notification t = Some mtx.
Proof.
  intros [Htx Hnd Htodo Hmtx Hio]. cbn in *. unfold result_ok, notification. cbn. rewrite Htx. cbn.
  rewrite app_nil_r in Hio. subst mtx. done.
Qed.

(** The identifiers only move between the queues in all steps but the last. *)
Ltac work_ids := unfold pendingIds, workIds; cbn; rewrite !fmap_app; cbn; perm.

Ltac work_start H :=
  destruct H as [(?c & Hc & Hcok) Hp Hj Hr Hn]; unfold workIds in *;
  cbn [d_queue d_sent d_jobs d_results d_cache d_notified d_mempool] in *; subst;
  split; unfold workIds; cbn [d_queue d_sent d_jobs d_results d_cache d_notified d_mempool]; try done.

Section Steps.
Context (nt0 : list MempoolTx) (missing : list bytes) (Hb : backend_ok).
Notation work := (work_ok nt0 missing).

Lemma send_ok p q sent jobs res c nt m :
  work (mkDispatch (p :: q) sent jobs res c nt m) -> work (mkDispatch q (sent ++ [p]) jobs res c nt m).
Proof.
  intros H. work_start H.
  - by exists c0.
  - rewrite app_assoc, Forall_app, Forall_singleton. by apply Forall_cons in Hp as [? ?].
  - rewrite <- Hn. apply Permutation_app_head, omap_Permutation. rewrite fmap_app. cbn. perm.
Qed.

Lemma fetch_fails_ok q s1 p s2 jobs res c nt m :
  work (mkDispatch q (s1 ++ p :: s2) jobs res c nt m) -> payloadTx p = None ->
  work (mkDispatch q (s1 ++ s2) jobs (res ++ [mkTxidio (tp_txid p) [] []]) c nt m).
Proof.
  intros H Hpt. work_start H; rewrite !Forall_app, Forall_cons in Hp; destruct Hp as (Hq & Hs1 & Hp & Hs2);
    unfold payload_ok in Hp; rewrite Hpt in Hp.
  - by exists c0.
  - by rewrite !Forall_app.
  - rewrite Forall_app, Forall_singleton. split; [done|]. unfold result_ok. cbn. by rewrite <- Hp.
  - assert (notification (tp_txid p) = None) as E by (unfold notification; by rewrite <- Hp).
    rewrite <- Hn, !fmap_app, !omap_app. cbn. rewrite E. done.
Qed.

Lemma fetch_ok q s1 p s2 jobs res c nt m tx j c' :
  work (mkDispatch q (s1 ++ p :: s2) jobs res c nt m) -> payloadTx p = Some tx ->
  startTx now (tp_txid p) tx c = (j, c') ->
  j_txid j = tp_txid p /\ work (mkDispatch q (s1 ++ s2) (jobs ++ [j]) res c' nt m).
Proof.
  intros H Hpt Hst. pose proof (wo_payloads _ _ _ H) as Hp. cbn in Hp.
  rewrite !Forall_app, Forall_cons in Hp. destruct Hp as (Hq & Hs1 & Hp & Hs2).
  unfold payload_ok in Hp. rewrite Hpt in Hp. destruct (wo_cache _ _ _ H) as (c0 & E0 & Hc0).
  cbn in E0. subst c. destruct (startTx_ok _ tx c0 Hb (eq_sym Hp) Hc0) as (j' & c1 & E & Hc1 & Hj' & Hid).
  rewrite E in Hst. injection Hst as <- <-. split; [done|].
  clear Hp. work_start H.
  - by exists c1.
  - by rewrite !Forall_app.
  - by rewrite Forall_app, Forall_singleton.
  - rewrite <- Hn. apply Permutation_app_head, omap_Permutation. rewrite !fmap_app. cbn. rewrite Hid. perm.
Qed.

Lemma input_ok q sent j1 t tx mtx i1 i i2 rs io j2 res c nt m r mtx' c' :
  work (mkDispatch q sent (j1 ++ mkJob t tx mtx (i1 ++ i :: i2) rs io :: j2) res c nt m) ->
  getInputAddress cfg mtx i c = (r, mtx', c') ->
  work (mkDispatch q sent (j1 ++ mkJob t tx mtx' (i1 ++ i2) (rs ++ [r]) io :: j2) res c' nt m).
Proof.
  intros H Hg. destruct (wo_cache _ _ _ H) as (c0 & E0 & Hc0). cbn in E0. subst c.
  work_start H; rewrite Forall_app, Forall_cons in Hj; destruct Hj as (Hj1 & Hj & Hj2);
    destruct (input_step_ok _ _ _ _ _ _ _ _ _ _ _ _ Hb Hc0 Hj Hg) as (Hj' & c1 & -> & Hc1).
  - by exists c1.
  - by rewrite Forall_app, Forall_cons.
  - rewrite <- Hn. by rewrite !fmap_app.
Qed.

Lemma collect_ok q sent j1 t tx mtx todo r1 r r2 io j2 res c nt m :
  work (mkDispatch q sent (j1 ++ mkJob t tx mtx todo (r1 ++ r :: r2) io :: j2) res c nt m) ->
  work (mkDispatch q sent (j1 ++ mkJob t tx mtx todo (r1 ++ r2) (io ++ option_list r) :: j2) res c nt m).
Proof.
  intros H. work_start H.
  - by exists c0.
  - rewrite Forall_app, Forall_cons in *. destruct Hj as (Hj1 & Hj & Hj2).
    split_and!; [done|by eapply collect_step_ok|done].
  - rewrite <- Hn. by rewrite !fmap_app.
Qed.

Lemma finish_ok q sent j1 t tx mtx io j2 res c nt m :
  work (mkDispatch q sent (j1 ++ mkJob t tx mtx [] [] io :: j2) res c nt m) ->
  work (mkDispatch q sent (j1 ++ j2) (res ++ [finishTx cfg (mkJob t tx mtx [] [] io)]) c (nt ++ [mtx]) m).
Proof.
  intros H. work_start H; rewrite Forall_app, Forall_cons in Hj; destruct Hj as (Hj1 & Hj & Hj2);
    destruct (finish_step_ok _ _ _ _ Hj) as [Hres Hnot].
  - by exists c0.
  - by rewrite Forall_app.
  - by rewrite Forall_app, Forall_singleton.
  - rewrite <- Hn, !fmap_app, !omap_app. cbn. rewrite Hnot. perm.
Qed.

Lemma work_step s s' :
  work s -> rstep cfg now txTime s s' ->
  work s' /\
  (pendingIds s' ≡ₚ pendingIds s /\ d_mempool s' = d_mempool s \/
   exists r, result_ok r /\ pendingIds s ≡ₚ tio_txid r :: pendingIds s' /\
     d_mempool s' = onNewEntry (tio_txid r) (mkTxEntry (tio_io r) txTime (tio_filter r) [] 0) (d_mempool s)).
Proof.
  intros H Hs. destruct Hs as [| | ? ? ? ? ? ? ? ? ? ? ? ? Hpt Hst | | | |].
  - split; [by apply send_ok|left; split; [work_ids|done]].
  - split; [by apply fetch_fails_ok|left; split; [work_ids|done]].
  - destruct (fetch_ok _ _ _ _ _ _ _ _ _ _ _ _ H Hpt Hst) as [Hid Hw]. split; [done|left; split; [|done]].
    unfold pendingIds, workIds. cbn. rewrite !fmap_app. cbn. rewrite Hid. perm.
  - split; [by eapply input_ok|left; split; [work_ids|done]].
  - split; [by apply collect_ok|left; split; [work_ids|done]].
  - split; [by apply finish_ok|left; split; [work_ids|done]].
  - pose proof (wo_results _ _ _ H) as Hres. cbn in Hres. rewrite Forall_app, Forall_cons in Hres.
    destruct Hres as (Hr1 & Hr2 & Hr3). split; [|right; exists tio; split_and!; [done|work_ids|done]].
    work_start H; [by exists c0|by rewrite Forall_app].
Qed.

End Steps.

(** ** Invariant of the mempool *)

(** The mempool after the transactions of [missing] that are not in [pending] were added
    to the entries [old]. *)
Record entries_ok (old : gmap bytes txEntry) (missing pending : list bytes) (m : BaseMempool) : Prop := {
  eo_ok : mempool_ok m;
  eo_nodup : NoDup pending;
  eo_pending t : t ∈ pending -> t ∈ missing;
  eo_missing t : t ∈ missing -> old !! t = None;
  eo_old t e : old !! t = Some e -> txEntries m !! t = Some e;
  eo_new t e : txEntries m !! t = Some e ->
    old !! t = Some e \/ t ∈ missing /\ t ∉ pending /\ entry_for t e;
  eo_complete t tx : t ∈ missing -> t ∉ pending -> GetTransactionForMempool t = Some tx ->
    txPosts tx <> [] -> is_Some (txEntries m !! t);
}.

Lemma entries_ok_perm old missing p p' m :
  p' ≡ₚ p -> entries_ok old missing p m -> entries_ok old missing p' m.
Proof. intros Hp [Ho Hnd Hpm Hm Hold Hnew Hc]. by split; try setoid_rewrite Hp. Qed.

Lemma onNewEntry_lookup m t e t' :
  txEntries (onNewEntry t e m) !! t' =
  if bool_decide (t = t' /\ te_addrIndexes e <> []) then Some e else txEntries m !! t'.
Proof.
  unfold onNewEntry. destruct (0 <? zlen _) eqn:El.
  - apply zlen_pos in El. cbn. destruct (decide (t = t')) as [->|].
    + by rewrite lookup_insert_eq, bool_decide_eq_true_2.
    + rewrite lookup_insert_ne by done. rewrite bool_decide_eq_false_2; [done|naive_solver].
  - rewrite bool_decide_eq_false_2; [done|]. intros [_ H%zlen_pos]. congruence.
Qed.

Lemma receive_ok old missing r p m :
  result_ok r -> entries_ok old missing (tio_txid r :: p) m ->
  entries_ok old missing p (onNewEntry (tio_txid r) (mkTxEntry (tio_io r) txTime (tio_filter r) [] 0) m).
Proof.
  intros Hr [Ho Hnd Hpm Hm Hold Hnew Hc]. apply NoDup_cons in Hnd as [Ht Hnd].
  assert (tio_txid r ∈ missing) as Hin by (apply Hpm; left).
  assert (txEntries m !! tio_txid r = None) as Hnone.
  { destruct (txEntries m !! tio_txid r) as [e|] eqn:E; [|done]. exfalso.
    destruct (Hnew _ _ E) as [H|(_ & H & _)]; [by rewrite Hm in H|]. apply H. left. }
  split; [by apply onNewEntry_ok|done|by intros t Hp; apply Hpm; right|done| | |].
  - intros t e He. rewrite onNewEntry_lookup, bool_decide_eq_false_2; [by apply Hold|].
    intros [<- _]. by rewrite Hm in He.
  - intros t e. rewrite onNewEntry_lookup. case_bool_decide as Hcase.
    + intros [= <-]. destruct Hcase as [<- Hne]. right. split_and!; [done..|]. unfold result_ok in Hr.
      destruct (GetTransactionForMempool (tio_txid r)) as [tx|] eqn:E; [|done].
      destruct Hr as [Hio Hf]. by exists tx.
    + intros He. destruct (Hnew _ _ He) as [?|(? & ? & ?)]; [by left|right]. set_solver.
  - intros t tx Htm Htp Htx Hne. rewrite onNewEntry_lookup. case_bool_decide as Hcase; [done|].
    destruct (decide (t = tio_txid r)) as [->|Hne'].
    + exfalso. apply Hcase. split; [done|]. cbn. unfold result_ok in Hr. rewrite Htx in Hr.
      destruct Hr as [Hio _]. intros E. rewrite E in Hio. by apply Permutation_nil_l in Hio.
    + apply (Hc t tx); try done. set_solver.
Qed.

Lemma run_ok nt0 old missing s s' :
  backend_ok -> work_ok nt0 missing s -> entries_ok old missing (pendingIds s) (d_mempool s) ->
  rtc (rstep cfg now txTime) s s' ->
  work_ok nt0 missing s' /\ entries_ok old missing (pendingIds s') (d_mempool s').
Proof.
  intros Hb Hw He Hr. induction Hr as [|s s1 s2 Hs Hr IH]; [done|].
  destruct (work_step nt0 missing Hb s s1 Hw Hs) as [Hw1 [[Hp Hm]|(r & Hres & Hp & Hm)]].
  - apply IH; [done|]. rewrite Hm. by eapply entries_ok_perm.
  - apply IH; [done|]. rewrite Hm. apply receive_ok; [done|]. by eapply entries_ok_perm.
Qed.

Definition synced old missing m := entries_ok old missing [] m.

(** [dispatchResyncPayloads] adds the given transactions, in any interleaving. *)
Lemma dispatch_ok txids cache c nt m s :
  backend_ok -> cache_ok c -> mempool_ok m -> NoDup txids ->
  (forall t, t ∈ txids -> txEntries m !! t = None) ->
  (forall t tx, cache !! t = Some tx -> GetTransactionForMempool t = Some tx) ->
  dispatchResyncPayloads cfg now txTime txids cache (Some c) nt m s ->
  synced (txEntries m) txids (d_mempool s) /\
  d_notified s ≡ₚ nt ++ omap notification txids /\
  exists c', d_cache s = Some c' /\ cache_ok c'.
Proof.
  intros Hb Hc Hm Hnd Hnone Hcache [Hrun (Hq & Hs & Hj & Hr)].
  assert (tp_txid <$> payloads txids cache = txids) as Hids.
  { unfold payloads. rewrite <- list_fmap_compose. apply list_fmap_id. }
  assert (pendingIds (startDispatch txids cache (Some c) nt m) = txids) as Hp.
  { unfold pendingIds, workIds. cbn. by rewrite Hids, !app_nil_r. }
  destruct (run_ok nt (txEntries m) txids (startDispatch txids cache (Some c) nt m) s) as [Hw He]; [done| | |done|].
  - split; cbn; try done; [by exists c| |].
    + rewrite app_nil_r. apply Forall_fmap, Forall_forall. intros t _. unfold payload_ok, payloadTx. cbn.
      destruct (cache !! t) as [tx|] eqn:E; [symmetry; by apply Hcache|done].
    + unfold workIds. cbn. by rewrite Hids, !app_nil_r.
  - rewrite Hp. split; try done. intros t e He. by left.
  - unfold pendingIds, workIds in He. rewrite Hq, Hs, Hj, Hr in He. split; [exact He|].
    destruct Hw as [Hwc _ _ _ Hwn]. unfold workIds in Hwn. rewrite Hq, Hs, Hj in Hwn. cbn in Hwn.
    by rewrite app_nil_r in Hwn.
Qed.

Lemma synced_app old l1 m1 l2 m2 :
  synced old l1 m1 -> synced (txEntries m1) l2 m2 -> synced old (l1 ++ l2) m2.
Proof.
  intros H1 H2.
  assert (forall t, t ∈ l2 -> old !! t = None) as Hl2.
  { intros t Ht. destruct (old !! t) as [e|] eqn:E; [|done].
    apply (eo_old _ _ _ _ H1) in E. by rewrite (eo_missing _ _ _ _ H2) in E. }
  split.
  - apply H2.
  - constructor.
  - intros t Ht. by apply elem_of_nil in Ht.
  - intros t [Ht|Ht]%elem_of_app; [by eapply H1|by apply Hl2].
  - intros t e He. by apply H2, H1.
  - intros t e He. destruct (eo_new _ _ _ _ H2 _ _ He) as [He1|(Ht & _ & Hf)]; [|set_solver].
    destruct (eo_new _ _ _ _ H1 _ _ He1) as [?|(Ht & _ & Hf)]; [by left|set_solver].
  - intros t tx [Ht|Ht]%elem_of_app Hn Htx Hne.
    + destruct (eo_complete _ _ _ _ H1 t tx Ht Hn Htx Hne) as [e He]. exists e. by apply H2.
    + by eapply (eo_complete _ _ _ _ H2).
Qed.

Lemma synced_nil m : mempool_ok m -> synced (txEntries m) [] m.
Proof.
  intros H. split; [done|constructor|by intros ? []%elem_of_nil|by intros ? []%elem_of_nil|done|by left|].
  by intros ? ? []%elem_of_nil.
Qed.

(** A batch returns what the backend returns for a single transaction. *)
Definition batch_ok : Prop :=
  forall fetch b cache t tx, GetRawTransactionsForMempoolBatch = Some fetch -> fetch b = inr cache ->
    cache !! t = Some tx -> GetTransactionForMempool t = Some tx.

Lemma dispatchBatches_ok fetch bs c nt m oc' nt' m' :
  backend_ok -> batch_ok -> GetRawTransactionsForMempoolBatch = Some fetch ->
  cache_ok c -> mempool_ok m -> NoDup (concat bs) ->
  (forall t, t ∈ concat bs -> txEntries m !! t = None) ->
  dispatchBatches cfg now txTime fetch bs (Some c) nt m oc' nt' m' ->
  synced (txEntries m) (concat bs) m' /\ nt' ≡ₚ nt ++ omap notification (concat bs).
Proof.
  intros Hb Hbatch Hf Hc Hm Hnd Hnone Hd. remember (Some c) as oc eqn:Eoc. revert c Eoc Hc Hm Hnd Hnone.
  induction Hd as [oc nt m|b bs cache oc nt m s oc' nt' m' Hfb Hrun Hd IH]; intros c -> Hc Hm Hnd Hnone.
  { split; [by apply synced_nil|]. cbn. by rewrite app_nil_r. }
  cbn [concat] in *. apply NoDup_app in Hnd as (Hnb & Hdis & Hnd).
  destruct (dispatch_ok b cache c nt m s) as (Hs & Hnt & c' & Hc' & Hcok); [done..|set_solver| |done|].
  { intros t tx. by apply (Hbatch fetch b cache). }
  destruct (IH c' Hc' Hcok (eo_ok _ _ _ _ Hs) Hnd) as [Hs' Hnt'].
  - intros t Ht. destruct (txEntries (d_mempool s) !! t) as [e|] eqn:E; [|done]. exfalso.
    destruct (eo_new _ _ _ _ Hs _ _ E) as [He|(Hin & _)]; [|by eapply Hdis].
    rewrite Hnone in He; [done|]. apply elem_of_app. by right.
  - split; [by eapply synced_app|]. rewrite Hnt', Hnt, omap_app. by rewrite app_assoc.
Qed.

Lemma concat_batches size l fuel :
  (0 < size)%nat -> (length l <= fuel)%nat -> concat (batches fuel size l) = l.
Proof.
  intros Hs. revert l. induction fuel as [|fuel IH]; intros [|t l] Hl; try done; [cbn in Hl; lia|].
  cbn [batches concat]. rewrite IH; [apply take_drop|]. rewrite length_drop. cbn in *. lia.
Qed.

Lemma missing_props txs m :
  NoDup txs -> NoDup (missingTxs txs m) /\ forall t, t ∈ missingTxs txs m <-> t ∈ txs /\ txEntries m !! t = None.
Proof.
  intros Hnd. unfold missingTxs. split; [by apply NoDup_filter|]. intros t. rewrite list_elem_of_filter. tauto.
Qed.

Lemma batched_ok fetch txs size m err nt m1 :
  backend_ok -> batch_ok -> GetRawTransactionsForMempoolBatch = Some fetch -> (0 < size)%nat ->
  NoDup txs -> mempool_ok m ->
  resyncBatchedMissing cfg now txTime fetch (missingTxs txs m) size (Some newResyncOutpointCache) m err nt m1 ->
  mempool_ok m1 /\
  (err = None -> synced (txEntries m) (missingTxs txs m) m1 /\ nt ≡ₚ omap notification (missingTxs txs m)).
Proof.
  intros Hb Hbatch Hf Hsize Hnd Hm Hr. destruct (missing_props txs m Hnd) as [Hnd' Hmiss].
  pose proof (concat_batches size (missingTxs txs m) _ Hsize (le_n _)) as Hcat.
  destruct Hr as [bs c' nt' m' Hperm Hd | bs b rest e c' nt' m' Hperm Hfb Hd].
  - pose proof (concat_perm _ _ Hperm) as Hp. rewrite Hcat in Hp.
    destruct (dispatchBatches_ok fetch bs _ [] m c' nt' m' Hb Hbatch Hf new_cache_ok Hm) as [Hs Hn];
      [by rewrite Hp|by intros t; rewrite Hp; intros []%Hmiss|done|].
    split; [apply Hs|]. intros _. split; [|by rewrite Hn, Hp].
    destruct Hs as [? ? ? H1 H2 H3 H4]. split; [done..|by intros ? []%elem_of_nil|by intros t []%Hmiss|done| |].
    + intros t e He. destruct (H3 t e He) as [?|(Ht & ? & ?)]; [by left|right]. rewrite Hp in Ht. done.
    + intros t tx Ht. apply H4. by rewrite Hp.
  - pose proof (concat_perm _ _ Hperm) as Hp. rewrite Hcat, concat_app in Hp.
    destruct (dispatchBatches_ok fetch bs _ [] m c' nt' m' Hb Hbatch Hf new_cache_ok Hm) as [Hs _]; [| |done|].
    + rewrite <- Hp in Hnd'. by apply NoDup_app in Hnd' as [? _].
    + intros t Ht. apply Hmiss. rewrite <- Hp. apply elem_of_app. by left.
    + split; [apply Hs|done].
Qed.

(** What a resync does, whether it returns a count or an error. *)
Lemma resync_outcome txs m res nt m' :
  backend_ok -> batch_ok -> GetMempoolTransactions = inr txs -> NoDup txs -> mempool_ok m ->
  Resync cfg now txTime m res nt m' ->
  mempool_ok m' /\
  forall count, res = inr count ->
    count = Z.of_nat (size (txEntries m')) /\ nt ≡ₚ omap notification (missingTxs txs m) /\
    exists m1, synced (txEntries m) (missingTxs txs m) m1 /\
      forall t, txEntries m' !! t = if bool_decide (t ∈ txs) then txEntries m1 !! t else None.
Proof.
  intros Hb Hbatch Hlist Hnd Hm Hr. destruct (missing_props txs m Hnd) as [Hnd' Hmiss].
  destruct Hr as [e He | txs' He | txs' s order He Hsz Hd Hord m'
    | txs' fetch nt m1 order He Hsz Hf Hd Hord m' | txs' fetch e nt m1 He Hsz Hf Hd]; [done|done|..];
    rewrite Hlist in He; injection He as <-.
  - destruct (dispatch_ok (missingTxs txs m) ∅ _ [] m s Hb new_cache_ok Hm Hnd') as (Hs & Hn & _);
      [by intros t []%Hmiss|by intros t tx; rewrite lookup_empty|done|].
    destruct (removeUnlisted_ok txs order _ (eo_ok _ _ _ _ Hs) Hord) as [Hok Hlk].
    split; [done|]. intros count [= <-]. split_and!; [done..|]. by exists (d_mempool s).
  - assert (0 < Z.to_nat (effectiveBatchSize cfg))%nat as Hpos by lia.
    destruct (batched_ok fetch txs _ m None nt m1 Hb Hbatch Hf Hpos Hnd Hm Hd) as [Hm1 Hs].
    destruct (Hs eq_refl) as [Hs1 Hn]. destruct (removeUnlisted_ok txs order m1 Hm1 Hord) as [Hok Hlk].
    split; [done|]. intros count [= <-]. split_and!; [done..|]. by exists m1.
  - assert (0 < Z.to_nat (effectiveBatchSize cfg))%nat as Hpos by lia.
    destruct (batched_ok fetch txs _ m _ nt m1 Hb Hbatch Hf Hpos Hnd Hm Hd) as [Hm1 _]. done.
Qed.

(** ** Every run ends *)

Definition sentCost (p : txPayload) : nat :=
  match payloadTx p with Some tx => 3 + 2 * length (dispatchedInputs tx) | None => 2 end.

Definition jobCost (j : Job) : nat := 2 + 2 * length (j_todo j) + length (j_results j).

Definition cost (s : Dispatch) : nat :=
  sum_list_with (fun p => S (sentCost p)) (d_queue s) + sum_list_with sentCost (d_sent s) +
  sum_list_with jobCost (d_jobs s) + length (d_results s).

Lemma rstep_cost s s' : rstep cfg now txTime s s' -> (cost s' < cost s)%nat.
Proof.
  destruct 1 as [|? ? ? ? ? ? ? ? ? Hpt|? ? ? ? ? ? ? ? ? ? ? ? Hpt Hst | | | |]; unfold cost; cbn;
    rewrite ?sum_list_with_app, ?length_app; cbn; try lia.
  - assert (sentCost p = 2)%nat by (unfold sentCost; by rewrite Hpt). lia.
  - unfold startTx in Hst. destruct (outputIndexes _ _ _ _). injection Hst as <- _.
    assert (sentCost p = 3 + 2 * length (dispatchedInputs tx))%nat by (unfold sentCost; by rewrite Hpt).
    unfold jobCost. cbn. lia.
  - unfold jobCost. cbn. rewrite !length_app. cbn. lia.
  - unfold jobCost. cbn. rewrite !length_app. cbn. lia.
Qed.

Lemma rstep_sn s : sn (rstep cfg now txTime) s.
Proof.
  induction s as [s IH] using (induction_ltof1 _ cost). constructor. intros s' Hs. apply IH.
  by apply rstep_cost.
Qed.

(** One schedule: the first step that is possible. *)
Definition schedule (s : Dispatch) : option Dispatch :=
  let 'mkDispatch q sent jobs res c nt m := s in
  match res with
  | tio :: res =>
      Some (mkDispatch q sent jobs res c nt
              (onNewEntry (tio_txid tio) (mkTxEntry (tio_io tio) txTime (tio_filter tio) [] 0) m))
  | [] =>
  match jobs with
  | mkJob t tx mtx todo rs io :: jobs =>
      match rs with
      | r :: rs => Some (mkDispatch q sent (mkJob t tx mtx todo rs (io ++ option_list r) :: jobs) [] c nt m)
      | [] =>
          match todo with
          | i :: todo =>
              let '(r, mtx', c') := getInputAddress cfg mtx i c in
              Some (mkDispatch q sent (mkJob t tx mtx' todo [r] io :: jobs) [] c' nt m)
          | [] => Some (mkDispatch q sent jobs [finishTx cfg (mkJob t tx mtx [] [] io)] c (nt ++ [mtx]) m)
          end
      end
  | [] =>
  match sent with
  | p :: sent =>
      match payloadTx p with
      | None => Some (mkDispatch q sent [] [mkTxidio (tp_txid p) [] []] c nt m)
      | Some tx => let '(j, c') := startTx now (tp_txid p) tx c in
                   Some (mkDispatch q sent [j] [] c' nt m)
      end
  | [] =>
  match q with
  | p :: q => Some (mkDispatch q [p] [] [] c nt m)
  | [] => None
  end end end end.

Lemma schedule_step s :
  match schedule s with Some s' => rstep cfg now txTime s s' | None => finished s end.
Proof.
  destruct s as [q sent jobs res c nt m]. destruct res as [|tio res]; cbn [schedule].
  2: apply (r_receive cfg now txTime q sent jobs [] tio res c nt m).
  destruct jobs as [|[t tx mtx todo rs io] jobs].
  - destruct sent as [|p sent].
    + destruct q as [|p q]; [done|]. apply (r_send cfg now txTime p q []).
    + destruct (payloadTx p) as [tx|] eqn:E.
      * destruct (startTx now (tp_txid p) tx c) as [j c'] eqn:E2.
        by apply (r_fetch cfg now txTime q [] p sent [] [] c nt m tx j c').
      * by apply (r_fetch_fails cfg now txTime q [] p sent [] [] c nt m).
  - destruct rs as [|r rs]; [destruct todo as [|i todo]|].
    + apply (r_finish cfg now txTime q sent [] t tx mtx io jobs []).
    + destruct (getInputAddress cfg mtx i c) as [[r mtx'] c'] eqn:E.
      by apply (r_input cfg now txTime q sent [] t tx mtx [] i todo [] io jobs [] c nt m r mtx' c').
    + apply (r_collect cfg now txTime q sent [] t tx mtx todo [] r rs io jobs []).
Qed.

(** The schedule run to the end; [cost] steps are enough. *)
Fixpoint runSchedule (fuel : nat) (s : Dispatch) : Dispatch :=
  match fuel with
  | O => s
  | S fuel => match schedule s with Some s' => runSchedule fuel s' | None => s end
  end.

Lemma runSchedule_ok fuel s :
  (cost s <= fuel)%nat -> rtc (rstep cfg now txTime) s (runSchedule fuel s) /\ finished (runSchedule fuel s).
Proof.
  revert s. induction fuel as [|fuel IH]; intros s Hf; cbn [runSchedule];
    pose proof (schedule_step s) as Hs; destruct (schedule s) as [s'|].
  - apply rstep_cost in Hs. lia.
  - done.
  - apply rstep_cost in Hs as Hc. destruct (IH s') as [H1 H2]; [lia|]. split; [|done]. by eapply rtc_l.
  - done.
Qed.

End Resync.

(** ** Properties *)

Section ResyncProperties.
Context {P : ChainParser} {G : Gcs} {C : MempoolChain} (cfg : MempoolConfig) (now : Z) (txTime : Z).

(** C10: A resync that returns a count leaves exactly the listed transactions that touch an
    address, whatever the interleaving of its workers: known ones keep their entry, new ones
    get the indexes of their outputs and of the outputs they spend, found through database,
    cache or backend as if there were no cache; and subscribers are told once about every new
    transaction, with all its inputs resolved. *)
Theorem resync_syncs txs m count nt m' :
  backend_ok -> batch_ok -> GetMempoolTransactions = inr txs -> NoDup txs -> mempool_ok m ->
  Resync cfg now txTime m (inr count) nt m' ->
  (forall t e, txEntries m' !! t = Some e ->
     t ∈ txs /\ (txEntries m !! t = Some e \/ txEntries m !! t = None /\ entry_for cfg now txTime t e)) /\
  (forall t e, t ∈ txs -> txEntries m !! t = Some e -> txEntries m' !! t = Some e) /\
  (forall t tx, t ∈ txs -> GetTransactionForMempool t = Some tx -> txPosts cfg tx <> [] ->
     is_Some (txEntries m' !! t)) /\
  count = Z.of_nat (size (txEntries m')) /\
  nt ≡ₚ omap (notification cfg now) (missingTxs txs m).
Proof.
  intros Hb Hbatch Hl Hnd Hm Hr.
  destruct (resync_outcome cfg now txTime txs m _ nt m' Hb Hbatch Hl Hnd Hm Hr) as [_ Ho].
  destruct (Ho count eq_refl) as (Hc & Hn & m1 & Hs & Hlk).
  destruct (missing_props txs m Hnd) as [_ Hmiss].
  split_and!; [| | |done|done].
  - intros t e. rewrite Hlk. case_bool_decide as Ht; [|done]. intros He. split; [done|].
    destruct (eo_new _ _ _ _ _ _ _ Hs t e He) as [?|([_ ?]%Hmiss & _ & ?)]; auto.
  - intros t e Ht He. rewrite Hlk, bool_decide_eq_true_2 by done. by apply Hs.
  - intros t tx Ht Htx Hne. rewrite Hlk, bool_decide_eq_true_2 by done.
    destruct (txEntries m !! t) as [e|] eqn:E; [exists e; by apply Hs|].
    eapply (eo_complete _ _ _ _ _ _ _ Hs); [by apply Hmiss|by intros []%elem_of_nil|done|done].
Qed.

(** C19: Every resync, also one that fails half way, keeps the index the exact inverse of the
    entries: the outpoints read for a descriptor are those of the entries, each as often as it
    occurs there, and no descriptor is kept without outpoints. *)
Theorem resync_keeps_index txs m res nt m' :
  backend_ok -> batch_ok -> GetMempoolTransactions = inr txs -> NoDup txs -> mempool_ok m ->
  Resync cfg now txTime m res nt m' ->
  (forall a, GetAddrDescTransactions m' a ≡ₚ indexOf (txEntries m') a) /\
  (forall a, is_Some (addrDescToTx m' !! a) <-> exists t e, txEntries m' !! t = Some e /\
     a ∈ map ai_addrDesc (te_addrIndexes e)).
Proof.
  intros Hb Hbatch Hl Hnd Hm Hr.
  destruct (resync_outcome cfg now txTime txs m _ nt m' Hb Hbatch Hl Hnd Hm Hr) as [Hok _].
  split; intros a.
  - unfold GetAddrDescTransactions. rewrite reverse_Permutation. apply (mo_inverse m' Hok).
  - pose proof (mo_inverse m' Hok a) as Hi. unfold posted in Hi. split.
    + intros [l Hlk]. rewrite Hlk in Hi. cbn in Hi. destruct l as [|o l]; [by apply mo_trimmed in Hlk|].
      assert (o ∈ indexOf (txEntries m') a) as Ho by (rewrite <- Hi; left).
      unfold indexOf in Ho. apply list_elem_of_bind in Ho as ([t e] & Ho & He%elem_of_map_to_list).
      exists t, e. split; [done|]. unfold entryPosts, posts in Ho. cbn in Ho.
      apply list_elem_of_fmap in Ho as (si & _ & [<- Hsi]%list_elem_of_filter). apply list_elem_of_fmap. by exists si.
    + intros (t & e & He & (si & -> & Hsi)%list_elem_of_fmap).
      assert (mkOut t (ai_n si) ∈ indexOf (txEntries m') (ai_addrDesc si)) as Ho.
      { unfold indexOf. apply list_elem_of_bind. exists (t, e). split; [|by apply elem_of_map_to_list].
        unfold entryPosts, posts. cbn. apply list_elem_of_fmap. exists si. split; [done|].
        by apply list_elem_of_filter. }
      rewrite <- Hi in Ho. destruct (addrDescToTx m' !! ai_addrDesc si); [done|by apply elem_of_nil in Ho].
Qed.

(** The dispatch of transactions to the workers ends: no interleaving is infinite, one
    that cannot continue has processed and received every transaction, and there is one that
    ends. (The channels are unbounded here, so nothing is said about a deadlock between
    bounded ones.) *)
Theorem dispatch_terminates txids cache c nt m :
  sn (rstep cfg now txTime) (startDispatch txids cache c nt m) /\
  (forall s, rtc (rstep cfg now txTime) (startDispatch txids cache c nt m) s ->
     nf (rstep cfg now txTime) s -> finished s) /\
  (exists s, dispatchResyncPayloads cfg now txTime txids cache c nt m s).
Proof.
  split_and!.
  - apply rstep_sn.
  - intros s _ Hnf. pose proof (schedule_step cfg now txTime s) as Hs.
    destruct (schedule cfg now txTime s) as [s'|]; [|done]. destruct Hnf. by exists s'.
  - eexists. by apply (runSchedule_ok cfg now txTime (cost (startDispatch txids cache c nt m))).
Qed.

End ResyncProperties.

(** ** An example *)

Module MempoolExample.

Definition parser : ChainParser := base_parser (fun o => Ok (vout_ScriptHex o)) (fun _ => true) 300 false.
Definition gcs : Gcs := {| gcs_KeySize := 16; gcs_Build := fun _ _ _ data => Some (concat data) |}.

Definition addrA : bytes := [xaa].
Definition addrB : bytes := [xbb].
Definition txidA : bytes := [x61].
Definition txidB : bytes := [x62].
Definition txidOld : bytes := [x63].

(** [A] spends an output the database knows, [B] spends an output of [A]. *)
Definition txA : Tx :=
  mkTx [] txidA 1 0 100 [mkVin [] [x70] 3 []] [mkVout 50 0 addrA None; mkVout 7 1 addrB None] [].
Definition txB : Tx :=
  mkTx [] txidB 1 0 100 [mkVin [] txidA 0 []] [mkVout 49 0 addrB None] [].

Definition fetch (t : bytes) : option Tx :=
  if bool_decide (t = txidA) then Some txA else if bool_decide (t = txidB) then Some txB else None.

Definition chain : MempoolChain := {|
  GetMempoolTransactions := inr [txidB; txidA];
  GetTransactionForMempool := fetch;
  GetRawTransactionsForMempoolBatch := None;
  GetAddrDescFromAddress := fun a => Ok a;
|}.

Definition cfg : MempoolConfig :=
  mkMempoolConfig (Some (fun o => if bool_decide (o = mkOut [x70] 3) then Some (mkOutpointInfo addrB 60 None) else None))
    0 "" false 1.

#[local] Existing Instances parser gcs chain.

(** An entry that is no longer listed. *)
Definition m0 : BaseMempool :=
  onNewEntry txidOld (mkTxEntry [mkAddrIndex addrA 0 None] 5 [] [] 0) (mkMempool ∅ ∅).

Definition s1 : Dispatch :=
  runSchedule cfg 1000 1000 50 (startDispatch [txidB; txidA] ∅ (Some newResyncOutpointCache) [] m0).

Definition m1 : BaseMempool :=
  removeUnlisted [txidB; txidA] (map_to_list (txEntries (d_mempool s1))) (d_mempool s1).

Lemma fetch_wf : backend_ok.
Proof.
  intros t tx. change (GetTransactionForMempool t) with (fetch t). unfold fetch.
  repeat case_bool_decide; intros [= <-]; (split_and!; [|vm_compute; done|]).
  1, 3: intros [|[|i]] o; cbn; intros [= <-]; reflexivity.
  all: apply Forall_singleton; unfold is_u32; cbn; lia.
Qed.

Lemma m0_ok : mempool_ok m0.
Proof.
  apply onNewEntry_ok; [|done]. split; unfold posted; cbn.
  - intros a. by rewrite lookup_empty.
  - intros a. by rewrite lookup_empty.
  - intros t e. by rewrite lookup_empty.
Qed.

Lemma example_run :
  dispatchResyncPayloads cfg 1000 1000 [txidB; txidA] ∅ (Some newResyncOutpointCache) [] m0 s1.
Proof.
  assert (cost (startDispatch [txidB; txidA] ∅ (Some newResyncOutpointCache) [] m0) <=? 50 = true)%nat as Hc
    by (vm_compute; reflexivity).
  exact (runSchedule_ok cfg 1000 1000 50 _ (proj1 (Nat.leb_le _ _) Hc)).
Qed.

Lemma example_resync : Resync cfg 1000 1000 m0 (inr 2) (d_notified s1) m1.
Proof.
  assert (missingTxs [txidB; txidA] m0 = [txidB; txidA]) as Hm by (vm_compute; reflexivity).
  assert (inr 2 = inr (Z.of_nat (size (txEntries m1))) :> goerror + Z) as -> by (vm_compute; reflexivity).
  apply (rs_single cfg 1000 1000 m0 [txidB; txidA] s1 (map_to_list (txEntries (d_mempool s1)))); try reflexivity.
  rewrite Hm. exact example_run.
Qed.

Lemma listed_nodup : NoDup [txidB; txidA].
Proof. apply (bool_decide_unpack _). vm_compute. exact I. Qed.

Lemma example_batch : batch_ok.
Proof. intros f b cache t tx [=]. Qed.

Lemma resync_syncs_witness :
  is_Some (txEntries m1 !! txidA) /\ is_Some (txEntries m1 !! txidB) /\ length (d_notified s1) = 2%nat.
Proof.
  destruct (resync_syncs cfg 1000 1000 [txidB; txidA] m0 2 (d_notified s1) m1 fetch_wf example_batch eq_refl
    listed_nodup m0_ok example_resync) as (_ & _ & H3 & _ & H5).
  split_and!.
  - apply (H3 txidA txA); [apply (bool_decide_unpack _); vm_compute; exact I|reflexivity|discriminate].
  - apply (H3 txidB txB); [apply (bool_decide_unpack _); vm_compute; exact I|reflexivity|discriminate].
  - rewrite H5. vm_compute. reflexivity.
Defined.

Lemma resync_keeps_index_witness :
  GetAddrDescTransactions m1 addrA ≡ₚ [mkOut txidA 0; mkOut txidB (-1)].
Proof.
  destruct (resync_keeps_index cfg 1000 1000 [txidB; txidA] m0 _ (d_notified s1) m1 fetch_wf example_batch eq_refl
    listed_nodup m0_ok example_resync) as [H _].
  rewrite H. apply (bool_decide_unpack _). vm_compute. exact I.
Defined.

Lemma mempool_listings_witness :
  GetAllEntries (reverse (map_to_list (txEntries m1))) = [mkMempoolTxidEntry txidB 1000; mkMempoolTxidEntry txidA 1000].
Proof.
  destruct (mempool_listings m1 (reverse (map_to_list (txEntries m1))) 0 (reverse_Permutation _)) as [H _].
  rewrite H. vm_compute. reflexivity.
Defined.

End MempoolExample.
