(* ===== verification/GoSort.v ===== *)
(** The binary search of Go's package [sort], as the source calls it. *)

From S2P Require Import Prelude.

Local Open Scope Z_scope.

(** [sort.Search]: binary search over [i, j) for an index where [f] starts to hold. *)
Fixpoint sort_Search_loop (fuel : nat) (f : Z -> bool) (i j : Z) : Z :=
  match fuel with
  | O => i
  | S fuel =>
      if i <? j then
        let h := (i + j) / 2 in
        if f h then sort_Search_loop fuel f i h else sort_Search_loop fuel f (h + 1) j
      else i
  end.

Definition sort_Search (n : Z) (f : Z -> bool) : Z := sort_Search_loop (Z.to_nat n) f 0 n.

Lemma sort_Search_loop_spec f fuel i j :
  0 <= i <= j -> (Z.to_nat (j - i) <= fuel)%nat ->
  let h := sort_Search_loop fuel f i j in
  i <= h <= j /\ (h = j \/ f h = true) /\ (h = i \/ f (h - 1) = false).
Proof.
  revert i j. induction fuel as [|fuel IH]; intros i j Hij Hf; cbn [sort_Search_loop].
  { replace j with i by lia. auto with lia. }
  case_test; [|split_and!; [lia|lia|left; lia|by left]].
  assert (i <= (i + j) / 2 < j) as Hh by (split; [apply Z.div_le_lower_bound|apply Z.div_lt_upper_bound]; lia).
  destruct (f ((i + j) / 2)) eqn:Ef.
  - destruct (IH i ((i + j) / 2)) as (H1 & H2 & H3); [lia|lia|]. split_and!; [lia|lia| |done].
    right. destruct H2 as [->|]; done.
  - destruct (IH ((i + j) / 2 + 1) j) as (H1 & H2 & H3); [lia|lia|]. split_and!; [lia|lia|done|].
    right. destruct H3 as [->|]; [|done]. by replace ((i + j) / 2 + 1 - 1) with ((i + j) / 2) by lia.
Qed.

Lemma sort_Search_spec n f :
  0 <= n ->
  let h := sort_Search n f in
  0 <= h <= n /\ (h = n \/ f h = true) /\ (h = 0 \/ f (h - 1) = false).
Proof. intros Hn. apply sort_Search_loop_spec; lia. Qed.

(** When [f] is monotone, the result is the first index where it holds. *)
Lemma sort_Search_first n f h :
  0 <= n -> (forall i j, 0 <= i <= j -> j < n -> f i = true -> f j = true) ->
  0 <= h <= n -> (forall i, 0 <= i < h -> f i = false) -> (h < n -> f h = true) ->
  sort_Search n f = h.
Proof.
  intros Hn Hm Hh Hlo Hhi. destruct (sort_Search_spec n f Hn) as (H1 & H2 & H3).
  cbv zeta in *. set (r := sort_Search n f) in *.
  destruct (Z.lt_trichotomy r h) as [Hlt|[|Hgt]]; [|done|].
  - rewrite Hlo in H2 by lia. destruct H2; [lia|done].
  - destruct H3 as [|H3]; [lia|]. rewrite (Hm h (r - 1)) in H3; [done|lia..|]. apply Hhi. lia.
Qed.
