(* ===== verification/InternalState.v ===== *)
(** The internal state of the process ([common/internalstate.go]): the times of the indexed
    blocks, the state of synchronisation, the statistics of the columns and the blocked
    websocket clients. Times are nanoseconds; the zero [time.Time] is [None].

    The theorems: [GetBlockHeightOfTime] finds the first block at or after a time even when
    block times are out of order by less than 20 blocks, unless the search runs past the last
    block; a client is blocked exactly while a block placed on it has not expired. *)

From S2P Require Import Prelude GoSort.

Local Open Scope Z_scope.

Record InternalStateColumn := mkColumn {
  col_Name : string;
  col_Version : Z;
  col_Rows : Z;
  col_KeyBytes : Z;
  col_ValueBytes : Z;
  col_Updated : Z;
}.

Record BackendInfo := mkBackendInfo {
  bi_BackendError : string;
  bi_Chain : string;
  bi_Blocks : Z;
  bi_Headers : Z;
  bi_BestBlockHash : string;
}.

Record WsBlockedIP := mkWsBlockedIP {
  wb_Key : bytes;
  wb_BlockedAt : Z;
  wb_Until : option Z;
  wb_Breaches : Z;
  wb_Rejected : Z;
}.

(** The quotient [AvgBlockPeriodSeconds] is kept as numerator and denominator. *)
Record InternalState := mkInternalState {
  is_IsSynchronized : bool;
  is_InitialSync : bool;
  is_BestHeight : Z;
  is_StartSync : option Z;
  is_LastSync : option Z;
  is_BlockTimes : list Z;
  is_AvgBlockPeriod : Z;
  is_AvgBlockPeriodSeconds : option (Z * Z);
  is_IsMempoolSynchronized : bool;
  is_MempoolSize : Z;
  is_LastMempoolSync : option Z;
  is_DbColumns : list InternalStateColumn;
  is_BackendInfo : BackendInfo;
  is_BackendTipLastAdvance : option Z;
  is_BackendTipHeight : Z;
  is_WsLimitExceedingIPs : gmap bytes Z;
  is_wsBlockedIPs : gmap bytes WsBlockedIP;
}.

(** ** Synchronisation *)

Section Fields.
Implicit Type s : InternalState.

Definition set_sync (sync : bool) (best : Z) (start last : option Z) s : InternalState :=
  mkInternalState sync (is_InitialSync s) best start last (is_BlockTimes s) (is_AvgBlockPeriod s)
    (is_AvgBlockPeriodSeconds s) (is_IsMempoolSynchronized s) (is_MempoolSize s) (is_LastMempoolSync s)
    (is_DbColumns s) (is_BackendInfo s) (is_BackendTipLastAdvance s) (is_BackendTipHeight s)
    (is_WsLimitExceedingIPs s) (is_wsBlockedIPs s).

Definition set_times (ts : list Z) (avg : Z) (secs : option (Z * Z)) s : InternalState :=
  mkInternalState (is_IsSynchronized s) (is_InitialSync s) (is_BestHeight s) (is_StartSync s) (is_LastSync s)
    ts avg secs (is_IsMempoolSynchronized s) (is_MempoolSize s) (is_LastMempoolSync s)
    (is_DbColumns s) (is_BackendInfo s) (is_BackendTipLastAdvance s) (is_BackendTipHeight s)
    (is_WsLimitExceedingIPs s) (is_wsBlockedIPs s).

Definition set_mempool (sync : bool) (size : Z) (last : option Z) s : InternalState :=
  mkInternalState (is_IsSynchronized s) (is_InitialSync s) (is_BestHeight s) (is_StartSync s) (is_LastSync s)
    (is_BlockTimes s) (is_AvgBlockPeriod s) (is_AvgBlockPeriodSeconds s) sync size last
    (is_DbColumns s) (is_BackendInfo s) (is_BackendTipLastAdvance s) (is_BackendTipHeight s)
    (is_WsLimitExceedingIPs s) (is_wsBlockedIPs s).

Definition set_backend (bi : BackendInfo) (adv : option Z) (h : Z) s : InternalState :=
  mkInternalState (is_IsSynchronized s) (is_InitialSync s) (is_BestHeight s) (is_StartSync s) (is_LastSync s)
    (is_BlockTimes s) (is_AvgBlockPeriod s) (is_AvgBlockPeriodSeconds s) (is_IsMempoolSynchronized s)
    (is_MempoolSize s) (is_LastMempoolSync s) (is_DbColumns s) bi adv h
    (is_WsLimitExceedingIPs s) (is_wsBlockedIPs s).

Definition set_ws (exceeding : gmap bytes Z) (blocked : gmap bytes WsBlockedIP) s : InternalState :=
  mkInternalState (is_IsSynchronized s) (is_InitialSync s) (is_BestHeight s) (is_StartSync s) (is_LastSync s)
    (is_BlockTimes s) (is_AvgBlockPeriod s) (is_AvgBlockPeriodSeconds s) (is_IsMempoolSynchronized s)
    (is_MempoolSize s) (is_LastMempoolSync s) (is_DbColumns s) (is_BackendInfo s)
    (is_BackendTipLastAdvance s) (is_BackendTipHeight s) exceeding blocked.

Definition set_columns (cols : list InternalStateColumn) s : InternalState :=
  mkInternalState (is_IsSynchronized s) (is_InitialSync s) (is_BestHeight s) (is_StartSync s) (is_LastSync s)
    (is_BlockTimes s) (is_AvgBlockPeriod s) (is_AvgBlockPeriodSeconds s) (is_IsMempoolSynchronized s)
    (is_MempoolSize s) (is_LastMempoolSync s) cols (is_BackendInfo s)
    (is_BackendTipLastAdvance s) (is_BackendTipHeight s) (is_WsLimitExceedingIPs s) (is_wsBlockedIPs s).

Definition StartedSync (now : Z) s : InternalState :=
  set_sync false (is_BestHeight s) (Some now) (is_LastSync s) s.

Definition FinishedSync (bestHeight now : Z) s : InternalState :=
  set_sync true bestHeight (is_StartSync s) (Some now) s.

Definition UpdateBestHeight (bestHeight now : Z) s : InternalState :=
  set_sync (is_IsSynchronized s) bestHeight (is_StartSync s) (Some now) s.

Definition FinishedSyncNoChange s : InternalState :=
  set_sync true (is_BestHeight s) (is_StartSync s) (is_LastSync s) s.

Definition GetSyncState s : bool * Z * option Z * option Z :=
  (is_IsSynchronized s, is_BestHeight s, is_LastSync s, is_StartSync s).

Definition StartedMempoolSync s : InternalState :=
  set_mempool false (is_MempoolSize s) (is_LastMempoolSync s) s.

Definition FinishedMempoolSync (mempoolSize now : Z) s : InternalState :=
  set_mempool true mempoolSize (Some now) s.

Definition GetMempoolSyncState s : bool * option Z * Z :=
  (is_IsMempoolSynchronized s, is_LastMempoolSync s, is_MempoolSize s).

(** ** Column statistics *)

(** [f] on the column [c]; an index out of range panics. *)
Definition updateColumn (c : Z) (f : InternalStateColumn -> InternalStateColumn) s : result InternalState :=
  let! dc := index (is_DbColumns s) c in
  Ok (set_columns (<[Z.to_nat c := f dc]> (is_DbColumns s)) s).

Definition AddDBColumnStats (c rowsDiff keyBytesDiff valueBytesDiff now : Z) s : result InternalState :=
  updateColumn c (fun dc => mkColumn (col_Name dc) (col_Version dc) (i64 (col_Rows dc + rowsDiff))
    (i64 (col_KeyBytes dc + keyBytesDiff)) (i64 (col_ValueBytes dc + valueBytesDiff)) now) s.

Definition SetDBColumnStats (c rows keyBytes valueBytes now : Z) s : result InternalState :=
  updateColumn c (fun dc => mkColumn (col_Name dc) (col_Version dc) rows keyBytes valueBytes now) s.

Definition GetDBColumnStatValues (c : Z) s : result (Z * Z * Z) :=
  if c <? zlen (is_DbColumns s) then
    let! dc := index (is_DbColumns s) c in
    Ok (col_Rows dc, col_KeyBytes dc, col_ValueBytes dc)
  else Ok (0, 0, 0).

Definition DBSizeTotal s : Z :=
  foldl (fun total c => i64 (total + i64 (col_KeyBytes c + col_ValueBytes c))) 0 (is_DbColumns s).

(** ** Block times *)

Definition GetBlockTime (height : Z) s : Z :=
  if height <? zlen (is_BlockTimes s) then default 0 (is_BlockTimes s !! Z.to_nat height) else 0.

Definition GetLastBlockTime s : Z := default 0 (last (is_BlockTimes s)).

Definition avgBlockPeriodSample : Z := 100.

Definition computeAvgBlockPeriod s : InternalState :=
  let last := zlen (is_BlockTimes s) - 1 in
  let first := last - avgBlockPeriodSample - 1 in
  if first <? 0 then s
  else
    let tl := default 0 (is_BlockTimes s !! Z.to_nat last) in
    let tf := default 0 (is_BlockTimes s !! Z.to_nat first) in
    if tl <=? tf then s
    else
      let span := u32 (tl - tf) in
      set_times (is_BlockTimes s) (span / avgBlockPeriodSample) (Some (span, last - first)) s.

Definition SetBlockTimes (blockTimes : list Z) s : InternalState :=
  let ts := if zlen (is_BlockTimes s) <? zlen blockTimes then blockTimes
            else blockTimes ++ drop (length blockTimes) (is_BlockTimes s) in
  computeAvgBlockPeriod (set_times ts (is_AvgBlockPeriod s) (is_AvgBlockPeriodSeconds s) s).

Definition SetBlockTime (height time : Z) s : InternalState :=
  let ts :=
    if zlen (is_BlockTimes s) <=? height
    then is_BlockTimes s ++ replicate (Z.to_nat (height - zlen (is_BlockTimes s) + 1)) time
    else <[Z.to_nat height := time]> (is_BlockTimes s) in
  computeAvgBlockPeriod (set_times ts (is_AvgBlockPeriod s) (is_AvgBlockPeriodSeconds s) s).

Definition RemoveLastBlockTimes (count : Z) s : result InternalState :=
  let count := if zlen (is_BlockTimes s) <? count then zlen (is_BlockTimes s) else count in
  let! ts := slice (is_BlockTimes s) 0 (zlen (is_BlockTimes s) - count) in
  Ok (computeAvgBlockPeriod (set_times ts (is_AvgBlockPeriod s) (is_AvgBlockPeriodSeconds s) s)).

(** The block at [height] is at or after [time]. *)
Definition atOrAfter (ts : list Z) (time height : Z) : bool :=
  match ts !! Z.to_nat height with Some t => time <=? t | None => false end.

(** The loop from [height] up to [max]. *)
Fixpoint firstAtOrAfter (fuel : nat) (ts : list Z) (time height : Z) : Z :=
  match fuel with
  | O => height
  | S fuel => if atOrAfter ts time height then height else firstAtOrAfter fuel ts time (height + 1)
  end.

Definition MaxUint32 : Z := 2 ^ 32 - 1.

Definition GetBlockHeightOfTime (time : Z) s : Z :=
  let ts := is_BlockTimes s in
  let height := sort_Search (zlen ts) (atOrAfter ts time) in
  if height =? zlen ts then MaxUint32
  else
    let max := height in
    let height := if height - 20 <? 0 then 0 else height - 20 in
    u32 (firstAtOrAfter (Z.to_nat (max - height + 1)) ts time height).

(** ** The backend *)

Definition SetBackendInfo (bi : BackendInfo) (now : Z) s : InternalState :=
  if negb (bool_decide (bi_BackendError bi = ""%string)) && (bi_Blocks bi =? 0) then
    let old := is_BackendInfo s in
    set_backend (mkBackendInfo (bi_BackendError bi) (bi_Chain old) (bi_Blocks old) (bi_Headers old)
                   (bi_BestBlockHash old)) (is_BackendTipLastAdvance s) (is_BackendTipHeight s) s
  else if bool_decide (is_BackendTipLastAdvance s = None) || negb (bi_Blocks bi =? is_BackendTipHeight s)
  then set_backend bi (Some now) (bi_Blocks bi) s
  else set_backend bi (is_BackendTipLastAdvance s) (is_BackendTipHeight s) s.

Definition GetBackendTipLastAdvance (now : Z) s : Z * InternalState :=
  match is_BackendTipLastAdvance s with
  | Some t => (t, s)
  | None => (now, set_backend (is_BackendInfo s) (Some now) (is_BackendTipHeight s) s)
  end.

(** ** Websocket clients *)

Definition AddWsLimitExceedingIP (ip : bytes) s : InternalState :=
  set_ws (<[ip := i64 (default 0 (is_WsLimitExceedingIPs s !! ip) + 1)]> (is_WsLimitExceedingIPs s))
    (is_wsBlockedIPs s) s.

Definition ResetWsLimitExceedingIPs s : InternalState := set_ws ∅ (is_wsBlockedIPs s) s.

(** [now.Before(t)] and [t.After(now)] for a time that may be zero. *)
Definition after (t : option Z) (now : Z) : bool := match t with Some t => now <? t | None => false end.

Definition BlockWsIP (key : bytes) (until now : Z) s : InternalState :=
  let fresh := mkWsBlockedIP key now None 0 0 in
  let e := match is_wsBlockedIPs s !! key with
           | Some e => if after (wb_Until e) now then e else fresh
           | None => fresh
           end in
  let later := match wb_Until e with Some t => t <? until | None => true end in
  let e := mkWsBlockedIP (wb_Key e) (wb_BlockedAt e) (if later then Some until else wb_Until e)
             (wb_Breaches e + 1) (wb_Rejected e) in
  set_ws (is_WsLimitExceedingIPs s) (<[key := e]> (is_wsBlockedIPs s)) s.

Definition IsWsIPBlocked (key : bytes) (now : Z) s : bool * Z * InternalState :=
  match is_wsBlockedIPs s !! key with
  | None => (false, 0, s)
  | Some e =>
      if now <? wb_BlockedAt e then (false, 0, s)
      else if negb (after (wb_Until e) now) then (false, 0, s)
      else
        let e := mkWsBlockedIP (wb_Key e) (wb_BlockedAt e) (wb_Until e) (wb_Breaches e) (wb_Rejected e + 1) in
        (true, wb_Rejected e, set_ws (is_WsLimitExceedingIPs s) (<[key := e]> (is_wsBlockedIPs s)) s)
  end.

Definition SweepWsBlockedIPs (now : Z) s : Z * InternalState :=
  let blocked := filter (fun '(_, e) => after (wb_Until e) now = true) (is_wsBlockedIPs s) in
  (Z.of_nat (size blocked), set_ws (is_WsLimitExceedingIPs s) blocked s).

Definition expiresLater (a b : WsBlockedIP) : Prop :=
  match wb_Until a, wb_Until b with
  | Some ta, Some tb => tb <= ta
  | None, Some _ => False
  | _, None => True
  end.

#[export] Instance expiresLater_dec : RelDecision expiresLater.
Proof. intros a b. unfold expiresLater. destruct (wb_Until a), (wb_Until b); apply _. Defined.

(** [sort.Slice] is not stable: any sorted permutation of the entries may be returned;
    [merge_sort] picks one. *)
Definition WsBlockedIPsSnapshot (order : list (bytes * WsBlockedIP)) (now : Z) : list WsBlockedIP :=
  merge_sort expiresLater (filter (fun e => after (wb_Until e) now = true) order.*2).

Definition ResetWsBlockedIPs s : InternalState := set_ws (is_WsLimitExceedingIPs s) ∅ s.

End Fields.

(** ** Search by time *)

Lemma firstAtOrAfter_spec ts time fuel height max :
  0 <= height <= max -> fuel = Z.to_nat (max - height + 1) -> atOrAfter ts time max = true ->
  let h := firstAtOrAfter fuel ts time height in
  height <= h <= max /\ atOrAfter ts time h = true /\
  forall k, height <= k < h -> atOrAfter ts time k = false.
Proof.
  revert height. induction fuel as [|fuel IH]; intros height Hh Hf Hm; [lia|]. cbn [firstAtOrAfter].
  destruct (atOrAfter ts time height) eqn:E; [split_and!; auto with lia|].
  assert (height < max) by (destruct (Z.eq_dec height max); [congruence|lia]).
  destruct (IH (height + 1)) as (H1 & H2 & H3); [lia|lia|done|].
  split_and!; [lia|lia|done|]. intros k Hk. destruct (Z.eq_dec k height) as [->|]; [done|]. apply H3. lia.
Qed.

(** Blocks at least 20 heights apart are in order of time. *)
Definition nearly_sorted (ts : list Z) : Prop :=
  forall i j ti tj, ts !! i = Some ti -> ts !! j = Some tj -> (i + 20 <= j)%nat -> ti <= tj.

Lemma atOrAfter_true ts time h :
  0 <= h -> atOrAfter ts time h = true <-> exists t, ts !! Z.to_nat h = Some t /\ time <= t.
Proof.
  intros _. unfold atOrAfter. destruct (ts !! Z.to_nat h) as [t|]; rewrite ?Z.leb_le; naive_solver.
Qed.

(** [GetBlockHeightOfTime] returns the height of the first block at or after the time,
    also when block times are out of order by less than 20 blocks, provided the last block is
    at or after it; when no block is, it returns the largest uint32. *)
Theorem height_of_time s time :
  zlen (is_BlockTimes s) < MaxUint32 ->
  (nearly_sorted (is_BlockTimes s) -> time <= GetLastBlockTime s -> is_BlockTimes s <> [] ->
   let h := GetBlockHeightOfTime time s in
   0 <= h < zlen (is_BlockTimes s) /\ time <= GetBlockTime h s /\
   forall k, 0 <= k < h -> GetBlockTime k s < time) /\
  ((forall k, 0 <= k < zlen (is_BlockTimes s) -> GetBlockTime k s < time) ->
   GetBlockHeightOfTime time s = MaxUint32).
Proof.
  intros Hlen. unfold GetBlockHeightOfTime, GetBlockTime, GetLastBlockTime.
  set (ts := is_BlockTimes s) in *. pose proof (zlen_nonneg ts) as Hn.
  destruct (sort_Search_spec (zlen ts) (atOrAfter ts time) Hn) as (Hr & Ht & Hf).
  set (m := sort_Search _ _) in *. unfold MaxUint32 in *.
  assert (forall k, 0 <= k < zlen ts -> exists t, ts !! Z.to_nat k = Some t) as Hlk.
  { intros k Hk. apply lookup_lt_is_Some. unfold zlen in Hk. lia. }
  split.
  - intros Hsort Hlast Hne.
    assert (m <> zlen ts) as Hm.
    { intros ->. destruct Hf as [Hf|Hf]; [by apply zlen_0 in Hf|].
      rewrite last_lookup in Hlast. unfold atOrAfter in Hf.
      replace (Z.to_nat (zlen ts - 1)) with (Init.Nat.pred (length ts)) in Hf by (unfold zlen; lia).
      destruct (ts !! _) as [t|] eqn:E; [|apply lookup_ge_None in E; destruct ts; cbn in *; [done|lia]].
      cbn in Hlast. apply Z.leb_gt in Hf. lia. }
    destruct (Z.eqb_spec m (zlen ts)); [done|]. destruct Ht as [|Ht]; [done|].
    set (lo := if m - 20 <? 0 then 0 else m - 20).
    assert (0 <= lo <= m /\ m - 20 <= lo) as [Hlo1 Hlo2] by (unfold lo; case_tests; lia).
    destruct (firstAtOrAfter_spec ts time _ lo m Hlo1 eq_refl Ht) as (H1 & H2 & H3).
    set (h := firstAtOrAfter _ _ _ _) in *. rewrite u32_id by (unfold is_u32; lia).
    apply atOrAfter_true in H2 as (t & Hth & Hle); [|lia]. cbn zeta.
    destruct (Z.ltb_spec h (zlen ts)); [|lia]. rewrite Hth. split_and!; [lia|lia|done|].
    intros k Hk. destruct (Z.ltb_spec k (zlen ts)); [|lia]. destruct (Hlk k) as [tk Htk]; [lia|].
    rewrite Htk. cbn. destruct (Z.lt_ge_cases k lo) as [Hkl|].
    + destruct Hf as [|Hf]; [lia|]. unfold atOrAfter in Hf. destruct (Hlk (m - 1)) as [tm Htm]; [lia|].
      rewrite Htm in Hf. apply Z.leb_gt in Hf. assert (lo = m - 20) by (unfold lo in *; case_tests; lia).
      pose proof (Hsort _ _ _ _ Htk Htm ltac:(lia)). lia.
    + specialize (H3 k ltac:(lia)). unfold atOrAfter in H3. rewrite Htk in H3. by apply Z.leb_gt in H3.
  - intros Hall. destruct Ht as [->|Ht]; [by rewrite Z.eqb_refl|].
    destruct (Z.eqb_spec m (zlen ts)) as [|Hm]; [done|]. exfalso.
    apply atOrAfter_true in Ht as (t & Hth & Hle); [|lia].
    specialize (Hall m ltac:(lia)). destruct (Z.ltb_spec m (zlen ts)); [|lia]. rewrite Hth in Hall. cbn in Hall. lia.
Qed.

(** ** Blocked clients *)

(** The calls that change the list of blocked clients, in the order they take the lock. *)
Inductive WsOp :=
| OpBlock (key : bytes) (until now : Z)
| OpCheck (key : bytes) (now : Z)
| OpSweep (now : Z).

Definition opTime (op : WsOp) : Z := match op with OpBlock _ _ n | OpCheck _ n | OpSweep n => n end.

Definition runOp (s : InternalState) (op : WsOp) : InternalState :=
  match op with
  | OpBlock key until now => BlockWsIP key until now s
  | OpCheck key now => (IsWsIPBlocked key now s).2
  | OpSweep now => (SweepWsBlockedIPs now s).2
  end.

(** A block of [key] until after [t] was requested. *)
Definition requested (ops : list WsOp) (key : bytes) (t : Z) : Prop :=
  exists until now, OpBlock key until now ∈ ops /\ t < until.

Definition listed (s : InternalState) (key : bytes) (t : Z) : Prop :=
  exists e, is_wsBlockedIPs s !! key = Some e /\ after (wb_Until e) t = true.

(** From [now] on, a key is listed as blocked exactly while a request for it runs. *)
Definition block_inv (ops : list WsOp) (now : Z) (s : InternalState) : Prop :=
  (forall key e, is_wsBlockedIPs s !! key = Some e -> wb_BlockedAt e <= now) /\
  forall key t, now <= t -> listed s key t <-> requested ops key t.

Lemma block_inv_later ops now now' s : now <= now' -> block_inv ops now s -> block_inv ops now' s.
Proof.
  intros Hn [H1 H2]. split; [intros key e He; specialize (H1 _ _ He); lia|].
  intros key t Ht. apply H2. lia.
Qed.

Lemma requested_snoc ops op key t :
  requested (ops ++ [op]) key t <->
  requested ops key t \/ exists until now, op = OpBlock key until now /\ t < until.
Proof.
  unfold requested. setoid_rewrite elem_of_app. setoid_rewrite list_elem_of_singleton. naive_solver.
Qed.

Lemma after_later o now t : after o now = false -> now <= t -> after o t = false.
Proof. destruct o; cbn; [rewrite !Z.ltb_ge; lia|done]. Qed.

Lemma BlockWsIP_listed key until now s t :
  now <= t -> listed (BlockWsIP key until now s) key t <-> listed s key t \/ t < until.
Proof.
  intros Ht. unfold listed, BlockWsIP. cbn. rewrite lookup_insert_eq.
  destruct (is_wsBlockedIPs s !! key) as [e|]; [destruct (after (wb_Until e) now) eqn:Ea|].
  - destruct (wb_Until e) as [u|] eqn:Eu; [|done]. cbn in *. split.
    + intros (e' & [= <-] & He). cbn in He. destruct (Z.ltb_spec u until); cbn in He; apply Z.ltb_lt in He;
        [by right|left]. exists e. rewrite Eu. split; [done|]. by apply Z.ltb_lt.
    + intros H. eexists. split; [reflexivity|]. cbn.
      assert (t < u \/ t < until) by (destruct H as [(e' & [= <-] & He)|]; [left; rewrite Eu in He; by apply Z.ltb_lt|auto]).
      destruct (Z.ltb_spec u until); cbn; apply Z.ltb_lt; lia.
  - split.
    + intros (e' & [= <-] & He). right. cbn in He. by apply Z.ltb_lt.
    + intros [(e' & [= <-] & He)|H]; [by rewrite (after_later _ now t) in He|].
      eexists. split; [reflexivity|]. by apply Z.ltb_lt.
  - split.
    + intros (e' & [= <-] & He). right. cbn in He. by apply Z.ltb_lt.
    + intros [(e' & [=] & He)|H]. eexists. split; [reflexivity|]. by apply Z.ltb_lt.
Qed.

Lemma block_step ops s key until now :
  block_inv ops now s -> block_inv (ops ++ [OpBlock key until now]) now (BlockWsIP key until now s).
Proof.
  intros [H1 H2]. split.
  - intros k e. cbn. destruct (decide (key = k)) as [<-|]; [|rewrite lookup_insert_ne by done; apply H1].
    rewrite lookup_insert_eq. intros [= <-]. cbn.
    destruct (is_wsBlockedIPs s !! key) as [e|] eqn:E; [destruct (after (wb_Until e) now)|]; cbn; [by eapply H1|lia..].
  - intros k t Ht. rewrite requested_snoc, <- (H2 k t Ht). destruct (decide (k = key)) as [->|Hk].
    + rewrite BlockWsIP_listed by done. naive_solver.
    + unfold listed. cbn. rewrite lookup_insert_ne by done. naive_solver.
Qed.

Lemma check_step ops s key now :
  block_inv ops now s -> block_inv (ops ++ [OpCheck key now]) now (IsWsIPBlocked key now s).2.
Proof.
  assert (forall k t, requested (ops ++ [OpCheck key now]) k t <-> requested ops k t) as Hr.
  { intros k t. rewrite requested_snoc. naive_solver. }
  intros [H1 H2]. unfold block_inv. setoid_rewrite Hr. unfold IsWsIPBlocked.
  destruct (is_wsBlockedIPs s !! key) as [e|] eqn:E; [|done]. repeat case_match; try done. cbn.
  split.
  - intros k e'. destruct (decide (key = k)) as [<-|]; [|rewrite lookup_insert_ne by done; apply H1].
    rewrite lookup_insert_eq. intros [= <-]. cbn. by eapply H1.
  - intros k t Ht. rewrite <- (H2 k t Ht). unfold listed. cbn.
    destruct (decide (key = k)) as [<-|]; [|by rewrite lookup_insert_ne].
    rewrite lookup_insert_eq, E. naive_solver.
Qed.

Lemma sweep_step ops s now :
  block_inv ops now s -> block_inv (ops ++ [OpSweep now]) now (SweepWsBlockedIPs now s).2.
Proof.
  intros [H1 H2]. split; cbn.
  - intros key e He. apply map_lookup_filter_Some in He as [He _]. by eapply H1.
  - intros key t Ht. rewrite requested_snoc, <- (H2 key t Ht). unfold listed. cbn.
    setoid_rewrite map_lookup_filter_Some. split; [naive_solver|].
    intros [(e & He & Ha)|(? & ? & [=] & _)]. exists e. split_and!; [done| |done].
    destruct (after (wb_Until e) now) eqn:E; [done|]. by rewrite (after_later _ now t) in Ha.
Qed.

(** The operations in the order of their times, from an empty list. *)
Lemma run_inv ops s0 now :
  is_wsBlockedIPs s0 = ∅ -> StronglySorted (fun a b => opTime a <= opTime b) ops ->
  Forall (fun op => opTime op <= now) ops -> block_inv ops now (foldl runOp s0 ops).
Proof.
  intros H0. revert now. induction ops as [|op ops IH] using rev_ind; intros now Hs Hf.
  - cbn. unfold block_inv, listed, requested. rewrite H0. setoid_rewrite lookup_empty. split; [done|].
    intros key t _. split; [naive_solver|]. by intros (? & ? & []%elem_of_nil & _).
  - rewrite foldl_app. cbn. rewrite Forall_app, Forall_singleton in Hf. destruct Hf as [Hf Hop].
    apply (block_inv_later _ (opTime op)); [exact Hop|].
    assert (block_inv ops (opTime op) (foldl runOp s0 ops)) as Hi.
    { apply StronglySorted_app in Hs as (Hc & Hs & _). apply IH; [done|]. apply Forall_forall.
      intros x Hx. apply Hc; [done|]. by left. }
    destruct op; cbn [runOp opTime] in *; [by apply block_step|by apply check_step|by apply sweep_step].
Qed.

(** After any sequence of blocks, checks and sweeps in the order of time, a new connection
    of a client is refused exactly when some request to block it has not expired: extending a
    block keeps the later expiry, and sweeping never lifts a block. *)
Theorem blocked_while_requested s0 ops key now :
  is_wsBlockedIPs s0 = ∅ -> StronglySorted (fun a b => opTime a <= opTime b) ops ->
  Forall (fun op => opTime op <= now) ops ->
  (IsWsIPBlocked key now (foldl runOp s0 ops)).1.1 = true <-> requested ops key now.
Proof.
  intros H0 Hs Hf. destruct (run_inv ops s0 now H0 Hs Hf) as [H1 H2]. rewrite <- (H2 key now) by lia.
  unfold IsWsIPBlocked, listed. set (s := foldl runOp s0 ops) in *.
  destruct (is_wsBlockedIPs s !! key) as [e|] eqn:E; [|cbn; naive_solver].
  specialize (H1 key e E). case_test; [lia|]. destruct (after (wb_Until e) now) eqn:Ea; cbn; naive_solver.
Qed.

(** ** Examples *)

Module InternalStateExample.

Definition s0 : InternalState :=
  mkInternalState false false 0 None None [] 0 None false 0 None [] (mkBackendInfo "" "" 0 0 "") None 0 ∅ ∅.

(** Block times that are out of order at height 2. *)
Definition times : InternalState := SetBlockTimes [100; 130; 120; 150] s0.

Lemma height_of_time_witness :
  GetBlockHeightOfTime 125 times = 1 /\ 125 <= GetBlockTime (GetBlockHeightOfTime 125 times) times.
Proof.
  destruct (height_of_time times 125 ltac:(vm_compute; reflexivity)) as [H _].
  split; [vm_compute; reflexivity|].
  apply H; [|vm_compute; discriminate|discriminate].
  intros i j ti tj Hi Hj Hij. exfalso. apply lookup_lt_Some in Hj.
  change (length (is_BlockTimes times)) with 4%nat in Hj. lia.
Defined.

(** When the time lies between the last block and an earlier, later-stamped one, the
    search runs past the last block and reports that no block is at or after the time,
    although the block at height 1 is: the 20 blocks before the result are looked through
    only when the search stops at a block. *)
Theorem height_of_time_tail_missed :
  GetBlockHeightOfTime 140 (SetBlockTimes [100; 150; 130; 135] s0) = MaxUint32 /\
  140 <= GetBlockTime 1 (SetBlockTimes [100; 150; 130; 135] s0) /\
  nearly_sorted (is_BlockTimes (SetBlockTimes [100; 150; 130; 135] s0)).
Proof.
  split_and!; [vm_compute; reflexivity|vm_compute; discriminate|].
  intros i j ti tj Hi Hj Hij. apply lookup_lt_Some in Hj.
  change (length (is_BlockTimes _)) with 4%nat in Hj. lia.
Qed.

Definition ops : list WsOp :=
  [OpBlock [x01] 100 10; OpBlock [x01] 50 20; OpCheck [x01] 60; OpSweep 70; OpBlock [x02] 75 71].

Lemma blocked_while_requested_witness :
  (IsWsIPBlocked [x01] 99 (foldl runOp s0 ops)).1.1 = true /\
  ~ (IsWsIPBlocked [x02] 99 (foldl runOp s0 ops)).1.1 = true.
Proof.
  assert (StronglySorted (fun a b => opTime a <= opTime b) ops) as Hs
    by (repeat constructor; cbn; discriminate).
  assert (Forall (fun op => opTime op <= 99) ops) as Hf by (repeat constructor; cbn; discriminate).
  split.
  - apply (blocked_while_requested s0 ops [x01] 99 eq_refl Hs Hf). exists 100, 10. split; [left|reflexivity].
  - intros H. apply (blocked_while_requested s0 ops [x02] 99 eq_refl Hs Hf) in H as (u & n & Hin & Hu).
    unfold ops in Hin. rewrite !elem_of_cons in Hin.
    destruct Hin as [[=]|[[=]|[[=]|[[=]|[[=]|[]%elem_of_nil]]]]]. lia.
Defined.

End InternalStateExample.
