(* ===== verification/WsLimiter.v ===== *)
(** The limits on websocket clients ([server/websocket_rate_limiter.go], and [trimTimes] of
    [server/rest_rate_limiter.go]): open connections and connection attempts of a client, and
    messages on a connection. Times are nanoseconds.

    The theorems: the limiter counts exactly the open connections of every client and never
    lets them pass the limit, also across sweeps; within any minute it admits at most the
    configured number of connections of a client; the message counter is exactly the number of
    messages of the last 60 buckets, hence never more than those of the trailing window. *)

From S2P Require Import Prelude.

Local Open Scope Z_scope.

Definition second : Z := 1000000000.
Definition websocketConnectionAttemptWindow : Z := 60 * second.
Definition websocketConnectionLimiterTTL : Z := 600 * second.
Definition websocketConnectionLimiterCleanupInterval : Z := 60 * second.
Definition messageRateWindowBuckets : Z := 60.

(** ** Connections *)

Record websocketClientLimit := mkClient {
  cl_active : Z;
  cl_attempts : list Z;
  cl_lastSeen : Z;
}.

Record websocketConnectionLimiter := mkLimiter {
  wl_clients : gmap bytes websocketClientLimit;
  wl_lastCleanup : option Z;
  wl_maxConnections : Z;
  wl_maxAttempts : Z;
}.

Definition newWebsocketConnectionLimiter (maxConnections maxAttempts : Z) : websocketConnectionLimiter :=
  mkLimiter ∅ None maxConnections maxAttempts.

(** The leading times before the cutoff are removed. *)
Fixpoint trimTimes (times : list Z) (cutoff : Z) : list Z :=
  match times with
  | t :: rest => if t <? cutoff then trimTimes rest cutoff else times
  | [] => []
  end.

Definition trimAttempts (now : Z) (c : websocketClientLimit) : websocketClientLimit :=
  mkClient (cl_active c) (trimTimes (cl_attempts c) (now - websocketConnectionAttemptWindow)) (cl_lastSeen c).

(** An idle client is evicted; the clients that stay have their attempts trimmed. *)
Definition sweepClient (now : Z) (c : websocketClientLimit) : option websocketClientLimit :=
  let c := trimAttempts now c in
  if (cl_active c =? 0) && (websocketConnectionLimiterTTL <? now - cl_lastSeen c) then None else Some c.

Definition sweepLocked (now : Z) (l : websocketConnectionLimiter) : websocketConnectionLimiter :=
  mkLimiter (omap (sweepClient now) (wl_clients l)) (Some now) (wl_maxConnections l) (wl_maxAttempts l).

Definition cleanupLocked (now : Z) (l : websocketConnectionLimiter) : websocketConnectionLimiter :=
  match wl_lastCleanup l with
  | Some t => if now - t <? websocketConnectionLimiterCleanupInterval then l else sweepLocked now l
  | None => sweepLocked now l
  end.

Definition sweep (now : Z) (l : websocketConnectionLimiter) : websocketConnectionLimiter := sweepLocked now l.

Definition setClient (ip : bytes) (c : websocketClientLimit) (l : websocketConnectionLimiter)
    : websocketConnectionLimiter :=
  mkLimiter (<[ip := c]> (wl_clients l)) (wl_lastCleanup l) (wl_maxConnections l) (wl_maxAttempts l).

Inductive Decision_ := Accepted | Rejected (reason : string).

Definition accept (ip : bytes) (now : Z) (l : websocketConnectionLimiter)
    : Decision_ * websocketConnectionLimiter :=
  let l := cleanupLocked now l in
  let client := default (mkClient 0 [] 0) (wl_clients l !! ip) in
  let client := trimAttempts now (mkClient (cl_active client) (cl_attempts client) now) in
  if (0 <? wl_maxConnections l) && (wl_maxConnections l <=? cl_active client)
  then (Rejected "connection_limit", setClient ip client l)
  else if (0 <? wl_maxAttempts l) && (wl_maxAttempts l <=? zlen (cl_attempts client))
  then (Rejected "connection_attempt_limit", setClient ip client l)
  else (Accepted, setClient ip (mkClient (cl_active client + 1) (cl_attempts client ++ [now]) now) l).

Definition release (ip : bytes) (now : Z) (l : websocketConnectionLimiter) : websocketConnectionLimiter :=
  match wl_clients l !! ip with
  | None => l
  | Some client =>
      let active := if 0 <? cl_active client then cl_active client - 1 else cl_active client in
      cleanupLocked now (setClient ip (mkClient active (cl_attempts client) now) l)
  end.

Definition stats (order : list (bytes * websocketClientLimit)) : Z * Z :=
  foldl (fun '(unique, mx) '(_, client) =>
           if cl_active client <=? 0 then (unique, mx)
           else (unique + 1, if mx <? cl_active client then cl_active client else mx)) (0, 0) order.

(** ** Messages of a connection *)

Record connMessageRate := mkRate {
  mr_bucketDur : Z;
  mr_counts : list Z;              (* int32, one per bucket *)
  mr_total : Z;                    (* int32 *)
  mr_lastBucket : Z;
  mr_inited : bool;
}.

Definition newConnMessageRate (window : Z) : connMessageRate :=
  let bucketDur := Z.quot window messageRateWindowBuckets in
  let bucketDur := if bucketDur <=? 0 then 1 else bucketDur in
  mkRate bucketDur (replicate 60 0) 0 0 false.

(** The loop that clears the buckets [lastBucket + i], ..., [lastBucket + advance]. *)
Fixpoint clearBuckets (n : nat) (lastBucket i : Z) (s : list Z * Z) : list Z * Z :=
  match n with
  | O => s
  | S n =>
      let '(counts, total) := s in
      let slot := Z.to_nat (Z.rem (lastBucket + i) messageRateWindowBuckets) in
      clearBuckets n lastBucket (i + 1)
        (<[slot := 0]> counts, i32 (total - default 0 (counts !! slot)))
  end.

Definition observe (now : Z) (m : connMessageRate) : Z * connMessageRate :=
  let idx := Z.quot now (mr_bucketDur m) in
  let last := if mr_inited m then mr_lastBucket m else idx in
  let idx := if idx <? last then last else idx in
  let advance := Z.min (idx - last) messageRateWindowBuckets in
  let '(counts, total) := clearBuckets (Z.to_nat advance) last 1 (mr_counts m, mr_total m) in
  let slot := Z.to_nat (Z.rem idx messageRateWindowBuckets) in
  let counts := <[slot := i32 (default 0 (counts !! slot) + 1)]> counts in
  let total := i32 (total + 1) in
  (total, mkRate (mr_bucketDur m) counts total idx true).

(** ** Open connections and attempts *)

(** The limiter with what it stands for: the open connections of every client, the admitted
    connections with their times, and the time of the last call. *)
Record Tracked := mkTracked {
  tr_limiter : websocketConnectionLimiter;
  tr_open : bytes -> Z;
  tr_log : list (bytes * Z);
  tr_clock : Z;
}.

Definition bump (ip : bytes) (d : Z) (f : bytes -> Z) : bytes -> Z :=
  fun k => if decide (k = ip) then f k + d else f k.

(** The calls of the server: a connection is released once, after it was admitted. The calls run
    one after the other, under the lock of the limiter, and their times do not decrease: the
    server reads [time.Now()] just before the lock, so concurrent calls could pass times that are out
    of order by the time they wait for it, which is left out here. *)
Inductive wstep : Tracked -> Tracked -> Prop :=
| w_accept ip now l op log clock l' :
    clock <= now -> accept ip now l = (Accepted, l') ->
    wstep (mkTracked l op log clock) (mkTracked l' (bump ip 1 op) (log ++ [(ip, now)]) now)
| w_reject ip now l op log clock r l' :
    clock <= now -> accept ip now l = (Rejected r, l') ->
    wstep (mkTracked l op log clock) (mkTracked l' op log now)
| w_release ip now l op log clock :
    clock <= now -> 0 < op ip ->
    wstep (mkTracked l op log clock) (mkTracked (release ip now l) (bump ip (-1) op) log now)
| w_sweep now l op log clock :
    clock <= now ->
    wstep (mkTracked l op log clock) (mkTracked (sweep now l) op log now).

Definition fresh (maxConnections maxAttempts start : Z) : Tracked :=
  mkTracked (newWebsocketConnectionLimiter maxConnections maxAttempts) (fun _ => 0) [] start.

Definition active (l : websocketConnectionLimiter) (ip : bytes) : Z := from_option cl_active 0 (wl_clients l !! ip).
Definition attempts (l : websocketConnectionLimiter) (ip : bytes) : list Z := from_option cl_attempts [] (wl_clients l !! ip).

(** The times at which connections of [ip] were admitted. *)
Definition admitted (log : list (bytes * Z)) (ip : bytes) : list Z :=
  snd <$> filter (fun e => e.1 = ip) log.

Arguments admitted : simpl never.

Definition since (cutoff : Z) (ts : list Z) : list Z := filter (fun t => cutoff <= t) ts.
Arguments since : simpl never.

Lemma trimTimes_since ts cutoff : StronglySorted Z.le ts -> trimTimes ts cutoff = since cutoff ts.
Proof.
  unfold since. induction 1 as [|t ts Hs IH Hf]; [done|]. cbn [trimTimes]. rewrite filter_cons.
  case_test; [by rewrite decide_False by lia|]. rewrite decide_True by lia.
  rewrite filter_all; [done|]. intros x Hx. eapply Forall_forall in Hf; [|done]. lia.
Qed.

Lemma since_since a b ts : a <= b -> since b (since a ts) = since b ts.
Proof.
  intros Hab. unfold since. rewrite list_filter_filter. apply list_filter_iff. intros t. lia.
Qed.

Lemma since_sorted c ts : StronglySorted Z.le ts -> StronglySorted Z.le (since c ts).
Proof.
  unfold since. induction 1 as [|t ts Hs IH Hf]; [constructor|]. rewrite filter_cons. case_decide; [|done].
  constructor; [done|]. apply Forall_forall. intros x [_ Hx]%list_elem_of_filter.
  by eapply Forall_forall in Hf.
Qed.

(** What holds of one client at a time: its entry, if any, counts the open connections and
    has the recent attempts. *)
Record client_ok (clock : Z) (op : Z) (log : list Z) (oc : option websocketClientLimit) : Prop := {
  co_active : from_option cl_active 0 oc = op;
  co_sorted : StronglySorted Z.le (from_option cl_attempts [] oc);
  co_recent cutoff : clock - websocketConnectionAttemptWindow <= cutoff ->
    since cutoff (from_option cl_attempts [] oc) = since cutoff log;
  co_seen t c : oc = Some c -> t ∈ log -> t <= cl_lastSeen c;
}.

Lemma since_nil c ts : (forall t, t ∈ ts -> t < c) -> since c ts = [].
Proof. intros H. unfold since. apply filter_none. intros t Ht. specialize (H t Ht). lia. Qed.

Lemma client_later clock now op log oc : clock <= now -> client_ok clock op log oc -> client_ok now op log oc.
Proof. intros Hn [H1 H2 H3 H4]. split; try done. intros c Hc. apply H3. lia. Qed.

Lemma client_trim now op log c :
  client_ok now op log (Some c) -> client_ok now op log (Some (trimAttempts now c)).
Proof.
  intros [H1 H2 H3 H4]. cbn in *. split; cbn.
  - done.
  - rewrite trimTimes_since by done. by apply since_sorted.
  - intros cutoff Hc. rewrite trimTimes_since, since_since by (done || lia). by apply H3.
  - intros t c' [= <-]. cbn. by apply H4.
Qed.

Lemma client_sweep now op log oc :
  client_ok now op log oc -> client_ok now op log (oc ≫= sweepClient now).
Proof.
  intros H. destruct oc as [c|]; [|done]. pose proof (client_trim _ _ _ _ H) as Ht. cbn. unfold sweepClient.
  destruct (_ && _) eqn:E; [|done]. apply andb_true_iff in E as [E1%Z.eqb_eq E2%Z.ltb_lt]. cbn in E1, E2.
  destruct H as [H1 H2 H3 H4]. cbn in *. split; cbn; [lia|constructor| |done].
  intros cutoff Hc. symmetry. apply since_nil. intros t Hin. specialize (H4 t c eq_refl Hin).
  unfold websocketConnectionLimiterTTL, websocketConnectionAttemptWindow, second in *. lia.
Qed.

Definition limiter_ok (s : Tracked) : Prop :=
  Forall (fun e => e.2 <= tr_clock s) (tr_log s) /\
  forall ip, 0 <= tr_open s ip /\
    (0 < wl_maxConnections (tr_limiter s) -> tr_open s ip <= wl_maxConnections (tr_limiter s)) /\
    client_ok (tr_clock s) (tr_open s ip) (admitted (tr_log s) ip) (wl_clients (tr_limiter s) !! ip).

Lemma cleanup_client now l ip op log :
  client_ok now op log (wl_clients l !! ip) -> client_ok now op log (wl_clients (cleanupLocked now l) !! ip).
Proof.
  intros H. unfold cleanupLocked.
  assert (client_ok now op log (wl_clients (sweepLocked now l) !! ip)) as Hs.
  { cbn. rewrite lookup_omap. by apply client_sweep. }
  destruct (wl_lastCleanup l); [|done]. by case_test.
Qed.

Lemma cleanup_limits now l :
  wl_maxConnections (cleanupLocked now l) = wl_maxConnections l /\
  wl_maxAttempts (cleanupLocked now l) = wl_maxAttempts l.
Proof. unfold cleanupLocked. destruct (wl_lastCleanup l); [case_test|]; done. Qed.

(** The entry of a client that calls, and the entries of the others. *)
Lemma accept_client ip now l op log :
  client_ok now op log (wl_clients l !! ip) ->
  let l1 := cleanupLocked now l in
  let c := default (mkClient 0 [] 0) (wl_clients l1 !! ip) in
  let c := trimAttempts now (mkClient (cl_active c) (cl_attempts c) now) in
  (forall t, t ∈ log -> t <= now) ->
  client_ok now op log (Some c) /\ cl_active c = op /\
  cl_attempts c = since (now - websocketConnectionAttemptWindow) log.
Proof.
  intros H l1 c c' Hlog. apply cleanup_client in H. fold l1 in H.
  assert (client_ok now op log (Some (mkClient (cl_active c) (cl_attempts c) now))) as Hc.
  { destruct H as [H1 H2 H3 H4]. unfold c. destruct (wl_clients l1 !! ip) as [c0|]; cbn in *; split; cbn; try done;
      intros t x [= <-]; cbn; apply Hlog. }
  apply client_trim in Hc as Ht. split; [exact Ht|]. destruct Hc as [H1 H2 H3 H4]. split; [exact H1|].
  unfold c'. cbn in *. rewrite trimTimes_since by done. by apply H3.
Qed.

Lemma admitted_snoc log ip now k :
  admitted (log ++ [(ip, now)]) k = admitted log k ++ (if decide (k = ip) then [now] else []).
Proof.
  unfold admitted. rewrite filter_app, fmap_app. f_equal. rewrite filter_cons. cbn.
  destruct (decide (ip = k)), (decide (k = ip)); naive_solver.
Qed.

Lemma admitted_le log ip t clock : Forall (fun e => e.2 <= clock) log -> t ∈ admitted log ip -> t <= clock.
Proof.
  intros Hf Ht. unfold admitted in Ht. apply list_elem_of_fmap in Ht as (e & -> & [_ He]%list_elem_of_filter).
  by eapply Forall_forall in Hf.
Qed.

Lemma client_admit now op log c :
  client_ok now op log (Some c) -> Forall (fun t => t <= now) (cl_attempts c) ->
  (forall t, t ∈ log -> t <= now) ->
  client_ok now (op + 1) (log ++ [now]) (Some (mkClient (cl_active c + 1) (cl_attempts c ++ [now]) now)).
Proof.
  intros [H1 H2 H3 H4] Hf Hlog. cbn in *. split; cbn.
  - lia.
  - apply StronglySorted_app_2; [|done|repeat constructor].
    intros a b Ha Hb%list_elem_of_singleton. subst b. by eapply Forall_forall in Hf.
  - intros cutoff Hc. unfold since. rewrite !filter_app. f_equal. by apply H3.
  - intros t c' [= <-] Ht. cbn. apply elem_of_app in Ht as [Ht|Ht%list_elem_of_singleton]; [by apply Hlog|lia].
Qed.

Lemma later_ok l op log clock now :
  clock <= now -> limiter_ok (mkTracked l op log clock) -> limiter_ok (mkTracked l op log now).
Proof.
  intros Hn [Hlog Hall]. split; cbn in *; [eapply Forall_impl; [exact Hlog|]; cbn; lia|].
  intros ip. destruct (Hall ip) as (? & ? & ?). split_and!; [done..|]. by eapply client_later.
Qed.

Lemma cleanup_ok l op log now :
  limiter_ok (mkTracked l op log now) -> limiter_ok (mkTracked (cleanupLocked now l) op log now).
Proof.
  intros [Hlog Hall]. split; [done|]. intros ip. destruct (Hall ip) as (? & ? & ?). cbn in *.
  destruct (cleanup_limits now l) as [-> _]. split_and!; [done..|]. by apply cleanup_client.
Qed.

(** A call changes the entry of one client. *)
Lemma set_client_ok ip now l op op' log log' c :
  limiter_ok (mkTracked l op log now) -> Forall (fun e => e.2 <= now) log' ->
  0 <= op' ip -> (0 < wl_maxConnections l -> op' ip <= wl_maxConnections l) ->
  client_ok now (op' ip) (admitted log' ip) (Some c) ->
  (forall k, k <> ip -> op' k = op k /\ admitted log' k = admitted log k) ->
  limiter_ok (mkTracked (setClient ip c l) op' log' now).
Proof.
  intros [Hlog Hall] Hlog' H0 Hmax Hc Hother. cbn in *. split; [done|]. intros k. cbn.
  destruct (decide (ip = k)) as [<-|Hk].
  - rewrite lookup_insert_eq. done.
  - rewrite lookup_insert_ne by done. destruct (Hother k) as [E1 E2]; [done|]. rewrite E1, E2. apply Hall.
Qed.

Lemma bump_same ip d f : bump ip d f ip = f ip + d.
Proof. unfold bump. by rewrite decide_True. Qed.

Lemma bump_other ip d f k : k <> ip -> bump ip d f k = f k.
Proof. intros. unfold bump. by rewrite decide_False. Qed.

(** The decision of [accept] and the entry it leaves. *)
Lemma accept_spec ip now l op log :
  limiter_ok (mkTracked l op log now) ->
  exists c l1, limiter_ok (mkTracked l1 op log now) /\
    wl_maxConnections l1 = wl_maxConnections l /\ wl_maxAttempts l1 = wl_maxAttempts l /\
    client_ok now (op ip) (admitted log ip) (Some c) /\
    cl_attempts c = since (now - websocketConnectionAttemptWindow) (admitted log ip) /\
    let recent := zlen (since (now - websocketConnectionAttemptWindow) (admitted log ip)) in
    accept ip now l =
      (if (0 <? wl_maxConnections l) && (wl_maxConnections l <=? op ip)
       then (Rejected "connection_limit", setClient ip c l1)
       else if (0 <? wl_maxAttempts l) && (wl_maxAttempts l <=? recent)
       then (Rejected "connection_attempt_limit", setClient ip c l1)
       else (Accepted, setClient ip (mkClient (cl_active c + 1) (cl_attempts c ++ [now]) now) l1)).
Proof.
  intros Hs. pose proof Hs as [Hlog Hall]. cbn in *. destruct (Hall ip) as (H0 & Hmax & Hc).
  assert (forall t, t ∈ admitted log ip -> t <= now) as Hle by (intros t Ht; by eapply admitted_le).
  destruct (accept_client ip now l _ _ Hc Hle) as (Hc' & Hact & Hatt).
  unfold accept. cbv zeta. set (c := trimAttempts now _) in *.
  destruct (cleanup_limits now l) as [E1 E2]. rewrite E1, E2.
  exists c, (cleanupLocked now l). rewrite Hact, Hatt. split_and!; try done. by apply cleanup_ok.
Qed.

Lemma wstep_ok s s' : limiter_ok s -> wstep s s' -> limiter_ok s'.
Proof.
  intros Hs Hstep. destruct Hstep as [ip now l op log clock l' Hn Ha | ip now l op log clock r l' Hn Ha
    | ip now l op log clock Hn Hop | now l op log clock Hn]; apply (later_ok _ _ _ _ _ Hn) in Hs.
  - destruct (accept_spec ip now l op log Hs) as (c & l1 & H1 & E1 & E2 & Hc & Hatt & Hd). rewrite Hd in Ha.
    pose proof H1 as [Hlog Hall]. destruct (Hall ip) as (H0 & Hmax & _). cbn in *. rewrite E1 in Hmax.
    destruct ((0 <? wl_maxConnections l) && _) eqn:T1; [done|]. destruct (_ && _) eqn:T2 in Ha; [done|].
    injection Ha as <-.
    assert (forall t, t ∈ admitted log ip -> t <= now) as Hle by (intros t Ht; by eapply admitted_le).
    apply (set_client_ok ip now l1 op (bump ip 1 op) log); rewrite ?bump_same; try done.
    + by rewrite Forall_app, Forall_singleton.
    + lia.
    + rewrite E1. intros Hm. apply andb_false_iff in T1 as [T1%Z.ltb_ge|T1%Z.leb_gt]; lia.
    + rewrite admitted_snoc, decide_True by done. apply client_admit; [done| |done].
      rewrite Hatt. apply Forall_forall. intros t [_ Ht]%list_elem_of_filter. by apply Hle.
    + intros k Hk. rewrite bump_other, admitted_snoc, decide_False by done. by rewrite app_nil_r.
  - destruct (accept_spec ip now l op log Hs) as (c & l1 & H1 & E1 & E2 & Hc & Hatt & Hd). rewrite Hd in Ha.
    assert (l' = setClient ip c l1) as ->.
    { destruct ((0 <? wl_maxConnections l) && _) in Ha; [by injection Ha as <- <-|].
      destruct (_ && _) in Ha; [by injection Ha as <- <-|done]. }
    pose proof H1 as [Hlog Hall]. destruct (Hall ip) as (H0 & Hmax & _).
    by apply (set_client_ok ip now l1 op op log log).
  - unfold release. pose proof Hs as [Hlog Hall]. destruct (Hall ip) as (H0 & Hmax & Hc). cbn in *.
    destruct (wl_clients l !! ip) as [c|] eqn:Ec; [|destruct Hc as [Hc _ _ _]; cbn in Hc; lia].
    apply cleanup_ok. apply (set_client_ok ip now l op _ log); rewrite ?bump_same; try done; [lia|lia| |].
    + destruct Hc as [H1 H2 H3 H4]. cbn in H1. destruct (Z.ltb_spec 0 (cl_active c)); [|lia].
      split; cbn in *; [lia|done|done|]. intros t c' [= <-] Ht. cbn. by eapply admitted_le.
    + intros k Hk. by rewrite bump_other.
  - pose proof Hs as [Hlog Hall]. split; [done|]. intros ip. destruct (Hall ip) as (H0 & Hmax & Hc). cbn in *.
    split_and!; [done..|]. rewrite lookup_omap. by apply client_sweep.
Qed.

(** The admitted connections of a client in the minute from [a] on. *)
Definition inMinute (a : Z) (ts : list Z) : list Z :=
  filter (fun t => a <= t <= a + websocketConnectionAttemptWindow) ts.

Definition reach_ok (maxC maxA : Z) (s : Tracked) : Prop :=
  limiter_ok s /\ wl_maxConnections (tr_limiter s) = maxC /\ wl_maxAttempts (tr_limiter s) = maxA /\
  (0 < maxA -> forall ip a, zlen (inMinute a (admitted (tr_log s) ip)) <= maxA).

Lemma sublist_filter_length {A} (Q R : A -> Prop) `{forall x, Decision (Q x)} `{forall x, Decision (R x)} (l : list A) :
  (forall x, Q x -> R x) -> zlen (filter Q l) <= zlen (filter R l).
Proof.
  intros HQR. induction l as [|x l IH]; [done|]. rewrite !filter_cons.
  destruct (decide (Q x)), (decide (R x)); try naive_solver; rewrite ?zlen_cons; lia.
Qed.

Lemma reach_step maxC maxA s s' : reach_ok maxC maxA s -> wstep s s' -> reach_ok maxC maxA s'.
Proof.
  intros (Hok & EC & EA & Hmin) Hstep. pose proof (wstep_ok s s' Hok Hstep) as Hok'. split; [done|].
  destruct Hstep as [ip now l op log clock l' Hn Ha | ip now l op log clock r l' Hn Ha
    | ip now l op log clock Hn Hop | now l op log clock Hn]; apply (later_ok _ _ _ _ _ Hn) in Hok; cbn in *.
  1,2: destruct (accept_spec ip now l op log Hok) as (c & l1 & H1 & E1 & E2 & Hc & Hatt & Hd);
       rewrite Hd in Ha; clear Hd; rewrite EC, EA in Ha.
  - destruct ((0 <? maxC) && _) in Ha; [done|]. destruct (_ && _) eqn:T2 in Ha; [done|].
    injection Ha as <-. split_and!; [by cbn; rewrite E1|by cbn; rewrite E2|].
    intros Hm k a. rewrite admitted_snoc. unfold inMinute. rewrite filter_app, zlen_app.
    specialize (Hmin Hm k a). unfold inMinute in Hmin.
    case_decide as Ek; [|change (filter _ []) with (@nil Z); rewrite zlen_nil; lia]. subst k. rewrite filter_cons.
    case_decide as Hin; [|change (filter _ []) with (@nil Z); rewrite zlen_nil; lia].
    change (filter _ []) with (@nil Z). rewrite zlen_cons, zlen_nil.
    apply andb_false_iff in T2 as [T2%Z.ltb_ge|T2%Z.leb_gt]; [lia|].
    assert (zlen (filter (fun t => a <= t <= a + websocketConnectionAttemptWindow) (admitted log ip)) <=
      zlen (filter (fun t => now - websocketConnectionAttemptWindow <= t) (admitted log ip)))
      by (apply sublist_filter_length; intros x; lia).
    unfold since in T2. lia.
  - assert (l' = setClient ip c l1) as ->.
    { destruct ((0 <? maxC) && _) in Ha; [by injection Ha as <- <-|].
      destruct (_ && _) in Ha; [by injection Ha as <- <-|done]. }
    split_and!; [by cbn; rewrite E1|by cbn; rewrite E2|done].
  - unfold release. destruct (wl_clients l !! ip); [|done].
    split_and!; [| |done]; etransitivity; [apply cleanup_limits|done|apply cleanup_limits|done].
  - done.
Qed.

Lemma reach_start maxC maxA start : reach_ok maxC maxA (fresh maxC maxA start).
Proof.
  split; [|split_and!; [done..|]].
  - split; [constructor|]. intros ip. cbn. split_and!; [lia|lia|].
    rewrite lookup_empty. split; cbn; [done|constructor|done|done].
  - intros Hm ip a. cbn. unfold admitted. cbn. unfold inMinute, zlen. cbn. lia.
Qed.

Lemma reach_rtc maxC maxA start s : rtc wstep (fresh maxC maxA start) s -> reach_ok maxC maxA s.
Proof.
  intros Hr. pose proof (reach_start maxC maxA start) as H0.
  induction Hr as [|s1 s2 s3 Hs _ IH]; [done|]. apply IH. by eapply reach_step.
Qed.

(** C33: Whatever the calls of the server, the limiter counts exactly the open connections of
    every client, which never exceed the limit, and in no minute are more connections of a
    client admitted than the attempts allowed; evicting idle clients never loses a connection
    or an attempt that counts. *)
Theorem connection_limits maxC maxA start s :
  rtc wstep (fresh maxC maxA start) s -> forall ip,
  active (tr_limiter s) ip = tr_open s ip /\ 0 <= tr_open s ip /\
  (0 < maxC -> tr_open s ip <= maxC) /\
  (0 < maxA -> forall a, zlen (inMinute a (admitted (tr_log s) ip)) <= maxA).
Proof.
  intros Hr ip. destruct (reach_rtc _ _ _ _ Hr) as ((Hlog & Hall) & EC & EA & Hmin).
  destruct (Hall ip) as (H0 & Hmax & Hc). rewrite EC in Hmax. split_and!; [apply Hc|done|done|auto].
Qed.

(** A new connection is refused exactly when the client has as many open connections as
    allowed, or was admitted as many times as allowed in the last minute. *)
Theorem accept_decides maxC maxA start s ip now :
  rtc wstep (fresh maxC maxA start) s -> tr_clock s <= now ->
  (accept ip now (tr_limiter s)).1 =
    (let recent := zlen (since (now - websocketConnectionAttemptWindow) (admitted (tr_log s) ip)) in
     if (0 <? maxC) && (maxC <=? tr_open s ip) then Rejected "connection_limit"
     else if (0 <? maxA) && (maxA <=? recent) then Rejected "connection_attempt_limit" else Accepted).
Proof.
  intros Hr Hn. destruct (reach_rtc _ _ _ _ Hr) as (Hok & EC & EA & _). destruct s as [l op log clock]. cbn in *.
  apply (later_ok _ _ _ _ _ Hn) in Hok.
  destruct (accept_spec ip now l op log Hok) as (c & l1 & _ & _ & _ & _ & _ & ->). rewrite EC, EA.
  by repeat case_match.
Qed.

(** ** The message counter *)

(** Occurrences of the bucket [b], and messages in buckets after [x]. *)
Definition countOf (b : Z) (bs : list Z) : Z := zlen (filter (fun x => x = b) bs).
Definition newer (x : Z) (bs : list Z) : Z := zlen (filter (fun b => x < b) bs).
Arguments countOf : simpl never.
Arguments newer : simpl never.

Lemma newer_step x bs : newer x bs = newer (x + 1) bs + countOf (x + 1) bs.
Proof.
  unfold newer, countOf. induction bs as [|b bs IH]; [done|]. rewrite !filter_cons.
  repeat case_decide; rewrite ?zlen_cons; lia.
Qed.

Lemma newer_range x bs : 0 <= newer x bs <= zlen bs.
Proof. unfold newer, zlen. pose proof (length_filter (fun b => x < b) bs). lia. Qed.

Lemma countOf_none b bs : Forall (fun x => x < b) bs -> countOf b bs = 0.
Proof.
  intros H. unfold countOf. rewrite filter_none; [done|]. intros x Hx ->.
  eapply Forall_forall in H; [|done]. lia.
Qed.

Lemma newer_none x bs : Forall (fun b => b <= x) bs -> newer x bs = 0.
Proof.
  intros H. unfold newer. rewrite filter_none; [done|]. intros b Hb.
  eapply Forall_forall in H; [|done]. lia.
Qed.

Lemma countOf_range b bs : 0 <= countOf b bs <= zlen bs.
Proof. unfold countOf, zlen. pose proof (length_filter (fun x => x = b) bs). lia. Qed.

(** The ring holds the counts of the 60 buckets up to [last]. *)
Definition ring_ok (bs : list Z) (last : Z) (s : list Z * Z) : Prop :=
  length s.1 = 60%nat /\ s.2 = newer (last - 60) bs /\
  forall b, last - 60 < b <= last -> s.1 !! Z.to_nat (b mod 60) = Some (countOf b bs).

Lemma clear_ring bs last n i s :
  zlen bs < 2 ^ 31 -> 0 <= last -> 0 < i -> Forall (fun b => b < last + i) bs ->
  ring_ok bs (last + i - 1) s -> ring_ok bs (last + i - 1 + Z.of_nat n) (clearBuckets n last i s).
Proof.
  intros Hb Hl. revert i s. induction n as [|n IH]; intros i s Hi Hall Hs; cbn [clearBuckets].
  { by replace (last + i - 1 + Z.of_nat 0) with (last + i - 1) by lia. }
  destruct s as [counts total], Hs as (Hlen & Htot & Hlk). cbn in Hlen, Htot, Hlk.
  replace (last + i - 1 + Z.of_nat (S n)) with (last + (i + 1) - 1 + Z.of_nat n) by lia.
  unfold messageRateWindowBuckets. rewrite Z.rem_mod_nonneg by lia.
  apply IH; [lia|eapply Forall_impl; [exact Hall|]; cbn; lia|].
  assert ((last + i) mod 60 = (last + i - 60) mod 60) as Hslot.
  { replace (last + i) with (last + i - 60 + 1 * 60) at 1 by lia. by rewrite Z.mod_add by lia. }
  assert (counts !! Z.to_nat ((last + i) mod 60) = Some (countOf (last + i - 60) bs)) as Hold.
  { rewrite Hslot. apply Hlk. lia. }
  pose proof (newer_step (last + i - 61) bs) as Hstep.
  replace (last + i - 61 + 1) with (last + i - 60) in Hstep by lia.
  replace (last + i - 1 - 60) with (last + i - 61) in Htot by lia.
  pose proof (newer_range (last + i - 60) bs). apply lookup_lt_Some in Hold as Hlt.
  split_and!; cbn [fst snd].
  - by rewrite length_insert.
  - rewrite Hold. cbn. rewrite Htot, Hstep. replace (last + (i + 1) - 1 - 60) with (last + i - 60) by lia.
    rewrite i32_id by (unfold is_i32; lia). lia.
  - intros b Hrange. destruct (Z.eq_dec b (last + i)) as [->|Hne].
    + rewrite list_lookup_insert_eq by done. f_equal. symmetry. by apply countOf_none.
    + rewrite list_lookup_insert_ne; [apply Hlk; lia|]. intros E.
      apply Z2Nat.inj in E; [|apply Z.mod_pos_bound; lia..].
      rewrite Hslot in E. pose proof (Z.div_mod (last + i - 60) 60 ltac:(lia)).
      pose proof (Z.div_mod b 60 ltac:(lia)).
      assert (60 * (b / 60 - (last + i - 60) / 60) = b - (last + i - 60)) by lia. lia.
Qed.

(** All counts are zero when no message is in the window: the ring fits any later window. *)
Lemma ring_empty bs last idx s :
  Forall (fun b => b <= last) bs -> last + 60 <= idx -> ring_ok bs (last + 60) s -> ring_ok bs idx s.
Proof.
  intros Hall Hi (Hlen & Htot & Hlk).
  assert (forall x, last <= x -> newer x bs = 0) as Hnew.
  { intros x Hx. apply newer_none. eapply Forall_impl; [exact Hall|]. cbn. lia. }
  assert (forall b, last < b -> countOf b bs = 0) as Hcnt.
  { intros b Hb. apply countOf_none. eapply Forall_impl; [exact Hall|]. cbn. lia. }
  split_and!; [done|rewrite Htot, !Hnew by lia; done|]. intros b Hb.
  set (b' := last + 1 + (b - (last + 1)) mod 60).
  pose proof (Z.mod_pos_bound (b - (last + 1)) 60 ltac:(lia)).
  assert (b mod 60 = b' mod 60) as ->.
  { unfold b'. rewrite <- Zplus_mod_idemp_r, Z.mod_mod, Zplus_mod_idemp_r by lia. f_equal. lia. }
  rewrite Hlk by (unfold b'; lia). rewrite !Hcnt by (unfold b'; lia). done.
Qed.

(** The counter after messages in the buckets [bs]. *)
Definition rate_ok (d : Z) (bs : list Z) (m : connMessageRate) : Prop :=
  mr_bucketDur m = d /\
  if mr_inited m then
    0 <= mr_lastBucket m /\ Forall (fun b => b <= mr_lastBucket m) bs /\
    ring_ok bs (mr_lastBucket m) (mr_counts m, mr_total m)
  else bs = [] /\ mr_counts m = replicate 60 0 /\ mr_total m = 0.

(** The bucket a message falls into: never one before the last. *)
Definition bucketOf (now : Z) (m : connMessageRate) : Z :=
  let idx := now / mr_bucketDur m in
  if mr_inited m then Z.max idx (mr_lastBucket m) else idx.

Lemma ring_fresh last : 0 <= last -> ring_ok [] last (replicate 60 0, 0).
Proof.
  intros Hl. split_and!; [done|done|]. intros b Hb. cbn [fst].
  pose proof (Z.mod_pos_bound b 60 ltac:(lia)). by rewrite lookup_replicate_2 by lia.
Qed.

Lemma advance_ring bs last idx s :
  zlen bs < 2 ^ 31 -> 0 <= last <= idx -> Forall (fun b => b <= last) bs -> ring_ok bs last s ->
  ring_ok bs idx (clearBuckets (Z.to_nat (Z.min (idx - last) 60)) last 1 s).
Proof.
  intros Hb Hl Hall Hs.
  assert (Forall (fun b => b < last + 1) bs) as Hall' by (eapply Forall_impl; [exact Hall|]; cbn; lia).
  pose proof (clear_ring bs last (Z.to_nat (Z.min (idx - last) 60)) 1 s Hb ltac:(lia) ltac:(lia) Hall') as Hc.
  replace (last + 1 - 1) with last in Hc by lia. specialize (Hc Hs).
  destruct (Z.le_gt_cases (idx - last) 60).
  - by replace (last + Z.of_nat (Z.to_nat (Z.min (idx - last) 60))) with idx in Hc by lia.
  - replace (last + Z.of_nat (Z.to_nat (Z.min (idx - last) 60))) with (last + 60) in Hc by lia.
    eapply ring_empty; [done| |done]. lia.
Qed.

Lemma count_ring bs idx counts total :
  zlen bs < 2 ^ 31 - 1 -> 0 <= idx -> ring_ok bs idx (counts, total) ->
  ring_ok (bs ++ [idx]) idx
    (<[Z.to_nat (idx mod 60) := i32 (default 0 (counts !! Z.to_nat (idx mod 60)) + 1)]> counts, i32 (total + 1)).
Proof.
  intros Hb Hi (Hlen & Htot & Hlk). cbn in Hlen, Htot, Hlk.
  pose proof (newer_range (idx - 60) bs). pose proof (countOf_range idx bs).
  pose proof (Hlk idx ltac:(lia)) as Hslot. apply lookup_lt_Some in Hslot as Hlt.
  split_and!; cbn [fst snd].
  - by rewrite length_insert.
  - rewrite Htot, i32_id by (unfold is_i32; lia). unfold newer. rewrite filter_app, zlen_app.
    rewrite filter_cons_True by lia. done.
  - intros b Hrange. unfold countOf in *. rewrite filter_app, zlen_app. destruct (Z.eq_dec b idx) as [->|Hne].
    + rewrite list_lookup_insert_eq, Hslot by done. rewrite filter_cons_True by done. cbn [default from_option id].
      rewrite i32_id by (unfold is_i32; lia). done.
    + rewrite filter_cons_False by done. change (zlen (filter _ [])) with 0. rewrite Z.add_0_r.
      rewrite list_lookup_insert_ne; [by apply Hlk|]. intros E.
      apply Z2Nat.inj in E; [|apply Z.mod_pos_bound; lia..].
      pose proof (Z.div_mod idx 60 ltac:(lia)). pose proof (Z.div_mod b 60 ltac:(lia)).
      assert (60 * (b / 60 - idx / 60) = b - idx) by lia. lia.
Qed.

Lemma observe_ok d bs m now :
  0 < d -> 0 <= now -> zlen bs < 2 ^ 31 - 1 -> rate_ok d bs m ->
  let idx := bucketOf now m in
  (observe now m).1 = newer (idx - 60) (bs ++ [idx]) /\ rate_ok d (bs ++ [idx]) (observe now m).2.
Proof.
  intros Hd Hn Hb [Hdur Hm] idx. unfold observe, messageRateWindowBuckets. rewrite Hdur.
  rewrite Z.quot_div_nonneg by lia. pose proof (Z.div_pos now d ltac:(lia) Hd) as Hpos.
  set (last := if mr_inited m then mr_lastBucket m else now / d).
  assert ((if now / d <? last then last else now / d) = idx) as Hidx.
  { unfold last, idx, bucketOf. rewrite Hdur. destruct (mr_inited m); case_tests. }
  rewrite Hidx.
  assert (0 <= last <= idx /\ Forall (fun b => b <= last) bs /\ ring_ok bs last (mr_counts m, mr_total m))
    as (Hl & Hall & Hring).
  { unfold last, idx, bucketOf. rewrite Hdur. destruct (mr_inited m); [destruct Hm as (? & ? & ?); split_and!; (done || lia)|].
    destruct Hm as (-> & -> & ->). split_and!; [lia|lia|constructor|by apply ring_fresh]. }
  pose proof (advance_ring bs last idx _ ltac:(lia) Hl Hall Hring) as Hadv.
  destruct (clearBuckets _ _ _ _) as [counts total]. rewrite Z.rem_mod_nonneg by lia.
  pose proof (count_ring bs idx counts total Hb ltac:(lia) Hadv) as Hcnt. cbn [fst snd].
  split; [apply Hcnt|]. split; [done|]. cbn. split_and!; [lia| |done].
  rewrite Forall_app, Forall_singleton. split; [|lia]. eapply Forall_impl; [exact Hall|]. cbn. lia.
Qed.

Lemma zlen_map {A B} (f : A -> B) l : zlen (map f l) = zlen l.
Proof. unfold zlen. by rewrite length_map. Qed.

(** Messages in the order of time fall into the buckets of their times. *)
Lemma observe_all d m0 times :
  0 < d -> rate_ok d [] m0 -> mr_inited m0 = false ->
  Forall (fun t => 0 <= t) times -> StronglySorted Z.le times -> zlen times < 2 ^ 31 ->
  let m := foldl (fun m t => (observe t m).2) m0 times in
  rate_ok d (map (fun t => t / d) times) m /\
  (mr_inited m = true -> exists t, t ∈ times /\ mr_lastBucket m = t / d).
Proof.
  intros Hd H0 Hi. induction times as [|t times IH] using rev_ind; intros Hpos Hs Hlen.
  { cbn. split; [done|]. congruence. }
  rewrite foldl_app. cbn [foldl]. rewrite map_app. cbn [map].
  rewrite Forall_app, Forall_singleton in Hpos. destruct Hpos as [Hpos Ht].
  apply StronglySorted_app in Hs as (Hle & Hs & _). rewrite zlen_app, zlen_cons, zlen_nil in Hlen.
  destruct (IH Hpos Hs ltac:(lia)) as [Hok Hlast]. set (m := foldl _ m0 times) in *.
  destruct (observe_ok d (map (fun t => t / d) times) m t Hd Ht) as [_ H2]; [rewrite zlen_map; lia|done|].
  assert (bucketOf t m = t / d) as Hb.
  { unfold bucketOf. rewrite (proj1 Hok). destruct (mr_inited m); [|done].
    destruct (Hlast eq_refl) as (t' & Ht' & ->). rewrite Z.max_l; [done|]. apply Z.div_le_mono; [done|].
    apply Hle; [done|by left]. }
  rewrite Hb in H2. split; [done|]. intros _. exists t. split; [set_solver|].
  unfold observe. destruct (clearBuckets _ _ _ _) as [counts total]. cbn.
  rewrite (proj1 Hok), Z.quot_div_nonneg by lia. unfold bucketOf in Hb. rewrite (proj1 Hok) in Hb.
  destruct (mr_inited m); case_tests.
Qed.

Lemma newer_map (f : Z -> Z) x ts : newer x (map f ts) = zlen (filter (fun t => x < f t) ts).
Proof.
  unfold newer. induction ts as [|t ts IH]; [done|]. cbn [map]. rewrite !filter_cons.
  case_decide; rewrite ?zlen_cons, IH; done.
Qed.

(** C40: The message counter of a connection returns the number of messages in the last 60
    buckets. It therefore never counts a message that is older than the window, and misses at
    most those of the oldest bucket of the window; the 32-bit counters do not wrap around for
    less than 2^31 messages. *)
Theorem message_rate_window window times now :
  60 <= window -> Forall (fun t => 0 <= t) (times ++ [now]) -> StronglySorted Z.le (times ++ [now]) ->
  zlen times < 2 ^ 31 - 1 ->
  let d := window / 60 in
  let count := (observe now (foldl (fun m t => (observe t m).2) (newConnMessageRate window) times)).1 in
  count = zlen (filter (fun t => now / d - 60 < t / d) (times ++ [now])) /\
  zlen (filter (fun t => now - 59 * d <= t) (times ++ [now])) <= count /\
  count <= zlen (filter (fun t => now - window < t) (times ++ [now])).
Proof.
  intros Hw Hpos Hs Hlen d. pose proof Hpos as Hpos'. rewrite Forall_app, Forall_singleton in Hpos.
  destruct Hpos as [Hpt Hpn]. pose proof (proj1 (StronglySorted_app _ _ _) Hs) as (Hle & Hst & _).
  assert (1 <= d) as Hd by (apply Z.div_le_lower_bound; lia).
  assert (rate_ok d [] (newConnMessageRate window)) as H0.
  { unfold newConnMessageRate, messageRateWindowBuckets. rewrite Z.quot_div_nonneg by lia. fold d.
    destruct (Z.leb_spec d 0); [lia|]. done. }
  destruct (observe_all d (newConnMessageRate window) times ltac:(lia) H0 eq_refl Hpt Hst ltac:(lia)) as [Hok Hlast].
  set (m := foldl _ _ times) in *.
  destruct (observe_ok d (map (fun t => t / d) times) m now ltac:(lia) Hpn) as [Hcount _];
    [rewrite zlen_map; lia|done|].
  assert (bucketOf now m = now / d) as Hb.
  { unfold bucketOf. rewrite (proj1 Hok). destruct (mr_inited m); [|done].
    destruct (Hlast eq_refl) as (t' & Ht' & ->). rewrite Z.max_l; [done|]. apply Z.div_le_mono; [lia|].
    apply Hle; [done|by left]. }
  rewrite Hb in Hcount. change [now / d] with (map (fun t => t / d) [now]) in Hcount.
  rewrite <- map_app, newer_map in Hcount. cbn zeta. rewrite Hcount. split; [done|].
  pose proof (Z.mul_div_le window 60 ltac:(lia)). fold d in H.
  pose proof (Z.div_mod now d ltac:(lia)). pose proof (Z.mod_pos_bound now d ltac:(lia)).
  split; apply sublist_filter_length; intros t Ht;
    pose proof (Z.div_mod t d ltac:(lia)); pose proof (Z.mod_pos_bound t d ltac:(lia)); nia.
Qed.

(** ** Examples *)

Module WsLimiterExample.

Definition ipA : bytes := [x0a].

(** Two connections are admitted, one is closed, and the limit of two attempts refuses the
    next. *)
Definition step1 : Tracked :=
  let l := (accept ipA 5 (newWebsocketConnectionLimiter 3 2)).2 in
  mkTracked l (bump ipA 1 (fun _ => 0)) [(ipA, 5)] 5.
Definition step2 : Tracked :=
  mkTracked (accept ipA 7 (tr_limiter step1)).2 (bump ipA 1 (tr_open step1)) [(ipA, 5); (ipA, 7)] 7.
Definition step3 : Tracked :=
  mkTracked (release ipA 9 (tr_limiter step2)) (bump ipA (-1) (tr_open step2)) [(ipA, 5); (ipA, 7)] 9.

Lemma reach3 : rtc wstep (fresh 3 2 0) step3.
Proof.
  eapply rtc_l; [apply (w_accept ipA 5); [lia|reflexivity]|].
  eapply rtc_l; [apply (w_accept ipA 7); [lia|vm_compute; reflexivity]|].
  eapply rtc_l; [apply (w_release ipA 9); [lia|vm_compute; reflexivity]|].
  vm_compute. apply rtc_refl.
Qed.

Lemma connection_limits_witness : active (tr_limiter step3) ipA = 1 /\ tr_open step3 ipA <= 3.
Proof.
  destruct (connection_limits 3 2 0 step3 reach3 ipA) as (H1 & _ & H3 & _).
  split; [rewrite H1; vm_compute; reflexivity|apply H3; lia].
Defined.

Lemma accept_decides_witness : (accept ipA 20 (tr_limiter step3)).1 = Rejected "connection_attempt_limit".
Proof.
  rewrite (accept_decides 3 2 0 step3 ipA 20 reach3) by (vm_compute; discriminate).
  vm_compute. reflexivity.
Defined.

(** A window of 600 ns has buckets of 10 ns: the message at 5 is within the window at 604, but
    its bucket has already been cleared. *)
Lemma message_rate_window_witness :
  (observe 604 (foldl (fun m t => (observe t m).2) (newConnMessageRate 600) [5; 300])).1 = 2 /\
  (observe 604 (foldl (fun m t => (observe t m).2) (newConnMessageRate 600) [5; 300])).1 <=
  zlen (filter (fun t => 604 - 600 < t) ([5; 300] ++ [604])).
Proof.
  destruct (message_rate_window 600 [5; 300] 604) as (H1 & _ & H3); [lia|repeat constructor; lia| |reflexivity|].
  - repeat constructor; cbn; lia.
  - split; [|exact H3]. rewrite H1. vm_compute. reflexivity.
Defined.

End WsLimiterExample.
