(* ===== verification/Sync.v ===== *)
(** Synchronisation of the index with the backend ([db/sync.go]): the sequential path of
    [resyncIndex] for Bitcoin-type coins, with the handling of forks and of blocks that
    disappear while they are fetched.

    The index is the class [ChainIndex], the operations of the database that [SyncWorker]
    calls. The backend is a [World]: it may answer every call differently, so chains that
    reorganise during a sync are covered. The goroutine [getBlockChain] never looks at the
    index and only sends blocks and one final error, so the sequence it sends is computed
    first and then connected. Shutdown signals, metrics and logging are not modelled. *)

From S2P Require Import Prelude Codec Parser InternalState.
From Stdlib Require Strings.String Strings.Ascii.

Local Open Scope Z_scope.

(** ** Interfaces *)

(** The index, as the sync worker uses it. A disconnect that fails may have disconnected
    blocks. *)
Class ChainIndex := {
  ix : Type;
  ix_GetBestBlock : ix -> result (Z * bytes);
  ix_GetBlockHash : ix -> Z -> result bytes;
  ix_ConnectBlock : ix -> Block -> result ix;
  ix_DisconnectBlocks : ix -> Z -> Z -> ix * result unit;
}.

(** The answers of the backend to one call. *)
Record Snapshot := mkSnapshot {
  sn_BestBlockHash : goerror + bytes;
  sn_BestBlockHeight : goerror + Z;
  sn_BlockHash : Z -> goerror + bytes;
  sn_Block : bytes -> Z -> goerror + Block;
  sn_BackendInfo : BackendInfo;
  sn_Clock : Z;
}.

(** The snapshot the n-th call sees. *)
Definition World := nat -> Snapshot.

Inductive SyncError :=
| syncNotNeeded
| errFork
| errResync
| errBackend (e : goerror)       (* an error of the backend or of the database *)
| crashed.                       (* a run-time panic *)

#[export] Instance SyncError_eq_decision : EqDecision SyncError.
Proof. solve_decision. Defined.

Record SyncConfig := mkSyncConfig {
  cfg_syncWorkers : Z;
  cfg_TipRecheckThreshold : Z;
  cfg_MaxStallDuration : Z;
}.

(** ** Errors worth a retry *)

Definition lowerAscii (c : Ascii.ascii) : Ascii.ascii :=
  let n := Ascii.nat_of_ascii c in
  if ((65 <=? n) && (n <=? 90))%nat then Ascii.ascii_of_nat (n + 32) else c.

Fixpoint ToLower (s : string) : string :=
  match s with
  | EmptyString => EmptyString
  | String c s => String (lowerAscii c) (ToLower s)
  end.

(** [strings.Contains] *)
Fixpoint Contains (s pat : string) : bool :=
  String.prefix pat s || match s with EmptyString => false | String _ s => Contains s pat end.

Definition retryableMessages : list string :=
  ["connection reset by peer"; "connection refused"; "broken pipe"; "connection lost"; "client is closed";
   "i/o timeout"; "request timed out"; "429 too many requests"; "502 bad gateway"; "503 service unavailable";
   "504 gateway timeout"; "header not found"; "block not found"]%string.

Definition isRetryableGetBlockError (e : goerror) : bool :=
  match e with
  | ErrBlockNotFound => true
  | ErrNetwork => true
  | ErrMsg m => existsb (Contains (ToLower m)) retryableMessages
  | _ => false
  end.

Section Sync.
Context {P : ChainParser} {I : ChainIndex} (w : World) (cfg : SyncConfig).

(** ** Fetching one block *)

(** What the inner loop of [getBlockChain] ends with. *)
Inductive Fetched :=
| FBlock (b : Block)
| FEnd                           (* past the tip *)
| FError (e : SyncError).

(** The result and the number of the next call. *)
Definition shouldRestartSyncOnMissingBlock (height : Z) (expectedHash : bytes) (t : nat)
    : (goerror + bool) * nat :=
  if bool_decide (expectedHash = []) then (inr false, t)
  else
    match sn_BestBlockHeight (w t) with
    | inl e => (inl e, S t)
    | inr bestHeight =>
        if bestHeight <? height then (inr false, S t)
        else
          match sn_BlockHash (w (S t)) height with
          | inl ErrBlockNotFound => (inr false, S (S t))
          | inl e => (inl e, S (S t))
          | inr currentHash => (inr (negb (bool_decide (currentHash = expectedHash))), S (S t))
          end
    end.

Definition onRetryableMiss (retries threshold height : Z) (hash : bytes) (t : nat)
    : Z * ((goerror + bool) * nat) :=
  let retries := retries + 1 in
  (retries,
   if retries <? threshold then (inr false, t) else shouldRestartSyncOnMissingBlock height hash t).

Definition recheckThreshold : Z := if cfg_TipRecheckThreshold cfg <=? 0 then 1 else cfg_TipRecheckThreshold cfg.

(** At the end of the chain nothing is left to fetch: [Some] is the way the loop ends. *)
Definition pastTip (hash : bytes) (height : Z) (t : nat) : option Fetched * nat :=
  match sn_BestBlockHeight (w t) with
  | inl e => (Some (FError (errBackend e)), S t)
  | inr bestHeight =>
      if (bestHeight <? height) && bool_decide (hash = []) then (Some FEnd, S t) else (None, S t)
  end.

(** The inner loop of [getBlockChain]; [None] when the fuel does not suffice. *)
Fixpoint fetchBlock (fuel : nat) (hash : bytes) (height retries loopStart : Z) (t : nat)
    : option (Fetched * nat) :=
  match fuel with
  | O => None
  | S fuel =>
      let tipCached := bool_decide (GetChainType = ChainEthereumType) in
      let '(ended, t) :=
        if tipCached && bool_decide (hash = []) && (retries =? 0) then pastTip hash height t else (None, t) in
      match ended with
      | Some r => Some (r, t)
      | None =>
          match sn_Block (w t) hash height with
          | inr block => Some (FBlock block, S t)
          | inl err =>
              let notFound := bool_decide (err = ErrBlockNotFound) in
              let '(ended, t) :=
                if (retries =? 0) && notFound then pastTip hash height (S t) else (None, S t) in
              match ended with
              | Some r => Some (r, t)
              | None =>
                  if negb (isRetryableGetBlockError err) then Some (FError (errBackend err), t)
                  else
                    let '(retries, (check, t)) := onRetryableMiss retries recheckThreshold height hash t in
                    match check with
                    | inl e => Some (FError (errBackend e), t)
                    | inr true => Some (FError errResync, t)
                    | inr false =>
                        if (0 <? cfg_MaxStallDuration cfg) &&
                           (cfg_MaxStallDuration cfg <=? sn_Clock (w t) - loopStart)
                        then Some (FError errResync, t)
                        else fetchBlock fuel hash height retries loopStart t
                    end
              end
          end
      end
  end.

(** ** The sequence of blocks *)

Definition fallBehindCheckBlocks : Z := 100.

Definition sequentialFallBehindGap : Z :=
  if (cfg_syncWorkers cfg <=? 1) || bool_decide (GetChainType <> ChainEthereumType) then 0
  else
    let gap := u32 (u32 (cfg_syncWorkers cfg) * 4) in
    if gap <? 64 then 64 else gap.

(** The probe after [fallBehindCheckBlocks] blocks; an error of it is ignored. *)
Definition fellBehind (height : Z) (t : nat) : bool :=
  match sn_BestBlockHeight (w t) with
  | inl _ => false
  | inr bestHeight => (height <? bestHeight) && (sequentialFallBehindGap <? bestHeight - height)
  end.

(** What is sent on the channel: blocks, and at most one error at the end. *)
Fixpoint getBlockChain (fuel : nat) (hash : bytes) (height : Z) (prevHash : bytes) (sinceCheck : Z) (t : nat)
    : option (list (SyncError + Block) * nat) :=
  match fuel with
  | O => None
  | S fuel' =>
      match fetchBlock fuel hash height 0 (sn_Clock (w t)) t with
      | None => None
      | Some (FEnd, t) => Some ([], t)
      | Some (FError e, t) => Some ([inl e], t)
      | Some (FBlock block, t) =>
          if negb (bool_decide (blk_Prev block = [])) && negb (bool_decide (prevHash = [])) &&
             negb (bool_decide (prevHash = blk_Prev block))
          then Some ([inl errFork], t)
          else
            let height := u32 (height + 1) in
            let check := (0 <? sequentialFallBehindGap) && (fallBehindCheckBlocks <=? sinceCheck + 1) in
            if check && fellBehind height t then Some ([inr block; inl errResync], S t)
            else
              match getBlockChain fuel' (blk_Next block) height (blk_Hash block)
                      (if check then 0 else sinceCheck + 1) (if check then S t else t) with
              | None => None
              | Some (rest, t) => Some (inr block :: rest, t)
              end
      end
  end.

(** ** Connecting *)

Record SyncState := mkSync {
  ss_index : ix;
  ss_time : nat;
  ss_startHeight : Z;
  ss_newBlocks : list Block;      (* the calls of [onNewBlock] *)
}.

Definition setIndex (s : ix) (st : SyncState) : SyncState :=
  mkSync s (ss_time st) (ss_startHeight st) (ss_newBlocks st).

Definition setTime (t : nat) (st : SyncState) : SyncState :=
  mkSync (ss_index st) t (ss_startHeight st) (ss_newBlocks st).

Definition setStart (h : Z) (st : SyncState) : SyncState :=
  mkSync (ss_index st) (ss_time st) h (ss_newBlocks st).

(** The outcome of a call: [Returned None] is the return of nil. *)
Inductive Outcome := Returned (e : option SyncError) | OutOfFuel.

(** The loop over the channel. *)
Fixpoint connectAll (results : list (SyncError + Block)) (st : SyncState) : option SyncError * SyncState :=
  match results with
  | [] => (None, st)
  | inl e :: _ => (Some e, st)
  | inr block :: results =>
      match ix_ConnectBlock (ss_index st) block with
      | Ok s => connectAll results (mkSync s (ss_time st) (ss_startHeight st) (ss_newBlocks st ++ [block]))
      | Err e => (Some (errBackend e), st)
      | Panic => (Some crashed, st)
      end
  end.

Definition connectBlocks (fuel : nat) (startHash : bytes) (st : SyncState) : Outcome * SyncState :=
  match getBlockChain fuel startHash (ss_startHeight st) [] 0 (ss_time st) with
  | None => (OutOfFuel, st)
  | Some (results, t) => let '(e, st) := connectAll results (setTime t st) in (Returned e, st)
  end.

(** ** Forks *)

(** The loop that looks for the last common block: the height where it stops. *)
Fixpoint findFork (fuel : nat) (s : ix) (height : Z) (t : nat) : option ((SyncError + Z) * nat) :=
  match fuel with
  | O => None
  | S fuel =>
      match ix_GetBlockHash s height with
      | Err e => Some (inl (errBackend e), t)
      | Panic => Some (inl crashed, t)
      | Ok local =>
          if bool_decide (local = []) then Some (inr height, t)
          else
            match sn_BlockHash (w t) height with
            | inl ErrBlockNotFound => findFork fuel s (u32 (height - 1)) (S t)
            | inl e => Some (inl (errBackend e), S t)
            | inr remote =>
                if bool_decide (local = remote) then Some (inr height, S t)
                else findFork fuel s (u32 (height - 1)) (S t)
            end
      end
  end.

(** The remote hash at a height; a block that is not found counts as the empty hash. *)
Definition remoteHashAt (height : Z) (t : nat) : goerror + bytes :=
  match sn_BlockHash (w t) height with
  | inl ErrBlockNotFound => inr []
  | r => r
  end.

(** [resyncIndex] and [handleFork], which call each other, for Bitcoin-type coins after the
    initial sync: [useParallel] is false then and the tip is not cached. *)
Fixpoint resyncIndex (fuel : nat) (st : SyncState) : Outcome * SyncState :=
  match fuel with
  | O => (OutOfFuel, st)
  | S fuel' =>
      let fail e st := (Returned (Some e), st) in
      let t := ss_time st in
      match sn_BestBlockHash (w t) with
      | inl e => fail (errBackend e) (setTime (S t) st)
      | inr remoteBestHash =>
          let st := setTime (S t) st in
          match ix_GetBestBlock (ss_index st) with
          | Err e => fail (errBackend e) st
          | Panic => fail crashed st
          | Ok (localBestHeight, localBestHash) =>
              if bool_decide (localBestHash = remoteBestHash) then fail syncNotNeeded st
              else
                let sequential st :=
                  match sn_BlockHash (w (ss_time st)) (ss_startHeight st) with
                  | inl e => fail (errBackend e) (setTime (S (ss_time st)) st)
                  | inr startHash =>
                      match connectBlocks fuel startHash (setTime (S (ss_time st)) st) with
                      | (Returned (Some errFork), st) | (Returned (Some errResync), st) => resyncIndex fuel' st
                      | r => r
                      end
                  end in
                if bool_decide (localBestHash = []) then sequential st
                else
                  match remoteHashAt localBestHeight (ss_time st) with
                  | inl e => fail (errBackend e) (setTime (S (ss_time st)) st)
                  | inr remoteHash =>
                      let st := setTime (S (ss_time st)) st in
                      if bool_decide (remoteHash = localBestHash)
                      then sequential (setStart (u32 (localBestHeight + 1)) st)
                      else
                        match findFork fuel (ss_index st) (u32 (localBestHeight - 1)) (ss_time st) with
                        | None => (OutOfFuel, st)
                        | Some (inl e, t) => fail e (setTime t st)
                        | Some (inr height, t) =>
                            let '(s, r) := ix_DisconnectBlocks (ss_index st) (u32 (height + 1)) localBestHeight in
                            let st := setIndex s (setTime t st) in
                            match r with
                            | Ok _ => resyncIndex fuel' st
                            | Err e => fail (errBackend e) st
                            | Panic => fail crashed st
                            end
                        end
                  end
          end
      end
  end.

(** [ResyncIndex] with the internal state; the clock is read with the last call. *)
Definition ResyncIndex (fuel : nat) (ist : InternalState) (st : SyncState)
    : Outcome * SyncState * InternalState :=
  let ist := StartedSync (sn_Clock (w (ss_time st))) ist in
  let '(out, st) := resyncIndex fuel st in
  let snap := w (ss_time st) in
  let ist := SetBackendInfo (sn_BackendInfo snap) (sn_Clock snap) ist in
  let st := setTime (S (ss_time st)) st in
  match out with
  | Returned None =>
      match ix_GetBestBlock (ss_index st) with
      | Ok (bh, _) => (Returned None, st, FinishedSync bh (sn_Clock snap) ist)
      | Err e => (Returned (Some (errBackend e)), st, ist)
      | Panic => (Returned (Some crashed), st, ist)
      end
  | Returned (Some syncNotNeeded) => (Returned None, st, FinishedSyncNoChange ist)
  | _ => (out, st, ist)
  end.

End Sync.
