(* ===== verification/SyncCorrect.v ===== *)
(** Correctness of the synchronisation against the interface [ChainIndex] with its laws: with
    a backend whose chain does not change meanwhile, a resync ends with exactly the chain of
    the backend indexed, after disconnecting the blocks of a fork. With a chain that changes
    between two calls a stale block can stay indexed, which an example shows. *)

From S2P Require Import Prelude Codec Parser InternalState Sync.

Local Open Scope Z_scope.

(** What the sync worker relies on: the index maps heights to hashes, gives the highest, and
    changes only at the heights it is told to. *)
Class ChainIndexLaws (I : ChainIndex) := {
  ix_ok : ix -> Prop;
  ix_block : Block -> Prop;                     (* blocks the index can represent *)
  ix_hash : ix -> Z -> option bytes;
  law_hash_some s h hash : ix_ok s -> ix_hash s h = Some hash -> hash <> [] /\ is_u32 h;
  law_GetBlockHash s h : ix_ok s -> is_u32 h -> ix_GetBlockHash s h = Ok (default [] (ix_hash s h));
  law_GetBestBlock s : ix_ok s ->
    (forall h, ix_hash s h = None) /\ ix_GetBestBlock s = Ok (0, []) \/
    exists h hash, ix_hash s h = Some hash /\ (forall h', h < h' -> ix_hash s h' = None) /\
      ix_GetBestBlock s = Ok (h, hash);
  law_ConnectBlock s b s' : ix_ok s -> ix_block b -> ix_ConnectBlock s b = Ok s' ->
    ix_ok s' /\ forall h, ix_hash s' h = if h =? blk_Height b then Some (blk_Hash b) else ix_hash s h;
  law_DisconnectBlocks s lower higher s' : ix_ok s -> 0 < lower <= higher -> is_u32 higher ->
    ix_DisconnectBlocks s lower higher = (s', Ok tt) ->
    ix_ok s' /\ forall h, ix_hash s' h = if (lower <=? h) && (h <=? higher) then None else ix_hash s h;
}.

(** ** The chain of the backend *)

(** The blocks of the backend by height. *)
Record chain_wf (remote : list Block) : Prop := {
  cw_block h b : remote !! h = Some b -> blk_Height b = Z.of_nat h /\ blk_Hash b <> [];
  cw_prev h b c : remote !! h = Some b -> remote !! S h = Some c -> blk_Prev c = blk_Hash b;
  cw_next h b : remote !! h = Some b ->
    blk_Next b = [] \/ exists c, remote !! S h = Some c /\ blk_Next b = blk_Hash c;
  cw_distinct h h' b b' : remote !! h = Some b -> remote !! h' = Some b' -> blk_Hash b = blk_Hash b' -> h = h';
  cw_len : zlen remote < 2 ^ 32 - 1;
}.

Definition blockAt (remote : list Block) (h : Z) : option Block :=
  if 0 <=? h then remote !! Z.to_nat h else None.

(** Every call is answered from the chain. *)
Record serves (remote : list Block) (w : World) : Prop := {
  sv_best n : exists tip, last remote = Some tip /\ sn_BestBlockHash (w n) = inr (blk_Hash tip);
  sv_height n : sn_BestBlockHeight (w n) = inr (zlen remote - 1);
  sv_hash n h : sn_BlockHash (w n) h =
    match blockAt remote h with Some b => inr (blk_Hash b) | None => inl ErrBlockNotFound end;
  sv_block n hash h b : blockAt remote h = Some b -> hash = [] \/ hash = blk_Hash b ->
    sn_Block (w n) hash h = inr b;
  sv_noblock n h : blockAt remote h = None -> sn_Block (w n) [] h = inl ErrBlockNotFound;
}.

Section Stable.
Context {P : ChainParser} {I : ChainIndex} {IL : ChainIndexLaws I} (w : World) (cfg : SyncConfig).
Context (remote : list Block) (Hwf : chain_wf remote) (Hserves : serves remote w).
Context (Hbtc : GetChainType = ChainBitcoinType).

Lemma blockAt_nat h : blockAt remote (Z.of_nat h) = remote !! h.
Proof. unfold blockAt. case_tests. by rewrite Nat2Z.id. Qed.

Lemma blockAt_lt h b : blockAt remote h = Some b -> 0 <= h < zlen remote.
Proof. unfold blockAt. case_tests; [|done]. intros Hl%lookup_lt_Some. unfold zlen. lia. Qed.

Lemma blockAt_in h : 0 <= h < zlen remote -> exists b, blockAt remote h = Some b.
Proof.
  intros H. unfold blockAt, zlen in *. case_tests.
  destruct (remote !! Z.to_nat h) eqn:E; [eauto|]. apply lookup_ge_None in E. lia.
Qed.

(** The tip is the block at the last height. *)
Lemma tip_at tip : last remote = Some tip -> blockAt remote (zlen remote - 1) = Some tip.
Proof.
  intros H. rewrite last_lookup in H. unfold blockAt. apply lookup_lt_Some in H as Hl.
  case_tests; [|unfold zlen in *; lia].
  replace (Z.to_nat (zlen remote - 1)) with (Init.Nat.pred (length remote)) by (unfold zlen; lia). done.
Qed.

(** ** The blocks that are sent *)

Lemma fetch_present fuel hash h b t :
  blockAt remote h = Some b -> hash = [] \/ hash = blk_Hash b ->
  fetchBlock w cfg (S fuel) hash h 0 (sn_Clock (w t)) t = Some (FBlock b, S t).
Proof.
  intros Hb Hh. cbn [fetchBlock]. rewrite bool_decide_eq_false_2 by (rewrite Hbtc; discriminate). cbn [andb].
  by rewrite (sv_block _ _ Hserves t hash h b Hb Hh).
Qed.

Lemma fetch_end fuel h t :
  zlen remote <= h -> exists t', fetchBlock w cfg (S fuel) [] h 0 (sn_Clock (w t)) t = Some (FEnd, t').
Proof.
  intros Hh. cbn [fetchBlock]. rewrite bool_decide_eq_false_2 by (rewrite Hbtc; discriminate). cbn [andb].
  assert (blockAt remote h = None) as Hn.
  { destruct (blockAt remote h) eqn:E; [|done]. apply blockAt_lt in E. lia. }
  rewrite (sv_noblock _ _ Hserves t h Hn). cbn. unfold pastTip.
  rewrite (sv_height _ _ Hserves). destruct (Z.ltb_spec (zlen remote - 1) h); [|lia]. cbn. by eexists.
Qed.

(** The blocks of the backend from a height on. *)
Definition blocksFrom (h : Z) : list Block := drop (Z.to_nat h) remote.

Lemma blocksFrom_cons h b : 0 <= h -> blockAt remote h = Some b -> blocksFrom h = b :: blocksFrom (h + 1).
Proof.
  intros Hh Hb. unfold blockAt in Hb. unfold blocksFrom. destruct (0 <=? h); [|done].
  rewrite (drop_S _ b (Z.to_nat h) Hb). f_equal. f_equal. lia.
Qed.

Lemma no_fallBehind : sequentialFallBehindGap cfg = 0.
Proof.
  unfold sequentialFallBehindGap. rewrite (bool_decide_eq_true_2 (GetChainType <> _)).
  - by rewrite orb_true_r.
  - rewrite Hbtc. discriminate.
Qed.

Lemma getBlockChain_sends fuel h hash prev since t :
  0 <= h -> h <= zlen remote -> (Z.to_nat (zlen remote - h) < fuel)%nat ->
  (match blockAt remote h with Some b => hash = [] \/ hash = blk_Hash b | None => hash = [] end) ->
  (forall b, blockAt remote h = Some b -> prev = [] \/ prev = blk_Prev b) ->
  exists t', getBlockChain w cfg fuel hash h prev since t = Some (inr <$> blocksFrom h, t').
Proof.
  revert h hash prev since t. induction fuel as [|fuel IH]; intros h hash prev since t Hh Hle Hf Hhash Hprev; [lia|].
  cbn [getBlockChain]. destruct (Z.eq_dec h (zlen remote)) as [->|Hne].
  - destruct (blockAt remote (zlen remote)) eqn:E; [apply blockAt_lt in E; lia|]. subst hash.
    destruct (fetch_end fuel (zlen remote) t) as [t' Ht']; [lia|]. rewrite Ht'. exists t'.
    unfold blocksFrom. rewrite to_nat_zlen. by rewrite drop_all.
  - destruct (blockAt_in h) as [b Hb]; [lia|]. rewrite Hb in Hhash.
    rewrite (fetch_present fuel hash h b t Hb Hhash).
    assert (negb (bool_decide (blk_Prev b = [])) && negb (bool_decide (prev = [])) &&
            negb (bool_decide (prev = blk_Prev b)) = false) as Hlink.
    { destruct (Hprev b Hb) as [->| ->]; [by rewrite andb_false_r|].
      rewrite (bool_decide_eq_true_2 (blk_Prev b = blk_Prev b)) by done. by rewrite andb_false_r. }
    rewrite Hlink, no_fallBehind. cbn [Z.ltb Z.compare andb].
    pose proof (cw_len _ Hwf) as Hlen. rewrite u32_id by (unfold is_u32; lia).
    assert (remote !! Z.to_nat h = Some b) as Hrh by (unfold blockAt in Hb; destruct (0 <=? h); done).
    destruct (IH (h + 1) (blk_Next b) (blk_Hash b) (since + 1) (S t)) as [t' Ht']; [lia|lia|lia| | |].
    + destruct (cw_next _ Hwf _ _ Hrh) as [->|(c & Hc & ->)].
      * destruct (blockAt remote (h + 1)); [by left|done].
      * assert (blockAt remote (h + 1) = Some c) as ->; [|by right].
        unfold blockAt. case_tests. by replace (Z.to_nat (h + 1)) with (S (Z.to_nat h)) by lia.
    + intros c Hc. right. symmetry. eapply (cw_prev _ Hwf _ _ _ Hrh).
      unfold blockAt in Hc. destruct (0 <=? h + 1); [|done]. by replace (S (Z.to_nat h)) with (Z.to_nat (h + 1)) by lia.
    + rewrite Ht'. exists t'. by rewrite (blocksFrom_cons h b Hh Hb).
Qed.

(** ** Connecting them *)

(** The index holds exactly the blocks of the backend at the heights from [lo] to [top]. *)
Definition indexed (lo top : Z) (s : ix) : Prop :=
  ix_ok s /\ forall h, ix_hash s h =
    if (lo <=? h) && (h <=? top) then blk_Hash <$> blockAt remote h else None.

(** The index accepts the next block of the backend, as long as it is in a good state. *)
Definition accepts (Q : ix -> Prop) (lo : Z) : Prop :=
  forall s h b, Q s -> indexed lo (h - 1) s -> blockAt remote h = Some b ->
    ix_block b /\ exists s', ix_ConnectBlock s b = Ok s' /\ Q s'.

Lemma connectAll_ok Q lo st h :
  accepts Q lo -> Q (ss_index st) -> 0 <= lo <= h -> h <= zlen remote -> indexed lo (h - 1) (ss_index st) ->
  exists st', connectAll (inr <$> blocksFrom h) st = (None, st') /\
    indexed lo (zlen remote - 1) (ss_index st') /\ Q (ss_index st') /\
    ss_newBlocks st' = ss_newBlocks st ++ blocksFrom h.
Proof.
  intros Hacc HQ Hlo Hle. remember (Z.to_nat (zlen remote - h)) as n eqn:En. revert st h HQ Hlo Hle En.
  induction n as [|n IH]; intros st h HQ Hlo Hle En Hix.
  - assert (h = zlen remote) as -> by lia. exists st. unfold blocksFrom. rewrite to_nat_zlen, drop_all.
    by rewrite app_nil_r.
  - destruct (blockAt_in h) as [b Hb]; [lia|]. rewrite (blocksFrom_cons h b) by (done || lia). cbn.
    destruct (Hacc _ _ _ HQ Hix Hb) as (Hblk & s' & Hs' & HQ'). rewrite Hs'. destruct Hix as [Hok Hhash].
    destruct (law_ConnectBlock _ _ _ Hok Hblk Hs') as [Hok' Hhash'].
    assert (blk_Height b = h) as Hbh.
    { unfold blockAt in Hb. destruct (0 <=? h); [|done]. destruct (cw_block _ Hwf _ _ Hb). lia. }
    destruct (IH (mkSync s' (ss_time st) (ss_startHeight st) (ss_newBlocks st ++ [b])) (h + 1)) as (st' & E & Hi & HQ'' & Hn);
      [done|lia|lia|lia| |].
    + split; [exact Hok'|]. intros k. cbn. rewrite Hhash', Hhash, Hbh.
      destruct (Z.eqb_spec k h) as [->|]; [rewrite Hb; case_tests; done|]. case_tests; done.
    + exists st'. split_and!; [exact E|done|done|]. rewrite Hn. cbn. by rewrite <- app_assoc.
Qed.

(** ** The fork *)

(** The index has the blocks of the backend from [lo] to [f], and blocks of another chain from
    there to [top]. *)
Record forked (lo f top : Z) (s : ix) : Prop := {
  fk_ok : ix_ok s;
  fk_range : 0 <= lo <= f /\ f <= top < 2 ^ 32 - 1 /\ f < zlen remote;
  fk_heights h : is_Some (ix_hash s h) <-> lo <= h <= top;
  fk_common h : lo <= h <= f -> ix_hash s h = blk_Hash <$> blockAt remote h;
  fk_differ h b : f < h <= top -> blockAt remote h = Some b -> ix_hash s h <> Some (blk_Hash b);
  fk_tip tip : f < top -> last remote = Some tip -> ix_hash s top <> Some (blk_Hash tip);
}.

Lemma forked_local lo f top s h :
  forked lo f top s -> lo <= h <= top ->
  exists hash, ix_hash s h = Some hash /\ hash <> [] /\ ix_GetBlockHash s h = Ok hash.
Proof.
  intros Hf Hh. destruct (proj2 (fk_heights _ _ _ _ Hf h) Hh) as [hash Hhash].
  destruct (law_hash_some _ _ _ (fk_ok _ _ _ _ Hf) Hhash) as [Hne Hu]. exists hash.
  by rewrite (law_GetBlockHash _ _ (fk_ok _ _ _ _ Hf) Hu), Hhash.
Qed.

Lemma findFork_ok lo f top s fuel h t :
  forked lo f top s -> f <= h < top -> (Z.to_nat (h - f) < fuel)%nat ->
  exists t', findFork w fuel s h t = Some (inr f, t').
Proof.
  intros Hf. destruct (fk_range _ _ _ _ Hf) as (Hlo & Htop & Hlen).
  revert h t. induction fuel as [|fuel IH]; intros h t Hh Hfuel; [lia|]. cbn [findFork].
  destruct (forked_local lo f top s h Hf) as (hash & Hhash & Hne & ->); [lia|].
  rewrite bool_decide_eq_false_2 by done. rewrite (sv_hash _ _ Hserves).
  destruct (Z.eq_dec h f) as [->|Hnf].
  - destruct (blockAt_in f) as [b Hb]; [lia|]. rewrite Hb.
    rewrite (fk_common _ _ _ _ Hf), Hb in Hhash by lia. injection Hhash as <-.
    rewrite bool_decide_eq_true_2 by done. by eexists.
  - rewrite u32_id by (unfold is_u32; lia).
    destruct (IH (h - 1) (S t)) as [t' Ht']; [lia|lia|].
    destruct (blockAt remote h) as [b|] eqn:Hb; [|by exists t'].
    rewrite bool_decide_eq_false_2; [by exists t'|]. intros ->.
    by apply (fk_differ _ _ _ _ Hf h b) in Hhash; [|lia|].
Qed.

Lemma best_of lo top s :
  ix_ok s -> (forall h, is_Some (ix_hash s h) <-> lo <= h <= top) -> lo <= top ->
  exists hash, ix_hash s top = Some hash /\ ix_GetBestBlock s = Ok (top, hash).
Proof.
  intros Hok Hh Hle. destruct (proj2 (Hh top) ltac:(lia)) as [hash Hhash].
  destruct (law_GetBestBlock s Hok) as [[Hn _]|(h & hash' & Hh' & Habove & Hbest)]; [by rewrite Hn in Hhash|].
  assert (h = top) as ->.
  { pose proof (proj1 (Hh h) (ex_intro _ _ Hh')). destruct (Z.lt_ge_cases h top); [|lia].
    by rewrite Habove in Hhash. }
  exists hash'. done.
Qed.

Lemma indexed_heights lo top s :
  indexed lo top s -> 0 <= lo -> top < zlen remote -> forall h, is_Some (ix_hash s h) <-> lo <= h <= top.
Proof.
  intros [_ Hh] Hlo Htop h. rewrite Hh. case_tests; cbn.
  - destruct (blockAt_in h) as [b ->]; [lia|]. cbn. split; [lia|eauto].
  - split; [by intros []|lia].
  - split; [by intros []|lia].
Qed.

(** The result of a resync: all blocks of the backend are indexed. *)
Definition reached (Q : ix -> Prop) (lo : Z) (news : list Block) (st : SyncState) (r : Outcome * SyncState) : Prop :=
  (r.1 = Returned None \/ r.1 = Returned (Some syncNotNeeded)) /\
  indexed lo (zlen remote - 1) (ss_index r.2) /\ Q (ss_index r.2) /\ ss_newBlocks r.2 = ss_newBlocks st ++ news.

(** From a common block on, the missing blocks are connected. *)
Lemma forward_ok Q lo top st fuel :
  accepts Q lo -> Q (ss_index st) -> indexed lo top (ss_index st) -> 0 <= lo <= top -> top < zlen remote ->
  (Z.to_nat (zlen remote - top) + 1 < fuel)%nat ->
  reached Q lo (blocksFrom (top + 1)) st (resyncIndex w cfg fuel st).
Proof.
  intros Hacc HQ Hix Hlo Htop Hfuel. destruct fuel as [|fuel]; [lia|]. cbn [resyncIndex].
  destruct (sv_best _ _ Hserves (ss_time st)) as (tip & Htip & ->).
  pose proof (tip_at tip Htip) as Htipat. pose proof (cw_len _ Hwf) as Hlen.
  destruct (best_of lo top _ (proj1 Hix) (indexed_heights _ _ _ Hix ltac:(lia) Htop) ltac:(lia)) as (hash & Hhash & Hbest).
  cbn [ss_index setTime]. rewrite Hbest.
  destruct (blockAt_in top) as [b Hb]; [lia|].
  rewrite (proj2 Hix) in Hhash. rewrite Hb in Hhash.
  destruct (Z.leb_spec lo top); [|lia]. rewrite Z.leb_refl in Hhash. injection Hhash as <-.
  unfold blockAt in Hb, Htipat. destruct (Z.leb_spec 0 top); [|lia]. destruct (0 <=? zlen remote - 1); [|done].
  case_bool_decide as Heq.
  - pose proof (cw_distinct _ Hwf _ _ _ _ Hb Htipat Heq) as Hh. assert (top = zlen remote - 1) as -> by lia.
    split_and!; [by right|done|done|]. unfold blocksFrom.
    replace (Z.to_nat (zlen remote - 1 + 1)) with (length remote) by (unfold zlen; lia). rewrite drop_all. cbn.
    by rewrite app_nil_r.
  - destruct (cw_block _ Hwf _ _ Hb) as [_ Hne]. rewrite bool_decide_eq_false_2 by done.
    unfold remoteHashAt. rewrite (sv_hash _ _ Hserves). unfold blockAt at 1. destruct (Z.leb_spec 0 top); [|lia].
    rewrite Hb. rewrite bool_decide_eq_true_2 by done. cbn [ss_time setTime ss_startHeight setStart].
    assert (top + 1 < zlen remote) as Hnext.
    { destruct (Z.eq_dec top (zlen remote - 1)) as [->|]; [|lia]. congruence. }
    rewrite u32_id by (unfold is_u32; lia). rewrite (sv_hash _ _ Hserves).
    destruct (blockAt_in (top + 1)) as [c Hc]; [lia|]. rewrite Hc. unfold connectBlocks.
    cbn [ss_startHeight ss_time setTime setStart].
    destruct (getBlockChain_sends (S fuel) (top + 1) (blk_Hash c) [] 0 (S (S (S (ss_time st))))) as [t' Ht'];
      [lia|lia|lia|rewrite Hc; by right|by left|]. rewrite Ht'.
    destruct (connectAll_ok Q lo (setTime t' (setTime (S (S (S (ss_time st)))) (setStart (top + 1)
      (setTime (S (S (ss_time st))) (setTime (S (ss_time st)) st))))) (top + 1)) as (st' & E & Hi & HQ' & Hn);
      [done|done|lia|lia|cbn; by replace (top + 1 - 1) with top by lia|].
    cbn in E |- *. rewrite E. split_and!; [by left|done|done|exact Hn].
Qed.

Lemma forked_indexed lo f s : forked lo f f s -> indexed lo f s.
Proof.
  intros Hf. split; [apply Hf|]. intros h. case_tests; cbn; [apply Hf; lia|..];
    destruct (ix_hash s h) eqn:E; try done;
    pose proof (proj1 (fk_heights _ _ _ _ Hf h) (ex_intro _ _ E)); lia.
Qed.

(** Disconnecting the blocks after the common one leaves the blocks of the backend. *)
Lemma disconnected_indexed lo f top s s' :
  forked lo f top s -> f < top -> ix_DisconnectBlocks s (f + 1) top = (s', Ok tt) -> indexed lo f s'.
Proof.
  intros Hf Hft Hd. destruct (fk_range _ _ _ _ Hf) as (Hlo & Htop & Hlen).
  destruct (law_DisconnectBlocks _ (f + 1) top _ (fk_ok _ _ _ _ Hf)
    ltac:(lia) ltac:(unfold is_u32; lia) Hd) as [Hok' Hh].
  split; [done|]. intros h. rewrite Hh.
  assert (~ lo <= h <= top -> ix_hash s h = None) as Hout.
  { intros Hn. destruct (ix_hash s h) eqn:E; [|done].
    pose proof (proj1 (fk_heights _ _ _ _ Hf h) (ex_intro _ _ E)). lia. }
  case_tests; cbn; try done; first [apply Hout; lia | apply Hf; lia].
Qed.

(** From a fork, the blocks of the other chain are disconnected first. *)
Lemma resync_ok Q lo f top st fuel :
  accepts Q lo -> Q (ss_index st) -> forked lo f top (ss_index st) ->
  (f < top -> exists s', ix_DisconnectBlocks (ss_index st) (f + 1) top = (s', Ok tt) /\ Q s') ->
  (Z.to_nat (zlen remote - f) + Z.to_nat (top - f) + 2 < fuel)%nat ->
  reached Q lo (blocksFrom (f + 1)) st (resyncIndex w cfg fuel st).
Proof.
  intros Hacc HQ Hf Hdis Hfuel. destruct (fk_range _ _ _ _ Hf) as (Hlo & Htop & Hlen).
  destruct (Z.eq_dec f top) as [<-|Hne].
  { apply forward_ok; [done|done|by apply forked_indexed|lia..]. }
  destruct fuel as [|fuel]; [lia|]. destruct (Hdis ltac:(lia)) as (s' & Hs' & HQ').
  destruct (findFork_ok lo f top _ (S fuel) (top - 1) (S (S (ss_time st))) Hf) as [t' Ht']; [lia|lia|].
  pose proof (disconnected_indexed _ _ _ _ _ Hf ltac:(lia) Hs') as Hix'.
  pose proof (forward_ok Q lo f (setIndex s' (setTime t' (setTime (S (S (ss_time st))) (setTime (S (ss_time st)) st))))
    fuel Hacc HQ' Hix' ltac:(lia) Hlen ltac:(lia)) as Hfwd.
  cbn [resyncIndex]. destruct (sv_best _ _ Hserves (ss_time st)) as (tip & Htip & ->).
  destruct (best_of lo top _ (fk_ok _ _ _ _ Hf) (fk_heights _ _ _ _ Hf) ltac:(lia)) as (hash & Hhash & Hbest).
  cbn [ss_index setTime]. rewrite Hbest.
  rewrite bool_decide_eq_false_2 by (intros ->; by apply (fk_tip _ _ _ _ Hf tip) in Hhash; [|lia|]).
  destruct (law_hash_some _ _ _ (fk_ok _ _ _ _ Hf) Hhash) as [Hnil _]. rewrite bool_decide_eq_false_2 by done.
  assert (exists r, remoteHashAt w top (S (ss_time st)) = inr r /\ r <> hash) as (r & Hr & Hrne).
  { unfold remoteHashAt. rewrite (sv_hash _ _ Hserves). destruct (blockAt remote top) as [b|] eqn:Hb; eexists; (split; [reflexivity|]).
    - intros <-. by apply (fk_differ _ _ _ _ Hf top b) in Hhash; [|lia|].
    - done. }
  cbn [ss_time setTime]. rewrite Hr, bool_decide_eq_false_2 by done. cbn [ss_time setTime ss_index].
  rewrite (u32_id (top - 1)) by (unfold is_u32; lia). rewrite Ht', u32_id, Hs' by (unfold is_u32; lia). exact Hfwd.
Qed.

End Stable.

(** ** Properties *)

Section SyncProperties.
Context {P : ChainParser} {I : ChainIndex} {IL : ChainIndexLaws I} (w : World) (cfg : SyncConfig).

(** C6: A resync reaches the tip. When the chain of the backend does not change meanwhile, the
    index accepts its blocks and can undo the blocks after the last common one, a resync ends
    after finitely many calls, disconnects exactly these blocks and connects the others in
    order: afterwards the index holds at every height the block of the backend, and nothing
    else; subscribers are told about the connected blocks in order. *)
Theorem resync_reaches_tip remote (Q : ix -> Prop) lo f top st fuel :
  chain_wf remote -> serves remote w -> GetChainType = ChainBitcoinType ->
  accepts remote Q lo -> Q (ss_index st) -> forked remote lo f top (ss_index st) ->
  (f < top -> exists s', ix_DisconnectBlocks (ss_index st) (f + 1) top = (s', Ok tt) /\ Q s') ->
  (Z.to_nat (zlen remote - f) + Z.to_nat (top - f) + 2 < fuel)%nat ->
  let r := resyncIndex w cfg fuel st in
  (r.1 = Returned None \/ r.1 = Returned (Some syncNotNeeded)) /\
  (forall h, ix_hash (ss_index r.2) h =
     if (lo <=? h) && (h <=? zlen remote - 1) then blk_Hash <$> blockAt remote h else None) /\
  ss_newBlocks r.2 = ss_newBlocks st ++ blocksFrom remote (f + 1).
Proof.
  intros Hwf Hs Hbtc Hacc HQ Hf Hd Hfuel.
  destruct (resync_ok w cfg remote Hwf Hs Hbtc Q lo f top st fuel Hacc HQ Hf Hd Hfuel) as (H1 & [_ H2] & _ & H3). done.
Qed.

End SyncProperties.

(** ** An index in memory, and examples *)

Module ListIndex.

(** The hashes by height. *)
Definition connect (s : list bytes) (b : Block) : result (list bytes) :=
  if blk_Height b =? zlen s then Ok (s ++ [blk_Hash b]) else Err ErrDB.

Definition best (s : list bytes) : Z * bytes :=
  match last s with Some hash => (zlen s - 1, hash) | None => (0, []) end.

Definition hashAt (s : list bytes) (h : Z) : option bytes := if 0 <=? h then s !! Z.to_nat h else None.

Definition disconnect (s : list bytes) (lower higher : Z) : list bytes * result unit :=
  if higher =? zlen s - 1 then (take (Z.to_nat lower) s, Ok tt) else (s, Err ErrDB).

Definition index : ChainIndex := {|
  ix := list bytes;
  ix_GetBestBlock := fun s => Ok (best s);
  ix_GetBlockHash := fun s h => Ok (default [] (hashAt s h));
  ix_ConnectBlock := connect;
  ix_DisconnectBlocks := disconnect;
|}.

Lemma hashAt_range s h hash : hashAt s h = Some hash -> 0 <= h < zlen s /\ hash ∈ s.
Proof.
  unfold hashAt. case_tests; [|done]. intros E. apply list_elem_of_lookup_2 in E as Hin.
  apply lookup_lt_Some in E. unfold zlen. split; [lia|done].
Qed.

#[refine] Definition laws : ChainIndexLaws index := {|
  ix_ok := fun s : @ix index => Forall (fun h => h <> []) s /\ zlen s <= 2 ^ 32;
  ix_block := fun b => blk_Hash b <> [] /\ is_u32 (blk_Height b);
  ix_hash := hashAt;
|}.
Proof.
  - intros s h hash [Hall Hlen] (Hr & Hin)%hashAt_range. rewrite Forall_forall in Hall.
    split; [by apply Hall|unfold is_u32; lia].
  - done.
  - intros s [Hall Hlen]. cbn. unfold best. destruct (last s) as [hash|] eqn:E.
    + right. rewrite last_lookup in E. apply lookup_lt_Some in E as Hl.
      exists (zlen s - 1), hash. split_and!; [|intros h' Hh'|done].
      * unfold hashAt. destruct (Z.leb_spec 0 (zlen s - 1)); [|unfold zlen in *; lia].
        by replace (Z.to_nat (zlen s - 1)) with (Init.Nat.pred (length s)) by (unfold zlen; lia).
      * destruct (hashAt s h') eqn:Eh; [|done]. apply hashAt_range in Eh as [? _]. lia.
    + left. apply last_None in E as ->. split; [|done]. intros h. unfold hashAt. by case_test.
  - intros s b s' [Hall Hlen] [Hne Hu] Hc. cbn in Hc. unfold connect in Hc.
    destruct (Z.eqb_spec (blk_Height b) (zlen s)) as [Eh|]; [|done]. injection Hc as <-.
    unfold is_u32 in Hu. split.
    + split; [by apply Forall_app_2, Forall_singleton|]. rewrite zlen_app, zlen_cons, zlen_nil. lia.
    + intros h. unfold hashAt. rewrite Eh. destruct (Z.eqb_spec h (zlen s)) as [->|].
      * destruct (Z.leb_spec 0 (zlen s)); [|pose proof (zlen_nonneg s); lia]. rewrite to_nat_zlen. apply list_lookup_middle. done.
      * case_test; [|done]. destruct (decide (Z.to_nat h < length s)%nat).
        { by rewrite lookup_app_l. }
        rewrite !(proj2 (lookup_ge_None _ _)); [done|lia|]. rewrite length_app. cbn. unfold zlen in *. lia.
  - intros s lower higher s' [Hall Hlen] Hl Hh Hd. cbn in Hd. unfold disconnect in Hd.
    destruct (Z.eqb_spec higher (zlen s - 1)) as [->|]; [|by injection Hd]. injection Hd as <-.
    unfold is_u32 in *. split.
    + split; [by apply Forall_take|]. unfold zlen in *. rewrite length_take. lia.
    + intros h. unfold hashAt. destruct (Z.leb_spec 0 h); [|case_tests; done].
      rewrite lookup_take. destruct (Z.leb_spec lower h), (Z.leb_spec h (zlen s - 1)); cbn.
      * by rewrite decide_False by lia.
      * rewrite decide_False by lia. symmetry. apply lookup_ge_None. unfold zlen in *. lia.
      * by rewrite decide_True by lia.
      * by rewrite decide_True by lia.
Defined.

End ListIndex.

Module SyncExample.

#[local] Existing Instances ListIndex.index ListIndex.laws.
#[local] Instance parser : ChainParser := base_parser (fun _ => Err ErrAddressMissing) (fun _ => true) 100 false.

Definition blk (height : Z) (hash prev next : bytes) : Block := mkBlock hash prev next height 100 0 [].
Definition hg : bytes := [x10].
Definition ha1 : bytes := [x11].
Definition ha2 : bytes := [x12].
Definition hb1 : bytes := [x21].
Definition hb2 : bytes := [x22].

Definition chainA : list Block := [blk 0 hg [] ha1; blk 1 ha1 hg ha2; blk 2 ha2 ha1 []].
Definition chainB : list Block := [blk 0 hg [] hb1; blk 1 hb1 hg hb2; blk 2 hb2 hb1 []].

(** A backend with the given chain. *)
Definition serving (chain : list Block) : Snapshot :=
  mkSnapshot
    (match last chain with Some b => inr (blk_Hash b) | None => inl ErrBlockNotFound end)
    (inr (zlen chain - 1))
    (fun h => match blockAt chain h with Some b => inr (blk_Hash b) | None => inl ErrBlockNotFound end)
    (fun hash h => match blockAt chain h with
                   | Some b => if bool_decide (hash = [] \/ hash = blk_Hash b) then inr b else inl ErrBlockNotFound
                   | None => inl ErrBlockNotFound
                   end)
    (mkBackendInfo "" "" 0 0 "") 0.

Definition cfg : SyncConfig := mkSyncConfig 1 3 60000000000.

Lemma chainB_wf : chain_wf chainB.
Proof.
  split.
  - intros [|[|[|h]]] b; cbn; intros [= <-]; split; done.
  - intros [|[|[|h]]] b c; cbn; intros [= <-]; intros [= <-]; done.
  - intros [|[|[|h]]] b; cbn; intros [= <-]; [right|right|left]; try done; eexists; done.
  - intros [|[|[|h]]] [|[|[|h']]] b b'; cbn; intros [= <-] [= <-]; done.
  - vm_compute. done.
Qed.

Lemma chainB_served : serves chainB (fun _ => serving chainB).
Proof.
  split; intros n.
  - eexists. split; reflexivity.
  - reflexivity.
  - done.
  - intros hash h b Hb Hh. cbn [serving sn_Block]. rewrite Hb. by rewrite bool_decide_eq_true_2.
  - intros h Hn. cbn [serving sn_Block]. by rewrite Hn.
Qed.

(** The index has the other chain. *)
Definition st0 : SyncState := mkSync ([hg; ha1] : @ix ListIndex.index) 0 0 [].

Lemma forked0 : forked chainB 0 0 1 (ss_index st0).
Proof.
  assert (forall h, ListIndex.hashAt [hg; ha1] h = if h =? 0 then Some hg else if h =? 1 then Some ha1 else None) as Hh.
  { intros h. unfold ListIndex.hashAt. case_tests; subst; try done.
    apply lookup_ge_None. cbn. lia. }
  split; cbn [ss_index st0 ix_hash ListIndex.laws].
  - split; [repeat constructor; discriminate|vm_compute; discriminate].
  - split_and!; vm_compute; done.
  - intros h. rewrite Hh. case_tests; subst; split; try done; try lia; try (by intros []); eauto.
  - intros h Hr. assert (h = 0) as -> by lia. done.
  - intros h b Hr Hb. assert (h = 1) as -> by lia. rewrite Hh. vm_compute in Hb. injection Hb as <-. done.
  - intros tip _ [= <-]. rewrite Hh. done.
Qed.

Lemma accepts0 : accepts chainB (fun _ => True) 0.
Proof.
  intros s h b _ [[Hall Hlen] Hh] Hb. cbn in Hh. pose proof (blockAt_lt _ _ _ Hb) as Hr.
  unfold blockAt in Hb. destruct (Z.leb_spec 0 h); [|done].
  destruct (cw_block _ chainB_wf _ _ Hb) as [Hbh Hne]. cbn. split; [split; [done|unfold is_u32; pose proof (cw_len _ chainB_wf); lia]|].
  exists (s ++ [blk_Hash b]). unfold ListIndex.connect. destruct (Z.eqb_spec (blk_Height b) (zlen s)) as [|Hn]; [done|].
  exfalso. apply Hn. rewrite Hbh. destruct (Z.lt_trichotomy (zlen s) h) as [Hlt|[Heq|Hgt]]; [|lia|].
  - specialize (Hh (zlen s)). unfold ListIndex.hashAt in Hh. pose proof (zlen_nonneg s).
    destruct (Z.leb_spec 0 (zlen s)); [|lia]. destruct (Z.leb_spec (zlen s) (h - 1)); [|lia]. cbn in Hh.
    rewrite to_nat_zlen, (proj2 (lookup_ge_None s (length s))) in Hh by lia.
    destruct (blockAt_in chainB (zlen s)) as [c Hc]; [lia|]. by rewrite Hc in Hh.
  - specialize (Hh h). unfold ListIndex.hashAt in Hh. destruct (Z.leb_spec 0 h); [|lia].
    destruct (Z.leb_spec h (h - 1)); [lia|]. cbn in Hh. apply lookup_ge_None in Hh. unfold zlen in *. lia.
Qed.

Lemma resync_reaches_tip_witness :
  ix_hash (ss_index (resyncIndex (fun _ => serving chainB) cfg 20 st0).2) 2 = Some hb2 /\
  ss_newBlocks (resyncIndex (fun _ => serving chainB) cfg 20 st0).2 = [blk 1 hb1 hg hb2; blk 2 hb2 hb1 []].
Proof.
  destruct (resync_reaches_tip (P:=parser) (fun _ => serving chainB) cfg chainB (fun _ => True) 0 0 1 st0 20 chainB_wf chainB_served
    eq_refl accepts0 I forked0) as (_ & H2 & H3).
  - intros _. eexists. split; [reflexivity|exact I].
  - vm_compute. lia.
  - rewrite H2, H3. split; vm_compute; reflexivity.
Defined.

(** The backend switches from the one chain to the other after the second call. *)
Definition racing : World := fun n => if (n <? 2)%nat then serving chainA else serving chainB.

(** A reorganisation between the check of the local best block and the lookup of the next
    one is missed: the first block that is fetched is not compared with the local best block,
    so a block of the new chain is connected on top of a stale one, and later resyncs find
    nothing to do, although the index and the backend differ below the tip. *)
Theorem reorg_between_calls_missed :
  let r := resyncIndex racing cfg 20 st0 in
  r.1 = Returned None /\
  ix_hash (ss_index r.2) 1 = Some ha1 /\ ix_hash (ss_index r.2) 2 = Some hb2 /\
  (exists b, blockAt chainB 2 = Some b /\ blk_Hash b = hb2 /\ blk_Prev b <> ha1) /\
  (resyncIndex (fun _ => serving chainB) cfg 20 r.2).1 = Returned (Some syncNotNeeded).
Proof.
  cbv zeta. split_and!; try (vm_compute; reflexivity).
  eexists. split_and!; [reflexivity|reflexivity|vm_compute; discriminate].
Qed.

End SyncExample.
