(* ===== verification/SyncIndex.v ===== *)
(** The database as the index of the sync worker: [ConnectBlock], [DisconnectBlockRangeBitcoinType]
    and the readers of the column of heights satisfy the laws of [ChainIndexLaws], so a resync
    of a database reaches the tip of the backend and keeps the ledger. *)

From S2P Require Import Prelude Codec Parser Golomb TxAddr Balance IndexCodec Store Scan Assets Connect Ledger ConnectCorrect ConnectIndex BlockRows ConnectStore Chain Disconnect DisconnectCorrect DisconnectStore Rollback Sync SyncCorrect.

Local Open Scope Z_scope.

Section SyncIndex.
Context {V : Vlq} {VL : VlqLaws V} {P : ChainParser} {IX : IndexOpts} {K : KV} {KL : KVLaws K}
  {W : AssetWire} {WL : AssetWireLaws W} {E : AssetEnv W} {G : Gcs} {FO : FilterOpts}.
Implicit Types (d : DB K) (wb : list BatchOp).

#[local] Instance db_index : ChainIndex := {|
  ix := DB K * option (gmap Z (Asset W));
  ix_GetBestBlock := fun s => GetBestBlock s.1;
  ix_GetBlockHash := fun s => GetBlockHash s.1;
  ix_ConnectBlock := fun s b => let! '(d, cache, _) := ConnectBlock s.1 s.2 b in Ok (d, cache);
  ix_DisconnectBlocks := fun s lower higher =>
    let '(d, cache, r) := DisconnectBlockRangeBitcoinType s.1 s.2 lower higher in (d, cache, r);
|}.

(** ** The column of heights *)

(** Every row is that of a block with a hash, and can be read. *)
Definition heights_ok d : Prop :=
  (forall k, db_rfault d cfHeight k = false) /\
  forall k v, kv_get (db_cf d cfHeight) k = Some v ->
    exists h bi, is_u32 h /\ k = packUint h /\ unpackBlockInfo v = Ok (Some bi) /\ bi_Hash bi <> [].

Definition heightHash d (h : Z) : option bytes :=
  if bool_decide (is_u32 h) then
    match kv_get (db_cf d cfHeight) (packUint h) with
    | Some v => match unpackBlockInfo v with Ok (Some bi) => Some (bi_Hash bi) | _ => None end
    | None => None
    end
  else None.

(** The operations of a batch on the other columns do not matter here. *)
Definition quiet wb wb' : Prop := forall k, batch_get cfHeight k wb' = batch_get cfHeight k wb.

Lemma quiet_extends cfs wb wb' : extends cfs wb wb' -> cfHeight ∉ cfs -> quiet wb wb'.
Proof. intros H Hn k. by apply (batch_get_extends cfs). Qed.

Lemma quiet_trans wb1 wb2 wb3 : quiet wb1 wb2 -> quiet wb2 wb3 -> quiet wb1 wb3.
Proof. intros H1 H2 k. by rewrite H2. Qed.

Lemma quiet_app wb ops : Forall (fun op => op_cf op <> cfHeight) ops -> quiet wb (wb ++ ops).
Proof.
  intros H k. rewrite batch_get_app, (batch_get_other cfHeight k ops); [done|].
  eapply Forall_impl; [exact H|]. auto.
Qed.

Lemma cleanupLoop_quiet fuel d wb rh wb' : cleanupLoop fuel d wb rh = Ok wb' -> quiet wb wb'.
Proof.
  revert wb rh. induction fuel as [|fuel IH]; intros wb rh; cbn [cleanupLoop]; [by intros [= <-]|].
  destruct (0 <? rh); [|by intros [= <-]]. intros H. bind_inv H. destruct a; [|by injection H as <-].
  eapply quiet_trans; [|by eapply IH]. apply quiet_app. by repeat constructor.
Qed.

Lemma storeAndCleanup_quiet d wb block wb' : storeAndCleanupBlockTxs d wb block = Ok wb' -> quiet wb wb'.
Proof.
  unfold storeAndCleanupBlockTxs, cleanupBlockTxs. intros H. bind_inv H.
  assert (quiet wb (wb ++ [PutCF cfBlockTxs (packUint (blk_Height block)) (packBlockTxs a)])) as H1
    by (apply quiet_app; by repeat constructor).
  destruct (_ <? _); [|by injection H as <-]. eapply quiet_trans; [exact H1|]. by eapply cleanupLoop_quiet.
Qed.

Lemma storeAssets_quiet order wb (ast : AssetState W) wb' ast' :
  storeAssets order wb ast = Ok (wb', ast') -> quiet wb wb'.
Proof.
  unfold storeAssets. destruct (ast_assets ast); [|by intros [= <- _]]. intros H. bind_inv H.
  destruct a as [wb1 cache]. injection H as <- _.
  apply (rfold_inv _ (fun _ s => quiet wb s.1)) in E0; [exact E0|done|].
  intros done e rest [wbs cs] s2 _ Hq Hstep. bind_inv Hstep. destruct a as [cs' op]. injection Hstep as <-.
  cbn in *. eapply quiet_trans; [exact Hq|]. apply quiet_app, Forall_singleton.
  unfold storeAsset in E1. destruct (_ =? -1); [by injection E1 as _ <-|]. destruct (negb _); [done|].
  bind_inv E1. by injection E1 as _ <-.
Qed.

Lemma storeTxAssets_quiet wb (ast : AssetState W) wb' : storeTxAssets wb ast = Ok wb' -> quiet wb wb'.
Proof.
  unfold storeTxAssets. case_bool_decide; [by intros [= <-]|]. destruct (negb _); [done|].
  intros [= <-]. apply quiet_app, Forall_fmap, Forall_forall. done.
Qed.

Lemma writer_quiet wb am abm h ads :
  quiet wb (storeTxAddresses wb am) /\ quiet wb (storeBalances wb abm) /\ quiet wb (storeAddresses wb h ads).
Proof.
  split_and!; (eapply quiet_extends; [apply extends_storeTxAddresses || apply extends_storeBalances || apply extends_storeAddresses|set_solver]).
Qed.

(** ** What connecting and disconnecting leave *)

Definition infoOf (b : Block) : BlockInfo :=
  mkBlockInfo (blk_Hash b) (blk_Time b) (u32 (zlen (blk_Txs b))) (u32 (blk_Size b)) (blk_Height b).

Lemma WriteBatch_height wb d d' k :
  WriteBatch wb d = Ok d' ->
  db_rfault d' = db_rfault d /\
  kv_get (db_cf d' cfHeight) k =
    match batch_get cfHeight k wb with Some r => r | None => kv_get (db_cf d cfHeight) k end.
Proof.
  unfold WriteBatch. destruct (db_wfault d); [done|]. intros [= <-]. split; [done|]. apply kv_get_batch.
Qed.

Lemma ConnectBlock_heights d cache b d' cache' h :
  ConnectBlock d cache b = Ok (d', cache', h) ->
  exists val, packBlockInfo (infoOf b) = Ok val /\ db_rfault d' = db_rfault d /\
    forall k, kv_get (db_cf d' cfHeight) k =
      if decide (packUint (blk_Height b) = k) then Some val else kv_get (db_cf d cfHeight) k.
Proof.
  unfold ConnectBlock, writeHeightFromBlock, writeHeight. intros H.
  destruct (packBlockInfo _) as [val| |] eqn:Ev in H; cbn [rbind] in H; [|done|done].
  exists val. split; [exact Ev|]. bind_inv H. rename a into st.
  set (wb0 := [] ++ [PutCF cfHeight _ val]) in H.
  destruct (writer_quiet wb0 (cs_txAddresses st) ∅ 0 ∅) as (Q1 & _ & _).
  set (wb1 := storeTxAddresses wb0 _) in *.
  destruct (writer_quiet wb1 ∅ (Some <$> cs_balances st) 0 ∅) as (_ & Q2 & _).
  set (wb2 := storeBalances wb1 _) in *.
  bind_inv H. rename a into wb3, E1 into E3. apply storeAndCleanup_quiet in E3 as Q3.
  bind_inv H. destruct a as [wb4 ast]. rename E1 into E4.
  assert (quiet wb3 wb4) as Q4.
  { destruct supportsSyscoinAssets; [|by injection E4 as <- _]. bind_inv E4. destruct a as [wbx astx].
    apply storeAssets_quiet in E1. bind_inv E4. injection E4 as <- _. apply storeTxAssets_quiet in E2.
    by eapply quiet_trans. }
  bind_inv H. rename a into wb5, E1 into E5.
  assert (quiet wb4 wb5) as Q5.
  { destruct (cs_gf st); [|by injection E5 as <-]. unfold storeBlockFilter in E5. bind_inv E5. injection E5 as <-.
    apply quiet_app. by repeat constructor. }
  destruct (writer_quiet wb5 ∅ ∅ (blk_Height b) (cs_addresses st)) as (_ & _ & Q6).
  set (wb6 := storeAddresses wb5 _ _) in *.
  bind_inv H. injection H as -> _ _. rename E1 into Ew.
  assert (quiet wb0 wb6) as Q by (do 5 (eapply quiet_trans; [|eassumption]); exact Q1).
  split; [apply (WriteBatch_height _ _ _ [] Ew)|]. intros k.
  destruct (WriteBatch_height _ _ _ k Ew) as [_ ->]. rewrite Q. unfold wb0.
  cbn [app batch_get op_cf op_key op_val].
  destruct (decide (packUint (blk_Height b) = k)) as [<-|Hk]; [by rewrite decide_True|].
  rewrite decide_False; [done|]. by intros [_ ?].
Qed.

Lemma disconnectBlock_heights d cache height bts d' cache' :
  disconnectBlock d cache height bts = Ok (d', cache') ->
  db_rfault d' = db_rfault d /\
  forall k, kv_get (db_cf d' cfHeight) k =
    if decide (packUint height = k) then None else kv_get (db_cf d cfHeight) k.
Proof.
  unfold disconnectBlock. intros H. bind_inv H. rename a into st.
  set (wb0 := map _ (elements (dom (ds_addrTxs st))) ++ _) in H.
  destruct (writer_quiet wb0 (ds_txs st) ∅ 0 ∅) as (Q1 & _ & _). set (wb1 := storeTxAddresses wb0 _) in *.
  unfold storeBalancesDisconnect in H.
  destruct (writer_quiet wb1 ∅ (option_map trimBalance <$> ds_balances st) 0 ∅) as (_ & Q2 & _).
  set (wb2 := storeBalances wb1 _) in *.
  bind_inv H. destruct a as [wb3 ast]. rename E1 into E3.
  assert (quiet wb2 wb3) as Q3.
  { destruct supportsSyscoinAssets; [|by injection E3 as <- _]. destruct (negb _); [done|].
    eapply quiet_trans; [|by eapply storeAssets_quiet]. apply quiet_app, Forall_fmap, Forall_forall. done. }
  assert (quiet wb3 (wb3 ++ deleteTxs bts)) as Q4.
  { apply quiet_app. unfold deleteTxs. apply Forall_concat, Forall_fmap, Forall_forall.
    intros x _. by repeat constructor. }
  bind_inv H. rename a into wb5, E1 into E5.
  assert (quiet (wb3 ++ deleteTxs bts) wb5) as Q5.
  { unfold disconnectBlockFilter in E5. do 2 bind_inv E5. injection E5 as <-. apply quiet_app. by repeat constructor. }
  bind_inv H. injection H as -> _. rename E1 into Ew.
  assert (quiet wb0 wb5) as Q by (do 4 (eapply quiet_trans; [|eassumption]); exact Q1).
  split; [apply (WriteBatch_height _ _ _ [] Ew)|]. intros k.
  destruct (WriteBatch_height _ _ _ k Ew) as [_ ->]. rewrite Q. unfold wb0. rewrite batch_get_app.
  cbn [app batch_get op_cf op_key op_val].
  destruct (decide (packUint height = k)) as [<-|Hk].
  - by rewrite decide_True.
  - rewrite decide_False by (by intros [_ ?]). rewrite decide_False by (by intros [? _]).
    rewrite batch_get_other; [done|]. apply Forall_fmap, Forall_forall. intros a _. cbn. by left.
Qed.

(** The loop of a rollback removes exactly the rows of its heights. *)
Lemma disconnectLoop_heights fuel d cache lower height blocks d' cache' :
  0 < lower <= height + 1 -> height < 2 ^ 32 ->
  disconnectLoop fuel d cache lower height blocks = (d', cache', Ok tt) ->
  db_rfault d' = db_rfault d /\
  (forall k v, kv_get (db_cf d' cfHeight) k = Some v -> kv_get (db_cf d cfHeight) k = Some v) /\
  forall h, is_u32 h -> kv_get (db_cf d' cfHeight) (packUint h) =
    if (lower <=? h) && (h <=? height) then None else kv_get (db_cf d cfHeight) (packUint h).
Proof.
  intros Hl. revert d cache height Hl. induction fuel as [|fuel IH]; intros d cache height Hl Hu; cbn [disconnectLoop]; [done|].
  destruct (Z.leb_spec lower height) as [Hle|Hgt].
  2: { intros [= <- _]. split_and!; [done|done|]. intros h _. case_tests; done. }
  destruct (blocks !! _) as [bts|]; [|done].
  destruct (disconnectBlock d cache height bts) as [[d1 cache1]| |] eqn:Ed; [|done|done].
  apply disconnectBlock_heights in Ed as [Hrf Hk]. intros H.
  rewrite u32_id in H by (unfold is_u32; lia).
  destruct (IH d1 cache1 (height - 1) ltac:(lia) ltac:(lia) H) as (Hrf' & Hsub & Hk').
  split_and!; [congruence| |].
  - intros k v Hv. apply Hsub in Hv. rewrite Hk in Hv. by case_decide.
  - intros h Hh. rewrite Hk' by done. rewrite Hk. destruct (decide (packUint height = packUint h)) as [Ep|Ep].
    + apply packUint_inj in Ep; [|unfold is_u32; lia|done]. subst h. case_tests; done.
    + assert (h <> height) by (by intros ->). case_tests; done.
Qed.

Lemma heights_rows d : heights_ok d -> height_rows d.
Proof. intros [_ H] k v Hk. destruct (H k v Hk) as (h & bi & ? & ? & ? & _). by exists h, bi. Qed.

Lemma heightHash_row d h v :
  heights_ok d -> is_u32 h -> kv_get (db_cf d cfHeight) (packUint h) = Some v ->
  exists bi, unpackBlockInfo v = Ok (Some bi) /\ bi_Hash bi <> [] /\ heightHash d h = Some (bi_Hash bi).
Proof.
  intros [_ Hrows] Hu Hv. destruct (Hrows _ _ Hv) as (h' & bi & _ & _ & Hbi & Hne). exists bi.
  split_and!; [done|done|]. unfold heightHash. by rewrite bool_decide_eq_true_2, Hv, Hbi.
Qed.

Lemma heightHash_None d h : is_u32 h -> heights_ok d -> heightHash d h = None <-> kv_get (db_cf d cfHeight) (packUint h) = None.
Proof.
  intros Hu Hok. destruct (kv_get (db_cf d cfHeight) (packUint h)) as [v|] eqn:Ev.
  - destruct (heightHash_row d h v Hok Hu Ev) as (bi & _ & _ & ->). done.
  - unfold heightHash. rewrite bool_decide_eq_true_2, Ev by done. done.
Qed.

(** The block's hash survives the packing of its row. *)
Definition block_hash_ok (b : Block) : Prop :=
  is_u32 (blk_Height b) /\ blk_Hash b <> [] /\
  exists p, PackBlockHash (blk_Hash b) = Ok p /\ UnpackBlockHash (hashBytes p) = Ok (blk_Hash b).

(** ** The laws *)

Context (HP : 0 <= PackedTxidLen).

#[refine] #[local] Instance db_index_laws : ChainIndexLaws db_index := {|
  ix_ok := fun s : @ix db_index => heights_ok s.1;
  ix_block := block_hash_ok;
  ix_hash := fun (s : @ix db_index) h => heightHash s.1 h;
|}.
Proof.
  - intros [d cache] h hash Hok. cbn. unfold heightHash. case_bool_decide as Hu; [|done].
    destruct (kv_get _ _) as [v|] eqn:Ev; [|done].
    destruct (heightHash_row d h v Hok Hu Ev) as (bi & -> & Hne & _). by intros [= <-].
  - intros [d cache] h Hok Hu. cbn. unfold GetBlockHash, GetCF. rewrite (proj1 Hok). cbn [rbind].
    unfold heightHash. rewrite bool_decide_eq_true_2 by done.
    destruct (kv_get _ _) as [v|] eqn:Ev.
    2: { cbn [valData]. unfold unpackBlockInfo. change (zlen []) with 0.
         by destruct (Z.ltb_spec 0 (PackedTxidLen + 4 + 2)); [|lia]. }
    destruct (heightHash_row d h v Hok Hu Ev) as (bi & Hbi & _). cbn [valData]. by rewrite Hbi.
  - intros [d cache] Hok. cbn. pose proof (GetBestBlock_spec d (heights_rows d Hok)) as Hspec.
    destruct (GetBestBlock d) as [[h hash]| |]; [|done|done].
    destruct Hspec as [Habove [(-> & -> & Hnone)|(v & bi & Huh & Hv & Hbi & ->)]].
    + left. split; [|done]. intros h. unfold heightHash. rewrite Hnone. by case_bool_decide.
    + right. exists h, (bi_Hash bi). split_and!; [|intros h2 Hh2|done].
      * unfold heightHash. rewrite bool_decide_eq_true_2, Hv, Hbi by done. done.
      * destruct (decide (is_u32 h2)) as [Hu2|]; [|unfold heightHash; by rewrite bool_decide_eq_false_2].
        apply heightHash_None; [done|done|]. destruct (kv_get _ (packUint h2)) eqn:E2; [|done].
        specialize (Habove h2 Hu2 (ex_intro _ _ E2)). lia.
  - intros [d cache] b [d' cache'] Hok (Hu & Hne & p & Hp & Hup) Hc. cbn in Hc. bind_inv Hc.
    destruct a as [[d1 c1] h1]. injection Hc as -> ->. destruct (ConnectBlock_heights _ _ _ _ _ _ E0) as (val & Hval & Hrf & Hk).
    pose proof (unpackBlockInfo_pack (infoOf b) p (blk_Hash b) val HP (u32_range _) (u32_range _) Hp Hup Hval) as Hunp.
    cbn [fst]. split.
    + split; [rewrite Hrf; apply Hok|]. intros k v. rewrite Hk. case_decide as Hdk.
      * intros [= <-]. exists (blk_Height b). eexists. split_and!; [done|done|exact Hunp|exact Hne].
      * apply Hok.
    + intros h. unfold heightHash. destruct (Z.eqb_spec h (blk_Height b)) as [->|Hh].
      * rewrite bool_decide_eq_true_2, Hk, decide_True by done. rewrite Hunp. done.
      * case_bool_decide as Huh; [|done]. rewrite Hk, decide_False; [done|].
        intros Ep. apply packUint_inj in Ep; [|done|done]. congruence.
  - intros [d cache] lower higher [d' cache'] Hok Hl Hu Hd. cbn in Hd.
    destruct (DisconnectBlockRangeBitcoinType d cache lower higher) as [[d1 c1] r] eqn:Er.
    injection Hd as -> -> ->. unfold DisconnectBlockRangeBitcoinType in Er.
    destruct (readBlockTxs _ _ _ _ _ _) as [blocks| |]; [|done|done]. unfold is_u32 in Hu.
    apply disconnectLoop_heights in Er as (Hrf & Hsub & Hk); [|lia|lia]. cbn [fst]. split.
    + split; [rewrite Hrf; apply Hok|]. intros k v Hv. by apply Hok, Hsub.
    + intros h. unfold heightHash. case_bool_decide as Huh; [|by case_match].
      rewrite Hk by done. by destruct ((lower <=? h) && (h <=? higher)).
Defined.

(** ** A resync of the database *)

(** C5: A resync of the database. Let the chain of the backend not change meanwhile, let its
    blocks be connectable in turn, and let the indexed blocks above the fork be recorded by
    undo rows that can be reversed one after the other. Then the resync ends: the fork is
    rolled back and the blocks of the backend are connected. The database keeps its ledger (the
    balances, counts, unspent outputs and asset sums of all addresses are those of the
    rows); the best block that is read is the tip of the backend, and the hash that is read at
    every height is that of the backend's block, or empty where the backend has none or the
    index does not start yet. *)
Theorem database_resync (w : World) cfg remote (Q : ix -> Prop) lo f top (st : SyncState) fuel tip :
  chain_wf remote -> serves remote w -> GetChainType = ChainBitcoinType -> last remote = Some tip ->
  (forall d cache h b, Q (d, cache) -> index_ok d -> indexed remote lo (h - 1) (d, cache) -> blockAt remote h = Some b ->
     connectable d cache b /\ block_hash_ok b /\
     forall d' cache', ConnectBlock d cache b = Ok (d', cache', blk_Height b) -> Q (d', cache')) ->
  Q (ss_index st) -> index_ok (ss_index st).1 -> forked remote lo f top (ss_index st) ->
  (f < top -> exists bss, undo_rows (ss_index st).1 (f + 1) bss /\ zlen bss = top - f /\
     undoable_down (ss_index st).1 (ss_index st).2 (f + 1) bss (length bss) /\
     forall d' cache', disconnectDown (ss_index st).1 (ss_index st).2 (f + 1) bss (length bss) = (d', cache', Ok tt) -> Q (d', cache')) ->
  (Z.to_nat (zlen remote - f) + Z.to_nat (top - f) + 2 < fuel)%nat ->
  let r := resyncIndex w cfg fuel st in
  let d := (ss_index r.2).1 in
  (r.1 = Returned None \/ r.1 = Returned (Some syncNotNeeded)) /\ index_ok d /\
  GetBestBlock d = Ok (zlen remote - 1, blk_Hash tip) /\
  forall h, is_u32 h -> GetBlockHash d h =
    Ok (if lo <=? h then match blockAt remote h with Some b => blk_Hash b | None => [] end else []).
Proof.
  intros Hwf Hs Hbtc Htip Hconn HQ Hix Hf Hdis Hfuel.
  destruct (resync_ok w cfg remote Hwf Hs Hbtc (fun s => Q s /\ index_ok s.1) lo f top st fuel)
    as (H1 & H2 & [_ H4] & _); [|done|done| |done|].
  - intros [d cache] h b [HQs His] Hind Hb. destruct (Hconn d cache h b HQs His Hind Hb) as ([Hv Hw Hfits] & Hbh & HQ').
    split; [exact Hbh|].
    destruct (ConnectBlock_index_ok d cache b His Hv Hw Hfits) as (d' & c' & cs & Hc & His' & _).
    exists (d', c'). cbn. rewrite Hc. split_and!; [done|by apply HQ'|done].
  - intros Hlt. destruct (Hdis Hlt) as (bss & Hrows & Hz & Hdown & HQ'). destruct (fk_range _ _ _ _ _ Hf) as (Hlo & Htop & _).
    destruct (disconnectDown_ok (f + 1) bss (length bss) _ _ Hix Hdown) as (d' & c' & Hd & Hi'). exists (d', c').
    cbn. rewrite (rollback_order _ _ (f + 1) top bss) by (done || lia). by rewrite Hd; auto.
  - destruct (fk_range _ _ _ _ _ Hf) as (Hlo & Htop & Hlen). pose proof (cw_len _ Hwf) as Hl.
    split_and!; [done|done| |].
    + destruct (best_of lo (zlen remote - 1) _ (proj1 H2)) as (hash & Hhash & Hbest);
        [apply (indexed_heights remote lo _ _ H2); lia|lia|].
      cbn in Hbest. rewrite Hbest. do 2 f_equal. pose proof (proj2 H2) as Hh. cbn beta in Hh. rewrite Hh in Hhash.
      rewrite (tip_at remote tip Htip) in Hhash.
      destruct (Z.leb_spec lo (zlen remote - 1)); [|lia]. rewrite Z.leb_refl in Hhash. by injection Hhash as <-.
    + intros h Hu. pose proof (law_GetBlockHash _ h (proj1 H2) Hu) as Hg. cbn in Hg. rewrite Hg. f_equal.
      pose proof (proj2 H2 h) as Hh. cbn in Hh. rewrite Hh. destruct (lo <=? h); cbn; [|done].
      destruct (blockAt remote h) as [b|] eqn:Hb; [|by case_test].
      apply blockAt_lt in Hb. by case_test; [|lia].
Qed.

End SyncIndex.

(** ** An example *)

Module SyncIndexExample.
Import ChainExample.

#[local] Existing Instances RefVlq.vlq RefVlq.vlq_laws MapKV.map_kv MapKV.map_kv_laws RefWire.wire RefWire.wire_laws
  RefWire.env GolombExample.gcs ChainExample.opts ChainExample.filter_opts ChainExample.parser.
#[local] Existing Instances db_index db_index_laws.

Lemma parser_len : 0 <= PackedTxidLen.
Proof. vm_compute. discriminate. Qed.

Definition hash0 : bytes := replicate 64 x30.
Definition hash1 : bytes := replicate 64 x63.
Definition genesis : Block := mkBlock hash0 [] hash1 0 100 1500000000 [].
Definition next : Block := mkBlock hash1 hash0 [] 1 500 1600000000 [tx1; tx2].
Definition remote : list Block := [genesis; next].

(** The index has another block of height 1. *)
Definition hashF : bytes := replicate 64 x66.
Definition txF : Tx := mkTx [] (replicate 64 x64) 1 0 100 [mkVin [x01] [] 0 []] [mkVout 700 0 addrB None] [].
Definition forkBlock : Block := mkBlock hashF hash0 [] 1 400 1590000000 [txF].

Definition afterConnect (s : DB MapKV.map_kv * option (gmap Z (Asset RefWire.wire))) (b : Block) :=
  match ConnectBlock s.1 s.2 b with Ok (d, cache, _) => (d, cache) | _ => s end.

Definition sA := afterConnect (db0, None) genesis.
Definition sF := afterConnect sA forkBlock.

Lemma remote_wf : chain_wf remote.
Proof.
  split.
  - intros [|[|h]] b; cbn; intros [= <-]; split; done.
  - intros [|[|h]] b c; cbn; intros [= <-]; intros [= <-]; done.
  - intros [|[|h]] b; cbn; intros [= <-]; [right|left]; try done; eexists; done.
  - intros [|[|h]] [|[|h']] b b'; cbn; intros [= <-] [= <-]; done.
  - vm_compute. done.
Qed.

Lemma remote_served : serves remote (fun _ => SyncExample.serving remote).
Proof.
  split; intros n; [eexists; split; reflexivity|reflexivity|done| |].
  - intros hash h b Hb Hh. cbn [SyncExample.serving sn_Block]. rewrite Hb. by rewrite bool_decide_eq_true_2.
  - intros h Hn. cbn [SyncExample.serving sn_Block]. by rewrite Hn.
Qed.

Lemma connectableG : connectable db0 None genesis.
Proof.
  constructor.
  - constructor; repeat constructor.
  - constructor; try done; try (eexists; vm_compute; reflexivity). intros _. split; [done|]. intros o. by eexists.
  - enough (match processAddressesBitcoinType db0 genesis (initState None (blockGolombFilter genesis)) with
            | Ok st => bool_decide (state_fits db0 st) | _ => false end = true) as H.
    { intros st Hst. rewrite Hst in H. by apply bool_decide_eq_true in H. }
    vm_compute. reflexivity.
Qed.

Lemma connectableF : connectable sA.1 sA.2 forkBlock.
Proof.
  constructor.
  - constructor.
    + repeat constructor; cbn; try discriminate; done.
    + repeat constructor.
    + repeat constructor. set_solver.
    + repeat constructor.
    + apply Forall_singleton. unfold inputs_ok. cbn [tx_Vin txF]. apply Forall_singleton. split; [right; vm_compute; reflexivity|cbn; lia].
    + apply (bool_decide_unpack _). vm_compute. exact I.
    + repeat constructor.
  - constructor; try done; try (eexists; vm_compute; reflexivity). intros _. split; [done|]. intros o. by eexists.
  - enough (match processAddressesBitcoinType sA.1 forkBlock (initState sA.2 (blockGolombFilter forkBlock)) with
            | Ok st => bool_decide (state_fits sA.1 st) | _ => false end = true) as H.
    { intros st Hst. rewrite Hst in H. by apply bool_decide_eq_true in H. }
    vm_compute. reflexivity.
Qed.

Lemma stepG : exists n, ConnectBlock db0 None genesis = Ok (sA, n) /\ index_ok sA.1.
Proof.
  destruct connectableG as [Hv Hw Hf].
  destruct (ConnectBlock_index_ok db0 None genesis (empty_index_ok db0 empty0) Hv Hw Hf) as (d' & c' & st & H & Hi & _).
  exists (blk_Height genesis). unfold sA, afterConnect. cbn [fst snd]. by rewrite H.
Qed.

Lemma stepF : exists n, ConnectBlock sA.1 sA.2 forkBlock = Ok (sF, n) /\ index_ok sF.1.
Proof.
  destruct connectableF as [Hv Hw Hf], stepG as (_ & _ & HiA).
  destruct (ConnectBlock_index_ok sA.1 sA.2 forkBlock HiA Hv Hw Hf) as (d' & c' & st & H & Hi & _).
  exists (blk_Height forkBlock). unfold sF, afterConnect. by rewrite H.
Qed.

(** *** The fork can be undone *)

Definition idF : bytes := packedId txF.
Definition btsF : list blockTxs := [mkBlockTxs idF [mkOutpoint (replicate 32 x00) 0]].
Definition rowF : option TxAddresses := Eval vm_compute in dbTx sF.1 idF.

Lemma rowF_eq : dbTx sF.1 idF = rowF.
Proof. vm_compute. reflexivity. Qed.

Lemma spendsF : blockSpends sF.1 btsF = [].
Proof. vm_compute. reflexivity. Qed.

Lemma balanceF : has_balance sF.1 addrB.
Proof. eexists. vm_compute. reflexivity. Qed.

Lemma undoF : undo_ok sF.1 btsF.
Proof.
  constructor; [constructor; rewrite ?spendsF; [|constructor..]| |].
  - apply Forall_singleton. cbn [bt_btxID bt_inputs]. intros txa. rewrite rowF_eq. intros [= <-]. cbn. lia.
  - repeat constructor. set_solver.
  - intros bt txa i o ->%list_elem_of_singleton. cbn [bt_btxID]. rewrite rowF_eq. intros [= <-]. cbn [ta_Outputs].
    destruct i as [|i]; [|done]. intros [= <-]. split; [lia|]. split; [by left|]. intros _ _. exact balanceF.
Qed.

Lemma rowsF : elements (dom (db_cf sF.1 cfTxAddresses : gmap bytes bytes)) = [idF].
Proof. vm_compute. reflexivity. Qed.

Lemma countersF : counters_ok sF.1 btsF.
Proof.
  intros a Ha _. split.
  - destruct (decide (a = addrB)) as [->|HB]; [vm_compute; discriminate|].
    assert (touched sF.1 btsF a = []) as ->; [|rewrite zlen_nil; apply (dbBal_u32 sF.1 a)].
    unfold touched. cbn [map btsF bt_btxID]. rewrite filter_cons, rowF_eq, decide_False; [done|].
    cbn. unfold addrB in *. rewrite !elem_of_cons, elem_of_nil. intuition congruence.
  - intros _ t ta Ht _. unfold dbTx, getTxAddresses, GetCF in Ht. change (db_rfault sF.1 cfTxAddresses t) with false in Ht. cbn [rbind] in Ht.
    assert (is_Some ((db_cf sF.1 cfTxAddresses : gmap bytes bytes) !! t)) as Hd.
    { change ((db_cf sF.1 cfTxAddresses : gmap bytes bytes) !! t) with (kv_get (db_cf sF.1 cfTxAddresses) t). by destruct (kv_get (db_cf sF.1 cfTxAddresses) t). }
    apply elem_of_dom, elem_of_elements in Hd. rewrite rowsF in Hd. exact Hd.
Qed.

Lemma undoableF : undoable sF.1 sF.2 1 btsF.
Proof.
  constructor; [exact undoF|exact countersF| |].
  - constructor; [reflexivity|discriminate|eexists _, _; split; vm_compute; reflexivity|]. intros _. split; [done|]. intros o. by eexists.
  - enough (match disconnectTxs sF.1 btsF (initDisc sF.2) with Ok st => bool_decide (undo_fits st) | _ => false end = true) as H.
    { intros st Hst. rewrite Hst in H. by apply bool_decide_eq_true in H. }
    vm_compute. reflexivity.
Qed.

(** The database without the fork. *)
Definition sR := match disconnectBlock sF.1 sF.2 1 btsF with Ok s => s | _ => sF end.

Lemma stepR : disconnectBlock sF.1 sF.2 1 btsF = Ok sR.
Proof.
  destruct stepF as (_ & _ & HiF). destruct (undoable_disconnects _ _ _ _ HiF undoableF) as (d' & c' & H & _).
  unfold sR. by rewrite H.
Qed.

Lemma connectableN : connectable sR.1 sR.2 next.
Proof.
  constructor.
  - destruct valid1 as [H1 H2 H3 _ H5 H6 _]. constructor; [exact H1|exact H2|exact H3| |exact H5|exact H6|].
    + repeat constructor.
    + repeat constructor. intros ta o H. vm_compute in H. discriminate.
  - constructor; try done; try (eexists; vm_compute; reflexivity). intros _. split; [done|]. intros o. by eexists.
  - enough (match processAddressesBitcoinType sR.1 next (initState sR.2 (blockGolombFilter next)) with
            | Ok st => bool_decide (state_fits sR.1 st) | _ => false end = true) as H.
    { intros st Hst. rewrite Hst in H. by apply bool_decide_eq_true in H. }
    vm_compute. reflexivity.
Qed.

Lemma downF : disconnectDown sF.1 sF.2 (0 + 1) [btsF] 1 = (sR.1, sR.2, Ok tt).
Proof.
  assert (forall d c r, disconnectBlock d c 1 btsF = Ok r -> disconnectDown d c (0 + 1) [btsF] 1 = (r.1, r.2, Ok tt)) as H
    by (intros d c [d' c'] H; unfold disconnectDown; cbn [lookup list_lookup]; change (0 + 1 + Z.of_nat 0) with 1; by rewrite H).
  apply H, stepR.
Qed.

Lemma hashR : heightHash sR.1 0 = Some hash0.
Proof. vm_compute. reflexivity. Qed.

Lemma undoRowsF : undo_rows sF.1 1 [btsF].
Proof. intros [|i] bts; cbn [lookup list_lookup]; [|done]. intros [= <-]. split; [vm_compute; reflexivity|done]. Qed.

#[local] Opaque sA sF sR.

(** Only the row of the first block is there. *)
Lemma heightsA h : heightHash sA.1 h = if h =? 0 then Some hash0 else None.
Proof.
  unfold heightHash. case_bool_decide as Hu; [|case_test; [subst; exfalso; apply Hu; unfold is_u32; lia|done]].
  destruct stepG as (n & Hn & _).
  destruct sA as [dA cA] eqn:EA. destruct (ConnectBlock_heights _ _ _ _ _ _ Hn) as (val & Hval & _ & Hk). cbn [fst].
  rewrite Hk. destruct (Z.eqb_spec h 0) as [->|Hne].
  - rewrite decide_True by done. vm_compute in Hval. injection Hval as <-. vm_compute. reflexivity.
  - rewrite decide_False by (intros Ep; apply packUint_inj in Ep; [by symmetry in Ep|done|done]).
    assert (kv_get (db_cf db0 cfHeight) (packUint h) = None) as -> by exact (lookup_empty (M := gmap bytes) _). done.
Qed.

(** A block of height 1 adds its row. *)
Lemma heightsNext s b d c n : blk_Height b = 1 -> block_hash_ok b -> ConnectBlock s.1 s.2 b = Ok (d, c, n) ->
  forall h, heightHash d h = if h =? 1 then Some (blk_Hash b) else heightHash s.1 h.
Proof.
  intros Hb (Hu & Hne & p & Hp & Hup) Hc h. destruct (ConnectBlock_heights _ _ _ _ _ _ Hc) as (val & Hval & _ & Hk).
  pose proof (unpackBlockInfo_pack (infoOf b) p (blk_Hash b) val parser_len (u32_range _) (u32_range _) Hp Hup Hval) as Hunp.
  unfold heightHash. rewrite Hk, Hb. destruct (Z.eqb_spec h 1) as [->|Hh].
  - rewrite bool_decide_eq_true_2 by done. rewrite decide_True by done. by rewrite Hunp.
  - case_bool_decide; [|done]. by rewrite decide_False by (intros Ep; apply packUint_inj in Ep; [by symmetry in Ep|done|done]).
Qed.

Lemma hash_okF : block_hash_ok forkBlock.
Proof. split_and!; [done|done|]. eexists. split; vm_compute; reflexivity. Qed.

Lemma hash_okN : block_hash_ok next.
Proof. split_and!; [done|done|]. eexists. split; vm_compute; reflexivity. Qed.

Lemma heightsF h : heightHash sF.1 h = if h =? 1 then Some hashF else if h =? 0 then Some hash0 else None.
Proof. destruct stepF as (n & Hn & _). rewrite <- heightsA. by apply (heightsNext sA forkBlock sF.1 sF.2 n eq_refl hash_okF); destruct sF. Qed.

Lemma heights_okA : heights_ok sA.1.
Proof.
  destruct stepG as (n & Hn & _). destruct sA as [dA cA].
  destruct (ConnectBlock_heights _ _ _ _ _ _ Hn) as (val & Hval & Hrf & Hk). cbn [fst]. split; [by rewrite Hrf|].
  intros k v. rewrite Hk. case_decide as Hd.
  - intros [= <-]. exists 0. vm_compute in Hval. injection Hval as <-. eexists.
    split_and!; [done|done|vm_compute; reflexivity|done].
  - assert (kv_get (db_cf db0 cfHeight) k = None) as -> by exact (lookup_empty (M := gmap bytes) _). done.
Qed.

Lemma heights_okF : heights_ok sF.1.
Proof.
  destruct stepF as (n & Hn & _).
  apply (law_ConnectBlock (ChainIndexLaws := db_index_laws parser_len) (sA : @ix db_index) forkBlock sF heights_okA hash_okF). cbn. by rewrite Hn; destruct sF.
Qed.

Lemma forkedF : forked (IL := db_index_laws parser_len) remote 0 0 1 sF.
Proof.
  split; cbn [ix_hash db_index_laws].
  - exact heights_okF.
  - vm_compute. split_and!; done.
  - intros h. rewrite heightsF. case_tests; subst; split; try done; try lia; try (by intros []); eauto.
  - intros h Hh. assert (h = 0) as -> by lia. by rewrite heightsF.
  - intros h b Hh Hb. assert (h = 1) as -> by lia. rewrite heightsF. vm_compute in Hb. injection Hb as <-. done.
  - intros tip _ Ht. vm_compute in Ht. injection Ht as <-. by rewrite heightsF.
Qed.

(** The state is that with the fork, without it, or after the block of the backend. *)
Definition known (s : DB MapKV.map_kv * option (gmap Z (Asset RefWire.wire))) : Prop :=
  s = sF \/ s = sR \/ exists n, ConnectBlock sR.1 sR.2 next = Ok (s, n).

Definition before : SyncState := mkSync (sF : @ix db_index) 0 0 [].

(** The only block to connect is that of the backend, on the database without the fork. *)
Lemma accepted d cache h b : known (d, cache) -> index_ok d ->
  indexed (IL := db_index_laws parser_len) remote 0 (h - 1) ((d, cache) : @ix db_index) -> blockAt remote h = Some b ->
  connectable d cache b /\ block_hash_ok b /\
  forall d' c', ConnectBlock d cache b = Ok (d', c', blk_Height b) -> known (d', c').
Proof.
  intros HQ _ [_ Hind] Hb. cbn [ix_hash db_index_laws] in Hind.
  assert (h = 0 \/ h = 1) as Hh by (apply blockAt_lt in Hb; change (zlen remote) with 2 in Hb; lia).
  assert (heightHash d 1 = None) as H1 by (pose proof (Hind 1) as H1; cbn [fst] in H1; rewrite H1; by destruct Hh as [-> | ->]).
  assert (h = 0 -> heightHash d 0 = None) as H0 by (pose proof (Hind 0) as H0; cbn [fst] in H0; intros ->; by rewrite H0).
  clear Hind. destruct HQ as [HQ|[HQ|[n HQ]]].
  - apply (f_equal fst) in HQ. cbn [fst] in HQ. rewrite HQ, heightsF in H1. discriminate H1.
  - pose proof (f_equal fst HQ) as Hd. pose proof (f_equal snd HQ) as Hc. cbn [fst snd] in Hd, Hc.
    destruct Hh as [-> | ->]; [specialize (H0 eq_refl); rewrite Hd, hashR in H0; discriminate H0|].
    assert (next = b) as <- by (by injection Hb). rewrite Hd, Hc.
    split; [exact connectableN|]. split; [exact hash_okN|]. intros d' c' E. right. right. exists (blk_Height next). exact E.
  - rewrite (heightsNext sR next d cache n eq_refl hash_okN HQ) in H1. discriminate H1.
Qed.

Lemma only_result {A B C} (p : A * B) (r : C) d c : (p.1, p.2, r) = (d, c, r) -> (d, c) = p.
Proof. destruct p. cbn. congruence. Qed.

(** The fork is rolled back and the block of the backend connected. *)
Lemma database_resync_witness :
  let r := resyncIndex (fun _ => SyncExample.serving remote) SyncExample.cfg 10 before in
  index_ok (ss_index r.2).1 /\ GetBestBlock (ss_index r.2).1 = Ok (1, hash1) /\ GetBestBlock (ss_index before).1 = Ok (1, hashF).
Proof.
  destruct (database_resync parser_len (fun _ => SyncExample.serving remote) SyncExample.cfg remote known 0 0 1
    before 10 next remote_wf remote_served eq_refl eq_refl) as (_ & H1 & H2 & _).
  - exact accepted.
  - by left.
  - destruct stepF as (n & _ & Hi). exact Hi.
  - exact forkedF.
  - intros _. exists [btsF]. split; [exact undoRowsF|]. split; [reflexivity|]. split.
    + exists btsF. split; [reflexivity|]. split; [exact undoableF|]. intros; exact I.
    + intros d' c' Hd. right. left. exact (only_result _ _ _ _ (eq_trans (eq_sym downF) Hd)).
  - vm_compute. lia.
  - split; [exact H1|]. split; [exact H2|vm_compute; reflexivity].
Defined.

End SyncIndexExample.
