(* ===== verification/Bulk.v ===== *)
(** Bulk connecting ([db/bulkconnect.go], Bitcoin-type coins): during the initial sync the
    rows of transactions, balances and assets stay in memory over many blocks, and are
    written in parts; [Close] writes the rest.

    The goroutines that write a part run concurrently with the rest of
    [connectBlockBitcoinType], on their own columns and maps; here they run when they are
    waited for. The order in which Go walks a map decides which entries a part takes; it is
    given as a list of keys ([StoreOrder]). The row of the internal state that
    [SetInconsistentState] writes, metrics and logging are not modelled. *)

From S2P Require Import Prelude Codec Parser Golomb TxAddr Balance IndexCodec Store Scan Assets Connect.

Local Open Scope Z_scope.

(** ** Limits *)

Class BulkLimits := {
  maxBulkAddresses : Z;
  maxBulkTxAddresses : Z;
  maxBulkBalances : Z;
  maxBulkAssets : Z;
  maxBulkTxAssets : Z;
  maxBlockFilters : Z;
}.

(** The constants of the source. *)
Definition bulkLimits : BulkLimits := {|
  maxBulkAddresses := 80000;
  maxBulkTxAddresses := 500000;
  maxBulkBalances := 700000;
  maxBulkAssets := 500000;
  maxBulkTxAssets := 500000;
  maxBlockFilters := 1000;
|}.

Definition partialStoreAddresses `{BulkLimits} : Z := Z.quot maxBulkTxAddresses 10.
Definition partialStoreBalances `{BulkLimits} : Z := Z.quot maxBulkBalances 10.
Definition partialStoreAssets `{BulkLimits} : Z := Z.quot maxBulkAssets 10.
Definition partialStoreTxAssets `{BulkLimits} : Z := Z.quot maxBulkTxAssets 10.

(** ** State *)

Inductive DbState := DbStateClosed | DbStateOpen | DbStateInconsistent.

Record bulkConnectStats := mkBulkStats { bs_blocks : Z; bs_txs : Z; bs_vin : Z; bs_vout : Z }.

Record BulkConnect {W : AssetWire} := mkBulk {
  b_bulkAddresses : list (BlockInfo * gmap bytes (list txIndexes));
  b_bulkAddressesCount : Z;
  b_txAddressesMap : gmap bytes TxAddresses;
  b_blockFilters : gmap bytes (option bytes);
  b_balances : gmap bytes AddrBalance;
  b_assets : option (gmap Z (Asset W));
  b_txAssets : option (gmap bytes TxAsset);
  b_height : Z;
  b_bulkStats : bulkConnectStats;
}.
Arguments BulkConnect : clear implicits.
Arguments BulkConnect W : assert.

(** The database, the process-wide cache of assets and the bulk connect. *)
Record BulkSystem {K : KV} {W : AssetWire} := mkBulkSystem {
  bk_db : DB K;
  bk_cache : option (gmap Z (Asset W));
  bk_bulk : BulkConnect W;
}.
Arguments BulkSystem : clear implicits.
Arguments BulkSystem K W : assert.

(** The orders in which the maps are walked. *)
Record StoreOrder := mkStoreOrder {
  so_txAddresses : list bytes;
  so_balances : list bytes;
  so_assets : list Z;
  so_txAssets : list bytes;
}.

(** [for k, a := range m { part[k] = a; delete(m, k); if len(part) >= limit { break } }] *)
Fixpoint moveSome {Key A} `{Countable Key} (limit : Z) (order : list Key) (m part : gmap Key A)
    : gmap Key A * gmap Key A :=
  match order with
  | [] => (m, part)
  | k :: order =>
      match m !! k with
      | None => moveSome limit order m part
      | Some a =>
          let part := <[k := a]> part in
          let m := delete k m in
          if limit <=? Z.of_nat (size part) then (m, part) else moveSome limit order m part
      end
  end.

Section Bulk.
Context {V : Vlq} {P : ChainParser} {IX : IndexOpts} {K : KV} {W : AssetWire} {E : AssetEnv W}
  {G : Gcs} {FO : FilterOpts} {BL : BulkLimits}.
Implicit Types (d : DB K) (b : BulkConnect W) (s : BulkSystem K W).

Definition b_with_addresses l n b : BulkConnect W :=
  mkBulk W l n (b_txAddressesMap b) (b_blockFilters b) (b_balances b) (b_assets b) (b_txAssets b) (b_height b) (b_bulkStats b).
Definition b_with_txAddresses m b : BulkConnect W :=
  mkBulk W (b_bulkAddresses b) (b_bulkAddressesCount b) m (b_blockFilters b) (b_balances b) (b_assets b) (b_txAssets b)
    (b_height b) (b_bulkStats b).
Definition b_with_filters m b : BulkConnect W :=
  mkBulk W (b_bulkAddresses b) (b_bulkAddressesCount b) (b_txAddressesMap b) m (b_balances b) (b_assets b) (b_txAssets b)
    (b_height b) (b_bulkStats b).
Definition b_with_balances m b : BulkConnect W :=
  mkBulk W (b_bulkAddresses b) (b_bulkAddressesCount b) (b_txAddressesMap b) (b_blockFilters b) m (b_assets b) (b_txAssets b)
    (b_height b) (b_bulkStats b).
Definition b_with_assets m b : BulkConnect W :=
  mkBulk W (b_bulkAddresses b) (b_bulkAddressesCount b) (b_txAddressesMap b) (b_blockFilters b) (b_balances b) m (b_txAssets b)
    (b_height b) (b_bulkStats b).
Definition b_with_txAssets m b : BulkConnect W :=
  mkBulk W (b_bulkAddresses b) (b_bulkAddressesCount b) (b_txAddressesMap b) (b_blockFilters b) (b_balances b) (b_assets b) m
    (b_height b) (b_bulkStats b).
Definition b_with_height h b : BulkConnect W :=
  mkBulk W (b_bulkAddresses b) (b_bulkAddressesCount b) (b_txAddressesMap b) (b_blockFilters b) (b_balances b) (b_assets b)
    (b_txAssets b) h (b_bulkStats b).
Definition b_with_stats x b : BulkConnect W :=
  mkBulk W (b_bulkAddresses b) (b_bulkAddressesCount b) (b_txAddressesMap b) (b_blockFilters b) (b_balances b) (b_assets b)
    (b_txAssets b) (b_height b) x.

Definition bk_with_bulk b s : BulkSystem K W := mkBulkSystem K W (bk_db s) (bk_cache s) b.
Definition bk_with_db d s : BulkSystem K W := mkBulkSystem K W d (bk_cache s) (bk_bulk s).

Definition SetInconsistentState d (inconsistent : bool) : result DbState :=
  if db_wfault d then Err ErrDB else Ok (if inconsistent then DbStateInconsistent else DbStateOpen).

Definition noStats : bulkConnectStats := mkBulkStats 0 0 0 0.

Definition InitBulkConnect d : result (BulkConnect W * DbState) :=
  let! state := SetInconsistentState d true in
  let m {A} `{Countable B} : option (gmap B A) := if supportsSyscoinAssets then Some ∅ else None in
  Ok (mkBulk W [] 0 ∅ ∅ ∅ m m 0 noStats, state).

(** ** Writing parts of the maps *)

(** All outputs are spent: the row will not change again. *)
Definition completelySpent (ta : TxAddresses) : bool := forallb to_Spent (ta_Outputs ta).

(** The part of the map that is stored, and the rest. *)
Definition splitTxAddresses (all : bool) (order : list bytes) (m : gmap bytes TxAddresses)
    : gmap bytes TxAddresses * gmap bytes TxAddresses :=
  if all then (∅, m)
  else
    let spent := filter (fun e => completelySpent e.2 = true) m in
    let rest := filter (fun e => completelySpent e.2 = false) m in
    if Z.of_nat (size spent) <? partialStoreAddresses then moveSome partialStoreAddresses order rest spent
    else (rest, spent).

Definition splitMap {Key A} `{Countable Key} (limit : Z) (all : bool) (order : list Key) (m : gmap Key A)
    : gmap Key A * gmap Key A :=
  if all then (∅, m) else moveSome limit order m ∅.

Definition parallelStoreTxAddresses (all : bool) (order : list bytes) s : result (BulkSystem K W) :=
  let b := bk_bulk s in
  let '(rest, txm) := splitTxAddresses all order (b_txAddressesMap b) in
  let! d := WriteBatch (storeTxAddresses [] txm) (bk_db s) in
  Ok (mkBulkSystem K W d (bk_cache s) (b_with_txAddresses rest b)).

Definition parallelStoreBalances (all : bool) (order : list bytes) s : result (BulkSystem K W) :=
  let b := bk_bulk s in
  let '(rest, bal) := splitMap partialStoreBalances all order (b_balances b) in
  let! d := WriteBatch (storeBalances [] (Some <$> bal)) (bk_db s) in
  Ok (mkBulkSystem K W d (bk_cache s) (b_with_balances rest b)).

Definition parallelStoreAssets (all : bool) (order : list Z) s : result (BulkSystem K W) :=
  let b := bk_bulk s in
  match b_assets b with
  | None => Ok s
  | Some m =>
      let '(rest, assets) := splitMap partialStoreAssets all order m in
      let! '(wb, ast) := storeAssets (map_to_list assets) [] (mkAssetState (Some assets) None ∅ (bk_cache s)) in
      let! d := WriteBatch wb (bk_db s) in
      Ok (mkBulkSystem K W d (ast_cache ast) (b_with_assets (Some rest) b))
  end.

Definition parallelStoreTxAssets (all : bool) (order : list bytes) s : result (BulkSystem K W) :=
  let b := bk_bulk s in
  match b_txAssets b with
  | None => Ok s
  | Some m =>
      let '(rest, part) := splitMap partialStoreTxAssets all order m in
      let! wb := storeTxAssets [] (mkAssetState None (Some part) ∅ (bk_cache s)) in
      let! d := WriteBatch wb (bk_db s) in
      Ok (mkBulkSystem K W d (bk_cache s) (b_with_txAssets (Some rest) b))
  end.

(** The rows of the blocks. *)
Definition storeBulkAddresses (wb : list BatchOp) b : result (list BatchOp * BulkConnect W) :=
  let! wb := rfold (fun wb ba =>
                      let wb := storeAddresses wb (bi_Height ba.1) ba.2 in
                      let! '(wb, _) := writeHeight wb (bi_Height ba.1) ba.1 opInsert in
                      Ok wb) (b_bulkAddresses b) wb in
  Ok (wb, b_with_addresses [] 0 b).

Definition storeBulkBlockFilters (wb : list BatchOp) b : result (list BatchOp * BulkConnect W) :=
  let! wb := rfold (fun wb e => storeBlockFilter wb e.1 e.2) (map_to_list (b_blockFilters b)) wb in
  Ok (wb, b_with_filters ∅ b).

(** ** One block *)

Definition addBitcoinStats (block : Block) b : BulkConnect W :=
  let s := b_bulkStats b in
  b_with_stats (mkBulkStats (u64 (bs_blocks s + 1)) (u64 (bs_txs s + zlen (blk_Txs block)))
    (foldl (fun n tx => u64 (n + zlen (tx_Vin tx))) (bs_vin s) (blk_Txs block))
    (foldl (fun n tx => u64 (n + zlen (tx_Vout tx))) (bs_vout s) (blk_Txs block))) b.

(** The maps of the bulk connect, as [processAddressesBitcoinType] gets them. *)
Definition bulkState (gf : option GolombFilter) s : ConnState W :=
  let b := bk_bulk s in
  mkConnState W ∅ (b_txAddressesMap b) (b_balances b) gf
    (mkAssetState (b_assets b) (b_txAssets b) ∅ (bk_cache s)).

(** The maps after a block was processed. *)
Definition bulkUpdate (st : ConnState W) s : BulkSystem K W :=
  let ast := cs_assets st in
  let b := bk_bulk s in
  mkBulkSystem K W (bk_db s) (ast_cache ast)
    (mkBulk W (b_bulkAddresses b) (b_bulkAddressesCount b) (cs_txAddresses st) (b_blockFilters b) (cs_balances st)
       (ast_assets ast) (ast_txAssets ast) (b_height b) (b_bulkStats b)).

(** The block is kept until its rows are written. *)
Definition bulkAppend (block : Block) (st : ConnState W) b : BulkConnect W :=
  let bi := mkBlockInfo (blk_Hash block) (blk_Time block) (u32 (zlen (blk_Txs block))) (u32 (blk_Size block)) (blk_Height block) in
  let b := b_with_addresses (b_bulkAddresses b ++ [(bi, cs_addresses st)])
             (b_bulkAddressesCount b + Z.of_nat (size (cs_addresses st))) b in
  match cs_gf st with
  | None => b
  | Some gf =>
      b_with_filters (<[blk_Hash block := (Compute (map_to_list (gf_allAddressDescriptors gf)) gf).2]> (b_blockFilters b)) b
  end.

Definition lenOpt {Key A} `{Countable Key} (m : option (gmap Key A)) : Z := Z.of_nat (size (default ∅ m)).

(** The batch of the rows of the blocks, written only when there is something to write. *)
Definition storeBlocks (sa storeBlockTxs : bool) (block : Block) s : result (BulkSystem K W) :=
  let d := bk_db s in
  let b := bk_bulk s in
  let many := sa || (maxBulkAddresses <? b_bulkAddressesCount b) in
  let filters := maxBlockFilters <? Z.of_nat (size (b_blockFilters b)) in
  if many || storeBlockTxs || filters then
    let! '(wb, b) := (if many then storeBulkAddresses [] b else Ok ([], b)) in
    let! wb := (if storeBlockTxs then storeAndCleanupBlockTxs d wb block else Ok wb) in
    let! '(wb, b) := (if filters then storeBulkBlockFilters wb b else Ok (wb, b)) in
    let! d := WriteBatch wb d in
    let b := if b_bulkAddressesCount b <? b_bulkAddressesCount (bk_bulk s) then b_with_stats noStats b else b in
    Ok (mkBulkSystem K W d (bk_cache s) b)
  else Ok s.

Definition connectBlockBitcoinType (block : Block) (storeBlockTxs : bool) (order : StoreOrder) s
    : result (BulkSystem K W) :=
  let s := bk_with_bulk (addBitcoinStats block (bk_bulk s)) s in
  let! st := processAddressesBitcoinType (bk_db s) block (bulkState (blockGolombFilter block) s) in
  let s := bulkUpdate st s in
  let b := bk_bulk s in
  let txs := Z.of_nat (size (b_txAddressesMap b)) in
  let bals := Z.of_nat (size (b_balances b)) in
  let assets := lenOpt (b_assets b) in
  let txAssets := lenOpt (b_txAssets b) in
  let sa := (maxBulkTxAddresses <? txs) || (maxBulkBalances <? bals) || (maxBulkAssets <? assets) ||
            (maxBulkTxAssets <? txAssets) in
  let s := bk_with_bulk (bulkAppend block st b) s in
  let! s := storeBlocks sa storeBlockTxs block s in
  let! s := (if sa && (maxBulkTxAddresses <? txs + partialStoreAddresses)
             then parallelStoreTxAddresses false (so_txAddresses order) s else Ok s) in
  let! s := (if sa && (maxBulkBalances <? bals + partialStoreBalances)
             then parallelStoreBalances false (so_balances order) s else Ok s) in
  let! s := (if sa && (maxBulkAssets <? assets + partialStoreAssets)
             then parallelStoreAssets false (so_assets order) s else Ok s) in
  if sa && (maxBulkTxAssets <? txAssets + partialStoreTxAssets)
  then parallelStoreTxAssets false (so_txAssets order) s else Ok s.

Definition Bulk_ConnectBlock (block : Block) (storeBlockTxs : bool) (order : StoreOrder) s : result (BulkSystem K W) :=
  connectBlockBitcoinType block storeBlockTxs order (bk_with_bulk (b_with_height (blk_Height block) (bk_bulk s)) s).

(** ** The end *)

Definition Close s : result (BulkSystem K W * DbState) :=
  let! s :=
    (let! '(wb, b) := storeBulkAddresses [] (bk_bulk s) in
     let! '(wb, b) := storeBulkBlockFilters wb b in
     let! d := WriteBatch wb (bk_db s) in
     Ok (mkBulkSystem K W d (bk_cache s) (b_with_stats noStats b))) in
  let! s := parallelStoreTxAddresses true [] s in
  let! s := parallelStoreBalances true [] s in
  let! s := (if supportsSyscoinAssets then parallelStoreAssets true [] s else Ok s) in
  let! s := (if supportsSyscoinAssets then parallelStoreTxAssets true [] s else Ok s) in
  let! state := SetInconsistentState (bk_db s) false in
  Ok (mkBulkSystem K W (bk_db s) (bk_cache s) (mkBulk W [] 0 ∅ ∅ ∅ None None (b_height (bk_bulk s)) noStats), state).

(** A bulk connect of a sequence of blocks, as [writeBlockWorker] of [BulkConnectBlocks] runs
    it: the undo data of the last [keep] blocks is stored. A block that is out of order or
    cannot be connected ends the process ([glog.Fatal]). *)
Definition storesBlockTxs (higher : Z) (block : Block) : bool := higher <? u32 (blk_Height block + u32 KeepBlockAddresses).

Fixpoint bulkBlocks (higher lastBlock : Z) (blocks : list (Block * StoreOrder)) s : result (BulkSystem K W) :=
  match blocks with
  | [] => Ok s
  | e :: blocks =>
      if negb (blk_Height e.1 =? u32 (lastBlock + 1)) then Panic
      else
        match Bulk_ConnectBlock e.1 (storesBlockTxs higher e.1) e.2 s with
        | Ok s => bulkBlocks higher (blk_Height e.1) blocks s
        | _ => Panic
        end
  end.

Definition writeBlockWorker d (cache : option (gmap Z (Asset W))) (lower higher : Z) (blocks : list (Block * StoreOrder))
    : result (BulkSystem K W * DbState) :=
  let! '(b, _) := InitBulkConnect d in
  let! s := bulkBlocks higher (u32 (lower - 1)) blocks (mkBulkSystem K W d cache b) in
  Close s.

End Bulk.
