(* ===== verification/BulkCorrect.v ===== *)
(** Bulk connecting keeps the ledger: the rows in memory over the rows in the database form a
    ledger after every block, whatever part of the maps was written in between, and [Close]
    leaves a database with the ledger and the rows of all connected blocks. *)

From S2P Require Import Prelude Codec Parser Golomb TxAddr Balance IndexCodec Store Scan Assets Connect Ledger ConnectCorrect ConnectIndex BlockRows ConnectStore Chain Bulk.

Local Open Scope Z_scope.

(** ** Parts of a map *)

(** Every entry is in exactly one of the two parts. *)
Definition splits {Key A} `{Countable Key} (m rest part : gmap Key A) : Prop :=
  forall k, (part !! k = m !! k /\ rest !! k = None) \/ (part !! k = None /\ rest !! k = m !! k).

Lemma moveSome_splits {Key A} `{Countable Key} limit order (m rest part : gmap Key A) :
  splits m rest part -> let '(rest', part') := moveSome limit order rest part in splits m rest' part'.
Proof.
  revert rest part. induction order as [|k order IH]; intros rest part Hs; cbn [moveSome]; [done|].
  destruct (rest !! k) as [x|] eqn:Ek; [|by apply IH].
  assert (splits m (delete k rest) (<[k := x]> part)) as Hs'.
  { intros k'. destruct (decide (k = k')) as [<-|Hne].
    - left. rewrite lookup_insert_eq, lookup_delete_eq. destruct (Hs k) as [[_ Hn]|[_ Hn]]; [congruence|].
      by rewrite <- Hn.
    - rewrite lookup_insert_ne, lookup_delete_ne by done. apply Hs. }
  destruct (limit <=? _); [done|by apply IH].
Qed.

Lemma splits_all {Key A} `{Countable Key} (m : gmap Key A) : splits m ∅ m.
Proof. intros k. left. by rewrite lookup_empty. Qed.

Lemma splits_none {Key A} `{Countable Key} (m : gmap Key A) : splits m m ∅.
Proof. intros k. right. by rewrite lookup_empty. Qed.

Lemma splitMap_splits {Key A} `{Countable Key} limit all order (m : gmap Key A) :
  let '(rest, part) := splitMap limit all order m in splits m rest part.
Proof. unfold splitMap. destruct all; [apply splits_all|]. apply moveSome_splits, splits_none. Qed.

Lemma splitTxAddresses_splits `{BulkLimits} all order m :
  let '(rest, part) := splitTxAddresses all order m in splits m rest part.
Proof.
  unfold splitTxAddresses. destruct all; [apply splits_all|].
  assert (splits m (filter (fun e => completelySpent e.2 = false) m) (filter (fun e => completelySpent e.2 = true) m)) as Hs.
  { intros k. rewrite !map_lookup_filter. destruct (m !! k) as [ta|]; cbn; [|by left].
    destruct (completelySpent ta); [left|right]; done. }
  destruct (_ <? _); [by apply moveSome_splits|done].
Qed.

Lemma splits_sub {Key A} `{Countable Key} (Q : Key -> A -> Prop) (m rest part : gmap Key A) :
  splits m rest part -> map_Forall Q m -> map_Forall Q rest /\ map_Forall Q part.
Proof.
  intros Hs HQ. split; intros k x Hk; apply HQ; destruct (Hs k) as [[H1 H2]|[H1 H2]]; congruence.
Qed.

Section BulkCorrect.
Context {V : Vlq} {VL : VlqLaws V} {P : ChainParser} {IX : IndexOpts} {K : KV} {KL : KVLaws K}
  {W : AssetWire} {WL : AssetWireLaws W} {E : AssetEnv W} {G : Gcs} {FO : FilterOpts} {BL : BulkLimits}.
Context (HP : 0 <= PackedTxidLen).
Implicit Types (d : DB K) (st : ConnState W) (b : BulkConnect W) (s : BulkSystem K W) (wb : list BatchOp).

(** ** Columns that a batch does not touch *)

Definition same_column d d' (cf : CF) : Prop := forall k, GetCF d' cf k = GetCF d cf k.

Lemma WriteBatch_fields wb d d' :
  WriteBatch wb d = Ok d' -> db_wfault d' = db_wfault d /\ forall cf k, db_rfault d' cf k = db_rfault d cf k.
Proof. unfold WriteBatch. destruct (db_wfault d) eqn:Ef; [done|]. by intros [= <-]. Qed.

Lemma WriteBatch_total wb d : db_wfault d = false -> exists d', WriteBatch wb d = Ok d'.
Proof. unfold WriteBatch. intros ->. by eexists. Qed.

Lemma same_column_batch wb d d' cfs cf :
  WriteBatch wb d = Ok d' -> extends cfs [] wb -> cf ∉ cfs -> same_column d d' cf.
Proof.
  intros Hw Hx Hn k. destruct (WriteBatch_fields _ _ _ Hw) as [_ Hr]. destruct (db_rfault d cf k) eqn:Ef.
  - unfold GetCF. by rewrite Hr, Ef.
  - rewrite (GetCF_WriteBatch wb d d' cf k Hw Ef), (batch_get_extends cfs [] wb cf k Hx Hn). cbn.
    unfold GetCF. by rewrite Ef.
Qed.

Definition same_kv d d' (cf : CF) : Prop := forall k, kv_get (db_cf d' cf) k = kv_get (db_cf d cf) k.

Lemma kv_get_WriteBatch wb d d' cf k :
  WriteBatch wb d = Ok d' ->
  kv_get (db_cf d' cf) k = match batch_get cf k wb with Some r => r | None => kv_get (db_cf d cf) k end.
Proof. unfold WriteBatch. destruct (db_wfault d); [done|]. intros [= <-]. cbn. apply kv_get_batch. Qed.

Lemma same_kv_batch wb d d' cfs cf :
  WriteBatch wb d = Ok d' -> extends cfs [] wb -> cf ∉ cfs -> same_kv d d' cf.
Proof.
  intros Hw Hx Hn k. by rewrite (kv_get_WriteBatch wb d d' cf k Hw), (batch_get_extends cfs [] wb cf k Hx Hn).
Qed.

Lemma dbTx_same d d' : same_column d d' cfTxAddresses -> forall t, getTxAddresses d' t = getTxAddresses d t.
Proof. intros H t. unfold getTxAddresses. by rewrite H. Qed.

Lemma dbBal_same d d' : same_column d d' cfAddressBalance ->
  forall a, GetAddrDescBalance d' a addressBalanceDetailUTXOIndexed = GetAddrDescBalance d a addressBalanceDetailUTXOIndexed.
Proof. intros H a. unfold GetAddrDescBalance. by rewrite H. Qed.

Lemma readable_same d d' : same_column d d' cfAssets -> assets_readable d -> assets_readable d'.
Proof. intros H Hd guid buf. rewrite H. apply Hd. Qed.

(** ** The invariant *)

(** The rows in memory over those of the database. *)
Definition sysTx s : bytes -> option TxAddresses := txView (bk_db s) (bulkState None s).
Definition sysBal s : bytes -> AddrBalance := balView (bk_db s) (bulkState None s).

Record bulk_inv s : Prop := {
  bi_reads : reads_ok (bk_db s);
  bi_live : stored_live (bk_db s);
  bi_writes : db_wfault (bk_db s) = false;
  bi_faults cf k : db_rfault (bk_db s) cf k = false;
  bi_ledger : ledger_ok (sysTx s) (sysBal s);
  bi_maps : supportsSyscoinAssets = true -> is_Some (b_assets (bk_bulk s)) /\ is_Some (b_txAssets (bk_bulk s));
}.

(** The maps fit the encodings, no counter overflowed, and there are no assets on chains
    without them. *)
Record bulk_fits b : Prop := {
  bf_txs : map_Forall (fun _ ta => txAddresses_ok ta) (b_txAddressesMap b);
  bf_bals : map_Forall (fun _ ab => balance_ok ab /\ 0 < ab_Txs ab) (b_balances b);
  bf_assets : map_Forall (fun _ a => asset_row_ok a) (default ∅ (b_assets b));
  bf_none : supportsSyscoinAssets = false -> b_assets b = None /\ b_txAssets b = None;
}.

(** A batch on columns outside the ledger keeps the invariant. *)
Lemma bulk_inv_other s d' cfs wb b' :
  bulk_inv s -> WriteBatch wb (bk_db s) = Ok d' -> extends cfs [] wb ->
  cfTxAddresses ∉ cfs -> cfAddressBalance ∉ cfs -> cfAssets ∉ cfs ->
  b_txAddressesMap b' = b_txAddressesMap (bk_bulk s) -> b_balances b' = b_balances (bk_bulk s) ->
  (supportsSyscoinAssets = true -> is_Some (b_assets b') /\ is_Some (b_txAssets b')) ->
  bulk_inv (mkBulkSystem K W d' (bk_cache s) b').
Proof.
  intros [[R1 R2 R3] Hl Hw Hr HL HM] Hb Hx N1 N2 N3 Et Eb Hm.
  pose proof (dbTx_same _ _ (same_column_batch _ _ _ _ _ Hb Hx N1)) as Htx.
  pose proof (dbBal_same _ _ (same_column_batch _ _ _ _ _ Hb Hx N2)) as Hbal.
  destruct (WriteBatch_fields _ _ _ Hb) as [Hwf Hrf].
  constructor; cbn [bk_db bk_bulk].
  - constructor; [intros t; rewrite Htx; apply R1|intros a; rewrite Hbal; apply R2|].
    eapply readable_same; [|exact R3]. by eapply same_column_batch.
  - intros a. unfold dbBal. rewrite Hbal. apply Hl.
  - congruence.
  - intros cf k. by rewrite Hrf.
  - eapply ledger_ok_ext; [| |exact HL]; intros x.
    + unfold sysTx, txView, bulkState, dbTx. cbn. by rewrite Et, Htx.
    + unfold sysBal, balView, bulkState, dbBal. cbn. by rewrite Eb, Hbal.
  - exact Hm.
Qed.

(** ** Writing a part *)

(** The rows of the blocks are left alone, and the rows of the transactions move at most. *)
Definition keeps_index s s' : Prop :=
  b_bulkAddresses (bk_bulk s') = b_bulkAddresses (bk_bulk s) /\
  same_kv (bk_db s) (bk_db s') cfHeight /\ same_kv (bk_db s) (bk_db s') cfAddresses /\
  (forall cf k, db_rfault (bk_db s') cf k = db_rfault (bk_db s) cf k) /\ eqRows (sysTx s) (sysTx s').

Lemma sysTx_same s s' :
  same_column (bk_db s) (bk_db s') cfTxAddresses -> b_txAddressesMap (bk_bulk s') = b_txAddressesMap (bk_bulk s) ->
  eqRows (sysTx s) (sysTx s').
Proof.
  intros Hd Hm t. unfold sysTx, txView, bulkState, dbTx. cbn [cs_txAddresses]. by rewrite Hm, (dbTx_same _ _ Hd).
Qed.

Lemma keeps_index_refl s : keeps_index s s.
Proof. done. Qed.

Lemma keeps_index_trans s1 s2 s3 : keeps_index s1 s2 -> keeps_index s2 s3 -> keeps_index s1 s3.
Proof.
  intros (A1 & B1 & C1 & D1 & E1) (A2 & B2 & C2 & D2 & E2).
  split_and!; [congruence|intros k; by rewrite B2|intros k; by rewrite C2|intros cf k; by rewrite D2|by etransitivity].
Qed.

Lemma flushTxAddresses_ok all order s :
  bulk_inv s -> bulk_fits (bk_bulk s) ->
  exists s', parallelStoreTxAddresses all order s = Ok s' /\ bulk_inv s' /\ bulk_fits (bk_bulk s') /\ keeps_index s s' /\
    (all = true -> b_txAddressesMap (bk_bulk s') = ∅) /\
    b_balances (bk_bulk s') = b_balances (bk_bulk s).
Proof.
  intros [[R1 R2 R3] Hl Hw Hr HL HM] [F1 F2 F3 F4]. unfold parallelStoreTxAddresses.
  pose proof (splitTxAddresses_splits all order (b_txAddressesMap (bk_bulk s))) as Hs.
  assert (all = true -> (splitTxAddresses all order (b_txAddressesMap (bk_bulk s))).1 = ∅) as Hall by (intros ->; done).
  destruct (splitTxAddresses _ _ _) as [rest part]. cbn [fst] in Hall.
  destruct (splits_sub _ _ _ _ Hs F1) as [F1' F1p].
  destruct (WriteBatch_total (storeTxAddresses [] part) (bk_db s) Hw) as [d' Hb]. rewrite Hb. cbn [rbind].
  pose proof (extends_storeTxAddresses [] part) as Hx.
  assert (forall cf, cf ∉ [cfTxAddresses] -> same_column (bk_db s) d' cf) as Hsame by (intros; by eapply same_column_batch).
  pose proof (dbBal_same _ _ (Hsame cfAddressBalance ltac:(set_solver))) as Hbal.
  assert (forall t, getTxAddresses d' t = match part !! t with
            | Some ta => Ok (Some (keptTxAddresses ta)) | None => getTxAddresses (bk_db s) t end) as Htx.
  { intros t. apply (getTxAddresses_batch (bk_db s) d' (storeTxAddresses [] part)); [by constructor|done| |done].
    rewrite batch_get_storeTxAddresses. by destruct (part !! t). }
  destruct (WriteBatch_fields _ _ _ Hb) as [Hwf Hrf].
  set (s' := mkBulkSystem K W d' (bk_cache s) (b_with_txAddresses rest (bk_bulk s))).
  assert (eqRows (sysTx s) (sysTx s')) as Heq.
  { intros t. unfold sysTx, txView, bulkState, dbTx. cbn [bk_db bk_bulk cs_txAddresses s' b_with_txAddresses b_txAddressesMap]. rewrite Htx.
    destruct (Hs t) as [[E1 E2]|[E1 E2]]; rewrite E1, E2; [|by destruct (b_txAddressesMap (bk_bulk s) !! t)].
    destruct (b_txAddressesMap (bk_bulk s) !! t) as [ta|]; [|done]. apply (f_equal Some). symmetry. apply keptTxAddresses_idem. }
  assert (same_rows (sysTx s) (sysTx s')) as Hrows.
  { intros t. unfold sysTx, txView, bulkState, dbTx. cbn. rewrite Htx.
    pose proof (ledger_values _ _ HL t) as HV. unfold sysTx, txView, bulkState in HV. cbn in HV.
    destruct (Hs t) as [[E1 E2]|[E1 E2]]; rewrite E1, E2; [|by destruct (b_txAddressesMap (bk_bulk s) !! t)].
    destruct (b_txAddressesMap (bk_bulk s) !! t) as [ta|]; [|done]. cbn. f_equal. symmetry. apply keptRow_core. by apply HV. }
  exists s'. split; [reflexivity|]. split; [|split; [|split; [|split]]]; cbn.
  - constructor; cbn.
    + constructor; [|intros a; rewrite Hbal; apply R2|eapply readable_same; [apply Hsame; set_solver|exact R3]].
      intros t. rewrite Htx. destruct (part !! t); [by eexists|apply R1].
    + intros a. unfold dbBal. rewrite Hbal. apply Hl.
    + congruence.
    + intros cf k. by rewrite Hrf.
    + apply (ledger_same_rows (sysTx s)); [exact Hrows|].
      eapply ledger_ok_ext; [| |exact HL]; [done|]. intros a. unfold sysBal, balView, bulkState, dbBal. cbn. by rewrite Hbal.
    + exact HM.
  - constructor; cbn; done.
  - split_and!; [done|eapply same_kv_batch; [done|done|set_solver]..|done|exact Heq].
  - exact Hall.
  - done.
Qed.

Lemma flushBalances_ok all order s :
  bulk_inv s -> bulk_fits (bk_bulk s) ->
  exists s', parallelStoreBalances all order s = Ok s' /\ bulk_inv s' /\ bulk_fits (bk_bulk s') /\ keeps_index s s' /\
    (all = true -> b_balances (bk_bulk s') = ∅) /\
    b_txAddressesMap (bk_bulk s') = b_txAddressesMap (bk_bulk s).
Proof.
  intros [[R1 R2 R3] Hl Hw Hr HL HM] [F1 F2 F3 F4]. unfold parallelStoreBalances.
  pose proof (splitMap_splits partialStoreBalances all order (b_balances (bk_bulk s))) as Hs.
  assert (all = true -> (splitMap partialStoreBalances all order (b_balances (bk_bulk s))).1 = ∅) as Hall by (intros ->; done).
  destruct (splitMap _ _ _ _) as [rest part]. cbn [fst] in Hall.
  destruct (splits_sub _ _ _ _ Hs F2) as [F2' F2p].
  destruct (WriteBatch_total (storeBalances [] (Some <$> part)) (bk_db s) Hw) as [d' Hb]. rewrite Hb. cbn [rbind].
  pose proof (extends_storeBalances [] (Some <$> part)) as Hx.
  assert (forall cf, cf ∉ [cfAddressBalance] -> same_column (bk_db s) d' cf) as Hsame by (intros; by eapply same_column_batch).
  pose proof (dbTx_same _ _ (Hsame cfTxAddresses ltac:(set_solver))) as Htx.
  assert (forall a, GetAddrDescBalance d' a addressBalanceDetailUTXOIndexed = match part !! a with
            | Some ab => Ok (Some (keptBalance addressBalanceDetailUTXOIndexed ab))
            | None => GetAddrDescBalance (bk_db s) a addressBalanceDetailUTXOIndexed end) as Hbal.
  { intros a. apply (GetAddrDescBalance_batch (bk_db s) d' (storeBalances [] (Some <$> part))); [by constructor|done|done| |].
    - rewrite batch_get_storeBalances, lookup_fmap. by destruct (part !! a).
    - intros ab Hab. by apply (F2p _ _ Hab). }
  destruct (WriteBatch_fields _ _ _ Hb) as [Hwf Hrf].
  eexists. split; [reflexivity|]. split; [|split; [|split; [|split]]]; cbn.
  - constructor; cbn.
    + constructor; [intros t; rewrite Htx; apply R1| |eapply readable_same; [apply Hsame; set_solver|exact R3]].
      intros a. rewrite Hbal. destruct (part !! a); [by eexists|apply R2].
    + intros a. unfold dbBal. rewrite Hbal. destruct (part !! a); [apply kept_stored_live|apply Hl].
    + congruence.
    + intros cf k. by rewrite Hrf.
    + assert (forall t, sysTx s t = txView d' (bulkState None (mkBulkSystem K W d' (bk_cache s) (b_with_balances rest (bk_bulk s)))) t) as Hview
        by (intros t; unfold sysTx, txView, bulkState, dbTx; cbn; by rewrite Htx).
      destruct HL as [HL HV]. eapply ledger_ok_ext; [exact Hview|done|]. constructor; [|done].
      intros a Ha Hia. specialize (HL a Ha Hia). unfold sysBal, balView, bulkState, dbBal in HL |- *. cbn in HL |- *.
      rewrite Hbal. destruct (Hs a) as [[E1 E2]|[E1 E2]]; rewrite E1, E2; [|by destruct (b_balances (bk_bulk s) !! a)].
      destruct (b_balances (bk_bulk s) !! a) as [ab|]; [by apply keptBalance_addr_ok|done].
    + exact HM.
  - constructor; cbn; done.
  - split_and!; [done|eapply same_kv_batch; [done|done|set_solver]..|done|].
    by apply sysTx_same; [apply Hsame; set_solver|].
  - exact Hall.
  - done.
Qed.

Lemma flushAssets_ok all order s :
  supportsSyscoinAssets = true -> hasAssetParser = true -> (forall o : AssetObj, exists x, ao_Serialize o = Ok x) ->
  bulk_inv s -> bulk_fits (bk_bulk s) ->
  exists s', parallelStoreAssets all order s = Ok s' /\ bulk_inv s' /\ bulk_fits (bk_bulk s') /\ keeps_index s s' /\
    b_txAddressesMap (bk_bulk s') = b_txAddressesMap (bk_bulk s) /\ b_balances (bk_bulk s') = b_balances (bk_bulk s).
Proof.
  intros Hsup Hh Hser Hinv [F1 F2 F3 F4]. pose proof Hinv as [[R1 R2 R3] Hl Hw Hr HL HM].
  unfold parallelStoreAssets. destruct (HM Hsup) as [[m Hm] Htxa]. rewrite Hm in *. cbn in F3.
  pose proof (splitMap_splits partialStoreAssets all order m) as Hs.
  destruct (splitMap _ _ _ _) as [rest part]. destruct (splits_sub _ _ _ _ Hs F3) as [F3' F3p].
  destruct (storeAssets_ok (map_to_list part) [] (mkAssetState (Some part) None ∅ (bk_cache s)) Hh Hser)
    as (ops & ast & -> & _ & Hops); [by eexists| |].
  { apply Forall_forall. intros [g a] Hin%elem_of_map_to_list. by apply F3p in Hin. }
  cbn [rbind app]. destruct (WriteBatch_total ops (bk_db s) Hw) as [d' Hb]. rewrite Hb. cbn [rbind].
  assert (extends [cfAssets] [] ops) as Hx.
  { apply (extends_app _ []). eapply Forall_impl; [exact Hops|]. intros op [-> _]. left. }
  assert (forall cf, cf ∉ [cfAssets] -> same_column (bk_db s) d' cf) as Hsame by (intros; by eapply same_column_batch).
  pose proof (dbTx_same _ _ (Hsame cfTxAddresses ltac:(set_solver))) as Htx.
  pose proof (dbBal_same _ _ (Hsame cfAddressBalance ltac:(set_solver))) as Hbal.
  destruct (WriteBatch_fields _ _ _ Hb) as [Hwf Hrf].
  eexists. split; [reflexivity|]. split; [|split; [|split; [|split]]]; cbn.
  - constructor; cbn.
    + constructor; [intros t; rewrite Htx; apply R1|intros a; rewrite Hbal; apply R2|].
      eapply assets_readable_after; [exact R3|exact Hb|]. intros k v.
      apply (batch_get_Forall (fun v => UnpackAsset v <> Panic)). eapply Forall_impl; [exact Hops|]. by intros op [_ ?].
    + intros a. unfold dbBal. rewrite Hbal. apply Hl.
    + congruence.
    + intros cf k. by rewrite Hrf.
    + eapply ledger_ok_ext; [| |exact HL]; intros x.
      * unfold sysTx, txView, bulkState, dbTx. cbn. by rewrite Htx.
      * unfold sysBal, balView, bulkState, dbBal. cbn. by rewrite Hbal.
    + intros _. by split; [eexists|].
  - constructor; cbn; try done. intros; congruence.
  - split_and!; [done|eapply same_kv_batch; [done|done|set_solver]..|done|].
    by apply sysTx_same; [apply Hsame; set_solver|].
  - done.
  - done.
Qed.

Lemma flushTxAssets_ok all order s :
  supportsSyscoinAssets = true -> hasAssetParser = true -> bulk_inv s -> bulk_fits (bk_bulk s) ->
  exists s', parallelStoreTxAssets all order s = Ok s' /\ bulk_inv s' /\ bulk_fits (bk_bulk s') /\ keeps_index s s' /\
    b_txAddressesMap (bk_bulk s') = b_txAddressesMap (bk_bulk s) /\ b_balances (bk_bulk s') = b_balances (bk_bulk s).
Proof.
  intros Hsup Hh Hinv [F1 F2 F3 F4]. unfold parallelStoreTxAssets.
  destruct (bi_maps _ Hinv Hsup) as [Ha [m Hm]]. rewrite Hm.
  destruct (splitMap _ _ _ _) as [rest part].
  destruct (storeTxAssets_ok [] (mkAssetState None (Some part) ∅ (bk_cache s)) Hh) as (wb & -> & Hx). cbn [rbind].
  destruct (WriteBatch_total wb (bk_db s) (bi_writes _ Hinv)) as [d' Hb]. rewrite Hb. cbn [rbind].
  eexists. split; [reflexivity|]. split; [|split; [|split; [|split]]]; cbn.
  - eapply (bulk_inv_other s d' [cfTxAssets]); [done|done|done|set_solver..|done|done|]. intros _. by split; [|eexists].
  - constructor; cbn; try done. intros; congruence.
  - split_and!; [done|eapply same_kv_batch; [done|done|set_solver]..| |].
    + by destruct (WriteBatch_fields _ _ _ Hb).
    + apply sysTx_same; [|done]. eapply same_column_batch; [done|done|set_solver].
  - done.
  - done.
Qed.

(** ** The rows of the blocks *)

Definition heightsOf (l : list (BlockInfo * gmap bytes (list txIndexes))) : list Z := map (fun e => bi_Height e.1) l.

(** The blocks can be encoded, and have distinct heights. *)
Definition blocks_ok (l : list (BlockInfo * gmap bytes (list txIndexes))) : Prop :=
  Forall (fun e => is_u32 (bi_Height e.1) /\ exists val, packBlockInfo e.1 = Ok val) l /\ NoDup (heightsOf l).

Lemma packAddressKey_height a a' h h' :
  is_u32 h -> is_u32 h' -> packAddressKey a h = packAddressKey a' h' -> h = h'.
Proof.
  intros Hh Hh' Ep. unfold packAddressKey in Ep. apply app_inj_2 in Ep as [_ Ep]; [|done].
  apply packUint_inj in Ep; [|by apply not32_range..]. rewrite !not32_sub in Ep by done. lia.
Qed.

Lemma storeAddresses_other wb h am a h' :
  is_u32 h -> is_u32 h' -> h <> h' ->
  batch_get cfAddresses (packAddressKey a h') (storeAddresses wb h am) = batch_get cfAddresses (packAddressKey a h') wb.
Proof.
  intros Hh Hh' Hne. unfold storeAddresses. rewrite batch_get_app, batch_get_other; [done|].
  apply Forall_fmap, Forall_forall. intros [a' l] _. cbn. right. intros Ep. by apply packAddressKey_height in Ep.
Qed.

(** What a batch leaves for the rows of a block. *)
Definition row_in_batch wb (e : BlockInfo * gmap bytes (list txIndexes)) : Prop :=
  (exists val, packBlockInfo e.1 = Ok val /\ batch_get cfHeight (packUint (bi_Height e.1)) wb = Some (Some val)) /\
  forall a l, e.2 !! a = Some l -> batch_get cfAddresses (packAddressKey a (bi_Height e.1)) wb = Some (Some (packTxIndexes l)).

(** The batch leaves the rows of a height as they were. *)
Definition same_at wb wb' (h : Z) : Prop :=
  batch_get cfHeight (packUint h) wb' = batch_get cfHeight (packUint h) wb /\
  forall a, batch_get cfAddresses (packAddressKey a h) wb' = batch_get cfAddresses (packAddressKey a h) wb.

Lemma row_in_batch_same wb wb' e : same_at wb wb' (bi_Height e.1) -> row_in_batch wb e -> row_in_batch wb' e.
Proof.
  intros [H1 H2] [(val & Hv & Hb) Ha]. split; [exists val; by rewrite H1|]. intros a l Hl. rewrite H2. by apply Ha.
Qed.

Definition storeOne wb (ba : BlockInfo * gmap bytes (list txIndexes)) : result (list BatchOp) :=
  let wb := storeAddresses wb (bi_Height ba.1) ba.2 in
  let! '(wb, _) := writeHeight wb (bi_Height ba.1) ba.1 opInsert in
  Ok wb.

Lemma storeOne_ok wb e :
  is_u32 (bi_Height e.1) -> (exists val, packBlockInfo e.1 = Ok val) ->
  exists wb', storeOne wb e = Ok wb' /\ extends [cfAddresses; cfHeight] wb wb' /\ row_in_batch wb' e /\
    forall h, is_u32 h -> h <> bi_Height e.1 -> same_at wb wb' h.
Proof.
  intros Hu [val Hv]. unfold storeOne, writeHeight. rewrite Hv. cbn [rbind]. eexists. split; [reflexivity|].
  assert (forall cf k, cf <> cfHeight \/ packUint (bi_Height e.1) <> k ->
            batch_get cf k [PutCF cfHeight (packUint (bi_Height e.1)) val] = None) as Hother.
  { intros cf k Hk. cbn [batch_get op_cf op_key op_val]. rewrite decide_False; [done|]. intros [<- <-]. by destruct Hk. }
  split_and!.
  - unfold storeAddresses. rewrite <- app_assoc. apply extends_app, Forall_app. split; [|by repeat constructor].
    apply Forall_fmap, Forall_forall. intros x _. left.
  - split.
    + exists val. split; [done|]. rewrite batch_get_app. cbn [batch_get op_cf op_key op_val]. by rewrite decide_True.
    + intros a l Hl. rewrite batch_get_app, Hother by (by left). by rewrite batch_get_storeAddresses, Hl.
  - intros h Hh Hne. split; [|intros a].
    + rewrite batch_get_app, Hother.
      * apply (batch_get_extends [cfAddresses]); [apply extends_storeAddresses|set_solver].
      * right. intros Ep. apply packUint_inj in Ep; [congruence|done|done].
    + rewrite batch_get_app, Hother by (by left). by apply storeAddresses_other.
Qed.

Lemma storeAll_ok l wb :
  blocks_ok l ->
  exists wb', rfold storeOne l wb = Ok wb' /\ extends [cfAddresses; cfHeight] wb wb' /\ Forall (row_in_batch wb') l /\
    forall h, is_u32 h -> h ∉ heightsOf l -> same_at wb wb' h.
Proof.
  revert wb. induction l as [|e l IH]; intros wb [Hl Hn]; cbn [rfold].
  - exists wb. split; [done|]. split; [apply extends_refl|]. by split.
  - apply Forall_cons in Hl as [[Hu Hv] Hl]. cbn in Hn. apply NoDup_cons in Hn as [Hne Hn].
    destruct (storeOne_ok wb e Hu Hv) as (wb1 & -> & E1 & R1 & S1). cbn [rbind].
    destruct (IH wb1 (conj Hl Hn)) as (wb2 & -> & E2 & R2 & S2). exists wb2. split; [done|].
    split; [by eapply extends_trans|]. split.
    + constructor; [|done]. eapply row_in_batch_same; [|exact R1]. by apply S2.
    + intros h Hh Hin. cbn in Hin. apply not_elem_of_cons in Hin as [Hhe Hin].
      destruct (S1 h Hh Hhe) as [A1 A2], (S2 h Hh Hin) as [B1 B2]. split; [congruence|]. intros a. by rewrite B2.
Qed.

(** The rows of a block in the database. *)
Definition block_row d (e : BlockInfo * gmap bytes (list txIndexes)) : Prop :=
  (exists val, packBlockInfo e.1 = Ok val /\ kv_get (db_cf d cfHeight) (packUint (bi_Height e.1)) = Some val) /\
  forall a l, e.2 !! a = Some l -> kv_get (db_cf d cfAddresses) (packAddressKey a (bi_Height e.1)) = Some (packTxIndexes l).

Lemma block_row_written wb d d' e : WriteBatch wb d = Ok d' -> row_in_batch wb e -> block_row d' e.
Proof.
  intros Hw [(val & Hv & Hb) Ha]. split.
  - exists val. split; [done|]. by rewrite (kv_get_WriteBatch wb d d' _ _ Hw), Hb.
  - intros a l Hl. by rewrite (kv_get_WriteBatch wb d d' _ _ Hw), (Ha a l Hl).
Qed.

Lemma block_row_kept wb d d' e :
  WriteBatch wb d = Ok d' -> same_at [] wb (bi_Height e.1) -> block_row d e -> block_row d' e.
Proof.
  intros Hw [H1 H2] [(val & Hv & Hb) Ha]. split.
  - exists val. split; [done|]. by rewrite (kv_get_WriteBatch wb d d' _ _ Hw), H1.
  - intros a l Hl. rewrite (kv_get_WriteBatch wb d d' _ _ Hw), H2. by apply Ha.
Qed.

(** All blocks so far: those whose rows are written, and those that wait. *)
Definition index_inv s (hist : list (BlockInfo * gmap bytes (list txIndexes))) : Prop :=
  exists stored, hist = stored ++ b_bulkAddresses (bk_bulk s) /\ Forall (block_row (bk_db s)) stored.

Lemma index_inv_keeps s s' hist : keeps_index s s' -> index_inv s hist -> index_inv s' hist.
Proof.
  intros (E1 & H1 & H2 & _) (stored & -> & Hs). exists stored. rewrite E1. split; [done|].
  eapply Forall_impl; [exact Hs|]. intros e [(val & Hv & Hb) Ha].
  split; [exists val; by rewrite H1|]. intros a l Hl. rewrite H2. by apply Ha.
Qed.

(** The filters in memory can be stored. *)
Definition filters_ok b : Prop := map_Forall (fun hash _ => exists x, hex_DecodeString hash = Ok x) (b_blockFilters b).

Lemma extends_mono cfs cfs' wb wb' : cfs ⊆ cfs' -> extends cfs wb wb' -> extends cfs' wb wb'.
Proof. intros Hsub (ops & -> & Hops). apply extends_app. eapply Forall_impl; [exact Hops|]. intros op. apply Hsub. Qed.

Lemma same_at_extends cfs wb wb' h : extends cfs wb wb' -> cfHeight ∉ cfs -> cfAddresses ∉ cfs -> same_at wb wb' h.
Proof. intros Hx N1 N2. split; [|intros a]; by apply (batch_get_extends cfs). Qed.

Lemma same_at_trans wb1 wb2 wb3 h : same_at wb1 wb2 h -> same_at wb2 wb3 h -> same_at wb1 wb3 h.
Proof. intros [A1 A2] [B1 B2]. split; [congruence|]. intros a. by rewrite B2. Qed.

Lemma storeBulkBlockFilters_ok wb b :
  filters_ok b -> exists wb', storeBulkBlockFilters wb b = Ok (wb', b_with_filters ∅ b) /\ extends [cfBlockFilter] wb wb'.
Proof.
  intros Hf. unfold storeBulkBlockFilters.
  assert (forall l wb, Forall (fun e => exists x, hex_DecodeString e.1 = Ok x) l ->
    exists wb', rfold (fun wb (e : bytes * option bytes) => storeBlockFilter wb e.1 e.2) l wb = Ok wb' /\
      extends [cfBlockFilter] wb wb') as Hloop.
  { induction l as [|e l IH]; intros wb0 Hl; cbn [rfold]; [exists wb0; split; [done|apply extends_refl]|].
    apply Forall_cons in Hl as [[x Hx] Hl]. unfold storeBlockFilter at 1. rewrite Hx. cbn [rbind].
    destruct (IH (wb0 ++ [PutCF cfBlockFilter x (default [] e.2)]) Hl) as (wb2 & -> & E2). exists wb2. split; [done|].
    eapply extends_trans; [|exact E2]. apply extends_app. by repeat constructor. }
  destruct (Hloop (map_to_list (b_blockFilters b)) wb) as (wb' & -> & Hx).
  { apply Forall_forall. intros [hash f] Hin%elem_of_map_to_list. by apply Hf in Hin. }
  cbn [rbind]. by exists wb'.
Qed.

(** The first part of a batch of block rows. *)
Lemma storeBulkAddresses_ok (many : bool) b :
  blocks_ok (b_bulkAddresses b) ->
  exists wb b', (if many then storeBulkAddresses [] b else Ok ([], b)) = Ok (wb, b') /\
    extends [cfAddresses; cfHeight] [] wb /\ b_blockFilters b' = b_blockFilters b /\
    b_txAddressesMap b' = b_txAddressesMap b /\ b_balances b' = b_balances b /\ b_assets b' = b_assets b /\
    b_txAssets b' = b_txAssets b /\
    exists moved, b_bulkAddresses b = moved ++ b_bulkAddresses b' /\ Forall (row_in_batch wb) moved /\
      (many = true -> b_bulkAddresses b' = []) /\
      forall h, is_u32 h -> h ∉ heightsOf moved -> same_at [] wb h.
Proof.
  intros Hb. destruct many.
  - unfold storeBulkAddresses. destruct (storeAll_ok (b_bulkAddresses b) [] Hb) as (wb & Hwb & Hx & Hr & Hs).
    change (rfold _ (b_bulkAddresses b) []) with (rfold storeOne (b_bulkAddresses b) []). rewrite Hwb. cbn [rbind].
    exists wb, (b_with_addresses [] 0 b). do 7 (split; [done|]). exists (b_bulkAddresses b). by rewrite app_nil_r.
  - exists [], b. split; [done|]. split; [apply extends_refl|]. do 5 (split; [done|]). exists []. by split_and!.
Qed.

(** The rows that are written stay, and those of the batch are added. *)
Lemma index_inv_batch s wb d' b' moved hist :
  index_inv s hist -> blocks_ok hist -> WriteBatch wb (bk_db s) = Ok d' ->
  b_bulkAddresses (bk_bulk s) = moved ++ b_bulkAddresses b' -> Forall (row_in_batch wb) moved ->
  (forall h, is_u32 h -> h ∉ heightsOf moved -> same_at [] wb h) ->
  index_inv (mkBulkSystem K W d' (bk_cache s) b') hist.
Proof.
  intros (stored & -> & Hs) [Hok Hn] Hw Em Hr Hsame. exists (stored ++ moved). cbn. rewrite Em in *.
  rewrite <- app_assoc. split; [done|]. apply Forall_app. split.
  - rewrite Forall_app in Hok. destruct Hok as [Hok _]. unfold heightsOf in Hn. rewrite map_app, NoDup_app in Hn.
    destruct Hn as (_ & Hdis & _). rewrite Forall_forall in Hs, Hok. apply Forall_forall. intros e He.
    eapply block_row_kept; [exact Hw| |by apply Hs]. apply Hsame; [by apply (Hok e He)|].
    assert (bi_Height e.1 ∈ map (fun e : BlockInfo * gmap bytes (list txIndexes) => bi_Height e.1) stored) as Hin
      by (apply list_elem_of_fmap; eauto).
    specialize (Hdis _ Hin). unfold heightsOf. rewrite map_app in Hdis. intros Hm. apply Hdis, elem_of_app. by left.
  - eapply Forall_impl; [exact Hr|]. intros e He. by eapply block_row_written.
Qed.

(** The batches of block rows: nothing but these rows changes. *)
Definition same_maps s s' : Prop :=
  b_txAddressesMap (bk_bulk s') = b_txAddressesMap (bk_bulk s) /\ b_balances (bk_bulk s') = b_balances (bk_bulk s) /\
  b_assets (bk_bulk s') = b_assets (bk_bulk s) /\ b_txAssets (bk_bulk s') = b_txAssets (bk_bulk s).

Lemma same_maps_fits s s' : same_maps s s' -> bulk_fits (bk_bulk s) -> bulk_fits (bk_bulk s').
Proof. intros (E1 & E2 & E3 & E4) [F1 F2 F3 F4]. constructor; by rewrite ?E1, ?E2, ?E3, ?E4. Qed.

Lemma blocks_ok_pending s hist : index_inv s hist -> blocks_ok hist -> blocks_ok (b_bulkAddresses (bk_bulk s)).
Proof.
  intros (stored & -> & _) [Hok Hn]. rewrite Forall_app in Hok. unfold heightsOf in Hn. rewrite map_app, NoDup_app in Hn.
  split; [apply Hok|apply Hn].
Qed.

Lemma storeBlocks_ok sa storeBlockTxs block s hist :
  bulk_inv s -> index_inv s hist -> blocks_ok hist -> filters_ok (bk_bulk s) ->
  (exists bts, blockTxsOf (blk_Txs block) = Ok bts) ->
  exists s', storeBlocks sa storeBlockTxs block s = Ok s' /\ bulk_inv s' /\ index_inv s' hist /\
    filters_ok (bk_bulk s') /\ same_maps s s' /\ eqRows (sysTx s) (sysTx s').
Proof.
  intros Hinv Hix Hok Hf [bts Hbts]. unfold storeBlocks.
  set (many := sa || _). set (filters := maxBlockFilters <? _).
  destruct (many || storeBlockTxs || filters); [|by exists s].
  destruct (storeBulkAddresses_ok many (bk_bulk s) (blocks_ok_pending _ _ Hix Hok))
    as (wb1 & b1 & -> & X1 & Ef & Et & Eb & Ea & Eta & moved & Em & Hr & _ & Hs). cbn [rbind].
  assert (exists wb2, (if storeBlockTxs then storeAndCleanupBlockTxs (bk_db s) wb1 block else Ok wb1) = Ok wb2 /\
            extends [cfBlockTxs] wb1 wb2) as (wb2 & -> & X2).
  { destruct storeBlockTxs; [|exists wb1; split; [done|apply extends_refl]].
    by apply (storeAndCleanupBlockTxs_ok (bk_db s) wb1 block bts (bi_faults _ Hinv cfBlockTxs)). }
  cbn [rbind].
  assert (exists wb3 b3, (if filters then storeBulkBlockFilters wb2 b1 else Ok (wb2, b1)) = Ok (wb3, b3) /\
            extends [cfBlockFilter] wb2 wb3 /\ filters_ok b3 /\ b_bulkAddresses b3 = b_bulkAddresses b1 /\
            b_txAddressesMap b3 = b_txAddressesMap b1 /\ b_balances b3 = b_balances b1 /\ b_assets b3 = b_assets b1 /\
            b_txAssets b3 = b_txAssets b1) as (wb3 & b3 & -> & X3 & Hf3 & Ep3 & Et3 & Eb3 & Ea3 & Eta3).
  { assert (filters_ok b1) as Hf1 by (unfold filters_ok; by rewrite Ef).
    destruct filters; [|exists wb2, b1; split; [done|]; split; [apply extends_refl|done]].
    destruct (storeBulkBlockFilters_ok wb2 b1 Hf1) as (wb3 & -> & X3). eexists _, _. split; [done|]. split; [done|].
    split; [apply map_Forall_empty|done]. }
  cbn [rbind]. destruct (WriteBatch_total wb3 (bk_db s) (bi_writes _ Hinv)) as [d' Hw]. rewrite Hw. cbn [rbind].
  set (b4 := if b_bulkAddressesCount b3 <? _ then _ else _).
  assert (b_bulkAddresses b4 = b_bulkAddresses b3 /\ b_txAddressesMap b4 = b_txAddressesMap b3 /\ b_balances b4 = b_balances b3 /\
          b_assets b4 = b_assets b3 /\ b_txAssets b4 = b_txAssets b3 /\ b_blockFilters b4 = b_blockFilters b3)
    as (Ep4 & Et4 & Eb4 & Ea4 & Eta4 & Ef4) by (subst b4; by case_match).
  assert (forall h, same_at wb1 wb3 h) as Htail.
  { intros h. eapply same_at_trans; [eapply (same_at_extends [cfBlockTxs])|eapply (same_at_extends [cfBlockFilter])]; done || set_solver. }
  assert (extends [cfAddresses; cfHeight; cfBlockTxs; cfBlockFilter] [] wb3) as Hext.
  { eapply extends_trans; [eapply extends_mono; [|exact X1]; set_solver|].
    eapply extends_trans; [eapply extends_mono; [|exact X2]; set_solver|eapply extends_mono; [|exact X3]; set_solver]. }
  eexists. split; [reflexivity|]. split; [|split; [|split; [|split]]]; cbn.
  - eapply (bulk_inv_other s d' [cfAddresses; cfHeight; cfBlockTxs; cfBlockFilter]); [done|exact Hw|done|set_solver..|congruence|congruence|].
    rewrite Ea4, Ea3, Ea, Eta4, Eta3, Eta. apply Hinv.
  - eapply (index_inv_batch s wb3 d' b4 moved hist); [done|done|exact Hw|congruence| |].
    + eapply Forall_impl; [exact Hr|]. intros e. by apply row_in_batch_same.
    + intros h Hh Hin. eapply same_at_trans; [by apply Hs|apply Htail].
  - unfold filters_ok. by rewrite Ef4.
  - unfold same_maps. cbn. split_and!; congruence.
  - apply sysTx_same; cbn; [|congruence]. eapply same_column_batch; [exact Hw|exact Hext|set_solver].
Qed.

(** ** One block *)

(** The block extends the rows of the system, and what is computed for it fits the encodings. *)
Record bulk_connectable s (block : Block) : Prop := {
  bc_valid : valid_over (sysTx s) block;
  bc_height : is_u32 (blk_Height block);
  bc_hash : exists x, PackBlockHash (blk_Hash block) = Ok x;
  bc_hex : exists x, hex_DecodeString (blk_Hash block) = Ok x;
  bc_fits st : processAddressesBitcoinType (bk_db s) block (bulkState (blockGolombFilter block) s) = Ok st ->
    bulk_fits (bk_bulk (bulkUpdate st s));
}.

(** Assets can be stored where there are any. *)
Context (Hassets : supportsSyscoinAssets = true ->
  hasAssetParser = true /\ forall o : AssetObj, exists x, ao_Serialize o = Ok x).

Record bulk_ok s (hist : list (BlockInfo * gmap bytes (list txIndexes))) : Prop := {
  bo_inv : bulk_inv s;
  bo_fits : bulk_fits (bk_bulk s);
  bo_index : index_inv s hist;
  bo_filters : filters_ok (bk_bulk s);
}.

(** An optional flush of a part. *)
Lemma flush_ok (c : bool) (f : BulkSystem K W -> result (BulkSystem K W)) s hist :
  bulk_ok s hist ->
  (c = true -> forall s, bulk_inv s -> bulk_fits (bk_bulk s) ->
     exists s', f s = Ok s' /\ bulk_inv s' /\ bulk_fits (bk_bulk s') /\ keeps_index s s' /\
       b_blockFilters (bk_bulk s') = b_blockFilters (bk_bulk s)) ->
  exists s', (if c then f s else Ok s) = Ok s' /\ bulk_ok s' hist /\ eqRows (sysTx s) (sysTx s').
Proof.
  intros [H1 H2 H3 H4] Hf. destruct c; [|by exists s].
  destruct (Hf eq_refl s H1 H2) as (s' & -> & I1 & I2 & I3 & I4). exists s'. split; [done|]. split; [|apply I3].
  constructor; [done|done|by eapply index_inv_keeps|]. unfold filters_ok. by rewrite I4.
Qed.

Lemma parallelStore_filters s s' all order :
  (parallelStoreTxAddresses all order s = Ok s' -> b_blockFilters (bk_bulk s') = b_blockFilters (bk_bulk s)) /\
  (parallelStoreBalances all order s = Ok s' -> b_blockFilters (bk_bulk s') = b_blockFilters (bk_bulk s)) /\
  (parallelStoreTxAssets all order s = Ok s' -> b_blockFilters (bk_bulk s') = b_blockFilters (bk_bulk s)).
Proof.
  unfold parallelStoreTxAddresses, parallelStoreBalances, parallelStoreTxAssets. split_and!.
  - destruct (splitTxAddresses _ _ _). intros H. bind_inv H. by injection H as <-.
  - destruct (splitMap _ _ _ _). intros H. bind_inv H. by injection H as <-.
  - destruct (b_txAssets (bk_bulk s)); [|by intros [= <-]]. destruct (splitMap _ _ _ _).
    intros H. do 2 bind_inv H. by injection H as <-.
Qed.

Lemma parallelStoreAssets_filters s s' all order :
  parallelStoreAssets all order s = Ok s' -> b_blockFilters (bk_bulk s') = b_blockFilters (bk_bulk s).
Proof.
  unfold parallelStoreAssets. destruct (b_assets (bk_bulk s)); [|by intros [= <-]]. destruct (splitMap _ _ _ _).
  intros H. bind_inv H. destruct a. bind_inv H. by injection H as <-.
Qed.

(** The four flushes as [flush_ok] wants them. *)
Lemma flushes all (ot ob otx : list bytes) (oa : list Z) s :
  bulk_inv s -> bulk_fits (bk_bulk s) ->
  let good f := exists s', f = Ok s' /\ bulk_inv s' /\ bulk_fits (bk_bulk s') /\ keeps_index s s' /\
                  b_blockFilters (bk_bulk s') = b_blockFilters (bk_bulk s) in
  good (parallelStoreTxAddresses all ot s) /\ good (parallelStoreBalances all ob s) /\
  good (parallelStoreAssets all oa s) /\ good (parallelStoreTxAssets all otx s).
Proof.
  intros Hi Hf good.
  assert (good (Ok s)) as Hs by by exists s.
  split_and!.
  - destruct (flushTxAddresses_ok all ot s Hi Hf) as (s' & H & ? & ? & ? & _). exists s'. split_and!; try done.
    by apply (proj1 (parallelStore_filters s s' all ot)).
  - destruct (flushBalances_ok all ob s Hi Hf) as (s' & H & ? & ? & ? & _). exists s'. split_and!; try done.
    by apply (proj1 (proj2 (parallelStore_filters s s' all ob))).
  - destruct (Bool.bool_dec supportsSyscoinAssets true) as [Hsup|Hsup%Bool.not_true_is_false].
    + destruct (Hassets Hsup) as [Hh Hser].
      destruct (flushAssets_ok all oa s Hsup Hh Hser Hi Hf) as (s' & H & ? & ? & ? & _). exists s'. split_and!; try done.
      by apply (parallelStoreAssets_filters s s' all oa).
    + unfold parallelStoreAssets. by destruct (bf_none _ Hf Hsup) as [-> _].
  - destruct (Bool.bool_dec supportsSyscoinAssets true) as [Hsup|Hsup%Bool.not_true_is_false].
    + destruct (Hassets Hsup) as [Hh Hser].
      destruct (flushTxAssets_ok all otx s Hsup Hh Hi Hf) as (s' & H & ? & ? & ? & _). exists s'. split_and!; try done.
      by apply (proj2 (proj2 (parallelStore_filters s s' all otx))).
    + unfold parallelStoreTxAssets. by destruct (bf_none _ Hf Hsup) as [_ ->].
Qed.

Lemma blocks_ok_snoc hist block am :
  blocks_ok hist -> is_u32 (blk_Height block) -> (exists x, PackBlockHash (blk_Hash block) = Ok x) ->
  blk_Height block ∉ heightsOf hist -> blocks_ok (hist ++ [(blockInfoOf block, am)]).
Proof.
  intros [H1 H2] Hu [x Hx] Hn. split.
  - apply Forall_app. split; [done|]. constructor; [|constructor]. cbn. split; [done|].
    eexists. by apply (packBlockInfo_form (blockInfoOf block) x HP).
  - unfold heightsOf. rewrite map_app. apply NoDup_app. split; [done|]. cbn. split; [|apply NoDup_singleton].
    intros h Hh ->%list_elem_of_singleton. done.
Qed.

(** The system after a block was processed, before anything is written. *)
Definition processed (block : Block) st s : BulkSystem K W :=
  bk_with_bulk (bulkAppend block st (bk_bulk (bulkUpdate st s))) (bulkUpdate st s).

Lemma processed_ok block s st hist :
  bulk_ok s hist -> bulk_connectable s block ->
  processAddressesBitcoinType (bk_db s) block (bulkState (blockGolombFilter block) s) = Ok st ->
  ledger_ok (txView (bk_db s) st) (balView (bk_db s) st) -> assets_ready st ->
  bulk_ok (processed block st s) (hist ++ [(blockInfoOf block, cs_addresses st)]).
Proof.
  intros [Hi Hf Hx Hfl] [Hv Hu Hh [hx Hhx] Hfits] Hst HL Hr. specialize (Hfits st Hst).
  set (s2 := processed block st s).
  assert (b_txAddressesMap (bk_bulk s2) = cs_txAddresses st /\ b_balances (bk_bulk s2) = cs_balances st /\
          b_assets (bk_bulk s2) = ast_assets (cs_assets st) /\ b_txAssets (bk_bulk s2) = ast_txAssets (cs_assets st) /\
          b_bulkAddresses (bk_bulk s2) = b_bulkAddresses (bk_bulk s) ++ [(blockInfoOf block, cs_addresses st)])
    as (Et & Eb & Ea & Eta & Ep) by (unfold s2, processed, bulkAppend; by destruct (cs_gf st)).
  constructor.
  - destruct Hi as [I1 I2 I3 I4 _ _]. constructor; try done.
    + eapply ledger_ok_ext; [| |exact HL]; intros x; unfold sysTx, sysBal, txView, balView, bulkState; cbn [cs_txAddresses cs_balances].
      * by rewrite Et.
      * by rewrite Eb.
    + intros Hsup. rewrite Ea, Eta. by apply Hr.
  - destruct Hfits as [F1 F2 F3 F4]. constructor; rewrite ?Et, ?Eb, ?Ea, ?Eta; done.
  - destruct Hx as (stored & -> & Hs). exists stored. rewrite Ep, app_assoc. done.
  - unfold filters_ok, s2, processed, bulkAppend. destruct (cs_gf st); [|exact Hfl].
    apply map_Forall_insert_2; [by exists hx|exact Hfl].
Qed.

(** The optional flushes, in their order. *)
Lemma parts_ok (c1 c2 c3 c4 : bool) order s hist :
  bulk_ok s hist ->
  exists s',
    (let! s := (if c1 then parallelStoreTxAddresses false (so_txAddresses order) s else Ok s) in
     let! s := (if c2 then parallelStoreBalances false (so_balances order) s else Ok s) in
     let! s := (if c3 then parallelStoreAssets false (so_assets order) s else Ok s) in
     if c4 then parallelStoreTxAssets false (so_txAssets order) s else Ok s) = Ok s' /\ bulk_ok s' hist /\
    eqRows (sysTx s) (sysTx s').
Proof.
  intros Ho.
  destruct (flush_ok c1 (parallelStoreTxAddresses false (so_txAddresses order)) s hist Ho) as (s4 & -> & Ho4 & R4).
  { intros _ x H1 H2. by apply (flushes false _ [] [] []). }
  destruct (flush_ok c2 (parallelStoreBalances false (so_balances order)) s4 hist Ho4) as (s5 & H5 & Ho5 & R5).
  { intros _ x H1 H2. by apply (flushes false [] _ [] []). }
  destruct (flush_ok c3 (parallelStoreAssets false (so_assets order)) s5 hist Ho5) as (s6 & H6 & Ho6 & R6).
  { intros _ x H1 H2. by apply (flushes false [] [] [] _). }
  destruct (flush_ok c4 (parallelStoreTxAssets false (so_txAssets order)) s6 hist Ho6) as (s7 & H7 & Ho7 & R7).
  { intros _ x H1 H2. by apply (flushes false [] [] _ []). }
  exists s7. cbn [rbind]. rewrite H5. cbn [rbind]. rewrite H6. cbn [rbind]. rewrite H7.
  split; [done|]. split; [done|]. by repeat (etransitivity; [eassumption|]).
Qed.

(** Connecting a block in bulk: it succeeds, keeps the ledger, and its rows are written or wait. *)
Lemma Bulk_ConnectBlock_ok block storeBlockTxs order s hist :
  bulk_ok s hist -> blocks_ok hist -> blk_Height block ∉ heightsOf hist -> bulk_connectable s block ->
  exists s' st, Bulk_ConnectBlock block storeBlockTxs order s = Ok s' /\
    processAddressesBitcoinType (bk_db s) block (bulkState (blockGolombFilter block) s) = Ok st /\
    bulk_ok s' (hist ++ [(blockInfoOf block, cs_addresses st)]) /\
    eqRows (sysTx s') (blockRows (sysTx s) block).
Proof.
  intros Ho Hok Hnew Hc.
  destruct (process_ledger_from (bk_db s) block (bulkState (blockGolombFilter block) s)) as (st & Hst & HL & Hr).
  { apply Ho. } { apply Hc. } { apply Ho. } { intros Hsup. apply (bi_maps _ (bo_inv _ _ Ho) Hsup). }
  unfold Bulk_ConnectBlock, connectBlockBitcoinType. set (s0 := bk_with_bulk (addBitcoinStats _ _) _).
  change (processAddressesBitcoinType (bk_db s0) block (bulkState (blockGolombFilter block) s0)) with
    (processAddressesBitcoinType (bk_db s) block (bulkState (blockGolombFilter block) s)).
  rewrite Hst. cbn [rbind].
  assert (bulk_ok s0 hist) as Ho0.
  { destruct Ho as [[I1 I2 I3 I4 I5 I6] [F1 F2 F3 F4] Hx Hfl]. constructor; [by constructor|by constructor|exact Hx|exact Hfl]. }
  assert (bulk_connectable s0 block) as Hc0.
  { destruct Hc as [C1 C2 C3 C4 C5]. constructor; [done..|]. intros st' Hst'. destruct (C5 st' Hst'). by constructor. }
  pose proof (processed_ok block s0 st hist Ho0 Hc0 Hst HL Hr) as [Hi2 Hf2 Hx2 Hfl2].
  pose proof (blocks_ok_snoc hist block (cs_addresses st) Hok (bc_height _ _ Hc) (bc_hash _ _ Hc) Hnew) as Hok'.
  destruct (blockTxsOf_ok (blk_Txs block) (vb_inputs _ _ (bc_valid _ _ Hc)) (vb_txids _ _ (bc_valid _ _ Hc))) as [bts Hbts].
  set (sa := _ || _). fold (processed block st s0).
  destruct (storeBlocks_ok sa storeBlockTxs block (processed block st s0) _ Hi2 Hx2 Hok' Hfl2 (ex_intro _ _ Hbts))
    as (s3 & -> & Hi3 & Hx3 & Hfl3 & Hm3 & R3). cbn [rbind].
  edestruct parts_ok as (s7 & -> & Ho7 & R7); cycle 1.
  { exists s7, st. split_and!; [done|done|done|]. rewrite <- R7, <- R3.
    transitivity (txView (bk_db s) st).
    - apply eqRows_ext. intros t. unfold sysTx, txView, bulkState, processed, bulkAppend. by destruct (cs_gf st).
    - exact (process_rows (bk_db s) block _ st Hst (vb_txids _ _ (bc_valid _ _ Hc))). }
  constructor; [done|by eapply same_maps_fits|done|done].
Qed.

(** ** The end *)

Lemma index_ok_flushed s :
  bulk_inv s -> b_txAddressesMap (bk_bulk s) = ∅ -> b_balances (bk_bulk s) = ∅ -> index_ok (bk_db s).
Proof.
  intros [I1 I2 _ _ HL _] Et Eb. split; [done|]. split; [|done]. eapply ledger_ok_ext; [| |exact HL]; intros x.
  - unfold sysTx, txView, bulkState. cbn. by rewrite Et, lookup_empty.
  - unfold sysBal, balView, bulkState. cbn. by rewrite Eb, lookup_empty.
Qed.

Lemma Close_ok s hist :
  bulk_ok s hist -> blocks_ok hist ->
  exists s', Close s = Ok (s', DbStateOpen) /\ index_ok (bk_db s') /\ Forall (block_row (bk_db s')) hist /\
    (forall cf k, db_rfault (bk_db s') cf k = db_rfault (bk_db s) cf k) /\ eqRows (sysTx s) (dbTx (bk_db s')).
Proof.
  intros [Hi Hf Hx Hfl] Hok. unfold Close.
  destruct (storeBulkAddresses_ok true (bk_bulk s) (blocks_ok_pending _ _ Hx Hok))
    as (wb1 & b1 & -> & X1 & Ef & Et & Eb & Ea & Eta & moved & Em & Hr & Hnil & Hs). cbn [rbind].
  destruct (storeBulkBlockFilters_ok wb1 b1) as (wb2 & -> & X2); [unfold filters_ok; by rewrite Ef|]. cbn [rbind].
  destruct (WriteBatch_total wb2 (bk_db s) (bi_writes _ Hi)) as [d1 Hw]. rewrite Hw. cbn [rbind].
  set (s1 := mkBulkSystem K W d1 (bk_cache s) _).
  assert (bulk_inv s1) as Hi1.
  { eapply (bulk_inv_other s d1 [cfAddresses; cfHeight; cfBlockFilter]); [done|exact Hw| |set_solver..|done|done|].
    - eapply extends_trans; [eapply extends_mono; [|exact X1]|eapply extends_mono; [|exact X2]]; set_solver.
    - cbn. rewrite Ea, Eta. apply Hi. }
  assert (bulk_fits (bk_bulk s1)) as Hf1 by (destruct Hf; constructor; cbn; by rewrite ?Et, ?Eb, ?Ea, ?Eta).
  assert (index_inv s1 hist) as Hx1.
  { assert (forall h, same_at wb1 wb2 h) as Htail by (intros h; eapply (same_at_extends [cfBlockFilter]); [done|set_solver..]).
    apply (index_inv_batch s wb2 d1 _ moved hist Hx Hok Hw); [exact Em| |].
    - eapply Forall_impl; [exact Hr|]. intros e. by apply row_in_batch_same.
    - intros h Hh Hin. eapply same_at_trans; [by apply Hs|apply Htail]. }
  assert (b_bulkAddresses (bk_bulk s1) = []) as Hp1 by by apply Hnil.
  assert (forall cf k, db_rfault (bk_db s1) cf k = db_rfault (bk_db s) cf k) as Hrf by apply (WriteBatch_fields _ _ _ Hw).
  assert (eqRows (sysTx s) (sysTx s1)) as R1.
  { apply sysTx_same; [|done]. eapply (same_column_batch wb2 _ _ [cfAddresses; cfHeight; cfBlockFilter]); [exact Hw| |set_solver].
    eapply extends_trans; [eapply extends_mono; [|exact X1]|eapply extends_mono; [|exact X2]]; set_solver. }
  clearbody s1.
  destruct (flushTxAddresses_ok true [] s1 Hi1 Hf1) as (s2 & -> & Hi2 & Hf2 & K2 & T2 & _). cbn [rbind].
  destruct (flushBalances_ok true [] s2 Hi2 Hf2) as (s3 & -> & Hi3 & Hf3 & K3 & B3 & T3). cbn [rbind].
  assert (exists s5, (let! s := (if supportsSyscoinAssets then parallelStoreAssets true [] s3 else Ok s3) in
            if supportsSyscoinAssets then parallelStoreTxAssets true [] s else Ok s) = Ok s5 /\ bulk_inv s5 /\
            keeps_index s3 s5 /\ b_txAddressesMap (bk_bulk s5) = b_txAddressesMap (bk_bulk s3) /\
            b_balances (bk_bulk s5) = b_balances (bk_bulk s3)) as (s5 & H5 & Hi5 & K5 & T5 & B5).
  { destruct (Bool.bool_dec supportsSyscoinAssets true) as [Hsup|Hsup%Bool.not_true_is_false]; rewrite Hsup; [|by exists s3].
    destruct (Hassets Hsup) as [Hh Hser].
    destruct (flushAssets_ok true [] s3 Hsup Hh Hser Hi3 Hf3) as (s4 & -> & Hi4 & Hf4 & K4 & T4 & B4). cbn [rbind].
    destruct (flushTxAssets_ok true [] s4 Hsup Hh Hi4 Hf4) as (s5 & -> & Hi5 & _ & K5 & T5 & B5).
    exists s5. split_and!; [done|done|by eapply keeps_index_trans|congruence|congruence]. }
  destruct (if supportsSyscoinAssets then parallelStoreAssets true [] s3 else Ok s3) as [s4| |]; [|done|done].
  cbn [rbind] in H5 |- *. rewrite H5. cbn [rbind]. unfold SetInconsistentState. rewrite (bi_writes _ Hi5). cbn [rbind].
  pose proof (keeps_index_trans _ _ _ (keeps_index_trans _ _ _ K2 K3) K5) as K15.
  eexists. split; [reflexivity|]. cbn. split_and!.
  - apply (index_ok_flushed s5 Hi5); [rewrite T5, T3; by apply T2|rewrite B5; by apply B3].
  - destruct (index_inv_keeps _ _ _ K15 Hx1) as (stored & -> & Hst). destruct K15 as (E1 & _).
    rewrite E1, Hp1, app_nil_r. exact Hst.
  - intros cf k. destruct K15 as (_ & _ & _ & -> & _). apply Hrf.
  - destruct K15 as (_ & _ & _ & _ & R5). rewrite R1, R5. intros t. unfold sysTx, txView, bulkState. cbn.
    by rewrite T5, T3, T2, lookup_empty.
Qed.

(** ** A run over many blocks *)

(** The blocks follow each other from a height on. *)
Fixpoint consecutive (lo : Z) (blocks : list (Block * StoreOrder)) : Prop :=
  match blocks with
  | [] => True
  | e :: blocks => blk_Height e.1 = lo /\ is_u32 lo /\ consecutive (lo + 1) blocks
  end.

Lemma consecutive_ge lo blocks h : consecutive lo blocks -> h ∈ map (fun e => blk_Height e.1) blocks -> lo <= h.
Proof.
  revert lo. induction blocks as [|e blocks IH]; intros lo Hc Hin; [by apply elem_of_nil in Hin|].
  destruct Hc as (<- & _ & Hc). cbn in Hin. apply elem_of_cons in Hin as [->|Hin]; [lia|].
  specialize (IH _ Hc Hin). lia.
Qed.

Lemma consecutive_nodup lo blocks : consecutive lo blocks -> NoDup (map (fun e => blk_Height e.1) blocks).
Proof.
  revert lo. induction blocks as [|e blocks IH]; intros lo Hc; [constructor|]. destruct Hc as (<- & _ & Hc). cbn.
  apply NoDup_cons. split; [|by eapply IH]. intros Hin. pose proof (consecutive_ge _ _ _ Hc Hin). lia.
Qed.

(** Every block extends the system that the blocks before it leave. *)
Fixpoint bulk_run_ok (higher : Z) (blocks : list (Block * StoreOrder)) s : Prop :=
  match blocks with
  | [] => True
  | e :: blocks =>
      bulk_connectable s e.1 /\
      forall s', Bulk_ConnectBlock e.1 (storesBlockTxs higher e.1) e.2 s = Ok s' -> bulk_run_ok higher blocks s'
  end.

(** The address index that is computed for each block of the run. *)
Fixpoint bulkIndexes (higher : Z) (blocks : list (Block * StoreOrder)) s : list (gmap bytes (list txIndexes)) :=
  match blocks with
  | [] => []
  | e :: blocks =>
      match processAddressesBitcoinType (bk_db s) e.1 (bulkState (blockGolombFilter e.1) s),
            Bulk_ConnectBlock e.1 (storesBlockTxs higher e.1) e.2 s with
      | Ok st, Ok s' => cs_addresses st :: bulkIndexes higher blocks s'
      | _, _ => []
      end
  end.

Lemma bulkBlocks_ok higher lastBlock blocks s hist :
  bulk_ok s hist -> blocks_ok hist -> consecutive (u32 (lastBlock + 1)) blocks -> NoDup (heightsOf hist ++ map (fun e => blk_Height e.1) blocks) ->
  bulk_run_ok higher blocks s ->
  exists s', bulkBlocks higher lastBlock blocks s = Ok s' /\ length (bulkIndexes higher blocks s) = length blocks /\
    let hist' := hist ++ zip (map (fun e => blockInfoOf e.1) blocks) (bulkIndexes higher blocks s) in
    bulk_ok s' hist' /\ blocks_ok hist' /\
    eqRows (sysTx s') (foldl blockRows (sysTx s) (map fst blocks)).
Proof.
  revert lastBlock s hist. induction blocks as [|e blocks IH]; intros lastBlock s hist Ho Hok Hcon Hn Hrun.
  - exists s. cbn. by rewrite app_nil_r.
  - destruct Hrun as [Hc Hrun], Hcon as (Hh & Hu & Hcon). cbn [map] in Hn.
    assert (blk_Height e.1 ∉ heightsOf hist) as Hnew.
    { apply NoDup_app in Hn as (_ & Hd & _). intros Hin. apply (Hd _ Hin). by left. }
    destruct (Bulk_ConnectBlock_ok e.1 (storesBlockTxs higher e.1) e.2 s hist Ho Hok Hnew Hc) as (s1 & st & Hs1 & Hst & Ho1 & R1).
    pose proof (blocks_ok_snoc hist e.1 (cs_addresses st) Hok (bc_height _ _ Hc) (bc_hash _ _ Hc) Hnew) as Hok1.
    destruct (IH (blk_Height e.1) s1 _ Ho1 Hok1) as (s' & Hs' & Hl & Ho' & Hok' & R'); [| |by apply Hrun|].
    { rewrite Hh. destruct blocks as [|e2 blocks]; [done|]. rewrite u32_id; [exact Hcon|apply Hcon]. }
    { unfold heightsOf in *. rewrite map_app, <- app_assoc. exact Hn. }
    exists s'. cbn [bulkBlocks bulkIndexes]. rewrite Hh, Z.eqb_refl. cbn [negb]. rewrite Hs1, Hst, <- Hh. cbn [length]. split; [exact Hs'|]. split; [by rewrite Hl|].
    cbn [map zip zip_with foldl]. rewrite <- app_assoc in Ho', Hok'. split; [done|]. split; [done|].
    etransitivity; [exact R'|]. by apply (foldl_rows blockRows); [apply _|].
Qed.
End BulkCorrect.

(** ** Properties *)

Lemma u32_pred_succ x : is_u32 x -> u32 (u32 (x - 1) + 1) = x.
Proof.
  intros Hx. unfold u32. rewrite Z.add_mod_idemp_l by done. replace (x - 1 + 1) with x by lia. by apply Z.mod_small.
Qed.

Section BulkProperties.
Context {V : Vlq} {VL : VlqLaws V} {P : ChainParser} {IX : IndexOpts} {K : KV} {KL : KVLaws K}
  {W : AssetWire} {WL : AssetWireLaws W} {E : AssetEnv W} {G : Gcs} {FO : FilterOpts} {BL : BulkLimits}.

(** The system at the start of a bulk connect. *)
Definition bulkStart (d : DB K) (cache : option (gmap Z (Asset W))) : BulkSystem K W :=
  mkBulkSystem K W d cache
    (mkBulk W [] 0 ∅ ∅ ∅ (if supportsSyscoinAssets then Some ∅ else None) (if supportsSyscoinAssets then Some ∅ else None)
       0 noStats).

Lemma bulkStart_ok (d : DB K) cache :
  index_ok d -> db_wfault d = false -> (forall cf k, db_rfault d cf k = false) -> bulk_ok (bulkStart d cache) [].
Proof.
  intros (Hd & HL & Hlive) Hw Hr. constructor.
  - constructor; try done. cbn. intros ->. split; by eexists.
  - constructor; cbn; try apply map_Forall_empty.
    + intros k x. by destruct supportsSyscoinAssets.
    + by intros ->.
  - by exists [].
  - apply map_Forall_empty.
Qed.

(** The rows of a block, as the readers see them. *)
Lemma block_row_read (d : DB K) block am :
  0 <= PackedTxidLen -> (forall cf k, db_rfault d cf k = false) -> block_row d (blockInfoOf block, am) ->
  (forall x hash, PackBlockHash (blk_Hash block) = Ok x -> UnpackBlockHash (hashBytes x) = Ok hash ->
     GetBlockHash d (blk_Height block) = Ok hash) /\
  (forall a l, am !! a = Some l -> Forall txIndexes_ok l -> getTxIndexesForAddressAndBlock d a (blk_Height block) = Ok l).
Proof.
  intros HP Hr [(val & Hval & Hk) Ha]. split.
  - intros x hash Hx Hu. unfold GetBlockHash, GetCF. rewrite Hr. cbn [rbind]. cbn [fst bi_Height blockInfoOf] in Hk.
    rewrite Hk. cbn [valData].
    by rewrite (unpackBlockInfo_pack (blockInfoOf block) x hash val HP (u32_range _) (u32_range _) Hx Hu Hval).
  - intros a l Hl Hok. unfold getTxIndexesForAddressAndBlock, GetCF. rewrite Hr. cbn [rbind].
    specialize (Ha a l Hl). cbn [fst bi_Height blockInfoOf] in Ha. rewrite Ha. by apply unpackTxIndexes_pack.
Qed.

(** Bulk connecting keeps the ledger. When each block follows the one before it and extends
    the rows, a bulk connect over any number of blocks succeeds, whatever parts of the maps are
    written early and in whatever order: the database ends open and consistent, every balance
    is the sum of the unspent outputs in the transaction rows, and for every block the row of
    its height and the address index computed for it can be read. *)
Theorem bulk_connect_keeps_ledger (d : DB K) cache lower higher blocks :
  0 <= PackedTxidLen -> index_ok d -> db_wfault d = false -> (forall cf k, db_rfault d cf k = false) ->
  (supportsSyscoinAssets = true -> hasAssetParser = true /\ forall o : AssetObj, exists x, ao_Serialize o = Ok x) ->
  is_u32 lower -> consecutive lower blocks -> bulk_run_ok higher blocks (bulkStart d cache) ->
  exists s', writeBlockWorker d cache lower higher blocks = Ok (s', DbStateOpen) /\
    let d' := bk_db s' in
    index_ok d' /\
    Forall2 (fun e am =>
      (forall x hash, PackBlockHash (blk_Hash e.1) = Ok x -> UnpackBlockHash (hashBytes x) = Ok hash ->
         GetBlockHash d' (blk_Height e.1) = Ok hash) /\
      (forall a l, am !! a = Some l -> Forall txIndexes_ok l ->
         getTxIndexesForAddressAndBlock d' a (blk_Height e.1) = Ok l))
      blocks (bulkIndexes higher blocks (bulkStart d cache)).
Proof.
  intros HP Hix Hw Hr Hassets Hlow Hn Hrun. pose proof (bulkStart_ok d cache Hix Hw Hr) as Ho.
  destruct (bulkBlocks_ok HP Hassets higher (u32 (lower - 1)) blocks _ [] Ho) as (s1 & Hs1 & Hl & Ho1 & Hok1 & _);
    [split; [done|constructor]|by rewrite u32_pred_succ|by eapply consecutive_nodup|done|].
  destruct (Close_ok HP Hassets s1 _ Ho1 Hok1) as (s' & Hc & Hix' & Hrows & Hrf & _). exists s'.
  unfold writeBlockWorker, InitBulkConnect, SetInconsistentState. rewrite Hw. cbn [rbind]. fold (bulkStart d cache).
  rewrite Hs1. cbn [rbind]. split; [exact Hc|]. split; [exact Hix'|].
  apply Forall2_same_length_lookup. split; [by rewrite Hl|]. intros i e am He Ham.
  apply block_row_read; [done|intros; rewrite Hrf; apply Ho1|].
  cbn [app] in Hrows. rewrite Forall_lookup in Hrows. apply (Hrows i).
  rewrite lookup_zip_with, Ham. change (map (fun e => blockInfoOf e.1) blocks) with ((fun e => blockInfoOf e.1) <$> blocks).
  by rewrite list_lookup_fmap, He.
Qed.
End BulkProperties.

(** ** An example *)

Module BulkExample.
Import ChainExample.

#[local] Existing Instances RefVlq.vlq RefVlq.vlq_laws MapKV.map_kv MapKV.map_kv_laws RefWire.wire RefWire.wire_laws
  RefWire.env GolombExample.gcs ChainExample.opts ChainExample.filter_opts ChainExample.parser.

(** Limits so low that parts of the maps are written after every block. *)
#[local] Instance tiny : BulkLimits := {|
  maxBulkAddresses := 1; maxBulkTxAddresses := 1; maxBulkBalances := 1; maxBulkAssets := 1; maxBulkTxAssets := 1;
  maxBlockFilters := 0;
|}.

(** The second block spends an output of the first one, part of which is in the database. *)
Definition txid3 : bytes := replicate 64 x64.
Definition tx3 : Tx := mkTx [] txid3 1 0 100 [mkVin [] txid2 1 []] [mkVout 800 0 addrB None] [].
Definition block2 : Block := mkBlock (replicate 64 x65) (replicate 64 x63) [] 2 300 1600000600 [tx3].

Definition order : StoreOrder := mkStoreOrder [packedId tx2; packedId tx1] [addrB; addrA] [123456] [].
Definition blocks : list (Block * StoreOrder) := [(block1, order); (block2, order)].

Definition s0 := bulkStart db0 None.
Definition s1 : BulkSystem MapKV.map_kv RefWire.wire :=
  match Bulk_ConnectBlock block1 (storesBlockTxs 2 block1) order s0 with Ok s => s | _ => s0 end.

#[local] Instance bulk_fits_dec (b : BulkConnect RefWire.wire) : Decision (bulk_fits b).
Proof.
  destruct (decide (map_Forall (fun _ ta => txAddresses_ok ta) (b_txAddressesMap b) /\
    map_Forall (fun _ ab => balance_ok ab /\ 0 < ab_Txs ab) (b_balances b) /\
    map_Forall (fun _ a => asset_row_ok a) (default ∅ (b_assets b)))) as [(? & ? & ?)|Hn].
  - left. by constructor.
  - right. intros []. by apply Hn.
Defined.

Definition fits_after (s : BulkSystem MapKV.map_kv RefWire.wire) (block : Block) : bool :=
  match processAddressesBitcoinType (bk_db s) block (bulkState (blockGolombFilter block) s) with
  | Ok st => bool_decide (bulk_fits (bk_bulk (bulkUpdate st s)))
  | _ => false
  end.

Lemma fits_of s block : fits_after s block = true ->
  forall st, processAddressesBitcoinType (bk_db s) block (bulkState (blockGolombFilter block) s) = Ok st ->
  bulk_fits (bk_bulk (bulkUpdate st s)).
Proof. intros H st Hst. unfold fits_after in H. rewrite Hst in H. by apply bool_decide_eq_true in H. Qed.

Lemma connectable_1 : bulk_connectable s0 block1.
Proof.
  constructor.
  - destruct valid1 as [H1 H2 H3 _ H5 H6 _]. constructor; [exact H1|exact H2|exact H3| |exact H5|exact H6|].
    + repeat constructor.
    + repeat constructor. intros ta o H. vm_compute in H. discriminate.
  - by vm_compute.
  - eexists. vm_compute. reflexivity.
  - eexists. vm_compute. reflexivity.
  - apply fits_of. vm_compute. reflexivity.
Qed.

Lemma connectable_2 : bulk_connectable s1 block2.
Proof.
  constructor.
  - constructor.
    + repeat constructor; cbn; try discriminate; done.
    + repeat constructor.
    + repeat constructor. set_solver.
    + repeat constructor.
    + assert (vin_ok (mkVin [] txid2 1 [])) by (split; [left; eexists; vm_compute; reflexivity|cbn; lia]).
      apply Forall_singleton. unfold inputs_ok. cbn [tx_Vin tx3]. by apply Forall_singleton.
    + apply (bool_decide_unpack _). vm_compute. exact I.
    + repeat constructor. intros ta o H. vm_compute in H. injection H as <-. intros Ho. vm_compute in Ho. by injection Ho as <-.
  - by vm_compute.
  - eexists. vm_compute. reflexivity.
  - eexists. vm_compute. reflexivity.
  - apply fits_of. vm_compute. reflexivity.
Qed.

(** After both blocks the second one is found at its height, and the ledger holds. *)
Lemma bulk_connect_keeps_ledger_witness :
  exists s', writeBlockWorker db0 None 1 2 blocks = Ok (s', DbStateOpen) /\ index_ok (bk_db s') /\
    GetBlockHash (bk_db s') 2 = Ok (replicate 64 x65).
Proof.
  destruct (bulk_connect_keeps_ledger db0 None 1 2 blocks) as (s' & H1 & H2 & H3).
  - vm_compute. discriminate.
  - exact (empty_index_ok db0 empty0).
  - reflexivity.
  - reflexivity.
  - intros _. split; [reflexivity|]. intros o. by eexists.
  - by vm_compute.
  - by vm_compute.
  - split; [exact connectable_1|]. intros s' Hs'. split; [|done].
    assert (s' = s1) as -> by (cbn [fst snd] in Hs'; unfold s1, s0; by rewrite Hs'). exact connectable_2.
  - exists s'. split; [exact H1|]. split; [exact H2|].
    destruct (Forall2_lookup_l _ _ _ 1%nat (block2, order) H3 eq_refl) as (am & _ & Hh & _).
    apply (Hh (replicate 32 xee)); vm_compute; reflexivity.
Defined.
End BulkExample.
