(* ===== verification/BulkSequential.v ===== *)
(** Bulk connecting and connecting the same blocks one by one agree: the transaction rows store
    the same, and because both databases are ledgers, every
    address has the same balances and the same unspent outputs. *)

From S2P Require Import Prelude Codec Parser Golomb TxAddr Balance IndexCodec Store Scan Assets Connect Ledger ConnectCorrect ConnectIndex BlockRows ConnectStore Chain Bulk BulkCorrect.

Local Open Scope Z_scope.

(** ** The rows determine the balances *)

(** Two balances with the same amounts and the same unspent outputs. *)
Definition same_balance (ab ab' : AddrBalance) : Prop :=
  ab_BalanceSat ab = ab_BalanceSat ab' /\ live (ab_Utxos ab) ≡ₚ live (ab_Utxos ab') /\
  forall guid, asb_BalanceSat (assetBalanceOf guid ab) = asb_BalanceSat (assetBalanceOf guid ab').

Lemma ledger_unique {P : ChainParser} tx tx' bal bal' a :
  same_rows tx tx' -> ledger_ok tx bal -> ledger_ok tx' bal' -> a <> [] -> IsAddrDescIndexable a = true ->
  same_balance (bal a) (bal' a).
Proof.
  intros Hs HL HL' Ha Hia.
  destruct (ledger_addr _ _ HL a Ha Hia) as [L1 N1 S1 A1 _ _], (ledger_addr _ _ HL' a Ha Hia) as [L2 N2 S2 A2 _ _].
  assert (live (ab_Utxos (bal a)) ≡ₚ live (ab_Utxos (bal' a))) as Hp.
  { apply NoDup_Permutation; [done|done|]. intros u. rewrite L1, L2. split; apply owns_same_rows; [done|by symmetry]. }
  split; [by rewrite S1, S2, Hp|]. split; [done|]. intros guid. by rewrite A1, A2, Hp.
Qed.

Section BulkSequential.
Context {V : Vlq} {VL : VlqLaws V} {P : ChainParser} {IX : IndexOpts} {K : KV} {KL : KVLaws K}
  {W : AssetWire} {WL : AssetWireLaws W} {E : AssetEnv W} {G : Gcs} {FO : FilterOpts} {BL : BulkLimits}.
Implicit Types (d : DB K).

(** ** One by one *)

Lemma ConnectBlock_rows d cache block d' cache' h :
  index_ok d -> connectable d cache block -> ConnectBlock d cache block = Ok (d', cache', h) ->
  index_ok d' /\ eqRows (dbTx d') (blockRows (dbTx d) block).
Proof.
  intros Hix [Hv Hw Hf] Hc. pose proof Hix as (Hd & HL & _).
  destruct (ConnectBlock_index_ok d cache block Hix Hv Hw Hf) as (d1 & c1 & st & H1 & Hix1 & Hst & wb & Hwb & Hb).
  rewrite Hc in H1. injection H1 as <- <- ->. split; [done|].
  transitivity (txView d st).
  - intros t. unfold dbTx. rewrite (getTxAddresses_after d d' block st wb t Hd Hwb Hb (Hf st Hst)).
    unfold txView, dbTx. destruct (cs_txAddresses st !! t) as [ta|]; [|done]. apply (f_equal Some), keptTxAddresses_idem.
  - etransitivity; [exact (process_rows d block _ st Hst (vb_txids _ _ Hv))|]. apply blockRows_proper; [|done].
    apply eqRows_ext. intros t. apply txView_init.
Qed.

(** Blocks that are connected one after the other. *)
Inductive connect_run : DB K -> option (gmap Z (Asset W)) -> list Block -> DB K -> Prop :=
| connect_run_nil d cache : connect_run d cache [] d
| connect_run_cons d cache block blocks d1 cache1 h d' :
    connectable d cache block -> ConnectBlock d cache block = Ok (d1, cache1, h) ->
    connect_run d1 cache1 blocks d' -> connect_run d cache (block :: blocks) d'.

Lemma connect_run_rows d cache blocks d' :
  connect_run d cache blocks d' -> index_ok d ->
  index_ok d' /\ eqRows (dbTx d') (foldl blockRows (dbTx d) blocks).
Proof.
  induction 1 as [|d cache block blocks d1 cache1 h d' Hc Hb _ IH]; intros Hix; [done|].
  destruct (ConnectBlock_rows d cache block d1 cache1 h Hix Hc Hb) as [Hix1 R1]. destruct (IH Hix1) as [Hix' R'].
  split; [done|]. etransitivity; [exact R'|]. cbn [foldl]. by apply (foldl_rows blockRows); [apply _|].
Qed.

(** C7: Bulk connecting is equivalent to connecting one by one. From the same consistent
    database, for the same blocks, whatever parts the bulk connect wrote early: the row of every
    transaction is the same in everything its column stores (height, inputs, outputs with what spent them,
    version, memo and size), and every indexed address has the same balance, the same balance of every asset, and the same unspent
    outputs. *)
Theorem bulk_equals_sequential d cache cache2 lower higher blocks d2 :
  0 <= PackedTxidLen -> index_ok d -> db_wfault d = false -> (forall cf k, db_rfault d cf k = false) ->
  (supportsSyscoinAssets = true -> hasAssetParser = true /\ forall o : AssetObj, exists x, ao_Serialize o = Ok x) ->
  is_u32 lower -> consecutive lower blocks -> bulk_run_ok higher blocks (bulkStart d cache) ->
  connect_run d cache2 (map fst blocks) d2 ->
  exists s', writeBlockWorker d cache lower higher blocks = Ok (s', DbStateOpen) /\
    (forall t, keptTxAddresses <$> dbTx (bk_db s') t = keptTxAddresses <$> dbTx d2 t) /\
    forall a, a <> [] -> IsAddrDescIndexable a = true -> same_balance (dbBal (bk_db s') a) (dbBal d2 a).
Proof.
  intros HP Hix Hw Hr Hassets Hlow Hn Hrun Hseq. pose proof (bulkStart_ok d cache Hix Hw Hr) as Ho.
  destruct (connect_run_rows _ _ _ _ Hseq Hix) as [(_ & HL2 & _) R2].
  destruct (bulkBlocks_ok HP Hassets higher (u32 (lower - 1)) blocks _ [] Ho) as (s1 & Hs1 & _ & Ho1 & Hok1 & R1);
    [split; [done|constructor]|by rewrite u32_pred_succ|by eapply consecutive_nodup|done|].
  destruct (Close_ok HP Hassets s1 _ Ho1 Hok1) as (s' & Hc & (_ & HL' & _) & _ & _ & R'). exists s'.
  unfold writeBlockWorker, InitBulkConnect, SetInconsistentState. rewrite Hw. cbn [rbind]. fold (bulkStart d cache).
  rewrite Hs1. cbn [rbind]. split; [exact Hc|].
  assert (eqRows (dbTx (bk_db s')) (dbTx d2)) as Heq by (etransitivity; [symmetry; exact R'|]; etransitivity; [exact R1|by symmetry]).
  split; [exact Heq|]. intros a Ha Hia. apply (ledger_unique (dbTx (bk_db s')) (dbTx d2)); [|done..].
  by apply eqRows_same; [apply (ledger_values _ _ HL')|apply (ledger_values _ _ HL2)|].
Qed.
End BulkSequential.

(** ** An example *)

Module BulkSequentialExample.
Import ChainExample BulkExample.

#[local] Existing Instances RefVlq.vlq RefVlq.vlq_laws MapKV.map_kv MapKV.map_kv_laws RefWire.wire RefWire.wire_laws
  RefWire.env GolombExample.gcs ChainExample.opts ChainExample.filter_opts ChainExample.parser BulkExample.tiny.

(** The second block on the database with the first one. *)
Definition cache1 : option (gmap Z (Asset RefWire.wire)) :=
  match ConnectBlock db0 None block1 with Ok (_, c, _) => c | _ => None end.

Lemma connectable2 : connectable db1 cache1 block2.
Proof.
  constructor.
  - constructor.
    + repeat constructor; cbn; try discriminate; done.
    + repeat constructor.
    + repeat constructor. set_solver.
    + repeat constructor.
    + assert (vin_ok (mkVin [] txid2 1 [])) by (split; [left; eexists; vm_compute; reflexivity|cbn; lia]).
      apply Forall_singleton. unfold inputs_ok. cbn [tx_Vin tx3]. by apply Forall_singleton.
    + apply (bool_decide_unpack _). vm_compute. exact I.
    + repeat constructor. intros ta o H. vm_compute in H. injection H as <-. intros Ho. vm_compute in Ho. by injection Ho as <-.
  - constructor; try done; try (eexists; vm_compute; reflexivity). intros _. split; [done|]. intros o. by eexists.
  - enough (match processAddressesBitcoinType db1 block2 (initState cache1 (blockGolombFilter block2)) with
            | Ok st => bool_decide (state_fits db1 st) | _ => false end = true) as H.
    { intros st Hst. rewrite Hst in H. by apply bool_decide_eq_true in H. }
    vm_compute. reflexivity.
Qed.

Lemma run2 : exists d2, connect_run db0 None [block1; block2] d2.
Proof.
  destruct connects1 as (c' & h & H1). assert (c' = cache1) as -> by (unfold cache1; by rewrite H1).
  assert (index_ok db1) as Hix.
  { apply (ConnectBlock_rows db0 None block1 db1 cache1 h); [apply empty_index_ok, empty0|exact connectable1|exact H1]. }
  destruct connectable2 as [Hv Hw Hf].
  destruct (ConnectBlock_index_ok db1 cache1 block2 Hix Hv Hw Hf) as (d2 & c2 & st & H2 & _).
  exists d2. eapply connect_run_cons; [exact connectable1|exact H1|].
  eapply connect_run_cons; [exact connectable2|exact H2|]. apply connect_run_nil.
Qed.

(** The balance of address A after both blocks, in bulk and one by one. *)
Lemma bulk_equals_sequential_witness :
  exists s' d2, writeBlockWorker db0 None 1 2 blocks = Ok (s', DbStateOpen) /\ connect_run db0 None [block1; block2] d2 /\
    ab_BalanceSat (dbBal (bk_db s') addrA) = ab_BalanceSat (dbBal d2 addrA).
Proof.
  destruct run2 as [d2 Hd2].
  destruct (bulk_equals_sequential db0 None None 1 2 blocks d2) as (s' & H1 & _ & H3).
  - vm_compute. discriminate.
  - exact (empty_index_ok db0 empty0).
  - reflexivity.
  - reflexivity.
  - intros _. split; [reflexivity|]. intros o. by eexists.
  - by vm_compute.
  - by vm_compute.
  - split; [exact connectable_1|]. intros s' Hs'. split; [|done].
    assert (s' = s1) as -> by (cbn [fst snd] in Hs'; unfold s1, s0; by rewrite Hs'). exact connectable_2.
  - exact Hd2.
  - exists s', d2. split; [exact H1|]. split; [exact Hd2|]. apply (H3 addrA); [discriminate|reflexivity].
Defined.
End BulkSequentialExample.
