(* ===== verification/ParallelSync.v ===== *)
(** The parallel download of blocks ([db/sync.go]): [ParallelConnectBlocks] and [BulkConnectBlocks] with their
    workers ([getBlockWorker]) and the writer.

    The coordinator queues the hashes of a range of heights on the channel [hch]; every worker takes a hash, fetches
    its block and hands it to the writer on the channel of its height modulo the number of workers; the
    writer waits for the channel of the next height. Errors of workers reach the coordinator through the
    channel [abortCh] with one place, which then closes [terminating].

    A state is a [Round]; [roundStep] is the step of one goroutine, named by a [Label] that also resolves the
    choices of [select]. A run is any sequence of steps. The backend is a [World]: the n-th call may be answered in any way.
    What the writer does with a block is an argument: the two functions differ only there. The database is
    used by the writer alone, so receiving a block and writing it are one step. Metrics and logging are not
    modelled; [chanOsSignal] is closed on shutdown. *)

From S2P Require Import Prelude Codec Parser Golomb TxAddr Balance IndexCodec Store Scan Assets Connect Bulk Sync.

Local Open Scope Z_scope.

(** At most as many workers as blocks. *)
Definition parallelSyncWorkerCount (configured gap : Z) : Z :=
  let workers := u32 configured in if gap <? workers then gap else workers.

Record hashHeight := mkHashHeight { hh_hash : bytes; hh_height : Z }.

Inductive RoundError := ErrOperationInterrupted | abortErr (e : SyncError).

Record RoundConfig := mkRoundConfig {
  rc_lower : Z;
  rc_higher : Z;
  rc_syncWorkers : Z;
  rc_dryRun : bool;
  rc_RecheckThreshold : Z;
  rc_cfg : SyncConfig;
}.

(** ** The goroutines *)

(** Where a worker is: before the next hash; before a call of [GetBlock]; after its error; before it reports an
    abort; in the delay; before it hands over the block; returned. A block is fetched with the number of its
    retries, of its failed probes and the start of its loop. *)
Inductive Worker :=
| WIdle
| WFetch (hh : hashHeight) (retries checkErrStreak loopStart : Z)
| WFailed (hh : hashHeight) (retries checkErrStreak loopStart : Z) (err : goerror)
| WAbort (hh : hashHeight) (e : SyncError)
| WWait (hh : hashHeight) (retries checkErrStreak loopStart : Z)
| WSend (hh : hashHeight) (block : Block)
| WGone.

(** The coordinator: before the [select] of its loop; in [sendHashHeight]; before [close(hch)]; before
    [hchClosed.Store]; in the [select] of [waitWorkersOrAbort]; waiting there after an abort; before
    the last look at [abortCh]; before the channels [bch] are closed; waiting for the writer; returned. *)
Inductive Coord :=
| CLoop (h : Z)
| CSend (hash : bytes) (h : Z)
| CClose (err : option RoundError)
| CFlag (err : option RoundError)
| CWait (err : option RoundError)
| CJoin (err : option RoundError)
| CDrain (err : option RoundError)
| CCloseBch (err : option RoundError)
| CDone (err : option RoundError)
| CReturned (err : option RoundError).

Inductive Writer := WrLoop (lastBlock : Z) | WrDone.

Section Parallel.
Context {W O : Type} (w : World) (rc : RoundConfig).

(** [write order state block]: what the writer does with a block; [order] is what it leaves open. *)
Context (write : O -> W -> Block -> result W).

Record Round := mkRound {
  r_time : nat;                      (* calls of the backend so far *)
  r_hch : list hashHeight;           (* at most [syncWorkers] *)
  r_hchShut : bool;                  (* close(hch) *)
  r_hchClosed : bool;                (* the flag hchClosed *)
  r_abort : option SyncError;        (* abortCh *)
  r_terminating : bool;
  r_signal : bool;                   (* chanOsSignal is closed *)
  r_bchShut : bool;
  r_workers : list Worker;
  r_coord : Coord;
  r_writer : Writer;
  r_written : W;
  r_log : list (Block * O);          (* the blocks the writer has written *)
}.

(** The process: it runs, or the writer has ended it at a block. *)
Inductive Proc := Running (r : Round) | Fatal (r : Round) (order : O) (block : Block).

Definition set_coord (c : Coord) (r : Round) : Round :=
  mkRound (r_time r) (r_hch r) (r_hchShut r) (r_hchClosed r) (r_abort r) (r_terminating r) (r_signal r) (r_bchShut r) (r_workers r) c (r_writer r) (r_written r) (r_log r).
Definition set_worker (i : nat) (x : Worker) (r : Round) : Round :=
  mkRound (r_time r) (r_hch r) (r_hchShut r) (r_hchClosed r) (r_abort r) (r_terminating r) (r_signal r) (r_bchShut r) (<[i := x]> (r_workers r)) (r_coord r) (r_writer r) (r_written r) (r_log r).
Definition set_time (t : nat) (r : Round) : Round :=
  mkRound t (r_hch r) (r_hchShut r) (r_hchClosed r) (r_abort r) (r_terminating r) (r_signal r) (r_bchShut r) (r_workers r) (r_coord r) (r_writer r) (r_written r) (r_log r).
Definition set_hch (q : list hashHeight) (r : Round) : Round :=
  mkRound (r_time r) q (r_hchShut r) (r_hchClosed r) (r_abort r) (r_terminating r) (r_signal r) (r_bchShut r) (r_workers r) (r_coord r) (r_writer r) (r_written r) (r_log r).
Definition set_abort (e : option SyncError) (r : Round) : Round :=
  mkRound (r_time r) (r_hch r) (r_hchShut r) (r_hchClosed r) e (r_terminating r) (r_signal r) (r_bchShut r) (r_workers r) (r_coord r) (r_writer r) (r_written r) (r_log r).
Definition set_writer (x : Writer) (r : Round) : Round :=
  mkRound (r_time r) (r_hch r) (r_hchShut r) (r_hchClosed r) (r_abort r) (r_terminating r) (r_signal r) (r_bchShut r) (r_workers r) (r_coord r) x (r_written r) (r_log r).

Definition closeHch (r : Round) : Round :=
  mkRound (r_time r) (r_hch r) true (r_hchClosed r) (r_abort r) (r_terminating r) (r_signal r) (r_bchShut r) (r_workers r) (r_coord r) (r_writer r) (r_written r) (r_log r).
Definition storeHchClosed (r : Round) : Round :=
  mkRound (r_time r) (r_hch r) (r_hchShut r) true (r_abort r) (r_terminating r) (r_signal r) (r_bchShut r) (r_workers r) (r_coord r) (r_writer r) (r_written r) (r_log r).
Definition terminate (r : Round) : Round :=
  mkRound (r_time r) (r_hch r) (r_hchShut r) (r_hchClosed r) (r_abort r) true (r_signal r) (r_bchShut r) (r_workers r) (r_coord r) (r_writer r) (r_written r) (r_log r).
Definition shutdown (r : Round) : Round :=
  mkRound (r_time r) (r_hch r) (r_hchShut r) (r_hchClosed r) (r_abort r) (r_terminating r) true (r_bchShut r) (r_workers r) (r_coord r) (r_writer r) (r_written r) (r_log r).
Definition closeBch (r : Round) : Round :=
  mkRound (r_time r) (r_hch r) (r_hchShut r) (r_hchClosed r) (r_abort r) (r_terminating r) (r_signal r) true (r_workers r) (r_coord r) (r_writer r) (r_written r) (r_log r).

(** The case of a [select] that a goroutine takes: the abort channel, a channel that says stop, or the other one. *)
Inductive Pick := PickAbort | PickStop | PickOther.

(** ** Workers *)

Definition checkErrStreakLimit : Z := 3.

(** After an error that is worth a retry: give up when the block has been missing for too long, or wait. *)
Definition stallCheck (hh : hashHeight) (retries checkErrStreak loopStart : Z) (t : nat) : Worker :=
  if (0 <? cfg_MaxStallDuration (rc_cfg rc)) && (cfg_MaxStallDuration (rc_cfg rc) <=? sn_Clock (w t) - loopStart)
  then WAbort hh errResync
  else WWait hh retries checkErrStreak loopStart.

(** What a worker does about an error of [GetBlock]: its next place and the number of calls. *)
Definition afterError (hchClosed : bool) (hh : hashHeight) (retries checkErrStreak loopStart : Z) (err : goerror) (t : nat) : Worker * nat :=
  if isRetryableGetBlockError err then
    let threshold := if hchClosed then cfg_TipRecheckThreshold (rc_cfg rc) else rc_RecheckThreshold rc in
    let '(retries, (check, t)) := onRetryableMiss w retries threshold (hh_height hh) (hh_hash hh) t in
    match check with
    | inl checkErr =>
        let checkErrStreak := checkErrStreak + 1 in
        if checkErrStreakLimit <=? checkErrStreak then (WAbort hh (errBackend checkErr), t)
        else (stallCheck hh retries checkErrStreak loopStart t, t)
    | inr true => (WAbort hh errResync, t)
    | inr false => (stallCheck hh retries 0 loopStart t, t)
    end
  else if hchClosed then (WAbort hh (errBackend err), t)
  else (WWait hh 0 0 (sn_Clock (w t)), t).

(** A step of worker [i]; [None] when it cannot make this step. *)
Definition getBlockWorker (i : nat) (pick : Pick) (r : Round) : option Round :=
  let stop := r_terminating r || r_signal r in
  match r_workers r !! i with
  | Some WIdle =>
      match r_hch r with
      | hh :: q => Some (set_worker i (WFetch hh 0 0 (sn_Clock (w (r_time r)))) (set_hch q r))
      | [] => if r_hchShut r then Some (set_worker i WGone r) else None
      end
  | Some (WFetch hh retries checkErrStreak loopStart) =>
      if stop then Some (set_worker i WGone r)
      else match sn_Block (w (r_time r)) (hh_hash hh) (hh_height hh) with
           | inr block => Some (set_worker i (if rc_dryRun rc then WIdle else WSend hh block) (set_time (S (r_time r)) r))
           | inl err => Some (set_worker i (WFailed hh retries checkErrStreak loopStart err) (set_time (S (r_time r)) r))
           end
  | Some (WFailed hh retries checkErrStreak loopStart err) =>
      let '(x, t) := afterError (r_hchClosed r) hh retries checkErrStreak loopStart err (r_time r) in
      Some (set_worker i x (set_time t r))
  | Some (WAbort hh e) =>
      (* a send that does not block: a full channel drops the error *)
      Some (set_worker i WGone (match r_abort r with None => set_abort (Some e) r | Some _ => r end))
  | Some (WWait hh retries checkErrStreak loopStart) =>
      match pick with
      | PickStop => if stop then Some (set_worker i WGone r) else None
      | PickOther => Some (set_worker i (WFetch hh retries checkErrStreak loopStart) r)
      | PickAbort => None
      end
  | Some (WSend hh block) => if r_terminating r then Some (set_worker i WGone r) else None
  | Some WGone | None => None
  end.

(** ** The writer *)

(** The writer receives from worker [i] on the channel of the next height. *)
Definition receive (i : nat) (order : O) (r : Round) : option Proc :=
  match r_writer r, r_workers r !! i with
  | WrLoop lastBlock, Some (WSend hh block) =>
      let next := u32 (lastBlock + 1) in
      if (hh_height hh) mod (rc_syncWorkers rc) =? next mod (rc_syncWorkers rc) then
        if negb (blk_Height block =? next) then Some (Fatal r order block)
        else match write order (r_written r) block with
             | Ok x =>
                 let r := set_worker i WIdle r in
                 Some (Running (mkRound (r_time r) (r_hch r) (r_hchShut r) (r_hchClosed r) (r_abort r) (r_terminating r) (r_signal r) (r_bchShut r)
                   (r_workers r) (r_coord r) (WrLoop (blk_Height block)) x (r_log r ++ [(block, order)])))
             | _ => Some (Fatal r order block)
             end
      else None
  | _, _ => None
  end.

(** The writer ends: its channel is closed, or the round is. *)
Definition writerEnds (r : Round) : option Round :=
  match r_writer r with
  | WrLoop _ => if r_bchShut r || r_terminating r then Some (set_writer WrDone r) else None
  | WrDone => None
  end.

(** ** The coordinator *)

Definition gone (x : Worker) : bool := match x with WGone => true | _ => false end.

(** An abort is taken from its channel; the first error is kept. *)
Definition firstError (err : option RoundError) (e : SyncError) : option RoundError :=
  match err with Some _ => err | None => Some (abortErr e) end.

Definition coordinator (pick : Pick) (r : Round) : option Round :=
  match r_coord r with
  | CLoop h =>
      if rc_higher rc <? h then Some (set_coord (CClose None) r)
      else
        match pick, r_abort r with
        | PickAbort, Some e => Some (set_coord (CClose (Some (abortErr e))) (terminate (set_abort None r)))
        | PickStop, _ => if r_signal r then Some (set_coord (CClose (Some ErrOperationInterrupted)) (terminate r)) else None
        | PickOther, None =>
            if r_signal r then None
            else match sn_BlockHash (w (r_time r)) h with
                 | inl _ => Some (set_time (S (r_time r)) r)
                 | inr hash => Some (set_coord (CSend hash h) (set_time (S (r_time r)) r))
                 end
        | _, _ => None
        end
  | CSend hash h =>
      match pick with
      | PickOther =>
          if Z.of_nat (length (r_hch r)) <? rc_syncWorkers rc
          then Some (set_coord (CLoop (u32 (h + 1))) (set_hch (r_hch r ++ [mkHashHeight hash h]) r))
          else None
      | PickAbort =>
          match r_abort r with
          | Some e => Some (set_coord (CClose (Some (abortErr e))) (terminate (set_abort None r)))
          | None => None
          end
      | PickStop => if r_signal r then Some (set_coord (CClose (Some ErrOperationInterrupted)) (terminate r)) else None
      end
  | CClose err => Some (set_coord (CFlag err) (closeHch r))
  | CFlag err => Some (set_coord (CWait err) (storeHchClosed r))
  | CWait err =>
      match pick with
      | PickOther => if forallb gone (r_workers r) then Some (set_coord (CDrain err) r) else None
      | PickAbort =>
          match r_abort r with
          | Some e => Some (set_coord (CJoin (firstError err e)) (terminate (set_abort None r)))
          | None => None
          end
      | PickStop => None
      end
  | CJoin err => if forallb gone (r_workers r) then Some (set_coord (CDrain err) r) else None
  | CDrain err =>
      match r_abort r with
      | Some e => Some (set_coord (CCloseBch (firstError err e)) (set_abort None r))
      | None => Some (set_coord (CCloseBch err) r)
      end
  | CCloseBch err => Some (set_coord (CDone err) (closeBch r))
  | CDone err => match r_writer r with WrDone => Some (set_coord (CReturned err) r) | WrLoop _ => None end
  | CReturned _ => None
  end.

(** ** Rounds *)

Inductive Label := LShutdown | LCoord (pick : Pick) | LWorker (i : nat) (pick : Pick) | LReceive (i : nat) (order : O) | LWriterEnds.

Definition roundStep (l : Label) (r : Round) : option Proc :=
  match l with
  | LShutdown => if r_signal r then None else Some (Running (shutdown r))
  | LCoord pick => Running <$> coordinator pick r
  | LWorker i pick => Running <$> getBlockWorker i pick r
  | LReceive i order => receive i order r
  | LWriterEnds => Running <$> writerEnds r
  end.

Definition procStep (p p' : Proc) : Prop := exists r l, p = Running r /\ roundStep l r = Some p'.

Definition startRound (t : nat) (signal : bool) (x : W) : Round :=
  mkRound t [] false false None false signal false (replicate (Z.to_nat (rc_syncWorkers rc)) WIdle) (CLoop (rc_lower rc))
    (WrLoop (u32 (rc_lower rc - 1))) x [].

(** A run along given labels. *)
Fixpoint runLabels (ls : list Label) (p : Proc) : option Proc :=
  match ls with
  | [] => Some p
  | l :: ls => match p with Running r => match roundStep l r with Some p => runLabels ls p | None => None end | Fatal _ _ _ => None end
  end.

End Parallel.
Arguments Round : clear implicits.
Arguments Proc : clear implicits.
Arguments Label : clear implicits.

(** ** The writers of the two functions *)

(** [ParallelConnectBlocks]: the block is connected and announced ([onNewBlock]). *)
Definition parallelWrite {I : ChainIndex} (_ : unit) (x : ix * list Block) (block : Block) : result (ix * list Block) :=
  let! s := ix_ConnectBlock x.1 block in Ok (s, x.2 ++ [block]).

(** [BulkConnectBlocks], between [InitBulkConnect] and [Close]; what is written early is open. *)
Definition bulkWrite {V : Vlq} {P : ChainParser} {IX : IndexOpts} {K : KV} {W : AssetWire} {E : AssetEnv W} {G : Gcs} {FO : FilterOpts} {BL : BulkLimits}
    (higher : Z) (order : StoreOrder) (s : BulkSystem K W) (block : Block) : result (BulkSystem K W) :=
  Bulk_ConnectBlock block (storesBlockTxs higher block) order s.

(** ** The two functions *)

(** [p] is reached by a round of [ParallelConnectBlocks]. *)
Definition ParallelConnectBlocks {I : ChainIndex} (w : World) (rc : RoundConfig) (t : nat) (signal : bool) (x : ix * list Block)
    (p : Proc (ix * list Block) unit) : Prop :=
  rtc (procStep w rc parallelWrite) (Running (startRound rc t signal x)) p.

(** [p] is reached by a round of [BulkConnectBlocks] whose writer could start; the writer closes what is written when it
    ends. *)
Definition BulkConnectBlocks {V : Vlq} {P : ChainParser} {IX : IndexOpts} {K : KV} {W : AssetWire} {E : AssetEnv W} {G : Gcs} {FO : FilterOpts} {BL : BulkLimits}
    (w : World) (rc : RoundConfig) (t : nat) (signal : bool) (d : DB K) (cache : option (gmap Z (Asset W))) (p : Proc (BulkSystem K W) StoreOrder) : Prop :=
  exists b state, InitBulkConnect d = Ok (b, state) /\
    rtc (procStep w rc (bulkWrite (rc_higher rc))) (Running (startRound rc t signal (mkBulkSystem K W d cache b))) p.

(** ** The choice of the way to sync *)

Definition minParallelGap : Z := 4.

(** How [resyncIndex] connects what is missing, from the height of the first missing block and the best height of
    the backend. *)
Inductive SyncPlan := PlanBulk (lower higher : Z) | PlanParallel (lower higher syncWorkers : Z) | PlanSequential.

Definition syncPlan (syncWorkers syncChunk : Z) (initialSync isEthereumType : bool) (startHeight remoteBestHeight : Z) : SyncPlan :=
  let useParallel := (1 <? syncWorkers) && (initialSync || isEthereumType) in
  if negb useParallel || (remoteBestHeight <? startHeight) then PlanSequential
  else if initialSync && (u32 syncChunk <? u32 (remoteBestHeight - startHeight)) then PlanBulk startHeight remoteBestHeight
  else if isEthereumType && (minParallelGap <=? u32 (remoteBestHeight - startHeight))
  then PlanParallel startHeight remoteBestHeight (parallelSyncWorkerCount syncWorkers (u32 (remoteBestHeight - startHeight)))
  else PlanSequential.
