(* ===== verification/ParallelCorrect.v ===== *)
(** Theorems about the parallel download of blocks.

    - [writer_in_order]: whatever the interleaving and the answers of the backend, the writer receives the blocks of the
      range in order, each of them the block of the hash its height had.
    - [round_complete]: without a shutdown no round is stuck, and one that returns no error has written every
      block.
    - [round_terminates]: with a backend that answers, every run is finite. *)

From S2P Require Import Prelude Parser Sync ParallelSync.

Local Open Scope Z_scope.

(** ** Places of heights *)

Lemma omap_id_insert {A} (l : list (option A)) i o : l !! i = Some o ->
  exists rest, omap id l ≡ₚ option_list o ++ rest /\ forall o', omap id (<[i := o']> l) ≡ₚ option_list o' ++ rest.
Proof.
  intros H. exists (omap id (take i l) ++ omap id (drop (S i) l)). split.
  - rewrite <- (take_drop_middle l i o H) at 1. rewrite omap_app. cbn. destruct o as [x|]; cbn; [|done]. apply Permutation_sym, Permutation_middle.
  - intros o'. assert (Hi : (i < length l)%nat) by (by eapply lookup_lt_Some). rewrite insert_take_drop by done. rewrite omap_app. cbn.
    destruct o' as [x|]; cbn; [|done]. apply Permutation_sym, Permutation_middle.
Qed.

Lemma omap_id_length {A} (l : list (option A)) : (length (omap id l) <= length l)%nat.
Proof. induction l as [|[x|] l IH]; cbn; lia. Qed.

(** In a window of [n] heights every remainder occurs once. *)
Lemma window_mod d k n x : 0 < n -> k <= n -> x ∈ seqZ d k -> x mod n = d mod n -> x = d.
Proof.
  intros Hn Hk Hx Hm. apply elem_of_seqZ in Hx. assert ((x - d) mod n = 0) as H0.
  { rewrite Zminus_mod, Hm, Z.sub_diag. apply Z.mod_0_l. lia. }
  rewrite Z.mod_small in H0; lia.
Qed.

Lemma seqZ_snoc d k : 0 <= k -> seqZ d (k + 1) = seqZ d k ++ [d + k].
Proof. intros Hk. rewrite seqZ_app by lia. rewrite (seqZ_cons (d + k) 1) by lia. done. Qed.

Section Parallel.
Context {W O : Type} (w : World) (rc : RoundConfig) (write : O -> W -> Block -> result W).
Context (x0 : W).

Record round_ok : Prop := {
  ro_workers : 0 < rc_syncWorkers rc;
  ro_lower : 0 <= rc_lower rc < 2 ^ 32;
  ro_higher : 0 <= rc_higher rc < 2 ^ 32 - 1;
}.

(** The hash a height had, and its block. *)
Definition queued (hh : hashHeight) : Prop := exists t, sn_BlockHash (w t) (hh_height hh) = inr (hh_hash hh).
Definition fetchedFor (hh : hashHeight) (b : Block) : Prop := exists t, sn_Block (w t) (hh_hash hh) (hh_height hh) = inr b.

(** [GetBlock] answers a block of the height it is asked for. *)
Definition answersHeights : Prop := forall hh b, queued hh -> fetchedFor hh b -> blk_Height b = hh_height hh.

Definition served (b : Block) : Prop := exists hh, hh_height hh = blk_Height b /\ queued hh /\ fetchedFor hh b.

Fixpoint writeAll (blocks : list (Block * O)) (x : W) : result W :=
  match blocks with
  | [] => Ok x
  | (b, order) :: blocks => let! x := write order x b in writeAll blocks x
  end.

Lemma writeAll_snoc l b o x : writeAll (l ++ [(b, o)]) x = let! x := writeAll l x in write o x b.
Proof. revert x. induction l as [|[b' o'] l IH]; intros x; cbn; [by destruct (write o x b)|]. destruct (write o' x b'); cbn; [apply IH|done..]. Qed.

(** ** The invariant *)

Definition next (r : Round W O) : Z := rc_lower rc + Z.of_nat (length (r_log r)).
Definition top : Z := rc_lower rc `max` (rc_higher rc + 1).

(** A worker and the height it has taken and not delivered; one that has returned may have lost its height. *)
Definition ownOk (x : Worker) (o : option Z) : Prop :=
  match x with
  | WIdle => o = None
  | WGone => True
  | WFetch hh _ _ _ | WFailed hh _ _ _ _ | WAbort hh _ | WWait hh _ _ _ => o = Some (hh_height hh) /\ queued hh
  | WSend hh b => o = Some (hh_height hh) /\ queued hh /\ fetchedFor hh b
  end.

Definition coordErr (c : Coord) : option RoundError :=
  match c with
  | CLoop _ | CSend _ _ => None
  | CClose e | CFlag e | CWait e | CJoin e | CDrain e | CCloseBch e | CDone e | CReturned e => e
  end.

(** [q]: the first height that is not queued yet. *)
Definition coordAt (c : Coord) (q : Z) : Prop :=
  match c with
  | CLoop h => q = h
  | CSend hash h => q = h /\ h <= rc_higher rc /\ queued (mkHashHeight hash h)
  | c => coordErr c = None -> q = top
  end.

(** What the channels and flags say of the place of the coordinator. *)
Definition coordFlags (r : Round W O) : Prop :=
  match r_coord r with
  | CLoop _ | CSend _ _ => r_terminating r = false /\ r_hchShut r = false /\ r_bchShut r = false
  | CClose e => (r_terminating r = true <-> e <> None) /\ r_hchShut r = false /\ r_bchShut r = false
  | CFlag e | CWait e => (r_terminating r = true <-> e <> None) /\ r_hchShut r = true /\ r_bchShut r = false
  | CJoin e => r_terminating r = true /\ e <> None /\ r_hchShut r = true /\ r_bchShut r = false
  | CDrain e => (r_terminating r = true -> e <> None) /\ r_hchShut r = true /\ r_bchShut r = false /\ forallb gone (r_workers r) = true
  | CCloseBch e => (r_terminating r = true -> e <> None) /\ r_hchShut r = true /\ r_bchShut r = false /\ forallb gone (r_workers r) = true /\ r_abort r = None
  | CDone e => (r_terminating r = true -> e <> None) /\ r_hchShut r = true /\ r_bchShut r = true /\ forallb gone (r_workers r) = true /\ r_abort r = None
  | CReturned e => (r_terminating r = true -> e <> None) /\ r_hchShut r = true /\ r_bchShut r = true /\ forallb gone (r_workers r) = true /\ r_abort r = None /\ r_writer r = WrDone
  end.

(** Why a worker has returned: nothing was left, or, without a shutdown, the round has an error. *)
Definition goneOk (r : Round W O) (x : Worker) (o : option Z) : Prop :=
  x = WGone -> match o with
               | None => r_hch r = [] /\ r_hchShut r = true
               | Some _ => r_signal r = false -> r_abort r <> None \/ coordErr (r_coord r) <> None
               end.

(** [p]: the first height that is not taken yet; the workers own the heights between the writer and [p]. *)
Record Inv (r : Round W O) (p q : Z) (own : list (option Z)) : Prop := {
  i_workers : length (r_workers r) = Z.to_nat (rc_syncWorkers rc);
  i_range : next r <= p <= q /\ q <= top;
  i_hch : hh_height <$> r_hch r = seqZ p (q - p);
  i_queued : Forall queued (r_hch r);
  i_own : Forall2 ownOk (r_workers r) own;
  i_gone : Forall2 (goneOk r) (r_workers r) own;
  i_perm : omap id own ≡ₚ seqZ (next r) (p - next r);
  i_coord : coordAt (r_coord r) q;
  i_flags : coordFlags r;
  i_writer : match r_writer r with WrLoop last => last = u32 (next r - 1) | WrDone => r_bchShut r = true \/ r_terminating r = true end;
  i_log : blk_Height <$> (r_log r).*1 = seqZ (rc_lower rc) (Z.of_nat (length (r_log r)));
  i_served : Forall served (r_log r).*1;
  i_written : writeAll (r_log r) x0 = Ok (r_written r);
}.

Definition PInv (p : Proc W O) : Prop :=
  match p with
  | Running r => exists p q own, Inv r p q own
  | Fatal r order b => (exists p q own, Inv r p q own) /\ blk_Height b = next r /\ served b /\ (forall x, write order (r_written r) b <> Ok x)
  end.

Lemma start_inv t signal : round_ok -> Inv (startRound rc t signal x0) (rc_lower rc) (rc_lower rc) (replicate (Z.to_nat (rc_syncWorkers rc)) None).
Proof.
  intros [H1 H2 H3]. unfold startRound. split; cbn [r_workers r_hch r_log r_coord r_writer r_written r_terminating r_hchShut r_bchShut].
  - apply length_replicate.
  - unfold next, top. cbn. lia.
  - by rewrite Z.sub_diag.
  - done.
  - apply Forall2_replicate. done.
  - apply Forall2_replicate. done.
  - unfold next. cbn [r_log length]. replace (rc_lower rc - _) with 0 by lia. rewrite seqZ_nil by lia. by induction (Z.to_nat (rc_syncWorkers rc)).
  - done.
  - done.
  - unfold next. cbn. f_equal. lia.
  - done.
  - done.
  - done.
Qed.

(** ** Steps keep it *)

Lemma all_gone_lookup (l : list Worker) i x : forallb gone l = true -> l !! i = Some x -> x = WGone.
Proof. intros H Hi. rewrite forallb_forall in H. specialize (H x). rewrite <- list_elem_of_In in H. apply list_elem_of_lookup_2 in Hi. specialize (H Hi). by destruct x. Qed.

Lemma flags_alive r i x : coordFlags r -> r_workers r !! i = Some x -> x <> WGone ->
  match r_coord r with CDrain _ | CCloseBch _ | CDone _ | CReturned _ => False | _ => True end.
Proof.
  intros Hf Hi Hx. unfold coordFlags in Hf. destruct (r_coord r); try done; destruct Hf as (_ & _ & _ & Hf); [|destruct Hf as [Hf _]..]; by eapply Hx, all_gone_lookup.
Qed.

(** A worker moves on with the height it owns. *)
Lemma inv_set_worker r p q own i x x' o : Inv r p q own -> r_workers r !! i = Some x -> own !! i = Some o -> x <> WGone ->
  ownOk x' o -> goneOk r x' o -> Inv (set_worker i x' r) p q own.
Proof.
  intros [] Hi Ho Hx Hok Hg. pose proof (flags_alive _ _ _ i_flags0 Hi Hx) as Ha. split; cbn [set_worker r_workers r_hch r_log r_coord r_writer r_written]; try done.
  - by rewrite length_insert.
  - rewrite <- (list_insert_id own i o Ho). by apply Forall2_insert.
  - rewrite <- (list_insert_id own i o Ho). apply Forall2_insert; [|done]. exact i_gone0.
  - unfold coordFlags in *. cbn. by destruct (r_coord r).
Qed.

Lemma inv_set_time r p q own t : Inv r p q own -> Inv (set_time t r) p q own.
Proof. intros []. by split. Qed.

Lemma goneOk_mono (r r' : Round W O) own : r_hch r' = r_hch r -> (r_hchShut r = true -> r_hchShut r' = true) -> (r_signal r' = false -> r_signal r = false) ->
  (r_abort r <> None \/ coordErr (r_coord r) <> None -> r_abort r' <> None \/ coordErr (r_coord r') <> None) ->
  Forall2 (goneOk r) (r_workers r) own -> Forall2 (goneOk r') (r_workers r) own.
Proof.
  intros H1 H2 H3 H4 HF. eapply Forall2_impl; [exact HF|]. intros x o Hg ->. specialize (Hg eq_refl). destruct o; rewrite ?H1; naive_solver.
Qed.

Lemma inv_set_abort r p q own e i x : Inv r p q own -> r_workers r !! i = Some x -> x <> WGone -> Inv (set_abort (Some e) r) p q own.
Proof.
  intros [] Hi Hx. pose proof (flags_alive _ _ _ i_flags0 Hi Hx) as Ha. split; try done.
  - apply (goneOk_mono r); try done. intros _. by left.
  - unfold coordFlags in *. cbn. by destruct (r_coord r).
Qed.

Lemma inv_shutdown r p q own : Inv r p q own -> Inv (shutdown r) p q own.
Proof. intros []. split; try done. by apply (goneOk_mono r). Qed.

Lemma inv_lookup r p q own i x : Inv r p q own -> r_workers r !! i = Some x -> exists o, own !! i = Some o /\ ownOk x o /\ goneOk r x o.
Proof.
  intros [] Hi. destruct (Forall2_lookup_l _ _ _ _ _ i_own0 Hi) as (o & Ho & Hok). exists o. split; [done|]. split; [done|].
  exact (Forall2_lookup_lr _ _ _ _ _ _ i_gone0 Hi Ho).
Qed.

(** A worker that returns with a height does so after an abort, because the round ends, or on shutdown. *)
Lemma goneOk_stop r x p q own : Inv r p q own -> r_terminating r || r_signal r = true -> goneOk r WGone (Some x).
Proof.
  intros HI Hs _ Hsig. rewrite Hsig, orb_false_r in Hs. right. pose proof (i_flags _ _ _ _ HI) as Hf. unfold coordFlags in Hf.
  destruct (r_coord r); cbn; destruct Hf as [Hf1 Hf2]; solve [congruence|by apply Hf1|by apply Hf2].
Qed.

Lemma afterError_own closed hh n k s err t o : ownOk (WFailed hh n k s err) o ->
  ownOk (afterError w rc closed hh n k s err t).1 o /\ (afterError w rc closed hh n k s err t).1 <> WGone.
Proof.
  intros H. unfold afterError, stallCheck, onRetryableMiss. destruct (isRetryableGetBlockError err); [|destruct closed; by split].
  match goal with |- context [if ?c then (inr false, t) else ?e] => destruct (if c then (inr false, t) else e) as [[e'|[|]] t'] end;
    repeat case_match; by split.
Qed.

Lemma inv_take r p q own i hh hs : Inv r p q own -> r_workers r !! i = Some WIdle -> r_hch r = hh :: hs ->
  Inv (set_worker i (WFetch hh 0 0 (sn_Clock (w (r_time r)))) (set_hch hs r)) (p + 1) q (<[i := Some (hh_height hh)]> own).
Proof.
  intros HI Hi Hq. destruct (inv_lookup _ _ _ _ _ _ HI Hi) as (o & Ho & Hok & _). cbn in Hok. subst o.
  pose proof (flags_alive _ _ _ (i_flags _ _ _ _ HI) Hi ltac:(done)) as Ha. destruct HI. rewrite Hq in *. apply Forall_cons in i_queued0 as [Hh Hhs].
  destruct (decide (q = p)) as [->|Hne]; [by rewrite Z.sub_diag in i_hch0|]. rewrite seqZ_cons in i_hch0 by lia. injection i_hch0 as Hp Hr.
  destruct (omap_id_insert _ _ _ Ho) as (rest & H1 & H2). split; cbn [set_worker set_hch r_workers r_hch r_log r_coord r_writer r_written]; try done.
  - by rewrite length_insert.
  - unfold next in *. cbn. lia.
  - etrans; [exact Hr|]. f_equal; lia.
  - by apply Forall2_insert.
  - apply Forall2_insert; [|done]. eapply Forall2_impl; [exact i_gone0|]. intros x o Hg ->. specialize (Hg eq_refl). destruct o; [exact Hg|]. destruct Hg; congruence.
  - rewrite H2. cbn. rewrite H1 in i_perm0. cbn in i_perm0. change (next (set_worker _ _ _)) with (next r).
    replace (p + 1 - next r) with (p - next r + 1) by lia. rewrite seqZ_snoc, <- i_perm0 by lia. rewrite Hp. replace (next r + (p - next r)) with p by lia. apply Permutation_cons_append.
  - unfold coordFlags in *. cbn. by destruct (r_coord r).
Qed.

Lemma worker_inv r p q own i pick r' : rc_dryRun rc = false -> Inv r p q own -> getBlockWorker w rc i pick r = Some r' -> exists p' own', Inv r' p' q own'.
Proof.
  intros Hdry HI. unfold getBlockWorker. destruct (r_workers r !! i) as [x|] eqn:Hi; [|done]. destruct (inv_lookup _ _ _ _ _ _ HI Hi) as (o & Ho & Hok & _).
  assert (Hmove : forall x' r1, Inv r1 p q own -> r_workers r1 = r_workers r -> x <> WGone -> ownOk x' o -> goneOk r1 x' o -> exists p' own', Inv (set_worker i x' r1) p' q own').
  { intros x' r1 H1 H2 H3 H4 H5. exists p, own. eapply inv_set_worker; [done|by rewrite H2|done..]. }
  destruct x as [|hh n k s|hh n k s err|hh e|hh n k s|hh b|]; cbn in Hok.
  - destruct (r_hch r) as [|hh hs] eqn:Hq.
    + destruct (r_hchShut r) eqn:Hs; [|done]. intros [= <-]. apply Hmove; try done. subst o. by intros _.
    + intros [= <-]. eexists _, _. by apply inv_take.
  - destruct Hok as [-> Hqd]. destruct (r_terminating r || r_signal r) eqn:Hstop; [intros [= <-]; apply Hmove; try done; by eapply goneOk_stop|].
    destruct (sn_Block (w (r_time r)) (hh_hash hh) (hh_height hh)) as [err|b] eqn:Hb; rewrite ?Hdry; intros [= <-]; (apply Hmove; [by apply inv_set_time|done|done| |done]); cbn; try done.
    split; [done|]. split; [done|]. by eexists.
  - destruct (afterError_own (r_hchClosed r) hh n k s err (r_time r) o Hok) as [H1 H2].
    destruct (afterError w rc (r_hchClosed r) hh n k s err (r_time r)) as [x' t]. intros [= <-]. apply Hmove; [by apply inv_set_time|done..|]. by intros ->.
  - destruct Hok as [-> Hqd]. intros [= <-]. destruct (r_abort r) as [e'|] eqn:Ea.
    + apply Hmove; try done. intros _ _. left. by rewrite Ea.
    + apply Hmove; [by eapply inv_set_abort|done..|]. intros _ _. by left.
  - destruct Hok as [-> Hqd]. destruct pick; [done| |intros [= <-]; by apply Hmove].
    destruct (r_terminating r || r_signal r) eqn:Hstop; [|done]. intros [= <-]. apply Hmove; try done. by eapply goneOk_stop.
  - destruct Hok as (-> & Hqd & Hf). destruct (r_terminating r) eqn:Ht; [|done]. intros [= <-]. apply Hmove; try done. eapply goneOk_stop; [done|]. by rewrite Ht.
  - done.
Qed.

Lemma owned_window r p q own i x : Inv r p q own -> own !! i = Some (Some x) -> x ∈ seqZ (next r) (p - next r).
Proof. intros [] Ho. rewrite <- i_perm0. apply list_elem_of_omap. exists (Some x). split; [by eapply list_elem_of_lookup_2|done]. Qed.

(** The writer gets the block it waits for: within the window of the workers the remainder of a height names it. *)
Lemma window_size r p q own : round_ok -> Inv r p q own -> p - next r <= rc_syncWorkers rc.
Proof.
  intros [] []. pose proof (Permutation_length i_perm0) as Hl. rewrite length_seqZ in Hl. pose proof (omap_id_length own) as Ho.
  apply Forall2_length in i_own0. lia.
Qed.

Lemma inv_received r p q own i hh b : round_ok -> answersHeights -> Inv r p q own -> r_workers r !! i = Some (WSend hh b) ->
  (hh_height hh) mod (rc_syncWorkers rc) = next r mod (rc_syncWorkers rc) -> hh_height hh = next r /\ blk_Height b = next r /\ next r < p /\ served b.
Proof.
  intros Hro Hans HI Hi Hm. destruct (inv_lookup _ _ _ _ _ _ HI Hi) as (o & Ho & (-> & Hq & Ht) & _). pose proof (window_size _ _ _ _ Hro HI) as Hw. pose proof (owned_window _ _ _ _ _ _ HI Ho) as Hin. destruct HI.
  assert (hh_height hh = next r) as E by (eapply window_mod; [apply (ro_workers Hro)|..]; done).
  split; [done|]. pose proof (Hans _ _ Hq Ht) as Hb. split; [lia|]. split; [apply elem_of_seqZ in Hin; lia|]. exists hh. split; [lia|]. by split.
Qed.

Lemma next_u32 r p q own : round_ok -> Inv r p q own -> next r < p -> u32 (u32 (next r - 1) + 1) = next r.
Proof.
  intros [H1 H2 H3] [] Hp. unfold top in *. unfold u32. rewrite Zplus_mod_idemp_l. rewrite Z.sub_add. apply Z.mod_small. unfold next in *. lia.
Qed.

Lemma inv_written r p q own i hh b order x : round_ok -> Inv r p q own -> r_workers r !! i = Some (WSend hh b) -> r_writer r = WrLoop (u32 (next r - 1)) ->
  hh_height hh = next r -> blk_Height b = next r -> next r < p -> served b -> write order (r_written r) b = Ok x ->
  Inv (mkRound (r_time r) (r_hch r) (r_hchShut r) (r_hchClosed r) (r_abort r) (r_terminating r) (r_signal r) (r_bchShut r)
         (<[i := WIdle]> (r_workers r)) (r_coord r) (WrLoop (blk_Height b)) x (r_log r ++ [(b, order)])) p q (<[i := None]> own).
Proof.
  intros Hro HI Hi Hwr Hh Hb Hp Hs Hx. pose proof (next_u32 _ _ _ _ Hro HI Hp) as Hu.
  destruct (inv_lookup _ _ _ _ _ _ HI Hi) as (o & Ho & (-> & Hq & Hf) & _). pose proof (flags_alive _ _ _ (i_flags _ _ _ _ HI) Hi ltac:(done)) as Ha. destruct HI.
  destruct (omap_id_insert _ _ _ Ho) as (rest & H1 & H2). set (r' := mkRound _ _ _ _ _ _ _ _ _ _ _ _ _).
  assert (Hn : next r' = next r + 1) by (unfold next, r'; cbn; rewrite length_app; cbn; lia).
  split; cbn [r' r_workers r_hch r_log r_coord r_writer r_written]; try done.
  - by rewrite length_insert.
  - lia.
  - by apply Forall2_insert.
  - apply Forall2_insert; [exact i_gone0|done].
  - rewrite H2, Hn. cbn. rewrite H1 in i_perm0. cbn in i_perm0. rewrite Hh, seqZ_cons in i_perm0 by lia. apply Permutation_cons_inv in i_perm0. rewrite i_perm0.
    replace (Z.pred (p - next r)) with (p - (next r + 1)) by lia. by rewrite Z.add_1_r.
  - unfold coordFlags in *. cbn. by destruct (r_coord r).
  - rewrite Hn, Hb. destruct Hro as [? ? ?]. unfold top in *. unfold u32. rewrite Z.mod_small; unfold next in *; lia.
  - rewrite fmap_app, fmap_app, length_app, i_log0. cbn. replace (Z.of_nat (length (r_log r) + 1)) with (Z.of_nat (length (r_log r)) + 1) by lia.
    rewrite seqZ_snoc by lia. f_equal. by rewrite Hb.
  - rewrite fmap_app. apply Forall_app. by split; [|constructor].
  - by rewrite writeAll_snoc, i_written0.
Qed.

Lemma receive_inv r p q own i order pr : round_ok -> answersHeights -> Inv r p q own -> receive rc write i order r = Some pr -> PInv pr.
Proof.
  intros Hro Hans HI. unfold receive. destruct (r_writer r) as [last|] eqn:Hwr; [|done]. destruct (r_workers r !! i) as [[| | | | |hh b|]|] eqn:Hi; try done.
  pose proof (i_writer _ _ _ _ HI) as Hl. rewrite Hwr in Hl. subst last.
  destruct (Z.eqb_spec (hh_height hh mod rc_syncWorkers rc) (u32 (u32 (next r - 1) + 1) mod rc_syncWorkers rc)) as [Hm|]; [|done].
  assert (Hnp : next r < p).
  { destruct (inv_lookup _ _ _ _ _ _ HI Hi) as (o & Ho & (-> & _) & _). pose proof (owned_window _ _ _ _ _ _ HI Ho) as Hin. apply elem_of_seqZ in Hin. lia. }
  rewrite (next_u32 _ _ _ _ Hro HI Hnp) in *. destruct (inv_received _ _ _ _ _ _ _ Hro Hans HI Hi Hm) as (Hh & Hb & _ & Hs).
  rewrite Hb, Z.eqb_refl. cbn [negb]. destruct (write order (r_written r) b) as [x|e|] eqn:Hx; intros [= <-].
  - eexists _, _, _. rewrite <- Hb at 1. by eapply inv_written.
  - split; [by eexists _, _, _|]. by rewrite Hx.
  - split; [by eexists _, _, _|]. by rewrite Hx.
Qed.

Lemma writerEnds_inv r p q own r' : Inv r p q own -> writerEnds r = Some r' -> Inv r' p q own.
Proof.
  intros HI. unfold writerEnds. destruct (r_writer r) eqn:Hwr; [|done]. destruct (r_bchShut r || r_terminating r) eqn:Hs; [|done]. intros [= <-].
  destruct HI. split; try done.
  - unfold coordFlags in *. cbn. destruct (r_coord r); try done. destruct i_flags0 as (? & ? & ? & ? & ? & E). by rewrite Hwr in E.
  - cbn. by apply orb_true_iff in Hs.
Qed.

(** The coordinator moves on; nothing but its place, the abort and the closed channels changes. *)
Lemma inv_coord r p q own r' : Inv r p q own ->
  r_workers r' = r_workers r -> r_hch r' = r_hch r -> r_log r' = r_log r -> r_written r' = r_written r -> r_writer r' = r_writer r -> r_signal r' = r_signal r ->
  (r_terminating r = true -> r_terminating r' = true) -> (r_bchShut r = true -> r_bchShut r' = true) -> (r_hchShut r = true -> r_hchShut r' = true) ->
  (r_abort r <> None \/ coordErr (r_coord r) <> None -> r_abort r' <> None \/ coordErr (r_coord r') <> None) ->
  coordAt (r_coord r') q -> coordFlags r' -> Inv r' p q own.
Proof.
  intros [] Ew Eh El Ex Er Es Ht Hb Hs Ha Hc Hf. assert (En : next r' = next r) by (unfold next; by rewrite El).
  split; rewrite ?En, ?Ew, ?Eh, ?El, ?Ex, ?Er; try done.
  - eapply goneOk_mono; [done|done|by rewrite Es|done|done].
  - destruct (r_writer r); [done|]. naive_solver.
Qed.

Lemma coordinator_inv r p q own pick r' : round_ok -> Inv r p q own -> coordinator w rc pick r = Some r' -> exists q', Inv r' p q' own.
Proof.
  intros Hro HI. unfold coordinator. pose proof (i_flags _ _ _ _ HI) as Hf. pose proof (i_coord _ _ _ _ HI) as Hc. pose proof (i_range _ _ _ _ HI) as Hr. unfold coordFlags in Hf.
  destruct (r_coord r) as [h|hash h|err|err|err|err|err|err|err|err] eqn:Ec; cbn in Hc.
  - destruct Hf as (H1 & H2 & H3). subst q. destruct (Z.ltb_spec (rc_higher rc) h) as [Hh|Hh].
    + intros [= <-]. exists h. eapply inv_coord; try done; cbn; [by rewrite Ec| |].
      * intros _. unfold top, next in *. lia.
      * unfold coordFlags. cbn. rewrite H1. by split.
    + destruct pick, (r_abort r) as [e|] eqn:Ea; try done.
      * intros [= <-]. exists h. eapply inv_coord; try done; cbn; auto; unfold coordFlags; by cbn.
      * destruct (r_signal r); [|done]. intros [= <-]. exists h. eapply inv_coord; try done; cbn; auto; unfold coordFlags; by cbn.
      * destruct (r_signal r); [|done]. intros [= <-]. exists h. eapply inv_coord; try done; cbn; auto; unfold coordFlags; by cbn.
      * destruct (r_signal r); [done|]. destruct (sn_BlockHash (w (r_time r)) h) as [?|hash] eqn:Eh; intros [= <-]; exists h.
        -- by apply inv_set_time.
        -- eapply inv_coord; try done; cbn; try (by rewrite Ec). split; [done|]. split; [done|]. by eexists.
  - destruct Hf as (H1 & H2 & H3), Hc as (-> & Hh & Hq). destruct pick.
    + destruct (r_abort r) as [e|] eqn:Ea; [|done]. intros [= <-]. exists h. eapply inv_coord; try done; cbn; auto; unfold coordFlags; by cbn.
    + destruct (r_signal r); [|done]. intros [= <-]. exists h. eapply inv_coord; try done; cbn; auto; unfold coordFlags; by cbn.
    + destruct (Z.ltb_spec (Z.of_nat (length (r_hch r))) (rc_syncWorkers rc)); [|done]. intros [= <-]. exists (h + 1).
      destruct HI. split; cbn [set_coord set_hch r_workers r_hch r_log r_coord r_writer r_written]; try done.
      * change (next (set_coord _ _)) with (next r). unfold top. lia.
      * rewrite fmap_app, i_hch0. cbn. replace (h + 1 - p) with (h - p + 1) by lia. rewrite seqZ_snoc by lia. do 2 f_equal. lia.
      * apply Forall_app. by split; [|constructor].
      * eapply Forall2_impl; [exact i_gone0|]. intros x o Hg ->. specialize (Hg eq_refl). destruct o; cbn in *; [rewrite Ec in Hg; exact Hg|]. destruct Hg; congruence.
      * cbn. destruct Hro. unfold u32. rewrite Z.mod_small; [done|]. unfold next, top in *. lia.
  - intros [= <-]. exists q. destruct Hf as (H1 & H2 & H3). eapply inv_coord; try done; cbn; try (by rewrite Ec); unfold coordFlags; by cbn.
  - intros [= <-]. exists q. destruct Hf as (H1 & H2 & H3). eapply inv_coord; try done; cbn; try (by rewrite Ec); unfold coordFlags; by cbn.
  - destruct Hf as (H1 & H2 & H3). destruct pick; [|done|].
    + destruct (r_abort r) as [e|]; [|done]. intros [= <-]. exists q. assert (firstError err e <> None) by (by destruct err).
      eapply inv_coord; try done; cbn; auto; unfold coordFlags; by cbn.
    + destruct (forallb gone (r_workers r)) eqn:Hg; [|done]. intros [= <-]. exists q. eapply inv_coord; try done; cbn; [by rewrite Ec|]. unfold coordFlags. cbn. naive_solver.
  - destruct Hf as (H1 & H2 & H3 & H4). destruct (forallb gone (r_workers r)) eqn:Hg; [|done]. intros [= <-]. exists q. eapply inv_coord; try done; cbn; try (by rewrite Ec); unfold coordFlags; by cbn.
  - destruct Hf as (H1 & H2 & H3 & H4). destruct (r_abort r) as [e|] eqn:Ea; intros [= <-]; exists q.
    + assert (firstError err e <> None) by (by destruct err). eapply inv_coord; try done; cbn; auto; unfold coordFlags; by cbn.
    + eapply inv_coord; try done; cbn; try (by rewrite Ec); unfold coordFlags; by cbn.
  - intros [= <-]. destruct Hf as (H1 & H2 & H3 & H4). exists q. eapply inv_coord; try done; cbn; try (by rewrite Ec); unfold coordFlags; by cbn.
  - destruct Hf as (H1 & H2 & H3 & H4 & H5). destruct (r_writer r) eqn:Ew; [done|]. intros [= <-]. exists q. eapply inv_coord; try done; cbn; try (by rewrite Ec); unfold coordFlags; by cbn.
  - done.
Qed.

Lemma procStep_inv p p' : round_ok -> answersHeights -> rc_dryRun rc = false -> procStep w rc write p p' -> PInv p -> PInv p'.
Proof.
  intros Hro Hans Hdry (r & l & -> & Hl) (a & q & own & HI). destruct l as [|pick|i pick|i order|]; cbn in Hl.
  - destruct (r_signal r); [done|]. injection Hl as <-. eexists _, _, _. by apply inv_shutdown.
  - destruct (coordinator w rc pick r) eqn:E; [|done]. injection Hl as <-. destruct (coordinator_inv _ _ _ _ _ _ Hro HI E) as [q' H]. by eexists _, _, _.
  - destruct (getBlockWorker w rc i pick r) eqn:E; [|done]. injection Hl as <-. destruct (worker_inv _ _ _ _ _ _ _ Hdry HI E) as (p1 & own1 & H). by eexists _, _, _.
  - by eapply receive_inv.
  - destruct (writerEnds r) eqn:E; [|done]. injection Hl as <-. eexists _, _, _. by eapply writerEnds_inv.
Qed.

Lemma reached_inv t signal p : round_ok -> answersHeights -> rc_dryRun rc = false -> rtc (procStep w rc write) (Running (startRound rc t signal x0)) p -> PInv p.
Proof.
  intros Hro Hans Hdry H. assert (Hg : forall p0, rtc (procStep w rc write) p0 p -> PInv p0 -> PInv p).
  { induction 1 as [|a b c Hab _ IH]; [done|]. intros Ha. eapply IH, procStep_inv; done. }
  apply (Hg _ H). eexists _, _, _. by apply start_inv.
Qed.

(** ** No round is stuck *)

Context (o0 : O).

(** A step that is not a shutdown. *)
Definition canStep (r : Round W O) : Prop := exists l p', l <> LShutdown /\ roundStep w rc write l r = Some p'.

Lemma canStep_worker r i pick r' : getBlockWorker w rc i pick r = Some r' -> canStep r.
Proof. intros H. exists (LWorker i pick), (Running r'). split; [done|]. cbn. by rewrite H. Qed.

Lemma canStep_coord r pick r' : coordinator w rc pick r = Some r' -> canStep r.
Proof. intros H. exists (LCoord pick), (Running r'). split; [done|]. cbn. by rewrite H. Qed.

(** A worker waits only for a hash or for the writer. *)
Lemma worker_waits r i x : r_workers r !! i = Some x -> canStep r \/ match x with
  | WIdle => r_hch r = [] /\ r_hchShut r = false | WSend _ _ => r_terminating r = false | WGone => True | _ => False end.
Proof.
  intros Hi. destruct x as [|hh n k s|hh n k s err|hh e|hh n k s|hh b|].
  - destruct (r_hch r) as [|hh hs] eqn:Eh.
    + destruct (r_hchShut r) eqn:Es; [|by right]. left. eapply (canStep_worker r i PickOther). unfold getBlockWorker. rewrite Hi, Eh, Es. reflexivity.
    + left. eapply (canStep_worker r i PickOther). unfold getBlockWorker. rewrite Hi, Eh. reflexivity.
  - left. destruct (getBlockWorker w rc i PickOther r) as [r'|] eqn:E; [by eapply canStep_worker|]. exfalso. revert E. unfold getBlockWorker. rewrite Hi. repeat case_match; done.
  - left. destruct (getBlockWorker w rc i PickOther r) as [r'|] eqn:E; [by eapply canStep_worker|]. exfalso. revert E. unfold getBlockWorker. rewrite Hi. case_match; done.
  - left. eapply (canStep_worker r i PickOther). unfold getBlockWorker. rewrite Hi. reflexivity.
  - left. eapply (canStep_worker r i PickOther). unfold getBlockWorker. rewrite Hi. reflexivity.
  - destruct (r_terminating r) eqn:Et; [|by right]. left. eapply (canStep_worker r i PickOther). unfold getBlockWorker. rewrite Hi, Et. reflexivity.
  - by right.
Qed.

(** While the round runs without an error, the worker with the next height is at work or hands it over. *)
Lemma next_worker r p q own : round_ok -> answersHeights -> Inv r p q own -> r_signal r = false -> r_abort r = None -> coordErr (r_coord r) = None ->
  r_bchShut r = false -> r_terminating r = false -> next r < p -> canStep r.
Proof.
  intros Hro Hans HI Hsig Hab Herr Hbch Hterm Hp.
  assert (Hin : next r ∈ omap id own) by (rewrite (i_perm _ _ _ _ HI); apply elem_of_seqZ; lia).
  apply list_elem_of_omap in Hin as (o & Hin & Ho). cbn in Ho. subst o. apply list_elem_of_lookup in Hin as [i Hi].
  destruct (Forall2_lookup_r _ _ _ _ _ (i_own _ _ _ _ HI) Hi) as (x & Hx & Hok). pose proof (Forall2_lookup_lr _ _ _ _ _ _ (i_gone _ _ _ _ HI) Hx Hi) as Hg.
  destruct (worker_waits r i x Hx) as [|Hw]; [done|]. destruct x as [| | | | |hh b|]; try done; [| by destruct (Hg eq_refl Hsig)].
  destruct Hok as (E & _ & _). injection E as E. pose proof (i_writer _ _ _ _ HI) as Hl. destruct (r_writer r) as [last|] eqn:Ewr; [|destruct Hl; congruence].
  destruct (receive rc write i o0 r) as [pr|] eqn:Er; [exists (LReceive i o0), pr; by split|]. exfalso. revert Er. unfold receive. rewrite Ewr, Hx. subst last.
  rewrite (next_u32 _ _ _ _ Hro HI Hp), <- E, Z.eqb_refl. repeat case_match; done.
Qed.

Lemma workers_nonempty r p q own : round_ok -> Inv r p q own -> exists i x, r_workers r !! i = Some x.
Proof. intros [H _ _] []. destruct (r_workers r) as [|x l]; [cbn in *; lia|]. by exists 0%nat, x. Qed.

(** A worker is alive: something can be done, or it waits for a hash. *)
Lemma alive_steps r p q own i x : round_ok -> answersHeights -> Inv r p q own -> r_signal r = false -> r_abort r = None -> r_bchShut r = false ->
  (r_terminating r = true \/ coordErr (r_coord r) = None /\ r_terminating r = false) -> r_workers r !! i = Some x -> x <> WGone ->
  canStep r \/ x = WIdle /\ r_hch r = [] /\ r_hchShut r = false.
Proof.
  intros Hro Hans HI Hsig Hab Hbch Hterm Hi Hx. destruct (worker_waits r i x Hi) as [|Hw]; [by left|]. destruct x as [| | | | |hh b|]; try done; [by right|]. left.
  destruct Hterm as [|[Herr Ht]]; [congruence|]. destruct (inv_lookup _ _ _ _ _ _ HI Hi) as (o & Ho & (-> & _) & _).
  pose proof (owned_window _ _ _ _ _ _ HI Ho) as Hin. apply elem_of_seqZ in Hin. eapply next_worker; try done. lia.
Qed.

Lemma not_all_gone (l : list Worker) : forallb gone l = false -> exists i x, l !! i = Some x /\ x <> WGone.
Proof. induction l as [|x l IH]; [done|]. cbn. destruct x; try (by exists 0%nat; eexists). intros H. destruct (IH H) as (i & y & ? & ?). by exists (S i), y. Qed.

Lemma round_progress r p q own : round_ok -> answersHeights -> Inv r p q own -> r_signal r = false -> (forall err, r_coord r <> CReturned err) -> canStep r.
Proof.
  intros Hro Hans HI Hsig Hret. pose proof (i_flags _ _ _ _ HI) as Hf. pose proof (i_coord _ _ _ _ HI) as Hc. unfold coordFlags in Hf.
  assert (Hco : forall pick r', coordinator w rc pick r = Some r' -> canStep r) by (intros; by eapply canStep_coord).
  destruct (r_coord r) as [h|hash h|err|err|err|err|err|err|err|err] eqn:Ec; unfold coordinator in Hco; rewrite Ec in Hco; try (by eapply (Hco PickOther)); [..|by destruct (Hret err)].
  - rewrite Hsig in Hco. destruct (rc_higher rc <? h); [by eapply (Hco PickOther)|]. destruct (r_abort r); [by eapply (Hco PickAbort)|]. destruct (sn_BlockHash (w (r_time r)) h); by eapply (Hco PickOther).
  - destruct Hf as (H1 & H2 & H3). destruct (r_abort r) eqn:Ea; [by eapply (Hco PickAbort)|].
    destruct (Z.ltb_spec (Z.of_nat (length (r_hch r))) (rc_syncWorkers rc)) as [|Hlen]; [by eapply (Hco PickOther)|].
    destruct (workers_nonempty _ _ _ _ Hro HI) as (i & x & Hi). assert (Hne : r_hch r <> []) by (intros E; rewrite E in Hlen; cbn in Hlen; destruct Hro; lia).
    assert (Hx : x <> WGone).
    { intros ->. destruct (inv_lookup _ _ _ _ _ _ HI Hi) as (o & Ho & _ & Hg). specialize (Hg eq_refl). destruct o; [|naive_solver]. rewrite Ec in Hg. by destruct (Hg Hsig). }
    destruct (alive_steps r p q own i x) as [|(_ & E & _)]; try done. right. by rewrite Ec.
  - destruct Hf as (H1 & H2 & H3). destruct (forallb gone (r_workers r)) eqn:Eg; [by eapply (Hco PickOther)|]. destruct (r_abort r) eqn:Ea; [by eapply (Hco PickAbort)|].
    destruct (not_all_gone _ Eg) as (i & x & Hi & Hx). destruct (alive_steps r p q own i x) as [|(_ & _ & E)]; try done; [|congruence].
    rewrite Ec. cbn. destruct err; [left; by apply H1|right]. split; [done|]. destruct (r_terminating r); [|done]. by destruct (proj1 H1 eq_refl).
  - destruct Hf as (H1 & H2 & H3 & H4). destruct (forallb gone (r_workers r)) eqn:Eg; [by eapply (Hco PickOther)|].
    destruct (not_all_gone _ Eg) as (i & x & Hi & Hx). destruct (worker_waits r i x Hi) as [|Hw]; [done|]. destruct x; try done; [destruct Hw|]; congruence.
  - destruct (r_abort r); by eapply (Hco PickOther).
  - destruct Hf as (H1 & H2 & H3 & H4). destruct (r_writer r) eqn:Ew; [|by eapply (Hco PickOther)].
    exists LWriterEnds. eexists. split; [done|]. cbn. unfold writerEnds. rewrite Ew, H3. reflexivity.
Qed.

(** ** Complete rounds *)

Lemma returned_complete r p q own : round_ok -> Inv r p q own -> r_signal r = false -> r_coord r = CReturned None -> next r = top.
Proof.
  intros Hro HI Hsig Ec. pose proof (i_flags _ _ _ _ HI) as Hf. pose proof (i_coord _ _ _ _ HI) as Hc. unfold coordFlags in Hf. rewrite Ec in Hf, Hc. specialize (Hc eq_refl). subst q.
  destruct Hf as (_ & _ & _ & Hg & Ha & _). destruct (i_range _ _ _ _ HI) as [Hr _].
  assert (Hnone : forall i o, own !! i = Some o -> o = None /\ r_hch r = []).
  { intros i o Ho. destruct (Forall2_lookup_r _ _ _ _ _ (i_gone _ _ _ _ HI) Ho) as (x & Hx & Hgo). specialize (Hgo (all_gone_lookup _ _ _ Hg Hx)).
    destruct o; [|naive_solver]. rewrite Ha, Ec in Hgo. by destruct (Hgo Hsig). }
  destruct (workers_nonempty _ _ _ _ Hro HI) as (i & x & Hi). destruct (inv_lookup _ _ _ _ _ _ HI Hi) as (o & Ho & _). destruct (Hnone _ _ Ho) as [_ Hq].
  pose proof (i_hch _ _ _ _ HI) as H1. rewrite Hq in H1. apply (f_equal length) in H1. rewrite length_seqZ in H1. cbn in H1.
  assert (H2 : omap id own = []).
  { destruct (omap id own) as [|y l] eqn:E; [done|]. assert (Hy : y ∈ omap id own) by (rewrite E; by left). apply list_elem_of_omap in Hy as (o' & Hin & Ho').
    cbn in Ho'. subst o'. apply list_elem_of_lookup in Hin as [j Hj]. by destruct (Hnone _ _ Hj). }
  pose proof (i_perm _ _ _ _ HI) as H3. rewrite H2 in H3. apply Permutation_length in H3. rewrite length_seqZ in H3. cbn in H3. lia.
Qed.

Lemma log_complete r p q own : Inv r p q own -> next r = top -> blk_Height <$> (r_log r).*1 = seqZ (rc_lower rc) (rc_higher rc + 1 - rc_lower rc).
Proof.
  intros HI Hn. rewrite (i_log _ _ _ _ HI). unfold next, top in Hn. destruct (Z.le_gt_cases (rc_lower rc) (rc_higher rc + 1)); [f_equal; lia|].
  rewrite !seqZ_nil; [done|lia|lia].
Qed.

(** ** Termination *)

(** The backend knows the heights of the range and the blocks of the hashes it has given. *)
Record responsive : Prop := {
  rs_hash t h : rc_lower rc <= h <= rc_higher rc -> exists hash, sn_BlockHash (w t) h = inr hash;
  rs_block t hh : queued hh -> exists b, sn_Block (w t) (hh_hash hh) (hh_height hh) = inr b;
}.

Definition calm (x : Worker) : Prop := match x with WFailed _ _ _ _ _ | WAbort _ _ | WWait _ _ _ _ => False | _ => True end.

(** Without errors of the backend only a shutdown ends the round early. *)
Record Calm (r : Round W O) : Prop := {
  cm_workers : Forall calm (r_workers r);
  cm_abort : r_abort r = None;
  cm_err : coordErr (r_coord r) <> None -> r_signal r = true;
}.

Definition coordRank (c : Coord) : Z :=
  match c with
  | CLoop h => 6 * (0 `max` (rc_higher rc + 1 - h)) + 8
  | CSend _ h => 6 * (rc_higher rc + 1 - h) + 7
  | CClose _ => 7 | CFlag _ => 6 | CWait _ => 5 | CJoin _ => 4 | CDrain _ => 3 | CCloseBch _ => 2 | CDone _ => 1 | CReturned _ => 0
  end.

Definition workerRank (x : Worker) : Z := match x with WIdle => 1 | WGone => 0 | WSend _ _ => 2 | _ => 3 end.

Fixpoint sumRanks (l : list Worker) : Z := match l with [] => 0 | x :: l => workerRank x + sumRanks l end.

Definition rank (r : Round W O) : Z :=
  coordRank (r_coord r) + 4 * Z.of_nat (length (r_hch r)) + sumRanks (r_workers r)
  + (match r_writer r with WrLoop _ => 1 | WrDone => 0 end) + (if r_signal r then 0 else 1).

Lemma sumRanks_insert l i x x' : l !! i = Some x -> sumRanks (<[i := x']> l) = sumRanks l - workerRank x + workerRank x'.
Proof.
  revert i. induction l as [|y l IH]; intros [|i] H; [done..| |].
  - injection H as ->. change (<[0%nat := x']> (x :: l)) with (x' :: l). cbn [sumRanks]. lia.
  - change (<[S i := x']> (y :: l)) with (y :: <[i := x']> l). cbn [sumRanks]. rewrite (IH i H). lia.
Qed.

Lemma sumRanks_pos l : 0 <= sumRanks l.
Proof. induction l as [|x l IH]; cbn; [done|]. destruct x; cbn; lia. Qed.

Lemma rank_pos r p q own : Inv r p q own -> 0 <= rank r.
Proof.
  intros HI. pose proof (i_coord _ _ _ _ HI) as Hc. pose proof (sumRanks_pos (r_workers r)). unfold rank.
  assert (0 <= coordRank (r_coord r)) by (destruct (r_coord r); cbn in *; lia). destruct (r_writer r), (r_signal r); lia.
Qed.

Lemma worker_rank r p q own i pick r' : rc_dryRun rc = false -> responsive -> Inv r p q own -> Calm r -> getBlockWorker w rc i pick r = Some r' -> Calm r' /\ rank r' < rank r.
Proof.
  intros Hdry Hres HI [C1 C2 C3]. unfold getBlockWorker. destruct (r_workers r !! i) as [x|] eqn:Hi; [|done]. destruct (inv_lookup _ _ _ _ _ _ HI Hi) as (o & Ho & Hok & _).
  pose proof (Forall_lookup_1 _ _ _ _ C1 Hi) as Hx.
  assert (Hmove : forall x' t, calm x' -> workerRank x' < workerRank x -> Calm (set_worker i x' (set_time t r)) /\ rank (set_worker i x' (set_time t r)) < rank r).
  { intros x' t H1 H2. split; [split; [by apply Forall_insert|done..]|]. unfold rank. cbn. rewrite (sumRanks_insert _ _ _ _ Hi). lia. }
  assert (Hmove0 : forall x', calm x' -> workerRank x' < workerRank x -> Calm (set_worker i x' r) /\ rank (set_worker i x' r) < rank r) by (intros x'; apply (Hmove x' (r_time r))).
  destruct x as [|hh n k s|hh n k s err|hh e|hh n k s|hh b|]; cbn in Hok; try done.
  - destruct (r_hch r) as [|hh hs] eqn:Hq.
    + destruct (r_hchShut r); [|done]. intros [= <-]. by apply Hmove0.
    + intros [= <-]. split; [split; [by apply Forall_insert|done..]|]. unfold rank. cbn. rewrite (sumRanks_insert _ _ _ _ Hi), Hq. cbn [length workerRank]. lia.
  - destruct Hok as [_ Hqd]. destruct (r_terminating r || r_signal r); [intros [= <-]; by apply Hmove0|]. destruct (rs_block Hres (r_time r) hh Hqd) as [b ->]. rewrite Hdry.
    intros [= <-]. by apply Hmove.
  - destruct (r_terminating r); [|done]. intros [= <-]. by apply Hmove0.
Qed.

Lemma coordinator_rank r p q own pick r' : round_ok -> responsive -> Inv r p q own -> Calm r -> coordinator w rc pick r = Some r' -> Calm r' /\ rank r' < rank r.
Proof.
  intros Hro Hres HI [C1 C2 C3]. unfold coordinator. pose proof (i_coord _ _ _ _ HI) as Hc. pose proof (i_range _ _ _ _ HI) as Hr. pose proof (i_flags _ _ _ _ HI) as Hf. unfold coordFlags in Hf.
  assert (Hmove : forall c r1, r_workers r1 = r_workers r -> r_abort r1 = None -> r_signal r1 = r_signal r -> r_hch r1 = r_hch r -> r_writer r1 = r_writer r ->
    (coordErr c <> None -> r_signal r = true) -> coordRank c < coordRank (r_coord r) -> Calm (set_coord c r1) /\ rank (set_coord c r1) < rank r).
  { intros c r1 E1 E2 E3 E4 E5 H1 H2. split; [split; cbn; [by rewrite E1|done|by rewrite E3]|]. unfold rank. cbn. rewrite E1, E3, E4, E5. lia. }
  rewrite C2. destruct (r_coord r) as [h|hash h|err|err|err|err|err|err|err|err] eqn:Ec; cbn in Hc, C3.
  - subst q. destruct (Z.ltb_spec (rc_higher rc) h) as [Hh|Hh]; [intros [= <-]; apply Hmove; try done; cbn [coordRank]; lia|].
    destruct pick; [done| |].
    + destruct (r_signal r) eqn:Es; [|done]. intros [= <-]. apply Hmove; try done. cbn [coordRank]. lia.
    + destruct (r_signal r) eqn:Es; [done|]. destruct (rs_hash Hres (r_time r) h) as [hash ->]; [unfold next in Hr; lia|]. intros [= <-]. apply Hmove; try done. cbn [coordRank]. lia.
  - destruct Hc as (-> & Hh & Hq). destruct pick; [done| |].
    + destruct (r_signal r) eqn:Es; [|done]. intros [= <-]. apply Hmove; try done. cbn [coordRank]. lia.
    + destruct (_ <? _); [|done]. intros [= <-]. split; [by split|]. unfold rank. cbn [set_coord set_hch r_workers r_hch r_coord r_writer r_signal]. rewrite length_app, Ec. cbn [length coordRank].
      assert (u32 (h + 1) = h + 1) as -> by (unfold u32; apply Z.mod_small; destruct Hro; unfold next in Hr; lia). lia.
  - intros [= <-]. by apply Hmove.
  - intros [= <-]. by apply Hmove.
  - destruct pick; [done..|]. destruct (forallb gone (r_workers r)); [|done]. intros [= <-]. by apply Hmove.
  - destruct (forallb gone (r_workers r)); [|done]. intros [= <-]. by apply Hmove.
  - intros [= <-]. by apply Hmove.
  - intros [= <-]. by apply Hmove.
  - destruct (r_writer r) eqn:Ew; [done|]. intros [= <-]. by apply Hmove.
  - done.
Qed.

Lemma roundStep_rank r p q own l r' : round_ok -> rc_dryRun rc = false -> responsive -> Inv r p q own -> Calm r ->
  roundStep w rc write l r = Some (Running r') -> Calm r' /\ rank r' < rank r.
Proof.
  intros Hro Hdry Hres HI HC. destruct l as [|pick|i pick|i order|]; cbn.
  - destruct (r_signal r) eqn:Es; [done|]. intros [= <-]. destruct HC as [C1 C2 C3]. split; [by split|]. unfold rank. cbn. rewrite Es. lia.
  - destruct (coordinator w rc pick r) eqn:E; [|done]. intros [= <-]. by eapply coordinator_rank.
  - destruct (getBlockWorker w rc i pick r) eqn:E; [|done]. intros [= <-]. by eapply worker_rank.
  - unfold receive. destruct (r_writer r) as [last|] eqn:Ew; [|done]. destruct (r_workers r !! i) as [[| | | | |hh b|]|] eqn:Hi; try done.
    destruct (_ =? _); [|done]. destruct (negb _); [done|]. destruct (write order (r_written r) b); [|done..]. intros [= <-]. destruct HC as [C1 C2 C3].
    split; [split; [by apply Forall_insert|done..]|]. unfold rank. cbn [set_worker r_coord r_hch r_workers r_writer r_signal]. rewrite (sumRanks_insert _ _ _ _ Hi), Ew. cbn. lia.
  - unfold writerEnds. destruct (r_writer r) eqn:Ew; [|done]. destruct (_ || _); [|done]. intros [= <-]. destruct HC as [C1 C2 C3]. split; [by split|]. unfold rank. cbn. rewrite Ew. lia.
Qed.

Lemma start_calm t signal : Calm (startRound rc t signal x0).
Proof. split; [|done..]. cbn. by apply Forall_replicate. Qed.

Lemma start_rank t signal : 0 <= rc_syncWorkers rc ->
  rank (startRound rc t signal x0) = 6 * (0 `max` (rc_higher rc + 1 - rc_lower rc)) + rc_syncWorkers rc + 9 + (if signal then 0 else 1).
Proof.
  intros Hn. unfold rank. cbn [startRound r_coord r_hch r_workers r_writer r_signal coordRank length].
  assert (forall n, sumRanks (replicate n WIdle) = Z.of_nat n) as -> by (induction n as [|n IH]; [done|]; cbn [replicate sumRanks workerRank]; lia). lia.
Qed.

(** A run of [n] steps lowers the rank by [n]; the last step may end the process. *)
Lemma run_rank n r p : round_ok -> answersHeights -> rc_dryRun rc = false -> responsive -> nsteps (procStep w rc write) n (Running r) p -> PInv (Running r) -> Calm r ->
  match p with Running r' => Calm r' /\ Z.of_nat n <= rank r - rank r' | Fatal _ _ _ => Z.of_nat n <= rank r + 1 end.
Proof.
  intros Hro Hans Hdry Hres. revert r. induction n as [|n IH]; intros r Hn HP HC; inversion Hn as [|? ? p1 ? Hs Hrest]; subst.
  - split; [done|lia].
  - pose proof (procStep_inv _ _ Hro Hans Hdry Hs HP) as HP1. destruct Hs as (r0 & l & [= <-] & Hl). destruct HP as (a & q & own & HI). pose proof (rank_pos _ _ _ _ HI). destruct p1 as [r1|r1 o1 b1].
    + destruct (roundStep_rank _ _ _ _ _ _ Hro Hdry Hres HI HC Hl) as [HC1 Hlt]. specialize (IH r1 Hrest HP1 HC1). destruct p; [destruct IH; split; [done|]|]; lia.
    + inversion Hrest as [|? ? ? ? Hs1]; subst; [|destruct Hs1 as (? & ? & ? & _); done]. lia.
Qed.

(** With a backend that knows the blocks of the range every run is finite, of at most six steps a block, one a worker and
    a constant; and a run that cannot go on and was not shut down has returned without an error. *)
Lemma round_terminates t signal n p : round_ok -> answersHeights -> rc_dryRun rc = false -> responsive ->
  nsteps (procStep w rc write) n (Running (startRound rc t signal x0)) p ->
  Z.of_nat n <= 6 * (0 `max` (rc_higher rc + 1 - rc_lower rc)) + rc_syncWorkers rc + 11
  /\ match p with Running r => r_signal r = false -> ~ canStep r -> r_coord r = CReturned None | Fatal _ _ _ => True end.
Proof.
  intros Hro Hans Hdry Hres Hn. assert (HP0 : PInv (Running (startRound rc t signal x0))) by (eexists _, _, _; by apply start_inv).
  pose proof (run_rank _ _ _ Hro Hans Hdry Hres Hn HP0 (start_calm t signal)) as Hr. rewrite start_rank in Hr by (destruct Hro; lia). destruct p as [r|]; [|split; [destruct signal; lia|done]].
  assert (HP : PInv (Running r)). { eapply (reached_inv t signal); try done. apply rtc_nsteps. eauto. }
  destruct HP as (a & q & own & HI), Hr as [HC Hr]. split; [pose proof (rank_pos _ _ _ _ HI); destruct signal; lia|]. intros Hsig Hstuck.
  assert (Hret : exists err, r_coord r = CReturned err).
  { destruct (r_coord r) eqn:Ec; try (by eexists); exfalso; apply Hstuck; (eapply round_progress; [done..|]); by rewrite Ec. }
  destruct Hret as [[e|] Ec]; [|done]. exfalso. pose proof (cm_err _ HC) as He. rewrite Ec in He. rewrite He in Hsig; done.
Qed.

(** ** Theorems *)

(** Whatever the interleaving of the coordinator, the workers and the writer, whatever the backend answers and whether or not
    the process is shut down: the writer has written the blocks from the lowest height on, none left out and none out of
    order, each the answer for a hash that the backend gave for its height. The writer ends the process only when the
    database refuses the next block, never because a block is skipped. *)
Theorem writer_in_order t signal p : round_ok -> answersHeights -> rc_dryRun rc = false ->
  rtc (procStep w rc write) (Running (startRound rc t signal x0)) p ->
  let inOrder r := blk_Height <$> (r_log r).*1 = seqZ (rc_lower rc) (Z.of_nat (length (r_log r)))
    /\ Forall served (r_log r).*1 /\ writeAll (r_log r) x0 = Ok (r_written r) in
  match p with
  | Running r => inOrder r
  | Fatal r order b => inOrder r /\ blk_Height b = rc_lower rc + Z.of_nat (length (r_log r)) /\ served b /\ (forall x, write order (r_written r) b <> Ok x)
  end.
Proof.
  intros Hro Hans Hdry H. pose proof (reached_inv _ _ _ Hro Hans Hdry H) as HP. destruct p as [r|r order b].
  - destruct HP as (a & q & own & []). done.
  - destruct HP as ((a & q & own & []) & H1 & H2 & H3). done.
Qed.

(** As long as the process is not shut down, a round that has not returned can go on, and one that returns without an
    error has written the whole range. *)
Theorem round_complete t r : round_ok -> answersHeights -> rc_dryRun rc = false ->
  rtc (procStep w rc write) (Running (startRound rc t false x0)) (Running r) -> r_signal r = false ->
  ((forall err, r_coord r <> CReturned err) -> canStep r)
  /\ (r_coord r = CReturned None -> blk_Height <$> (r_log r).*1 = seqZ (rc_lower rc) (rc_higher rc + 1 - rc_lower rc)).
Proof.
  intros Hro Hans Hdry H Hsig. destruct (reached_inv _ _ _ Hro Hans Hdry H) as (a & q & own & HI). split.
  - intros Hret. by eapply round_progress.
  - intros Hret. eapply log_complete; [done|]. by eapply returned_complete.
Qed.
End Parallel.
