(* ===== verification/ParallelIndex.v ===== *)
(** The parallel download over a backend with a stable chain and over the index.

    - [parallel_round_connects]: a round of [ParallelConnectBlocks] ends, and it has connected and announced the blocks
      of the range one by one.
    - [bulk_round_runs]: what a finished round of [BulkConnectBlocks] has written is the run of [writeBlockWorker] over the blocks of
      consecutive heights that the theorems about bulk connecting are about.
    - [plan_round_ok]: the rounds that [resyncIndex] starts are well-formed.
    - [shutdown_parks_round]: a shutdown can park a round for ever. *)

From S2P Require Import Prelude Codec Parser Golomb TxAddr Balance IndexCodec Store Scan Assets Connect Bulk BulkCorrect Sync SyncCorrect ParallelSync ParallelCorrect.

Local Open Scope Z_scope.

(** ** A stable chain *)

(** The blocks of heights [lower] to [higher]. *)
Definition blocksBetween (remote : list Block) (lower higher : Z) : list Block :=
  take (Z.to_nat (higher + 1 - lower)) (drop (Z.to_nat lower) remote).

Section Stable.
Context (remote : list Block) (w : World) (Hwf : chain_wf remote) (Hserves : serves remote w) (rc : RoundConfig).

Lemma queued_at hh : queued w hh -> exists b, blockAt remote (hh_height hh) = Some b /\ hh_hash hh = blk_Hash b.
Proof. intros [t Ht]. rewrite (sv_hash _ _ Hserves) in Ht. destruct (blockAt remote (hh_height hh)) as [b|]; [|done]. exists b. by injection Ht. Qed.

Lemma fetched_at hh b : queued w hh -> fetchedFor w hh b -> blockAt remote (hh_height hh) = Some b.
Proof. intros (b' & Hb & Hh)%queued_at [t Ht]. rewrite (sv_block _ _ Hserves t (hh_hash hh) _ b' Hb) in Ht by auto. by injection Ht as <-. Qed.

Lemma blockAt_height h b : blockAt remote h = Some b -> 0 <= h /\ remote !! Z.to_nat h = Some b /\ blk_Height b = h.
Proof. unfold blockAt. destruct (Z.leb_spec 0 h); [|done]. intros Hb. pose proof (cw_block _ Hwf _ _ Hb) as [-> _]. split; [done|]. split; [done|lia]. Qed.

Lemma serves_heights : answersHeights w.
Proof. intros hh b Hq Hf. pose proof (fetched_at _ _ Hq Hf) as Hb. by apply blockAt_height in Hb as (_ & _ & ?). Qed.

Lemma serves_responsive : 0 <= rc_lower rc -> rc_higher rc < zlen remote -> responsive w rc.
Proof.
  intros Hl Hh. split.
  - intros t h Hr. rewrite (sv_hash _ _ Hserves). unfold blockAt. destruct (Z.leb_spec 0 h); [|lia].
    destruct (lookup_lt_is_Some_2 remote (Z.to_nat h)) as [b ->]; [unfold zlen in Hh; lia|]. by eexists.
  - intros t hh (b & Hb & Hhash)%queued_at. exists b. eapply sv_block; [done..|]. auto.
Qed.

Lemma served_at b : served w b -> 0 <= blk_Height b /\ remote !! Z.to_nat (blk_Height b) = Some b.
Proof. intros (hh & Hh & Hq & Hf). pose proof (fetched_at _ _ Hq Hf) as Hb. rewrite Hh in Hb. by apply blockAt_height in Hb as (? & ? & _). Qed.

(** Served blocks at consecutive heights are a part of the chain. *)
Lemma served_slice lower n blocks : 0 <= lower -> blk_Height <$> blocks = seqZ lower n -> Forall (served w) blocks ->
  blocks = take (Z.to_nat n) (drop (Z.to_nat lower) remote).
Proof.
  intros Hl Hh Hs. assert (Hlen : length blocks = Z.to_nat n) by (by rewrite <- (length_fmap blk_Height), Hh, length_seqZ).
  apply list_eq. intros i. destruct (decide (i < length blocks)%nat) as [Hi|Hi].
  - destruct (lookup_lt_is_Some_2 blocks i Hi) as [b Hb]. rewrite Hb, lookup_take, decide_True, lookup_drop by lia.
    destruct (served_at b (Forall_lookup_1 _ _ _ _ Hs Hb)) as [_ Hr].
    assert (blk_Height b = lower + Z.of_nat i) as E.
    { assert (H : (blk_Height <$> blocks) !! i = Some (blk_Height b)) by (by rewrite list_lookup_fmap, Hb). rewrite Hh in H. apply lookup_seqZ in H. lia. }
    rewrite <- Hr, E. f_equal. lia.
  - rewrite !(proj2 (lookup_ge_None _ _)); [done| |lia]. rewrite length_take. lia.
Qed.
End Stable.

Lemma writeAll_parallel {I : ChainIndex} (log : list (Block * unit)) x s' bs t start :
  writeAll parallelWrite log x = Ok (s', bs) -> connectAll (inr <$> log.*1) (mkSync x.1 t start x.2) = (None, mkSync s' t start bs).
Proof.
  revert x. induction log as [|[b u] log IH]; intros [s l]; cbn; [by intros [= <- <-]|]. unfold parallelWrite at 1. cbn [fst snd].
  destruct (ix_ConnectBlock s b) as [s1|e|]; cbn [rbind]; [|done..]. intros H. by apply IH in H.
Qed.

Lemma writeAll_announced {I : ChainIndex} (log : list (Block * unit)) x s' bs : writeAll parallelWrite log x = Ok (s', bs) -> bs = x.2 ++ log.*1.
Proof.
  revert x. induction log as [|[b u] log IH]; intros [s l]; cbn; [intros [= _ <-]; by rewrite app_nil_r|]. unfold parallelWrite at 1. cbn [fst snd].
  destruct (ix_ConnectBlock s b) as [s1|e|]; cbn [rbind]; [|done..]. intros H. apply IH in H as ->. cbn. by rewrite <- app_assoc.
Qed.

Section ParallelIndex.
Context {P : ChainParser} {I : ChainIndex} (w : World) (rc : RoundConfig) (remote : list Block).

(** C38: A round of [ParallelConnectBlocks] over a backend with a stable chain: every interleaving ends, and where no goroutine can
    go on and the process was not shut down, the round has returned without an error, the index is that of connecting
    the blocks of the range one after the other, and exactly these were announced, in order. *)
Theorem parallel_round_connects t n x p : chain_wf remote -> serves remote w -> round_ok rc -> rc_dryRun rc = false -> rc_higher rc < zlen remote ->
  nsteps (procStep w rc parallelWrite) n (Running (startRound rc t false x)) p ->
  Z.of_nat n <= 6 * (0 `max` (rc_higher rc + 1 - rc_lower rc)) + rc_syncWorkers rc + 11
  /\ match p with
     | Running r => r_signal r = false -> ~ canStep w rc parallelWrite r ->
         let blocks := blocksBetween remote (rc_lower rc) (rc_higher rc) in
         r_coord r = CReturned None /\ (r_written r).2 = x.2 ++ blocks
         /\ connectAll (inr <$> blocks) (mkSync x.1 t (rc_lower rc) x.2) = (None, mkSync (r_written r).1 t (rc_lower rc) (x.2 ++ blocks))
     | Fatal r _ b => exists k, remote !! k = Some b /\ forall y, ix_ConnectBlock (r_written r).1 b <> Ok y
     end.
Proof.
  intros Hwf Hs Hro Hdry Hh Hn. pose proof (serves_heights _ _ Hwf Hs) as Hans. assert (Hl : 0 <= rc_lower rc) by (destruct Hro; lia).
  pose proof (serves_responsive _ _ Hs rc Hl Hh) as Hres. assert (Hrtc : rtc (procStep w rc parallelWrite) (Running (startRound rc t false x)) p) by (apply rtc_nsteps; eauto).
  destruct (round_terminates w rc parallelWrite x tt t false n p Hro Hans Hdry Hres Hn) as [Hb Hend]. split; [done|].
  destruct p as [r|r order b].
  - intros Hsig Hstuck blocks. pose proof (Hend Hsig Hstuck) as Hret. destruct (reached_inv w rc parallelWrite x t false (Running r) Hro Hans Hdry Hrtc) as (a & q & own & HI).
    pose proof (log_complete _ _ _ _ _ _ _ _ HI (returned_complete _ _ _ _ _ _ _ _ Hro HI Hsig Hret)) as Hlog.
    pose proof (served_slice _ _ Hwf Hs _ _ _ Hl Hlog (i_served _ _ _ _ _ _ _ _ HI)) as Hsl. fold (blocksBetween remote (rc_lower rc) (rc_higher rc)) in Hsl. fold blocks in Hsl.
    pose proof (i_written _ _ _ _ _ _ _ _ HI) as Hw. destruct (r_written r) as [s' bs] eqn:E. pose proof (writeAll_announced _ _ _ _ Hw) as Hbs. rewrite Hsl in Hbs. subst bs.
    split; [done|]. split; [done|]. rewrite <- Hsl at 1. by apply writeAll_parallel.
  - destruct (reached_inv w rc parallelWrite x t false _ Hro Hans Hdry Hrtc) as (_ & _ & Hsv & Hfail). destruct (served_at _ _ Hwf Hs _ Hsv) as [_ Hr]. eexists. split; [exact Hr|].
    intros y Hy. apply (Hfail (y, (r_written r).2 ++ [b])). unfold parallelWrite. by rewrite Hy.
Qed.
End ParallelIndex.

(** ** Bulk connecting *)

Section BulkRound.
Context {V : Vlq} {P : ChainParser} {IX : IndexOpts} {K : KV} {W : AssetWire} {E : AssetEnv W} {G : Gcs} {FO : FilterOpts} {BL : BulkLimits}.

(** Written one after the other, blocks of consecutive heights are what the loop of the writer connects. *)
Lemma writeAll_bulk higher lower (log : list (Block * StoreOrder)) s s' :
  0 <= lower -> lower + zlen log <= 2 ^ 32 -> blk_Height <$> log.*1 = seqZ lower (zlen log) ->
  writeAll (bulkWrite higher) log s = Ok s' -> bulkBlocks higher (u32 (lower - 1)) log s = Ok s'.
Proof.
  revert lower s. induction log as [|[b o] log IH]; intros lower s Hl Hb Hh; cbn [writeAll bulkBlocks fst snd]; [done|].
  rewrite zlen_cons in Hb, Hh. pose proof (zlen_nonneg log). rewrite seqZ_cons in Hh by lia. injection Hh as Hbh Hh.
  assert (u32 (u32 (lower - 1) + 1) = lower) as ->.
  { unfold u32. rewrite Zplus_mod_idemp_l. replace (lower - 1 + 1) with lower by lia. apply Z.mod_small. lia. }
  rewrite Hbh, Z.eqb_refl. cbn [negb]. unfold bulkWrite at 1. destruct (Bulk_ConnectBlock b _ o s) as [s1| |]; cbn [rbind]; [|done..]. intros Hw.
  replace lower with (u32 (lower + 1 - 1)) at 1 by (unfold u32; replace (lower + 1 - 1) with lower by lia; apply Z.mod_small; lia).
  apply IH; [lia|lia| |exact Hw]. etransitivity; [exact Hh|]. f_equal; lia.
Qed.

(** A round of [BulkConnectBlocks] that returns without an error and was not shut down, whatever the backend answered: the blocks
    it has written have the heights of the range in order, and closing it gives what [writeBlockWorker] gives for them. *)
Theorem bulk_round_runs w rc t d cache r : round_ok rc -> answersHeights w -> rc_dryRun rc = false -> rc_lower rc <= rc_higher rc ->
  BulkConnectBlocks w rc t false d cache (Running r) -> r_signal r = false -> r_coord r = CReturned None ->
  blk_Height <$> (r_log r).*1 = seqZ (rc_lower rc) (rc_higher rc + 1 - rc_lower rc)
  /\ writeBlockWorker d cache (rc_lower rc) (rc_higher rc) (r_log r) = Close (r_written r).
Proof.
  intros Hro Hans Hdry Hle (b & state & Hinit & Hrun) Hsig Hret.
  destruct (round_complete w rc (bulkWrite (rc_higher rc)) _ (mkStoreOrder [] [] [] []) t r Hro Hans Hdry Hrun Hsig) as [_ Hall]. specialize (Hall Hret). split; [done|].
  destruct (writer_in_order w rc (bulkWrite (rc_higher rc)) _ t false (Running r) Hro Hans Hdry Hrun) as (_ & _ & Hw).
  assert (zlen (r_log r) = rc_higher rc + 1 - rc_lower rc) as Hlen.
  { apply (f_equal length) in Hall. rewrite !length_fmap, length_seqZ in Hall. unfold zlen. lia. }
  unfold writeBlockWorker. rewrite Hinit. cbn [rbind]. rewrite (writeAll_bulk _ _ _ _ (r_written r)); [done|destruct Hro; lia|destruct Hro; lia| |done].
  by rewrite Hlen.
Qed.
End BulkRound.

(** ** The rounds that [resyncIndex] starts *)

(** The ranges and pools of the two ways to download in parallel are those of a well-formed round, and the pool is never larger
    than the range. *)
Lemma plan_round_ok syncWorkers syncChunk initialSync eth startHeight best dry threshold cfg :
  syncWorkers < 2 ^ 32 -> is_u32 startHeight -> 0 <= best < 2 ^ 32 - 1 ->
  match syncPlan syncWorkers syncChunk initialSync eth startHeight best with
  | PlanParallel lower higher n => round_ok (mkRoundConfig lower higher n dry threshold cfg) /\ n <= higher - lower
  | PlanBulk lower higher => round_ok (mkRoundConfig lower higher syncWorkers dry threshold cfg) /\ lower < higher
  | PlanSequential => True
  end.
Proof.
  unfold is_u32. intros Hw Hs Hb. unfold syncPlan. destruct (Z.ltb_spec 1 syncWorkers); cbn [andb negb orb]; [|done].
  destruct (initialSync || eth); cbn [negb orb]; [|done]. destruct (Z.ltb_spec best startHeight); [done|].
  assert (u32 (best - startHeight) = best - startHeight) as -> by (unfold u32; apply Z.mod_small; lia).
  destruct (Z.ltb_spec (u32 syncChunk) (best - startHeight)) as [Hc|Hc]; destruct initialSync; cbn [andb].
  1: { pose proof (u32_range syncChunk) as Hu. unfold is_u32 in Hu. split; [split|]; cbn; lia. }
  all: destruct eth; cbn [andb]; [|done]; unfold minParallelGap; destruct (Z.leb_spec 4 (best - startHeight)); [|done];
    unfold parallelSyncWorkerCount; assert (u32 syncWorkers = syncWorkers) as -> by (unfold u32; apply Z.mod_small; lia);
    destruct (Z.ltb_spec (best - startHeight) syncWorkers); split; [split| |split|]; cbn; lia.
Qed.

(** ** Examples *)

Lemma runLabels_nsteps {W O} w rc (write : O -> W -> Block -> result W) ls p p' :
  runLabels w rc write ls p = Some p' -> nsteps (procStep w rc write) (length ls) p p'.
Proof.
  revert p. induction ls as [|l ls IH]; intros p; cbn; [intros [= <-]; constructor|]. destruct p as [r|]; [|done].
  destruct (roundStep w rc write l r) as [p1|] eqn:E; [|done]. intros H. econstructor; [by exists r, l|by apply IH].
Qed.

Module ParallelExample.
#[local] Existing Instances ListIndex.index SyncExample.parser.

Definition w : World := fun _ => SyncExample.serving SyncExample.chainB.
Definition rc : RoundConfig := mkRoundConfig 1 2 2 false 10 SyncExample.cfg.
Definition x0 : @ix ListIndex.index * list Block := ([SyncExample.hg], []).
Definition start : Proc (@ix ListIndex.index * list Block) unit := Running (startRound rc 0 false x0).

Lemma rc_ok : round_ok rc.
Proof. split; cbn; lia. Qed.

(** Both hashes are queued; the second worker is faster and waits for the first. *)
Definition queueing : list (Label unit) := [LCoord PickOther; LCoord PickOther; LWorker 0 PickOther; LCoord PickOther; LCoord PickOther; LWorker 1 PickOther;
  LWorker 1 PickOther; LCoord PickOther; LCoord PickOther; LCoord PickOther].

Definition finishing : list (Label unit) := [LWorker 0 PickOther; LReceive 0 tt; LReceive 1 tt; LWorker 0 PickOther; LWorker 1 PickOther;
  LCoord PickOther; LCoord PickOther; LCoord PickOther; LWriterEnds; LCoord PickOther].

Definition finished : Round (@ix ListIndex.index * list Block) unit :=
  Eval vm_compute in match runLabels w rc parallelWrite (queueing ++ finishing) start with Some (Running r) => r | _ => startRound rc 0 false x0 end.

Lemma finished_stuck : ~ canStep w rc parallelWrite finished.
Proof.
  intros (l & p & Hl & H). destruct l as [|pick|i pick|i order|]; [done| | | |]; vm_compute in H; try done.
  destruct i as [|[|i]]; vm_compute in H; done.
Qed.

Lemma parallel_round_connects_witness :
  (20 <= 6 * (0 `max` 2) + 2 + 11) /\ r_coord finished = CReturned None /\ (r_written finished).2 = blocksBetween SyncExample.chainB 1 2.
Proof.
  destruct (parallel_round_connects w rc SyncExample.chainB 0 (length (queueing ++ finishing)) x0 (Running finished)) as [H1 H2].
  - exact SyncExample.chainB_wf.
  - exact SyncExample.chainB_served.
  - exact rc_ok.
  - reflexivity.
  - vm_compute. reflexivity.
  - apply runLabels_nsteps. vm_compute. reflexivity.
  - destruct (H2 eq_refl finished_stuck) as (H3 & H4 & _). split; [exact H1|]. split; [exact H3|exact H4].
Defined.

(** The process is shut down when all hashes are queued. *)
Definition interrupting : list (Label unit) := [LShutdown; LWorker 0 PickOther].

Definition parked : Round (@ix ListIndex.index * list Block) unit :=
  Eval vm_compute in match runLabels w rc parallelWrite (queueing ++ interrupting) start with Some (Running r) => r | _ => startRound rc 0 false x0 end.

(** A shutdown at the end of the range: the worker of the first height leaves without its block and without an abort,
    the other one cannot hand over its block, the writer waits for the first height, and the coordinator, which no longer looks
    at the signal, waits for the workers. None of them can ever go on. *)
Theorem shutdown_parks_round :
  rtc (procStep w rc parallelWrite) start (Running parked) /\ r_signal parked = true /\ r_coord parked = CWait None
  /\ forall l, roundStep w rc parallelWrite l parked = None.
Proof.
  split.
  - apply rtc_nsteps. exists (length (queueing ++ interrupting)). apply runLabels_nsteps. vm_compute. reflexivity.
  - split; [done|]. split; [done|]. intros l. destruct l as [|pick|i pick|i order|]; try done.
    + by destruct pick.
    + by destruct i as [|[|i]].
    + by destruct i as [|[|i]].
Qed.

End ParallelExample.
