(* ===== verification/EthTokens.v ===== *)
(** Token holdings of an address ([db/rocksdb_ethereumtype.go]: [Ids], [MultiTokenValues] and
    their lazily decoded forms [unpackedIds], [unpackedMultiTokenValues]).

    Holdings are slices in ascending order of token id, searched by bisection. The lazily
    decoded forms keep the packed bytes of a big integer until it is first read, and remember
    the decoded value then ([get]); every probe of a search decodes an element.

    The theorems: on ordered slices the operations are those of a finite set and of a finite
    map ([ids_are_a_set], [values_are_a_map]), and the lazy forms do what the plain forms do
    ([lazy_holdings_refine] and its like). *)

From S2P Require Import Prelude Codec GoSort.

Local Open Scope Z_scope.

(** An integer type: values other than the three constants can be read from a row. *)
Definition TokenStandard : Type := Z.
Definition FungibleToken : TokenStandard := 0.
Definition NonFungibleToken : TokenStandard := 1.
Definition MultiToken : TokenStandard := 2.

Record MultiTokenValue := mkMTV { mtv_Id : Z; mtv_Value : Z }.

#[export] Instance MultiTokenValue_eq_decision : EqDecision MultiTokenValue.
Proof. solve_decision. Defined.

(** ** Slices *)

(** [append(s[:i+1], s[i:]...)] followed by [s[i] = x]. *)
Definition insertAt {A} (i : Z) (x : A) (s : list A) : list A :=
  let s := take (Z.to_nat (i + 1)) s ++ drop (Z.to_nat i) s in <[Z.to_nat i := x]> s.

(** [append(s[:i], s[i+1:]...)] *)
Definition removeAt {A} (i : Z) (s : list A) : list A :=
  take (Z.to_nat i) s ++ drop (Z.to_nat (i + 1)) s.

(** ** Plain holdings *)

Module Ids.

(** [s[i].CmpAbs(&id) >= 0] *)
Definition atLeast (s : list Z) (id : Z) (i : Z) : bool :=
  match s !! Z.to_nat i with Some x => Z.abs id <=? Z.abs x | None => false end.

Definition search (s : list Z) (id : Z) : Z := sort_Search (zlen s) (atLeast s id).

(** [i < len(s) && s[i].CmpAbs(&id) == 0] *)
Definition foundAt (s : list Z) (id : Z) (i : Z) : bool :=
  match s !! Z.to_nat i with Some x => Z.abs x =? Z.abs id | None => false end.

Definition insert (s : list Z) (id : Z) : list Z :=
  let i := search s id in
  if (i <? zlen s) && foundAt s id i then s
  else if i =? zlen s then s ++ [id]
  else insertAt i id s.

Definition remove (s : list Z) (id : Z) : list Z :=
  let i := search s id in
  if (i <? zlen s) && foundAt s id i then removeAt i s else s.

End Ids.

(** The two aggregations of [addToContract]: [s.Sub(s, v)], not below zero, and [s.Add]. *)
Inductive AggregateFn := aggSub | aggAdd.
Definition aggregate (f : AggregateFn) (s v : Z) : Z :=
  match f with
  | aggSub => let s := s - v in if s <? 0 then 0 else s
  | aggAdd => s + v
  end.

Module MultiTokenValues.

Definition search (s : list MultiTokenValue) (m : MultiTokenValue) : Z :=
  sort_Search (zlen s) (Ids.atLeast (map mtv_Id s) (mtv_Id m)).

Definition upsert (s : list MultiTokenValue) (m : MultiTokenValue) (index : Z) (f : AggregateFn)
    : list MultiTokenValue :=
  let i := search s m in
  if (i <? zlen s) && Ids.foundAt (map mtv_Id s) (mtv_Id m) i then
    match s !! Z.to_nat i with
    | Some e =>
        let v := aggregate f (mtv_Value e) (mtv_Value m) in
        if (index <? 0) && (v =? 0) then removeAt i s
        else <[Z.to_nat i := mkMTV (mtv_Id e) v]> s
    | None => s
    end
  else if 0 <=? index then
    let elem := mkMTV (mtv_Id m) (mtv_Value m) in
    if i =? zlen s then s ++ [elem] else insertAt i elem s
  else s.

End MultiTokenValues.

(** ** Lazily decoded holdings *)

Record unpackedBigInt := mkUBI { ub_Slice : bytes; ub_Value : option Z }.

(** The value, and the integer with the value remembered. *)
Definition get (b : unpackedBigInt) : result (Z * unpackedBigInt) :=
  match ub_Value b with
  | Some v => Ok (v, b)
  | None =>
      if zlen (ub_Slice b) =? 0 then Ok (0, mkUBI (ub_Slice b) (Some 0))
      else let! '(bi, _) := unpackBigint (ub_Slice b) in Ok (bi, mkUBI (ub_Slice b) (Some bi))
  end.

(** A decoded integer, [unpackedBigInt{Value: &v}]. *)
Definition decoded (v : Z) : unpackedBigInt := mkUBI [] (Some v).

(** [s[i].get()] inside a structure with a lazy field, given by its reader and its writer. *)
Section LazySearch.
Context {A : Type} (field : A -> unpackedBigInt) (set_field : unpackedBigInt -> A -> A).

Definition getAt (s : list A) (i : Z) : result (Z * list A) :=
  let! e := index s i in
  let! '(v, b) := get (field e) in
  Ok (v, <[Z.to_nat i := set_field b e]> s).

(** [sort.Search(len(s), func(i int) bool { return s[i].get().CmpAbs(&id) >= 0 })] *)
Fixpoint searchLoop (fuel : nat) (s : list A) (id : Z) (i j : Z) : result (Z * list A) :=
  match fuel with
  | O => Ok (i, s)
  | S fuel =>
      if i <? j then
        let h := (i + j) / 2 in
        let! '(v, s) := getAt s h in
        if Z.abs id <=? Z.abs v then searchLoop fuel s id i h else searchLoop fuel s id (h + 1) j
      else Ok (i, s)
  end.

Definition lazySearch (s : list A) (id : Z) : result (Z * list A) :=
  searchLoop (length s) s id 0 (zlen s).

(** [i < len(s) && s[i].get().CmpAbs(&id) == 0] *)
Definition lazyFound (s : list A) (id : Z) (i : Z) : result (bool * list A) :=
  if i <? zlen s then let! '(v, s) := getAt s i in Ok (Z.abs v =? Z.abs id, s) else Ok (false, s).
End LazySearch.

Module unpackedIds.

Definition search (s : list unpackedBigInt) (id : Z) : result (Z * list unpackedBigInt) :=
  lazySearch (fun b => b) (fun b _ => b) s id.

Definition insert (s : list unpackedBigInt) (id : Z) : result (list unpackedBigInt) :=
  let! '(i, s) := search s id in
  let! '(found, s) := lazyFound (fun b => b) (fun b _ => b) s id i in
  if (found : bool) then Ok s
  else if i =? zlen s then Ok (s ++ [decoded id])
  else Ok (insertAt i (decoded id) s).

Definition remove (s : list unpackedBigInt) (id : Z) : result (list unpackedBigInt) :=
  let! '(i, s) := search s id in
  let! '(found, s) := lazyFound (fun b => b) (fun b _ => b) s id i in
  if (found : bool) then Ok (removeAt i s) else Ok s.

End unpackedIds.

Record unpackedMultiTokenValue := mkUMTV { um_Id : unpackedBigInt; um_Value : unpackedBigInt }.

Module unpackedMultiTokenValues.

Definition set_Id (b : unpackedBigInt) (e : unpackedMultiTokenValue) := mkUMTV b (um_Value e).

Definition search (s : list unpackedMultiTokenValue) (m : MultiTokenValue)
    : result (Z * list unpackedMultiTokenValue) :=
  lazySearch um_Id set_Id s (mtv_Id m).

Definition upsert (s : list unpackedMultiTokenValue) (m : MultiTokenValue) (index : Z) (f : AggregateFn)
    : result (list unpackedMultiTokenValue) :=
  let! '(i, s) := search s m in
  let! '(found, s) := lazyFound um_Id set_Id s (mtv_Id m) i in
  if (found : bool) then
    let! e := Prelude.index s i in
    let! '(v, b) := get (um_Value e) in
    (* the aggregate writes through the pointer [get] returned *)
    let v := aggregate f v (mtv_Value m) in
    let s := <[Z.to_nat i := mkUMTV (um_Id e) (mkUBI (ub_Slice b) (Some v))]> s in
    if (index <? 0) && (v =? 0) then Ok (removeAt i s) else Ok s
  else if 0 <=? index then
    let elem := mkUMTV (decoded (mtv_Id m)) (decoded (mtv_Value m)) in
    if i =? zlen s then Ok (s ++ [elem]) else Ok (insertAt i elem s)
  else Ok s.

End unpackedMultiTokenValues.

(** ** Ordered slices *)

Lemma insertAt_app {A} (a b : list A) x i : b <> [] -> i = zlen a -> insertAt i x (a ++ b) = a ++ x :: b.
Proof.
  intros Hb ->. unfold insertAt. destruct b as [|y b]; [done|].
  replace (Z.to_nat (zlen a + 1)) with (length a + 1)%nat by (unfold zlen; lia).
  rewrite to_nat_zlen, take_app_add, drop_app_length. cbn [take].
  rewrite <- app_assoc. cbn [app]. rewrite insert_app_r_alt by lia. by rewrite Nat.sub_diag.
Qed.

Lemma removeAt_app {A} (a b : list A) x i : i = zlen a -> removeAt i (a ++ x :: b) = a ++ b.
Proof.
  intros ->. unfold removeAt.
  replace (Z.to_nat (zlen a + 1)) with (length a + 1)%nat by (unfold zlen; lia).
  by rewrite to_nat_zlen, take_app_length, drop_app_add.
Qed.

Lemma insert_app_zlen {A} (a b : list A) x y i : i = zlen a -> <[Z.to_nat i := y]> (a ++ x :: b) = a ++ y :: b.
Proof. intros ->. rewrite to_nat_zlen, insert_app_r_alt by lia. by rewrite Nat.sub_diag. Qed.

Section Ordered.
Context {A : Type} (key : A -> Z).

Definition keyLt (x y : A) : Prop := Z.abs (key x) < Z.abs (key y).
Definition ascending (s : list A) : Prop := StronglySorted keyLt s.

(** Where the search ends: everything before is smaller, everything from there on is not. *)
Lemma search_split s id : ascending s ->
  exists a b, s = a ++ b /\ sort_Search (zlen s) (Ids.atLeast (map key s) id) = zlen a
    /\ Forall (fun x => Z.abs (key x) < Z.abs id) a /\ Forall (fun x => Z.abs id <= Z.abs (key x)) b.
Proof.
  intros Hs.
  assert (exists a b, s = a ++ b /\ Forall (fun x => Z.abs (key x) < Z.abs id) a
    /\ Forall (fun x => Z.abs id <= Z.abs (key x)) b) as (a & b & -> & Ha & Hb).
  { induction Hs as [|x s Hs IH Hx]; [by exists [], []|].
    destruct (Z.lt_ge_cases (Z.abs (key x)) (Z.abs id)).
    - destruct IH as (a & b & -> & Ha & Hb). exists (x :: a), b. auto.
    - exists [], (x :: s). split; [done|]. split; [done|]. constructor; [lia|].
      eapply Forall_impl; [exact Hx|]. unfold keyLt. intros y Hy. cbn in Hy. lia. }
  exists a, b. split_and!; [done| |done|done].
  assert (Hat : forall i, 0 <= i < zlen (a ++ b) -> Ids.atLeast (map key (a ++ b)) id i = (zlen a <=? i)).
  { intros i Hi. unfold Ids.atLeast. rewrite list_lookup_fmap.
    destruct (Z.leb_spec (zlen a) i) as [Hl|Hl]; unfold zlen in *; rewrite length_app in Hi.
    - rewrite lookup_app_r by lia. destruct (lookup_lt_is_Some_2 b (Z.to_nat i - length a)) as [x Hx]; [lia|].
      rewrite Hx. cbn. apply Z.leb_le. rewrite Forall_forall in Hb. apply Hb. by eapply list_elem_of_lookup_2.
    - rewrite lookup_app_l by lia. destruct (lookup_lt_is_Some_2 a (Z.to_nat i)) as [x Hx]; [lia|].
      rewrite Hx. cbn. apply Z.leb_gt. rewrite Forall_forall in Ha. apply Ha. by eapply list_elem_of_lookup_2. }
  pose proof (zlen_nonneg a). pose proof (zlen_nonneg b). rewrite zlen_app in *.
  apply sort_Search_first; [lia| |lia| |].
  - intros i j Hij Hj. rewrite !Hat, !Z.leb_le by lia. lia.
  - intros i Hi. rewrite Hat by lia. apply Z.leb_gt. lia.
  - intros Hi. rewrite Hat by lia. apply Z.leb_le. lia.
Qed.

Lemma ascending_app a b : ascending (a ++ b) <->
  ascending a /\ ascending b /\ forall x y, x ∈ a -> y ∈ b -> keyLt x y.
Proof.
  unfold ascending. rewrite StronglySorted_app. naive_solver.
Qed.

(** The two outcomes of a search for [id], with what the tests of the code say. *)
Inductive located (s : list A) (id : Z) : Prop :=
| located_found a x b :
    s = a ++ x :: b -> Z.abs (key x) = Z.abs id ->
    sort_Search (zlen s) (Ids.atLeast (map key s) id) = zlen a ->
    Forall (fun y => Z.abs (key y) < Z.abs id) a -> Forall (fun y => Z.abs id < Z.abs (key y)) b ->
    (zlen a <? zlen s) && Ids.foundAt (map key s) id (zlen a) = true -> located s id
| located_absent a b :
    s = a ++ b ->
    sort_Search (zlen s) (Ids.atLeast (map key s) id) = zlen a ->
    Forall (fun y => Z.abs (key y) < Z.abs id) a -> Forall (fun y => Z.abs id < Z.abs (key y)) b ->
    (zlen a <? zlen s) && Ids.foundAt (map key s) id (zlen a) = false ->
    (zlen a =? zlen s) = bool_decide (b = []) -> located s id.

Lemma locate s id : ascending s -> located s id.
Proof.
  intros Hs. destruct (search_split s id Hs) as (a & b & -> & E & Ha & Hb).
  apply ascending_app in Hs as (_ & Hs & _).
  destruct b as [|x b].
  - rewrite app_nil_r in *. eapply located_absent; [by rewrite app_nil_r|done|done|done| |].
    + by rewrite Z.ltb_irrefl.
    + by rewrite Z.eqb_refl.
  - apply StronglySorted_cons in Hs as [Hx Hs]. apply Forall_cons in Hb as [Hxi Hb].
    assert (Hlt : Forall (fun y => Z.abs id < Z.abs (key y)) b)
      by (eapply Forall_impl; [exact Hx|]; unfold keyLt; cbn; intros; lia).
    assert (Hl : (zlen a <? zlen (a ++ x :: b)) = true) by (apply Z.ltb_lt; zlen_lia).
    assert (Hf : Ids.foundAt (map key (a ++ x :: b)) id (zlen a) = (Z.abs (key x) =? Z.abs id)).
    { unfold Ids.foundAt. rewrite list_lookup_fmap, to_nat_zlen, list_lookup_middle by done. done. }
    destruct (Z.eqb_spec (Z.abs (key x)) (Z.abs id)).
    + eapply located_found; [done|done|done|done|done|]. by rewrite Hl, Hf.
    + eapply located_absent; [done|done|done| | |].
      * constructor; [lia|done].
      * by rewrite Hf, andb_false_r.
      * rewrite bool_decide_eq_false_2 by done. apply Z.eqb_neq. apply Z.ltb_lt in Hl. lia.
Qed.
End Ordered.

Arguments located_found {A key s id} a x b.
Arguments located_absent {A key s id} a b.

Lemma map_self (s : list Z) : map (fun x => x) s = s.
Proof. apply map_id. Qed.

(** Token ids: in ascending order, and not negative. *)
Definition ids_ok (s : list Z) : Prop := ascending (fun x => x) s /\ Forall (fun x => 0 <= x) s.

Lemma elem_absent {A} (key : A -> Z) a b id x :
  Forall (fun y => Z.abs (key y) < Z.abs id) a -> Forall (fun y => Z.abs id < Z.abs (key y)) b ->
  x ∈ a ++ b -> Z.abs (key x) <> Z.abs id.
Proof. rewrite !Forall_forall, elem_of_app. intros Ha Hb [H%Ha|H%Hb]; lia. Qed.

Lemma ascending_insert {A} (key : A -> Z) a b x id :
  ascending key (a ++ b) -> Z.abs (key x) = Z.abs id ->
  Forall (fun y => Z.abs (key y) < Z.abs id) a -> Forall (fun y => Z.abs id < Z.abs (key y)) b ->
  ascending key (a ++ x :: b).
Proof.
  intros Hs Hx Ha Hb. apply ascending_app in Hs as (H1 & H2 & H3). rewrite !Forall_forall in *.
  apply ascending_app. split_and!; [done| |].
  - apply StronglySorted_cons. split; [|done]. apply Forall_forall. intros y Hy. unfold keyLt. specialize (Hb y Hy). lia.
  - intros u v Hu Hv. apply elem_of_cons in Hv as [->|Hv]; [|auto]. unfold keyLt. specialize (Ha u Hu). lia.
Qed.

Lemma ascending_remove {A} (key : A -> Z) a b x : ascending key (a ++ x :: b) -> ascending key (a ++ b).
Proof.
  intros Hs. apply ascending_app in Hs as (H1 & [_ H2]%StronglySorted_cons & H3). apply ascending_app.
  split_and!; [done|done|]. intros u v Hu Hv. apply H3; [done|]. by right.
Qed.

Lemma ids_ok_unique a b : ids_ok a -> ids_ok b -> a ≡ₚ b -> a = b.
Proof.
  intros [Ha _] [Hb _]. apply (StronglySorted_unique_strong (keyLt (fun x => x))); [|done|done].
  unfold keyLt. intros x y Hx Hy H1 H2. lia.
Qed.

(** The cases of the operations on ids. *)
Lemma ids_cases s id : ids_ok s -> 0 <= id ->
  (exists a b, s = a ++ id :: b /\ id ∉ a ++ b /\ Ids.insert s id = s /\ Ids.remove s id = a ++ b /\ ids_ok (a ++ b))
  \/ (exists a b, s = a ++ b /\ id ∉ s /\ Ids.insert s id = a ++ id :: b /\ Ids.remove s id = s
        /\ ids_ok (a ++ id :: b)).
Proof.
  intros [Hs Hp] Hid. unfold Ids.insert, Ids.remove, Ids.search.
  destruct (locate (fun x => x) s id Hs) as [a x b E Hx Hi Ha Hb Hf|a b E Hi Ha Hb Hf He]; rewrite map_self in *;
    rewrite Hi, Hf; [left|right].
  - exists a, b. assert (x = id) as ->.
    { rewrite E, Forall_app, Forall_cons in Hp. lia. }
    split; [done|]. split; [|split_and!].
    + intros Hin. by apply (elem_absent (fun x => x) a b id id Ha Hb) in Hin.
    + done.
    + rewrite E. by apply removeAt_app.
    + split; [apply (ascending_remove _ a b id); by rewrite <- E|].
      rewrite E in Hp. apply Forall_app in Hp as [H1 [_ H2]%Forall_cons]. by apply Forall_app.
  - exists a, b. split; [done|]. split; [|split_and!].
    + intros Hin. rewrite E in Hin. by apply (elem_absent (fun x => x) a b id id Ha Hb) in Hin.
    + rewrite He. case_bool_decide as Hbn; [subst b; rewrite app_nil_r in E; by subst a|].
      rewrite E. by apply insertAt_app.
    + done.
    + split; [apply (ascending_insert _ a b id id); [by rewrite <- E|done..]|].
      rewrite E in Hp. apply Forall_app in Hp as [H1 H2]. apply Forall_app. auto.
Qed.

(** The operations undo each other. *)
Lemma ids_undo s id : ids_ok s -> 0 <= id ->
  (id ∉ s -> Ids.remove (Ids.insert s id) id = s) /\ (id ∈ s -> Ids.insert (Ids.remove s id) id = s).
Proof.
  intros Hs Hid. destruct (ids_cases s id Hs Hid) as [(a & b & E & Hn & Ei & Er & Ho)|(a & b & E & Hn & Ei & Er & Ho)]; rewrite Ei, Er.
  - split; [intros H; exfalso; apply H; rewrite E; set_solver|]. intros _.
    destruct (ids_cases (a ++ b) id Ho Hid) as [(a' & b' & E' & _)|(a' & b' & E' & _ & Ei' & _ & Ho')].
    { exfalso. apply Hn. rewrite E'. set_solver. }
    rewrite Ei'. apply (ids_ok_unique _ _ Ho' Hs). rewrite E. rewrite <- !Permutation_middle. by rewrite <- E'.
  - split; [|done]. intros _.
    destruct (ids_cases (a ++ id :: b) id Ho Hid) as [(a' & b' & E' & _ & _ & Er' & Ho')|(a' & b' & _ & H' & _)].
    + rewrite Er'. apply (ids_ok_unique _ _ Ho' Hs). rewrite E. apply (Permutation_cons_inv (a := id)).
      by rewrite !Permutation_middle, <- E'.
    + exfalso. apply H'. set_solver.
Qed.

(** The ids of the tokens an address holds are a finite set. On an ordered slice [insert]
    adds the id and [remove] takes it out, the slice stays ordered, and they undo each other:
    removing an inserted id that was not there, and inserting a removed id that was, restores
    the slice exactly. *)
Theorem ids_are_a_set s id : ids_ok s -> 0 <= id ->
  ids_ok (Ids.insert s id) /\ ids_ok (Ids.remove s id)
  /\ (forall x, x ∈ Ids.insert s id <-> x = id \/ x ∈ s)
  /\ (forall x, x ∈ Ids.remove s id <-> x <> id /\ x ∈ s)
  /\ (id ∉ s -> Ids.remove (Ids.insert s id) id = s)
  /\ (id ∈ s -> Ids.insert (Ids.remove s id) id = s).
Proof.
  intros Hs Hid. destruct (ids_undo s id Hs Hid) as [Hu1 Hu2].
  destruct (ids_cases s id Hs Hid) as [(a & b & E & Hn & Ei & Er & Ho)|(a & b & E & Hn & Ei & Er & Ho)];
    split_and!; try done; rewrite ?Ei, ?Er; try done.
  - intros x. rewrite E. set_solver.
  - intros x. rewrite E. set_solver.
  - intros x. rewrite E. set_solver.
  - intros x. split; [|tauto]. intros Hx. split; [|done]. by intros ->.
Qed.

Lemma ids_are_a_set_witness :
  Ids.remove (Ids.insert [1; 5; 9] 7) 7 = [1; 5; 9].
Proof.
  destruct (ids_are_a_set [1; 5; 9] 7) as (_ & _ & _ & _ & H & _).
  - split; repeat constructor; unfold keyLt; lia.
  - lia.
  - apply H. intros Hin. by repeat (apply elem_of_cons in Hin as [Hin|Hin]; [lia|]); apply not_elem_of_nil in Hin.
Defined.

(** ** Values of multi tokens *)

(** In ascending order of ids that are not negative. *)
Definition values_ok (s : list MultiTokenValue) : Prop :=
  ascending mtv_Id s /\ Forall (fun m => 0 <= mtv_Id m) s.

Definition mapOf (s : list MultiTokenValue) : gmap Z Z :=
  list_to_map (map (fun m => (mtv_Id m, mtv_Value m)) s).

Lemma mapOf_lookup_absent s id : Forall (fun m => mtv_Id m <> id) s -> mapOf s !! id = None.
Proof.
  intros H. apply not_elem_of_list_to_map_1. intros (e & -> & (m & -> & Hm)%list_elem_of_fmap)%list_elem_of_fmap.
  rewrite Forall_forall in H. by apply (H m).
Qed.

Lemma mapOf_app a b : mapOf (a ++ b) = mapOf a ∪ mapOf b.
Proof. unfold mapOf. rewrite map_app. apply list_to_map_app. Qed.

Lemma mapOf_cons m s : mapOf (m :: s) = <[mtv_Id m := mtv_Value m]> (mapOf s).
Proof. done. Qed.

Lemma mapOf_middle a m b : Forall (fun x => mtv_Id x <> mtv_Id m) a ->
  mapOf (a ++ m :: b) = <[mtv_Id m := mtv_Value m]> (mapOf (a ++ b)).
Proof.
  intros Ha. rewrite !mapOf_app, mapOf_cons. symmetry. apply insert_union_r. by apply mapOf_lookup_absent.
Qed.

(** The cases of an update. *)
Lemma values_cases s m index f : values_ok s -> 0 <= mtv_Id m ->
  (exists a v b, s = a ++ mkMTV (mtv_Id m) v :: b /\ mapOf s !! mtv_Id m = Some v
     /\ Forall (fun x => mtv_Id x <> mtv_Id m) (a ++ b)
     /\ MultiTokenValues.upsert s m index f
        = let w := aggregate f v (mtv_Value m) in
          if (index <? 0) && (w =? 0) then a ++ b else a ++ mkMTV (mtv_Id m) w :: b)
  \/ (exists a b, s = a ++ b /\ mapOf s !! mtv_Id m = None
     /\ Forall (fun x => mtv_Id x <> mtv_Id m) (a ++ b)
     /\ values_ok (a ++ m :: b)
     /\ MultiTokenValues.upsert s m index f = if 0 <=? index then a ++ m :: b else s).
Proof.
  intros [Hs Hp] Hid. unfold MultiTokenValues.upsert, MultiTokenValues.search. destruct m as [id val]. cbn [mtv_Id mtv_Value] in *.
  destruct (locate mtv_Id s id Hs) as [a x b E Hx Hi Ha Hb Hf|a b E Hi Ha Hb Hf He]; rewrite Hi, Hf; [left|right].
  - assert (Hne : Forall (fun x => mtv_Id x <> id) (a ++ b)).
    { apply Forall_forall. intros y Hy. pose proof (elem_absent mtv_Id a b id y Ha Hb Hy). congruence. }
    destruct x as [xid v]. cbn [mtv_Id] in *. assert (xid = id) as ->.
    { rewrite E, Forall_app, Forall_cons in Hp. cbn in Hp. lia. }
    exists a, v, b. split; [done|]. split; [|split; [done|]].
    + rewrite E, mapOf_middle by (apply Forall_app in Hne as [? _]; done). cbn. by rewrite lookup_insert_eq.
    + rewrite E, to_nat_zlen, list_lookup_middle by done. cbn [mtv_Id mtv_Value]. cbv zeta.
      case_match; [by apply removeAt_app|]. rewrite <- (to_nat_zlen a). by apply insert_app_zlen.
  - assert (Hne : Forall (fun x => mtv_Id x <> id) (a ++ b)).
    { apply Forall_forall. intros y Hy. pose proof (elem_absent mtv_Id a b id y Ha Hb Hy). congruence. }
    exists a, b. split; [done|]. split; [|split; [done|split]].
    + rewrite E. by apply mapOf_lookup_absent.
    + split; [apply (ascending_insert _ a b _ id); [by rewrite <- E|done..]|].
      rewrite E in Hp. apply Forall_app in Hp as [H1 H2]. apply Forall_app. split; [done|]. by constructor.
    + destruct (0 <=? index); [|done]. rewrite He.
      case_bool_decide as Hbn; [subst b; rewrite app_nil_r in E; by subst a|]. rewrite E. by apply insertAt_app.
Qed.

(** What a transfer does to the value of a token, in each direction. *)
Definition received (v : option Z) (x : Z) : option Z := Some (default 0 v + x).
Definition sent (v : option Z) (x : Z) : option Z :=
  match v with
  | None => None
  | Some v => if v <=? x then None else Some (v - x)
  end.

Lemma values_ok_replace a b id v w : values_ok (a ++ mkMTV id v :: b) -> values_ok (a ++ mkMTV id w :: b).
Proof.
  intros [Hs Hp]. split.
  - apply ascending_app in Hs as (H1 & H2 & H3). apply StronglySorted_cons in H2 as [H2 H2'].
    apply ascending_app. split; [done|]. split; [by apply StronglySorted_cons|].
    intros x y Hx Hy. apply elem_of_cons in Hy as [->|Hy]; [apply (H3 x (mkMTV id v)); [done|left]|].
    apply H3; [done|by right].
  - rewrite Forall_app, Forall_cons in *. naive_solver.
Qed.

Lemma values_ok_remove a b x : values_ok (a ++ x :: b) -> values_ok (a ++ b).
Proof.
  intros [Hs Hp]. split; [by apply ascending_remove in Hs|]. rewrite Forall_app, Forall_cons in *. naive_solver.
Qed.

Lemma upsert_map s m : values_ok s -> 0 <= mtv_Id m -> 0 <= mtv_Value m ->
  let got := MultiTokenValues.upsert s m 0 aggAdd in
  let gave := MultiTokenValues.upsert s m (-1) aggSub in
  values_ok got /\ values_ok gave
  /\ mapOf got = partial_alter (fun v => received v (mtv_Value m)) (mtv_Id m) (mapOf s)
  /\ mapOf gave = partial_alter (fun v => sent v (mtv_Value m)) (mtv_Id m) (mapOf s).
Proof.
  intros Hs Hid Hv got gave.
  destruct (values_cases s m 0 aggAdd Hs Hid) as [(a & v & b & E & Hm & Hn & E1)|(a & b & E & Hm & Hn & Hok & E1)];
  destruct (values_cases s m (-1) aggSub Hs Hid) as [(a' & v' & b' & E' & Hm' & Hn' & E2)|(a' & b' & E' & Hm' & Hn' & Hok' & E2)];
    try congruence; subst got gave; rewrite E1, E2; clear E1 E2; cbn [Z.ltb Z.compare andb Z.leb].
  - cbv zeta. assert (Forall (fun x => mtv_Id x <> mtv_Id m) a) by (by apply Forall_app in Hn as [? _]).
    assert (Forall (fun x => mtv_Id x <> mtv_Id m) a') by (by apply Forall_app in Hn' as [? _]).
    assert (v' = v) as -> by congruence. cbn [aggregate].
    assert (Hmap : forall w, mapOf (a ++ mkMTV (mtv_Id m) w :: b) = <[mtv_Id m := w]> (mapOf s)).
    { intros w. rewrite E, !mapOf_middle by done. cbn. by rewrite insert_insert_eq. }
    assert (Hmap' : forall w, mapOf (a' ++ mkMTV (mtv_Id m) w :: b') = <[mtv_Id m := w]> (mapOf s)).
    { intros w. rewrite E', !mapOf_middle by done. cbn. by rewrite insert_insert_eq. }
    split; [rewrite E in Hs; by eapply values_ok_replace|]. split; [|split].
    + rewrite E' in Hs. case_match; [by eapply values_ok_remove|by eapply values_ok_replace].
    + rewrite Hmap. apply map_eq. intros i. destruct (decide (i = mtv_Id m)) as [->|].
      * by rewrite lookup_insert_eq, lookup_partial_alter_eq, Hm.
      * by rewrite lookup_insert_ne, lookup_partial_alter_ne.
    + apply map_eq. intros i. destruct (decide (i = mtv_Id m)) as [->|].
      * rewrite lookup_partial_alter_eq, Hm. cbn [sent]. case_tests; rewrite ?Hmap', ?lookup_insert_eq;
          first [by apply mapOf_lookup_absent | f_equal; lia].
      * rewrite lookup_partial_alter_ne by done. case_match; [|by rewrite Hmap', lookup_insert_ne].
        rewrite E', mapOf_middle by done. by rewrite lookup_insert_ne.
  - assert (Forall (fun x => mtv_Id x <> mtv_Id m) a) by (by apply Forall_app in Hn as [? _]).
    split; [done|]. split; [done|]. split.
    + rewrite mapOf_middle, <- E by done. apply map_eq. intros i. destruct (decide (i = mtv_Id m)) as [->|].
      * by rewrite lookup_insert_eq, lookup_partial_alter_eq, Hm.
      * by rewrite lookup_insert_ne, lookup_partial_alter_ne.
    + apply map_eq. intros i. destruct (decide (i = mtv_Id m)) as [->|].
      * by rewrite lookup_partial_alter_eq, Hm.
      * by rewrite lookup_partial_alter_ne.
Qed.

Lemma values_ok_NoDup s : values_ok s -> NoDup (map mtv_Id s).
Proof.
  intros [Hs Hp]. induction Hs as [|m s Hs IH Hm]; [constructor|]. apply Forall_cons in Hp as [_ Hp].
  cbn [map]. constructor; [|auto]. intros (x & E & Hx)%list_elem_of_fmap.
  rewrite Forall_forall in Hm. specialize (Hm x Hx). unfold keyLt in Hm. rewrite E in Hm. lia.
Qed.

(** A slice in order is determined by the map it holds. *)
Lemma values_ok_unique a b : values_ok a -> values_ok b -> mapOf a = mapOf b -> a = b.
Proof.
  intros Ha Hb E.
  assert (Hin : forall s m, values_ok s -> m ∈ s <-> mapOf s !! mtv_Id m = Some (mtv_Value m)).
  { intros s m Hs. unfold mapOf. rewrite <- elem_of_list_to_map.
    - rewrite list_elem_of_fmap. split; [eauto|]. intros (m' & [= H1 H2] & Hm). destruct m, m'. cbn in *. by subst.
    - rewrite <- list_fmap_compose. by apply values_ok_NoDup. }
  apply (StronglySorted_unique_strong (keyLt mtv_Id)); [|apply Ha|apply Hb|].
  - unfold keyLt. intros x y _ _ H1 H2. lia.
  - apply NoDup_Permutation; [by eapply NoDup_fmap_1, values_ok_NoDup|by eapply NoDup_fmap_1, values_ok_NoDup|].
    intros m. by rewrite (Hin a m Ha), (Hin b m Hb), E.
Qed.

(** Sending what was received, and receiving what was sent, restores the values. *)
Lemma upsert_undo_received s m : values_ok s -> 0 <= mtv_Id m -> 0 <= mtv_Value m ->
  (forall v, mapOf s !! mtv_Id m = Some v -> 0 < v) ->
  MultiTokenValues.upsert (MultiTokenValues.upsert s m 0 aggAdd) m (-1) aggSub = s.
Proof.
  intros Hs Hid Hv Hpos. destruct (upsert_map s m Hs Hid Hv) as (H1 & _ & E1 & _).
  destruct (upsert_map _ m H1 Hid Hv) as (_ & H2 & _ & E2).
  apply values_ok_unique; [done|done|]. rewrite E2, E1. apply map_eq. intros i.
  destruct (decide (i = mtv_Id m)) as [->|]; [|by rewrite !lookup_partial_alter_ne].
  rewrite !lookup_partial_alter_eq. destruct (mapOf s !! mtv_Id m) as [v|] eqn:E; cbn.
  - specialize (Hpos v eq_refl). case_tests. f_equal. lia.
  - case_tests. done.
Qed.

Lemma upsert_undo_sent s m v : values_ok s -> 0 <= mtv_Id m -> 0 <= mtv_Value m ->
  mapOf s !! mtv_Id m = Some v -> mtv_Value m <= v ->
  MultiTokenValues.upsert (MultiTokenValues.upsert s m (-1) aggSub) m 0 aggAdd = s.
Proof.
  intros Hs Hid Hv E Hle. destruct (upsert_map s m Hs Hid Hv) as (_ & H1 & _ & E1).
  destruct (upsert_map _ m H1 Hid Hv) as (H2 & _ & E2 & _).
  apply values_ok_unique; [done|done|]. rewrite E2, E1. apply map_eq. intros i.
  destruct (decide (i = mtv_Id m)) as [->|]; [|by rewrite !lookup_partial_alter_ne].
  rewrite !lookup_partial_alter_eq, E. cbn. destruct (Z.leb_spec v (mtv_Value m)); unfold received; cbn; unfold id; f_equal; lia.
Qed.

(** The values of the tokens of an address are a finite map. Receiving adds to the value
    of the id; sending subtracts from it, not below zero, and removes the id when nothing is
    left; the slice stays in order of ids. *)
Theorem values_are_a_map s m : values_ok s -> 0 <= mtv_Id m -> 0 <= mtv_Value m ->
  let got := MultiTokenValues.upsert s m 0 aggAdd in
  let gave := MultiTokenValues.upsert s m (-1) aggSub in
  values_ok got /\ values_ok gave
  /\ mapOf got = partial_alter (fun v => received v (mtv_Value m)) (mtv_Id m) (mapOf s)
  /\ mapOf gave = partial_alter (fun v => sent v (mtv_Value m)) (mtv_Id m) (mapOf s)
  /\ ((forall v, mapOf s !! mtv_Id m = Some v -> 0 < v) -> MultiTokenValues.upsert got m (-1) aggSub = s)
  /\ (forall v, mapOf s !! mtv_Id m = Some v -> mtv_Value m <= v -> MultiTokenValues.upsert gave m 0 aggAdd = s).
Proof.
  intros Hs Hid Hv got gave. destruct (upsert_map s m Hs Hid Hv) as (H1 & H2 & H3 & H4).
  split_and!; [done..|by apply upsert_undo_received|]. intros v E Hle. by eapply upsert_undo_sent.
Qed.

Lemma values_are_a_map_witness :
  mapOf (MultiTokenValues.upsert [mkMTV 3 10; mkMTV 8 5] (mkMTV 8 5) (-1) aggSub) = {[3 := 10]}.
Proof.
  destruct (values_are_a_map [mkMTV 3 10; mkMTV 8 5] (mkMTV 8 5)) as (_ & _ & _ & H & _).
  - split; repeat constructor; unfold keyLt; cbn; lia.
  - cbn. lia.
  - cbn. lia.
  - rewrite H. vm_compute. reflexivity.
Defined.

(** ** The lazy forms *)

(** A lazy integer stands for [v]: decoded, or the packed bytes of [v]. *)
Definition repr (b : unpackedBigInt) (v : Z) : Prop :=
  ub_Value b = Some v \/ (ub_Value b = None /\ ub_Slice b = packBigint v /\ packable v).

Lemma get_repr b v : repr b v -> exists b', get b = Ok (v, b') /\ repr b' v /\ ub_Value b' = Some v.
Proof.
  unfold get. intros [E|(E & Es & Hp)]; rewrite E; [exists b; split_and!; [done|by left|done]|].
  pose proof (zlen_packBigint v). rewrite Es. destruct (Z.eqb_spec (zlen (packBigint v)) 0); [lia|].
  pose proof (unpackBigint_pack v [] Hp) as Hu. rewrite app_nil_r in Hu. rewrite Hu. cbn [rbind].
  eexists. split; [done|]. split; [by left|done].
Qed.

Lemma repr_decoded v : repr (decoded v) v.
Proof. by left. Qed.

#[export] Hint Resolve repr_decoded : core.

Section LazyRefines.
Context {A B : Type} (field : A -> unpackedBigInt) (set_field : unpackedBigInt -> A -> A) (key : B -> Z).
Context (rel : A -> B -> Prop).
Context (rel_key : forall e x, rel e x -> repr (field e) (key x)).
Context (rel_set : forall e x b, rel e x -> repr b (key x) -> rel (set_field b e) x).

Lemma getAt_refines s xs i x : Forall2 rel s xs -> 0 <= i -> xs !! Z.to_nat i = Some x ->
  exists s', getAt field set_field s i = Ok (key x, s') /\ Forall2 rel s' xs.
Proof.
  intros Hs Hi Hx. destruct (Forall2_lookup_r _ _ _ _ _ Hs Hx) as (e & He & Hr). unfold getAt, index.
  pose proof (lookup_lt_Some _ _ _ He). destruct (Z.leb_spec 0 i); [|lia]. rewrite He. cbn [rbind].
  destruct (get_repr _ _ (rel_key e x Hr)) as (b' & -> & Hb & _). cbn [rbind]. eexists. split; [done|].
  rewrite <- (list_insert_id xs (Z.to_nat i) x) by done. apply Forall2_insert; [done|]. by apply rel_set.
Qed.

Lemma searchLoop_refines xs id fuel : forall s i j, Forall2 rel s xs -> 0 <= i -> j <= zlen xs ->
  exists s', searchLoop field set_field fuel s id i j
    = Ok (sort_Search_loop fuel (Ids.atLeast (map key xs) id) i j, s') /\ Forall2 rel s' xs.
Proof.
  induction fuel as [|fuel IH]; intros s i j Hs Hi Hj; cbn [searchLoop sort_Search_loop]; [eauto|].
  destruct (Z.ltb_spec i j); [|eauto].
  assert (i <= (i + j) / 2 < j) as Hh by (split; [apply Z.div_le_lower_bound|apply Z.div_lt_upper_bound]; lia).
  destruct (lookup_lt_is_Some_2 xs (Z.to_nat ((i + j) / 2))) as [x Hx]; [unfold zlen in *; lia|].
  destruct (getAt_refines s xs ((i + j) / 2) x Hs ltac:(lia) Hx) as (s' & -> & Hs'). cbn [rbind].
  assert (Ids.atLeast (map key xs) id ((i + j) / 2) = (Z.abs id <=? Z.abs (key x))) as ->
    by (unfold Ids.atLeast; by rewrite list_lookup_fmap, Hx).
  destruct (Z.abs id <=? Z.abs (key x)); apply IH; auto; lia.
Qed.

Lemma lazySearch_refines s xs id : Forall2 rel s xs ->
  exists s', lazySearch field set_field s id
    = Ok (sort_Search (zlen xs) (Ids.atLeast (map key xs) id), s') /\ Forall2 rel s' xs.
Proof.
  intros Hs. unfold lazySearch, sort_Search. pose proof (Forall2_length _ _ _ Hs) as Hl.
  assert (zlen s = zlen xs) as -> by (unfold zlen; lia). rewrite Hl, to_nat_zlen. apply searchLoop_refines; auto; lia.
Qed.

Lemma lazyFound_refines s xs id i : Forall2 rel s xs -> 0 <= i ->
  exists s', lazyFound field set_field s id i
    = Ok ((i <? zlen xs) && Ids.foundAt (map key xs) id i, s') /\ Forall2 rel s' xs.
Proof.
  intros Hs Hi. unfold lazyFound. pose proof (Forall2_length _ _ _ Hs) as Hl.
  assert (zlen s = zlen xs) as -> by (unfold zlen; lia). destruct (Z.ltb_spec i (zlen xs)); [|eauto].
  destruct (lookup_lt_is_Some_2 xs (Z.to_nat i)) as [x Hx]; [unfold zlen in *; lia|].
  destruct (getAt_refines s xs i x Hs Hi Hx) as (s' & -> & Hs'). cbn [rbind andb].
  unfold Ids.foundAt. rewrite list_lookup_fmap, Hx. cbn. eauto.
Qed.
End LazyRefines.

Lemma unpackedIds_step s xs id : Forall2 repr s xs ->
  exists s1 s2, unpackedIds.search s id = Ok (Ids.search xs id, s1)
    /\ lazyFound (fun b => b) (fun b _ => b) s1 id (Ids.search xs id)
       = Ok ((Ids.search xs id <? zlen xs) && Ids.foundAt xs id (Ids.search xs id), s2)
    /\ Forall2 repr s2 xs /\ zlen s2 = zlen xs /\ 0 <= Ids.search xs id <= zlen xs.
Proof.
  intros Hs. unfold unpackedIds.search, Ids.search.
  destruct (lazySearch_refines (fun b => b) (fun b _ => b) (fun x => x) repr ltac:(auto) ltac:(auto) s xs id Hs)
    as (s1 & E1 & H1). rewrite map_self in E1.
  destruct (sort_Search_spec (zlen xs) (Ids.atLeast xs id) (zlen_nonneg xs)) as (Hr & _).
  destruct (lazyFound_refines (fun b => b) (fun b _ => b) (fun x => x) repr ltac:(auto) ltac:(auto) s1 xs id
    (sort_Search (zlen xs) (Ids.atLeast xs id)) H1 ltac:(lia)) as (s2 & E2 & H2). rewrite map_self in E2.
  exists s1, s2. split_and!; [done..| |lia|lia]. unfold zlen. by rewrite (Forall2_length _ _ _ H2).
Qed.

Lemma Forall2_insertAt {A B} (R : A -> B -> Prop) s xs i b x :
  Forall2 R s xs -> R b x -> Forall2 R (insertAt i b s) (insertAt i x xs).
Proof.
  intros Hs Hb. unfold insertAt. apply Forall2_insert; [|done].
  apply Forall2_app; [by apply Forall2_take|by apply Forall2_drop].
Qed.

Lemma Forall2_removeAt {A B} (R : A -> B -> Prop) s xs i : Forall2 R s xs -> Forall2 R (removeAt i s) (removeAt i xs).
Proof. intros Hs. unfold removeAt. apply Forall2_app; [by apply Forall2_take|by apply Forall2_drop]. Qed.

Lemma unpackedIds_insert s xs id : Forall2 repr s xs ->
  exists s', unpackedIds.insert s id = Ok s' /\ Forall2 repr s' (Ids.insert xs id).
Proof.
  intros Hs. destruct (unpackedIds_step s xs id Hs) as (s1 & s2 & E1 & E2 & H2 & Hl & Hr).
  unfold unpackedIds.insert, Ids.insert. rewrite E1. cbn [rbind]. rewrite E2. cbn [rbind]. rewrite Hl.
  destruct (_ && _); [eauto|]. destruct (_ =? _); eexists; (split; [done|]).
  - apply Forall2_app; [done|]. by repeat constructor.
  - by apply Forall2_insertAt.
Qed.

Lemma unpackedIds_remove s xs id : Forall2 repr s xs ->
  exists s', unpackedIds.remove s id = Ok s' /\ Forall2 repr s' (Ids.remove xs id).
Proof.
  intros Hs. destruct (unpackedIds_step s xs id Hs) as (s1 & s2 & E1 & E2 & H2 & Hl & Hr).
  unfold unpackedIds.remove, Ids.remove. rewrite E1. cbn [rbind]. rewrite E2. cbn [rbind].
  destruct (_ && _); eexists; (split; [done|]); [by apply Forall2_removeAt|done].
Qed.

(** A lazy value stands for a plain one. *)
Definition mrepr (e : unpackedMultiTokenValue) (m : MultiTokenValue) : Prop :=
  repr (um_Id e) (mtv_Id m) /\ repr (um_Value e) (mtv_Value m).

Lemma unpackedValues_upsert s xs m index f : Forall2 mrepr s xs ->
  exists s', unpackedMultiTokenValues.upsert s m index f = Ok s' /\ Forall2 mrepr s' (MultiTokenValues.upsert xs m index f).
Proof.
  intros Hs. unfold unpackedMultiTokenValues.upsert, MultiTokenValues.upsert,
    unpackedMultiTokenValues.search, MultiTokenValues.search.
  assert (K : forall e x, mrepr e x -> repr (um_Id e) (mtv_Id x)) by (by intros e x [? _]).
  assert (S : forall e x b, mrepr e x -> repr b (mtv_Id x) -> mrepr (unpackedMultiTokenValues.set_Id b e) x)
    by (by intros e x b [_ ?] ?; split).
  destruct (lazySearch_refines um_Id unpackedMultiTokenValues.set_Id mtv_Id mrepr K S s xs (mtv_Id m) Hs) as (s1 & -> & H1).
  cbn [rbind]. set (i := sort_Search _ _).
  assert (0 <= i <= zlen xs) as Hi by (apply sort_Search_spec; apply zlen_nonneg).
  destruct (lazyFound_refines um_Id unpackedMultiTokenValues.set_Id mtv_Id mrepr K S s1 xs (mtv_Id m) i H1) as (s2 & -> & H2); [lia|].
  cbn [rbind]. assert (zlen s2 = zlen xs) as -> by (unfold zlen; by rewrite (Forall2_length _ _ _ H2)).
  destruct ((i <? zlen xs) && Ids.foundAt (map mtv_Id xs) (mtv_Id m) i) eqn:Hf.
  - apply andb_true_iff in Hf as [Hlt%Z.ltb_lt _].
    destruct (lookup_lt_is_Some_2 xs (Z.to_nat i)) as [x Hx]; [unfold zlen in *; lia|]. rewrite Hx.
    destruct (Forall2_lookup_r _ _ _ _ _ H2 Hx) as (e & He & [Hk Hv]).
    unfold Prelude.index. destruct (Z.leb_spec 0 i); [|lia]. rewrite He. cbn [rbind].
    destruct (get_repr _ _ Hv) as (b & -> & _). cbn [rbind]. set (v := aggregate f (mtv_Value x) (mtv_Value m)).
    assert (Forall2 mrepr (<[Z.to_nat i := mkUMTV (um_Id e) (mkUBI (ub_Slice b) (Some v))]> s2) (<[Z.to_nat i := mkMTV (mtv_Id x) v]> xs)) as H3.
    { apply Forall2_insert; [done|]. split; [done|by left]. }
    destruct (_ && _); eexists; (split; [done|]); [|done].
    apply (Forall2_removeAt _ _ _ i) in H3. unfold removeAt in H3 |- *.
    rewrite (take_insert_ge xs) in H3 by lia. rewrite (drop_insert_lt xs) in H3 by lia. exact H3.
  - destruct (0 <=? index); [|eauto]. destruct (_ =? _); eexists; (split; [done|]).
    + apply Forall2_app; [done|]. constructor; [split; apply repr_decoded|constructor].
    + apply Forall2_insertAt; [done|]. split; apply repr_decoded.
Qed.

(** C23: the lazily decoded holdings do what the plain ones do: when the lazy integers stand
    for the ids [xs] and the values [ms], every operation succeeds, whatever was decoded
    before, and its result stands for the result of the plain operation. *)
Theorem lazy_holdings_refine s xs t ms id m index f :
  Forall2 repr s xs -> Forall2 mrepr t ms ->
  (exists s', unpackedIds.insert s id = Ok s' /\ Forall2 repr s' (Ids.insert xs id))
  /\ (exists s', unpackedIds.remove s id = Ok s' /\ Forall2 repr s' (Ids.remove xs id))
  /\ (exists t', unpackedMultiTokenValues.upsert t m index f = Ok t'
        /\ Forall2 mrepr t' (MultiTokenValues.upsert ms m index f)).
Proof.
  intros Hs Ht. split; [by apply unpackedIds_insert|]. split; [by apply unpackedIds_remove|].
  by apply unpackedValues_upsert.
Qed.

Lemma lazy_holdings_refine_witness :
  exists s', unpackedIds.insert [mkUBI (packBigint 3) None; decoded 9] 5 = Ok s' /\ Forall2 repr s' [3; 5; 9].
Proof.
  refine (proj1 (lazy_holdings_refine [mkUBI (packBigint 3) None; decoded 9] [3; 9] [] [] 5 (mkMTV 0 0) 0 aggAdd _ _)).
  - constructor; [right|constructor; [by left|constructor]].
    split; [done|]. split; [done|]. apply (bool_decide_unpack _). vm_compute. exact I.
  - constructor.
Defined.
