(* ===== verification/EthContracts.v ===== *)
(** The column [addressContracts] of Ethereum-type coins ([db/rocksdb_ethereumtype.go]:
    [AddrContracts], its encoders and decoders, and the partly decoded form
    [unpackedAddrContracts] that block processing works on).

    The theorems: rows are read back as stored, in the current and in the previous format, and
    the header reader agrees with the full one ([addr_contracts_codec]); decoding a row partly,
    changing what it stands for, and packing it again gives the row of what it stands for
    ([partial_unpack_codec]). *)

From S2P Require Import Prelude Codec GoSort EthTokens.

Local Open Scope Z_scope.

Definition EthereumTypeAddressDescriptorLen : Z := 20.

Record AddrContract := mkAddrContract {
  ac_Standard : TokenStandard;
  ac_Contract : bytes;
  ac_Txs : Z;
  ac_Value : Z;
  ac_Ids : list Z;
  ac_MultiTokenValues : list MultiTokenValue;
}.

Record AddrContracts := mkAddrContracts {
  acs_TotalTxs : Z;
  acs_NonContractTxs : Z;
  acs_InternalTxs : Z;
  acs_Contracts : list AddrContract;
}.

Section EthContracts.
Context {V : Vlq}.

(** ** Packing *)

(** [uint(ac.Standard)+ac.Txs<<2] *)
Definition standardAndTxs (standard txs : Z) : Z := u64 (u64 standard + u64 (Z.shiftl txs 2)).

Definition packMultiTokenValue (m : MultiTokenValue) : bytes := packBigint (mtv_Id m) ++ packBigint (mtv_Value m).

Definition packAddrContract (ac : AddrContract) : bytes :=
  ac_Contract ac ++ packVaruint (standardAndTxs (ac_Standard ac) (ac_Txs ac)) ++
  (if ac_Standard ac =? FungibleToken then packBigint (ac_Value ac)
   else if ac_Standard ac =? NonFungibleToken then
     packVaruint (zlen (ac_Ids ac)) ++ concat (map packBigint (ac_Ids ac))
   else packVaruint (zlen (ac_MultiTokenValues ac)) ++ concat (map packMultiTokenValue (ac_MultiTokenValues ac))).

Definition packCounters (totalTxs nonContractTxs internalTxs : Z) : bytes :=
  packVaruint totalTxs ++ packVaruint nonContractTxs ++ packVaruint internalTxs.

Definition packAddrContractsV6 (acs : AddrContracts) : bytes :=
  packCounters (acs_TotalTxs acs) (acs_NonContractTxs acs) (acs_InternalTxs acs) ++
  concat (map packAddrContract (acs_Contracts acs)).

Definition packAddrContracts (acs : AddrContracts) : bytes :=
  packCounters (acs_TotalTxs acs) (acs_NonContractTxs acs) (acs_InternalTxs acs) ++
  packVaruint (zlen (acs_Contracts acs)) ++
  concat (map packAddrContract (acs_Contracts acs)).

(** ** Unpacking *)

(** [v, l := unpackVaruint(buf); buf = buf[l:]] *)
Definition takeVaruint (buf : bytes) : result (Z * bytes) :=
  let '(v, l) := unpackVaruint buf in
  let! buf := slice_from buf l in
  Ok (v, buf).

(** [b, l := unpackBigint(buf); buf = buf[l:]] *)
Definition takeBigint (buf : bytes) : result (Z * bytes) :=
  let! '(b, l) := unpackBigint buf in
  let! buf := slice_from buf l in
  Ok (b, buf).

(** [for i := uint(0); i < len; i++ { ... }] *)
Fixpoint takeMany {A} (f : bytes -> result (A * bytes)) (n : nat) (buf : bytes) : result (list A * bytes) :=
  match n with
  | O => Ok ([], buf)
  | S n =>
      let! '(x, buf) := f buf in
      let! '(xs, buf) := takeMany f n buf in
      Ok (x :: xs, buf)
  end.

Definition takeMultiTokenValue (buf : bytes) : result (MultiTokenValue * bytes) :=
  let! '(id, buf) := takeBigint buf in
  let! '(value, buf) := takeBigint buf in
  Ok (mkMTV id value, buf).

Definition errInvalidData : goerror := ErrMsg "Invalid data stored in cfAddressContracts".

(** The body of the loop over the contracts. *)
Definition takeAddrContract (buf : bytes) : result (AddrContract * bytes) :=
  if zlen buf <? EthereumTypeAddressDescriptorLen then Err errInvalidData
  else
    let! contract := slice buf 0 EthereumTypeAddressDescriptorLen in
    let! rest := slice_from buf EthereumTypeAddressDescriptorLen in
    let '(txs, l) := unpackVaruint rest in
    let! buf := slice_from buf (EthereumTypeAddressDescriptorLen + l) in
    let standard := Z.land txs 3 in
    let txs := Z.shiftr txs 2 in
    if standard =? FungibleToken then
      let! '(b, buf) := takeBigint buf in
      Ok (mkAddrContract standard contract txs b [] [], buf)
    else
      let! '(len, buf) := takeVaruint buf in
      if standard =? NonFungibleToken then
        let! '(ids, buf) := takeMany takeBigint (Z.to_nat len) buf in
        Ok (mkAddrContract standard contract txs 0 ids [], buf)
      else
        let! '(values, buf) := takeMany takeMultiTokenValue (Z.to_nat len) buf in
        Ok (mkAddrContract standard contract txs 0 [] values, buf).

(** [for len(buf) > 0 { ... }]: every pass takes at least the address. *)
Fixpoint takeContracts (fuel : nat) (buf : bytes) : result (list AddrContract) :=
  match fuel with
  | O => Panic
  | S fuel =>
      if 0 <? zlen buf then
        let! '(ac, buf) := takeAddrContract buf in
        let! c := takeContracts fuel buf in
        Ok (ac :: c)
      else Ok []
  end.

(** The three counters, and the rest. *)
Definition takeCounters (buf : bytes) : result (Z * Z * Z * bytes) :=
  let! '(total, buf) := takeVaruint buf in
  let! '(nct, buf) := takeVaruint buf in
  let! '(ict, buf) := takeVaruint buf in
  Ok (total, nct, ict, buf).

Definition unpackAddrContractsV6 (buf : bytes) : result AddrContracts :=
  let! '(total, nct, ict, buf) := takeCounters buf in
  let! c := takeContracts (S (length buf)) buf in
  Ok (mkAddrContracts total nct ict c).

(** The number of contracts is only the capacity of the slice. *)
Definition unpackAddrContracts (buf : bytes) : result AddrContracts :=
  let! '(total, nct, ict, buf) := takeCounters buf in
  let! '(_, buf) := takeVaruint buf in
  let! c := takeContracts (S (length buf)) buf in
  Ok (mkAddrContracts total nct ict c).

Definition unpackVaruintSafe (buf : bytes) : option (Z * Z) :=
  if zlen buf =? 0 then None
  else
    let '(ui, l) := unpackVaruint buf in
    if (l <=? 0) || (zlen buf <? l) then None else Some (ui, l).

(** [for i := range counters { ... }] *)
Fixpoint unpackCountersSafe (n : nat) (buf : bytes) : result (list Z) :=
  match n with
  | O => Ok []
  | S n =>
      match unpackVaruintSafe buf with
      | None => Err errInvalidData
      | Some (v, l) =>
          let! buf := slice_from buf l in
          let! vs := unpackCountersSafe n buf in
          Ok (v :: vs)
      end
  end.

(** Only the counters; [Contracts] stays nil. *)
Definition unpackAddrContractsHeader (buf : bytes) : result AddrContracts :=
  let! counters := unpackCountersSafe 3 buf in
  match counters with
  | [total; nct; ict] => Ok (mkAddrContracts total nct ict [])
  | _ => Panic
  end.

(** ** The partly decoded form *)

Record unpackedAddrContract := mkUAC {
  uac_Standard : TokenStandard;
  uac_Contract : bytes;
  uac_Txs : Z;
  uac_Value : unpackedBigInt;
  uac_Ids : list unpackedBigInt;
  uac_MultiTokenValues : list unpackedMultiTokenValue;
}.

(** [contractIndex] maps the address of a contract to its position; [None] is a nil map. *)
Record unpackedAddrContracts := mkUACS {
  ua_Packed : bytes;
  ua_TotalTxs : Z;
  ua_NonContractTxs : Z;
  ua_InternalTxs : Z;
  ua_Contracts : list unpackedAddrContract;
  ua_contractIndex : option (gmap bytes nat);
  ua_contractIndexDirty : bool;
}.

Definition nilBigInt : unpackedBigInt := mkUBI [] None.

(** The decoder moves an index over the buffer. *)

(** [v, l := unpackVaruint(buf[index:]); index += l] *)
Definition readVaruint (buf : bytes) (i : Z) : result (Z * Z) :=
  let! b := slice_from buf i in
  let '(v, l) := unpackVaruint b in
  Ok (v, i + l).

(** [l := packedBigintLen(buf[index:]); buf[index : index+l]; index += l] *)
Definition readSlice (buf : bytes) (i : Z) : result (unpackedBigInt * Z) :=
  let! b := slice_from buf i in
  let! l := packedBigintLen b in
  let! s := slice buf i (i + l) in
  Ok (mkUBI s None, i + l).

Definition readUnpackedValue (buf : bytes) (i : Z) : result (unpackedMultiTokenValue * Z) :=
  let! '(id, i) := readSlice buf i in
  let! '(value, i) := readSlice buf i in
  Ok (mkUMTV id value, i).

Fixpoint readMany {A} (f : bytes -> Z -> result (A * Z)) (n : nat) (buf : bytes) (i : Z) : result (list A * Z) :=
  match n with
  | O => Ok ([], i)
  | S n =>
      let! '(x, i) := f buf i in
      let! '(xs, i) := readMany f n buf i in
      Ok (x :: xs, i)
  end.

(** The body of the loop over the contracts. *)
Definition readUnpackedContract (buf : bytes) (i : Z) : result (unpackedAddrContract * Z) :=
  let! contract := slice buf i (i + EthereumTypeAddressDescriptorLen) in
  let i := i + EthereumTypeAddressDescriptorLen in
  let! '(txs, i) := readVaruint buf i in
  let standard := Z.land txs 3 in
  let txs := Z.shiftr txs 2 in
  if standard =? FungibleToken then
    let! '(value, i) := readSlice buf i in
    Ok (mkUAC standard contract txs value [] [], i)
  else
    let! '(len, i) := readVaruint buf i in
    if standard =? NonFungibleToken then
      let! '(ids, i) := readMany readSlice (Z.to_nat len) buf i in
      Ok (mkUAC standard contract txs nilBigInt ids [], i)
    else
      let! '(values, i) := readMany readUnpackedValue (Z.to_nat len) buf i in
      Ok (mkUAC standard contract txs nilBigInt [] values, i).

(** [for index < len(buf) { ... }] *)
Fixpoint readContracts (fuel : nat) (buf : bytes) (i : Z) : result (list unpackedAddrContract) :=
  match fuel with
  | O => Panic
  | S fuel =>
      if i <? zlen buf then
        let! '(ac, i) := readUnpackedContract buf i in
        let! c := readContracts fuel buf i in
        Ok (ac :: c)
      else Ok []
  end.

Definition partiallyUnpackAddrContracts (buf : bytes) : result unpackedAddrContracts :=
  let! '(total, i) := readVaruint buf 0 in
  let! '(nct, i) := readVaruint buf i in
  let! '(ict, i) := readVaruint buf i in
  let! '(_, i) := readVaruint buf i in
  let! c := readContracts (S (length buf)) buf i in
  Ok (mkUACS buf total nct ict c None false).

(** The decoded value when there is one, and otherwise the bytes. *)
Definition packUnpackedBigInt (b : unpackedBigInt) : bytes :=
  match ub_Value b with Some v => packBigint v | None => ub_Slice b end.

Definition packUnpackedValue (m : unpackedMultiTokenValue) : bytes :=
  packUnpackedBigInt (um_Id m) ++ packUnpackedBigInt (um_Value m).

Definition packUnpackedContract (ac : unpackedAddrContract) : bytes :=
  uac_Contract ac ++ packVaruint (standardAndTxs (uac_Standard ac) (uac_Txs ac)) ++
  (if uac_Standard ac =? FungibleToken then packUnpackedBigInt (uac_Value ac)
   else if uac_Standard ac =? NonFungibleToken then
     packVaruint (zlen (uac_Ids ac)) ++ concat (map packUnpackedBigInt (uac_Ids ac))
   else packVaruint (zlen (uac_MultiTokenValues ac)) ++ concat (map packUnpackedValue (uac_MultiTokenValues ac))).

Definition packUnpackedAddrContracts (acs : unpackedAddrContracts) : bytes :=
  packCounters (ua_TotalTxs acs) (ua_NonContractTxs acs) (ua_InternalTxs acs) ++
  packVaruint (zlen (ua_Contracts acs)) ++
  concat (map packUnpackedContract (ua_Contracts acs)).
End EthContracts.

(** ** Reading back *)

(** [f] takes the encoding [enc] of [x] off the front of a buffer. *)
Definition takes {A} (f : bytes -> result (A * bytes)) (enc : bytes) (x : A) : Prop :=
  forall rest, f (enc ++ rest) = Ok (x, rest).

(** [f] reads the encoding [enc] of [x] inside a buffer. *)
Definition reads {A} (f : bytes -> Z -> result (A * Z)) (enc : bytes) (x : A) : Prop :=
  forall pre rest, f (pre ++ enc ++ rest) (zlen pre) = Ok (x, zlen pre + zlen enc).

Lemma standardAndTxs_ok standard txs : 0 <= standard < 4 -> 0 <= txs < 2 ^ 62 ->
  is_u64 (standardAndTxs standard txs)
  /\ Z.land (standardAndTxs standard txs) 3 = standard
  /\ Z.shiftr (standardAndTxs standard txs) 2 = txs.
Proof.
  intros Hs Ht. unfold standardAndTxs.
  assert (E : Z.shiftl txs 2 = txs * 4) by (by rewrite Z.shiftl_mul_pow2).
  rewrite E, !(u64_id standard), !(u64_id (txs * 4)), u64_id by (unfold is_u64; lia).
  split; [unfold is_u64; lia|]. change 3 with (Z.ones 2). rewrite Z.land_ones by lia.
  rewrite Z.shiftr_div_pow2 by lia. change (2 ^ 2) with 4.
  rewrite Z.mod_add, Z.div_add, Z.mod_small, Z.div_small by lia. auto.
Qed.

(** ** What can be stored *)

Definition holdings_ok (ac : AddrContract) : Prop :=
  if ac_Standard ac =? FungibleToken then packable (ac_Value ac) /\ ac_Ids ac = [] /\ ac_MultiTokenValues ac = []
  else ac_Value ac = 0 /\
    if ac_Standard ac =? NonFungibleToken then
      Forall packable (ac_Ids ac) /\ zlen (ac_Ids ac) < 2 ^ 64 /\ ac_MultiTokenValues ac = []
    else
      ac_Ids ac = [] /\ zlen (ac_MultiTokenValues ac) < 2 ^ 64 /\
      Forall (fun m => packable (mtv_Id m) /\ packable (mtv_Value m)) (ac_MultiTokenValues ac).

Definition contract_ok (ac : AddrContract) : Prop :=
  zlen (ac_Contract ac) = EthereumTypeAddressDescriptorLen /\
  0 <= ac_Standard ac < 4 /\ 0 <= ac_Txs ac < 2 ^ 62 /\ holdings_ok ac.

Definition contracts_ok (acs : AddrContracts) : Prop :=
  is_u64 (acs_TotalTxs acs) /\ is_u64 (acs_NonContractTxs acs) /\ is_u64 (acs_InternalTxs acs) /\
  zlen (acs_Contracts acs) < 2 ^ 64 /\ Forall contract_ok (acs_Contracts acs).

Section EthCodec.
Context {V : Vlq} {VL : VlqLaws V}.

Lemma takeVaruint_pack x : is_u64 x -> takes takeVaruint (packVaruint x) x.
Proof.
  intros Hx rest. unfold takeVaruint. rewrite unpackVaruint_pack by done.
  by rewrite slice_from_app.
Qed.

Lemma takeBigint_pack x : packable x -> takes takeBigint (packBigint x) x.
Proof.
  intros Hx rest. unfold takeBigint. rewrite unpackBigint_pack by done. cbn [rbind]. by rewrite slice_from_app.
Qed.

Lemma takeMultiTokenValue_pack m : packable (mtv_Id m) -> packable (mtv_Value m) ->
  takes takeMultiTokenValue (packMultiTokenValue m) m.
Proof.
  intros H1 H2 rest. unfold takeMultiTokenValue, packMultiTokenValue. rewrite <- app_assoc.
  rewrite takeBigint_pack by done. cbn [rbind]. rewrite takeBigint_pack by done. cbn [rbind]. by destruct m.
Qed.

Lemma takeMany_pack {A} (f : bytes -> result (A * bytes)) (enc : A -> bytes) xs :
  Forall (fun x => takes f (enc x) x) xs -> takes (takeMany f (length xs)) (concat (map enc xs)) xs.
Proof.
  induction 1 as [|x xs Hx _ IH]; intros rest; [done|]. cbn [map concat length takeMany].
  rewrite <- app_assoc, Hx. cbn [rbind]. rewrite IH. done.
Qed.

Lemma takeAddrContract_pack ac : contract_ok ac -> takes takeAddrContract (packAddrContract ac) ac.
Proof.
  destruct ac as [std c txs v ids ms]. intros (Hc & Hs & Ht & Hh) rest.
  unfold holdings_ok in Hh. cbn [ac_Contract ac_Standard ac_Txs ac_Value ac_Ids ac_MultiTokenValues] in *.
  destruct (standardAndTxs_ok std txs Hs Ht) as (Hu & Hl & Hr).
  unfold takeAddrContract, packAddrContract. cbn [ac_Contract ac_Standard ac_Txs ac_Value ac_Ids ac_MultiTokenValues].
  rewrite <- !app_assoc.
  match goal with |- context [packVaruint (standardAndTxs std txs) ++ ?x] => set (tail := x) end.
  destruct (Z.ltb_spec (zlen (c ++ packVaruint (standardAndTxs std txs) ++ tail)) EthereumTypeAddressDescriptorLen);
    [zlen_lia|].
  rewrite slice_0_app by done. cbn [rbind]. rewrite slice_from_app by done. cbn [rbind].
  rewrite unpackVaruint_pack by done.
  rewrite (app_assoc c), slice_from_app by (rewrite zlen_app; lia). cbn [rbind]. rewrite Hl, Hr. subst tail.
  destruct (Z.eqb_spec std FungibleToken).
  { destruct Hh as (Hv & -> & ->). by rewrite takeBigint_pack. }
  destruct Hh as (-> & Hh). destruct (Z.eqb_spec std NonFungibleToken).
  - destruct Hh as (Hi & Hz & ->). rewrite <- app_assoc, takeVaruint_pack by (split; [zlen_lia|done]). cbn [rbind].
    rewrite to_nat_zlen, takeMany_pack; [done|]. eapply Forall_impl; [exact Hi|]. apply takeBigint_pack.
  - destruct Hh as (-> & Hz & Hm). rewrite <- app_assoc, takeVaruint_pack by (split; [zlen_lia|done]). cbn [rbind].
    rewrite to_nat_zlen, takeMany_pack; [done|]. eapply Forall_impl; [exact Hm|].
    intros m [? ?]. by apply takeMultiTokenValue_pack.
Qed.

Lemma packAddrContract_pos ac : contract_ok ac -> 1 <= zlen (packAddrContract ac).
Proof. intros (Hc & _). unfold packAddrContract, EthereumTypeAddressDescriptorLen in *. zlen_lia. Qed.

Lemma takeContracts_pack cs fuel : Forall contract_ok cs -> (length (concat (map packAddrContract cs)) < fuel)%nat ->
  takeContracts fuel (concat (map packAddrContract cs)) = Ok cs.
Proof.
  intros Hc. revert fuel. induction Hc as [|c cs Hc _ IH]; intros fuel Hf; (destruct fuel as [|fuel]; [lia|]).
  { done. }
  cbn [map concat takeContracts] in *. pose proof (packAddrContract_pos c Hc). rewrite length_app in Hf.
  destruct (Z.ltb_spec 0 (zlen (packAddrContract c ++ concat (map packAddrContract cs)))); [|zlen_lia].
  rewrite takeAddrContract_pack by done. cbn [rbind]. rewrite IH; [done|]. unfold zlen in *. lia.
Qed.

Lemma takeCounters_pack t n i rest : is_u64 t -> is_u64 n -> is_u64 i ->
  takeCounters (packCounters t n i ++ rest) = Ok (t, n, i, rest).
Proof.
  intros Ht Hn Hi. unfold takeCounters, packCounters. rewrite <- !app_assoc.
  rewrite takeVaruint_pack by done. cbn [rbind]. rewrite takeVaruint_pack by done. cbn [rbind].
  by rewrite takeVaruint_pack.
Qed.

Lemma unpackAddrContracts_pack acs : contracts_ok acs -> unpackAddrContracts (packAddrContracts acs) = Ok acs.
Proof.
  destruct acs as [t n i cs]. intros (Ht & Hn & Hi & Hl & Hc). cbn in Ht, Hn, Hi, Hl, Hc.
  unfold unpackAddrContracts, packAddrContracts. cbn [acs_TotalTxs acs_NonContractTxs acs_InternalTxs acs_Contracts].
  rewrite takeCounters_pack by done. cbn [rbind]. rewrite takeVaruint_pack by (split; [zlen_lia|done]). cbn [rbind].
  by rewrite takeContracts_pack by (auto; lia).
Qed.

Lemma unpackAddrContractsV6_pack acs : contracts_ok acs -> unpackAddrContractsV6 (packAddrContractsV6 acs) = Ok acs.
Proof.
  destruct acs as [t n i cs]. intros (Ht & Hn & Hi & Hl & Hc). cbn in Ht, Hn, Hi, Hl, Hc.
  unfold unpackAddrContractsV6, packAddrContractsV6. cbn [acs_TotalTxs acs_NonContractTxs acs_InternalTxs acs_Contracts].
  rewrite takeCounters_pack by done. cbn [rbind]. by rewrite takeContracts_pack by (auto; lia).
Qed.

Lemma unpackCountersSafe_pack xs rest : Forall is_u64 xs ->
  unpackCountersSafe (length xs) (concat (map packVaruint xs) ++ rest) = Ok xs.
Proof.
  induction 1 as [|x xs Hx _ IH]; [done|]. cbn [map concat length unpackCountersSafe]. rewrite <- app_assoc.
  unfold unpackVaruintSafe. pose proof (zlen_packVaruint x Hx).
  set (r := concat (map packVaruint xs) ++ rest) in *. pose proof (zlen_nonneg r).
  rewrite zlen_app. destruct (Z.eqb_spec (zlen (packVaruint x) + zlen r) 0); [lia|].
  rewrite unpackVaruint_pack by done. case_tests. rewrite slice_from_app by done. cbn [rbind]. by rewrite IH.
Qed.

Lemma unpackAddrContractsHeader_pack t n i rest : is_u64 t -> is_u64 n -> is_u64 i ->
  unpackAddrContractsHeader (packCounters t n i ++ rest) = Ok (mkAddrContracts t n i []).
Proof.
  intros Ht Hn Hi. unfold unpackAddrContractsHeader, packCounters.
  assert (packVaruint t ++ packVaruint n ++ packVaruint i = concat (map packVaruint [t; n; i])) as ->
    by (cbn; by rewrite app_nil_r).
  by rewrite (unpackCountersSafe_pack [t; n; i]) by auto.
Qed.

(** ** The partly decoded form stands for the decoded one *)

(** A fresh contract has no value yet; the standard of a fungible one is only stored with a
    value. *)
Definition vrepr (b : unpackedBigInt) (v : Z) : Prop := repr b v \/ b = nilBigInt /\ v = 0.

Record crepr (u : unpackedAddrContract) (ac : AddrContract) : Prop := {
  cr_Standard : uac_Standard u = ac_Standard ac;
  cr_Contract : uac_Contract u = ac_Contract ac;
  cr_Txs : uac_Txs u = ac_Txs ac;
  cr_Value : vrepr (uac_Value u) (ac_Value ac);
  cr_Fungible : ac_Standard ac = FungibleToken -> repr (uac_Value u) (ac_Value ac);
  cr_Ids : Forall2 repr (uac_Ids u) (ac_Ids ac);
  cr_Values : Forall2 mrepr (uac_MultiTokenValues u) (ac_MultiTokenValues ac);
}.

Record urepr (u : unpackedAddrContracts) (acs : AddrContracts) : Prop := {
  ur_TotalTxs : ua_TotalTxs u = acs_TotalTxs acs;
  ur_NonContractTxs : ua_NonContractTxs u = acs_NonContractTxs acs;
  ur_InternalTxs : ua_InternalTxs u = acs_InternalTxs acs;
  ur_Contracts : Forall2 crepr (ua_Contracts u) (acs_Contracts acs);
}.

Lemma packUnpackedBigInt_repr b v : repr b v -> packUnpackedBigInt b = packBigint v.
Proof. unfold packUnpackedBigInt. intros [->|(-> & -> & _)]; done. Qed.

Lemma map_Forall2 {A B C} (R : A -> B -> Prop) (f : A -> C) (g : B -> C) l k :
  (forall x y, R x y -> f x = g y) -> Forall2 R l k -> map f l = map g k.
Proof. intros H. induction 1; cbn; f_equal; auto. Qed.

Lemma Forall2_zlen {A B} (R : A -> B -> Prop) l k : Forall2 R l k -> zlen l = zlen k.
Proof. intros H. unfold zlen. by rewrite (Forall2_length _ _ _ H). Qed.

Lemma packUnpackedContract_repr u ac : crepr u ac -> packUnpackedContract u = packAddrContract ac.
Proof.
  intros [H1 H2 H3 H4 H5 H6 H7]. unfold packUnpackedContract, packAddrContract. rewrite H1, H2, H3.
  do 2 f_equal. destruct (Z.eqb_spec (ac_Standard ac) FungibleToken); [by apply packUnpackedBigInt_repr, H5|].
  rewrite (Forall2_zlen _ _ _ H6), (Forall2_zlen _ _ _ H7).
  rewrite (map_Forall2 repr packUnpackedBigInt packBigint _ _ packUnpackedBigInt_repr H6).
  rewrite (map_Forall2 mrepr packUnpackedValue packMultiTokenValue _ _) with (2 := H7); [done|].
  intros x y [Hi Hv]. unfold packUnpackedValue, packMultiTokenValue. by rewrite !(packUnpackedBigInt_repr _ _ Hi), (packUnpackedBigInt_repr _ _ Hv).
Qed.

Lemma packUnpackedAddrContracts_repr u acs : urepr u acs -> packUnpackedAddrContracts u = packAddrContracts acs.
Proof.
  intros [H1 H2 H3 H4]. unfold packUnpackedAddrContracts, packAddrContracts. rewrite H1, H2, H3.
  rewrite (Forall2_zlen _ _ _ H4). by rewrite (map_Forall2 crepr _ packAddrContract _ _ packUnpackedContract_repr H4).
Qed.

(** ** The index-based decoder *)

Lemma readVaruint_pack x : is_u64 x -> reads readVaruint (packVaruint x) x.
Proof.
  intros Hx pre rest. unfold readVaruint. rewrite slice_from_app by done. cbn [rbind]. by rewrite unpackVaruint_pack.
Qed.

Lemma packedBigintLen_pack x rest : packedBigintLen (packBigint x ++ rest) = Ok (zlen (packBigint x)).
Proof.
  pose proof (unpackBigint_packBigint x rest) as H. unfold unpackBigint, packedBigintLen in *.
  destruct (index (packBigint x ++ rest) 0); [|done..]. cbn [rbind] in *.
  destruct (slice _ _ _); [|done..]. cbn [rbind] in H. congruence.
Qed.

Lemma readSlice_pack x : packable x -> reads readSlice (packBigint x) (mkUBI (packBigint x) None).
Proof.
  intros Hx pre rest. unfold readSlice. rewrite slice_from_app by done. cbn [rbind].
  rewrite packedBigintLen_pack. cbn [rbind]. by rewrite slice_app.
Qed.

Definition lazyBig (x : Z) : unpackedBigInt := mkUBI (packBigint x) None.
Definition lazyValue (m : MultiTokenValue) : unpackedMultiTokenValue := mkUMTV (lazyBig (mtv_Id m)) (lazyBig (mtv_Value m)).

Lemma lazyBig_repr x : packable x -> repr (lazyBig x) x.
Proof. intros Hx. right. auto. Qed.

Lemma readUnpackedValue_pack m : packable (mtv_Id m) -> packable (mtv_Value m) ->
  reads readUnpackedValue (packMultiTokenValue m) (lazyValue m).
Proof.
  intros H1 H2 pre rest. unfold readUnpackedValue, packMultiTokenValue. rewrite <- app_assoc.
  rewrite readSlice_pack by done. cbn [rbind]. rewrite (app_assoc pre), <- zlen_app.
  rewrite readSlice_pack by done. cbn [rbind]. do 2 f_equal. rewrite !zlen_app. lia.
Qed.

Lemma readMany_pack {A B} (f : bytes -> Z -> result (A * Z)) (enc : B -> bytes) (g : B -> A) xs :
  Forall (fun x => reads f (enc x) (g x)) xs -> reads (readMany f (length xs)) (concat (map enc xs)) (map g xs).
Proof.
  induction 1 as [|x xs Hx _ IH]; intros pre rest; cbn [map concat length readMany].
  { rewrite zlen_nil, Z.add_0_r. done. }
  rewrite <- app_assoc, Hx. cbn [rbind]. rewrite (app_assoc pre), <- zlen_app, IH. cbn [rbind].
  do 2 f_equal. rewrite !zlen_app. lia.
Qed.

(** The partly decoded form of a stored contract. *)
Definition lazyContract (ac : AddrContract) : unpackedAddrContract :=
  mkUAC (ac_Standard ac) (ac_Contract ac) (ac_Txs ac)
    (if ac_Standard ac =? FungibleToken then lazyBig (ac_Value ac) else nilBigInt)
    (map lazyBig (ac_Ids ac)) (map lazyValue (ac_MultiTokenValues ac)).

Lemma Forall2_map_l {A B} (R : A -> B -> Prop) (f : B -> A) xs : Forall (fun x => R (f x) x) xs -> Forall2 R (map f xs) xs.
Proof. induction 1; constructor; auto. Qed.

Lemma lazyContract_repr ac : contract_ok ac -> crepr (lazyContract ac) ac.
Proof.
  intros (_ & _ & _ & Hh). unfold holdings_ok in Hh. destruct ac as [std c txs v ids ms]. cbn in Hh.
  constructor; cbn; try done.
  - destruct (std =? FungibleToken); [left; apply lazyBig_repr, Hh|right]. by destruct Hh as [-> _].
  - intros ->. cbn in Hh |- *. apply lazyBig_repr, Hh.
  - apply Forall2_map_l. destruct (std =? FungibleToken); [by destruct Hh as (_ & -> & _)|].
    destruct Hh as [_ Hh]. destruct (std =? NonFungibleToken); [|by destruct Hh as [-> _]].
    eapply Forall_impl; [apply Hh|]. apply lazyBig_repr.
  - apply Forall2_map_l. destruct (std =? FungibleToken); [by destruct Hh as (_ & _ & ->)|].
    destruct Hh as [_ Hh]. destruct (std =? NonFungibleToken); [by destruct Hh as (_ & _ & ->)|].
    eapply Forall_impl; [apply Hh|]. intros m [? ?]. split; by apply lazyBig_repr.
Qed.

Lemma readUnpackedContract_pack ac : contract_ok ac -> reads readUnpackedContract (packAddrContract ac) (lazyContract ac).
Proof.
  destruct ac as [std c txs v ids ms]. intros (Hc & Hs & Ht & Hh) pre rest.
  unfold holdings_ok in Hh. cbn [ac_Contract ac_Standard ac_Txs ac_Value ac_Ids ac_MultiTokenValues] in *.
  destruct (standardAndTxs_ok std txs Hs Ht) as (Hu & Hl & Hr).
  unfold readUnpackedContract, packAddrContract, lazyContract.
  cbn [ac_Contract ac_Standard ac_Txs ac_Value ac_Ids ac_MultiTokenValues]. rewrite <- !app_assoc, <- Hc.
  rewrite slice_app by done. cbn [rbind]. rewrite (app_assoc pre), <- (zlen_app pre).
  rewrite readVaruint_pack by done. cbn [rbind]. rewrite (app_assoc (pre ++ c)), <- (zlen_app (pre ++ c)), Hl, Hr.
  match goal with |- _ = Ok (_, ?n) => remember n as len end.
  rewrite !zlen_app in Heqlen. set (p := (pre ++ c) ++ packVaruint _).
  assert (zlen p = zlen pre + zlen c + zlen (packVaruint (standardAndTxs std txs))) as Hp
    by (subst p; rewrite !zlen_app; lia).
  destruct (Z.eqb_spec std FungibleToken).
  { destruct Hh as (Hv & -> & ->). rewrite readSlice_pack by done. cbn [rbind]. do 2 f_equal. lia. }
  destruct Hh as (-> & Hh). destruct (Z.eqb_spec std NonFungibleToken).
  - destruct Hh as (Hi & Hz & ->). rewrite <- app_assoc, readVaruint_pack by (split; [zlen_lia|done]). cbn [rbind].
    rewrite (app_assoc p), <- (zlen_app p), to_nat_zlen.
    rewrite (readMany_pack _ packBigint lazyBig); [|eapply Forall_impl; [exact Hi|]; apply readSlice_pack].
    cbn [rbind]. do 2 f_equal. rewrite Heqlen, !zlen_app. lia.
  - destruct Hh as (-> & Hz & Hm). rewrite <- app_assoc, readVaruint_pack by (split; [zlen_lia|done]). cbn [rbind].
    rewrite (app_assoc p), <- (zlen_app p), to_nat_zlen.
    rewrite (readMany_pack _ packMultiTokenValue lazyValue).
    2: { eapply Forall_impl; [exact Hm|]. intros m [? ?]. by apply readUnpackedValue_pack. }
    cbn [rbind]. do 2 f_equal. rewrite Heqlen, !zlen_app. lia.
Qed.

Lemma readContracts_pack cs fuel pre : Forall contract_ok cs -> (length (concat (map packAddrContract cs)) < fuel)%nat ->
  readContracts fuel (pre ++ concat (map packAddrContract cs)) (zlen pre) = Ok (map lazyContract cs).
Proof.
  intros Hc. revert fuel pre. induction Hc as [|c cs Hc _ IH]; intros fuel pre Hf; (destruct fuel as [|fuel]; [lia|]).
  { cbn [map concat readContracts]. rewrite app_nil_r, Z.ltb_irrefl. done. }
  cbn [map concat readContracts] in *. pose proof (packAddrContract_pos c Hc). rewrite length_app in Hf.
  destruct (Z.ltb_spec (zlen pre) (zlen (pre ++ packAddrContract c ++ concat (map packAddrContract cs)))); [|zlen_lia].
  rewrite readUnpackedContract_pack by done. cbn [rbind]. rewrite app_assoc, <- zlen_app, IH; [done|]. unfold zlen in *. lia.
Qed.

(** The partly decoded form of a stored row. *)
Definition lazyContracts (acs : AddrContracts) : unpackedAddrContracts :=
  mkUACS (packAddrContracts acs) (acs_TotalTxs acs) (acs_NonContractTxs acs) (acs_InternalTxs acs)
    (map lazyContract (acs_Contracts acs)) None false.

Lemma lazyContracts_repr acs : contracts_ok acs -> urepr (lazyContracts acs) acs.
Proof.
  intros (_ & _ & _ & _ & Hc). constructor; try done. cbn. apply Forall2_map_l.
  eapply Forall_impl; [exact Hc|]. apply lazyContract_repr.
Qed.

Lemma partiallyUnpack_pack acs : contracts_ok acs ->
  partiallyUnpackAddrContracts (packAddrContracts acs) = Ok (lazyContracts acs).
Proof.
  intros (Ht & Hn & Hi & Hl & Hc). unfold lazyContracts.
  assert (E : packAddrContracts acs = [] ++ packVaruint (acs_TotalTxs acs) ++ packVaruint (acs_NonContractTxs acs) ++
    packVaruint (acs_InternalTxs acs) ++ packVaruint (zlen (acs_Contracts acs)) ++ concat (map packAddrContract (acs_Contracts acs))).
  { unfold packAddrContracts, packCounters. by rewrite <- !app_assoc. }
  generalize dependent (packAddrContracts acs). intros buf E. unfold partiallyUnpackAddrContracts.
  assert (R : forall pre x rest, buf = pre ++ packVaruint x ++ rest -> is_u64 x ->
    readVaruint buf (zlen pre) = Ok (x, zlen (pre ++ packVaruint x)) /\ buf = (pre ++ packVaruint x) ++ rest).
  { intros pre x rest -> Hx. rewrite readVaruint_pack, zlen_app, <- app_assoc by done. done. }
  destruct (R _ _ _ E Ht) as [E1 B1]. change (zlen []) with 0 in E1. rewrite E1. cbn [rbind].
  destruct (R _ _ _ B1 Hn) as [E2 B2]. rewrite E2. cbn [rbind].
  destruct (R _ _ _ B2 Hi) as [E3 B3]. rewrite E3. cbn [rbind].
  destruct (R _ _ _ B3) as [E4 B4]; [split; [zlen_lia|done]|]. rewrite E4. cbn [rbind].
  assert (readContracts (S (length buf)) buf
    (zlen ((((([] ++ packVaruint (acs_TotalTxs acs)) ++ packVaruint (acs_NonContractTxs acs)) ++ packVaruint (acs_InternalTxs acs)) ++
       packVaruint (zlen (acs_Contracts acs))))) = Ok (map lazyContract (acs_Contracts acs))) as ->; [|done].
  rewrite B4 at 2. apply readContracts_pack; [done|]. rewrite B4, length_app. lia.
Qed.
End EthCodec.

(** ** Properties *)

Section EthContractsProperties.
Context {V : Vlq} {VL : VlqLaws V}.

(** The contracts of an address are read back as they were stored: the counters and, for
    every contract, the transactions and the holdings of its standard; also in the previous
    format of the rows. The reader of the header gives the same counters without the
    contracts. *)
Theorem addr_contracts_codec acs : contracts_ok acs ->
  unpackAddrContracts (packAddrContracts acs) = Ok acs
  /\ unpackAddrContractsV6 (packAddrContractsV6 acs) = Ok acs
  /\ unpackAddrContractsHeader (packAddrContracts acs)
     = Ok (mkAddrContracts (acs_TotalTxs acs) (acs_NonContractTxs acs) (acs_InternalTxs acs) []).
Proof.
  intros H. split; [by apply unpackAddrContracts_pack|]. split; [by apply unpackAddrContractsV6_pack|].
  destruct H as (H1 & H2 & H3 & _). by apply unpackAddrContractsHeader_pack.
Qed.

(** Decoding a row only partly is invisible. The partly decoded form of a stored row
    stands for the contracts that were stored, and whatever it is turned into, packing a
    partly decoded form gives the row of the contracts it stands for, whichever of its
    integers were decoded on the way. *)
Theorem partial_unpack_codec acs : contracts_ok acs ->
  exists u, partiallyUnpackAddrContracts (packAddrContracts acs) = Ok u /\ urepr u acs
    /\ forall u' acs', urepr u' acs' -> packUnpackedAddrContracts u' = packAddrContracts acs'.
Proof.
  intros H. exists (lazyContracts acs). split; [by apply partiallyUnpack_pack|]. split; [by apply lazyContracts_repr|].
  apply packUnpackedAddrContracts_repr.
Qed.
End EthContractsProperties.

Module EthContractsExample.

#[local] Existing Instance RefVlq.vlq.
#[local] Existing Instance RefVlq.vlq_laws.

Definition addr (b : byte) : bytes := replicate 20 b.

(** An address with a fungible token, two non-fungible ones and one multi token. *)
Definition acs : AddrContracts :=
  mkAddrContracts 7 3 1
    [mkAddrContract FungibleToken (addr x01) 2 0 [] [];
     mkAddrContract NonFungibleToken (addr x02) 3 0 [5; 300] [];
     mkAddrContract MultiToken (addr x03) 1 0 [] [mkMTV 8 1000]].

Lemma acs_ok : contracts_ok acs.
Proof.
  assert (forall z, bool_decide (packable z) = true -> packable z) as Hp by (intros z; apply bool_decide_eq_true_1).
  unfold contracts_ok, contract_ok, holdings_ok, is_u64. cbn.
  repeat match goal with
  | |- _ /\ _ => split
  | |- Forall _ _ => constructor
  | |- packable _ => apply Hp; vm_compute; reflexivity
  | |- _ => progress cbn
  end; try done; try lia.
Qed.

Lemma addr_contracts_codec_witness : unpackAddrContracts (packAddrContracts acs) = Ok acs.
Proof. exact (proj1 (addr_contracts_codec acs acs_ok)). Defined.

Lemma partial_unpack_codec_witness :
  exists u, partiallyUnpackAddrContracts (packAddrContracts acs) = Ok u /\ urepr u acs.
Proof. destruct (partial_unpack_codec acs acs_ok) as (u & H1 & H2 & _). exists u. split; assumption. Defined.

End EthContractsExample.
