(* ===== verification/EthIndex.v ===== *)
(** The index over the contracts of an address ([db/address_hotness.go] and the index part of
    [db/rocksdb_ethereumtype.go]): addresses with many contracts that are looked up often are
    "hot"; their contracts are found through a map, those of other addresses by a linear scan.
    Hot addresses are kept in a list in order of use, which drops the least recently used.

    The theorems: whatever the tracker decides, a lookup finds what the linear scan finds
    ([contract_lookup_sound]); the tracker never keeps more addresses than its capacity, and
    forgets the one that was not used for the longest time ([hot_addresses_bounded]). *)

From S2P Require Import Prelude Codec EthTokens EthContracts.

Local Open Scope Z_scope.

(** [addressHotnessKeyFromDesc], [contractIndexKeyFromDesc]: keys have the length of an
    address. *)
Definition keyFromDesc (addr : bytes) : option bytes :=
  if zlen addr =? EthereumTypeAddressDescriptorLen then Some addr else None.

(** ** The list of hot addresses *)

(** [order] is the list from the most to the least recently used; [items] maps the keys to
    its elements. *)
Record hotAddressLRU := mkLRU { lru_capacity : Z; lru_order : list bytes; lru_items : gset bytes }.

Definition newHotAddressLRU (capacity : Z) : option hotAddressLRU :=
  if capacity <=? 0 then None else Some (mkLRU capacity [] ∅).

Definition moveToFront (key : bytes) (order : list bytes) : list bytes :=
  key :: filter (fun k => k <> key) order.

Definition touch (key : bytes) (l : hotAddressLRU) : hotAddressLRU * bool :=
  if bool_decide (key ∈ lru_items l)
  then (mkLRU (lru_capacity l) (moveToFront key (lru_order l)) (lru_items l), true)
  else (l, false).

(** The key that was dropped, if one was. *)
Definition add (key : bytes) (l : hotAddressLRU) : hotAddressLRU * option bytes :=
  if bool_decide (key ∈ lru_items l)
  then (mkLRU (lru_capacity l) (moveToFront key (lru_order l)) (lru_items l), None)
  else
    let order := key :: lru_order l in
    let items := {[key]} ∪ lru_items l in
    if zlen order <=? lru_capacity l then (mkLRU (lru_capacity l) order items, None)
    else
      match last order with
      | None => (mkLRU (lru_capacity l) order items, None)
      | Some evictedKey =>
          (mkLRU (lru_capacity l) (take (length order - 1) order) (items ∖ {[evictedKey]}), Some evictedKey)
      end.

(** ** The tracker *)

Record addressHotness := mkHotness {
  ht_minContracts : Z;
  ht_minHits : Z;
  ht_lru : option hotAddressLRU;
  ht_hits : gmap bytes Z;
  ht_maxPendingHits : Z;
  ht_blockEligibleLookups : Z;
  ht_blockLRUHits : Z;
  ht_blockPromotions : Z;
  ht_blockEvictions : Z;
}.

(** A nil tracker is [None]. *)
Definition newAddressHotness (minContracts lruSize minHits : Z) : option addressHotness :=
  if (minContracts <=? 0) || (lruSize <=? 0) || (minHits <=? 0) then None
  else Some (mkHotness minContracts minHits (newHotAddressLRU lruSize) ∅ lruSize 0 0 0 0).

Definition BeginBlock (h : option addressHotness) : option addressHotness :=
  match h with
  | None => None
  | Some h =>
      let hits := if ht_maxPendingHits h <? Z.of_nat (size (ht_hits h)) then ∅ else ht_hits h in
      Some (mkHotness (ht_minContracts h) (ht_minHits h) (ht_lru h) hits (ht_maxPendingHits h) 0 0 0 0)
  end.

Definition u16 (z : Z) : Z := z mod 2 ^ 16.

(** The tracker, the answer, and the address for which [onEvict] is called. *)
Definition ShouldUseIndex (addrKey : bytes) (contractCount : Z) (h : option addressHotness)
    : option addressHotness * bool * option bytes :=
  match h with
  | None => (None, false, None)
  | Some h =>
      if contractCount <? ht_minContracts h then (Some h, false, None)
      else
        let eligible := u64 (ht_blockEligibleLookups h + 1) in
        let with_ lru hits lruHits promotions evictions :=
          Some (mkHotness (ht_minContracts h) (ht_minHits h) lru hits (ht_maxPendingHits h)
                  eligible lruHits promotions evictions) in
        let touched :=
          match ht_lru h with
          | None => None
          | Some lru => let '(lru, found) := touch addrKey lru in if found then Some lru else None
          end in
        match touched with
        | Some lru =>
            (with_ (Some lru) (ht_hits h) (u64 (ht_blockLRUHits h + 1)) (ht_blockPromotions h) (ht_blockEvictions h),
             true, None)
        | None =>
            let hits := u16 (default 0 (ht_hits h !! addrKey) + 1) in
            if hits <? u16 (ht_minHits h) then
              (with_ (ht_lru h) (<[addrKey := hits]> (ht_hits h)) (ht_blockLRUHits h) (ht_blockPromotions h)
                 (ht_blockEvictions h), false, None)
            else
              let hits := delete addrKey (ht_hits h) in
              match ht_lru h with
              | None =>
                  (with_ None hits (ht_blockLRUHits h) (ht_blockPromotions h) (ht_blockEvictions h), true, None)
              | Some lru =>
                  let '(lru, evicted) := add addrKey lru in
                  let evictions := match evicted with Some _ => u64 (ht_blockEvictions h + 1) | None => ht_blockEvictions h end in
                  (with_ (Some lru) hits (ht_blockLRUHits h) (u64 (ht_blockPromotions h + 1)) evictions, true, evicted)
              end
        end
  end.

(** ** Looking up a contract *)

Fixpoint findFrom (contract : bytes) (contracts : list unpackedAddrContract) (i : nat) : option nat :=
  match contracts with
  | [] => None
  | c :: r => if bool_decide (contract = uac_Contract c) then Some i else findFrom contract r (S i)
  end.

Definition findContractInAddressContracts (contract : bytes) (contracts : list unpackedAddrContract) : option nat :=
  findFrom contract contracts 0.

Definition set_index (idx : option (gmap bytes nat)) (dirty : bool) (acs : unpackedAddrContracts) : unpackedAddrContracts :=
  mkUACS (ua_Packed acs) (ua_TotalTxs acs) (ua_NonContractTxs acs) (ua_InternalTxs acs) (ua_Contracts acs) idx dirty.

Definition set_contracts (cs : list unpackedAddrContract) (acs : unpackedAddrContracts) : unpackedAddrContracts :=
  mkUACS (ua_Packed acs) (ua_TotalTxs acs) (ua_NonContractTxs acs) (ua_InternalTxs acs) cs
    (ua_contractIndex acs) (ua_contractIndexDirty acs).

(** [for i := range acs.Contracts { ... m[key] = i }] *)
Fixpoint indexFrom (contracts : list unpackedAddrContract) (i : nat) (m : gmap bytes nat) : gmap bytes nat :=
  match contracts with
  | [] => m
  | c :: r =>
      indexFrom r (S i)
        (match keyFromDesc (uac_Contract c) with Some key => <[key := i]> m | None => m end)
  end.

Definition rebuildContractIndex (acs : unpackedAddrContracts) : unpackedAddrContracts :=
  set_index (Some (indexFrom (ua_Contracts acs) 0 ∅)) false acs.

Definition dropContractIndex (acs : unpackedAddrContracts) : unpackedAddrContracts := set_index None false acs.

Definition addContractIndex (contract : bytes) (idx : nat) (acs : unpackedAddrContracts) : unpackedAddrContracts :=
  match ua_contractIndex acs with
  | None => acs
  | Some m =>
      if ua_contractIndexDirty acs then acs
      else
        match keyFromDesc contract with
        | None => set_index (Some m) true acs
        | Some key => set_index (Some (<[key := idx]> m)) false acs
        end
  end.

Definition markContractIndexDirty (acs : unpackedAddrContracts) : unpackedAddrContracts :=
  match ua_contractIndex acs with Some m => set_index (Some m) true acs | None => acs end.

(** The answer, with the object, the tracker and the evicted address. *)
Definition findContractIndex (addrDesc contract : bytes) (hot : option addressHotness) (acs : unpackedAddrContracts)
    : option nat * unpackedAddrContracts * option addressHotness * option bytes :=
  let count := zlen (ua_Contracts acs) in
  let '(hot, useIndex, evicted) :=
    match hot with
    | None => (None, false, None)
    | Some h =>
        if ht_minContracts h <=? count then
          match keyFromDesc addrDesc with
          | Some addrKey => ShouldUseIndex addrKey count hot
          | None => (hot, false, None)
          end
        else (hot, false, None)
    end in
  if (useIndex : bool) then
    let acs :=
      match ua_contractIndex acs with
      | None => rebuildContractIndex acs
      | Some _ => if ua_contractIndexDirty acs then rebuildContractIndex acs else acs
      end in
    match ua_contractIndex acs, keyFromDesc contract with
    | Some m, Some key => (m !! key, acs, hot, evicted)
    | _, _ => (findContractInAddressContracts contract (ua_Contracts acs), acs, hot, evicted)
    end
  else (findContractInAddressContracts contract (ua_Contracts acs), acs, hot, evicted).

(** ** The list of hot addresses is bounded *)

Definition lru_ok (l : hotAddressLRU) : Prop :=
  0 < lru_capacity l /\ NoDup (lru_order l) /\ zlen (lru_order l) <= lru_capacity l /\
  lru_items l = list_to_set (lru_order l).

Lemma moveToFront_perm key order : NoDup order -> key ∈ order -> moveToFront key order ≡ₚ order.
Proof.
  intros Hn Hk. apply NoDup_Permutation; [|done|].
  - unfold moveToFront. constructor; [rewrite list_elem_of_filter; tauto|]. by apply NoDup_filter.
  - intros x. unfold moveToFront. rewrite elem_of_cons, list_elem_of_filter.
    destruct (decide (x = key)) as [->|]; tauto.
Qed.

Lemma moveToFront_ok key l : lru_ok l -> key ∈ lru_items l ->
  lru_ok (mkLRU (lru_capacity l) (moveToFront key (lru_order l)) (lru_items l)).
Proof.
  intros (Hc & Hn & Hl & Hi) Hk. rewrite Hi in Hk. apply elem_of_list_to_set in Hk.
  pose proof (moveToFront_perm key _ Hn Hk) as Hp. split_and!; cbn [lru_capacity lru_order lru_items]; [done|by rewrite Hp| |].
  - unfold zlen in *. rewrite Hp. lia.
  - rewrite Hi. apply set_eq. intros x. rewrite !elem_of_list_to_set. by rewrite Hp.
Qed.

(** *** The order of use *)

(** The keys in the order of their last use, the latest first; [uses] are the uses, the latest first. *)
Fixpoint recent (uses : list bytes) : list bytes :=
  match uses with
  | [] => []
  | key :: uses => moveToFront key (recent uses)
  end.

Lemma recent_NoDup uses : NoDup (recent uses).
Proof.
  induction uses as [|key uses IH]; [constructor|]. cbn [recent]. unfold moveToFront.
  constructor; [rewrite list_elem_of_filter; tauto|by apply NoDup_filter].
Qed.

Lemma length_without (key : bytes) l : NoDup l -> (length l <= S (length (filter (fun k => k <> key) l)))%nat.
Proof.
  induction 1 as [|x l Hx _ IH]; [cbn; lia|]. rewrite filter_cons. case_decide as Hk; [cbn [length]; lia|].
  subst x. rewrite filter_all; [cbn [length]; lia|]. by intros k Hk ->.
Qed.

(** Only the first keys matter for the first keys after a use. *)
Lemma moveToFront_take n key l : NoDup l -> take n (moveToFront key (take n l)) = take n (moveToFront key l).
Proof.
  intros Hn. unfold moveToFront. destruct (decide (length l <= n)%nat); [by rewrite (take_ge l)|].
  rewrite <- (take_drop n l) at 2. rewrite filter_app, app_comm_cons, take_app_le; [done|].
  assert (NoDup (take n l)) as Ht by (rewrite <- (take_drop n l), NoDup_app in Hn; tauto).
  pose proof (length_without key (take n l) Ht) as Hlen. rewrite length_take in Hlen. cbn [length]. lia.
Qed.

(** Either way a use moves the key to the front and cuts the list. *)
Lemma touch_order key l l' : lru_ok l -> touch key l = (l', true) ->
  key ∈ lru_order l /\ lru_order l' = take (Z.to_nat (lru_capacity l)) (moveToFront key (lru_order l)).
Proof.
  intros Hl. pose proof Hl as (Hc & Hn & Hle & Hi). unfold touch. case_bool_decide as Hk; [|done]. intros [= <-]. cbn [lru_order].
  assert (key ∈ lru_order l) as Hin by (rewrite Hi in Hk; by apply elem_of_list_to_set in Hk). split; [done|].
  rewrite take_ge; [done|]. rewrite (moveToFront_perm key _ Hn Hin). unfold zlen in Hle. lia.
Qed.

Lemma add_order key l l' e : lru_ok l -> key ∉ lru_order l -> add key l = (l', e) ->
  lru_order l' = take (Z.to_nat (lru_capacity l)) (moveToFront key (lru_order l))
  /\ e = (if zlen (lru_order l) <? lru_capacity l then None else last (lru_order l)).
Proof.
  intros (Hc & Hn & Hle & Hi) Hk. unfold add. rewrite bool_decide_eq_false_2 by (rewrite Hi; by rewrite elem_of_list_to_set).
  assert (moveToFront key (lru_order l) = key :: lru_order l) as -> by (unfold moveToFront; rewrite filter_all; [done|]; by intros k Hin ->).
  rewrite zlen_cons. destruct (Z.leb_spec (1 + zlen (lru_order l)) (lru_capacity l)).
  { intros [= <- <-]. cbn [lru_order]. rewrite take_ge by (unfold zlen in *; cbn [length]; lia). destruct (Z.ltb_spec (zlen (lru_order l)) (lru_capacity l)); [done|lia]. }
  destruct (Z.ltb_spec (zlen (lru_order l)) (lru_capacity l)); [lia|].
  destruct (lru_order l) as [|x order] eqn:Eo; [rewrite zlen_nil in *; lia|]. change (last (key :: x :: order)) with (last (x :: order)).
  destruct (last (x :: order)) as [k|] eqn:El; [|by apply last_None in El]. intros [= <- <-]. cbn [lru_order]. split; [|done].
  unfold zlen in *. cbn [length] in *. by replace (Z.to_nat (lru_capacity l)) with (S (length order)) by lia.
Qed.

Lemma touch_miss key l l' : lru_ok l -> touch key l = (l', false) -> key ∉ lru_order l.
Proof.
  intros (_ & _ & _ & Hi). unfold touch. case_bool_decide as Hk; [done|]. intros _. rewrite Hi in Hk. by rewrite elem_of_list_to_set in Hk.
Qed.

Lemma touch_ok key l l' b : lru_ok l -> touch key l = (l', b) -> lru_ok l' /\ lru_capacity l' = lru_capacity l.
Proof.
  unfold touch. intros Hl. case_bool_decide; intros [= <- <-]; [|done]. split; [by apply moveToFront_ok|done].
Qed.

Lemma add_ok key l l' e : lru_ok l -> add key l = (l', e) ->
  lru_ok l' /\ lru_capacity l' = lru_capacity l /\ head (lru_order l') = Some key
  /\ forall k, e = Some k -> last (lru_order l) = Some k /\ k ∉ lru_items l'.
Proof.
  intros Hl. unfold add. case_bool_decide as Hin.
  { intros [= <- <-]. split; [by apply moveToFront_ok|]. done. }
  destruct Hl as (Hc & Hn & Hle & Hi).
  assert (Hk : key ∉ lru_order l) by (rewrite Hi in Hin; by rewrite elem_of_list_to_set in Hin).
  destruct (Z.leb_spec (zlen (key :: lru_order l)) (lru_capacity l)) as [Hs|Hs].
  { intros [= <- <-]. split; [|done]. split_and!; cbn [lru_capacity lru_order lru_items]; [done|by constructor|done|].
    by rewrite Hi. }
  assert (Hne : lru_order l <> []).
  { intros E. rewrite E in Hs. unfold zlen in Hs. cbn in Hs. lia. }
  destruct (last (key :: lru_order l)) as [k|] eqn:El; [|by apply last_None in El].
  pose proof El as El'. apply last_Some in El' as [o Eo].
  assert (take (length (key :: lru_order l) - 1) (key :: lru_order l) = o) as Et.
  { rewrite Eo, length_app. cbn [length]. by replace (length o + 1 - 1)%nat with (length o) by lia; rewrite take_app_length. }
  assert (NoDup (o ++ [k])) as Hno by (rewrite <- Eo; by constructor).
  apply NoDup_app in Hno as (Ho & Hok & _).
  rewrite Et. intros [= <- <-]. cbn [lru_capacity lru_order lru_items].
  assert (Hsz : zlen (key :: lru_order l) = zlen o + 1) by (rewrite Eo, zlen_app; done).
  rewrite zlen_cons in Hsz.
  split; [split_and!; cbn [lru_capacity lru_order lru_items]; [done|done|lia|]|].
  - rewrite Hi, <- list_to_set_cons, Eo. rewrite list_to_set_app_L. set_solver.
  - split; [done|]. split.
    + destruct o as [|x o]; [injection Eo as _ E; congruence|]. injection Eo as -> _. done.
    + intros k' [= <-]. split; [|set_solver]. destruct (lru_order l) as [|y r]; [done|]. exact El.
Qed.

(** The tracker's list is one of [capacity] addresses. *)
Definition hot_ok (capacity : Z) (h : option addressHotness) : Prop :=
  match h with
  | None => True
  | Some h => exists l, ht_lru h = Some l /\ lru_ok l /\ lru_capacity l = capacity
  end.

(** The list of a tracker from the most to the least recently used. *)
Definition hot_order (h : option addressHotness) : list bytes :=
  match h with
  | Some h => match ht_lru h with Some l => lru_order l | None => [] end
  | None => []
  end.

Lemma newAddressHotness_ok minContracts lruSize minHits :
  hot_ok lruSize (newAddressHotness minContracts lruSize minHits).
Proof.
  unfold newAddressHotness, newHotAddressLRU. repeat case_match; try done; [lia|].
  eexists. split; [done|]. split; [|done]. split_and!; cbn [lru_capacity lru_order lru_items]; [lia|apply NoDup_nil_2|unfold zlen; cbn [length]; lia|done].
Qed.

Lemma BeginBlock_ok n h : hot_ok n h -> hot_ok n (BeginBlock h) /\ hot_order (BeginBlock h) = hot_order h.
Proof. by destruct h. Qed.

Lemma ShouldUseIndex_ok n key count h h' b e :
  hot_ok n h -> ShouldUseIndex key count h = (h', b, e) ->
  hot_ok n h' /\ (b = true -> head (hot_order h') = Some key) /\ (b = false -> hot_order h' = hot_order h)
  /\ forall k, e = Some k -> last (hot_order h) = Some k /\ k ∉ hot_order h'.
Proof.
  unfold ShouldUseIndex. destruct h as [h|]; [|by intros _ [= <- <- <-]]. intros (l & El & Hl & Hn).
  destruct (count <? ht_minContracts h); [intros [= <- <- <-]; split; [by exists l|done]|].
  rewrite El. destruct (touch key l) as [l' found] eqn:Et. pose proof (touch_ok _ _ _ _ Hl Et) as [Hl' Hn'].
  destruct found.
  { intros [= <- <- <-]. split; [exists l'; split_and!; [done|done|congruence]|]. split; [|done]. intros _.
    unfold touch in Et. case_bool_decide; [injection Et as <-; done|discriminate]. }
  case_match.
  { intros [= <- <- <-]. split; [by exists l|]. split_and!; [done|intros _; cbn; by rewrite El|done]. }
  destruct (add key l) as [l2 ev] eqn:Ea. intros [= <- <- <-].
  destruct (add_ok _ _ _ _ Hl Ea) as (Hok & Hcap & Hhd & Hev).
  split; [exists l2; split_and!; [done|done|congruence]|]. split_and!; [done|done|].
  intros k ->. destruct (Hev k eq_refl) as [Hlast Hnin]. cbn. rewrite El. split; [done|].
  destruct Hok as (_ & _ & _ & Hi). rewrite Hi in Hnin. by rewrite elem_of_list_to_set in Hnin.
Qed.

(** The calls a tracker receives. *)
Inductive hot_op :=
| OpBeginBlock
| OpShouldUseIndex (addrKey : bytes) (contractCount : Z).

Definition run_op (h : option addressHotness) (o : hot_op) : option addressHotness :=
  match o with
  | OpBeginBlock => BeginBlock h
  | OpShouldUseIndex key count => fst (fst (ShouldUseIndex key count h))
  end.

(** The list after a lookup, and what was dropped. *)
Lemma ShouldUseIndex_order n key count h h' b e : hot_ok n h -> ShouldUseIndex key count h = (h', b, e) ->
  (b = true -> hot_order h' = take (Z.to_nat n) (moveToFront key (hot_order h))) /\
  forall k, e = Some k <-> b = true /\ key ∉ hot_order h /\ zlen (hot_order h) = n /\ last (hot_order h) = Some k.
Proof.
  unfold ShouldUseIndex. destruct h as [h|]; [|intros _ [= <- <- <-]; naive_solver]. intros (l & El & Hl & Hn). unfold hot_order at 2 3 4 5. rewrite El.
  destruct (count <? ht_minContracts h); [intros [= <- <- <-]; naive_solver|].
  destruct (touch key l) as [l' found] eqn:Et. destruct found.
  { destruct (touch_order _ _ _ Hl Et) as [Hin Ho]. intros [= <- <- <-]. cbn [hot_order ht_lru]. rewrite <- Hn. split; [done|]. intros k. naive_solver. }
  pose proof (touch_miss _ _ _ Hl Et) as Hk. case_match; [intros [= <- <- <-]; naive_solver|].
  destruct (add key l) as [l2 ev] eqn:Ea. destruct (add_order _ _ _ _ Hl Hk Ea) as [Ho He]. intros [= <- <- <-]. cbn [hot_order ht_lru]. rewrite <- Hn.
  split; [done|]. intros k. subst ev. destruct Hl as (_ & _ & Hle & _). destruct (Z.ltb_spec (zlen (lru_order l)) (lru_capacity l)).
  - split; [done|]. intros (_ & _ & ? & _). lia.
  - split; [|tauto]. intros ->. split_and!; [done|done|lia|done].
Qed.

(** The tracker and the addresses for which the index was used, the latest first. *)
Definition use_op (s : option addressHotness * list bytes) (o : hot_op) : option addressHotness * list bytes :=
  match o with
  | OpBeginBlock => (BeginBlock s.1, s.2)
  | OpShouldUseIndex key count => let '(h, use, _) := ShouldUseIndex key count s.1 in (h, if use then key :: s.2 else s.2)
  end.

Lemma use_op_run s o : (use_op s o).1 = run_op s.1 o.
Proof. destruct o; cbn; [done|]. by destruct (ShouldUseIndex _ _ _) as [[? ?] ?]. Qed.

Definition in_order (n : Z) (s : option addressHotness * list bytes) : Prop :=
  hot_ok n s.1 /\ hot_order s.1 = take (Z.to_nat n) (recent s.2).

Lemma ShouldUseIndex_in_order n key count h uses h' b e : in_order n (h, uses) -> ShouldUseIndex key count h = (h', b, e) ->
  in_order n (h', if b then key :: uses else uses).
Proof.
  intros [Hok Ho] E. cbn [fst snd] in *. pose proof (ShouldUseIndex_ok _ _ _ _ _ _ _ Hok E) as (Hok' & _ & Hf & _).
  pose proof (ShouldUseIndex_order _ _ _ _ _ _ _ Hok E) as [Ht _]. split; [done|]. cbn [fst snd]. destruct b.
  - rewrite Ht by done. rewrite Ho. apply moveToFront_take, recent_NoDup.
  - by rewrite Hf.
Qed.

Lemma use_ops_ok n ops s : in_order n s -> in_order n (foldl use_op s ops).
Proof.
  revert s. induction ops as [|o ops IH]; intros [h uses] Hh; [done|]. cbn [foldl]. apply IH. destruct o; cbn [use_op fst snd].
  - destruct Hh as [Hok Ho]. destruct (BeginBlock_ok n h Hok) as [H1 H2]. split; cbn [fst snd]; [done|by rewrite H2].
  - destruct (ShouldUseIndex _ _ _) as [[h' b] e] eqn:E. by eapply ShouldUseIndex_in_order.
Qed.

Lemma hot_order_bound n h : hot_ok n h -> NoDup (hot_order h) /\ zlen (hot_order h) <= Z.max 0 n.
Proof.
  destruct h as [h|]; [|intros _; split; [apply NoDup_nil_2|unfold zlen; cbn [hot_order length]; lia]].
  intros (l & El & (Hc & Hn & Hl & _) & <-). cbn. rewrite El. split; [done|lia].
Qed.

(** ** The index finds what the scan finds *)

Lemma findFrom_None contract cs i : contract ∉ map uac_Contract cs -> findFrom contract cs i = None.
Proof.
  revert i. induction cs as [|c cs IH]; intros i Hn; [done|]. cbn [map] in Hn. cbn [findFrom].
  rewrite bool_decide_eq_false_2 by set_solver. apply IH. set_solver.
Qed.

Lemma findFrom_None_inv contract cs i : findFrom contract cs i = None -> contract ∉ map uac_Contract cs.
Proof.
  revert i. induction cs as [|c cs IH]; intros i; cbn [map findFrom]; [set_solver|].
  case_bool_decide; [done|]. intros ?%IH. set_solver.
Qed.

(** The scan looks at the addresses of the contracts only. *)
Lemma findFrom_contracts contract cs cs' i :
  map uac_Contract cs = map uac_Contract cs' -> findFrom contract cs i = findFrom contract cs' i.
Proof.
  revert i cs'. induction cs as [|c cs IH]; intros i [|c' cs'] E; try done. injection E as Ec E.
  cbn [findFrom]. rewrite Ec. case_bool_decide; [done|]. by apply IH.
Qed.

Lemma findFrom_app contract a b i :
  findFrom contract (a ++ b) i =
  match findFrom contract a i with Some j => Some j | None => findFrom contract b (i + length a) end.
Proof.
  revert i. induction a as [|c a IH]; intros i; cbn [app findFrom length]; [by rewrite Nat.add_0_r|].
  case_bool_decide; [done|]. rewrite IH. by replace (S i + length a)%nat with (i + S (length a))%nat by lia.
Qed.

Lemma findFrom_Some contract cs i j : findFrom contract cs i = Some j ->
  exists c, cs !! (j - i)%nat = Some c /\ (i <= j)%nat /\ uac_Contract c = contract.
Proof.
  revert i. induction cs as [|c cs IH]; intros i; [done|]. cbn [findFrom]. case_bool_decide as E.
  - intros [= <-]. exists c. rewrite Nat.sub_diag. auto.
  - intros (c' & Hc & Hle & Ec)%IH. exists c'. replace (j - i)%nat with (S (j - S i)) by lia. auto with lia.
Qed.

Lemma indexFrom_lookup cs : forall i m key, NoDup (map uac_Contract cs) -> keyFromDesc key = Some key ->
  indexFrom cs i m !! key = match findFrom key cs i with Some j => Some j | None => m !! key end.
Proof.
  induction cs as [|c cs IH]; intros i m key Hn Hk; [done|]. cbn [map] in Hn. apply NoDup_cons in Hn as [Hc Hn].
  cbn [indexFrom findFrom]. rewrite IH by done. case_bool_decide as E.
  - subst key. rewrite findFrom_None, Hk, lookup_insert_eq by done. done.
  - destruct (findFrom key cs (S i)); [done|]. unfold keyFromDesc.
    destruct (zlen (uac_Contract c) =? _); [|done]. by rewrite lookup_insert_ne by congruence.
Qed.

Definition index_ok (acs : unpackedAddrContracts) : Prop :=
  NoDup (map uac_Contract (ua_Contracts acs)) /\
  match ua_contractIndex acs with
  | None => True
  | Some m => ua_contractIndexDirty acs = false ->
      forall key, keyFromDesc key = Some key -> m !! key = findContractInAddressContracts key (ua_Contracts acs)
  end.

Lemma rebuild_ok acs : NoDup (map uac_Contract (ua_Contracts acs)) -> index_ok (rebuildContractIndex acs).
Proof.
  intros Hn. split; [done|]. intros _ key Hk. cbn [rebuildContractIndex set_index ua_contractIndex ua_Contracts].
  rewrite indexFrom_lookup by done. unfold findContractInAddressContracts. by destruct (findFrom _ _ _).
Qed.

Lemma keyFromDesc_self a key : keyFromDesc a = Some key -> key = a /\ keyFromDesc key = Some key.
Proof. unfold keyFromDesc. case_match eqn:E; [|done]. intros [= <-]. by rewrite E. Qed.

(** Lookups change nothing but the index. *)
Definition same_contracts (acs acs' : unpackedAddrContracts) : Prop :=
  exists idx dirty, acs' = set_index idx dirty acs.

Lemma findContractIndex_ok a c hot acs r acs' hot' e :
  index_ok acs -> findContractIndex a c hot acs = (r, acs', hot', e) ->
  r = findContractInAddressContracts c (ua_Contracts acs) /\ index_ok acs' /\ same_contracts acs acs'.
Proof.
  intros [Hn Hi]. unfold findContractIndex.
  match goal with |- (let (_, _) := ?t in _) = _ -> _ => destruct t as [[hot1 use] ev] end.
  assert (same_contracts acs acs) as Hrefl by (exists (ua_contractIndex acs), (ua_contractIndexDirty acs); by destruct acs).
  destruct use; [|intros [= <- <- _ _]; done].
  set (acs1 := match ua_contractIndex acs with Some _ => _ | None => _ end).
  assert (same_contracts acs acs1 /\ index_ok acs1 /\ ua_Contracts acs1 = ua_Contracts acs
    /\ exists m, ua_contractIndex acs1 = Some m /\ ua_contractIndexDirty acs1 = false) as (Hs & Hok & Hc & m & Em & Ed).
  { assert (same_contracts acs (rebuildContractIndex acs)) as Hb by (by eexists _, _).
    pose proof (rebuild_ok acs Hn). subst acs1. destruct (ua_contractIndex acs) as [m|] eqn:Em; [|eauto 10].
    destruct (ua_contractIndexDirty acs) eqn:Ed; [eauto 10|]. split_and!; [done| |done|eauto].
    split; [done|]. rewrite Em, Ed. exact Hi. }
  clearbody acs1. rewrite Em. rewrite <- Hc. destruct (keyFromDesc c) as [key|] eqn:Ek; intros [= <- <- _ _]; [|done].
  apply keyFromDesc_self in Ek as [-> Ek]. split; [|done]. destruct Hok as [_ Hok]. rewrite Em in Hok. by apply Hok.
Qed.

(** ** Reachable states *)

(** What connecting and disconnecting do to the contracts of one address: a contract is looked
    up; one that was not found is appended; the holdings of one are replaced; one is removed;
    the index is dropped when the tracker forgets the address. *)
Inductive index_step (addrDesc : bytes) : unpackedAddrContracts -> unpackedAddrContracts -> Prop :=
| step_lookup c hot acs r acs' hot' e :
    findContractIndex addrDesc c hot acs = (r, acs', hot', e) -> index_step addrDesc acs acs'
| step_append c hot acs acs' hot' e :
    findContractIndex addrDesc (uac_Contract c) hot acs = (None, acs', hot', e) ->
    index_step addrDesc acs
      (addContractIndex (uac_Contract c) (length (ua_Contracts acs')) (set_contracts (ua_Contracts acs' ++ [c]) acs'))
| step_update i c c' acs :
    ua_Contracts acs !! i = Some c -> uac_Contract c' = uac_Contract c ->
    index_step addrDesc acs (set_contracts (<[i := c']> (ua_Contracts acs)) acs)
| step_remove i acs : 0 <= i ->
    index_step addrDesc acs (markContractIndexDirty (set_contracts (removeAt i (ua_Contracts acs)) acs))
| step_drop acs : index_step addrDesc acs (dropContractIndex acs).

Lemma removeAt_sublist {A} i (s : list A) : 0 <= i -> sublist (removeAt i s) s.
Proof.
  intros Hi. unfold removeAt. rewrite <- (take_drop (Z.to_nat i) s) at 3. apply sublist_app; [done|].
  replace (Z.to_nat (i + 1)) with (Z.to_nat i + 1)%nat by lia. rewrite <- drop_drop. apply sublist_drop.
Qed.

Lemma fmap_map {A B} (f : A -> B) l : map f l = f <$> l.
Proof. done. Qed.

Lemma keyFromDesc_len k : keyFromDesc k = Some k -> zlen k =? EthereumTypeAddressDescriptorLen = true.
Proof. unfold keyFromDesc. by case_match. Qed.

(** Appending a contract that the scan does not find. *)
Lemma append_ok c acs : index_ok acs -> findContractInAddressContracts (uac_Contract c) (ua_Contracts acs) = None ->
  index_ok (addContractIndex (uac_Contract c) (length (ua_Contracts acs)) (set_contracts (ua_Contracts acs ++ [c]) acs)).
Proof.
  intros [Hn Hi] Hf.
  assert (Hc : uac_Contract c ∉ map uac_Contract (ua_Contracts acs)) by (by apply findFrom_None_inv with 0%nat).
  assert (Hn' : NoDup (map uac_Contract (ua_Contracts acs ++ [c]))).
  { rewrite map_app. cbn [map]. apply NoDup_app. split_and!; [done| |apply NoDup_singleton]. set_solver. }
  unfold addContractIndex. cbn [set_contracts ua_contractIndex ua_contractIndexDirty].
  destruct (ua_contractIndex acs) as [m|] eqn:Em; [|split; [done|cbn; by rewrite Em]].
  destruct (ua_contractIndexDirty acs) eqn:Ed; [split; [done|cbn; by rewrite Em, Ed]|].
  destruct (keyFromDesc (uac_Contract c)) as [key|] eqn:Ek; (split; [done|]); [|done]. intros _ k Hk.
  apply keyFromDesc_self in Ek as [-> Ek]. cbn [set_index set_contracts ua_Contracts]. unfold findContractInAddressContracts.
  rewrite findFrom_app. cbn [findFrom]. destruct (decide (k = uac_Contract c)) as [->|Hne].
  - rewrite lookup_insert_eq. fold (findContractInAddressContracts (uac_Contract c) (ua_Contracts acs)).
    rewrite Hf, bool_decide_eq_true_2 by done. done.
  - rewrite lookup_insert_ne, bool_decide_eq_false_2, (Hi eq_refl k Hk) by congruence.
    unfold findContractInAddressContracts. by destruct (findFrom _ _ _).
Qed.

Lemma update_ok i c c' acs : index_ok acs -> ua_Contracts acs !! i = Some c -> uac_Contract c' = uac_Contract c ->
  index_ok (set_contracts (<[i := c']> (ua_Contracts acs)) acs).
Proof.
  intros [Hn Hi] Hc Hcc.
  assert (E : map uac_Contract (<[i := c']> (ua_Contracts acs)) = map uac_Contract (ua_Contracts acs)).
  { rewrite !fmap_map, list_fmap_insert, Hcc. apply list_insert_id. by rewrite list_lookup_fmap, Hc. }
  split; cbn [set_contracts ua_Contracts ua_contractIndex ua_contractIndexDirty]; [by rewrite E|].
  destruct (ua_contractIndex acs) as [m|]; [|done]. intros Hd key Hk. rewrite (Hi Hd key Hk). by apply findFrom_contracts.
Qed.

Lemma remove_ok i acs : 0 <= i -> index_ok acs -> index_ok (markContractIndexDirty (set_contracts (removeAt i (ua_Contracts acs)) acs)).
Proof.
  intros Hi [Hn _].
  assert (NoDup (map uac_Contract (removeAt i (ua_Contracts acs)))) as Hn'.
  { eapply sublist_NoDup; [exact Hn|]. rewrite !fmap_map. by apply fmap_sublist, removeAt_sublist. }
  unfold markContractIndexDirty. cbn [set_contracts ua_contractIndex]. destruct (ua_contractIndex acs) as [m|] eqn:Em;
    (split; [done|]); [done|]. cbn. by rewrite Em.
Qed.

Lemma index_step_ok a acs acs' : index_step a acs acs' -> index_ok acs -> index_ok acs'.
Proof.
  intros Hs Hok. destruct Hs as [c hot acs r acs' hot' e Hf|c hot acs acs' hot' e Hf|i c c' acs Hc Hcc|i acs Hpos|acs].
  - by destruct (findContractIndex_ok _ _ _ _ _ _ _ _ Hok Hf) as (_ & ? & _).
  - destruct (findContractIndex_ok _ _ _ _ _ _ _ _ Hok Hf) as (Hr & Hok' & (? & ? & Ea)).
    apply append_ok; [done|]. rewrite Ea. by symmetry.
  - by eapply update_ok.
  - by apply remove_ok.
  - by destruct Hok.
Qed.

Lemma index_steps_ok a acs acs' : rtc (index_step a) acs acs' -> index_ok acs -> index_ok acs'.
Proof. induction 1; eauto using index_step_ok. Qed.

(** C24: contracts of an address are pairwise different and the index, when it is used, is
    right, in every state reached from a row read from the database by lookups, appended,
    changed and removed contracts and a dropped index; so whatever the tracker decides, a
    lookup answers what the linear scan answers and changes nothing but the index. *)
Theorem contract_lookup_sound addrDesc acs0 acs contract hot :
  NoDup (map uac_Contract (ua_Contracts acs0)) -> ua_contractIndex acs0 = None ->
  rtc (index_step addrDesc) acs0 acs ->
  let '(r, acs', _, _) := findContractIndex addrDesc contract hot acs in
  r = findContractInAddressContracts contract (ua_Contracts acs) /\
  NoDup (map uac_Contract (ua_Contracts acs)) /\
  acs' = set_index (ua_contractIndex acs') (ua_contractIndexDirty acs') acs.
Proof.
  intros Hn Hi Hr.
  assert (Hok : index_ok acs) by (apply (index_steps_ok _ _ _ Hr); split; [done|by rewrite Hi]).
  destruct (findContractIndex addrDesc contract hot acs) as [[[r acs'] hot'] e] eqn:E.
  destruct (findContractIndex_ok _ _ _ _ _ _ _ _ Hok E) as (-> & _ & (idx & dirty & ->)). split_and!; [done|apply Hok|done].
Qed.

(** C25: after any sequence of blocks and lookups the tracker lists exactly the addresses for which the index was
    used last, as many as it was made for, each once and in the order of their last use; a lookup for which the index is to be used
    makes its address the most recently used one, the list does not change otherwise. An address is
    dropped exactly when another one is added to a full list, and it is the one that was not used for the longest time. *)
Theorem hot_addresses_bounded minContracts lruSize minHits ops addrKey contractCount :
  let '(h, uses) := foldl use_op (newAddressHotness minContracts lruSize minHits, []) ops in
  let '(h', useIndex, evicted) := ShouldUseIndex addrKey contractCount h in
  h = foldl run_op (newAddressHotness minContracts lruSize minHits) ops /\
  hot_order h = take (Z.to_nat lruSize) (recent uses) /\ NoDup (hot_order h) /\ zlen (hot_order h) <= Z.max 0 lruSize /\
  hot_order h' = take (Z.to_nat lruSize) (recent (if useIndex then addrKey :: uses else uses)) /\
  (useIndex = true -> head (hot_order h') = Some addrKey) /\
  (useIndex = false -> hot_order h' = hot_order h) /\
  (forall k, evicted = Some k <-> useIndex = true /\ addrKey ∉ hot_order h /\ zlen (hot_order h) = lruSize /\ last (hot_order h) = Some k) /\
  (forall k, evicted = Some k -> k ∉ hot_order h').
Proof.
  set (s0 := (newAddressHotness minContracts lruSize minHits, [])).
  assert (in_order lruSize (foldl use_op s0 ops)) as Hin.
  { apply use_ops_ok. split; [apply newAddressHotness_ok|]. cbn. rewrite take_nil. unfold newAddressHotness, newHotAddressLRU. by repeat case_match. }
  assert ((foldl use_op s0 ops).1 = foldl run_op s0.1 ops) as Hrun.
  { clear Hin. generalize s0. induction ops as [|o ops' IH]; intros s; [done|]. cbn [foldl]. by rewrite IH, use_op_run. }
  destruct (foldl use_op s0 ops) as [h uses]. cbn [fst] in Hrun.
  destruct (ShouldUseIndex addrKey contractCount h) as [[h' use] e] eqn:E.
  pose proof (ShouldUseIndex_in_order _ _ _ _ _ _ _ _ Hin E) as [_ Hout]. destruct Hin as [Hok Ho]. cbn [fst snd] in *.
  pose proof (hot_order_bound _ _ Hok). pose proof (ShouldUseIndex_ok _ _ _ _ _ _ _ Hok E) as (_ & Hhd & Hsame & Hdrop).
  pose proof (ShouldUseIndex_order _ _ _ _ _ _ _ Hok E) as [_ Hev]. split_and!; [done|done|tauto|tauto|done|done|done|done|].
  intros k Hk. by apply (Hdrop k Hk).
Qed.

Module EthIndexExample.
Definition adr (b : byte) : bytes := replicate 20 b.
Definition ucontract (b : byte) : unpackedAddrContract := mkUAC FungibleToken (adr b) 1 nilBigInt [] [].
Definition acs0 : unpackedAddrContracts := mkUACS [] 2 1 0 [ucontract x01; ucontract x02] None false.

(** A tracker for which every address with a contract is hot at once. *)
Definition tracker : option addressHotness := newAddressHotness 1 2 1.

Example lookup_through_index :
  let '(r, acs, _, _) := findContractIndex (adr x0a) (adr x02) tracker acs0 in
  r = Some 1%nat /\ (m ← ua_contractIndex acs; m !! adr x02) = Some 1%nat.
Proof. vm_compute. split; reflexivity. Qed.

(** The third address drops the first one. *)
Example third_address_evicts :
  let h := foldl run_op tracker [OpShouldUseIndex (adr x01) 5; OpShouldUseIndex (adr x02) 5] in
  let '(h', use, evicted) := ShouldUseIndex (adr x03) 5 h in
  use = true /\ evicted = Some (adr x01) /\ hot_order h' = [adr x03; adr x02].
Proof. vm_compute. split_and!; reflexivity. Qed.

Lemma contract_lookup_sound_witness :
  let acs := dropContractIndex acs0 in
  let '(r, acs', _, _) := findContractIndex (adr x0a) (adr x02) tracker acs in
  r = findContractInAddressContracts (adr x02) (ua_Contracts acs) /\
  NoDup (map uac_Contract (ua_Contracts acs)) /\
  acs' = set_index (ua_contractIndex acs') (ua_contractIndexDirty acs') acs.
Proof.
  apply (contract_lookup_sound (adr x0a) acs0 (dropContractIndex acs0) (adr x02) tracker).
  - apply (bool_decide_eq_true_1 _). vm_compute. reflexivity.
  - reflexivity.
  - apply rtc_once. constructor.
Defined.
End EthIndexExample.
