(* ===== verification/EthParser.v ===== *)
(** The parser of Ethereum-type coins ([bchain/coins/eth/ethparser.go]: addresses, txids and
    the texts of internal errors) and the data it works on ([bchain/types_ethereum_type.go]).

    Packages outside the repository are the class [GoEth]: [hexutil.Encode] of go-ethereum and
    the hash [sha3.NewLegacyKeccak256].

    The theorem [eip55_roundtrip]: the checksummed text of an address is read back as the
    address, and formatting any spelling of an address gives its checksummed text. *)

From S2P Require Import Prelude Codec Parser EthTokens EthContracts.

Local Open Scope Z_scope.

Definition str (s : string) : bytes := Stdlib.Strings.String.list_byte_of_string s.

(** ** The data of a transaction *)

Definition EthereumInternalTransactionType : Type := Z.
Definition CALL : EthereumInternalTransactionType := 0.
Definition CREATE : EthereumInternalTransactionType := 1.
Definition SELFDESTRUCT : EthereumInternalTransactionType := 2.

Record EthereumInternalTransfer := mkInternalTransfer {
  it_Type : EthereumInternalTransactionType;
  it_From : bytes;
  it_To : bytes;
  it_Value : Z;
}.

Record EthereumInternalData := mkInternalData {
  id_Type : EthereumInternalTransactionType;
  id_Contract : bytes;
  id_Transfers : list EthereumInternalTransfer;
  id_Error : bytes;
}.

Record TokenTransfer := mkTokenTransfer {
  tt_Standard : TokenStandard;
  tt_Contract : bytes;
  tt_From : bytes;
  tt_To : bytes;
  tt_Value : Z;
  tt_MultiTokenValues : list MultiTokenValue;
}.

(** The fields that are read by the modelled code. *)
Record RpcTransaction := mkRpcTransaction { rt_To : bytes; rt_Payload : bytes; rt_From : bytes }.
Record RpcLog := mkRpcLog { log_Address : bytes; log_Topics : list bytes; log_Data : bytes }.
Record RpcReceipt := mkRpcReceipt { rr_Logs : list RpcLog }.

(** [Tx], [InternalData] and [Receipt] are pointers. *)
Record EthereumSpecificData := mkSpecificData {
  esd_Tx : option RpcTransaction;
  esd_InternalData : option EthereumInternalData;
  esd_Receipt : option RpcReceipt;
}.

(** A transaction: the addresses of its inputs and outputs; [CoinSpecificData] is [None] when
    it is not of the type [EthereumSpecificData]. *)
Record EthTx := mkEthTx {
  etx_Txid : bytes;
  etx_Vin : list (list bytes);
  etx_Vout : list (list bytes);
  etx_BlockHeight : Z;
  etx_CoinSpecificData : option EthereumSpecificData;
}.

(** ** Addresses and txids *)

Class GoEth := {
  hexutil_Encode : bytes -> bytes;
  keccak256 : bytes -> bytes;
}.

(** What their documentation says: the hex string with the prefix 0x; a hash of 32 bytes. *)
Class GoEthLaws (G : GoEth) : Prop := {
  hexutil_Encode_spec b : hexutil_Encode b = x30 :: x78 :: hex_EncodeToString b;
  keccak256_length b : zlen (keccak256 b) = 32;
}.

Definition EthereumTypeTxidLen : Z := 32.

Definition has0xPrefix (s : bytes) : bool :=
  match s with
  | a :: b :: _ => (b2z a =? 48) && (Z.lor (b2z b) 32 =? 120)
  | _ => false
  end.

(** [if has0xPrefix(s) { s = s[2:] }] *)
Definition strip0x (s : bytes) : bytes := if has0xPrefix s then drop 2 s else s.

(** The body of the loop of [EIP55Address] at position [i]. *)
Definition eip55Char (hash : bytes) (i : Z) (c : byte) : result byte :=
  let! h := index hash (Z.shiftr (i - 2) 1) in
  let hashByte := if i mod 2 =? 0 then Z.shiftr (b2z h) 4 else Z.land (b2z h) 15 in
  Ok (if (57 <? b2z c) && (7 <? hashByte) then z2b (b2z c - 32) else c).

Fixpoint eip55Chars (hash : bytes) (i : Z) (s : bytes) : result bytes :=
  match s with
  | [] => Ok []
  | c :: r =>
      let! c' := eip55Char hash i c in
      let! r' := eip55Chars hash (i + 1) r in
      Ok (c' :: r')
  end.

Section EthParser.
Context {G : GoEth}.

Definition EIP55Address (addrDesc : bytes) : result bytes :=
  let raw := hexutil_Encode addrDesc in
  if zlen raw =? 42 then
    let! digits := slice_from raw 2 in
    let hash := keccak256 digits in
    let! prefix := slice raw 0 2 in
    let! digits := eip55Chars hash 2 digits in
    Ok (prefix ++ digits)
  else Ok raw.

Definition EIP55AddressFromAddress (address : bytes) : result bytes :=
  let address := strip0x address in
  match hex_DecodeString address with
  | Ok b => EIP55Address b
  | Err _ => Ok address
  | Panic => Panic
  end.

End EthParser.

(** The operations of the parser interface. *)
Module EthereumParser.

Definition GetAddrDescFromAddress (address : bytes) : result bytes :=
  let address := strip0x address in
  if zlen address =? EthereumTypeAddressDescriptorLen * 2 then hex_DecodeString address
  else Err ErrAddressMissing.

Section EthereumParser.
Context {G : GoEth}.

(** With the default [FromDescToAddressFunc]. *)
Definition GetAddressesFromAddrDesc (addrDesc : bytes) : result (list bytes) :=
  let! a := EIP55Address addrDesc in Ok [a].

Definition PackedTxidLen : Z := EthereumTypeTxidLen.
Definition PackTxid (txid : bytes) : result bytes := hex_DecodeString (strip0x txid).
Definition UnpackTxid (buf : bytes) : result bytes := Ok (hexutil_Encode buf).
Definition PackBlockHash (hash : bytes) : result bytes := hex_DecodeString (strip0x hash).
Definition UnpackBlockHash (buf : bytes) : result bytes := Ok (hexutil_Encode buf).
End EthereumParser.
End EthereumParser.

(** The part of [BlockChainParser] the index of Ethereum-type coins calls. *)
Class EthChainParser := {
  eth_chain :: ChainParser;
  GetAddrDescFromAddress : bytes -> result bytes;
  GetAddressesFromAddrDesc : bytes -> result (list bytes);
  EthereumTypeGetTokenTransfersFromTx : EthTx -> result (list TokenTransfer);
}.

(** What the index relies on: descriptors have the length of an address, and a descriptor
    that is written as text is read back. *)
Class EthChainParserLaws (E : EthChainParser) : Prop := {
  GetAddrDesc_length a desc : GetAddrDescFromAddress a = Ok desc -> zlen desc = EthereumTypeAddressDescriptorLen;
  GetAddrDesc_no_panic a : GetAddrDescFromAddress a <> Panic;
  GetAddresses_read_back desc : zlen desc = EthereumTypeAddressDescriptorLen ->
    exists s, GetAddressesFromAddrDesc desc = Ok [s] /\ GetAddrDescFromAddress s = Ok desc;
  eth_txid_len : PackedTxidLen = EthereumTypeTxidLen;
}.

(** ** Texts of internal errors *)

Definition PackInternalTransactionError (e : bytes) : bytes :=
  if bool_decide (e = str "execution reverted") then [x01]
  else if bool_decide (e = str "out of gas") then [x02]
  else if bool_decide (e = str "contract creation code storage out of gas") then [x03]
  else if bool_decide (e = str "max code size exceeded") then [x04]
  else e.

(** [strings.ReplaceAll] of a single byte. *)
Definition replaceByte (c : byte) (by_ : bytes) (s : bytes) : bytes :=
  concat (map (fun x => if bool_decide (x = c) then by_ else [x]) s).

(** The UTF-8 encodings of the runes [unicode.IsSpace] accepts. *)
Definition spaceRunes : list bytes :=
  [[x09]; [x0a]; [x0b]; [x0c]; [x0d]; [x20]; [xc2; x85]; [xc2; xa0]; [xe1; x9a; x80];
   [xe2; x80; x80]; [xe2; x80; x81]; [xe2; x80; x82]; [xe2; x80; x83]; [xe2; x80; x84]; [xe2; x80; x85];
   [xe2; x80; x86]; [xe2; x80; x87]; [xe2; x80; x88]; [xe2; x80; x89]; [xe2; x80; x8a];
   [xe2; x80; xa8]; [xe2; x80; xa9]; [xe2; x80; xaf]; [xe2; x81; x9f]; [xe3; x80; x80]].

Definition hasPrefix (p s : bytes) : bool := bool_decide (take (length p) s = p).

(** The length of the space rune at the front of [s] (the runes given). *)
Definition spaceAt (runes : list bytes) (s : bytes) : nat :=
  match find (fun r => hasPrefix r s) runes with Some r => length r | None => 0 end.

Fixpoint trimLeft (runes : list bytes) (fuel : nat) (s : bytes) : bytes :=
  match fuel with
  | O => s
  | S fuel => match spaceAt runes s with O => s | n => trimLeft runes fuel (drop n s) end
  end.

(** [strings.TrimSpace]: at the end of the text the runes are met back to front. *)
Definition trimSpace (s : bytes) : bytes :=
  let s := trimLeft spaceRunes (length s) s in
  rev (trimLeft (map (@rev byte) spaceRunes) (length s) (rev s)).

Definition UnpackInternalTransactionError (data : bytes) : bytes :=
  let e := replaceByte x01 (str "Reverted. ") data in
  let e := replaceByte x02 (str "Out of gas. ") e in
  let e := replaceByte x03 (str "Contract creation code storage out of gas. ") e in
  let e := replaceByte x04 (str "Max code size exceeded. ") e in
  trimSpace e.

(** ** Reading back *)

(** Two hex digits of the same value. *)
Definition sameDigit (c c' : byte) : Prop := from_hex_digit c = from_hex_digit c'.

Lemma hex_DecodeString_same s s' : Forall2 sameDigit s s' -> hex_DecodeString s = hex_DecodeString s'.
Proof.
  revert s'. induction s as [s IH] using (induction_ltof1 _ (@length byte)); unfold ltof in IH.
  intros s' H. destruct s as [|p [|q r]].
  - by inversion H.
  - inversion H as [|? ? ? ? Hp Hr]; subst. inversion Hr; subst. cbn. by rewrite Hp.
  - inversion H as [|? ? ? ? Hp Hr]; subst. inversion Hr as [|? ? ? ? Hq Hr']; subst.
    cbn [hex_DecodeString]. rewrite Hp, Hq. destruct (from_hex_digit _); [|done]. destruct (from_hex_digit _); [|done].
    by rewrite (IH r ltac:(cbn; lia) _ Hr').
Qed.

(** A digit the encoder writes: its upper case has the same value. *)
Lemma upper_digit v : 0 <= v < 16 -> 57 < b2z (hex_digit v) ->
  from_hex_digit (z2b (b2z (hex_digit v) - 32)) = from_hex_digit (hex_digit v).
Proof.
  intros Hv. rewrite from_hex_digit_hex by done. unfold hex_digit, from_hex_digit. rewrite !b2z_z2b.
  destruct (Z.ltb_spec v 10); rewrite (Z.mod_small (_ + v)) by lia; [lia|]. intros _.
  rewrite Z.mod_small by lia. case_tests; f_equal; lia.
Qed.

Definition digits (s : bytes) : Prop := Forall (fun c => exists v, 0 <= v < 16 /\ c = hex_digit v) s.

Lemma hex_Encode_digits b : digits (hex_EncodeToString b).
Proof.
  induction b as [|x b IH]; [constructor|]. pose proof (b2z_range x).
  constructor; [|constructor; [|exact IH]]; eexists; (split; [|reflexivity]);
    [split; [apply Z.div_pos|apply Z.div_lt_upper_bound]|apply Z.mod_pos_bound]; lia.
Qed.

Lemma eip55Chars_ok hash i s : digits s -> 2 <= i -> (i - 2 + zlen s + 1) / 2 <= zlen hash ->
  exists s', eip55Chars hash i s = Ok s' /\ Forall2 sameDigit s' s.
Proof.
  revert i. induction s as [|c s IH]; intros i Hd Hi Hl; [by exists []|].
  apply Forall_cons in Hd as [(v & Hv & ->) Hd]. rewrite zlen_cons in Hl. pose proof (zlen_nonneg s).
  assert ((i - 2) / 2 < zlen hash).
  { clear IH. Z.to_euclidean_division_equations. lia. }
  cbn [eip55Chars]. unfold eip55Char. rewrite Z.shiftr_div_pow2 by lia. change (2 ^ 1) with 2.
  assert (0 <= (i - 2) / 2) by (apply Z.div_pos; lia).
  destruct (lookup_lt_is_Some_2 hash (Z.to_nat ((i - 2) / 2))) as [h Hh]; [unfold zlen in *; lia|].
  assert (index hash ((i - 2) / 2) = Ok h) as ->.
  { unfold index. case_tests. by rewrite Hh. }
  cbn [rbind].
  destruct (IH (i + 1)) as (s' & -> & Hs'); [done|lia|by replace (i + 1 - 2 + zlen s + 1) with (i - 2 + (1 + zlen s) + 1) by lia|].
  cbn [rbind]. eexists. split; [done|]. constructor; [|done]. unfold sameDigit.
  destruct ((57 <? b2z (hex_digit v)) && _) eqn:E; [|done]. apply andb_true_iff in E as [E _].
  apply upper_digit; [done|lia].
Qed.

Section EthParserCorrect.
Context {G : GoEth} {GL : GoEthLaws G}.

Lemma strip0x_Encode b : strip0x (hexutil_Encode b) = hex_EncodeToString b.
Proof. rewrite hexutil_Encode_spec. done. Qed.

Lemma EIP55Address_ok d : zlen d = EthereumTypeAddressDescriptorLen ->
  exists s, EIP55Address d = Ok (x30 :: x78 :: s) /\ Forall2 sameDigit s (hex_EncodeToString d).
Proof.
  intros Hd. unfold EIP55Address. rewrite hexutil_Encode_spec.
  assert (Hl : zlen (hex_EncodeToString d) = 40).
  { unfold zlen in *. rewrite hex_Encode_length. unfold EthereumTypeAddressDescriptorLen in Hd. lia. }
  rewrite !zlen_cons, Hl. cbn [Z.eqb Z.add Pos.add Pos.eqb].
  change (x30 :: x78 :: hex_EncodeToString d) with ([x30; x78] ++ hex_EncodeToString d).
  rewrite slice_from_app, slice_0_app by done. cbn [rbind].
  destruct (eip55Chars_ok (keccak256 (hex_EncodeToString d)) 2 (hex_EncodeToString d)) as (s & -> & Hs).
  - apply hex_Encode_digits.
  - done.
  - rewrite keccak256_length, Hl. done.
  - by exists s.
Qed.

Lemma Forall2_sameDigit_len s s' : Forall2 sameDigit s s' -> zlen s = zlen s'.
Proof. intros H. unfold zlen. by rewrite (Forall2_length _ _ _ H). Qed.

Lemma GetAddrDesc_same s d : zlen d = EthereumTypeAddressDescriptorLen -> Forall2 sameDigit s (hex_EncodeToString d) ->
  EthereumParser.GetAddrDescFromAddress (x30 :: x78 :: s) = Ok d.
Proof.
  intros Hd Hs. unfold EthereumParser.GetAddrDescFromAddress. change (strip0x (x30 :: x78 :: s)) with s.
  rewrite (Forall2_sameDigit_len _ _ Hs), (hex_DecodeString_same _ _ Hs), hex_Decode_Encode.
  unfold zlen in *. rewrite hex_Encode_length. unfold EthereumTypeAddressDescriptorLen in *.
  rewrite (proj2 (Z.eqb_eq _ _)) by lia. done.
Qed.

(** What the database relies on: descriptors of addresses are written as text and read back. *)
Lemma EIP55Address_read_back d : zlen d = EthereumTypeAddressDescriptorLen ->
  exists s, EIP55Address d = Ok s /\ zlen s = 42 /\ EthereumParser.GetAddrDescFromAddress s = Ok d.
Proof.
  intros Hd. destruct (EIP55Address_ok d Hd) as (s & E & Hs). exists (x30 :: x78 :: s).
  split_and!; [done| |by apply GetAddrDesc_same]. rewrite !zlen_cons, (Forall2_sameDigit_len _ _ Hs).
  unfold zlen in *. rewrite hex_Encode_length. unfold EthereumTypeAddressDescriptorLen in *. lia.
Qed.

Lemma GetAddrDesc_len a d : EthereumParser.GetAddrDescFromAddress a = Ok d -> zlen d = EthereumTypeAddressDescriptorLen.
Proof.
  unfold EthereumParser.GetAddrDescFromAddress. destruct (Z.eqb_spec (zlen (strip0x a)) (EthereumTypeAddressDescriptorLen * 2)) as [E|]; [|done].
  intros H%hex_Decode_length. unfold zlen, EthereumTypeAddressDescriptorLen in *. lia.
Qed.

(** C28: the checksummed text of an address has 42 characters and is read back as the address;
    every text that is read as this address (any case, with or without the prefix 0x) is
    formatted to this text, so formatting twice changes nothing; a text of another length is
    no address; packed txids of the fixed length are read back. *)
Theorem eip55_roundtrip d txid :
  zlen d = EthereumTypeAddressDescriptorLen ->
  (exists s, EIP55Address d = Ok s /\ zlen s = 42 /\ EthereumParser.GetAddrDescFromAddress s = Ok d
     /\ EIP55AddressFromAddress s = Ok s
     /\ forall a, EthereumParser.GetAddrDescFromAddress a = Ok d -> EIP55AddressFromAddress a = Ok s)
  /\ (forall a, zlen (strip0x a) <> 40 -> EthereumParser.GetAddrDescFromAddress a = Err ErrAddressMissing)
  /\ (let! t := EthereumParser.UnpackTxid txid in EthereumParser.PackTxid t) = Ok txid.
Proof.
  intros Hd. destruct (EIP55Address_read_back d Hd) as (s & E & Hl & Hr).
  assert (forall a, EthereumParser.GetAddrDescFromAddress a = Ok d -> EIP55AddressFromAddress a = Ok s) as Hall.
  { intros a Ha. unfold EthereumParser.GetAddrDescFromAddress in Ha. unfold EIP55AddressFromAddress. case_match; [|done].
    by rewrite Ha. }
  split_and!; [exists s; auto 6| |].
  - intros a Ha. unfold EthereumParser.GetAddrDescFromAddress. case_match; [|done]. unfold EthereumTypeAddressDescriptorLen in *. lia.
  - unfold EthereumParser.UnpackTxid, EthereumParser.PackTxid. cbn [rbind]. by rewrite strip0x_Encode, hex_Decode_Encode.
Qed.
End EthParserCorrect.

(** ** The parser as an instance of the interface *)

Section EthereumParserInstance.
Context {G : GoEth}.

Definition ethereumParser (keep : Z) (transfers : EthTx -> result (list TokenTransfer)) : EthChainParser := {|
  eth_chain := {|
    GetChainType := ChainEthereumType;
    PackedTxidLen := EthereumParser.PackedTxidLen;
    PackTxid := EthereumParser.PackTxid;
    UnpackTxid := EthereumParser.UnpackTxid;
    PackBlockHash := EthereumParser.PackBlockHash;
    UnpackBlockHash := EthereumParser.UnpackBlockHash;
    KeepBlockAddresses := keep;
    GetAddrDescFromVout := fun _ => Err ErrAddressMissing;
    GetAddrDescForUnknownInput := BaseParser.GetAddrDescForUnknownInput;
    IsAddrDescIndexable := fun _ => true;
    supportsSyscoinAssets := false;
  |};
  GetAddrDescFromAddress := EthereumParser.GetAddrDescFromAddress;
  GetAddressesFromAddrDesc := EthereumParser.GetAddressesFromAddrDesc;
  EthereumTypeGetTokenTransfersFromTx := transfers;
|}.

Lemma hex_DecodeString_no_panic s : hex_DecodeString s <> Panic.
Proof.
  induction s as [s IH] using (induction_ltof1 _ (@length byte)); unfold ltof in IH.
  destruct s as [|p [|q r]]; cbn; [done|by case_match|]. repeat case_match; try done.
  specialize (IH r ltac:(cbn; lia)). by destruct (hex_DecodeString r).
Qed.

#[export] Instance ethereumParserLaws {GL : GoEthLaws G} keep transfers : EthChainParserLaws (ethereumParser keep transfers).
Proof.
  split; cbn [GetAddrDescFromAddress GetAddressesFromAddrDesc eth_chain PackedTxidLen ethereumParser].
  - apply GetAddrDesc_len.
  - intros a. unfold EthereumParser.GetAddrDescFromAddress. case_match; [apply hex_DecodeString_no_panic|done].
  - intros d Hd. destruct (EIP55Address_read_back d Hd) as (s & E & _ & Hr). exists s.
    unfold EthereumParser.GetAddressesFromAddrDesc. by rewrite E.
  - done.
Qed.
End EthereumParserInstance.

(** ** An instance *)

Module EthParserExample.
(** A hash for the examples: the digits of every address are in upper case. *)
#[export] Instance refEth : GoEth := {
  hexutil_Encode b := x30 :: x78 :: hex_EncodeToString b;
  keccak256 _ := replicate 32 xff;
}.
#[export] Instance refEthLaws : GoEthLaws refEth.
Proof. split; done. Qed.

Definition desc : bytes := replicate 19 x1a ++ [xbc].

Example checksummed : EIP55Address desc = Ok (str "0x1A1A1A1A1A1A1A1A1A1A1A1A1A1A1A1A1A1A1ABC").
Proof. reflexivity. Qed.

Example reverted : UnpackInternalTransactionError (PackInternalTransactionError (str "execution reverted")) = str "Reverted.".
Proof. reflexivity. Qed.

Lemma eip55_roundtrip_witness :
  exists s, EIP55Address desc = Ok s /\ EthereumParser.GetAddrDescFromAddress s = Ok desc.
Proof.
  destruct (eip55_roundtrip desc (replicate 32 x01)) as [(s & E & _ & Hr & _) _]; [reflexivity|]. by exists s.
Defined.
End EthParserExample.
