(* ===== verification/EthRows.v ===== *)
(** Rows of the Ethereum-type index other than the contracts of an address
    ([db/rocksdb_ethereumtype.go]): the transactions of a block kept for its disconnection,
    internal data, four-byte signatures, and the queue of blocks whose internal data failed.

    The theorems: the row of a block is read back with every address that is not an address
    replaced by the zero address ([eth_block_txs_codec]); internal data are read back as text
    ([internal_data_codec]); signatures are read back, from the cache or the database
    ([four_byte_codec]); the failure count of a queued block is changed only while the queue
    holds that block ([internal_error_update]). *)

From S2P Require Import Prelude Codec Parser TxAddr Balance IndexCodec Store GoSort EthTokens EthContracts EthParser.

Local Open Scope Z_scope.

(** ** The data of one block *)

Record ethBlockTxContract := mkBTC {
  bc_from : bytes;
  bc_to : bytes;
  bc_contract : bytes;
  bc_transferStandard : TokenStandard;
  bc_value : Z;
  bc_idValues : list MultiTokenValue;
}.

Record ethInternalTransfer := mkEIT {
  ei_internalType : EthereumInternalTransactionType;
  ei_from : bytes;
  ei_to : bytes;
  ei_value : Z;
}.

Record ethInternalData := mkEID {
  ed_internalType : EthereumInternalTransactionType;
  ed_contract : bytes;
  ed_transfers : list ethInternalTransfer;
  ed_errorMsg : bytes;
}.

(** A nil address is the empty list. *)
Record ethBlockTx := mkEBT {
  ebt_btxID : bytes;
  ebt_from : bytes;
  ebt_to : bytes;
  ebt_contracts : list ethBlockTxContract;
  ebt_internalData : option ethInternalData;
}.

Definition ethZeroAddress : bytes := replicate 20 x00.

Definition appendAddress (buf a : bytes) : bytes :=
  if zlen a =? EthereumTypeAddressDescriptorLen then buf ++ a else buf ++ ethZeroAddress.

Section EthRows.
Context {V : Vlq} {E : EthChainParser} {K : KV}.
Implicit Types (d : DB K) (wb : list BatchOp).

(** ** Internal data *)

Definition packInternalTransfer (buf : bytes) (t : ethInternalTransfer) : bytes :=
  let buf := buf ++ [z2b (ei_internalType t)] in
  let buf := appendAddress buf (ei_from t) in
  let buf := appendAddress buf (ei_to t) in
  buf ++ packBigint (ei_value t).

Definition packEthInternalData (data : ethInternalData) : bytes :=
  let buf := packVaruint (u64 (Z.land (u64 (ed_internalType data)) 1 + u64 (Z.shiftl (zlen (ed_transfers data)) 1))) in
  let buf := if ed_internalType data =? CREATE then appendAddress buf (ed_contract data) else buf in
  let buf := foldl packInternalTransfer buf (ed_transfers data) in
  buf ++ ed_errorMsg data.

(** [addresses, _, _ := d.chainParser.GetAddressesFromAddrDesc(buf[l : l+20])], the first one,
    and the position after it. *)
Definition readAddressText (buf : bytes) (l : Z) : result (bytes * Z) :=
  let! desc := slice buf l (l + EthereumTypeAddressDescriptorLen) in
  let l := l + EthereumTypeAddressDescriptorLen in
  match GetAddressesFromAddrDesc desc with
  | Ok (a :: _) => Ok (a, l)
  | Ok [] | Err _ => Ok ([], l)
  | Panic => Panic
  end.

(** [v, l := unpackBigint(buf[pos:]); pos += l] *)
Definition readBigint (buf : bytes) (i : Z) : result (Z * Z) :=
  let! b := slice_from buf i in
  let! '(v, l) := unpackBigint b in
  Ok (v, i + l).

Definition readInternalTransfer (buf : bytes) (l : Z) : result (EthereumInternalTransfer * Z) :=
  let! t := index buf l in
  let! '(from, l) := readAddressText buf (l + 1) in
  let! '(to, l) := readAddressText buf l in
  let! '(value, l) := readBigint buf l in
  Ok (mkInternalTransfer (b2z t) from to value, l).

Definition unpackEthInternalData (buf : bytes) : result EthereumInternalData :=
  let '(v, l) := unpackVaruint buf in
  let type_ := Z.land v 1 in
  let! '(contract, l) := if type_ =? CREATE then readAddressText buf l else Ok ([], l) in
  let! '(transfers, l) := readMany readInternalTransfer (Z.to_nat (Z.shiftr v 1)) buf l in
  let! rest := slice_from buf l in
  Ok (mkInternalData type_ contract transfers (UnpackInternalTransactionError rest)).

Definition hasEthereumInternalData d (btxID : bytes) : result bool :=
  let! val := GetCF d cfInternalData btxID in
  Ok (0 <? zlen (valData val)).

Definition getEthereumInternalData d (btxID : bytes) : result (option EthereumInternalData) :=
  let! val := GetCF d cfInternalData btxID in
  let buf := valData val in
  if zlen buf =? 0 then Ok None
  else let! data := unpackEthInternalData buf in Ok (Some data).

Definition GetEthereumInternalData d (txid : bytes) : result (option EthereumInternalData) :=
  let! btxID := PackTxid txid in
  getEthereumInternalData d btxID.

Definition storeInternalDataEthereumType wb (blockTxs : list ethBlockTx) : list BatchOp :=
  foldl (fun wb blockTx =>
    match ebt_internalData blockTx with
    | Some data => wb ++ [PutCF cfInternalData (ebt_btxID blockTx) (packEthInternalData data)]
    | None => wb
    end) wb blockTxs.

(** ** The transactions of a block *)

Definition packBlockTxContract (buf : bytes) (c : ethBlockTxContract) : bytes :=
  let buf := appendAddress buf (bc_from c) in
  let buf := appendAddress buf (bc_to c) in
  let buf := appendAddress buf (bc_contract c) in
  let buf := buf ++ packVaruint (u64 (bc_transferStandard c)) in
  if bc_transferStandard c =? MultiToken then
    buf ++ packVaruint (zlen (bc_idValues c)) ++ concat (map packMultiTokenValue (bc_idValues c))
  else buf ++ packBigint (bc_value c).

(** Internal data are not stored in this row. *)
Definition packBlockTx (buf : bytes) (blockTx : ethBlockTx) : bytes :=
  let buf := buf ++ ebt_btxID blockTx in
  let buf := appendAddress buf (ebt_from blockTx) in
  let buf := appendAddress buf (ebt_to blockTx) in
  let buf := buf ++ packVaruint (zlen (ebt_contracts blockTx)) in
  foldl packBlockTxContract buf (ebt_contracts blockTx).

Definition errInconsistent : goerror := ErrMsg "Inconsistent data in blockTxs".

Definition getAddress (buf : bytes) (i : Z) : result (bytes * Z) :=
  if zlen buf - i <? EthereumTypeAddressDescriptorLen then Err errInconsistent
  else
    let! a := slice buf i (i + EthereumTypeAddressDescriptorLen) in
    Ok (a, i + EthereumTypeAddressDescriptorLen).

Definition readIdValue (buf : bytes) (pos : Z) : result (MultiTokenValue * Z) :=
  let! '(id, pos) := readBigint buf pos in
  let! '(value, pos) := readBigint buf pos in
  Ok (mkMTV id value, pos).

(** The body of the loop over the contracts. *)
Definition readBlockTxContract (buf : bytes) (pos : Z) : result (ethBlockTxContract * Z) :=
  let! '(from, pos) := getAddress buf pos in
  let! '(to, pos) := getAddress buf pos in
  let! '(contract, pos) := getAddress buf pos in
  let! '(standard, pos) := readVaruint buf pos in
  if standard =? MultiToken then
    let! '(cc, pos) := readVaruint buf pos in
    let! '(idValues, pos) := readMany readIdValue (Z.to_nat cc) buf pos in
    Ok (mkBTC from to contract standard 0 idValues, pos)
  else
    let! '(value, pos) := readBigint buf pos in
    Ok (mkBTC from to contract standard value [], pos).

Definition unpackBlockTx (buf : bytes) (pos : Z) : result (ethBlockTx * Z) :=
  if zlen buf - pos <? EthereumTypeTxidLen then Err errInconsistent
  else
    let! txid := slice buf pos (pos + EthereumTypeTxidLen) in
    let pos := pos + EthereumTypeTxidLen in
    let! '(from, pos) := getAddress buf pos in
    let! '(to, pos) := getAddress buf pos in
    let! '(cc, pos) := readVaruint buf pos in
    let! '(contracts, pos) := readMany readBlockTxContract (Z.to_nat cc) buf pos in
    Ok (mkEBT txid from to contracts None, pos).

(** [for i := 0; i < len(buf); { btx, i, err = unpackBlockTx(buf, i); ... }]: every pass reads
    at least the txid. *)
Fixpoint unpackBlockTxs (fuel : nat) (buf : bytes) (i : Z) : result (list ethBlockTx) :=
  match fuel with
  | O => Panic
  | S fuel =>
      if i <? zlen buf then
        let! '(btx, i) := unpackBlockTx buf i in
        let! bt := unpackBlockTxs fuel buf i in
        Ok (btx :: bt)
      else Ok []
  end.

(** [None]: the row is not in the database. *)
Definition getBlockTxsEthereumType d (height : Z) : result (option (list ethBlockTx)) :=
  let! val := GetCF d cfBlockTxs (packUint height) in
  match val with
  | None => Ok None
  | Some buf => let! bt := unpackBlockTxs (S (length buf)) buf 0 in Ok (Some bt)
  end.

(** ** Blocks whose internal data failed *)

Definition StoreBlockInternalDataErrorEthereumType wb (height : Z) (hash message : bytes) (retryCount : Z)
    : result (list BatchOp) :=
  let! txid := PackTxid hash in
  Ok (wb ++ [PutCF cfBlockInternalDataErrors (packUint height) (txid ++ [z2b retryCount] ++ message)]).

(** Hash, number of retries and message; the empty hash when the row is too short. *)
Definition unpackBlockInternalDataError (val : bytes) : result (bytes * Z * bytes) :=
  if PackedTxidLen + 1 <? zlen val then
    let! h := slice val 0 PackedTxidLen in
    let! hash := UnpackTxid h in
    let! val := slice_from val PackedTxidLen in
    let! retries := index val 0 in
    let! message := slice_from val 1 in
    Ok (hash, b2z retries, message)
  else Ok ([], 0, []).

Definition UpdateBlockInternalDataErrorEthereumType d (height : Z) (hash message : bytes) (retryCount : Z) : result (DB K) :=
  if bool_decide (hash = []) then Ok d
  else
    let! val := GetCF d cfBlockInternalDataErrors (packUint height) in
    let! '(storedHash, _, _) := unpackBlockInternalDataError (valData val) in
    if bool_decide (storedHash = hash) then
      let! wb := StoreBlockInternalDataErrorEthereumType [] height hash message retryCount in
      WriteBatch wb d
    else Ok d.

Record BlockInternalDataError := mkBIDE {
  be_Height : Z;
  be_Hash : bytes;
  be_Retries : Z;
  be_ErrorMessage : bytes;
}.

(** Rows that cannot be unpacked are skipped. *)
Fixpoint listInternalDataErrors (rows : list (bytes * bytes)) : result (list BlockInternalDataError) :=
  match rows with
  | [] => Ok []
  | (key, val) :: r =>
      let! height := unpackUint key in
      match unpackBlockInternalDataError val with
      | Ok (hash, retries, message) =>
          let! l := listInternalDataErrors r in
          Ok (mkBIDE height hash retries message :: l)
      | Err _ => listInternalDataErrors r
      | Panic => Panic
      end
  end.

Definition GetBlockInternalDataErrorsEthereumType d : result (list BlockInternalDataError) :=
  if decide (GetChainType = ChainEthereumType)
  then listInternalDataErrors (kv_list (db_cf d cfBlockInternalDataErrors))
  else Ok [].

(** ** Four-byte signatures *)

Record FourByteSignature := mkFBS { fbs_Name : bytes; fbs_Parameters : list bytes }.

Definition packFourByteKey (fourBytes id : Z) : bytes := packUint fourBytes ++ packUint id.

Definition packFourByteSignature (signature : FourByteSignature) : bytes :=
  packString (fbs_Name signature) ++ concat (map packString (fbs_Parameters signature)).

(** [for l < len(buf) { s, ll := unpackString(buf[l:]); ...; l += ll }] *)
Fixpoint unpackParameters (fuel : nat) (buf : bytes) (l : Z) : result (list bytes) :=
  match fuel with
  | O => Panic
  | S fuel =>
      if l <? zlen buf then
        let! b := slice_from buf l in
        let! '(s, ll) := unpackString b in
        let! ps := unpackParameters fuel buf (l + ll) in
        Ok (s :: ps)
      else Ok []
  end.

Definition unpackFourByteSignature (buf : bytes) : result FourByteSignature :=
  let! '(name, l) := unpackString buf in
  let! ps := unpackParameters (S (length buf)) buf l in
  Ok (mkFBS name ps).

Definition GetFourByteSignature d (fourBytes id : Z) : result (option FourByteSignature) :=
  let! val := GetCF d cfFunctionSignatures (packFourByteKey fourBytes id) in
  let buf := valData val in
  if zlen buf =? 0 then Ok None
  else let! s := unpackFourByteSignature buf in Ok (Some s).

(** The iterator from the first key not below [key], until the first four bytes are above. *)
Fixpoint scanSignatures (key : bytes) (rows : list (bytes * bytes)) : result (list FourByteSignature) :=
  match rows with
  | [] => Ok []
  | (current, val) :: r =>
      let! prefix := slice current 0 4 in
      match bytes_compare prefix key with
      | Gt => Ok []
      | _ =>
          let! signature := unpackFourByteSignature val in
          let! l := scanSignatures key r in
          Ok (signature :: l)
      end
  end.

Definition seek (key : bytes) (rows : list (bytes * bytes)) : list (bytes * bytes) :=
  filter (fun e => bytes_compare e.1 key <> Lt) rows.

(** [cachedByteSignatures] is passed in and out. *)
Definition GetFourByteSignatures d (cache : gmap Z (list FourByteSignature)) (fourBytes : Z)
    : result (list FourByteSignature * gmap Z (list FourByteSignature)) :=
  match cache !! fourBytes with
  | Some signatures => Ok (signatures, cache)
  | None =>
      let key := packUint fourBytes in
      let! retval := scanSignatures key (seek key (kv_list (db_cf d cfFunctionSignatures))) in
      Ok (retval, <[fourBytes := retval]> cache)
  end.

Definition StoreFourByteSignature wb (cache : gmap Z (list FourByteSignature)) (fourBytes id : Z)
    (signature : FourByteSignature) : list BatchOp * gmap Z (list FourByteSignature) :=
  (wb ++ [PutCF cfFunctionSignatures (packFourByteKey fourBytes id) (packFourByteSignature signature)],
   delete fourBytes cache).
End EthRows.

(** ** Reading back *)

(** The bytes of an address in a row. *)
Definition addressBytes (a : bytes) : bytes :=
  if zlen a =? EthereumTypeAddressDescriptorLen then a else ethZeroAddress.

Lemma appendAddress_app buf a : appendAddress buf a = buf ++ addressBytes a.
Proof. unfold appendAddress, addressBytes. by case_match. Qed.

Lemma zlen_addressBytes a : zlen (addressBytes a) = EthereumTypeAddressDescriptorLen.
Proof. unfold addressBytes. case_match; [lia|done]. Qed.

Lemma addressBytes_id a : zlen a = EthereumTypeAddressDescriptorLen -> addressBytes a = a.
Proof. intros Ha. unfold addressBytes. by rewrite (proj2 (Z.eqb_eq _ _) Ha). Qed.

(** Readers compose. *)
Lemma reads_ret {A} (x : A) : reads (fun _ i => Ok (x, i)) [] x.
Proof. intros pre rest. rewrite zlen_nil. by rewrite Z.add_0_r. Qed.

Lemma reads_bind {A B} (f : bytes -> Z -> result (A * Z)) (g : A -> bytes -> Z -> result (B * Z)) e1 e2 x y :
  reads f e1 x -> reads (g x) e2 y ->
  reads (fun buf i => let! '(a, i) := f buf i in g a buf i) (e1 ++ e2) y.
Proof.
  intros Hf Hg pre rest. rewrite <- app_assoc, Hf. cbn [rbind]. rewrite (app_assoc pre), <- zlen_app, Hg.
  do 2 f_equal. rewrite !zlen_app. lia.
Qed.

Lemma reads_ext {A} (f g : bytes -> Z -> result (A * Z)) e x :
  (forall buf i, f buf i = g buf i) -> reads f e x -> reads g e x.
Proof. intros H Hf pre rest. by rewrite <- H. Qed.

Section EthRowsCodec.
Context {V : Vlq} {VL : VlqLaws V} {E : EthChainParser} {EL : EthChainParserLaws E} {K : KV} {KL : KVLaws K}.

Lemma readBigint_pack x : packable x -> reads readBigint (packBigint x) x.
Proof.
  intros Hx pre rest. unfold readBigint. rewrite slice_from_app by done. cbn [rbind]. by rewrite unpackBigint_pack.
Qed.

Lemma getAddress_pack a : reads getAddress (addressBytes a) (addressBytes a).
Proof.
  intros pre rest. unfold getAddress. pose proof (zlen_addressBytes a) as Ha. pose proof (zlen_nonneg rest).
  rewrite !zlen_app, Ha.
  destruct (Z.ltb_spec (zlen pre + (EthereumTypeAddressDescriptorLen + zlen rest) - zlen pre) EthereumTypeAddressDescriptorLen); [lia|].
  by rewrite slice_app by lia.
Qed.

Definition idValues_ok (ms : list MultiTokenValue) : Prop :=
  zlen ms < 2 ^ 64 /\ Forall (fun m => packable (mtv_Id m) /\ packable (mtv_Value m)) ms.

Lemma readIdValue_pack m : packable (mtv_Id m) -> packable (mtv_Value m) -> reads readIdValue (packMultiTokenValue m) m.
Proof.
  intros H1 H2. destruct m as [i v]. unfold readIdValue, packMultiTokenValue. rewrite <- (app_nil_r (packBigint (mtv_Value _))).
  eapply reads_bind; [by apply readBigint_pack|]. eapply reads_bind; [by apply readBigint_pack|]. apply reads_ret.
Qed.

Lemma readMany_idValues ms : idValues_ok ms ->
  reads (readMany readIdValue (Z.to_nat (zlen ms))) (concat (map packMultiTokenValue ms)) ms.
Proof.
  intros [_ Hm]. rewrite to_nat_zlen. rewrite <- (map_id ms) at 3. apply readMany_pack.
  eapply Forall_impl; [exact Hm|]. intros m [? ?]. by apply readIdValue_pack.
Qed.

(** *** The transactions of a block *)

Definition transfer_ok (c : ethBlockTxContract) : Prop :=
  is_u64 (bc_transferStandard c) /\
  if bc_transferStandard c =? MultiToken then idValues_ok (bc_idValues c) else packable (bc_value c).

Definition ebt_ok (t : ethBlockTx) : Prop :=
  zlen (ebt_btxID t) = EthereumTypeTxidLen /\ zlen (ebt_contracts t) < 2 ^ 64 /\ Forall transfer_ok (ebt_contracts t).

(** What is read back: no internal data, the values of the standard only. *)
Definition normTransfer (c : ethBlockTxContract) : ethBlockTxContract :=
  mkBTC (addressBytes (bc_from c)) (addressBytes (bc_to c)) (addressBytes (bc_contract c)) (bc_transferStandard c)
    (if bc_transferStandard c =? MultiToken then 0 else bc_value c)
    (if bc_transferStandard c =? MultiToken then bc_idValues c else []).

Definition normTx (t : ethBlockTx) : ethBlockTx :=
  mkEBT (ebt_btxID t) (addressBytes (ebt_from t)) (addressBytes (ebt_to t)) (map normTransfer (ebt_contracts t)) None.

Definition encTransfer (c : ethBlockTxContract) : bytes :=
  addressBytes (bc_from c) ++ addressBytes (bc_to c) ++ addressBytes (bc_contract c) ++
  packVaruint (bc_transferStandard c) ++
  (if bc_transferStandard c =? MultiToken
   then packVaruint (zlen (bc_idValues c)) ++ concat (map packMultiTokenValue (bc_idValues c))
   else packBigint (bc_value c)).

Definition encTx (t : ethBlockTx) : bytes :=
  ebt_btxID t ++ addressBytes (ebt_from t) ++ addressBytes (ebt_to t) ++
  packVaruint (zlen (ebt_contracts t)) ++ concat (map encTransfer (ebt_contracts t)).

Lemma packBlockTxContract_app buf c : transfer_ok c -> packBlockTxContract buf c = buf ++ encTransfer c.
Proof.
  intros [Hs _]. unfold packBlockTxContract, encTransfer. rewrite !appendAddress_app, (u64_id _ Hs).
  case_match; by rewrite <- !app_assoc.
Qed.

Lemma foldl_contracts buf cs : Forall transfer_ok cs ->
  foldl packBlockTxContract buf cs = buf ++ concat (map encTransfer cs).
Proof.
  intros Hc. revert buf. induction Hc as [|c cs Hc _ IH]; intros buf; cbn [foldl map concat]; [by rewrite app_nil_r|].
  by rewrite IH, packBlockTxContract_app, <- app_assoc.
Qed.

Lemma packBlockTx_app buf t : ebt_ok t -> packBlockTx buf t = buf ++ encTx t.
Proof.
  intros (_ & _ & Hc). unfold packBlockTx, encTx. rewrite !appendAddress_app, foldl_contracts by done.
  by rewrite <- !app_assoc.
Qed.

Lemma readBlockTxContract_pack c : transfer_ok c -> reads readBlockTxContract (encTransfer c) (normTransfer c).
Proof.
  destruct c as [f t k s v ms]. intros [Hs Hh]. cbn [bc_transferStandard bc_idValues bc_value] in *.
  unfold readBlockTxContract, encTransfer, normTransfer.
  cbn [bc_from bc_to bc_contract bc_transferStandard bc_idValues bc_value].
  do 3 (eapply reads_bind; [apply getAddress_pack|]). eapply reads_bind; [by apply readVaruint_pack|].
  destruct (s =? MultiToken).
  - eapply reads_bind; [apply readVaruint_pack; split; [apply zlen_nonneg|apply Hh]|].
    rewrite <- (app_nil_r (concat _)). eapply reads_bind; [by apply readMany_idValues|]. apply reads_ret.
  - rewrite <- (app_nil_r (packBigint v)). eapply reads_bind; [by apply readBigint_pack|]. apply reads_ret.
Qed.

Lemma readTxid_pack t : zlen t = EthereumTypeTxidLen ->
  reads (fun buf pos => if zlen buf - pos <? EthereumTypeTxidLen then Err errInconsistent
                        else let! x := slice buf pos (pos + EthereumTypeTxidLen) in Ok (x, pos + EthereumTypeTxidLen)) t t.
Proof.
  intros Ht pre rest. pose proof (zlen_nonneg rest). rewrite !zlen_app, Ht.
  destruct (Z.ltb_spec (zlen pre + (EthereumTypeTxidLen + zlen rest) - zlen pre) EthereumTypeTxidLen); [lia|].
  by rewrite slice_app by lia.
Qed.

Lemma unpackBlockTx_pack t : ebt_ok t -> reads unpackBlockTx (encTx t) (normTx t).
Proof.
  destruct t as [id f to cs data]. intros (Hid & Hl & Hc). cbn [ebt_btxID ebt_contracts] in *.
  unfold encTx, normTx. cbn [ebt_btxID ebt_from ebt_to ebt_contracts].
  eapply reads_ext; [|eapply reads_bind; [apply (readTxid_pack id Hid)|]].
  - intros buf i. cbn beta. unfold unpackBlockTx. destruct (zlen buf - i <? EthereumTypeTxidLen); [reflexivity|].
    destruct (slice buf i (i + EthereumTypeTxidLen)); [cbn [rbind]|reflexivity..].
    instantiate (1 := fun txid buf pos => let! '(from, pos) := getAddress buf pos in
      let! '(to, pos) := getAddress buf pos in
      let! '(cc, pos) := readVaruint buf pos in
      let! '(contracts, pos) := readMany readBlockTxContract (Z.to_nat cc) buf pos in
      Ok (mkEBT txid from to contracts None, pos)). reflexivity.
  - cbn beta. do 2 (eapply reads_bind; [apply getAddress_pack|]).
    eapply reads_bind; [apply readVaruint_pack; split; [apply zlen_nonneg|done]|]. rewrite to_nat_zlen.
    rewrite <- (app_nil_r (concat _)). eapply reads_bind; [|apply reads_ret].
    apply readMany_pack. eapply Forall_impl; [exact Hc|]. apply readBlockTxContract_pack.
Qed.

Lemma zlen_encTx t : ebt_ok t -> EthereumTypeTxidLen <= zlen (encTx t).
Proof. intros (Hid & _). unfold encTx in *. zlen_lia. Qed.

Lemma unpackBlockTxs_pack ts fuel pre : Forall ebt_ok ts -> (length ts < fuel)%nat ->
  unpackBlockTxs fuel (pre ++ concat (map encTx ts)) (zlen pre) = Ok (map normTx ts).
Proof.
  intros Ht. revert fuel pre. induction Ht as [|t ts Ht _ IH]; intros fuel pre Hf; (destruct fuel as [|fuel]; [lia|]).
  { cbn [map concat unpackBlockTxs]. rewrite app_nil_r, Z.ltb_irrefl. done. }
  cbn [map concat unpackBlockTxs length] in *.
  pose proof (zlen_encTx t Ht). unfold EthereumTypeTxidLen in *.
  destruct (Z.ltb_spec (zlen pre) (zlen (pre ++ encTx t ++ concat (map encTx ts)))); [|zlen_lia].
  rewrite unpackBlockTx_pack by done. cbn [rbind]. rewrite app_assoc, <- zlen_app, IH; [done|lia].
Qed.

Lemma foldl_packBlockTx buf ts : Forall ebt_ok ts -> foldl packBlockTx buf ts = buf ++ concat (map encTx ts).
Proof.
  intros Ht. revert buf. induction Ht as [|t ts Ht _ IH]; intros buf; cbn [foldl map concat]; [by rewrite app_nil_r|].
  by rewrite IH, packBlockTx_app, <- app_assoc.
Qed.

Lemma length_encTx ts : Forall ebt_ok ts -> (length ts <= length (concat (map encTx ts)))%nat.
Proof.
  induction 1 as [|t ts Ht _ IH]; cbn [map concat length]; [lia|]. rewrite length_app.
  pose proof (zlen_encTx t Ht). unfold zlen, EthereumTypeTxidLen in *. lia.
Qed.

Lemma getBlockTxs_stored (d : DB K) height ts : Forall ebt_ok ts ->
  GetCF d cfBlockTxs (packUint height) = Ok (Some (foldl packBlockTx [] ts)) ->
  getBlockTxsEthereumType d height = Ok (Some (map normTx ts)).
Proof.
  intros Ht Hg. unfold getBlockTxsEthereumType. rewrite Hg. cbn [rbind]. rewrite foldl_packBlockTx by done.
  pose proof (length_encTx ts Ht). rewrite app_nil_l. pose proof (unpackBlockTxs_pack ts (S (length (concat (map encTx ts)))) [] Ht) as Hu.
  rewrite app_nil_l, zlen_nil in Hu. rewrite Hu by lia. done.
Qed.
(** *** Internal data *)

(** The text of an address that is in a row. *)
Definition addressText (a : bytes) : bytes :=
  match GetAddressesFromAddrDesc (addressBytes a) with Ok (s :: _) => s | _ => [] end.

Lemma addressText_spec a : GetAddressesFromAddrDesc (addressBytes a) = Ok [addressText a]
  /\ GetAddrDescFromAddress (addressText a) = Ok (addressBytes a).
Proof.
  unfold addressText. destruct (GetAddresses_read_back (addressBytes a) (zlen_addressBytes a)) as (s & Es & Hs).
  by rewrite Es.
Qed.

Lemma readAddressText_pack a : reads readAddressText (addressBytes a) (addressText a).
Proof.
  intros pre rest. unfold readAddressText. pose proof (zlen_addressBytes a) as Ha.
  rewrite slice_app by lia. cbn [rbind]. destruct (addressText_spec a) as [-> _]. by rewrite Ha.
Qed.

Definition encInternal (t : ethInternalTransfer) : bytes :=
  [z2b (ei_internalType t)] ++ addressBytes (ei_from t) ++ addressBytes (ei_to t) ++ packBigint (ei_value t).

Definition textInternal (t : ethInternalTransfer) : EthereumInternalTransfer :=
  mkInternalTransfer (ei_internalType t) (addressText (ei_from t)) (addressText (ei_to t)) (ei_value t).

Definition eit_ok (t : ethInternalTransfer) : Prop := 0 <= ei_internalType t < 256 /\ packable (ei_value t).

Definition eid_ok (data : ethInternalData) : Prop :=
  0 <= ed_internalType data <= SELFDESTRUCT /\ zlen (ed_transfers data) < 2 ^ 62 /\ Forall eit_ok (ed_transfers data).

Lemma readInternalTransfer_pack t : eit_ok t -> reads readInternalTransfer (encInternal t) (textInternal t).
Proof.
  destruct t as [ty f to v]. intros [Ht Hv]. cbn [ei_internalType ei_value] in *. unfold encInternal, textInternal.
  cbn [ei_internalType ei_from ei_to ei_value].
  eapply (reads_ext (fun buf l => let! '(t, l) := (let! t := index buf l in Ok (t, l + 1)) in
    let! '(from, l) := readAddressText buf l in
    let! '(to, l) := readAddressText buf l in
    let! '(value, l) := readBigint buf l in
    Ok (mkInternalTransfer (b2z t) from to value, l))).
  { intros buf i. unfold readInternalTransfer. by destruct (index buf i). }
  eapply (reads_bind (fun buf l => let! t := index buf l in Ok (t, l + 1)) _ [z2b ty] _ (z2b ty)).
  { intros pre rest. cbn [app]. rewrite index_app by done. done. }
  cbn beta. rewrite b2z_z2b, (Z.mod_small ty) by lia.
  do 2 (eapply reads_bind; [apply readAddressText_pack|]).
  rewrite <- (app_nil_r (packBigint v)). eapply reads_bind; [by apply readBigint_pack|]. apply reads_ret.
Qed.

Lemma packInternalTransfer_app buf t : packInternalTransfer buf t = buf ++ encInternal t.
Proof. unfold packInternalTransfer, encInternal. rewrite !appendAddress_app, <- !app_assoc. done. Qed.

(** The type is one bit; a contract is stored for a creation only. *)
Definition textInternalData (data : ethInternalData) : EthereumInternalData :=
  let create := ed_internalType data =? CREATE in
  mkInternalData (if create then CREATE else CALL) (if create then addressText (ed_contract data) else [])
    (map textInternal (ed_transfers data)) (UnpackInternalTransactionError (ed_errorMsg data)).

Lemma typeBit ty n : 0 <= ty <= SELFDESTRUCT -> 0 <= n < 2 ^ 62 ->
  let v := u64 (Z.land (u64 ty) 1 + u64 (Z.shiftl n 1)) in
  is_u64 v /\ Z.land v 1 = (if ty =? CREATE then CREATE else CALL) /\ Z.shiftr v 1 = n.
Proof.
  intros Ht Hn. unfold SELFDESTRUCT in Ht. rewrite Z.shiftl_mul_pow2 by lia. change (2 ^ 1) with 2.
  rewrite (u64_id ty), (u64_id (n * 2)) by (unfold is_u64; lia).
  assert (Hb : Z.land ty 1 = (if ty =? CREATE then 1 else 0)).
  { assert (ty = 0 \/ ty = 1 \/ ty = 2) as [->|[->| ->]] by lia; done. }
  rewrite Hb. set (b := if ty =? CREATE then 1 else 0). assert (0 <= b < 2) by (subst b; case_match; lia).
  rewrite u64_id by (unfold is_u64; lia). split; [unfold is_u64; lia|].
  change 1 with (Z.ones 1). rewrite Z.land_ones by lia. rewrite Z.shiftr_div_pow2 by done. change (2 ^ Z.ones 1) with 2.
  change (2 ^ 1) with 2. rewrite Z.mod_add, Z.div_add, Z.mod_small, Z.div_small by lia. split; [|lia].
  subst b. by destruct (ty =? CREATE).
Qed.

Lemma unpackEthInternalData_pack data : eid_ok data ->
  unpackEthInternalData (packEthInternalData data) = Ok (textInternalData data).
Proof.
  destruct data as [ty c ts err]. intros (Hty & Hl & Ht). cbn [ed_internalType ed_transfers] in *.
  unfold packEthInternalData, unpackEthInternalData, textInternalData.
  cbn [ed_internalType ed_contract ed_transfers ed_errorMsg].
  destruct (typeBit ty (zlen ts)) as (Hv & Hb & Hn); [done|split; [apply zlen_nonneg|done]|].
  set (v := u64 _) in *. rewrite (foldl_appends _ encInternal) by (intros; apply packInternalTransfer_app).
  rewrite appendAddress_app.
  assert (R : forall pre, (let! '(transfers, l) := readMany readInternalTransfer (Z.to_nat (Z.shiftr v 1))
      ((pre ++ concat (map encInternal ts)) ++ err) (zlen pre) in
    let! rest := slice_from ((pre ++ concat (map encInternal ts)) ++ err) l in
    Ok (transfers, rest)) = Ok (map textInternal ts, err)).
  { intros pre. rewrite Hn, to_nat_zlen. rewrite <- app_assoc.
    rewrite (readMany_pack readInternalTransfer encInternal textInternal).
    2: { eapply Forall_impl; [exact Ht|]. apply readInternalTransfer_pack. }
    cbn [rbind]. rewrite (app_assoc pre), <- zlen_app, slice_from_app by done. done. }
  destruct (ty =? CREATE) eqn:Ec; rewrite <- !app_assoc, unpackVaruint_pack by done; rewrite Hb; cbn [Z.eqb CREATE CALL Pos.eqb].
  - rewrite readAddressText_pack. cbn [rbind]. rewrite (app_assoc (packVaruint v)), <- zlen_app, (app_assoc _ _ err).
    specialize (R (packVaruint v ++ addressBytes c)).
    destruct (readMany _ _ _ _) as [[xs l]| |]; [|discriminate R..]. cbn [rbind] in R |- *.
    destruct (slice_from _ l); [|discriminate R..]. cbn [rbind] in R |- *. by injection R as -> ->.
  - cbn [rbind]. rewrite (app_assoc _ _ err). specialize (R (packVaruint v)).
    destruct (readMany _ _ _ _) as [[xs l]| |]; [|discriminate R..]. cbn [rbind] in R |- *.
    destruct (slice_from _ l); [|discriminate R..]. cbn [rbind] in R |- *. by injection R as -> ->.
Qed.
(** *** Four-byte signatures *)

Definition fbs_ok (s : FourByteSignature) : Prop := fits (fbs_Name s) /\ Forall fits (fbs_Parameters s).

Lemma zlen_packString v : fits v -> 1 <= zlen (packString v).
Proof. intros Hv. unfold packString. pose proof (zlen_packVaruint (zlen v) (fits_u64 _ Hv)). zlen_lia. Qed.

Lemma unpackParameters_pack ps fuel pre : Forall fits ps -> (length (concat (map packString ps)) < fuel)%nat ->
  unpackParameters fuel (pre ++ concat (map packString ps)) (zlen pre) = Ok ps.
Proof.
  intros Hp. revert fuel pre. induction Hp as [|p ps Hp _ IH]; intros fuel pre Hf; (destruct fuel as [|fuel]; [lia|]).
  { cbn [map concat unpackParameters]. by rewrite app_nil_r, Z.ltb_irrefl. }
  cbn [map concat unpackParameters] in *. rewrite length_app in Hf. pose proof (zlen_packString p Hp).
  destruct (Z.ltb_spec (zlen pre) (zlen (pre ++ packString p ++ concat (map packString ps)))); [|zlen_lia].
  rewrite slice_from_app by done. cbn [rbind]. rewrite unpackString_pack by done. cbn [rbind].
  rewrite (app_assoc pre), <- zlen_app, IH; [done|]. unfold zlen in *. lia.
Qed.

Lemma unpackFourByteSignature_pack s : fbs_ok s -> unpackFourByteSignature (packFourByteSignature s) = Ok s.
Proof.
  destruct s as [n ps]. intros [Hn Hp]. cbn in Hn, Hp. unfold unpackFourByteSignature, packFourByteSignature.
  cbn [fbs_Name fbs_Parameters]. rewrite unpackString_pack by done. cbn [rbind].
  rewrite unpackParameters_pack; [done|done|]. rewrite length_app. lia.
Qed.

(** The column holds packed signatures only. *)
Definition signature_row (e : bytes * bytes) : Prop :=
  exists fourBytes id s, is_u32 fourBytes /\ is_u32 id /\ fbs_ok s /\
    e = (packFourByteKey fourBytes id, packFourByteSignature s).

Lemma packFourByteKey_compare a id key : is_u32 a -> is_u32 key ->
  bytes_compare (packFourByteKey a id) (packUint key) = match a ?= key with Eq => Gt | c => c end.
Proof.
  intros Ha Hk. unfold packFourByteKey. pose proof (packUint_compare a key Ha Hk) as Hc.
  assert (H : forall p q r, length p = length q -> r <> [] -> bytes_compare (p ++ r) q = match bytes_compare p q with Eq => Gt | c => c end).
  { intros p. induction p as [|x p IH]; intros [|y q] r Hl Hr; try done; cbn [app bytes_compare].
    - by destruct r.
    - injection Hl as Hl. destruct (b2z x ?= b2z y); [by apply IH|done..]. }
  rewrite H, Hc; [done|done|done].
Qed.

(** In the order of the iterator, four bytes only grow. *)
Lemma key_lt_fourBytes a id v b id' v' : is_u32 a -> is_u32 b ->
  key_lt (packFourByteKey a id, v) (packFourByteKey b id', v') -> a <= b.
Proof.
  intros Ha Hb. unfold key_lt, packFourByteKey. cbn [fst]. pose proof (packUint_compare a b Ha Hb) as Hc.
  assert (H : forall p q r r', length p = length q -> bytes_compare (p ++ r) (q ++ r') = Lt -> bytes_compare p q <> Gt).
  { intros p. induction p as [|x p IH]; intros [|y q] r r' Hl; try done; cbn [app bytes_compare].
    injection Hl as Hl. destruct (b2z x ?= b2z y); [by apply IH|done..]. }
  intros HL. apply H in HL; [|done]. rewrite Hc in HL. by apply Z.compare_le_iff.
Qed.

Lemma packFourByteKey_inj a id b id' : is_u32 a -> is_u32 b -> packFourByteKey a id = packFourByteKey b id' -> a = b.
Proof. intros Ha Hb He. apply app_inj_1 in He as [He _]; [|done]. by apply packUint_inj in He. Qed.

Lemma packFourByteSignature_inj s s' : fbs_ok s -> fbs_ok s' -> packFourByteSignature s = packFourByteSignature s' -> s = s'.
Proof.
  intros Hs Hs' He. pose proof (unpackFourByteSignature_pack s Hs) as H1.
  rewrite He, unpackFourByteSignature_pack in H1 by done. by injection H1.
Qed.

Lemma scanSignatures_spec fourBytes rows : is_u32 fourBytes -> StronglySorted key_lt rows -> Forall signature_row rows ->
  exists l, scanSignatures (packUint fourBytes) (seek (packUint fourBytes) rows) = Ok l /\
    forall s, fbs_ok s -> s ∈ l <-> exists id, is_u32 id /\ (packFourByteKey fourBytes id, packFourByteSignature s) ∈ rows.
Proof.
  intros Hf. induction rows as [|[k v] rows IH]; intros Hs Hr.
  { exists []. split; [done|]. set_solver. }
  inversion Hs as [|? ? Hs' Hlt]; subst. apply Forall_cons in Hr as [(a & id & s0 & Ha & Hid & Hs0 & [= -> ->]) Hr].
  destruct (IH Hs' Hr) as (l & El & Hl). unfold seek. rewrite filter_cons. cbn [fst].
  rewrite packFourByteKey_compare by done. destruct (Z.compare_spec a fourBytes) as [->|Hlow|Hhigh].
  - rewrite decide_True by done. cbn [scanSignatures]. unfold packFourByteKey at 1. rewrite slice_0_app by done.
    cbn [rbind]. rewrite (packUint_compare fourBytes fourBytes), Z.compare_refl by done.
    rewrite unpackFourByteSignature_pack by done. cbn [rbind]. unfold seek in El. rewrite El.
    eexists. split; [done|]. intros s Hok. rewrite elem_of_cons, (Hl s Hok). split.
    + intros [->|(id' & ? & ?)]; [exists id|exists id']; set_solver.
    + intros (id' & Hid' & [He|He]%elem_of_cons); [left|right; eauto]. apply (f_equal snd) in He.
      by apply packFourByteSignature_inj.
  - rewrite decide_False by (intros Hc; by apply Hc). exists l. split; [done|]. intros s Hok. rewrite (Hl s Hok).
    split; intros (id' & Hid' & He); exists id'; (split; [done|]); [set_solver|].
    apply elem_of_cons in He as [He|He]; [|done]. apply (f_equal fst) in He. apply packFourByteKey_inj in He; [lia|done..].
  - rewrite decide_True by done. cbn [scanSignatures]. unfold packFourByteKey at 1. rewrite slice_0_app by done.
    cbn [rbind]. rewrite (packUint_compare a fourBytes) by done. rewrite (proj2 (Z.compare_gt_iff a fourBytes)) by done.
    exists []. split; [done|]. intros s Hok. split; [set_solver|]. intros (id' & Hid' & [He|He]%elem_of_cons); exfalso.
    + apply (f_equal fst) in He. apply packFourByteKey_inj in He; [lia|done..].
    + rewrite Forall_forall in Hlt. apply Hlt in He. apply key_lt_fourBytes in He; [lia|done..].
Qed.

Lemma fbs_ok_packed_nonempty s : fbs_ok s -> zlen (packFourByteSignature s) =? 0 = false.
Proof. intros [Hn _]. pose proof (zlen_packString _ Hn). unfold packFourByteSignature. apply Z.eqb_neq. zlen_lia. Qed.

Definition signature_rows (d : DB K) : Prop := Forall signature_row (kv_list (db_cf d cfFunctionSignatures)).

Lemma GetFourByteSignature_row (d : DB K) fourBytes id s : (forall cf k, db_rfault d cf k = false) -> fbs_ok s ->
  signature_rows d ->
  GetFourByteSignature d fourBytes id = Ok (Some s) <->
  (packFourByteKey fourBytes id, packFourByteSignature s) ∈ kv_list (db_cf d cfFunctionSignatures).
Proof.
  intros Hr Hs Hrows. rewrite kv_list_get. unfold GetFourByteSignature, GetCF. rewrite Hr. cbn [rbind].
  destruct (kv_get _ _) as [v|] eqn:Ev; [|done]. cbn [valData].
  pose proof Ev as Hin. apply kv_list_get in Hin. unfold signature_rows in Hrows. rewrite Forall_forall in Hrows.
  destruct (Hrows _ Hin) as (a & i & s' & _ & _ & Hs' & He). apply (f_equal snd) in He. cbn [snd] in He. subst v.
  rewrite fbs_ok_packed_nonempty, unpackFourByteSignature_pack by done. cbn [rbind].
  split; [by intros [= ->]|intros [= He]]. by rewrite (packFourByteSignature_inj s' s).
Qed.
End EthRowsCodec.

(** ** Properties *)

Section EthRowsProperties.
Context {V : Vlq} {VL : VlqLaws V} {E : EthChainParser} {EL : EthChainParserLaws E} {K : KV} {KL : KVLaws K}.

(** The row that keeps the transactions of a block for its disconnection is read back:
    txids, addresses, and for every token transfer the values of its standard, in order. An
    address that is missing or not of 20 bytes is read back as the zero address, and internal
    data are not in this row. *)
Theorem eth_block_txs_codec (d : DB K) height ts :
  Forall ebt_ok ts -> GetCF d cfBlockTxs (packUint height) = Ok (Some (foldl packBlockTx [] ts)) ->
  getBlockTxsEthereumType d height = Ok (Some (map normTx ts)).
Proof. apply getBlockTxs_stored. Qed.

(** Internal data of a transaction are read back with the addresses as text, the kind
    reduced to one bit (call or creation), the contract of a creation, all transfers in order
    with their kinds and values, and the unpacked text of the error; each address text is
    read as the address that was stored. *)
Theorem internal_data_codec data :
  eid_ok data ->
  unpackEthInternalData (packEthInternalData data) = Ok (textInternalData data) /\
  Forall2 (fun t t' => it_Type t' = ei_internalType t /\ it_Value t' = ei_value t
      /\ GetAddrDescFromAddress (it_From t') = Ok (addressBytes (ei_from t))
      /\ GetAddrDescFromAddress (it_To t') = Ok (addressBytes (ei_to t)))
    (ed_transfers data) (id_Transfers (textInternalData data)).
Proof.
  intros Hd. split; [by apply unpackEthInternalData_pack|]. unfold textInternalData. cbn [id_Transfers].
  induction (ed_transfers data) as [|t ts IH]; constructor; [|exact IH]. cbn.
  split_and!; [done..|apply addressText_spec|apply addressText_spec].
Qed.

(** The signatures listed for four bytes are exactly those that single lookups find, over
    all ids; the list is kept in the cache, and the next lookup answers from there. *)
Theorem four_byte_codec (d : DB K) cache fourBytes :
  (forall cf k, db_rfault d cf k = false) -> signature_rows d -> is_u32 fourBytes -> cache !! fourBytes = None ->
  exists l, GetFourByteSignatures d cache fourBytes = Ok (l, <[fourBytes := l]> cache)
  /\ (forall s, fbs_ok s -> s ∈ l <-> exists id, is_u32 id /\ GetFourByteSignature d fourBytes id = Ok (Some s))
  /\ forall d' : DB K, GetFourByteSignatures d' (<[fourBytes := l]> cache) fourBytes = Ok (l, <[fourBytes := l]> cache).
Proof.
  intros Hr Hrows Hf Hc.
  destruct (scanSignatures_spec fourBytes _ Hf (kv_list_sorted (db_cf d cfFunctionSignatures)) Hrows) as (l & El & Hl).
  exists l. unfold GetFourByteSignatures. rewrite Hc, El. split_and!; [done| |].
  - intros s Hs. rewrite (Hl s Hs). split; intros (id & Hid & H); exists id; (split; [done|]);
      by apply (GetFourByteSignature_row d fourBytes id s Hr Hs Hrows).
  - intros d'. by rewrite lookup_insert_eq.
Qed.

(** The failure count and the message of a queued block are rewritten only while the queue
    holds an entry for that block at that height, and are then read back; no other row
    changes. *)
Theorem internal_error_update (d : DB K) height hash message retryCount storedHash r m b :
  (forall cf k, db_rfault d cf k = false) -> db_wfault d = false ->
  hash <> [] -> message <> [] -> 0 <= retryCount < 256 ->
  PackTxid hash = Ok b -> zlen b = PackedTxidLen -> UnpackTxid b = Ok hash ->
  unpackBlockInternalDataError (valData (kv_get (db_cf d cfBlockInternalDataErrors) (packUint height))) = Ok (storedHash, r, m) ->
  exists d', UpdateBlockInternalDataErrorEthereumType d height hash message retryCount = Ok d' /\
  if bool_decide (storedHash = hash) then
    unpackBlockInternalDataError (valData (kv_get (db_cf d' cfBlockInternalDataErrors) (packUint height)))
      = Ok (hash, retryCount, message) /\
    forall cf k, (cf, k) <> (cfBlockInternalDataErrors, packUint height) -> kv_get (db_cf d' cf) k = kv_get (db_cf d cf) k
  else d' = d.
Proof.
  intros Hr Hw Hh Hm Hc Hp Hl Hu Hs. unfold UpdateBlockInternalDataErrorEthereumType.
  rewrite bool_decide_eq_false_2 by done. unfold GetCF. rewrite Hr. cbn [rbind]. rewrite Hs. cbn [rbind].
  case_bool_decide as Es; [|by exists d].
  unfold StoreBlockInternalDataErrorEthereumType. rewrite Hp. cbn [rbind app]. unfold WriteBatch. rewrite Hw.
  eexists. split; [done|]. cbn [db_cf]. split.
  - rewrite kv_get_batch. cbn [batch_get op_cf op_key op_val]. rewrite decide_True by done. cbn [valData].
    unfold unpackBlockInternalDataError. change (z2b retryCount :: message) with ([z2b retryCount] ++ message).
    rewrite !zlen_app, Hl. change (zlen [z2b retryCount]) with 1.
    assert (0 < zlen message) by (destruct message; [done|rewrite zlen_cons; zlen_lia]).
    destruct (Z.ltb_spec (PackedTxidLen + 1) (PackedTxidLen + (1 + zlen message))); [|lia].
    rewrite slice_0_app by lia. cbn [rbind]. rewrite Hu. cbn [rbind]. rewrite slice_from_app by lia. cbn [rbind].
    cbn [app]. rewrite index_0. cbn [rbind].
    change (z2b retryCount :: message) with ([z2b retryCount] ++ message). rewrite slice_from_app by done. cbn [rbind]. rewrite b2z_z2b, Z.mod_small by lia. done.
  - intros cf k Hne. rewrite kv_get_batch. cbn [batch_get op_cf op_key op_val].
    rewrite decide_False; [done|]. intros [<- <-]. by apply Hne.
Qed.
End EthRowsProperties.

Module EthRowsExample.
#[local] Existing Instance RefVlq.vlq.
#[local] Existing Instance RefVlq.vlq_laws.
#[local] Existing Instance MapKV.map_kv.
#[local] Existing Instance MapKV.map_kv_laws.
#[local] Existing Instance EthParserExample.refEth.
#[local] Existing Instance EthParserExample.refEthLaws.
#[local] Instance parser : EthChainParser := ethereumParser 100 (fun _ => Ok []).

Definition adr (b : byte) : bytes := replicate 20 b.
Definition tid (b : byte) : bytes := replicate 32 b.

(** A contract creation (no receiver) that mints a token of a multi-token contract. *)
Definition ts : list ethBlockTx :=
  [mkEBT (tid x01) (adr x0a) [] [mkBTC (adr x00) (adr x0a) (adr x0c) MultiToken 0 [mkMTV 7 3]] None;
   mkEBT (tid x02) (adr x0b) (adr x0a) [mkBTC (adr x0b) (adr x0a) (adr x0d) FungibleToken 99 []] None].

Definition with_row (cf : CF) (k v : bytes) : DB MapKV.map_kv :=
  mkDB MapKV.map_kv (fun c => if decide (c = cf) then {[k := v]} else ∅) (fun _ _ => false) false.

Lemma ts_ok : Forall ebt_ok ts.
Proof.
  repeat constructor; cbn; unfold is_u64, packable; try lia; try done.
Qed.

Lemma eth_block_txs_codec_witness :
  getBlockTxsEthereumType (with_row cfBlockTxs (packUint 5) (foldl packBlockTx [] ts)) 5 = Ok (Some (map normTx ts))
  /\ (ebt_to <$> head (map normTx ts)) = Some ethZeroAddress.
Proof.
  split; [|reflexivity]. apply eth_block_txs_codec; [exact ts_ok|]. vm_compute. reflexivity.
Defined.

Definition data : ethInternalData :=
  mkEID CREATE (adr x0c) [mkEIT CALL (adr x0a) (adr x0b) 5; mkEIT SELFDESTRUCT (adr x0c) [] 0] (str "oops").

Lemma internal_data_codec_witness :
  unpackEthInternalData (packEthInternalData data) = Ok (textInternalData data).
Proof.
  apply (internal_data_codec data). split_and!; [done|done| |].
  { vm_compute. reflexivity. }
  repeat constructor; cbn; unfold packable, SELFDESTRUCT, CALL; lia.
Defined.

Definition transferSig : FourByteSignature := mkFBS (str "transfer") [str "address"; str "uint256"].
Definition sigs : DB MapKV.map_kv :=
  with_row cfFunctionSignatures (packFourByteKey 2835717307 145) (packFourByteSignature transferSig).

Lemma four_byte_codec_witness :
  exists l, GetFourByteSignatures sigs ∅ 2835717307 = Ok (l, <[2835717307 := l]> ∅)
  /\ (forall s, fbs_ok s -> s ∈ l <-> exists id, is_u32 id /\ GetFourByteSignature sigs 2835717307 id = Ok (Some s))
  /\ forall d' : DB MapKV.map_kv, GetFourByteSignatures d' (<[2835717307 := l]> ∅) 2835717307 = Ok (l, <[2835717307 := l]> ∅).
Proof.
  apply four_byte_codec; [done| |unfold is_u32; lia|done].
  unfold signature_rows. apply Forall_forall. intros [k v] Hin. apply kv_list_get in Hin.
  change (({[packFourByteKey 2835717307 145 := packFourByteSignature transferSig]} : gmap bytes bytes) !! k = Some v) in Hin.
  apply lookup_singleton_Some in Hin as [<- <-].
  exists 2835717307, 145, transferSig. split_and!; [unfold is_u32; lia..| |done].
  split; [vm_compute; reflexivity|repeat constructor; vm_compute; reflexivity].
Defined.

(** A reader that runs after the signature is put into the batch and before the batch is
    written fills the cache with the list of before, and every later reader gets it. *)
Example signature_cached_before_commit :
  let d0 := mkDB MapKV.map_kv (fun _ => ∅) (fun _ _ => false) false in
  let '(wb, cache) := StoreFourByteSignature [] ∅ 2835717307 145 transferSig in
  match GetFourByteSignatures d0 cache 2835717307 with
  | Ok (_, cache) =>
      match WriteBatch wb d0 with
      | Ok d1 =>
          match GetFourByteSignatures d1 cache 2835717307, GetFourByteSignature d1 2835717307 145 with
          | Ok (l, _), Ok s => l = [] /\ s = Some transferSig
          | _, _ => False
          end
      | _ => False
      end
  | _ => False
  end.
Proof. vm_compute. split; reflexivity. Qed.

Definition hash : bytes := str "0x0101010101010101010101010101010101010101010101010101010101010101".
Definition queue : DB MapKV.map_kv := with_row cfBlockInternalDataErrors (packUint 9) (tid x01 ++ [x02] ++ str "timeout").

Lemma internal_error_update_witness :
  exists d', UpdateBlockInternalDataErrorEthereumType queue 9 hash (str "refused") 3 = Ok d' /\
  if bool_decide (hash = hash) then
    unpackBlockInternalDataError (valData (kv_get (db_cf d' cfBlockInternalDataErrors) (packUint 9)))
      = Ok (hash, 3, str "refused") /\
    forall cf k, (cf, k) <> (cfBlockInternalDataErrors, packUint 9) -> kv_get (db_cf d' cf) k = kv_get (db_cf queue cf) k
  else d' = queue.
Proof.
  apply (internal_error_update queue 9 hash (str "refused") 3 hash 2 (str "timeout") (tid x01)); try done; try lia.
Defined.
End EthRowsExample.
