(* ===== verification/EthContractInfo.v ===== *)
(** The registry of contracts of Ethereum-type coins: the data of a contract and its row
    ([db/rocksdb_contracts.go]), the cache of contracts ([db/contract_info_cache.go]) and the
    rows of detected protocols ([db/rocksdb_protocols.go]).

    The theorems: a row is read back with name and symbol cut to a bounded length, never in the
    middle of a character ([contract_info_codec]); the cache answers only with what the last
    [add] of the key stored under the same generations ([contract_cache_coherent]). *)

From S2P Require Import Prelude Codec EthTokens EthContracts EthParser.

Local Open Scope Z_scope.

(** [bchain.ContractInfo]; a [TokenStandardName] is a text. *)
Record ContractInfo := mkContractInfo {
  ci_Type : bytes;
  ci_Standard : bytes;
  ci_Contract : bytes;
  ci_Name : bytes;
  ci_Symbol : bytes;
  ci_Decimals : Z;
  ci_CreatedInBlock : Z;
  ci_DestructedInBlock : Z;
  ci_IsErc4626 : bool;
  ci_Erc4626AssetContract : bytes;
}.

Definition UnknownTokenStandard : bytes := [].
Definition UnhandledTokenStandard : bytes := str "-".

Definition set_Contract (v : bytes) (c : ContractInfo) : ContractInfo :=
  mkContractInfo (ci_Type c) (ci_Standard c) v (ci_Name c) (ci_Symbol c) (ci_Decimals c) (ci_CreatedInBlock c)
    (ci_DestructedInBlock c) (ci_IsErc4626 c) (ci_Erc4626AssetContract c).
Definition set_Standard (v : bytes) (c : ContractInfo) : ContractInfo :=
  mkContractInfo v v (ci_Contract c) (ci_Name c) (ci_Symbol c) (ci_Decimals c) (ci_CreatedInBlock c)
    (ci_DestructedInBlock c) (ci_IsErc4626 c) (ci_Erc4626AssetContract c).
Definition set_CreatedInBlock (v : Z) (c : ContractInfo) : ContractInfo :=
  mkContractInfo (ci_Type c) (ci_Standard c) (ci_Contract c) (ci_Name c) (ci_Symbol c) (ci_Decimals c) v
    (ci_DestructedInBlock c) (ci_IsErc4626 c) (ci_Erc4626AssetContract c).
Definition set_DestructedInBlock (v : Z) (c : ContractInfo) : ContractInfo :=
  mkContractInfo (ci_Type c) (ci_Standard c) (ci_Contract c) (ci_Name c) (ci_Symbol c) (ci_Decimals c)
    (ci_CreatedInBlock c) v (ci_IsErc4626 c) (ci_Erc4626AssetContract c).
Definition set_Erc4626 (asset : bytes) (c : ContractInfo) : ContractInfo :=
  mkContractInfo (ci_Type c) (ci_Standard c) (ci_Contract c) (ci_Name c) (ci_Symbol c) (ci_Decimals c)
    (ci_CreatedInBlock c) (ci_DestructedInBlock c) true asset.

(** ** Texts of bounded length *)

Definition between (lo hi : Z) (b : byte) : bool := (lo <=? b2z b) && (b2z b <=? hi).
Definition continuation : byte -> bool := between 128 191.

(** The length of the valid encoding of a character at the front of [s], 0 when there is none
    (package [unicode/utf8]). *)
Definition runeLen (s : bytes) : nat :=
  match s with
  | [] => O
  | a :: s1 =>
      if between 0 127 a then 1%nat
      else if between 194 223 a then
        match s1 with b :: _ => if continuation b then 2%nat else O | _ => O end
      else if between 224 239 a then
        let second := if b2z a =? 224 then between 160 191 else if b2z a =? 237 then between 128 159 else continuation in
        match s1 with b :: c :: _ => if second b && continuation c then 3%nat else O | _ => O end
      else if between 240 244 a then
        let second := if b2z a =? 240 then between 144 191 else if b2z a =? 244 then between 128 143 else continuation in
        match s1 with b :: c :: d :: _ => if second b && continuation c && continuation d then 4%nat else O | _ => O end
      else O
  end.

Fixpoint validLoop (fuel : nat) (s : bytes) : bool :=
  match s with
  | [] => true
  | _ =>
      match fuel, runeLen s with
      | S fuel, S n => validLoop fuel (drop (S n) s)
      | _, _ => false
      end
  end.

(** [utf8.ValidString] *)
Definition ValidString (s : bytes) : bool := validLoop (length s) s.

(** [for len(s) > 0 && !utf8.ValidString(s) { s = s[:len(s)-1] }] *)
Fixpoint shrinkToValid (n : nat) (s : bytes) : bytes :=
  match n with
  | O => []
  | S n' => if ValidString (take n s) then take n s else shrinkToValid n' s
  end.

Definition maxContractNameSymbolBytes : Z := 256.

Definition clampUTF8 (s : bytes) (max : Z) : bytes :=
  if zlen s <=? max then s else shrinkToValid (Z.to_nat max) s.

(** ** The row of a contract *)

Section ContractRow.
Context {V : Vlq}.

Definition packContractInfo (contractInfo : ContractInfo) : bytes :=
  packString (clampUTF8 (ci_Name contractInfo) maxContractNameSymbolBytes) ++
  packString (clampUTF8 (ci_Symbol contractInfo) maxContractNameSymbolBytes) ++
  packString (ci_Standard contractInfo) ++
  packVaruint (u64 (ci_Decimals contractInfo)) ++
  packVaruint (u64 (ci_CreatedInBlock contractInfo)) ++
  packVaruint (u64 (ci_DestructedInBlock contractInfo)).

Definition unpackContractInfo (buf : bytes) : result ContractInfo :=
  let! '(name, l) := unpackString buf in
  let! buf := slice_from buf l in
  let! '(symbol, l) := unpackString buf in
  let! buf := slice_from buf l in
  let! '(s, l) := unpackString buf in
  let! buf := slice_from buf l in
  let! '(decimals, buf) := takeVaruint buf in
  let! '(created, buf) := takeVaruint buf in
  let '(destructed, _) := unpackVaruint buf in
  Ok (mkContractInfo s s [] name symbol (i64 decimals) (u32 created) (u32 destructed) false []).

Definition unpackStringSafe (buf : bytes) : option (bytes * Z) :=
  if zlen buf =? 0 then None
  else
    match unpackVaruintSafe buf with
    | None => None
    | Some (sl, l) =>
        let so := i64 (l + i64 sl) in
        if (so <? l) || (zlen buf <? so) then None
        else match slice buf l so with Ok s => Some (s, so) | _ => None end
    end.

(** ** Rows of protocols *)

Definition ercProtocolKeyByContract : byte := x00.
Definition ercProtocolKeyByHeight : byte := x01.
Definition ErcProtocolErc4626 : byte := x01.

Definition protocolByContractKey (protocolID : byte) (addrDesc : bytes) : bytes :=
  [ercProtocolKeyByContract; protocolID] ++ addrDesc.
Definition protocolByHeightKey (protocolID : byte) (height : Z) (addrDesc : bytes) : bytes :=
  [ercProtocolKeyByHeight; protocolID] ++ packUint height ++ addrDesc.

Definition packErcProtocolValue (persistHeight : Z) (payload : bytes) : bytes := packVaruint (u64 persistHeight) ++ payload.

Definition unpackErcProtocolValue (buf : bytes) : result (option (Z * bytes)) :=
  match unpackVaruintSafe buf with
  | None => Ok None
  | Some (h, l) => let! payload := slice_from buf l in Ok (Some (u32 h, payload))
  end.
End ContractRow.

(** ** Records of healed blocks *)

Definition applyHealedCreation (contractInfo : ContractInfo) (height : Z) : option ContractInfo :=
  if height <? ci_CreatedInBlock contractInfo then None
  else
    let contractInfo := set_CreatedInBlock height contractInfo in
    Some (if ci_DestructedInBlock contractInfo <=? height then set_DestructedInBlock 0 contractInfo else contractInfo).

Definition applyHealedDestruction (contractInfo : ContractInfo) (height : Z) : option ContractInfo :=
  if (height <? ci_CreatedInBlock contractInfo) || (height <=? ci_DestructedInBlock contractInfo) then None
  else Some (set_DestructedInBlock height contractInfo).

(** ** The cache of contracts *)

Record contractInfoLRUEntry := mkLRUEntry {
  le_key : bytes;
  le_value : ContractInfo;
  le_reorgGen : Z;
  le_protocolGen : Z;
}.

(** The entries from the most to the least recently used; the map [items] of the code holds
    exactly their keys. A nil cache is [None]. *)
Record contractInfoLRU := mkContractLRU { cl_capacity : Z; cl_order : list contractInfoLRUEntry }.

Definition newContractInfoLRU (capacity : Z) : option contractInfoLRU :=
  if capacity <=? 0 then None else Some (mkContractLRU capacity []).

Definition cl_find (key : bytes) (c : contractInfoLRU) : option contractInfoLRUEntry :=
  find (fun e => bool_decide (le_key e = key)) (cl_order c).
Definition cl_remove (key : bytes) (c : contractInfoLRU) : list contractInfoLRUEntry :=
  filter (fun e => le_key e <> key) (cl_order c).

Module ContractLRU.
Definition get (key : bytes) (reorgGen protocolGen : Z) (c : option contractInfoLRU)
    : option ContractInfo * option contractInfoLRU :=
  match c with
  | None => (None, None)
  | Some c =>
      match cl_find key c with
      | None => (None, Some c)
      | Some entry =>
          if negb (le_reorgGen entry =? reorgGen) || negb (le_protocolGen entry =? protocolGen)
          then (None, Some (mkContractLRU (cl_capacity c) (cl_remove key c)))
          else (Some (le_value entry), Some (mkContractLRU (cl_capacity c) (entry :: cl_remove key c)))
      end
  end.

Definition add (key : bytes) (value : ContractInfo) (reorgGen protocolGen : Z) (c : option contractInfoLRU)
    : option contractInfoLRU :=
  match c with
  | None => None
  | Some c =>
      let entry := mkLRUEntry key value reorgGen protocolGen in
      match cl_find key c with
      | Some _ => Some (mkContractLRU (cl_capacity c) (entry :: cl_remove key c))
      | None =>
          let order := entry :: cl_order c in
          if zlen order <=? cl_capacity c then Some (mkContractLRU (cl_capacity c) order)
          else Some (mkContractLRU (cl_capacity c) (take (length order - 1) order))
      end
  end.

Definition reset (c : option contractInfoLRU) : option contractInfoLRU :=
  match c with None => None | Some c => Some (mkContractLRU (cl_capacity c) []) end.

Definition delete (key : bytes) (c : option contractInfoLRU) : option contractInfoLRU :=
  match c with None => None | Some c => Some (mkContractLRU (cl_capacity c) (cl_remove key c)) end.
End ContractLRU.

(** ** Texts are cut between characters *)

Lemma shrinkToValid_spec n s : (n <= length s)%nat ->
  let r := shrinkToValid n s in
  ValidString r = true /\ r `prefix_of` s /\ (length r <= n)%nat.
Proof.
  induction n as [|n IH]; intros Hn; cbn [shrinkToValid]; [split_and!; [done|apply prefix_nil|done]|].
  destruct (ValidString (take (S n) s)) eqn:Ev.
  - split_and!; [done|by exists (drop (S n) s); rewrite take_drop|]. rewrite length_take. lia.
  - destruct IH as (? & ? & ?); [lia|]. split_and!; [done|done|lia].
Qed.

Lemma runeLen_bounds s : (runeLen s <= 4)%nat /\ (runeLen s <= length s)%nat.
Proof.
  destruct s as [|a [|b [|c [|d r]]]]; cbn [runeLen length]; repeat case_match; lia.
Qed.

Lemma runeLen_take s n : (runeLen s <= n)%nat -> runeLen (take n s) = runeLen s.
Proof.
  intros Hn. destruct s as [|a s]; [by destruct n|]. destruct n as [|n].
  { assert (runeLen (a :: s) = 0)%nat by lia. by rewrite H. }
  cbn [take]. revert Hn. cbn [runeLen].
  destruct s as [|b [|c [|d r]]]; destruct n as [|[|[|n]]]; cbn [take]; repeat (case_match; try lia); try done.
Qed.

(** More fuel does not change the answer. *)
Lemma validLoop_fuel f s : (length s <= f)%nat -> validLoop f s = validLoop (length s) s.
Proof.
  revert s. induction f as [f IH] using lt_wf_ind. intros s Hs. destruct s as [|a s]; [by destruct f|].
  destruct f as [|f]; [cbn in Hs; lia|]. cbn [validLoop length]. destruct (runeLen (a :: s)) as [|k] eqn:Er; [done|].
  cbn [length] in Hs. pose proof (length_drop (a :: s) (S k)) as Hd. cbn [length] in Hd.
  destruct (decide (f = length s)) as [->|]; [done|].
  rewrite (IH f) by lia. rewrite (IH (length s)) by lia. done.
Qed.

Lemma ValidString_step s : s <> [] -> ValidString s = match runeLen s with O => false | n => ValidString (drop n s) end.
Proof.
  destruct s as [|a s]; [done|]. intros _. unfold ValidString. cbn [validLoop length].
  destruct (runeLen (a :: s)) as [|k] eqn:Er; [done|]. apply validLoop_fuel. rewrite length_drop. cbn [length]. lia.
Qed.

(** A valid text cut anywhere has a valid part that is shorter by at most three bytes. *)
Lemma valid_prefix s n : ValidString s = true -> (n <= length s)%nat ->
  exists k, (k <= n)%nat /\ (n <= k + 3)%nat /\ ValidString (take k s) = true.
Proof.
  revert n. induction s as [s IH] using (induction_ltof1 _ (@length byte)); unfold ltof in IH. intros n Hv Hn.
  destruct (decide (s = [])) as [->|Hne]; [exists 0%nat; cbn in Hn; split_and!; [lia|lia|done]|].
  rewrite ValidString_step in Hv by done. destruct (runeLen s) as [|r] eqn:Er; [done|].
  pose proof (runeLen_bounds s) as [Hb1 Hb2]. rewrite Er in Hb1, Hb2.
  destruct (decide (n < S r)%nat) as [Hlt|Hge]; [exists 0%nat; split_and!; [lia|lia|done]|].
  destruct (IH (drop (S r) s)) with (n := (n - S r)%nat) as (k & H1 & H2 & H3).
  - rewrite length_drop. lia.
  - done.
  - rewrite length_drop. lia.
  - exists (S r + k)%nat. split_and!; [lia|lia|].
    assert (take (S r + k) s <> []) as Hnt.
    { intros E. apply (f_equal length) in E. rewrite length_take in E. change (length (@nil byte)) with 0%nat in E. lia. }
    rewrite ValidString_step by done. rewrite runeLen_take by lia. rewrite Er.
    by rewrite <- take_drop_commute.
Qed.

Lemma shrinkToValid_max n k s : (k <= n)%nat -> ValidString (take k s) = true -> (n <= length s)%nat ->
  (k <= length (shrinkToValid n s))%nat.
Proof.
  intros Hk Hv Hn. induction n as [|n IH]; [lia|]. cbn [shrinkToValid].
  destruct (ValidString (take (S n) s)) eqn:Ev; [rewrite length_take; lia|].
  destruct (decide (k = S n)) as [->|]; [congruence|]. apply IH; lia.
Qed.

(** What is kept of a text. *)
Lemma clampUTF8_spec s max : 0 <= max ->
  let r := clampUTF8 s max in
  r `prefix_of` s /\ zlen r <= max /\ (ValidString s = true -> ValidString r = true /\ Z.min (zlen s) (max - 3) <= zlen r).
Proof.
  intros Hm r. subst r. unfold clampUTF8. destruct (Z.leb_spec (zlen s) max); [split_and!; [done|done|]; intros; split; [done|lia]|].
  destruct (shrinkToValid_spec (Z.to_nat max) s) as (H1 & H2 & H3); [unfold zlen in *; lia|].
  split_and!; [done|unfold zlen; lia|]. intros Hv. split; [done|].
  destruct (valid_prefix s (Z.to_nat max) Hv) as (k & Hk1 & Hk2 & Hk3); [unfold zlen in *; lia|].
  pose proof (shrinkToValid_max (Z.to_nat max) k s Hk1 Hk3 ltac:(unfold zlen in *; lia)). unfold zlen. lia.
Qed.

Definition clampName (s : bytes) : bytes := clampUTF8 s maxContractNameSymbolBytes.

Lemma clampName_fits s : fits (clampName s).
Proof.
  unfold fits, clampName, maxContractNameSymbolBytes. pose proof (clampUTF8_spec s 256 ltac:(lia)) as (_ & H & _). lia.
Qed.

(** ** The row is read back *)

Definition ci_ok (c : ContractInfo) : Prop :=
  fits (ci_Standard c) /\ is_i64 (ci_Decimals c) /\ is_u32 (ci_CreatedInBlock c) /\ is_u32 (ci_DestructedInBlock c).

(** What is kept in the row. *)
Definition storedInfo (c : ContractInfo) : ContractInfo :=
  mkContractInfo (ci_Standard c) (ci_Standard c) [] (clampName (ci_Name c)) (clampName (ci_Symbol c)) (ci_Decimals c)
    (ci_CreatedInBlock c) (ci_DestructedInBlock c) false [].

Section ContractRowCodec.
Context {V : Vlq} {VL : VlqLaws V}.

Lemma u64_u32 z : is_u32 z -> u64 z = z.
Proof. intros. apply u64_id. unfold is_u32, is_u64 in *. lia. Qed.

Lemma unpackContractInfo_pack c : ci_ok c -> unpackContractInfo (packContractInfo c) = Ok (storedInfo c).
Proof.
  intros (Hs & Hd & Hc & Hx). unfold unpackContractInfo, packContractInfo. fold (clampName (ci_Name c)). fold (clampName (ci_Symbol c)).
  rewrite unpackString_pack by apply clampName_fits. cbn [rbind]. rewrite slice_from_app by done. cbn [rbind].
  rewrite unpackString_pack by apply clampName_fits. cbn [rbind]. rewrite slice_from_app by done. cbn [rbind].
  rewrite unpackString_pack by done. cbn [rbind]. rewrite slice_from_app by done. cbn [rbind].
  rewrite takeVaruint_pack by apply u64_range. cbn [rbind]. rewrite takeVaruint_pack by apply u64_range. cbn [rbind].
  rewrite <- (app_nil_r (packVaruint (u64 (ci_DestructedInBlock c)))), unpackVaruint_pack by apply u64_range.
  rewrite i64_u64, !u64_u32, !u32_id by done. done.
Qed.

Lemma unpackErcProtocolValue_pack h payload : is_u32 h ->
  unpackErcProtocolValue (packErcProtocolValue h payload) = Ok (Some (h, payload)).
Proof.
  intros Hh. unfold unpackErcProtocolValue, packErcProtocolValue, unpackVaruintSafe. rewrite (u64_u32 h Hh).
  assert (Hu : is_u64 h) by (unfold is_u32, is_u64 in *; lia). pose proof (zlen_packVaruint h Hu) as Hl.
  pose proof (zlen_nonneg payload). rewrite zlen_app.
  destruct (Z.eqb_spec (zlen (packVaruint h) + zlen payload) 0); [lia|]. rewrite unpackVaruint_pack by done.
  destruct (Z.leb_spec (zlen (packVaruint h)) 0); [lia|].
  destruct (Z.ltb_spec (zlen (packVaruint h) + zlen payload) (zlen (packVaruint h))); [lia|]. cbn [orb].
  rewrite slice_from_app by done. cbn [rbind]. by rewrite u32_id.
Qed.

Lemma unpackStringSafe_pack s rest : zlen s < 2 ^ 62 -> unpackStringSafe (packString s ++ rest) = Some (s, zlen (packString s)).
Proof.
  intros Hs. assert (Hf : fits s) by (unfold fits; lia). unfold unpackStringSafe, packString. rewrite <- app_assoc.
  pose proof (zlen_packVaruint (zlen s) (fits_u64 _ Hf)) as Hl. pose proof (zlen_nonneg s). pose proof (zlen_nonneg rest).
  set (p := packVaruint (zlen s)) in *. unfold unpackVaruintSafe. rewrite !zlen_app.
  destruct (Z.eqb_spec (zlen p + (zlen s + zlen rest)) 0); [lia|].
  subst p. rewrite unpackVaruint_pack by (by apply fits_u64). set (p := packVaruint (zlen s)) in *.
  destruct (Z.leb_spec (zlen p) 0); [lia|].
  destruct (Z.ltb_spec (zlen p + (zlen s + zlen rest)) (zlen p)); [lia|]. cbn [orb].
  rewrite (i64_id (zlen s)), (i64_id (zlen p + zlen s)) by (unfold is_i64; lia).
  destruct (Z.ltb_spec (zlen p + zlen s) (zlen p)); [lia|].
  destruct (Z.ltb_spec (zlen p + (zlen s + zlen rest)) (zlen p + zlen s)); [lia|]. cbn [orb].
  by rewrite slice_app by done.
Qed.
End ContractRowCodec.

(** ** The cache is coherent *)

(** Calls of the cache. *)
Inductive cache_op :=
| CacheGet (key : bytes) (reorgGen protocolGen : Z)
| CacheAdd (key : bytes) (value : ContractInfo) (reorgGen protocolGen : Z)
| CacheDelete (key : bytes)
| CacheReset.

Definition run_cache (c : option contractInfoLRU) (o : cache_op) : option contractInfoLRU :=
  match o with
  | CacheGet key r p => snd (ContractLRU.get key r p c)
  | CacheAdd key v r p => ContractLRU.add key v r p c
  | CacheDelete key => ContractLRU.delete key c
  | CacheReset => ContractLRU.reset c
  end.

(** What was added last for a key, and not deleted since. *)
Definition added (m : gmap bytes (ContractInfo * Z * Z)) (o : cache_op) : gmap bytes (ContractInfo * Z * Z) :=
  match o with
  | CacheGet _ _ _ => m
  | CacheAdd key v r p => <[key := (v, r, p)]> m
  | CacheDelete key => delete key m
  | CacheReset => ∅
  end.

Definition lru_keys (c : option contractInfoLRU) : list bytes :=
  match c with None => [] | Some c => map le_key (cl_order c) end.

Definition entry_in (m : gmap bytes (ContractInfo * Z * Z)) (e : contractInfoLRUEntry) : Prop :=
  m !! le_key e = Some (le_value e, le_reorgGen e, le_protocolGen e).

Definition cache_ok (capacity : Z) (m : gmap bytes (ContractInfo * Z * Z)) (c : option contractInfoLRU) : Prop :=
  match c with
  | None => True
  | Some c =>
      cl_capacity c = capacity /\ 0 < capacity /\ NoDup (map le_key (cl_order c)) /\ zlen (cl_order c) <= capacity /\
      Forall (entry_in m) (cl_order c)
  end.

Lemma cl_find_Some key c e : cl_find key c = Some e -> e ∈ cl_order c /\ le_key e = key.
Proof.
  unfold cl_find. intros H. apply find_some in H as [H1 H2]. split; [by apply list_elem_of_In|].
  by apply bool_decide_eq_true in H2.
Qed.

Lemma cl_find_None key c : cl_find key c = None -> key ∉ map le_key (cl_order c).
Proof.
  unfold cl_find. intros H (e & -> & He)%list_elem_of_fmap. apply list_elem_of_In in He.
  pose proof (find_none _ _ H e He) as Hn. cbn in Hn. by rewrite bool_decide_eq_true_2 in Hn.
Qed.

Lemma cl_remove_keys key c : map le_key (cl_remove key c) = filter (fun k => k <> key) (map le_key (cl_order c)).
Proof.
  unfold cl_remove. induction (cl_order c) as [|e l IH]; [done|]. cbn [map]. rewrite !filter_cons.
  destruct (decide (le_key e <> key)); cbn [map]; by rewrite IH.
Qed.

Lemma cl_remove_ok key c : NoDup (map le_key (cl_order c)) ->
  NoDup (map le_key (cl_remove key c)) /\ key ∉ map le_key (cl_remove key c) /\ zlen (cl_remove key c) <= zlen (cl_order c)
  /\ (forall e, e ∈ cl_order c -> le_key e = key -> zlen (cl_remove key c) + 1 <= zlen (cl_order c)).
Proof.
  intros Hn. rewrite cl_remove_keys. split_and!.
  - by apply NoDup_filter.
  - rewrite list_elem_of_filter. tauto.
  - apply inj_le, length_filter.
  - intros e He Hk. assert (length (cl_remove key c) < length (cl_order c))%nat; [|unfold zlen; lia].
    apply (length_filter_lt _ _ e He). tauto.
Qed.

Lemma run_cache_ok n m c o : cache_ok n m c -> cache_ok n (added m o) (run_cache c o).
Proof.
  destruct c as [c|]; [|by destruct o]. intros (Hc & Hp & Hn & Hl & Hf). rewrite <- Hc in *.
  assert (Hrem : forall key, Forall (entry_in m) (cl_remove key c)).
  { intros key. apply Forall_forall. intros e [_ He]%list_elem_of_filter. rewrite Forall_forall in Hf. by apply Hf. }
  destruct o as [key r p|key v r p|key|]; cbn [run_cache added ContractLRU.get ContractLRU.add ContractLRU.delete ContractLRU.reset].
  - destruct (cl_find key c) as [e|] eqn:Ef; [|by split_and!].
    destruct (cl_find_Some _ _ _ Ef) as [He Hk]. destruct (cl_remove_ok key c Hn) as (H1 & H2 & H3 & H4).
    destruct (_ || _); cbn [snd]; split_and!; cbn [cl_capacity cl_order map]; try done; try lia.
    + constructor; [by rewrite Hk|done].
    + rewrite zlen_cons. pose proof (H4 e He Hk). lia.
    + constructor; [|apply Hrem]. rewrite Forall_forall in Hf. by apply Hf.
  - assert (Hother : forall l, Forall (entry_in m) l -> key ∉ map le_key l -> Forall (entry_in (<[key := (v, r, p)]> m)) l).
    { intros l Hl' Hk. induction Hl' as [|e l' He _ IH]; [constructor|]. cbn [map] in Hk. apply not_elem_of_cons in Hk as [Hk Hk'].
      constructor; [|by apply IH]. unfold entry_in. by rewrite lookup_insert_ne. }
    destruct (cl_remove_ok key c Hn) as (H1 & H2 & H3 & H4).
    assert (Hhead : entry_in (<[key := (v, r, p)]> m) (mkLRUEntry key v r p)) by (unfold entry_in; cbn; by rewrite lookup_insert_eq).
    destruct (cl_find key c) as [e|] eqn:Ef.
    + destruct (cl_find_Some _ _ _ Ef) as [He Hk]. split_and!; cbn [cl_capacity cl_order map le_key]; try done.
      * by constructor.
      * rewrite zlen_cons. pose proof (H4 e He Hk). lia.
      * constructor; [done|]. by apply Hother.
    + apply cl_find_None in Ef.
      assert (Hnew : Forall (entry_in (<[key := (v, r, p)]> m)) (mkLRUEntry key v r p :: cl_order c)).
      { constructor; [done|]. by apply Hother. }
      assert (Hnn : NoDup (map le_key (mkLRUEntry key v r p :: cl_order c))) by (by constructor).
      destruct (Z.leb_spec (zlen (mkLRUEntry key v r p :: cl_order c)) (cl_capacity c)); split_and!; cbn [cl_capacity cl_order]; try done.
      * change (map le_key) with (fmap le_key : list _ -> list bytes). rewrite fmap_take. by eapply sublist_NoDup, sublist_take.
      * unfold zlen. rewrite length_take. rewrite zlen_cons in *. unfold zlen in *. cbn [length]. lia.
      * by apply Forall_take.
  - destruct (cl_remove_ok key c Hn) as (H1 & H2 & H3 & H4). split_and!; cbn [cl_capacity cl_order]; try done; [lia|].
    apply Forall_forall. intros e He. unfold entry_in. rewrite lookup_delete_ne.
    + specialize (Hrem key). rewrite Forall_forall in Hrem. by apply Hrem.
    + intros Hk. apply H2. apply list_elem_of_fmap. by exists e.
  - split_and!; cbn [cl_capacity cl_order map]; try done; [apply NoDup_nil_2|unfold zlen; cbn; lia].
Qed.

(** ** Properties *)

Section ContractInfoProperties.
Context {V : Vlq} {VL : VlqLaws V}.

(** The row of a contract is read back: standard, decimals and the blocks of its creation
    and destruction as stored, name and symbol cut to a prefix of at most 256 bytes; a name
    that is valid text stays valid text and loses at most three bytes more than it must. *)
Theorem contract_info_codec c :
  ci_ok c ->
  unpackContractInfo (packContractInfo c) = Ok (storedInfo c) /\
  clampName (ci_Name c) `prefix_of` ci_Name c /\ zlen (clampName (ci_Name c)) <= 256 /\
  (ValidString (ci_Name c) = true ->
     ValidString (clampName (ci_Name c)) = true /\ Z.min (zlen (ci_Name c)) 253 <= zlen (clampName (ci_Name c))).
Proof.
  intros Hc. split; [by apply unpackContractInfo_pack|]. apply (clampUTF8_spec (ci_Name c) 256). lia.
Qed.
End ContractInfoProperties.

(** After any sequence of calls the cache holds at most its capacity of contracts, each
    once, and a lookup answers only with the contract of the last [add] of that key, when the
    key was not deleted since and both generations are the ones it was added under. *)
Theorem contract_cache_coherent capacity ops key reorgGen protocolGen :
  let c := foldl run_cache (newContractInfoLRU capacity) ops in
  NoDup (lru_keys c) /\ zlen (lru_keys c) <= Z.max 0 capacity /\
  forall v, fst (ContractLRU.get key reorgGen protocolGen c) = Some v ->
    foldl added ∅ ops !! key = Some (v, reorgGen, protocolGen).
Proof.
  intros c. assert (Hok : cache_ok capacity (foldl added ∅ ops) c).
  { subst c. assert (H0 : cache_ok capacity ∅ (newContractInfoLRU capacity)).
    { unfold newContractInfoLRU. destruct (Z.leb_spec capacity 0); [done|]. split_and!; try done; [apply NoDup_nil_2|unfold zlen; cbn; lia]. }
    revert H0. generalize (newContractInfoLRU capacity). generalize (∅ : gmap bytes (ContractInfo * Z * Z)).
    induction ops as [|o ops IH]; intros m c0 H0; [done|]. cbn [foldl]. apply IH. by apply run_cache_ok. }
  destruct c as [c|]; [|split_and!; [apply NoDup_nil_2|unfold zlen; cbn; lia|done]].
  destruct Hok as (_ & Hp & Hn & Hl & Hf). cbn [lru_keys]. split_and!; [done|unfold zlen in *; rewrite length_map; lia|].
  intros v. cbn [ContractLRU.get]. destruct (cl_find key c) as [e|] eqn:Ef; [|done].
  destruct (cl_find_Some _ _ _ Ef) as [He Hk]. destruct (_ || _) eqn:Eg; [done|]. intros [= <-].
  apply orb_false_iff in Eg as [E1 E2]. apply negb_false_iff, Z.eqb_eq in E1, E2. subst.
  rewrite Forall_forall in Hf. by apply Hf.
Qed.

Module ContractInfoExample.
#[local] Existing Instance RefVlq.vlq.
#[local] Existing Instance RefVlq.vlq_laws.

Definition info : ContractInfo :=
  mkContractInfo [] (str "ERC20") (str "0x01") (str "Token") (str "TKN") 18 100 0 false [].

Lemma contract_info_codec_witness : unpackContractInfo (packContractInfo info) = Ok (storedInfo info).
Proof.
  apply (contract_info_codec info). split_and!; [vm_compute; reflexivity|unfold is_i64|unfold is_u32|unfold is_u32]; cbn; lia.
Defined.

(** A name that does not fit is cut before the character that would be split. *)
Example cut_between_characters :
  clampUTF8 (replicate 255 x61 ++ [xc3; xa9]) 256 = replicate 255 x61.
Proof. vm_compute. reflexivity. Qed.

(** An entry of an earlier generation is not found. *)
Example stale_entry_missed :
  let c := foldl run_cache (newContractInfoLRU 2) [CacheAdd [x01] info 1 1] in
  fst (ContractLRU.get [x01] 1 1 c) = Some info /\ fst (ContractLRU.get [x01] 2 1 c) = None.
Proof. vm_compute. split; reflexivity. Qed.
End ContractInfoExample.
