(* ===== verification/EthAliases.v ===== *)
(** Names of addresses of Ethereum-type coins ([db/address_alias_cache.go], the address alias
    support of [db/rocksdb.go], [FormatAddressAlias] of [bchain/coins/eth/ethparser.go]): the
    rows, and a cache of formatted names in front of them.

    [alias_lookup]: after any blocks a lookup answers the name the database holds. *)

From S2P Require Import Prelude Codec Parser TxAddr Balance IndexCodec Store EthParser.

Local Open Scope Z_scope.

Record AddressAliasRecord := mkAlias { aa_Address : bytes; aa_Name : bytes }.

Record addressAliasLRUEntry := mkAliasEntry { ae_key : bytes; ae_value : bytes }.

(** The entries from the most to the least recently used; the map [items] of the code holds
    exactly their keys. A nil cache is [None]. *)
Record addressAliasLRU := mkAliasLRU { al_capacity : Z; al_order : list addressAliasLRUEntry }.

Definition cachedAddressAliasRecordsLRUMaxSize : Z := 100000.

Definition newAddressAliasLRU (capacity : Z) : option addressAliasLRU :=
  if capacity <=? 0 then None else Some (mkAliasLRU capacity []).

Definition al_find (key : bytes) (c : addressAliasLRU) : option addressAliasLRUEntry :=
  find (fun e => bool_decide (ae_key e = key)) (al_order c).
Definition al_remove (key : bytes) (c : addressAliasLRU) : list addressAliasLRUEntry :=
  filter (fun e => ae_key e <> key) (al_order c).

Module AliasLRU.
Definition get (key : bytes) (c : option addressAliasLRU) : option bytes * option addressAliasLRU :=
  match c with
  | None => (None, None)
  | Some c =>
      match al_find key c with
      | None => (None, Some c)
      | Some el => (Some (ae_value el), Some (mkAliasLRU (al_capacity c) (el :: al_remove key c)))
      end
  end.

Definition add (key value : bytes) (c : option addressAliasLRU) : option addressAliasLRU :=
  match c with
  | None => None
  | Some c =>
      let el := mkAliasEntry key value in
      match al_find key c with
      | Some _ => Some (mkAliasLRU (al_capacity c) (el :: al_remove key c))
      | None =>
          let order := el :: al_order c in
          if zlen order <=? al_capacity c then Some (mkAliasLRU (al_capacity c) order)
          else Some (mkAliasLRU (al_capacity c) (take (length order - 1) order))
      end
  end.
End AliasLRU.

(** [UseAddressAliases] and [FormatAddressAlias] of the parser. *)
Class AliasParser := {
  UseAddressAliases : bool;
  FormatAddressAlias : bytes -> bytes -> bytes;
}.

(** [EthereumParser.FormatAddressAlias] *)
Definition ethereumAliases (addressAliases : bool) (ensSuffix : bytes) : AliasParser := {|
  UseAddressAliases := addressAliases;
  FormatAddressAlias := fun address name => name ++ ensSuffix;
|}.

Section Aliases.
Context {AP : AliasParser} {K : KV}.
Implicit Types (d : DB K) (wb : list BatchOp).

(** An error of the read is logged; the name is empty then. *)
Definition GetAddressAlias d (cache : option addressAliasLRU) (address : bytes) : bytes * option addressAliasLRU :=
  match AliasLRU.get address cache with
  | (Some formatted, cache) => (formatted, cache)
  | (None, cache) =>
      match GetCF d cfAddressAliases address with
      | Ok val =>
          let name := valData val in
          if zlen name =? 0 then ([], cache)
          else
            let formatted := FormatAddressAlias address name in
            (formatted, AliasLRU.add address formatted cache)
      | _ => ([], cache)
      end
  end.

(** The body of the loop. *)
Definition storeAlias (s : list BatchOp * option addressAliasLRU) (r : AddressAliasRecord)
    : list BatchOp * option addressAliasLRU :=
  let '(wb, cache) := s in
  if 0 <? zlen (aa_Name r) then
    (wb ++ [PutCF cfAddressAliases (aa_Address r) (aa_Name r)],
     AliasLRU.add (aa_Address r) (FormatAddressAlias (aa_Address r) (aa_Name r)) cache)
  else (wb, cache).

Definition storeAddressAliasRecords wb (cache : option addressAliasLRU) (records : list AddressAliasRecord)
    : list BatchOp * option addressAliasLRU :=
  if UseAddressAliases then foldl storeAlias (wb, cache) records else (wb, cache).
End Aliases.

(** ** The cache cannot be observed *)

Section AliasLaws.
Context {AP : AliasParser} {K : KV} {KL : KVLaws K}.
Implicit Types (d : DB K) (wb : list BatchOp).

(** The name as the database alone gives it. *)
Definition pureAlias d (address : bytes) : bytes :=
  match GetCF d cfAddressAliases address with
  | Ok val => if zlen (valData val) =? 0 then [] else FormatAddressAlias address (valData val)
  | _ => []
  end.

Definition al_entries (c : option addressAliasLRU) : list addressAliasLRUEntry :=
  match c with Some c => al_order c | None => [] end.

(** The cache is bounded, its keys are distinct, its values are those of [f]. *)
Definition alias_ok (capacity : Z) (f : bytes -> bytes) (c : option addressAliasLRU) : Prop :=
  Forall (fun e => ae_value e = f (ae_key e)) (al_entries c) /\
  match c with
  | Some c => al_capacity c = capacity /\ 0 < capacity /\ zlen (al_order c) <= capacity /\ NoDup (map ae_key (al_order c))
  | None => capacity <= 0
  end.

Lemma al_find_Some key c e : al_find key c = Some e -> e ∈ al_order c /\ ae_key e = key.
Proof.
  unfold al_find. intros H. apply find_some in H as [H1 H2]. split; [by apply list_elem_of_In|].
  by apply bool_decide_eq_true in H2.
Qed.

Lemma al_find_None key c : al_find key c = None -> key ∉ map ae_key (al_order c).
Proof.
  unfold al_find. intros H (e & -> & He)%list_elem_of_fmap. apply list_elem_of_In in He.
  pose proof (find_none _ _ H e He) as Hn. cbn in Hn. by rewrite bool_decide_eq_true_2 in Hn.
Qed.

Lemma al_remove_keys key c : map ae_key (al_remove key c) = filter (fun k => k <> key) (map ae_key (al_order c)).
Proof.
  unfold al_remove. induction (al_order c) as [|e l IH]; [done|]. cbn [map]. rewrite !filter_cons.
  destruct (decide (ae_key e <> key)); cbn [map]; by rewrite IH.
Qed.

(** An entry moved to the front, with its value. *)
Lemma al_front_ok n f g c key v : alias_ok n f (Some c) -> v = g key -> key ∈ map ae_key (al_order c) ->
  (forall k, k <> key -> g k = f k) -> alias_ok n g (Some (mkAliasLRU (al_capacity c) (mkAliasEntry key v :: al_remove key c))).
Proof.
  intros (Hf & Hn & Hp & Hl & Hd) Hv Hin Hg. cbn [al_entries] in Hf. split.
  - constructor; [done|]. apply Forall_forall. intros e [He Hin']%list_elem_of_filter. rewrite Hg by done.
    rewrite Forall_forall in Hf. auto.
  - split; [done|]. split; [done|]. cbn [al_order map ae_key]. rewrite al_remove_keys. split.
    + assert (zlen (al_remove key c) + 1 <= zlen (al_order c)); [|rewrite zlen_cons; lia].
      unfold zlen. apply list_elem_of_fmap in Hin as (e & -> & He).
      assert (length (al_remove (ae_key e) c) < length (al_order c))%nat; [|lia]. apply (length_filter_lt _ _ e He). tauto.
    + apply NoDup_cons. split; [|by apply NoDup_filter]. intros [? _]%list_elem_of_filter. done.
Qed.

Lemma alias_add_ok n f g c key v : alias_ok n f c -> v = g key -> (forall k, k <> key -> g k = f k) ->
  alias_ok n g (AliasLRU.add key v c).
Proof.
  destruct c as [c|]; intros Hok Hv Hg; [|by split; [constructor|apply Hok]]. cbn [AliasLRU.add]. destruct (al_find key c) as [e|] eqn:Ef.
  - apply al_find_Some in Ef as [He <-]. eapply al_front_ok; try done. apply list_elem_of_fmap. by exists e.
  - apply al_find_None in Ef. destruct Hok as (Hf & Hn & Hp & Hl & Hd). cbn [al_entries] in Hf.
    assert (Hall : Forall (fun e => ae_value e = g (ae_key e)) (mkAliasEntry key v :: al_order c)).
    { constructor; [done|]. apply Forall_forall. intros e He. rewrite Hg; [rewrite Forall_forall in Hf; auto|].
      intros <-. apply Ef, list_elem_of_fmap. by exists e. }
    assert (Hnd : NoDup (map ae_key (mkAliasEntry key v :: al_order c))) by (by apply NoDup_cons).
    case_match eqn:Ez.
    + split; [exact Hall|]. split_and!; try done. cbn [al_order]. lia.
    + split; [by apply Forall_take|]. split_and!; try done; cbn [al_order].
      * unfold zlen in *. rewrite length_take. cbn [length] in *. lia.
      * change (map ae_key) with (fmap (M := list) ae_key). rewrite fmap_take.
        by eapply sublist_NoDup, sublist_take.
Qed.

Lemma alias_get_ok n f c key o c' : alias_ok n f c -> AliasLRU.get key c = (o, c') ->
  alias_ok n f c' /\ (forall v, o = Some v -> v = f key).
Proof.
  destruct c as [c|]; intros Hok H; [|by injection H as <- <-]. cbn [AliasLRU.get] in H.
  destruct (al_find key c) as [e|] eqn:Ef; injection H as <- <-; [|done].
  apply al_find_Some in Ef as [He <-]. pose proof Hok as (Hf & _). cbn [al_entries] in Hf. rewrite Forall_forall in Hf. split.
  - destruct e as [k v]. cbn [ae_key ae_value] in *. specialize (Hf _ He). cbn in Hf. eapply al_front_ok; try done.
    apply list_elem_of_fmap. by exists (mkAliasEntry k v).
  - intros v [= <-]. auto.
Qed.

Lemma GetAddressAlias_ok n d c address : alias_ok n (pureAlias d) c ->
  (GetAddressAlias d c address).1 = pureAlias d address /\ alias_ok n (pureAlias d) (GetAddressAlias d c address).2.
Proof.
  intros Hok. unfold GetAddressAlias. destruct (AliasLRU.get address c) as [o c'] eqn:Eg.
  destruct (alias_get_ok _ _ _ _ _ _ Hok Eg) as [Hok' Ho]. destruct o as [v|]; [split; [by apply Ho|done]|].
  unfold pureAlias at 1. destruct (GetCF d cfAddressAliases address) as [val| |] eqn:Er; [|done..].
  destruct (zlen (valData val) =? 0) eqn:Ez; [done|]. split; [done|]. eapply alias_add_ok; [done| |done].
  unfold pureAlias. by rewrite Er, Ez.
Qed.

(** The name of an address once the batch is written. *)
Definition aliasAfter d wb (address : bytes) : bytes :=
  match batch_get cfAddressAliases address wb with
  | Some (Some name) => if zlen name =? 0 then [] else FormatAddressAlias address name
  | Some None => []
  | None => pureAlias d address
  end.

Lemma aliasAfter_WriteBatch d wb d' address : (forall k, db_rfault d cfAddressAliases k = false) ->
  WriteBatch wb d = Ok d' -> pureAlias d' address = aliasAfter d wb address.
Proof.
  intros Hr Hw. unfold pureAlias, aliasAfter. rewrite (GetCF_WriteBatch wb d d') by done.
  destruct (batch_get cfAddressAliases address wb) as [[v|]|] eqn:Eb; [done|done|].
  unfold pureAlias, GetCF. by rewrite Hr.
Qed.

Lemma storeAlias_ok n d wb c r : alias_ok n (aliasAfter d wb) c ->
  alias_ok n (aliasAfter d (storeAlias (wb, c) r).1) (storeAlias (wb, c) r).2.
Proof.
  intros Hok. unfold storeAlias. destruct (0 <? zlen (aa_Name r)) eqn:Ez; [|done]. cbn [fst snd].
  assert (zlen (aa_Name r) =? 0 = false) as En by lia.
  eapply alias_add_ok; [exact Hok| |].
  - unfold aliasAfter. rewrite batch_get_app. cbn [batch_get op_cf op_key op_val]. rewrite decide_True by done. by rewrite En.
  - intros k Hk. unfold aliasAfter. rewrite batch_get_app. cbn [batch_get op_cf op_key op_val].
    rewrite decide_False; [done|]. intros [_ ?]. congruence.
Qed.

Lemma storeAliases_ok n d rs wb c : alias_ok n (aliasAfter d wb) c ->
  alias_ok n (aliasAfter d (storeAddressAliasRecords wb c rs).1) (storeAddressAliasRecords wb c rs).2.
Proof.
  unfold storeAddressAliasRecords. destruct UseAddressAliases; [|done]. revert wb c.
  induction rs as [|r rs IH]; intros wb c Hok; [done|]. cbn [foldl]. pose proof (storeAlias_ok n d wb c r Hok) as H.
  destruct (storeAlias (wb, c) r) as [wb' c']. by apply IH.
Qed.

(** ** Sequences of calls *)

Inductive alias_op := AliasGet (address : bytes) | AliasBlock (records : list AddressAliasRecord).

(** A lookup, or a block whose records are stored and whose batch is written. *)
Definition aliasStep (s : DB K * option addressAliasLRU) (o : alias_op) : DB K * option addressAliasLRU :=
  let '(d, c) := s in
  match o with
  | AliasGet a => (d, (GetAddressAlias d c a).2)
  | AliasBlock rs =>
      let '(wb, c) := storeAddressAliasRecords [] c rs in
      match WriteBatch wb d with Ok d => (d, c) | _ => (d, c) end
  end.

Lemma aliasStep_ok n d c o : (forall k, db_rfault d cfAddressAliases k = false) -> db_wfault d = false ->
  alias_ok n (pureAlias d) c ->
  let '(d', c') := aliasStep (d, c) o in
  (forall k, db_rfault d' cfAddressAliases k = false) /\ db_wfault d' = false /\ alias_ok n (pureAlias d') c'.
Proof.
  intros Hr Hw Hok. destruct o as [a|rs]; cbn [aliasStep].
  - split_and!; try done. by apply GetAddressAlias_ok.
  - pose proof (storeAliases_ok n d rs [] c Hok) as H. destruct (storeAddressAliasRecords [] c rs) as [wb c']. cbn [fst snd] in H.
    destruct (WriteBatch wb d) as [d'| |] eqn:Ew; [|unfold WriteBatch in Ew; by rewrite Hw in Ew..].
    pose proof (fun a => aliasAfter_WriteBatch d wb d' a Hr Ew) as Ha. unfold WriteBatch in Ew. rewrite Hw in Ew.
    injection Ew as <-. split_and!; try done. destruct H as [Hf Hrest]. split; [|exact Hrest].
    eapply Forall_impl; [exact Hf|]. intros e He. by rewrite Ha.
Qed.

(** Names of addresses: on a database without faults, after any sequence of lookups and of
    blocks that register names, with a cache of any capacity, the cache holds at most its
    capacity of entries and a lookup answers the formatted name of the row of the address, the
    empty name when there is none. *)
Theorem alias_lookup capacity ops d address :
  (forall k, db_rfault d cfAddressAliases k = false) -> db_wfault d = false ->
  let '(d', c) := foldl aliasStep (d, newAddressAliasLRU capacity) ops in
  (GetAddressAlias d' c address).1 = pureAlias d' address /\ zlen (al_entries c) <= Z.max 0 capacity.
Proof.
  intros Hr Hw. assert (Hok : alias_ok capacity (pureAlias d) (newAddressAliasLRU capacity)).
  { unfold newAddressAliasLRU. case_match; (split; [by constructor|]); [lia|].
    split_and!; [done|lia|unfold zlen; cbn; lia|apply NoDup_nil_2]. }
  revert Hok. generalize (newAddressAliasLRU capacity). revert d Hr Hw.
  induction ops as [|o ops IH]; intros d Hr Hw c Hok.
  - cbn [foldl]. split; [by apply (GetAddressAlias_ok capacity)|]. destruct Hok as [_ Hc]. destruct c; cbn [al_entries].
    + destruct Hc as (_ & ? & ? & _). lia.
    + rewrite zlen_nil. lia.
  - cbn [foldl]. pose proof (aliasStep_ok capacity d c o Hr Hw Hok) as H. destruct (aliasStep (d, c) o) as [d' c'].
    destruct H as (Hr' & Hw' & Hok'). by apply IH.
Qed.
End AliasLaws.

Module AliasExample.
#[local] Existing Instances MapKV.map_kv MapKV.map_kv_laws.
Definition aliases : AliasParser := ethereumAliases true (str ".eth").
#[local] Existing Instance aliases.

Definition noRows : DB MapKV.map_kv := mkDB MapKV.map_kv (fun _ => ∅) (fun _ _ => false) false.
Definition calls : list alias_op :=
  [AliasBlock [mkAlias (str "0x1") (str "one"); mkAlias (str "0x2") (str "two")]; AliasGet (str "0x1");
   AliasBlock [mkAlias (str "0x1") (str "uno"); mkAlias (str "0x2") []]].

Lemma alias_lookup_witness :
  let '(d', c) := foldl aliasStep (noRows, newAddressAliasLRU 1) calls in
  (GetAddressAlias d' c (str "0x1")).1 = pureAlias d' (str "0x1") /\ zlen (al_entries c) <= Z.max 0 1.
Proof. by apply (alias_lookup 1 calls noRows (str "0x1")). Defined.

Example renamed :
  let '(d', c) := foldl aliasStep (noRows, newAddressAliasLRU 1) calls in
  (GetAddressAlias d' c (str "0x1")).1 = str "uno.eth" /\ (GetAddressAlias d' c (str "0x2")).1 = str "two.eth".
Proof. vm_compute. split; reflexivity. Qed.
End AliasExample.
