(* ===== verification/EthState.v ===== *)
(** The state that processing of Ethereum-type blocks works on, and the monad of its code.

    The code threads the maps of the block, the cache of address contracts, the tracker of hot
    addresses, the registry of contracts, the names of addresses and the database (a cache over its limit is written
    out in the middle of a block) through calls that may fail; objects are changed in place, so
    what a failing call has changed stays changed. This is the monad [EthM]: a state, and a
    result that may be an error. *)

From S2P Require Import Prelude Codec Parser TxAddr Balance IndexCodec Store GoSort EthTokens EthContracts EthIndex EthParser EthRows EthContractInfo EthAliases.

Local Open Scope Z_scope.

(** The cache of contracts, and the counters of reorganisations and of changed protocols. *)
Record Registry := mkRegistry {
  rg_cachedContracts : option contractInfoLRU;
  rg_reorgGen : Z;
  rg_protocolGen : Z;
}.

Record EthState {K : KV} := mkEthState {
  es_addresses : gmap bytes (list txIndexes);
  es_addressContracts : gmap bytes unpackedAddrContracts;
  es_cache : gmap bytes unpackedAddrContracts;
  es_cacheBytes : Z;
  es_hot : option addressHotness;
  es_db : DB K;
  es_registry : Registry;
  es_aliases : option addressAliasLRU;
}.
Arguments EthState : clear implicits.
Arguments EthState K : assert.

(** ** The monad *)

Definition EthM (K : KV) (A : Type) : Type := EthState K -> result A * EthState K.

#[export] Instance EthM_ret (K : KV) : MRet (EthM K) := fun A a st => (Ok a, st).
#[export] Instance EthM_bind (K : KV) : MBind (EthM K) := fun A B k m st =>
  match m st with
  | (Ok a, st) => k a st
  | (Err e, st) => (Err e, st)
  | (Panic, st) => (Panic, st)
  end.

Lemma bind_ok {K : KV} {A B} (m : EthM K A) (k : A -> EthM K B) st a st' : m st = (Ok a, st') -> (m ≫= k) st = k a st'.
Proof. unfold mbind, EthM_bind. by intros ->. Qed.

(** [for _, x := range l { ...; if err != nil { return err } }], collecting what the body
    returns. *)
Fixpoint mmap {K : KV} {A B} (f : A -> EthM K B) (l : list A) : EthM K (list B) :=
  match l with
  | [] => mret []
  | x :: r => y ← f x; ys ← mmap f r; mret (y :: ys)
  end.

Section EthState.
Context {K : KV}.
Implicit Types (st : EthState K).

Definition liftR {A} (r : result A) : EthM K A := fun st => (r, st).

Definition with_addresses m st : EthState K :=
  mkEthState K m (es_addressContracts st) (es_cache st) (es_cacheBytes st) (es_hot st) (es_db st) (es_registry st) (es_aliases st).
Definition with_contracts m st : EthState K :=
  mkEthState K (es_addresses st) m (es_cache st) (es_cacheBytes st) (es_hot st) (es_db st) (es_registry st) (es_aliases st).
Definition with_cache m b st : EthState K :=
  mkEthState K (es_addresses st) (es_addressContracts st) m b (es_hot st) (es_db st) (es_registry st) (es_aliases st).
Definition with_hot h st : EthState K :=
  mkEthState K (es_addresses st) (es_addressContracts st) (es_cache st) (es_cacheBytes st) h (es_db st) (es_registry st) (es_aliases st).
Definition with_db d st : EthState K :=
  mkEthState K (es_addresses st) (es_addressContracts st) (es_cache st) (es_cacheBytes st) (es_hot st) d (es_registry st) (es_aliases st).

Definition with_registry r st : EthState K :=
  mkEthState K (es_addresses st) (es_addressContracts st) (es_cache st) (es_cacheBytes st) (es_hot st) (es_db st) r (es_aliases st).
Definition with_aliases a st : EthState K :=
  mkEthState K (es_addresses st) (es_addressContracts st) (es_cache st) (es_cacheBytes st) (es_hot st) (es_db st) (es_registry st) a.

Definition modifyM (f : EthState K -> EthState K) : EthM K unit := fun st => (Ok tt, f st).
Definition gets {A} (f : EthState K -> A) : EthM K A := fun st => (Ok (f st), st).

(** [d.WriteBatch(wb)] on the database of the state. *)
Definition writeBatchM (wb : list BatchOp) : EthM K unit := fun st =>
  match WriteBatch wb (es_db st) with
  | Ok d => (Ok tt, with_db d st)
  | Err e => (Err e, st)
  | Panic => (Panic, st)
  end.
End EthState.
