(* ===== verification/EthRegistry.v ===== *)
(** The operations of the registry of contracts ([db/rocksdb_contracts.go],
    [db/rocksdb_protocols.go] and the rollback of rows in [db/rocksdb_ethereumtype.go]): contracts
    are read through a cache, stored with the block that creates or destroys them, corrected by
    blocks whose internal data arrived late, and rolled back with their block. *)

From S2P Require Import Prelude Codec Parser TxAddr Balance IndexCodec Store GoSort EthTokens EthContracts EthIndex EthParser EthRows EthContractInfo EthAliases EthState.

Local Open Scope Z_scope.

(** The pending rows of a disconnected range; [None] deletes the row. *)
Record contractRegistryRollback := mkRollback {
  rb_rows : gmap bytes (option ContractInfo);
  rb_destroyedAt : gmap bytes Z;
}.

Definition newContractRegistryRollback : contractRegistryRollback := mkRollback ∅ ∅.

Section EthRegistry.
Context {V : Vlq} {E : EthChainParser} {K : KV}.

Definition readCF (cf : CF) (key : bytes) : EthM K bytes :=
  d ← gets es_db;
  val ← liftR (GetCF d cf key);
  mret (valData val).

(** [cachedContracts.delete(key)] *)
Definition uncache (key : bytes) : EthM K unit :=
  modifyM (fun st =>
    let r := es_registry st in
    with_registry (mkRegistry (ContractLRU.delete key (rg_cachedContracts r)) (rg_reorgGen r) (rg_protocolGen r)) st).

Definition bumpProtocolGen : EthM K unit :=
  modifyM (fun st =>
    let r := es_registry st in
    with_registry (mkRegistry (rg_cachedContracts r) (rg_reorgGen r) (u64 (rg_protocolGen r + 1))) st).

(** ** Protocols *)

Definition GetErcProtocol (addrDesc : bytes) (protocolID : byte) : EthM K (option (bytes * Z)) :=
  if zlen addrDesc =? 0 then mret None
  else
    buf ← readCF cfErcProtocols (protocolByContractKey protocolID addrDesc);
    if zlen buf =? 0 then mret None
    else
      r ← liftR (unpackErcProtocolValue buf);
      mret (match r with Some (h, p) => Some (p, h) | None => None end).

Definition GetContractInfoErc4626Vault (contract : bytes) : EthM K (option bytes) :=
  r ← GetErcProtocol contract ErcProtocolErc4626;
  mret (match r with
        | None => None
        | Some (payload, _) => match unpackStringSafe payload with Some (asset, _) => Some asset | None => None end
        end).

Definition SetErcProtocol (addrDesc : bytes) (protocolID : byte) (payload : bytes) (persistHeight : Z)
    (observedBlockHash : bytes) (observedReorgGen : Z) : EthM K unit :=
  if (zlen addrDesc =? 0) || (persistHeight =? 0) then mret tt
  else
    r ← gets es_registry;
    if negb (rg_reorgGen r =? observedReorgGen) then mret tt
    else
      d ← gets es_db;
      same ← (if bool_decide (observedBlockHash = []) then mret true
              else
                currentHash ← liftR (GetBlockHash d persistHeight);
                mret (bool_decide (currentHash = observedBlockHash)));
      if negb same then mret tt
      else
        let byContract := protocolByContractKey protocolID addrDesc in
        buf ← readCF cfErcProtocols byContract;
        existing ← (if 0 <? zlen buf then liftR (unpackErcProtocolValue buf) else mret None);
        match existing with
        | Some _ => uncache addrDesc
        | None =>
            _ ← writeBatchM [PutCF cfErcProtocols byContract (packErcProtocolValue persistHeight payload);
                             PutCF cfErcProtocols (protocolByHeightKey protocolID persistHeight addrDesc) []];
            _ ← bumpProtocolGen;
            uncache addrDesc
        end.

Definition SetContractInfoErc4626Vault (address assetContract : bytes) (persistHeight : Z) (observedBlockHash : bytes)
    (observedReorgGen : Z) : EthM K unit :=
  contract ← liftR (GetAddrDescFromAddress address);
  if zlen contract =? 0 then mret tt
  else SetErcProtocol contract ErcProtocolErc4626 (packString assetContract) persistHeight observedBlockHash observedReorgGen.

(** The loop over the rows by height. *)
Fixpoint disconnectProtocolRows (protocolID : byte) (endKey : bytes) (rows : list (bytes * bytes)) (wb : list BatchOp)
    : EthM K (list BatchOp) :=
  match rows with
  | [] => mret wb
  | (key, _) :: r =>
      match bytes_compare key endKey with
      | Lt =>
          if zlen key <=? 6 then disconnectProtocolRows protocolID endKey r wb
          else
            let addrDesc := drop 6 key in
            let wb := wb ++ [DeleteCF cfErcProtocols (protocolByContractKey protocolID addrDesc); DeleteCF cfErcProtocols key] in
            _ ← uncache addrDesc;
            disconnectProtocolRows protocolID endKey r wb
      | _ => mret wb
      end
  end.

Definition disconnectErcProtocolRange (wb : list BatchOp) (protocolID : byte) (lower higher : Z) : EthM K (list BatchOp) :=
  let startKey := [ercProtocolKeyByHeight; protocolID] ++ packUint lower in
  let endKey := [ercProtocolKeyByHeight; protocolID] ++ packUint (u32 (higher + 1)) in
  d ← gets es_db;
  disconnectProtocolRows protocolID endKey (seek startKey (kv_list (db_cf d cfErcProtocols))) wb.

Definition disconnectErcProtocols (wb : list BatchOp) (lower higher : Z) : EthM K (list BatchOp) :=
  disconnectErcProtocolRange wb ErcProtocolErc4626 lower higher.

(** ** Reading a contract *)

(** [addresses, _, _ := d.chainParser.GetAddressesFromAddrDesc(contract)], the first one set. *)
Definition withAddressOf (contract : bytes) (ci : ContractInfo) : result ContractInfo :=
  match GetAddressesFromAddrDesc contract with
  | Ok (a :: _) => Ok (set_Contract a ci)
  | Ok [] | Err _ => Ok ci
  | Panic => Panic
  end.

Definition setStandardFromContext (contract : bytes) (standardFromContext : bytes) (ci : ContractInfo) : EthM K ContractInfo :=
  if negb (bool_decide (standardFromContext = UnknownTokenStandard)) && bool_decide (ci_Standard ci = UnknownTokenStandard)
  then
    let ci := set_Standard standardFromContext ci in
    _ ← writeBatchM [PutCF cfContracts contract (packContractInfo ci)];
    mret ci
  else mret ci.

(** The contract as it is read from the database. *)
Definition loadContractInfo (contract : bytes) (standardFromContext : bytes) : EthM K (option ContractInfo) :=
  buf ← readCF cfContracts contract;
  if zlen buf =? 0 then mret None
  else
    ci ← liftR (unpackContractInfo buf);
    ci ← liftR (withAddressOf contract ci);
    ci ← setStandardFromContext contract standardFromContext ci;
    vault ← GetContractInfoErc4626Vault contract;
    mret (Some (match vault with Some asset => set_Erc4626 asset ci | None => ci end)).

Definition GetContractInfo (contract : bytes) (standardFromContext : bytes) : EthM K (option ContractInfo) :=
  r ← gets es_registry;
  let '(cached, lru) := ContractLRU.get contract (rg_reorgGen r) (rg_protocolGen r) (rg_cachedContracts r) in
  _ ← modifyM (with_registry (mkRegistry lru (rg_reorgGen r) (rg_protocolGen r)));
  match cached with
  | Some ci => mret (Some ci)
  | None =>
      loaded ← loadContractInfo contract standardFromContext;
      match loaded with
      | None => mret None
      | Some ci =>
          _ ← modifyM (fun st =>
                 let r' := es_registry st in
                 with_registry (mkRegistry (ContractLRU.add contract ci (rg_reorgGen r) (rg_protocolGen r) (rg_cachedContracts r'))
                                  (rg_reorgGen r') (rg_protocolGen r')) st);
          mret (Some ci)
      end
  end.

Definition GetContractInfoForAddress (address : bytes) : EthM K (option ContractInfo) :=
  contract ← liftR (GetAddrDescFromAddress address);
  if zlen contract =? 0 then mret None else GetContractInfo contract [].

(** ** Storing a contract *)

(** The batch and the rows already written to it; [None] when they are not kept. *)
Definition storeContractInfo (wb : list BatchOp) (contractInfo : ContractInfo) (inBatch : option (gmap bytes ContractInfo))
    : EthM K (list BatchOp * option (gmap bytes ContractInfo)) :=
  if bool_decide (ci_Contract contractInfo = []) then mret (wb, inBatch)
  else
    key ← liftR (GetAddrDescFromAddress (ci_Contract contractInfo));
    stored ← (if (ci_CreatedInBlock contractInfo =? 0) && negb (ci_DestructedInBlock contractInfo =? 0) then
                storedCI ← (match inBatch ≫= lookup key with
                            | Some ci => mret (Some ci)
                            | None => GetContractInfo key []
                            end);
                mret (set_DestructedInBlock (ci_DestructedInBlock contractInfo) <$> storedCI)
              else mret (Some contractInfo));
    match stored with
    | None => mret (wb, inBatch)
    | Some ci =>
        _ ← uncache key;
        mret (wb ++ [PutCF cfContracts key (packContractInfo ci)], <[key := ci]> <$> inBatch)
    end.

Definition StoreContractInfo (contractInfo : ContractInfo) : EthM K unit :=
  '(wb, _) ← storeContractInfo [] contractInfo None;
  writeBatchM wb.

(** [for i := range blockSpecificData.Contracts { ... }] *)
Fixpoint storeContractInfos (wb : list BatchOp) (contracts : list ContractInfo) (inBatch : gmap bytes ContractInfo)
    : EthM K (list BatchOp) :=
  match contracts with
  | [] => mret wb
  | ci :: r =>
      '(wb, inBatch') ← storeContractInfo wb ci (Some inBatch);
      storeContractInfos wb r (default inBatch inBatch')
  end.

(** ** Healed blocks *)

Definition healedContractInfo (addrDesc : bytes) : EthM K ContractInfo :=
  stored ← GetContractInfo addrDesc [];
  match stored with
  | Some ci => mret ci
  | None =>
      liftR (withAddressOf addrDesc
        (mkContractInfo UnhandledTokenStandard UnhandledTokenStandard [] [] [] 0 0 0 false []))
  end.

Definition healCreation (createdInBlock : Z) (e : ContractInfo * bool) : ContractInfo * bool :=
  if createdInBlock =? 0 then e
  else match applyHealedCreation e.1 createdInBlock with Some ci => (ci, true) | None => e end.

Definition healDestruction (destructedInBlock : Z) (e : ContractInfo * bool) : ContractInfo * bool :=
  if destructedInBlock =? 0 then e
  else match applyHealedDestruction e.1 destructedInBlock with Some ci => (ci, true) | None => e end.

(** The loop over the records: the healed contracts (with the flag [changed]) and the order of
    their first records. *)
Fixpoint healRecords (contracts : list ContractInfo) (healed : gmap bytes (ContractInfo * bool)) (order : list bytes)
    : EthM K (gmap bytes (ContractInfo * bool) * list bytes) :=
  match contracts with
  | [] => mret (healed, order)
  | ci :: r =>
      if bool_decide (ci_Contract ci = []) then healRecords r healed order
      else
        addrDesc ← liftR (GetAddrDescFromAddress (ci_Contract ci));
        if zlen addrDesc =? 0 then healRecords r healed order
        else
          '(hc, order) ← (match healed !! addrDesc with
                          | Some hc => mret (hc, order)
                          | None => contractInfo ← healedContractInfo addrDesc; mret ((contractInfo, false), order ++ [addrDesc])
                          end);
          let hc := healDestruction (ci_DestructedInBlock ci) (healCreation (ci_CreatedInBlock ci) hc) in
          healRecords r (<[addrDesc := hc]> healed) order
  end.

(** The loop over [order]. *)
Fixpoint storeHealed (wb : list BatchOp) (healed : gmap bytes (ContractInfo * bool)) (order : list bytes) : EthM K (list BatchOp) :=
  match order with
  | [] => mret wb
  | key :: r =>
      match healed !! key with
      | Some (ci, true) =>
          _ ← uncache key;
          storeHealed (wb ++ [PutCF cfContracts key (packContractInfo ci)]) healed r
      | _ => storeHealed wb healed r
      end
  end.

Definition storeHealedContractInfos (wb : list BatchOp) (contracts : list ContractInfo) : EthM K (list BatchOp) :=
  '(healed, order) ← healRecords contracts ∅ [];
  storeHealed wb healed order.

(** ** Listing and deleting *)

(** The loop over the iterator; the page and the address the next page starts at. *)
Fixpoint listLoop (limit : Z) (rows : list (bytes * bytes)) (contracts : list ContractInfo) : result (list ContractInfo * bytes) :=
  match rows with
  | [] => Ok (contracts, [])
  | (key, val) :: r =>
      let! addresses := GetAddressesFromAddrDesc key in
      match addresses with
      | [] => Err (ErrMsg "no address for contract descriptor")
      | a :: _ =>
          if zlen contracts =? limit then Ok (contracts, a)
          else
            let! contractInfo := unpackContractInfo val in
            listLoop limit r (contracts ++ [set_Contract a contractInfo])
      end
  end.

Definition ListContractInfos (from : bytes) (limit : Z) : EthM K (list ContractInfo * bytes) :=
  start ← (if bool_decide (from = []) then mret None
           else s ← liftR (GetAddrDescFromAddress from); mret (Some s));
  d ← gets es_db;
  let rows := kv_list (db_cf d cfContracts) in
  let rows := match start with Some s => seek s rows | None => rows end in
  if limit <? 0 then liftR Panic else liftR (listLoop limit rows []).

Definition DeleteContractInfoForAddress (address : bytes) : EthM K (option ContractInfo) :=
  contract ← liftR (GetAddrDescFromAddress address);
  buf ← readCF cfContracts contract;
  if zlen buf =? 0 then mret None
  else
    ci ← liftR (unpackContractInfo buf);
    purged ← liftR (withAddressOf contract ci);
    _ ← writeBatchM [DeleteCF cfContracts contract];
    _ ← bumpProtocolGen;
    _ ← uncache contract;
    mret (Some purged).

(** ** Rolling back a block *)

Definition rollbackContractRegistryRow (addrDesc : bytes) (height : Z) (destroyed : bool) (rollback : contractRegistryRollback)
    : EthM K contractRegistryRollback :=
  ci ← (match rb_rows rollback !! addrDesc with
        | Some ci => mret ci
        | None => GetContractInfo addrDesc []
        end);
  match ci with
  | None => mret rollback
  | Some ci =>
      mret
        (if destroyed then
           let rollback := mkRollback (rb_rows rollback) (<[addrDesc := height]> (rb_destroyedAt rollback)) in
           if ci_DestructedInBlock ci =? height
           then mkRollback (<[addrDesc := Some (set_DestructedInBlock 0 ci)]> (rb_rows rollback)) (rb_destroyedAt rollback)
           else rollback
         else if ci_CreatedInBlock ci =? height then
           if bool_decide (rb_destroyedAt rollback !! addrDesc = Some height) then rollback
           else mkRollback (<[addrDesc := None]> (rb_rows rollback)) (rb_destroyedAt rollback)
         else rollback)
  end.

(** [for key, ci := range registryRollback.rows { ... }] *)
Definition storeRollback (wb : list BatchOp) (rollback : contractRegistryRollback) : list BatchOp :=
  wb ++ map (fun e => match e.2 with
                      | None => DeleteCF cfContracts e.1
                      | Some ci => PutCF cfContracts e.1 (packContractInfo ci)
                      end) (map_to_list (rb_rows rollback)).
End EthRegistry.

(** ** The cache cannot be observed *)

Section RegistryCoherent.
Context {V : Vlq} {E : EthChainParser} {K : KV} {KL : KVLaws K}.
Implicit Types (st : EthState K) (d : DB K).

(** A contract as it is read without the cache. *)
Definition pureVault d (contract : bytes) : result (option bytes) :=
  if zlen contract =? 0 then Ok None
  else
    let! val := GetCF d cfErcProtocols (protocolByContractKey ErcProtocolErc4626 contract) in
    let buf := valData val in
    if zlen buf =? 0 then Ok None
    else
      let! r := unpackErcProtocolValue buf in
      Ok (match r with
          | None => None
          | Some (_, p) => match unpackStringSafe p with Some (asset, _) => Some asset | None => None end
          end).

Definition pureLoad d (contract : bytes) : result (option ContractInfo) :=
  let! val := GetCF d cfContracts contract in
  let buf := valData val in
  if zlen buf =? 0 then Ok None
  else
    let! ci := unpackContractInfo buf in
    let! ci := withAddressOf contract ci in
    let! vault := pureVault d contract in
    Ok (Some (match vault with Some asset => set_Erc4626 asset ci | None => ci end)).

Lemma vault_pure contract st : GetContractInfoErc4626Vault contract st = (pureVault (es_db st) contract, st).
Proof.
  unfold GetContractInfoErc4626Vault, GetErcProtocol, pureVault, readCF, mbind, EthM_bind, gets, liftR, mret, EthM_ret.
  destruct (zlen contract =? 0); [done|].
  destruct (GetCF _ _ _) as [val| |]; cbn [rbind]; [|done..].
  destruct (zlen (valData val) =? 0); [done|]. destruct (unpackErcProtocolValue _) as [[[h p]|]| |]; cbn [rbind]; done.
Qed.

Lemma load_pure contract st : loadContractInfo contract [] st = (pureLoad (es_db st) contract, st).
Proof.
  unfold loadContractInfo, pureLoad, readCF, setStandardFromContext.
  rewrite (bool_decide_eq_true_2 ([] = UnknownTokenStandard)) by done. cbn [negb andb].
  unfold mbind, EthM_bind, gets, liftR, mret, EthM_ret.
  destruct (GetCF _ _ _) as [val| |]; cbn [rbind]; [|done..]. destruct (zlen (valData val) =? 0); [done|].
  destruct (unpackContractInfo _) as [ci| |]; cbn [rbind]; [|done..].
  destruct (withAddressOf contract ci) as [ci'| |]; cbn [rbind]; [|done..].
  rewrite vault_pure. by destruct (pureVault _ _).
Qed.

Definition same_rows d d' (contract : bytes) : Prop :=
  GetCF d' cfContracts contract = GetCF d cfContracts contract /\
  GetCF d' cfErcProtocols (protocolByContractKey ErcProtocolErc4626 contract)
    = GetCF d cfErcProtocols (protocolByContractKey ErcProtocolErc4626 contract).

Lemma pureLoad_same d d' contract : same_rows d d' contract -> pureLoad d' contract = pureLoad d contract.
Proof. intros [H1 H2]. unfold pureLoad, pureVault. by rewrite H1, H2. Qed.

(** Entries are not newer than the generations, and those of the present ones are what the
    database holds. *)
Definition entry_coherent d (r : Registry) (e : contractInfoLRUEntry) : Prop :=
  le_reorgGen e <= rg_reorgGen r /\ le_protocolGen e <= rg_protocolGen r /\
  (le_reorgGen e = rg_reorgGen r -> le_protocolGen e = rg_protocolGen r -> pureLoad d (le_key e) = Ok (Some (le_value e))).

Definition lru_entries (c : option contractInfoLRU) : list contractInfoLRUEntry :=
  match c with Some c => cl_order c | None => [] end.

Definition coherent st : Prop :=
  Forall (entry_coherent (es_db st) (es_registry st)) (lru_entries (rg_cachedContracts (es_registry st))).

Lemma get_entries key r p c : Forall (fun e => e ∈ lru_entries c) (lru_entries (snd (ContractLRU.get key r p c))).
Proof.
  destruct c as [c|]; [|constructor]. cbn [ContractLRU.get].
  destruct (cl_find key c) as [e|] eqn:Ef; [|apply Forall_forall; done]. apply cl_find_Some in Ef as [He _].
  assert (Forall (fun e => e ∈ cl_order c) (cl_remove key c)) as Hr.
  { apply Forall_forall. intros x Hx. by apply list_elem_of_filter in Hx as [_ Hx]. }
  destruct (_ || _); [exact Hr|]. by constructor.
Qed.

Lemma add_entries key v r p c :
  Forall (fun e => e = mkLRUEntry key v r p \/ e ∈ lru_entries c) (lru_entries (ContractLRU.add key v r p c)).
Proof.
  destruct c as [c|]; [|constructor]. cbn [ContractLRU.add]. destruct (cl_find key c).
  - constructor; [by left|]. apply Forall_forall. intros x Hx. apply list_elem_of_filter in Hx as [_ Hx]. by right.
  - assert (Forall (fun e => e = mkLRUEntry key v r p \/ e ∈ cl_order c) (mkLRUEntry key v r p :: cl_order c)) as Hall.
    { constructor; [by left|]. apply Forall_forall. intros x Hx. by right. }
    destruct (_ <=? _); [done|]. by apply Forall_take.
Qed.

Lemma delete_entries key c :
  Forall (fun e => e ∈ lru_entries c /\ le_key e <> key) (lru_entries (ContractLRU.delete key c)).
Proof.
  destruct c as [c|]; [|constructor]. apply Forall_forall. intros x Hx. by apply list_elem_of_filter in Hx as [? ?].
Qed.

Lemma Forall_in {A} (P : A -> Prop) (Q : A -> Prop) l l' :
  Forall P l -> (forall x, Q x -> x ∈ l) -> Forall Q l' -> Forall P l'.
Proof. intros HP HQ Hl. eapply Forall_impl; [exact Hl|]. intros x Hx. rewrite Forall_forall in HP. auto. Qed.

(** With a coherent cache a lookup answers what the database holds and changes the cache only,
    where it may leave an entry of the contract. *)
Definition looked_up (contract : bytes) st (r' : Registry) : Prop :=
  coherent (with_registry r' st)
  /\ rg_reorgGen r' = rg_reorgGen (es_registry st)
  /\ rg_protocolGen r' = rg_protocolGen (es_registry st)
  /\ Forall (fun e => le_key e = contract \/ e ∈ lru_entries (rg_cachedContracts (es_registry st))) (lru_entries (rg_cachedContracts r')).

Lemma GetContractInfo_coherent contract st : coherent st ->
  exists r', GetContractInfo contract [] st = (pureLoad (es_db st) contract, with_registry r' st) /\ looked_up contract st r'.
Proof.
  intros Hc. unfold GetContractInfo. unfold mbind at 1, EthM_bind at 1, gets.
  set (r := es_registry st).
  destruct (ContractLRU.get contract (rg_reorgGen r) (rg_protocolGen r) (rg_cachedContracts r)) as [cached lru] eqn:Eg.
  pose proof (get_entries contract (rg_reorgGen r) (rg_protocolGen r) (rg_cachedContracts r)) as He. rewrite Eg in He. cbn [snd] in He.
  set (r1 := mkRegistry lru (rg_reorgGen r) (rg_protocolGen r)). set (st1 := with_registry r1 st).
  assert (Hc1 : coherent st1) by (eapply (Forall_in _ _ _ _ Hc); [|exact He]; done).
  assert (Hl1 : looked_up contract st r1).
  { split_and!; [done|done|done|]. eapply Forall_impl; [exact He|]. intros e. by right. }
  unfold mbind at 1, EthM_bind at 1, modifyM at 1. fold st1. destruct cached as [ci|].
  - exists r1. split; [|done]. unfold mret, EthM_ret. f_equal. symmetry.
    destruct (rg_cachedContracts r) as [c|] eqn:Ec; [|discriminate Eg]. cbn [ContractLRU.get] in Eg.
    destruct (cl_find contract c) as [e|] eqn:Ef; [|discriminate Eg]. destruct (_ || _) eqn:Em; [discriminate Eg|].
    injection Eg as <- _. apply orb_false_iff in Em as [E1 E2]. apply negb_false_iff, Z.eqb_eq in E1, E2.
    apply cl_find_Some in Ef as [Hin <-]. unfold coherent in Hc. fold r in Hc. rewrite Ec in Hc. cbn in Hc.
    rewrite Forall_forall in Hc. destruct (Hc e Hin) as (_ & _ & H). by apply H.
  - unfold mbind at 1, EthM_bind at 1. rewrite load_pure. change (es_db st1) with (es_db st).
    destruct (pureLoad (es_db st) contract) as [[ci|]|e|] eqn:El; [|by exists r1..].
    eexists. split; [reflexivity|]. pose proof (add_entries contract ci (rg_reorgGen r) (rg_protocolGen r) lru) as Ha.
    split_and!; [|done|done|].
    + eapply Forall_impl; [exact Ha|]. intros x [->|Hx]; [split_and!; cbn; [lia|lia|done]|].
      unfold coherent in Hc1. rewrite Forall_forall in Hc1. by apply Hc1.
    + eapply Forall_impl; [exact Ha|]. intros x [->|Hx]; [by left|]. right. rewrite Forall_forall in He. by apply He.
Qed.
End RegistryCoherent.
