(* ===== verification/EthRegistryCorrect.v ===== *)
(** The cache of the contract registry cannot be observed: after any calls that look up contracts (also those that complete
    the standard of a contract), store them one by one or with a block, correct or delete them or record protocols,
    whether the calls succeed or fail, a lookup answers what the rows of the database say ([registry_cache_transparent]).

    The proofs are triples over the operations ([triple]): what holds after a call that
    returned, and after one that failed. *)

From S2P Require Import Prelude Codec Parser TxAddr Balance IndexCodec Store GoSort EthTokens EthContracts EthIndex EthParser EthRows EthContractInfo EthAliases EthState EthRegistry.

Local Open Scope Z_scope.

Section RegistryCorrect.
Context {V : Vlq} {VL : VlqLaws V} {E : EthChainParser} {K : KV} {KL : KVLaws K}.
Implicit Types (st : EthState K) (d : DB K).

(** [P] before, [Q] after a call that returned, [R] after one that failed. *)
Definition triple {A} (P : EthState K -> Prop) (m : EthM K A) (Q : A -> EthState K -> Prop) (R : EthState K -> Prop) : Prop :=
  forall st, P st -> match m st with (Ok a, st') => Q a st' | (_, st') => R st' end.

Lemma triple_bind {A B} P (m : EthM K A) (k : A -> EthM K B) Q R S :
  triple P m Q R -> (forall a, triple (Q a) (k a) S R) -> triple P (m ≫= k) S R.
Proof.
  intros Hm Hk st HP. specialize (Hm st HP). unfold mbind, EthM_bind. destruct (m st) as [[a| |] st']; [|done..].
  by apply Hk.
Qed.

Lemma triple_ret {A} P (a : A) (Q : A -> EthState K -> Prop) R : (forall st, P st -> Q a st) -> triple P (mret a) Q R.
Proof. intros H st HP. by apply H. Qed.

Lemma triple_gets {A} P (f : EthState K -> A) R : triple P (gets f) (fun _ => P) R.
Proof. by intros st HP. Qed.

Lemma triple_lift {A} P (r : result A) : triple P (liftR r) (fun _ => P) P.
Proof. intros st HP. by destruct r. Qed.

Lemma triple_conseq {A} P P' (m : EthM K A) Q Q' R R' :
  triple P' m Q' R' -> (forall st, P st -> P' st) -> (forall a st, Q' a st -> Q a st) -> (forall st, R' st -> R st) ->
  triple P m Q R.
Proof. intros H HP HQ HR st Hst. specialize (H st (HP st Hst)). destruct (m st) as [[]]; auto. Qed.

(** ** Rows *)

Definition cached st : list contractInfoLRUEntry := lru_entries (rg_cachedContracts (es_registry st)).

(** A row that can be read at all is as the code writes rows: its texts are cut. (Damaged rows that cannot be read are allowed.) *)
Definition row_ok (buf : bytes) : Prop := forall ci, unpackContractInfo buf = Ok ci -> ci_ok ci /\ storedInfo ci = ci.
Definition rows_ok d : Prop := forall key v, GetCF d cfContracts key = Ok (Some v) -> row_ok v.

Lemma clampName_idem s : clampName (clampName s) = clampName s.
Proof.
  unfold clampName at 1. unfold clampUTF8 at 1. pose proof (clampUTF8_spec s maxContractNameSymbolBytes ltac:(done)) as (_ & H & _).
  fold (clampName s) in H. destruct (Z.leb_spec (zlen (clampName s)) maxContractNameSymbolBytes); [done|lia].
Qed.

Lemma row_ok_pack ci : ci_ok ci -> row_ok (packContractInfo ci).
Proof.
  intros Hci ci'. rewrite (unpackContractInfo_pack ci Hci). intros [= <-]. split; [exact Hci|]. unfold storedInfo. cbn. by rewrite !clampName_idem.
Qed.

Lemma zlen_packContractInfo ci : zlen (packContractInfo ci) <> 0.
Proof.
  unfold packContractInfo. rewrite !zlen_app. pose proof (zlen_packVaruint (u64 (ci_DestructedInBlock ci)) (u64_range _)).
  repeat match goal with |- context [zlen ?x] => lazymatch goal with H : 0 <= zlen x |- _ => fail | _ => pose proof (zlen_nonneg x) end end. lia.
Qed.

(** A put of a row of the registry. *)
Definition puts (op : BatchOp) : Prop := exists key ci, op = PutCF cfContracts key (packContractInfo ci) /\ ci_ok ci.

(** A batch that changes the rows of some contracts only. *)
Definition touches (D : bytes -> Prop) (wb : list BatchOp) : Prop :=
  forall contract, ~ D contract ->
    batch_get cfContracts contract wb = None /\
    batch_get cfErcProtocols (protocolByContractKey ErcProtocolErc4626 contract) wb = None.

(** What it puts is well-formed. *)
Definition puts_ok (wb : list BatchOp) : Prop := forall key v, batch_get cfContracts key wb = Some (Some v) -> row_ok v.

Lemma GetCF_write wb d d' cf key : WriteBatch wb d = Ok d' ->
  GetCF d' cf key = match GetCF d cf key, batch_get cf key wb with Ok _, Some v => Ok v | r, _ => r end.
Proof.
  unfold WriteBatch. destruct (db_wfault d); [done|]. intros [= <-]. unfold GetCF. cbn [db_cf db_rfault].
  destruct (db_rfault d cf key); [done|]. rewrite kv_get_batch. by destruct (batch_get cf key wb).
Qed.

Lemma write_rows_ok wb d d' : rows_ok d -> puts_ok wb -> WriteBatch wb d = Ok d' -> rows_ok d'.
Proof.
  intros Hd Hp Hw key v. rewrite (GetCF_write wb d d' _ _ Hw). destruct (GetCF d cfContracts key) as [o| |] eqn:Eg; [|done..].
  destruct (batch_get cfContracts key wb) as [[v'|]|] eqn:Eb; [|done|]; intros [= ->]; [by eapply Hp|by eapply Hd].
Qed.

Lemma write_same_rows D wb d d' contract : touches D wb -> WriteBatch wb d = Ok d' -> ~ D contract -> same_rows d d' contract.
Proof.
  intros Ht Hw Hc. destruct (Ht contract Hc) as [H1 H2]. unfold same_rows. rewrite !(GetCF_write wb d d' _ _ Hw), H1, H2.
  split; by case_match.
Qed.

Lemma batch_get_puts wb key v : Forall puts wb -> batch_get cfContracts key wb = Some (Some v) -> row_ok v.
Proof.
  induction 1 as [|op wb (k & ci & -> & Hci) _ IH]; cbn; [done|]. destruct (batch_get cfContracts key wb); [done|].
  case_decide; [|done]. intros [= <-]. by apply row_ok_pack.
Qed.

Lemma touches_puts wb : Forall puts wb -> touches (fun key => exists v, PutCF cfContracts key v ∈ wb) wb.
Proof.
  intros Hp contract Hn. split; apply batch_get_other; apply Forall_forall; intros op Hop; rewrite Forall_forall in Hp;
    destruct (Hp op Hop) as (k & ci & -> & _); [right|by left]. cbn. intros ->. apply Hn. by eexists.
Qed.

Lemma touches_delete key : touches (fun k => k = key) [DeleteCF cfContracts key] /\ puts_ok [DeleteCF cfContracts key].
Proof.
  split; [|intros k v; cbn; by case_decide].
  intros contract Hc. split; apply batch_get_other; constructor; try done; [|by left]. right. cbn. congruence.
Qed.

Lemma touches_protocol key id h v :
  let wb := [PutCF cfErcProtocols (protocolByContractKey id key) v; PutCF cfErcProtocols (protocolByHeightKey id h key) []] in
  touches (fun k => k = key) wb /\ puts_ok wb.
Proof.
  split; [|intros k w; cbn; by rewrite !decide_False by (by intros [? _])].
  intros contract Hc. split; apply batch_get_other; (apply Forall_cons; split; [|apply Forall_singleton]); try by left.
  - right. unfold protocolByContractKey. cbn. congruence.
  - right. done.
Qed.

(** ** The invariant *)

(** Coherent but for the entries of some contracts, and at most [n] changes of generations. *)
Definition but (D : bytes -> Prop) (n : Z) st : Prop :=
  Forall (fun e => ~ D (le_key e) -> entry_coherent (es_db st) (es_registry st) e) (cached st)
  /\ rows_ok (es_db st) /\ 0 <= rg_protocolGen (es_registry st) <= n.

Definition inv (n : Z) st : Prop := coherent st /\ rows_ok (es_db st) /\ 0 <= rg_protocolGen (es_registry st) <= n.

(** No entry of the contract is cached. *)
Definition uncached (key : bytes) st : Prop := Forall (fun e => le_key e <> key) (cached st).

Lemma inv_but D n st : inv n st -> but D n st.
Proof. intros (Hc & Hr & Hn). split; [|done]. eapply Forall_impl; [exact Hc|]. auto. Qed.

Lemma inv_weaken n n' st : n <= n' -> inv n st -> inv n' st.
Proof. intros Hn (Hc & ? & ?). split_and!; [done|done|lia..]. Qed.

Lemma inv_of_but D n st : but D n st -> (forall e, e ∈ cached st -> ~ D (le_key e)) -> inv n st.
Proof.
  intros [Hc Hn] Hk. split; [|done]. apply Forall_forall. intros e He. rewrite Forall_forall in Hc. by apply (Hc e He), Hk.
Qed.

Lemma uncache_triple key n R : triple (but (fun k => k = key) n) (uncache key) (fun _ => inv n) R.
Proof.
  intros st [Hc Hn]. split; [|done]. unfold coherent. cbn.
  eapply Forall_impl; [apply delete_entries|]. intros e [He Hk]. rewrite Forall_forall in Hc. by apply (Hc e He).
Qed.

Lemma uncached_triple key n R : triple (inv n) (uncache key) (fun _ st => inv n st /\ uncached key st) R.
Proof.
  intros st Hi. split; [by apply (uncache_triple key n (fun _ => True) st (inv_but _ _ _ Hi))|].
  eapply Forall_impl; [apply delete_entries|]. by intros e [_ ?].
Qed.

Lemma write_triple D wb n : touches D wb -> puts_ok wb -> triple (but D n) (writeBatchM wb) (fun _ => but D n) (but D n).
Proof.
  intros Ht Hp st (Hc & Hr & Hn). unfold writeBatchM. destruct (WriteBatch wb (es_db st)) as [d'|e|] eqn:Ew; [|done..].
  split; [|split; [by eapply write_rows_ok|done]]. eapply Forall_impl; [exact Hc|]. intros e He Hk. destruct (He Hk) as (H1 & H2 & H3).
  split_and!; [done|done|]. intros. cbn. rewrite (pureLoad_same (es_db st)); [auto|]. by eapply write_same_rows.
Qed.

Lemma bump_triple key n R : n + 1 < 2 ^ 64 ->
  triple (but (fun k => k = key) n) bumpProtocolGen (fun _ => but (fun k => k = key) (n + 1)) R.
Proof.
  intros Hb st (Hc & Hr & Hn). split; [|split; [done|cbn; rewrite u64_id by (unfold is_u64; lia); lia]].
  eapply Forall_impl; [exact Hc|]. intros e He Hk. destruct (He Hk) as (H1 & H2 & _).
  split_and!; cbn; rewrite ?u64_id by (unfold is_u64; lia); [done|lia|lia].
Qed.

(** ** Committing a batch of rows *)

(** The rows of the batch are well-formed and their contracts are not cached. *)
Definition batch_ok (wb : list BatchOp) st : Prop :=
  Forall (fun op => exists key ci, op = PutCF cfContracts key (packContractInfo ci) /\ ci_ok ci /\ uncached key st) wb.

Lemma batch_ok_puts wb st : batch_ok wb st -> Forall puts wb.
Proof. intros H. eapply Forall_impl; [exact H|]. intros op (key & ci & -> & Hci & _). by exists key, ci. Qed.

Lemma commit_triple wb n : triple (fun st => inv n st /\ batch_ok wb st) (writeBatchM wb) (fun _ => inv n) (inv n).
Proof.
  intros st [Hi Hb]. pose proof (batch_ok_puts _ _ Hb) as Hp. pose proof (touches_puts wb Hp) as Ht.
  pose proof (write_triple _ wb n Ht (fun k v => batch_get_puts wb k v Hp) st (inv_but _ n st Hi)) as Hw.
  unfold writeBatchM in *. destruct (WriteBatch wb (es_db st)) as [d'|e|]; [|done..]. apply (inv_of_but _ _ _ Hw).
  intros e He (v & Hv). unfold batch_ok in Hb. rewrite Forall_forall in Hb. destruct (Hb _ Hv) as (key & ci & [= <- ->] & _ & Hu).
  unfold uncached in Hu. rewrite Forall_forall in Hu. by apply (Hu e He).
Qed.

(** ** Lookups *)

(** What is read back of a row with a completed standard. *)
Lemma completed_row contract standard u c : ci_ok u -> storedInfo u = u -> withAddressOf contract u = Ok c ->
  withAddressOf contract (storedInfo (set_Standard standard c)) = Ok (set_Standard standard c).
Proof.
  intros Hu Hs Hw. unfold withAddressOf in *. rewrite <- Hs in Hw. destruct (GetAddressesFromAddrDesc contract) as [[|a l]|e|]; try done;
    injection Hw as <-; unfold storedInfo, set_Standard, set_Contract; cbn; by rewrite !clampName_idem.
Qed.

Lemma withAddressOf_ok contract u c : withAddressOf contract u = Ok c ->
  ci_Standard c = ci_Standard u /\ (ci_ok u -> ci_ok c).
Proof. unfold withAddressOf. destruct (GetAddressesFromAddrDesc contract) as [[|a l]|e|]; try done; by intros [= <-]. Qed.

(** What [GetContractInfo] returns for a contract whose rows are in the database. *)
Definition withStandard (standard : bytes) (o : option ContractInfo) (o' : option ContractInfo) : Prop :=
  o' = o \/ exists ci, o = Some ci /\ ci_Standard ci = UnknownTokenStandard /\ standard <> UnknownTokenStandard /\ o' = Some (set_Standard standard ci).

(** The result of a lookup is what the rows say after it; before, at most the standard was missing. The rows of
    other contracts are unchanged. *)
Definition looked contract standard st (o : option ContractInfo) st' : Prop :=
  pureLoad (es_db st') contract = Ok o
  /\ (exists o0, pureLoad (es_db st) contract = Ok o0 /\ withStandard standard o0 o)
  /\ forall other, other <> contract -> pureLoad (es_db st') other = pureLoad (es_db st) other.

(** Reading a contract that is not cached. *)
Lemma load_triple contract standard n st0 : fits standard ->
  triple (fun st => inv n st /\ uncached contract st /\ es_db st = es_db st0) (loadContractInfo contract standard)
    (fun o st => inv n st /\ uncached contract st /\ looked contract standard st0 o st) (inv n).
Proof.
  intros Hf st (Hi & Hu & Hdb).
  assert (Hsame : forall o, pureLoad (es_db st) contract = Ok o -> inv n st /\ uncached contract st /\ looked contract standard st0 o st).
  { intros o Hp. split_and!; [done|done|]. split_and!; [done|exists o; split; [by rewrite <- Hdb|by left]|by rewrite Hdb]. }
  unfold pureLoad in Hsame. unfold loadContractInfo, readCF, setStandardFromContext.
  unfold mbind, EthM_bind, gets, liftR, mret, EthM_ret.
  destruct (GetCF (es_db st) cfContracts contract) as [val| |] eqn:Eg; cbn [rbind] in *; [|done..].
  destruct (zlen (valData val) =? 0) eqn:Ez; [by apply Hsame|].
  destruct (unpackContractInfo _) as [u| |] eqn:Eu; cbn [rbind] in *; [|done..].
  destruct (withAddressOf contract u) as [c| |] eqn:Ec; cbn [rbind] in *; [|done..].
  destruct (_ && _) eqn:Es; [|rewrite vault_pure; destruct (pureVault _ _); cbn [rbind] in *; [by apply Hsame|done..]].
  clear Hsame. apply andb_true_iff in Es as [Es1 Es2].
  apply negb_true_iff, bool_decide_eq_false in Es1. apply bool_decide_eq_true in Es2.
  destruct val as [v|]; [|done]. destruct Hi as (Hc & Hr & Hn). destruct (Hr _ _ Eg u Eu) as [Huo Hus].
  pose proof (withAddressOf_ok _ _ _ Ec) as [_ Hco]. specialize (Hco Huo).
  set (c1 := set_Standard standard c) in *. assert (Hc1 : ci_ok c1) by (destruct Hco as (_ & ?); by split).
  assert (Hp : Forall puts [PutCF cfContracts contract (packContractInfo c1)]) by (constructor; [by exists contract, c1|done]).
  assert (Hinv : inv n st) by done.
  pose proof (write_triple _ _ n (touches_puts _ Hp) (fun k w => batch_get_puts _ k w Hp) st (inv_but _ n st Hinv)) as Hw.
  unfold writeBatchM in *. destruct (WriteBatch _ (es_db st)) as [d'|e|] eqn:Ew; [|done..].
  set (st1 := with_db d' st) in *.
  assert (Hi1 : inv n st1).
  { apply (inv_of_but _ _ _ Hw). intros e He (w & [= Hk _]%list_elem_of_singleton). unfold uncached in Hu. rewrite Forall_forall in Hu. by apply (Hu e He). }
  assert (Hv : pureVault d' contract = pureVault (es_db st) contract).
  { unfold pureVault. rewrite (GetCF_write _ _ _ _ _ Ew). cbn [batch_get]. rewrite decide_False by (by intros [? _]).
    destruct (zlen contract =? 0); [done|]. by destruct (GetCF (es_db st) cfErcProtocols _). }
  rewrite vault_pure. change (es_db st1) with d'. rewrite Hv.
  assert (Hp0 : pureLoad (es_db st) contract =
    (let! vault := pureVault (es_db st) contract in Ok (Some (match vault with Some asset => set_Erc4626 asset c | None => c end)))).
  { unfold pureLoad. rewrite Eg. cbn [rbind valData]. cbn [valData] in Ez, Eu. rewrite Ez, Eu. cbn [rbind]. by rewrite Ec. }
  assert (Hp1 : pureLoad d' contract =
    (let! vault := pureVault (es_db st) contract in Ok (Some (match vault with Some asset => set_Erc4626 asset c1 | None => c1 end)))).
  { unfold pureLoad. rewrite (GetCF_write _ _ _ _ _ Ew), Eg. cbn [batch_get]. rewrite decide_True by done. cbn [rbind valData op_val].
    rewrite (proj2 (Z.eqb_neq _ _) (zlen_packContractInfo c1)), (unpackContractInfo_pack c1 Hc1). cbn [rbind].
    rewrite (completed_row contract standard u c Huo Hus Ec : withAddressOf contract (storedInfo c1) = Ok c1). cbn [rbind]. by rewrite Hv. }
  destruct (pureVault (es_db st) contract) as [vault| |]; [|done..]. cbn [rbind] in Hp0, Hp1. split_and!; [done|done|].
  split_and!.
  - exact Hp1.
  - eexists. rewrite <- Hdb. split; [exact Hp0|]. right. eexists. split; [done|].
    destruct vault; (split; [exact Es2|]); done.
  - intros other Hne. rewrite <- Hdb. apply pureLoad_same. eapply write_same_rows; [apply (touches_puts _ Hp)|exact Ew|].
    intros (w & [= Hk _]%list_elem_of_singleton). done.
Qed.

Lemma load_registry contract standard st r st' : loadContractInfo contract standard st = (r, st') -> es_registry st' = es_registry st.
Proof.
  unfold loadContractInfo, readCF, setStandardFromContext, writeBatchM, mbind, EthM_bind, gets, liftR, mret, EthM_ret.
  intros H. destruct (GetCF _ _ _) as [val| |]; [|by injection H as _ <-..]. destruct (_ =? 0); [by injection H as _ <-|].
  destruct (unpackContractInfo _) as [u| |]; [|by injection H as _ <-..]. destruct (withAddressOf _ _) as [c| |]; [|by injection H as _ <-..].
  destruct (_ && _); [destruct (WriteBatch _ _) as [d'| |]; [|by injection H as _ <-..]|]; rewrite vault_pure in H; destruct (pureVault _ _); by injection H as _ <-.
Qed.

(** After a miss the contract is not cached. *)
Lemma miss_uncached key r p c : (ContractLRU.get key r p c).1 = None ->
  Forall (fun e => le_key e <> key) (lru_entries (ContractLRU.get key r p c).2).
Proof.
  destruct c as [c|]; [|constructor]. cbn [ContractLRU.get]. destruct (cl_find key c) as [e|] eqn:Ef.
  - destruct (_ || _); [|done]. intros _. cbn. apply Forall_forall. intros x Hx. by apply list_elem_of_filter in Hx as [? _].
  - intros _. cbn. apply Forall_forall. intros x Hx%list_elem_of_In Hk. unfold cl_find in Ef. apply (find_none _ _ Ef) in Hx.
    by apply bool_decide_eq_false in Hx.
Qed.

Lemma hit_coherent st key ci : coherent st ->
  (ContractLRU.get key (rg_reorgGen (es_registry st)) (rg_protocolGen (es_registry st)) (rg_cachedContracts (es_registry st))).1 = Some ci ->
  pureLoad (es_db st) key = Ok (Some ci).
Proof.
  unfold coherent. destruct (rg_cachedContracts (es_registry st)) as [c|]; [|done]. cbn [ContractLRU.get lru_entries].
  destruct (cl_find key c) as [e|] eqn:Ef; [|done]. destruct (_ || _) eqn:Em; [done|]. intros Hc [= <-].
  apply orb_false_iff in Em as [E1 E2]. apply negb_false_iff, Z.eqb_eq in E1, E2. apply cl_find_Some in Ef as [Hin <-].
  rewrite Forall_forall in Hc. destruct (Hc e Hin) as (_ & _ & H). by apply H.
Qed.

Lemma get_triple contract standard n st0 : fits standard ->
  triple (fun st => inv n st /\ es_db st = es_db st0) (GetContractInfo contract standard)
    (fun o st => inv n st /\ looked contract standard st0 o st) (inv n).
Proof.
  intros Hf st ((Hc & Hr & Hn) & Hdb). unfold GetContractInfo. unfold mbind at 1, EthM_bind at 1, gets.
  set (r := es_registry st).
  pose proof (get_entries contract (rg_reorgGen r) (rg_protocolGen r) (rg_cachedContracts r)) as He.
  pose proof (miss_uncached contract (rg_reorgGen r) (rg_protocolGen r) (rg_cachedContracts r)) as Hmiss.
  pose proof (hit_coherent st contract) as Hhit. fold r in Hhit.
  destruct (ContractLRU.get _ _ _ _) as [cached_ lru]. cbn [fst snd] in *.
  set (r1 := mkRegistry lru (rg_reorgGen r) (rg_protocolGen r)). set (st1 := with_registry r1 st).
  assert (Hi1 : inv n st1) by (split; [eapply (Forall_in _ _ _ _ Hc); [|exact He]; done|done]).
  unfold mbind at 1, EthM_bind at 1, modifyM at 1. fold st1. destruct cached_ as [ci|].
  - specialize (Hhit ci Hc eq_refl). cbn. split; [done|]. split_and!; [exact Hhit|exists (Some ci); split; [by rewrite <- Hdb|by left]|cbn; by rewrite Hdb].
  - specialize (Hmiss eq_refl). pose proof (load_triple contract standard n st0 Hf st1 (conj Hi1 (conj Hmiss Hdb))) as Hl.
    unfold mbind at 1, EthM_bind at 1. destruct (loadContractInfo contract standard st1) as [[[ci|]| |] st2] eqn:El; [| |done..].
    + destruct Hl as ((Hc2 & Hr2 & Hn2) & Hu2 & Hlk). cbn. split; [|exact Hlk]. split; [|done].
      assert (Hreg : es_registry st2 = r1) by (by eapply load_registry in El). unfold coherent. cbn. rewrite Hreg. cbn.
      pose proof (add_entries contract ci (rg_reorgGen r) (rg_protocolGen r) lru) as Ha. eapply Forall_impl; [exact Ha|].
      intros x [->|Hx]; [split_and!; cbn; [lia|lia|]; intros _ _; apply Hlk|].
      unfold coherent in Hc2. rewrite Hreg in Hc2. cbn in Hc2. rewrite Forall_forall in Hc2. by apply Hc2.
    + destruct Hl as (Hi2 & _ & Hlk). cbn. done.
Qed.

Lemma plain_get_triple contract n : triple (inv n) (GetContractInfo contract [])
  (fun o st => inv n st /\ forall ci, o = Some ci -> ci_ok ci) (inv n).
Proof.
  intros st Hi. pose proof (get_triple contract [] n st ltac:(done) st (conj Hi eq_refl)) as Hg.
  destruct (GetContractInfo contract [] st) as [[o| |] st']; [|done..]. destruct Hg as [Hi' (Hp & _)]. split; [done|]. intros ci ->.
  unfold pureLoad in Hp. apply rbind_Ok in Hp as (val & Hv & Hp). destruct (_ =? 0) eqn:Ez; [done|]. apply rbind_Ok in Hp as (u & Hu & Hp).
  apply rbind_Ok in Hp as (c & Hc & Hp). apply rbind_Ok in Hp as (vault & _ & [= <-]). destruct val as [v|]; [|done].
  destruct Hi' as (_ & Hr & _). destruct (Hr _ _ Hv u Hu) as [Huo _]. apply withAddressOf_ok in Hc as [_ Hco]. specialize (Hco Huo). by destruct vault.
Qed.

(** ** Storing *)

(** The batch of a block so far: the contracts with a row in it are in the map and not cached. *)
Definition batching (wb : list BatchOp) (m : gmap bytes ContractInfo) st : Prop :=
  Forall (fun op => exists key ci, op = PutCF cfContracts key (packContractInfo ci) /\ ci_ok ci /\ is_Some (m !! key)) wb
  /\ map_Forall (fun _ ci => ci_ok ci) m /\ Forall (fun e => m !! le_key e = None) (cached st).

Lemma batching_nil st : batching [] ∅ st.
Proof. split; [constructor|]. split; [apply map_Forall_empty|]. apply Forall_forall. intros e _. apply lookup_empty. Qed.

Lemma batching_ok wb m st : batching wb m st -> batch_ok wb st.
Proof.
  intros (Hw & _ & Hc). eapply Forall_impl; [exact Hw|]. intros op (key & ci & -> & Hci & [x Hk]). exists key, ci. split_and!; [done|done|].
  eapply Forall_impl; [exact Hc|]. intros e He Hkey. cbn in He. rewrite Hkey in He. by rewrite He in Hk.
Qed.

(** The lookup of a contract that is not in the batch. *)
Lemma merged_triple wb m key n : m !! key = None ->
  triple (fun st => inv n st /\ batching wb m st) (GetContractInfo key [])
    (fun o st => inv n st /\ (forall ci, o = Some ci -> ci_ok ci) /\ batching wb m st) (inv n).
Proof.
  intros Hk st [Hi (Hw & Hm & Hb)]. pose proof (plain_get_triple key n st Hi) as Hg.
  destruct (GetContractInfo_coherent key st (proj1 Hi)) as (r' & E1 & _ & _ & _ & He). rewrite E1 in Hg |- *.
  destruct (pureLoad (es_db st) key); [|done..]. destruct Hg as [Hi' Hci]. split_and!; [done|done|]. split_and!; [done|done|].
  eapply Forall_impl; [exact He|]. intros e [->|Hin]; [done|]. rewrite Forall_forall in Hb. by apply Hb.
Qed.

Lemma storeContractInfo_triple wb ci inBatch n : ci_ok ci ->
  triple (fun st => inv n st /\ batching wb (default ∅ inBatch) st) (storeContractInfo wb ci inBatch)
    (fun r st => inv n st /\ exists m', batching r.1 m' st /\ (is_Some inBatch -> r.2 = Some m')) (inv n).
Proof.
  intros Hci. unfold storeContractInfo. set (m := default ∅ inBatch).
  assert (Hid : forall st, inv n st /\ batching wb m st ->
    inv n st /\ exists m', batching (wb, inBatch).1 m' st /\ (is_Some inBatch -> (wb, inBatch).2 = Some m')).
  { intros st [Hi Hb]. split; [done|]. exists m. split; [done|]. by intros [x ->]. }
  case_bool_decide; [by apply triple_ret|].
  apply (triple_bind _ _ _ (fun _ st => inv n st /\ batching wb m st)).
  { eapply triple_conseq; [apply (triple_lift (fun st => inv n st /\ batching wb m st))|done|done|by intros st [? _]]. }
  intros key.
  apply (triple_bind _ _ _ (fun o st => inv n st /\ (forall c, o = Some c -> ci_ok c) /\ batching wb m st)).
  - destruct (_ && _); [|apply triple_ret; intros st [Hi Hb]; split_and!; [done| |done]; by intros c [= <-]].
    apply (triple_bind _ _ _ (fun o st => inv n st /\ (forall c, o = Some c -> ci_ok c) /\ batching wb m st)).
    + destruct (inBatch ≫= lookup key) as [c|] eqn:Ek.
      * apply triple_ret. intros st [Hi Hb]. split_and!; [done| |done]. intros c' [= <-]. destruct inBatch as [m0|]; [|done].
        destruct Hb as (_ & Hm & _). by eapply Hm.
      * apply merged_triple. unfold m. destruct inBatch as [m0|]; [done|apply lookup_empty].
    + intros o. apply triple_ret. intros st (Hi & Ho & Hb). split_and!; [done| |done]. intros c Hc.
      destruct o as [c0|]; [|done]. injection Hc as <-. destruct (Ho c0 eq_refl) as (? & ? & ? & _). destruct Hci as (_ & _ & _ & ?). done.
  - intros [c|]; [|apply triple_ret; intros st (Hi & _ & Hb); by apply Hid].
    intros st (Hi & Hc & (Hw & Hm & Hb)). specialize (Hc c eq_refl). pose proof (uncached_triple key n (inv n) st Hi) as Hu.
    unfold mbind, EthM_bind. cbn in Hu. destruct Hu as [Hi' Hu]. cbn. split; [exact Hi'|]. exists (<[key := c]> m).
    split; [|intros [m0 Hm0]; unfold m; by rewrite Hm0]. split_and!.
    + apply Forall_app. split; [|constructor; [|done]].
      * eapply Forall_impl; [exact Hw|]. intros op (k & x & -> & Hx & Hk). exists k, x. split_and!; [done|done|].
        destruct (decide (key = k)) as [->|]; [by rewrite lookup_insert_eq|by rewrite lookup_insert_ne].
      * exists key, c. split_and!; [done|done|by rewrite lookup_insert_eq].
    + by apply map_Forall_insert_2.
    + apply Forall_forall. intros e He. unfold uncached in Hu. rewrite Forall_forall in Hu.
      rewrite lookup_insert_ne by (intros Hk; by apply (Hu e He)).
      pose proof (delete_entries key (rg_cachedContracts (es_registry st))) as Hd. rewrite Forall_forall in Hd.
      destruct (Hd e He) as [Hin _]. rewrite Forall_forall in Hb. by apply Hb.
Qed.

Lemma store_triple ci n : ci_ok ci -> triple (inv n) (StoreContractInfo ci) (fun _ => inv n) (inv n).
Proof.
  intros Hci. unfold StoreContractInfo. eapply triple_bind.
  - eapply triple_conseq; [by apply (storeContractInfo_triple [] ci None n)| |intros a st H; exact H|done].
    intros st Hi. split; [done|apply batching_nil].
  - intros [wb o]. eapply triple_conseq; [apply (commit_triple wb n)| |done|done].
    intros st (Hi & m' & Hb & _). split; [done|]. by eapply batching_ok.
Qed.

Lemma storeContractInfos_triple cis n : Forall ci_ok cis -> forall wb m,
  triple (fun st => inv n st /\ batching wb m st) (storeContractInfos wb cis m) (fun wb st => inv n st /\ batch_ok wb st) (inv n).
Proof.
  induction 1 as [|ci cis Hci _ IH]; intros wb m; cbn [storeContractInfos].
  - apply triple_ret. intros st [Hi Hb]. split; [done|]. by eapply batching_ok.
  - eapply triple_bind; [by apply (storeContractInfo_triple wb ci (Some m) n)|]. intros [wb1 o] st (Hi & m' & Hb & Ho).
    specialize (Ho ltac:(by eexists)). cbn [fst snd] in *. subst o. cbn [default from_option id]. by apply (IH wb1 m').
Qed.

Lemma storeBlock_triple cis n : Forall ci_ok cis ->
  triple (inv n) (wb ← storeContractInfos [] cis ∅; writeBatchM wb) (fun _ => inv n) (inv n).
Proof.
  intros Hcis. eapply triple_bind; [|intros wb; apply commit_triple].
  eapply triple_conseq; [by apply (storeContractInfos_triple cis n Hcis [] ∅)| |intros wb st H; exact H|done].
  intros st Hi. split; [done|apply batching_nil].
Qed.

(** ** Healing *)

Lemma healCreation_ok h e : is_u32 h -> ci_ok e.1 -> ci_ok (healCreation h e).1.
Proof.
  unfold healCreation, applyHealedCreation. intros Hh (H1 & H2 & H3 & H4). destruct (h =? 0); [done|]. destruct (h <? _); [done|]. cbn.
  destruct (_ <=? _); split_and!; try done.
Qed.

Lemma healDestruction_ok h e : is_u32 h -> ci_ok e.1 -> ci_ok (healDestruction h e).1.
Proof.
  unfold healDestruction, applyHealedDestruction. intros Hh (H1 & H2 & H3 & H4). destruct (h =? 0); [done|]. by destruct (_ || _).
Qed.

Lemma healedContractInfo_triple key n : triple (inv n) (healedContractInfo key) (fun ci st => inv n st /\ ci_ok ci) (inv n).
Proof.
  unfold healedContractInfo. eapply triple_bind; [apply plain_get_triple|]. intros [ci|].
  - apply triple_ret. intros st [Hi Hc]. auto.
  - intros st [Hi _]. unfold liftR. destruct (withAddressOf key _) as [c| |] eqn:Ec; [|done..]. split; [done|].
    apply withAddressOf_ok in Ec as [_ H]. apply H. by vm_compute.
Qed.

Lemma healRecords_triple cis n : Forall ci_ok cis -> forall healed order, map_Forall (fun _ e => ci_ok e.1) healed ->
  triple (inv n) (healRecords cis healed order) (fun r st => inv n st /\ map_Forall (fun _ e => ci_ok e.1) r.1) (inv n).
Proof.
  induction 1 as [|ci cis Hci _ IH]; intros healed order Hh; cbn [healRecords]; [by apply triple_ret|].
  case_bool_decide; [by apply IH|]. eapply triple_bind; [apply triple_lift|]. intros key. destruct (_ =? 0); [by apply IH|].
  apply (triple_bind _ _ _ (fun r st => inv n st /\ ci_ok r.1.1)).
  - destruct (healed !! key) as [hc|] eqn:Ek; [apply triple_ret; intros st Hi; split; [done|by eapply Hh]|].
    eapply triple_bind; [apply healedContractInfo_triple|]. intros c. by apply triple_ret.
  - intros [hc order'] st [Hi Hc]. apply IH; [|done]. apply map_Forall_insert_2; [|done].
    destruct Hci as (_ & _ & H3 & H4). by apply healDestruction_ok, healCreation_ok.
Qed.

Lemma batch_ok_uncache key wb st : batch_ok wb st ->
  batch_ok wb (with_registry (mkRegistry (ContractLRU.delete key (rg_cachedContracts (es_registry st))) (rg_reorgGen (es_registry st)) (rg_protocolGen (es_registry st))) st).
Proof.
  intros Hb. eapply Forall_impl; [exact Hb|]. intros op (k & ci & -> & Hci & Hu). exists k, ci. split_and!; [done|done|].
  eapply Forall_impl; [apply delete_entries|]. intros e [He _]. unfold uncached in Hu. rewrite Forall_forall in Hu. by apply Hu.
Qed.

Lemma storeHealed_triple healed order n : map_Forall (fun _ e => ci_ok e.1) healed -> forall wb,
  triple (fun st => inv n st /\ batch_ok wb st) (storeHealed wb healed order) (fun wb st => inv n st /\ batch_ok wb st) (inv n).
Proof.
  intros Hh. induction order as [|key order IH]; intros wb; cbn [storeHealed]; [by apply triple_ret|].
  destruct (healed !! key) as [[ci []]|] eqn:Ek; [|apply IH..].
  intros st [Hi Hb]. pose proof (uncached_triple key n (inv n) st Hi) as [Hi' Hu]. unfold mbind, EthM_bind. cbn.
  apply IH. split; [exact Hi'|]. apply Forall_app. split; [by apply batch_ok_uncache|]. constructor; [|done].
  exists key, ci. split_and!; [done|by apply (Hh _ _ Ek)|exact Hu].
Qed.

Lemma heal_triple cis n : Forall ci_ok cis ->
  triple (inv n) (wb ← storeHealedContractInfos [] cis; writeBatchM wb) (fun _ => inv n) (inv n).
Proof.
  intros Hcis. eapply triple_bind; [|intros wb; apply commit_triple]. unfold storeHealedContractInfos.
  eapply triple_bind; [apply (healRecords_triple cis n Hcis ∅ []), map_Forall_empty|]. intros [healed order] st [Hi Hh].
  apply (storeHealed_triple healed order n Hh []). split; [done|constructor].
Qed.

(** ** Protocols and deletion *)

Lemma lift_later n A (r : result A) : triple (inv n) (liftR r) (fun _ => inv n) (inv (n + 1)).
Proof.
  eapply triple_conseq; [apply (triple_lift (inv n))|done|done|]. intros st. apply inv_weaken. lia.
Qed.

Lemma readCF_later n cf key : triple (inv n) (readCF cf key) (fun _ => inv n) (inv (n + 1)).
Proof.
  unfold readCF. eapply triple_bind; [apply triple_gets|]. intros d. eapply triple_bind; [apply lift_later|].
  intros v. by apply triple_ret.
Qed.

(** A write to the rows of one contract, a new generation, and the entry is dropped. *)
Lemma write_bump_triple key wb n : n + 1 < 2 ^ 64 -> touches (fun k => k = key) wb -> puts_ok wb ->
  triple (inv n) (_ ← writeBatchM wb; _ ← bumpProtocolGen; uncache key) (fun _ => inv (n + 1)) (inv (n + 1)).
Proof.
  intros Hn Ht Hp st Hi. pose proof (write_triple _ wb n Ht Hp st (inv_but _ n st Hi)) as Hb.
  unfold mbind at 1, EthM_bind at 1. unfold writeBatchM in *. destruct (WriteBatch _ _) as [d'|e|]; [|apply (inv_weaken n); [lia|done]..].
  apply (triple_bind (but (fun k => k = key) n) bumpProtocolGen _ (fun _ => but (fun k => k = key) (n + 1))); [by apply bump_triple| |exact Hb].
  intros []. apply uncache_triple.
Qed.

Lemma protocol_triple a id payload h hash g n : n + 1 < 2 ^ 64 ->
  triple (inv n) (SetErcProtocol a id payload h hash g) (fun _ => inv (n + 1)) (inv (n + 1)).
Proof.
  intros Hn. assert (Hw : forall st, inv n st -> inv (n + 1) st) by (intros st; apply inv_weaken; lia).
  pose proof (lift_later n) as Hl. unfold SetErcProtocol. destruct (_ || _); [by apply triple_ret|].
  eapply triple_bind; [apply triple_gets|]. intros r. destruct (negb _); [by apply triple_ret|].
  eapply triple_bind; [apply triple_gets|]. intros d.
  apply (triple_bind _ _ _ (fun _ => inv n)).
  { case_bool_decide; [by apply triple_ret|]. eapply triple_bind; [apply Hl|]. intros hash'. by apply triple_ret. }
  intros same. destruct (negb same); [by apply triple_ret|].
  apply (triple_bind _ _ _ (fun _ => inv n)); [apply readCF_later|].
  intros buf. apply (triple_bind _ _ _ (fun _ => inv n)).
  { destruct (0 <? zlen buf); [apply Hl|by apply triple_ret]. }
  intros [[]|].
  - eapply triple_conseq; [apply (uncache_triple a n (inv n))|intros st; apply inv_but|intros ?; apply Hw|apply Hw].
  - destruct (touches_protocol a id h (packErcProtocolValue h payload)). by apply write_bump_triple.
Qed.

Lemma delete_triple address n : n + 1 < 2 ^ 64 ->
  triple (inv n) (DeleteContractInfoForAddress address) (fun _ => inv (n + 1)) (inv (n + 1)).
Proof.
  intros Hn. assert (Hw : forall st, inv n st -> inv (n + 1) st) by (intros st; apply inv_weaken; lia).
  pose proof (lift_later n) as Hl.
  unfold DeleteContractInfoForAddress. eapply triple_bind; [apply Hl|]. intros contract.
  apply (triple_bind _ _ _ (fun _ => inv n)); [apply readCF_later|].
  intros buf. destruct (_ =? 0); [by apply triple_ret|].
  eapply triple_bind; [apply Hl|]. intros ci. eapply triple_bind; [apply Hl|]. intros purged.
  destruct (touches_delete contract) as [Ht Hp]. intros st Hi. pose proof (write_bump_triple contract _ n Hn Ht Hp st Hi) as Hb.
  unfold mbind, EthM_bind in *. destruct (writeBatchM _ st) as [[[]| |] st1]; [|done..].
  destruct (bumpProtocolGen st1) as [[[]| |] st2]; [|done..]. by destruct (uncache contract st2) as [[[]| |] st3].
Qed.

(** ** Sequences of calls *)

(** The contracts of a block and of a healed block are put into one batch, which is then committed. *)
Inductive registry_op :=
| OpGet (contract : bytes) (standardFromContext : bytes)
| OpStore (ci : ContractInfo)
| OpStoreBlock (contracts : list ContractInfo)
| OpHeal (contracts : list ContractInfo)
| OpProtocol (addrDesc : bytes) (protocolID : byte) (payload : bytes) (persistHeight : Z) (observedBlockHash : bytes) (observedReorgGen : Z)
| OpDelete (address : bytes).

(** What is stored fits the encodings. *)
Definition op_ok (o : registry_op) : Prop :=
  match o with
  | OpGet _ standard => fits standard
  | OpStore ci => ci_ok ci
  | OpStoreBlock cis | OpHeal cis => Forall ci_ok cis
  | OpProtocol _ _ _ _ _ _ | OpDelete _ => True
  end.

(** The state after a call, whatever the call returned. *)
Definition registryStep st (o : registry_op) : EthState K :=
  match o with
  | OpGet contract standard => (GetContractInfo contract standard st).2
  | OpStore ci => (StoreContractInfo ci st).2
  | OpStoreBlock cis => ((wb ← storeContractInfos [] cis ∅; writeBatchM wb) st).2
  | OpHeal cis => ((wb ← storeHealedContractInfos [] cis; writeBatchM wb) st).2
  | OpProtocol a id payload h hash g => (SetErcProtocol a id payload h hash g st).2
  | OpDelete address => (DeleteContractInfoForAddress address st).2
  end.

Lemma triple_state {A} P (m : EthM K A) (Q : EthState K -> Prop) st : triple P m (fun _ => Q) Q -> P st -> Q (m st).2.
Proof. intros H HP. specialize (H st HP). by destruct (m st) as [[]]. Qed.

Lemma registryStep_inv n o st : n + 1 < 2 ^ 64 -> op_ok o -> inv n st -> inv (n + 1) (registryStep st o).
Proof.
  intros Hn Ho Hi. destruct o; cbn [registryStep op_ok] in *.
  - apply (inv_weaken n); [lia|]. apply (triple_state (fun s => inv n s /\ es_db s = es_db st)); [|done].
    eapply triple_conseq; [by apply (get_triple contract standardFromContext n st)|done|by intros o s [? _]|done].
  - apply (inv_weaken n); [lia|]. eapply triple_state; [by apply store_triple|done].
  - apply (inv_weaken n); [lia|]. eapply triple_state; [by apply storeBlock_triple|done].
  - apply (inv_weaken n); [lia|]. eapply triple_state; [by apply heal_triple|done].
  - eapply triple_state; [by apply protocol_triple|done].
  - eapply triple_state; [by apply delete_triple|done].
Qed.

Lemma registrySteps_inv n ops st : n + zlen ops < 2 ^ 64 -> Forall op_ok ops -> inv n st -> inv (n + zlen ops) (foldl registryStep st ops).
Proof.
  intros Hn Ho. revert n st Hn. induction Ho as [|o ops Ho _ IH]; intros n st Hn Hi.
  - cbn. rewrite zlen_nil. by rewrite Z.add_0_r.
  - cbn [foldl]. rewrite zlen_cons in *. pose proof (zlen_nonneg ops).
    replace (n + (1 + zlen ops)) with ((n + 1) + zlen ops) by lia. apply IH; [lia|]. by apply registryStep_inv; [lia|..].
Qed.

(** C22: the cache of contracts is transparent: start with an empty cache of any size (or none) over rows as the code writes
    them, and run any calls one after the other that look up contracts, with or without a standard to complete them,
    store them one by one or with a block, correct them by a healed block, delete them and record protocols, faults
    included. A lookup then answers exactly what reading the rows of the database answers, and leaves the
    database alone. A lookup with a standard that returns answers what the rows say after it: those before it, or these
    with the missing standard, which is written; the rows of other contracts are unchanged. *)
Theorem registry_cache_transparent ops st capacity contract standard :
  rg_cachedContracts (es_registry st) = newContractInfoLRU capacity -> rows_ok (es_db st) -> Forall op_ok ops -> fits standard ->
  0 <= rg_protocolGen (es_registry st) < 2 ^ 63 -> zlen ops < 2 ^ 63 ->
  let st' := foldl registryStep st ops in
  (exists st'', GetContractInfo contract [] st' = (pureLoad (es_db st') contract, st'') /\ es_db st'' = es_db st')
  /\ forall o st'', GetContractInfo contract standard st' = (Ok o, st'') ->
       pureLoad (es_db st'') contract = Ok o
       /\ (exists o0, pureLoad (es_db st') contract = Ok o0 /\
             (o = o0 \/ exists ci, o0 = Some ci /\ ci_Standard ci = UnknownTokenStandard /\ standard <> UnknownTokenStandard /\
                                   o = Some (set_Standard standard ci)))
       /\ forall other, other <> contract -> pureLoad (es_db st'') other = pureLoad (es_db st') other.
Proof.
  intros Hc Hr Hops Hf Hg Ho st'.
  assert (inv (rg_protocolGen (es_registry st)) st) as Hi.
  { split_and!; [|done|lia..]. unfold coherent. rewrite Hc. unfold newContractInfoLRU. by case_match; constructor. }
  apply (registrySteps_inv _ ops) in Hi; [|lia|done]. split.
  - destruct (GetContractInfo_coherent contract st' (proj1 Hi)) as (r' & E1 & _). by eexists.
  - intros o st'' Hget. pose proof (get_triple contract standard _ st' Hf st' (conj Hi eq_refl)) as Hl. rewrite Hget in Hl. apply Hl.
Qed.
End RegistryCorrect.

Module RegistryExample.
#[local] Existing Instances RefVlq.vlq RefVlq.vlq_laws MapKV.map_kv MapKV.map_kv_laws EthParserExample.refEth EthParserExample.refEthLaws.

Definition parser : EthChainParser := ethereumParser 100 (fun _ => Ok []).
#[local] Existing Instance parser.

Definition emptyDB : DB MapKV.map_kv := mkDB MapKV.map_kv (fun _ => ∅) (fun _ _ => false) false.
Definition start : EthState MapKV.map_kv :=
  mkEthState MapKV.map_kv ∅ ∅ ∅ 0 None emptyDB (mkRegistry (newContractInfoLRU 8) 0 0) None.

Definition token : bytes := str "0x1A1A1A1A1A1A1A1A1A1A1A1A1A1A1A1A1A1A1ABC".
Definition created (height : Z) : ContractInfo := mkContractInfo [] (str "ERC20") token (str "Token") (str "TKN") 18 height 0 false [].
Definition destroyed (height : Z) : ContractInfo := mkContractInfo [] [] token [] [] 0 0 height false [].

(** A contract without a standard. *)
Definition unknown (height : Z) : ContractInfo := mkContractInfo [] [] token (str "Token") (str "TKN") 18 height 0 false [].

(** The standard is completed by a lookup, the destruction comes with a block, and the cache has it. *)
Definition calls : list registry_op :=
  [OpStore (unknown 7); OpGet EthParserExample.desc (str "ERC20"); OpStoreBlock [destroyed 9]; OpGet EthParserExample.desc []; OpHeal [created 8]].

Lemma empty_rows : rows_ok (es_db start).
Proof. intros key v H. unfold GetCF in H. cbn in H. by rewrite lookup_empty in H. Qed.

Lemma calls_ok : Forall op_ok calls.
Proof.
  assert (ci_ok (unknown 7) /\ ci_ok (destroyed 9) /\ ci_ok (created 8)) as (H1 & H2 & H3) by (vm_compute; repeat split; discriminate).
  unfold calls. repeat (apply Forall_cons_2; [first [exact H1 | apply Forall_singleton; assumption | vm_compute; reflexivity]|]). apply Forall_nil_2.
Qed.

Lemma registry_cache_transparent_witness :
  let st := foldl registryStep start calls in
  (exists st', GetContractInfo EthParserExample.desc [] st = (pureLoad (es_db st) EthParserExample.desc, st') /\ es_db st' = es_db st)
  /\ forall o st', GetContractInfo EthParserExample.desc (str "ERC20") st = (Ok o, st') -> pureLoad (es_db st') EthParserExample.desc = Ok o.
Proof.
  destruct (registry_cache_transparent calls start 8 EthParserExample.desc (str "ERC20")) as [H1 H2];
    [reflexivity|exact empty_rows|exact calls_ok|vm_compute; reflexivity|vm_compute; split; [discriminate|reflexivity]|vm_compute; reflexivity|].
  split; [exact H1|]. intros o st' H. exact (proj1 (H2 o st' H)).
Defined.

(** The completed standard is in the row. *)
Example standard_completed :
  match pureLoad (es_db (foldl registryStep start calls)) EthParserExample.desc with
  | Ok (Some ci) => ci_Standard ci = str "ERC20" /\ ci_CreatedInBlock ci = 8
  | _ => False
  end.
Proof. vm_compute. split; reflexivity. Qed.

(** The destruction is merged into the stored contract. *)
Example destruction_merged :
  let st := foldl registryStep start [OpStore (created 7); OpGet EthParserExample.desc []; OpStore (destroyed 9)] in
  match pureLoad (es_db st) EthParserExample.desc with
  | Ok (Some ci) => ci_CreatedInBlock ci = 7 /\ ci_DestructedInBlock ci = 9
  | _ => False
  end.
Proof. vm_compute. split; reflexivity. Qed.

(** A lookup between the call that puts a contract into the batch of a block and the writing
    of the batch caches the row of before; it is answered afterwards. *)
Example lookup_before_commit :
  let st := foldl registryStep start [OpStore (created 7)] in
  match storeContractInfo [] (destroyed 9) (Some ∅) st with
  | (Ok (wb, _), st) =>
      let st := registryStep st (OpGet EthParserExample.desc []) in
      match writeBatchM wb st with
      | (Ok _, st) =>
          (ci_DestructedInBlock <$> match (GetContractInfo EthParserExample.desc [] st).1 with Ok o => o | _ => None end) = Some 0 /\
          (ci_DestructedInBlock <$> match pureLoad (es_db st) EthParserExample.desc with Ok o => o | _ => None end) = Some 9
      | _ => False
      end
  | _ => False
  end.
Proof. vm_compute. split; reflexivity. Qed.

(** A contract is created in block 7, whose internal data could not be fetched, and destroyed in
    block 9. When the data of block 7 are added later the contract is alive: block 9 found no
    row to mark. In the order of the blocks it ends destroyed. *)
Example healed_creation_loses_destruction :
  let healed :=
    (wb ← storeContractInfos [] [destroyed 9] ∅; _ ← writeBatchM wb;
     wb ← storeHealedContractInfos [] [created 7]; writeBatchM wb) start in
  let sequential :=
    (wb ← storeContractInfos [] [created 7] ∅; _ ← writeBatchM wb;
     wb ← storeContractInfos [] [destroyed 9] ∅; writeBatchM wb) start in
  let destructed st := ci_DestructedInBlock <$> match pureLoad (es_db st) EthParserExample.desc with Ok o => o | _ => None end in
  healed.1 = Ok tt /\ destructed healed.2 = Some 0 /\ sequential.1 = Ok tt /\ destructed sequential.2 = Some 9.
Proof. vm_compute. split_and!; reflexivity. Qed.
End RegistryExample.
