(* ===== verification/EthConnect.v ===== *)
(** Connecting a block of an Ethereum-type coin ([db/rocksdb_ethereumtype.go]:
    [addToAddressesMapEthereumType] to [processAddressesEthereumType], the cache of address
    contracts, and the rows that are stored).

    The contracts of an address are one object, reached from the map of the block and, when the
    row is large, from the cache; [putContracts] changes it in both. *)

From S2P Require Import Prelude Codec Parser TxAddr Balance IndexCodec Store GoSort EthTokens EthContracts EthIndex EthParser EthRows EthContractInfo EthAliases EthState.

Local Open Scope Z_scope.

Definition ContractIndexOffset : Z := 2.

(** [transferTo], [transferFrom], [internalTransferTo], [internalTransferFrom] *)
Definition transferTo : Z := 0.
Definition transferFrom : Z := -1.
Definition internalTransferTo : Z := 1.
Definition internalTransferFrom : Z := -2.

Definition addrContractsCacheMinSize : Z := 300000.

Class EthCacheOpts := {
  opt_addrContractsCacheMinSize : Z;
  opt_addrContractsCacheMaxBytes : Z;
}.

Definition isZeroAddress (addrDesc : bytes) : bool := forallb (fun b => bool_decide (b = x00)) addrDesc.

(** ** The addresses of a block *)

(** The loop over the transactions of an address: the transaction with its new index, or
    [None] when it is not there. *)
Fixpoint appendTxIndex (btxID : bytes) (index : Z) (at_ : list txIndexes) : option (list txIndexes) :=
  match at_ with
  | [] => None
  | t :: r =>
      if bool_decide (btxID = txi_btxID t) then
        Some ((if bool_decide (index ∈ txi_indexes t) then t else mkTxIndexes (txi_btxID t) (txi_indexes t ++ [index])) :: r)
      else cons t <$> appendTxIndex btxID index r
  end.

(** The map, and whether the transaction was counted for the address before. *)
Definition addToAddressesMapEthereumType (addresses : gmap bytes (list txIndexes)) (strAddrDesc btxID : bytes) (index : Z)
    : gmap bytes (list txIndexes) * bool :=
  let at_ := default [] (addresses !! strAddrDesc) in
  match appendTxIndex btxID index at_ with
  | Some at' => (<[strAddrDesc := at']> addresses, true)
  | None => (<[strAddrDesc := at_ ++ [mkTxIndexes btxID [index]]]> addresses, false)
  end.

(** ** A transfer of a contract *)

Definition isNFTSelfTransfer (from to : bytes) (standard : TokenStandard) : bool :=
  (standard =? NonFungibleToken) && bool_decide (from = to).

Definition set_uac_Txs (n : Z) (c : unpackedAddrContract) : unpackedAddrContract :=
  mkUAC (uac_Standard c) (uac_Contract c) n (uac_Value c) (uac_Ids c) (uac_MultiTokenValues c).
Definition set_uac_Value (v : unpackedBigInt) (c : unpackedAddrContract) : unpackedAddrContract :=
  mkUAC (uac_Standard c) (uac_Contract c) (uac_Txs c) v (uac_Ids c) (uac_MultiTokenValues c).
Definition set_uac_Ids (ids : list unpackedBigInt) (c : unpackedAddrContract) : unpackedAddrContract :=
  mkUAC (uac_Standard c) (uac_Contract c) (uac_Txs c) (uac_Value c) ids (uac_MultiTokenValues c).
Definition set_uac_Values (vs : list unpackedMultiTokenValue) (c : unpackedAddrContract) : unpackedAddrContract :=
  mkUAC (uac_Standard c) (uac_Contract c) (uac_Txs c) (uac_Value c) (uac_Ids c) vs.

(** The value of a fungible token is not kept: it is forced to zero. *)
Definition normalizeValue (v : unpackedBigInt) : unpackedBigInt :=
  match ub_Value v with
  | None => mkUBI [] (Some 0)
  | Some n => if (0 <? zlen (ub_Slice v)) || negb (n =? 0) then mkUBI [] (Some 0) else v
  end.

(** [for _, t := range transfer.MultiTokenValues { c.MultiTokenValues.upsert(t, index, aggregate) }] *)
Definition upsertAll (ts : list MultiTokenValue) (index : Z) (f : AggregateFn) (vs : list unpackedMultiTokenValue)
    : result (list unpackedMultiTokenValue) :=
  rfold (fun vs t => unpackedMultiTokenValues.upsert vs t index f) ts vs.

(** The contract and the index of the transfer. *)
Definition addToContract (c : unpackedAddrContract) (contractIndex : Z) (index : Z) (transfer : TokenTransfer)
    (addTxCount mutateHoldings : bool) : result (unpackedAddrContract * Z) :=
  let negative := index <? 0 in
  let aggregate := if negative then aggSub else aggAdd in
  let index := if negative then Z.lnot (i32 (contractIndex + ContractIndexOffset)) else i32 (contractIndex + ContractIndexOffset) in
  let count c := if addTxCount then set_uac_Txs (u64 (uac_Txs c + 1)) c else c in
  if negb mutateHoldings then Ok (count c, index)
  else
    let! c :=
      if tt_Standard transfer =? FungibleToken then Ok (set_uac_Value (normalizeValue (uac_Value c)) c)
      else if tt_Standard transfer =? NonFungibleToken then
        let! ids := (if index <? 0 then unpackedIds.remove (uac_Ids c) (tt_Value transfer)
                     else unpackedIds.insert (uac_Ids c) (tt_Value transfer)) in
        Ok (set_uac_Ids ids c)
      else
        let! vs := upsertAll (tt_MultiTokenValues transfer) index aggregate (uac_MultiTokenValues c) in
        Ok (set_uac_Values vs c) in
    Ok (count c, index).

Definition set_TotalTxs (n : Z) (acs : unpackedAddrContracts) : unpackedAddrContracts :=
  mkUACS (ua_Packed acs) n (ua_NonContractTxs acs) (ua_InternalTxs acs) (ua_Contracts acs) (ua_contractIndex acs) (ua_contractIndexDirty acs).
Definition set_NonContractTxs (n : Z) (acs : unpackedAddrContracts) : unpackedAddrContracts :=
  mkUACS (ua_Packed acs) (ua_TotalTxs acs) n (ua_InternalTxs acs) (ua_Contracts acs) (ua_contractIndex acs) (ua_contractIndexDirty acs).
Definition set_InternalTxs (n : Z) (acs : unpackedAddrContracts) : unpackedAddrContracts :=
  mkUACS (ua_Packed acs) (ua_TotalTxs acs) (ua_NonContractTxs acs) n (ua_Contracts acs) (ua_contractIndex acs) (ua_contractIndexDirty acs).

Definition emptyContracts : unpackedAddrContracts := mkUACS [] 0 0 0 [] None false.

Section EthConnect.
Context {V : Vlq} {E : EthChainParser} {IX : IndexOpts} {K : KV} {CO : EthCacheOpts}.
Implicit Types (st : EthState K).

(** ** The cache of address contracts *)

(** [writeContractsCacheSnapshot], the loop of [writeContractsCache]: an error of the write is
    logged. *)
Definition writeContractsCacheSnapshot (cache : gmap bytes unpackedAddrContracts) (d : DB K) : DB K :=
  let wb := map (fun e => PutCF cfAddressContracts e.1 (packUnpackedAddrContracts e.2)) (map_to_list cache) in
  match WriteBatch wb d with Ok d' => d' | _ => d end.

Definition flushAddrContractsCache st : EthState K :=
  let cache := es_cache st in
  let st := with_cache ∅ 0 st in
  if 0 <? Z.of_nat (size cache) then with_db (writeContractsCacheSnapshot cache (es_db st)) st else st.

Definition flushAddrContractsCacheIfOverCap st : EthState K :=
  if opt_addrContractsCacheMaxBytes <=? 0 then st
  else if opt_addrContractsCacheMaxBytes <? es_cacheBytes st then flushAddrContractsCache st else st.

Definition storeAddrContractsCache st : EthState K :=
  if 0 <? Z.of_nat (size (es_cache st)) then with_db (writeContractsCacheSnapshot (es_cache st) (es_db st)) st else st.

(** [due]: the period since the last store has passed. *)
Definition storeAddrContractsCacheIfDue (due : bool) st : EthState K :=
  if due then storeAddrContractsCache st else st.

Definition getUnpackedAddrDescContracts (addrDesc : bytes) : EthM K (option unpackedAddrContracts) := fun st =>
  match es_cache st !! addrDesc with
  | Some rv => (Ok (Some rv), st)
  | None =>
      match GetCF (es_db st) cfAddressContracts addrDesc with
      | Err e => (Err e, st)
      | Panic => (Panic, st)
      | Ok val =>
          let buf := valData val in
          if zlen buf =? 0 then (Ok None, st)
          else
            match partiallyUnpackAddrContracts buf with
            | Err e => (Err e, st)
            | Panic => (Panic, st)
            | Ok rv =>
                let minSize := if opt_addrContractsCacheMinSize <=? 0 then addrContractsCacheMinSize
                               else opt_addrContractsCacheMinSize in
                if minSize <? zlen buf then
                  let bytes' := es_cacheBytes st + zlen buf in
                  let st := with_cache (<[addrDesc := rv]> (es_cache st)) bytes' st in
                  let shouldFlush := (0 <? opt_addrContractsCacheMaxBytes) && (opt_addrContractsCacheMaxBytes <? bytes') in
                  (Ok (Some rv), if shouldFlush then flushAddrContractsCache st else st)
                else (Ok (Some rv), st)
            end
      end
  end.

(** The object of an address changes, wherever it is reached from. *)
Definition putContracts (addrDesc : bytes) (acs : unpackedAddrContracts) st : EthState K :=
  let st := with_contracts (<[addrDesc := acs]> (es_addressContracts st)) st in
  match es_cache st !! addrDesc with
  | Some _ => with_cache (<[addrDesc := acs]> (es_cache st)) (es_cacheBytes st) st
  | None => st
  end.

(** The callback of the tracker for an address it forgets. *)
Definition dropAddrContractsContractIndex (addrKey : bytes) st : EthState K :=
  match es_cache st !! addrKey with
  | Some acs =>
      let st := with_cache (<[addrKey := dropContractIndex acs]> (es_cache st)) (es_cacheBytes st) st in
      match es_addressContracts st !! addrKey with
      | Some _ => with_contracts (<[addrKey := dropContractIndex acs]> (es_addressContracts st)) st
      | None => st
      end
  | None => st
  end.

(** [ac.findContractIndex(addrDesc, contract, d.hotAddrTracker)] *)
Definition findContractIndexM (addrDesc contract : bytes) (acs : unpackedAddrContracts)
    : EthM K (option nat * unpackedAddrContracts) := fun st =>
  let '(r, acs, hot, evicted) := findContractIndex addrDesc contract (es_hot st) acs in
  let st := with_hot hot st in
  let st := match evicted with Some k => dropAddrContractsContractIndex k st | None => st end in
  (Ok (r, acs), st).

(** ** Adding a transaction to an address *)

(** [ac, e := addressContracts[strAddrDesc]; if !e { ... }] *)
Definition loadContracts (addrDesc : bytes) : EthM K unpackedAddrContracts :=
  m ← gets es_addressContracts;
  match m !! addrDesc with
  | Some ac => mret ac
  | None =>
      rv ← getUnpackedAddrDescContracts addrDesc;
      let ac := default emptyContracts rv in
      _ ← modifyM (fun st => with_contracts (<[addrDesc := ac]> (es_addressContracts st)) st);
      mret ac
  end.

(** The part of [addToAddressesAndContractsEthereumType] on the object of the address: the
    counters or the contract, and the index of the transfer. [contract] is nil for a transfer of
    the coin. *)
Definition addToObject (addrDesc : bytes) (index : Z) (contract : option (bytes * TokenTransfer))
    (addTxCount mutateHoldings : bool) (ac : unpackedAddrContracts) : EthM K (unpackedAddrContracts * Z) :=
  match contract with
  | None =>
      let ac :=
        if addTxCount then
          if (index =? internalTransferFrom) || (index =? internalTransferTo)
          then set_InternalTxs (u64 (ua_InternalTxs ac + 1)) ac
          else set_NonContractTxs (u64 (ua_NonContractTxs ac + 1)) ac
        else ac in
      mret (ac, index)
  | Some (contract, transfer) =>
      if isZeroAddress addrDesc then mret (ac, if index <? 0 then transferFrom else transferTo)
      else
        '(r, ac) ← findContractIndexM addrDesc contract ac;
        let '(contractIndex, ac) :=
          match r with
          | Some i => (i, ac)
          | None =>
              let i := length (ua_Contracts ac) in
              let c := mkUAC (tt_Standard transfer) contract 0 nilBigInt [] [] in
              (i, addContractIndex contract i (set_contracts (ua_Contracts ac ++ [c]) ac))
          end in
        c ← liftR (match ua_Contracts ac !! contractIndex with Some c => Ok c | None => Panic end);
        '(c, index) ← liftR (addToContract c (Z.of_nat contractIndex) index transfer addTxCount mutateHoldings);
        mret (set_contracts (<[contractIndex := c]> (ua_Contracts ac)) ac, index)
  end.

Definition addToAddressesAndContractsEthereumType (addrDesc btxID : bytes) (index : Z)
    (contract : option (bytes * TokenTransfer)) (addTxCount mutateHoldings : bool) : EthM K unit :=
  ac ← loadContracts addrDesc;
  '(ac, index) ← addToObject addrDesc index contract addTxCount mutateHoldings ac;
  m ← gets es_addresses;
  let '(m, counted) := addToAddressesMapEthereumType m addrDesc btxID index in
  _ ← modifyM (with_addresses m);
  modifyM (putContracts addrDesc (if (counted : bool) then ac else set_TotalTxs (u64 (ua_TotalTxs ac + 1)) ac)).

(** ** Transactions *)

(** [len(l) == 1 && len(l[0]) == 1], the address. *)
Definition singleAddress (l : list (list bytes)) : option bytes :=
  match l with [[a]] => Some a | _ => None end.

(** The addresses [from] and [to]; one that is missing or cannot be parsed is empty and is not
    indexed. *)
Definition processBaseTxData (btxID : bytes) (tx : EthTx) : EthM K (bytes * bytes) :=
  to ← (match singleAddress (etx_Vout tx) with
        | None => mret []
        | Some address =>
            match GetAddrDescFromAddress address with
            | Ok to =>
                _ ← addToAddressesAndContractsEthereumType to btxID transferTo None true true;
                mret to
            | Err _ => mret []
            | Panic => liftR Panic
            end
        end);
  from ← (match singleAddress (etx_Vin tx) with
          | None => mret []
          | Some address =>
              match GetAddrDescFromAddress address with
              | Ok from =>
                  _ ← addToAddressesAndContractsEthereumType from btxID transferFrom None (negb (bool_decide (from = to))) true;
                  mret from
              | Err _ => mret []
              | Panic => liftR Panic
              end
          end);
  mret (from, to).

(** The transactions of the address that are already stored for the block. *)
Definition setAddressTxIndexesToAddressMap (addrDesc : bytes) (height : Z) : EthM K unit :=
  m ← gets es_addresses;
  match m !! addrDesc with
  | Some _ => mret tt
  | None =>
      d ← gets es_db;
      txIndexes ← liftR (getTxIndexesForAddressAndBlock d addrDesc height);
      if 0 <? zlen txIndexes then modifyM (with_addresses (<[addrDesc := txIndexes]> m)) else mret tt
  end.

(** Index an address of internal data; [existingBlock]: the block is already indexed. *)
Definition addInternal (addrDesc btxID : bytes) (height index : Z) (addTxCount existingBlock : bool) : EthM K unit :=
  _ ← (if existingBlock then setAddressTxIndexesToAddressMap addrDesc height else mret tt);
  addToAddressesAndContractsEthereumType addrDesc btxID index None addTxCount true.

(** The body of the loop over the internal transfers. *)
Definition processInternalTransfer (btxID : bytes) (height : Z) (existingBlock : bool) (iti : EthereumInternalTransfer)
    : EthM K ethInternalTransfer :=
  to ← (match GetAddrDescFromAddress (it_To iti) with
        | Ok to => _ ← addInternal to btxID height internalTransferTo true existingBlock; mret to
        | Err _ => mret []
        | Panic => liftR Panic
        end);
  from ← (match GetAddrDescFromAddress (it_From iti) with
          | Ok from =>
              _ ← addInternal from btxID height internalTransferFrom (negb (bool_decide (from = to))) existingBlock;
              mret from
          | Err _ => mret []
          | Panic => liftR Panic
          end);
  mret (mkEIT (it_Type iti) from to (it_Value iti)).

Definition processInternalData (btxID : bytes) (tx : EthTx) (id : EthereumInternalData) (existingBlock : bool)
    : EthM K ethInternalData :=
  '(internalType, contract) ←
    (if id_Type id =? CREATE then
       match GetAddrDescFromAddress (id_Contract id) with
       | Ok to =>
           _ ← addInternal to btxID (etx_BlockHeight tx) internalTransferTo true existingBlock;
           mret (id_Type id, to)
       | Err _ => mret (CALL, [])
       | Panic => liftR Panic
       end
     else mret (id_Type id, []));
  transfers ← mmap (processInternalTransfer btxID (etx_BlockHeight tx) existingBlock) (id_Transfers id);
  mret (mkEID internalType contract transfers (id_Error id)).

(** [contract], [from] and [to] of a transfer; the first error. *)
Definition transferAddresses (t : TokenTransfer) : result (bytes * bytes * bytes) :=
  let! contract := GetAddrDescFromAddress (tt_Contract t) in
  let! from := GetAddrDescFromAddress (tt_From t) in
  let! to := GetAddrDescFromAddress (tt_To t) in
  Ok (contract, from, to).

(** An element of [blockTx.contracts] that was not filled in. *)
Definition blankContract : ethBlockTxContract := mkBTC [] [] [] 0 0 [].

(** The body of the loop over the transfers; [i] is the position of the transfer. *)
Definition processContractTransfer (btxID : bytes) (it : nat * TokenTransfer) : EthM K ethBlockTxContract :=
  let '(i, t) := it in
  match transferAddresses t with
  | Err _ => mret blankContract
  | Panic => liftR Panic
  | Ok (contract, from, to) =>
      let eq := bool_decide (from = to) in
      let mutateHoldings := negb (isNFTSelfTransfer from to (tt_Standard t)) in
      let index := i32 (Z.of_nat i) in
      _ ← addToAddressesAndContractsEthereumType to btxID index (Some (contract, t)) true mutateHoldings;
      _ ← addToAddressesAndContractsEthereumType from btxID (Z.lnot index) (Some (contract, t)) (negb eq) mutateHoldings;
      mret (mkBTC from to contract (tt_Standard t) (tt_Value t) (tt_MultiTokenValues t))
  end.

(** An error of the parser is logged: the transaction has no transfers then. *)
Definition tokenTransfersOf (tx : EthTx) : result (list TokenTransfer) :=
  match EthereumTypeGetTokenTransfersFromTx tx with
  | Ok l => Ok l
  | Err _ => Ok []
  | Panic => Panic
  end.

Definition processContractTransfers (btxID : bytes) (tx : EthTx) : EthM K (list ethBlockTxContract) :=
  l ← liftR (tokenTransfersOf tx);
  mmap (processContractTransfer btxID) (imap pair l).

(** The body of the loop over the transactions of a block. *)
Definition processTxEthereumType (tx : EthTx) : EthM K ethBlockTx :=
  btxID ← liftR (PackTxid (etx_Txid tx));
  '(from, to) ← processBaseTxData btxID tx;
  internalData ←
    (match etx_CoinSpecificData tx with
     | Some eid =>
         match esd_InternalData eid with
         | Some id => data ← processInternalData btxID tx id false; mret (Some data)
         | None => mret None
         end
     | None => mret None
     end);
  contracts ← processContractTransfers btxID tx;
  mret (mkEBT btxID from to contracts internalData).

Definition processAddressesEthereumType (txs : list EthTx) : EthM K (list ethBlockTx) :=
  _ ← modifyM (fun st => with_hot (BeginBlock (es_hot st)) st);
  mmap processTxEthereumType txs.

(** ** Storing *)

(** An address without transactions and contracts is removed; one in the cache is not written. *)
Definition storeUnpackedContracts (cache : gmap bytes unpackedAddrContracts) (addrDesc : bytes) (acs : unpackedAddrContracts)
    : list BatchOp :=
  if (ua_NonContractTxs acs =? 0) && (ua_InternalTxs acs =? 0) && (zlen (ua_Contracts acs) =? 0)
  then [DeleteCF cfAddressContracts addrDesc]
  else
    match cache !! addrDesc with
    | Some _ => []
    | None => [PutCF cfAddressContracts addrDesc (packUnpackedAddrContracts acs)]
    end.

Definition storeUnpackedAddressContracts (wb : list BatchOp) (cache acm : gmap bytes unpackedAddrContracts) : list BatchOp :=
  wb ++ concat (map (fun e => storeUnpackedContracts cache e.1 e.2) (map_to_list acm)).

Definition storeAndCleanupBlockTxsEthereumType (d : DB K) (wb : list BatchOp) (header : Block) (blockTxs : list ethBlockTx)
    : result (list BatchOp) :=
  let buf := foldl packBlockTx [] blockTxs in
  cleanupBlockTxs d (wb ++ [PutCF cfBlockTxs (packUint (blk_Height header)) buf]) header.
End EthConnect.
