(* ===== verification/EthEvents.v ===== *)
(** What connecting a block of an Ethereum-type coin means, without the cache, the lazily
    decoded rows and the index over contracts: a block is a list of events, an event adds a
    transaction to one address ([applyEvent]).

    [processBlock_events]: the code runs the events of the transactions in order and keeps, for
    the disconnection, the row of each transaction. *)

From S2P Require Import Prelude Codec Parser TxAddr Balance IndexCodec Store GoSort EthTokens EthContracts EthIndex EthParser EthRows EthContractInfo EthAliases EthState EthConnect.

Local Open Scope Z_scope.

(** A call of [addToAddressesAndContractsEthereumType]. *)
Record ethEvent := mkEvent {
  ev_addrDesc : bytes;
  ev_btxID : bytes;
  ev_index : Z;
  ev_contract : option (bytes * TokenTransfer);
  ev_addTxCount : bool;
  ev_mutateHoldings : bool;
}.

(** ** The meaning of an event *)

Definition noContracts : AddrContracts := mkAddrContracts 0 0 0 [].

Definition set_ac_Txs (n : Z) (c : AddrContract) : AddrContract :=
  mkAddrContract (ac_Standard c) (ac_Contract c) n (ac_Value c) (ac_Ids c) (ac_MultiTokenValues c).
Definition set_ac_Value (v : Z) (c : AddrContract) : AddrContract :=
  mkAddrContract (ac_Standard c) (ac_Contract c) (ac_Txs c) v (ac_Ids c) (ac_MultiTokenValues c).
Definition set_ac_Ids (ids : list Z) (c : AddrContract) : AddrContract :=
  mkAddrContract (ac_Standard c) (ac_Contract c) (ac_Txs c) (ac_Value c) ids (ac_MultiTokenValues c).
Definition set_ac_Values (vs : list MultiTokenValue) (c : AddrContract) : AddrContract :=
  mkAddrContract (ac_Standard c) (ac_Contract c) (ac_Txs c) (ac_Value c) (ac_Ids c) vs.

(** The holdings of a contract after a transfer to ([negative = false]) or from the address. *)
Definition holdings (negative : bool) (transfer : TokenTransfer) (c : AddrContract) : AddrContract :=
  if tt_Standard transfer =? FungibleToken then set_ac_Value 0 c
  else if tt_Standard transfer =? NonFungibleToken then
    set_ac_Ids (if negative then Ids.remove (ac_Ids c) (tt_Value transfer) else Ids.insert (ac_Ids c) (tt_Value transfer)) c
  else
    set_ac_Values
      (foldl (fun vs m => if negative then MultiTokenValues.upsert vs m (-1) aggSub else MultiTokenValues.upsert vs m 0 aggAdd)
         (ac_MultiTokenValues c) (tt_MultiTokenValues transfer)) c.

Definition countContract (addTxCount : bool) (c : AddrContract) : AddrContract :=
  if addTxCount then set_ac_Txs (u64 (ac_Txs c + 1)) c else c.

Definition transferContract (negative : bool) (transfer : TokenTransfer) (addTxCount mutateHoldings : bool) (c : AddrContract)
    : AddrContract :=
  countContract addTxCount (if mutateHoldings then holdings negative transfer c else c).

(** The position of a contract; a new one comes last. *)
Fixpoint position (contract : bytes) (cs : list AddrContract) : nat :=
  match cs with
  | [] => 0
  | c :: r => if bool_decide (contract = ac_Contract c) then 0 else S (position contract r)
  end.

Definition newContract (contract : bytes) (standard : TokenStandard) : AddrContract :=
  mkAddrContract standard contract 0 0 [] [].

Definition withContract (contract : bytes) (standard : TokenStandard) (cs : list AddrContract) : list AddrContract :=
  if bool_decide (contract ∈ map ac_Contract cs) then cs else cs ++ [newContract contract standard].

Definition set_acs_Contracts (cs : list AddrContract) (x : AddrContracts) : AddrContracts :=
  mkAddrContracts (acs_TotalTxs x) (acs_NonContractTxs x) (acs_InternalTxs x) cs.

(** The address after the event, but for the total count, and the index of the transfer. *)
Definition eventContracts (ev : ethEvent) (x : AddrContracts) : AddrContracts * Z :=
  match ev_contract ev with
  | None =>
      (if ev_addTxCount ev then
         if (ev_index ev =? internalTransferFrom) || (ev_index ev =? internalTransferTo)
         then mkAddrContracts (acs_TotalTxs x) (acs_NonContractTxs x) (u64 (acs_InternalTxs x + 1)) (acs_Contracts x)
         else mkAddrContracts (acs_TotalTxs x) (u64 (acs_NonContractTxs x + 1)) (acs_InternalTxs x) (acs_Contracts x)
       else x, ev_index ev)
  | Some (contract, transfer) =>
      let negative := ev_index ev <? 0 in
      if isZeroAddress (ev_addrDesc ev) then (x, if negative then transferFrom else transferTo)
      else
        let cs := withContract contract (tt_Standard transfer) (acs_Contracts x) in
        let i := position contract cs in
        let index := i32 (Z.of_nat i + ContractIndexOffset) in
        (set_acs_Contracts
           (alter (transferContract negative transfer (ev_addTxCount ev) (ev_mutateHoldings ev)) i cs) x,
         if negative then Z.lnot index else index)
  end.

Definition countTotal (counted : bool) (x : AddrContracts) : AddrContracts :=
  if counted then x
  else mkAddrContracts (u64 (acs_TotalTxs x + 1)) (acs_NonContractTxs x) (acs_InternalTxs x) (acs_Contracts x).

(** All addresses: their contracts and the transactions of the block. *)
Record Ledger := mkLedger {
  lg_contracts : gmap bytes AddrContracts;
  lg_addresses : gmap bytes (list txIndexes);
}.

Definition applyEvent (l : Ledger) (ev : ethEvent) : Ledger :=
  let x := default noContracts (lg_contracts l !! ev_addrDesc ev) in
  let '(x, index) := eventContracts ev x in
  let '(addresses, counted) := addToAddressesMapEthereumType (lg_addresses l) (ev_addrDesc ev) (ev_btxID ev) index in
  mkLedger (<[ev_addrDesc ev := countTotal counted x]> (lg_contracts l)) addresses.

(** ** The events of a transaction *)

Section Events.
Context {V : Vlq} {E : EthChainParser}.

Definition descOf (address : bytes) : option bytes :=
  match GetAddrDescFromAddress address with Ok a => Some a | _ => None end.

Definition coinEvent (btxID : bytes) (index : Z) (addTxCount : bool) (addrDesc : option bytes) : list ethEvent :=
  match addrDesc with Some a => [mkEvent a btxID index None addTxCount true] | None => [] end.

(** The sides of a transfer of the coin: the sender is counted unless it is the receiver. *)
Definition sideEvents (btxID : bytes) (toIndex fromIndex : Z) (from to : option bytes) : list ethEvent :=
  coinEvent btxID toIndex true to ++
  coinEvent btxID fromIndex (negb (bool_decide (default [] from = default [] to))) from.

Definition txFrom (tx : EthTx) : option bytes := singleAddress (etx_Vin tx) ≫= descOf.
Definition txTo (tx : EthTx) : option bytes := singleAddress (etx_Vout tx) ≫= descOf.

Definition baseEvents (btxID : bytes) (tx : EthTx) : list ethEvent :=
  sideEvents btxID transferTo transferFrom (txFrom tx) (txTo tx).

Definition internalOf (tx : EthTx) : option EthereumInternalData := etx_CoinSpecificData tx ≫= esd_InternalData.

Definition createdContract (id : EthereumInternalData) : option bytes :=
  if id_Type id =? CREATE then descOf (id_Contract id) else None.

Definition internalEvents (btxID : bytes) (id : EthereumInternalData) : list ethEvent :=
  coinEvent btxID internalTransferTo true (createdContract id) ++
  concat (map (fun t => sideEvents btxID internalTransferTo internalTransferFrom (descOf (it_From t)) (descOf (it_To t)))
            (id_Transfers id)).

Definition transferEvents (btxID : bytes) (it : nat * TokenTransfer) : list ethEvent :=
  let '(i, t) := it in
  match transferAddresses t with
  | Ok (contract, from, to) =>
      let mutateHoldings := negb (isNFTSelfTransfer from to (tt_Standard t)) in
      let index := i32 (Z.of_nat i) in
      [mkEvent to btxID index (Some (contract, t)) true mutateHoldings;
       mkEvent from btxID (Z.lnot index) (Some (contract, t)) (negb (bool_decide (from = to))) mutateHoldings]
  | _ => []
  end.

Definition transfersOf (tx : EthTx) : list TokenTransfer :=
  match tokenTransfersOf tx with Ok l => l | _ => [] end.

Definition txEvents (btxID : bytes) (tx : EthTx) : list ethEvent :=
  baseEvents btxID tx ++
  (match internalOf tx with Some id => internalEvents btxID id | None => [] end) ++
  concat (map (transferEvents btxID) (imap pair (transfersOf tx))).

(** The row of a transaction. *)
Definition internalTransferRow (t : EthereumInternalTransfer) : ethInternalTransfer :=
  mkEIT (it_Type t) (default [] (descOf (it_From t))) (default [] (descOf (it_To t))) (it_Value t).

Definition internalRow (id : EthereumInternalData) : ethInternalData :=
  mkEID (if id_Type id =? CREATE then match descOf (id_Contract id) with Some _ => CREATE | None => CALL end else id_Type id)
    (default [] (createdContract id)) (map internalTransferRow (id_Transfers id)) (id_Error id).

Definition transferRow (t : TokenTransfer) : ethBlockTxContract :=
  match transferAddresses t with
  | Ok (contract, from, to) => mkBTC from to contract (tt_Standard t) (tt_Value t) (tt_MultiTokenValues t)
  | _ => blankContract
  end.

Definition blockTxOf (btxID : bytes) (tx : EthTx) : ethBlockTx :=
  mkEBT btxID (default [] (txFrom tx)) (default [] (txTo tx)) (map transferRow (transfersOf tx))
    (internalRow <$> internalOf tx).
End Events.

(** ** The code runs the events *)

Section RunEvents.
Context {V : Vlq} {E : EthChainParser} {EL : EthChainParserLaws E} {IX : IndexOpts} {K : KV} {CO : EthCacheOpts}.

Definition runEvent (ev : ethEvent) : EthM K unit :=
  addToAddressesAndContractsEthereumType (ev_addrDesc ev) (ev_btxID ev) (ev_index ev) (ev_contract ev)
    (ev_addTxCount ev) (ev_mutateHoldings ev).

Fixpoint runEvents (evs : list ethEvent) : EthM K unit :=
  match evs with
  | [] => mret tt
  | ev :: r => _ ← runEvent ev; runEvents r
  end.

(** A computation runs the events and returns [x]. *)
Definition runsTo {A} (m : EthM K A) (evs : list ethEvent) (x : A) : Prop :=
  forall st, m st = (_ ← runEvents evs; mret x) st.

Lemma runsTo_ret {A} (x : A) : runsTo (mret x) [] x.
Proof. done. Qed.

Lemma runEvents_split a b st : runEvents (a ++ b) st = (_ ← runEvents a; runEvents b) st.
Proof.
  revert st. induction a as [|ev a IH]; intros st; [done|]. cbn [app runEvents]. unfold mbind, EthM_bind in *.
  destruct (runEvent ev st) as [[[]| |] st']; [|done..]. apply IH.
Qed.

Lemma runsTo_bind {A B} (m : EthM K A) (k : A -> EthM K B) evs evs' x y :
  runsTo m evs x -> runsTo (k x) evs' y -> runsTo (m ≫= k) (evs ++ evs') y.
Proof.
  intros Hm Hk st. unfold runsTo, mbind, EthM_bind, mret, EthM_ret in *. rewrite Hm, runEvents_split.
  unfold mbind, EthM_bind. destruct (runEvents evs st) as [[[]| |] st']; [|done..]. apply Hk.
Qed.

Lemma runsTo_event ev : runsTo (runEvent ev) [ev] tt.
Proof.
  intros st. cbn [runEvents]. unfold mbind, EthM_bind, mret, EthM_ret. by destruct (runEvent ev st) as [[[]| |] st'].
Qed.

Lemma runsTo_ext {A} (m m' : EthM K A) evs x : (forall st, m st = m' st) -> runsTo m' evs x -> runsTo m evs x.
Proof. intros H Hm st. by rewrite H. Qed.

Lemma runsTo_liftR {A} (x : A) : runsTo (liftR (Ok x)) [] x.
Proof. done. Qed.

Lemma runsTo_mmap {A B} (f : A -> EthM K B) (evs : A -> list ethEvent) (g : A -> B) l :
  Forall (fun x => runsTo (f x) (evs x) (g x)) l -> runsTo (mmap f l) (concat (map evs l)) (map g l).
Proof.
  induction 1 as [|x l Hx _ IH]; [by apply runsTo_ret|]. cbn [mmap map concat].
  eapply runsTo_bind; [exact Hx|]. rewrite <- (app_nil_r (concat _)). eapply runsTo_bind; [exact IH|]. apply runsTo_ret.
Qed.

(** Index an address when its text is one. *)
Lemma runsTo_desc (address btxID : bytes) index addTxCount (c : EthM K bytes) :
  c = match GetAddrDescFromAddress address with
      | Ok a => _ ← addToAddressesAndContractsEthereumType a btxID index None (addTxCount a) true; mret a
      | Err _ => mret []
      | Panic => liftR Panic
      end ->
  runsTo c (coinEvent btxID index (addTxCount (default [] (descOf address))) (descOf address)) (default [] (descOf address)).
Proof.
  intros ->. unfold descOf. pose proof (GetAddrDesc_no_panic address).
  destruct (GetAddrDescFromAddress address) as [a| |]; [|apply runsTo_ret|done].
  cbn [default coinEvent id]. rewrite <- (app_nil_r [_]). eapply runsTo_bind; [|apply runsTo_ret].
  apply (runsTo_event (mkEvent a btxID index None (addTxCount a) true)).
Qed.

Lemma processBaseTxData_events btxID tx :
  runsTo (processBaseTxData btxID tx) (baseEvents btxID tx) (default [] (txFrom tx), default [] (txTo tx)).
Proof.
  unfold processBaseTxData, baseEvents, sideEvents, txFrom, txTo.
  eapply runsTo_bind with (x := default [] (singleAddress (etx_Vout tx) ≫= descOf)).
  - destruct (singleAddress (etx_Vout tx)) as [a|]; [|apply runsTo_ret]. cbn [mbind option_bind].
    by apply (runsTo_desc a btxID transferTo (fun _ => true)).
  - rewrite <- (app_nil_r (coinEvent _ _ _ _)).
    eapply runsTo_bind with (x := default [] (singleAddress (etx_Vin tx) ≫= descOf)); [|apply runsTo_ret].
    destruct (singleAddress (etx_Vin tx)) as [a|]; [|apply runsTo_ret]. cbn [mbind option_bind].
    set (to := default [] (singleAddress (etx_Vout tx) ≫= descOf)).
    pose (f := fun from : bytes => negb (bool_decide (from = to))). by apply (runsTo_desc a btxID transferFrom f).
Qed.

Lemma addInternal_false a btxID h index addTxCount st :
  addInternal a btxID h index addTxCount false st = addToAddressesAndContractsEthereumType a btxID index None addTxCount true st.
Proof. done. Qed.

Lemma processInternalTransfer_events btxID h t :
  runsTo (processInternalTransfer btxID h false t)
    (sideEvents btxID internalTransferTo internalTransferFrom (descOf (it_From t)) (descOf (it_To t))) (internalTransferRow t).
Proof.
  unfold processInternalTransfer, sideEvents, internalTransferRow.
  eapply runsTo_bind; [by apply (runsTo_desc (it_To t) btxID internalTransferTo (fun _ => true))|].
  rewrite <- (app_nil_r (coinEvent _ _ _ _)). eapply runsTo_bind; [|apply runsTo_ret].
  set (to := default [] (descOf (it_To t))).
  pose (f := fun from : bytes => negb (bool_decide (from = to))). by apply (runsTo_desc (it_From t) btxID internalTransferFrom f).
Qed.

Lemma processInternalData_events btxID tx id :
  runsTo (processInternalData btxID tx id false) (internalEvents btxID id) (internalRow id).
Proof.
  unfold processInternalData, internalEvents, internalRow, createdContract.
  eapply runsTo_bind with (x := (if id_Type id =? CREATE then match descOf (id_Contract id) with Some _ => CREATE | None => CALL end else id_Type id,
    default [] (if id_Type id =? CREATE then descOf (id_Contract id) else None))).
  - destruct (Z.eqb_spec (id_Type id) CREATE) as [Ec|]; [|apply runsTo_ret]. unfold descOf.
    pose proof (GetAddrDesc_no_panic (id_Contract id)).
    destruct (GetAddrDescFromAddress (id_Contract id)) as [a| |]; [|apply runsTo_ret|done]. rewrite Ec.
    cbn [default coinEvent]. rewrite <- (app_nil_r [_]). eapply runsTo_bind; [|apply runsTo_ret].
    apply (runsTo_event (mkEvent a btxID internalTransferTo None true true)).
  - cbn beta iota. rewrite <- (app_nil_r (concat _)). eapply runsTo_bind; [|apply runsTo_ret].
    apply (runsTo_mmap (processInternalTransfer btxID (etx_BlockHeight tx) false)).
    apply Forall_forall. intros t _. apply processInternalTransfer_events.
Qed.

Lemma map_imap_snd {A B} (f : A -> B) (l : list A) : map (fun it : nat * A => f it.2) (imap pair l) = map f l.
Proof. rewrite !fmap_map, fmap_imap. apply (imap_const f). Qed.

Lemma transferAddresses_no_panic t : transferAddresses t <> Panic.
Proof.
  unfold transferAddresses. pose proof (GetAddrDesc_no_panic (tt_Contract t)). pose proof (GetAddrDesc_no_panic (tt_From t)).
  pose proof (GetAddrDesc_no_panic (tt_To t)). repeat (destruct (GetAddrDescFromAddress _); cbn [rbind]; try done).
Qed.

Lemma processContractTransfer_events btxID it :
  runsTo (processContractTransfer btxID it) (transferEvents btxID it) (transferRow it.2).
Proof.
  destruct it as [i t]. unfold processContractTransfer, transferEvents, transferRow. cbn [snd].
  pose proof (transferAddresses_no_panic t).
  destruct (transferAddresses t) as [[[c from] to]| |]; [|apply runsTo_ret|done].
  set (m := negb (isNFTSelfTransfer from to (tt_Standard t))). set (ix := i32 (Z.of_nat i)).
  change [?a; ?b] with ([a] ++ [b]).
  eapply runsTo_bind; [apply (runsTo_event (mkEvent to btxID ix (Some (c, t)) true m))|].
  rewrite <- (app_nil_r [_]). eapply runsTo_bind; [|apply runsTo_ret].
  apply (runsTo_event (mkEvent from btxID (Z.lnot ix) (Some (c, t)) (negb (bool_decide (from = to))) m)).
Qed.

(** The parser of token transfers does not panic. *)
Definition transfersTotal (tx : EthTx) : Prop := EthereumTypeGetTokenTransfersFromTx tx <> Panic.

Lemma processTx_events tx btxID : PackTxid (etx_Txid tx) = Ok btxID -> transfersTotal tx ->
  runsTo (processTxEthereumType tx) (txEvents btxID tx) (blockTxOf btxID tx).
Proof.
  intros Hp Ht. unfold processTxEthereumType, txEvents, blockTxOf. rewrite Hp.
  eapply (runsTo_bind _ _ [] _ btxID); [apply runsTo_liftR|].
  eapply runsTo_bind; [apply processBaseTxData_events|]. cbn beta iota.
  eapply runsTo_bind with (x := internalRow <$> internalOf tx).
  - unfold internalOf. destruct (etx_CoinSpecificData tx) as [eid|]; [|apply runsTo_ret]. cbn [mbind option_bind].
    destruct (esd_InternalData eid) as [id|]; [|apply runsTo_ret]. rewrite <- (app_nil_r (internalEvents _ _)).
    eapply runsTo_bind; [apply processInternalData_events|]. apply runsTo_ret.
  - rewrite <- (app_nil_r (concat _)). eapply runsTo_bind with (x := map transferRow (transfersOf tx)); [|apply runsTo_ret].
    unfold processContractTransfers, transfersOf, tokenTransfersOf. unfold transfersTotal in Ht.
    destruct (EthereumTypeGetTokenTransfersFromTx tx) as [l| |]; [| |done].
    + eapply (runsTo_bind _ _ [] _ l); [apply runsTo_liftR|]. rewrite <- (map_imap_snd transferRow).
      apply (runsTo_mmap (processContractTransfer btxID) (transferEvents btxID) (fun it => transferRow it.2)).
      apply Forall_forall. intros it _. apply processContractTransfer_events.
    + eapply (runsTo_bind _ _ [] _ []); [apply runsTo_liftR|]. apply runsTo_ret.
Qed.

(** The events and the rows of a block whose txids are packed to [ids]. *)
Definition blockEvents (ids : list bytes) (txs : list EthTx) : list ethEvent := concat (zip_with txEvents ids txs).
Definition blockRows (ids : list bytes) (txs : list EthTx) : list ethBlockTx := zip_with blockTxOf ids txs.

Lemma processBlock_events txs ids :
  Forall2 (fun tx id => PackTxid (etx_Txid tx) = Ok id) txs ids -> Forall transfersTotal txs ->
  forall st, processAddressesEthereumType txs st
    = (_ ← runEvents (blockEvents ids txs); mret (blockRows ids txs)) (with_hot (BeginBlock (es_hot st)) st).
Proof.
  intros H Ht st. unfold processAddressesEthereumType, mbind at 1, EthM_bind at 1, modifyM.
  generalize (with_hot (BeginBlock (es_hot st)) st). clear st. change (runsTo (mmap processTxEthereumType txs) (blockEvents ids txs) (blockRows ids txs)).
  induction H as [|tx id txs ids Hp _ IH]; [apply runsTo_ret|]. apply Forall_cons in Ht as [Ht Hts].
  cbn [mmap]. unfold blockEvents, blockRows. cbn [zip_with concat].
  eapply runsTo_bind; [by apply processTx_events|]. rewrite <- (app_nil_r (concat _)).
  eapply runsTo_bind; [by apply IH|]. apply runsTo_ret.
Qed.
End RunEvents.
