(* ===== verification/EthConnectCorrect.v ===== *)
(** Connecting a block of an Ethereum-type coin does what its events mean: the cache of large
    rows, the rows that are decoded when they are needed, the index over contracts and the
    writing out of the cache in the middle of a block cannot be observed.

    [agrees st l]: the state of the code stands for the ledger [l]. *)

From S2P Require Import Prelude Codec Parser TxAddr Balance IndexCodec Store GoSort EthTokens EthContracts EthIndex EthParser EthRows EthContractInfo EthAliases EthState EthConnect EthEvents.

Local Open Scope Z_scope.

(** ** One contract *)

(** [crepr] without the value of a fungible contract, which a new contract has not yet. *)
Record crepr_new (u : unpackedAddrContract) (ac : AddrContract) : Prop := {
  cn_Standard : uac_Standard u = ac_Standard ac;
  cn_Contract : uac_Contract u = ac_Contract ac;
  cn_Txs : uac_Txs u = ac_Txs ac;
  cn_Value : vrepr (uac_Value u) (ac_Value ac);
  cn_Ids : Forall2 repr (uac_Ids u) (ac_Ids ac);
  cn_Values : Forall2 mrepr (uac_MultiTokenValues u) (ac_MultiTokenValues ac);
}.

Lemma crepr_weaken u ac : crepr u ac -> crepr_new u ac.
Proof. by intros [? ? ? ? ? ? ?]. Qed.

Lemma upsert_sign s m index f :
  MultiTokenValues.upsert s m index f = MultiTokenValues.upsert s m (if index <? 0 then -1 else 0) f.
Proof.
  unfold MultiTokenValues.upsert. destruct (Z.ltb_spec index 0), (Z.leb_spec 0 index); try lia; done.
Qed.

Lemma upsertAll_refines ts index f us vs : Forall2 mrepr us vs ->
  exists us', upsertAll ts index f us = Ok us' /\
    Forall2 mrepr us' (foldl (fun vs m => MultiTokenValues.upsert vs m (if index <? 0 then -1 else 0) f) vs ts).
Proof.
  revert us vs. induction ts as [|t ts IH]; intros us vs H; [by exists us|]. unfold upsertAll. cbn [rfold foldl].
  destruct (unpackedValues_upsert us vs t index f H) as (us1 & -> & H1). cbn [rbind].
  rewrite upsert_sign in H1. by apply IH.
Qed.

Lemma normalizeValue_spec v : normalizeValue v = mkUBI [] (Some 0).
Proof.
  unfold normalizeValue. destruct v as [s [n|]]; cbn [ub_Value ub_Slice]; [|done].
  destruct ((0 <? zlen s) || negb (n =? 0)) eqn:E; [done|]. apply orb_false_iff in E as [E1 E2].
  apply negb_false_iff, Z.eqb_eq in E2. subst n. apply Z.ltb_ge in E1. pose proof (zlen_nonneg s).
  by rewrite (zlen_0 s) by lia.
Qed.

(** The index of a transfer of the contract at a position. *)
Definition transferIndex (negative : bool) (i : nat) : Z :=
  let index := i32 (Z.of_nat i + ContractIndexOffset) in if negative then Z.lnot index else index.

Lemma transferIndex_sign negative i : Z.of_nat i < 2 ^ 31 - 2 -> (transferIndex negative i <? 0) = negative.
Proof.
  intros Hi. unfold transferIndex, ContractIndexOffset. rewrite i32_id by (unfold is_i32; lia).
  destruct negative; [apply Z.ltb_lt; unfold Z.lnot; lia|apply Z.ltb_ge; lia].
Qed.

Lemma addToContract_refines c x i index t addTxCount mutateHoldings :
  crepr_new c x -> Z.of_nat i < 2 ^ 31 - 2 ->
  (ac_Standard x = FungibleToken -> repr (uac_Value c) (ac_Value x) \/ tt_Standard t = FungibleToken /\ mutateHoldings = true) ->
  exists c', addToContract c (Z.of_nat i) index t addTxCount mutateHoldings = Ok (c', transferIndex (index <? 0) i) /\
    crepr c' (transferContract (index <? 0) t addTxCount mutateHoldings x).
Proof.
  intros Hc Hi Hf. unfold addToContract.
  set (neg := index <? 0). cbv zeta.
  change (if neg then Z.lnot (i32 (Z.of_nat i + ContractIndexOffset)) else i32 (Z.of_nat i + ContractIndexOffset))
    with (transferIndex neg i).
  assert (Hcount : forall (b : bool) c x, crepr c x ->
    crepr (if b then set_uac_Txs (u64 (uac_Txs c + 1)) c else c) (countContract b x)).
  { intros [] c0 x0 H; [|done]. destruct H as [? ? HT ? ? ? ?]. constructor; try done. cbn. by rewrite HT. }
  unfold transferContract. destruct mutateHoldings; cbn [negb].
  2: { eexists. split; [done|]. apply Hcount. destruct Hc. constructor; try done. intros HS. by destruct (Hf HS) as [|[_ ?]]. }
  unfold holdings. destruct Hc as [H1 H2 H3 H4 H5 H6].
  destruct (Z.eqb_spec (tt_Standard t) FungibleToken) as [Et|Et].
  { cbn [rbind]. eexists. split; [done|]. apply Hcount. rewrite normalizeValue_spec.
    constructor; cbn; try done; [by left; left|intros _; by left]. }
  assert (Hf' : ac_Standard x = FungibleToken -> repr (uac_Value c) (ac_Value x)).
  { intros HS. by destruct (Hf HS) as [|[? _]]. }
  rewrite (transferIndex_sign neg i Hi).
  destruct (Z.eqb_spec (tt_Standard t) NonFungibleToken) as [En|En].
  - destruct neg.
    + destruct (unpackedIds_remove _ _ (tt_Value t) H5) as (ids & -> & Hids). cbn [rbind]. eexists. split; [done|].
      apply Hcount. by constructor.
    + destruct (unpackedIds_insert _ _ (tt_Value t) H5) as (ids & -> & Hids). cbn [rbind]. eexists. split; [done|].
      apply Hcount. by constructor.
  - destruct (upsertAll_refines (tt_MultiTokenValues t) (transferIndex neg i) (if neg then aggSub else aggAdd) _ _ H6) as (vs & -> & Hvs).
    cbn [rbind]. eexists. split; [done|]. apply Hcount. rewrite (transferIndex_sign neg i Hi) in Hvs.
    constructor; try done. cbn. by destruct neg.
Qed.

(** ** The contracts of an address *)

(** A row that can be stored and one more transaction added to. *)
Definition counters_ok (x : AddrContracts) : Prop :=
  acs_TotalTxs x < 2 ^ 64 - 1 /\ acs_NonContractTxs x < 2 ^ 64 - 1 /\ acs_InternalTxs x < 2 ^ 64 - 1.

(** No transactions and no contracts: the row is removed. *)
Definition droppable (x : AddrContracts) : bool :=
  (acs_NonContractTxs x =? 0) && (acs_InternalTxs x =? 0) && (zlen (acs_Contracts x) =? 0).

Definition stored_ok (x : AddrContracts) : Prop :=
  contracts_ok x /\ zlen (acs_Contracts x) < 2 ^ 31 - 2 /\ counters_ok x.

(** What can be stored is decidable. *)
#[export] Instance holdings_ok_dec ac : Decision (holdings_ok ac).
Proof.
  unfold holdings_ok. destruct (ac_Standard ac =? FungibleToken); [apply _|].
  destruct (ac_Standard ac =? NonFungibleToken); apply _.
Defined.
#[export] Instance contract_ok_dec ac : Decision (contract_ok ac).
Proof. unfold contract_ok. apply _. Defined.
#[export] Instance stored_ok_dec x : Decision (stored_ok x).
Proof. unfold stored_ok, contracts_ok, counters_ok, is_u64. apply _. Defined.

Lemma crepr_contracts us cs : Forall2 crepr us cs -> map uac_Contract us = map ac_Contract cs.
Proof. induction 1 as [|u c us cs Hc _ IH]; [done|]. cbn. f_equal; [apply Hc|exact IH]. Qed.

Lemma find_position contract us cs i : map uac_Contract us = map ac_Contract cs ->
  findFrom contract us i = if bool_decide (contract ∈ map ac_Contract cs) then Some (i + position contract cs)%nat else None.
Proof.
  revert i cs. induction us as [|u us IH]; intros i [|c cs] Hm; try done. injection Hm as Hc Hm.
  cbn [findFrom position map]. rewrite Hc. destruct (bool_decide (contract = ac_Contract c)) eqn:Ec.
  - apply bool_decide_eq_true in Ec. rewrite bool_decide_eq_true_2 by set_solver. f_equal. lia.
  - apply bool_decide_eq_false in Ec. rewrite (IH (S i) cs Hm).
    destruct (decide (contract ∈ map ac_Contract cs)).
    + rewrite !bool_decide_eq_true_2 by set_solver. f_equal. lia.
    + by rewrite !bool_decide_eq_false_2 by set_solver.
Qed.

Lemma position_lookup contract cs : contract ∈ map ac_Contract cs ->
  exists c, cs !! position contract cs = Some c /\ ac_Contract c = contract.
Proof.
  induction cs as [|c cs IH]; cbn [map]; [set_solver|]. intros Hin. cbn [position].
  case_bool_decide as Ec; [by exists c|]. apply elem_of_cons in Hin as [?|Hin]; [done|]. by apply IH.
Qed.

Lemma position_new contract cs c : contract ∉ map ac_Contract cs -> ac_Contract c = contract ->
  position contract (cs ++ [c]) = length cs.
Proof.
  intros Hn Hc. induction cs as [|c0 cs IH]; cbn [app position length].
  - by rewrite bool_decide_eq_true_2.
  - rewrite bool_decide_eq_false_2 by (intros ->; apply Hn; left). f_equal. apply IH. intros ?. apply Hn. by right.
Qed.

Lemma alter_lookup_insert {A} (f : A -> A) (l : list A) i x : l !! i = Some x -> alter f i l = <[i := f x]> l.
Proof.
  revert i. induction l as [|y l IH]; intros [|i] H; try done; cbn in *; [by injection H as ->|].
  f_equal. by apply IH.
Qed.

(** ** The state stands for a ledger *)

Section Agrees.
Context {V : Vlq} {VL : VlqLaws V} {E : EthChainParser} {EL : EthChainParserLaws E} {IX : IndexOpts}.
Context {K : KV} {KL : KVLaws K} {CO : EthCacheOpts}.
Implicit Types (st : EthState K) (l : Ledger).

Definition row_is (v : option bytes) (o : option AddrContracts) : Prop :=
  match o with
  | None => valData v = []
  | Some x => v = Some (packAddrContracts x) /\ stored_ok x /\ NoDup (map ac_Contract (acs_Contracts x)) /\ droppable x = false
  end.

Definition object_is (u : unpackedAddrContracts) (o : option AddrContracts) : Prop :=
  exists x, o = Some x /\ urepr u x /\ index_ok u /\ stored_ok x.

(** The object of an address: of the block, or else of the cache. *)
Definition live st (a : bytes) : option unpackedAddrContracts :=
  match es_addressContracts st !! a with Some u => Some u | None => es_cache st !! a end.

Definition stands_for st l (a : bytes) : Prop :=
  (forall u u', es_addressContracts st !! a = Some u -> es_cache st !! a = Some u' -> u = u') /\
  match live st a with
  | Some u => object_is u (lg_contracts l !! a)
  | None => row_is (kv_get (db_cf (es_db st) cfAddressContracts) a) (lg_contracts l !! a)
  end.

Definition no_faults (d : DB K) : Prop := (forall cf k, db_rfault d cf k = false) /\ db_wfault d = false.

(** The rows in the cache are not the ones [storeUnpackedAddressContracts] removes. *)
Definition cache_kept st l : Prop :=
  forall a, is_Some (es_cache st !! a) -> exists x, lg_contracts l !! a = Some x /\ droppable x = false.

(** Agreement at all addresses but those in [except]. *)
Definition agrees_but (except : bytes -> Prop) st l : Prop :=
  es_addresses st = lg_addresses l /\ (no_faults (es_db st) /\ cache_kept st l) /\ forall a, ~ except a -> stands_for st l a.

Definition agrees : EthState K -> Ledger -> Prop := agrees_but (fun _ => False).

Lemma object_nodup u x : urepr u x -> index_ok u -> NoDup (map ac_Contract (acs_Contracts x)).
Proof. intros Hu [Hn _]. by rewrite <- (crepr_contracts _ _ (ur_Contracts _ _ Hu)). Qed.

(** ** Writing out the cache *)

Lemma snapshot_get cache (d : DB K) cf k : no_faults d ->
  kv_get (db_cf (writeContractsCacheSnapshot cache d) cf) k =
  match (if decide (cf = cfAddressContracts) then cache !! k else None) with
  | Some u => Some (packUnpackedAddrContracts u)
  | None => kv_get (db_cf d cf) k
  end.
Proof.
  intros [_ Hw]. unfold writeContractsCacheSnapshot, WriteBatch. rewrite Hw. cbn [db_cf]. rewrite kv_get_batch.
  case_decide as Ec.
  - subst cf. rewrite batch_get_map_key by done. by destruct (cache !! k).
  - rewrite batch_get_other; [done|]. apply Forall_forall. intros op (e & -> & _)%list_elem_of_fmap. left. cbn. congruence.
Qed.

Lemma snapshot_faults cache (d : DB K) : no_faults d -> no_faults (writeContractsCacheSnapshot cache d).
Proof. intros [Hr Hw]. unfold writeContractsCacheSnapshot, WriteBatch. rewrite Hw. by split. Qed.

Lemma flush_agrees st l except : agrees_but except st l -> agrees_but except (flushAddrContractsCache st) l.
Proof.
  intros (Ha & Hf & Hs). unfold flushAddrContractsCache. case_match eqn:Ec.
  - split; [done|]. destruct Hf as [Hf Hk]. split; [split; [by apply snapshot_faults|by intros a [? ?]]|].
    intros a Hx. destruct (Hs a Hx) as [Hal Hl].
    split; [by intros u u' _ ?|]. unfold live in *. cbn in *.
    destruct (es_addressContracts st !! a) as [u|]; [done|]. cbn. rewrite lookup_empty, snapshot_get by done.
    rewrite decide_True by done. destruct (es_cache st !! a) as [u|] eqn:Eu; [|done].
    destruct Hl as (x & Ex & Hu & Hi & Hok). destruct (Hk a) as (x' & Ex' & Hd); [eauto|]. rewrite Ex in Ex'. injection Ex' as <-.
    rewrite Ex. split_and!; [by rewrite packUnpackedAddrContracts_repr with (acs := x)|done|by eapply object_nodup|done].
  - split; [done|]. split; [split; [apply Hf|by intros a [? ?]]|]. intros a Hx. destruct (Hs a Hx) as [Hal Hl].
    assert (es_cache st = ∅) as Ee by (apply map_size_empty_inv; lia).
    split; [by intros u u' _ ?|]. unfold live in *. cbn. rewrite Ee in Hl. done.
Qed.

(** ** Loading an address *)

Lemma pack_nonempty x : contracts_ok x -> zlen (packAddrContracts x) =? 0 = false.
Proof.
  intros (Ht & _). unfold packAddrContracts, packCounters. pose proof (zlen_packVaruint _ Ht). apply Z.eqb_neq. zlen_lia.
Qed.

Lemma lazy_index_ok x : NoDup (map ac_Contract (acs_Contracts x)) -> contracts_ok x -> index_ok (lazyContracts x).
Proof.
  intros Hn Hx. split; [|done]. by rewrite (crepr_contracts _ _ (ur_Contracts _ _ (lazyContracts_repr x Hx))).
Qed.

Definition only (a b : bytes) : Prop := b = a.

Lemma getUnpacked_agrees a st l : agrees st l -> es_addressContracts st !! a = None ->
  exists rv st', getUnpackedAddrDescContracts a st = (Ok rv, st') /\ agrees st' l
  /\ es_addressContracts st' = es_addressContracts st
  /\ (forall u, es_cache st' !! a = Some u -> rv = Some u)
  /\ match rv with Some u => object_is u (lg_contracts l !! a) | None => lg_contracts l !! a = None end.
Proof.
  intros Hag Hn. pose proof Hag as (Ha & Hf & Hs). destruct (Hs a) as [_ Hl]; [tauto|]. unfold live in Hl. rewrite Hn in Hl.
  unfold getUnpackedAddrDescContracts. destruct (es_cache st !! a) as [u|] eqn:Ec.
  { exists (Some u), st. split_and!; try done. intros u' Hu'. congruence. }
  unfold GetCF. destruct Hf as [[Hr Hw] Hk]. rewrite Hr. unfold row_is in Hl.
  destruct (lg_contracts l !! a) as [x|] eqn:Ex.
  2: { rewrite Hl. cbn. exists None, st. split_and!; try done. intros u' Hu'. congruence. }
  destruct Hl as (-> & Hok & Hnd & Hdr). cbn [valData]. rewrite pack_nonempty by apply Hok. rewrite partiallyUnpack_pack by apply Hok.
  assert (Hobj : object_is (lazyContracts x) (Some x)).
  { exists x. split_and!; [done|apply lazyContracts_repr, Hok|apply lazy_index_ok; [done|apply Hok]|done]. }
  set (min := if opt_addrContractsCacheMinSize <=? 0 then _ else _). destruct (min <? zlen (packAddrContracts x)).
  2: { exists (Some (lazyContracts x)), st. split_and!; try done. intros u' Hu'. congruence. }
  set (st1 := with_cache (<[a := lazyContracts x]> (es_cache st)) _ st).
  assert (Hag1 : agrees st1 l).
  { split; [done|]. split.
    { split; [done|]. intros b [u Hu]. subst st1. cbn in Hu. destruct (decide (b = a)) as [->|]; [by exists x|].
      rewrite lookup_insert_ne in Hu by done. eauto. }
    intros b _. destruct (Hs b) as [Hal Hlb]; [tauto|]. subst st1. unfold stands_for, live in *. cbn.
    destruct (decide (b = a)) as [->|].
    - rewrite Hn, lookup_insert_eq. split; [done|]. by rewrite Ex.
    - rewrite lookup_insert_ne by done. done. }
  eexists _, _. split; [done|]. destruct ((0 <? _) && _).
  - split; [by apply flush_agrees|]. unfold flushAddrContractsCache. case_match; (split_and!; [done|by intros u ?|done]).
  - split; [done|]. split_and!; [done| |done]. intros u. subst st1. cbn. rewrite lookup_insert_eq. by intros [= ->].
Qed.

Lemma empty_repr : urepr emptyContracts noContracts.
Proof. by constructor. Qed.

Lemma emptyContracts_ok : index_ok emptyContracts.
Proof. split; [apply NoDup_nil_2|done]. Qed.

Lemma loadContracts_agrees a st l : agrees st l ->
  exists ac st', loadContracts a st = (Ok ac, st') /\ agrees_but (only a) st' l
  /\ urepr ac (default noContracts (lg_contracts l !! a)) /\ index_ok ac.
Proof.
  intros Hag. pose proof Hag as (Ha & Hf & Hs). unfold loadContracts, mbind, EthM_bind, gets.
  destruct (es_addressContracts st !! a) as [ac|] eqn:Ea.
  - exists ac, st. split; [done|]. split; [split; [done|]; split; [done|]; intros b _; apply Hs; tauto|].
    destruct (Hs a) as [_ Hl]; [tauto|]. unfold live in Hl. rewrite Ea in Hl. by destruct Hl as (x & -> & Hu & Hi & _).
  - destruct (getUnpacked_agrees a st l Hag Ea) as (rv & st' & -> & (Ha' & Hf' & Hs') & Em & Hc & Hrv).
    eexists _, _. split; [done|]. split.
    + split; [done|]. split; [done|]. intros b Hb. unfold only in Hb. destruct (Hs' b) as [Hal Hl]; [tauto|].
      unfold stands_for, live in *. cbn. rewrite lookup_insert_ne by congruence. done.
    + destruct rv as [u|].
      * by destruct Hrv as (x & -> & Hu & Hi & _).
      * rewrite Hrv. split; [apply empty_repr|apply emptyContracts_ok].
Qed.

(** ** Looking up a contract *)

Lemma drop_repr u o : object_is u o -> object_is (dropContractIndex u) o.
Proof. intros (x & -> & [] & [Hn _] & Hok). exists x. split_and!; [done|by constructor|by split|done]. Qed.

Lemma dropIndex_agrees k st l except : agrees_but except st l -> agrees_but except (dropAddrContractsContractIndex k st) l.
Proof.
  intros (Ha & Hf & Hs). unfold dropAddrContractsContractIndex. destruct (es_cache st !! k) as [acs|] eqn:Ek; [|by split].
  assert (Hall : forall m, (m = es_addressContracts st \/
     (is_Some (es_addressContracts st !! k) /\ m = <[k := dropContractIndex acs]> (es_addressContracts st))) ->
    (es_addressContracts st !! k = None -> m = es_addressContracts st) ->
    (is_Some (es_addressContracts st !! k) -> m = <[k := dropContractIndex acs]> (es_addressContracts st)) ->
    forall b, ~ except b ->
    stands_for (with_contracts m (with_cache (<[k := dropContractIndex acs]> (es_cache st)) (es_cacheBytes st) st)) l b).
  { intros m _ Hm1 Hm2 b Hb. destruct (Hs b Hb) as [Hal Hl]. unfold stands_for, live in *. cbn.
    destruct (decide (b = k)) as [->|Hne].
    - rewrite lookup_insert_eq. destruct (es_addressContracts st !! k) as [u|] eqn:Eu.
      + rewrite Hm2 by eauto. rewrite lookup_insert_eq. split; [by intros ? ? [= <-] [= <-]|].
        rewrite <- (Hal u acs eq_refl Ek). by apply drop_repr.
      + rewrite Hm1, Eu by done. split; [done|]. rewrite Ek in Hl. by apply drop_repr.
    - rewrite lookup_insert_ne by done.
      assert (m !! b = es_addressContracts st !! b) as ->; [|done].
      destruct (es_addressContracts st !! k) as [u|] eqn:Eu; [rewrite Hm2 by eauto; by rewrite lookup_insert_ne|by rewrite Hm1]. }
  assert (Hk : forall a u, is_Some (<[k := u]> (es_cache st) !! a) -> exists x, lg_contracts l !! a = Some x /\ droppable x = false).
  { intros a u Hu. apply Hf. destruct (decide (a = k)) as [->|]; [by rewrite Ek|]. by rewrite lookup_insert_ne in Hu by done. }
  destruct (es_addressContracts st !! k) as [u|] eqn:Eu; cbn; rewrite Eu.
  - split; [done|]. split; [split; [apply Hf|intros a; apply Hk]|]. apply Hall; [right; eauto|done|done].
  - split; [done|]. split; [split; [apply Hf|intros a; apply Hk]|]. intros b Hb.
    apply (Hall (es_addressContracts st)); [by left|done|by intros [? ?]|done].
Qed.

Lemma findContractIndexM_agrees a contract acs st l except : agrees_but except st l -> index_ok acs ->
  exists acs' st', findContractIndexM a contract acs st
    = (Ok (findContractInAddressContracts contract (ua_Contracts acs), acs'), st')
  /\ agrees_but except st' l /\ index_ok acs' /\ same_contracts acs acs'.
Proof.
  intros Hag Hi. unfold findContractIndexM.
  destruct (findContractIndex a contract (es_hot st) acs) as [[[r acs'] hot] e] eqn:Ef.
  destruct (findContractIndex_ok _ _ _ _ _ _ _ _ Hi Ef) as (-> & Hi' & Hs).
  exists acs'. eexists. split; [done|]. split_and!; [|done|done].
  assert (agrees_but except (with_hot hot st) l) by exact Hag.
  destruct e; [by apply dropIndex_agrees|done].
Qed.

(** ** Changing the object of an address *)

Lemma putContracts_agrees a u x st l : agrees_but (only a) st l -> urepr u x -> index_ok u -> stored_ok x ->
  (is_Some (es_cache st !! a) -> droppable x = false) ->
  agrees (putContracts a u st) (mkLedger (<[a := x]> (lg_contracts l)) (lg_addresses l)).
Proof.
  intros (Ha & Hf & Hs) Hu Hi Hok Hdr.
  assert (Hcases : forall c b, (c = es_cache st /\ es_cache st !! a = None \/ c = <[a := u]> (es_cache st) /\ is_Some (es_cache st !! a)) ->
    agrees (with_cache c b (with_contracts (<[a := u]> (es_addressContracts st)) st))
      (mkLedger (<[a := x]> (lg_contracts l)) (lg_addresses l))).
  { intros c b Hc. split; [done|]. split.
    { split; [apply Hf|]. intros a' Ha'. cbn in *. destruct Hf as [_ Hf]. destruct (decide (a' = a)) as [->|Hne].
      - rewrite lookup_insert_eq. exists x. split; [done|]. apply Hdr. destruct Hc as [[-> Hn]|[-> Hn]]; done.
      - rewrite lookup_insert_ne by done. apply Hf. destruct Hc as [[-> _]|[-> _]]; [done|]. by rewrite lookup_insert_ne in Ha'. }
    intros a' _. unfold stands_for, live. cbn.
    destruct (decide (a' = a)) as [->|Hne].
    - rewrite !lookup_insert_eq. split; [|by exists x]. intros u1 u2 [= <-] H2.
      destruct Hc as [[-> Hn]|[-> _]]; [congruence|]. rewrite lookup_insert_eq in H2. congruence.
    - rewrite !lookup_insert_ne by done. assert (c !! a' = es_cache st !! a') as ->.
      { destruct Hc as [[-> _]|[-> _]]; [done|]. by rewrite lookup_insert_ne. }
      apply (Hs a'). done. }
  unfold putContracts. cbn. destruct (es_cache st !! a) eqn:Ec; cbn.
  - apply Hcases. right. eauto.
  - apply (Hcases (es_cache st) (es_cacheBytes st)). by left.
Qed.

(** ** An event *)

(** Holdings are left alone only for non-fungible tokens. *)
Definition event_wf (ev : ethEvent) : Prop :=
  match ev_contract ev with
  | Some (_, t) => ev_mutateHoldings ev = true \/ tt_Standard t = NonFungibleToken
  | None => True
  end.

Lemma same_repr u u' x : same_contracts u u' -> urepr u x -> urepr u' x.
Proof. intros (i & d & ->) []. by constructor. Qed.

Definition same_counters (u : unpackedAddrContracts) (x : AddrContracts) : Prop :=
  ua_TotalTxs u = acs_TotalTxs x /\ ua_NonContractTxs u = acs_NonContractTxs x /\ ua_InternalTxs u = acs_InternalTxs x.

Lemma urepr_counters u x : urepr u x -> same_counters u x.
Proof. by intros []. Qed.

Lemma addIndex_counters c i u x : same_counters u x -> same_counters (addContractIndex c i u) x.
Proof. unfold addContractIndex. by repeat case_match. Qed.

Lemma addIndex_contracts c i u : ua_Contracts (addContractIndex c i u) = ua_Contracts u.
Proof. unfold addContractIndex. by repeat case_match. Qed.

Lemma new_crepr contract standard : crepr_new (mkUAC standard contract 0 nilBigInt [] []) (newContract contract standard).
Proof. constructor; try done. by right. Qed.

Lemma set_contracts_repr us cs u x : same_counters u x -> Forall2 crepr us cs ->
  urepr (set_contracts us u) (set_acs_Contracts cs x).
Proof. intros (? & ? & ?) ?. by constructor. Qed.

(** The position and the object of the contract, as [addToAddressesAndContractsEthereumType]
    finds or makes them, and the object with the changed contract. *)
Definition located_contract (contract : bytes) (standard : TokenStandard) (ac : unpackedAddrContracts)
    : nat * unpackedAddrContracts :=
  match findContractInAddressContracts contract (ua_Contracts ac) with
  | Some i => (i, ac)
  | None =>
      let i := length (ua_Contracts ac) in
      (i, addContractIndex contract i (set_contracts (ua_Contracts ac ++ [mkUAC standard contract 0 nilBigInt [] []]) ac))
  end.

Lemma locate_contract contract t ac x addTxCount mutateHoldings index :
  urepr ac x -> index_ok ac ->
  (mutateHoldings = true \/ tt_Standard t = NonFungibleToken) ->
  let cs := withContract contract (tt_Standard t) (acs_Contracts x) in
  zlen cs < 2 ^ 31 - 2 ->
  let '(i, ac1) := located_contract contract (tt_Standard t) ac in
  i = position contract cs /\ exists c c' ac',
    ua_Contracts ac1 !! i = Some c
    /\ addToContract c (Z.of_nat i) index t addTxCount mutateHoldings = Ok (c', transferIndex (index <? 0) i)
    /\ ac' = set_contracts (<[i := c']> (ua_Contracts ac1)) ac1
    /\ urepr ac' (set_acs_Contracts (alter (transferContract (index <? 0) t addTxCount mutateHoldings) i cs) x)
    /\ index_ok ac'.
Proof.
  intros Hu Hi Hwf cs Hlen. pose proof (ur_Contracts _ _ Hu) as Hc. pose proof (crepr_contracts _ _ Hc) as Hm.
  unfold located_contract, findContractInAddressContracts. rewrite (find_position contract _ _ 0 Hm).
  subst cs. unfold withContract in *. case_bool_decide as Hin.
  - split; [done|]. cbn [Nat.add]. destruct (position_lookup _ _ Hin) as (y & Hy & Ey).
    destruct (Forall2_lookup_r _ _ _ _ _ Hc Hy) as (c & Hc' & Hr).
    assert (position contract (acs_Contracts x) < length (acs_Contracts x))%nat by (by eapply lookup_lt_Some).
    destruct (addToContract_refines c y (position contract (acs_Contracts x)) index t addTxCount mutateHoldings)
      as (c' & Ec & Hc2); [by apply crepr_weaken|unfold zlen in Hlen; lia|intros HS; left; by apply Hr|].
    exists c, c'. eexists. split_and!; [done|done|done| |].
    + apply set_contracts_repr; [by apply urepr_counters|]. rewrite (alter_lookup_insert _ _ _ _ Hy). by apply Forall2_insert.
    + eapply update_ok; [done|exact Hc'|]. rewrite (cr_Contract _ _ Hc2), (cr_Contract _ _ Hr). 
      unfold transferContract, countContract, holdings. by repeat case_match.
  - assert (position contract (acs_Contracts x ++ [newContract contract (tt_Standard t)]) = length (acs_Contracts x)) as Ep
      by (by apply position_new).
    rewrite Ep. assert (length (ua_Contracts ac) = length (acs_Contracts x)) as El by (by eapply Forall2_length).
    split; [done|]. rewrite addIndex_contracts. cbn [set_contracts ua_Contracts].
    set (c := mkUAC (tt_Standard t) contract 0 nilBigInt [] []).
    destruct (addToContract_refines c (newContract contract (tt_Standard t)) (length (acs_Contracts x)) index t addTxCount mutateHoldings)
      as (c' & Ec & Hc2).
    { apply new_crepr. }
    { rewrite zlen_app, zlen_cons, zlen_nil in Hlen. unfold zlen in Hlen. lia. }
    { cbn. intros HS. right. destruct Hwf as [|Hw]; [done|]. by rewrite Hw in HS. }
    exists c, c'. eexists. rewrite El. split_and!; [by rewrite lookup_app_r, El, Nat.sub_diag by lia|done|done| |].
    + apply set_contracts_repr.
      * apply addIndex_counters. by apply urepr_counters in Hu.
      * rewrite (alter_lookup_insert _ _ _ (newContract contract (tt_Standard t))) by (by rewrite lookup_app_r, Nat.sub_diag by lia).
        rewrite <- El at 1. rewrite <- (Nat.add_0_r (length (ua_Contracts ac))), <- (Nat.add_0_r (length (acs_Contracts x))).
        rewrite !insert_app_r. cbn. apply Forall2_app; [done|]. apply Forall2_cons; split; [exact Hc2|by apply Forall2_nil].
    + assert (Hnone : findContractInAddressContracts (uac_Contract c) (ua_Contracts ac) = None).
      { unfold findContractInAddressContracts. rewrite (find_position (uac_Contract c) _ _ 0 Hm). by rewrite bool_decide_eq_false_2. }
      pose proof (append_ok c ac Hi Hnone) as Hok. rewrite El in Hok.
      pose proof (update_ok (length (acs_Contracts x)) c c' _ Hok) as Hup. rewrite addIndex_contracts in Hup.
      apply Hup; [cbn [set_contracts ua_Contracts]; by rewrite lookup_app_r, El, Nat.sub_diag by lia|].
      rewrite (cr_Contract _ _ Hc2). unfold transferContract, countContract, holdings. by repeat case_match.
Qed.

Lemma countTotal_repr (counted : bool) u x : urepr u x ->
  urepr (if counted then u else set_TotalTxs (u64 (ua_TotalTxs u + 1)) u) (countTotal counted x).
Proof. intros []. destruct counted; constructor; try done. cbn. congruence. Qed.

Lemma countTotal_contracts counted x : acs_Contracts (countTotal counted x) = acs_Contracts x.
Proof. by destruct counted. Qed.

Lemma length_alter_zlen {A} (f : A -> A) i (l : list A) : zlen (alter f i l) = zlen l.
Proof. unfold zlen. by rewrite length_alter. Qed.

(** The last steps of an event. *)
Lemma finish_event a btxID index ac x st l :
  agrees_but (only a) st l -> urepr ac x -> index_ok ac ->
  let '(m, counted) := addToAddressesMapEthereumType (lg_addresses l) a btxID index in
  stored_ok (countTotal counted x) ->
  (forall x0, lg_contracts l !! a = Some x0 -> droppable x0 = false -> droppable (countTotal counted x) = false) ->
  exists st', (m ← gets es_addresses;
     let '(m, counted) := addToAddressesMapEthereumType m a btxID index in
     _ ← modifyM (with_addresses m);
     modifyM (putContracts a (if (counted : bool) then ac else set_TotalTxs (u64 (ua_TotalTxs ac + 1)) ac))) st = (Ok tt, st')
  /\ agrees st' (mkLedger (<[a := countTotal counted x]> (lg_contracts l)) m).
Proof.
  intros Hag Hu Hi. pose proof Hag as (Ha & Hf & Hs). unfold mbind, EthM_bind, gets, modifyM. rewrite Ha.
  destruct (addToAddressesMapEthereumType (lg_addresses l) a btxID index) as [m counted]. intros Hok Hdr.
  eexists. split; [done|].
  apply (putContracts_agrees a _ (countTotal counted x) (with_addresses m st) (mkLedger (lg_contracts l) m)); [by split| | |done|].
  - by apply countTotal_repr.
  - by destruct counted.
  - intros Hc. destruct Hf as [_ Hk]. destruct (Hk a Hc) as (x0 & Ex & Hd). by apply (Hdr x0).
Qed.

Lemma addToObject_agrees ev ac x st l :
  let a := ev_addrDesc ev in
  agrees_but (only a) st l -> urepr ac x -> index_ok ac -> event_wf ev ->
  zlen (acs_Contracts (eventContracts ev x).1) < 2 ^ 31 - 2 ->
  exists ac1 st1, addToObject a (ev_index ev) (ev_contract ev) (ev_addTxCount ev) (ev_mutateHoldings ev) ac st
    = (Ok (ac1, (eventContracts ev x).2), st1)
  /\ urepr ac1 (eventContracts ev x).1 /\ index_ok ac1 /\ agrees_but (only a) st1 l.
Proof.
  destruct ev as [a btxID index contract cnt mut]. unfold event_wf, addToObject, eventContracts.
  cbn [ev_addrDesc ev_index ev_contract ev_addTxCount ev_mutateHoldings]. intros Hag Hu Hi Hwf Hlen.
  destruct contract as [[contract t]|]; cycle 1.
  { eexists _, st. split; [reflexivity|]. cbn [fst]. split; [|split; [|exact Hag]]; destruct cnt; try done.
    - destruct Hu as [H1 H2 H3 H4]. destruct (_ || _); constructor; cbn; congruence.
    - by destruct (_ || _). }
  destruct (isZeroAddress a); [by exists ac, st|].
  destruct (findContractIndexM_agrees a contract ac st l _ Hag Hi) as (ac2 & st2 & Ef & Hag2 & Hi2 & Hs2).
  cbn [fst snd set_acs_Contracts acs_Contracts] in *. rewrite length_alter_zlen in Hlen.
  assert (Hu2 : urepr ac2 x) by (by eapply same_repr).
  pose proof (locate_contract contract t ac2 x cnt mut index Hu2 Hi2 Hwf Hlen) as Hloc.
  assert (Ec2 : ua_Contracts ac = ua_Contracts ac2) by (by destruct Hs2 as (? & ? & ->)).
  unfold mbind at 1, EthM_bind at 1. rewrite Ef. cbn beta iota. rewrite Ec2.
  fold (located_contract contract (tt_Standard t) ac2).
  destruct (located_contract contract (tt_Standard t) ac2) as [i ac3].
  destruct Hloc as (Ei & c & c' & ac' & Hc & Eadd & -> & Hu' & Hi').
  exists (set_contracts (<[i := c']> (ua_Contracts ac3)) ac3), st2.
  unfold liftR, mbind, EthM_bind. rewrite Hc, Eadd. by subst i.
Qed.

Lemma agrees_stored st l a x : agrees st l -> lg_contracts l !! a = Some x -> stored_ok x.
Proof.
  intros (_ & _ & Hs) Hx. destruct (Hs a) as [_ Hl]; [tauto|]. rewrite Hx in Hl. destruct (live st a).
  - by destruct Hl as (? & [= <-] & _ & _ & ?).
  - apply Hl.
Qed.

(** A row that is kept is kept after an event. *)
Lemma event_keeps ev x counted : stored_ok x -> droppable x = false ->
  droppable (countTotal counted (eventContracts ev x).1) = false.
Proof.
  intros (Hc & _ & _ & Hn & Hi) Hd. assert (Ht : forall y, droppable y = false -> droppable (countTotal counted y) = false).
  { intros y Hy. by destruct counted. }
  apply Ht. unfold eventContracts, droppable in *. destruct Hc as (_ & [? _] & [? _] & _).
  destruct (ev_contract ev) as [[contract t]|]; cbn [fst].
  - destruct (isZeroAddress _); cbn [fst]; [done|]. unfold set_acs_Contracts. cbn [acs_NonContractTxs acs_InternalTxs acs_Contracts].
    rewrite length_alter_zlen. unfold withContract. case_bool_decide; [done|].
    apply andb_false_iff. right. unfold zlen. rewrite length_app. cbn [length]. apply Z.eqb_neq. lia.
  - destruct (ev_addTxCount ev); [|done]. pose proof (zlen_nonneg (acs_Contracts x)).
    destruct (_ || _); cbn [acs_NonContractTxs acs_InternalTxs acs_Contracts]; rewrite u64_id by (unfold is_u64; lia); lia.
Qed.

Lemma runEvent_agrees ev st l : agrees st l -> event_wf ev ->
  (forall x, lg_contracts (applyEvent l ev) !! ev_addrDesc ev = Some x -> stored_ok x) ->
  exists st', runEvent ev st = (Ok tt, st') /\ agrees st' (applyEvent l ev).
Proof.
  intros Hag Hwf Hok. unfold applyEvent in *.
  destruct (loadContracts_agrees (ev_addrDesc ev) st l Hag) as (ac & st1 & El & Hag1 & Hu & Hi).
  set (x := default noContracts (lg_contracts l !! ev_addrDesc ev)) in *.
  pose proof (addToObject_agrees ev ac x st1 l Hag1 Hu Hi Hwf) as Hobj.
  unfold runEvent, addToAddressesAndContractsEthereumType. unfold mbind at 1, EthM_bind at 1. rewrite El. cbn beta iota.
  destruct (eventContracts ev x) as [x1 index1] eqn:Ex. cbn [fst snd] in Hobj.
  pose proof (fun st2 ac1 => finish_event (ev_addrDesc ev) (ev_btxID ev) index1 ac1 x1 st2 l) as Hfin.
  destruct (addToAddressesMapEthereumType (lg_addresses l) (ev_addrDesc ev) (ev_btxID ev) index1) as [m counted].
  cbn [lg_contracts] in Hok. specialize (Hok _ (lookup_insert_eq _ _ _)).
  destruct Hobj as (ac1 & st2 & Em & Hu1 & Hi1 & Hag2).
  { destruct Hok as (_ & Hlen & _). by rewrite countTotal_contracts in Hlen. }
  unfold mbind at 1, EthM_bind at 1. rewrite Em. cbn beta iota. apply (Hfin st2 ac1); try done.
  intros x0 Hx0 Hd. pose proof (event_keeps ev x0 counted (agrees_stored _ _ _ _ Hag Hx0) Hd) as Hk.
  subst x. rewrite Hx0 in Ex. cbn [default id] in Ex. by rewrite Ex in Hk.
Qed.

(** Events that keep every row within what can be stored. *)
Fixpoint events_fit (l : Ledger) (evs : list ethEvent) : Prop :=
  match evs with
  | [] => True
  | ev :: r =>
      event_wf ev /\ (forall x, lg_contracts (applyEvent l ev) !! ev_addrDesc ev = Some x -> stored_ok x) /\
      events_fit (applyEvent l ev) r
  end.

#[export] Instance event_wf_dec ev : Decision (event_wf ev).
Proof. unfold event_wf. destruct (ev_contract ev) as [[c t]|]; apply _. Defined.

Definition fits_at (l : Ledger) (a : bytes) : bool :=
  match lg_contracts l !! a with Some x => bool_decide (stored_ok x) | None => true end.

Fixpoint events_fitb (l : Ledger) (evs : list ethEvent) : bool :=
  match evs with
  | [] => true
  | ev :: r => bool_decide (event_wf ev) && fits_at (applyEvent l ev) (ev_addrDesc ev) && events_fitb (applyEvent l ev) r
  end.

Lemma events_fitb_sound l evs : events_fitb l evs = true -> events_fit l evs.
Proof.
  revert l. induction evs as [|ev evs IH]; intros l H; [done|]. cbn in H. apply andb_true_iff in H as [[H1 H2]%andb_true_iff H3].
  apply bool_decide_eq_true in H1. split_and!; [done| |by apply IH]. intros x Hx. unfold fits_at in H2. rewrite Hx in H2.
  by apply bool_decide_eq_true in H2.
Qed.

Lemma runEvents_agrees evs st l : agrees st l -> events_fit l evs ->
  exists st', runEvents evs st = (Ok tt, st') /\ agrees st' (foldl applyEvent l evs).
Proof.
  revert st l. induction evs as [|ev evs IH]; intros st l Hag Hfit; [by exists st|]. destruct Hfit as (Hwf & Hok & Hfit).
  destruct (runEvent_agrees ev st l Hag Hwf Hok) as (st1 & E1 & Hag1). cbn [runEvents foldl].
  unfold mbind, EthM_bind. rewrite E1. by apply IH.
Qed.
End Agrees.
