(* ===== verification/EthBlock.v ===== *)
(** The Ethereum-type branch of [ConnectBlock] ([db/rocksdb.go]) and
    [ReconnectInternalDataToBlockEthereumType] ([db/rocksdb_ethereumtype.go]), which adds the
    internal data of a block that failed when the block was connected. *)

From S2P Require Import Prelude Codec Parser TxAddr Balance IndexCodec Store GoSort EthTokens EthContracts EthIndex EthParser EthRows EthContractInfo EthAliases EthState EthRegistry EthConnect.

Local Open Scope Z_scope.

Record EthereumBlockSpecificData := mkEBSD {
  ebs_InternalDataError : bytes;
  ebs_AddressAliasRecords : list AddressAliasRecord;
  ebs_Contracts : list ContractInfo;
}.

(** [CoinSpecificData] is [None] when it is not of the type [EthereumBlockSpecificData]. *)
Record EthBlock := mkEthBlock {
  eb_Hash : bytes;
  eb_Height : Z;
  eb_Time : Z;
  eb_Size : Z;
  eb_Txs : list EthTx;
  eb_CoinSpecificData : option EthereumBlockSpecificData;
}.

(** The header alone; the transactions of the type [Block] are those of Bitcoin-type coins. *)
Definition eb_header (block : EthBlock) : Block := mkBlock (eb_Hash block) [] [] (eb_Height block) (eb_Size block) (eb_Time block) [].

Section EthBlock.
Context {V : Vlq} {E : EthChainParser} {AP : AliasParser} {IX : IndexOpts} {K : KV} {CO : EthCacheOpts}.

(** [addresses := make(addressesMap)], [addressContracts := make(map[string]*unpackedAddrContracts)]:
    the maps live as long as the call. *)
Definition scoped {A} (m : EthM K A) : EthM K A := fun st =>
  let '(r, st) := m (with_contracts ∅ (with_addresses ∅ st)) in (r, with_contracts ∅ (with_addresses ∅ st)).

Definition storeAliasesM (wb : list BatchOp) (records : list AddressAliasRecord) : EthM K (list BatchOp) := fun st =>
  let '(wb, cache) := storeAddressAliasRecords wb (es_aliases st) records in (Ok wb, with_aliases cache st).

Definition storeBlockSpecificDataEthereumType (wb : list BatchOp) (block : EthBlock) : EthM K (list BatchOp) :=
  match eb_CoinSpecificData block with
  | None => mret wb
  | Some data =>
      wb ← (if bool_decide (ebs_InternalDataError data = []) then mret wb
            else liftR (StoreBlockInternalDataErrorEthereumType wb (eb_Height block) (eb_Hash block) (ebs_InternalDataError data) 0));
      wb ← (if 0 <? zlen (ebs_AddressAliasRecords data) then storeAliasesM wb (ebs_AddressAliasRecords data) else mret wb);
      storeContractInfos wb (ebs_Contracts data) ∅
  end.

Definition blockInfo (block : EthBlock) : BlockInfo :=
  mkBlockInfo (eb_Hash block) (eb_Time block) (u32 (zlen (eb_Txs block))) (u32 (eb_Size block)) (eb_Height block).

(** The best height after the block; [due]: the cache of address contracts is to be stored. *)
Definition ConnectBlockEthereumType (due : bool) (block : EthBlock) : EthM K Z := scoped (
  '(wb, bestHeight) ← liftR (writeHeight [] (eb_Height block) (blockInfo block) opInsert);
  blockTxs ← processAddressesEthereumType (eb_Txs block);
  cache ← gets es_cache;
  addressContracts ← gets es_addressContracts;
  let wb := storeUnpackedAddressContracts wb cache addressContracts in
  let wb := storeInternalDataEthereumType wb blockTxs in
  wb ← storeBlockSpecificDataEthereumType wb block;
  d ← gets es_db;
  wb ← liftR (storeAndCleanupBlockTxsEthereumType d wb (eb_header block) blockTxs);
  addresses ← gets es_addresses;
  let wb := storeAddresses wb (eb_Height block) addresses in
  _ ← writeBatchM wb;
  _ ← modifyM (storeAddrContractsCacheIfDue due);
  mret bestHeight).

(** ** Internal data that arrive later *)

Definition blankTx : ethBlockTx := mkEBT [] [] [] [] None.

Definition set_etx_BlockHeight (height : Z) (tx : EthTx) : EthTx :=
  mkEthTx (etx_Txid tx) (etx_Vin tx) (etx_Vout tx) height (etx_CoinSpecificData tx).

(** The body of the loop: a transaction without internal data, or whose internal data are
    already stored, is left out. *)
Definition reconnectTx (height : Z) (tx : EthTx) : EthM K ethBlockTx :=
  match etx_CoinSpecificData tx ≫= esd_InternalData with
  | None => mret blankTx
  | Some id =>
      btxID ← liftR (PackTxid (etx_Txid tx));
      d ← gets es_db;
      stored ← liftR (hasEthereumInternalData d btxID);
      if (stored : bool) then mret blankTx
      else
        data ← processInternalData btxID (set_etx_BlockHeight height tx) id true;
        mret (mkEBT btxID [] [] [] (Some data))
  end.

Definition errHashChanged : goerror := ErrMsg "block hash changed, possible reorg, skipping".

Definition ReconnectInternalDataToBlockEthereumType (block : EthBlock) : EthM K unit :=
  if negb (bool_decide (GetChainType = ChainEthereumType)) then liftR (Err (ErrMsg "Unsupported chain type"))
  else scoped (
    d ← gets es_db;
    indexedHash ← liftR (GetBlockHash d (eb_Height block));
    if negb (bool_decide (indexedHash = eb_Hash block)) then liftR (Err errHashChanged)
    else
      _ ← modifyM (fun st => with_hot (BeginBlock (es_hot st)) st);
      blockTxs ← mmap (reconnectTx (eb_Height block)) (eb_Txs block);
      cache ← gets es_cache;
      addressContracts ← gets es_addressContracts;
      let wb := storeUnpackedAddressContracts [] cache addressContracts in
      let wb := storeInternalDataEthereumType wb blockTxs in
      addresses ← gets es_addresses;
      let wb := storeAddresses wb (eb_Height block) addresses in
      wb ← (match eb_CoinSpecificData block with
            | Some data => storeHealedContractInfos wb (ebs_Contracts data)
            | None => mret wb
            end);
      writeBatchM (wb ++ [DeleteCF cfBlockInternalDataErrors (packUint (eb_Height block))])).
End EthBlock.
