(* ===== verification/EthBlockCorrect.v ===== *)
(** Connecting a whole block of an Ethereum-type coin: the rows written, the registry of
    contracts and the addresses after the block ([connect_block_refines]). *)

From S2P Require Import Prelude Codec Parser TxAddr Balance IndexCodec Store GoSort EthTokens EthContracts EthIndex EthParser EthRows EthContractInfo EthAliases EthState EthRegistry EthConnect EthEvents EthConnectCorrect EthBlock.

Local Open Scope Z_scope.

(** The rows that are kept. *)
Definition prune (m : gmap bytes AddrContracts) : gmap bytes AddrContracts := filter (fun e => droppable e.2 = false) m.

Lemma prune_lookup m a : prune m !! a = m !! a ≫= fun x => if droppable x then None else Some x.
Proof.
  unfold prune. destruct (m !! a) as [x|] eqn:Ex; cbn [mbind option_bind].
  - destruct (droppable x) eqn:Ed.
    + apply map_lookup_filter_None. right. intros y Hy. cbn. congruence.
    + by apply map_lookup_filter_Some.
  - apply map_lookup_filter_None. by left.
Qed.

(** A loop over a map that writes some operations on the key of each entry. *)
Lemma batch_get_concat_map {A} (m : gmap bytes A) (g : bytes * A -> list BatchOp) cf k :
  (forall e, Forall (fun op => op_key op = e.1) (g e)) ->
  batch_get cf k (concat (map g (map_to_list m))) = m !! k ≫= fun x => batch_get cf k (g (k, x)).
Proof.
  intros Hg. pose proof (NoDup_fst_map_to_list m) as Hn.
  assert (forall x, m !! k = Some x <-> (k, x) ∈ map_to_list m) as Hm by (intros; by rewrite elem_of_map_to_list).
  revert Hn Hm. generalize (map_to_list m) (m !! k). intros l o. revert o.
  induction l as [|[k' x'] l IH]; intros o Hn Hm; cbn [map concat].
  - destruct o as [x|]; [|done]. exfalso. apply (not_elem_of_nil (k, x)). by apply Hm.
  - inversion Hn as [|? ? Hnk Hnl]; subst. rewrite batch_get_app. destruct (decide (k' = k)) as [->|Hne].
    + rewrite (IH None Hnl).
      * assert (o = Some x') as -> by (apply Hm; left). done.
      * intros x. split; [done|]. intros Hx. exfalso. apply Hnk. apply list_elem_of_fmap. by exists (k, x).
    + rewrite (IH o Hnl).
      * rewrite (batch_get_other cf k (g (k', x'))); [by destruct (o ≫= _)|].
        eapply Forall_impl; [apply Hg|]. intros op ->. by right.
      * intros x. rewrite Hm, elem_of_cons. split; [|tauto]. intros [Hx|]; [congruence|done].
Qed.

Section Frames.
Context {V : Vlq} {E : EthChainParser} {IX : IndexOpts} {K : KV} {CO : EthCacheOpts}.
Implicit Types (st : EthState K).

(** Everything but the maps of the block, the cache and the tracker, and the column of
    contracts, is as before. *)
Definition same_columns (cfs : list CF) (d d' : DB K) : Prop :=
  (forall cf, cf ∉ cfs -> db_cf d' cf = db_cf d cf) /\ db_rfault d' = db_rfault d /\ db_wfault d' = db_wfault d.

Definition frame st st' : Prop :=
  es_registry st' = es_registry st /\ es_aliases st' = es_aliases st /\ same_columns [cfAddressContracts] (es_db st) (es_db st').

Lemma frame_refl st : frame st st.
Proof. done. Qed.

Lemma frame_trans st1 st2 st3 : frame st1 st2 -> frame st2 st3 -> frame st1 st3.
Proof.
  intros (H1 & H2 & H3 & H4 & H5) (G1 & G2 & G3 & G4 & G5). unfold frame, same_columns. split_and!; try congruence.
  intros cf Hcf. by rewrite G3, H3.
Qed.

Definition frames {A} (m : EthM K A) : Prop := forall st, frame st (m st).2.

Lemma frames_bind {A B} (m : EthM K A) (k : A -> EthM K B) : frames m -> (forall a, frames (k a)) -> frames (m ≫= k).
Proof.
  intros Hm Hk st. specialize (Hm st). unfold mbind, EthM_bind. destruct (m st) as [[a| |] st1]; [|done..].
  eapply frame_trans; [exact Hm|]. apply Hk.
Qed.

Lemma frames_ret {A} (a : A) : frames (mret a).
Proof. intros st. apply frame_refl. Qed.

Lemma frames_gets {A} (f : EthState K -> A) : frames (gets f).
Proof. intros st. apply frame_refl. Qed.

Lemma frames_lift {A} (r : result A) : frames (liftR r).
Proof. intros st. apply frame_refl. Qed.

Lemma apply_ops_other (s : CF -> kv) wb cf : Forall (fun op => op_cf op <> cf) wb -> foldl apply_op s wb cf = s cf.
Proof.
  intros H. revert s. induction H as [|op wb Hop _ IH]; intros s; [done|]. cbn [foldl]. rewrite IH.
  destruct op; cbn in *; by rewrite decide_False by congruence.
Qed.

Lemma snapshot_columns cache d : same_columns [cfAddressContracts] d (writeContractsCacheSnapshot cache d).
Proof.
  unfold writeContractsCacheSnapshot, WriteBatch. destruct (db_wfault d) eqn:Ew; [done|]. unfold same_columns. cbn [db_rfault db_wfault db_cf]. split_and!; [|done|done].
  intros cf Hcf. apply apply_ops_other. apply Forall_forall. intros op (e & -> & _)%list_elem_of_fmap.
  cbn. set_solver.
Qed.

Lemma flush_frame st : frame st (flushAddrContractsCache st).
Proof.
  unfold flushAddrContractsCache. case_match; [|done]. split_and!; [done|done|]. apply snapshot_columns.
Qed.

Lemma getUnpacked_frames a : frames (getUnpackedAddrDescContracts a).
Proof.
  intros st. unfold getUnpackedAddrDescContracts. repeat (case_match; try apply frame_refl).
  all: cbn [snd]; try done; (eapply frame_trans; [|apply flush_frame]; done).
Qed.

Lemma dropIndex_frame k st : frame st (dropAddrContractsContractIndex k st).
Proof. unfold dropAddrContractsContractIndex. by repeat (case_match; try apply frame_refl). Qed.

Lemma findContractIndexM_frames a c acs : frames (findContractIndexM a c acs).
Proof.
  intros st. unfold findContractIndexM. destruct (findContractIndex _ _ _ _) as [[[r acs'] hot] e]. cbn [snd].
  destruct e; [|done]. eapply frame_trans; [|apply dropIndex_frame]. done.
Qed.

Lemma runEvent_frames ev : frames (runEvent ev).
Proof.
  unfold runEvent, addToAddressesAndContractsEthereumType, loadContracts.
  apply frames_bind.
  { apply frames_bind; [apply frames_gets|]. intros m. case_match; [apply frames_ret|].
    apply frames_bind; [apply getUnpacked_frames|]. intros rv. apply frames_bind; [done|]. intros []. apply frames_ret. }
  intros ac. apply frames_bind.
  { unfold addToObject. destruct (ev_contract ev) as [[contract t]|]; [|apply frames_ret].
    destruct (isZeroAddress _); [apply frames_ret|]. apply frames_bind; [apply findContractIndexM_frames|]. intros [r ac'].
    case_match. apply frames_bind; [apply frames_lift|]. intros c. apply frames_bind; [apply frames_lift|].
    intros [c' index]. apply frames_ret. }
  intros [ac' index]. apply frames_bind; [apply frames_gets|]. intros m. case_match.
  apply frames_bind; [done|]. intros [] st. unfold modifyM. cbn [snd].
  unfold putContracts. by case_match.
Qed.

Lemma runEvents_frames evs : frames (runEvents evs).
Proof. induction evs as [|ev evs IH]; [apply frames_ret|]. apply frames_bind; [apply runEvent_frames|]. by intros []. Qed.
End Frames.

Section EthBlockCorrect.
Context {V : Vlq} {VL : VlqLaws V} {E : EthChainParser} {EL : EthChainParserLaws E} {AP : AliasParser} {IX : IndexOpts}.
Context {K : KV} {KL : KVLaws K} {CO : EthCacheOpts}.
Implicit Types (st : EthState K) (l : Ledger).

(** ** Storing the addresses *)

Definition endBlock st : EthState K := with_contracts ∅ (with_addresses ∅ st).

Lemma urepr_droppable u x : urepr u x ->
  (ua_NonContractTxs u =? 0) && (ua_InternalTxs u =? 0) && (zlen (ua_Contracts u) =? 0) = droppable x.
Proof.
  intros [H1 H2 H3 H4]. unfold droppable. rewrite H2, H3. do 2 f_equal. unfold zlen. by rewrite (Forall2_length _ _ _ H4).
Qed.

Lemma batch_get_storeUnpacked cache acm a :
  batch_get cfAddressContracts a (concat (map (fun e => storeUnpackedContracts cache e.1 e.2) (map_to_list acm))) =
  acm !! a ≫= fun u =>
    if (ua_NonContractTxs u =? 0) && (ua_InternalTxs u =? 0) && (zlen (ua_Contracts u) =? 0) then Some None
    else match cache !! a with Some _ => None | None => Some (Some (packUnpackedAddrContracts u)) end.
Proof.
  rewrite batch_get_concat_map.
  - destruct (acm !! a) as [u|]; [|done]. cbn [mbind option_bind fst snd]. unfold storeUnpackedContracts.
    destruct (_ && _); [cbn; by rewrite decide_True|]. destruct (cache !! a); [done|]. cbn. by rewrite decide_True.
  - intros [a' u]. unfold storeUnpackedContracts. cbn [fst snd]. repeat case_match; by repeat constructor.
Qed.

(** After the batch the addresses stand for the ledger without the removed rows. *)
Lemma store_agrees wb d' st l : agrees st l ->
  (forall a, batch_get cfAddressContracts a wb =
     batch_get cfAddressContracts a (concat (map (fun e => storeUnpackedContracts (es_cache st) e.1 e.2) (map_to_list (es_addressContracts st))))) ->
  WriteBatch wb (es_db st) = Ok d' ->
  agrees (endBlock (with_db d' st)) (mkLedger (prune (lg_contracts l)) ∅).
Proof.
  intros (Ha & [Hf Hk] & Hs) Hb Hw. pose proof Hw as Hw'. unfold WriteBatch in Hw'. pose proof Hf as [Hr Hwf]. rewrite Hwf in Hw'.
  injection Hw' as <-. split; [done|]. cbn [lg_contracts]. split.
  { split; [done|]. intros a Hc. cbn in *. destruct (Hk a Hc) as (x & Ex & Hd). exists x. split; [|done].
    by rewrite prune_lookup, Ex; cbn; rewrite Hd. }
  intros a _. unfold stands_for, live. cbn. rewrite lookup_empty, prune_lookup. split; [done|].
  destruct (Hs a) as [Hal Hl]; [tauto|]. unfold live in Hl. destruct (es_cache st !! a) as [u|] eqn:Ec.
  - destruct (Hk a) as (x & Ex & Hd); [eauto|]. rewrite Ex in *. cbn [mbind option_bind]. rewrite Hd.
    destruct (es_addressContracts st !! a) as [u'|] eqn:Eu; [|done]. by rewrite <- (Hal u' u eq_refl eq_refl).
  - rewrite kv_get_batch, Hb, batch_get_storeUnpacked. destruct (es_addressContracts st !! a) as [u|] eqn:Eu; cbn [mbind option_bind].
    + destruct Hl as (x & Ex & Hu & Hi & Hok). rewrite (urepr_droppable u x Hu), Ex. cbn [mbind option_bind].
      destruct (droppable x) eqn:Ed; [done|]. rewrite Ec.
      split_and!; [by rewrite packUnpackedAddrContracts_repr with (acs := x)|done|by eapply object_nodup|done].
    + destruct (lg_contracts l !! a) as [x|] eqn:Ex; cbn [mbind option_bind]; [|done].
      destruct Hl as (Hv & Hok & Hnd & Hd). by rewrite Hd.
Qed.

Lemma storeCache_agrees due st l : agrees st l -> agrees (storeAddrContractsCacheIfDue due st) l.
Proof.
  intros Hag. pose proof Hag as (Ha & [Hf Hk] & Hs). unfold storeAddrContractsCacheIfDue, storeAddrContractsCache.
  destruct due; [|done]. case_match; [|done]. split; [done|]. split; [split; [by apply snapshot_faults|done]|].
  intros a _. destruct (Hs a) as [Hal Hl]; [tauto|]. split; [done|]. unfold live in *. cbn.
  destruct (es_addressContracts st !! a); [done|]. destruct (es_cache st !! a) eqn:Ec; [done|].
  rewrite snapshot_get by done. rewrite decide_True by done. by rewrite Ec.
Qed.

(** ** The registry *)

(** The address of the contract is one, and its row, if there is one, can be read. *)
Definition readable (d : DB K) (ci : ContractInfo) : Prop :=
  ci_Contract ci = [] \/ exists key o, GetAddrDescFromAddress (ci_Contract ci) = Ok key /\ pureLoad d key = Ok o.

Definition cached_keys (r : Registry) : list contractInfoLRUEntry := lru_entries (rg_cachedContracts r).

(** [m]: the contracts already in the batch are not cached. *)
Definition uncached_in (m : gmap bytes ContractInfo) (r : Registry) : Prop :=
  Forall (fun e => m !! le_key e = None) (cached_keys r).

(** The registry with the entry of a key dropped. *)
Definition dropEntry (key : bytes) (r : Registry) : Registry :=
  mkRegistry (ContractLRU.delete key (rg_cachedContracts r)) (rg_reorgGen r) (rg_protocolGen r).

Lemma dropEntry_coherent key st : coherent st -> coherent (with_registry (dropEntry key (es_registry st)) st).
Proof. intros Hc. eapply (Forall_in _ _ _ _ Hc); [|apply delete_entries]. by intros e [? _]. Qed.

Lemma dropEntry_uncached key ci m r : uncached_in m r -> uncached_in (<[key := ci]> m) (dropEntry key r).
Proof.
  intros Hu. eapply Forall_impl; [apply delete_entries|]. intros e [He Hk]. rewrite lookup_insert_ne by congruence.
  unfold uncached_in in Hu. rewrite Forall_forall in Hu. by apply Hu.
Qed.

Lemma storeContractInfo_spec wb ci m st : coherent st -> uncached_in m (es_registry st) -> readable (es_db st) ci ->
  exists r' ops m', storeContractInfo wb ci (Some m) st = (Ok (wb ++ ops, Some m'), with_registry r' st)
  /\ coherent (with_registry r' st) /\ uncached_in m' r'
  /\ (ops = [] /\ m' = m \/ exists key v c, ops = [PutCF cfContracts key v] /\ m' = <[key := c]> m).
Proof.
  intros Hc Hu Hr. unfold storeContractInfo. case_bool_decide as Ee.
  { exists (es_registry st), [], m. rewrite app_nil_r. destruct st. cbn in *. split_and!; auto. }
  destruct Hr as [|(key & o & Ek & Eo)]; [done|]. rewrite Ek. unfold liftR, mbind, EthM_bind.
  assert (Hput : forall c r, coherent (with_registry r st) -> uncached_in m r ->
    exists r' ops m', (Ok (wb ++ [PutCF cfContracts key (packContractInfo c)], <[key:=c]> <$> Some m), with_registry (dropEntry key r) st)
      = (Ok (wb ++ ops, Some m'), with_registry r' st)
    /\ coherent (with_registry r' st) /\ uncached_in m' r'
    /\ (ops = [] /\ m' = m \/ exists key v c, ops = [PutCF cfContracts key v] /\ m' = <[key := c]> m)).
  { intros c r Hcr Hur. eexists _, _, _. split; [reflexivity|]. split_and!; [|by apply dropEntry_uncached|right; by eexists _, _, _].
    apply (dropEntry_coherent key (with_registry r st) Hcr). }
  assert (Hst : with_registry (es_registry st) st = st) by (by destruct st).
  destruct (_ && _); [|apply (Hput ci (es_registry st)); [by rewrite Hst|done]].
  cbn [mbind option_bind]. destruct (m !! key) as [c|] eqn:Em; cbn [mret EthM_ret].
  { apply (Hput (set_DestructedInBlock (ci_DestructedInBlock ci) c) (es_registry st)); [by rewrite Hst|done]. }
  destruct (GetContractInfo_coherent key st Hc) as (r' & -> & Hc' & _ & _ & He). rewrite Eo.
  assert (Hu' : uncached_in m r').
  { eapply Forall_impl; [exact He|]. intros e [->|Hin]; [done|]. unfold uncached_in in Hu. rewrite Forall_forall in Hu. by apply Hu. }
  destruct o as [c|]; cbn [fmap option_fmap option_map].
  - apply (Hput _ r' Hc' Hu').
  - exists r', [], m. rewrite app_nil_r. split_and!; auto.
Qed.

Lemma storeContractInfos_spec cis wb m st : coherent st -> uncached_in m (es_registry st) -> Forall (readable (es_db st)) cis ->
  exists r' ops, storeContractInfos wb cis m st = (Ok (wb ++ ops), with_registry r' st)
  /\ coherent (with_registry r' st) /\ Forall (fun op => op_cf op = cfContracts) ops
  /\ Forall (fun e => m !! le_key e = None /\ batch_get cfContracts (le_key e) ops = None) (cached_keys r').
Proof.
  revert wb m st. induction cis as [|ci cis IH]; intros wb m st Hc Hu Hr.
  { exists (es_registry st), []. rewrite app_nil_r. destruct st. split_and!; [done|done|done|].
    eapply Forall_impl; [exact Hu|]. auto. }
  apply Forall_cons in Hr as [Hci Hr]. cbn [storeContractInfos]. unfold mbind, EthM_bind.
  destruct (storeContractInfo_spec wb ci m st Hc Hu Hci) as (r1 & ops1 & m1 & -> & Hc1 & Hu1 & Hops). change (default m (Some m1)) with m1.
  destruct (IH (wb ++ ops1) m1 (with_registry r1 st) Hc1 Hu1 Hr) as (r2 & ops2 & -> & Hc2 & Hf2 & He2).
  exists r2, (ops1 ++ ops2). rewrite app_assoc. split; [done|]. split; [done|].
  destruct Hops as [[-> ->]|(key & v & c & -> & ->)]; [done|]. split; [by constructor|].
  eapply Forall_impl; [exact He2|]. intros e [Hm Hb]. apply lookup_insert_None in Hm as [Hm Hne]. split; [done|].
  cbn [app batch_get op_cf op_key op_val]. rewrite Hb, decide_False; [done|]. intros [_ ?]. congruence.
Qed.

(** ** The rest of the batch *)

Definition specific_ok (d : DB K) (block : EthBlock) : Prop :=
  match eb_CoinSpecificData block with
  | None => True
  | Some data =>
      (ebs_InternalDataError data = [] \/ exists id, PackTxid (eb_Hash block) = Ok id) /\ Forall (readable d) (ebs_Contracts data)
  end.

Definition specificCFs : list CF := [cfBlockInternalDataErrors; cfAddressAliases; cfContracts].

Lemma storeAliases_extends wb c rs : extends [cfAddressAliases] wb (storeAddressAliasRecords wb c rs).1.
Proof.
  unfold storeAddressAliasRecords. destruct UseAddressAliases; [|apply extends_refl]. revert wb c.
  induction rs as [|r rs IH]; intros wb c; [apply extends_refl|]. cbn [foldl]. unfold storeAlias at 2.
  destruct (0 <? _); [|apply IH]. eapply extends_trans; [|apply IH]. apply extends_app. repeat constructor.
Qed.

Lemma extends_weaken cfs cfs' wb wb' : cfs ⊆ cfs' -> extends cfs wb wb' -> extends cfs' wb wb'.
Proof. intros Hs (ops & -> & Hf). apply extends_app. eapply Forall_impl; [exact Hf|]. auto. Qed.

Lemma storeAliasesM_spec wb rs st :
  exists wb' c, storeAliasesM wb rs st = (Ok wb', with_aliases c st) /\ extends [cfAddressAliases] wb wb'.
Proof.
  unfold storeAliasesM. pose proof (storeAliases_extends wb (es_aliases st) rs) as He.
  destruct (storeAddressAliasRecords wb (es_aliases st) rs) as [wb' c]. by exists wb', c.
Qed.

(** The rows that come with the block: the registry stays coherent and no contract that is
    written is cached. *)
Lemma storeBlockSpecific_spec wb block st : coherent st -> specific_ok (es_db st) block ->
  Forall (fun op => op_cf op <> cfContracts) wb ->
  exists r' c' wb', storeBlockSpecificDataEthereumType wb block st = (Ok wb', with_registry r' (with_aliases c' st))
  /\ coherent (with_registry r' st) /\ extends specificCFs wb wb'
  /\ Forall (fun e => batch_get cfContracts (le_key e) wb' = None) (cached_keys r').
Proof.
  intros Hc Hs Hw. unfold storeBlockSpecificDataEthereumType. unfold specific_ok in Hs.
  assert (Hno : forall k wb, Forall (fun op => op_cf op <> cfContracts) wb -> batch_get cfContracts k wb = None).
  { intros k wb0 H0. apply batch_get_other. eapply Forall_impl; [exact H0|]. auto. }
  destruct (eb_CoinSpecificData block) as [data|].
  2: { exists (es_registry st), (es_aliases st), wb. split_and!; [by destruct st|by destruct st|apply extends_refl|].
       apply Forall_forall. auto. }
  destruct Hs as [Herr Hrd].
  assert (H1 : exists wb1, (if bool_decide (ebs_InternalDataError data = []) then mret wb
      else liftR (StoreBlockInternalDataErrorEthereumType wb (eb_Height block) (eb_Hash block) (ebs_InternalDataError data) 0)) st = (Ok wb1, st)
      /\ extends [cfBlockInternalDataErrors] wb wb1).
  { case_bool_decide; [exists wb; split; [done|apply extends_refl]|]. destruct Herr as [|[id Hid]]; [done|].
    unfold StoreBlockInternalDataErrorEthereumType. rewrite Hid. cbn [rbind]. eexists. split; [reflexivity|].
    apply extends_app. repeat constructor. }
  destruct H1 as (wb1 & E1 & X1). unfold mbind at 1, EthM_bind at 1. rewrite E1.
  assert (H2 : exists wb2 c, (if 0 <? zlen (ebs_AddressAliasRecords data) then storeAliasesM wb1 (ebs_AddressAliasRecords data) else mret wb1) st
      = (Ok wb2, with_aliases c st) /\ extends [cfAddressAliases] wb1 wb2).
  { destruct (0 <? _); [apply storeAliasesM_spec|]. exists wb1, (es_aliases st). split; [by destruct st|apply extends_refl]. }
  destruct H2 as (wb2 & c & E2 & X2). unfold mbind, EthM_bind. rewrite E2.
  assert (X12 : extends [cfBlockInternalDataErrors; cfAddressAliases] wb wb2).
  { eapply extends_trans; (eapply extends_weaken; [|eassumption]); set_solver. }
  assert (Hw2 : Forall (fun op => op_cf op <> cfContracts) wb2).
  { destruct X12 as (ops & -> & Hops). apply Forall_app. split; [done|]. eapply Forall_impl; [exact Hops|]. intros op Hop Hcf.
    cbn beta in Hop. rewrite Hcf in Hop. set_solver. }
  destruct (storeContractInfos_spec (ebs_Contracts data) wb2 ∅ (with_aliases c st)) as (r' & ops & -> & Hc' & Hops & He); [done| |done|].
  { apply Forall_forall. intros e _. apply lookup_empty. }
  exists r', c, (wb2 ++ ops). split; [done|]. split; [done|]. split.
  - eapply extends_trans; [eapply extends_weaken; [|exact X12]; set_solver|]. apply extends_app.
    eapply Forall_impl; [exact Hops|]. intros op ->. set_solver.
  - eapply Forall_impl; [exact He|]. intros e [_ Hb]. rewrite batch_get_app, Hb. by apply Hno.
Qed.

(** The rows of older blocks are deleted, the row of the block stays. *)
Lemma cleanupLoop_rows (d : DB K) fuel wb rh :
  (forall k, db_rfault d cfBlockTxs k = false) ->
  exists ops, cleanupLoop fuel d wb rh = Ok (wb ++ ops)
  /\ Forall (fun op => exists r, 0 < r <= rh /\ op = DeleteCF cfBlockTxs (packUint r)) ops.
Proof.
  intros Hr. revert wb rh. induction fuel as [|f IH]; intros wb rh; cbn [cleanupLoop]; [exists []; by rewrite app_nil_r|].
  destruct (Z.ltb_spec 0 rh); [|exists []; by rewrite app_nil_r]. unfold GetCF. rewrite Hr. cbn [rbind].
  destruct (kv_get (db_cf d cfBlockTxs) (packUint rh)); [|exists []; by rewrite app_nil_r].
  destruct (IH (wb ++ [DeleteCF cfBlockTxs (packUint rh)]) (rh - 1)) as (ops & -> & Hops).
  eexists. rewrite <- app_assoc. split; [done|]. constructor; [exists rh; split; [lia|done]|].
  eapply Forall_impl; [exact Hops|]. intros op (r & ? & ->). exists r. split; [lia|done].
Qed.

Lemma storeAndCleanup_spec (d : DB K) wb block blockTxs :
  (forall k, db_rfault d cfBlockTxs k = false) -> is_u32 (eb_Height block) -> 1 <= u32 KeepBlockAddresses ->
  exists wb', storeAndCleanupBlockTxsEthereumType d wb (eb_header block) blockTxs = Ok wb' /\ extends [cfBlockTxs] wb wb'
  /\ batch_get cfBlockTxs (packUint (eb_Height block)) wb' = Some (Some (foldl packBlockTx [] blockTxs)).
Proof.
  intros Hr Hh Hk. unfold storeAndCleanupBlockTxsEthereumType, cleanupBlockTxs. cbn [eb_header blk_Height].
  set (op := PutCF cfBlockTxs _ _).
  assert (Hop : batch_get cfBlockTxs (packUint (eb_Height block)) (wb ++ [op]) = Some (Some (foldl packBlockTx [] blockTxs))).
  { rewrite batch_get_app. cbn. by rewrite decide_True. }
  destruct (Z.ltb_spec (u32 KeepBlockAddresses) (eb_Height block)).
  - destruct (cleanupLoop_rows d (Z.to_nat (eb_Height block)) (wb ++ [op]) (eb_Height block - u32 KeepBlockAddresses) Hr) as (ops & -> & Hops).
    eexists. split; [done|]. split.
    + rewrite <- app_assoc. apply extends_app. constructor; [left|]. eapply Forall_impl; [exact Hops|].
      intros o (r & _ & ->). left.
    + rewrite batch_get_app, batch_get_other; [done|]. eapply Forall_impl; [exact Hops|]. intros o (r & Hr' & ->). right. cbn.
      intros Heq. apply packUint_inj in Heq; [lia|unfold is_u32 in *; lia|done].
  - eexists. split; [done|]. split; [|done]. apply extends_app. repeat constructor.
Qed.

Lemma storeInternal_extends wb rows : extends [cfInternalData] wb (storeInternalDataEthereumType wb rows).
Proof.
  unfold storeInternalDataEthereumType. revert wb. induction rows as [|t rows IH]; intros wb; [apply extends_refl|]. cbn [foldl].
  destruct (ebt_internalData t); [|apply IH]. eapply extends_trans; [|apply IH]. apply extends_app. repeat constructor.
Qed.

Lemma storeInternal_get wb rows t : NoDup (map ebt_btxID rows) -> t ∈ rows ->
  batch_get cfInternalData (ebt_btxID t) (storeInternalDataEthereumType wb rows) =
  match ebt_internalData t with
  | Some data => Some (Some (packEthInternalData data))
  | None => batch_get cfInternalData (ebt_btxID t) wb
  end.
Proof.
  unfold storeInternalDataEthereumType. intros Hn Ht. revert wb.
  assert (Hother : forall rows wb k, k ∉ map ebt_btxID rows ->
    batch_get cfInternalData k (foldl (fun wb blockTx => match ebt_internalData blockTx with
      | Some data => wb ++ [PutCF cfInternalData (ebt_btxID blockTx) (packEthInternalData data)] | None => wb end) wb rows)
    = batch_get cfInternalData k wb).
  { clear. induction rows as [|r rows IH]; intros wb k Hk; [done|]. cbn [map] in Hk. apply not_elem_of_cons in Hk as [Hk Hks]. cbn [foldl].
    rewrite IH by done. destruct (ebt_internalData r); [|done]. rewrite batch_get_app. cbn. rewrite decide_False; [done|]. intros [_ ?]. congruence. }
  induction rows as [|r rows IH]; intros wb; [by apply not_elem_of_nil in Ht|]. cbn [map] in Hn. apply NoDup_cons in Hn as [Hr Hn].
  cbn [foldl]. apply elem_of_cons in Ht as [->|Ht].
  - rewrite Hother by done. destruct (ebt_internalData r); [|done]. rewrite batch_get_app. cbn. by rewrite decide_True.
  - rewrite IH by done. destruct (ebt_internalData t); [done|]. destruct (ebt_internalData r); [|done].
    rewrite batch_get_app. cbn. rewrite decide_False; [done|]. intros [_ Heq]. apply Hr. rewrite Heq. apply list_elem_of_fmap. by exists t.
Qed.

(** ** A block *)

(** Between blocks: the state stands for the ledger and the maps of the block are gone. *)
Definition rests st (m : gmap bytes AddrContracts) : Prop :=
  agrees st (mkLedger m ∅) /\ es_addressContracts st = ∅.

(** A block that can be connected: its txids and header can be packed, the parser of transfers
    returns, what it adds to an address can be stored and the rows of its contracts can be read. *)
Record connectable (block : EthBlock) (ids : list bytes) st (m : gmap bytes AddrContracts) : Prop := {
  cb_rests : rests st m;
  cb_coherent : coherent st;
  cb_height : is_u32 (eb_Height block);
  cb_keep : 1 <= u32 KeepBlockAddresses;
  cb_info : exists val, packBlockInfo (blockInfo block) = Ok val;
  cb_ids : Forall2 (fun tx id => PackTxid (etx_Txid tx) = Ok id) (eb_Txs block) ids;
  cb_transfers : Forall transfersTotal (eb_Txs block);
  cb_fit : events_fit (mkLedger m ∅) (blockEvents ids (eb_Txs block));
  cb_specific : specific_ok (es_db st) block;
}.

Definition afterBlock (m : gmap bytes AddrContracts) (ids : list bytes) (block : EthBlock) : Ledger :=
  foldl applyEvent (mkLedger m ∅) (blockEvents ids (eb_Txs block)).

Lemma process_agrees block ids st m : connectable block ids st m ->
  exists st1, processAddressesEthereumType (eb_Txs block) (endBlock st) = (Ok (blockRows ids (eb_Txs block)), st1)
  /\ agrees st1 (afterBlock m ids block) /\ frame st st1.
Proof.
  intros [[Hag Hac] Hc Hh Hk Hi Hids Htr Hfit Hsp]. rewrite (processBlock_events _ _ Hids Htr).
  set (st0 := with_hot _ _).
  assert (Hag0 : agrees st0 (mkLedger m ∅)).
  { destruct Hag as (Ha & Hf & Hs). split; [done|]. split; [done|]. intros a Hx. specialize (Hs a Hx).
    unfold stands_for, live in *. cbn. by rewrite lookup_empty; rewrite Hac, lookup_empty in Hs. }
  destruct (runEvents_agrees _ st0 _ Hag0 Hfit) as (st1 & E1 & Hag1).
  exists st1. split; [unfold mbind, EthM_bind; by rewrite E1|]. split; [done|].
  pose proof (runEvents_frames (blockEvents ids (eb_Txs block)) st0) as Hf. rewrite E1 in Hf. exact Hf.
Qed.

Lemma frame_pureLoad st st1 k : frame st st1 -> pureLoad (es_db st1) k = pureLoad (es_db st) k.
Proof.
  intros (_ & _ & F3 & F4 & _). apply pureLoad_same. unfold same_rows, GetCF. by rewrite F4, !F3 by set_solver.
Qed.

Lemma coherent_frame st st1 : frame st st1 -> coherent st -> coherent st1.
Proof.
  intros Hf Hc. pose proof Hf as (F1 & _). unfold coherent in *. rewrite F1. eapply Forall_impl; [exact Hc|].
  intros e (H1 & H2 & H3). split_and!; [done|done|]. intros. rewrite (frame_pureLoad st) by done. auto.
Qed.

Lemma rows_ids block ids : Forall2 (fun tx id => PackTxid (etx_Txid tx) = Ok id) (eb_Txs block) ids ->
  map ebt_btxID (blockRows ids (eb_Txs block)) = ids.
Proof.
  unfold blockRows. induction 1 as [|tx id txs ids' _ _ IH]; [done|]. cbn [zip_with map]. f_equal. exact IH.
Qed.

(** The batch of a block, and the state it is written in. *)
Lemma blockBatch_spec block ids st1 st m : connectable block ids st m -> agrees st1 (afterBlock m ids block) -> frame st st1 ->
  forall wb0, Forall (fun op => op_cf op = cfHeight) wb0 ->
  let rows := blockRows ids (eb_Txs block) in
  let wb1 := storeUnpackedAddressContracts wb0 (es_cache st1) (es_addressContracts st1) in
  exists r c wb3 wb4,
    storeBlockSpecificDataEthereumType (storeInternalDataEthereumType wb1 rows) block st1
      = (Ok wb3, with_registry r (with_aliases c st1))
    /\ storeAndCleanupBlockTxsEthereumType (es_db st1) wb3 (eb_header block) rows = Ok wb4
    /\ coherent (with_registry r st1)
    /\ let wb := storeAddresses wb4 (eb_Height block) (es_addresses st1) in
       (forall a, batch_get cfAddressContracts a wb =
          batch_get cfAddressContracts a (concat (map (fun e => storeUnpackedContracts (es_cache st1) e.1 e.2) (map_to_list (es_addressContracts st1)))))
       /\ (forall a txs, lg_addresses (afterBlock m ids block) !! a = Some txs ->
            batch_get cfAddresses (packAddressKey a (eb_Height block)) wb = Some (Some (packTxIndexes txs)))
       /\ batch_get cfBlockTxs (packUint (eb_Height block)) wb = Some (Some (foldl packBlockTx [] rows))
       /\ (forall t, NoDup ids -> t ∈ rows ->
            batch_get cfInternalData (ebt_btxID t) wb = Some ∘ packEthInternalData <$> ebt_internalData t)
       /\ Forall (fun e => batch_get cfContracts (le_key e) wb = None) (cached_keys r)
       /\ forall k, batch_get cfErcProtocols k wb = None.
Proof.
  intros Hb Hag Hfr wb0 Hw0 rows wb1. pose proof Hag as (Ha & [[Hr Hwf] Hkp] & _).
  assert (X1 : extends [cfAddressContracts] wb0 wb1).
  { apply extends_app, Forall_concat, List.Forall_map, Forall_forall. intros [a u] _. cbn [fst snd]. unfold storeUnpackedContracts.
    repeat case_match; repeat constructor. }
  pose proof (storeInternal_extends wb1 rows) as X2. set (wb2 := storeInternalDataEthereumType wb1 rows) in *.
  assert (X02 : extends [cfAddressContracts; cfInternalData] wb0 wb2).
  { eapply extends_trans; (eapply extends_weaken; [|eassumption]); set_solver. }
  assert (Hc1 : coherent st1) by (eapply coherent_frame; [exact Hfr|apply (cb_coherent _ _ _ _ Hb)]).
  assert (Hs1 : specific_ok (es_db st1) block).
  { pose proof (cb_specific _ _ _ _ Hb) as Hs. unfold specific_ok, readable in *. destruct (eb_CoinSpecificData block); [|done].
    destruct Hs as [? Hs]. split; [done|]. eapply Forall_impl; [exact Hs|]. intros ci [|(k & o & ? & ?)]; [by left|].
    right. exists k, o. by rewrite (frame_pureLoad st). }
  destruct (storeBlockSpecific_spec wb2 block st1 Hc1 Hs1) as (r & c & wb3 & E3 & Hcr & X3 & He).
  { destruct X02 as (ops & -> & Hops). apply Forall_app. split.
    - eapply Forall_impl; [exact Hw0|]. intros op ->. done.
    - eapply Forall_impl; [exact Hops|]. cbn beta. intros op Hop Hcf. rewrite Hcf in Hop. set_solver. }
  destruct (storeAndCleanup_spec (es_db st1) wb3 block rows) as (wb4 & E4 & X4 & B4);
    [intros; apply Hr|apply (cb_height _ _ _ _ Hb)|apply (cb_keep _ _ _ _ Hb)|].
  exists r, c, wb3, wb4. split_and!; [done|done|done|]. intros wb.
  pose proof (extends_storeAddresses wb4 (eb_Height block) (es_addresses st1)) as X5. fold wb in X5.
  assert (Hz : forall cf k, cf <> cfHeight -> batch_get cf k wb0 = None).
  { intros cf k Hcf. apply batch_get_other. eapply Forall_impl; [exact Hw0|]. intros op ->. by left. }
  split_and!.
  - intros a. skip_cf X5. skip_cf X4. skip_cf X3. skip_cf X2. unfold wb1, storeUnpackedAddressContracts.
    rewrite batch_get_app, Hz by done. by case_match.
  - intros a txs Htx. unfold wb. rewrite batch_get_storeAddresses, Ha, Htx. done.
  - skip_cf X5. exact B4.
  - intros t Hn Ht. skip_cf X5. skip_cf X4. skip_cf X3. unfold wb2. rewrite storeInternal_get;
      [|unfold rows; rewrite (rows_ids block ids); [done|exact (cb_ids _ _ _ _ Hb)]|done].
    destruct (ebt_internalData t); [done|]. cbn. skip_cf X1. by apply Hz.
  - eapply Forall_impl; [exact He|]. intros e Hbe. skip_cf X5. skip_cf X4. exact Hbe.
  - intros k. skip_cf X5. skip_cf X4. skip_cf X3. skip_cf X2. skip_cf X1. by apply Hz.
Qed.

Lemma storeCache_columns due st :
  same_columns [cfAddressContracts] (es_db st) (es_db (storeAddrContractsCacheIfDue due st)) /\
  es_registry (storeAddrContractsCacheIfDue due st) = es_registry st /\
  es_addressContracts (storeAddrContractsCacheIfDue due st) = es_addressContracts st.
Proof.
  unfold storeAddrContractsCacheIfDue, storeAddrContractsCache. destruct due; [|done]. case_match; [|done].
  split; [apply snapshot_columns|done].
Qed.

Lemma storeCache_endBlock due st : storeAddrContractsCacheIfDue due (endBlock st) = endBlock (storeAddrContractsCacheIfDue due st).
Proof. unfold storeAddrContractsCacheIfDue, storeAddrContractsCache. destruct due; [|done]. cbn. by case_match. Qed.

(** A registry that was coherent before a batch none of whose rows it caches. *)
Lemma coherent_after r wb st st' :
  coherent (with_registry r st) -> Forall (fun e => batch_get cfContracts (le_key e) wb = None) (cached_keys r) ->
  (forall k, batch_get cfErcProtocols k wb = None) -> es_registry st' = r ->
  (forall cf k, cf <> cfAddressContracts -> GetCF (es_db st') cf k =
     match batch_get cf k wb with Some v => Ok v | None => GetCF (es_db st) cf k end) ->
  coherent st'.
Proof.
  intros Hc He Hp Hr Hg. unfold coherent in *. rewrite Hr. cbn in Hc. apply Forall_forall. intros e Hin.
  rewrite Forall_forall in Hc, He. destruct (Hc e Hin) as (H1 & H2 & H3). split_and!; [done|done|]. intros G1 G2.
  rewrite (pureLoad_same (es_db st)); [by apply H3|]. split; rewrite Hg by done; [by rewrite He|by rewrite Hp].
Qed.

(** What connecting a block leaves. *)
Definition connected (block : EthBlock) (ids : list bytes) (m : gmap bytes AddrContracts) (d : DB K) st' : Prop :=
  let after := afterBlock m ids block in
  let rows := blockRows ids (eb_Txs block) in
  rests st' (prune (lg_contracts after)) /\ coherent st'
  /\ (forall a txs, lg_addresses after !! a = Some txs ->
        GetCF (es_db st') cfAddresses (packAddressKey a (eb_Height block)) = Ok (Some (packTxIndexes txs)))
  /\ GetCF (es_db st') cfBlockTxs (packUint (eb_Height block)) = Ok (Some (foldl packBlockTx [] rows))
  /\ (forall t, NoDup ids -> t ∈ rows -> GetCF (es_db st') cfInternalData (ebt_btxID t) =
        match ebt_internalData t with
        | Some data => Ok (Some (packEthInternalData data))
        | None => GetCF d cfInternalData (ebt_btxID t)
        end).

Lemma connect_block due block ids st m : connectable block ids st m ->
  exists st', ConnectBlockEthereumType due block st = (Ok (eb_Height block), st') /\ connected block ids m (es_db st) st'.
Proof.
  intros Hb. destruct (process_agrees block ids st m Hb) as (st1 & E1 & Hag & Hfr).
  destruct (cb_info _ _ _ _ Hb) as [val Hval].
  destruct (blockBatch_spec block ids st1 st m Hb Hag Hfr [PutCF cfHeight (packUint (eb_Height block)) val])
    as (r & c & wb3 & wb4 & E3 & E4 & Hc & B1 & B2 & B3 & B4 & B5 & B6); [by repeat constructor|].
  set (after := afterBlock m ids block) in *. set (rows := blockRows ids (eb_Txs block)) in *.
  set (wb := storeAddresses wb4 (eb_Height block) (es_addresses st1)) in *.
  set (st2 := with_registry r (with_aliases c st1)) in *.
  assert (Hag2 : agrees st2 after) by exact Hag. pose proof Hag2 as (_ & [[Hr Hw] _] & _).
  change (es_db st2) with (es_db st1) in Hr, Hw.
  destruct (WriteBatch wb (es_db st1)) as [d'|e|] eqn:Ew; [|unfold WriteBatch in Ew; by rewrite Hw in Ew..].
  pose proof (store_agrees wb d' st2 after Hag2 B1 Ew) as Hag3.
  pose proof (storeCache_agrees due _ _ Hag3) as Hag4. rewrite storeCache_endBlock in Hag4.
  pose proof (storeCache_columns due (with_db d' st2)) as ((C1 & C2 & C3) & C4 & C5).
  set (st3 := storeAddrContractsCacheIfDue due (with_db d' st2)) in *.
  assert (Hget : forall cf k, cf <> cfAddressContracts ->
    GetCF (es_db st3) cf k = match batch_get cf k wb with Some v => Ok v | None => GetCF (es_db st1) cf k end).
  { intros cf k Hcf. unfold GetCF. rewrite C2, C1 by set_solver. cbn [es_db with_db].
    unfold WriteBatch in Ew. rewrite Hw in Ew. injection Ew as <-. cbn [db_rfault db_cf]. rewrite Hr, kv_get_batch.
    by destruct (batch_get cf k wb). }
  exists (endBlock st3). unfold connected. fold after rows. split_and!.
  - unfold ConnectBlockEthereumType, scoped. change (with_contracts ∅ (with_addresses ∅ st)) with (endBlock st).
    erewrite bind_ok; cycle 1. { unfold liftR, writeHeight. rewrite Hval. cbn [rbind app]. reflexivity. }
    cbv beta iota. erewrite bind_ok by exact E1. erewrite bind_ok by reflexivity. erewrite bind_ok by reflexivity.
    erewrite bind_ok by exact E3. fold st2. erewrite bind_ok by reflexivity.
    erewrite bind_ok; cycle 1. { unfold liftR. change (es_db st2) with (es_db st1). rewrite E4. reflexivity. }
    erewrite bind_ok by reflexivity. change (es_addresses st2) with (es_addresses st1). fold wb.
    erewrite bind_ok; cycle 1. { unfold writeBatchM. change (es_db st2) with (es_db st1). rewrite Ew. reflexivity. }
    erewrite bind_ok by reflexivity. done.
  - by split.
  - apply (coherent_after r wb st1); [done|done|done|exact C4|exact Hget].
  - intros a txs Htx. cbn [endBlock with_contracts with_addresses es_db]. rewrite Hget by done. by rewrite (B2 a txs Htx).
  - cbn [endBlock with_contracts with_addresses es_db]. rewrite Hget by done. by rewrite B3.
  - intros t Hn Ht. cbn [endBlock with_contracts with_addresses es_db]. rewrite Hget by done. rewrite (B4 t Hn Ht).
    destruct (ebt_internalData t); [done|]. cbn. unfold GetCF. destruct Hfr as (_ & _ & F3 & F4 & _). by rewrite F4, F3 by set_solver.
Qed.

(** C4: connecting a block of an Ethereum-type coin. From a state that stands for the addresses
    [m], whatever is cached, however rows are decoded and whenever the caches are written, the
    call returns and the state stands for the addresses after the events of the block, without
    the rows that became empty; the index row of every address of the block, the row of the
    block for its disconnection and the rows of internal data are written; the cache of
    contracts still agrees with the database. *)
Theorem connect_block_refines due block ids st m :
  connectable block ids st m ->
  let after := afterBlock m ids block in
  let rows := blockRows ids (eb_Txs block) in
  exists st', ConnectBlockEthereumType due block st = (Ok (eb_Height block), st')
  /\ rests st' (prune (lg_contracts after)) /\ coherent st'
  /\ (forall a txs, lg_addresses after !! a = Some txs ->
        GetCF (es_db st') cfAddresses (packAddressKey a (eb_Height block)) = Ok (Some (packTxIndexes txs)))
  /\ GetCF (es_db st') cfBlockTxs (packUint (eb_Height block)) = Ok (Some (foldl packBlockTx [] rows))
  /\ (forall t data, NoDup ids -> t ∈ rows -> ebt_internalData t = Some data ->
        GetCF (es_db st') cfInternalData (ebt_btxID t) = Ok (Some (packEthInternalData data))).
Proof.
  intros Hb after rows. destruct (connect_block due block ids st m Hb) as (st' & E1 & H1 & H2 & H3 & H4 & H5).
  exists st'. split_and!; try done. intros t data Hn Ht Hd. rewrite (H5 t Hn Ht). by rewrite Hd.
Qed.
End EthBlockCorrect.

Module EthBlockExample.
#[local] Existing Instances RefVlq.vlq RefVlq.vlq_laws MapKV.map_kv MapKV.map_kv_laws EthParserExample.refEth EthParserExample.refEthLaws.

Definition address (b : byte) : bytes := replicate 20 b.
Definition text (b : byte) : bytes := x30 :: x78 :: hex_EncodeToString (address b).
Definition txid : bytes := x30 :: x78 :: hex_EncodeToString (replicate 32 x77).

(** A transfer of 5 units of the token 0xcc.. from 0x0a.. to 0x0b.. *)
Definition transfer : TokenTransfer := mkTokenTransfer FungibleToken (text xcc) (text x0a) (text x0b) 5 [].
#[local] Instance parser : EthChainParser := ethereumParser 100 (fun _ => Ok [transfer]).
#[local] Instance parser_laws : EthChainParserLaws parser := ethereumParserLaws 100 (fun _ => Ok [transfer]).
#[local] Instance aliases : AliasParser := ethereumAliases true (str ".eth").
#[local] Instance opts : IndexOpts := { extendedIndex := false }.
#[local] Instance cacheOpts : EthCacheOpts := { opt_addrContractsCacheMinSize := 10; opt_addrContractsCacheMaxBytes := 100 }.

Definition tx : EthTx :=
  mkEthTx txid [[text x0a]] [[text x0b]] 7
    (Some (mkSpecificData (Some (mkRpcTransaction (text x0b) [] (text x0a)))
       (Some (mkInternalData CALL [] [mkInternalTransfer CALL (text x0b) (text x0d) 3] [])) None)).
Definition block : EthBlock :=
  mkEthBlock txid 7 1500000000 1000 [tx] (Some (mkEBSD [] [mkAlias (text x0a) (str "a")]
    [mkContractInfo [] (str "ERC20") (text xcc) (str "Token") (str "TKN") 18 7 0 false []])).
Definition start : EthState MapKV.map_kv :=
  mkEthState MapKV.map_kv ∅ ∅ ∅ 0 None (mkDB MapKV.map_kv (fun _ => ∅) (fun _ _ => false) false) (mkRegistry (newContractInfoLRU 8) 0 0) None.

Lemma no_rows : agrees start (mkLedger ∅ ∅).
Proof.
  split; [done|]. split; [split; [done|by intros a [? ?]]|]. intros a _. split; [done|]. done.
Qed.

Lemma connectable_block : connectable block [replicate 32 x77] start ∅.
Proof.
  constructor.
  - split; [exact no_rows|done].
  - constructor.
  - unfold is_u32. cbn. lia.
  - vm_compute. discriminate.
  - eexists. vm_compute. reflexivity.
  - constructor; [vm_compute; reflexivity|constructor].
  - constructor; [done|constructor].
  - apply events_fitb_sound. vm_compute. reflexivity.
  - split; [by left|]. constructor; [|constructor]. right. exists (address xcc), None. split; vm_compute; reflexivity.
Qed.

Lemma connect_block_refines_witness :
  exists st', ConnectBlockEthereumType true block start = (Ok 7, st')
  /\ rests st' (prune (lg_contracts (afterBlock ∅ [replicate 32 x77] block))).
Proof.
  destruct (connect_block_refines true block [replicate 32 x77] start ∅ connectable_block) as (st' & E1 & E2 & _).
  exact (ex_intro _ st' (conj E1 E2)).
Defined.

(** The receiver has one coin transfer, one internal one and the token; the contract is registered. *)
Example receiver_after :
  let '(r, st) := ConnectBlockEthereumType true block start in
  match (getUnpackedAddrDescContracts (address x0b) st).1 with
  | Ok (Some u) => ua_TotalTxs u = 1 /\ ua_NonContractTxs u = 1 /\ ua_InternalTxs u = 1 /\ map uac_Contract (ua_Contracts u) = [address xcc]
  | _ => False
  end /\
  match pureLoad (es_db st) (address xcc) with Ok (Some ci) => ci_CreatedInBlock ci = 7 | _ => False end.
Proof. vm_compute. split_and!; reflexivity. Qed.
End EthBlockExample.
