(* ===== verification/EthDisconnect.v ===== *)
(** Disconnecting blocks of an Ethereum-type coin ([db/rocksdb_ethereumtype.go]:
    [disconnectAddress] to [DisconnectBlockRangeEthereumType]).

    The map [contracts] of the code is the map of addresses of the state, the objects in it are
    shared with the cache; [addresses], the transactions met at every address, is an argument
    and a result. *)

From S2P Require Import Prelude Codec Parser TxAddr Balance IndexCodec Store GoSort EthTokens EthContracts EthIndex EthParser EthRows EthContractInfo EthAliases EthState EthRegistry EthConnect EthBlock.

Local Open Scope Z_scope.

(** [map[string]map[string]struct{}] *)
Notation txsOfAddresses := (gmap bytes (gset bytes)).

Section EthDisconnect.
Context {V : Vlq} {E : EthChainParser} {IX : IndexOpts} {K : KV} {CO : EthCacheOpts}.

(** [addrContracts, fc := contracts[s]; if !fc { ... }] *)
Definition loadKnown (addrDesc : bytes) : EthM K (option unpackedAddrContracts) :=
  m ← gets es_addressContracts;
  match m !! addrDesc with
  | Some ac => mret (Some ac)
  | None =>
      rv ← getUnpackedAddrDescContracts addrDesc;
      match rv with
      | Some ac =>
          _ ← modifyM (fun st => with_contracts (<[addrDesc := ac]> (es_addressContracts st)) st);
          mret (Some ac)
      | None => mret None
      end
  end.

(** The holdings of the address before the transfer. *)
Definition reverseTransfer (addrDesc : bytes) (btxContract : ethBlockTxContract) (contractIndex : nat) (c : unpackedAddrContract)
    : result unpackedAddrContract :=
  let transfer := mkTokenTransfer (bc_transferStandard btxContract) [] [] [] (bc_value btxContract) (bc_idValues btxContract) in
  let back c index := let! '(c, _) := addToContract c (Z.of_nat contractIndex) index transfer false true in Ok c in
  if bool_decide (bc_from btxContract = bc_to btxContract) then
    if isNFTSelfTransfer (bc_from btxContract) (bc_to btxContract) (bc_transferStandard btxContract) then Ok c
    else let! c := back c transferTo in back c transferFrom
  else back c (if bool_decide (addrDesc = bc_to btxContract) then transferFrom else transferTo).

(** The contract of a transfer: its last transaction removes it. *)
Definition disconnectContract (addrDesc : bytes) (btxContract : ethBlockTxContract) (acs : unpackedAddrContracts)
    : result unpackedAddrContracts :=
  let '(r, acs, _, _) := findContractIndex addrDesc (bc_contract btxContract) None acs in
  match r with
  | None => Ok acs
  | Some contractIndex =>
      match ua_Contracts acs !! contractIndex with
      | None => Panic
      | Some addrContract =>
          if 0 <? uac_Txs addrContract then
            let addrContract := set_uac_Txs (u64 (uac_Txs addrContract - 1)) addrContract in
            if uac_Txs addrContract =? 0
            then Ok (markContractIndexDirty (set_contracts (removeAt (Z.of_nat contractIndex) (ua_Contracts acs)) acs))
            else
              let! addrContract := reverseTransfer addrDesc btxContract contractIndex addrContract in
              Ok (set_contracts (<[contractIndex := addrContract]> (ua_Contracts acs)) acs)
          else Ok acs
      end
  end.

Definition disconnectCounters (internal : bool) (acs : unpackedAddrContracts) : unpackedAddrContracts :=
  if internal then
    if 0 <? ua_InternalTxs acs then set_InternalTxs (u64 (ua_InternalTxs acs - 1)) acs else acs
  else if 0 <? ua_NonContractTxs acs then set_NonContractTxs (u64 (ua_NonContractTxs acs - 1)) acs else acs.

Definition disconnectAddress (btxID : bytes) (internal : bool) (addrDesc : bytes) (btxContract : option ethBlockTxContract)
    (addresses : txsOfAddresses) : EthM K txsOfAddresses :=
  if zlen addrDesc =? 0 then mret addresses
  else
    let mtx := default ∅ (addresses !! addrDesc) in
    let ftx := bool_decide (btxID ∈ mtx) in
    let addresses := <[addrDesc := {[btxID]} ∪ mtx]> addresses in
    addrContracts ← loadKnown addrDesc;
    match addrContracts with
    | None => mret addresses
    | Some acs =>
        let acs := if ftx then acs else set_TotalTxs (u64 (ua_TotalTxs acs - 1)) acs in
        acs ← liftR (match btxContract with
                     | None => Ok (disconnectCounters internal acs)
                     | Some c => disconnectContract addrDesc c acs
                     end);
        _ ← modifyM (putContracts addrDesc acs);
        mret addresses
    end.

(** ** Internal data *)

(** The body of the loop over the internal transfers. *)
Definition disconnectTransfer (btxID : bytes) (height : Z) (t : EthereumInternalTransfer)
    (s : txsOfAddresses * contractRegistryRollback) : EthM K (txsOfAddresses * contractRegistryRollback) :=
  let '(addresses, rollback) := s in
  from ← liftR (GetAddrDescFromAddress (it_From t));
  to ← liftR (GetAddrDescFromAddress (it_To t));
  addresses ← disconnectAddress btxID true from None addresses;
  addresses ← (if bool_decide (from = to) then mret addresses else disconnectAddress btxID true to None addresses);
  rollback ← (if it_Type t =? CREATE then rollbackContractRegistryRow to height false rollback
              else if it_Type t =? SELFDESTRUCT then rollbackContractRegistryRow from height true rollback
              else mret rollback);
  mret (addresses, rollback).

Fixpoint disconnectTransfers (btxID : bytes) (height : Z) (ts : list EthereumInternalTransfer)
    (s : txsOfAddresses * contractRegistryRollback) : EthM K (txsOfAddresses * contractRegistryRollback) :=
  match ts with
  | [] => mret s
  | t :: r => s ← disconnectTransfer btxID height t s; disconnectTransfers btxID height r s
  end.

Definition disconnectInternalData (btxID : bytes) (height : Z) (s : txsOfAddresses * contractRegistryRollback)
    : EthM K (txsOfAddresses * contractRegistryRollback) :=
  d ← gets es_db;
  internalData ← liftR (getEthereumInternalData d btxID);
  match internalData with
  | None => mret s
  | Some data =>
      s ← (if id_Type data =? CREATE then
             let '(addresses, rollback) := s in
             contract ← liftR (GetAddrDescFromAddress (id_Contract data));
             addresses ← disconnectAddress btxID true contract None addresses;
             rollback ← rollbackContractRegistryRow contract height false rollback;
             mret (addresses, rollback)
           else mret s);
      disconnectTransfers btxID height (id_Transfers data) s
  end.

(** ** A block *)

(** The body of the loop over the transactions. *)
Definition disconnectTx (height : Z) (blockTx : ethBlockTx) (s : txsOfAddresses * contractRegistryRollback)
    : EthM K (txsOfAddresses * contractRegistryRollback) :=
  let '(addresses, rollback) := s in
  addresses ← disconnectAddress (ebt_btxID blockTx) false (ebt_from blockTx) None addresses;
  addresses ← (if bool_decide (ebt_from blockTx = ebt_to blockTx) then mret addresses
               else disconnectAddress (ebt_btxID blockTx) false (ebt_to blockTx) None addresses);
  disconnectInternalData (ebt_btxID blockTx) height (addresses, rollback).

Fixpoint disconnectTxsEthereumType (wb : list BatchOp) (height : Z) (blockTxs : list ethBlockTx)
    (s : txsOfAddresses * contractRegistryRollback) : EthM K (list BatchOp * (txsOfAddresses * contractRegistryRollback)) :=
  match blockTxs with
  | [] => mret (wb, s)
  | blockTx :: r =>
      s ← disconnectTx height blockTx s;
      disconnectTxsEthereumType (wb ++ [DeleteCF cfTransactions (ebt_btxID blockTx); DeleteCF cfInternalData (ebt_btxID blockTx)]) height r s
  end.

(** The body of the loop over the token transfers. *)
Definition disconnectTokenTransfer (addresses : txsOfAddresses) (e : bytes * ethBlockTxContract) : EthM K txsOfAddresses :=
  let '(btxID, c) := e in
  addresses ← disconnectAddress btxID false (bc_from c) (Some c) addresses;
  if bool_decide (bc_from c = bc_to c) then mret addresses
  else disconnectAddress btxID false (bc_to c) (Some c) addresses.

Fixpoint disconnectTokenTransfers (l : list (bytes * ethBlockTxContract)) (addresses : txsOfAddresses) : EthM K txsOfAddresses :=
  match l with
  | [] => mret addresses
  | e :: r => addresses ← disconnectTokenTransfer addresses e; disconnectTokenTransfers r addresses
  end.

(** The transfers in reverse chronological order. *)
Definition reversedTransfers (blockTxs : list ethBlockTx) : list (bytes * ethBlockTxContract) :=
  concat (map (fun t => map (pair (ebt_btxID t)) (reverse (ebt_contracts t))) (reverse blockTxs)).

Definition disconnectBlockTxsEthereumType (wb : list BatchOp) (height : Z) (blockTxs : list ethBlockTx)
    (registryRollback : contractRegistryRollback) : EthM K (list BatchOp * contractRegistryRollback) :=
  '(wb, (addresses, registryRollback)) ← disconnectTxsEthereumType wb height blockTxs (∅, registryRollback);
  addresses ← disconnectTokenTransfers (reversedTransfers blockTxs) addresses;
  mret (wb ++ map (fun a => DeleteCF cfAddresses (packAddressKey a height)) (elements (dom addresses)), registryRollback).

(** ** A range of blocks *)

(** [blocks[i] = v] *)
Definition setEthBlock (i : Z) (v : list ethBlockTx) (blocks : list (list ethBlockTx)) : result (list (list ethBlockTx)) :=
  if i <? zlen blocks then Ok (<[Z.to_nat i := v]> blocks) else Panic.

Definition errCannotDisconnect : goerror := ErrMsg "Cannot disconnect blocks. It is necessary to rebuild index.".

(** [for height := lower; height <= higher; height++]; the counter is a [uint32]. *)
Fixpoint readEthBlockTxs (fuel : nat) (d : DB K) (lower higher height : Z) (blocks : list (list ethBlockTx))
    : result (list (list ethBlockTx)) :=
  match fuel with
  | O => Panic
  | S f =>
      if height <=? higher then
        let! blockTxs := getBlockTxsEthereumType d height in
        match blockTxs with
        | None => Err errCannotDisconnect
        | Some bts =>
            let! blocks := setEthBlock (u32 (height - lower)) bts blocks in
            readEthBlockTxs f d lower higher (u32 (height + 1)) blocks
        end
      else Ok blocks
  end.

(** [for height := higher; height >= lower; height--] *)
Fixpoint disconnectEthBlocks (fuel : nat) (lower height : Z) (blocks : list (list ethBlockTx)) (wb : list BatchOp)
    (rollback : contractRegistryRollback) : EthM K (list BatchOp * contractRegistryRollback) :=
  match fuel with
  | O => liftR Panic
  | S f =>
      if lower <=? height then
        match blocks !! Z.to_nat (u32 (height - lower)) with
        | None => liftR Panic
        | Some bts =>
            '(wb, rollback) ← disconnectBlockTxsEthereumType wb height bts rollback;
            let key := packUint height in
            disconnectEthBlocks f lower (u32 (height - 1)) blocks
              (wb ++ [DeleteCF cfBlockTxs key; DeleteCF cfHeight key; DeleteCF cfBlockInternalDataErrors key]) rollback
        end
      else mret (wb, rollback)
  end.

(** The number of iterations of either loop, and one more for its final test. *)
Definition ethRangeFuel (lower higher : Z) : nat := S (S (Z.to_nat (higher - lower))).

(** [d.reorgGen.Add(1)] *)
Definition bumpReorgGen : EthM K unit :=
  modifyM (fun st =>
    let r := es_registry st in
    with_registry (mkRegistry (rg_cachedContracts r) (u64 (rg_reorgGen r + 1)) (rg_protocolGen r)) st).

Definition DisconnectBlockRangeEthereumType (lower higher : Z) : EthM K unit := scoped (
  d ← gets es_db;
  blocks ← liftR (readEthBlockTxs (ethRangeFuel lower higher) d lower higher lower (replicate (Z.to_nat (u32 (higher - lower + 1))) []));
  '(wb, rollback) ← disconnectEthBlocks (ethRangeFuel lower higher) lower higher blocks [] newContractRegistryRollback;
  cache ← gets es_cache;
  contracts ← gets es_addressContracts;
  let wb := storeUnpackedAddressContracts wb cache contracts in
  let wb := storeRollback wb rollback in
  wb ← disconnectErcProtocols wb lower higher;
  _ ← writeBatchM wb;
  bumpReorgGen).
End EthDisconnect.
