(* ===== verification/EthUndo.v ===== *)
(** What disconnecting a transfer means for the contracts of an address, and that it undoes what
    connecting it meant.

    [undo_transfer]: when the tokens that left the address were there and those that arrived
    were not, undoing a transfer restores the contracts exactly. *)

From S2P Require Import Prelude Codec Parser TxAddr Balance IndexCodec Store GoSort EthTokens EthContracts EthIndex EthParser EthRows EthContractInfo EthAliases EthState EthRegistry EthConnect EthEvents EthConnectCorrect EthBlock EthBlockCorrect EthDisconnect.

Local Open Scope Z_scope.

(** ** Values of multi tokens in a transfer *)

Definition receiveAll (vs ms : list MultiTokenValue) : list MultiTokenValue :=
  foldl (fun vs m => MultiTokenValues.upsert vs m 0 aggAdd) vs ms.
Definition sendAll (vs ms : list MultiTokenValue) : list MultiTokenValue :=
  foldl (fun vs m => MultiTokenValues.upsert vs m (-1) aggSub) vs ms.

(** The sum of the values of an id. *)
Fixpoint sumOf (id : Z) (ms : list MultiTokenValue) : Z :=
  match ms with
  | [] => 0
  | m :: r => (if mtv_Id m =? id then mtv_Value m else 0) + sumOf id r
  end.

Definition amounts_ok (ms : list MultiTokenValue) : Prop := Forall (fun m => 0 <= mtv_Id m /\ 0 <= mtv_Value m) ms.

Lemma sumOf_nonneg id ms : amounts_ok ms -> 0 <= sumOf id ms.
Proof. induction 1 as [|m ms [_ Hm] _ IH]; cbn [sumOf]; [lia|]. destruct (_ =? _); lia. Qed.

Lemma sumOf_absent id ms : id ∉ map mtv_Id ms -> sumOf id ms = 0.
Proof.
  induction ms as [|m ms IH]; [done|]. cbn [map sumOf]. rewrite not_elem_of_cons. intros [Hne Hn]. rewrite IH by done.
  destruct (Z.eqb_spec (mtv_Id m) id); [congruence|lia].
Qed.

Lemma receiveAll_map vs ms : values_ok vs -> amounts_ok ms ->
  values_ok (receiveAll vs ms) /\ forall id, mapOf (receiveAll vs ms) !! id =
    if bool_decide (id ∈ map mtv_Id ms) then Some (default 0 (mapOf vs !! id) + sumOf id ms) else mapOf vs !! id.
Proof.
  intros Hv Hm. revert vs Hv. induction Hm as [|m ms [Hid Hval] Hm IH]; intros vs Hv; [done|].
  destruct (upsert_map vs m Hv Hid Hval) as (H1 & _ & E1 & _). destruct (IH _ H1) as [H2 E2]. split; [exact H2|].
  intros id. cbn [receiveAll foldl map sumOf]. unfold receiveAll in E2. rewrite E2, E1.
  destruct (Z.eqb_spec (mtv_Id m) id) as [<-|Hne].
  - rewrite lookup_partial_alter_eq. rewrite (bool_decide_eq_true_2 (mtv_Id m ∈ mtv_Id m :: _)) by left. unfold received. cbn [default].
    case_bool_decide; unfold Datatypes.id; f_equal; [lia|]. rewrite sumOf_absent by done. lia.
  - rewrite lookup_partial_alter_ne by done. rewrite Z.add_0_l. destruct (decide (id ∈ map mtv_Id ms)).
    + by rewrite !bool_decide_eq_true_2 by set_solver.
    + by rewrite !bool_decide_eq_false_2 by set_solver.
Qed.

(** What is left of a value after sending the values of its id one by one. *)
Fixpoint sentOf (id : Z) (v : option Z) (ms : list MultiTokenValue) : option Z :=
  match ms with
  | [] => v
  | m :: r => sentOf id (if mtv_Id m =? id then sent v (mtv_Value m) else v) r
  end.

Lemma sendAll_map vs ms : values_ok vs -> amounts_ok ms ->
  values_ok (sendAll vs ms) /\ forall id, mapOf (sendAll vs ms) !! id = sentOf id (mapOf vs !! id) ms.
Proof.
  intros Hv Hm. revert vs Hv. induction Hm as [|m ms [Hid Hval] Hm IH]; intros vs Hv; [done|].
  destruct (upsert_map vs m Hv Hid Hval) as (_ & H1 & _ & E1). destruct (IH _ H1) as [H2 E2]. split; [exact H2|].
  intros id. cbn [sendAll foldl sentOf]. unfold sendAll in E2. rewrite E2, E1.
  destruct (Z.eqb_spec (mtv_Id m) id) as [<-|Hne]; [by rewrite lookup_partial_alter_eq|by rewrite lookup_partial_alter_ne].
Qed.

Lemma sentOf_None id ms : sentOf id None ms = None.
Proof. induction ms as [|m ms IH]; cbn [sentOf]; [done|]. by destruct (_ =? _). Qed.

Lemma sentOf_absent id v ms : id ∉ map mtv_Id ms -> sentOf id v ms = v.
Proof.
  revert v. induction ms as [|m ms IH]; intros v; [done|]. cbn [map sentOf]. rewrite not_elem_of_cons. intros [Hne Hn].
  destruct (Z.eqb_spec (mtv_Id m) id); [congruence|]. by apply IH.
Qed.

(** A value that is more than what is sent is lowered; one that is all sent is removed. *)
Lemma sentOf_more id ms v : amounts_ok ms -> sumOf id ms < v -> sentOf id (Some v) ms = Some (v - sumOf id ms).
Proof.
  intros Hm. revert v. induction Hm as [|m ms [_ Hval] Hm IH]; intros v Hv; cbn [sentOf sumOf] in *; [f_equal; lia|].
  pose proof (sumOf_nonneg id ms Hm). destruct (Z.eqb_spec (mtv_Id m) id); [|rewrite IH by lia; f_equal; lia].
  cbn [sent]. destruct (Z.leb_spec v (mtv_Value m)); [lia|]. rewrite IH by lia. f_equal. lia.
Qed.

Lemma sentOf_all id ms : amounts_ok ms -> id ∈ map mtv_Id ms -> sentOf id (Some (sumOf id ms)) ms = None.
Proof.
  induction 1 as [|m ms [_ Hval] Hm IH]; cbn [map sentOf sumOf]; [set_solver|]. intros Hin.
  pose proof (sumOf_nonneg id ms Hm). destruct (Z.eqb_spec (mtv_Id m) id) as [He|Hne].
  - cbn [sent]. destruct (Z.leb_spec (mtv_Value m + sumOf id ms) (mtv_Value m)); [apply sentOf_None|].
    destruct (decide (id ∈ map mtv_Id ms)) as [Hi|Hi].
    + replace (mtv_Value m + sumOf id ms - mtv_Value m) with (sumOf id ms) by lia. by apply IH.
    + rewrite (sumOf_absent id ms Hi) in *. lia.
  - rewrite Z.add_0_l. apply IH. apply elem_of_cons in Hin as [?|?]; [congruence|done].
Qed.

Lemma sentOf_received id ms v : amounts_ok ms -> id ∈ map mtv_Id ms -> (forall w, v = Some w -> 0 < w) ->
  sentOf id (Some (default 0 v + sumOf id ms)) ms = v.
Proof.
  intros Hm Hin Hv. destruct v as [w|]; cbn [default].
  - specialize (Hv w eq_refl). unfold Datatypes.id. rewrite sentOf_more by (try done; lia). f_equal. lia.
  - rewrite Z.add_0_l. by apply sentOf_all.
Qed.

Lemma received_sentOf id ms v : amounts_ok ms -> id ∈ map mtv_Id ms -> sumOf id ms <= v ->
  Some (default 0 (sentOf id (Some v) ms) + sumOf id ms) = Some v.
Proof.
  intros Hm Hin Hv. destruct (Z.eq_dec v (sumOf id ms)) as [->|].
  - rewrite sentOf_all by done. cbn. f_equal.
  - rewrite sentOf_more by (try done; lia). cbn. unfold Datatypes.id. f_equal. lia.
Qed.

Lemma send_received vs ms : values_ok vs -> amounts_ok ms ->
  (forall id w, id ∈ map mtv_Id ms -> mapOf vs !! id = Some w -> 0 < w) -> sendAll (receiveAll vs ms) ms = vs.
Proof.
  intros Hv Hm Hp. destruct (receiveAll_map vs ms Hv Hm) as [H1 E1]. destruct (sendAll_map _ ms H1 Hm) as [H2 E2].
  apply values_ok_unique; [done|done|]. apply map_eq. intros id. rewrite E2, E1. case_bool_decide as Hin.
  - apply sentOf_received; [done|done|]. intros w Hw. by apply (Hp id).
  - by apply sentOf_absent.
Qed.

Lemma receive_sent vs ms : values_ok vs -> amounts_ok ms ->
  (forall id, id ∈ map mtv_Id ms -> exists v, mapOf vs !! id = Some v /\ sumOf id ms <= v) -> receiveAll (sendAll vs ms) ms = vs.
Proof.
  intros Hv Hm Hp. destruct (sendAll_map vs ms Hv Hm) as [H1 E1]. destruct (receiveAll_map _ ms H1 Hm) as [H2 E2].
  apply values_ok_unique; [done|done|]. apply map_eq. intros id. rewrite E2, E1. case_bool_decide as Hin.
  - destruct (Hp id Hin) as (v & -> & Hle). by apply received_sentOf.
  - by apply sentOf_absent.
Qed.

(** ** The holdings of a contract *)

(** The tokens can be moved and moved back: those that leave are there, those that arrive are
    not there or add to a positive value; the value of a fungible token is not kept. *)
Definition movable (negative : bool) (t : TokenTransfer) (c : AddrContract) : Prop :=
  if tt_Standard t =? FungibleToken then ac_Value c = 0
  else if tt_Standard t =? NonFungibleToken then
    ids_ok (ac_Ids c) /\ 0 <= tt_Value t /\ (if negative then tt_Value t ∈ ac_Ids c else tt_Value t ∉ ac_Ids c)
  else
    tt_Standard t = MultiToken /\ values_ok (ac_MultiTokenValues c) /\ amounts_ok (tt_MultiTokenValues t) /\
    (if negative
     then forall id, id ∈ map mtv_Id (tt_MultiTokenValues t) ->
            exists v, mapOf (ac_MultiTokenValues c) !! id = Some v /\ sumOf id (tt_MultiTokenValues t) <= v
     else forall id w, id ∈ map mtv_Id (tt_MultiTokenValues t) -> mapOf (ac_MultiTokenValues c) !! id = Some w -> 0 < w).

(** The transfer as the row of the block keeps it. *)
Definition kept_transfer (t t' : TokenTransfer) : Prop :=
  tt_Standard t' = tt_Standard t /\
  (tt_Standard t = NonFungibleToken -> tt_Value t' = tt_Value t) /\
  (tt_Standard t = MultiToken -> tt_MultiTokenValues t' = tt_MultiTokenValues t).

Lemma holdings_undo negative t t' c : movable negative t c -> kept_transfer t t' ->
  holdings (negb negative) t' (holdings negative t c) = c.
Proof.
  intros Hm (Es & Ev & Em). unfold holdings, movable in *. rewrite Es.
  destruct (Z.eqb_spec (tt_Standard t) FungibleToken); [destruct c; unfold set_ac_Value; cbn in *; congruence|].
  destruct (Z.eqb_spec (tt_Standard t) NonFungibleToken) as [En|].
  - destruct Hm as (Hi & Hid & Hin). destruct (ids_undo _ _ Hi Hid) as [H1 H2].
    destruct c. cbn in *. rewrite Ev by done. unfold set_ac_Ids. cbn. f_equal. destruct negative; [by apply H2|by apply H1].
  - destruct Hm as (Hs & Hv & Ha & Hp). destruct c. cbn in *. rewrite Em by done. unfold set_ac_Values. cbn. f_equal.
    destruct negative; [by apply receive_sent|by apply send_received].
Qed.

(** ** The contracts of an address *)

(** The contracts after one side of a transfer. *)
Definition stepContract (contract : bytes) (t : TokenTransfer) (negative addTxCount mutateHoldings : bool) (cs : list AddrContract)
    : list AddrContract :=
  let cs := withContract contract (tt_Standard t) cs in
  alter (transferContract negative t addTxCount mutateHoldings) (position contract cs) cs.

(** A transfer with its parsed addresses. *)
Record movement := mkMove { mv_contract : bytes; mv_from : bytes; mv_to : bytes; mv_transfer : TokenTransfer }.

Definition mv_mutates (v : movement) : bool := negb (isNFTSelfTransfer (mv_from v) (mv_to v) (tt_Standard (mv_transfer v))).

(** The contracts of the address [a] after the transfer. *)
Definition moveAt (a : bytes) (v : movement) (cs : list AddrContract) : list AddrContract :=
  let t := mv_transfer v in
  let cs := if bool_decide (mv_to v = a) then stepContract (mv_contract v) t false true (mv_mutates v) cs else cs in
  if bool_decide (mv_from v = a)
  then stepContract (mv_contract v) t true (negb (bool_decide (mv_from v = mv_to v))) (mv_mutates v) cs else cs.

Definition rowTransfer (c : ethBlockTxContract) : TokenTransfer :=
  mkTokenTransfer (bc_transferStandard c) [] [] [] (bc_value c) (bc_idValues c).

Definition reversedHoldings (a : bytes) (c : ethBlockTxContract) (x : AddrContract) : AddrContract :=
  if bool_decide (bc_from c = bc_to c) then
    if isNFTSelfTransfer (bc_from c) (bc_to c) (bc_transferStandard c) then x
    else holdings true (rowTransfer c) (holdings false (rowTransfer c) x)
  else holdings (bool_decide (a = bc_to c)) (rowTransfer c) x.

Definition undoContract (a : bytes) (c : ethBlockTxContract) (cs : list AddrContract) : list AddrContract :=
  let i := position (bc_contract c) cs in
  if bool_decide (bc_contract c ∈ map ac_Contract cs) then
    match cs !! i with
    | Some x =>
        if 0 <? ac_Txs x then
          let x := set_ac_Txs (u64 (ac_Txs x - 1)) x in
          if ac_Txs x =? 0 then removeAt (Z.of_nat i) cs else <[i := reversedHoldings a c x]> cs
        else cs
    | None => cs
    end
  else cs.

(** A row of the block keeps what is needed of the transfer. *)
Definition row_of (c : ethBlockTxContract) (v : movement) : Prop :=
  bc_contract c = mv_contract v /\ bc_from c = mv_from v /\ bc_to c = mv_to v /\ kept_transfer (mv_transfer v) (rowTransfer c).

(** Every contract is there for a transaction. *)
Definition contracts_inv (cs : list AddrContract) : Prop :=
  NoDup (map ac_Contract cs) /\ Forall (fun c => 1 <= ac_Txs c < 2 ^ 62) cs.

(** The contract as it is before the transfer. *)
Definition contractIn (contract : bytes) (standard : TokenStandard) (cs : list AddrContract) : AddrContract :=
  default (newContract contract standard) (cs !! position contract cs).

Definition reversible (a : bytes) (v : movement) (cs : list AddrContract) : Prop :=
  mv_mutates v = true ->
  movable (negb (bool_decide (mv_to v = a))) (mv_transfer v) (contractIn (mv_contract v) (tt_Standard (mv_transfer v)) cs).

Lemma holdings_Txs negative t c n : holdings negative t (set_ac_Txs n c) = set_ac_Txs n (holdings negative t c).
Proof. destruct c. unfold holdings. by repeat case_match. Qed.

Lemma holdings_same negative t c :
  ac_Contract (holdings negative t c) = ac_Contract c /\ ac_Txs (holdings negative t c) = ac_Txs c.
Proof. destruct c. unfold holdings. by repeat case_match. Qed.

Lemma withContract_cases contract standard cs :
  (contract ∈ map ac_Contract cs /\ withContract contract standard cs = cs)
  \/ (contract ∉ map ac_Contract cs /\ withContract contract standard cs = cs ++ [newContract contract standard]).
Proof. unfold withContract. case_bool_decide; auto. Qed.

(** A list with one contract at its position, and what the functions do with it. *)
Lemma split_contract contract cs : contract ∈ map ac_Contract cs ->
  exists p x s, cs = p ++ x :: s /\ ac_Contract x = contract /\ contract ∉ map ac_Contract p.
Proof.
  induction cs as [|c cs IH]; cbn [map]; [set_solver|]. intros Hin. destruct (decide (ac_Contract c = contract)) as [He|Hne].
  - exists [], c, cs. split; [done|]. split; [done|]. apply not_elem_of_nil.
  - apply elem_of_cons in Hin as [?|Hin]; [congruence|]. destruct (IH Hin) as (p & x & s & -> & Hx & Hp).
    exists (c :: p), x, s. split; [done|]. split; [done|]. cbn [map]. apply not_elem_of_cons. split; congruence.
Qed.

Lemma position_split contract p x s : ac_Contract x = contract -> contract ∉ map ac_Contract p ->
  position contract (p ++ x :: s) = length p.
Proof.
  intros Hx Hp. induction p as [|c p IH]; cbn [app position length].
  - by rewrite bool_decide_eq_true_2.
  - cbn [map] in Hp. apply not_elem_of_cons in Hp as [Hc Hp]. rewrite bool_decide_eq_false_2 by done. by rewrite IH.
Qed.

Lemma alter_split {A} (f : A -> A) p x s : alter f (length p) (p ++ x :: s) = p ++ f x :: s.
Proof. induction p as [|c p IH]; [done|]. cbn. f_equal. exact IH. Qed.

Lemma stepContract_split contract t negative cnt mut p x s : ac_Contract x = contract -> contract ∉ map ac_Contract p ->
  stepContract contract t negative cnt mut (p ++ x :: s) = p ++ transferContract negative t cnt mut x :: s.
Proof.
  intros Hx Hp. unfold stepContract, withContract. rewrite bool_decide_eq_true_2.
  - by rewrite position_split, alter_split.
  - rewrite map_app. set_solver.
Qed.

Lemma stepContract_new contract t negative cnt mut cs : contract ∉ map ac_Contract cs ->
  stepContract contract t negative cnt mut cs = cs ++ [transferContract negative t cnt mut (newContract contract (tt_Standard t))].
Proof.
  intros Hn. unfold stepContract, withContract. rewrite bool_decide_eq_false_2 by done.
  by rewrite position_split, alter_split.
Qed.

Lemma transferContract_Contract negative t cnt mut x : ac_Contract (transferContract negative t cnt mut x) = ac_Contract x.
Proof.
  unfold transferContract, countContract. destruct cnt, mut; cbn; try done; by destruct (holdings_same negative t x).
Qed.

(** The contract alone: what the sides of a transfer make of it at the address [a]. *)
Definition moveOne (a : bytes) (v : movement) (x : AddrContract) : AddrContract :=
  let t := mv_transfer v in
  let x := if bool_decide (mv_to v = a) then transferContract false t true (mv_mutates v) x else x in
  if bool_decide (mv_from v = a)
  then transferContract true t (negb (bool_decide (mv_from v = mv_to v))) (mv_mutates v) x else x.

Lemma moveAt_split a v p x s : ac_Contract x = mv_contract v -> mv_contract v ∉ map ac_Contract p ->
  moveAt a v (p ++ x :: s) = p ++ moveOne a v x :: s.
Proof.
  intros Hx Hp. unfold moveAt, moveOne. cbv zeta. repeat case_bool_decide; rewrite ?stepContract_split; try done;
    by rewrite ?transferContract_Contract.
Qed.

Lemma moveAt_new a v cs : mv_contract v ∉ map ac_Contract cs -> mv_from v = a \/ mv_to v = a ->
  moveAt a v cs = cs ++ [moveOne a v (newContract (mv_contract v) (tt_Standard (mv_transfer v)))].
Proof.
  intros Hn Ha. unfold moveAt, moveOne. cbv zeta. destruct (decide (mv_to v = a)) as [Ht|Ht].
  - rewrite !(bool_decide_eq_true_2 (mv_to v = a)) by done. rewrite (stepContract_new _ _ _ _ _ cs) by done.
    destruct (decide (mv_from v = a)); [|by rewrite !(bool_decide_eq_false_2 (mv_from v = a))].
    rewrite !(bool_decide_eq_true_2 (mv_from v = a)) by done. rewrite stepContract_split; [done|by rewrite transferContract_Contract|done].
  - rewrite !(bool_decide_eq_false_2 (mv_to v = a)) by done. destruct Ha as [Ha|Ha]; [|done].
    rewrite !(bool_decide_eq_true_2 (mv_from v = a)) by done. by apply stepContract_new.
Qed.

(** One transaction more, and the holdings changed: reversing them restores the contract. *)
Lemma moveOne_undo a v c x : mv_from v = a \/ mv_to v = a -> row_of c v ->
  (mv_mutates v = true -> movable (negb (bool_decide (mv_to v = a))) (mv_transfer v) x) ->
  0 <= ac_Txs x < 2 ^ 62 ->
  ac_Contract (moveOne a v x) = ac_Contract x /\ ac_Txs (moveOne a v x) = ac_Txs x + 1 /\
  reversedHoldings a c (set_ac_Txs (ac_Txs x) (moveOne a v x)) = x.
Proof.
  intros Ha (Ec & Ef & Et & Hk) Hm Hx.
  assert (Hu : u64 (ac_Txs x + 1) = ac_Txs x + 1) by (apply u64_id; unfold is_u64; lia).
  assert (Hset : forall y n, ac_Txs x = n -> y = x -> set_ac_Txs n y = x) by (intros y n <- ->; by destruct x).
  pose proof Hk as (Es & _). cbn [rowTransfer tt_Standard] in Es.
  unfold reversedHoldings, moveOne. cbv zeta. rewrite Ef, Et, Es. fold (mv_mutates v) in *.
  destruct (decide (mv_from v = mv_to v)) as [Heq|Hne].
  - rewrite (bool_decide_eq_true_2 (mv_from v = mv_to v)) by done. cbn [negb].
    assert (mv_to v = a) as Hta by (destruct Ha; congruence). rewrite !(bool_decide_eq_true_2 (_ = a)) by congruence.
    unfold transferContract, countContract. unfold mv_mutates in *.
    destruct (isNFTSelfTransfer (mv_from v) (mv_to v) (tt_Standard (mv_transfer v))) eqn:En; cbn [negb] in *.
    + destruct x. cbn in *. rewrite Hu. done.
    + rewrite bool_decide_eq_true_2 in Hm by done. specialize (Hm eq_refl). cbn [negb] in Hm.
      destruct (holdings_same false (mv_transfer v) x) as [H1 H2]. rewrite H2, holdings_Txs, Hu.
      assert (Hid : kept_transfer (mv_transfer v) (mv_transfer v)) by done.
      pose proof (holdings_undo false _ _ x Hm Hid) as Hback. cbn [negb] in Hback. rewrite Hback.
      split_and!; [by destruct x|by destruct x|].
      assert (set_ac_Txs (ac_Txs x) (set_ac_Txs (ac_Txs x + 1) x) = x) as -> by (by destruct x).
      assert (Hrow : holdings false (rowTransfer c) x = holdings false (mv_transfer v) x).
      { unfold holdings, rowTransfer. destruct Hk as (K1 & K2 & K3). cbn [tt_Standard tt_Value tt_MultiTokenValues rowTransfer] in *. rewrite K1.
        destruct (_ =? FungibleToken) eqn:E1; [done|]. destruct (Z.eqb_spec (tt_Standard (mv_transfer v)) NonFungibleToken); [by rewrite K2|].
        unfold movable in Hm. rewrite E1 in Hm. destruct (Z.eqb_spec (tt_Standard (mv_transfer v)) NonFungibleToken); [done|].
        destruct Hm as (Hmm & _). by rewrite K3. }
      rewrite Hrow. apply (holdings_undo false _ _ x Hm Hk).
  - rewrite (bool_decide_eq_false_2 (mv_from v = mv_to v)) by done. cbn [negb].
    assert (mv_mutates v = true) as Hmut.
    { unfold mv_mutates, isNFTSelfTransfer. rewrite bool_decide_eq_false_2 by done. by rewrite andb_false_r. }
    specialize (Hm Hmut). rewrite Hmut. unfold transferContract, countContract.
    destruct (decide (mv_to v = a)) as [Hta|Hta].
    + rewrite (bool_decide_eq_true_2 (mv_to v = a)), (bool_decide_eq_false_2 (mv_from v = a)), (bool_decide_eq_true_2 (a = mv_to v)) by congruence.
      rewrite (bool_decide_eq_true_2 (mv_to v = a)) in Hm by done. cbn [negb] in Hm.
      destruct (holdings_same false (mv_transfer v) x) as [H1 H2]. rewrite H2, Hu.
      split_and!; [done|done|].
      assert (set_ac_Txs (ac_Txs x) (set_ac_Txs (ac_Txs x + 1) (holdings false (mv_transfer v) x)) = holdings false (mv_transfer v) x) as ->.
      { destruct (holdings false (mv_transfer v) x). cbn in *. by rewrite H2. }
      apply (holdings_undo false _ _ x Hm Hk).
    + destruct Ha as [Ha|Ha]; [|done].
      rewrite (bool_decide_eq_false_2 (mv_to v = a)), (bool_decide_eq_true_2 (mv_from v = a)), (bool_decide_eq_false_2 (a = mv_to v)) by congruence.
      rewrite (bool_decide_eq_false_2 (mv_to v = a)) in Hm by done. cbn [negb] in Hm.
      destruct (holdings_same true (mv_transfer v) x) as [H1 H2]. rewrite H2, Hu.
      split_and!; [done|done|].
      assert (set_ac_Txs (ac_Txs x) (set_ac_Txs (ac_Txs x + 1) (holdings true (mv_transfer v) x)) = holdings true (mv_transfer v) x) as ->.
      { destruct (holdings true (mv_transfer v) x). cbn in *. by rewrite H2. }
      apply (holdings_undo true _ _ x Hm Hk).
Qed.

Lemma undoContract_split a c p y s n : ac_Contract y = bc_contract c -> bc_contract c ∉ map ac_Contract p ->
  ac_Txs y = n + 1 -> 0 <= n < 2 ^ 62 ->
  undoContract a c (p ++ y :: s) = if n =? 0 then p ++ s else p ++ reversedHoldings a c (set_ac_Txs n y) :: s.
Proof.
  intros Hy Hp Hn Hb. unfold undoContract. rewrite position_split by done.
  rewrite bool_decide_eq_true_2 by (rewrite map_app; set_solver). rewrite list_lookup_middle by done.
  rewrite Hn. destruct (Z.ltb_spec 0 (n + 1)); [|lia]. replace (n + 1 - 1) with n by lia.
  rewrite u64_id by (unfold is_u64; lia). cbn [set_ac_Txs ac_Txs]. destruct (n =? 0).
  - by apply removeAt_app.
  - by rewrite insert_app_r_alt, Nat.sub_diag by lia.
Qed.

(** Undoing a transfer restores the contracts of the address. *)
Lemma undo_transfer a v c cs : mv_from v = a \/ mv_to v = a -> row_of c v -> contracts_inv cs -> reversible a v cs ->
  undoContract a c (moveAt a v cs) = cs.
Proof.
  intros Ha Hrow [Hnd Ht] Hrev. pose proof Hrow as (Ec & _). unfold reversible, contractIn in Hrev.
  destruct (decide (mv_contract v ∈ map ac_Contract cs)) as [Hin|Hn].
  - destruct (split_contract _ _ Hin) as (p & x & s & -> & Hx & Hp). rewrite moveAt_split by done.
    rewrite position_split, list_lookup_middle in Hrev by done. cbn [default] in Hrev.
    apply Forall_app in Ht as [_ [Hx' _]%Forall_cons].
    destruct (moveOne_undo a v c x Ha Hrow Hrev) as (E1 & E2 & E3); [lia|].
    rewrite (undoContract_split a c p _ s (ac_Txs x)); [|congruence|congruence|done|lia].
    destruct (Z.eqb_spec (ac_Txs x) 0); [lia|]. by rewrite E3.
  - rewrite moveAt_new by done. assert (cs !! position (mv_contract v) cs = None) as Hnone.
    { apply lookup_ge_None_2. clear - Hn. induction cs as [|y cs IH]; [done|]. cbn [map position length] in *.
      apply not_elem_of_cons in Hn as [Hy Hn]. rewrite bool_decide_eq_false_2 by done. specialize (IH Hn). lia. }
    rewrite Hnone in Hrev. cbn [default] in Hrev.
    destruct (moveOne_undo a v c (newContract (mv_contract v) (tt_Standard (mv_transfer v))) Ha Hrow Hrev) as (E1 & E2 & _); [cbn; lia|].
    rewrite (undoContract_split a c cs _ [] 0); [by rewrite app_nil_r|by rewrite E1|congruence|done|lia].
Qed.

(** The invariant is kept. *)
Lemma moveAt_inv a v cs : mv_from v = a \/ mv_to v = a -> contracts_inv cs ->
  Forall (fun c => ac_Txs c < 2 ^ 62) (moveAt a v cs) -> contracts_inv (moveAt a v cs).
Proof.
  intros Ha [Hnd Ht] Hb.
  assert (Hone : forall x, 0 <= ac_Txs x < 2 ^ 62 -> ac_Contract (moveOne a v x) = ac_Contract x /\ ac_Txs (moveOne a v x) = ac_Txs x + 1).
  { intros x Hx. unfold moveOne, transferContract, countContract. cbv zeta.
    assert (u64 (ac_Txs x + 1) = ac_Txs x + 1) by (apply u64_id; unfold is_u64; lia).
    destruct (holdings_same false (mv_transfer v) x) as [H1 H2]. destruct (holdings_same true (mv_transfer v) x) as [H3 H4].
    destruct (decide (mv_to v = a)); destruct (decide (mv_from v = a)).
    - rewrite !bool_decide_eq_true_2 by congruence. cbn [negb].
      destruct (mv_mutates v); [|by destruct x].
      destruct (holdings_same true (mv_transfer v) (set_ac_Txs (u64 (ac_Txs (holdings false (mv_transfer v) x) + 1)) (holdings false (mv_transfer v) x))) as [-> ->].
      cbn. split; congruence.
    - rewrite (bool_decide_eq_true_2 (mv_to v = a)), (bool_decide_eq_false_2 (mv_from v = a)) by done.
      destruct (mv_mutates v); cbn; split; congruence.
    - rewrite (bool_decide_eq_false_2 (mv_to v = a)), (bool_decide_eq_true_2 (mv_from v = a)) by done.
      rewrite bool_decide_eq_false_2 by congruence. cbn [negb]. destruct (mv_mutates v); cbn; split; congruence.
    - tauto. }
  destruct (decide (mv_contract v ∈ map ac_Contract cs)) as [Hin|Hn].
  - destruct (split_contract _ _ Hin) as (p & x & s & -> & Hx & Hp). rewrite moveAt_split in * by done.
    apply Forall_app in Ht as [Htp [Hx' Hts]%Forall_cons]. destruct (Hone x ltac:(lia)) as [E1 E2]. split.
    + rewrite map_app in *. cbn [map] in *. by rewrite E1.
    + apply Forall_app in Hb as [_ [Hb _]%Forall_cons]. apply Forall_app. split; [done|]. constructor; [lia|done].
  - rewrite moveAt_new in * by done. destruct (Hone (newContract (mv_contract v) (tt_Standard (mv_transfer v))) ltac:(cbn; lia)) as [E1 E2].
    apply Forall_app in Hb as [_ [Hb _]%Forall_cons]. split.
    + rewrite map_app. cbn [map]. rewrite E1. apply NoDup_app. split_and!; [done| |apply NoDup_singleton].
      intros y Hy Hy'. apply list_elem_of_singleton in Hy' as ->. done.
    + apply Forall_app. split; [done|]. constructor; [|done]. rewrite E2 in *. cbn in *. lia.
Qed.

(** ** The transfers of a block *)

Definition touching (a : bytes) (v : movement) : bool := bool_decide (mv_from v = a) || bool_decide (mv_to v = a).

(** Every transfer is reversible where it happens, and within the bounds. *)
Fixpoint all_reversible (a : bytes) (vs : list movement) (cs : list AddrContract) : Prop :=
  match vs with
  | [] => True
  | v :: r =>
      (touching a v = true -> reversible a v cs) /\ Forall (fun c => ac_Txs c < 2 ^ 62) (moveAt a v cs) /\
      all_reversible a r (moveAt a v cs)
  end.

Definition undoAt (a : bytes) (c : ethBlockTxContract) (cs : list AddrContract) : list AddrContract :=
  if bool_decide (bc_from c = a) || bool_decide (bc_to c = a) then undoContract a c cs else cs.

Lemma moveAt_other a v cs : touching a v = false -> moveAt a v cs = cs.
Proof.
  unfold touching, moveAt. intros [H1%bool_decide_eq_false H2%bool_decide_eq_false]%orb_false_iff.
  by rewrite (bool_decide_eq_false_2 (mv_to v = a)), (bool_decide_eq_false_2 (mv_from v = a)).
Qed.

(** Undoing the last transfers leads to the contracts before them. *)
Lemma undo_transfers a vs cs cs0 : contracts_inv cs0 -> all_reversible a vs cs0 -> Forall2 row_of cs vs ->
  forall k, (k <= length cs)%nat ->
  foldl (fun l c => undoAt a c l) (foldl (fun l v => moveAt a v l) cs0 vs) (take k (reverse cs))
  = foldl (fun l v => moveAt a v l) cs0 (take (length cs - k) vs)
  /\ contracts_inv (foldl (fun l v => moveAt a v l) cs0 (take (length cs - k) vs)).
Proof.
  intros Hinv Hrev H2. pose proof (Forall2_length _ _ _ H2) as Hl.
  assert (Hpre : forall j, contracts_inv (foldl (fun l v => moveAt a v l) cs0 (take j vs))).
  { clear H2 Hl. revert cs0 Hinv Hrev. induction vs as [|v vs IH]; intros cs0 Hinv Hrev j; [by rewrite take_nil|].
    destruct j as [|j]; [done|]. cbn [take foldl]. destruct Hrev as (Hr & Hb & Hrest). apply IH; [|done].
    destruct (touching a v) eqn:Et; [|by rewrite moveAt_other]. apply moveAt_inv; [|done|done].
    unfold touching in Et. apply orb_true_iff in Et as [?%bool_decide_eq_true|?%bool_decide_eq_true]; auto. }
  assert (Hstep : forall j v, vs !! j = Some v -> touching a v = true -> reversible a v (foldl (fun l v => moveAt a v l) cs0 (take j vs))).
  { clear H2 Hl Hpre Hinv. revert cs0 Hrev. induction vs as [|v vs IH]; intros cs0 Hrev j w Hw Ht; [done|].
    destruct Hrev as (Hr & Hb & Hrest). destruct j as [|j]; [injection Hw as ->; by apply Hr|]. cbn [take foldl]. by apply IH. }
  induction k as [|k IH]; intros Hk.
  - rewrite Nat.sub_0_r, (take_ge vs) by lia. cbn. split; [done|]. specialize (Hpre (length vs)). by rewrite take_ge in Hpre by lia.
  - destruct (IH ltac:(lia)) as [E _]. split; [|apply Hpre].
    destruct (lookup_lt_is_Some_2 cs (length cs - S k)) as [c Hc]; [lia|].
    assert (Hr : reverse cs !! k = Some c).
    { rewrite reverse_lookup by lia. exact Hc. }
    rewrite (take_S_r _ _ _ Hr), foldl_app. cbn [foldl]. rewrite E.
    destruct (Forall2_lookup_l _ _ _ _ _ H2 Hc) as (v & Hv & Hrow).
    assert (length cs - k = S (length cs - S k))%nat as -> by lia. rewrite (take_S_r _ _ _ Hv), foldl_app. cbn [foldl].
    set (prev := foldl _ cs0 (take (length cs - S k) vs)). pose proof Hrow as (_ & Ef & Et & _).
    unfold undoAt. rewrite Ef, Et. fold (touching a v). destruct (touching a v) eqn:Htouch; [|by apply moveAt_other].
    apply undo_transfer; [|done|apply Hpre|by apply Hstep].
    unfold touching in Htouch. apply orb_true_iff in Htouch as [?%bool_decide_eq_true|?%bool_decide_eq_true]; auto.
Qed.
