(* ===== verification/EthDisconnectCorrect.v ===== *)
(** Disconnecting a block of an Ethereum-type coin does what its undo operations mean, whatever
    is cached ([disconnectBlock_undoes]): every call of [disconnectAddress] is an operation on the row
    of one address ([applyUndo]). *)

From S2P Require Import Prelude Codec Parser TxAddr Balance IndexCodec Store GoSort EthTokens EthContracts EthIndex EthParser EthRows EthContractInfo EthAliases EthState EthRegistry EthConnect EthEvents EthConnectCorrect EthBlock EthBlockCorrect EthDisconnect EthUndo.

Local Open Scope Z_scope.

(** ** The meaning of a call *)

Inductive undoKind := UndoCoin (internal : bool) | UndoToken (c : ethBlockTxContract).

Record undoOp := mkUndo { un_addrDesc : bytes; un_btxID : bytes; un_kind : undoKind }.

Definition undoCounters (internal : bool) (x : AddrContracts) : AddrContracts :=
  if internal then
    if 0 <? acs_InternalTxs x
    then mkAddrContracts (acs_TotalTxs x) (acs_NonContractTxs x) (u64 (acs_InternalTxs x - 1)) (acs_Contracts x) else x
  else if 0 <? acs_NonContractTxs x
    then mkAddrContracts (acs_TotalTxs x) (u64 (acs_NonContractTxs x - 1)) (acs_InternalTxs x) (acs_Contracts x) else x.

Definition undoKindRow (a : bytes) (k : undoKind) (x : AddrContracts) : AddrContracts :=
  match k with
  | UndoCoin internal => undoCounters internal x
  | UndoToken c => set_acs_Contracts (undoContract a c (acs_Contracts x)) x
  end.

(** [seen]: the transaction was met at the address before. *)
Definition undoRow (a : bytes) (k : undoKind) (seen : bool) (x : AddrContracts) : AddrContracts :=
  undoKindRow a k
    (if seen then x
     else mkAddrContracts (u64 (acs_TotalTxs x - 1)) (acs_NonContractTxs x) (acs_InternalTxs x) (acs_Contracts x)).

Definition undoState : Type := gmap bytes AddrContracts * txsOfAddresses.

Definition seenBefore (s : txsOfAddresses) (a btxID : bytes) : bool := bool_decide (btxID ∈ default ∅ (s !! a)).

Definition applyUndo (s : undoState) (op : undoOp) : undoState :=
  let '(m, adrs) := s in
  let a := un_addrDesc op in
  if zlen a =? 0 then s
  else
    (match m !! a with
     | Some x => <[a := undoRow a (un_kind op) (seenBefore adrs a (un_btxID op)) x]> m
     | None => m
     end,
     <[a := {[un_btxID op]} ∪ default ∅ (adrs !! a)]> adrs).

Definition kindInternal (k : undoKind) : bool := match k with UndoCoin i => i | UndoToken _ => false end.
Definition kindContract (k : undoKind) : option ethBlockTxContract := match k with UndoCoin _ => None | UndoToken c => Some c end.

(** ** The operations of a block *)

Section UndoOps.
Context {E : EthChainParser}.

Definition sideUndos (btxID from to : bytes) (k : undoKind) : list undoOp :=
  mkUndo from btxID k :: (if bool_decide (from = to) then [] else [mkUndo to btxID k]).

Definition addressOf (text : bytes) : bytes := default [] (descOf text).

Definition transferUndos (btxID : bytes) (t : EthereumInternalTransfer) : list undoOp :=
  sideUndos btxID (addressOf (it_From t)) (addressOf (it_To t)) (UndoCoin true).

Definition internalUndos (btxID : bytes) (data : option EthereumInternalData) : list undoOp :=
  match data with
  | None => []
  | Some data =>
      (if id_Type data =? CREATE then [mkUndo (addressOf (id_Contract data)) btxID (UndoCoin true)] else []) ++
      concat (map (transferUndos btxID) (id_Transfers data))
  end.

(** [internals]: the stored internal data. *)
Definition txUndos (internals : bytes -> option EthereumInternalData) (t : ethBlockTx) : list undoOp :=
  sideUndos (ebt_btxID t) (ebt_from t) (ebt_to t) (UndoCoin false) ++ internalUndos (ebt_btxID t) (internals (ebt_btxID t)).

Definition tokenUndos (e : bytes * ethBlockTxContract) : list undoOp := sideUndos e.1 (bc_from e.2) (bc_to e.2) (UndoToken e.2).

Definition blockUndos (internals : bytes -> option EthereumInternalData) (rows : list ethBlockTx) : list undoOp :=
  concat (map (txUndos internals) rows) ++ concat (map tokenUndos (reversedTransfers rows)).
End UndoOps.

(** ** One contract *)

Section Contract.
Context {V : Vlq}.

Lemma addToContract_undo u x i index t : crepr u x -> Z.of_nat i < 2 ^ 31 - 2 ->
  exists u', addToContract u (Z.of_nat i) index t false true = Ok (u', transferIndex (index <? 0) i)
  /\ crepr u' (holdings (index <? 0) t x).
Proof.
  intros Hc Hi. destruct (addToContract_refines u x i index t false true) as (u' & E & Hu'); [by apply crepr_weaken|done| |].
  - intros HS. left. by apply Hc.
  - by exists u'.
Qed.

Lemma reverseTransfer_refines a c i u x : crepr u x -> Z.of_nat i < 2 ^ 31 - 2 ->
  exists u', reverseTransfer a c i u = Ok u' /\ crepr u' (reversedHoldings a c x).
Proof.
  intros Hc Hi. unfold reverseTransfer, reversedHoldings. fold (rowTransfer c).
  case_bool_decide as Hft.
  - destruct (isNFTSelfTransfer _ _ _); [by exists u|].
    destruct (addToContract_undo u x i transferTo (rowTransfer c) Hc Hi) as (u1 & -> & Hc1). cbn [rbind].
    destruct (addToContract_undo u1 _ i transferFrom (rowTransfer c) Hc1 Hi) as (u2 & -> & Hc2). cbn [rbind]. by exists u2.
  - set (index := if bool_decide (a = bc_to c) then transferFrom else transferTo).
    assert (bool_decide (a = bc_to c) = (index <? 0)) as -> by (subst index; by case_bool_decide).
    destruct (addToContract_undo u x i index (rowTransfer c) Hc Hi) as (u1 & -> & Hc1). cbn [rbind]. by exists u1.
Qed.

Lemma reversedHoldings_Contract a c x : ac_Contract (reversedHoldings a c x) = ac_Contract x.
Proof.
  unfold reversedHoldings. repeat case_match; try done.
  - destruct (holdings_same true (rowTransfer c) (holdings false (rowTransfer c) x)) as [-> _]. apply holdings_same.
  - apply holdings_same.
Qed.

(** The code on the object of an address. *)
Lemma disconnectContract_refines a c u x : urepr u x -> index_ok u -> zlen (acs_Contracts x) < 2 ^ 31 - 2 ->
  exists u', disconnectContract a c u = Ok u' /\ index_ok u'
  /\ urepr u' (set_acs_Contracts (undoContract a c (acs_Contracts x)) x).
Proof.
  intros Hu Hi Hlen. unfold disconnectContract.
  destruct (findContractIndex a (bc_contract c) None u) as [[[r u0] hot] ev] eqn:Ef.
  destruct (findContractIndex_ok _ _ _ _ _ _ _ _ Hi Ef) as (-> & Hi0 & Hs).
  assert (Hu0 : urepr u0 x) by (by eapply same_repr). pose proof (ur_Contracts _ _ Hu0) as Hc.
  assert (Ec0 : ua_Contracts u = ua_Contracts u0) by (by destruct Hs as (? & ? & ->)).
  unfold findContractInAddressContracts. rewrite Ec0.
  rewrite (find_position _ _ _ 0 (crepr_contracts _ _ Hc)). unfold undoContract.
  assert (Hsame : urepr u0 (set_acs_Contracts (acs_Contracts x) x)) by (by destruct x).
  case_bool_decide as Hin; [|by exists u0]. cbn [Nat.add].
  destruct (position_lookup _ _ Hin) as (y & Hy & Ey). set (i := position (bc_contract c) (acs_Contracts x)) in *.
  destruct (Forall2_lookup_r _ _ _ _ _ Hc Hy) as (cu & Hcu & Hr). rewrite Hcu, Hy, (cr_Txs _ _ Hr).
  assert (i < length (acs_Contracts x))%nat by (by eapply lookup_lt_Some).
  destruct (0 <? ac_Txs y); [|by exists u0].
  assert (Hr1 : crepr (set_uac_Txs (u64 (ac_Txs y - 1)) cu) (set_ac_Txs (u64 (ac_Txs y - 1)) y)).
  { destruct Hr. by constructor. }
  cbn [set_uac_Txs uac_Txs set_ac_Txs ac_Txs]. destruct (u64 (ac_Txs y - 1) =? 0).
  - eexists. split; [done|].
    assert (Hrem : Forall2 crepr (removeAt (Z.of_nat i) (ua_Contracts u0)) (removeAt (Z.of_nat i) (acs_Contracts x))) by (by apply Forall2_removeAt).
    split.
    + apply remove_ok; [lia|done].
    + unfold markContractIndexDirty. cbn [ua_contractIndex set_contracts].
      destruct Hu0 as [H1 H2 H3 H4]. by destruct (ua_contractIndex u0); constructor.
  - destruct (reverseTransfer_refines a c i _ _ Hr1) as (cu' & Ecu & Hr2); [unfold zlen in Hlen; lia|].
    fold (set_uac_Txs (u64 (ac_Txs y - 1)) cu). rewrite Ecu. cbn [rbind]. eexists. split; [done|]. split.
    + eapply update_ok; [done|exact Hcu|]. rewrite (cr_Contract _ _ Hr2), reversedHoldings_Contract, (cr_Contract _ _ Hr). done.
    + apply set_contracts_repr; [by apply urepr_counters|]. by apply Forall2_insert.
Qed.
End Contract.

Section EthDisconnectCorrect.
Context {V : Vlq} {VL : VlqLaws V} {E : EthChainParser} {EL : EthChainParserLaws E} {IX : IndexOpts}.
Context {K : KV} {KL : KVLaws K} {CO : EthCacheOpts}.
Implicit Types (st : EthState K) (m : gmap bytes AddrContracts) (adrs : txsOfAddresses).

(** The database and the rows at the start; the addresses whose rows may be cached; the number of
    reorganisations. *)
Context (d0 : DB K) (m0 : gmap bytes AddrContracts) (C : bytes -> Prop) (g0 : Z).

Definition minCacheSize : Z :=
  if opt_addrContractsCacheMinSize <=? 0 then addrContractsCacheMinSize else opt_addrContractsCacheMinSize.

Context (large_cached : forall a x, m0 !! a = Some x -> minCacheSize < zlen (packAddrContracts x) -> C a).
Context (rows_readable : forall k, exists o, pureLoad d0 k = Ok o).

Record disconnecting st m : Prop := {
  dc_agrees : agrees st (mkLedger m ∅);
  dc_coherent : coherent st;
  dc_columns : same_columns [cfAddressContracts] d0 (es_db st);
  dc_cache : forall a, is_Some (es_cache st !! a) -> C a;
  dc_fresh : forall a, es_addressContracts st !! a = None -> m !! a = m0 !! a;
  dc_gen : rg_reorgGen (es_registry st) = g0;
}.

Lemma columns_trans cfs (d1 d2 d3 : DB K) : same_columns cfs d1 d2 -> same_columns cfs d2 d3 -> same_columns cfs d1 d3.
Proof.
  intros (H1 & H2 & H3) (G1 & G2 & G3). split; [|split; congruence]. intros cf Hcf. by rewrite G1, H1.
Qed.

(** ** Loading *)

Lemma flush_cache st b : es_cache (flushAddrContractsCache st) !! b = None.
Proof. unfold flushAddrContractsCache. case_match; apply lookup_empty. Qed.

Lemma getUnpacked_cache a st rv st' b : getUnpackedAddrDescContracts a st = (Ok rv, st') ->
  is_Some (es_cache st' !! b) -> is_Some (es_cache st !! b) \/
    b = a /\ es_cache st !! a = None /\ minCacheSize < zlen (valData (kv_get (db_cf (es_db st) cfAddressContracts) a)).
Proof.
  unfold getUnpackedAddrDescContracts. destruct (es_cache st !! a) as [u|] eqn:Ec; [intros [= <- <-]; auto|].
  unfold GetCF. destruct (db_rfault _ _ _); [done|]. destruct (zlen _ =? 0); [intros [= <- <-]; auto|].
  destruct (partiallyUnpackAddrContracts _) as [rv'| |]; [|done..]. fold minCacheSize.
  destruct (Z.ltb_spec minCacheSize (zlen (valData (kv_get (db_cf (es_db st) cfAddressContracts) a)))); [|intros [= <- <-]; auto].
  intros [= <- <-]. destruct (_ && _).
  - rewrite flush_cache. by intros [? ?].
  - cbn. destruct (decide (b = a)) as [->|]; [auto|]. rewrite lookup_insert_ne by done. auto.
Qed.

Lemma loadKnown_frames a : frames (loadKnown a).
Proof.
  unfold loadKnown. apply frames_bind; [apply frames_gets|]. intros mm. case_match; [apply frames_ret|].
  apply frames_bind; [apply getUnpacked_frames|]. intros [u|]; [|apply frames_ret].
  apply frames_bind; [done|]. intros []. apply frames_ret.
Qed.

Lemma loadKnown_spec a st m : disconnecting st m ->
  exists rv st', loadKnown a st = (Ok rv, st') /\
  match rv with
  | None => m !! a = None /\ disconnecting st' m
  | Some u => exists x, m !! a = Some x /\ urepr u x /\ index_ok u /\ stored_ok x /\ agrees_but (only a) st' (mkLedger m ∅)
      /\ coherent st' /\ same_columns [cfAddressContracts] d0 (es_db st') /\ (forall b, is_Some (es_cache st' !! b) -> C b)
      /\ (forall b, es_addressContracts st' !! b = None -> m !! b = m0 !! b) /\ rg_reorgGen (es_registry st') = g0
  end.
Proof.
  intros [Hag Hc Hcol Hcache Hfresh Hg]. pose proof (loadKnown_frames a st) as Hfr.
  unfold loadKnown, mbind, EthM_bind, gets in *.
  destruct (es_addressContracts st !! a) as [u|] eqn:Ea.
  - exists (Some u), st. split; [done|]. pose proof Hag as (Ha & Hf & Hs). destruct (Hs a) as [_ Hl]; [tauto|].
    unfold live in Hl. rewrite Ea in Hl. destruct Hl as (x & Ex & Hu & Hi & Hok). exists x. split_and!; try done.
    split; [done|]. split; [done|]. intros b _. apply Hs. tauto.
  - destruct (getUnpacked_agrees a st _ Hag Ea) as (rv & st' & Eg & Hag' & Em & Hcc & Hrv). rewrite Eg in *.
    pose proof (getUnpacked_cache a st rv st' ) as Hca. pose proof Hag as (_ & _ & Hs). destruct (Hs a) as [_ Hl]; [tauto|].
    unfold live in Hl. rewrite Ea in Hl. cbn [lg_contracts] in *.
    assert (Hcache' : forall b, is_Some (es_cache st' !! b) -> C b).
    { intros b Hb. destruct (Hca b Eg Hb) as [?|(-> & Hn & Hlt)]; [auto|]. rewrite Hn in Hl. unfold row_is in Hl.
      destruct (m !! a) as [x|] eqn:Ex.
      - destruct Hl as (Hv & _). rewrite Hv in Hlt. apply (large_cached a x); [|done]. by rewrite <- Hfresh.
      - rewrite Hl in Hlt. exfalso. unfold zlen, minCacheSize, addrContractsCacheMinSize in Hlt. cbn in Hlt.
        destruct (Z.leb_spec opt_addrContractsCacheMinSize 0); lia. }
    destruct rv as [u|]; cbn in Hfr |- *; eexists _, _; (split; [done|]).
    + destruct Hrv as (x & Ex & Hu & Hi & Hok). exists x. split_and!; try done.
      * destruct Hag' as (Ha & Hf & Hs'). split; [done|]. split; [done|]. intros b Hb. unfold only in Hb.
        destruct (Hs' b) as [Hal' Hl']; [tauto|]. unfold stands_for, live in *. cbn. by rewrite lookup_insert_ne by congruence.
      * by eapply coherent_frame.
      * eapply columns_trans; [exact Hcol|]. apply Hfr.
      * intros b Hb. apply Hfresh. cbn in Hb. rewrite Em in Hb. apply lookup_insert_None in Hb as [Hb _]. done.
      * by destruct Hfr as [-> _].
    + split; [done|]. constructor; try done; [by eapply coherent_frame|eapply columns_trans; [exact Hcol|]; apply Hfr| |].
      * intros b Hb. apply Hfresh. by rewrite <- Em.
      * by destruct Hfr as [-> _].
Qed.

(** ** A call *)

(** The row of the address can be stored and, when it may be cached, is kept. *)
Definition row_fits (s : undoState) (a : bytes) : Prop :=
  forall x, s.1 !! a = Some x -> stored_ok x /\ (C a -> droppable x = false).

Fixpoint undos_fit (s : undoState) (ops : list undoOp) : Prop :=
  match ops with
  | [] => True
  | op :: r => row_fits (applyUndo s op) (un_addrDesc op) /\ undos_fit (applyUndo s op) r
  end.

Lemma undos_fit_app s o1 o2 : undos_fit s (o1 ++ o2) <-> undos_fit s o1 /\ undos_fit (foldl applyUndo s o1) o2.
Proof.
  revert s. induction o1 as [|op o1 IH]; intros s; cbn [app undos_fit foldl]; [tauto|]. rewrite IH. tauto.
Qed.

(** A computation runs the operations; [adr] is what it returns of the addresses. *)
Definition undoes {A} (mc : EthM K A) (adr : A -> txsOfAddresses) (ops : list undoOp) adrs : Prop :=
  forall st m, disconnecting st m -> undos_fit (m, adrs) ops ->
  exists r st', mc st = (Ok r, st') /\ adr r = (foldl applyUndo (m, adrs) ops).2
    /\ disconnecting st' (foldl applyUndo (m, adrs) ops).1.

Lemma undoes_ret {A} (a : A) (adr : A -> txsOfAddresses) : undoes (mret a) adr [] (adr a).
Proof. intros st m Hd _. by exists a, st. Qed.

Lemma undoes_lift {A} (a : A) (adr : A -> txsOfAddresses) : undoes (liftR (Ok a)) adr [] (adr a).
Proof. intros st m Hd _. by exists a, st. Qed.

Lemma undoes_bind {A B} (mc : EthM K A) (k : A -> EthM K B) adr adr' o1 o2 adrs :
  undoes mc adr o1 adrs -> (forall a, undoes (k a) adr' o2 (adr a)) -> undoes (mc ≫= k) adr' (o1 ++ o2) adrs.
Proof.
  intros Hm Hk st m Hd Hfit. apply undos_fit_app in Hfit as [Hf1 Hf2]. destruct (Hm st m Hd Hf1) as (r & st1 & E1 & Er & Hd1).
  rewrite foldl_app. destruct (foldl applyUndo (m, adrs) o1) as [m1 adrs1] eqn:Ef. cbn [fst snd] in *. subst adrs1.
  destruct (Hk r st1 m1 Hd1 Hf2) as (r2 & st2 & E2 & Er2 & Hd2). exists r2, st2. split; [|done]. by erewrite bind_ok.
Qed.

Lemma undoes_bind' {A B} (mc : EthM K A) (k : A -> EthM K B) adr adr' o1 o2 o adrs :
  o = o1 ++ o2 -> undoes mc adr o1 adrs -> (forall a, undoes (k a) adr' o2 (adr a)) -> undoes (mc ≫= k) adr' o adrs.
Proof. intros ->. apply undoes_bind. Qed.

Lemma undoCounters_repr internal u x : urepr u x -> urepr (disconnectCounters internal u) (undoCounters internal x).
Proof.
  intros [H1 H2 H3 H4]. unfold disconnectCounters, undoCounters. destruct internal.
  - rewrite H3. destruct (0 <? acs_InternalTxs x); constructor; cbn; congruence.
  - rewrite H2. destruct (0 <? acs_NonContractTxs x); constructor; cbn; congruence.
Qed.

Lemma disconnectAddress_undoes op adrs :
  undoes (disconnectAddress (un_btxID op) (kindInternal (un_kind op)) (un_addrDesc op) (kindContract (un_kind op)) adrs)
    (fun r => r) [op] adrs.
Proof.
  intros st m Hd [Hfit _]. cbn [foldl]. unfold row_fits, applyUndo, seenBefore in Hfit. unfold disconnectAddress, applyUndo, seenBefore.
  set (a := un_addrDesc op) in *. destruct (zlen a =? 0); [by exists adrs, st|].
  destruct (loadKnown_spec a st m Hd) as (rv & st1 & E1 & Hrv).
  destruct rv as [u|]; cycle 1.
  { destruct Hrv as [Hn Hd1]. rewrite Hn. eexists _, st1. split; [|by split]. by erewrite bind_ok by exact E1. }
  destruct Hrv as (x & Ex & Hu & Hi & Hok & Hag & Hc & Hcol & Hcache & Hfresh & Hg). rewrite Ex in *. cbn [fst snd] in *.
  set (seen := bool_decide (un_btxID op ∈ default ∅ (adrs !! a))) in *.
  specialize (Hfit _ (lookup_insert_eq _ _ _)) as [Hok' Hdrop].
  set (u1 := if seen then u else set_TotalTxs (u64 (ua_TotalTxs u - 1)) u).
  set (x1 := if seen then x else mkAddrContracts (u64 (acs_TotalTxs x - 1)) (acs_NonContractTxs x) (acs_InternalTxs x) (acs_Contracts x)).
  assert (Hu1 : urepr u1 x1) by (destruct Hu; subst u1 x1; destruct seen; constructor; cbn; congruence).
  assert (Hi1 : index_ok u1) by (subst u1; by destruct seen).
  assert (Hobj : exists u2, match kindContract (un_kind op) with
      | None => Ok (disconnectCounters (kindInternal (un_kind op)) u1)
      | Some c => disconnectContract a c u1 end = Ok u2
    /\ index_ok u2 /\ urepr u2 (undoKindRow a (un_kind op) x1)).
  { destruct (un_kind op) as [internal|c]; cbn [kindContract kindInternal undoKindRow].
    - eexists. split; [done|]. split; [|by apply undoCounters_repr].
      unfold disconnectCounters. by repeat case_match.
    - assert (Hlen : zlen (acs_Contracts x1) < 2 ^ 31 - 2).
      { destruct Hok as (_ & H2 & _). subst x1. by destruct seen. }
      destruct (disconnectContract_refines a c u1 x1 Hu1 Hi1 Hlen) as (u2 & E2 & Hi2 & Hu2). by exists u2. }
  destruct Hobj as (u2 & E2 & Hi2 & Hu2).
  eexists _, (putContracts a u2 st1). split.
  { erewrite bind_ok by exact E1. cbv beta iota zeta. fold seen. fold u1.
    erewrite bind_ok; cycle 1. { unfold liftR. rewrite E2. reflexivity. } reflexivity. }
  split; [done|]. assert (Hput : agrees (putContracts a u2 st1) (mkLedger (<[a := undoKindRow a (un_kind op) x1]> m) ∅)).
  { apply (putContracts_agrees a u2 _ st1 (mkLedger m ∅)); [done|done|done|exact Hok'|]. intros Hcd. exact (Hdrop (Hcache _ Hcd)). }
  assert (Hfr : frame st1 (putContracts a u2 st1)).
  { unfold putContracts. destruct (es_cache (with_contracts _ st1) !! a); done. }
  constructor; [exact Hput|by eapply coherent_frame|eapply columns_trans; [exact Hcol|]; apply Hfr| | |by destruct Hfr as [-> _]].
  - intros b Hb. apply Hcache. unfold putContracts in Hb. cbn in Hb. destruct (es_cache st1 !! a) eqn:Ec; cbn in Hb; [|done].
    destruct (decide (b = a)) as [->|]; [by rewrite Ec|]. by rewrite lookup_insert_ne in Hb by done.
  - intros b Hb. assert (es_addressContracts (putContracts a u2 st1) = <[a := u2]> (es_addressContracts st1)) as Eac.
    { unfold putContracts. by destruct (es_cache (with_contracts _ st1) !! a). }
    rewrite Eac in Hb. apply lookup_insert_None in Hb as [Hb Hne]. rewrite lookup_insert_ne by done. by apply Hfresh.
Qed.

(** ** The registry of contracts is only read *)

Lemma disconnecting_registry st m r : disconnecting st m -> coherent (with_registry r st) ->
  rg_reorgGen r = rg_reorgGen (es_registry st) -> disconnecting (with_registry r st) m.
Proof. intros [H1 H2 H3 H4 H5 H6] Hc Hg. constructor; try done. cbn. congruence. Qed.

Lemma readable_now st m k : disconnecting st m -> exists o, pureLoad (es_db st) k = Ok o.
Proof.
  intros [_ _ (Hcol & Hrf & _) _ _ _]. destruct (rows_readable k) as [o Ho]. exists o. rewrite <- Ho. apply pureLoad_same.
  unfold same_rows, GetCF. by rewrite Hrf, !Hcol by set_solver.
Qed.

Lemma rollbackRow_undoes a height destroyed rollback adrs :
  undoes (rollbackContractRegistryRow a height destroyed rollback) (fun _ => adrs) [] adrs.
Proof.
  intros st m Hd _. unfold rollbackContractRegistryRow.
  assert (H1 : exists ci st1, (match rb_rows rollback !! a with Some ci => mret ci | None => GetContractInfo a [] end) st = (Ok ci, st1)
    /\ disconnecting st1 m).
  { destruct (rb_rows rollback !! a) as [ci|]; [by exists ci, st|].
    destruct (GetContractInfo_coherent a st (dc_coherent _ _ Hd)) as (r' & E1 & Hl). destruct (readable_now st m a Hd) as [o Ho].
    rewrite Ho in E1. exists o, (with_registry r' st). split; [done|]. apply disconnecting_registry; [done|apply Hl|apply Hl]. }
  destruct H1 as (ci & st1 & E1 & Hd1). erewrite bind_ok by exact E1. destruct ci as [ci|]; by eexists _, st1.
Qed.

(** ** Transactions *)

Lemma side_undoes btxID from to k adrs :
  undoes (adrs' ← disconnectAddress btxID (kindInternal k) from (kindContract k) adrs;
          if bool_decide (from = to) then mret adrs' else disconnectAddress btxID (kindInternal k) to (kindContract k) adrs')
    (fun r => r) (sideUndos btxID from to k) adrs.
Proof.
  unfold sideUndos. eapply (undoes_bind' _ _ _ _ [mkUndo from btxID k]); [done|apply (disconnectAddress_undoes (mkUndo from btxID k))|].
  intros adrs'. case_bool_decide; [apply undoes_ret|apply (disconnectAddress_undoes (mkUndo to btxID k))].
Qed.

Definition parses (text : bytes) : Prop := exists a, GetAddrDescFromAddress text = Ok a.

Lemma parses_addressOf text : parses text -> GetAddrDescFromAddress text = Ok (addressOf text).
Proof. intros [a Ha]. unfold addressOf, descOf. by rewrite Ha. Qed.

Definition internal_ok (data : option EthereumInternalData) : Prop :=
  match data with
  | None => True
  | Some data => (id_Type data = CREATE -> parses (id_Contract data)) /\
      Forall (fun t => parses (it_From t) /\ parses (it_To t)) (id_Transfers data)
  end.

Lemma undoes_assoc {A B D} (mc : EthM K A) (k : A -> EthM K B) (k' : B -> EthM K D) adr ops adrs :
  undoes ((mc ≫= k) ≫= k') adr ops adrs -> undoes (mc ≫= fun a => k a ≫= k') adr ops adrs.
Proof.
  intros H st m Hd Hf. destruct (H st m Hd Hf) as (r & st' & Eq & Hr). exists r, st'. split; [|done]. rewrite <- Eq.
  unfold mbind, EthM_bind. by destruct (mc st) as [[]].
Qed.

Lemma undoes_pure {A B} (x : A) (k : A -> EthM K B) adr ops adrs :
  undoes (k x) adr ops adrs -> undoes (liftR (Ok x) ≫= k) adr ops adrs.
Proof. intros H st m Hd Hf. exact (H st m Hd Hf). Qed.

(** Nothing but the registry changes. *)
Lemma undoes_after {A B} (mc : EthM K A) (k : A -> EthM K B) adr ops adrs :
  undoes mc (fun _ => adrs) [] adrs -> (forall a, undoes (k a) adr ops adrs) -> undoes (mc ≫= k) adr ops adrs.
Proof. intros Hm Hk. by apply (undoes_bind _ _ (fun _ => adrs) _ [] ops). Qed.

Lemma undoes_last {A B} (mc : EthM K A) (k : A -> EthM K B) adr adr' ops adrs :
  undoes mc adr ops adrs -> (forall a, undoes (k a) adr' [] (adr a)) -> undoes (mc ≫= k) adr' ops adrs.
Proof. intros Hm Hk. rewrite <- (app_nil_r ops). by eapply undoes_bind. Qed.

Lemma transfer_undoes btxID height t adrs rollback : parses (it_From t) -> parses (it_To t) ->
  undoes (disconnectTransfer btxID height t (adrs, rollback)) fst (transferUndos btxID t) adrs.
Proof.
  intros Hf Ht. unfold disconnectTransfer, transferUndos. rewrite (parses_addressOf _ Hf), (parses_addressOf _ Ht).
  do 2 apply undoes_pure. apply undoes_assoc.
  eapply undoes_last; [apply (side_undoes btxID _ _ (UndoCoin true))|]. intros adrs'. cbn beta.
  apply undoes_after; [|intros r'; apply (undoes_ret (adrs', r') fst)].
  destruct (_ =? CREATE); [apply rollbackRow_undoes|]. destruct (_ =? SELFDESTRUCT); [apply rollbackRow_undoes|].
  apply (undoes_ret rollback (fun _ => adrs')).
Qed.

Lemma transfers_undoes btxID height ts adrs rollback : Forall (fun t => parses (it_From t) /\ parses (it_To t)) ts ->
  undoes (disconnectTransfers btxID height ts (adrs, rollback)) fst (concat (map (transferUndos btxID) ts)) adrs.
Proof.
  intros Ht. revert adrs rollback. induction Ht as [|t ts [Hf Hto] _ IH]; intros adrs rollback; [apply (undoes_ret (adrs, rollback) fst)|].
  cbn [disconnectTransfers map concat]. eapply undoes_bind; [by apply transfer_undoes|]. intros [adrs' rollback']. apply IH.
Qed.

Lemma internal_undoes btxID height data adrs rollback :
  getEthereumInternalData d0 btxID = Ok data -> internal_ok data ->
  undoes (disconnectInternalData btxID height (adrs, rollback)) fst (internalUndos btxID data) adrs.
Proof.
  intros Hg Hok st m Hd Hfit. unfold disconnectInternalData. erewrite bind_ok by reflexivity.
  assert (getEthereumInternalData (es_db st) btxID = Ok data) as ->.
  { rewrite <- Hg. unfold getEthereumInternalData, GetCF. destruct (dc_columns _ _ Hd) as (Hcol & Hrf & _).
    by rewrite Hrf, Hcol by set_solver. }
  erewrite bind_ok by reflexivity. revert st m Hd Hfit. destruct data as [data|]; [|apply (undoes_ret (adrs, rollback) fst)].
  destruct Hok as [Hc Ht]. cbn [internalUndos]. eapply (undoes_bind _ _ fst); [|intros [adrs' rollback']; by apply transfers_undoes].
  destruct (Z.eqb_spec (id_Type data) CREATE) as [Ec|]; [|apply (undoes_ret (adrs, rollback) fst)].
  rewrite (parses_addressOf _ (Hc Ec)). apply undoes_pure.
  eapply undoes_last; [apply (disconnectAddress_undoes (mkUndo (addressOf (id_Contract data)) btxID (UndoCoin true)))|].
  intros adrs'. apply undoes_after; [apply rollbackRow_undoes|]. intros r'. apply (undoes_ret (adrs', r') fst).
Qed.

(** The stored internal data can be read. *)
Definition internals_ok (internals : bytes -> option EthereumInternalData) (rows : list ethBlockTx) : Prop :=
  Forall (fun t => getEthereumInternalData d0 (ebt_btxID t) = Ok (internals (ebt_btxID t)) /\ internal_ok (internals (ebt_btxID t))) rows.

Lemma txs_undoes internals wb height rows adrs rollback : internals_ok internals rows ->
  undoes (disconnectTxsEthereumType wb height rows (adrs, rollback)) (fun r => r.2.1) (concat (map (txUndos internals) rows)) adrs.
Proof.
  intros Hi. revert wb adrs rollback. induction Hi as [|t rows [Hg Hok] _ IH]; intros wb adrs rollback; [apply (undoes_ret (wb, (adrs, rollback)) (fun r => r.2.1))|].
  cbn [disconnectTxsEthereumType map concat]. eapply (undoes_bind _ _ fst); [|intros [adrs' rollback']; apply IH].
  unfold disconnectTx, txUndos. apply undoes_assoc. eapply undoes_bind; [apply (side_undoes _ _ _ (UndoCoin false))|].
  intros adrs'. by apply internal_undoes.
Qed.

Lemma tokens_undoes l adrs : undoes (disconnectTokenTransfers l adrs) (fun r => r) (concat (map tokenUndos l)) adrs.
Proof.
  revert adrs. induction l as [|[id c] l IH]; intros adrs; [apply (undoes_ret adrs (fun r => r))|].
  cbn [disconnectTokenTransfers map concat]. eapply undoes_bind; [|apply IH].
  apply (side_undoes id _ _ (UndoToken c)).
Qed.

(** The rows of the transactions are deleted. *)
Definition txDeletes (t : ethBlockTx) : list BatchOp := [DeleteCF cfTransactions (ebt_btxID t); DeleteCF cfInternalData (ebt_btxID t)].

Lemma txs_batch wb height rows s st wb' s' st' :
  disconnectTxsEthereumType wb height rows s st = (Ok (wb', s'), st') -> wb' = wb ++ concat (map txDeletes rows).
Proof.
  revert wb s st. induction rows as [|t rows IH]; intros wb s st H; cbn [disconnectTxsEthereumType map concat] in *.
  - injection H as <- <- <-. by rewrite app_nil_r.
  - unfold mbind, EthM_bind in H. destruct (disconnectTx height t s st) as [[s1| |] st1]; [|done..].
    apply IH in H as ->. by rewrite <- app_assoc.
Qed.

(** Disconnecting the rows of a block runs its operations. *)
Lemma disconnectBlock_undoes internals wb height rows rollback st m : internals_ok internals rows ->
  disconnecting st m -> undos_fit (m, ∅) (blockUndos internals rows) ->
  let s := foldl applyUndo (m, ∅) (blockUndos internals rows) in
  exists rb st', disconnectBlockTxsEthereumType wb height rows rollback st
    = (Ok ((wb ++ concat (map txDeletes rows)) ++ map (fun a => DeleteCF cfAddresses (packAddressKey a height)) (elements (dom s.2)), rb), st')
  /\ disconnecting st' s.1.
Proof.
  intros Hi Hd Hfit s. apply undos_fit_app in Hfit as [Hf1 Hf2]. unfold disconnectBlockTxsEthereumType.
  destruct (txs_undoes internals wb height rows ∅ rollback Hi st m Hd Hf1) as ([wb1 [adrs1 rb1]] & st1 & E1 & Ea & Hd1).
  pose proof (txs_batch _ _ _ _ _ _ _ _ E1) as ->. cbn [fst snd] in Ea. subst s. unfold blockUndos. rewrite foldl_app.
  destruct (foldl applyUndo (m, ∅) (concat (map (txUndos internals) rows))) as [m1 adrs1'] eqn:Ef. cbn [fst snd] in *. subst adrs1'.
  destruct (tokens_undoes (reversedTransfers rows) adrs1 st1 m1 Hd1 Hf2) as (adrs2 & st2 & E2 & Ea2 & Hd2).
  eexists _, st2. split; [|done]. erewrite bind_ok by exact E1. cbv beta iota. erewrite bind_ok by exact E2. by rewrite Ea2.
Qed.

(** ** Protocols *)

Lemma uncache_disconnecting a st m : disconnecting st m -> exists st', uncache a st = (Ok tt, st') /\ disconnecting st' m
  /\ es_addressContracts st' = es_addressContracts st /\ es_cache st' = es_cache st.
Proof.
  intros Hd. eexists. split; [reflexivity|]. split; [|done]. apply disconnecting_registry; [done| |done].
  apply (dropEntry_coherent a st). apply (dc_coherent _ _ Hd).
Qed.

Lemma protocols_spec id endKey rows wb st m : disconnecting st m ->
  exists ops st', disconnectProtocolRows id endKey rows wb st = (Ok (wb ++ ops), st')
  /\ Forall (fun op => op_cf op = cfErcProtocols) ops /\ disconnecting st' m
  /\ es_addressContracts st' = es_addressContracts st /\ es_cache st' = es_cache st.
Proof.
  revert wb st. induction rows as [|[k v] rows IH]; intros wb st Hd; cbn [disconnectProtocolRows].
  - exists [], st. by rewrite app_nil_r.
  - destruct (bytes_compare k endKey); [by exists [], st; rewrite app_nil_r| |by exists [], st; rewrite app_nil_r].
    destruct (zlen k <=? 6); [by apply IH|]. destruct (uncache_disconnecting (drop 6 k) st m Hd) as (st1 & E1 & Hd1 & Ha1 & Hc1).
    erewrite bind_ok by exact E1. destruct (IH (wb ++ [DeleteCF cfErcProtocols (protocolByContractKey id (drop 6 k)); DeleteCF cfErcProtocols k]) st1 Hd1)
      as (ops & st2 & -> & Hops & Hd2 & Ha2 & Hc2).
    eexists _, st2. rewrite <- app_assoc. split; [done|]. split; [by repeat constructor|]. split; [done|split; congruence].
Qed.
End EthDisconnectCorrect.

(** ** A block *)

Section EthRange.
Context {V : Vlq} {VL : VlqLaws V} {E : EthChainParser} {EL : EthChainParserLaws E} {IX : IndexOpts}.
Context {K : KV} {KL : KVLaws K} {CO : EthCacheOpts}.
Implicit Types (st : EthState K) (m : gmap bytes AddrContracts).

(** The rows that are cached or are large enough to be. *)
Definition cacheable st m (a : bytes) : Prop :=
  is_Some (es_cache st !! a) \/ exists x, m !! a = Some x /\ minCacheSize < zlen (packAddrContracts x).

(** A block that can be disconnected: its row and its internal data can be read, and so can the
    registry; the rows of addresses stay within their bounds and those in the cache are kept. *)
Record disconnectable st m (h : Z) (rows : list ethBlockTx) (internals : bytes -> option EthereumInternalData) : Prop := {
  db_rests : rests st m;
  db_coherent : coherent st;
  db_height : 1 <= h < 2 ^ 32 - 1;
  db_rows : getBlockTxsEthereumType (es_db st) h = Ok (Some rows);
  db_internals : internals_ok (es_db st) internals rows;
  db_readable : forall k, exists o, pureLoad (es_db st) k = Ok o;
  db_fit : undos_fit (cacheable st m) (m, ∅) (blockUndos internals rows);
  db_gen : 0 <= rg_reorgGen (es_registry st) < 2 ^ 64 - 1;
}.

Lemma readEthBlockTxs_one (d : DB K) h rows : 1 <= h < 2 ^ 32 - 1 -> getBlockTxsEthereumType d h = Ok (Some rows) ->
  readEthBlockTxs (ethRangeFuel h h) d h h h (replicate (Z.to_nat (u32 (h - h + 1))) []) = Ok [rows].
Proof.
  intros Hh Hr. unfold ethRangeFuel. rewrite Z.sub_diag. cbn [Z.to_nat readEthBlockTxs]. rewrite Z.leb_refl, Hr. cbn [rbind].
  rewrite Z.sub_diag. change (u32 0) with 0. change (u32 (0 + 1)) with 1. cbn [Z.to_nat Pos.to_nat replicate setEthBlock].
  change (Pos.to_nat 1) with 1%nat. cbn [replicate]. unfold setEthBlock. cbn [rbind].
  change (0 <? zlen [[]]) with true. cbn [rbind]. rewrite (u32_id (h + 1)) by (unfold is_u32; lia).
  destruct (Z.leb_spec (h + 1) h); [lia|]. done.
Qed.

Lemma disconnectEthBlocks_one h rows wb rollback st r st' : 1 <= h < 2 ^ 32 - 1 ->
  disconnectBlockTxsEthereumType wb h rows rollback st = (Ok r, st') ->
  disconnectEthBlocks (ethRangeFuel h h) h h [rows] wb rollback st
  = (Ok (r.1 ++ [DeleteCF cfBlockTxs (packUint h); DeleteCF cfHeight (packUint h); DeleteCF cfBlockInternalDataErrors (packUint h)], r.2), st').
Proof.
  intros Hh Hd. unfold ethRangeFuel. rewrite Z.sub_diag. cbn [Z.to_nat disconnectEthBlocks]. rewrite Z.leb_refl, Z.sub_diag.
  change (Z.to_nat (u32 0)) with 0%nat. cbn [lookup list_lookup]. erewrite bind_ok by exact Hd. destruct r as [wb' rb'].
  cbv beta iota. rewrite (u32_id (h - 1)) by (unfold is_u32; lia). destruct (Z.leb_spec h (h - 1)); [lia|]. done.
Qed.

(** A reorganisation makes all cached contracts outdated. *)
Lemma reorg_coherent st (d : DB K) : coherent st -> 0 <= rg_reorgGen (es_registry st) < 2 ^ 64 - 1 ->
  exists st', bumpReorgGen (with_db d st) = (Ok tt, st') /\ coherent st'
  /\ es_db st' = d /\ es_addresses st' = es_addresses st /\ es_addressContracts st' = es_addressContracts st /\ es_cache st' = es_cache st.
Proof.
  intros Hc Hg. eexists. split; [reflexivity|]. split_and!; try done. unfold coherent. cbn.
  rewrite (u64_id (_ + 1)) by (unfold is_u64; lia). eapply Forall_impl; [exact Hc|]. intros e (H1 & H2 & _).
  split_and!; cbn; [lia|done|lia].
Qed.

Lemma disconnecting_start st m h rows internals : disconnectable st m h rows internals ->
  disconnecting (es_db st) m (cacheable st m) (rg_reorgGen (es_registry st)) (endBlock st) m.
Proof.
  intros Hd. pose proof (db_rests _ _ _ _ _ Hd) as [(Ha & Hf & Hs) Hac]. constructor; try done.
  - split; [done|]. split; [done|]. intros a Hx. specialize (Hs a Hx). unfold stands_for, live in *. cbn.
    by rewrite lookup_empty; rewrite Hac, lookup_empty in Hs.
  - apply (db_coherent _ _ _ _ _ Hd).
  - intros a Hc. by left.
Qed.

(** The batch before the rows of addresses are added: only deletions of the rows of the block. *)
Definition blockDeletes (h : Z) (rows : list ethBlockTx) (adrs : txsOfAddresses) : list BatchOp :=
  (([] ++ concat (map txDeletes rows)) ++ map (fun a => DeleteCF cfAddresses (packAddressKey a h)) (elements (dom adrs))) ++
  [DeleteCF cfBlockTxs (packUint h); DeleteCF cfHeight (packUint h); DeleteCF cfBlockInternalDataErrors (packUint h)].

Lemma blockDeletes_get cf k h rows adrs :
  batch_get cf k (blockDeletes h rows adrs) = None \/ batch_get cf k (blockDeletes h rows adrs) = Some None.
Proof.
  assert (Hall : forall wb, Forall (fun op => op_val op = None) wb -> batch_get cf k wb = None \/ batch_get cf k wb = Some None).
  { intros wb Hw. induction Hw as [|op wb Hop _ [IH|IH]]; cbn; [by left| |]; rewrite IH; [|by right].
    case_decide; [right; by rewrite Hop|by left]. }
  apply Hall. unfold blockDeletes. rewrite app_nil_l. apply Forall_app. split; [apply Forall_app; split|by repeat constructor].
  - apply Forall_concat, List.Forall_map, Forall_true. intros t. by repeat constructor.
  - apply List.Forall_map, Forall_true. done.
Qed.

Lemma batch_get_deleted cf k wb : DeleteCF cf k ∈ wb -> (batch_get cf k wb = None \/ batch_get cf k wb = Some None) ->
  batch_get cf k wb = Some None.
Proof.
  intros Hin [Hn|]; [|done]. exfalso. induction wb as [|op wb IH]; [by apply not_elem_of_nil in Hin|]. cbn in Hn.
  apply elem_of_cons in Hin as [<-|Hin].
  - destruct (batch_get cf k wb); [done|]. cbn in Hn. by rewrite decide_True in Hn.
  - destruct (batch_get cf k wb) eqn:Eb; [done|]. by apply IH.
Qed.

(** What disconnecting a block leaves. *)
Definition disconnected h (rows : list ethBlockTx) (internals : bytes -> option EthereumInternalData) m st' : Prop :=
  let s := foldl applyUndo (m, ∅) (blockUndos internals rows) in
  rests st' (prune s.1) /\ coherent st'
  /\ GetCF (es_db st') cfBlockTxs (packUint h) = Ok None /\ GetCF (es_db st') cfHeight (packUint h) = Ok None
  /\ (forall a, a ∈ dom s.2 -> GetCF (es_db st') cfAddresses (packAddressKey a h) = Ok None)
  /\ (forall t, t ∈ rows -> GetCF (es_db st') cfInternalData (ebt_btxID t) = Ok None).

Lemma disconnect_block st m h rows internals : disconnectable st m h rows internals ->
  exists st', DisconnectBlockRangeEthereumType h h st = (Ok tt, st') /\ disconnected h rows internals m st'.
Proof.
  intros Hd. pose proof (disconnecting_start _ _ _ _ _ Hd) as Hs0. set (d0 := es_db st) in *. set (C := cacheable st m) in *.
  set (g0 := rg_reorgGen (es_registry st)) in *. pose proof Hd as [Hrests Hcoh Hh Hrows Hint Hread Hfit Hgen].
  assert (Hlarge : forall a x, m !! a = Some x -> minCacheSize < zlen (packAddrContracts x) -> C a) by (intros a x ? ?; right; eauto).
  destruct (disconnectBlock_undoes d0 m C g0 Hlarge Hread internals [] h rows newContractRegistryRollback (endBlock st) m Hint Hs0 Hfit)
    as (rb & st1 & E1 & Hd1). set (s := foldl applyUndo (m, ∅) (blockUndos internals rows)) in *.
  pose proof (disconnectEthBlocks_one h rows [] newContractRegistryRollback (endBlock st) _ st1 Hh E1) as E2. cbn [fst snd] in E2.
  fold (blockDeletes h rows s.2) in E2. set (wb0 := blockDeletes h rows s.2) in *.
  set (wb1 := storeRollback (storeUnpackedAddressContracts wb0 (es_cache st1) (es_addressContracts st1)) rb).
  destruct (protocols_spec d0 m C g0 ErcProtocolErc4626 ([ercProtocolKeyByHeight; ErcProtocolErc4626] ++ packUint (u32 (h + 1)))
    (seek ([ercProtocolKeyByHeight; ErcProtocolErc4626] ++ packUint h) (kv_list (db_cf (es_db st1) cfErcProtocols))) wb1 st1 s.1 Hd1)
    as (ops & st2 & E3 & Hops & Hd2 & Hsame).
  set (wb := wb1 ++ ops) in *. pose proof Hd2 as [Hag2 Hc2 Hcol2 _ _ Hg2].
  pose proof Hag2 as (_ & [[Hr Hw] _] & _).
  assert (X : extends [cfAddressContracts; cfContracts; cfErcProtocols] wb0 wb).
  { unfold wb, wb1, storeRollback, storeUnpackedAddressContracts. rewrite <- !app_assoc. apply extends_app. apply Forall_app. split; [|apply Forall_app; split].
    - apply Forall_concat, List.Forall_map, Forall_forall. intros [a u] _. unfold storeUnpackedContracts. repeat case_match; repeat constructor.
    - apply List.Forall_map, Forall_true. intros [k [ci|]]; cbn; set_solver.
    - eapply Forall_impl; [exact Hops|]. intros op ->. set_solver. }
  destruct (WriteBatch wb (es_db st2)) as [d'|e|] eqn:Ew; [|unfold WriteBatch in Ew; by rewrite Hw in Ew..].
  assert (B1 : forall a, batch_get cfAddressContracts a wb = batch_get cfAddressContracts a
     (concat (map (fun e => storeUnpackedContracts (es_cache st2) e.1 e.2) (map_to_list (es_addressContracts st2))))).
  { intros a. destruct Hsame as [Eac Ecache]. rewrite Eac, Ecache. unfold wb, wb1, storeRollback, storeUnpackedAddressContracts. rewrite !batch_get_app.
    rewrite (batch_get_other _ _ ops), (batch_get_other _ _ (map _ (map_to_list (rb_rows rb)))), (batch_get_other _ _ wb0).
    - by case_match.
    - unfold wb0, blockDeletes. rewrite app_nil_l. apply Forall_app. split; [apply Forall_app; split|].
      + apply Forall_concat, List.Forall_map, Forall_true. intros t. by repeat (apply Forall_cons; split; [by left|]).
      + apply List.Forall_map, Forall_true. intros k. by left.
      + by repeat (apply Forall_cons; split; [by left|]).
    - apply List.Forall_map, Forall_true. intros [k [ci|]]; by left.
    - eapply Forall_impl; [exact Hops|]. intros op ->. by left. }
  pose proof (store_agrees wb d' st2 _ Hag2 B1 Ew) as Hag3.
  destruct (reorg_coherent st2 d' Hc2) as (st3 & E4 & Hc3 & F1 & F2 & F3 & F4); [rewrite Hg2; exact Hgen|].
  exists (endBlock st3). split.
  - unfold DisconnectBlockRangeEthereumType, scoped. change (with_contracts ∅ (with_addresses ∅ st)) with (endBlock st).
    erewrite bind_ok by reflexivity. erewrite bind_ok; cycle 1.
    { exact (f_equal (fun r => (r, endBlock st)) (readEthBlockTxs_one (es_db st) h rows Hh Hrows)). }
    erewrite bind_ok by exact E2. cbv beta iota. do 2 erewrite bind_ok by reflexivity. fold wb1.
    erewrite bind_ok; cycle 1. { unfold disconnectErcProtocols, disconnectErcProtocolRange. erewrite bind_ok by reflexivity. exact E3. }
    fold wb. erewrite bind_ok; cycle 1. { unfold writeBatchM. rewrite Ew. reflexivity. } rewrite E4. done.
  - assert (Hget : forall cf k, cf ∉ [cfAddressContracts; cfContracts; cfErcProtocols] -> DeleteCF cf k ∈ wb0 ->
      GetCF (es_db (endBlock st3)) cf k = Ok None).
    { intros cf k Hcf Hin. change (es_db (endBlock st3)) with (es_db st3). rewrite F1. rewrite (GetCF_WriteBatch wb (es_db st2) d') by done.
      rewrite (batch_get_extends _ _ _ _ _ X) by done. rewrite (batch_get_deleted cf k wb0 Hin); [done|]. apply blockDeletes_get. }
    split_and!.
    + split; [|done]. destruct Hag3 as (_ & Hf3 & Hs3). split; [done|].
      split; [destruct Hf3; split; [by cbn; rewrite F1|intros a; cbn; rewrite F4; auto]|].
      intros a Hx. specialize (Hs3 a Hx). unfold stands_for, live in *. cbn in *. by rewrite F1, F4.
    + exact Hc3.
    + apply Hget; [set_solver|]. unfold wb0, blockDeletes. apply elem_of_app. right. left.
    + apply Hget; [set_solver|]. unfold wb0, blockDeletes. apply elem_of_app. right. right. left.
    + intros a Ha. apply Hget; [set_solver|]. unfold wb0, blockDeletes. apply elem_of_app. left. apply elem_of_app. right.
      apply list_elem_of_fmap. exists a. split; [done|]. by apply elem_of_elements.
    + intros t Ht. apply Hget; [set_solver|]. unfold wb0, blockDeletes. apply elem_of_app. left. apply elem_of_app. left. rewrite app_nil_l.
      apply list_elem_of_In, in_concat. exists (txDeletes t). split; [|right; by left]. apply in_map. by apply list_elem_of_In.
Qed.
End EthRange.
