(* ===== verification/EthReorg.v ===== *)
(** What a block of an Ethereum-type coin does to an address and what its disconnection does.

    Both directions are looked at from one address: the events of the block at the address add
    to its counters and change its contracts, the operations of the disconnection take the
    same away ([rowEvents_fields], [rowUndos_fields]). *)

From S2P Require Import Prelude Codec Parser TxAddr Balance IndexCodec Store GoSort EthTokens EthContracts EthIndex EthParser EthRows EthContractInfo EthAliases EthState EthRegistry EthConnect EthEvents EthConnectCorrect EthBlock EthBlockCorrect EthDisconnect EthUndo EthDisconnectCorrect.

Local Open Scope Z_scope.

(** ** Events at one address *)

(** The row and the transactions met. *)
Definition rowEvent (s : AddrContracts * gset bytes) (ev : ethEvent) : AddrContracts * gset bytes :=
  (countTotal (bool_decide (ev_btxID ev ∈ s.2)) (eventContracts ev s.1).1, {[ev_btxID ev]} ∪ s.2).

Definition idsAt (l : Ledger) (a : bytes) : gset bytes := list_to_set (map txi_btxID (default [] (lg_addresses l !! a))).

Definition evAt (a : bytes) (evs : list ethEvent) : list ethEvent := filter (fun ev => ev_addrDesc ev = a) evs.

Lemma appendTxIndex_ids id index ts :
  match appendTxIndex id index ts with
  | Some ts' => id ∈ map txi_btxID ts /\ map txi_btxID ts' = map txi_btxID ts
  | None => id ∉ map txi_btxID ts
  end.
Proof.
  induction ts as [|t ts IH]; cbn [appendTxIndex map]; [apply not_elem_of_nil|]. case_bool_decide as He.
  - split; [rewrite He; left|]. cbn [map]. by case_bool_decide.
  - destruct (appendTxIndex id index ts) as [ts'|]; cbn [fmap option_fmap option_map].
    + destruct IH as [H1 H2]. split; [by right|]. cbn [map]. by rewrite H2.
    + by apply not_elem_of_cons.
Qed.

Lemma addToMap_ids m a id index : let '(m', counted) := addToAddressesMapEthereumType m a id index in
  counted = bool_decide (id ∈ (list_to_set (map txi_btxID (default [] (m !! a))) : gset bytes)) /\
  (forall b, (list_to_set (map txi_btxID (default [] (m' !! b))) : gset bytes)
     = if decide (b = a) then {[id]} ∪ list_to_set (map txi_btxID (default [] (m !! a))) else list_to_set (map txi_btxID (default [] (m !! b)))).
Proof.
  unfold addToAddressesMapEthereumType. pose proof (appendTxIndex_ids id index (default [] (m !! a))) as H.
  destruct (appendTxIndex id index (default [] (m !! a))) as [ts'|].
  - destruct H as [Hin Heq]. split; [by rewrite bool_decide_eq_true_2 by (by apply elem_of_list_to_set)|].
    intros b. case_decide as Hb; [subst b|by rewrite lookup_insert_ne]. rewrite lookup_insert_eq. cbn [default]. unfold Datatypes.id.
    rewrite Heq. apply set_eq. intros y. rewrite elem_of_union, elem_of_singleton, !elem_of_list_to_set. naive_solver.
  - split; [by rewrite bool_decide_eq_false_2 by (by rewrite elem_of_list_to_set)|].
    intros b. case_decide as Hb; [subst b|by rewrite lookup_insert_ne]. rewrite lookup_insert_eq. cbn [default]. unfold Datatypes.id.
    rewrite map_app. cbn [map]. apply set_eq. intros y. rewrite elem_of_union, elem_of_singleton, !elem_of_list_to_set, elem_of_app.
    rewrite list_elem_of_singleton. tauto.
Qed.

Lemma applyEvent_at l ev a :
  let l' := applyEvent l ev in
  if decide (ev_addrDesc ev = a)
  then lg_contracts l' !! a = Some (rowEvent (default noContracts (lg_contracts l !! a), idsAt l a) ev).1
       /\ idsAt l' a = (rowEvent (default noContracts (lg_contracts l !! a), idsAt l a) ev).2
  else lg_contracts l' !! a = lg_contracts l !! a /\ idsAt l' a = idsAt l a.
Proof.
  unfold applyEvent, idsAt. set (x := default noContracts (lg_contracts l !! ev_addrDesc ev)).
  destruct (eventContracts ev x) as [x1 index] eqn:Ex.
  pose proof (addToMap_ids (lg_addresses l) (ev_addrDesc ev) (ev_btxID ev) index) as H.
  destruct (addToAddressesMapEthereumType _ _ _ _) as [m' counted]. destruct H as [Hc Hids]. cbn [lg_contracts lg_addresses].
  rewrite (Hids a). destruct (decide (ev_addrDesc ev = a)) as [Ha|Ha].
  - rewrite <- Ha. rewrite lookup_insert_eq, decide_True by done. unfold rowEvent. cbn [fst snd]. fold x. rewrite Ex. cbn [fst]. by rewrite Hc.
  - rewrite lookup_insert_ne, decide_False by congruence. done.
Qed.

Lemma applyEvents_at evs l a :
  let s := foldl rowEvent (default noContracts (lg_contracts l !! a), idsAt l a) (evAt a evs) in
  lg_contracts (foldl applyEvent l evs) !! a = (if decide (evAt a evs = []) then lg_contracts l !! a else Some s.1).
Proof.
  revert l. induction evs as [|ev evs IH]; intros l; [done|]. cbn [foldl]. unfold evAt. rewrite filter_cons. fold (evAt a evs).
  pose proof (applyEvent_at l ev a) as H. cbv zeta in H. destruct (decide (ev_addrDesc ev = a)) as [Ha|Ha].
  - destruct H as [H1 H2]. rewrite IH, H1, H2. cbn [foldl]. rewrite (decide_False (P := _ :: _ = [])) by done.
    cbn [default]. unfold Datatypes.id. rewrite <- surjective_pairing. case_decide as He; [by rewrite He|done].
  - destruct H as [H1 H2]. by rewrite IH, H1, H2.
Qed.

(** ** Operations at one address *)

Definition rowUndo (a : bytes) (s : AddrContracts * gset bytes) (op : undoOp) : AddrContracts * gset bytes :=
  (undoRow a (un_kind op) (bool_decide (un_btxID op ∈ s.2)) s.1, {[un_btxID op]} ∪ s.2).

Definition opAt (a : bytes) (ops : list undoOp) : list undoOp := filter (fun op => un_addrDesc op = a) ops.

Lemma applyUndos_at ops m adrs a x : zlen a <> 0 -> m !! a = Some x ->
  (foldl applyUndo (m, adrs) ops).1 !! a = Some (foldl (rowUndo a) (x, default ∅ (adrs !! a)) (opAt a ops)).1.
Proof.
  intros Ha. revert m adrs x. induction ops as [|op ops IH]; intros m adrs x Hx; [done|]. cbn [foldl]. unfold opAt. rewrite filter_cons.
  fold (opAt a ops). unfold applyUndo at 2. destruct (Z.eqb_spec (zlen (un_addrDesc op)) 0) as [Hz|Hz].
  { rewrite decide_False by congruence. by apply IH. }
  case_decide as He.
  - rewrite <- He in *. rewrite Hx. rewrite (IH _ _ _ (lookup_insert_eq _ _ _)). rewrite lookup_insert_eq. cbn [default foldl]. done.
  - destruct (m !! un_addrDesc op) as [y|] eqn:Ey.
    + rewrite (IH _ _ x); [by rewrite lookup_insert_ne by done|by rewrite lookup_insert_ne by done].
    + rewrite (IH _ _ x Hx). by rewrite lookup_insert_ne by done.
Qed.

Lemma applyUndos_none ops m adrs a : m !! a = None -> (foldl applyUndo (m, adrs) ops).1 !! a = None.
Proof.
  revert m adrs. induction ops as [|op ops IH]; intros m adrs Hn; [done|]. cbn [foldl]. unfold applyUndo at 2.
  destruct (zlen (un_addrDesc op) =? 0); [by apply IH|]. destruct (m !! un_addrDesc op) as [y|] eqn:Ey; apply IH; [|done].
  rewrite lookup_insert_ne; [done|]. intros He. congruence.
Qed.

(** The conditions of every step, address by address. *)
Lemma undos_fit_at C m ops :
  (forall a x k, m !! a = Some x -> a ∈ map un_addrDesc ops ->
     let x' := (foldl (rowUndo a) (x, ∅) (take k (opAt a ops))).1 in stored_ok x' /\ (C a -> droppable x' = false)) ->
  undos_fit C (m, ∅) ops.
Proof.
  intros H.
  assert (Hk : forall pre post, ops = pre ++ post -> undos_fit C (foldl applyUndo (m, ∅) pre) post); [|by apply (Hk [] ops)].
  intros pre post. revert pre. induction post as [|op post IH]; intros pre Ho; [done|]. cbn [undos_fit].
  assert (Hs : applyUndo (foldl applyUndo (m, ∅) pre) op = foldl applyUndo (m, ∅) (pre ++ [op])) by (by rewrite foldl_app).
  rewrite Hs. split; [|apply IH; by rewrite <- app_assoc]. intros x' Hx'. set (a := un_addrDesc op) in *.
  destruct (m !! a) as [x|] eqn:Ex; [|by rewrite applyUndos_none in Hx'].
  destruct (Z.eq_dec (zlen a) 0) as [Hz|Hz].
  - assert (Hsame : forall o s, (foldl applyUndo s o).1 !! a = s.1 !! a).
    { induction o as [|o' o IHo]; intros s; [done|]. cbn [foldl]. rewrite IHo. unfold applyUndo. destruct s as [m' adrs'].
      destruct (Z.eqb_spec (zlen (un_addrDesc o')) 0) as [|Hne]; [done|]. cbn [fst].
      destruct (m' !! un_addrDesc o'); [|done]. rewrite lookup_insert_ne; [done|]. intros He. by rewrite He in Hne. }
    rewrite Hsame in Hx'. cbn [fst] in Hx'. rewrite Ex in Hx'. injection Hx' as <-.
    apply (H a x 0%nat Ex). rewrite Ho, map_app. cbn [map]. set_solver.
  - rewrite (applyUndos_at _ m ∅ a x Hz Ex) in Hx'. injection Hx' as <-. rewrite lookup_empty. cbn [default].
    specialize (H a x (length (opAt a (pre ++ [op]))) Ex).
    assert (take (length (opAt a (pre ++ [op]))) (opAt a ops) = opAt a (pre ++ [op])) as Et.
    { rewrite Ho. change (pre ++ op :: post) with (pre ++ [op] ++ post). rewrite app_assoc. unfold opAt at 2. rewrite filter_app.
      fold (opAt a (pre ++ [op])). by rewrite take_app_length. }
    rewrite Et in H. apply H. rewrite Ho, map_app. cbn [map]. set_solver.
Qed.

(** ** Counters *)

(** The number of transactions that were not met before. *)
Definition fresh (seen : gset bytes) (ids : list bytes) : Z := Z.of_nat (size (list_to_set ids ∖ seen : gset bytes)).

Lemma fresh_nil seen : fresh seen [] = 0.
Proof. unfold fresh. replace (list_to_set [] ∖ seen : gset bytes) with (∅ : gset bytes); [done|]. apply set_eq. set_solver. Qed.

Lemma fresh_cons seen id ids :
  fresh seen (id :: ids) = (if bool_decide (id ∈ seen) then 0 else 1) + fresh ({[id]} ∪ seen) ids.
Proof.
  unfold fresh. cbn [list_to_set]. case_bool_decide as Hin.
  - replace (({[id]} ∪ list_to_set ids) ∖ seen : gset bytes) with (list_to_set ids ∖ ({[id]} ∪ seen) : gset bytes); [lia|].
    apply set_eq. intros y. set_solver.
  - replace (({[id]} ∪ list_to_set ids) ∖ seen : gset bytes) with ({[id]} ∪ (list_to_set ids ∖ ({[id]} ∪ seen)) : gset bytes).
    + rewrite size_union by set_solver. rewrite size_singleton. lia.
    + apply set_eq. intros y. destruct (decide (y = id)) as [->|]; set_solver.
Qed.

Lemma fresh_mono seen ids ids' : (forall i, i ∈ ids -> i ∈ ids') -> fresh seen ids <= fresh seen ids'.
Proof. intros H. unfold fresh. apply inj_le, subseteq_size. set_solver. Qed.

Lemma fresh_same seen ids ids' : (forall i, i ∈ ids <-> i ∈ ids') -> fresh seen ids = fresh seen ids'.
Proof. intros H. apply Z.le_antisymm; apply fresh_mono; naive_solver. Qed.

Definition internalIndex (index : Z) : bool := (index =? internalTransferFrom) || (index =? internalTransferTo).

Definition coinCount (internal : bool) (ev : ethEvent) : Z :=
  match ev_contract ev with
  | None => if ev_addTxCount ev && eqb (internalIndex (ev_index ev)) internal then 1 else 0
  | Some _ => 0
  end.

Definition stepEv (cs : list AddrContract) (ev : ethEvent) : list AddrContract :=
  match ev_contract ev with
  | None => cs
  | Some (contract, t) => stepContract contract t (ev_index ev <? 0) (ev_addTxCount ev) (ev_mutateHoldings ev) cs
  end.

(** The rows on the way can be stored. *)
Fixpoint row_events_fit (s : AddrContracts * gset bytes) (evs : list ethEvent) : Prop :=
  match evs with
  | [] => True
  | ev :: r => stored_ok (rowEvent s ev).1 /\ row_events_fit (rowEvent s ev) r
  end.

Lemma rowEvent_fields ev x seen : isZeroAddress (ev_addrDesc ev) = false -> stored_ok x ->
  let x' := (rowEvent (x, seen) ev).1 in
  acs_NonContractTxs x' = acs_NonContractTxs x + coinCount false ev /\ acs_InternalTxs x' = acs_InternalTxs x + coinCount true ev
  /\ acs_TotalTxs x' = acs_TotalTxs x + (if bool_decide (ev_btxID ev ∈ seen) then 0 else 1)
  /\ acs_Contracts x' = stepEv (acs_Contracts x) ev.
Proof.
  intros Hz ((Ht & Hn & Hi & _) & _ & Ht' & Hn' & Hi'). unfold is_u64 in *. unfold rowEvent, eventContracts, coinCount, stepEv, internalIndex.
  cbn [fst snd]. assert (Hu : forall z, 0 <= z < 2 ^ 64 - 1 -> u64 (z + 1) = z + 1) by (intros z Hz'; apply u64_id; unfold is_u64; lia).
  assert (Htot : forall y, acs_TotalTxs y = acs_TotalTxs x -> let y' := countTotal (bool_decide (ev_btxID ev ∈ seen)) y in
    acs_TotalTxs y' = acs_TotalTxs x + (if bool_decide (ev_btxID ev ∈ seen) then 0 else 1) /\ acs_NonContractTxs y' = acs_NonContractTxs y
    /\ acs_InternalTxs y' = acs_InternalTxs y /\ acs_Contracts y' = acs_Contracts y).
  { intros y Hy. unfold countTotal. case_bool_decide; cbn; [split_and!; [lia|done..]|]. rewrite Hy, Hu by lia. done. }
  destruct (ev_contract ev) as [[contract t]|].
  - rewrite Hz. cbn [fst]. destruct (Htot (set_acs_Contracts (stepContract contract t (ev_index ev <? 0) (ev_addTxCount ev) (ev_mutateHoldings ev) (acs_Contracts x)) x) eq_refl)
      as (H1 & H2 & H3 & H4).
    unfold stepContract in *. rewrite H1, H2, H3, H4. cbn. split_and!; lia || done.
  - cbn [fst]. destruct (ev_addTxCount ev); cbn [andb]; cycle 1.
    { destruct (Htot x eq_refl) as (H1 & H2 & H3 & H4). rewrite H1, H2, H3, H4. split_and!; lia || done. }
    destruct ((ev_index ev =? internalTransferFrom) || (ev_index ev =? internalTransferTo)); cbn [eqb].
    + destruct (Htot (mkAddrContracts (acs_TotalTxs x) (acs_NonContractTxs x) (u64 (acs_InternalTxs x + 1)) (acs_Contracts x)) eq_refl) as (H1 & H2 & H3 & H4).
      rewrite H1, H2, H3, H4. cbn. rewrite Hu by lia. split_and!; lia || done.
    + destruct (Htot (mkAddrContracts (acs_TotalTxs x) (u64 (acs_NonContractTxs x + 1)) (acs_InternalTxs x) (acs_Contracts x)) eq_refl) as (H1 & H2 & H3 & H4).
      rewrite H1, H2, H3, H4. cbn. rewrite Hu by lia. split_and!; lia || done.
Qed.

Lemma rowEvents_fields evs x seen : Forall (fun ev => isZeroAddress (ev_addrDesc ev) = false) evs -> stored_ok x ->
  row_events_fit (x, seen) evs ->
  let x' := (foldl rowEvent (x, seen) evs).1 in
  stored_ok x' /\ acs_NonContractTxs x' = acs_NonContractTxs x + sumZ (coinCount false) evs
  /\ acs_InternalTxs x' = acs_InternalTxs x + sumZ (coinCount true) evs
  /\ acs_TotalTxs x' = acs_TotalTxs x + fresh seen (map ev_btxID evs)
  /\ acs_Contracts x' = foldl stepEv (acs_Contracts x) evs.
Proof.
  intros Hz. revert x seen. induction Hz as [|ev evs Hz _ IH]; intros x seen Hok Hfit.
  - cbn [foldl fst map sumZ]. rewrite fresh_nil. split_and!; lia || done.
  - destruct Hfit as [Hok1 Hfit]. destruct (rowEvent_fields ev x seen Hz Hok) as (H1 & H2 & H3 & H4).
    cbn [foldl map sumZ]. destruct (rowEvent (x, seen) ev) as [x1 seen1] eqn:E1. cbn [fst] in *.
    assert (seen1 = {[ev_btxID ev]} ∪ seen) as -> by (by injection E1).
    destruct (IH x1 _ Hok1 Hfit) as (G0 & G1 & G2 & G3 & G4).
    rewrite fresh_cons, <- H4. split_and!; [done|lia|lia|lia|done].
Qed.

Definition coinUndoCount (internal : bool) (op : undoOp) : Z :=
  match un_kind op with UndoCoin i => if eqb i internal then 1 else 0 | UndoToken _ => 0 end.

Definition undoStep (a : bytes) (cs : list AddrContract) (op : undoOp) : list AddrContract :=
  match un_kind op with UndoCoin _ => cs | UndoToken c => undoContract a c cs end.

Lemma coinUndoCount_nonneg i op : 0 <= coinUndoCount i op.
Proof. unfold coinUndoCount. repeat case_match; lia. Qed.

(** The counters are large enough for all operations. *)
Definition counters_cover (x : AddrContracts) (seen : gset bytes) (ops : list undoOp) : Prop :=
  sumZ (coinUndoCount false) ops <= acs_NonContractTxs x < 2 ^ 64 /\ sumZ (coinUndoCount true) ops <= acs_InternalTxs x < 2 ^ 64
  /\ fresh seen (map un_btxID ops) <= acs_TotalTxs x < 2 ^ 64.

Lemma rowUndos_fields a ops x seen : counters_cover x seen ops ->
  let x' := (foldl (rowUndo a) (x, seen) ops).1 in
  acs_NonContractTxs x' = acs_NonContractTxs x - sumZ (coinUndoCount false) ops
  /\ acs_InternalTxs x' = acs_InternalTxs x - sumZ (coinUndoCount true) ops
  /\ acs_TotalTxs x' = acs_TotalTxs x - fresh seen (map un_btxID ops)
  /\ acs_Contracts x' = foldl (undoStep a) (acs_Contracts x) ops.
Proof.
  revert x seen. induction ops as [|op ops IH]; intros x seen (Hn & Hi & Ht).
  - cbn [foldl fst map sumZ]. rewrite fresh_nil. split_and!; lia || done.
  - cbn [map] in *. rewrite fresh_cons in *. cbn [sumZ] in Hn, Hi.
    assert (Hp : forall i, 0 <= sumZ (coinUndoCount i) ops).
    { intros i. destruct (sumZ_take (coinUndoCount i) ops (length ops) (coinUndoCount_nonneg i)). rewrite take_ge in * by lia. done. }
    pose proof (Hp false) as Hp0. pose proof (Hp true) as Hp1. pose proof (Zle_0_nat (size (list_to_set (map un_btxID ops) ∖ ({[un_btxID op]} ∪ seen) : gset bytes))) as Hp2.
    change (0 <= fresh ({[un_btxID op]} ∪ seen) (map un_btxID ops)) in Hp2.
    set (x1 := undoRow a (un_kind op) (bool_decide (un_btxID op ∈ seen)) x).
    assert (Hx1 : acs_NonContractTxs x1 = acs_NonContractTxs x - coinUndoCount false op /\ acs_InternalTxs x1 = acs_InternalTxs x - coinUndoCount true op
      /\ acs_TotalTxs x1 = acs_TotalTxs x - (if bool_decide (un_btxID op ∈ seen) then 0 else 1)
      /\ acs_Contracts x1 = undoStep a (acs_Contracts x) op).
    { assert (Hu : forall z, 1 <= z < 2 ^ 64 -> u64 (z - 1) = z - 1) by (intros z Hz; apply u64_id; unfold is_u64; lia).
      unfold x1, undoRow, coinUndoCount, undoStep in *.
      set (y := if bool_decide (un_btxID op ∈ seen) then x else _).
      assert (Hy : acs_TotalTxs y = acs_TotalTxs x - (if bool_decide (un_btxID op ∈ seen) then 0 else 1) /\ acs_NonContractTxs y = acs_NonContractTxs x
        /\ acs_InternalTxs y = acs_InternalTxs x /\ acs_Contracts y = acs_Contracts x).
      { subst y. case_bool_decide; cbn; [split_and!; lia || done|]. rewrite Hu by lia. done. }
      destruct Hy as (Y1 & Y2 & Y3 & Y4). destruct (un_kind op) as [[]|c]; cbn [undoKindRow undoCounters eqb] in *.
      - rewrite Y3. destruct (Z.ltb_spec 0 (acs_InternalTxs x)); [|lia]. cbn. rewrite Hu by lia. split_and!; lia || done.
      - rewrite Y2. destruct (Z.ltb_spec 0 (acs_NonContractTxs x)); [|lia]. cbn. rewrite Hu by lia. split_and!; lia || done.
      - cbn. rewrite Y4. split_and!; lia || done. }
    destruct Hx1 as (X1 & X2 & X3 & X4). cbn [foldl sumZ].
    unfold rowUndo at 2 4 6 8. cbn [fst snd]. fold x1.
    destruct (IH x1 ({[un_btxID op]} ∪ seen)) as (G1 & G2 & G3 & G4).
    { unfold counters_cover. rewrite X1, X2, X3. pose proof (coinUndoCount_nonneg false op). pose proof (coinUndoCount_nonneg true op).
      destruct (bool_decide (un_btxID op ∈ seen)); lia. }
    rewrite G1, G2, G3, G4, X1, X2, X3, X4. split_and!; lia || done.
Qed.

(** ** Events and operations of a block match *)

(** An address other than the zero address. *)
Definition plain (a : bytes) : Prop := zlen a = EthereumTypeAddressDescriptorLen /\ a <> ethZeroAddress.

Lemma plain_nonzero a : plain a -> isZeroAddress a = false.
Proof.
  intros [Hl Hz]. unfold isZeroAddress. destruct (forallb _ a) eqn:E; [|done]. exfalso. apply Hz.
  transitivity (replicate (length a) x00).
  { clear Hl Hz. induction a as [|b a IH]; [done|]. cbn in E. apply andb_true_iff in E as [->%bool_decide_eq_true E].
    cbn [length replicate]. f_equal. by apply IH. }
  unfold ethZeroAddress. f_equal. unfold zlen, EthereumTypeAddressDescriptorLen in Hl. lia.
Qed.

Lemma plain_zlen a : plain a -> zlen a <> 0.
Proof. intros [-> _]. done. Qed.

(** An address that is parsed has the length of one. *)
Definition desc_ok (o : option bytes) : Prop := forall d, o = Some d -> zlen d = EthereumTypeAddressDescriptorLen.

Lemma addressBytes_plain a o : plain a -> desc_ok o -> addressBytes (default [] o) = a <-> o = Some a.
Proof.
  intros [Hl Hz] Ho. destruct o as [d|]; cbn [default]; unfold Datatypes.id.
  - rewrite addressBytes_id by (by apply Ho). split; congruence.
  - split; [|done]. intros <-. by destruct Hz.
Qed.

Record matched (evs : list ethEvent) (ops : list undoOp) : Prop := {
  mt_coins i : sumZ (coinCount i) evs = sumZ (coinUndoCount i) ops;
  mt_ids id : id ∈ map ev_btxID evs <-> id ∈ map un_btxID ops;
  mt_shown : evs <> [] -> 0 < sumZ (coinCount false) evs + sumZ (coinCount true) evs \/ Exists (fun ev => ev_contract ev <> None) evs;
}.

Lemma coinCount_nonneg i ev : 0 <= coinCount i ev.
Proof. unfold coinCount. repeat case_match; lia. Qed.

Lemma coins_nonneg i evs : 0 <= sumZ (coinCount i) evs.
Proof. apply sumZ_nonneg, Forall_true. intros ev. apply coinCount_nonneg. Qed.

Lemma matched_nil : matched [] [].
Proof. split; done. Qed.

Lemma matched_app e1 e2 o1 o2 : matched e1 o1 -> matched e2 o2 -> matched (e1 ++ e2) (o1 ++ o2).
Proof.
  intros [A1 A2 A3] [B1 B2 B3]. split.
  - intros i. rewrite !sumZ_app. by rewrite A1, B1.
  - intros id. rewrite !map_app, !elem_of_app. by rewrite A2, B2.
  - intros Hne. rewrite !sumZ_app. pose proof (coins_nonneg false e1).
    pose proof (coins_nonneg true e1). pose proof (coins_nonneg false e2).
    pose proof (coins_nonneg true e2).
    destruct e1 as [|ev e1]; [destruct (B3 Hne); [left; lia|right; by apply Exists_app; right]|].
    destruct (A3 ltac:(done)); [left; lia|right; by apply Exists_app; left].
Qed.

Lemma matched_perm e o o' : o ≡ₚ o' -> matched e o -> matched e o'.
Proof.
  intros Hp [H1 H2 H3]. split; [|intros id; rewrite H2; by rewrite Hp|done]. intros i. rewrite H1. by rewrite Hp.
Qed.

Lemma evAt_app a e1 e2 : evAt a (e1 ++ e2) = evAt a e1 ++ evAt a e2.
Proof. apply filter_app. Qed.
Lemma opAt_app a o1 o2 : opAt a (o1 ++ o2) = opAt a o1 ++ opAt a o2.
Proof. apply filter_app. Qed.

Lemma evAt_concat {A} a (f : A -> list ethEvent) l : evAt a (concat (map f l)) = concat (map (fun x => evAt a (f x)) l).
Proof. induction l as [|x l IH]; [done|]. cbn [map concat]. by rewrite evAt_app, IH. Qed.
Lemma opAt_concat {A} a (f : A -> list undoOp) l : opAt a (concat (map f l)) = concat (map (fun x => opAt a (f x)) l).
Proof. induction l as [|x l IH]; [done|]. cbn [map concat]. by rewrite opAt_app, IH. Qed.

Lemma matched_concat {A} (f : A -> list ethEvent) (g : A -> list undoOp) l : Forall (fun x => matched (f x) (g x)) l ->
  matched (concat (map f l)) (concat (map g l)).
Proof. induction 1; [apply matched_nil|]. by apply matched_app. Qed.

(** The two sides of a transfer of the coin: one count and one transaction for either address. *)
Lemma sides_match a id toIndex fromIndex from to internal : plain a -> desc_ok from -> desc_ok to ->
  internalIndex toIndex = internal -> internalIndex fromIndex = internal ->
  matched (evAt a (sideEvents id toIndex fromIndex from to))
    (opAt a (sideUndos id (addressBytes (default [] from)) (addressBytes (default [] to)) (UndoCoin internal))).
Proof.
  intros Ha Hf Ht Hti Hfi. pose proof (addressBytes_plain a from Ha Hf) as Pf. pose proof (addressBytes_plain a to Ha Ht) as Pt.
  unfold sideEvents, sideUndos, coinEvent, opAt, evAt.
  assert (Hev : forall b c idx, evAt a [mkEvent b id idx None c true] = if decide (b = a) then [mkEvent a id idx None c true] else []).
  { intros b c idx. unfold evAt. rewrite filter_cons, filter_nil. cbn. case_decide; congruence. }
  assert (One : forall i, sumZ (coinCount i) [mkEvent a id toIndex None true true] = if eqb internal i then 1 else 0).
  { intros i. unfold sumZ, coinCount. cbn. rewrite Hti. destruct (eqb internal i); done. }
  assert (One' : forall i, sumZ (coinCount i) [mkEvent a id fromIndex None true true] = if eqb internal i then 1 else 0).
  { intros i. unfold sumZ, coinCount. cbn. rewrite Hfi. destruct (eqb internal i); done. }
  assert (Mt : matched [mkEvent a id toIndex None true true] [mkUndo a id (UndoCoin internal)]).
  { split; [intros i; rewrite One; unfold sumZ, coinUndoCount; cbn; by destruct (eqb internal i)|done|].
    intros _. left. rewrite !One. by destruct internal. }
  assert (Mf : matched [mkEvent a id fromIndex None true true] [mkUndo a id (UndoCoin internal)]).
  { split; [intros i; rewrite One'; unfold sumZ, coinUndoCount; cbn; by destruct (eqb internal i)|done|].
    intros _. left. rewrite !One'. by destruct internal. }
  set (bf := addressBytes (default [] from)) in *. set (bt := addressBytes (default [] to)) in *.
  destruct (decide (to = Some a)) as [->|Hnt]; destruct (decide (from = Some a)) as [->|Hnf].
  - (* both *)
    cbn [default]. unfold Datatypes.id. rewrite (bool_decide_eq_true_2 (a = a)) by done. cbn [negb app].
    rewrite !filter_cons, filter_nil. cbn [ev_addrDesc un_addrDesc]. rewrite !decide_True by done.
    assert (bf = a) as -> by tauto. assert (bt = a) as -> by tauto. rewrite (bool_decide_eq_true_2 (a = a)) by done.
    rewrite filter_nil, decide_True by done.
    split.
    + intros i. pose proof (One i) as O. unfold sumZ, coinCount, coinUndoCount in *. cbn in *. lia.
    + intros i. cbn. set_solver.
    + intros _. left. pose proof (One false) as O1. pose proof (One true) as O2. unfold sumZ, coinCount in *. cbn in *. destruct internal; cbn in *; lia.
  - assert (bt = a) as -> by tauto. assert (bf <> a) as Hbf by tauto. rewrite (bool_decide_eq_false_2 (bf = a)) by done.
    rewrite !filter_cons, filter_nil. cbn [un_addrDesc]. rewrite (decide_False (P := bf = a)), (decide_True (P := a = a)) by done.
    cbn [default]. unfold Datatypes.id. rewrite filter_app, filter_cons, filter_nil. cbn [ev_addrDesc]. rewrite decide_True by done.
    destruct from as [f|]; [|exact Mt]. rewrite filter_cons, filter_nil. cbn [ev_addrDesc]. rewrite decide_False by congruence. exact Mt.
  - assert (bf = a) as -> by tauto. assert (bt <> a) as Hbt by tauto. rewrite (bool_decide_eq_false_2 (a = bt)) by done.
    rewrite !filter_cons, filter_nil. cbn [un_addrDesc]. rewrite (decide_False (P := bt = a)), (decide_True (P := a = a)) by done.
    rewrite filter_app. cbn [default]. unfold Datatypes.id.
    rewrite (bool_decide_eq_false_2 (a = default [] to)).
    2: { intros He. apply Hnt. destruct to as [t|]; cbn in He; [by rewrite <- He|]. destruct Ha as [Hl _]. rewrite He in Hl. done. }
    cbn [negb]. rewrite filter_cons, filter_nil. cbn [ev_addrDesc]. rewrite (decide_True (P := a = a)) by done.
    destruct to as [t|]; [|exact Mf]. rewrite filter_cons, filter_nil. cbn [ev_addrDesc]. rewrite decide_False by congruence. exact Mf.
  - assert (bf <> a) as Hbf by tauto. assert (bt <> a) as Hbt by tauto.
    assert (filter (fun op => un_addrDesc op = a) (mkUndo bf id (UndoCoin internal) :: (if bool_decide (bf = bt) then [] else [mkUndo bt id (UndoCoin internal)])) = []) as ->.
    { rewrite filter_cons. cbn [un_addrDesc]. rewrite decide_False by done. case_bool_decide; [done|]. rewrite filter_cons. cbn [un_addrDesc]. by rewrite decide_False. }
    rewrite filter_app.
    assert (forall idx c o, o <> Some a -> filter (fun ev => ev_addrDesc ev = a) (match o with Some b => [mkEvent b id idx None c true] | None => [] end) = []) as Hnil.
    { intros idx c [b|] Hb; [|done]. rewrite filter_cons, filter_nil. cbn [ev_addrDesc]. by rewrite decide_False by congruence. }
    rewrite !Hnil by done. apply matched_nil.
Qed.

(** ** The token transfers *)

Section Tokens.
Context {V : Vlq} {E : EthChainParser} {EL : EthChainParserLaws E}.

(** A transfer whose addresses cannot be parsed moves nothing. *)
Definition moveOf (t : TokenTransfer) : movement :=
  match transferAddresses t with
  | Ok (contract, from, to) => mkMove contract from to t
  | _ => mkMove ethZeroAddress ethZeroAddress ethZeroAddress (rowTransfer blankContract)
  end.

Definition rowOf (t : TokenTransfer) : ethBlockTxContract := normTransfer (transferRow t).

Lemma transferAddresses_len t c f to : transferAddresses t = Ok (c, f, to) ->
  zlen c = EthereumTypeAddressDescriptorLen /\ zlen f = EthereumTypeAddressDescriptorLen /\ zlen to = EthereumTypeAddressDescriptorLen.
Proof.
  unfold transferAddresses. destruct (GetAddrDescFromAddress (tt_Contract t)) as [c'| |] eqn:E1; cbn [rbind]; [|done..].
  destruct (GetAddrDescFromAddress (tt_From t)) as [f'| |] eqn:E2; cbn [rbind]; [|done..].
  destruct (GetAddrDescFromAddress (tt_To t)) as [to'| |] eqn:E3; cbn [rbind]; [|done..].
  intros [= <- <- <-]. split_and!; by eapply GetAddrDesc_length.
Qed.

Lemma row_of_move t : row_of (rowOf t) (moveOf t).
Proof.
  unfold rowOf, moveOf, transferRow. destruct (transferAddresses t) as [[[c f] to]| |] eqn:Et; [|done..].
  destruct (transferAddresses_len t c f to Et) as (Hc & Hf & Hto). unfold row_of, normTransfer. cbn.
  rewrite !addressBytes_id by done. split_and!; try done. unfold kept_transfer. cbn. split_and!; [done| |].
  - intros ->. done.
  - intros ->. done.
Qed.

(** The events of a transfer at an address are its movement there. *)
Lemma transferEvents_move a id i t cs : plain a -> Z.of_nat i < 2 ^ 31 ->
  foldl stepEv cs (evAt a (transferEvents id (i, t))) = moveAt a (moveOf t) cs.
Proof.
  intros Ha Hi. unfold transferEvents, moveOf. destruct (transferAddresses t) as [[[c f] to]| |].
  2,3: rewrite moveAt_other; [done|]; unfold touching; cbn; rewrite (bool_decide_eq_false_2 (ethZeroAddress = a)) by (destruct Ha; congruence); done.
  assert (i32 (Z.of_nat i) = Z.of_nat i) as Ei by (apply i32_id; unfold is_i32; lia). rewrite Ei.
  unfold moveAt, mv_mutates. cbn [mv_to mv_from mv_transfer mv_contract].
  assert (Hs1 : (Z.of_nat i <? 0) = false) by lia. assert (Hs2 : (Z.lnot (Z.of_nat i) <? 0) = true) by (apply Z.ltb_lt; unfold Z.lnot; lia).
  unfold evAt. rewrite !filter_cons, filter_nil. cbn [ev_addrDesc].
  destruct (decide (to = a)) as [Hto|Hto]; destruct (decide (f = a)) as [Hf|Hf].
  - rewrite (bool_decide_eq_true_2 (to = a)), (bool_decide_eq_true_2 (f = a)) by done. cbn [foldl stepEv ev_contract ev_index ev_addTxCount ev_mutateHoldings].
    unfold stepEv. cbn [ev_contract ev_index ev_addTxCount ev_mutateHoldings]. by rewrite Hs1, Hs2.
  - rewrite (bool_decide_eq_true_2 (to = a)), (bool_decide_eq_false_2 (f = a)) by done. cbn [foldl]. unfold stepEv.
    cbn [ev_contract ev_index ev_addTxCount ev_mutateHoldings]. by rewrite Hs1.
  - rewrite (bool_decide_eq_false_2 (to = a)), (bool_decide_eq_true_2 (f = a)) by done. cbn [foldl]. unfold stepEv.
    cbn [ev_contract ev_index ev_addTxCount ev_mutateHoldings]. by rewrite Hs2.
  - rewrite (bool_decide_eq_false_2 (to = a)), (bool_decide_eq_false_2 (f = a)) by done. done.
Qed.

Lemma opAt_tokenUndos a id c : opAt a (tokenUndos (id, c)) =
  if bool_decide (bc_from c = a) || bool_decide (bc_to c = a) then [mkUndo a id (UndoToken c)] else [].
Proof.
  unfold tokenUndos, sideUndos, opAt. cbn [fst snd]. rewrite filter_cons. cbn [un_addrDesc].
  destruct (decide (bc_from c = a)) as [Hf|Hf].
  - rewrite (bool_decide_eq_true_2 (bc_from c = a)) by done. cbn [orb]. rewrite <- Hf. case_bool_decide as Ht; [done|].
    rewrite filter_cons, filter_nil. cbn [un_addrDesc]. by rewrite decide_False by congruence.
  - rewrite (bool_decide_eq_false_2 (bc_from c = a)) by done. cbn [orb]. case_bool_decide as Ht.
    + rewrite <- Ht. by rewrite (bool_decide_eq_false_2 (bc_from c = a)).
    + rewrite filter_cons, filter_nil. cbn [un_addrDesc]. case_decide as Hta.
      * rewrite (bool_decide_eq_true_2 (bc_to c = a)) by done. by rewrite Hta.
      * by rewrite (bool_decide_eq_false_2 (bc_to c = a)).
Qed.

Lemma tokens_match a id i t : plain a -> Z.of_nat i < 2 ^ 31 ->
  matched (evAt a (transferEvents id (i, t))) (opAt a (tokenUndos (id, rowOf t))).
Proof.
  intros Ha Hi. rewrite opAt_tokenUndos. destruct (row_of_move t) as (_ & Ef & Eto & _). rewrite Ef, Eto. unfold transferEvents, moveOf.
  destruct (transferAddresses t) as [[[c f] to]| |].
  2,3: cbn [mv_from mv_to]; rewrite (bool_decide_eq_false_2 (ethZeroAddress = a)) by (destruct Ha; congruence); apply matched_nil.
  cbn [mv_from mv_to]. unfold evAt. rewrite !filter_cons, filter_nil. cbn [ev_addrDesc].
  destruct (decide (to = a)) as [->|Hto]; destruct (decide (f = a)) as [->|Hf].
  - rewrite !(bool_decide_eq_true_2 (a = a)) by done. split; [done| |intros _; right; by left]. intros x. cbn. set_solver.
  - rewrite (bool_decide_eq_true_2 (a = a)), (bool_decide_eq_false_2 (f = a)) by done. split; [done|done|intros _; right; by left].
  - rewrite (bool_decide_eq_true_2 (a = a)), (bool_decide_eq_false_2 (to = a)) by done. split; [done|done|intros _; right; by left].
  - rewrite (bool_decide_eq_false_2 (f = a)), (bool_decide_eq_false_2 (to = a)) by done. apply matched_nil.
Qed.

(** Operations on tokens, and prefixes of them, as a walk over the rows. *)
Lemma tokens_walk a (l : list (bytes * ethBlockTxContract)) k : exists j, (j <= length l)%nat /\
  forall cs, foldl (undoStep a) cs (take k (opAt a (concat (map tokenUndos l)))) = foldl (fun s c => undoAt a c s) cs (take j (map snd l)).
Proof.
  rewrite opAt_concat. revert k. induction l as [|[id c] l IH]; intros k; [exists 0%nat; split; [done|]; intros cs; cbn; by rewrite take_nil|].
  cbn [map concat length]. rewrite opAt_tokenUndos. destruct (bool_decide (bc_from c = a) || bool_decide (bc_to c = a)) eqn:Et.
  - destruct k as [|k]; [exists 0%nat; split; [lia|done]|]. destruct (IH k) as (j & Hj & Hw). exists (S j). split; [lia|].
    intros cs. cbn [app take foldl snd map]. rewrite Hw. f_equal. unfold undoStep, undoAt. cbn [un_kind]. by rewrite Et.
  - destruct (IH k) as (j & Hj & Hw). exists (S j). split; [lia|]. intros cs. cbn [app take foldl snd map]. rewrite Hw.
    f_equal. unfold undoAt. by rewrite Et.
Qed.

Lemma tokens_walk_all a (l : list (bytes * ethBlockTxContract)) cs :
  foldl (undoStep a) cs (opAt a (concat (map tokenUndos l))) = foldl (fun s c => undoAt a c s) cs (map snd l).
Proof.
  rewrite opAt_concat. revert cs. induction l as [|[id c] l IH]; intros cs; [done|]. cbn [map concat foldl snd].
  rewrite opAt_tokenUndos, foldl_app, IH. f_equal. unfold undoAt. by destruct (_ || _).
Qed.
End Tokens.

Section BlockMatch.
Context {V : Vlq} {VL : VlqLaws V} {E : EthChainParser} {EL : EthChainParserLaws E}.

Lemma descOf_ok text : desc_ok (descOf text).
Proof.
  intros d. unfold descOf. destruct (GetAddrDescFromAddress text) eqn:Eg; [|done..]. intros [= <-]. by eapply GetAddrDesc_length.
Qed.

Lemma txFrom_ok tx : desc_ok (txFrom tx).
Proof. unfold txFrom. destruct (singleAddress _); [apply descOf_ok|done]. Qed.
Lemma txTo_ok tx : desc_ok (txTo tx).
Proof. unfold txTo. destruct (singleAddress _); [apply descOf_ok|done]. Qed.

(** The text of a stored address is read as the address. *)
Lemma addressOf_text b : addressOf (addressText b) = addressBytes b.
Proof. unfold addressOf, descOf. by rewrite (proj2 (addressText_spec b)). Qed.

Lemma parses_text b : parses (addressText b).
Proof. eexists. apply (addressText_spec b). Qed.

(** The internal data of a transaction as they are read back. *)
Definition readInternal (data : EthereumInternalData) : EthereumInternalData := textInternalData (internalRow data).

Lemma readInternal_ok data : internal_ok (Some (readInternal data)).
Proof.
  unfold readInternal, textInternalData, internalRow. cbn. split.
  - destruct (_ =? CREATE); [intros _; apply parses_text|done].
  - rewrite map_map. apply List.Forall_map, Forall_true. intros t. cbn. split; apply parses_text.
Qed.

Lemma transferUndos_read id t : transferUndos id (textInternal (internalTransferRow t))
  = sideUndos id (addressBytes (default [] (descOf (it_From t)))) (addressBytes (default [] (descOf (it_To t)))) (UndoCoin true).
Proof. unfold transferUndos, textInternal, internalTransferRow. cbn. by rewrite !addressOf_text. Qed.

Lemma created_match a id o : plain a -> desc_ok o ->
  matched (evAt a (coinEvent id internalTransferTo true o))
    (opAt a (match o with Some c => [mkUndo (addressBytes c) id (UndoCoin true)] | None => [] end)).
Proof.
  intros Ha Ho. destruct o as [c|]; [|apply matched_nil]. unfold coinEvent, evAt, opAt. rewrite !filter_cons, !filter_nil. cbn [ev_addrDesc un_addrDesc].
  rewrite addressBytes_id by (by apply Ho). case_decide; [|apply matched_nil]. split; [by intros []|done|]. intros _. left. done.
Qed.

Lemma internal_match a id data : plain a ->
  matched (evAt a (internalEvents id data)) (opAt a (internalUndos id (Some (readInternal data)))).
Proof.
  intros Ha. unfold internalEvents, internalUndos, readInternal. rewrite evAt_app, opAt_app. apply matched_app.
  - unfold textInternalData, internalRow. cbn [ed_internalType ed_contract id_Type id_Contract].
    assert (Hc : desc_ok (createdContract data)) by (unfold createdContract; case_match; [apply descOf_ok|done]).
    pose proof (created_match a id (createdContract data) Ha Hc) as M. unfold createdContract in *.
    destruct (id_Type data =? CREATE) eqn:Ec.
    + destruct (descOf (id_Contract data)) as [c|]; cbn [default]; [|exact M].
      change (CREATE =? CREATE) with true. unfold Datatypes.id. by rewrite addressOf_text.
    + rewrite Ec. exact M.
  - unfold textInternalData, internalRow. cbn [ed_transfers id_Transfers]. rewrite map_map, map_map, evAt_concat, opAt_concat.
    apply matched_concat, Forall_true. intros t. rewrite transferUndos_read.
    apply sides_match; [done|apply descOf_ok|apply descOf_ok|done|done].
Qed.

(** ** A transaction *)

Definition coinUndos (id : bytes) (tx : EthTx) : list undoOp :=
  sideUndos id (addressBytes (default [] (txFrom tx))) (addressBytes (default [] (txTo tx))) (UndoCoin false) ++
  internalUndos id (readInternal <$> internalOf tx).

Definition txTokens (id : bytes) (tx : EthTx) : list (bytes * ethBlockTxContract) := map (pair id) (map rowOf (transfersOf tx)).

Definition short (tx : EthTx) : Prop := zlen (transfersOf tx) < 2 ^ 31.

Lemma tx_match a id tx : plain a -> short tx ->
  matched (evAt a (txEvents id tx)) (opAt a (coinUndos id tx ++ concat (map tokenUndos (txTokens id tx)))).
Proof.
  intros Ha Hs. unfold txEvents, coinUndos. rewrite !evAt_app, !opAt_app, <- app_assoc. apply matched_app; [|apply matched_app].
  - apply sides_match; [done|apply txFrom_ok|apply txTo_ok|done|done].
  - destruct (internalOf tx); [by apply internal_match|apply matched_nil].
  - unfold txTokens. rewrite map_map, evAt_concat, opAt_concat, map_map.
    assert (Hgen : forall ts k, Z.of_nat k + zlen ts <= zlen (transfersOf tx) ->
      matched (concat (map (fun x => evAt a (transferEvents id x)) (imap (fun i t => ((k + i)%nat, t)) ts)))
        (concat (map (fun x => opAt a (tokenUndos (id, rowOf x))) ts))).
    { induction ts as [|t ts IH]; intros k Hk; [apply matched_nil|]. rewrite zlen_cons in Hk. pose proof (zlen_nonneg ts). cbn [imap map concat].
      apply matched_app; [apply tokens_match; [done|unfold short in Hs; lia]|].
      rewrite (imap_ext _ (fun i t => ((S k + i)%nat, t))) by (intros; cbn; f_equal; lia). apply IH. lia. }
    specialize (Hgen (transfersOf tx) 0%nat). cbn [Nat.add] in Hgen. apply Hgen. lia.
Qed.

(** The events take the contracts through the same lists as the movements do. *)
Definition follows (a : bytes) (evs : list ethEvent) (vs : list movement) : Prop :=
  forall cs j, exists n, foldl stepEv cs (take n evs) = foldl (fun s v => moveAt a v s) cs (take j vs)
    /\ ((length vs <= j)%nat -> (length evs <= n)%nat).

Lemma follows_all a evs vs cs : follows a evs vs -> foldl stepEv cs evs = foldl (fun s v => moveAt a v s) cs vs.
Proof.
  intros H. destruct (H cs (length vs)) as (n & E1 & E2). rewrite firstn_all in E1. rewrite take_ge in E1 by auto. done.
Qed.

Lemma follows_app a e1 e2 v1 v2 : follows a e1 v1 -> follows a e2 v2 -> follows a (e1 ++ e2) (v1 ++ v2).
Proof.
  intros H1 H2 cs j. destruct (decide (j < length v1)%nat) as [Hj|Hj].
  - destruct (H1 cs j) as (n & E1 & _). exists (Nat.min n (length e1)). rewrite length_app. split; [|lia].
    rewrite !take_app_le by lia. rewrite <- E1. f_equal. by rewrite <- take_take, firstn_all.
  - destruct (H2 (foldl (fun s v => moveAt a v s) cs v1) (j - length v1)%nat) as (n & E1 & E2).
    exists (length e1 + n)%nat. rewrite !length_app. split; [|lia].
    rewrite take_app_add, take_app, (take_ge v1) by lia. rewrite !foldl_app, (follows_all _ _ _ _ H1). done.
Qed.

Lemma follows_coins a evs : Forall (fun ev => ev_contract ev = None) evs -> follows a (evAt a evs) [].
Proof.
  intros Hn cs j. exists (length (evAt a evs)). split; [|lia]. rewrite firstn_all, take_nil. cbn [foldl]. unfold evAt.
  induction Hn as [|ev evs Hev _ IH]; [done|]. rewrite filter_cons. case_decide; [|done]. cbn [foldl].
  unfold stepEv at 2. by rewrite Hev.
Qed.

Lemma follows_transfer a id i t : plain a -> Z.of_nat i < 2 ^ 31 -> follows a (evAt a (transferEvents id (i, t))) [moveOf t].
Proof.
  intros Ha Hi cs [|j]; [by exists 0%nat; split; [|cbn; lia]|]. exists (length (evAt a (transferEvents id (i, t)))). split; [|lia].
  rewrite firstn_all. cbn [take]. rewrite take_nil. cbn [foldl]. by apply transferEvents_move.
Qed.

Lemma coinEvent_plain i idx c o : Forall (fun ev => ev_contract ev = None) (coinEvent i idx c o).
Proof. destruct o; by repeat constructor. Qed.

Lemma tx_follows a id tx : plain a -> short tx -> follows a (evAt a (txEvents id tx)) (map moveOf (transfersOf tx)).
Proof.
  intros Ha Hs. unfold txEvents. rewrite !evAt_app. change (map moveOf (transfersOf tx)) with ([] ++ [] ++ map moveOf (transfersOf tx)).
  apply follows_app; [|apply follows_app].
  - apply follows_coins. unfold baseEvents, sideEvents. apply Forall_app. split; apply coinEvent_plain.
  - apply follows_coins. destruct (internalOf tx); [|done]. unfold internalEvents. apply Forall_app. split; [apply coinEvent_plain|].
    apply Forall_concat, List.Forall_map, Forall_true. intros t. unfold sideEvents. apply Forall_app. split; apply coinEvent_plain.
  - rewrite evAt_concat.
    assert (Hgen : forall ts k, Z.of_nat k + zlen ts <= zlen (transfersOf tx) ->
      follows a (concat (map (fun x => evAt a (transferEvents id x)) (imap (fun i t => ((k + i)%nat, t)) ts))) (map moveOf ts)).
    { induction ts as [|t ts IH]; intros k Hk; [by intros cs j; exists 0%nat; split; [destruct j|cbn; lia]|].
      rewrite zlen_cons in Hk. pose proof (zlen_nonneg ts). cbn [imap map concat].
      apply (follows_app _ _ _ [moveOf t]); [apply follows_transfer; [done|unfold short in Hs; lia]|].
      rewrite (imap_ext _ (fun i t => ((S k + i)%nat, t))) by (intros; cbn; f_equal; lia). apply IH. lia. }
    specialize (Hgen (transfersOf tx) 0%nat). cbn [Nat.add] in Hgen. apply Hgen. lia.
Qed.

(** ** A block *)

(** The rows of the block as they are read back, and its transfers in order. *)
Definition readRows (ids : list bytes) (txs : list EthTx) : list ethBlockTx := map normTx (blockRows ids txs).
Definition blockTransfers (txs : list EthTx) : list TokenTransfer := concat (map transfersOf txs).

(** [internals] answers with the internal data of the block. *)
Definition answers (internals : bytes -> option EthereumInternalData) (ids : list bytes) (txs : list EthTx) : Prop :=
  Forall2 (fun id tx => internals id = readInternal <$> internalOf tx) ids txs.

Lemma txUndos_read internals id tx : internals id = readInternal <$> internalOf tx ->
  txUndos internals (normTx (blockTxOf id tx)) = coinUndos id tx.
Proof. intros Hi. unfold txUndos, coinUndos. cbn. by rewrite Hi. Qed.

Definition allTransfers (rows : list ethBlockTx) : list (bytes * ethBlockTxContract) :=
  concat (map (fun t => map (pair (ebt_btxID t)) (ebt_contracts t)) rows).

Lemma reversedTransfers_spec rows : reversedTransfers rows = reverse (allTransfers rows).
Proof.
  unfold reversedTransfers, allTransfers. induction rows as [|t rows IH]; [done|]. cbn [map concat].
  rewrite reverse_cons, map_app, concat_app. cbn [map concat]. rewrite app_nil_r, reverse_app, IH. f_equal.
  rewrite !fmap_map. by rewrite fmap_reverse.
Qed.

Lemma opAt_perm a o1 o2 : o1 ≡ₚ o2 -> opAt a o1 ≡ₚ opAt a o2.
Proof. intros Hp. unfold opAt. by rewrite Hp. Qed.

(** Everything a block does to an address is in the operations of its disconnection. *)
Lemma block_match a internals ids txs : plain a -> Forall short txs -> answers internals ids txs ->
  matched (evAt a (blockEvents ids txs)) (opAt a (blockUndos internals (readRows ids txs))).
Proof.
  intros Ha Hs Hi. unfold blockUndos.
  apply (matched_perm _ (opAt a (concat (map (txUndos internals) (readRows ids txs)) ++ concat (map tokenUndos (allTransfers (readRows ids txs)))))).
  { apply opAt_perm. f_equiv. apply concat_perm, Permutation_map. rewrite reversedTransfers_spec. symmetry. apply reverse_Permutation. }
  apply (matched_perm _ (opAt a (concat (zip_with (fun id tx => coinUndos id tx ++ concat (map tokenUndos (txTokens id tx))) ids txs)))).
  { apply opAt_perm. unfold readRows, blockRows, allTransfers. clear Hs. induction Hi as [|id tx ids txs Htx Hi IH]; [done|].
    cbn [zip_with map concat]. rewrite (txUndos_read _ _ _ Htx). rewrite map_app, concat_app. cbn [normTx ebt_contracts ebt_btxID blockTxOf].
    change (map (pair id) (map normTransfer (map transferRow (transfersOf tx)))) with (map (pair id) (map normTransfer (map transferRow (transfersOf tx)))).
    rewrite (map_map transferRow normTransfer). change (map (fun x => normTransfer (transferRow x)) (transfersOf tx)) with (map rowOf (transfersOf tx)).
    fold (txTokens id tx). rewrite <- !app_assoc. f_equiv. rewrite IH. rewrite !app_assoc. f_equiv. apply Permutation_app_comm. }
  clear Hi. unfold blockEvents. revert txs Hs. induction ids as [|id ids IH]; intros txs Hs; [by apply matched_nil|].
  destruct txs as [|tx txs]; [apply matched_nil|]. apply Forall_cons in Hs as [Hs Hss]. cbn [zip_with concat]. rewrite evAt_app, opAt_app.
  apply matched_app; [by apply tx_match|by apply IH].
Qed.

Lemma block_follows a ids txs : plain a -> Forall short txs -> length ids = length txs ->
  follows a (evAt a (blockEvents ids txs)) (map moveOf (blockTransfers txs)).
Proof.
  intros Ha Hs. unfold blockEvents, blockTransfers. revert txs Hs. induction ids as [|id ids IH]; intros [|tx txs] Hs Hl; try done.
  - intros cs j. exists 0%nat. by destruct j.
  - apply Forall_cons in Hs as [Hs Hss]. cbn [zip_with map concat]. rewrite evAt_app, map_app. apply follows_app; [by apply tx_follows|].
    apply IH; [done|]. by injection Hl.
Qed.

Lemma readRows_transfers ids txs : length ids = length txs -> map snd (allTransfers (readRows ids txs)) = map rowOf (blockTransfers txs).
Proof.
  unfold allTransfers, readRows, blockRows, blockTransfers. revert txs. induction ids as [|id ids IH]; intros [|tx txs] Hl; try done.
  cbn [zip_with map concat]. rewrite !map_app. f_equal; [|apply IH; by injection Hl].
  cbn [normTx ebt_contracts ebt_btxID blockTxOf]. rewrite map_map, map_id, map_map. done.
Qed.

Lemma rows_of_moves ts : Forall2 row_of (map rowOf ts) (map moveOf ts).
Proof. induction ts as [|t ts IH]; constructor; [apply row_of_move|done]. Qed.

(** The operations on the coin leave the contracts alone. *)
Definition coinOp (op : undoOp) : Prop := match un_kind op with UndoCoin _ => True | UndoToken _ => False end.

Lemma sideUndos_coin id f to b : Forall coinOp (sideUndos id f to (UndoCoin b)).
Proof. unfold sideUndos. case_bool_decide; by repeat constructor. Qed.

Lemma txUndos_coin internals t : Forall coinOp (txUndos internals t).
Proof.
  unfold txUndos. apply Forall_app. split; [apply sideUndos_coin|]. destruct (internals (ebt_btxID t)) as [data|]; [|done].
  cbn [internalUndos]. apply Forall_app. split; [case_match; by repeat constructor|].
  apply Forall_concat, List.Forall_map, Forall_true. intros t'. apply sideUndos_coin.
Qed.

Lemma coins_keep a ops cs : Forall coinOp ops -> foldl (undoStep a) cs ops = cs.
Proof. intros Hk. revert cs. induction Hk as [|op ops Hop _ IH]; intros cs; [done|]. cbn [foldl]. rewrite IH. unfold undoStep, coinOp in *. by destruct (un_kind op). Qed.

Definition coinOps (a : bytes) (internals : bytes -> option EthereumInternalData) (rows : list ethBlockTx) : list undoOp :=
  opAt a (concat (map (txUndos internals) rows)).

Lemma coinOps_coin a internals rows n : Forall coinOp (take n (coinOps a internals rows)).
Proof.
  apply Forall_take. unfold coinOps, opAt. apply Forall_forall. intros op [_ Hop]%list_elem_of_filter. revert op Hop. apply Forall_forall.
  apply Forall_concat, List.Forall_map, Forall_true. intros t. apply txUndos_coin.
Qed.

Lemma reversed_rows ids txs : length ids = length txs ->
  map snd (reverse (allTransfers (readRows ids txs))) = reverse (map rowOf (blockTransfers txs)).
Proof. intros Hl. rewrite <- (readRows_transfers ids txs Hl), !fmap_map. by rewrite fmap_reverse. Qed.

(** The contracts of an address on the way back. *)
Lemma block_unmoves a internals ids txs cs k : plain a -> length ids = length txs ->
  contracts_inv cs -> all_reversible a (map moveOf (blockTransfers txs)) cs ->
  exists j, foldl (undoStep a) (foldl (fun s v => moveAt a v s) cs (map moveOf (blockTransfers txs)))
      (take k (opAt a (blockUndos internals (readRows ids txs)))) = foldl (fun s v => moveAt a v s) cs (take j (map moveOf (blockTransfers txs)))
    /\ contracts_inv (foldl (fun s v => moveAt a v s) cs (take j (map moveOf (blockTransfers txs)))).
Proof.
  intros Ha Hl Hinv Hrev. unfold blockUndos. rewrite opAt_app. fold (coinOps a internals (readRows ids txs)).
  rewrite take_app, foldl_app, (coins_keep a (take k _)) by apply coinOps_coin. rewrite reversedTransfers_spec.
  destruct (tokens_walk a (reverse (allTransfers (readRows ids txs))) (k - length (coinOps a internals (readRows ids txs)))) as (j & Hj & Hw).
  rewrite Hw, reversed_rows by done.
  assert (length (allTransfers (readRows ids txs)) = length (map rowOf (blockTransfers txs))) as Hlen.
  { rewrite <- (readRows_transfers ids txs Hl). by rewrite length_map. }
  rewrite length_reverse, Hlen in Hj.
  destruct (undo_transfers a _ _ cs Hinv Hrev (rows_of_moves (blockTransfers txs)) j Hj) as [E1 E2].
  eexists. split; [exact E1|exact E2].
Qed.

Lemma block_unmoves_all a internals ids txs cs : plain a -> length ids = length txs ->
  contracts_inv cs -> all_reversible a (map moveOf (blockTransfers txs)) cs ->
  foldl (undoStep a) (foldl (fun s v => moveAt a v s) cs (map moveOf (blockTransfers txs)))
      (opAt a (blockUndos internals (readRows ids txs))) = cs.
Proof.
  intros Ha Hl Hinv Hrev. unfold blockUndos. rewrite opAt_app. fold (coinOps a internals (readRows ids txs)).
  rewrite foldl_app, (coins_keep a (coinOps a internals (readRows ids txs))).
  2: { rewrite <- (firstn_all (coinOps a internals (readRows ids txs))). apply coinOps_coin. }
  rewrite reversedTransfers_spec, tokens_walk_all, reversed_rows by done.
  destruct (undo_transfers a _ _ cs Hinv Hrev (rows_of_moves (blockTransfers txs)) _ (le_n _)) as [E1 _].
  revert E1. rewrite <- length_reverse, firstn_all, length_reverse, length_map, <- (length_map moveOf), Nat.sub_diag.
  intros ->. done.
Qed.
End BlockMatch.
