(* ===== verification/EthRestore.v ===== *)
(** Disconnecting the block that was connected last restores the rows of all addresses of an
    Ethereum-type coin ([reorg_restores]): their counters, their contracts in order and their
    holdings; only the zero address is apart. *)

From S2P Require Import Prelude Codec Parser TxAddr Balance IndexCodec Store GoSort EthTokens EthContracts EthIndex EthParser EthRows EthContractInfo EthAliases EthState EthRegistry EthConnect EthEvents EthConnectCorrect EthBlock EthBlockCorrect EthDisconnect EthUndo EthDisconnectCorrect EthReorg.

Local Open Scope Z_scope.

(** ** One address *)

Section Row.
Context {V : Vlq} {VL : VlqLaws V} {E : EthChainParser} {EL : EthChainParserLaws E}.

Lemma events_fit_row l evs a : events_fit l evs -> row_events_fit (default noContracts (lg_contracts l !! a), idsAt l a) (evAt a evs).
Proof.
  revert l. induction evs as [|ev evs IH]; intros l Hf; [done|]. destruct Hf as (_ & Hok & Hf). unfold evAt. rewrite filter_cons.
  fold (evAt a evs). specialize (IH _ Hf). pose proof (applyEvent_at l ev a) as H. cbv zeta in H.
  destruct (decide (ev_addrDesc ev = a)) as [Ha|Ha]; destruct H as [H1 H2]; rewrite H1, H2 in IH; [|done].
  cbn [row_events_fit]. rewrite Ha in Hok. split; [by apply Hok|]. cbn [default] in IH. by destruct (rowEvent _ ev).
Qed.

Lemma row_events_fit_take s evs n : row_events_fit s evs -> row_events_fit s (take n evs).
Proof.
  revert s n. induction evs as [|ev evs IH]; intros s n Hf; [by rewrite take_nil|]. destruct n as [|n]; [done|]. destruct Hf as [H1 H2].
  split; [done|]. by apply IH.
Qed.

Lemma stepContract_length contract t neg c mu cs : (length cs <= length (stepContract contract t neg c mu cs))%nat
  /\ (0 < length (stepContract contract t neg c mu cs))%nat.
Proof.
  unfold stepContract. rewrite length_alter. unfold withContract. case_bool_decide as Hin; [|rewrite length_app; cbn; lia].
  destruct cs; [by apply elem_of_nil in Hin|cbn; lia].
Qed.

Lemma moveAt_length a v cs : (length cs <= length (moveAt a v cs))%nat.
Proof.
  unfold moveAt. cbv zeta. transitivity (length (if bool_decide (mv_to v = a)
    then stepContract (mv_contract v) (mv_transfer v) false true (mv_mutates v) cs else cs)).
  - case_bool_decide; [apply stepContract_length|done].
  - set (cs1 := if bool_decide (mv_to v = a) then _ else _). case_bool_decide; [apply stepContract_length|done].
Qed.

Lemma moves_length a vs cs : (length cs <= length (foldl (fun s v => moveAt a v s) cs vs))%nat.
Proof. revert cs. induction vs as [|v vs IH]; intros cs; [done|]. cbn [foldl]. etrans; [apply (moveAt_length a v)|apply IH]. Qed.

Lemma stepEv_length cs ev : (length cs <= length (stepEv cs ev))%nat.
Proof. unfold stepEv. destruct (ev_contract ev) as [[c t]|]; [apply stepContract_length|done]. Qed.

Lemma stepEvs_length evs cs : (length cs <= length (foldl stepEv cs evs))%nat
  /\ (Exists (fun ev => ev_contract ev <> None) evs -> (0 < length (foldl stepEv cs evs))%nat).
Proof.
  revert cs. induction evs as [|ev evs IH]; intros cs; [split; [done|by intros ?%Exists_nil]|]. cbn [foldl].
  destruct (IH (stepEv cs ev)) as [H1 H2]. split; [etrans; [apply (stepEv_length cs ev)|done]|].
  intros [Hev|Hev]%Exists_cons; [|auto]. eapply Nat.lt_le_trans; [|exact H1]. unfold stepEv.
  destruct (ev_contract ev) as [[c t]|]; [apply stepContract_length|done].
Qed.

(** What is known of an address the block touches. *)
Record row_facts (a : bytes) (x0 : AddrContracts) (evs : list ethEvent) (vs : list movement) (ops : list undoOp) : Prop := {
  rf_plain : Forall (fun ev => isZeroAddress (ev_addrDesc ev) = false) evs;
  rf_stored : stored_ok x0;
  rf_fit : row_events_fit (x0, ∅) evs;
  rf_matched : matched evs ops;
  rf_follows : follows a evs vs;
  rf_prefix k : exists j, foldl (undoStep a) (foldl (fun s v => moveAt a v s) (acs_Contracts x0) vs) (take k ops)
    = foldl (fun s v => moveAt a v s) (acs_Contracts x0) (take j vs);
  rf_all : foldl (undoStep a) (foldl (fun s v => moveAt a v s) (acs_Contracts x0) vs) ops = acs_Contracts x0;
}.

Section Facts.
Context {a : bytes} {x0 : AddrContracts} {evs : list ethEvent} {vs : list movement} {ops : list undoOp}.
Context (F : row_facts a x0 evs vs ops).

Let x1 : AddrContracts := (foldl rowEvent (x0, ∅) evs).1.

Lemma row_after : stored_ok x1 /\ acs_NonContractTxs x1 = acs_NonContractTxs x0 + sumZ (coinCount false) evs
  /\ acs_InternalTxs x1 = acs_InternalTxs x0 + sumZ (coinCount true) evs
  /\ acs_TotalTxs x1 = acs_TotalTxs x0 + fresh ∅ (map ev_btxID evs)
  /\ acs_Contracts x1 = foldl (fun s v => moveAt a v s) (acs_Contracts x0) vs.
Proof.
  destruct (rowEvents_fields evs x0 ∅ (rf_plain _ _ _ _ _ F) (rf_stored _ _ _ _ _ F) (rf_fit _ _ _ _ _ F)) as (H0 & H1 & H2 & H3 & H4).
  rewrite (follows_all a evs vs) in H4 by apply F. done.
Qed.

Lemma row_shown : evs <> [] -> droppable x1 = false.
Proof.
  intros Hne. destruct row_after as (_ & Hn & Hi & _ & Hc). destruct (rf_stored _ _ _ _ _ F) as ((_ & [Hn0 _] & [Hi0 _] & _) & _).
  pose proof (coins_nonneg false evs). pose proof (coins_nonneg true evs).
  unfold droppable. destruct (mt_shown _ _ (rf_matched _ _ _ _ _ F) Hne) as [Hs|Hs]; [lia|].
  rewrite <- (follows_all a evs vs) in Hc by apply F. apply (stepEvs_length evs (acs_Contracts x0)) in Hs. rewrite <- Hc in Hs.
  unfold zlen. lia.
Qed.

Lemma counters_covered : counters_cover x1 ∅ ops.
Proof.
  destruct row_after as (((Ht & Hn & Hi & _) & _) & En & Ei & Et & _). destruct (rf_stored _ _ _ _ _ F) as ((Ht0 & Hn0 & Hi0 & _) & _).
  unfold is_u64 in *. unfold counters_cover. rewrite <- !(mt_coins _ _ (rf_matched _ _ _ _ _ F)).
  rewrite (fresh_same ∅ (map un_btxID ops) (map ev_btxID evs)) by (intros i; symmetry; apply (mt_ids _ _ (rf_matched _ _ _ _ _ F))).
  lia.
Qed.

Lemma counters_cover_take x seen l k : counters_cover x seen l -> counters_cover x seen (take k l).
Proof.
  intros (H1 & H2 & H3). unfold counters_cover. pose proof (sumZ_take (coinUndoCount false) l k (coinUndoCount_nonneg false)).
  pose proof (sumZ_take (coinUndoCount true) l k (coinUndoCount_nonneg true)).
  assert (fresh seen (map un_btxID (take k l)) <= fresh seen (map un_btxID l)).
  { apply fresh_mono. intros i. rewrite !list_elem_of_fmap. intros (op & -> & Hop). exists op. split; [done|]. revert Hop. apply subseteq_take. }
  lia.
Qed.

(** On the way back the row stays within its bounds, and above the row before the block. *)
Lemma row_back k : let x := (foldl (rowUndo a) (x1, ∅) (take k ops)).1 in
  stored_ok x /\ (droppable x0 = false -> droppable x = false).
Proof.
  intros x. destruct (rowUndos_fields a (take k ops) x1 ∅ (counters_cover_take _ _ _ _ counters_covered)) as (Gn & Gi & Gt & Gc).
  fold x in Gn, Gi, Gt, Gc. destruct (counters_cover_take _ _ _ k counters_covered) as (C1 & C2 & C3).
  destruct row_after as (((Ht & Hn & Hi & _) & _ & Ct & Cn & Ci) & En & Ei & Et & Ec). unfold is_u64 in *.
  pose proof (sumZ_take (coinUndoCount false) ops k (coinUndoCount_nonneg false)) as S1.
  pose proof (sumZ_take (coinUndoCount true) ops k (coinUndoCount_nonneg true)) as S2.
  rewrite <- (mt_coins _ _ (rf_matched _ _ _ _ _ F)) in S1, S2.
  assert (0 <= fresh ∅ (map un_btxID (take k ops))) as S3 by apply Zle_0_nat.
  rewrite Ec in Gc. destruct (rf_prefix _ _ _ _ _ F k) as (j & Hj). rewrite Hj in Gc.
  destruct (rf_follows _ _ _ _ _ F (acs_Contracts x0) j) as (n & En' & _).
  pose proof (row_events_fit_take _ _ n (rf_fit _ _ _ _ _ F)) as Hfn.
  destruct (rowEvents_fields (take n evs) x0 ∅ (Forall_take _ _ _ (rf_plain _ _ _ _ _ F)) (rf_stored _ _ _ _ _ F) Hfn) as (N0 & _ & _ & _ & N4).
  rewrite En', <- Gc in N4. destruct N0 as ((_ & _ & _ & N1 & N2) & N3 & _). rewrite N4 in N1, N2, N3.
  split.
  - split; [|split; [done|]]; [unfold contracts_ok, is_u64; split_and!; try lia; try done|unfold counters_ok; lia].
  - destruct (rf_stored _ _ _ _ _ F) as ((_ & [Hn0 _] & [Hi0 _] & _) & _).
    pose proof (moves_length a (take j vs) (acs_Contracts x0)) as Hl. rewrite <- Gc in Hl. unfold droppable, zlen. lia.
Qed.

(** All the way back is the row before the block. *)
Lemma row_restored : (foldl (rowUndo a) (x1, ∅) ops).1 = x0.
Proof.
  destruct (rowUndos_fields a ops x1 ∅ counters_covered) as (Gn & Gi & Gt & Gc). destruct row_after as (_ & En & Ei & Et & Ec).
  rewrite Ec, (rf_all _ _ _ _ _ F) in Gc. rewrite <- (mt_coins _ _ (rf_matched _ _ _ _ _ F)) in Gn, Gi.
  rewrite (fresh_same ∅ (map un_btxID ops) (map ev_btxID evs)) in Gt by (intros i; symmetry; apply (mt_ids _ _ (rf_matched _ _ _ _ _ F))).
  destruct (foldl (rowUndo a) (x1, ∅) ops).1 as [t n i cs]. destruct x0 as [t0 n0 i0 cs0]. cbn in *. f_equal; lia || done.
Qed.
End Facts.
End Row.

(** ** A block *)

Section Reorg.
Context {V : Vlq} {VL : VlqLaws V} {E : EthChainParser} {EL : EthChainParserLaws E} {AL : AliasParser} {IX : IndexOpts}.
Context {K : KV} {KL : KVLaws K} {CO : EthCacheOpts}.
Implicit Types (st : EthState K) (m : gmap bytes AddrContracts).

(** The internal data of the transactions of the block as they are read back. *)
Definition internalsOf (ids : list bytes) (txs : list EthTx) (id : bytes) : option EthereumInternalData :=
  (list_to_map (zip ids txs) : gmap bytes EthTx) !! id ≫= fun tx => readInternal <$> internalOf tx.

Lemma internalsOf_answers ids txs : NoDup ids -> length ids = length txs -> answers (internalsOf ids txs) ids txs.
Proof.
  intros Hn Hl. apply Forall2_same_length_lookup. split; [done|]. intros i id tx Hi Ht. unfold internalsOf.
  rewrite (elem_of_list_to_map_1 _ id tx); [done| |].
  - rewrite fst_zip by lia. done.
  - apply list_elem_of_lookup. exists i. rewrite lookup_zip_with, Hi. cbn. by rewrite Ht.
Qed.

(** The operations of the disconnection. *)
Definition undoOps (ids : list bytes) (txs : list EthTx) : list undoOp := blockUndos (internalsOf ids txs) (readRows ids txs).

Definition wide (op : undoOp) : Prop := zlen (un_addrDesc op) = EthereumTypeAddressDescriptorLen.

Lemma sideUndos_wide id f to k : zlen f = EthereumTypeAddressDescriptorLen -> zlen to = EthereumTypeAddressDescriptorLen ->
  Forall wide (sideUndos id f to k).
Proof. intros. unfold sideUndos. case_bool_decide; by repeat constructor. Qed.

Lemma undoOps_wide ids txs : Forall wide (undoOps ids txs).
Proof.
  unfold undoOps, blockUndos. apply Forall_app. split.
  - apply Forall_concat, List.Forall_map, Forall_forall. intros t Ht. unfold txUndos. apply Forall_app. split.
    + unfold readRows in Ht. apply list_elem_of_fmap in Ht as (t0 & -> & _). apply sideUndos_wide; apply zlen_addressBytes.
    + unfold internalsOf. destruct (_ !! _) as [tx|]; cbn [mbind option_bind]; [|done]. destruct (internalOf tx) as [data|]; [|done].
      cbn [fmap option_fmap option_map internalUndos]. apply Forall_app. split.
      * unfold readInternal, textInternalData. cbn [id_Type id_Contract]. destruct (ed_internalType _ =? CREATE); [|done].
        cbn [Z.eqb]. change (CREATE =? CREATE) with true. constructor; [|done]. unfold wide. cbn. rewrite addressOf_text. apply zlen_addressBytes.
      * unfold readInternal, textInternalData, internalRow. cbn [id_Transfers ed_transfers]. rewrite map_map, map_map.
        apply Forall_concat, List.Forall_map, Forall_true. intros t'. rewrite transferUndos_read. apply sideUndos_wide; apply zlen_addressBytes.
  - apply Forall_concat, List.Forall_map, Forall_forall. intros [id c] Hc. rewrite reversedTransfers_spec in Hc.
    rewrite elem_of_reverse, list_elem_of_In in Hc.
    unfold allTransfers in Hc. apply in_concat in Hc as (l & Hl & Hc). apply in_map_iff in Hl as (t & <- & Ht).
    apply in_map_iff in Hc as (c' & [= <- <-] & Hc). unfold readRows in Ht. apply in_map_iff in Ht as (t0 & <- & _).
    unfold normTx in Hc. cbn [ebt_contracts] in Hc. apply in_map_iff in Hc as (c0 & <- & _).
    unfold tokenUndos. cbn [fst snd]. apply sideUndos_wide; apply zlen_addressBytes.
Qed.

(** A block that is connected and can be disconnected again. The addresses that the block brings
    into the index are not in the cache and not large enough for it; the transfers of tokens can
    be reversed; the row of the zero address covers what is taken from it. *)
Record reorgable (block : EthBlock) (ids : list bytes) st m st1 : Prop := {
  rb_connectable : connectable block ids st m;
  rb_height : 1 <= eb_Height block < 2 ^ 32 - 1;
  rb_ids : NoDup ids;
  rb_rowsok : Forall ebt_ok (blockRows ids (eb_Txs block));
  rb_short : Forall short (eb_Txs block);
  rb_internal : Forall (fun tx => forall data, internalOf tx = Some data -> eid_ok (internalRow data)) (eb_Txs block);
  rb_fresh : Forall (fun id => getEthereumInternalData (es_db st) id = Ok None) ids;
  rb_inv a x : m !! a = Some x -> contracts_inv (acs_Contracts x);
  rb_reversible a : plain a -> all_reversible a (map moveOf (blockTransfers (eb_Txs block))) (acs_Contracts (default noContracts (m !! a)));
  rb_readable : forall k, exists o, pureLoad (es_db st1) k = Ok o;
  rb_gen : 0 <= rg_reorgGen (es_registry st1) < 2 ^ 64 - 1;
  rb_cached a : plain a -> cacheable st1 (prune (lg_contracts (afterBlock m ids block))) a -> is_Some (m !! a);
  rb_zero x : prune (lg_contracts (afterBlock m ids block)) !! ethZeroAddress = Some x ->
    let ops := opAt ethZeroAddress (undoOps ids (eb_Txs block)) in
    acs_Contracts x = [] /\ counters_cover x ∅ ops /\ sumZ (coinUndoCount false) ops < acs_NonContractTxs x;
}.

Lemma rests_row st m a x : rests st m -> m !! a = Some x -> stored_ok x /\ droppable x = false.
Proof.
  intros [Hag Hac] Hx. split; [by eapply agrees_stored|]. destruct Hag as (_ & [_ Hk] & Hs). destruct (Hs a) as [_ Hl]; [tauto|].
  unfold live in Hl. rewrite Hac, lookup_empty in Hl. cbn in Hl. rewrite Hx in Hl. destruct (es_cache st !! a) eqn:Ec.
  - destruct (Hk a) as (y & Hy & Hd); [by rewrite Ec|]. cbn in Hy. congruence.
  - apply Hl.
Qed.

(** The addresses of the operations. *)
Lemma applyUndos_dom l s a : zlen a <> 0 -> a ∈ dom s.2 \/ a ∈ map un_addrDesc l -> a ∈ dom (foldl applyUndo s l).2.
Proof.
  intros Ha. revert s. induction l as [|op l IH]; intros s; cbn [map foldl].
  - intros [?|?%elem_of_nil]; done.
  - intros H. apply IH. destruct s as [m' adrs]. unfold applyUndo. destruct (Z.eqb_spec (zlen (un_addrDesc op)) 0) as [Hz|Hz]; cbn [snd] in *.
    + destruct H as [?|[->|?]%elem_of_cons]; [by left|done|by right].
    + rewrite dom_insert_L. destruct H as [?|[->|?]%elem_of_cons]; [left; set_solver|left; set_solver|by right].
Qed.

Lemma packInternal_nonempty data : zlen (packEthInternalData data) <> 0.
Proof.
  unfold packEthInternalData. rewrite (foldl_appends _ encInternal) by (intros; apply packInternalTransfer_app).
  pose proof (zlen_packVaruint (u64 (Z.land (u64 (ed_internalType data)) 1 + u64 (Z.shiftl (zlen (ed_transfers data)) 1))) (u64_range _)) as Hp.
  rewrite !zlen_app. pose proof (zlen_nonneg (concat (map encInternal (ed_transfers data)))). pose proof (zlen_nonneg (ed_errorMsg data)).
  destruct (_ =? CREATE); [|lia]. rewrite appendAddress_app, zlen_app. pose proof (zlen_nonneg (addressBytes (ed_contract data))). lia.
Qed.

(** The row of the zero address has no contracts and enough transactions. *)
Lemma zero_back a x l k : stored_ok x -> acs_Contracts x = [] -> counters_cover x ∅ l -> sumZ (coinUndoCount false) l < acs_NonContractTxs x ->
  let x' := (foldl (rowUndo a) (x, ∅) (take k l)).1 in forall P : Prop, stored_ok x' /\ (P -> droppable x' = false).
Proof.
  intros Hok Hc Hcov Hpos x' P. destruct (rowUndos_fields a (take k l) x ∅ (counters_cover_take _ _ _ k Hcov)) as (Gn & Gi & Gt & Gc).
  fold x' in Gn, Gi, Gt, Gc. destruct (counters_cover_take _ _ _ k Hcov) as (C1 & C2 & C3).
  destruct Hok as ((Ht & Hn & Hi & _) & _ & Ct & Cn & Ci). unfold is_u64 in *.
  pose proof (sumZ_take (coinUndoCount false) l k (coinUndoCount_nonneg false)) as S1.
  pose proof (sumZ_take (coinUndoCount true) l k (coinUndoCount_nonneg true)) as S2.
  assert (0 <= fresh ∅ (map un_btxID (take k l))) as S3 by apply Zle_0_nat.
  assert (acs_Contracts x' = []) as Ec.
  { rewrite Gc, Hc. generalize (take k l). intros l0. induction l0 as [|op l0 IH]; [done|]. cbn [foldl]. unfold undoStep at 2.
    by destruct (un_kind op). }
  split; [|intros _; unfold droppable; lia]. unfold stored_ok, contracts_ok, counters_ok, is_u64. rewrite Ec. change (zlen []) with 0. split_and!; try lia. constructor.
Qed.

Section Block.
Context (block : EthBlock) (ids : list bytes) (st st1 : EthState K) (m : gmap bytes AddrContracts).
Context (R : reorgable block ids st m st1) (C : connected block ids m (es_db st) st1).

Notation evs := (blockEvents ids (eb_Txs block)).
Notation ops := (undoOps ids (eb_Txs block)).
Notation m1 := (prune (lg_contracts (afterBlock m ids block))).

Lemma ids_length : length ids = length (eb_Txs block).
Proof. symmetry. eapply Forall2_length, (cb_ids _ _ _ _ (rb_connectable _ _ _ _ _ R)). Qed.

Lemma before_ok a : stored_ok (default noContracts (m !! a)) /\ contracts_inv (acs_Contracts (default noContracts (m !! a))).
Proof.
  destruct (m !! a) as [x|] eqn:Ex; cbn [default]; unfold Datatypes.id.
  - split; [by eapply rests_row; [apply (cb_rests _ _ _ _ (rb_connectable _ _ _ _ _ R))|]|by apply (rb_inv _ _ _ _ _ R a)].
  - split; [apply (bool_decide_eq_true_1 (stored_ok noContracts)); vm_compute; reflexivity|]. split; constructor.
Qed.

Lemma block_row_facts a : plain a ->
  row_facts a (default noContracts (m !! a)) (evAt a evs) (map moveOf (blockTransfers (eb_Txs block))) (opAt a ops).
Proof.
  intros Ha. destruct (before_ok a) as [Hs Hi]. pose proof (rb_short _ _ _ _ _ R) as Hsh. pose proof ids_length as Hl.
  pose proof (internalsOf_answers ids _ (rb_ids _ _ _ _ _ R) Hl) as Hans. pose proof (rb_reversible _ _ _ _ _ R a Ha) as Hr. constructor.
  - apply Forall_forall. unfold evAt. intros ev [<- _]%list_elem_of_filter. by apply plain_nonzero.
  - done.
  - exact (events_fit_row (mkLedger m ∅) evs a (cb_fit _ _ _ _ (rb_connectable _ _ _ _ _ R))).
  - by apply block_match.
  - by apply block_follows.
  - intros k. destruct (block_unmoves a (internalsOf ids (eb_Txs block)) ids (eb_Txs block) _ k Ha Hl Hi Hr) as (j & Hj & _). by exists j.
  - by apply block_unmoves_all.
Qed.

(** The row of an address after the block. *)
Lemma after_block_row a : plain a -> m1 !! a = (if decide (evAt a evs = []) then m !! a
  else Some (foldl rowEvent (default noContracts (m !! a), ∅) (evAt a evs)).1).
Proof.
  intros Ha. rewrite prune_lookup. unfold afterBlock. rewrite applyEvents_at. cbn [lg_contracts]. change (idsAt (mkLedger m ∅) a) with (∅ : gset bytes).
  case_decide as He.
  - destruct (m !! a) as [x|] eqn:Ex; [|done]. cbn. apply (rests_row st) in Ex as [_ ->]; [done|].
    apply (cb_rests _ _ _ _ (rb_connectable _ _ _ _ _ R)).
  - cbn [mbind option_bind]. by rewrite (row_shown (block_row_facts a Ha) He).
Qed.

Lemma untouched a : plain a -> evAt a evs = [] -> opAt a ops = [].
Proof.
  intros Ha He. destruct (rf_matched _ _ _ _ _ (block_row_facts a Ha)) as [_ Hid _]. rewrite He in Hid.
  destruct (opAt a ops) as [|op l]; [done|]. exfalso. apply (not_elem_of_nil (un_btxID op)), Hid. left.
Qed.

Lemma reorg_fits : undos_fit (cacheable st1 m1) (m1, ∅) ops.
Proof.
  apply undos_fit_at. intros a x k Hx Hin. cbv zeta.
  assert (Hw : zlen a = EthereumTypeAddressDescriptorLen).
  { apply list_elem_of_fmap in Hin as (op & -> & Hop). pose proof (undoOps_wide ids (eb_Txs block)) as Hw. rewrite Forall_forall in Hw. by apply Hw. }
  destruct (decide (a = ethZeroAddress)) as [->|Hz].
  - destruct (rb_zero _ _ _ _ _ R x Hx) as (Hc & Hcov & Hpos). cbv zeta in Hc, Hcov, Hpos.
    apply zero_back; [|done..]. eapply rests_row; [apply C|exact Hx].
  - assert (Ha : plain a) by done. pose proof (block_row_facts a Ha) as F. rewrite (after_block_row a Ha) in Hx.
    case_decide as He.
    + rewrite (untouched a Ha He), take_nil. cbn [foldl fst]. apply (rests_row st) in Hx; [naive_solver|].
      apply (cb_rests _ _ _ _ (rb_connectable _ _ _ _ _ R)).
    + injection Hx as <-. destruct (row_back F k) as [H1 H2]. split; [done|]. intros Hcache.
      destruct (rb_cached _ _ _ _ _ R a Ha Hcache) as [x0 Hx0]. apply H2. rewrite Hx0. cbn.
      apply (rests_row st) in Hx0 as [_ ?]; [done|]. apply (cb_rests _ _ _ _ (rb_connectable _ _ _ _ _ R)).
Qed.

(** The rows and the internal data of the block are read back. *)
Lemma reorg_rows : getBlockTxsEthereumType (es_db st1) (eb_Height block) = Ok (Some (readRows ids (eb_Txs block))).
Proof. apply getBlockTxs_stored; [apply (rb_rowsok _ _ _ _ _ R)|apply C]. Qed.

Lemma reorg_internals : internals_ok (es_db st1) (internalsOf ids (eb_Txs block)) (readRows ids (eb_Txs block)).
Proof.
  pose proof (internalsOf_answers ids _ (rb_ids _ _ _ _ _ R) ids_length) as Hans. destruct C as (_ & _ & _ & _ & Hint).
  unfold internals_ok, readRows. apply List.Forall_map, Forall_forall. intros t Ht. specialize (Hint t (rb_ids _ _ _ _ _ R) Ht).
  unfold blockRows in Ht. apply elem_of_lookup_zip_with in Ht as (i & id & tx & -> & Hid & Htx).
  pose proof (Forall2_lookup_lr _ _ _ i id tx Hans Hid Htx) as Hi'. cbn beta in Hi'.
  cbn [normTx ebt_btxID blockTxOf ebt_internalData] in *. rewrite Hi'.
  pose proof (rb_internal _ _ _ _ _ R) as Hok. rewrite Forall_lookup in Hok. specialize (Hok i tx Htx).
  pose proof (rb_fresh _ _ _ _ _ R) as Hfr. rewrite Forall_lookup in Hfr. specialize (Hfr i id Hid).
  unfold getEthereumInternalData in *. rewrite Hint. destruct (internalOf tx) as [data|]; cbn [fmap option_fmap option_map].
  - split; [|apply readInternal_ok]. cbn [rbind valData]. destruct (Z.eqb_spec (zlen (packEthInternalData (internalRow data))) 0) as [Hz|_].
    + by apply packInternal_nonempty in Hz.
    + by rewrite unpackEthInternalData_pack by auto.
  - split; [exact Hfr|done].
Qed.

Lemma reorg_disconnectable :
  disconnectable st1 m1 (eb_Height block) (readRows ids (eb_Txs block)) (internalsOf ids (eb_Txs block)).
Proof. constructor; [apply C|apply C|apply R|apply reorg_rows|apply reorg_internals|apply R|apply reorg_fits|apply R]. Qed.

Lemma reorg_row a : plain a -> prune (foldl applyUndo (m1, ∅) ops).1 !! a = m !! a.
Proof.
  intros Ha. rewrite prune_lookup. pose proof (after_block_row a Ha) as H1. pose proof (block_row_facts a Ha) as F.
  assert (Hkept : forall x, m !! a = Some x -> droppable x = false).
  { intros x Hx. eapply rests_row; [apply (cb_rests _ _ _ _ (rb_connectable _ _ _ _ _ R))|exact Hx]. }
  case_decide as He.
  - destruct (m !! a) as [x|] eqn:Ex.
    + rewrite (applyUndos_at _ _ _ a x (plain_zlen a Ha) H1), (untouched a Ha He). cbn. by rewrite (Hkept x).
    + by rewrite (applyUndos_none _ _ _ a H1).
  - rewrite (applyUndos_at _ _ _ a _ (plain_zlen a Ha) H1). rewrite lookup_empty. cbn [default]. rewrite (row_restored F).
    cbn [mbind option_bind]. destruct (m !! a) as [x|] eqn:Ex; cbn; [|done]. by rewrite (Hkept x).
Qed.

Lemma touched_in_ops a : plain a -> a ∈ map ev_addrDesc evs -> a ∈ map un_addrDesc ops.
Proof.
  intros Ha Hin. apply list_elem_of_fmap in Hin as (ev & Hev & Hin).
  destruct (rf_matched _ _ _ _ _ (block_row_facts a Ha)) as [_ Hid _].
  assert (ev_btxID ev ∈ map ev_btxID (evAt a evs)) as Hi.
  { apply list_elem_of_fmap. exists ev. split; [done|]. unfold evAt. by apply list_elem_of_filter. }
  apply Hid, list_elem_of_fmap in Hi as (op & _ & Hop). unfold opAt in Hop. apply list_elem_of_filter in Hop as [<- Hop].
  apply list_elem_of_fmap. by exists op.
Qed.
End Block.

(** C3: a block that was connected and is disconnected again, as the last one, leaves the index as
    it was, when its transfers can be reversed: every sender holds what it sends (the id of a
    token, the amount of a multi token), no receiver holds the id it is sent already, the addresses the block
    brings into the index are not cached, and the row of the zero address covers what is taken from it.
    Then the disconnection succeeds, every address but the zero address has the row it had
    before the block (its three counters, its contracts in order with their counts and holdings,
    or no row); the row of the block for its disconnection, its header, its internal data and the
    index rows of the addresses it touched are gone, and the cache of contracts agrees with the
    database. Without the first condition a row is not restored ([unrecorded_holder_gains]). *)
Theorem reorg_restores due block ids st m st1 :
  ConnectBlockEthereumType due block st = (Ok (eb_Height block), st1) ->
  reorgable block ids st m st1 ->
  exists st2 m2, DisconnectBlockRangeEthereumType (eb_Height block) (eb_Height block) st1 = (Ok tt, st2)
  /\ rests st2 m2 /\ (forall a, plain a -> m2 !! a = m !! a) /\ coherent st2
  /\ GetCF (es_db st2) cfBlockTxs (packUint (eb_Height block)) = Ok None
  /\ GetCF (es_db st2) cfHeight (packUint (eb_Height block)) = Ok None
  /\ (forall a, plain a -> a ∈ map ev_addrDesc (blockEvents ids (eb_Txs block)) ->
        GetCF (es_db st2) cfAddresses (packAddressKey a (eb_Height block)) = Ok None)
  /\ (forall t, t ∈ blockRows ids (eb_Txs block) -> GetCF (es_db st2) cfInternalData (ebt_btxID t) = Ok None).
Proof.
  intros Ec R. destruct (connect_block due block ids st m (rb_connectable _ _ _ _ _ R)) as (st1' & Ec' & C).
  rewrite Ec in Ec'. injection Ec' as <-. pose proof (reorg_disconnectable block ids st st1 m R C) as D.
  destruct (disconnect_block _ _ _ _ _ D) as (st2 & Ed & Hr & Hc & H1 & H2 & H3 & H4).
  eexists st2, _. split; [exact Ed|]. split; [exact Hr|]. split_and!; try done.
  - intros a Ha. exact (reorg_row block ids st st1 m R a Ha).
  - intros a Ha Hin. apply H3, applyUndos_dom; [by apply plain_zlen|]. right. by eapply touched_in_ops.
  - intros t Ht. specialize (H4 (normTx t)). apply H4. apply list_elem_of_fmap. by exists t.
Qed.
End Reorg.

Module EthRestoreExample.
Import EthBlockExample.
#[local] Existing Instances RefVlq.vlq RefVlq.vlq_laws MapKV.map_kv MapKV.map_kv_laws EthParserExample.refEth EthParserExample.refEthLaws.
#[local] Instance parser : EthChainParser := ethereumParser 100 (fun _ => Ok [transfer]).
#[local] Instance parser_laws : EthChainParserLaws parser := ethereumParserLaws 100 (fun _ => Ok [transfer]).
#[local] Instance aliases : AliasParser := ethereumAliases true (str ".eth").
#[local] Instance opts : IndexOpts := { extendedIndex := false }.
#[local] Instance largeRows : EthCacheOpts := { opt_addrContractsCacheMinSize := 300000; opt_addrContractsCacheMaxBytes := 2000000000 }.

Definition ids : list bytes := [replicate 32 x77].
Definition after : EthState MapKV.map_kv := (ConnectBlockEthereumType true block start).2.

Lemma connectable_again : connectable block ids start ∅.
Proof.
  constructor.
  - split; [|done]. split; [done|]. split; [split; [done|by intros a [? ?]]|]. intros a _. split; [done|]. done.
  - constructor.
  - unfold is_u32. cbn. lia.
  - vm_compute. discriminate.
  - eexists. vm_compute. reflexivity.
  - constructor; [vm_compute; reflexivity|constructor].
  - constructor; [done|constructor].
  - apply events_fitb_sound. vm_compute. reflexivity.
  - split; [by left|]. constructor; [|constructor]. right. exists (address xcc), None. split; vm_compute; reflexivity.
Qed.

(** The registry has the row of the token only. *)
Lemma no_row (rows : gmap bytes bytes) a k : map fst (map_to_list rows) = [a] -> k <> a -> rows !! k = None.
Proof.
  intros Hv Hk. destruct (rows !! k) as [v|] eqn:Ev; [|done]. exfalso. apply Hk. apply elem_of_map_to_list in Ev.
  assert (k ∈ map fst (map_to_list rows)) as Hin by (apply list_elem_of_fmap; by exists (k, v)).
  rewrite Hv in Hin. by apply list_elem_of_singleton in Hin.
Qed.

Lemma unregistered (d : DB MapKV.map_kv) k : db_rfault d cfContracts k = false ->
  (db_cf d cfContracts : gmap bytes bytes) !! k = None -> pureLoad d k = Ok None.
Proof.
  intros Hf Hn. unfold pureLoad, GetCF. rewrite Hf. change (kv_get (db_cf d cfContracts) k) with ((db_cf d cfContracts : gmap bytes bytes) !! k).
  by rewrite Hn.
Qed.

Lemma registry_after k : k <> address xcc -> pureLoad (es_db after) k = Ok None.
Proof. intros Hk. apply unregistered; [vm_compute; reflexivity|]. apply (no_row _ (address xcc)); [vm_compute; reflexivity|done]. Qed.

Lemma uncached {A} (cache : gmap bytes A) a u : map_to_list cache = [] -> cache !! a <> Some u.
Proof. intros ->%map_to_list_empty_iff. by rewrite lookup_empty. Qed.

Lemma rows_small : Forall (fun e : bytes * AddrContracts => zlen (packAddrContracts e.2) <= minCacheSize)
  (map_to_list (prune (lg_contracts (afterBlock ∅ ids block)))).
Proof. apply (bool_decide_eq_true_1 (Forall _ _)). vm_compute. reflexivity. Qed.

Lemma token_reversible a : all_reversible a (map moveOf (blockTransfers (eb_Txs block))) [].
Proof.
  change (map moveOf (blockTransfers (eb_Txs block))) with [moveOf transfer].
  assert (moveOf transfer = mkMove (address xcc) (address x0a) (address x0b) transfer) as -> by (vm_compute; reflexivity).
  cbn [all_reversible]. split; [intros _ _; reflexivity|]. split; [|exact I].
  apply (bool_decide_eq_true_1 (Forall _ _)). unfold moveAt. cbn [mv_to mv_from mv_contract mv_transfer].
  destruct (bool_decide (address x0b = a)), (bool_decide (address x0a = a)); vm_compute; reflexivity.
Qed.

Lemma reorgable_block : reorgable block ids start ∅ after.
Proof.
  constructor.
  - exact connectable_again.
  - cbn. lia.
  - apply NoDup_singleton.
  - constructor; [|constructor]. split_and!; [vm_compute; reflexivity..|]. constructor; [|constructor]. apply (bool_decide_eq_true_1 (is_u64 _ /\ packable _)); vm_compute; reflexivity.
  - constructor; [vm_compute; reflexivity|constructor].
  - constructor; [|constructor]. intros data [= <-]. split_and!; [vm_compute; discriminate..|vm_compute; reflexivity|]. constructor; [|constructor]. apply (bool_decide_eq_true_1 (0 <= _ < 256 /\ packable _)); vm_compute; reflexivity.
  - constructor; [vm_compute; reflexivity|constructor].
  - done.
  - intros a _. rewrite lookup_empty. apply token_reversible.
  - intros k. destruct (decide (k = address xcc)) as [->|Hk]; [eexists; vm_compute; reflexivity|].
    exists None. by apply registry_after.
  - vm_compute. split; [discriminate|reflexivity].
  - intros a _ [[u Hu]|(x & Hx & Hl)]; exfalso.
    + apply (uncached (es_cache after) a u); [vm_compute; reflexivity|exact Hu].
    + pose proof rows_small as Hs. rewrite Forall_forall in Hs. apply elem_of_map_to_list in Hx. specialize (Hs _ Hx). cbn [snd] in Hs. lia.
  - intros x Hx. exfalso. revert Hx. assert (prune (lg_contracts (afterBlock ∅ ids block)) !! ethZeroAddress = None) as ->; [vm_compute; reflexivity|discriminate].
Qed.

Lemma reorg_restores_witness :
  exists st2 m2, DisconnectBlockRangeEthereumType 7 7 after = (Ok tt, st2) /\ rests st2 m2 /\ m2 !! address x0b = None.
Proof.
  assert (Ec : ConnectBlockEthereumType true block start = (Ok 7, after)).
  { unfold after. rewrite (surjective_pairing (ConnectBlockEthereumType true block start)) at 1. f_equal. }
  destruct (reorg_restores true block ids start ∅ after Ec reorgable_block) as (st2 & m2 & E1 & E2 & E3 & _).
  exists st2, m2. split_and!; [exact E1|exact E2|]. rewrite E3; [apply lookup_empty|]. split; [reflexivity|discriminate].
Defined.
End EthRestoreExample.

(** ** A sender that does not hold what it sends *)

Module UnrecordedHolderExample.
Import EthBlockExample.
#[local] Existing Instances RefVlq.vlq MapKV.map_kv EthParserExample.refEth.

Definition id7 : bytes := x30 :: x78 :: hex_EncodeToString (replicate 32 x77).
Definition id8 : bytes := x30 :: x78 :: hex_EncodeToString (replicate 32 x88).

(** The token 1 is sent to 0x0a.., which then sends the token 9. *)
#[local] Instance nftParser : EthChainParser := ethereumParser 100 (fun tx =>
  Ok [if bool_decide (etx_Txid tx = id7) then mkTokenTransfer NonFungibleToken (text xcc) (text x0c) (text x0a) 1 []
      else mkTokenTransfer NonFungibleToken (text xcc) (text x0a) (text x0b) 9 []]).
#[local] Instance nftAliases : AliasParser := ethereumAliases true (str ".eth").
#[local] Instance nftOpts : IndexOpts := { extendedIndex := false }.
#[local] Instance nftCache : EthCacheOpts := { opt_addrContractsCacheMinSize := 300000; opt_addrContractsCacheMaxBytes := 2000000000 }.

Definition blockWith (id : bytes) (height : Z) : EthBlock :=
  mkEthBlock id height 1500000000 1000 [mkEthTx id [[text x0e]] [[text xcc]] height None] None.

Definition heldIds (st : EthState MapKV.map_kv) : list (list Z) :=
  match GetCF (es_db st) cfAddressContracts (address x0a) with
  | Ok (Some buf) => match unpackAddrContracts buf with Ok acs => map ac_Ids (acs_Contracts acs) | _ => [] end
  | _ => []
  end.

(** Connecting the block of a transfer whose sender is not recorded as the holder of the token changes none of its
    tokens; disconnecting it gives the sender the token. *)
Theorem unrecorded_holder_gains :
  let st7 := (ConnectBlockEthereumType true (blockWith id7 7) start).2 in
  let r8 := ConnectBlockEthereumType true (blockWith id8 8) st7 in
  let r := DisconnectBlockRangeEthereumType 8 8 r8.2 in
  r8.1 = Ok 8 /\ r.1 = Ok tt /\ heldIds st7 = [[1]] /\ heldIds r8.2 = [[1]] /\ heldIds r.2 = [[1; 9]].
Proof. vm_compute. split_and!; reflexivity. Qed.
End UnrecordedHolderExample.
