(* ===== verification/EthLogs.v ===== *)
(** Token transfers and names in the logs of a transaction ([bchain/coins/eth/contract.go],
    [bchain/coins/eth/ens.go], and [EthereumTypeGetTokenTransfersFromTx] of
    [bchain/coins/eth/ethparser.go]).

    Logs come from contracts, so their data can be anything: offsets and counts up to 2^256 that
    the code turns into Go integers. A panic that [recover] catches is an error.

    What is proved of them is in [EthLogsCorrect]: the fast decoders agree with package [big], events
    that are encoded as the ABI says are read as they were, and whatever the data, the decoders read
    only inside of it. *)

From S2P Require Import Prelude Codec Parser EthTokens EthContracts EthParser EthAliases.

Local Open Scope Z_scope.

(** ** Numbers ([math/big], [strconv]) *)

(** The value of a digit in a base up to 36, more than that for any other character. *)
Definition digitVal (c : byte) : Z :=
  let z := b2z c in
  if (48 <=? z) && (z <=? 57) then z - 48
  else if (97 <=? z) && (z <=? 122) then z - 87
  else if (65 <=? z) && (z <=? 90) then z - 55
  else 63.

Inductive scanPrev := PrevOther | PrevDigit | PrevSep.

Record scanState := mkScan { sc_prev : scanPrev; sc_invalSep : bool; sc_count : Z; sc_value : Z }.

(** The loop of [nat.scan] over digits and, in base 0, separators. *)
Fixpoint scanDigits (base b : Z) (s : bytes) (st : scanState) : scanState * bytes :=
  match s with
  | [] => (st, [])
  | ch :: r =>
      if (b2z ch =? 95) && (base =? 0)
      then scanDigits base b r
             (mkScan PrevSep (sc_invalSep st || match sc_prev st with PrevDigit => false | _ => true end) (sc_count st) (sc_value st))
      else if b <=? digitVal ch then (st, s)
      else scanDigits base b r (mkScan PrevDigit (sc_invalSep st) (sc_count st + 1) (sc_value st * b + digitVal ch))
  end.

(** The actual base, whether the number starts with the prefix 0 of octal numbers, and what is
    to be scanned. *)
Definition scanPrefix (base : Z) (s : bytes) : Z * bool * bytes * scanState :=
  let start := mkScan PrevOther false 0 0 in
  let after := mkScan PrevDigit false 0 0 in
  if base =? 0 then
    match s with
    | z :: r =>
        if b2z z =? 48 then
          match r with
          | [] => (10, false, [], mkScan PrevDigit false 1 0)
          | ch :: r' =>
              let c := Z.lor (b2z ch) 32 in
              if c =? 98 then (2, false, r', after)
              else if c =? 111 then (8, false, r', after)
              else if c =? 120 then (16, false, r', after)
              else (8, true, r, after)
          end
        else (10, false, s, start)
    | [] => (10, false, s, start)
    end
  else (base, false, s, start).

(** [nat.scan]: the number and the rest of the text. *)
Definition nat_scan (base : Z) (s : bytes) : option (Z * bytes) :=
  let '(b, octal, s, st) := scanPrefix base s in
  let '(st, rest) := scanDigits base b s st in
  if sc_invalSep st || match sc_prev st with PrevSep => true | _ => false end then None
  else if sc_count st =? 0 then (if octal then Some (0, rest) else None)
  else Some (sc_value st, rest).

(** [big.Int.SetString]: a sign and a number that is the whole text. *)
Definition SetString (s : bytes) (base : Z) : option Z :=
  match s with
  | [] => None
  | c :: r =>
      let neg := b2z c =? 45 in
      match nat_scan base (if neg || (b2z c =? 43) then r else s) with
      | Some (v, []) => Some (if neg then - v else v)
      | _ => None
      end
  end.

(** [strconv.ParseUint] in base 16 with the number of bits. *)
Fixpoint parseHex (s : bytes) (v : Z) : option Z :=
  match s with
  | [] => Some v
  | c :: r => match from_hex_digit c with Some d => parseHex r (v * 16 + d) | None => None end
  end.

Definition ParseUint16 (s : bytes) (bits : Z) : option Z :=
  match s with
  | [] => None
  | _ => match parseHex s 0 with Some v => if v <? 2 ^ bits then Some v else None | None => None end
  end.

(** [strconv.ParseInt(s, 16, 64)] *)
Definition ParseInt16 (s : bytes) : option Z :=
  match s with
  | [] => None
  | c :: r =>
      let neg := b2z c =? 45 in
      match ParseUint16 (if neg || (b2z c =? 43) then r else s) 64 with
      | Some v => if neg then (if v <=? 2 ^ 63 then Some (- v) else None) else (if v <? 2 ^ 63 then Some v else None)
      | None => None
      end
  end.

(** ** Hex words *)

Definition evmWordBytes : Z := 32.
Definition evmWordHex : Z := evmWordBytes * 2.

Definition hexNibbles (c : byte) : Z := default 255 (from_hex_digit c).

(** The loop of [hexDecodeInto]. *)
Fixpoint decodePairs (s : bytes) : option bytes :=
  match s with
  | [] => Some []
  | p :: q :: r =>
      let hi := hexNibbles p in
      let lo := hexNibbles q in
      if 15 <? Z.lor hi lo then None
      else match decodePairs r with Some r' => Some (z2b (Z.lor (Z.shiftl hi 4) lo) :: r') | None => None end
  | _ => None
  end.

(** [dst] of length [n]. *)
Definition hexDecodeInto (n : Z) (s : bytes) : option bytes := if zlen s =? 2 * n then decodePairs s else None.

Definition setBigFromHexWord (s : bytes) (base : Z) : option Z :=
  match hexDecodeInto evmWordBytes (strip0x s) with
  | Some b => Some (be_get b)
  | None => SetString s base
  end.

Definition errNotANumber {A} : result A := Err (ErrMsg "Data is not a number").

(** [recover]: a panic of the decoder becomes its error. *)
Definition recovered {A} (r : result A) : result A :=
  match r with Panic => Err (ErrMsg "recovered from panic") | _ => r end.

(** [Address.String] and [BigToAddress] of the package [common] of go-ethereum. *)
Class GoEthCommon := {
  Address_String : bytes -> bytes;
  BigToAddress : Z -> bytes;
}.

(** What their documentation says: the checksummed text of EIP-55; the bytes of the number,
    cropped from the left and padded in front. *)
Class GoEthCommonLaws {G : GoEth} (C : GoEthCommon) : Prop := {
  Address_String_spec a : zlen a = EthereumTypeAddressDescriptorLen -> EIP55Address a = Ok (Address_String a);
  BigToAddress_spec v : BigToAddress v = be_put 20 (Z.abs v);
}.

Section EthLogs.
Context {G : GoEth} {C : GoEthCommon}.

Definition addressFromPaddedHex (s : bytes) : result bytes :=
  let s := strip0x s in
  let addrHexLen := EthereumTypeAddressDescriptorLen * 2 in
  let! fast := (if addrHexLen <=? zlen s
                then let! tail := slice_from s (zlen s - addrHexLen) in Ok (hexDecodeInto EthereumTypeAddressDescriptorLen tail)
                else Ok None) in
  match fast with
  | Some a => Ok (Address_String a)
  | None =>
      match SetString s 16 with
      | Some t => Ok (Address_String (BigToAddress t))
      | None => errNotANumber
      end
  end.

(** ** Events *)

Definition tokenTransferEventSignature : bytes := str "0xddf252ad1be2c89b69c2b068fc378daa952ba7f163c4a11628f55a4df523b3ef".
Definition tokenERC1155TransferSingleEventSignature : bytes := str "0xc3d58168c5ae7397731d063d5bbf3d657854427343f4c083240f7aacaa2d0f62".
Definition tokenERC1155TransferBatchEventSignature : bytes := str "0x4a39dc06d4c0dbc64b70af90fd698a233a518aa5d07e595d983b8c0526c8f7fb".

Definition numberOr {A} (o : option Z) (msg : string) (k : Z -> result A) : result A :=
  match o with Some v => k v | None => Err (ErrMsg msg) end.

Definition processTransferEvent (l : RpcLog) : result (option TokenTransfer) := recovered (
  let tl := zlen (log_Topics l) in
  let transfer standard value :=
    let! t1 := index (log_Topics l) 1 in
    let! from := addressFromPaddedHex t1 in
    let! t2 := index (log_Topics l) 2 in
    let! to := addressFromPaddedHex t2 in
    let! contract := EIP55AddressFromAddress (log_Address l) in
    Ok (Some (mkTokenTransfer standard contract from to value [])) in
  if tl =? 3 then
    numberOr (setBigFromHexWord (log_Data l) 0) "ERC20 log Data is not a number" (transfer FungibleToken)
  else if tl =? 4 then
    let! t3 := index (log_Topics l) 3 in
    numberOr (setBigFromHexWord t3 0) "ERC721 log Topics[3] is not a number" (transfer NonFungibleToken)
  else Ok None).

Definition processERC1155TransferSingleEvent (l : RpcLog) : result (option TokenTransfer) := recovered (
  if negb (zlen (log_Topics l) =? 4) then Ok None
  else
    let! t2 := index (log_Topics l) 2 in
    let! from := addressFromPaddedHex t2 in
    let! t3 := index (log_Topics l) 3 in
    let! to := addressFromPaddedHex t3 in
    let data := strip0x (log_Data l) in
    let! w0 := slice data 0 evmWordHex in
    numberOr (setBigFromHexWord w0 16) "ERC1155 log Data id is not a number" (fun id =>
    let! w1 := slice data evmWordHex (2 * evmWordHex) in
    numberOr (setBigFromHexWord w1 16) "ERC1155 log Data value is not a number" (fun value =>
    let! contract := EIP55AddressFromAddress (log_Address l) in
    Ok (Some (mkTokenTransfer MultiToken contract from to 0 [mkMTV id value]))))).

Definition errBatch {A} (msg : string) : result A := Err (ErrMsg msg).

Definition parseEVMLogWordUint64 (data : bytes) (offset : Z) : result Z :=
  if (offset <? 0) || (zlen data <? offset) || (zlen data - offset <? evmWordHex)
  then errBatch "ERC1155 TransferBatch, invalid data length"
  else
    let! w := slice data offset (offset + evmWordHex) in
    match hexDecodeInto evmWordBytes w with
    | None => errBatch "ERC1155 TransferBatch, not a number"
    | Some b =>
        let! high := slice b 0 (evmWordBytes - 8) in
        if forallb (fun c => b2z c =? 0) high
        then let! low := slice_from b (evmWordBytes - 8) in Ok (be_get low)
        else errBatch "ERC1155 TransferBatch, not a number"
    end.

(** The largest Go integer. *)
Definition maxInt : Z := 2 ^ 63 - 1.

Definition erc1155BatchOffsetHex (offsetBytes : Z) : result Z :=
  if offsetBytes <? 2 * evmWordBytes then errBatch "ERC1155 TransferBatch, invalid offset"
  else if negb (offsetBytes mod evmWordBytes =? 0) then errBatch "ERC1155 TransferBatch, invalid offset"
  else if maxInt / 2 <? offsetBytes then errBatch "ERC1155 TransferBatch, invalid offset"
  else Ok (i64 (u64 (offsetBytes * 2))).

Definition erc1155BatchArrayEnd (offset count : Z) : result Z :=
  if offset <? 0 then errBatch "ERC1155 TransferBatch, invalid offset"
  else
    let base := u64 (offset + evmWordHex) in
    if (maxInt <? base) || (u64 (maxInt - base) / evmWordHex <? count)
    then errBatch "ERC1155 TransferBatch, invalid data length"
    else Ok (i64 (u64 (base + u64 (count * evmWordHex)))).

(** The loop over the pairs of the batch. *)
Fixpoint batchValues (n : nat) (i : Z) (data : bytes) (offsetIds offsetValues : Z) : result (list MultiTokenValue) :=
  match n with
  | O => Ok []
  | S n =>
      let o := i64 (offsetIds + evmWordHex + evmWordHex * i) in
      let! w := slice data o (i64 (o + evmWordHex)) in
      numberOr (setBigFromHexWord w 16) "ERC1155 log Data id is not a number" (fun id =>
      let o := i64 (offsetValues + evmWordHex + evmWordHex * i) in
      let! w := slice data o (i64 (o + evmWordHex)) in
      numberOr (setBigFromHexWord w 16) "ERC1155 log Data value is not a number" (fun value =>
      let! r := batchValues n (i + 1) data offsetIds offsetValues in
      Ok (mkMTV id value :: r)))
  end.

(** The ids and values of a batch; the slice of [countValues] values is allocated first. *)
Definition batchData (data : bytes) : result (list MultiTokenValue) :=
  if (zlen data <? 2 * evmWordHex) || negb (zlen data mod evmWordHex =? 0)
  then errBatch "ERC1155 TransferBatch, invalid data length"
  else
    let! offsetIdsBytes := parseEVMLogWordUint64 data 0 in
    let! offsetIds := erc1155BatchOffsetHex offsetIdsBytes in
    let! offsetValuesBytes := parseEVMLogWordUint64 data evmWordHex in
    let! offsetValues := erc1155BatchOffsetHex offsetValuesBytes in
    let! countIds := parseEVMLogWordUint64 data offsetIds in
    let! countValues := parseEVMLogWordUint64 data offsetValues in
    if negb (countIds =? countValues) then errBatch "ERC1155 TransferBatch, count values and ids does not match"
    else
      let! endIds := erc1155BatchArrayEnd offsetIds countValues in
      if zlen data <? endIds then errBatch "ERC1155 TransferBatch, invalid ids data length"
      else
        let! endValues := erc1155BatchArrayEnd offsetValues countValues in
        if zlen data <? endValues then errBatch "ERC1155 TransferBatch, invalid values data length"
        else batchValues (Z.to_nat (i64 countValues)) 0 data offsetIds offsetValues.

Definition processERC1155TransferBatchEvent (l : RpcLog) : result (option TokenTransfer) := recovered (
  if zlen (log_Topics l) <? 4 then Ok None
  else
    let! t2 := index (log_Topics l) 2 in
    let! from := addressFromPaddedHex t2 in
    let! t3 := index (log_Topics l) 3 in
    let! to := addressFromPaddedHex t3 in
    let! idValues := batchData (strip0x (log_Data l)) in
    let! contract := EIP55AddressFromAddress (log_Address l) in
    Ok (Some (mkTokenTransfer MultiToken contract from to 0 idValues))).

(** ** The transfers of a transaction *)

Definition isIgnoredContract (ignored : list bytes) (address : bytes) : bool :=
  if bool_decide (ignored = []) || negb (has0xPrefix address) then false
  else
    match hexDecodeInto EthereumTypeAddressDescriptorLen (drop 2 address) with
    | Some desc => existsb (fun c => bool_decide (c = desc)) ignored
    | None => false
    end.

(** The decoder of an event. *)
Definition processOf (topic : bytes) : option (RpcLog -> result (option TokenTransfer)) :=
  if bool_decide (topic = tokenTransferEventSignature) then Some processTransferEvent
  else if bool_decide (topic = tokenERC1155TransferSingleEventSignature) then Some processERC1155TransferSingleEvent
  else if bool_decide (topic = tokenERC1155TransferBatchEventSignature) then Some processERC1155TransferBatchEvent
  else None.

Fixpoint contractGetTransfersFromLog (logs : list RpcLog) (ignored : list bytes) : list TokenTransfer :=
  match logs with
  | [] => []
  | l :: rest =>
      let more := contractGetTransfersFromLog rest ignored in
      match log_Topics l with
      | [] => more
      | topic :: _ =>
          match processOf topic with
          | None => more
          | Some process =>
              if isIgnoredContract ignored (log_Address l) then more
              else match process l with Ok (Some t) => t :: more | _ => more end
          end
      end
  end.

Definition erc20TransferMethodSignature : bytes := str "0xa9059cbb".
Definition erc721SafeTransferFromMethodSignature : bytes := str "0x42842e0e".
Definition erc721SafeTransferFromWithDataMethodSignature : bytes := str "0xb88d4fde".

Definition contractGetTransfersFromTx (tx : RpcTransaction) : result (list TokenTransfer) :=
  let payload := rt_Payload tx in
  if (zlen payload =? 10 + 128) && hasPrefix erc20TransferMethodSignature payload then
    let! w := slice payload 10 (10 + 64) in
    let! to := addressFromPaddedHex w in
    let! w := slice_from payload (10 + 64) in
    numberOr (setBigFromHexWord w 16) "Data is not a number" (fun t =>
    let! contract := EIP55AddressFromAddress (rt_To tx) in
    let! from := EIP55AddressFromAddress (rt_From tx) in
    Ok [mkTokenTransfer FungibleToken contract from to t []])
  else if (10 + 192 <=? zlen payload) && (hasPrefix erc721SafeTransferFromMethodSignature payload
            || hasPrefix erc721SafeTransferFromWithDataMethodSignature payload) then
    let! w := slice payload 10 (10 + 64) in
    let! from := addressFromPaddedHex w in
    let! w := slice payload (10 + 64) (10 + 128) in
    let! to := addressFromPaddedHex w in
    let! w := slice payload (10 + 128) (10 + 192) in
    numberOr (setBigFromHexWord w 16) "Data is not a number" (fun t =>
    let! contract := EIP55AddressFromAddress (rt_To tx) in
    Ok [mkTokenTransfer NonFungibleToken contract from to t []])
  else Ok [].

(** [ignoredContracts] of the parser. *)
Definition GetTokenTransfersFromTx (ignored : list bytes) (tx : EthTx) : result (list TokenTransfer) :=
  match etx_CoinSpecificData tx with
  | None => Ok []
  | Some csd =>
      match esd_Receipt csd with
      | Some receipt => Ok (contractGetTransfersFromLog (rr_Logs receipt) ignored)
      | None =>
          match esd_Tx csd with
          | None => Panic
          | Some rtx => if isIgnoredContract ignored (rt_To rtx) then Ok [] else contractGetTransfersFromTx rtx
          end
      end
  end.

(** ** Names *)

Definition nameRegisteredEventSignature : bytes := str "0xca6abbe9d7f11422cb6ca7629fbf6fe9efb1c621f71ce8f02b9f2a230097404f".

Definition getEnsRecord (l : RpcLog) : result (option AddressAliasRecord) :=
  match log_Topics l with
  | [t0; _; t2] =>
      if bool_decide (t0 = nameRegisteredEventSignature) && (322 <=? zlen (log_Data l)) then
        match addressFromPaddedHex t2 with
        | Panic => Panic
        | Err _ => Ok None
        | Ok address =>
            let! w := slice (log_Data l) 194 (194 + 64) in
            match ParseInt16 w with
            | None => Ok None
            | Some c =>
                let nameStart := 194 + 64 in
                let de := i64 (nameStart + i64 (Z.shiftl c 1)) in
                if (zlen (log_Data l) <? de) || (de <? nameStart) then Ok None
                else
                  let! w := slice (log_Data l) nameStart de in
                  match hex_DecodeString w with
                  | Ok b => Ok (Some (mkAlias address b))
                  | _ => Ok None
                  end
            end
        end
      else Ok None
  | _ => Ok None
  end.
End EthLogs.
