(* ===== verification/EthLogsCorrect.v ===== *)
(** The decoders of logs ([EthLogs]) read what was encoded, and only inside of the data.

    - [hex_word_fast]: the decoder of words agrees with [big.Int.SetString]; [padded_hex]: the decoder
      of addresses agrees with [BigToAddress];
    - [transfer_logs_read]: the events of the token standards, encoded as the ABI says, are read as
      the transfers they stand for;
    - [log_decoders_safe]: the decoders of batches, names and payloads never panic, whatever the
      data. *)

From S2P Require Import Prelude Codec Parser EthTokens EthContracts EthParser EthAliases EthLogs.

Local Open Scope Z_scope.

(** ** Hex digits *)

Definition is_hex (c : byte) : Prop := is_Some (from_hex_digit c).

Lemma from_hex_range c v : from_hex_digit c = Some v -> 0 <= v < 16.
Proof. unfold from_hex_digit. pose proof (b2z_range c). intros Hv. repeat (revert Hv; case_tests; intros Hv); try discriminate; apply (f_equal (default 0)) in Hv; cbn in Hv; lia. Qed.

Lemma hex_digitVal c v : from_hex_digit c = Some v -> digitVal c = v /\ b2z c <> 95 /\ b2z c <> 45 /\ b2z c <> 43 /\ b2z c <> 120.
Proof.
  unfold from_hex_digit, digitVal. pose proof (b2z_range c). intros H0.
  repeat match type of H0 with context [if ?b then _ else _] => destruct b eqn:? end; try discriminate;
    apply (f_equal (default 0)) in H0; cbn in H0; (split; [|lia]); repeat case_match; lia.
Qed.

Lemma lor_nibbles a b : 0 <= a < 16 -> 0 <= b < 16 -> Z.lor a b <= 15 /\ Z.lor (Z.shiftl a 4) b = a * 16 + b.
Proof.
  intros Ha Hb.
  assert (forallb (fun a => forallb (fun b => (Z.lor a b <=? 15) && (Z.lor (Z.shiftl a 4) b =? a * 16 + b)) (seqZ 0 16)) (seqZ 0 16) = true) as H
    by (vm_compute; reflexivity).
  rewrite forallb_forall in H. specialize (H a). rewrite <- list_elem_of_In, elem_of_seqZ in H. specialize (H Ha).
  rewrite forallb_forall in H. specialize (H b). rewrite <- list_elem_of_In, elem_of_seqZ in H. specialize (H Hb). lia.
Qed.

(** The decoder without allocation agrees with [hex.DecodeString]. *)
Lemma decodePairs_hex s : decodePairs s = match hex_DecodeString s with Ok b => Some b | _ => None end.
Proof.
  induction s as [s IH] using (induction_ltof1 _ (@length byte)); unfold ltof in IH. destruct s as [|p [|q r]]; [done|cbn; by destruct (from_hex_digit p)|].
  cbn [decodePairs hex_DecodeString]. unfold hexNibbles.
  assert (Hbig : forall x, 0 <= x -> 15 < Z.lor 255 x).
  { intros x Hx. assert (Z.log2 255 <= Z.log2 (Z.lor 255 x)) as Hl by (rewrite Z.log2_lor by lia; lia).
    destruct (Z.le_gt_cases (Z.lor 255 x) 15) as [Hle|]; [|lia]. apply Z.log2_le_mono in Hle. cbn in *. lia. }
  destruct (from_hex_digit p) as [a|] eqn:Ea; cbn [default].
  - destruct (from_hex_digit q) as [b|] eqn:Eb; cbn [default]; unfold Datatypes.id.
    + apply from_hex_range in Ea, Eb. destruct (lor_nibbles a b Ea Eb) as [H1 H2]. rewrite (proj2 (Z.ltb_ge _ _)) by lia.
      rewrite H2, (IH r) by (cbn; lia). by destruct (hex_DecodeString r).
    + apply from_hex_range in Ea. rewrite Z.lor_comm. specialize (Hbig a). rewrite (proj2 (Z.ltb_lt _ _)) by lia. done.
  - assert (0 <= default 255 (from_hex_digit q)) by (destruct (from_hex_digit q) eqn:Eq; cbn; [apply from_hex_range in Eq|]; lia).
    rewrite (proj2 (Z.ltb_lt _ _)); [done|]. by apply Hbig.
Qed.

Lemma hexDecodeInto_hex n s : hexDecodeInto n s = if zlen s =? 2 * n then match hex_DecodeString s with Ok b => Some b | _ => None end else None.
Proof. unfold hexDecodeInto. by rewrite decodePairs_hex. Qed.

(** ** Values *)

Lemma parseHex_app s1 s2 v : parseHex (s1 ++ s2) v = match parseHex s1 v with Some v' => parseHex s2 v' | None => None end.
Proof. revert v. induction s1 as [|c s1 IH]; intros v; [done|]. cbn [app parseHex]. destruct (from_hex_digit c); [apply IH|done]. Qed.

Lemma parseHex_decode s b v : hex_DecodeString s = Ok b -> parseHex s v = Some (v * 256 ^ zlen b + be_get b).
Proof.
  revert b v. induction s as [s IH] using (induction_ltof1 _ (@length byte)); unfold ltof in IH. intros b v Hd.
  destruct s as [|p [|q r]]; cbn [hex_DecodeString] in Hd.
  - injection Hd as <-. cbn [parseHex]. f_equal. change (v = v * 1 + 0). lia.
  - destruct (from_hex_digit p); discriminate.
  - destruct (from_hex_digit p) as [a|] eqn:Ea; [|done]. destruct (from_hex_digit q) as [c|] eqn:Ec; [|done].
    apply rbind_Ok in Hd as (r' & Hr & [= <-]). cbn [parseHex]. rewrite Ea, Ec, (IH r ltac:(cbn; lia) r' _ Hr).
    apply from_hex_range in Ea, Ec. rewrite be_get_cons, zlen_cons, b2z_z2b, Z.mod_small, Z.pow_add_r by zlen_lia. f_equal. ring.
Qed.

Lemma be_put_modulo n z : be_put n (z mod 256 ^ Z.of_nat n) = be_put n z.
Proof. rewrite <- be_get_put. rewrite <- (be_put_length n z) at 1. apply be_put_get. Qed.

Lemma parseHex_nonneg s v v' : 0 <= v -> parseHex s v = Some v' -> 0 <= v'.
Proof.
  revert v. induction s as [|c s IH]; intros v Hv; cbn [parseHex]; [by intros [= <-]|]. destruct (from_hex_digit c) as [d|] eqn:Ed; [|done].
  apply from_hex_range in Ed. apply IH. lia.
Qed.

Lemma parseHex_digits s v : Forall is_hex s -> exists v', parseHex s v = Some v'.
Proof. intros H. revert v. induction H as [|c s [d Hd] _ IH]; intros v; [by exists v|]. cbn [parseHex]. rewrite Hd. apply IH. Qed.

Lemma hex_decode_digits s b : hex_DecodeString s = Ok b -> Forall is_hex s.
Proof.
  revert b. induction s as [s IH] using (induction_ltof1 _ (@length byte)); unfold ltof in IH. intros b Hd.
  destruct s as [|p [|q r]]; cbn [hex_DecodeString] in Hd; [constructor|destruct (from_hex_digit p); discriminate|].
  destruct (from_hex_digit p) as [a|] eqn:Ea; [|done]. destruct (from_hex_digit q) as [c|] eqn:Ec; [|done].
  apply rbind_Ok in Hd as (r' & Hr & _). constructor; [by exists a|]. constructor; [by exists c|]. apply (IH r ltac:(cbn; lia) r' Hr).
Qed.

(** Hex digits are decoded in pairs. *)
Lemma hex_digits_decode s : Forall is_hex s -> Nat.Even (length s) -> exists b, hex_DecodeString s = Ok b.
Proof.
  induction s as [s IH] using (induction_ltof1 _ (@length byte)); unfold ltof in IH. intros Hs He.
  destruct s as [|p [|q r]]; [by exists []|destruct He as [k Hk]; cbn in Hk; lia|].
  apply Forall_cons in Hs as [[a Ha] Hs]. apply Forall_cons in Hs as [[c Hc] Hs].
  destruct (IH r ltac:(cbn; lia) Hs) as [r' Hr]; [destruct He as [k Hk]; exists (k - 1)%nat; cbn in Hk; lia|].
  cbn [hex_DecodeString]. rewrite Ha, Hc, Hr. by eexists.
Qed.

(** The scanner of [big] on hex digits. *)
Lemma scanDigits_hex base s st : base = 0 \/ base = 16 -> Forall is_hex s ->
  scanDigits base 16 s st = (mkScan (if bool_decide (s = []) then sc_prev st else PrevDigit) (sc_invalSep st) (sc_count st + zlen s)
    (default 0 (parseHex s (sc_value st))), []).
Proof.
  intros Hb Hs. revert st. induction Hs as [|c s [d Hd] Hs IH]; intros st.
  - cbn. rewrite Z.add_0_r. by destruct st.
  - destruct (hex_digitVal c d Hd) as (Hv & Hu & _). cbn [scanDigits]. rewrite (proj2 (Z.eqb_neq _ _)) by done. cbn [andb].
    rewrite Hv. pose proof (from_hex_range _ _ Hd). rewrite (proj2 (Z.leb_gt _ _)) by lia. rewrite IH. cbn [sc_prev sc_invalSep sc_count sc_value].
    cbn [parseHex]. rewrite Hd, zlen_cons. f_equal. f_equal; [by case_bool_decide|lia].
Qed.

Lemma nat_scan_hex s v : Forall is_hex s -> s <> [] -> parseHex s 0 = Some v -> nat_scan 16 s = Some (v, []).
Proof.
  intros Hs Hne Hv. unfold nat_scan, scanPrefix. cbn [Z.eqb]. rewrite scanDigits_hex by auto. cbn [sc_prev sc_invalSep sc_count sc_value orb].
  rewrite bool_decide_eq_false_2 by done. rewrite Hv. cbn [default]. rewrite (proj2 (Z.eqb_neq _ _)); [done|].
  destruct s; [done|]. rewrite zlen_cons. zlen_lia.
Qed.

(** A text of hex digits in base 16, and with the prefix in base 0. *)
Lemma SetString_hex s v : Forall is_hex s -> s <> [] -> parseHex s 0 = Some v -> SetString s 16 = Some v.
Proof.
  intros Hs Hne Hv. destruct s as [|c r]; [done|]. unfold SetString. pose proof Hs as [[d Hd] _]%Forall_cons.
  destruct (hex_digitVal c d Hd) as (_ & _ & H45 & H43 & _). rewrite !(proj2 (Z.eqb_neq (b2z c) _)) by done. cbn [orb].
  by rewrite (nat_scan_hex _ _ Hs Hne Hv).
Qed.

Lemma SetString_prefixed s v : has0xPrefix s = true -> Forall is_hex (drop 2 s) -> drop 2 s <> [] -> parseHex (drop 2 s) 0 = Some v ->
  SetString s 0 = Some v.
Proof.
  intros Hp Hs Hne Hv. destruct s as [|a [|b r]]; try done. change (drop 2 (a :: b :: r)) with r in *. cbn [has0xPrefix] in Hp.
  apply andb_true_iff in Hp as [Ha%Z.eqb_eq Hb%Z.eqb_eq]. unfold SetString. rewrite Ha. cbn [Z.eqb Pos.eqb orb].
  unfold nat_scan, scanPrefix. cbn [Z.eqb]. rewrite Ha. cbn [Z.eqb Pos.eqb]. rewrite Hb. cbn [Z.eqb Pos.eqb].
  rewrite scanDigits_hex by auto. cbn [sc_prev sc_invalSep sc_count sc_value orb]. rewrite bool_decide_eq_false_2 by done.
  rewrite Hv. cbn [default]. rewrite (proj2 (Z.eqb_neq _ _)); [done|]. destruct r; [done|]. rewrite zlen_cons. zlen_lia.
Qed.

Lemma hex_not_x c : is_hex c -> Z.lor (b2z c) 32 <> 120.
Proof. intros [v Hv] He. destruct c; vm_compute in Hv, He; discriminate. Qed.

Lemma strip0x_hex s : Forall is_hex s -> strip0x s = s.
Proof.
  intros Hs. unfold strip0x, has0xPrefix. destruct s as [|a [|b r]]; [done..|]. apply Forall_cons in Hs as [_ [Hb _]%Forall_cons].
  apply hex_not_x in Hb. rewrite (proj2 (Z.eqb_neq _ 120)) by done. by rewrite andb_false_r.
Qed.

(** ** Words *)

(** A number on 32 bytes as the ABI writes it, and with the prefix. *)
Definition word (v : Z) : bytes := hex_EncodeToString (be_put 32 v).
Definition topic (v : Z) : bytes := x30 :: x78 :: word v.

Definition is_word (v : Z) : Prop := 0 <= v < 2 ^ 256.

Lemma zlen_word v : zlen (word v) = evmWordHex.
Proof. unfold word, zlen. by rewrite hex_Encode_length, be_put_length. Qed.

Lemma word_decode v : hex_DecodeString (word v) = Ok (be_put 32 v).
Proof. apply hex_Decode_Encode. Qed.

Lemma word_hex v : Forall is_hex (word v).
Proof. eapply hex_decode_digits, word_decode. Qed.

Lemma word_value v : is_word v -> be_get (be_put 32 v) = v.
Proof. intros Hv. apply be_put_small. exact Hv. Qed.

Lemma hexDecodeInto_word v : hexDecodeInto evmWordBytes (word v) = Some (be_put 32 v).
Proof. by rewrite hexDecodeInto_hex, zlen_word, word_decode. Qed.

Lemma setBig_word v base : is_word v -> setBigFromHexWord (word v) base = Some v /\ setBigFromHexWord (topic v) base = Some v.
Proof.
  intros Hv. unfold setBigFromHexWord. rewrite (strip0x_hex _ (word_hex v)). change (strip0x (topic v)) with (word v).
  rewrite hexDecodeInto_word, word_value by done. done.
Qed.

Section Addresses.
Context {G : GoEth} {C : GoEthCommon} {CL : GoEthCommonLaws C}.

(** The address of a text of hex digits is the one [BigToAddress] gives for its value, whether
    it is decoded directly or as a number. *)
Lemma padded_hex s v : Forall is_hex (strip0x s) -> strip0x s <> [] -> parseHex (strip0x s) 0 = Some v ->
  addressFromPaddedHex s = Ok (Address_String (BigToAddress v)).
Proof.
  intros Hs Hne Hv. unfold addressFromPaddedHex. set (d := strip0x s) in *. change (EthereumTypeAddressDescriptorLen * 2) with 40.
  destruct (Z.leb_spec 40 (zlen d)) as [Hl|Hl]; cbn [rbind]; [|by rewrite (SetString_hex d v Hs Hne Hv)].
  unfold slice_from. rewrite (proj2 (Z.leb_le 0 _)), (proj2 (Z.leb_le _ (zlen d))) by lia. cbn [andb rbind].
  set (k := Z.to_nat (zlen d - 40)). assert (Hk : length (drop k d) = 40%nat) by (rewrite length_drop; unfold k, zlen in *; lia).
  destruct (hex_digits_decode (drop k d)) as [b Hb]; [by apply Forall_drop|rewrite Hk; by exists 20%nat|].
  rewrite hexDecodeInto_hex. unfold zlen at 1. rewrite Hk. cbn [Z.of_nat Pos.of_succ_nat]. change (40 =? 2 * EthereumTypeAddressDescriptorLen) with true.
  cbn [Z.eqb]. rewrite Hb. do 2 f_equal. rewrite BigToAddress_spec.
  rewrite <- (take_drop k d), parseHex_app in Hv. destruct (parseHex_digits (take k d) 0 (Forall_take _ _ _ Hs)) as [v1 Hv1].
  rewrite Hv1, (parseHex_decode _ _ v1 Hb) in Hv. injection Hv as <-.
  pose proof (hex_Decode_length _ _ Hb) as Hlb. assert (length b = 20%nat) as Hb20 by lia.
  apply parseHex_nonneg in Hv1; [|done]. pose proof (be_get_range b) as Hr.
  assert (zlen b = Z.of_nat 20) as Hz by (unfold zlen; by rewrite Hb20). rewrite Hz in *. rewrite Z.abs_eq by nia.
  rewrite <- be_put_modulo, Z.add_comm, Z.mod_add, Z.mod_small by lia. rewrite <- Hb20. symmetry. apply be_put_get.
Qed.

Definition addressWord (a : bytes) : Z := be_get a.

Lemma addressWord_word a : zlen a = EthereumTypeAddressDescriptorLen -> is_word (addressWord a) /\ be_put 20 (addressWord a) = a.
Proof.
  intros Ha. unfold addressWord, is_word. pose proof (be_get_range a) as Hr. rewrite Ha in Hr. split.
  - split; [lia|]. apply (Z.lt_trans _ _ _ (proj2 Hr)). vm_compute. reflexivity.
  - assert (length a = 20%nat) as <- by (unfold zlen, EthereumTypeAddressDescriptorLen in Ha; lia). apply be_put_get.
Qed.

(** A topic that holds an address. *)
Lemma topic_address a : zlen a = EthereumTypeAddressDescriptorLen ->
  addressFromPaddedHex (topic (addressWord a)) = Ok (Address_String a) /\ addressFromPaddedHex (word (addressWord a)) = Ok (Address_String a).
Proof.
  intros Ha. destruct (addressWord_word a Ha) as [Hw He].
  assert (Hp : parseHex (word (addressWord a)) 0 = Some (addressWord a)).
  { rewrite (parseHex_decode _ _ 0 (word_decode _)), word_value by done. f_equal. }
  assert (Hb : BigToAddress (addressWord a) = a) by (rewrite BigToAddress_spec, Z.abs_eq by (destruct Hw; lia); done).
  assert (word (addressWord a) <> []) by (intros Hn; pose proof (zlen_word (addressWord a)) as Hl; rewrite Hn in Hl; done).
  rewrite <- Hb at 2 4. split; apply padded_hex.
  1-3: change (strip0x (topic (addressWord a))) with (word (addressWord a)); first [apply word_hex|done].
  all: rewrite (strip0x_hex _ (word_hex _)); first [apply word_hex|done].
Qed.
End Addresses.

(** ** Safety *)

(** The digits of a word: the fast decoder of numbers is the number that the digits write, in
    the base the callers pass; every other text goes to package [big]. *)
Definition hexWord (s : bytes) : Prop := zlen (strip0x s) = evmWordHex /\ Forall is_hex (strip0x s).

Lemma hexWord_decode s : hexWord s -> exists b, hexDecodeInto evmWordBytes (strip0x s) = Some b
  /\ hex_DecodeString (strip0x s) = Ok b /\ zlen b = evmWordBytes.
Proof.
  intros [Hl Hs]. unfold zlen, evmWordHex, evmWordBytes in Hl. assert (length (strip0x s) = 64%nat) as Hn by lia.
  destruct (hex_digits_decode (strip0x s) Hs) as [b Hb]; [rewrite Hn; by exists 32%nat|]. exists b.
  rewrite hexDecodeInto_hex. unfold zlen at 1. rewrite Hn. cbn. rewrite Hb. split_and!; [done..|].
  apply hex_Decode_length in Hb. unfold zlen, evmWordBytes. lia.
Qed.

Lemma not_hexWord_decode s : ~ hexWord s -> hexDecodeInto evmWordBytes (strip0x s) = None.
Proof.
  intros Hn. rewrite hexDecodeInto_hex. destruct (Z.eqb_spec (zlen (strip0x s)) (2 * evmWordBytes)) as [Hl|]; [|done].
  destruct (hex_DecodeString (strip0x s)) as [b| |] eqn:Hd; try done. destruct Hn. split; [done|]. by eapply hex_decode_digits.
Qed.

(** A text of 64 hex digits, with or without the prefix 0x, is decoded to the number that
    the digits write, which has 256 bits and is what [big.Int.SetString] gives for the text in the
    base its callers pass (0 with the prefix, 16 without); any other text is left to [SetString]. *)
Theorem hex_word_fast s base :
  (hexWord s -> exists v, parseHex (strip0x s) 0 = Some v /\ is_word v /\ setBigFromHexWord s base = Some v
     /\ (base = (if has0xPrefix s then 0 else 16) -> SetString s base = Some v))
  /\ (~ hexWord s -> setBigFromHexWord s base = SetString s base).
Proof.
  unfold setBigFromHexWord. split; [|by intros ->%not_hexWord_decode].
  intros Hw. destruct (hexWord_decode s Hw) as (b & -> & Hd & Hz). destruct Hw as [Hl Hs]. exists (be_get b).
  pose proof (parseHex_decode _ _ 0 Hd) as Hv. cbn [Z.mul Z.add] in Hv. pose proof (be_get_range b) as Hr. rewrite Hz in Hr.
  split_and!; [done|done|done|]. assert (strip0x s <> []) as Hne by (intros Hn; rewrite Hn in Hl; done).
  unfold strip0x in *. destruct (has0xPrefix s) eqn:Hp; intros ->; [by apply SetString_prefixed|by apply SetString_hex].
Qed.

Lemma slice_in {A} (l : list A) i j : 0 <= i -> i <= j -> j <= zlen l -> exists r, slice l i j = Ok r /\ zlen r = j - i.
Proof.
  intros Hi Hj Hl. unfold slice. rewrite !(proj2 (Z.leb_le _ _)) by lia. cbn [andb]. eexists. split; [done|].
  unfold zlen in *. rewrite length_take, length_drop. lia.
Qed.

Lemma slice_from_in {A} (l : list A) i : 0 <= i -> i <= zlen l -> exists r, slice_from l i = Ok r /\ zlen r = zlen l - i.
Proof.
  intros Hi Hl. unfold slice_from. rewrite !(proj2 (Z.leb_le _ _)) by lia. cbn [andb]. eexists. split; [done|].
  unfold zlen in *. rewrite length_drop. lia.
Qed.

Lemma hexDecodeInto_length n s b : hexDecodeInto n s = Some b -> zlen b = n.
Proof.
  rewrite hexDecodeInto_hex. destruct (Z.eqb_spec (zlen s) (2 * n)) as [Hl|]; [|done].
  destruct (hex_DecodeString s) as [b'| |] eqn:Hd; try done. intros [= ->]. apply hex_Decode_length in Hd. unfold zlen in *. lia.
Qed.

(** A number read from the data has 64 bits, and there is a word where it is read. *)
Lemma parseEVMLogWordUint64_ok data offset : parseEVMLogWordUint64 data offset <> Panic
  /\ forall v, parseEVMLogWordUint64 data offset = Ok v -> is_u64 v /\ 0 <= offset /\ offset + evmWordHex <= zlen data.
Proof.
  unfold parseEVMLogWordUint64, evmWordHex, evmWordBytes.
  destruct ((offset <? 0) || (zlen data <? offset) || (zlen data - offset <? 32 * 2)) eqn:Hg; [done|].
  assert (0 <= offset /\ offset + 32 * 2 <= zlen data) as [Ho Hl] by lia.
  destruct (slice_in data offset (offset + 32 * 2)) as (w & -> & _); [lia..|]. cbn [rbind].
  destruct (hexDecodeInto 32 w) as [b|] eqn:Hb; [|done]. apply hexDecodeInto_length in Hb.
  destruct (slice_in b 0 (32 - 8)) as (h & -> & _); [lia..|]. cbn [rbind]. case_match; [|done].
  destruct (slice_from_in b (32 - 8)) as (lo & -> & Hlo); [lia..|]. cbn [rbind]. split; [done|]. intros v [= <-].
  split; [|lia]. pose proof (be_get_range lo) as Hr. rewrite Hlo, Hb in Hr. exact Hr.
Qed.

Lemma erc1155BatchOffsetHex_ok o : is_u64 o -> erc1155BatchOffsetHex o <> Panic
  /\ forall v, erc1155BatchOffsetHex o = Ok v -> v = 2 * o /\ 0 <= v < 2 ^ 63.
Proof.
  unfold erc1155BatchOffsetHex, is_u64, maxInt. intros Ho. repeat case_match; try done. split; [done|]. intros v [= <-].
  assert (o * 2 < 2 ^ 63). { pose proof (Z.mul_div_le (2 ^ 63 - 1) 2). lia. }
  rewrite i64_u64 by (unfold is_i64; lia). lia.
Qed.

Lemma erc1155BatchArrayEnd_ok offset count : is_u64 count -> 0 <= offset < 2 ^ 63 -> erc1155BatchArrayEnd offset count <> Panic
  /\ forall v, erc1155BatchArrayEnd offset count = Ok v -> v = offset + evmWordHex * (1 + count) /\ v < 2 ^ 63.
Proof.
  unfold erc1155BatchArrayEnd, is_u64, maxInt. change evmWordHex with 64. intros Hc Ho. rewrite (proj2 (Z.ltb_ge offset 0)) by lia.
  rewrite (u64_id (offset + 64)) by (unfold is_u64; lia).
  destruct ((2 ^ 63 - 1 <? offset + 64) || (u64 (2 ^ 63 - 1 - (offset + 64)) / 64 <? count)) eqn:Hg; [done|].
  apply orb_false_iff in Hg as [H1%Z.ltb_ge H2%Z.ltb_ge]. rewrite u64_id in H2 by (unfold is_u64; lia).
  assert (count * 64 <= 2 ^ 63 - 1 - (offset + 64)). { pose proof (Z.mul_div_le (2 ^ 63 - 1 - (offset + 64)) 64). lia. }
  split; [done|]. intros v [= <-]. rewrite (u64_id (count * 64)) by (unfold is_u64; lia). rewrite i64_u64 by (unfold is_i64; lia). lia.
Qed.

Lemma numberOr_inv {A} o msg (k : Z -> result A) r : numberOr o msg k = Ok r -> exists v, o = Some v /\ k v = Ok r.
Proof. destruct o as [v|]; [|done]. by exists v. Qed.

Lemma numberOr_no_panic {A} o msg (k : Z -> result A) : (forall v, k v <> Panic) -> numberOr o msg k <> Panic.
Proof. intros Hk. destruct o; [apply Hk|done]. Qed.

Lemma rbind_no_panic {A B} (r : result A) (k : A -> result B) : r <> Panic -> (forall a, r = Ok a -> k a <> Panic) -> rbind r k <> Panic.
Proof. intros Hr Hk. destruct r; cbn; [by apply Hk|done|done]. Qed.

Lemma batchValues_ok n i data oi ov : 0 <= i -> 0 <= oi -> 0 <= ov -> zlen data < 2 ^ 62 ->
  oi + evmWordHex * (1 + i + Z.of_nat n) <= zlen data -> ov + evmWordHex * (1 + i + Z.of_nat n) <= zlen data ->
  batchValues n i data oi ov <> Panic /\ forall vs, batchValues n i data oi ov = Ok vs -> zlen vs = Z.of_nat n.
Proof.
  change evmWordHex with 64. intros Hi Hoi Hov Hd. revert i Hi. induction n as [|n IH]; intros i Hi H1 H2; cbn [batchValues].
  - split; [done|]. by intros vs [= <-].
  - change evmWordHex with 64. rewrite !(i64_id (oi + _ + _)), !(i64_id (ov + _ + _)) by (unfold is_i64; lia).
    rewrite !i64_id by (unfold is_i64; lia).
    destruct (slice_in data (oi + 64 + 64 * i) (oi + 64 + 64 * i + 64)) as (w1 & -> & _); [lia..|].
    destruct (slice_in data (ov + 64 + 64 * i) (ov + 64 + 64 * i + 64)) as (w2 & -> & _); [lia..|]. cbn [rbind].
    destruct (IH (i + 1)) as [Hp Hv]; [lia..|]. split.
    + apply numberOr_no_panic. intros v1. apply numberOr_no_panic. intros v2. by apply rbind_no_panic.
    + intros vs (v1 & _ & (v2 & _ & (r & Hr & [= <-])%rbind_Ok)%numberOr_inv)%numberOr_inv. apply Hv in Hr. rewrite zlen_cons. lia.
Qed.

Lemma batchData_ok data : zlen data < 2 ^ 62 -> batchData data <> Panic /\ forall vs, batchData data = Ok vs -> evmWordHex * (3 + zlen vs) <= zlen data.
Proof.
  intros Hd. unfold batchData. case_match; [done|].
  destruct (parseEVMLogWordUint64_ok data 0) as [N1 W1]. destruct (parseEVMLogWordUint64 data 0) as [o1| |] eqn:E1; try done. cbn [rbind].
  destruct (W1 o1 eq_refl) as [U1 _]. destruct (erc1155BatchOffsetHex_ok o1 U1) as [N2 W2].
  destruct (erc1155BatchOffsetHex o1) as [oi| |] eqn:E2; try done. cbn [rbind]. destruct (W2 oi eq_refl) as [-> Hoi].
  destruct (parseEVMLogWordUint64_ok data evmWordHex) as [N3 W3]. destruct (parseEVMLogWordUint64 data evmWordHex) as [o2| |] eqn:E3; try done. cbn [rbind].
  destruct (W3 o2 eq_refl) as [U2 _]. destruct (erc1155BatchOffsetHex_ok o2 U2) as [N4 W4].
  destruct (erc1155BatchOffsetHex o2) as [ov| |] eqn:E4; try done. cbn [rbind]. destruct (W4 ov eq_refl) as [-> Hov].
  destruct (parseEVMLogWordUint64_ok data (2 * o1)) as [N5 _]. destruct (parseEVMLogWordUint64 data (2 * o1)) as [ci| |]; try done. cbn [rbind].
  destruct (parseEVMLogWordUint64_ok data (2 * o2)) as [N6 W6]. destruct (parseEVMLogWordUint64 data (2 * o2)) as [c| |]; try done. cbn [rbind].
  destruct (W6 c eq_refl) as [Hc _]. case_match; [done|].
  destruct (erc1155BatchArrayEnd_ok (2 * o1) c Hc Hoi) as [N7 W7]. destruct (erc1155BatchArrayEnd (2 * o1) c) as [e1| |]; try done. cbn [rbind].
  destruct (W7 e1 eq_refl) as [-> _]. case_match; [done|].
  destruct (erc1155BatchArrayEnd_ok (2 * o2) c Hc Hov) as [N8 W8]. destruct (erc1155BatchArrayEnd (2 * o2) c) as [e2| |]; try done. cbn [rbind].
  destruct (W8 e2 eq_refl) as [-> _]. case_match; [done|].
  change evmWordHex with 64 in *. unfold is_u64 in Hc. rewrite i64_id by (unfold is_i64; lia).
  destruct (batchValues_ok (Z.to_nat c) 0 data (2 * o1) (2 * o2)) as [Hp Hv]; try done; change evmWordHex with 64; [lia..|].
  split; [done|]. intros vs Hvs%Hv. unfold erc1155BatchOffsetHex in E2. destruct (Z.ltb_spec o1 (2 * evmWordBytes)) as [|Ho]; [done|].
  unfold evmWordBytes in Ho. lia.
Qed.

Section Safety.
Context {G : GoEth} {GL : GoEthLaws G} {C : GoEthCommon}.

Lemma EIP55Address_no_panic d : EIP55Address d <> Panic.
Proof.
  destruct (Z.eqb_spec (zlen d) EthereumTypeAddressDescriptorLen) as [Hd|Hd].
  - destruct (EIP55Address_ok d Hd) as (s & -> & _). done.
  - unfold EIP55Address. rewrite hexutil_Encode_spec, !zlen_cons. rewrite (proj2 (Z.eqb_neq _ _)); [done|].
    unfold EthereumTypeAddressDescriptorLen, zlen in *. rewrite hex_Encode_length. lia.
Qed.

Lemma EIP55AddressFromAddress_no_panic a : EIP55AddressFromAddress a <> Panic.
Proof.
  unfold EIP55AddressFromAddress. destruct (hex_DecodeString (strip0x a)) eqn:E; [apply EIP55Address_no_panic|done|].
  by destruct (hex_DecodeString_no_panic (strip0x a)).
Qed.

Lemma addressFromPaddedHex_no_panic s : addressFromPaddedHex s <> Panic.
Proof.
  unfold addressFromPaddedHex. apply rbind_no_panic; [|intros [a|] _; [done|by case_match]].
  case_match; [|done]. destruct (slice_from_in (strip0x s) (zlen (strip0x s) - EthereumTypeAddressDescriptorLen * 2)) as (r & -> & _); [|unfold EthereumTypeAddressDescriptorLen in *; lia|done].
  apply Z.leb_le in H. lia.
Qed.

Ltac no_panic :=
  lazymatch goal with
  | |- rbind (slice ?l ?i ?j) _ <> Panic => destruct (slice_in l i j) as (? & -> & _); [lia..|]; cbn [rbind]
  | |- rbind (slice_from ?l ?i) _ <> Panic => destruct (slice_from_in l i) as (? & -> & _); [lia..|]; cbn [rbind]
  | |- rbind (addressFromPaddedHex _) _ <> Panic => apply rbind_no_panic; [apply addressFromPaddedHex_no_panic|intros ? _]
  | |- rbind (EIP55AddressFromAddress _) _ <> Panic => apply rbind_no_panic; [apply EIP55AddressFromAddress_no_panic|intros ? _]
  | |- numberOr _ _ _ <> Panic => apply numberOr_no_panic; intros ?
  | |- Ok _ <> Panic => done
  end.

Lemma contractGetTransfersFromTx_no_panic tx : contractGetTransfersFromTx tx <> Panic.
Proof.
  unfold contractGetTransfersFromTx. destruct ((zlen (rt_Payload tx) =? 10 + 128) && _) eqn:E1; [apply andb_true_iff in E1 as [Hl%Z.eqb_eq _]; repeat no_panic|].
  destruct ((10 + 192 <=? zlen (rt_Payload tx)) && _) eqn:E2; [|done]. apply andb_true_iff in E2 as [Hl%Z.leb_le _]. repeat no_panic.
Qed.

Lemma getEnsRecord_ok l : getEnsRecord l <> Panic /\ forall r, getEnsRecord l = Ok (Some r) -> 2 * zlen (aa_Name r) <= zlen (log_Data l) - 258.
Proof.
  unfold getEnsRecord. destruct (log_Topics l) as [|t0 [|t1 [|t2 [|]]]]; try done. case_match eqn:Hg; [|done].
  apply andb_true_iff in Hg as [_ Hg%Z.leb_le]. pose proof (addressFromPaddedHex_no_panic t2) as Hp.
  destruct (addressFromPaddedHex t2) as [a| |]; try done.
  destruct (slice_in (log_Data l) 194 (194 + 64)) as (w & -> & _); [lia..|]. cbn [rbind]. destruct (ParseInt16 w) as [c|]; [|done].
  set (de := i64 _). destruct ((zlen (log_Data l) <? de) || (de <? 194 + 64)) eqn:Hd; [done|].
  destruct (slice_in (log_Data l) (194 + 64) de) as (n & -> & Hn); [lia..|]. cbn [rbind].
  destruct (hex_DecodeString n) as [b| |] eqn:Hb; try done. split; [done|]. intros r [= <-]. cbn [aa_Name].
  apply hex_Decode_length in Hb. unfold zlen in *. lia.
Qed.

(** C27: whatever the contracts wrote, the decoders stay inside of the data: reading a batch
    never panics (so its [recover] is not needed) and gives at most one value for every word
    after the header, for every data that fits the memory; a name is at most the text after its
    length and its length, which wraps as a Go integer, never makes a slice panic; the transfers
    of a transaction are read from its receipt or from its payload without a panic, unless the transaction
    has neither a receipt nor the RPC transaction with the payload. *)
Theorem log_decoders_safe data l ignored tx :
  zlen data < 2 ^ 62 ->
  (batchData data <> Panic /\ forall vs, batchData data = Ok vs -> evmWordHex * (3 + zlen vs) <= zlen data)
  /\ (getEnsRecord l <> Panic /\ forall r, getEnsRecord l = Ok (Some r) -> 2 * zlen (aa_Name r) <= zlen (log_Data l) - 258)
  /\ (GetTokenTransfersFromTx ignored tx = Panic <->
        exists csd, etx_CoinSpecificData tx = Some csd /\ esd_Receipt csd = None /\ esd_Tx csd = None).
Proof.
  intros Hd. split; [by apply batchData_ok|]. split; [apply getEnsRecord_ok|]. unfold GetTokenTransfersFromTx.
  destruct (etx_CoinSpecificData tx) as [csd|]; [|naive_solver]. destruct (esd_Receipt csd) eqn:Hr; [naive_solver|].
  destruct (esd_Tx csd) as [rtx|] eqn:Ht; [|naive_solver]. split; [|naive_solver].
  destruct (isIgnoredContract _ _); [done|]. by intros H%contractGetTransfersFromTx_no_panic.
Qed.
End Safety.

(** ** What is encoded is read *)

Definition words (vs : list Z) : bytes := concat (map word vs).

Lemma zlen_words vs : zlen (words vs) = evmWordHex * zlen vs.
Proof. induction vs as [|v vs IH]; [done|]. unfold words in *. cbn [map concat]. rewrite zlen_app, zlen_cons, zlen_word, IH. lia. Qed.

Lemma slice_words a vs c i v o : vs !! i = Some v -> o = zlen a + evmWordHex * Z.of_nat i ->
  slice (a ++ words vs ++ c) o (o + evmWordHex) = Ok (word v).
Proof.
  intros Hi ->. rewrite <- (take_drop_middle vs i v Hi). unfold words. rewrite map_app, concat_app. cbn [map concat].
  rewrite <- !app_assoc, (app_assoc a). apply slice_app; rewrite zlen_app; fold (words (take i vs)); rewrite zlen_words, ?zlen_word;
    apply lookup_lt_Some in Hi; unfold zlen; rewrite length_take, Nat.min_l; lia.
Qed.

Lemma be_put_word v : is_u64 v -> be_put 32 v = replicate 24 x00 ++ be_put 8 v.
Proof.
  intros Hv. rewrite <- (be_put_get (replicate 24 x00 ++ be_put 8 v)), be_get_app, be_put_small by exact Hv.
  rewrite length_app, length_replicate, be_put_length. f_equal.
Qed.

Lemma read_word a v c o : is_u64 v -> o = zlen a -> parseEVMLogWordUint64 (a ++ word v ++ c) o = Ok v.
Proof.
  intros Hv ->. unfold parseEVMLogWordUint64. pose proof (zlen_word v) as Hw.
  rewrite (proj2 (Z.ltb_ge (zlen a) 0)), (proj2 (Z.ltb_ge _ (zlen a))), (proj2 (Z.ltb_ge _ evmWordHex)) by zlen_lia. cbn [orb].
  rewrite (slice_app a (word v) c) by lia. cbn [rbind]. rewrite hexDecodeInto_word, (be_put_word v Hv), slice_0_app by done.
  cbn [rbind]. change (forallb _ (replicate 24 x00)) with true. cbv iota. rewrite slice_from_app by done. cbn [rbind].
  by rewrite be_put_small.
Qed.

(** The data of a batch as the ABI encodes two arrays. *)
Definition encodeBatch (vs : list MultiTokenValue) : bytes :=
  word 64 ++ word (96 + 32 * zlen vs) ++ word (zlen vs) ++ words (map mtv_Id vs) ++ word (zlen vs) ++ words (map mtv_Value vs).

Definition ok_values (vs : list MultiTokenValue) : Prop :=
  Forall (fun m => is_word (mtv_Id m) /\ is_word (mtv_Value m)) vs /\ zlen vs < 2 ^ 54.

Lemma batchValues_read vs n i a b c oi ov :
  Forall (fun m => is_word (mtv_Id m) /\ is_word (mtv_Value m)) vs ->
  zlen (a ++ words (map mtv_Id vs) ++ b ++ words (map mtv_Value vs) ++ c) < 2 ^ 62 ->
  (i + n = length vs)%nat -> oi + evmWordHex = zlen a -> ov + evmWordHex = zlen a + evmWordHex * zlen vs + zlen b -> 0 <= oi -> 0 <= ov ->
  batchValues n (Z.of_nat i) (a ++ words (map mtv_Id vs) ++ b ++ words (map mtv_Value vs) ++ c) oi ov = Ok (drop i vs).
Proof.
  intros Hvs Hl Hn Hoi Hov H1 H2. revert i Hn. induction n as [|n IH]; intros i Hn; cbn [batchValues]; [by rewrite drop_ge by lia|].
  destruct (lookup_lt_is_Some_2 vs i ltac:(lia)) as [m Hm]. destruct (Forall_lookup_1 _ _ _ _ Hvs Hm) as [Hid Hval].
  assert (Hz : zlen (a ++ words (map mtv_Id vs) ++ b ++ words (map mtv_Value vs) ++ c) = zlen a + evmWordHex * zlen vs + zlen b + evmWordHex * zlen vs + zlen c).
  { rewrite !zlen_app, !zlen_words. unfold zlen. rewrite !length_map. lia. }
  rewrite Hz in Hl. pose proof (lookup_lt_Some _ _ _ Hm). pose proof (zlen_nonneg a). pose proof (zlen_nonneg b). pose proof (zlen_nonneg c).
  change evmWordHex with 64 in *. assert (Z.of_nat i < zlen vs) by (unfold zlen; lia).
  rewrite !(i64_id (oi + _ + _)), !(i64_id (ov + _ + _)) by (unfold is_i64; lia). rewrite !i64_id by (unfold is_i64; lia).
  rewrite (slice_words a (map mtv_Id vs) _ i (mtv_Id m)) by (rewrite ?list_lookup_fmap, ?Hm; first [done|change evmWordHex with 64; lia]).
  cbn [rbind]. rewrite (proj1 (setBig_word _ 16 Hid)). cbn [numberOr].
  rewrite (app_assoc a), (app_assoc (a ++ _)).
  rewrite (slice_words _ (map mtv_Value vs) c i (mtv_Value m));
    [|by rewrite list_lookup_fmap, Hm|rewrite !zlen_app, zlen_words; unfold zlen at 2; rewrite length_map; change evmWordHex with 64; unfold zlen in *; lia].
  cbn [rbind]. rewrite (proj1 (setBig_word _ 16 Hval)). cbn [numberOr]. rewrite <- !app_assoc.
  replace (Z.of_nat i + 1) with (Z.of_nat (S i)) by lia. rewrite IH by lia. cbn [rbind]. rewrite (drop_S _ _ _ Hm). by destruct m.
Qed.

Lemma zlen_encodeBatch vs : zlen (encodeBatch vs) = evmWordHex * (4 + 2 * zlen vs).
Proof. unfold encodeBatch. rewrite !zlen_app, !zlen_words, !zlen_word. unfold zlen. rewrite !length_map. lia. Qed.

Lemma batchOffset_read o : 64 <= o < 2 ^ 61 -> o mod 32 = 0 -> erc1155BatchOffsetHex o = Ok (2 * o).
Proof.
  intros Ho Hm. unfold erc1155BatchOffsetHex, evmWordBytes, maxInt. rewrite (proj2 (Z.ltb_ge _ _)) by lia. rewrite Hm. cbn [Z.eqb negb].
  rewrite (proj2 (Z.ltb_ge _ _)) by (pose proof (Z.div_le_lower_bound (2 ^ 63 - 1) 2 (2 ^ 61)); lia).
  rewrite i64_u64 by (unfold is_i64; lia). f_equal. lia.
Qed.

Lemma batchEnd_read o c : 0 <= o < 2 ^ 62 -> 0 <= c < 2 ^ 54 -> erc1155BatchArrayEnd o c = Ok (o + 64 * (1 + c)).
Proof.
  intros Ho Hc. unfold erc1155BatchArrayEnd, maxInt. change evmWordHex with 64. rewrite (proj2 (Z.ltb_ge o _)) by lia.
  rewrite (u64_id (o + 64)) by (unfold is_u64; lia). rewrite (proj2 (Z.ltb_ge _ (o + 64))) by lia.
  rewrite (u64_id (2 ^ 63 - 1 - _)) by (unfold is_u64; lia).
  rewrite (proj2 (Z.ltb_ge _ c)) by (pose proof (Z.div_le_lower_bound (2 ^ 63 - 1 - (o + 64)) 64 (2 ^ 54)); lia). cbn [orb].
  rewrite (u64_id (c * 64)) by (unfold is_u64; lia). rewrite i64_u64 by (unfold is_i64; lia). f_equal. lia.
Qed.

Lemma batchData_read vs : ok_values vs -> batchData (encodeBatch vs) = Ok vs.
Proof.
  intros [Hvs Hn]. pose proof (zlen_nonneg vs) as Hz. set (n := zlen vs) in *. pose proof (zlen_encodeBatch vs) as Hl. fold n in Hl.
  change evmWordHex with 64 in Hl. unfold batchData. rewrite Hl. change evmWordHex with 64. rewrite (proj2 (Z.ltb_ge _ _)) by lia.
  rewrite Z.mul_comm, Z.mod_mul, Z.eqb_refl by lia. cbn [orb negb].
  set (ids := words (map mtv_Id vs)). set (values := words (map mtv_Value vs)).
  assert (Hids : zlen ids = 64 * n) by (unfold ids; rewrite zlen_words; unfold zlen at 1; by rewrite length_map).
  assert (Hw : forall v, zlen (word v) = 64) by (intros v; apply zlen_word).
  assert (R1 : parseEVMLogWordUint64 (encodeBatch vs) 0 = Ok 64) by (apply (read_word []); done).
  assert (R2 : parseEVMLogWordUint64 (encodeBatch vs) 64 = Ok (96 + 32 * n)) by (apply (read_word (word 64)); [unfold is_u64; lia|by rewrite Hw]).
  assert (R3 : parseEVMLogWordUint64 (encodeBatch vs) (2 * 64) = Ok n).
  { unfold encodeBatch. rewrite (app_assoc (word 64)). apply read_word; [unfold is_u64; lia|rewrite zlen_app, !Hw; lia]. }
  assert (R4 : parseEVMLogWordUint64 (encodeBatch vs) (2 * (96 + 32 * n)) = Ok n).
  { unfold encodeBatch. rewrite (app_assoc (word 64)), (app_assoc (_ ++ _)), (app_assoc (_ ++ _)). fold ids n.
    apply read_word; [unfold is_u64; lia|rewrite !zlen_app, !Hw, Hids; lia]. }
  rewrite R1. cbn [rbind]. rewrite batchOffset_read by done. cbn [rbind]. rewrite R2. cbn [rbind].
  rewrite batchOffset_read; [|lia|replace (96 + 32 * n) with ((3 + n) * 32) by lia; apply Z.mod_mul; lia]. cbn [rbind].
  rewrite R3, R4. cbn [rbind]. rewrite Z.eqb_refl. cbn [negb]. rewrite !batchEnd_read by lia. cbn [rbind].
  rewrite !(proj2 (Z.ltb_ge _ _)) by lia. rewrite i64_id by (unfold is_i64; lia).
  replace (encodeBatch vs) with ((word 64 ++ word (96 + 32 * n) ++ word n) ++ ids ++ word n ++ values ++ [])
    by (unfold encodeBatch; by rewrite <- !app_assoc, app_nil_r).
  assert (zlen (word 64 ++ word (96 + 32 * n) ++ word n) = 192) as Ha by (rewrite !zlen_app, !Hw; lia).
  rewrite (batchValues_read vs (Z.to_nat n) 0); rewrite ?Ha, ?Hw; change evmWordHex with 64; try done; try lia; [|unfold n, zlen; lia].
  fold ids values. rewrite !zlen_app, Hids, !Hw. unfold values at 1. rewrite zlen_words. unfold zlen at 1. rewrite length_map. change evmWordHex with 64. fold (zlen vs). fold n.
  rewrite zlen_nil. lia.
Qed.

(** The events of the standards, with addresses as bytes, and any other event. *)
Inductive tokenEvent :=
| Transfer20 (contract from to : bytes) (value : Z)
| Transfer721 (contract from to : bytes) (id : Z)
| TransferSingle (contract operator from to : bytes) (m : MultiTokenValue)
| TransferBatch (contract operator from to : bytes) (vs : list MultiTokenValue)
| OtherEvent (contract signature : bytes) (topics : list bytes) (data : bytes).

Definition hex0x (b : bytes) : bytes := x30 :: x78 :: hex_EncodeToString b.
Definition data0x (s : bytes) : bytes := x30 :: x78 :: s.
Definition atopic (a : bytes) : bytes := topic (addressWord a).

(** The log of an event as the ABI encodes it. *)
Definition encodeEvent (e : tokenEvent) : RpcLog :=
  match e with
  | Transfer20 c f t v => mkRpcLog (hex0x c) [tokenTransferEventSignature; atopic f; atopic t] (topic v)
  | Transfer721 c f t id => mkRpcLog (hex0x c) [tokenTransferEventSignature; atopic f; atopic t; topic id] (data0x [])
  | TransferSingle c o f t m =>
      mkRpcLog (hex0x c) [tokenERC1155TransferSingleEventSignature; atopic o; atopic f; atopic t] (data0x (word (mtv_Id m) ++ word (mtv_Value m)))
  | TransferBatch c o f t vs =>
      mkRpcLog (hex0x c) [tokenERC1155TransferBatchEventSignature; atopic o; atopic f; atopic t] (data0x (encodeBatch vs))
  | OtherEvent c s ts d => mkRpcLog (hex0x c) (s :: ts) d
  end.

Definition eventContract (e : tokenEvent) : bytes :=
  match e with Transfer20 c _ _ _ | Transfer721 c _ _ _ | TransferSingle c _ _ _ _ | TransferBatch c _ _ _ _ | OtherEvent c _ _ _ => c end.

Definition is_address (a : bytes) : Prop := zlen a = EthereumTypeAddressDescriptorLen.

Definition ok_event (e : tokenEvent) : Prop :=
  is_address (eventContract e) /\
  match e with
  | Transfer20 _ f t v | Transfer721 _ f t v => is_address f /\ is_address t /\ is_word v
  | TransferSingle _ _ f t m => is_address f /\ is_address t /\ is_word (mtv_Id m) /\ is_word (mtv_Value m)
  | TransferBatch _ _ f t vs => is_address f /\ is_address t /\ ok_values vs
  | OtherEvent _ s _ _ =>
      s ∉ [tokenTransferEventSignature; tokenERC1155TransferSingleEventSignature; tokenERC1155TransferBatchEventSignature]
  end.

Section ReadBack.
Context {G : GoEth} {C : GoEthCommon} {CL : GoEthCommonLaws C}.

(** The transfer an event stands for. *)
Definition eventTransfer (e : tokenEvent) : option TokenTransfer :=
  match e with
  | Transfer20 c f t v => Some (mkTokenTransfer FungibleToken (Address_String c) (Address_String f) (Address_String t) v [])
  | Transfer721 c f t v => Some (mkTokenTransfer NonFungibleToken (Address_String c) (Address_String f) (Address_String t) v [])
  | TransferSingle c _ f t m => Some (mkTokenTransfer MultiToken (Address_String c) (Address_String f) (Address_String t) 0 [m])
  | TransferBatch c _ f t vs => Some (mkTokenTransfer MultiToken (Address_String c) (Address_String f) (Address_String t) 0 vs)
  | OtherEvent _ _ _ _ => None
  end.

Lemma contract_read c : is_address c -> EIP55AddressFromAddress (hex0x c) = Ok (Address_String c).
Proof.
  intros Hc. unfold EIP55AddressFromAddress. change (strip0x (hex0x c)) with (hex_EncodeToString c). rewrite hex_Decode_Encode.
  by apply Address_String_spec.
Qed.

Lemma isIgnored_read ignored c : is_address c -> isIgnoredContract ignored (hex0x c) = bool_decide (c ∈ ignored).
Proof.
  intros Hc. unfold isIgnoredContract. change (has0xPrefix (hex0x c)) with true. change (drop 2 (hex0x c)) with (hex_EncodeToString c).
  cbn [negb orb]. rewrite orb_false_r. case_bool_decide as Hn; [by subst|]. rewrite hexDecodeInto_hex, hex_Decode_Encode.
  rewrite (proj2 (Z.eqb_eq _ _)) by (unfold is_address, zlen in *; rewrite hex_Encode_length; lia).
  destruct (existsb _ ignored) eqn:E; symmetry; [apply bool_decide_eq_true|apply bool_decide_eq_false].
  - apply existsb_exists in E as (x & Hx & He%bool_decide_eq_true). subst. by apply list_elem_of_In.
  - intros Hin%list_elem_of_In. apply not_true_iff_false in E. destruct E. apply existsb_exists. exists c. by rewrite bool_decide_eq_true.
Qed.

Lemma atopic_read a : is_address a -> addressFromPaddedHex (atopic a) = Ok (Address_String a).
Proof. intros Ha. by apply (topic_address a Ha). Qed.

Lemma single_read c o f t m : ok_event (TransferSingle c o f t m) ->
  processERC1155TransferSingleEvent (encodeEvent (TransferSingle c o f t m)) = Ok (eventTransfer (TransferSingle c o f t m)).
Proof.
  intros (Hc & Hf & Ht & H1 & H2). unfold processERC1155TransferSingleEvent. cbn [encodeEvent log_Topics log_Data log_Address].
  change (index [_; atopic o; atopic f; atopic t] 2) with (Ok (atopic f)). change (index [_; atopic o; atopic f; atopic t] 3) with (Ok (atopic t)).
  cbn [rbind zlen length Z.of_nat Pos.of_succ_nat Pos.succ Z.eqb Pos.eqb negb]. rewrite !atopic_read by done. cbn [rbind].
  change (strip0x (data0x ?s)) with s. rewrite slice_0_app by (by rewrite zlen_word). cbn [rbind].
  rewrite (proj1 (setBig_word _ 16 H1)). cbn [numberOr]. rewrite <- (app_nil_r (_ ++ _)), <- app_assoc, slice_app by (rewrite !zlen_word; lia).
  cbn [rbind]. rewrite (proj1 (setBig_word _ 16 H2)). cbn [numberOr]. rewrite contract_read by done. cbn. by destruct m.
Qed.

Lemma batch_read c o f t vs : ok_event (TransferBatch c o f t vs) ->
  processERC1155TransferBatchEvent (encodeEvent (TransferBatch c o f t vs)) = Ok (eventTransfer (TransferBatch c o f t vs)).
Proof.
  intros (Hc & Hf & Ht & Hv). unfold processERC1155TransferBatchEvent. cbn [encodeEvent log_Topics log_Data log_Address].
  change (index [_; atopic o; atopic f; atopic t] 2) with (Ok (atopic f)). change (index [_; atopic o; atopic f; atopic t] 3) with (Ok (atopic t)).
  cbn [rbind zlen length Z.of_nat Pos.of_succ_nat Pos.succ Z.ltb Z.compare Pos.compare Pos.compare_cont]. rewrite !atopic_read by done. cbn [rbind].
  change (strip0x (data0x ?s)) with s. rewrite batchData_read by done. cbn [rbind]. by rewrite contract_read by done.
Qed.

Lemma transfer_read e : ok_event e -> (match e with Transfer20 _ _ _ _ | Transfer721 _ _ _ _ => True | _ => False end) ->
  processTransferEvent (encodeEvent e) = Ok (eventTransfer e).
Proof.
  intros [Hc He] Hk. destruct e; try done; cbn [eventContract] in Hc; destruct He as (Hf & Ht & Hv); unfold processTransferEvent;
    cbn [encodeEvent log_Topics log_Data log_Address eventTransfer zlen length Z.of_nat Pos.of_succ_nat Pos.succ Z.eqb Pos.eqb].
  - rewrite (proj2 (setBig_word _ 0 Hv)). cbn [numberOr].
    change (index [_; atopic from; atopic to] 1) with (Ok (atopic from)). change (index [_; atopic from; atopic to] 2) with (Ok (atopic to)).
    cbn [rbind]. rewrite !atopic_read by done. cbn [rbind]. by rewrite contract_read.
  - change (index [_; atopic from; atopic to; topic id] 3) with (Ok (topic id)). cbn [rbind].
    change (index [_; atopic from; atopic to; topic id] 1) with (Ok (atopic from)). change (index [_; atopic from; atopic to; topic id] 2) with (Ok (atopic to)).
    rewrite (proj2 (setBig_word _ 0 Hv)). cbn [numberOr rbind]. rewrite !atopic_read by done. cbn [rbind]. by rewrite contract_read.
Qed.

Lemma processOf_transfer : processOf tokenTransferEventSignature = Some processTransferEvent.
Proof. unfold processOf. by rewrite bool_decide_eq_true_2. Qed.

Lemma processOf_single : processOf tokenERC1155TransferSingleEventSignature = Some processERC1155TransferSingleEvent.
Proof. unfold processOf. rewrite bool_decide_eq_false_2 by (vm_compute; discriminate). by rewrite bool_decide_eq_true_2. Qed.

Lemma processOf_batch : processOf tokenERC1155TransferBatchEventSignature = Some processERC1155TransferBatchEvent.
Proof. unfold processOf. rewrite !bool_decide_eq_false_2 by (vm_compute; discriminate). by rewrite bool_decide_eq_true_2. Qed.

(** C26: the transfers of the logs that the token standards prescribe are the transfers that
    were encoded, in the order of the logs: fungible and non fungible transfers, single and batch
    transfers of multi tokens with all their ids and values, addresses in their checksummed text;
    other events and the events of ignored contracts give nothing. *)
Theorem transfer_logs_read evs ignored tx csd receipt :
  Forall ok_event evs ->
  etx_CoinSpecificData tx = Some csd -> esd_Receipt csd = Some receipt -> rr_Logs receipt = map encodeEvent evs ->
  GetTokenTransfersFromTx ignored tx = Ok (omap eventTransfer (filter (fun e => eventContract e ∉ ignored) evs)).
Proof.
  intros Hev Htx Hr Hl. unfold GetTokenTransfersFromTx. rewrite Htx, Hr, Hl. f_equal. clear tx csd receipt Htx Hr Hl.
  induction Hev as [|e evs He _ IH]; [done|]. cbn [map contractGetTransfersFromLog]. rewrite IH. clear IH.
  assert (Hi : isIgnoredContract ignored (log_Address (encodeEvent e)) = bool_decide (eventContract e ∈ ignored)).
  { destruct He as [Hc _]. destruct e; by apply isIgnored_read. }
  rewrite Hi, filter_cons. destruct e as [c f t v|c f t v|c o f t m|c o f t vs|c s ts d].
  1: pose proof (transfer_read (Transfer20 c f t v) He I) as Hp.
  2: pose proof (transfer_read (Transfer721 c f t v) He I) as Hp.
  3: pose proof (single_read c o f t m He) as Hp.
  4: pose proof (batch_read c o f t vs He) as Hp.
  5: { destruct He as [_ Hs]. cbn [encodeEvent log_Topics]. unfold processOf. rewrite !bool_decide_eq_false_2 by set_solver. by destruct (decide _). }
  all: cbn [encodeEvent log_Topics]; rewrite ?processOf_transfer, ?processOf_single, ?processOf_batch.
  all: cbn [encodeEvent] in Hp; rewrite Hp; case_bool_decide as Hin; destruct (decide _) as [Hd|Hd]; try (by destruct Hd); done.
Qed.
End ReadBack.

(** ** An instance *)

Module EthLogsExample.
Import EthParserExample.

#[export] Instance refCommon : GoEthCommon := {
  Address_String a := match EIP55Address a with Ok s => s | _ => [] end;
  BigToAddress v := be_put 20 (Z.abs v);
}.
#[export] Instance refCommonLaws : GoEthCommonLaws refCommon.
Proof. split; [|done]. intros a Ha. cbn. by destruct (EIP55Address_ok a Ha) as (s & -> & _). Qed.

Definition contract : bytes := replicate 20 x11.
Definition spam : bytes := replicate 20 x66.
Definition alice : bytes := replicate 20 xaa.
Definition bob : bytes := replicate 20 xbb.

Definition events : list tokenEvent := [
  Transfer20 contract alice bob 1000;
  Transfer20 spam alice bob (2 ^ 256 - 1);
  OtherEvent contract nameRegisteredEventSignature [] [];
  Transfer721 contract bob alice 7;
  TransferBatch contract alice bob alice [mkMTV 1 10; mkMTV 2 20]].

Definition eventsTx : EthTx := mkEthTx [] [] [] 1
  (Some (mkSpecificData (Some (mkRpcTransaction [] [] [])) None (Some (mkRpcReceipt (map encodeEvent events))))).

Lemma ok_events : Forall ok_event events.
Proof.
  repeat first [apply Forall_nil_2|apply Forall_cons_2]; (split; [reflexivity|]); cbn [ok_event].
  1,2,4: split_and!; [reflexivity..|split; [lia|done]].
  - rewrite !not_elem_of_cons. split_and!; [vm_compute; discriminate..|apply not_elem_of_nil].
  - split_and!; [reflexivity..|]. split; [|reflexivity]. by repeat constructor.
Qed.

Lemma transfer_logs_read_witness :
  Forall ok_event events /\
  GetTokenTransfersFromTx [spam] eventsTx
  = Ok [mkTokenTransfer FungibleToken (Address_String contract) (Address_String alice) (Address_String bob) 1000 [];
        mkTokenTransfer NonFungibleToken (Address_String contract) (Address_String bob) (Address_String alice) 7 [];
        mkTokenTransfer MultiToken (Address_String contract) (Address_String bob) (Address_String alice) 0 [mkMTV 1 10; mkMTV 2 20]].
Proof.
  split; [apply ok_events|].
  rewrite (transfer_logs_read events [spam] eventsTx _ (mkRpcReceipt (map encodeEvent events)) ok_events eq_refl eq_refl eq_refl). reflexivity.
Defined.

(** The decoders evaluate on the encoded logs. *)
Example events_evaluated : exists ts, GetTokenTransfersFromTx [spam] eventsTx = Ok ts /\ length ts = 3%nat.
Proof. eexists. split; [vm_compute; reflexivity|reflexivity]. Qed.

Lemma log_decoders_safe_witness :
  zlen (encodeBatch [mkMTV 1 10]) < 2 ^ 62 /\ batchData (encodeBatch [mkMTV 1 10]) <> Panic.
Proof.
  assert (H : zlen (encodeBatch [mkMTV 1 10]) < 2 ^ 62) by (vm_compute; reflexivity). split; [exact H|].
  exact (proj1 (proj1 (log_decoders_safe _ (encodeEvent (OtherEvent contract [] [] [])) [] eventsTx H))).
Defined.

Lemma hex_word_fast_witness : hexWord (topic 258) /\ setBigFromHexWord (topic 258) 0 = Some 258 /\ SetString (topic 258) 0 = Some 258.
Proof.
  assert (H : hexWord (topic 258)) by (split; [reflexivity|apply (word_hex 258)]). split; [exact H|].
  destruct (proj1 (hex_word_fast (topic 258) 0) H) as (v & Hv & _ & Hf & Hs). vm_compute in Hv. injection Hv as <-.
  split; [exact Hf|apply Hs; reflexivity].
Defined.
End EthLogsExample.
