(* ===== verification/EthMempool.v ===== *)
(** The mempool of Ethereum-type coins ([bchain/mempool_ethereum_type.go]).

    Entries are added one by one, by the subscription to pending transactions, by the callers
    that send transactions and by the resync, and removed when a block contains them, when their
    sender's nonce is used up, when the backend no longer lists them or when they are too old.
    What a method does while it holds the lock is one function; [AddTransactionToMempool] releases
    the lock while the backend is asked, so calls may interleave there: [pstep] of EthMempoolCorrect is the
    relation of the critical sections of any number of concurrent calls.

    The theorems are in EthMempoolCorrect:

    - [mempool_interleaved]: whatever the interleaving and whatever the backend answers to each call, every outpoint of
      an entry is listed, and for a transaction of which no two additions overlap nothing else is and each
      only once; [overlapping_adds], [stale_outpoint]: what overlapping additions do;
    - [eth_resync]: which entries a resync leaves;
    - [sender_retired]: which entries a mined nonce removes. *)

From S2P Require Import Prelude Codec Parser Golomb EthTokens EthContracts EthParser EthLogs Mempool MempoolCorrect.
Import BaseMempool.

Local Open Scope Z_scope.

(** A transaction as the backend returns it: the parts the index reads, the number of every
    output and the nonce of the sender. *)
Record EthMempoolTx := mkEthMempoolTx {
  emt_Tx : EthTx;
  emt_OutputN : nat -> Z;
  emt_AccountNonce : bytes;
}.

(** The backend during one call of a method, which asks for a transaction once. Between calls, and between concurrent
    ones, it may answer differently: a mined transaction has a receipt, whose logs decide the token transfers. *)
Class EthMempoolChain := {
  GetPendingTransactions : goerror + list bytes;
  GetEthTransactionForMempool : bytes -> option EthMempoolTx;
}.

(** Durations and times are in nanoseconds. *)
Definition second : Z := 10 ^ 9.
Definition unixSeconds (t : Z) : Z := u32 (t / second).
Definition mempoolTimeoutRunPeriod : Z := 10 * 60 * second.

Record MempoolEthereumType := mkEthMempool {
  em_base : BaseMempool;
  em_mempoolTimeoutTime : Z;
  em_queryBackendOnResync : bool;
  em_nextTimeoutRun : Z;
}.

Definition NewMempoolEthereumType (mempoolTimeoutTime : Z) (queryBackendOnResync : bool) (now : Z) : MempoolEthereumType :=
  mkEthMempool (mkMempool ∅ ∅) mempoolTimeoutTime queryBackendOnResync (now + mempoolTimeoutTime).

Section EthMempool.
Context {E : EthChainParser} {C : EthMempoolChain}.

(** ** Entries *)

(** [GetAddrDescFromVout] of the parser: the addresses of an output. *)
Definition outputAddrDesc (addresses : list bytes) : result bytes :=
  match addresses with [a] => EthParser.GetAddrDescFromAddress a | _ => Err ErrAddressMissing end.

(** A nil descriptor is the empty one. *)
Definition appendAddress (io : list addrIndex) (i : Z) (a : bytes) : list addrIndex * bytes :=
  if 0 <? zlen a then
    match EthParser.GetAddrDescFromAddress a with
    | Ok addrDesc => (io ++ [mkAddrIndex addrDesc i None], addrDesc)
    | _ => (io, [])
    end
  else (io, []).

Fixpoint appendOutputs (N : nat -> Z) (k : nat) (outs : list (list bytes)) (io : list addrIndex) : list addrIndex :=
  match outs with
  | [] => io
  | addresses :: outs =>
      appendOutputs N (S k) outs
        (match outputAddrDesc addresses with
         | Ok addrDesc => if 0 <? zlen addrDesc then io ++ [mkAddrIndex addrDesc (i32 (N k)) None] else io
         | _ => io
         end)
  end.

(** The loop over the addresses of an input; [input.AddrDesc] is what the last one gives. *)
Fixpoint appendInput (i : Z) (addresses : list bytes) (io : list addrIndex) (desc : bytes) : list addrIndex * bytes :=
  match addresses with
  | [] => (io, desc)
  | a :: addresses =>
      let '(io, desc) := appendAddress io (Z.lnot (i32 i)) a in
      appendInput (i + 1) addresses io desc
  end.

(** The descriptors of the inputs are kept in order. *)
Fixpoint appendInputs (vin : list (list bytes)) (io : list addrIndex) : list addrIndex * list bytes :=
  match vin with
  | [] => (io, [])
  | input :: vin =>
      let '(io, desc) := appendInput 0 input io [] in
      let '(io, descs) := appendInputs vin io in
      (io, desc :: descs)
  end.

Fixpoint appendTransfers (i : Z) (t : list TokenTransfer) (io : list addrIndex) : list addrIndex :=
  match t with
  | [] => io
  | tr :: t =>
      let io := (appendAddress io (Z.lnot (i32 (i + 1))) (tt_From tr)).1 in
      let io := (appendAddress io (i32 (i + 1)) (tt_To tr)).1 in
      appendTransfers (i + 1) t io
  end.

(** [strings.TrimPrefix] *)
Definition trimPrefix (p s : bytes) : bytes := if hasPrefix p s then drop (length p) s else s.

(** The sender and its nonce, when they are known. *)
Definition senderOf (mtx : EthMempoolTx) (descs : list bytes) : bytes * Z :=
  match etx_CoinSpecificData (emt_Tx mtx), descs with
  | Some csd, from :: _ =>
      match esd_Tx csd, ParseUint16 (trimPrefix (str "0x") (emt_AccountNonce mtx)) 64 with
      | Some _, Some nonce => (from, nonce)
      | _, _ => ([], 0)
      end
  | _, _ => ([], 0)
  end.

(** What [createTxEntry] makes of the answer of the backend. The backend sets [csd.Tx] in every answer, so the parser does
    not panic; an error of it leaves the transfers out. *)
Definition createEntry (mtx : EthMempoolTx) (txTime : Z) : txEntry :=
  let tx := emt_Tx mtx in
  let io := appendOutputs (emt_OutputN mtx) 0 (etx_Vout tx) [] in
  let '(io, descs) := appendInputs (etx_Vin tx) io in
  let io := match EthereumTypeGetTokenTransfersFromTx tx with
            | Ok t => appendTransfers 0 t io
            | _ => io
            end in
  let '(from, nonce) := senderOf mtx descs in
  mkTxEntry io txTime [] from nonce.

(** [OnNewTx] is called with the transaction before the entry is returned. *)
Definition createTxEntry (txid : bytes) (txTime : Z) : option txEntry :=
  match GetEthTransactionForMempool txid with
  | None => None
  | Some mtx => Some (createEntry mtx txTime)
  end.

(** ** Critical sections *)

(** The second critical section of [AddTransactionToMempool]. *)
Definition storeEntry (txid : bytes) (entry : txEntry) (m : BaseMempool) : BaseMempool :=
  mkMempool (<[txid := entry]> (txEntries m)) (foldl (addPosting txid) (addrDescToTx m) (te_addrIndexes entry)).

(** The result, the mempool and the announced transactions; [now] is the time of the call. *)
Definition AddTransactionToMempool (txid : bytes) (now : Z) (m : BaseMempool) : bool * BaseMempool * list bytes :=
  match txEntries m !! txid with
  | Some _ => (false, m, [])
  | None =>
      match createTxEntry txid (unixSeconds now) with
      | None => (false, m, [])
      | Some entry => (true, storeEntry txid entry m, [txid])
      end
  end.

Definition set_time (t : Z) (e : txEntry) : txEntry :=
  mkTxEntry (te_addrIndexes e) t (te_filter e) (te_from e) (te_nonce e).

Definition AddOrRefreshTransactionInMempool (txid : bytes) (now : Z) (m : BaseMempool) : bool * BaseMempool * list bytes :=
  match txEntries m !! txid with
  | Some entry => (true, mkMempool (<[txid := set_time (unixSeconds now) entry]> (txEntries m)) (addrDescToTx m), [])
  | None => AddTransactionToMempool txid now m
  end.

Definition RemoveTransactionFromMempool (txid : bytes) (m : BaseMempool) : BaseMempool :=
  match txEntries m !! txid with
  | Some entry => removeEntryFromMempool txid entry m
  | None => m
  end.

Definition isRetired (from : bytes) (nonce : Z) (entry : txEntry) : bool :=
  negb (bool_decide (te_from entry = [])) && bool_decide (te_from entry = from) && (te_nonce entry <=? nonce).

Definition retireCandidates (from : bytes) (nonce : Z) (m : BaseMempool) : list bytes :=
  map out_Txid (List.filter (fun o => match txEntries m !! out_Txid o with
                                      | Some entry => isRetired from nonce entry
                                      | None => false
                                      end) (default [] (addrDescToTx m !! from))).

Definition retire (s : BaseMempool * list bytes) (txid : bytes) : BaseMempool * list bytes :=
  let '(m, removed) := s in
  match txEntries m !! txid with
  | Some entry => (removeEntryFromMempool txid entry m, removed ++ [txid])
  | None => s
  end.

Definition RemoveSenderTransactionsUpToNonce (from : bytes) (nonce : Z) (m : BaseMempool) : BaseMempool * list bytes :=
  foldl retire (m, []) (retireCandidates from nonce m).

(** A loop over the map of entries, in any order, that removes some of them. *)
Definition removeIf (p : bytes -> txEntry -> bool) (s : BaseMempool * Z) (te : bytes * txEntry) : BaseMempool * Z :=
  if p te.1 te.2 then (removeEntryFromMempool te.1 te.2 s.1, s.2 + 1) else s.

Definition removeWhere (p : bytes -> txEntry -> bool) (order : list (bytes * txEntry)) (m : BaseMempool) : BaseMempool * Z :=
  foldl (removeIf p) (m, 0) order.

(** The order in which Go walks over the map of entries. *)
Context (walk : gmap bytes txEntry -> list (bytes * txEntry)).

Definition isMissing (backendTxs : gset bytes) (backendSnapshotTime : Z) (txid : bytes) (entry : txEntry) : bool :=
  negb (bool_decide (txid ∈ backendTxs) || (backendSnapshotTime <=? te_time entry)).

Definition removeTransactionsMissingFromBackend (backendTxs : gset bytes) (backendSnapshotTime : Z) (m : BaseMempool) : BaseMempool * Z :=
  removeWhere (isMissing backendTxs backendSnapshotTime) (walk (txEntries m)) m.

Definition isTimedOut (threshold : Z) (_ : bytes) (entry : txEntry) : bool := te_time entry * second <? threshold.

(** The loop over the transactions of the backend; [addNow] is the time of every call. *)
Definition addBackendTxs (addNow : bytes -> Z) (txs : list bytes) (m : BaseMempool) : BaseMempool * list bytes :=
  foldl (fun '(m, announced) txid =>
           let '(_, m, nt) := AddTransactionToMempool txid (addNow txid) m in (m, announced ++ nt)) (m, []) txs.

(** The part of [Resync] that holds the lock: the number of entries and the new state. *)
Definition timeoutSweep (now : Z) (s : MempoolEthereumType) : Z * MempoolEthereumType :=
  let m := em_base s in
  if em_nextTimeoutRun s <? now then
    let threshold := now - em_mempoolTimeoutTime s in
    let m := (removeWhere (isTimedOut threshold) (walk (txEntries m)) m).1 in
    (Z.of_nat (size (txEntries m)),
     mkEthMempool m (em_mempoolTimeoutTime s) (em_queryBackendOnResync s) (now + mempoolTimeoutRunPeriod))
  else (Z.of_nat (size (txEntries m)), s).

(** [snapshotNow] and [now] are the times of the two readings of the clock. *)
Definition Resync (snapshotNow : Z) (addNow : bytes -> Z) (now : Z) (s : MempoolEthereumType)
    : result Z * MempoolEthereumType * list bytes :=
  let set_base m := mkEthMempool m (em_mempoolTimeoutTime s) (em_queryBackendOnResync s) (em_nextTimeoutRun s) in
  let finish s announced := let '(entries, s) := timeoutSweep now s in (Ok entries, s, announced) in
  if em_queryBackendOnResync s then
    match GetPendingTransactions with
    | inl err => (Err err, s, [])
    | inr txs =>
        let '(m, announced) := addBackendTxs addNow txs (em_base s) in
        let m := (removeTransactionsMissingFromBackend (list_to_set txs) (unixSeconds snapshotNow) m).1 in
        finish (set_base m) announced
    end
  else finish s [].
End EthMempool.
