(* ===== verification/EthMempoolCorrect.v ===== *)
(** Correctness of the mempool of Ethereum-type coins ([EthMempool]).

    - [mempool_interleaved]: whatever the interleaving of the calls and whatever the backend answers to each, every
      outpoint of an entry is listed, and for a transaction of which no two additions overlap nothing else is and
      each only once;
    - [overlapping_adds], [stale_outpoint]: what overlapping additions do;
    - [eth_resync]: which entries a resync leaves;
    - [sender_retired]: which entries a mined nonce removes. *)

From S2P Require Import Prelude Codec Parser Golomb EthTokens EthContracts EthParser EthLogs Mempool MempoolCorrect EthMempool.
Import BaseMempool.

Local Open Scope Z_scope.

(** ** The index *)

Section PoolCorrect.
Context {E : EthChainParser}.

(** The outpoint [o] of the descriptor [a] belongs to an entry. *)
Definition indexed (entries : gmap bytes txEntry) (a : bytes) (o : Outpoint) : Prop :=
  exists e, entries !! out_Txid o = Some e /\ o ∈ posts a (out_Txid o) (te_addrIndexes e).

(** The index is that of the entries, and the sender of an entry is one of its addresses. *)
Record pool_ok (m : BaseMempool) : Prop := {
  po_listed a o : o ∈ posted m a <-> indexed (txEntries m) a o;
  po_trimmed a : addrDescToTx m !! a <> Some [];
  po_sender t e : txEntries m !! t = Some e -> te_from e <> [] -> te_from e ∈ map ai_addrDesc (te_addrIndexes e);
}.

(** Every outpoint is listed as often as the entries have it. *)
Definition exact (m : BaseMempool) : Prop := forall a, posted m a ≡ₚ indexOf (txEntries m) a.

(** The entry is made of an answer. *)
Definition createdFrom (mtx : EthMempoolTx) (e : txEntry) : Prop := e = createEntry mtx (te_time e).

Lemma createEntry_time mtx x y : createEntry mtx y = set_time y (createEntry mtx x).
Proof. unfold createEntry. destruct (appendInputs _ _) as [io descs]. by destruct (senderOf mtx descs) as [from nonce]. Qed.

Lemma createdFrom_create mtx x : createdFrom mtx (createEntry mtx x).
Proof. unfold createdFrom. rewrite (createEntry_time mtx x (te_time _)). unfold createEntry. destruct (appendInputs _ _). by destruct (senderOf _ _). Qed.

Lemma createdFrom_addrs mtx e x : createdFrom mtx e -> te_addrIndexes e = te_addrIndexes (createEntry mtx x).
Proof. intros ->. by rewrite (createEntry_time mtx x). Qed.

Lemma createdFrom_refresh mtx e x : createdFrom mtx e -> createdFrom mtx (set_time x e).
Proof. unfold createdFrom. intros He. cbn. rewrite (createEntry_time mtx (te_time e)). by rewrite <- He. Qed.

Lemma posts_txid a t io o : o ∈ posts a t io -> out_Txid o = t.
Proof. unfold posts. intros (si & -> & _)%list_elem_of_fmap. done. Qed.

Lemma indexed_indexOf entries a o : o ∈ indexOf entries a <-> indexed entries a o.
Proof.
  unfold indexOf, indexed. rewrite list_elem_of_bind. split.
  - intros ([t e] & Ho & He%elem_of_map_to_list). unfold entryPosts in Ho. cbn in Ho. pose proof (posts_txid _ _ _ _ Ho) as Ht.
    exists e. by rewrite Ht.
  - intros (e & He & Ho). exists (out_Txid o, e). by rewrite elem_of_map_to_list.
Qed.

(** *** Adding *)

Lemma storeEntry_posted t e m a : posted (storeEntry t e m) a = posted m a ++ posts a t (te_addrIndexes e).
Proof. unfold posted, storeEntry. cbn [addrDescToTx]. apply addPostings_lookup. Qed.

(** The sender of an entry, when it is known, is one of its addresses. *)
Definition sender_ok (e : txEntry) : Prop := te_from e <> [] -> te_from e ∈ map ai_addrDesc (te_addrIndexes e).

Lemma storeEntry_ok t e m : pool_ok m -> txEntries m !! t = None -> sender_ok e -> pool_ok (storeEntry t e m).
Proof.
  intros Hm Ht He. split.
  - intros a o. rewrite storeEntry_posted, elem_of_app, (po_listed m Hm). unfold indexed, storeEntry. cbn [txEntries].
    destruct (decide (t = out_Txid o)) as [->|Hne].
    + rewrite lookup_insert_eq, Ht. split; [|intros (e' & [= <-] & Ho); by right]. intros [(e' & [=] & _)|Ho]. by exists e.
    + rewrite lookup_insert_ne by done. split; [|by left]. intros [H|H]; [done|]. by apply posts_txid in H.
  - intros a. apply addPostings_trimmed, Hm.
  - intros t' e'. unfold storeEntry. cbn [txEntries]. intros [[<- <-]|[_ H]]%lookup_insert_Some; [done|by eapply (po_sender m Hm)].
Qed.

Lemma storeEntry_exact t e m : exact m -> txEntries m !! t = None -> exact (storeEntry t e m).
Proof.
  intros Hm Ht a. rewrite storeEntry_posted. unfold storeEntry. cbn [txEntries]. rewrite indexOf_insert by done.
  rewrite Permutation_app_comm. by rewrite (Hm a).
Qed.

Definition refreshEntry (t : bytes) (time : Z) (e : txEntry) (m : BaseMempool) : BaseMempool :=
  mkMempool (<[t := set_time time e]> (txEntries m)) (addrDescToTx m).

Lemma refreshEntry_ok t time e m : pool_ok m -> txEntries m !! t = Some e -> pool_ok (refreshEntry t time e m).
Proof.
  intros Hm He. split; cbn [refreshEntry txEntries addrDescToTx].
  - intros a o. change (posted _ a) with (posted m a). rewrite (po_listed m Hm). unfold indexed. destruct (decide (t = out_Txid o)) as [->|]; [|by rewrite lookup_insert_ne].
    rewrite lookup_insert_eq, He. split; intros (e' & [= <-] & Ho); by eexists.
  - apply Hm.
  - intros t' e' [[<- <-]|[_ H]]%lookup_insert_Some; [|by eapply (po_sender m Hm)]. exact (po_sender m Hm _ _ He).
Qed.

Lemma refreshEntry_exact t time e m : exact m -> txEntries m !! t = Some e -> exact (refreshEntry t time e m).
Proof.
  intros Hm He a. unfold refreshEntry. cbn [txEntries]. change (posted _ a) with (posted m a). rewrite (Hm a).
  rewrite (indexOf_delete _ _ _ _ He), <- insert_delete_eq, indexOf_insert by apply lookup_delete_eq. done.
Qed.

(** *** Removing *)

Lemma removeEntry_posted t e m a : posted (removeEntryFromMempool t e m) a =
  if bool_decide (a ∈ map ai_addrDesc (te_addrIndexes e)) then filter (fun o => out_Txid o <> t) (posted m a) else posted m a.
Proof.
  unfold posted, removeEntryFromMempool. cbn [addrDescToTx]. rewrite removeIndexes_lookup.
  rewrite (bool_decide_ext _ (a ∈ map ai_addrDesc (te_addrIndexes e))) by set_solver. case_bool_decide; [|done]. apply cutTxid_default.
Qed.

Lemma removeEntry_trimmed t e m a : (forall b, addrDescToTx m !! b <> Some []) -> addrDescToTx (removeEntryFromMempool t e m) !! a <> Some [].
Proof.
  intros Hm. unfold removeEntryFromMempool. cbn [addrDescToTx]. rewrite removeIndexes_lookup. case_bool_decide; [|apply Hm].
  destruct (addrDescToTx m !! a) as [l|]; [|done]. cbn. destruct (0 <? zlen _) eqn:El; [|done]. intros [= E']. by rewrite E' in El.
Qed.

(** The entry lists every outpoint of its transaction that is posted. *)
Lemma posted_addr m t e a o : pool_ok m -> txEntries m !! t = Some e -> o ∈ posted m a -> out_Txid o = t ->
  a ∈ map ai_addrDesc (te_addrIndexes e).
Proof.
  intros Hm He Ho Ht. apply (po_listed m Hm) in Ho as (e' & He' & Ho). rewrite Ht, He in He'. injection He' as <-.
  destruct (decide (a ∈ map ai_addrDesc (te_addrIndexes e))) as [|Hn]; [done|]. rewrite posts_absent in Ho by done. by apply elem_of_nil in Ho.
Qed.

Lemma removeEntry_pool m t e : pool_ok m -> txEntries m !! t = Some e -> pool_ok (removeEntryFromMempool t e m).
Proof.
  intros Hm He. split.
  - intros a o. rewrite removeEntry_posted. unfold indexed, removeEntryFromMempool. cbn [txEntries].
    assert (o ∈ posted m a /\ out_Txid o <> t <-> exists e0, delete t (txEntries m) !! out_Txid o = Some e0 /\ o ∈ posts a (out_Txid o) (te_addrIndexes e0)) as <-.
    { rewrite (po_listed m Hm). unfold indexed. destruct (decide (t = out_Txid o)) as [->|].
      - rewrite lookup_delete_eq. naive_solver.
      - rewrite lookup_delete_ne by done. naive_solver. }
    case_bool_decide as Ha; [rewrite list_elem_of_filter; tauto|]. split; [|tauto]. intros Ho. split; [done|]. intros Ht. apply Ha. by eapply posted_addr.
  - intros a. apply removeEntry_trimmed, Hm.
  - intros t' e'. cbn. intros [_ H]%lookup_delete_Some. by eapply (po_sender m Hm).
Qed.

Lemma removeEntry_exact m t e : exact m -> txEntries m !! t = Some e -> exact (removeEntryFromMempool t e m).
Proof.
  intros Hm He a. rewrite removeEntry_posted. cbn [removeEntryFromMempool txEntries]. pose proof (Hm a) as Ha. rewrite (indexOf_delete _ _ _ _ He) in Ha.
  case_bool_decide as Hin.
  - rewrite Ha, filter_app, filter_none, filter_all; [done| |].
    + intros o Ho Heq. apply indexOf_txid in Ho as [e' He']. by rewrite Heq, lookup_delete_eq in He'.
    + intros o Ho%posts_txid. tauto.
  - by rewrite posts_absent in Ha.
Qed.

(** What both kinds of invariants need of a change of the mempool. *)
Definition keeps (m m' : BaseMempool) : Prop := (pool_ok m -> pool_ok m') /\ (exact m -> exact m').

Lemma removeEntry_keeps m t e : txEntries m !! t = Some e -> keeps m (removeEntryFromMempool t e m).
Proof. intros He. split; intros Hm; [by apply removeEntry_pool|by apply removeEntry_exact]. Qed.

(** Entries are removed one by one. *)
Definition removes (m m' : BaseMempool) : Prop := exists t e, txEntries m !! t = Some e /\ m' = removeEntryFromMempool t e m.
Definition shrinks : BaseMempool -> BaseMempool -> Prop := rtc removes.

Lemma removeEntry_shrinks m t e : txEntries m !! t = Some e -> shrinks m (removeEntryFromMempool t e m).
Proof. intros He. apply rtc_once. by exists t, e. Qed.

Lemma keeps_refl m : keeps m m.
Proof. by split. Qed.

Lemma keeps_trans m1 m2 m3 : keeps m1 m2 -> keeps m2 m3 -> keeps m1 m3.
Proof. unfold keeps. tauto. Qed.

Lemma shrinks_keeps m m' : shrinks m m' -> keeps m m'.
Proof. induction 1 as [m|m m1 m' (t & e & He & ->) _ IH]; [apply keeps_refl|]. eapply keeps_trans; [by apply removeEntry_keeps|done]. Qed.

Lemma remove_shrinks t m : shrinks m (RemoveTransactionFromMempool t m).
Proof. unfold RemoveTransactionFromMempool. destruct (txEntries m !! t) eqn:He; [by apply removeEntry_shrinks|apply rtc_refl]. Qed.

(** A loop that removes some entries, in any order. *)
Lemma removeWhere_ok p (order : list (bytes * txEntry)) m n : NoDup order.*1 -> (forall t e, (t, e) ∈ order -> txEntries m !! t = Some e) ->
  let m' := (foldl (removeIf p) (m, n) order).1 in
  shrinks m m' /\ forall t, txEntries m' !! t =
    match txEntries m !! t with Some e => if bool_decide (t ∈ order.*1) && p t e then None else Some e | None => None end.
Proof.
  revert m n. induction order as [|[t e] order IH]; intros m n Hnd Hin; cbn [foldl].
  { split; [apply rtc_refl|]. intros t. rewrite bool_decide_eq_false_2 by (intros []%elem_of_nil). cbn. by destruct (txEntries m !! t). }
  apply NoDup_cons in Hnd as [Ht Hnd]. cbn [fst] in Ht. pose proof (Hin t e ltac:(left)) as He. unfold removeIf at 2 4. cbn [fst snd]. destruct (p t e) eqn:Hp.
  - destruct (IH (removeEntryFromMempool t e m) (n + 1) Hnd) as [Hk Hl].
    { intros t' e' H'. cbn. rewrite lookup_delete_ne; [apply Hin; by right|]. intros ->. apply Ht. apply list_elem_of_fmap. by exists (t', e'). }
    split; [etrans; [by apply removeEntry_shrinks|done]|]. intros t'. rewrite Hl. cbn. destruct (decide (t = t')) as [<-|Hne].
    + rewrite lookup_delete_eq, He, bool_decide_eq_true_2 by (by left). by rewrite Hp.
    + rewrite lookup_delete_ne by done. destruct (txEntries m !! t') as [e'|]; [|done].
      rewrite (bool_decide_ext (t' ∈ t :: order.*1) (t' ∈ order.*1)) by (rewrite elem_of_cons; naive_solver). done.
  - destruct (IH m n Hnd) as [Hk Hl]; [intros t' e' H'; apply Hin; by right|]. split; [done|]. intros t'. rewrite Hl. cbn.
    destruct (decide (t = t')) as [<-|Hne].
    + rewrite He, Hp, !andb_false_r. done.
    + destruct (txEntries m !! t') as [e'|]; [|done].
      rewrite (bool_decide_ext (t' ∈ t :: order.*1) (t' ∈ order.*1)) by (rewrite elem_of_cons; naive_solver). done.
Qed.

Lemma removeWhere_walk p order m : order ≡ₚ map_to_list (txEntries m) ->
  shrinks m (removeWhere p order m).1 /\ forall t, txEntries (removeWhere p order m).1 !! t =
    match txEntries m !! t with Some e => if p t e then None else Some e | None => None end.
Proof.
  intros Ho. destruct (removeWhere_ok p order m 0) as [Hk Hl].
  { rewrite Ho. apply NoDup_fst_map_to_list. }
  { intros t e. rewrite Ho. apply elem_of_map_to_list. }
  split; [done|]. intros t. unfold removeWhere. rewrite Hl. destruct (txEntries m !! t) as [e|] eqn:He; [|done].
  rewrite bool_decide_eq_true_2; [done|]. rewrite Ho. apply list_elem_of_fmap. exists (t, e). by rewrite elem_of_map_to_list.
Qed.

(** ** Senders *)

Lemma appendAddress_in io i a : (appendAddress io i a).2 <> [] -> (appendAddress io i a).2 ∈ map ai_addrDesc (appendAddress io i a).1.
Proof.
  unfold appendAddress. case_match; [|done]. case_match; try done. intros _. cbn. rewrite map_app. apply elem_of_app. right. by left.
Qed.

Lemma appendAddress_mono io i a d : d ∈ map ai_addrDesc io -> d ∈ map ai_addrDesc (appendAddress io i a).1.
Proof. unfold appendAddress. repeat case_match; try done. cbn. rewrite map_app. intros. apply elem_of_app. by left. Qed.

Lemma appendInput_mono i as_ io d0 d : d ∈ map ai_addrDesc io -> d ∈ map ai_addrDesc (appendInput i as_ io d0).1.
Proof.
  revert i io d0. induction as_ as [|a as_ IH]; intros i io d0 Hd; cbn [appendInput]; [done|].
  pose proof (appendAddress_mono io (Z.lnot (i32 i)) a d Hd) as Ha. destruct (appendAddress _ _ _) as [io' d']. by apply IH.
Qed.

Lemma appendInput_in i as_ io d0 : (d0 <> [] -> d0 ∈ map ai_addrDesc io) ->
  (appendInput i as_ io d0).2 <> [] -> (appendInput i as_ io d0).2 ∈ map ai_addrDesc (appendInput i as_ io d0).1.
Proof.
  revert i io d0. induction as_ as [|a as_ IH]; intros i io d0 Hd; cbn [appendInput]; [done|].
  pose proof (appendAddress_in io (Z.lnot (i32 i)) a) as Ha. destruct (appendAddress _ _ _) as [io' d']. by apply IH.
Qed.

Lemma appendInputs_mono vin io d : d ∈ map ai_addrDesc io -> d ∈ map ai_addrDesc (appendInputs vin io).1.
Proof.
  revert io. induction vin as [|v vin IH]; intros io Hd; cbn [appendInputs]; [done|].
  pose proof (appendInput_mono 0 v io [] d Hd) as Hi. destruct (appendInput 0 v io []) as [io' d']. revert Hi. cbn [fst]. intros Hi%IH.
  revert Hi. by destruct (appendInputs vin io').
Qed.

Lemma appendInputs_in vin io from descs : (appendInputs vin io).2 = from :: descs -> from <> [] -> from ∈ map ai_addrDesc (appendInputs vin io).1.
Proof.
  destruct vin as [|v vin]; cbn [appendInputs]; [done|]. pose proof (appendInput_in 0 v io [] ltac:(done)) as Hi.
  destruct (appendInput 0 v io []) as [io' d']. pose proof (appendInputs_mono vin io' d') as Hm. destruct (appendInputs vin io') as [io'' ds].
  cbn in *. intros [= -> ->] Hne. auto.
Qed.

Lemma appendTransfers_mono i t io d : d ∈ map ai_addrDesc io -> d ∈ map ai_addrDesc (appendTransfers i t io).
Proof. revert i io. induction t as [|tr t IH]; intros i io Hd; cbn [appendTransfers]; [done|]. apply IH. by do 2 apply appendAddress_mono. Qed.

Lemma createEntry_sender mtx x : sender_ok (createEntry mtx x).
Proof.
  unfold sender_ok, createEntry.
  pose proof (appendInputs_in (etx_Vin (emt_Tx mtx)) (appendOutputs (emt_OutputN mtx) 0 (etx_Vout (emt_Tx mtx)) [])) as Hin.
  destruct (appendInputs _ _) as [io descs]. cbn [fst snd] in Hin. unfold senderOf.
  destruct (etx_CoinSpecificData _) as [csd|], descs as [|from descs]; [done| |done..].
  destruct (esd_Tx csd); [|done]. destruct (ParseUint16 _ _) as [nonce|]; [|done]. cbn. intros Hne.
  destruct (EthereumTypeGetTokenTransfersFromTx _); try apply appendTransfers_mono; by eapply Hin.
Qed.

Lemma posts_some a t io : a ∈ map ai_addrDesc io -> exists n, mkOut t n ∈ posts a t io.
Proof.
  intros (si & -> & Hsi)%list_elem_of_fmap. exists (ai_n si). unfold posts. apply list_elem_of_fmap. exists si. by rewrite list_elem_of_filter.
Qed.

Lemma isRetired_spec from nonce e : isRetired from nonce e = true <-> te_from e <> [] /\ te_from e = from /\ te_nonce e <= nonce.
Proof. unfold isRetired. rewrite !andb_true_iff, negb_true_iff, bool_decide_eq_false, bool_decide_eq_true, Z.leb_le. tauto. Qed.

Lemma retireCandidates_spec from nonce m t : pool_ok m ->
  t ∈ retireCandidates from nonce m <-> exists e, txEntries m !! t = Some e /\ isRetired from nonce e = true.
Proof.
  intros Hm. unfold retireCandidates. rewrite list_elem_of_fmap. split.
  - intros (o & -> & Ho). apply list_elem_of_In, filter_In in Ho as [_ Ho]. destruct (txEntries m !! out_Txid o) as [e|]; [|done]. by exists e.
  - intros (e & He & Hr). pose proof (proj1 (isRetired_spec _ _ _) Hr) as (Hne & Hf & _).
    pose proof (po_sender m Hm _ _ He Hne) as Hin. rewrite Hf in Hin.
    destruct (posts_some from t _ Hin) as [n Hn]. exists (mkOut t n). split; [done|]. apply list_elem_of_In, filter_In. cbn. rewrite He.
    split; [|done]. apply list_elem_of_In. apply (po_listed m Hm). exists e. done.
Qed.

(** The loop over the candidates, which may list a transaction twice. *)
Lemma retire_loop ts m removed : let r := foldl retire (m, removed) ts in
  shrinks m r.1 /\ (forall t, txEntries r.1 !! t = if bool_decide (t ∈ ts) then None else txEntries m !! t)
  /\ exists new, r.2 = removed ++ new /\ NoDup new /\ forall t, t ∈ new <-> t ∈ ts /\ is_Some (txEntries m !! t).
Proof.
  revert m removed. induction ts as [|t ts IH]; intros m removed; cbn [foldl].
  { split_and!; [apply rtc_refl|intros t; by rewrite bool_decide_eq_false_2 by (intros []%elem_of_nil)|]. exists []. rewrite app_nil_r.
    split_and!; [done|constructor|]. intros t. rewrite elem_of_nil. tauto. }
  cbn [retire]. destruct (txEntries m !! t) as [e|] eqn:He.
  - destruct (IH (removeEntryFromMempool t e m) (removed ++ [t])) as (Hk & Hl & new & Hr & Hnd & Hnew). cbn [removeEntryFromMempool txEntries] in Hl, Hnew.
    split_and!; [etrans; [by apply removeEntry_shrinks|done]| |].
    + intros t'. rewrite Hl. destruct (decide (t = t')) as [<-|Hne].
      * rewrite lookup_delete_eq, (bool_decide_eq_true_2 (t ∈ t :: ts)) by (by left). by case_bool_decide.
      * rewrite lookup_delete_ne by done. by rewrite (bool_decide_ext (t' ∈ t :: ts) (t' ∈ ts)) by (rewrite elem_of_cons; naive_solver).
    + exists (t :: new). split_and!; [by rewrite Hr, <- app_assoc| |].
      * constructor; [|done]. rewrite Hnew, lookup_delete_eq. intros [_ [? [=]]].
      * intros t'. rewrite !elem_of_cons, Hnew. destruct (decide (t = t')) as [<-|Hne]; [split; [|by left]; intros _; split; [by left|by eexists]|].
        rewrite lookup_delete_ne by done. naive_solver.
  - destruct (IH m removed) as (Hk & Hl & new & Hr & Hnd & Hnew). split_and!; [done| |].
    + intros t'. rewrite Hl. destruct (decide (t = t')) as [<-|Hne].
      * rewrite He. by repeat case_bool_decide.
      * by rewrite (bool_decide_ext (t' ∈ t :: ts) (t' ∈ ts)) by (rewrite elem_of_cons; naive_solver).
    + exists new. split_and!; [done|done|]. intros t'. rewrite Hnew, elem_of_cons. split; [tauto|]. intros [[->|?] [e He']]; [by rewrite He in He'|eauto].
Qed.

(** A mined nonce removes exactly the entries of its sender with this nonce or a lower one,
    also those that the sender sent to itself, reports each of them once, leaves every other
    entry, and takes the outpoints of exactly the removed entries from the index. *)
Theorem sender_retired from nonce m : pool_ok m -> from <> [] ->
  let '(m', removed) := RemoveSenderTransactionsUpToNonce from nonce m in
  pool_ok m' /\ (exact m -> exact m') /\ NoDup removed
  /\ (forall t, t ∈ removed <-> exists e, txEntries m !! t = Some e /\ te_from e = from /\ te_nonce e <= nonce)
  /\ (forall t, txEntries m' !! t = if bool_decide (t ∈ removed) then None else txEntries m !! t).
Proof.
  intros Hm Hf. unfold RemoveSenderTransactionsUpToNonce. destruct (retire_loop (retireCandidates from nonce m) m []) as ([Hk1 Hk2]%shrinks_keeps & Hl & new & Hr & Hnd & Hnew).
  destruct (foldl retire _ _) as [m' removed]. cbn [fst snd app] in *. subst removed. split_and!; [auto..|done| |].
  - intros t. rewrite Hnew, retireCandidates_spec by done. setoid_rewrite isRetired_spec. split; [|intros (e & He & Hfr & Hn)].
    + intros [(e & He & _ & Hfr & Hn) _]. by exists e.
    + split; [exists e; split_and!; try done; congruence|by exists e].
  - intros t. rewrite Hl. rewrite (bool_decide_ext (t ∈ retireCandidates from nonce m) (t ∈ new)); [done|]. rewrite Hnew. split; [|tauto].
    intros Ht. split; [done|]. apply retireCandidates_spec in Ht as (e & He & _); [by exists e|done].
Qed.

(** ** Interleaved calls *)

(** The mempool, the calls of [AddTransactionToMempool] that have found no entry and asked the
    backend but not yet stored what they created, and what was announced. *)
Record Pool := mkPool { pl_mempool : BaseMempool; pl_pending : list (bytes * txEntry); pl_announced : list bytes }.

(** The critical sections of concurrent calls. Every call asks the backend by itself: for a transaction it may get any
    of its [answers] (a call that gets an error changes nothing). [overlap] is the set of transactions of which additions may
    overlap; of the others, a call stores its entry only when no other call has stored one since it looked. *)
Inductive pstep (answers : bytes -> EthMempoolTx -> Prop) (overlap : bytes -> bool) : Pool -> Pool -> Prop :=
| step_begin m p nt t mtx now :
    txEntries m !! t = None -> answers t mtx ->
    pstep answers overlap (mkPool m p nt) (mkPool m ((t, createEntry mtx (unixSeconds now)) :: p) (nt ++ [t]))
| step_finish m p1 p2 nt t e :
    overlap t = true \/ txEntries m !! t = None ->
    pstep answers overlap (mkPool m (p1 ++ (t, e) :: p2) nt) (mkPool (storeEntry t e m) (p1 ++ p2) nt)
| step_refresh m p nt t e now :
    txEntries m !! t = Some e ->
    pstep answers overlap (mkPool m p nt) (mkPool (refreshEntry t (unixSeconds now) e m) p nt)
| step_remove m p nt t :
    pstep answers overlap (mkPool m p nt) (mkPool (RemoveTransactionFromMempool t m) p nt)
| step_retire m p nt from nonce :
    pstep answers overlap (mkPool m p nt) (mkPool (RemoveSenderTransactionsUpToNonce from nonce m).1 p nt)
| step_missing m p nt txs snapshot walk :
    walk (txEntries m) ≡ₚ map_to_list (txEntries m) ->
    pstep answers overlap (mkPool m p nt) (mkPool (removeTransactionsMissingFromBackend walk txs snapshot m).1 p nt)
| step_timeout m p nt threshold order :
    order ≡ₚ map_to_list (txEntries m) ->
    pstep answers overlap (mkPool m p nt) (mkPool (removeWhere (isTimedOut threshold) order m).1 p nt).

Definition emptyPool : Pool := mkPool (mkMempool ∅ ∅) [] [].

Section Interleaved.
Context (answers : bytes -> EthMempoolTx -> Prop) (overlap : bytes -> bool).

(** All answers for the transaction have the same addresses. *)
Definition sameAddresses (t : bytes) : Prop :=
  forall mtx mtx', answers t mtx -> answers t mtx' -> te_addrIndexes (createEntry mtx 0) = te_addrIndexes (createEntry mtx' 0).

(** *** One transaction *)

(** The outpoints of the transaction that are listed for the address, and those that should be. *)
Definition listedOf (m : BaseMempool) (a t : bytes) : list Outpoint := filter (fun o => out_Txid o = t) (posted m a).
Definition postsOf (m : BaseMempool) (a t : bytes) : list Outpoint :=
  match txEntries m !! t with Some e => posts a t (te_addrIndexes e) | None => [] end.

Record tx_inv (m : BaseMempool) (t : bytes) : Prop := {
  ti_complete a o : o ∈ postsOf m a t -> o ∈ listedOf m a t;
  ti_sound a o : overlap t = false \/ sameAddresses t -> o ∈ listedOf m a t -> o ∈ postsOf m a t;
  ti_exact a : overlap t = false -> listedOf m a t = postsOf m a t;
  ti_created e : txEntries m !! t = Some e -> exists mtx, answers t mtx /\ createdFrom mtx e;
}.

Record pool_inv (m : BaseMempool) : Prop := {
  pi_tx t : tx_inv m t;
  pi_trimmed a : addrDescToTx m !! a <> Some [];
}.

Lemma posts_all a t io : filter (fun o => out_Txid o = t) (posts a t io) = posts a t io.
Proof. apply filter_all. intros o. apply posts_txid. Qed.

Lemma posts_other a t t' io : t <> t' -> filter (fun o => out_Txid o = t') (posts a t io) = [].
Proof. intros Hne. apply filter_none. intros o Ho%posts_txid. congruence. Qed.

Lemma tx_inv_other m m' t : (forall a, listedOf m' a t = listedOf m a t) -> txEntries m' !! t = txEntries m !! t -> tx_inv m t -> tx_inv m' t.
Proof.
  intros Hl He [H1 H2 H3 H4]. split; unfold postsOf in *.
  - intros a o. rewrite Hl, He. apply H1.
  - intros a o. rewrite Hl, He. apply H2.
  - intros a. rewrite Hl, He. apply H3.
  - intros e. rewrite He. apply H4.
Qed.

Lemma storeEntry_tx t e m : overlap t = true \/ txEntries m !! t = None -> (exists mtx, answers t mtx /\ createdFrom mtx e) ->
  pool_inv m -> pool_inv (storeEntry t e m).
Proof.
  intros Ho (mtx & Ha & Hc) [Htx Htr]. split; [|intros a; apply addPostings_trimmed, Htr]. intros t'.
  assert (forall a, listedOf (storeEntry t e m) a t' = listedOf m a t' ++ filter (fun o => out_Txid o = t') (posts a t (te_addrIndexes e))) as Hl
    by (intros a; unfold listedOf; by rewrite storeEntry_posted, filter_app).
  destruct (decide (t = t')) as [<-|Hne].
  - destruct (Htx t) as [H1 H2 H3 H4]. unfold postsOf in *. split; unfold postsOf; cbn [storeEntry txEntries]; setoid_rewrite lookup_insert_eq.
    + intros a o Hin. rewrite Hl, posts_all. set_solver.
    + intros a o Hcl. rewrite Hl, posts_all, elem_of_app. intros [Hin|]; [|done]. apply H2 in Hin; [|done].
      destruct (txEntries m !! t) as [e'|]; [|by apply elem_of_nil in Hin]. destruct Ho as [Ho|[=]]. destruct Hcl as [Hcl|Hcl]; [congruence|].
      destruct (H4 e' eq_refl) as (mtx' & Ha' & Hc'). rewrite (createdFrom_addrs _ _ 0 Hc), (Hcl _ _ Ha Ha'), <- (createdFrom_addrs _ _ 0 Hc'). done.
    + intros a Hf. rewrite Hl, posts_all, H3 by done. destruct Ho as [Ho|Ho]; [congruence|]. by rewrite Ho.
    + intros e' [= <-]. by exists mtx.
  - apply (tx_inv_other m); [|cbn; by rewrite lookup_insert_ne|apply Htx]. intros a. by rewrite Hl, posts_other, app_nil_r.
Qed.

Lemma removeEntry_tx t e m : txEntries m !! t = Some e -> pool_inv m -> pool_inv (removeEntryFromMempool t e m).
Proof.
  intros He [Htx Htr]. split; [|intros a; by apply removeEntry_trimmed]. intros t'. destruct (decide (t = t')) as [<-|Hne].
  - destruct (Htx t) as [H1 H2 H3 _]. unfold postsOf in *. rewrite He in *.
    assert (forall a, overlap t = false \/ sameAddresses t -> listedOf (removeEntryFromMempool t e m) a t = []) as Hnil.
    { intros a Hcl. unfold listedOf. rewrite removeEntry_posted. case_bool_decide as Hin.
      - apply filter_none. intros o [Hne _]%list_elem_of_filter. done.
      - destruct (filter _ (posted m a)) as [|o l] eqn:Hf; [done|]. exfalso.
        assert (o ∈ listedOf m a t) as Ho by (unfold listedOf; rewrite Hf; left). apply H2 in Ho; [|done].
        rewrite posts_absent in Ho by done. by apply elem_of_nil in Ho. }
    split; unfold postsOf; cbn [removeEntryFromMempool txEntries]; setoid_rewrite lookup_delete_eq.
    + intros a o []%elem_of_nil.
    + intros a o Hcl. by rewrite Hnil.
    + intros a Hf. apply Hnil. by left.
    + done.
  - apply (tx_inv_other m); [|cbn; by rewrite lookup_delete_ne|apply Htx]. intros a. unfold listedOf. rewrite removeEntry_posted.
    case_bool_decide; [|done]. rewrite list_filter_filter_l; [done|]. intros o -> ->. done.
Qed.

Lemma refreshEntry_tx t x e m : txEntries m !! t = Some e -> pool_inv m -> pool_inv (refreshEntry t x e m).
Proof.
  intros He [Htx Htr]. split; [|exact Htr]. intros t'. destruct (decide (t = t')) as [<-|Hne].
  - destruct (Htx t) as [H1 H2 H3 H4]. unfold postsOf in *. rewrite He in *. split; unfold postsOf; cbn [refreshEntry txEntries]; setoid_rewrite lookup_insert_eq; [done..|].
    intros e' [= <-]. destruct (H4 e eq_refl) as (mtx & ? & ?). exists mtx. split; [done|]. by apply createdFrom_refresh.
  - apply (tx_inv_other m); [done|cbn; by rewrite lookup_insert_ne|apply Htx].
Qed.

Lemma shrinks_tx m m' : shrinks m m' -> pool_inv m -> pool_inv m'.
Proof. induction 1 as [m|m m1 m' (t & e & He & ->) _ IH]; [done|]. intros Hm. by apply IH, removeEntry_tx. Qed.

(** *** Runs *)

Definition pending_ok (p : list (bytes * txEntry)) : Prop := Forall (fun te => exists mtx, answers te.1 mtx /\ createdFrom mtx te.2) p.

Lemma pstep_ok s s' : pstep answers overlap s s' -> pool_inv (pl_mempool s) -> pending_ok (pl_pending s) ->
  pool_inv (pl_mempool s') /\ pending_ok (pl_pending s') /\ ((forall t, overlap t = false) -> exact (pl_mempool s) -> exact (pl_mempool s')).
Proof.
  intros Hs Hm Hp. destruct Hs as [m p nt t mtx now Ht Ha|m p1 p2 nt t e Ho|m p nt t e now He|m p nt t|m p nt from nonce|m p nt txs snap walk Hw|m p nt thr order Hw];
    cbn [pl_mempool pl_pending] in *.
  - split_and!; [done| |done]. constructor; [|done]. exists mtx. split; [done|]. apply createdFrom_create.
  - apply Forall_app in Hp as [Hp1 [He Hp2]%Forall_cons]. split_and!; [by apply storeEntry_tx|by apply Forall_app|].
    intros Hf Hx. destruct Ho as [Ho|Ho]; [by rewrite Hf in Ho|]. by apply storeEntry_exact.
  - split_and!; [by apply refreshEntry_tx|done|]. intros _ Hx. by apply refreshEntry_exact.
  - pose proof (remove_shrinks t m) as Hk. destruct (shrinks_keeps _ _ Hk). split_and!; [by eapply shrinks_tx|done|auto].
  - unfold RemoveSenderTransactionsUpToNonce. destruct (retire_loop (retireCandidates from nonce m) m []) as (Hk & _).
    destruct (shrinks_keeps _ _ Hk). split_and!; [by eapply shrinks_tx|done|auto].
  - destruct (removeWhere_walk (isMissing txs snap) _ m Hw) as [Hk _]. unfold removeTransactionsMissingFromBackend.
    destruct (shrinks_keeps _ _ Hk). split_and!; [by eapply shrinks_tx|done|auto].
  - destruct (removeWhere_walk (isTimedOut thr) _ m Hw) as [Hk _]. destruct (shrinks_keeps _ _ Hk). split_and!; [by eapply shrinks_tx|done|auto].
Qed.

Lemma pool_inv_empty : pool_inv (mkMempool ∅ ∅).
Proof. split; [|done]. intros t. split; done. Qed.

Lemma prun_ok s : rtc (pstep answers overlap) emptyPool s ->
  pool_inv (pl_mempool s) /\ pending_ok (pl_pending s) /\ ((forall t, overlap t = false) -> exact (pl_mempool s)).
Proof.
  intros Hr. apply (rtc_ind_r (R := pstep answers overlap)
    (fun s => pool_inv (pl_mempool s) /\ pending_ok (pl_pending s) /\ ((forall t, overlap t = false) -> exact (pl_mempool s))) emptyPool);
    [|intros s1 s2 _ Hs (H1 & H2 & H3)|done].
  - split_and!; [apply pool_inv_empty|apply Forall_nil_2|]. intros _ a. unfold indexOf. cbn [pl_mempool emptyPool txEntries]. by rewrite map_to_list_empty.
  - destruct (pstep_ok _ _ Hs H1 H2) as (? & ? & ?). auto.
Qed.

Lemma elem_of_postsOf m a o : o ∈ postsOf m a (out_Txid o) <->
  exists e si, txEntries m !! out_Txid o = Some e /\ si ∈ te_addrIndexes e /\ ai_addrDesc si = a /\ ai_n si = out_Vout o.
Proof.
  unfold postsOf. destruct (txEntries m !! out_Txid o) as [e|]; [|rewrite elem_of_nil; naive_solver].
  unfold posts. rewrite list_elem_of_fmap. setoid_rewrite list_elem_of_filter. split.
  - intros (si & Ho & <- & Hsi). exists e, si. rewrite Ho. done.
  - intros (e' & si & [= <-] & Hsi & Ha & Hn). exists si. destruct o. cbn in *. by subst.
Qed.

(** C20: whatever calls run concurrently, however their critical sections interleave and whatever the backend answers to each
    of them: every address of every entry lists the outpoint of the entry, every entry is made of one of the
    answers for its transaction, and no address is kept without transactions. For a transaction of which no two
    additions overlap, an address lists exactly the outpoints of its entry, each once; where additions may overlap but
    all answers have the same addresses, it lists no others. If no additions overlap at all, the addresses in the index are
    those of the entries and the index is exactly the inverse of the entries. *)
Theorem mempool_interleaved s : rtc (pstep answers overlap) emptyPool s ->
  let m := pl_mempool s in
  (forall t e si, txEntries m !! t = Some e -> si ∈ te_addrIndexes e -> mkOut t (ai_n si) ∈ GetAddrDescTransactions m (ai_addrDesc si))
  /\ (forall t e, txEntries m !! t = Some e -> exists mtx, answers t mtx /\ e = createEntry mtx (te_time e))
  /\ (forall a, addrDescToTx m !! a <> Some [])
  /\ (forall a o, overlap (out_Txid o) = false \/ sameAddresses (out_Txid o) -> o ∈ GetAddrDescTransactions m a ->
        exists e si, txEntries m !! out_Txid o = Some e /\ si ∈ te_addrIndexes e /\ ai_addrDesc si = a /\ ai_n si = out_Vout o)
  /\ (forall a t, overlap t = false -> filter (fun o => out_Txid o = t) (GetAddrDescTransactions m a) =
        reverse (match txEntries m !! t with Some e => posts a t (te_addrIndexes e) | None => [] end))
  /\ ((forall t, overlap t = false \/ sameAddresses t) -> forall a, is_Some (addrDescToTx m !! a) <->
        exists t e, txEntries m !! t = Some e /\ a ∈ map ai_addrDesc (te_addrIndexes e))
  /\ ((forall t, overlap t = false) -> forall a, GetAddrDescTransactions m a ≡ₚ indexOf (txEntries m) a).
Proof.
  intros ([Htx Htr] & _ & Hx)%prun_ok m.
  assert (forall a o, o ∈ posted m a <-> o ∈ listedOf m a (out_Txid o)) as Hl by (intros a o; unfold listedOf; rewrite list_elem_of_filter; tauto).
  assert (Hcomp : forall t e si, txEntries m !! t = Some e -> si ∈ te_addrIndexes e -> mkOut t (ai_n si) ∈ posted m (ai_addrDesc si)).
  { intros t e si He Hsi. apply Hl, (ti_complete _ _ (Htx t)), elem_of_postsOf. by exists e, si. }
  assert (Hsound : forall a o, overlap (out_Txid o) = false \/ sameAddresses (out_Txid o) -> o ∈ posted m a ->
    exists e si, txEntries m !! out_Txid o = Some e /\ si ∈ te_addrIndexes e /\ ai_addrDesc si = a /\ ai_n si = out_Vout o).
  { intros a o Hcl Ho. apply elem_of_postsOf, (ti_sound _ _ (Htx _)); [done|]. by apply Hl. }
  split_and!.
  - intros t e si He Hsi. unfold GetAddrDescTransactions. rewrite elem_of_reverse. by eapply Hcomp.
  - intros t e He. by apply (ti_created _ _ (Htx t)).
  - exact Htr.
  - intros a o Hcl. unfold GetAddrDescTransactions. rewrite elem_of_reverse. by apply Hsound.
  - intros a t Hf. unfold GetAddrDescTransactions. fold (posted m a). rewrite filter_reverse. f_equal. by apply (ti_exact _ _ (Htx t)).
  - intros Hcl a. split.
    + intros [l Ha]. destruct l as [|o l]; [by destruct (Htr a)|]. assert (o ∈ posted m a) as Ho by (unfold posted; rewrite Ha; by left).
      destruct (Hsound a o (Hcl _) Ho) as (e & si & He & Hsi & <- & _). exists (out_Txid o), e. split; [done|]. by apply list_elem_of_fmap_2.
    + intros (t & e & He & (si & -> & Hsi)%list_elem_of_fmap). specialize (Hcomp t e si He Hsi). unfold posted in Hcomp.
      destruct (addrDescToTx m !! ai_addrDesc si); [done|]. by apply elem_of_nil in Hcomp.
  - intros Hf a. unfold GetAddrDescTransactions. rewrite reverse_Permutation. by apply Hx.
Qed.
End Interleaved.

(** ** Resync *)

Section Resync.
Context {C : EthMempoolChain}.

Lemma createTxEntry_time t x y e : createTxEntry t x = Some e -> createTxEntry t y = Some (set_time y e).
Proof. unfold createTxEntry. destruct (GetEthTransactionForMempool t) as [mtx|]; [|done]. intros [= <-]. by rewrite <- createEntry_time. Qed.

Lemma createTxEntry_sender t x e : createTxEntry t x = Some e -> sender_ok e.
Proof. unfold createTxEntry. destruct (GetEthTransactionForMempool t) as [mtx|]; [|done]. intros [= <-]. apply createEntry_sender. Qed.

Definition afterAdds (addNow : bytes -> Z) (txs : list bytes) (m : BaseMempool) (t : bytes) : option txEntry :=
  match txEntries m !! t with
  | Some e => Some e
  | None => if bool_decide (t ∈ txs) then createTxEntry t (unixSeconds (addNow t)) else None
  end.

Lemma add_keeps t now m : keeps m (AddTransactionToMempool t now m).1.2.
Proof.
  unfold AddTransactionToMempool. destruct (txEntries m !! t) eqn:Ht; [apply keeps_refl|].
  destruct (createTxEntry t _) as [e|] eqn:He; [|apply keeps_refl].
  split; [intros Hm; apply storeEntry_ok; [done|done|by eapply createTxEntry_sender]|intros Hm; by apply storeEntry_exact].
Qed.

Lemma addBackendTxs_ok addNow txs m : let r := addBackendTxs addNow txs m in
  keeps m r.1 /\ (forall t, txEntries r.1 !! t = afterAdds addNow txs m t)
  /\ NoDup r.2 /\ forall t, t ∈ r.2 <-> txEntries m !! t = None /\ is_Some (txEntries r.1 !! t).
Proof.
  unfold addBackendTxs. induction txs as [|t txs IH] using rev_ind.
  - cbn. split_and!; [apply keeps_refl|intros t; unfold afterAdds; rewrite bool_decide_eq_false_2 by (intros []%elem_of_nil); by destruct (txEntries m !! t)|constructor|].
    intros t. rewrite elem_of_nil. split; [done|]. intros [-> [? [=]]].
  - rewrite foldl_snoc. destruct (foldl _ _ txs) as [m1 nt] eqn:Hf. cbn [fst snd] in *. destruct IH as (Hk & Hl & Hnd & Hnt).
    pose proof (add_keeps t (addNow t) m1) as Hk'. unfold AddTransactionToMempool in *.
    assert (Hstep : forall t', t' <> t -> afterAdds addNow (txs ++ [t]) m t' = afterAdds addNow txs m t').
    { intros t' Hne. unfold afterAdds. by rewrite (bool_decide_ext (t' ∈ txs ++ [t]) (t' ∈ txs)) by set_solver. }
    destruct (txEntries m1 !! t) as [e|] eqn:Ht; [|destruct (createTxEntry t _) as [e|] eqn:He]; cbn [fst snd] in *; rewrite ?app_nil_r.
    + split_and!; [done| |done|done]. intros t'. destruct (decide (t' = t)) as [->|]; [|by rewrite Hstep]. rewrite Ht. rewrite Hl in Ht. unfold afterAdds in *.
      destruct (txEntries m !! t); [done|]. rewrite (bool_decide_eq_true_2 (t ∈ txs ++ [t])) by set_solver. case_bool_decide; done.
    + assert (txEntries m !! t = None) as Hm by (rewrite Hl in Ht; unfold afterAdds in Ht; by destruct (txEntries m !! t)).
      split_and!; [by eapply keeps_trans| | |].
      * intros t'. cbn [storeEntry txEntries]. destruct (decide (t' = t)) as [->|]; [|by rewrite Hstep, lookup_insert_ne, Hl].
        rewrite lookup_insert_eq. unfold afterAdds. rewrite Hm, bool_decide_eq_true_2 by set_solver. done.
      * apply NoDup_app. split_and!; [done| |apply NoDup_singleton]. intros t' Ht' ->%list_elem_of_singleton. apply Hnt in Ht' as [_ [e' He']]. by rewrite Ht in He'.
      * intros t'. rewrite elem_of_app, list_elem_of_singleton, Hnt. cbn [storeEntry txEntries]. destruct (decide (t' = t)) as [->|].
        -- rewrite lookup_insert_eq. split; [|by right]. intros _. split; [done|by eexists].
        -- rewrite lookup_insert_ne by done. naive_solver.
    + split_and!; [done| |done|done]. intros t'. destruct (decide (t' = t)) as [->|]; [|by rewrite Hstep]. rewrite Ht. rewrite Hl in Ht. unfold afterAdds in *.
      destruct (txEntries m !! t); [done|]. rewrite (bool_decide_eq_true_2 (t ∈ txs ++ [t])) by set_solver. done.
Qed.

(** What a resync leaves of a transaction: its entry, or the one that is created when the backend
    lists it; an entry older than the snapshot that the backend does not list is removed, and when
    the cleanup is due every entry older than the timeout. *)
Definition resyncEntry (s : MempoolEthereumType) (txs : list bytes) (snapshotNow : Z) (addNow : bytes -> Z) (now : Z) (t : bytes) : option txEntry :=
  let e := if em_queryBackendOnResync s then
             e ← afterAdds addNow txs (em_base s) t;
             if bool_decide (t ∈ txs) || (unixSeconds snapshotNow <=? te_time e) then Some e else None
           else txEntries (em_base s) !! t in
  e ← e;
  if (em_nextTimeoutRun s <? now) && (te_time e * second <? now - em_mempoolTimeoutTime s) then None else Some e.

Lemma timeoutSweep_ok walk now s : (forall m, walk m ≡ₚ map_to_list m) ->
  let r := timeoutSweep walk now s in
  keeps (em_base s) (em_base r.2) /\ r.1 = Z.of_nat (size (txEntries (em_base r.2)))
  /\ (forall t, txEntries (em_base r.2) !! t = e ← txEntries (em_base s) !! t;
        if (em_nextTimeoutRun s <? now) && (te_time e * second <? now - em_mempoolTimeoutTime s) then None else Some e)
  /\ em_nextTimeoutRun r.2 = (if em_nextTimeoutRun s <? now then now + mempoolTimeoutRunPeriod else em_nextTimeoutRun s).
Proof.
  intros Hw. unfold timeoutSweep. destruct (em_nextTimeoutRun s <? now) eqn:Hd; cbn [fst snd em_base em_nextTimeoutRun].
  - destruct (removeWhere_walk (isTimedOut (now - em_mempoolTimeoutTime s)) _ (em_base s) (Hw _)) as [Hk%shrinks_keeps Hl]. split_and!; [done|done| |done].
    intros t. rewrite Hl. by destruct (txEntries (em_base s) !! t).
  - split_and!; [apply keeps_refl|done| |done]. intros t. by destruct (txEntries (em_base s) !! t).
Qed.

(** C21: a resync fails only when the backend does, and then changes nothing; otherwise it
    returns the number of entries and leaves for every transaction what the specification
    [resyncEntry] says; the transactions that it announces are the new entries, each once (also
    those that the cleanup removes at once); the index stays that of the entries. *)
Theorem eth_resync walk snapshotNow addNow now s :
  (forall m, walk m ≡ₚ map_to_list m) -> pool_ok (em_base s) ->
  (forall err, em_queryBackendOnResync s = true -> GetPendingTransactions = inl err ->
     Resync walk snapshotNow addNow now s = (Err err, s, []))
  /\ forall txs, GetPendingTransactions = inr txs ->
     exists s' announced, Resync walk snapshotNow addNow now s = (Ok (Z.of_nat (size (txEntries (em_base s')))), s', announced)
       /\ pool_ok (em_base s') /\ (exact (em_base s) -> exact (em_base s'))
       /\ (forall t, txEntries (em_base s') !! t = resyncEntry s txs snapshotNow addNow now t)
       /\ NoDup announced
       /\ (forall t, t ∈ announced <-> em_queryBackendOnResync s = true /\ t ∈ txs /\ txEntries (em_base s) !! t = None /\ is_Some (createTxEntry t 0))
       /\ em_nextTimeoutRun s' = (if em_nextTimeoutRun s <? now then now + mempoolTimeoutRunPeriod else em_nextTimeoutRun s).
Proof.
  intros Hw Hm. unfold Resync. split; [by intros err -> ->|]. intros txs ->. unfold resyncEntry. destruct (em_queryBackendOnResync s) eqn:Hq.
  - destruct (addBackendTxs_ok addNow txs (em_base s)) as (Hk1 & Hl1 & Hnd & Hnt). destruct (addBackendTxs addNow txs (em_base s)) as [m1 nt]. cbn [fst snd] in *.
    destruct (removeWhere_walk (isMissing (list_to_set txs) (unixSeconds snapshotNow)) _ m1 (Hw _)) as [Hk2%shrinks_keeps Hl2].
    unfold removeTransactionsMissingFromBackend. set (m2 := (removeWhere _ _ m1).1) in *.
    destruct (timeoutSweep_ok walk now (mkEthMempool m2 (em_mempoolTimeoutTime s) true (em_nextTimeoutRun s)) Hw) as (Hk3 & Hr & Hl3 & Hn).
    destruct (timeoutSweep _ _ _) as [n s']. cbn [fst snd em_base em_nextTimeoutRun em_mempoolTimeoutTime] in *. subst n. exists s', nt.
    pose proof (keeps_trans _ _ _ Hk1 (keeps_trans _ _ _ Hk2 Hk3)) as [K1 K2]. split_and!; [done|auto|auto| |done| |done].
    + intros t. rewrite Hl3, Hl2, Hl1. destruct (afterAdds addNow txs (em_base s) t) as [e|]; [|done]. cbn. unfold isMissing.
      rewrite (bool_decide_ext (t ∈ (list_to_set txs : gset bytes)) (t ∈ txs)) by apply elem_of_list_to_set. by destruct (_ || _).
    + intros t. rewrite Hnt, Hl1. unfold afterAdds. split.
      * intros [Hn0 H]. rewrite Hn0 in H. case_bool_decide as Hin; [|by destruct H]. destruct H as [e He]. split_and!; [done..|].
        by rewrite (createTxEntry_time _ _ 0 _ He).
      * intros (_ & Hin & Hn0 & e & He). rewrite Hn0, bool_decide_eq_true_2 by done. split; [done|]. by rewrite (createTxEntry_time _ _ _ _ He).
  - destruct (timeoutSweep_ok walk now s Hw) as ([K1 K2] & Hr & Hl & Hn). destruct (timeoutSweep _ _ _) as [n s']. cbn [fst snd] in *. subst n. exists s', [].
    split_and!; [done|auto|auto| |constructor| |done].
    + intros t. by rewrite Hl.
    + intros t. rewrite elem_of_nil. naive_solver.
Qed.
End Resync.
End PoolCorrect.

(** ** An instance *)

Module EthMempoolExample.
Import EthParserExample.

Definition addressText (a : bytes) : bytes := hexutil_Encode a.
Definition alice : bytes := replicate 20 xaa.
Definition bob : bytes := replicate 20 xbb.
Definition carol : bytes := replicate 20 xcc.

(** A receipt shows a token transfer to Carol. *)
Definition transfers (tx : EthTx) : result (list TokenTransfer) :=
  match etx_CoinSpecificData tx with
  | Some (mkSpecificData _ _ (Some _)) => Ok [mkTokenTransfer FungibleToken [] (addressText alice) (addressText carol) 1 []]
  | _ => Ok []
  end.
#[export] Instance refParser : EthChainParser := ethereumParser 0 transfers.

(** Alice sends to Bob and to herself. *)
Definition ethTx (receipt : option RpcReceipt) (to nonce : bytes) : EthMempoolTx :=
  mkEthMempoolTx (mkEthTx [] [[addressText alice]] [[addressText to]] 0 (Some (mkSpecificData (Some (mkRpcTransaction [] [] [])) None receipt))) (fun _ => 0) nonce.
Definition pendingTx : bytes -> bytes -> EthMempoolTx := ethTx None.
Definition minedTx : bytes -> bytes -> EthMempoolTx := ethTx (Some (mkRpcReceipt [])).

Definition tx1 : bytes := [x01].
Definition tx2 : bytes := [x02].

#[export] Instance refChain : EthMempoolChain := {
  GetPendingTransactions := inr [tx1; tx2];
  GetEthTransactionForMempool t :=
    if bool_decide (t = tx1) then Some (pendingTx bob (str "0x5"))
    else if bool_decide (t = tx2) then Some (pendingTx alice (str "0x1f"))
    else None;
}.

Definition walk (m : gmap bytes txEntry) : list (bytes * txEntry) := map_to_list m.

Definition started : MempoolEthereumType := NewMempoolEthereumType (3600 * second) true 0.

Lemma started_ok : pool_ok (em_base started).
Proof.
  split; [|done..]. intros a o. change (posted _ a) with (@nil Outpoint). rewrite elem_of_nil. split; [done|]. by intros (e & He & _).
Qed.

(** Both transactions are added; a minute later nothing has changed; after two hours the
    backend still lists them, but they are too old. *)
Definition resynced : result Z * MempoolEthereumType * list bytes := Resync walk second (fun _ => 2 * second) (3 * second) started.

Example resynced_twice : resynced.1.1 = Ok 2 /\ resynced.2 = [tx1; tx2]
  /\ (Resync walk (60 * second) (fun _ => 60 * second) (60 * second) resynced.1.2).1.1 = Ok 2
  /\ (Resync walk (7200 * second) (fun _ => 7200 * second) (7201 * second) resynced.1.2).1.1 = Ok 0.
Proof. vm_compute. done. Qed.

Lemma eth_resync_witness : pool_ok (em_base started) /\
  exists s' announced, Resync walk second (fun _ => 2 * second) (3 * second) started = (Ok (Z.of_nat (size (txEntries (em_base s')))), s', announced) /\ pool_ok (em_base s').
Proof.
  split; [apply started_ok|].
  destruct (proj2 (eth_resync (C := refChain) walk second (fun _ => 2 * second) (3 * second) started (fun m => reflexivity _) started_ok) [tx1; tx2] eq_refl) as (s' & nt & H & Hok & _).
  exists s', nt. split; [exact H|exact Hok].
Defined.

Definition pool : BaseMempool := (addBackendTxs (fun _ => 2 * second) [tx1; tx2] (em_base started)).1.

Lemma pool_is_ok : pool_ok pool.
Proof. destruct (addBackendTxs_ok (fun _ => 2 * second) [tx1; tx2] (em_base started)) as ([H _] & _). apply H, started_ok. Qed.

(** A mined nonce 5 retires the first transaction, nonce 31 both. *)
Lemma sender_retired_witness : pool_ok pool /\ alice <> [] /\
  RemoveSenderTransactionsUpToNonce alice 5 pool = (RemoveTransactionFromMempool tx1 pool, [tx1])
  /\ (RemoveSenderTransactionsUpToNonce alice 31 pool).2 ≡ₚ [tx1; tx2] /\ NoDup (RemoveSenderTransactionsUpToNonce alice 31 pool).2.
Proof.
  split; [apply pool_is_ok|]. split; [discriminate|]. split; [vm_compute; reflexivity|]. split; [vm_compute; reflexivity|].
  pose proof (sender_retired alice 31 pool pool_is_ok ltac:(discriminate)) as H.
  destruct (RemoveSenderTransactionsUpToNonce alice 31 pool) as [m' removed]. exact (proj1 (proj2 (proj2 H))).
Defined.

(** What the backend says of the first transaction before and after it is mined. *)
Definition answers (t : bytes) (mtx : EthMempoolTx) : Prop := t = tx1 /\ mtx ∈ [pendingTx bob (str "0x5"); minedTx bob (str "0x5")].
Definition pendingEntry : txEntry := createEntry (pendingTx bob (str "0x5")) (unixSeconds (2 * second)).
Definition minedEntry : txEntry := createEntry (minedTx bob (str "0x5")) (unixSeconds (2 * second)).
Definition anyOverlap (_ : bytes) : bool := true.

(** Two calls add the same transaction: both find no entry, both store it. *)
Definition overlapped : Pool := mkPool (storeEntry tx1 pendingEntry (storeEntry tx1 pendingEntry (mkMempool ∅ ∅))) [] [tx1; tx1].

Lemma overlapped_run : rtc (pstep answers anyOverlap) emptyPool overlapped.
Proof.
  assert (Ha : answers tx1 (pendingTx bob (str "0x5"))) by (split; [done|left]).
  eapply rtc_l; [apply (step_begin _ _ _ _ _ tx1 (pendingTx bob (str "0x5")) (2 * second)); [reflexivity|exact Ha]|].
  eapply rtc_l; [apply (step_begin _ _ _ _ _ tx1 (pendingTx bob (str "0x5")) (2 * second)); [reflexivity|exact Ha]|].
  eapply rtc_l; [apply (step_finish _ _ _ [] _ _ tx1 pendingEntry); by left|].
  eapply rtc_l; [apply (step_finish _ _ _ [] _ _ tx1 pendingEntry); by left|]. apply rtc_refl.
Qed.

(** Overlapping additions of the same transaction list its outpoints twice and announce it twice,
    although the second one is documented to add nothing. *)
Theorem overlapping_adds : rtc (pstep answers anyOverlap) emptyPool overlapped /\ pl_announced overlapped = [tx1; tx1]
  /\ GetAddrDescTransactions (pl_mempool overlapped) bob = [mkOut tx1 0; mkOut tx1 0].
Proof. split; [apply overlapped_run|]. split; vm_compute; reflexivity. Qed.

(** The first call asks before the transaction is mined, the second one afterwards, but stores first. *)
Definition stale : Pool :=
  mkPool (RemoveTransactionFromMempool tx1 (storeEntry tx1 pendingEntry (storeEntry tx1 minedEntry (mkMempool ∅ ∅)))) [] [tx1; tx1].

(** When the backend answers differently, overlapping additions leave an outpoint that no removal takes away: the mempool is
    empty, and Carol has an unconfirmed transaction for ever. *)
Theorem stale_outpoint : rtc (pstep answers anyOverlap) emptyPool stale /\ txEntries (pl_mempool stale) = ∅
  /\ GetAddrDescTransactions (pl_mempool stale) carol = [mkOut tx1 1].
Proof.
  assert (Ha : answers tx1 (pendingTx bob (str "0x5"))) by (split; [done|left]).
  assert (Hb : answers tx1 (minedTx bob (str "0x5"))) by (split; [done|right; left]).
  split; [|split; vm_compute; reflexivity].
  eapply rtc_l; [apply (step_begin _ _ _ _ _ tx1 (pendingTx bob (str "0x5")) (2 * second)); [reflexivity|exact Ha]|].
  eapply rtc_l; [apply (step_begin _ _ _ _ _ tx1 (minedTx bob (str "0x5")) (2 * second)); [reflexivity|exact Hb]|].
  eapply rtc_l; [apply (step_finish _ _ _ [] _ _ tx1 minedEntry); by left|].
  eapply rtc_l; [apply (step_finish _ _ _ [] _ _ tx1 pendingEntry); by left|].
  eapply rtc_l; [apply (step_remove _ _ _ _ _ tx1)|]. apply rtc_refl.
Qed.

(** One call adds the transaction before and one after it is mined, without an overlap. *)
Definition noOverlap (_ : bytes) : bool := false.
Definition readded : Pool := mkPool (storeEntry tx1 minedEntry (RemoveTransactionFromMempool tx1 (storeEntry tx1 pendingEntry (mkMempool ∅ ∅)))) [] [tx1; tx1].

Lemma readded_run : rtc (pstep answers noOverlap) emptyPool readded.
Proof.
  assert (Ha : answers tx1 (pendingTx bob (str "0x5"))) by (split; [done|left]).
  assert (Hb : answers tx1 (minedTx bob (str "0x5"))) by (split; [done|right; left]).
  eapply rtc_l; [apply (step_begin _ _ _ _ _ tx1 (pendingTx bob (str "0x5")) (2 * second)); [reflexivity|exact Ha]|].
  eapply rtc_l; [apply (step_finish _ _ _ [] _ _ tx1 pendingEntry); by right|].
  eapply rtc_l; [apply (step_remove _ _ _ _ _ tx1)|].
  eapply rtc_l; [apply (step_begin _ _ _ _ _ tx1 (minedTx bob (str "0x5")) (2 * second)); [reflexivity|exact Hb]|].
  eapply rtc_l; [apply (step_finish _ _ _ [] _ _ tx1 minedEntry); right; reflexivity|]. apply rtc_refl.
Qed.

Lemma mempool_interleaved_witness : rtc (pstep answers noOverlap) emptyPool readded /\
  filter (fun o => out_Txid o = tx1) (GetAddrDescTransactions (pl_mempool readded) carol) = [mkOut tx1 1].
Proof.
  split; [apply readded_run|].
  destruct (mempool_interleaved answers noOverlap readded readded_run) as (_ & _ & _ & _ & H & _). rewrite (H carol tx1 eq_refl). vm_compute. reflexivity.
Defined.
End EthMempoolExample.
