(* ===== verification/Paging.v ===== *)
(** Paging of the answers ([api/worker.go]: [computePaging], [computeAccountPaging]; [server/public.go]:
    the checks of the parameters of a request).

    - [pages_tile]: whatever page is asked for, the window lies inside of the items, and the windows of
      all pages are the items, each once;
    - [account_page_window]: a page over pending and then confirmed transactions is the window of the
      sequence of both;
    - [sanitized_page]: the parameters that pass the checks cannot overflow. *)

From S2P Require Import Prelude.

Local Open Scope Z_scope.

Record Paging := mkPaging { pg_Page : Z; pg_TotalPages : Z; pg_ItemsOnPage : Z }.

(** ** Windows *)

Definition maxSafeInt : Z := 1000000000.

Definition safeMultiply (a b : Z) : Z :=
  if (0 <? a) && (0 <? b)
  then (if Z.quot maxSafeInt b <? a then maxSafeInt else a * b)
  else 0.

(** The paging, the window from-to and the page, counted from 0. *)
Definition computePaging (count page itemsOnPage : Z) : Paging * Z * Z * Z :=
  let page := if page <? 0 then 0 else page in
  let itemsOnPage := if itemsOnPage <=? 0 then 1 else itemsOnPage in
  let count := if count <? 0 then 0 else count in
  let totalPages := Z.quot (count - 1) itemsOnPage in
  let totalPages := if totalPages <? 0 then 0 else totalPages in
  let from := safeMultiply page itemsOnPage in
  let '(page, from) := if count <=? from then (totalPages, safeMultiply totalPages itemsOnPage) else (page, from) in
  let to := safeMultiply (i64 (page + 1)) itemsOnPage in
  let to := if count <? to then count else to in
  (mkPaging (i64 (page + 1)) (totalPages + 1) itemsOnPage, from, to, page).

Definition clampRange (from to length : Z) : Z * Z :=
  let from := Z.min (Z.max from 0) length in
  (from, Z.min (Z.max to from) length).

(** The paging, the windows of the pending and of the confirmed transactions, and the page. *)
Definition computeAccountPaging (mempoolCount confirmedCount page itemsOnPage : Z) : Paging * (Z * Z) * (Z * Z) * Z :=
  let '(pg, from, to, normalizedPage) := computePaging (mempoolCount + confirmedCount) page itemsOnPage in
  (pg, clampRange from to mempoolCount, clampRange (from - mempoolCount) (to - mempoolCount) confirmedCount, normalizedPage).

(** ** Parameters *)

Definition maxPageNumber : Z := 1000000.
Definition maxSafePagingOffset : Z := 1000000000.
Definition maxAccountHistoryPagingOffset : Z := 100000.

Definition validateIntValue (val defaultValue min max : Z) : Z :=
  if val <? min then defaultValue
  else if (0 <? max) && (max <? val) then max
  else val.

Definition sanitizePagingParamsWithMaxOffset (page pageSize defaultPageSize maxPageSize maxPagingOffset : Z) : Z * Z :=
  let page := validateIntValue page 0 0 maxPageNumber in
  let pageSize := validateIntValue pageSize defaultPageSize 0 maxPageSize in
  let pageSize := if pageSize =? 0 then defaultPageSize else pageSize in
  let page := if (0 <? page) && (0 <? pageSize) && (Z.quot maxPagingOffset pageSize <? page)
              then Z.quot maxPagingOffset pageSize else page in
  (page, pageSize).

Definition sanitizePagingParams (page pageSize defaultPageSize maxPageSize : Z) : Z * Z :=
  sanitizePagingParamsWithMaxOffset page pageSize defaultPageSize maxPageSize maxSafePagingOffset.

Definition sanitizeAccountPagingParams (page pageSize defaultPageSize maxPageSize : Z) : Z * Z :=
  sanitizePagingParamsWithMaxOffset page pageSize defaultPageSize maxPageSize maxAccountHistoryPagingOffset.

(** ** Theorems *)

Lemma safeMultiply_small a b : 0 <= a -> 0 < b -> a * b <= maxSafeInt -> safeMultiply a b = a * b.
Proof.
  intros Ha Hb Hm. unfold safeMultiply. destruct (Z.ltb_spec 0 a) as [Ha'|]; cbn [andb]; [|lia].
  rewrite (proj2 (Z.ltb_lt 0 b)) by done. rewrite (proj2 (Z.ltb_ge _ _)); [done|].
  rewrite Z.quot_div_nonneg by (unfold maxSafeInt; lia). apply Z.div_le_lower_bound; lia.
Qed.

Lemma safeMultiply_large a b : 0 < a -> 0 < b -> maxSafeInt < a * b -> safeMultiply a b = maxSafeInt.
Proof.
  intros Ha Hb Hm. unfold safeMultiply. rewrite (proj2 (Z.ltb_lt 0 a)), (proj2 (Z.ltb_lt 0 b)) by done. cbn [andb].
  rewrite (proj2 (Z.ltb_lt _ _)); [done|]. rewrite Z.quot_div_nonneg by (unfold maxSafeInt; lia). apply Z.div_lt_upper_bound; lia.
Qed.

(** The last page, counted from 0. *)
Definition lastPage (count items : Z) : Z := if count =? 0 then 0 else (count - 1) / items.

Lemma lastPage_spec count items : 0 <= count -> 0 < items ->
  0 <= lastPage count items /\ lastPage count items * items <= count /\ count <= (lastPage count items + 1) * items
  /\ (0 < count -> lastPage count items * items < count).
Proof.
  intros Hc Hi. unfold lastPage. destruct (Z.eqb_spec count 0) as [->|]; [lia|].
  pose proof (Z.div_mod (count - 1) items ltac:(lia)) as Hd. pose proof (Z.mod_pos_bound (count - 1) items Hi).
  assert (0 <= (count - 1) / items) by (apply Z.div_pos; lia). nia.
Qed.

(** What [computePaging] returns for counts that fit. *)
Lemma computePaging_spec count page items : 0 <= count <= maxSafeInt -> 0 < items < 2 ^ 62 -> is_i64 page ->
  let p := Z.min (Z.max page 0) (lastPage count items) in
  computePaging count page items = (mkPaging (p + 1) (lastPage count items + 1) items, p * items, Z.min count ((p + 1) * items), p).
Proof.
  intros Hc Hi Hp. destruct (lastPage_spec count items) as (HL0 & HL1 & HL2 & HL3); [lia..|]. set (L := lastPage count items) in *. cbn zeta.
  assert (HLb : L <= maxSafeInt) by nia. unfold maxSafeInt in *.
  unfold computePaging. rewrite (proj2 (Z.leb_gt items 0)), (proj2 (Z.ltb_ge count 0)) by lia.
  assert (Hq : (if Z.quot (count - 1) items <? 0 then 0 else Z.quot (count - 1) items) = L).
  { unfold L, lastPage. destruct (Z.eqb_spec count 0) as [->|].
    - destruct (Z.eq_dec items 1) as [->|]; [done|]. change (0 - 1) with (- (1)). rewrite Z.quot_opp_l, Z.quot_small by lia. done.
    - rewrite Z.quot_div_nonneg by lia. rewrite (proj2 (Z.ltb_ge _ _)); [done|]. apply Z.div_pos; lia. }
  rewrite Hq. set (q := if page <? 0 then 0 else page). assert (Hqe : q = Z.max page 0) by (unfold q; destruct (Z.ltb_spec page 0); lia). rewrite Hqe. clear q Hqe.
  set (q := Z.max page 0). assert (Hq0 : 0 <= q < 2 ^ 63) by (unfold q, is_i64 in *; lia).
  assert (Hend : forall p, 0 <= p <= L -> p * items <= count ->
    (if count <? safeMultiply (i64 (p + 1)) items then count else safeMultiply (i64 (p + 1)) items) = Z.min count ((p + 1) * items)).
  { intros p Hpl Hpc. rewrite i64_id by (unfold is_i64; lia). destruct (Z.le_gt_cases ((p + 1) * items) 1000000000).
    - rewrite safeMultiply_small by (unfold maxSafeInt; lia). destruct (Z.ltb_spec count ((p + 1) * items)); lia.
    - rewrite safeMultiply_large by (unfold maxSafeInt; lia). unfold maxSafeInt. destruct (Z.ltb_spec count 1000000000); lia. }
  assert (Hi64 : forall p, 0 <= p <= L -> i64 (p + 1) = p + 1) by (intros p Hpl; apply i64_id; unfold is_i64; lia).
  destruct (Z.le_gt_cases q L) as [Hle|Hgt].
  - rewrite Z.min_l by done. assert (q * items <= count) by nia. rewrite (safeMultiply_small q) by (unfold maxSafeInt; lia).
    destruct (Z.leb_spec count (q * items)) as [Hge|_].
    + assert (count = 0 /\ q = 0) as [-> ->] by nia. assert (L = 0) as -> by nia. rewrite safeMultiply_small by (unfold maxSafeInt; lia).
      cbv beta iota zeta. rewrite (Hend 0), (Hi64 0) by lia. done.
    + cbv beta iota zeta. rewrite (Hend q), (Hi64 q) by lia. done.
  - rewrite Z.min_r by lia. assert (count <= q * items) by nia.
    destruct (Z.leb_spec count (safeMultiply q items)) as [_|Hlt].
    + rewrite (safeMultiply_small L) by (unfold maxSafeInt; lia). cbv beta iota zeta. rewrite (Hend L), (Hi64 L) by lia. done.
    + exfalso. destruct (Z.le_gt_cases (q * items) 1000000000).
      * rewrite safeMultiply_small in Hlt by (unfold maxSafeInt; lia). lia.
      * rewrite safeMultiply_large in Hlt by (unfold maxSafeInt; lia). unfold maxSafeInt in Hlt. lia.
Qed.

Definition windowOf {A} (l : list A) (items page : Z) : list A :=
  let '(_, from, to, _) := computePaging (zlen l) page items in
  match slice l from to with Ok w => w | _ => [] end.

Lemma slice_window {A} (l : list A) p items : 0 <= p -> 0 < items -> p * items <= zlen l ->
  slice l (p * items) (Z.min (zlen l) ((p + 1) * items)) = Ok (take (Z.to_nat items) (drop (Z.to_nat (p * items)) l)).
Proof.
  intros Hp Hi Hl. unfold slice. rewrite !(proj2 (Z.leb_le _ _)) by nia. cbn [andb]. f_equal.
  destruct (Z.le_gt_cases ((p + 1) * items) (zlen l)).
  - rewrite Z.min_r by done. f_equal. lia.
  - rewrite Z.min_l by lia. rewrite !take_ge; [done|..]; rewrite length_drop; unfold zlen in *; lia.
Qed.

Lemma concat_windows {A} (l : list A) k n : concat (map (fun p => take k (drop (p * k) l)) (seq 0 n)) = take (n * k) l.
Proof.
  induction n as [|n IH]; [done|]. rewrite seq_S, map_app, concat_app, IH. cbn [map concat]. rewrite app_nil_r.
  replace (S n * k)%nat with (n * k + k)%nat by lia. rewrite <- take_take_drop. done.
Qed.

(** Whatever page is asked for, the window of [computePaging] lies inside of the items and
    has at most the wanted number of them; a page that exists is the one returned, a page beyond
    the last is the last one; and the windows of all pages in order are the items, each once. *)
Theorem pages_tile {A} (l : list A) items : zlen l <= maxSafeInt -> 0 < items < 2 ^ 62 ->
  (forall page, is_i64 page ->
     let '(pg, from, to, p) := computePaging (zlen l) page items in
     (exists w, slice l from to = Ok w /\ zlen w <= items /\ (0 < zlen l -> w <> []))
     /\ 1 <= pg_Page pg <= pg_TotalPages pg /\ p = pg_Page pg - 1
     /\ (0 <= page < pg_TotalPages pg -> p = page) /\ (pg_TotalPages pg <= page -> pg_Page pg = pg_TotalPages pg))
  /\ concat (map (windowOf l items) (seqZ 0 (lastPage (zlen l) items + 1))) = l.
Proof.
  intros Hl Hi. pose proof (zlen_nonneg l) as Hz. destruct (lastPage_spec (zlen l) items) as (HL0 & HL1 & HL2 & HL3); [lia..|]. set (L := lastPage (zlen l) items) in *.
  split.
  - intros page Hp. rewrite computePaging_spec by done. fold L. set (p := Z.min (Z.max page 0) L). assert (Hpb : 0 <= p <= L) by lia.
    cbn [pg_Page pg_TotalPages]. split_and!; [|lia..]. assert (p * items <= zlen l) by nia.
    rewrite slice_window by lia. eexists. split; [done|]. split; [unfold zlen; rewrite length_take; lia|].
    intros Hne Hw. apply (f_equal length) in Hw. rewrite length_take, length_drop in Hw. cbn in Hw. assert (p * items < zlen l) by nia. unfold zlen in *. lia.
  - unfold seqZ. rewrite map_map, Z.sub_0_r || rewrite map_map.
    rewrite (map_ext_in _ (fun p => take (Z.to_nat items) (drop (p * Z.to_nat items) l))), concat_windows.
    + apply take_ge. unfold zlen in *. nia.
    + intros k Hk%in_seq. unfold windowOf. rewrite computePaging_spec by (try done; unfold is_i64, maxSafeInt in *; lia || nia). fold L.
      replace (Z.min (Z.max (Z.of_nat k + 0) 0) L) with (Z.of_nat k) by lia. rewrite slice_window by nia. do 2 f_equal. nia.
Qed.

Lemma slice_split {A} (m c : list A) from to : 0 <= from <= to -> to <= zlen (m ++ c) ->
  exists w1 w2, slice m (clampRange from to (zlen m)).1 (clampRange from to (zlen m)).2 = Ok w1
    /\ slice c (clampRange (from - zlen m) (to - zlen m) (zlen c)).1 (clampRange (from - zlen m) (to - zlen m) (zlen c)).2 = Ok w2
    /\ slice (m ++ c) from to = Ok (w1 ++ w2).
Proof.
  intros Hf Ht. rewrite zlen_app in Ht. pose proof (zlen_nonneg m). pose proof (zlen_nonneg c). unfold clampRange. cbn [fst snd].
  assert (Hs : forall (l : list A) i j, 0 <= i -> i <= j -> j <= zlen l -> slice l i j = Ok (take (Z.to_nat (j - i)) (drop (Z.to_nat i) l))).
  { intros l i j H1 H2 H3. unfold slice. by rewrite !(proj2 (Z.leb_le _ _)) by lia. }
  rewrite !Hs by (rewrite ?zlen_app; lia). eexists _, _. split_and!; [done..|]. f_equal.
  rewrite drop_app, take_app. f_equal.
  - unfold zlen in *. destruct (Z.le_gt_cases to (Z.of_nat (length m))).
    + do 2 f_equal; lia.
    + destruct (Z.le_gt_cases from (Z.of_nat (length m))).
      * rewrite !take_ge by (rewrite length_drop; lia). f_equal. lia.
      * rewrite !drop_ge by lia. by rewrite !take_nil.
  - unfold zlen in *. rewrite length_drop. destruct (Z.le_gt_cases from (Z.of_nat (length m))).
    + replace (Z.to_nat from - length m)%nat with 0%nat by lia. replace (Z.to_nat (Z.min (Z.max (from - _) 0) _)) with 0%nat by lia. rewrite !drop_0. f_equal. lia.
    + f_equal; [lia|]. f_equal. lia.
Qed.

(** The page over pending transactions followed by confirmed ones consists of a window of
    the pending and a window of the confirmed transactions that together are the window of the
    whole sequence, so that no transaction is shown twice or falls between two pages. *)
Theorem account_page_window {A} (mempool confirmed : list A) page items :
  zlen (mempool ++ confirmed) <= maxSafeInt -> 0 < items < 2 ^ 62 -> is_i64 page ->
  let '(pg, mw, cw, p) := computeAccountPaging (zlen mempool) (zlen confirmed) page items in
  exists w1 w2, slice mempool mw.1 mw.2 = Ok w1 /\ slice confirmed cw.1 cw.2 = Ok w2
    /\ w1 ++ w2 = windowOf (mempool ++ confirmed) items page /\ zlen (w1 ++ w2) <= items.
Proof.
  intros Hl Hi Hp. unfold computeAccountPaging, windowOf. rewrite <- zlen_app. rewrite computePaging_spec by (pose proof (zlen_nonneg (mempool ++ confirmed)); done || lia).
  set (n := zlen (mempool ++ confirmed)) in *. assert (Hn : 0 <= n) by apply zlen_nonneg. destruct (lastPage_spec n items) as (HL0 & HL1 & _); [lia..|].
  set (p := Z.min _ _). assert (Hpb : 0 <= p <= lastPage n items) by lia. assert (p * items <= n) by nia.
  destruct (slice_split mempool confirmed (p * items) (Z.min n ((p + 1) * items))) as (w1 & w2 & H1 & H2 & H3); [nia|unfold n; lia|].
  exists w1, w2. rewrite H3. split_and!; [done..|]. unfold n in H3. rewrite slice_window in H3 by (unfold n in *; lia).
  injection H3 as <-. unfold zlen. rewrite length_take. lia.
Qed.

(** The page and the page size that pass the checks of the server are not negative, do not
    pass their limits, and their product, which the code computes in integers of the machine,
    does not pass the largest offset; the page size is never 0. *)
Theorem sanitized_page page pageSize defaultPageSize maxPageSize maxOffset :
  0 < defaultPageSize <= maxPageSize -> 0 <= maxOffset ->
  let '(p, s) := sanitizePagingParamsWithMaxOffset page pageSize defaultPageSize maxPageSize maxOffset in
  0 <= p <= maxPageNumber /\ 0 < s <= maxPageSize /\ p * s <= maxOffset
  /\ (0 <= page <= maxPageNumber -> 0 < pageSize <= maxPageSize -> page * pageSize <= maxOffset -> p = page /\ s = pageSize).
Proof.
  intros Hd Hm. unfold sanitizePagingParamsWithMaxOffset. set (p := validateIntValue page 0 0 maxPageNumber).
  assert (Hp : 0 <= p <= maxPageNumber) by (unfold p, validateIntValue, maxPageNumber; repeat case_match; lia).
  set (s0 := validateIntValue pageSize defaultPageSize 0 maxPageSize).
  assert (Hs0 : 0 <= s0 <= maxPageSize) by (unfold s0, validateIntValue; repeat case_match; lia).
  set (s := if s0 =? 0 then defaultPageSize else s0). assert (Hs : 0 < s <= maxPageSize) by (unfold s; case_match; lia).
  rewrite (proj2 (Z.ltb_lt 0 s)) by lia. rewrite andb_true_r. rewrite Z.quot_div_nonneg by lia.
  pose proof (Z.mul_div_le maxOffset s ltac:(lia)). assert (0 <= maxOffset / s) by (apply Z.div_pos; lia).
  assert (Hsame : 0 <= page <= maxPageNumber -> 0 < pageSize <= maxPageSize -> p = page /\ s = pageSize).
  { intros Hpg Hsz. unfold s, s0, p, validateIntValue. split; repeat case_match; lia. }
  destruct (Z.ltb_spec 0 p); cbn [andb]; [|split_and!; [lia..|nia|intros; by apply Hsame]].
  destruct (Z.ltb_spec (maxOffset / s) p) as [Hlt|Hge].
  - split_and!; [lia..|nia|]. intros Hpg Hsz Hmx. destruct (Hsame Hpg Hsz) as [-> ->]. pose proof (Z.div_le_lower_bound maxOffset pageSize page ltac:(lia) ltac:(lia)). lia.
  - split_and!; [lia..|nia|]. intros Hpg Hsz _. by apply Hsame.
Qed.

