(* ===== verification/History.v ===== *)
(** The history of an address as the API answers it ([api/worker.go]: [getAddressTxids] and the part of
    [GetAddress] that pages over pending and confirmed transactions, for coins of the Bitcoin type and
    the answer with transaction ids).

    Only as many transactions are read as the page needs, so the page is computed from the first
    part of the history. [address_page]: it is nevertheless the window of the whole sequence of
    pending and confirmed transactions, and the number of pages is that of the whole sequence. *)

From S2P Require Import Prelude Codec Parser TxAddr Balance IndexCodec Store Assets Scan Golomb Mempool Paging.

Local Open Scope Z_scope.

Definition AddressFilterVoutOff : Z := -1.
Definition AddressFilterVoutInputs : Z := -2.
Definition AddressFilterVoutOutputs : Z := -3.
Definition AddressFilterVoutQueryNotNecessary : Z := -4.

Record AddressFilter := mkFilter {
  af_Vout : Z;
  af_FromHeight : Z;
  af_ToHeight : Z;
  af_AssetsMask : Z;
  af_OnlyConfirmed : bool;
}.

Definition maxUint32 : Z := 2 ^ 32 - 1.
Definition maxInt : Z := 2 ^ 63 - 1.

Definition maxFilteredAddressScanNonMatching : Z := 200000.
Definition errFilteredScanLimit : goerror := ErrMsg "Filtered history is too large to scan, narrow the range with from/to".

(** Each transaction id once, in the order of its first occurrence. *)
Fixpoint uniqueFrom (seen : gset bytes) (txids : list bytes) : list bytes :=
  match txids with
  | [] => []
  | txid :: r => if bool_decide (txid ∈ seen) then uniqueFrom seen r else txid :: uniqueFrom ({[txid]} ∪ seen) r
  end.

Definition GetUniqueTxids (txids : list bytes) : list bytes := uniqueFrom ∅ txids.

Section History.
Context {V : Vlq} {P : ChainParser} {K : KV}.
(* the version of a confirmed transaction as GetTxAddresses reads it, and that of a pending one *)
Context (txVersion : bytes -> goerror + option Z) (mempoolTxVersion : bytes -> option Z).

Definition assetMaskFromVersion (version : Z) : Z :=
  if supportsSyscoinAssets then GetAssetsMaskFromVersion version else BaseCoinMask.

Definition maskAccepts (filter : AddressFilter) (mask : Z) : bool :=
  (mask =? AllMask) || (Z.land (af_AssetsMask filter) mask =? mask).

Definition txMatchesAssetMask (filter : AddressFilter) (txid : bytes) : goerror + bool :=
  if af_AssetsMask filter =? AllMask then inr true
  else match txVersion txid with
       | inl e => inl e
       | inr None => inr false
       | inr (Some version) => inr (maskAccepts filter (assetMaskFromVersion version))
       end.

(** Does one of the positions of the address in the transaction match? *)
Definition voutMatches (vout : Z) (indexes : list Z) : bool :=
  (vout =? AddressFilterVoutOff)
  || existsb (fun index =>
       let v := if index <? 0 then Z.lnot index else index in
       ((vout =? AddressFilterVoutInputs) && (index <? 0))
       || ((vout =? AddressFilterVoutOutputs) && (0 <=? index))
       || (v =? i32 vout)) indexes.

(** The collected transactions and the number of those that were skipped. *)
Definition skipNonMatching (s : list bytes * Z) : list bytes * Z * option goerror :=
  let s := (s.1, s.2 + 1) in
  (s, if maxFilteredAddressScanNonMatching <? s.2 then Some errFilteredScanLimit else None).

Definition collect (mempool : bool) (filter : AddressFilter) (maxResults : Z)
    (txid : bytes) (height : Z) (indexes : list Z) (s : list bytes * Z) : list bytes * Z * option goerror :=
  let rest :=
    if voutMatches (af_Vout filter) indexes then
      let s := (s.1 ++ [txid], s.2) in
      (s, if maxResults <=? zlen s.1 then Some ErrStop else None)
    else skipNonMatching s in
  if mempool then rest
  else match txMatchesAssetMask filter txid with
       | inl e => (s, Some e)
       | inr false => skipNonMatching s
       | inr true => rest
       end.

(** The loop over the pending transactions of the address. *)
Fixpoint collectMempool (filter : AddressFilter) (maxResults : Z) (o : list Outpoint) (uniqueTxs : gset bytes) (s : list bytes * Z)
    : result (list bytes) :=
  match o with
  | [] => Ok s.1
  | m :: o =>
      if bool_decide (out_Txid m ∈ uniqueTxs) then collectMempool filter maxResults o uniqueTxs s
      else
        let accepted :=
          if af_AssetsMask filter =? AllMask then true
          else match mempoolTxVersion (out_Txid m) with
               | None => false
               | Some version => maskAccepts filter (assetMaskFromVersion version)
               end in
        if accepted then
          match collect true filter maxResults (out_Txid m) 0 [out_Vout m] s with
          | (s', Some ErrStop) => Ok s'.1
          | (s', Some e) => Err e
          | (s', None) =>
              collectMempool filter maxResults o (if zlen s.1 <? zlen s'.1 then {[out_Txid m]} ∪ uniqueTxs else uniqueTxs) s'
          end
        else collectMempool filter maxResults o uniqueTxs s
  end.

Definition getAddressTxids (d : DB K) (m : BaseMempool) (addrDesc : bytes) (mempool : bool) (filter : AddressFilter) (maxResults : Z)
    : result (list bytes) :=
  if mempool then collectMempool filter maxResults (BaseMempool.GetAddrDescTransactions m addrDesc) ∅ ([], 0)
  else
    let to := if af_ToHeight filter =? 0 then maxUint32 else af_ToHeight filter in
    let '(s, r) := Scan.GetAddrDescTransactions (collect false filter maxResults) d addrDesc (af_FromHeight filter) to ([], 0) in
    let! _ := r in Ok s.1.

(** The transactions that are pending: [getTransaction] gives them without confirmations. *)
Context (isPending : bytes -> bool).

(** The retained transactions and the number of all. *)
Definition retainPending (filter : AddressFilter) (page txsOnPage : Z) (txm : list bytes) : list bytes * Z :=
  foldl (fun '(mempoolTxs, mempoolTxCount) txid =>
           if isPending txid
           then (if (af_Vout filter =? AddressFilterVoutQueryNotNecessary) || (zlen mempoolTxs <? i64 (i64 (page + 1) * txsOnPage))
                 then mempoolTxs ++ [txid] else mempoolTxs, mempoolTxCount + 1)
           else (mempoolTxs, mempoolTxCount)) ([], 0) txm.

(** [-1] when the number of transactions is not known because they are filtered. *)
Definition totalResultsOf (filter : AddressFilter) (ba : option AddrBalance) : Z :=
  match ba with
  | None => 0
  | Some ba =>
      if (af_Vout filter =? AddressFilterVoutOff) && (af_FromHeight filter =? 0) && (af_ToHeight filter =? 0) && (af_AssetsMask filter =? AllMask)
      then ab_Txs ba else -1
  end.

(** [GetAddress] with the option [AccountDetailsTxidHistory]: the paging and the transaction ids of the
    page; [ba] is the balance that was read. *)
Definition addressTxidHistory (d : DB K) (m : BaseMempool) (addrDesc : bytes) (ba : option AddrBalance) (page txsOnPage : Z) (filter : AddressFilter)
    : result (Paging * list bytes) :=
  let page := page - 1 in
  let page := if page <? 0 then 0 else page in
  let totalResults := totalResultsOf filter ba in
  let! '(mempoolTxs, mempoolTxCount) :=
    (if (af_ToHeight filter =? 0) && negb (af_OnlyConfirmed filter)
     then let! txm := getAddressTxids d m addrDesc true filter maxInt in Ok (retainPending filter page txsOnPage txm)
     else Ok ([], 0)) in
  if negb (af_Vout filter =? AddressFilterVoutQueryNotNecessary) then
    let! txc := getAddressTxids d m addrDesc false filter (i64 (i64 (page + 1) * txsOnPage)) in
    let! _ := GetBestBlock d in
    let '(pg, mempoolWindow, confirmedWindow, page) := computeAccountPaging mempoolTxCount (zlen txc) page txsOnPage in
    let pg :=
      if txsOnPage <=? zlen txc then
        if totalResults <? 0 then mkPaging (pg_Page pg) (-1) (pg_ItemsOnPage pg)
        else (computePaging (totalResults + mempoolTxCount) page txsOnPage).1.1.1
      else pg in
    let! pending := slice mempoolTxs mempoolWindow.1 mempoolWindow.2 in
    let! confirmed := slice txc confirmedWindow.1 confirmedWindow.2 in
    Ok (pg, pending ++ confirmed)
  else if page =? 0 then Ok (mkPaging 0 0 0, mempoolTxs)
  else Ok (mkPaging 0 0 0, []).
End History.

(** ** Windows of a part of the history *)

Lemma slice_take {A} (l : list A) (n : nat) i j : 0 <= i -> j <= Z.of_nat n -> slice (take n l) i j = slice l i j.
Proof.
  intros Hi Hj. unfold slice. replace (j <=? zlen (take n l)) with (j <=? zlen l).
  - destruct ((0 <=? i) && (i <=? j) && (j <=? zlen l)) eqn:E; [|done]. f_equal. rewrite drop_take_drop || rewrite skipn_firstn_comm.
    rewrite take_take. f_equal. lia.
  - unfold zlen. rewrite length_take. destruct (Z.leb_spec j (Z.of_nat (length l))), (Z.leb_spec j (Z.of_nat (n `min` length l))); lia.
Qed.

Lemma lastPage_mono n n' items p : 0 < items -> 0 <= n -> 0 <= n' -> (p + 1) * items <= n -> (p + 1) * items <= n' -> 0 <= p ->
  Z.min p (lastPage n items) = Z.min p (lastPage n' items).
Proof.
  intros Hi Hn Hn' H1 H2 Hp. destruct (lastPage_spec n items) as (_ & _ & L1 & _); [lia..|]. destruct (lastPage_spec n' items) as (_ & _ & L2 & _); [lia..|].
  rewrite !Z.min_l; [done|nia..].
Qed.

(** The windows of a page do not change when only as many confirmed transactions are known as
    all pages up to this one can show. *)
Lemma truncated_paging (M n page items : Z) : 0 <= M -> 0 <= n -> M + n <= maxSafeInt -> 0 < items -> 0 <= page -> (page + 1) * items < 2 ^ 62 ->
  let N := (page + 1) * items in
  let '(_, mw, cw, p) := computeAccountPaging M (Z.min N n) page items in
  let '(_, mw', cw', p') := computeAccountPaging M n page items in
  mw = mw' /\ cw = cw' /\ p = p' /\ p = Z.min page (lastPage (M + n) items) /\ 0 <= mw.1 /\ 0 <= cw.1 /\ mw.2 <= N /\ cw.2 <= N.
Proof.
  intros HM Hn Hs Hi Hp HN N. assert (page + 1 <= (page + 1) * items /\ items <= (page + 1) * items) as [HN1 HN2] by nia. assert (Hpi : is_i64 page) by (unfold is_i64; lia). assert (0 < N) by (unfold N; nia).
  unfold computeAccountPaging. rewrite !computePaging_spec by (try done; lia || nia). rewrite !Z.max_l by done.
  assert (Hpp : Z.min page (lastPage (M + Z.min N n) items) = Z.min page (lastPage (M + n) items)).
  { destruct (Z.le_gt_cases n N); [by rewrite (Z.min_r N n) by lia|]. rewrite (Z.min_l N n) by lia. apply lastPage_mono; unfold N in *; lia. }
  rewrite Hpp. set (p := Z.min page _). destruct (lastPage_spec (M + n) items) as (L0 & L1 & _); [lia..|]. assert (0 <= p <= page) by lia.
  assert (p * items <= M + n) by nia. assert ((p + 1) * items <= N) by (unfold N; nia).
  assert (Hto : Z.min (M + Z.min N n) ((p + 1) * items) = Z.min (M + n) ((p + 1) * items)) by lia. rewrite Hto.
  unfold clampRange. cbn [fst snd]. split_and!; [done| |done|done|lia..]. f_equal; lia.
Qed.

Section HistoryCorrect.
Context {V : Vlq} {VL : VlqLaws V} {P : ChainParser} {K : KV} {KL : KVLaws K}.
Context (txVersion : bytes -> goerror + option Z) (mempoolTxVersion : bytes -> option Z) (isPending : bytes -> bool).

(** A request without a filter. *)
Definition unfiltered (f : AddressFilter) : Prop :=
  af_Vout f = AddressFilterVoutOff /\ af_FromHeight f = 0 /\ af_ToHeight f = 0 /\ af_AssetsMask f = AllMask.

(** No transaction is skipped. *)
Definition takesAll (f : AddressFilter) : Prop := af_Vout f = AddressFilterVoutOff /\ af_AssetsMask f = AllMask.

Lemma unfiltered_takesAll f : unfiltered f -> takesAll f.
Proof. by intros (? & _ & _ & ?). Qed.

Lemma collect_all mempool f max tx h ixs s : takesAll f ->
  collect txVersion mempool f max tx h ixs s = (s.1 ++ [tx], s.2, if max <=? zlen (s.1 ++ [tx]) then Some ErrStop else None).
Proof.
  intros [Hv Hm]. unfold collect, voutMatches, txMatchesAssetMask. rewrite Hv, Hm. by destruct mempool.
Qed.

Lemma collect_events f max evs acc n : takesAll f -> zlen acc < max ->
  exists b, runEvents (collect txVersion false f max) evs (acc, n) = ((acc ++ take (Z.to_nat (max - zlen acc)) (map (fun e => e.1.1) evs), n), Ok b).
Proof.
  intros Hf. revert acc. induction evs as [|[[tx h] ixs] evs IH]; intros acc Ha; cbn [runEvents map].
  - exists false. by rewrite take_nil, app_nil_r.
  - unfold callback. rewrite collect_all by done. cbn [fst snd]. replace (Z.to_nat (max - zlen acc)) with (S (Z.to_nat (max - zlen acc - 1))) by lia. cbn [take].
    rewrite zlen_app. change (zlen [tx]) with 1. destruct (Z.leb_spec max (zlen acc + 1)) as [Hle|Hgt].
    + cbn [andThen]. exists true. replace (Z.to_nat (max - zlen acc - 1)) with 0%nat by lia. done.
    + cbn [andThen]. destruct (IH (acc ++ [tx])) as [b Hb]; [rewrite zlen_app; change (zlen [tx]) with 1; lia|]. exists b. rewrite Hb. rewrite <- app_assoc, zlen_app. change (zlen [tx]) with 1.
      cbn [app]. do 4 f_equal. f_equal. lia.
Qed.

Lemma collectMempool_unfiltered f o seen acc n : takesAll f -> zlen acc + zlen o < maxInt ->
  collectMempool txVersion mempoolTxVersion f maxInt o seen (acc, n) = Ok (acc ++ uniqueFrom seen (map out_Txid o)).
Proof.
  intros Hf. revert seen acc. induction o as [|m o IH]; intros seen acc Hl; cbn [collectMempool map uniqueFrom]; [by rewrite app_nil_r|].
  rewrite zlen_cons in Hl. case_bool_decide as Hin; [apply IH; lia|]. rewrite (proj2 Hf). change (AllMask =? AllMask) with true. cbv iota.
  rewrite collect_all by done. cbn [fst snd]. rewrite !zlen_app. change (zlen [out_Txid m]) with 1. pose proof (zlen_nonneg o).
  rewrite (proj2 (Z.leb_gt _ _)), (proj2 (Z.ltb_lt _ _)) by lia. rewrite IH by (rewrite zlen_app; change (zlen [out_Txid m]) with 1; lia). by rewrite <- app_assoc.
Qed.

Lemma retainPending_spec f page items txm : unfiltered f -> 0 <= page -> 0 < items -> (page + 1) * items < 2 ^ 62 ->
  let pending := List.filter isPending txm in
  retainPending isPending f page items txm = (take (Z.to_nat ((page + 1) * items)) pending, zlen pending).
Proof.
  intros (Hv & _) Hp Hi Hb. cbn zeta. unfold retainPending. rewrite Hv. change (AddressFilterVoutOff =? AddressFilterVoutQueryNotNecessary) with false. cbn [orb].
  assert (page + 1 <= (page + 1) * items) by nia. rewrite (i64_id (page + 1)), i64_id by (unfold is_i64; lia). set (N := (page + 1) * items). assert (0 < N) by (unfold N; nia).
  induction txm as [|t txm IH] using rev_ind; [cbn [List.filter foldl]; by rewrite take_nil|]. rewrite foldl_snoc, IH, List.filter_app. cbn [List.filter]. destruct (isPending t).
  - rewrite zlen_app. f_equal. unfold zlen at 1. rewrite length_take. destruct (Z.ltb_spec (Z.of_nat (Z.to_nat N `min` length (List.filter isPending txm))) N).
    + rewrite !take_ge; [done|rewrite length_app; cbn; lia|lia].
    + rewrite take_app_le by lia. done.
  - by rewrite app_nil_r.
Qed.

(** The pending transactions of an address, the newest first, each once. *)
Definition pendingTxids (f : AddressFilter) (m : BaseMempool) (a : bytes) : list bytes :=
  if af_OnlyConfirmed f then []
  else List.filter isPending (GetUniqueTxids (map out_Txid (BaseMempool.GetAddrDescTransactions m a))).

(** The confirmed transactions of an address in a range of heights: the scan is stopped as soon as
    there are enough of them. *)
Lemma getAddressTxids_confirmed (d : DB K) m a f (txs : Z -> list txIndexes) :
  let to := if af_ToHeight f =? 0 then maxUint32 else af_ToHeight f in
  takesAll f -> a <> [] -> is_u32 (af_FromHeight f) -> is_u32 to -> 0 <= PackedTxidLen -> history_rows d a txs ->
  zlen (List.filter (foreign a) (rangeRows d a (af_FromHeight f) to)) <= maxAddrDescScanNonMatching ->
  exists hs, StronglySorted Z.gt hs /\
    (forall h, h ∈ hs <-> is_u32 h /\ af_FromHeight f <= h <= to /\ is_Some (kv_get (db_cf d cfAddresses) (packAddressKey a h))) /\
    forall max, 0 < max -> getAddressTxids txVersion mempoolTxVersion d m a false f max = Ok (take (Z.to_nat max) (map (fun e => e.1.1) (historyOf txs hs))).
Proof.
  intros to Hf Ha Hfrom Hto HP Hrows Hn. destruct (history_exists d a (af_FromHeight f) to txs Ha Hfrom Hto Hrows) as (hs & H1 & H2 & H3 & H4).
  exists hs. split; [done|]. split; [done|]. intros max Hm. unfold getAddressTxids, Scan.GetAddrDescTransactions. fold to. rewrite seek_range by apply kv_list_sorted.
  rewrite (scanRows_history _ a txs _ _ hs Ha HP H4 H3 (rangeRows_stop d a (af_FromHeight f) to)) by done.
  destruct (collect_events f max (historyOf txs hs) [] 0) as [b ->]; [done|done|]. cbn. by rewrite Z.sub_0_r.
Qed.

(** C12: the page of the history of an address, computed from as many transactions as the page
    needs, is the window of the whole sequence of its pending transactions and then its confirmed
    ones, newest first; a page beyond the end is the last page; the number of pages is that of the
    whole sequence. Nothing is sliced out of range. The rows of the history and the best block are
    readable. *)
Theorem address_page (d : DB K) (m : BaseMempool) (a : bytes) (txs : Z -> list txIndexes) ba page items f :
  unfiltered f -> a <> [] -> 0 <= PackedTxidLen -> history_rows d a txs -> (exists best, GetBestBlock d = Ok best) ->
  zlen (List.filter (foreign a) (rangeRows d a 0 maxUint32)) <= maxAddrDescScanNonMatching ->
  zlen (BaseMempool.GetAddrDescTransactions m a) < maxInt ->
  0 <= page -> 0 < items -> (page + 1) * items < 2 ^ 62 ->
  exists hs, StronglySorted Z.gt hs /\
    (forall h, h ∈ hs <-> is_u32 h /\ 0 <= h <= maxUint32 /\ is_Some (kv_get (db_cf d cfAddresses) (packAddressKey a h))) /\
    let confirmed := map (fun e => e.1.1) (historyOf txs hs) in
    let all := pendingTxids f m a ++ confirmed in
    zlen all <= maxSafeInt -> match ba with Some b => ab_Txs b = zlen confirmed | None => confirmed = [] end ->
    addressTxidHistory txVersion mempoolTxVersion isPending d m a ba page items f
    = Ok (mkPaging (Z.min (Z.max (page - 1) 0) (lastPage (zlen all) items) + 1) (lastPage (zlen all) items + 1) items,
          windowOf all items (page - 1)).
Proof.
  intros Hf Ha HP Hrows [best Hbest] Hfor Hml Hp Hi Hb.
  set (q := if page - 1 <? 0 then 0 else page - 1). assert (Hq : q = Z.max (page - 1) 0) by (unfold q; destruct (Z.ltb_spec (page - 1) 0); lia).
  assert (Hqb : (q + 1) * items < 2 ^ 62) by nia. set (N := (q + 1) * items) in *. assert (HN : q + 1 <= N /\ items <= N) by (unfold N; nia).
  destruct Hf as (Hv & Hfr & Hth & Hmk). pose proof (conj Hv Hmk : takesAll f) as Hall.
  destruct (getAddressTxids_confirmed d m a f txs Hall Ha) as (hs & H1 & H2 & H3); [by rewrite ?Hfr, ?Hth..|]. rewrite Hfr, Hth in H2.
  exists hs. split; [done|]. split; [done|]. pose proof (conj Hv (conj Hfr (conj Hth Hmk)) : unfiltered f) as Hf.
  cbn zeta. set (confirmed := map (fun e => e.1.1) (historyOf txs hs)). set (pend := pendingTxids f m a). intros Hsz Hba.
  pose proof (H3 N ltac:(lia)) as Hc. fold confirmed in Hc.
  unfold addressTxidHistory. fold q. rewrite (i64_id (q + 1)), i64_id by (unfold is_i64; lia). fold N.
  assert (Hmp : (if (af_ToHeight f =? 0) && negb (af_OnlyConfirmed f)
     then let! txm := getAddressTxids txVersion mempoolTxVersion d m a true f maxInt in Ok (retainPending isPending f q items txm) else Ok ([], 0))
     = Ok (take (Z.to_nat N) pend, zlen pend)).
  { rewrite (proj1 (proj2 (proj2 Hf))). unfold pend, pendingTxids. destruct (af_OnlyConfirmed f); cbn [Z.eqb andb negb]; [by rewrite take_nil|].
    unfold getAddressTxids. rewrite collectMempool_unfiltered by (done || (rewrite zlen_nil; lia)). cbn [rbind app]. rewrite retainPending_spec by (done || lia). done. }
  rewrite Hmp. cbn [rbind]. rewrite (proj1 Hf). change (negb (AddressFilterVoutOff =? AddressFilterVoutQueryNotNecessary)) with true. cbv iota. rewrite Hc, Hbest. cbn [rbind].
  rewrite zlen_app in Hsz. pose proof (zlen_nonneg pend). pose proof (zlen_nonneg confirmed).
  assert (Htl : zlen (take (Z.to_nat N) confirmed) = Z.min N (zlen confirmed)) by (unfold zlen; rewrite length_take; lia). rewrite Htl.
  pose proof (truncated_paging (zlen pend) (zlen confirmed) q items ltac:(lia) ltac:(lia) Hsz Hi ltac:(lia) Hqb) as Ht. cbn zeta in Ht. fold N in Ht.
  assert (Hqi : is_i64 q) by (unfold is_i64; lia). assert (Hit : 0 < items < 2 ^ 62) by lia.
  pose proof (account_page_window pend confirmed q items ltac:(rewrite zlen_app; lia) Hit Hqi) as Hw.
  assert (Hpg : (computeAccountPaging (zlen pend) (Z.min N (zlen confirmed)) q items).1.1.1 =
    mkPaging (Z.min q (lastPage (zlen pend + Z.min N (zlen confirmed)) items) + 1) (lastPage (zlen pend + Z.min N (zlen confirmed)) items + 1) items).
  { unfold computeAccountPaging. rewrite computePaging_spec by (done || lia). by rewrite Z.max_l by lia. }
  destruct (computeAccountPaging (zlen pend) (Z.min N (zlen confirmed)) q items) as [[[pg mw] cw] p]. cbn [fst] in Hpg.
  destruct (computeAccountPaging (zlen pend) (zlen confirmed) q items) as [[[pg' mw'] cw'] p'].
  destruct Ht as (<- & <- & <- & Hpe & M0 & C0 & M2 & C2). destruct Hw as (w1 & w2 & S1 & S2 & Hw & _).
  rewrite !slice_take by lia. rewrite S1, S2. cbn [rbind]. rewrite Hw, zlen_app. set (n := zlen pend + zlen confirmed) in *.
  destruct (lastPage_spec n items) as (L0 & L1 & _); [lia..|].
  assert (Hwin : windowOf (pend ++ confirmed) items q = windowOf (pend ++ confirmed) items (page - 1)).
  { unfold windowOf. rewrite zlen_app. fold n. rewrite !computePaging_spec by (done || lia || (unfold is_i64; lia)). by rewrite <- Hq, Z.max_l by lia. }
  rewrite Hwin, <- Hq. f_equal. f_equal. destruct (Z.leb_spec items (Z.min N (zlen confirmed))) as [Hge|Hlt].
  - destruct ba as [b|]; [|rewrite Hba in Hge; change (zlen []) with 0 in Hge; lia]. unfold totalResultsOf. destruct Hf as (-> & -> & -> & ->).
    cbn [Z.eqb Pos.eqb andb AllMask AddressFilterVoutOff]. rewrite Hba, (proj2 (Z.ltb_ge _ 0)) by lia. rewrite Z.add_comm. fold n.
    rewrite computePaging_spec by (done || lia || (unfold is_i64; lia)). cbn [fst]. f_equal. lia.
  - rewrite Hpg. assert (Z.min N (zlen confirmed) = zlen confirmed) as -> by lia. done.
Qed.
End HistoryCorrect.

(** ** An instance *)

Module HistoryExample.
Import Scan.ScanExample.
#[local] Existing Instance RefVlq.vlq.
#[local] Existing Instance RefVlq.vlq_laws.
#[local] Existing Instance MapKV.map_kv.
#[local] Existing Instance MapKV.map_kv_laws.

Definition off : AddressFilter := mkFilter AddressFilterVoutOff 0 0 AllMask false.

Definition pendingTx : bytes := [xf0; x0d].

(** A pending transaction with two outputs of the address, and three confirmed ones. *)
Definition pool : BaseMempool := mkMempool ∅ {[addr := [mkOut pendingTx 0; mkOut pendingTx 1]]}.

Definition balance : AddrBalance := mkAddrBalance 3 0 0 [] ∅ ∅.

Definition pageOf (page : Z) : result (Paging * list bytes) :=
  addressTxidHistory (P := parser) (fun _ => inr None) (fun _ => None) (fun _ => true) (dbOf column) pool addr (Some balance) page 3 off.

Example pages_evaluated : exists a b c,
  pageOf 1 = Ok (mkPaging 1 2 3, [pendingTx; a; b]) /\ pageOf 2 = Ok (mkPaging 2 2 3, [c]) /\ pageOf 9 = pageOf 2.
Proof. eexists _, _, _. vm_compute. done. Qed.

Lemma address_page_witness : history_rows (P := parser) (dbOf column) addr txsAt /\
  exists hs, StronglySorted Z.gt hs /\
    let all := pendingTxids (fun _ => true) off pool addr ++ map (fun e => e.1.1) (historyOf (P := parser) txsAt hs) in
    (zlen all <= maxSafeInt -> ab_Txs balance = zlen (map (fun e => e.1.1) (historyOf (P := parser) txsAt hs)) ->
     pageOf 2 = Ok (mkPaging (Z.min (Z.max (2 - 1) 0) (lastPage (zlen all) 3) + 1) (lastPage (zlen all) 3 + 1) 3, windowOf all 3 (2 - 1))).
Proof.
  split; [apply column_rows|].
  destruct (address_page (P := parser) (fun _ => inr None) (fun _ => None) (fun _ => true) (dbOf column) pool addr txsAt (Some balance) 2 3 off)
    as (hs & Hs & _ & Hp); [by repeat split|discriminate|by vm_compute|apply column_rows|eexists; vm_compute; reflexivity|vm_compute; discriminate|vm_compute; reflexivity|done..|].
  exists hs. split; [exact Hs|exact Hp].
Defined.
End HistoryExample.
