(* ===== verification/Xpub.v ===== *)
(** Accounts of extended public keys ([api/xpub.go]): the addresses of an account are derived one after
    the other until a gap of unused ones is found, and what is known of an account is cached.

    The derivation of addresses from a key is the class [XpubDeriver].

    - [xpub_scan]: the scan ends, derives no more addresses than the limit allows, and finds every used
      address before the first gap; the totals of the account are the sums over its addresses;
    - [xpub_cache_caps]: the bytes charged to the cache are those of its entries, and trimming keeps the
      most recently used entries within both caps. *)

From S2P Require Import Prelude Codec Parser TxAddr Balance IndexCodec Store.

Local Open Scope Z_scope.

(** ** Data *)

Record xpubTxid := mkXpubTxid { xt_txid : bytes; xt_height : Z; xt_inputOutput : Z }.

Record xpubAddress := mkXpubAddress {
  xa_addrDesc : bytes;
  xa_balance : option AddrBalance;
  xa_txs : Z;
  xa_maxHeight : Z;
  xa_complete : bool;
  xa_txids : list xpubTxid;
}.

(** The totals of an account that the scan computes. *)
Record xpubTotals := mkTotals { xd_txCountEstimate : Z; xd_sentSat : Z; xd_balanceSat : Z }.

(** [DeriveAddressDescriptorsFromTo] of the parser for the scanned key: the descriptors of the
    indexes from-to on the branch [change]. *)
Class XpubDeriver := { DeriveAddressDescriptorsFromTo : Z -> Z -> Z -> result (list bytes) }.

(** What its documentation says: one descriptor for every index, which depends on the index
    only. *)
Class XpubDeriverLaws (X : XpubDeriver) (derived_at : Z -> Z -> bytes) : Prop := {
  derive_spec change from to l : DeriveAddressDescriptorsFromTo change from to = Ok l ->
    l = map (derived_at change) (seqZ from (to - from));
  derive_no_panic change from to : DeriveAddressDescriptorsFromTo change from to <> Panic;
}.

Definition errXpubScan : goerror := ErrMsg "Xpub descriptor scan size exceeds limit".
Definition MaxXpubChangeIndexes : Z := 10.

(** ** The configuration *)

Record XpubConfig := mkXpubConfig {
  MaxCacheExpirationSeconds : Z;
  MaxCacheEntries : Z;
  MaxCacheBytes : Z;
  DefaultAddressesGap : Z;
  MaxAddressesGap : Z;
  MaxAddressDerivations : Z;
}.

Definition finalizeXpubConfig (cfg : XpubConfig) : XpubConfig :=
  mkXpubConfig (MaxCacheExpirationSeconds cfg) (MaxCacheEntries cfg) (MaxCacheBytes cfg)
    (if MaxAddressesGap cfg <? DefaultAddressesGap cfg then MaxAddressesGap cfg else DefaultAddressesGap cfg)
    (MaxAddressesGap cfg) ((MaxAddressesGap cfg + 1) * 2).

Definition DefaultXpubConfig : XpubConfig := finalizeXpubConfig (mkXpubConfig 3600 5000 (2 ^ 30) 20 10000 0).

(** [o] is the override: expiration, entries, bytes, default gap and largest gap. *)
Definition ApplyXpubConfig (o : option (Z * Z * Z * Z * Z)) : XpubConfig :=
  match o with
  | None => DefaultXpubConfig
  | Some (expiration, entries, bytes, gap, maxGap) =>
      let apply v default := if v <=? 0 then default else v in
      finalizeXpubConfig (mkXpubConfig (apply expiration (MaxCacheExpirationSeconds DefaultXpubConfig))
        (apply entries (MaxCacheEntries DefaultXpubConfig)) (apply bytes (MaxCacheBytes DefaultXpubConfig))
        (apply gap (DefaultAddressesGap DefaultXpubConfig)) (apply maxGap (MaxAddressesGap DefaultXpubConfig))
        (MaxAddressDerivations DefaultXpubConfig))
  end.

(** The gap of a request: one more than the wanted number of unused addresses. *)
Definition requestGap (cfg : XpubConfig) (gap : Z) : Z :=
  (if gap <=? 0 then DefaultAddressesGap cfg else if MaxAddressesGap cfg <? gap then MaxAddressesGap cfg else gap) + 1.

Definition validateXpubScanLimits (changeIndexes : list Z) (gap maxDerivations : Z) : result unit :=
  if MaxXpubChangeIndexes <? zlen changeIndexes then Err (ErrMsg "Xpub descriptor change index count exceeds limit")
  else if maxDerivations <? zlen changeIndexes * gap then Err errXpubScan
  else Ok tt.

Section Xpub.
Context {V : Vlq} {P : ChainParser} {K : KV} {X : XpubDeriver}.

(** ** The scan *)

Definition xpubDerivedAddressBalance (d : DB K) (data : xpubTotals) (ad : xpubAddress) : result (bool * xpubTotals * xpubAddress) :=
  let! balance := GetAddrDescBalance d (xa_addrDesc ad) AddressBalanceDetailUTXO in
  let ad := mkXpubAddress (xa_addrDesc ad) balance (xa_txs ad) (xa_maxHeight ad) (xa_complete ad) (xa_txids ad) in
  match balance with
  | Some b => Ok (true, mkTotals (u32 (xd_txCountEstimate data + ab_Txs b)) (xd_sentSat data + ab_SentSat b) (xd_balanceSat data + ab_BalanceSat b), ad)
  | None => Ok (false, data, ad)
  end.

(** [ad] without what was cached, when the chain has forked. *)
Definition resetAddress (fork : bool) (ad : xpubAddress) : xpubAddress :=
  if fork then mkXpubAddress (xa_addrDesc ad) (xa_balance ad) 0 0 false [] else ad.

(** A loop over addresses from index [i]: the new totals and addresses, and the last used index. *)
Fixpoint scanBalances (d : DB K) (fork : bool) (i : Z) (ads : list xpubAddress) (data : xpubTotals) (lastUsed : Z)
    : result (xpubTotals * list xpubAddress * Z) :=
  match ads with
  | [] => Ok (data, [], lastUsed)
  | ad :: ads =>
      let! '(used, data, ad) := xpubDerivedAddressBalance d data (resetAddress fork ad) in
      let! '(data, ads, lastUsed) := scanBalances d fork (i + 1) ads data (if (used : bool) then i else lastUsed) in
      Ok (data, ad :: ads, lastUsed)
  end.

Definition newAddress (a : bytes) : xpubAddress := mkXpubAddress a None 0 0 false [].

(** The loop that derives new addresses. *)
Fixpoint deriveLoop (fuel : nat) (d : DB K) (gap change minDerivedIndex derivedBefore maxDerivations : Z)
    (data : xpubTotals) (addresses : list xpubAddress) (lastUsed : Z) : result (xpubTotals * list xpubAddress * Z) :=
  match fuel with
  | O => Panic
  | S fuel =>
      let missing := zlen addresses - lastUsed in
      if missing <? gap then
        let from := zlen addresses in
        let to := from + gap - missing in
        let to := if to <? minDerivedIndex then minDerivedIndex else to in
        if maxDerivations <? derivedBefore + to then Err errXpubScan
        else
          let! descriptors := DeriveAddressDescriptorsFromTo change (u32 from) (u32 to) in
          let! '(data, ads, lastUsed) := scanBalances d false from (map newAddress descriptors) data lastUsed in
          deriveLoop fuel d gap change minDerivedIndex derivedBefore maxDerivations data (addresses ++ ads) lastUsed
      else Ok (data, addresses, lastUsed)
  end.

(** Every round derives at least one address and there are at most [maxDerivations]. *)
Definition xpubScanAddresses (d : DB K) (data : xpubTotals) (addresses : list xpubAddress) (gap change minDerivedIndex : Z) (fork : bool)
    (derivedBefore maxDerivations : Z) : result (xpubTotals * list xpubAddress * Z) :=
  if maxDerivations <? derivedBefore + zlen addresses then Err errXpubScan
  else
    let! '(data, addresses, lastUsed) := scanBalances d fork 0 addresses data 0 in
    deriveLoop (S (Z.to_nat maxDerivations)) d gap change minDerivedIndex derivedBefore maxDerivations data addresses lastUsed.

(** The loop of [getXpubData] over the branches. *)
Fixpoint scanBranches (d : DB K) (gap : Z) (fork : bool) (maxDerivations : Z) (branches : list (Z * list xpubAddress))
    (minDerivedIndex totalDerived : Z) (data : xpubTotals) : result (xpubTotals * list (list xpubAddress)) :=
  match branches with
  | [] => Ok (data, [])
  | (change, addresses) :: branches =>
      let! '(data, addresses, lastUsed) := xpubScanAddresses d data addresses gap change minDerivedIndex fork totalDerived maxDerivations in
      let! '(data, rest) := scanBranches d gap fork maxDerivations branches lastUsed (totalDerived + zlen addresses) data in
      Ok (data, addresses :: rest)
  end.
End Xpub.

(** ** The cache *)

(** What the cache needs of an entry: when it was last used, and the bytes charged for it. *)
Record cachedXpub := mkCachedXpub { cx_accessed : Z; cx_bytes : Z }.

Record xpubCache := mkXpubCache { cachedXpubs : gmap bytes cachedXpub; cachedXpubsBytes : Z }.

Definition xpubCacheEntryOverheadBytes : Z := 256.
Definition xpubCacheAddressBytes : Z := 96.
Definition xpubCacheBalanceBytes : Z := 144.
Definition xpubCacheUtxoBytes : Z := 112.
Definition xpubCacheTxidBytes : Z := 96.
Definition xpubCacheMergedTxidBytes : Z := 24.

Definition addressBytes (ad : xpubAddress) : Z :=
  zlen (xa_txids ad) * xpubCacheTxidBytes
  + match xa_balance ad with Some b => xpubCacheBalanceBytes + zlen (ab_Utxos b) * xpubCacheUtxoBytes | None => 0 end.

Definition xpubDataEstimatedBytes (addresses : list (list xpubAddress)) (mergedTxids : list xpubTxid) (keyLen : Z) : Z :=
  xpubCacheEntryOverheadBytes + keyLen + zlen mergedTxids * xpubCacheMergedTxidBytes
  + sumZ (fun da => zlen da * xpubCacheAddressBytes + sumZ addressBytes da) addresses.

Definition deleteCachedXpubLocked (key : bytes) (c : xpubCache) : xpubCache :=
  match cachedXpubs c !! key with
  | Some data => mkXpubCache (delete key (cachedXpubs c)) (cachedXpubsBytes c - cx_bytes data)
  | None => c
  end.

Definition putCachedXpubLocked (key : bytes) (accessed : Z) (addresses : list (list xpubAddress)) (mergedTxids : list xpubTxid) (c : xpubCache) : xpubCache :=
  let c := deleteCachedXpubLocked key c in
  let bytes := xpubDataEstimatedBytes addresses mergedTxids (zlen key) in
  mkXpubCache (<[key := mkCachedXpub accessed bytes]> (cachedXpubs c)) (cachedXpubsBytes c + bytes).

(** [a] is evicted before [b]. *)
Definition olderThan (a b : bytes * cachedXpub) : bool :=
  (cx_accessed a.2 <? cx_accessed b.2) || ((cx_accessed a.2 =? cx_accessed b.2) && match bytes_compare a.1 b.1 with Lt => true | _ => false end).

Definition over (maxEntries maxBytes : Z) (c : xpubCache) : bool :=
  (maxEntries <? Z.of_nat (size (cachedXpubs c))) || ((0 <? Z.of_nat (size (cachedXpubs c))) && (maxBytes <? cachedXpubsBytes c)).

(** The linear scan for the oldest entry, in the order the map is walked. *)
Definition oldestOf (order : list (bytes * cachedXpub)) : option (bytes * cachedXpub) :=
  foldl (fun oldest e => match oldest with Some o => if olderThan e o then Some e else Some o | None => Some e end) None order.

(** [sort.Slice]: the order is total, so the sorted list is unique. *)
Definition notYounger (a b : bytes * cachedXpub) : Prop := olderThan b a = false.

#[export] Instance notYounger_dec : RelDecision notYounger.
Proof. intros a b. unfold notYounger. apply _. Defined.

Fixpoint evictWhileOver (maxEntries maxBytes : Z) (lru : list (bytes * cachedXpub)) (c : xpubCache) (count : Z) : xpubCache * Z :=
  match lru with
  | [] => (c, count)
  | e :: lru =>
      if over maxEntries maxBytes c then evictWhileOver maxEntries maxBytes lru (deleteCachedXpubLocked e.1 c) (count + 1)
      else (c, count)
  end.

(** [walk] is the order in which Go walks over the map. *)
Definition trimXpubCacheItemsLocked (walk : gmap bytes cachedXpub -> list (bytes * cachedXpub)) (maxEntries maxBytes : Z) (c : xpubCache) : xpubCache * Z :=
  if negb (over maxEntries maxBytes c) then (c, 0)
  else
    let c := match oldestOf (walk (cachedXpubs c)) with Some oldest => deleteCachedXpubLocked oldest.1 c | None => deleteCachedXpubLocked [] c end in
    if negb (over maxEntries maxBytes c) then (c, 1)
    else evictWhileOver maxEntries maxBytes (merge_sort notYounger (walk (cachedXpubs c))) c 1.

Definition evictXpubCacheItemsLocked (walk : gmap bytes cachedXpub -> list (bytes * cachedXpub)) (now expirationSeconds maxEntries maxBytes : Z) (c : xpubCache)
    : xpubCache * Z :=
  let threshold := now - expirationSeconds in
  let '(c, count) := foldl (fun '(c, count) e => if cx_accessed e.2 <? threshold then (deleteCachedXpubLocked e.1 c, count + 1) else (c, count))
                       (c, 0) (walk (cachedXpubs c)) in
  let '(c, trimmed) := trimXpubCacheItemsLocked walk maxEntries maxBytes c in
  (c, count + trimmed).

(** ** The scan is complete *)

Section ScanCorrect.
Context {V : Vlq} {P : ChainParser} {K : KV} {X : XpubDeriver} {derived_at : Z -> Z -> bytes} {XL : XpubDeriverLaws X derived_at}.
Context (d : DB K) (bal : bytes -> option AddrBalance).
(* every row of a balance can be read *)
Context (Hbal : forall a, GetAddrDescBalance d a AddressBalanceDetailUTXO = Ok (bal a)).

Definition usedAt (change i : Z) : Prop := is_Some (bal (derived_at change i)).

Definition withBalance (ad : xpubAddress) : xpubAddress :=
  mkXpubAddress (xa_addrDesc ad) (bal (xa_addrDesc ad)) (xa_txs ad) (xa_maxHeight ad) (xa_complete ad) (xa_txids ad).

Definition addBalance (data : xpubTotals) (b : AddrBalance) : xpubTotals :=
  mkTotals (u32 (xd_txCountEstimate data + ab_Txs b)) (xd_sentSat data + ab_SentSat b) (xd_balanceSat data + ab_BalanceSat b).

(** The last used of the descriptors at the indexes from [i]. *)
Fixpoint lastUsedFrom (i : Z) (descs : list bytes) (lastUsed : Z) : Z :=
  match descs with
  | [] => lastUsed
  | a :: descs => lastUsedFrom (i + 1) descs (if bal a then i else lastUsed)
  end.

Lemma scanBalances_ok fork i ads data lastUsed :
  scanBalances d fork i ads data lastUsed =
  Ok (foldl addBalance data (omap (fun ad => bal (xa_addrDesc ad)) ads), map (fun ad => withBalance (resetAddress fork ad)) ads,
      lastUsedFrom i (map xa_addrDesc ads) lastUsed).
Proof.
  revert i data lastUsed. induction ads as [|ad ads IH]; intros i data lastUsed; cbn [scanBalances map lastUsedFrom]; [done|].
  unfold xpubDerivedAddressBalance. assert (xa_addrDesc (resetAddress fork ad) = xa_addrDesc ad) as Hr by (by destruct fork). rewrite Hr, Hbal. cbn [rbind].
  cbn [omap list_omap]. destruct (bal (xa_addrDesc ad)) as [b|] eqn:Hb; cbn [rbind]; rewrite IH; cbn [rbind foldl]; unfold withBalance at 2; by rewrite Hr, Hb.
Qed.

Lemma lastUsedFrom_spec i descs lastUsed : let l := lastUsedFrom i descs lastUsed in
  (l = lastUsed \/ exists k a, l = i + Z.of_nat k /\ descs !! k = Some a /\ is_Some (bal a))
  /\ (forall k a, descs !! k = Some a -> l < i + Z.of_nat k -> bal a = None).
Proof.
  revert i lastUsed. induction descs as [|a descs IH]; intros i lastUsed; cbn [lastUsedFrom]; [split; [by left|done]|].
  destruct (IH (i + 1) (if bal a then i else lastUsed)) as [H1 H2]. split.
  - destruct H1 as [H1|(k & a' & -> & Ha & Hb)].
    + rewrite H1. destruct (bal a) as [b|] eqn:Hb; [|by left]. right. exists 0%nat, a. rewrite Hb. split_and!; [lia|done|by eexists].
    + right. exists (S k), a'. split_and!; [lia|done|done].
  - intros [|k] a' Ha Hl; cbn in Ha.
    + injection Ha as <-. destruct (bal a) as [b|] eqn:Hb; [|done]. exfalso. destruct H1 as [H1|(k & a' & H1 & _)]; lia.
    + apply (H2 k a' Ha). lia.
Qed.

(** What is known during the scan of a branch. *)
Record scanned (change : Z) (data0 data : xpubTotals) (addresses : list xpubAddress) (lastUsed : Z) : Prop := {
  sc_descs : map xa_addrDesc addresses = map (derived_at change) (seqZ 0 (zlen addresses));
  sc_balances : Forall (fun ad => xa_balance ad = bal (xa_addrDesc ad)) addresses;
  sc_data : data = foldl addBalance data0 (omap (fun ad => bal (xa_addrDesc ad)) addresses);
  sc_last : lastUsed = 0 \/ (0 <= lastUsed < zlen addresses /\ usedAt change lastUsed);
  sc_unused j : lastUsed < j < zlen addresses -> ~ usedAt change j;
}.

Lemma derived_lookup change n k a : map (derived_at change) (seqZ 0 n) !! k = Some a -> a = derived_at change (Z.of_nat k) /\ Z.of_nat k < n.
Proof.
  intros H. apply list_lookup_fmap_Some in H as (z & -> & Hz). apply lookup_seqZ in Hz as [-> Hk]. split; [f_equal; lia|done].
Qed.

Lemma scan_known change fork addresses data : map xa_addrDesc addresses = map (derived_at change) (seqZ 0 (zlen addresses)) ->
  exists data' addresses' lastUsed, scanBalances d fork 0 addresses data 0 = Ok (data', addresses', lastUsed)
    /\ scanned change data data' addresses' lastUsed /\ zlen addresses' = zlen addresses.
Proof.
  intros Hd. rewrite scanBalances_ok. eexists _, _, _. split; [done|].
  assert (Hz : zlen (map (fun ad => withBalance (resetAddress fork ad)) addresses) = zlen addresses) by (unfold zlen; by rewrite length_map).
  assert (He : map xa_addrDesc (map (fun ad => withBalance (resetAddress fork ad)) addresses) = map xa_addrDesc addresses).
  { rewrite map_map. apply map_ext. intros ad. by destruct fork. }
  split; [|done]. destruct (lastUsedFrom_spec 0 (map xa_addrDesc addresses) 0) as [H1 H2]. split.
  - by rewrite Hz, He.
  - apply Forall_map, Forall_forall. intros ad _. by destruct fork.
  - clear. revert data. induction addresses as [|ad ads IH]; intros data; [done|]. cbn [map omap list_omap].
    replace (xa_addrDesc (withBalance (resetAddress fork ad))) with (xa_addrDesc ad) by (by destruct fork). destruct (bal (xa_addrDesc ad)); cbn [foldl]; apply IH.
  - destruct H1 as [->|(k & a & -> & Ha & Hb)]; [by left|]. rewrite Hd in Ha. apply derived_lookup in Ha as [-> Hk]. right. rewrite Hz, Z.add_0_l. split; [lia|done].
  - intros j Hj [b Hb]. rewrite Hz in Hj. destruct (lookup_lt_is_Some_2 (map xa_addrDesc addresses) (Z.to_nat j)) as [a Ha]; [rewrite length_map; unfold zlen in Hj; destruct H1 as [H1|(k & a & H1 & _)]; lia|].
    pose proof Ha as Ha'. rewrite Hd in Ha'. apply derived_lookup in Ha' as [-> Hk]. rewrite Z2Nat.id in Ha by (destruct H1 as [H1|(k & a & H1 & _)]; lia).
    rewrite (H2 _ _ Ha) in Hb by (destruct H1 as [H1|(k & a & H1 & _)]; lia). done.
Qed.

(** One round of the loop. *)
Lemma scan_more change data0 data addresses lastUsed descs to :
  scanned change data0 data addresses lastUsed -> zlen addresses <= to ->
  descs = map (derived_at change) (seqZ (zlen addresses) (to - zlen addresses)) ->
  exists data' ads lastUsed', scanBalances d false (zlen addresses) (map newAddress descs) data lastUsed = Ok (data', ads, lastUsed')
    /\ scanned change data0 data' (addresses ++ ads) lastUsed' /\ zlen (addresses ++ ads) = to.
Proof.
  intros [S1 S2 S3 S4 S5] Hto ->. set (n := zlen addresses) in *. assert (Hn : 0 <= n) by apply zlen_nonneg. set (new := map (derived_at change) (seqZ n (to - n))).
  rewrite scanBalances_ok. eexists _, _, _. split; [done|]. set (ads := map (fun ad => withBalance (resetAddress false ad)) (map newAddress new)).
  assert (Hdesc : map xa_addrDesc (map newAddress new) = new) by (rewrite map_map; apply map_id).
  assert (Hads : map xa_addrDesc ads = new) by (unfold ads; rewrite map_map; exact Hdesc).
  assert (Hzn : zlen new = to - n) by (unfold zlen, new; rewrite length_map, length_seqZ; lia).
  assert (Hz : zlen (addresses ++ ads) = to) by (rewrite zlen_app; fold n; unfold ads, zlen; rewrite !length_map; fold (zlen new); unfold zlen in *; lia).
  split; [|done]. rewrite Hdesc. destruct (lastUsedFrom_spec n new lastUsed) as [H1 H2].
  assert (Hlook : forall k a, new !! k = Some a -> a = derived_at change (n + Z.of_nat k) /\ n + Z.of_nat k < to).
  { intros k a Ha. unfold new in Ha. apply list_lookup_fmap_Some in Ha as (z & -> & Hzz). apply lookup_seqZ in Hzz as [-> Hk]. split; [f_equal; lia|lia]. }
  split.
  - rewrite map_app, Hads, S1, Hz. unfold new. rewrite <- map_app. f_equal. replace to with (n + (to - n)) at 2 by lia. rewrite seqZ_app by lia. by rewrite Z.add_0_l.
  - apply Forall_app. split; [done|]. unfold ads. apply Forall_map, Forall_forall. done.
  - rewrite omap_app, foldl_app, S3. f_equal. unfold ads. rewrite <- !list_omap_fmap || idtac. generalize new. intros l. induction l as [|a l IH]; [done|]. cbn. destruct (bal a); by rewrite ?IH.
  - rewrite Hz. destruct H1 as [->|(k & a & -> & Ha & Hb)]; [destruct S4 as [->|[S4 S4']]; [by left|right; split; [lia|done]]|].
    apply Hlook in Ha as [-> Hk]. right. split; [lia|done].
  - rewrite Hz. intros j Hj Hu. destruct (Z.lt_ge_cases j n) as [Hjn|Hjn].
    + apply (S5 j); [|done]. destruct H1 as [H1|(k & a & H1 & _)]; [lia|]. lia.
    + destruct (lookup_lt_is_Some_2 new (Z.to_nat (j - n))) as [a Ha]; [unfold zlen in Hzn; lia|]. pose proof (Hlook _ _ Ha) as [-> _].
      replace (n + Z.of_nat (Z.to_nat (j - n))) with j in Ha by lia. destruct Hu as [b Hb]. rewrite (H2 _ _ Ha) in Hb by lia. done.
Qed.

(** The outcome of a scan: the addresses up to a gap; or a failed derivation; or no gap within the
    limit. *)
Definition scan_outcome (change gap minDerivedIndex derivedBefore maxDerivations known : Z) (data0 : xpubTotals) (r : result (xpubTotals * list xpubAddress * Z)) : Prop :=
  match r with
  | Ok (data, addresses, lastUsed) =>
      scanned change data0 data addresses lastUsed /\ gap <= zlen addresses - lastUsed /\ known <= zlen addresses /\ derivedBefore + zlen addresses <= maxDerivations
  | Err e =>
      (exists from to, DeriveAddressDescriptorsFromTo change from to = Err e)
      \/ (e = errXpubScan /\ exists l, (l = 0 \/ usedAt change l) /\ maxDerivations < derivedBefore + Z.max known (Z.max (l + gap) minDerivedIndex))
  | Panic => False
  end.

Lemma deriveLoop_ok fuel change gap minDerivedIndex derivedBefore maxDerivations known data0 data addresses lastUsed :
  0 <= derivedBefore -> maxDerivations < 2 ^ 32 -> known <= zlen addresses -> derivedBefore + zlen addresses <= maxDerivations ->
  maxDerivations - zlen addresses < Z.of_nat fuel ->
  scanned change data0 data addresses lastUsed ->
  scan_outcome change gap minDerivedIndex derivedBefore maxDerivations known data0
    (deriveLoop fuel d gap change minDerivedIndex derivedBefore maxDerivations data addresses lastUsed).
Proof.
  intros Hdb Hmax. revert data addresses lastUsed. induction fuel as [|fuel IH]; intros data addresses lastUsed Hk Hle Hf Hs; [pose proof (zlen_nonneg addresses); lia|].
  cbn [deriveLoop]. destruct (Z.ltb_spec (zlen addresses - lastUsed) gap) as [Hm|Hm]; [|split_and!; done || lia].
  replace (zlen addresses + gap - (zlen addresses - lastUsed)) with (lastUsed + gap) by lia.
  set (to := if lastUsed + gap <? minDerivedIndex then minDerivedIndex else lastUsed + gap).
  assert (Hto : to = Z.max (lastUsed + gap) minDerivedIndex) by (unfold to; destruct (Z.ltb_spec (lastUsed + gap) minDerivedIndex); lia). clearbody to.
  destruct (Z.ltb_spec maxDerivations (derivedBefore + to)) as [Hlim|Hlim].
  - right. split; [done|]. exists lastUsed. split; [destruct (sc_last _ _ _ _ _ Hs) as [->|[_ ?]]; [by left|by right]|]. lia.
  - pose proof (zlen_nonneg addresses). rewrite !u32_id by (unfold is_u32; lia).
    destruct (DeriveAddressDescriptorsFromTo change (zlen addresses) to) as [descs|e|] eqn:Hd; cbn [rbind].
    + apply derive_spec in Hd. destruct (scan_more change data0 data addresses lastUsed descs to Hs ltac:(lia) Hd) as (data' & ads & lu & -> & Hs' & Hz). cbn [rbind].
      apply IH; [lia..|done].
    + left. by exists (zlen addresses), to.
    + by apply derive_no_panic in Hd.
Qed.

(** C14: the scan of a branch of an account ends, whatever addresses are used, and never derives
    more than the limit. When it succeeds, its addresses are the derived ones from index 0 on
    with their balances, the last used index is followed by a gap of unused addresses, no address
    after it is used, and the totals of the account grow by the sums over the addresses. It fails
    only when the derivation fails or when the gap does not fit the limit. *)
Theorem xpub_scan change gap minDerivedIndex fork derivedBefore maxDerivations data addresses :
  0 <= derivedBefore -> 0 <= maxDerivations < 2 ^ 32 ->
  map xa_addrDesc addresses = map (derived_at change) (seqZ 0 (zlen addresses)) ->
  match xpubScanAddresses d data addresses gap change minDerivedIndex fork derivedBefore maxDerivations with
  | Ok (data', addresses', lastUsed) =>
      map xa_addrDesc addresses' = map (derived_at change) (seqZ 0 (zlen addresses'))
      /\ Forall (fun ad => xa_balance ad = bal (xa_addrDesc ad)) addresses'
      /\ zlen addresses <= zlen addresses' /\ derivedBefore + zlen addresses' <= maxDerivations
      /\ lastUsed + gap <= zlen addresses' /\ (lastUsed = 0 \/ usedAt change lastUsed)
      /\ (forall j, lastUsed < j < zlen addresses' -> ~ usedAt change j)
      /\ xd_balanceSat data' = xd_balanceSat data + sumZ ab_BalanceSat (omap xa_balance addresses')
      /\ xd_sentSat data' = xd_sentSat data + sumZ ab_SentSat (omap xa_balance addresses')
  | Err e =>
      (exists from to, DeriveAddressDescriptorsFromTo change from to = Err e)
      \/ (e = errXpubScan /\ exists l, (l = 0 \/ usedAt change l)
            /\ maxDerivations < derivedBefore + Z.max (zlen addresses) (Z.max (l + gap) minDerivedIndex))
  | Panic => False
  end.
Proof.
  intros Hdb Hmax Hd. unfold xpubScanAddresses. destruct (Z.ltb_spec maxDerivations (derivedBefore + zlen addresses)) as [Hlim|Hlim].
  { right. split; [done|]. exists 0. split; [by left|lia]. }
  destruct (scan_known change fork addresses data Hd) as (data1 & addresses1 & lu & -> & Hs & Hz). cbn [rbind].
  pose proof (deriveLoop_ok (S (Z.to_nat maxDerivations)) change gap minDerivedIndex derivedBefore maxDerivations (zlen addresses) data data1 addresses1 lu
    Hdb ltac:(lia) ltac:(lia) ltac:(lia) ltac:(pose proof (zlen_nonneg addresses1); lia) Hs) as Ho.
  destruct (deriveLoop _ _ _ _ _ _ _ _ _ _) as [[[data' addresses'] lastUsed]|e|]; cbn [scan_outcome] in Ho; [|done|done].
  destruct Ho as ([S1 S2 S3 S4 S5] & Hg & Hk & Hb).
  assert (Hom : omap (fun ad => bal (xa_addrDesc ad)) addresses' = omap xa_balance addresses').
  { clear -S2. induction S2 as [|ad ads Ha _ IH]; [done|]. cbn. rewrite Ha. by destruct (bal _); rewrite IH. }
  rewrite Hom in S3. split_and!; [done|done|lia|lia|lia|by destruct S4 as [?|[_ ?]]; [left|right]|done|..];
    rewrite S3; clear; generalize (omap xa_balance addresses'); intros l; revert data; induction l as [|b l IH]; intros data; cbn [foldl sumZ]; rewrite ?IH; cbn; lia.
Qed.
End ScanCorrect.

(** ** The cache keeps the most recently used accounts *)

Lemma olderThan_irrefl a : olderThan a a = false.
Proof. unfold olderThan. rewrite Z.ltb_irrefl, Z.eqb_refl, (proj2 (bytes_compare_eq a.1 a.1)) by done. done. Qed.

Lemma olderThan_spec a b : olderThan a b = true <-> cx_accessed a.2 < cx_accessed b.2 \/ (cx_accessed a.2 = cx_accessed b.2 /\ bytes_compare a.1 b.1 = Lt).
Proof.
  unfold olderThan. rewrite orb_true_iff, andb_true_iff, Z.ltb_lt, Z.eqb_eq. destruct (bytes_compare a.1 b.1); intuition discriminate.
Qed.

Lemma olderThan_trans a b c : olderThan a b = true -> olderThan b c = true -> olderThan a c = true.
Proof.
  rewrite !olderThan_spec. intros [H1|[H1 H1']] [H2|[H2 H2']]; [left; lia..|]. right. split; [lia|]. by eapply bytes_compare_trans.
Qed.

Lemma olderThan_asymm a b : olderThan a b = true -> olderThan b a = false.
Proof. intros H. destruct (olderThan b a) eqn:E; [|done]. pose proof (olderThan_trans _ _ _ H E) as Hi. by rewrite olderThan_irrefl in Hi. Qed.

Lemma olderThan_total a b : a.1 <> b.1 -> olderThan a b = true \/ olderThan b a = true.
Proof.
  intros Hk. rewrite !olderThan_spec. destruct (Z.lt_trichotomy (cx_accessed a.2) (cx_accessed b.2)) as [|[He|]]; [by left; left| |by right; left].
  rewrite (bytes_compare_antisym a.1 b.1). destruct (bytes_compare a.1 b.1) eqn:E; [by apply bytes_compare_eq in E|left; by right|right; right; by split].
Qed.

Definition strictlyOlder (a b : bytes * cachedXpub) : Prop := olderThan a b = true.

#[local] Instance strictlyOlder_antisym : AntiSymm (=) strictlyOlder.
Proof. intros a b H1 H2. apply olderThan_asymm in H1. unfold strictlyOlder in H2. congruence. Qed.

#[local] Instance notYounger_total : Total notYounger.
Proof. intros a b. unfold notYounger. destruct (olderThan b a) eqn:E; [right; by apply olderThan_asymm|by left]. Qed.

#[local] Instance notYounger_trans : Transitive notYounger.
Proof.
  intros a b c. unfold notYounger. intros H1 H2. destruct (olderThan c a) eqn:E; [|done].
  destruct (decide (b.1 = c.1)) as [Hk|Hk].
  - destruct (decide (cx_accessed b.2 = cx_accessed c.2)) as [Ha|Ha].
    + rewrite <- H1. symmetry. apply olderThan_spec. apply olderThan_spec in E. rewrite Hk, Ha. done.
    + exfalso. unfold olderThan in H2. apply orb_false_iff in H2 as [H2 _]. apply Z.ltb_ge in H2.
      assert (olderThan b a = true); [|congruence]. apply olderThan_spec. apply olderThan_spec in E as [E|[E _]]; left; lia.
  - destruct (olderThan_total b c Hk) as [H|H]; [|congruence]. rewrite (olderThan_trans _ _ _ H E) in H1. done.
Qed.

(** Entries of a map, in any order, sorted strictly. *)
Lemma lru_strict l : NoDup l.*1 -> StronglySorted strictlyOlder (merge_sort notYounger l).
Proof.
  intros Hnd. assert (Hs : StronglySorted notYounger (merge_sort notYounger l)) by (apply StronglySorted_merge_sort; apply _).
  assert (Hnd' : NoDup (merge_sort notYounger l).*1) by (by rewrite merge_sort_Permutation).
  revert Hs Hnd'. generalize (merge_sort notYounger l). intros s Hs. induction Hs as [|a s Hs IH Ha]; intros Hnd'; [constructor|].
  apply NoDup_cons in Hnd' as [Hn Hnd']. constructor; [by apply IH|]. rewrite Forall_forall in Ha |- *. intros b Hb. specialize (Ha b Hb).
  destruct (olderThan_total a b) as [|H]; [intros Hk; apply Hn; rewrite Hk; apply list_elem_of_fmap; by exists b|done|]. unfold notYounger in Ha. congruence.
Qed.

Lemma oldestOf_spec l : match oldestOf l with Some o => o ∈ l /\ forall e, e ∈ l -> olderThan e o = false | None => l = [] end.
Proof.
  unfold oldestOf. induction l as [|e l IH] using rev_ind; [done|]. rewrite foldl_snoc. destruct (foldl _ None l) as [o|].
  - destruct IH as [Ho Hl]. destruct (olderThan e o) eqn:E.
    + split; [apply elem_of_app; right; by left|]. intros e' [H|H%list_elem_of_singleton]%elem_of_app; [|subst; apply olderThan_irrefl].
      destruct (olderThan e' e) eqn:E'; [|done]. rewrite <- (Hl e' H). symmetry. by eapply olderThan_trans.
    + split; [apply elem_of_app; by left|]. intros e' [H|H%list_elem_of_singleton]%elem_of_app; [by apply Hl|by subst].
  - subst. split; [by left|]. intros e' H%list_elem_of_singleton. subst. apply olderThan_irrefl.
Qed.

(** The bytes charged are those of the entries. *)
Definition entriesBytes (m : gmap bytes cachedXpub) : Z := sumZ (fun e => cx_bytes e.2) (map_to_list m).
Definition cache_ok (c : xpubCache) : Prop := cachedXpubsBytes c = entriesBytes (cachedXpubs c).

Lemma deleteCached_ok key c : cache_ok c -> cache_ok (deleteCachedXpubLocked key c).
Proof.
  unfold cache_ok, deleteCachedXpubLocked, entriesBytes. intros Hc. destruct (cachedXpubs c !! key) as [e|] eqn:He; [|done]. cbn [cachedXpubs cachedXpubsBytes].
  rewrite Hc, <- (map_to_list_delete _ _ _ He). cbn [sumZ snd]. lia.
Qed.

Lemma deleteCached_lookup key c : cachedXpubs (deleteCachedXpubLocked key c) = delete key (cachedXpubs c).
Proof. unfold deleteCachedXpubLocked. destruct (cachedXpubs c !! key) eqn:He; [done|]. by rewrite delete_id. Qed.

Lemma putCached_ok key accessed addresses merged c : cache_ok c -> cache_ok (putCachedXpubLocked key accessed addresses merged c).
Proof.
  intros Hc%(deleteCached_ok key). unfold putCachedXpubLocked, cache_ok, entriesBytes in *. cbn [cachedXpubs cachedXpubsBytes].
  rewrite map_to_list_insert by (rewrite deleteCached_lookup; apply lookup_delete_eq). cbn [sumZ snd cx_bytes]. rewrite Hc. lia.
Qed.

(** Plain eviction of the oldest entries. *)
Definition evictOldest (maxEntries maxBytes : Z) (c : xpubCache) : xpubCache * Z :=
  evictWhileOver maxEntries maxBytes (merge_sort notYounger (map_to_list (cachedXpubs c))) c 0.

Lemma sorted_unique l1 l2 : NoDup l1.*1 -> l1 ≡ₚ l2 -> merge_sort notYounger l1 = merge_sort notYounger l2.
Proof.
  intros Hnd Hp. apply (StronglySorted_unique strictlyOlder); [by apply lru_strict|apply lru_strict; by rewrite <- Hp|].
  by rewrite !merge_sort_Permutation.
Qed.

Section Trim.
Context (walk : gmap bytes cachedXpub -> list (bytes * cachedXpub)) (Hwalk : forall m, walk m ≡ₚ map_to_list m).

(** The linear scan for one entry and the sort for more evict the same entries as plain
    eviction in the order of age. *)
Lemma trim_evicts maxEntries maxBytes c : 0 <= maxEntries ->
  trimXpubCacheItemsLocked walk maxEntries maxBytes c = evictOldest maxEntries maxBytes c.
Proof.
  intros Hme. unfold trimXpubCacheItemsLocked, evictOldest. set (m := cachedXpubs c).
  pose proof (lru_strict (map_to_list m) (NoDup_fst_map_to_list m)) as Hs. pose proof (merge_sort_Permutation notYounger (map_to_list m)) as Hp.
  destruct (over maxEntries maxBytes c) eqn:Ho; cbn [negb]; [|destruct (merge_sort _ _); cbn; by rewrite ?Ho].
  pose proof (oldestOf_spec (walk m)) as Hold. destruct (merge_sort notYounger (map_to_list m)) as [|e0 L] eqn:HL.
  - exfalso. assert (m = ∅) as Hm by (apply map_to_list_empty_iff; by apply Permutation_nil in Hp).
    unfold over in Ho. fold m in Ho. rewrite Hm, map_size_empty in Ho. cbn in Ho. rewrite orb_false_r, (proj2 (Z.ltb_ge _ _)) in Ho by lia. done.
  - apply StronglySorted_inv in Hs as [HsL Hall]. cbn [evictWhileOver]. rewrite Ho.
    assert (Hnd : NoDup (e0 :: L).*1) by (rewrite Hp; apply NoDup_fst_map_to_list).
    assert (oldestOf (walk m) = Some e0) as ->.
    { destruct (oldestOf (walk m)) as [o|]; [|pose proof (Hwalk m) as Hwm; rewrite Hold, <- Hp in Hwm; by apply Permutation_nil_cons in Hwm].
      destruct Hold as [Hin Hmin]. rewrite Hwalk, <- Hp in Hin. apply elem_of_cons in Hin as [->|Hin]; [done|]. exfalso. rewrite Forall_forall in Hall. specialize (Hall o Hin).
      unfold strictlyOlder in Hall. rewrite Hmin in Hall; [done|]. rewrite Hwalk, <- Hp. by left. }
    assert (Hrest : merge_sort notYounger (walk (cachedXpubs (deleteCachedXpubLocked e0.1 c))) = L).
    { rewrite deleteCached_lookup. fold m. assert (Hperm : walk (delete e0.1 m) ≡ₚ L).
      { rewrite Hwalk. assert (m !! e0.1 = Some e0.2) as Hl by (apply elem_of_map_to_list; rewrite <- Hp; destruct e0; by left).
        apply (Permutation_cons_inv (a := e0)). rewrite Hp, <- (map_to_list_delete _ _ _ Hl). by destruct e0. }
      apply NoDup_cons in Hnd as [_ Hnd]. apply (StronglySorted_unique strictlyOlder); [apply lru_strict; by rewrite Hperm|done|]. by rewrite merge_sort_Permutation. }
    rewrite Hrest. destruct (over maxEntries maxBytes (deleteCachedXpubLocked e0.1 c)) eqn:Ho2; cbn [negb]; [by rewrite Z.add_0_l|].
    destruct L as [|e1 L]; cbn [evictWhileOver]; [done|]. by rewrite Ho2.
Qed.

Lemma evict_spec maxEntries maxBytes L c count : cache_ok c -> 0 <= maxEntries -> L ≡ₚ map_to_list (cachedXpubs c) -> StronglySorted strictlyOlder L ->
  let r := evictWhileOver maxEntries maxBytes L c count in
  cache_ok r.1 /\ over maxEntries maxBytes r.1 = false
  /\ exists k, cachedXpubs r.1 = list_to_map (drop k L) /\ r.2 = count + Z.of_nat k /\ (k <= length L)%nat
     /\ (forall j, (j < k)%nat -> over maxEntries maxBytes (foldl (fun c e => deleteCachedXpubLocked e.1 c) c (take j L)) = true).
Proof.
  revert c count. induction L as [|e L IH]; intros c count Hc Hme Hp Hs; cbn [evictWhileOver].
  - apply Permutation_nil, map_to_list_empty_iff in Hp. split; [done|]. split.
    + cbn [fst]. unfold over. rewrite Hp, map_size_empty. cbn. rewrite orb_false_r. apply Z.ltb_ge. lia.
    + exists 0%nat. cbn. split_and!; [done|lia|lia|lia].
  - assert (Hnd : NoDup (e :: L).*1) by (rewrite Hp; apply NoDup_fst_map_to_list).
    destruct (over maxEntries maxBytes c) eqn:Ho.
    + apply StronglySorted_inv in Hs as [Hs _]. destruct (IH (deleteCachedXpubLocked e.1 c) (count + 1)) as (H1 & H2 & k & H3 & H4 & H5 & H6); [by apply deleteCached_ok|done| |done|].
      * rewrite deleteCached_lookup. assert (cachedXpubs c !! e.1 = Some e.2) as Hl by (apply elem_of_map_to_list; rewrite <- Hp; destruct e; by left).
        apply (Permutation_cons_inv (a := e)). rewrite Hp, <- (map_to_list_delete _ _ _ Hl). by destruct e.
      * split; [done|]. split; [done|]. exists (S k). cbn [drop length]. split_and!; [done|lia|lia|]. intros [|j] Hj; [done|]. cbn [take foldl]. apply H6. lia.
    + split; [done|]. split; [done|]. exists 0%nat. cbn [drop]. split_and!; [|cbn; lia|lia|lia]. cbn [fst].
      rewrite <- (list_to_map_to_list (cachedXpubs c)). symmetry. apply list_to_map_proper; [done|]. exact Hp.
Qed.

(** C16: trimming the cache of accounts, with its linear scan for a single entry and its sort for
    more, removes the entries that were not used for the longest time, no more of them than
    needed, until both caps hold; entries that stay are younger than those that leave; the bytes
    charged to the cache are always the sum over its entries. *)
Theorem xpub_cache_caps maxEntries maxBytes c : cache_ok c -> 0 <= maxEntries ->
  let '(c', count) := trimXpubCacheItemsLocked walk maxEntries maxBytes c in
  cache_ok c' /\ Z.of_nat (size (cachedXpubs c')) <= maxEntries /\ (cachedXpubs c' = ∅ \/ cachedXpubsBytes c' <= maxBytes)
  /\ exists evicted kept, evicted ++ kept ≡ₚ map_to_list (cachedXpubs c) /\ cachedXpubs c' = list_to_map kept /\ count = zlen evicted
     /\ (forall e k, e ∈ evicted -> k ∈ kept -> olderThan e k = true)
     /\ (forall j, (j < length evicted)%nat -> over maxEntries maxBytes (foldl (fun c e => deleteCachedXpubLocked e.1 c) c (take j evicted)) = true).
Proof.
  intros Hc Hme. rewrite trim_evicts by done. unfold evictOldest.
  set (L := merge_sort notYounger (map_to_list (cachedXpubs c))).
  assert (Hp : L ≡ₚ map_to_list (cachedXpubs c)) by apply merge_sort_Permutation.
  pose proof (lru_strict (map_to_list (cachedXpubs c)) (NoDup_fst_map_to_list _)) as Hs. fold L in Hs.
  destruct (evict_spec maxEntries maxBytes L c 0 Hc Hme Hp Hs) as (H1 & H2 & k & H3 & H4 & H5 & H6). destruct (evictWhileOver _ _ L c 0) as [c' count]. cbn [fst snd] in *.
  split; [done|]. unfold over in H2. apply orb_false_iff in H2 as [H2 H2']. apply Z.ltb_ge in H2. split; [done|]. split.
  { destruct (decide (cachedXpubs c' = ∅)) as [|Hne]; [by left|]. right. apply map_size_non_empty_iff in Hne. apply andb_false_iff in H2' as [H2'|H2']; [apply Z.ltb_ge in H2'; lia|]. by apply Z.ltb_ge. }
  exists (take k L), (drop k L). split_and!; [by rewrite take_drop|done|unfold zlen; rewrite length_take; lia| |].
  - intros e x He Hx. clear -Hs He Hx. revert k He Hx. induction Hs as [|a L Hs IH Ha]; intros [|k] He Hx; cbn in He; try (by apply elem_of_nil in He).
    apply elem_of_cons in He as [->|He]; [|by eapply IH]. rewrite Forall_forall in Ha. apply Ha. cbn in Hx. rewrite <- (take_drop k L). apply elem_of_app. by right.
  - intros j Hj. rewrite length_take in Hj. rewrite take_take, Nat.min_l by lia. apply H6. lia.
Qed.
End Trim.

(** ** An instance *)

Module XpubExample.
#[local] Existing Instance RefVlq.vlq.
#[local] Existing Instance RefVlq.vlq_laws.
#[local] Existing Instance MapKV.map_kv.
#[local] Instance parser : ChainParser := base_parser (fun _ => Err ErrAddressMissing) (fun _ => true) 100 false.

Definition descriptorAt (change i : Z) : bytes := [x51; z2b change] ++ be_put 4 i.

#[export] Instance deriver : XpubDeriver := {
  DeriveAddressDescriptorsFromTo change from to := Ok (map (descriptorAt change) (seqZ from (to - from)));
}.
#[export] Instance deriverLaws : XpubDeriverLaws deriver descriptorAt.
Proof. split; [by intros change from to l [= <-]|done]. Qed.

(** The third and the fifth address are used. *)
Definition row (sat : Z) : bytes := packAddrBalance [] (mkAddrBalance 1 0 sat [] ∅ ∅).
Definition column : gmap bytes bytes := <[descriptorAt 0 2 := row 500]> {[descriptorAt 0 4 := row 70]}.
Definition database : DB MapKV.map_kv := mkDB MapKV.map_kv (fun cf => if decide (cf = cfAddressBalance) then column else ∅) (fun _ _ => false) false.

Definition balanceAt (a : bytes) : option AddrBalance :=
  match GetAddrDescBalance database a AddressBalanceDetailUTXO with Ok b => b | _ => None end.

Lemma balances_readable a : GetAddrDescBalance database a AddressBalanceDetailUTXO = Ok (balanceAt a).
Proof.
  unfold balanceAt. destruct (decide (a = descriptorAt 0 2)) as [->|H2]; [vm_compute; reflexivity|].
  destruct (decide (a = descriptorAt 0 4)) as [->|H4]; [vm_compute; reflexivity|].
  unfold GetAddrDescBalance, GetCF. cbn [db_rfault database rbind]. change (kv_get (db_cf database cfAddressBalance) a) with (column !! a).
  unfold column. rewrite lookup_insert_ne, lookup_singleton_ne by congruence. reflexivity.
Qed.

Definition scan (gap max : Z) : result (xpubTotals * list xpubAddress * Z) :=
  xpubScanAddresses database (mkTotals 0 0 0) [] gap 0 0 false 0 max.

(** With a gap of three the scan stops at the eighth address; a gap of two ends before the third. *)
Example scans_evaluated :
  (exists data ads, scan 3 100 = Ok (data, ads, 4) /\ length ads = 7%nat /\ xd_balanceSat data = 570)
  /\ (exists data ads, scan 2 100 = Ok (data, ads, 0) /\ length ads = 2%nat) /\ scan 3 6 = Err errXpubScan.
Proof. split_and!; [eexists _, _; vm_compute; done..|vm_compute; done]. Qed.

Lemma xpub_scan_witness : match scan 3 100 with
  | Ok (data, addresses, lastUsed) => lastUsed + 3 <= zlen addresses /\ (forall j, lastUsed < j < zlen addresses -> ~ usedAt (derived_at := descriptorAt) balanceAt 0 j)
  | _ => False
  end.
Proof.
  pose proof (xpub_scan database balanceAt balances_readable 0 3 0 false 0 100 (mkTotals 0 0 0) [] ltac:(lia) ltac:(lia) eq_refl) as H. unfold scan.
  destruct (xpubScanAddresses database (mkTotals 0 0 0) [] 3 0 0 false 0 100) as [[[data addresses] lastUsed]|e|] eqn:E.
  - split; [exact (proj1 (proj2 (proj2 (proj2 (proj2 H)))))|]. exact (proj1 (proj2 (proj2 (proj2 (proj2 (proj2 (proj2 H))))))).
  - vm_compute in E. discriminate E.
  - exact H.
Defined.

Definition cache : xpubCache :=
  putCachedXpubLocked [x03] 30 [] [] (putCachedXpubLocked [x02] 10 [] [] (putCachedXpubLocked [x01] 20 [] [] (mkXpubCache ∅ 0))).

Lemma cache_is_ok : cache_ok cache.
Proof. repeat apply putCached_ok. reflexivity. Qed.

Lemma xpub_cache_caps_witness : cache_ok cache /\
  let '(c', count) := trimXpubCacheItemsLocked map_to_list 5 600 cache in
  count = 1 /\ cache_ok c' /\ cachedXpubs c' !! [x02] = None /\ (cachedXpubs c' = ∅ \/ cachedXpubsBytes c' <= 600).
Proof.
  split; [apply cache_is_ok|]. pose proof (xpub_cache_caps map_to_list (fun m => reflexivity _) 5 600 cache cache_is_ok ltac:(lia)) as H.
  destruct (trimXpubCacheItemsLocked map_to_list 5 600 cache) as [c' count] eqn:E. split; [vm_compute in E; by injection E as _ <-|]. split; [exact (proj1 H)|].
  split; [vm_compute in E; by injection E as <- _|exact (proj1 (proj2 (proj2 H)))].
Defined.
End XpubExample.
