(* ===== verification/AddressUtxo.v ===== *)
(** The unspent outputs of an address as the API answers them ([api/worker.go]: [getAddrDescUtxo]): the
    outputs of pending transactions and those of the index, without what pending transactions spend.

    The keys of the code's two sets are the texts txid:number; a number contains no colon, so they are
    the outpoints. The cache of transactions is an argument.

    [utxo_listing]: the list has every outpoint once, and exactly the outpoints that no pending
    transaction of the address spends; without pending transactions its amounts sum up to the balance. *)

From S2P Require Import Prelude Codec Parser TxAddr Balance IndexCodec Store Assets Scan Golomb Mempool Paging History.

Local Open Scope Z_scope.

Record ApiUtxo := mkApiUtxo {
  ux_Txid : bytes;
  ux_Vout : Z;
  ux_AmountSat : Z;
  ux_Height : Z;
  ux_Confirmations : Z;
  ux_Locktime : Z;
  ux_Coinbase : bool;
  ux_AssetInfo : option AssetInfo;
}.

Section AddressUtxo.
Context {V : Vlq} {P : ChainParser} {IX : IndexOpts} {K : KV}.
Context (txVersion : bytes -> goerror + option Z) (mempoolTxVersion : bytes -> option Z).
(* txCache.GetTransaction, None when it fails; the parser's MinimumCoinbaseConfirmations *)
Context (GetTransaction : bytes -> option Tx) (MinimumCoinbaseConfirmations : Z).

(** The outputs that a transaction spends. *)
Definition spends (tx : Tx) : list Outpoint := map (fun vin => mkOut (vin_Txid vin) (vin_Vout vin)) (tx_Vin tx).

Definition isCoinbase (tx : Tx) : bool :=
  match tx_Vin tx with [vin] => 0 <? zlen (vin_Coinbase vin) | _ => false end.

(** The loop over the outputs of a pending transaction from position [i]: what is listed, with its
    key. *)
Fixpoint pendingOutputs (addrDesc : bytes) (spentInMempool : gset Outpoint) (tx : Tx) (i : Z) (outs : list Vout) : list (Outpoint * ApiUtxo) :=
  match outs with
  | [] => []
  | vout :: outs =>
      let rest := pendingOutputs addrDesc spentInMempool tx (i + 1) outs in
      match GetAddrDescFromVout vout with
      | Ok vad =>
          if bool_decide (addrDesc = vad) && negb (bool_decide (mkOut (tx_Txid tx) i ∈ spentInMempool))
          then (mkOut (tx_Txid tx) i,
                mkApiUtxo (tx_Txid tx) (i32 i) (vout_ValueSat vout) 0 0 (tx_LockTime tx) (isCoinbase tx) (vout_AssetInfo vout)) :: rest
          else rest
      | _ => rest
      end
  end.

Definition coinbaseRow (d : DB K) (txid : bytes) : result bool :=
  let! ta := GetTxAddresses d txid in
  match ta with
  | None => Panic
  | Some ta =>
      Ok match ta_Inputs ta with
         | [input] => (zlen (ti_AddrDesc input) =? 0) && (ti_ValueSat input =? 0)
         | _ => false
         end
  end.

(** The loop over the indexed outputs; the list is given in the order of the loop. *)
Fixpoint indexedUtxos (d : DB K) (bestheight : Z) (spentInMempool inMempool : gset Outpoint) (utxos : list Utxo) : result (list ApiUtxo) :=
  match utxos with
  | [] => Ok []
  | utxo :: utxos =>
      let! txid := UnpackTxid (u_BtxID utxo) in
      let o := mkOut txid (u_Vout utxo) in
      let! found :=
        (if bool_decide (o ∈ spentInMempool) then Ok []
         else
           let confirmations := bestheight - u_Height utxo + 1 in
           let! coinbase := (if confirmations <? MinimumCoinbaseConfirmations then coinbaseRow d txid else Ok false) in
           Ok (if bool_decide (o ∈ inMempool) then []
               else [mkApiUtxo txid (u_Vout utxo) (u_ValueSat utxo) (u_Height utxo) confirmations 0 coinbase (u_AssetInfo utxo)])) in
      let! rest := indexedUtxos d bestheight spentInMempool inMempool utxos in
      Ok (found ++ rest)
  end.

Definition noFilter : AddressFilter := mkFilter AddressFilterVoutOff 0 0 AllMask false.

Definition getAddrDescUtxo (d : DB K) (m : BaseMempool) (addrDesc : bytes) (ba : option AddrBalance) (onlyConfirmed onlyMempool : bool) (knownBestHeight : option Z)
    : result (list ApiUtxo) :=
  let! '(pending, spentInMempool, inMempool) :=
    (if onlyConfirmed then Ok ([], ∅, ∅)
     else
       let! txm := getAddressTxids txVersion mempoolTxVersion d m addrDesc true noFilter maxInt in
       let mc := omap GetTransaction txm in
       let spent := list_to_set (mc ≫= spends) in
       let found := mc ≫= (fun tx => pendingOutputs addrDesc spent tx 0 (tx_Vout tx)) in
       Ok (map snd found, spent, list_to_set (map fst found))) in
  if onlyMempool then Ok pending
  else
    let! ba := (match ba with Some b => Ok (Some b) | None => GetAddrDescBalance d addrDesc AddressBalanceDetailUTXO end) in
    match ba with
    | Some ba =>
        if 0 <? zlen (ab_Utxos ba) then
          let! bestheight := (match knownBestHeight with Some h => Ok h | None => let! '(b, _) := GetBestBlock d in Ok b end) in
          let! indexed := indexedUtxos d bestheight spentInMempool inMempool (rev (ab_Utxos ba)) in
          Ok (pending ++ indexed)
        else Ok pending
    | None => Ok pending
    end.

(** ** The listing *)

Context (d : DB K) (m : BaseMempool) (addrDesc : bytes) (ba : AddrBalance) (best : Z).

(** The pending transactions of the address that the cache knows. *)
Definition pendingOf : list Tx := omap GetTransaction (GetUniqueTxids (map out_Txid (BaseMempool.GetAddrDescTransactions m addrDesc))).

Definition outpointOf (u : ApiUtxo) : Outpoint := mkOut (ux_Txid u) (ux_Vout u).

(** The output [o] of the pending transaction [tx] belongs to the address. *)
Definition paysAt (tx : Tx) (o : Outpoint) (vout : Vout) : Prop :=
  out_Txid o = tx_Txid tx /\ 0 <= out_Vout o /\ tx_Vout tx !! Z.to_nat (out_Vout o) = Some vout /\ GetAddrDescFromVout vout = Ok addrDesc.

(** Transactions of the cache have the wanted id and a number of outputs that fits; indexed
    outputs are distinct, have an id, and their rows can be read. *)
Record listing_ok : Prop := {
  lo_pending t tx : GetTransaction t = Some tx -> tx_Txid tx = t /\ zlen (tx_Vout tx) < 2 ^ 31;
  lo_mempool : zlen (BaseMempool.GetAddrDescTransactions m addrDesc) < maxInt;
  lo_txid : Forall (fun u => exists t, UnpackTxid (u_BtxID u) = Ok t) (ab_Utxos ba);
  lo_distinct : NoDup (map (fun u => (okOrEmpty (UnpackTxid (u_BtxID u)), u_Vout u)) (ab_Utxos ba));
  lo_rows : Forall (fun u => exists b, coinbaseRow d (okOrEmpty (UnpackTxid (u_BtxID u))) = Ok b) (ab_Utxos ba);
}.

Definition utxoOutpoint (u : Utxo) : Outpoint := mkOut (okOrEmpty (UnpackTxid (u_BtxID u))) (u_Vout u).

(** What the pending transactions of the address spend. *)
Definition spentPending : gset Outpoint := list_to_set (pendingOf ≫= spends).

Lemma pendingOutputs_spec tx i outs o u : 0 <= i -> i + zlen outs < 2 ^ 31 ->
  (o, u) ∈ pendingOutputs addrDesc spentPending tx i outs ->
  outpointOf u = o /\ out_Txid o = tx_Txid tx /\ i <= out_Vout o /\ o ∉ spentPending
  /\ exists vout, outs !! Z.to_nat (out_Vout o - i) = Some vout /\ GetAddrDescFromVout vout = Ok addrDesc /\ ux_AmountSat u = vout_ValueSat vout.
Proof.
  revert i. induction outs as [|vout outs IH]; intros i Hi Hb Hin; cbn [pendingOutputs] in Hin; [by apply elem_of_nil in Hin|]. rewrite zlen_cons in Hb.
  assert (Hrest : (o, u) ∈ pendingOutputs addrDesc spentPending tx (i + 1) outs -> outpointOf u = o /\ out_Txid o = tx_Txid tx /\ i <= out_Vout o /\ o ∉ spentPending
    /\ exists v, (vout :: outs) !! Z.to_nat (out_Vout o - i) = Some v /\ GetAddrDescFromVout v = Ok addrDesc /\ ux_AmountSat u = vout_ValueSat v).
  { intros H. destruct (IH (i + 1) ltac:(lia) ltac:(lia) H) as (H1 & H2 & H3 & H4 & v & H5 & H6). split_and!; [done|done|lia|done|]. exists v. split; [|done].
    replace (Z.to_nat (out_Vout o - i)) with (S (Z.to_nat (out_Vout o - (i + 1)))) by lia. done. }
  destruct (GetAddrDescFromVout vout) as [vad| |] eqn:Hd; [|by apply Hrest|by apply Hrest].
  destruct (bool_decide (addrDesc = vad) && _) eqn:Hc; [|by apply Hrest]. apply elem_of_cons in Hin as [Hin|Hin]; [|by apply Hrest].
  apply andb_true_iff in Hc as [->%bool_decide_eq_true Hc%negb_true_iff%bool_decide_eq_false]. injection Hin as -> ->. pose proof (zlen_nonneg outs).
  unfold outpointOf. cbn. rewrite i32_id by (unfold is_i32; lia). split_and!; [done|done|lia|done|]. exists vout. rewrite Z.sub_diag. done.
Qed.

Lemma pendingOutputs_complete tx i outs k vout : 0 <= i -> outs !! k = Some vout -> GetAddrDescFromVout vout = Ok addrDesc ->
  mkOut (tx_Txid tx) (i + Z.of_nat k) ∉ spentPending ->
  mkOut (tx_Txid tx) (i + Z.of_nat k) ∈ map fst (pendingOutputs addrDesc spentPending tx i outs).
Proof.
  revert i k. induction outs as [|v outs IH]; intros i k Hi Hk Hd Hs; [done|]. cbn [pendingOutputs]. destruct k as [|k].
  - injection Hk as ->. rewrite Hd. rewrite Z.add_0_r in *. rewrite bool_decide_eq_true_2, bool_decide_eq_false_2 by done. cbn. by left.
  - cbn in Hk. replace (i + Z.of_nat (S k)) with (i + 1 + Z.of_nat k) in * by lia. specialize (IH (i + 1) k ltac:(lia) Hk Hd Hs).
    destruct (GetAddrDescFromVout v); [|done|done]. destruct (_ && _); [right|]; done.
Qed.

Lemma pendingOutputs_sorted tx i outs : NoDup (map fst (pendingOutputs addrDesc spentPending tx i outs))
  /\ forall o, o ∈ map fst (pendingOutputs addrDesc spentPending tx i outs) -> i <= out_Vout o /\ out_Txid o = tx_Txid tx.
Proof.
  revert i. induction outs as [|v outs IH]; intros i; cbn [pendingOutputs]; [split; [constructor|intros o Ho; by apply elem_of_nil in Ho]|].
  destruct (IH (i + 1)) as [H1 H2].
  assert (Hrest : NoDup (map fst (pendingOutputs addrDesc spentPending tx (i + 1) outs)) /\ forall o, o ∈ map fst (pendingOutputs addrDesc spentPending tx (i + 1) outs) -> i <= out_Vout o /\ out_Txid o = tx_Txid tx).
  { split; [done|]. intros o Ho. destruct (H2 o Ho). split; [lia|done]. }
  destruct (GetAddrDescFromVout v); [|done|done]. destruct (_ && _); [|done]. cbn [map fst]. split.
  - constructor; [|done]. intros Hin. apply H2 in Hin. cbn in Hin. lia.
  - intros o [->|Ho]%elem_of_cons; [split; [cbn; lia|done]|]. destruct (H2 o Ho). split; [lia|done].
Qed.

(** The listed outputs of all pending transactions. *)
Definition pendingFound : list (Outpoint * ApiUtxo) := pendingOf ≫= (fun tx => pendingOutputs addrDesc spentPending tx 0 (tx_Vout tx)).

Lemma uniqueFrom_spec seen l : NoDup (uniqueFrom seen l) /\ forall t, t ∈ uniqueFrom seen l <-> t ∈ l /\ t ∉ seen.
Proof.
  revert seen. induction l as [|x l IH]; intros seen; cbn [uniqueFrom]; [split; [constructor|set_solver]|].
  case_bool_decide as Hx; [destruct (IH seen) as [H1 H2]; split; [done|]; intros t; rewrite H2; set_solver|].
  destruct (IH ({[x]} ∪ seen)) as [H1 H2]. split; [constructor; [rewrite H2; set_solver|done]|].
  intros t. rewrite elem_of_cons, H2. destruct (decide (t = x)); set_solver.
Qed.

Hypothesis Hok : listing_ok.

Lemma pendingOf_txids : NoDup (map tx_Txid pendingOf) /\ Forall (fun tx => zlen (tx_Vout tx) < 2 ^ 31) pendingOf.
Proof.
  unfold pendingOf, GetUniqueTxids. destruct (uniqueFrom_spec ∅ (map out_Txid (BaseMempool.GetAddrDescTransactions m addrDesc))) as [Hnd _]. revert Hnd.
  generalize (uniqueFrom ∅ (map out_Txid (BaseMempool.GetAddrDescTransactions m addrDesc))). intros l Hnd. induction Hnd as [|t l Ht Hnd IH]; [split; constructor|].
  cbn [omap list_omap]. destruct (GetTransaction t) as [tx|] eqn:Hg; [|done]. destruct IH as [I1 I2]. destruct (lo_pending Hok _ _ Hg) as [Hid Hlen].
  split; [|by constructor]. cbn [map]. constructor; [|done]. intros Hin. apply list_elem_of_fmap in Hin as (tx' & Heq & Hin).
  apply list_elem_of_omap in Hin as (t' & Ht' & Hg'). destruct (lo_pending Hok _ _ Hg') as [Hid' _]. congruence.
Qed.

Lemma pendingFound_spec : NoDup (map fst pendingFound) /\ map outpointOf (map snd pendingFound) = map fst pendingFound
  /\ forall o, o ∈ map fst pendingFound <-> o ∉ spentPending /\ exists tx vout, tx ∈ pendingOf /\ paysAt tx o vout.
Proof.
  destruct pendingOf_txids as [Hnd Hlen]. split_and!.
  - unfold pendingFound. clear Hlen. revert Hnd. generalize pendingOf. intros l Hnd. induction l as [|tx l IH]; [constructor|]. cbn [map] in Hnd. apply NoDup_cons in Hnd as [Hn Hnd].
    rewrite bind_cons, map_app. apply NoDup_app. split_and!; [apply pendingOutputs_sorted| |by apply IH]. intros o Ho Ho'. apply pendingOutputs_sorted in Ho as [_ Ht].
    apply list_elem_of_fmap in Ho' as ([o' u'] & Heq & (tx' & H' & Hin')%list_elem_of_bind). cbn in Heq. subst o'.
    assert (o ∈ map fst (pendingOutputs addrDesc spentPending tx' 0 (tx_Vout tx'))) as Hf by (apply list_elem_of_fmap; by exists (o, u')).
    apply pendingOutputs_sorted in Hf as [_ Ht']. apply Hn. rewrite <- Ht, Ht'. apply list_elem_of_fmap. by exists tx'.
  - rewrite map_map. apply map_ext_in. intros [o u] Hin%list_elem_of_In. unfold pendingFound in Hin. apply list_elem_of_bind in Hin as (tx & Hin & Htx).
    rewrite Forall_forall in Hlen. apply pendingOutputs_spec in Hin; [|lia|specialize (Hlen tx Htx); cbn in Hlen; lia]. cbn. by destruct Hin.
  - intros o. unfold pendingFound. split.
    + intros ([o' u] & -> & (tx & Hin & Htx)%list_elem_of_bind)%list_elem_of_fmap. rewrite Forall_forall in Hlen. specialize (Hlen tx Htx).
      apply pendingOutputs_spec in Hin as (_ & H2 & H3 & H4 & vout & H5 & H6 & _); [|lia|cbn in Hlen; lia]. split; [done|]. exists tx, vout. rewrite Z.sub_0_r in H5. done.
    + intros (Hs & tx & vout & Htx & (H1 & H2 & H3 & H4)). assert (o = mkOut (tx_Txid tx) (0 + Z.of_nat (Z.to_nat (out_Vout o)))) as Ho by (destruct o; cbn in *; subst; f_equal; lia).
      pose proof (pendingOutputs_complete tx 0 (tx_Vout tx) _ vout ltac:(lia) H3 H4) as Hc. rewrite <- Ho in Hc. specialize (Hc Hs).
      apply list_elem_of_fmap in Hc as (p & Hp & Hin). apply list_elem_of_fmap. exists p. split; [done|]. apply list_elem_of_bind. by exists tx.
Qed.

(** The loop over indexed outputs: those that are neither spent nor listed already. *)
Lemma indexedUtxos_ok spent listed us :
  Forall (fun u => exists t, UnpackTxid (u_BtxID u) = Ok t) us ->
  Forall (fun u => exists b, coinbaseRow d (okOrEmpty (UnpackTxid (u_BtxID u))) = Ok b) us ->
  exists l, indexedUtxos d best spent listed us = Ok l
    /\ map outpointOf l = map utxoOutpoint (filter (fun u => utxoOutpoint u ∉ spent /\ utxoOutpoint u ∉ listed) us)
    /\ map ux_AmountSat l = map u_ValueSat (filter (fun u => utxoOutpoint u ∉ spent /\ utxoOutpoint u ∉ listed) us)
    /\ Forall (fun u => ux_Confirmations u = best - ux_Height u + 1) l.
Proof.
  intros H1 H2. induction H1 as [|u us [t Ht] _ IH]; [by exists []|]. apply Forall_cons in H2 as [[b Hb] H2]. destruct (IH H2) as (l & Hl & Ho & Hv & Hc). clear IH.
  assert (Hu : mkOut t (u_Vout u) = utxoOutpoint u) by (unfold utxoOutpoint; by rewrite Ht).
  cbn [indexedUtxos]. rewrite filter_cons. rewrite Ht in Hb |- *. cbn [rbind okOrEmpty] in *. rewrite Hu. case_bool_decide as Hs; cbn [rbind].
  - rewrite Hl. cbn [rbind app]. exists l. rewrite decide_False by tauto. done.
  - assert (exists cb, (if best - u_Height u + 1 <? MinimumCoinbaseConfirmations then coinbaseRow d t else Ok false) = Ok cb) as [cb ->] by (case_match; eauto). cbn [rbind].
    rewrite Hl. cbn [rbind]. eexists. split; [done|]. case_bool_decide as Hm; [rewrite decide_False by tauto|rewrite decide_True by tauto]; cbn [app map]; [done|].
    split_and!; [|by rewrite Hv|by constructor]. rewrite Ho. f_equal. exact Hu.
Qed.

Lemma NoDup_map_filter {A B} (f : A -> B) (Q : A -> Prop) `{forall x, Decision (Q x)} l : NoDup (map f l) -> NoDup (map f (filter Q l)).
Proof.
  induction l as [|x l IH]; intros Hnd; [done|]. cbn [map] in Hnd. apply NoDup_cons in Hnd as [Hn Hnd]. rewrite filter_cons. case_decide; [|by apply IH].
  cbn [map]. constructor; [|by apply IH]. intros (y & Hy & [_ Hin]%list_elem_of_filter)%list_elem_of_fmap. apply Hn. rewrite Hy. apply list_elem_of_fmap. by exists y.
Qed.

Lemma utxos_distinct : NoDup (map utxoOutpoint (ab_Utxos ba)).
Proof.
  replace (map utxoOutpoint (ab_Utxos ba)) with (map (fun p => mkOut p.1 p.2) (map (fun u => (okOrEmpty (UnpackTxid (u_BtxID u)), u_Vout u)) (ab_Utxos ba)))
    by (by rewrite map_map).
  assert (Inj (=) (=) (fun p : bytes * Z => mkOut p.1 p.2)) by (intros [] [] [=]; cbn in *; by subst).
  apply (NoDup_fmap_2 (fun p : bytes * Z => mkOut p.1 p.2)), (lo_distinct Hok).
Qed.

(** C13: the unspent outputs of an address are listed without repetition: the outputs of pending
    transactions and of the index that no pending transaction of the address spends, and no
    others; reading them never panics. With confirmed outputs only, they are exactly those of the
    index, newest first, and their amounts sum up to what the index lists. *)
Theorem utxo_listing :
  (exists l, getAddrDescUtxo d m addrDesc (Some ba) false false (Some best) = Ok l
     /\ NoDup (map outpointOf l)
     /\ forall o, o ∈ map outpointOf l <-> o ∉ spentPending /\ ((exists tx vout, tx ∈ pendingOf /\ paysAt tx o vout) \/ o ∈ map utxoOutpoint (ab_Utxos ba)))
  /\ (exists l, getAddrDescUtxo d m addrDesc (Some ba) true false (Some best) = Ok l
     /\ map outpointOf l = rev (map utxoOutpoint (ab_Utxos ba)) /\ sumZ ux_AmountSat l = sumZ u_ValueSat (ab_Utxos ba)).
Proof.
  assert (Hrev : forall Q : Utxo -> Prop, Forall Q (ab_Utxos ba) -> Forall Q (rev (ab_Utxos ba))) by (intros Q; apply Forall_rev).
  assert (Hz : forall T (x : T), (if 0 <? zlen (ab_Utxos ba) then x else x) = x) by (intros; by case_match).
  split.
  - unfold getAddrDescUtxo, getAddressTxids. rewrite collectMempool_unfiltered; [|by repeat split|rewrite zlen_nil; apply (lo_mempool Hok)]. cbn [rbind app].
    fold (GetUniqueTxids (map out_Txid (BaseMempool.GetAddrDescTransactions m addrDesc))). fold pendingOf. fold spentPending. fold pendingFound.
    destruct pendingFound_spec as (Hnd & Hmap & Hmem).
    destruct (indexedUtxos_ok spentPending (list_to_set (map fst pendingFound)) (rev (ab_Utxos ba))) as (l & Hl & Ho & _); [apply Hrev, (lo_txid Hok)|apply Hrev, (lo_rows Hok)|].
    assert (Hres : (if 0 <? zlen (ab_Utxos ba) then let! indexed := indexedUtxos d best spentPending (list_to_set (map fst pendingFound)) (rev (ab_Utxos ba)) in Ok (map snd pendingFound ++ indexed) else Ok (map snd pendingFound))
      = Ok (map snd pendingFound ++ l)).
    { destruct (Z.ltb_spec 0 (zlen (ab_Utxos ba))) as [|Hn]; [by rewrite Hl|]. assert (ab_Utxos ba = []) as He by (apply zlen_0; pose proof (zlen_nonneg (ab_Utxos ba)); lia).
      rewrite He in Hl. cbn in Hl. injection Hl as <-. by rewrite app_nil_r. }
    exists (map snd pendingFound ++ l). split; [exact Hres|]. rewrite map_app, Hmap, Ho. split.
    + apply NoDup_app. split_and!; [done| |].
      * intros o Hin (u & -> & [[_ Hn] _]%list_elem_of_filter)%list_elem_of_fmap. apply Hn. by apply elem_of_list_to_set.
      * apply NoDup_map_filter. rewrite map_rev. apply NoDup_ListNoDup. apply NoDup_rev. apply NoDup_ListNoDup. apply utxos_distinct.
    + intros o. rewrite elem_of_app, Hmem. split.
      * intros [[Hs Hp]|(u & -> & [[Hs _] Hu]%list_elem_of_filter)%list_elem_of_fmap]; [split; [done|by left]|]. split; [done|]. right. apply list_elem_of_fmap. exists u.
        split; [done|]. apply list_elem_of_In. rewrite in_rev. by apply list_elem_of_In.
      * intros [Hs [Hp|Hin]]; [by left; split|]. destruct (decide (o ∈ map fst pendingFound)) as [Hl'|Hl']; [left; by apply Hmem|]. right.
        apply list_elem_of_fmap in Hin as (u & -> & Hu). apply list_elem_of_fmap. exists u. split; [done|]. apply list_elem_of_filter. split; [|apply list_elem_of_In; rewrite <- in_rev; by apply list_elem_of_In].
        split; [done|]. by rewrite elem_of_list_to_set.
  - unfold getAddrDescUtxo. cbn [rbind]. destruct (indexedUtxos_ok ∅ ∅ (rev (ab_Utxos ba))) as (l & Hl & Ho & Hv & _); [apply Hrev, (lo_txid Hok)|apply Hrev, (lo_rows Hok)|].
    rewrite filter_all in Ho, Hv by (intros u _; split; apply not_elem_of_empty).
    assert (Hres : (if 0 <? zlen (ab_Utxos ba) then let! indexed := indexedUtxos d best ∅ ∅ (rev (ab_Utxos ba)) in Ok ([] ++ indexed) else Ok []) = Ok l).
    { destruct (Z.ltb_spec 0 (zlen (ab_Utxos ba))) as [|Hn]; [by rewrite Hl|]. assert (ab_Utxos ba = []) as He by (apply zlen_0; pose proof (zlen_nonneg (ab_Utxos ba)); lia).
      rewrite He in Hl. cbn in Hl. by injection Hl as <-. }
    exists l. split; [exact Hres|]. split; [by rewrite Ho, map_rev|].
    assert (sumZ ux_AmountSat l = sumZ u_ValueSat (rev (ab_Utxos ba))) as ->.
    { clear -Hv. revert Hv. generalize (rev (ab_Utxos ba)). induction l as [|u l IH]; intros [|u' us] [=]; cbn; [done|]. f_equal; [done|]. by apply IH. }
    by rewrite <- Permutation_rev.
Qed.
End AddressUtxo.

(** ** An instance *)

Module UtxoExample.
#[local] Existing Instance RefVlq.vlq.
#[local] Existing Instance MapKV.map_kv.
#[local] Instance opts : IndexOpts := { extendedIndex := false }.
(** The script is its own descriptor. *)
#[local] Instance parser : ChainParser := base_parser (fun v => Ok (vout_ScriptHex v)) (fun _ => true) 100 false.

Definition addr : bytes := [x76; xa9].
Definition oldTx : bytes := replicate 32 x11.
Definition newTx : bytes := replicate 32 x22.
Definition textOf (b : bytes) : bytes := okOrEmpty (UnpackTxid b).

(** Two confirmed outputs; a pending transaction spends the first and returns a part of it. *)
Definition balance : AddrBalance := mkAddrBalance 1 0 900 [mkUtxo oldTx 0 5 500 None; mkUtxo oldTx 1 5 400 None] ∅ ∅.
Definition pendingTx : Tx := mkTx [] (textOf newTx) 1 0 0 [mkVin [] (textOf oldTx) 0 []] [mkVout 30 0 [x51] None; mkVout 460 1 addr None] [].
Definition cached (t : bytes) : option Tx := if bool_decide (t = textOf newTx) then Some pendingTx else None.
Definition pool : BaseMempool := mkMempool ∅ {[addr := [mkOut (textOf newTx) (-1); mkOut (textOf newTx) 1]]}.
Definition txRow : bytes := packTxAddresses (mkTxAddresses 5 [mkTxInput [x51] 1000 None [] 0] [mkTxOutput addr false 500 None [] 0 0; mkTxOutput addr false 400 None [] 0 0] 1 [] 0).
Definition database : DB MapKV.map_kv := mkDB MapKV.map_kv (fun cf => if decide (cf = cfTxAddresses) then {[oldTx := txRow]} else ∅) (fun _ _ => false) false.

Definition list_utxos (onlyConfirmed : bool) : result (list ApiUtxo) :=
  getAddrDescUtxo (fun _ => inr None) (fun _ => None) cached 100 database pool addr (Some balance) onlyConfirmed false (Some 9).

Example utxos_evaluated : exists a b c d, list_utxos false = Ok [a; b] /\ map ux_AmountSat [a; b] = [460; 400] /\ list_utxos true = Ok [c; d].
Proof. eexists _, _, _, _. vm_compute. done. Qed.

Lemma example_ok : listing_ok (IX := opts) cached database pool addr balance.
Proof.
  split.
  - intros t tx. unfold cached. case_bool_decide as Ht; [|done]. intros [= <-]. by subst.
  - vm_compute. reflexivity.
  - repeat constructor; by eexists.
  - apply NoDup_cons. split; [|apply NoDup_singleton]. intros H%list_elem_of_singleton. vm_compute in H. discriminate H.
  - repeat constructor; vm_compute; by eexists.
Qed.

Lemma utxo_listing_witness : listing_ok (IX := opts) cached database pool addr balance /\
  exists l, list_utxos true = Ok l /\ sumZ ux_AmountSat l = 900.
Proof.
  split; [apply example_ok|].
  destruct (proj2 (utxo_listing (fun _ => inr None) (fun _ => None) cached 100 database pool addr balance 9 example_ok)) as (l & Hl & _ & Hs). exists l. split; [exact Hl|exact Hs].
Defined.
End UtxoExample.
