(* ===== verification/BalanceHistory.v ===== *)
(** The balance history of an account, summed up over intervals ([api/types.go]: [SortAndAggregate]).

    [history_aggregated]: the points are the sums over the transactions of every interval, in the
    order of time, and a transaction that touches several addresses of an account counts once.
    [first_interval_lost]: the transactions before the first multiple of the interval are dropped
    when there are later ones. *)

From S2P Require Import Prelude.

Local Open Scope Z_scope.

Record BalanceHistory := mkBH {
  bh_Time : Z;
  bh_Txs : Z;
  bh_ReceivedSat : Z;
  bh_SentSat : Z;
  bh_SentToSelfSat : Z;
  bh_Txid : bytes;
}.

(** [a.Less(i, j)] *)
Definition Less (a b : BalanceHistory) : bool :=
  if bh_Time a =? bh_Time b then match bytes_compare (bh_Txid a) (bh_Txid b) with Lt => true | _ => false end
  else bh_Time a <? bh_Time b.

(** [a] may stay before [b]. *)
Definition inOrder (a b : BalanceHistory) : Prop := Less b a = false.

#[export] Instance inOrder_dec : RelDecision inOrder.
Proof. intros a b. unfold inOrder. apply _. Defined.

Definition emptyPoint (time : Z) : BalanceHistory := mkBH time 0 0 0 0 [].

Definition clearTxid (b : BalanceHistory) : BalanceHistory :=
  mkBH (bh_Time b) (bh_Txs b) (bh_ReceivedSat b) (bh_SentSat b) (bh_SentToSelfSat b) [].

(** The body of the loop: the finished intervals and the current one. *)
Definition addPoint (groupByTime : Z) (s : list BalanceHistory * BalanceHistory) (bh : BalanceHistory) : list BalanceHistory * BalanceHistory :=
  let '(bhs, bha) := s in
  let time := bh_Time bh - bh_Time bh mod groupByTime in
  let '(bhs, bha) :=
    if negb (bh_Time bha =? time)
    then (if negb (bh_Time bha =? 0) then bhs ++ [clearTxid bha] else bhs, emptyPoint time)
    else (bhs, bha) in
  let '(txs, txid) := if bool_decide (bh_Txid bha = bh_Txid bh) then (bh_Txs bha, bh_Txid bha) else (u32 (bh_Txs bha + bh_Txs bh), bh_Txid bh) in
  (bhs, mkBH (bh_Time bha) txs (bh_ReceivedSat bha + bh_ReceivedSat bh) (bh_SentSat bha + bh_SentSat bh)
          (bh_SentToSelfSat bha + bh_SentToSelfSat bh) txid).

(** The loop over the sorted points; [groupByTime] is a divisor. *)
Definition aggregate (groupByTime : Z) (a : list BalanceHistory) : result (list BalanceHistory) :=
  match a with
  | [] => Ok []
  | _ =>
      if groupByTime =? 0 then Panic
      else
        let '(bhs, bha) := foldl (addPoint groupByTime) ([], emptyPoint 0) a in
        Ok (if 0 <? bh_Txs bha then bhs ++ [clearTxid bha] else bhs)
  end.

Definition SortAndAggregate (groupByTime : Z) (a : list BalanceHistory) : result (list BalanceHistory) :=
  aggregate groupByTime (merge_sort inOrder a).

(** ** Sums over intervals *)

Section Aggregate.
Context (g : Z) (Hg : 0 < g).

Definition align (t : Z) : Z := t - t mod g.
Definition members (p : list BalanceHistory) (t : Z) : list BalanceHistory := filter (fun b => align (bh_Time b) = t) p.

(** The point of the interval that starts at [t]. *)
Definition summary (p : list BalanceHistory) (t : Z) : BalanceHistory :=
  mkBH t (Z.of_nat (size (list_to_set (map bh_Txid (members p t)) : gset bytes)))
    (sumZ bh_ReceivedSat (members p t)) (sumZ bh_SentSat (members p t)) (sumZ bh_SentToSelfSat (members p t)) [].

(** Points as they are collected: one transaction each, after the first interval; points of the
    same transaction have its time. *)
Record points_ok (p : list BalanceHistory) : Prop := {
  pt_point b : b ∈ p -> bh_Txs b = 1 /\ bh_Txid b <> [] /\ g <= bh_Time b;
  pt_tx b b' : b ∈ p -> b' ∈ p -> bh_Txid b = bh_Txid b' -> bh_Time b = bh_Time b';
  pt_fits : zlen p < 2 ^ 32;
}.

Lemma members_snoc p x t : members (p ++ [x]) t = members p t ++ (if decide (align (bh_Time x) = t) then [x] else []).
Proof. unfold members. rewrite filter_app, filter_cons. by case_decide. Qed.

Lemma summary_other p x t : align (bh_Time x) <> t -> summary (p ++ [x]) t = summary p t.
Proof. intros Hne. unfold summary. rewrite members_snoc, decide_False, app_nil_r by done. done. Qed.

Lemma align_mono a b : 0 <= a <= b -> align a <= align b.
Proof.
  intros H. unfold align. pose proof (Z.div_mod a g ltac:(lia)). pose proof (Z.div_mod b g ltac:(lia)).
  assert (a / g <= b / g) by (apply Z.div_le_mono; lia). nia.
Qed.

Lemma align_pos a : g <= a -> 0 < align a.
Proof.
  intros H. unfold align. pose proof (Z.div_mod a g ltac:(lia)). assert (1 <= a / g) by (apply Z.div_le_lower_bound; lia). nia.
Qed.

Lemma inOrder_spec a b : inOrder a b <-> bh_Time a < bh_Time b \/ (bh_Time a = bh_Time b /\ bytes_compare (bh_Txid b) (bh_Txid a) <> Lt).
Proof.
  unfold inOrder, Less. destruct (Z.eqb_spec (bh_Time b) (bh_Time a)) as [He|He].
  - rewrite He. destruct (bytes_compare (bh_Txid b) (bh_Txid a)); intuition (try lia; congruence).
  - rewrite Z.ltb_ge. split; [left; lia|]. intros [|[]]; lia.
Qed.

(** The points of an interval before [x] hold no other point of the transaction of [x] than the last one. *)
Lemma txid_seen p lst x : points_ok ((p ++ [lst]) ++ [x]) -> StronglySorted inOrder ((p ++ [lst]) ++ [x]) ->
  bh_Txid x ∈ map bh_Txid (p ++ [lst]) -> bh_Txid lst = bh_Txid x.
Proof.
  intros Hok Hs [b [He Hb]]%list_elem_of_fmap. apply elem_of_app in Hb as [Hb|Hb%list_elem_of_singleton]; [|by subst b].
  assert (Ht : bh_Time b = bh_Time x) by (apply (pt_tx _ Hok); set_solver).
  apply StronglySorted_app in Hs as (Hlx & Hs & _). apply StronglySorted_app in Hs as (Hbl & _ & _).
  specialize (Hbl b lst Hb ltac:(set_solver)). specialize (Hlx lst x ltac:(set_solver) ltac:(set_solver)).
  apply inOrder_spec in Hbl, Hlx. destruct Hbl as [|[Ht1 Hc1]]; [destruct Hlx as [|[]]; lia|]. destruct Hlx as [|[Ht2 Hc2]]; [lia|].
  rewrite <- He in Hc1. rewrite (bytes_compare_antisym (bh_Txid lst)) in Hc2.
  apply bytes_compare_eq. by destruct (bytes_compare (bh_Txid lst) (bh_Txid x)) eqn:E.
Qed.

Lemma members_empty p t : (forall b, b ∈ p -> align (bh_Time b) <> t) -> members p t = [].
Proof.
  intros H. unfold members. induction p as [|b p IH]; [done|]. rewrite filter_cons, decide_False by (apply H; set_solver).
  apply IH. set_solver.
Qed.

Definition txids (p : list BalanceHistory) (t : Z) : gset bytes := list_to_set (map bh_Txid (members p t)).
Definition setTxid (b : BalanceHistory) (id : bytes) : BalanceHistory :=
  mkBH (bh_Time b) (bh_Txs b) (bh_ReceivedSat b) (bh_SentSat b) (bh_SentToSelfSat b) id.

Lemma txids_bound p t : Z.of_nat (size (txids p t)) <= zlen p.
Proof.
  unfold txids, zlen. apply inj_le. trans (length (members p t)); [|apply length_filter].
  induction (members p t) as [|b l IH]; cbn [map list_to_set length]; [by rewrite size_empty|].
  rewrite size_union_alt, size_singleton. etrans; [apply le_n_S, (subseteq_size _ (list_to_set (map bh_Txid l))); set_solver|]. by apply le_n_S.
Qed.

(** Adding a point to its interval. *)
Lemma join_interval p x id : points_ok (p ++ [x]) -> (id = bh_Txid x <-> bh_Txid x ∈ txids p (align (bh_Time x))) ->
  let t := align (bh_Time x) in let b := setTxid (summary p t) id in
  (let '(txs, txid) := if bool_decide (bh_Txid b = bh_Txid x) then (bh_Txs b, bh_Txid b) else (u32 (bh_Txs b + bh_Txs x), bh_Txid x) in
   mkBH (bh_Time b) txs (bh_ReceivedSat b + bh_ReceivedSat x) (bh_SentSat b + bh_SentSat x) (bh_SentToSelfSat b + bh_SentToSelfSat x) txid)
  = setTxid (summary (p ++ [x]) t) (bh_Txid x).
Proof.
  intros Hok Hid t b. destruct (pt_point _ Hok x ltac:(set_solver)) as (Htx & _).
  pose proof (pt_fits _ Hok) as Hf. pose proof (txids_bound p t) as Hb. unfold zlen in Hf, Hb. rewrite length_app in Hf. cbn [length] in Hf.
  unfold b, setTxid, summary. cbn [bh_Time bh_Txs bh_ReceivedSat bh_SentSat bh_SentToSelfSat bh_Txid].
  rewrite members_snoc. fold t. rewrite decide_True by done. rewrite !sumZ_app, map_app, list_to_set_app_L. cbn [map sumZ list_to_set].
  rewrite !Z.add_0_r, union_empty_r_L. fold (txids p t). fold t in Hid. case_bool_decide as He.
  - rewrite (union_comm_L (txids p t)), subseteq_union_1_L by set_solver. by rewrite He.
  - rewrite size_union, size_singleton by set_solver. rewrite u32_id by (unfold is_u32; lia). f_equal. lia.
Qed.
(** The state of the loop after the points [P], the last of them [y]. *)
Record loop_state (P : list BalanceHistory) (y : BalanceHistory) (ts : list Z) (s : list BalanceHistory * BalanceHistory) : Prop := {
  ls_state : s = (map (summary P) ts, setTxid (summary P (align (bh_Time y))) (bh_Txid y));
  ls_sorted : StronglySorted Z.lt (ts ++ [align (bh_Time y)]);
  ls_times t : t ∈ ts ++ [align (bh_Time y)] <-> t ∈ map (fun b => align (bh_Time b)) P;
}.

Lemma points_before P x b : points_ok (P ++ [x]) -> StronglySorted inOrder (P ++ [x]) -> b ∈ P ->
  0 < align (bh_Time b) <= align (bh_Time x).
Proof.
  intros Hok Hs Hb. destruct (pt_point _ Hok b ltac:(set_solver)) as (_ & _ & Hb0). split; [by apply align_pos|]. apply align_mono.
  pose proof (StronglySorted_app_1_elem_of _ _ _ b x Hs Hb ltac:(set_solver)) as Ho%inOrder_spec. lia.
Qed.

Lemma times_snoc P x t : t ∈ map (fun b => align (bh_Time b)) (P ++ [x]) <-> t ∈ map (fun b => align (bh_Time b)) P \/ t = align (bh_Time x).
Proof. rewrite map_app, elem_of_app. cbn [map]. by rewrite list_elem_of_singleton. Qed.

Lemma summaries_before P x ts : (forall t, t ∈ ts -> t < align (bh_Time x)) -> map (summary P) ts = map (summary (P ++ [x])) ts.
Proof. intros Hl. apply list_fmap_ext. intros i t Ht%list_elem_of_lookup_2%Hl. rewrite summary_other; [done|]. lia. Qed.

Lemma first_point x : points_ok [x] -> loop_state [x] x [] (addPoint g ([], emptyPoint 0) x).
Proof.
  intros Hok. destruct (pt_point _ Hok x ltac:(set_solver)) as (_ & Hid & Ht). apply align_pos in Ht.
  split; [|repeat constructor|set_solver]. unfold addPoint. fold (align (bh_Time x)).
  cbn [emptyPoint bh_Time]. rewrite (proj2 (Z.eqb_neq 0 _)) by lia. cbn [negb Z.eqb].
  pose proof (join_interval [] x [] Hok) as Hj. cbn zeta in Hj. cbn [app] in Hj. rewrite <- Hj by (unfold txids, members; set_solver).
  cbn [map]. unfold emptyPoint, setTxid, summary, members. cbn. repeat case_bool_decide; done.
Qed.

Lemma next_point p y x ts s : let P := p ++ [y] in points_ok (P ++ [x]) -> StronglySorted inOrder (P ++ [x]) ->
  loop_state P y ts s -> exists ts', loop_state (P ++ [x]) x ts' (addPoint g s x).
Proof.
  intros P Hok Hs [-> Hts Hin]. pose proof (fun b => points_before P x b Hok Hs) as Hle. pose proof (Hle y ltac:(set_solver)) as Hyx.
  pose proof (fun t Ht => StronglySorted_app_1_elem_of _ _ _ t (align (bh_Time y)) Hts Ht ltac:(set_solver)) as Htlt.
  pose proof (join_interval P x) as Hj. cbn zeta in Hj.
  unfold addPoint. fold (align (bh_Time x)). cbn beta iota.
  change (bh_Time (setTxid (summary P (align (bh_Time y))) (bh_Txid y))) with (align (bh_Time y)).
  set (ty := align (bh_Time y)) in *. set (tx := align (bh_Time x)) in *.
  destruct (Z.eqb_spec ty tx) as [He|Hne]; cbn [negb].
  - exists ts. split; fold tx; [|by rewrite <- He|intros t; rewrite times_snoc, <- Hin; fold tx; rewrite He; set_solver].
    rewrite <- (summaries_before P x ts), <- (Hj (bh_Txid y) Hok), He; [by repeat case_bool_decide| |intros; fold tx; rewrite <- He; auto].
    split; [intros <-; unfold txids; apply elem_of_list_to_set, list_elem_of_fmap; exists y; split; [done|]; apply list_elem_of_filter; set_solver|].
    intros Hx. apply (txid_seen p); [done..|]. unfold txids in Hx. apply elem_of_list_to_set, list_elem_of_fmap in Hx as (b & -> & Hb%list_elem_of_filter).
    apply list_elem_of_fmap. naive_solver.
  - rewrite (proj2 (Z.eqb_neq ty 0)) by lia. cbn [negb]. exists (ts ++ [ty]).
    assert (Hlt : forall t, t ∈ ts ++ [ty] -> t < tx) by (intros t [Ht%Htlt| ->%list_elem_of_singleton]%elem_of_app; lia).
    assert (Hm : members P tx = []) by (apply members_empty; intros b Hb Hb'; assert (tx ∈ ts ++ [ty]) by (apply Hin, list_elem_of_fmap; eauto); by pose proof (Hlt tx ltac:(done)); lia).
    split; fold tx; [|apply StronglySorted_app; split_and!; [set_solver|done|repeat constructor]|intros t; rewrite times_snoc, <- Hin; set_solver].
    rewrite <- (summaries_before P x (ts ++ [ty])) by done. rewrite map_app. rewrite <- (Hj [] Hok).
    2:{ unfold txids. rewrite Hm. destruct (pt_point _ Hok x ltac:(set_solver)) as (_ & Hid & _). set_solver. }
    assert (He : setTxid (summary P tx) [] = emptyPoint tx) by (unfold setTxid, summary; by rewrite Hm). rewrite He.
    by repeat case_bool_decide.
Qed.

Lemma loop_states p : forall y, points_ok (p ++ [y]) -> StronglySorted inOrder (p ++ [y]) ->
  exists ts, loop_state (p ++ [y]) y ts (foldl (addPoint g) ([], emptyPoint 0) (p ++ [y])).
Proof.
  induction p as [|y p IH] using rev_ind; intros x Hok Hs; [exists []; by apply first_point|].
  rewrite foldl_app. destruct (IH y) as [ts Hls]; [|by eapply StronglySorted_app_1_l|by eapply next_point].
  destruct Hok as [H1 H2 H3]. split; [set_solver..|]. unfold zlen in *. rewrite length_app in H3. cbn in H3. lia.
Qed.

#[global] Instance inOrder_trans : Transitive inOrder.
Proof.
  intros a b c [H1|[E1 H1]]%inOrder_spec [H2|[E2 H2]]%inOrder_spec; apply inOrder_spec; [left; lia..|]. right. split; [lia|].
  intros H3. destruct (bytes_compare (bh_Txid b) (bh_Txid a)) eqn:E; [|done|].
  - apply bytes_compare_eq in E. rewrite <- E in H3. done.
  - apply H2. eapply bytes_compare_trans; [exact H3|]. by rewrite (bytes_compare_antisym (bh_Txid b)), E.
Qed.

#[global] Instance inOrder_total : Total inOrder.
Proof.
  intros a b. rewrite !inOrder_spec. destruct (Z.lt_trichotomy (bh_Time a) (bh_Time b)) as [|[He|]]; [auto| |auto].
  rewrite (bytes_compare_antisym (bh_Txid a)). destruct (bytes_compare (bh_Txid a) (bh_Txid b)); cbn [CompOpp];
    [left; by right|left; by right|right; by right].
Qed.

(** The starts of the intervals with transactions, in order. *)
Definition intervals (p : list BalanceHistory) : list Z := merge_sort Z.le (remove_dups (map (fun b => align (bh_Time b)) p)).

Lemma intervals_unique p ts : StronglySorted Z.lt ts -> (forall t, t ∈ ts <-> t ∈ map (fun b => align (bh_Time b)) p) -> ts = intervals p.
Proof.
  intros Hs Hin. apply (StronglySorted_unique Z.le).
  - clear Hin. induction Hs as [|t ts Hs IH Hf]; constructor; [done|]. eapply Forall_impl; [exact Hf|]. cbn. lia.
  - apply StronglySorted_merge_sort; apply _.
  - unfold intervals. rewrite merge_sort_Permutation. apply NoDup_Permutation; [|apply NoDup_remove_dups|intros t; by rewrite Hin, elem_of_remove_dups].
    clear Hin. induction Hs as [|t ts Hs IH Hf]; constructor; [|done]. rewrite Forall_forall in Hf. intros Ht%Hf. lia.
Qed.

#[global] Instance intervals_perm : Proper ((≡ₚ) ==> eq) intervals.
Proof.
  intros p q Hpq. unfold intervals. apply (StronglySorted_unique Z.le); [apply StronglySorted_merge_sort; apply _..|].
  rewrite !merge_sort_Permutation. apply NoDup_Permutation; [apply NoDup_remove_dups..|]. intros t. by rewrite !elem_of_remove_dups, Hpq.
Qed.

#[global] Instance summary_perm : Proper ((≡ₚ) ==> eq ==> eq) summary.
Proof.
  intros p q Hpq t ? <-. unfold summary. assert (Hm : members p t ≡ₚ members q t) by (unfold members; by rewrite Hpq).
  f_equal; [|by rewrite Hm..]. do 2 f_equal. apply list_to_set_perm_L. by rewrite Hm.
Qed.

Lemma points_ok_perm p q : p ≡ₚ q -> points_ok p -> points_ok q.
Proof. intros Hpq [H1 H2 H3]. split; [intros b; by rewrite <- Hpq; apply H1|intros b b'; rewrite <- Hpq; apply H2|]. unfold zlen in *. by rewrite <- Hpq. Qed.

Lemma aggregate_sorted s : points_ok s -> StronglySorted inOrder s -> aggregate g s = Ok (map (summary s) (intervals s)).
Proof.
  intros Hok Hs. destruct s as [|y p _] using rev_ind; [done|]. destruct (loop_states p y Hok Hs) as [ts [He Hts Hin]].
  unfold aggregate. destruct (p ++ [y]) as [|b l] eqn:E; [by destruct p|]. rewrite <- E in *. clear E b l.
  rewrite (proj2 (Z.eqb_neq g 0)) by lia. rewrite He. f_equal.
  assert (Hy : bh_Txid y ∈ txids (p ++ [y]) (align (bh_Time y))).
  { unfold txids, members. apply elem_of_list_to_set, list_elem_of_fmap. exists y. split; [done|]. apply list_elem_of_filter. set_solver. }
  assert (Hpos : 0 < bh_Txs (setTxid (summary (p ++ [y]) (align (bh_Time y))) (bh_Txid y))).
  { cbn. fold (txids (p ++ [y]) (align (bh_Time y))). destruct (size (txids _ _)) eqn:E; [|lia]. apply size_empty_inv in E. set_solver. }
  rewrite (proj2 (Z.ltb_lt _ _) Hpos), <- (intervals_unique _ _ Hts Hin), map_app. done.
Qed.
End Aggregate.

Lemma aggregated groupBy (a : list BalanceHistory) : 0 < groupBy -> points_ok groupBy a ->
  SortAndAggregate groupBy a = Ok (map (summary groupBy a) (intervals groupBy a))
  /\ forall s, s ≡ₚ a -> StronglySorted inOrder s -> aggregate groupBy s = SortAndAggregate groupBy a.
Proof.
  intros Hg Hok.
  assert (Hagg : forall s, s ≡ₚ a -> StronglySorted inOrder s -> aggregate groupBy s = Ok (map (summary groupBy a) (intervals groupBy a))).
  { intros s Hp Hs. rewrite aggregate_sorted; [|done|by eapply points_ok_perm|done]. f_equal.
    rewrite (intervals_perm _ _ _ Hp). apply list_fmap_ext. intros i t _. by apply summary_perm. }
  assert (Hsort : SortAndAggregate groupBy a = Ok (map (summary groupBy a) (intervals groupBy a))).
  { apply Hagg; [apply merge_sort_Permutation|apply StronglySorted_merge_sort; apply _]. }
  split; [done|]. intros s Hp Hs. rewrite Hsort. by apply Hagg.
Qed.


(** *** Before the first multiple of the interval *)

(** Points in the order of time: first those before [t]. *)
Lemma sorted_split t s : StronglySorted inOrder s -> s = filter (fun b => bh_Time b < t) s ++ filter (fun b => ~ bh_Time b < t) s.
Proof.
  induction 1 as [|b s Hs IH Hf]; [done|]. rewrite !filter_cons. destruct (decide (bh_Time b < t)) as [Hb|Hb].
  - rewrite (decide_False (P := ~ bh_Time b < t)) by tauto. cbn [app]. by rewrite <- IH.
  - rewrite (decide_True (P := ~ bh_Time b < t)) by done. rewrite Forall_forall in Hf.
    assert (Hge : forall x, x ∈ s -> ~ bh_Time x < t) by (intros x Hx; specialize (Hf x Hx); apply inOrder_spec in Hf; lia).
    rewrite filter_none, filter_all by done. done.
Qed.

(** The points before the first multiple leave no finished interval. *)
Lemma early_points g e bha : 0 < g -> Forall (fun b => 0 <= bh_Time b < g) e -> bh_Time bha = 0 ->
  exists bha', foldl (addPoint g) ([], bha) e = ([], bha') /\ bh_Time bha' = 0.
Proof.
  intros Hg He. revert bha. induction He as [|b e Hb _ IH]; intros bha Hz; [by exists bha|]. cbn [foldl]. unfold addPoint at 2.
  rewrite Z.mod_small, Z.sub_diag, Hz by lia. cbn [Z.eqb negb]. destruct (bool_decide _); by apply IH.
Qed.

(** The first later point starts anew. *)
Lemma first_later g bha b : 0 < g <= bh_Time b -> bh_Time bha = 0 -> addPoint g ([], bha) b = addPoint g ([], emptyPoint 0) b.
Proof.
  intros Hb Hz. unfold addPoint. cbn [emptyPoint bh_Time]. rewrite Hz. pose proof (align_pos g ltac:(lia) (bh_Time b) ltac:(lia)) as Hp. unfold align in Hp.
  rewrite (proj2 (Z.eqb_neq 0 _)) by lia. done.
Qed.

(** C37: the points before the first multiple of the interval are left out of the history as soon as there are later
    points: whatever they are and however many, in whatever order all are collected and left by the sort, the answer is that for
    the later points alone (the loop takes a current point that starts at 0 for no point). *)
Theorem first_interval_lost groupBy early later a : 0 < groupBy -> a ≡ₚ early ++ later ->
  Forall (fun b => 0 <= bh_Time b < groupBy) early -> later <> [] -> points_ok groupBy later ->
  SortAndAggregate groupBy a = Ok (map (summary groupBy later) (intervals groupBy later))
  /\ forall s, s ≡ₚ a -> StronglySorted inOrder s -> aggregate groupBy s = SortAndAggregate groupBy a.
Proof.
  intros Hg Ha He Hne Hok.
  assert (Hagg : forall s, s ≡ₚ a -> StronglySorted inOrder s -> aggregate groupBy s = Ok (map (summary groupBy later) (intervals groupBy later))).
  { intros s Hp Hs. rewrite Ha in Hp. pose proof (sorted_split groupBy s Hs) as Hsplit.
    assert (Hlate : forall b, b ∈ later -> groupBy <= bh_Time b) by (intros b Hb; by apply (pt_point _ _ Hok)).
    assert (He' : filter (fun b => bh_Time b < groupBy) s ≡ₚ early).
    { rewrite Hp, filter_app, filter_all, filter_none, app_nil_r; [done|intros b Hb%Hlate; lia|]. rewrite Forall_forall in He. intros b Hb%He. lia. }
    assert (Hl' : filter (fun b => ~ bh_Time b < groupBy) s ≡ₚ later).
    { rewrite Hp, filter_app, filter_none, filter_all; [done|intros b Hb%Hlate; lia|]. rewrite Forall_forall in He. intros b Hb%He. lia. }
    rewrite Hsplit in Hs. apply StronglySorted_app in Hs as (_ & _ & Hsl). rewrite Hsplit. clear Hsplit Hp.
    set (e := filter (fun b => bh_Time b < groupBy) s) in *. set (l := filter (fun b => ~ bh_Time b < groupBy) s) in *. clearbody e l. rewrite <- He' in He.
    transitivity (aggregate groupBy l).
    - destruct l as [|b l]; [by apply Permutation_nil_l in Hl'|]. unfold aggregate. destruct (e ++ b :: l) eqn:E; [by destruct e|]. rewrite <- E. clear E.
      destruct (groupBy =? 0); [done|]. rewrite foldl_app. destruct (early_points groupBy e (emptyPoint 0) Hg He eq_refl) as (bha & -> & Hz). cbn [foldl].
      rewrite first_later; [done| |done]. split; [done|]. apply Hlate. rewrite <- Hl'. left.
    - rewrite aggregate_sorted; [|done|eapply points_ok_perm; [by symmetry|done]|done]. f_equal.
      rewrite (intervals_perm _ _ _ Hl'). apply list_fmap_ext. intros i t _. by apply summary_perm. }
  assert (Hsort : SortAndAggregate groupBy a = Ok (map (summary groupBy later) (intervals groupBy later))).
  { apply Hagg; [apply merge_sort_Permutation|apply StronglySorted_merge_sort; apply _]. }
  split; [done|]. intros s Hp Hs. rewrite Hsort. by apply Hagg.
Qed.

Module BalanceHistoryExample.
Definition b1 : BalanceHistory := mkBH 7300 1 5 0 0 [x01].
Definition b2 : BalanceHistory := mkBH 3700 1 7 0 0 [x02].
Definition b3 : BalanceHistory := mkBH 7300 1 0 2 2 [x01].
Definition b4 : BalanceHistory := mkBH 7500 1 0 1 0 [x03].
Definition points : list BalanceHistory := [b1; b2; b3; b4].

Lemma points_of_account : points_ok 3600 points.
Proof.
  split.
  - intros b Hb. unfold points in Hb. rewrite !elem_of_cons, elem_of_nil in Hb. destruct Hb as [->|[->|[->|[->|[]]]]]; cbn; (split_and!; [done|done|lia]).
  - intros b b' Hb Hb'. unfold points in Hb, Hb'. rewrite !elem_of_cons, elem_of_nil in Hb, Hb'.
    destruct Hb as [->|[->|[->|[->|[]]]]], Hb' as [->|[->|[->|[->|[]]]]]; done.
  - unfold zlen. cbn. lia.
Qed.


(** Two early points, collected in between, and the four later ones. *)
Definition e1 : BalanceHistory := mkBH 100 1 9 0 0 [x04].
Definition e2 : BalanceHistory := mkBH 3599 1 0 3 0 [x05].

Lemma first_interval_lost_witness :
  SortAndAggregate 3600 [b1; e2; b2; b3; e1; b4] = Ok [mkBH 3600 1 7 0 0 []; mkBH 7200 2 5 3 2 []].
Proof.
  destruct (first_interval_lost 3600 [e2; e1] points [b1; e2; b2; b3; e1; b4] eq_refl) as [H _].
  - etrans; [apply perm_swap|]. apply perm_skip. symmetry. exact (Permutation_middle [b1; b2; b3] [b4] e1).
  - repeat constructor; cbn; lia.
  - discriminate.
  - exact points_of_account.
  - rewrite H. vm_compute. reflexivity.
Defined.
End BalanceHistoryExample.
