(* ===== verification/AccountHistory.v ===== *)
(** The balance history of an address and of an account of a Bitcoin-type coin ([api/worker.go]:
    [GetBalanceHistory] and what it calls; [api/xpub.go]: [GetXpubBalanceHistory]), without the fiat rates.

    - [self_counted_once]: the points of a transaction at the addresses of an account sum up to what the
      transaction moves between the account and others, and what it sends back is counted once;
    - [account_history]: a history with more transactions than the cap is refused, and otherwise its
      amounts sum up to what the transactions of the account in the range move;
    - [address_is_account]: the history of an address is that of an account with this address only. *)

From S2P Require Import Prelude Codec Parser TxAddr Balance IndexCodec Store Assets Scan Golomb Mempool GoSort InternalState Paging History BalanceHistory Xpub.

Local Open Scope Z_scope.

(** ** The point of a transaction *)

(** The loop over the inputs from position [i]: the sent amount and whether this address pays the first
    input of the account. *)
Fixpoint ownInputs (addrDesc : bytes) (selfAddrDesc : gset bytes) (i : Z) (inputs : list TxInput) (ownInputIndex : Z) (countSentToSelf : bool) (sent : Z) : bool * Z :=
  match inputs with
  | [] => (countSentToSelf, sent)
  | tai :: inputs =>
      let ownInputIndex :=
        if bool_decide (ti_AddrDesc tai ∈ selfAddrDesc) then (if ownInputIndex <? 0 then i else ownInputIndex) else ownInputIndex in
      let '(countSentToSelf, sent) :=
        if bool_decide (addrDesc = ti_AddrDesc tai)
        then (if ownInputIndex =? i then true else countSentToSelf, sent + ti_ValueSat tai)
        else (countSentToSelf, sent) in
      ownInputs addrDesc selfAddrDesc (i + 1) inputs ownInputIndex countSentToSelf sent
  end.

(** The body of the loop over the outputs: the received amount and what is sent to the account itself. *)
Definition ownOutput (addrDesc : bytes) (selfAddrDesc : gset bytes) (countSentToSelf : bool) (s : Z * Z) (tao : TxOutput) : Z * Z :=
  (if bool_decide (addrDesc = to_AddrDesc tao) then s.1 + to_ValueSat tao else s.1,
   if countSentToSelf && bool_decide (to_AddrDesc tao ∈ selfAddrDesc) then s.2 + to_ValueSat tao else s.2).

Definition processBitcoinTypeBalanceHistory (addrDesc : bytes) (ta : TxAddresses) (selfAddrDesc : gset bytes) (bh : BalanceHistory) : BalanceHistory :=
  let '(countSentToSelf, sent) := ownInputs addrDesc selfAddrDesc 0 (ta_Inputs ta) (-1) false (bh_SentSat bh) in
  let '(received, self) := foldl (ownOutput addrDesc selfAddrDesc countSentToSelf) (bh_ReceivedSat bh, bh_SentToSelfSat bh) (ta_Outputs ta) in
  mkBH (bh_Time bh) (bh_Txs bh) received sent self (bh_Txid bh).

Section AccountHistory.
Context {V : Vlq} {P : ChainParser} {IX : IndexOpts} {K : KV}.
Context (txVersion : bytes -> goerror + option Z) (mempoolTxVersion : bytes -> option Z).

Definition balanceHistoryForTxid (d : DB K) (ist : InternalState) (addrDesc txid : bytes) (fromUnix toUnix : Z) (selfAddrDesc : gset bytes) : result (option BalanceHistory) :=
  let! ta := GetTxAddresses d txid in
  match ta with
  | None => Ok None
  | Some ta =>
      let time := GetBlockTime (ta_Height ta) ist in
      if (time <? fromUnix) || (toUnix <=? time) then Ok None
      else Ok (Some (processBitcoinTypeBalanceHistory addrDesc ta selfAddrDesc (mkBH time 1 0 0 0 txid)))
  end.

(** ** The history *)

Definition balanceHistoryHeightsFromTo (ist : InternalState) (fromTimestamp toTimestamp : Z) : Z * Z * Z * Z :=
  let '(fromUnix, fromHeight) :=
    if negb (fromTimestamp =? 0) then (u32 fromTimestamp, GetBlockHeightOfTime (u32 fromTimestamp) ist) else (0, 0) in
  let '(toUnix, toHeight) :=
    if negb (toTimestamp =? 0) then (u32 toTimestamp, GetBlockHeightOfTime (u32 toTimestamp) ist) else (maxUint32, maxUint32) in
  (fromUnix, fromHeight, toUnix, toHeight).

(** The loop over the transactions of an address, in the order of the loop. *)
Fixpoint pointsOf (d : DB K) (ist : InternalState) (addrDesc : bytes) (fromUnix toUnix : Z) (selfAddrDesc : gset bytes) (txids : list bytes) : result (list BalanceHistory) :=
  match txids with
  | [] => Ok []
  | txid :: txids =>
      let! bh := balanceHistoryForTxid d ist addrDesc txid fromUnix toUnix selfAddrDesc in
      let! bhs := pointsOf d ist addrDesc fromUnix toUnix selfAddrDesc txids in
      Ok (match bh with Some bh => bh :: bhs | None => bhs end)
  end.

Definition errHistoryCap : goerror := ErrMsg "balance history spans more transactions in the requested range; narrow the from/to range".

Definition rangeFilter (fromHeight toHeight : Z) : AddressFilter := mkFilter AddressFilterVoutOff fromHeight toHeight AllMask false.

Definition GetBalanceHistory (d : DB K) (m : BaseMempool) (ist : InternalState) (addrDesc : bytes) (fromTimestamp toTimestamp groupBy maxTxs : Z) : result (list BalanceHistory) :=
  let '(fromUnix, fromHeight, toUnix, toHeight) := balanceHistoryHeightsFromTo ist fromTimestamp toTimestamp in
  if toHeight <=? fromHeight then Ok []
  else
    let maxResults := if 0 <? maxTxs then i64 (maxTxs + 1) else maxInt in
    let! txs := getAddressTxids txVersion mempoolTxVersion d m addrDesc false (rangeFilter fromHeight toHeight) maxResults in
    if (0 <? maxTxs) && (maxTxs <? zlen txs) then Err errHistoryCap
    else
      let! bhs := pointsOf d ist addrDesc fromUnix toUnix {[addrDesc]} (rev txs) in
      SortAndAggregate groupBy bhs.

(** The loop over the addresses of an account that loads their transactions. *)
Fixpoint loadTxids (d : DB K) (m : BaseMempool) (filter : AddressFilter) (maxTxs remaining : Z) (ads : list xpubAddress) : result (list (bytes * list bytes)) :=
  match ads with
  | [] => Ok []
  | ad :: ads =>
      match xa_balance ad with
      | None => loadTxids d m filter maxTxs remaining ads
      | Some _ =>
          let! txids := getAddressTxids txVersion mempoolTxVersion d m (xa_addrDesc ad) false filter remaining in
          if zlen txids =? 0 then loadTxids d m filter maxTxs remaining ads
          else
            let remaining := if 0 <? maxTxs then remaining - zlen txids else remaining in
            if (0 <? maxTxs) && (remaining <=? 0) then Ok [(xa_addrDesc ad, txids)]
            else
              let! rest := loadTxids d m filter maxTxs remaining ads in
              Ok ((xa_addrDesc ad, txids) :: rest)
      end
  end.

Fixpoint accountPoints (d : DB K) (ist : InternalState) (fromUnix toUnix : Z) (selfAddrDesc : gset bytes) (loaded : list (bytes * list bytes)) : result (list BalanceHistory) :=
  match loaded with
  | [] => Ok []
  | at_ :: loaded =>
      let! bhs := pointsOf d ist at_.1 fromUnix toUnix selfAddrDesc (rev at_.2) in
      let! rest := accountPoints d ist fromUnix toUnix selfAddrDesc loaded in
      Ok (bhs ++ rest)
  end.

(** [addresses] are the addresses of the account as [getXpubData] returns them. *)
Definition GetXpubBalanceHistory (d : DB K) (m : BaseMempool) (ist : InternalState) (addresses : list (list xpubAddress)) (fromTimestamp toTimestamp groupBy maxTxs : Z)
    : result (list BalanceHistory) :=
  let '(fromUnix, fromHeight, toUnix, toHeight) := balanceHistoryHeightsFromTo ist fromTimestamp toTimestamp in
  if toHeight <=? fromHeight then Ok []
  else
    let selfAddrDesc := list_to_set (map xa_addrDesc (concat addresses)) in
    let remaining := if 0 <? maxTxs then i64 (maxTxs + 1) else maxInt in
    let! loaded := loadTxids d m (rangeFilter fromHeight toHeight) maxTxs remaining (concat addresses) in
    let total := sumZ (fun at_ => zlen at_.2) loaded in
    if (0 <? maxTxs) && (maxTxs <? total) then Err errHistoryCap
    else
      let! bhs := accountPoints d ist fromUnix toUnix selfAddrDesc loaded in
      SortAndAggregate groupBy bhs.
End AccountHistory.

(** ** The point of a transaction, as sums *)

Definition inputsOf (S : gset bytes) (ta : TxAddresses) : Z := sumZ ti_ValueSat (filter (fun i => ti_AddrDesc i ∈ S) (ta_Inputs ta)).
Definition outputsOf (S : gset bytes) (ta : TxAddresses) : Z := sumZ to_ValueSat (filter (fun o => to_AddrDesc o ∈ S) (ta_Outputs ta)).

(** The address of the first input that belongs to the account. *)
Definition firstPayer (S : gset bytes) (inputs : list TxInput) : option bytes := head (filter (.∈ S) (map ti_AddrDesc inputs)).

Lemma ownInputs_found a S i ins own c sent : 0 <= own < i ->
  ownInputs a S i ins own c sent = (c, sent + sumZ ti_ValueSat (filter (fun t => ti_AddrDesc t ∈ ({[a]} : gset bytes)) ins)).
Proof.
  revert i c sent. induction ins as [|t ins IH]; intros i c sent Hi; cbn [ownInputs]; [by rewrite filter_nil, Z.add_0_r|].
  assert (Ho : (if bool_decide (ti_AddrDesc t ∈ S) then if own <? 0 then i else own else own) = own) by (destruct (Z.ltb_spec own 0); [lia|]; by case_bool_decide).
  rewrite Ho, (proj2 (Z.eqb_neq own i)) by lia. clear Ho. rewrite filter_cons. case_bool_decide as Ha.
  - cbv beta iota. rewrite IH by lia. rewrite decide_True by set_solver. cbn [sumZ]. f_equal. lia.
  - cbv beta iota. rewrite IH by lia. rewrite decide_False by set_solver. done.
Qed.

Lemma ownInputs_spec a S i ins own sent : a ∈ S -> own < 0 -> 0 <= i ->
  ownInputs a S i ins own false sent
  = (bool_decide (firstPayer S ins = Some a), sent + sumZ ti_ValueSat (filter (fun t => ti_AddrDesc t ∈ ({[a]} : gset bytes)) ins)).
Proof.
  intros Ha Ho. revert i sent. induction ins as [|t ins IH]; intros i sent Hi; cbn [ownInputs]; [by rewrite filter_nil, Z.add_0_r|].
  unfold firstPayer. cbn [map]. rewrite !filter_cons, (proj2 (Z.ltb_lt own 0)) by done. destruct (decide (ti_AddrDesc t ∈ S)) as [Ht|Ht].
  - rewrite (bool_decide_eq_true_2 _ Ht). cbn [head]. rewrite Z.eqb_refl. destruct (decide (a = ti_AddrDesc t)) as [He|He].
    + rewrite (bool_decide_eq_true_2 _ He), (bool_decide_eq_true_2 (Some _ = _)), decide_True by (congruence || set_solver).
      rewrite ownInputs_found by lia. cbn [sumZ]. f_equal. lia.
    + rewrite (bool_decide_eq_false_2 _ He), (bool_decide_eq_false_2 (Some _ = _)), decide_False by (congruence || set_solver).
      by rewrite ownInputs_found by lia.
  - assert (He : a <> ti_AddrDesc t) by congruence. rewrite (bool_decide_eq_false_2 _ Ht), (bool_decide_eq_false_2 _ He), decide_False by set_solver.
    by apply IH; lia.
Qed.

Lemma ownOutputs_spec a S c outs r s :
  foldl (ownOutput a S c) (r, s) outs =
  (r + sumZ to_ValueSat (filter (fun o => to_AddrDesc o ∈ ({[a]} : gset bytes)) outs),
   s + if c then sumZ to_ValueSat (filter (fun o => to_AddrDesc o ∈ S) outs) else 0).
Proof.
  revert r s. induction outs as [|o outs IH]; intros r s; cbn [foldl]; [rewrite !filter_nil; f_equal; destruct c; cbn; lia|].
  unfold ownOutput at 2. cbn [fst snd]. rewrite IH, !filter_cons. f_equal.
  - case_bool_decide; [rewrite decide_True by set_solver; cbn [sumZ]; lia|by rewrite decide_False by set_solver].
  - destruct c; cbn [andb]; [|lia]. case_bool_decide; [rewrite decide_True by done; cbn [sumZ]; lia|by rewrite decide_False by done].
Qed.

(** The point of a transaction at one address of the account [S]. *)
Lemma point_spec a S ta time txid : a ∈ S ->
  processBitcoinTypeBalanceHistory a ta S (mkBH time 1 0 0 0 txid) =
  mkBH time 1 (outputsOf {[a]} ta) (inputsOf {[a]} ta) (if bool_decide (firstPayer S (ta_Inputs ta) = Some a) then outputsOf S ta else 0) txid.
Proof.
  intros Ha. unfold processBitcoinTypeBalanceHistory. cbn [bh_SentSat bh_ReceivedSat bh_SentToSelfSat bh_Time bh_Txs bh_Txid].
  rewrite ownInputs_spec by (done || lia). rewrite ownOutputs_spec. unfold inputsOf, outputsOf. by case_bool_decide.
Qed.

Lemma sumZ_map {A B} (h : A -> B) (f : B -> Z) l : sumZ f (map h l) = sumZ (fun x => f (h x)) l.
Proof. induction l as [|x l IH]; [done|]. cbn [map sumZ]. by rewrite IH. Qed.

Lemma sumZ_ext {A} (f g : A -> Z) l : (forall x, x ∈ l -> f x = g x) -> sumZ f l = sumZ g l.
Proof. induction l as [|x l IH]; intros H; [done|]. cbn [sumZ]. rewrite IH, H by set_solver. done. Qed.

Lemma sumZ_filter_union {A} (f : A -> Z) (key : A -> bytes) (a : bytes) (S : gset bytes) l : a ∉ S ->
  sumZ f (filter (fun x => key x ∈ ({[a]} : gset bytes)) l) + sumZ f (filter (fun x => key x ∈ S) l) = sumZ f (filter (fun x => key x ∈ {[a]} ∪ S) l).
Proof.
  intros Ha. induction l as [|x l IH]; [done|]. rewrite !filter_cons.
  repeat case_decide; cbn [sumZ]; try lia; set_solver.
Qed.

Lemma sumZ_singletons {A} (f : A -> Z) (key : A -> bytes) (addrs : list bytes) l : NoDup addrs ->
  sumZ (fun a => sumZ f (filter (fun x => key x ∈ ({[a]} : gset bytes)) l)) addrs = sumZ f (filter (fun x => key x ∈ (list_to_set addrs : gset bytes)) l).
Proof.
  induction 1 as [|a addrs Ha Hnd IH]; cbn [sumZ list_to_set].
  - induction l as [|x l IH]; [done|]. rewrite filter_cons, decide_False by set_solver. done.
  - rewrite IH. apply sumZ_filter_union. by rewrite elem_of_list_to_set.
Qed.

(** The points of a transaction at the addresses of an account. *)
Definition pointsAt (addrs : list bytes) (ta : TxAddresses) (time : Z) (txid : bytes) : list BalanceHistory :=
  map (fun a => processBitcoinTypeBalanceHistory a ta (list_to_set addrs) (mkBH time 1 0 0 0 txid)) addrs.

(** Does the account pay some input? *)
Definition pays (S : gset bytes) (ta : TxAddresses) : bool := existsb (fun i => bool_decide (ti_AddrDesc i ∈ S)) (ta_Inputs ta).

Lemma firstPayer_spec S ins : match firstPayer S ins with Some a => a ∈ S | None => True end
  /\ (existsb (fun i => bool_decide (ti_AddrDesc i ∈ S)) ins = bool_decide (is_Some (firstPayer S ins))).
Proof.
  unfold firstPayer. induction ins as [|t ins IH]; cbn [map existsb]; [by split|]. rewrite filter_cons.
  destruct (decide (ti_AddrDesc t ∈ S)) as [Ht|Ht]; cbn [head].
  - rewrite (bool_decide_eq_true_2 _ Ht). split; [done|]. cbn [orb]. by rewrite bool_decide_eq_true_2 by done.
  - by rewrite (bool_decide_eq_false_2 _ Ht).
Qed.

Lemma sumZ_at {A} `{EqDecision A} (c : Z) (b : option A) (l : list A) : NoDup l -> match b with Some a => a ∈ l | None => True end ->
  sumZ (fun a => if bool_decide (b = Some a) then c else 0) l = if bool_decide (is_Some b) then c else 0.
Proof.
  intros Hnd Hb. destruct b as [a|].
  - rewrite bool_decide_eq_true_2 by done. apply list_elem_of_split in Hb as (l1 & l2 & ->). rewrite sumZ_app. cbn [sumZ].
    apply NoDup_app in Hnd as (_ & Hn1 & [Hn2 _]%NoDup_cons). rewrite bool_decide_eq_true_2 by done.
    assert (H0 : forall l, a ∉ l -> sumZ (fun x => if bool_decide (Some a = Some x) then c else 0) l = 0).
    { intros l. induction l as [|x l IH]; intros Hx; [done|]. cbn [sumZ]. rewrite bool_decide_eq_false_2, IH by set_solver. done. }
    rewrite !H0; [lia|done|]. intros Ha. apply (Hn1 a Ha). set_solver.
  - rewrite bool_decide_eq_false_2 by (by intros []). clear. induction l as [|x l IH]; [done|]. cbn [sumZ]. rewrite IH. done.
Qed.

Lemma points_sum (addrs : list bytes) (ta : TxAddresses) time txid : NoDup addrs ->
  let S := list_to_set addrs in
  sumZ bh_ReceivedSat (pointsAt addrs ta time txid) = outputsOf S ta
  /\ sumZ bh_SentSat (pointsAt addrs ta time txid) = inputsOf S ta
  /\ sumZ bh_SentToSelfSat (pointsAt addrs ta time txid) = if pays S ta then outputsOf S ta else 0.
Proof.
  intros Hnd S.
  assert (He : forall f g, (forall a, a ∈ S -> f (processBitcoinTypeBalanceHistory a ta S (mkBH time 1 0 0 0 txid)) = g a) -> sumZ f (pointsAt addrs ta time txid) = sumZ g addrs).
  { intros f g Hfg. unfold pointsAt. rewrite sumZ_map. apply sumZ_ext. intros a Ha. apply Hfg. unfold S. by rewrite elem_of_list_to_set. }
  split_and!.
  - rewrite (He _ (fun a => outputsOf {[a]} ta)) by (intros a Ha; by rewrite point_spec). by apply sumZ_singletons.
  - rewrite (He _ (fun a => inputsOf {[a]} ta)) by (intros a Ha; by rewrite point_spec). by apply sumZ_singletons.
  - rewrite (He _ (fun a => if bool_decide (firstPayer S (ta_Inputs ta) = Some a) then outputsOf S ta else 0)) by (intros a Ha; by rewrite point_spec).
    destruct (firstPayer_spec S (ta_Inputs ta)) as [Hf Hp]. unfold pays. rewrite Hp. apply sumZ_at; [done|].
    destruct (firstPayer S (ta_Inputs ta)); [|done]. unfold S in Hf. by rewrite elem_of_list_to_set in Hf.
Qed.

(** The points of a transaction at the addresses of an account sum up to what the account receives in its
    outputs and pays in its inputs; what the transaction sends back to the account is counted once, at the
    address of the first input that the account pays, and not at all when it pays none. *)
Theorem self_counted_once (addrs : list bytes) (ta : TxAddresses) time txid : NoDup addrs ->
  let S := list_to_set addrs in
  sumZ bh_ReceivedSat (pointsAt addrs ta time txid) = outputsOf S ta
  /\ sumZ bh_SentSat (pointsAt addrs ta time txid) = inputsOf S ta
  /\ sumZ bh_SentToSelfSat (pointsAt addrs ta time txid) = if pays S ta then outputsOf S ta else 0.
Proof. apply points_sum. Qed.

(** ** Sums over a history *)

Lemma sumZ_plus {A} (f g : A -> Z) l : sumZ (fun x => f x + g x) l = sumZ f l + sumZ g l.
Proof. induction l as [|x l IH]; [done|]. cbn [sumZ]. rewrite IH. lia. Qed.

Lemma sumZ_zero {A} (l : list A) : sumZ (fun _ => 0) l = 0.
Proof. induction l as [|x l IH]; [done|]. exact IH. Qed.

Lemma sumZ_swap {A B} (f : A -> B -> Z) la lb : sumZ (fun a => sumZ (f a) lb) la = sumZ (fun b => sumZ (fun a => f a b) la) lb.
Proof. induction la as [|a la IH]; cbn [sumZ]; [by rewrite sumZ_zero|]. by rewrite IH, sumZ_plus. Qed.

Lemma sumZ_filter {A} (p : A -> Prop) `{!forall x, Decision (p x)} (f : A -> Z) l : sumZ f (filter p l) = sumZ (fun x => if decide (p x) then f x else 0) l.
Proof. induction l as [|x l IH]; [done|]. rewrite filter_cons. cbn [sumZ]. case_decide; cbn [sumZ]; by rewrite IH. Qed.

Lemma sumZ_omap {A B} (h : A -> option B) (f : B -> Z) l : sumZ f (omap h l) = sumZ (fun x => match h x with Some y => f y | None => 0 end) l.
Proof. induction l as [|x l IH]; [done|]. cbn [sumZ]. rewrite <- IH. cbn. by destruct (h x). Qed.

Lemma sumZ_concat {A} (f : A -> Z) ls : sumZ f (concat ls) = sumZ (sumZ f) ls.
Proof. induction ls as [|l ls IH]; [done|]. cbn [concat sumZ]. by rewrite sumZ_app, IH. Qed.

(** The points of the intervals sum up to the points. *)
Lemma sumZ_intervals g (f : BalanceHistory -> Z) pts : sumZ (fun t => sumZ f (members g pts t)) (intervals g pts) = sumZ f pts.
Proof.
  unfold members. rewrite (sumZ_ext _ (fun t => sumZ (fun b => if decide (align g (bh_Time b) = t) then f b else 0) pts)) by (intros; by rewrite sumZ_filter).
  rewrite sumZ_swap. apply sumZ_ext. intros b Hb.
  assert (Hin : align g (bh_Time b) ∈ intervals g pts).
  { unfold intervals. rewrite merge_sort_Permutation, elem_of_remove_dups. apply list_elem_of_fmap. by exists b. }
  assert (Hnd : NoDup (intervals g pts)) by (unfold intervals; rewrite merge_sort_Permutation; apply NoDup_remove_dups).
  rewrite (sumZ_ext _ (fun t => if bool_decide (Some (align g (bh_Time b)) = Some t) then f b else 0)); [|intros t _; case_decide; case_bool_decide; congruence].
  rewrite sumZ_at by done. by rewrite bool_decide_eq_true_2 by done.
Qed.

(** ** Histories are read completely or refused *)

Section AccountHistoryCorrect.
Context {V : Vlq} {VL : VlqLaws V} {P : ChainParser} {IX : IndexOpts} {K : KV} {KL : KVLaws K}.
Context (txVersion : bytes -> goerror + option Z) (mempoolTxVersion : bytes -> option Z).
Context (d : DB K) (m : BaseMempool) (ist : InternalState).

(** The index lists the transactions [l], the newest first, for the address [a] in a range of heights. *)
Definition indexes (a : bytes) (fromHeight toHeight : Z) (l : list bytes) : Prop :=
  a <> [] /\ exists txsAt hs, history_rows d a txsAt
    /\ zlen (List.filter (foreign a) (rangeRows d a fromHeight toHeight)) <= maxAddrDescScanNonMatching
    /\ StronglySorted Z.gt hs
    /\ (forall h, h ∈ hs <-> is_u32 h /\ fromHeight <= h <= toHeight /\ is_Some (kv_get (db_cf d cfAddresses) (packAddressKey a h)))
    /\ l = map (fun e => e.1.1) (historyOf txsAt hs).

Lemma sorted_gt_unique (l1 l2 : list Z) : StronglySorted Z.gt l1 -> StronglySorted Z.gt l2 -> (forall h, h ∈ l1 <-> h ∈ l2) -> l1 = l2.
Proof.
  assert (Hnd : forall l, StronglySorted Z.gt l -> NoDup l /\ StronglySorted Z.ge l).
  { induction 1 as [|x l Hs [IH1 IH2] Hf]; split; constructor; try done; [|eapply Forall_impl; [exact Hf|cbn; lia]].
    rewrite Forall_forall in Hf. intros Hx%Hf. lia. }
  intros [N1 S1]%Hnd [N2 S2]%Hnd Hin. apply (StronglySorted_unique_strong Z.ge); [intros x y _ _ ? ?; lia|done|done|]. by apply NoDup_Permutation.
Qed.

Lemma indexes_read a fromHeight toHeight l max : is_u32 fromHeight -> is_u32 toHeight -> fromHeight < toHeight -> 0 <= PackedTxidLen ->
  indexes a fromHeight toHeight l -> 0 < max ->
  getAddressTxids txVersion mempoolTxVersion d m a false (rangeFilter fromHeight toHeight) max = Ok (take (Z.to_nat max) l).
Proof.
  intros Hf Ht Hlt HP (Ha & txsAt & hs & Hrows & Hfor & Hs & Hin & ->) Hm.
  assert (Hto : (if toHeight =? 0 then maxUint32 else toHeight) = toHeight) by (unfold is_u32 in *; destruct (Z.eqb_spec toHeight 0); lia).
  destruct (getAddressTxids_confirmed txVersion mempoolTxVersion d m a (rangeFilter fromHeight toHeight) txsAt) as (hs' & Hs' & Hin' & Hr); cbn [rangeFilter af_FromHeight af_ToHeight] in *;
    rewrite ?Hto in *; try done.
  rewrite Hr by done. rewrite (sorted_gt_unique hs' hs); [done..|]. intros h. by rewrite Hin, Hin'.
Qed.

Context (fromHeight toHeight : Z) (full : bytes -> list bytes).

(** The addresses that are used, and what is loaded for them. *)
Definition usedOf (ads : list xpubAddress) : list bytes := omap (fun ad => if xa_balance ad then Some (xa_addrDesc ad) else None) ads.
Definition countOf (ads : list xpubAddress) : Z := sumZ (fun a => zlen (full a)) (usedOf ads).
Definition loadedOf (ads : list xpubAddress) : list (bytes * list bytes) := filter (fun e => e.2 <> []) (map (fun a => (a, full a)) (usedOf ads)).

Definition readable (a : bytes) : Prop := forall max, 0 < max ->
  getAddressTxids txVersion mempoolTxVersion d m a false (rangeFilter fromHeight toHeight) max = Ok (take (Z.to_nat max) (full a)).

Lemma usedOf_cons ad ads : usedOf (ad :: ads) = match xa_balance ad with Some _ => [xa_addrDesc ad] | None => [] end ++ usedOf ads.
Proof. unfold usedOf. cbn. by destruct (xa_balance ad). Qed.

Lemma countOf_nonneg ads : 0 <= countOf ads.
Proof. apply sumZ_nonneg, Forall_forall. intros. apply zlen_nonneg. Qed.

Lemma zlen_take_min {A} (l : list A) n : 0 <= n -> zlen (take (Z.to_nat n) l) = Z.min n (zlen l).
Proof. intros Hn. unfold zlen. rewrite length_take. lia. Qed.

Lemma load_all maxTxs remaining ads : Forall readable (usedOf ads) -> 0 < remaining ->
  (if 0 <? maxTxs then countOf ads < remaining else forall a, a ∈ usedOf ads -> zlen (full a) <= remaining) ->
  loadTxids txVersion mempoolTxVersion d m (rangeFilter fromHeight toHeight) maxTxs remaining ads = Ok (loadedOf ads).
Proof.
  revert remaining. induction ads as [|ad ads IH]; intros remaining Hr Hpos Hc; [done|]. cbn [loadTxids].
  unfold loadedOf, countOf in *. rewrite usedOf_cons in Hr, Hc |- *. destruct (xa_balance ad) as [b|] eqn:Hb; cbn [app] in *; [|by apply IH].
  apply Forall_cons in Hr as [Ha Hr]. cbn [map sumZ] in *. set (a := xa_addrDesc ad) in *. pose proof (zlen_nonneg (full a)). pose proof (countOf_nonneg ads) as Hn. unfold countOf in Hn.
  assert (Hle : zlen (full a) <= remaining) by (destruct (0 <? maxTxs); [lia|apply Hc; set_solver]).
  rewrite Ha by done. rewrite take_ge by (unfold zlen in Hle; lia). cbn [rbind]. rewrite filter_cons. cbn [snd].
  destruct (Z.eqb_spec (zlen (full a)) 0) as [He|He].
  - rewrite decide_False by (intros Hne; apply Hne; by apply zlen_0). apply IH; [done..|]. destruct (0 <? maxTxs); [lia|]. intros x Hx. apply Hc. set_solver.
  - rewrite decide_True by (intros Hne; rewrite Hne in He; by cbn in He). destruct (0 <? maxTxs) eqn:Hm; cbn [andb].
    + rewrite (proj2 (Z.leb_gt _ 0)) by lia. rewrite IH by (done || lia). done.
    + rewrite IH by (done || (intros x Hx; apply Hc; set_solver)). done.
Qed.

Lemma load_over maxTxs remaining ads : 0 < maxTxs -> Forall readable (usedOf ads) -> 0 < remaining <= countOf ads ->
  exists loaded, loadTxids txVersion mempoolTxVersion d m (rangeFilter fromHeight toHeight) maxTxs remaining ads = Ok loaded
    /\ remaining <= sumZ (fun e => zlen e.2) loaded.
Proof.
  intros Hm. revert remaining. induction ads as [|ad ads IH]; intros remaining Hr Hc; [unfold countOf in Hc; cbn in Hc; lia|]. cbn [loadTxids].
  unfold countOf in *. rewrite usedOf_cons in Hr, Hc. destruct (xa_balance ad) as [b|] eqn:Hb; cbn [app] in *; [|by apply IH].
  apply Forall_cons in Hr as [Ha Hr]. cbn [sumZ] in Hc. set (a := xa_addrDesc ad) in *. pose proof (zlen_nonneg (full a)).
  rewrite Ha by lia. cbn [rbind]. rewrite zlen_take_min by lia. rewrite (proj2 (Z.ltb_lt 0 maxTxs)) by done. cbn [andb].
  destruct (Z.eqb_spec (Z.min remaining (zlen (full a))) 0) as [He|He]; [apply IH; [done|lia]|].
  destruct (Z.leb_spec (remaining - Z.min remaining (zlen (full a))) 0) as [Hle|Hgt].
  - eexists. split; [done|]. cbn [sumZ snd]. rewrite zlen_take_min by lia. lia.
  - destruct (IH (remaining - Z.min remaining (zlen (full a)))) as (loaded & -> & Hl); [done|lia|]. cbn [rbind].
    eexists. split; [done|]. cbn [sumZ snd]. rewrite zlen_take_min by lia. lia.
Qed.

(** ** The points of an account *)

(* the transactions of the account in the range of heights, and their rows *)
Context (txs : list bytes) (row : bytes -> TxAddresses) (fromUnix toUnix : Z).

Definition timeOf (t : bytes) : Z := GetBlockTime (ta_Height (row t)) ist.
Definition inTime (t : bytes) : bool := (fromUnix <=? timeOf t) && (timeOf t <? toUnix).
Definition pointOf (S : gset bytes) (a t : bytes) : option BalanceHistory :=
  if inTime t then Some (processBitcoinTypeBalanceHistory a (row t) S (mkBH (timeOf t) 1 0 0 0 t)) else None.

Lemma pointsOf_spec S a l : (forall t, t ∈ l -> GetTxAddresses d t = Ok (Some (row t))) ->
  pointsOf d ist a fromUnix toUnix S l = Ok (omap (pointOf S a) l).
Proof.
  induction l as [|t l IH]; intros Hl; [done|]. cbn [pointsOf]. unfold balanceHistoryForTxid. rewrite Hl by set_solver. cbn [rbind]. fold (timeOf t).
  rewrite IH by set_solver. cbn. unfold pointOf, inTime. rewrite (Z.ltb_antisym fromUnix), (Z.leb_antisym (timeOf t) toUnix).
  by destruct (fromUnix <=? timeOf t), (timeOf t <? toUnix).
Qed.

Definition allPoints (S : gset bytes) (loaded : list (bytes * list bytes)) : list BalanceHistory :=
  concat (map (fun e => omap (pointOf S e.1) (rev e.2)) loaded).

Lemma accountPoints_spec S loaded : (forall e t, e ∈ loaded -> t ∈ e.2 -> GetTxAddresses d t = Ok (Some (row t))) ->
  accountPoints d ist fromUnix toUnix S loaded = Ok (allPoints S loaded).
Proof.
  induction loaded as [|e loaded IH]; intros Hl; [done|]. cbn [accountPoints]. rewrite pointsOf_spec.
  - rewrite IH by set_solver. done.
  - intros t Ht. apply (Hl e); [set_solver|]. apply list_elem_of_In. rewrite in_rev. by apply list_elem_of_In.
Qed.

(** The address occurs in the transaction. *)
Definition touches (a : bytes) (ta : TxAddresses) : Prop := a ∈ map ti_AddrDesc (ta_Inputs ta) ++ map to_AddrDesc (ta_Outputs ta).
#[global] Instance touches_dec a ta : Decision (touches a ta).
Proof. unfold touches. apply _. Defined.

(** The account: distinct addresses; the index lists for every used one the transactions that touch it
    and nothing touches the others; the rows of the transactions are readable, and their times are at
    least one interval after the epoch. *)
Record account_ok (groupBy : Z) (ads : list xpubAddress) : Prop := {
  ao_distinct : NoDup (map xa_addrDesc ads);
  ao_index ad : ad ∈ ads -> is_Some (xa_balance ad) -> indexes (xa_addrDesc ad) fromHeight toHeight (full (xa_addrDesc ad));
  ao_unused ad : ad ∈ ads -> xa_balance ad = None -> full (xa_addrDesc ad) = [];
  ao_lists ad : ad ∈ ads -> full (xa_addrDesc ad) ≡ₚ filter (fun t => touches (xa_addrDesc ad) (row t)) txs;
  ao_rows t : t ∈ txs -> GetTxAddresses d t = Ok (Some (row t)) /\ t <> [] /\ groupBy <= timeOf t;
  ao_count : countOf ads < 2 ^ 32;
}.

(** A point at an address that the transaction does not touch is empty. *)
Lemma untouched_point S a t time : a ∈ S -> ~ touches a (row t) -> processBitcoinTypeBalanceHistory a (row t) S (mkBH time 1 0 0 0 t) = mkBH time 1 0 0 0 t.
Proof.
  intros Ha Hn. rewrite point_spec by done. unfold touches in Hn. rewrite elem_of_app in Hn.
  assert (Hz : forall {A} (f : A -> Z) (key : A -> bytes) l, a ∉ map key l -> sumZ f (filter (fun x => key x ∈ ({[a]} : gset bytes)) l) = 0).
  { intros A f key l. induction l as [|x l IH]; [done|]. cbn [map]. intros [Hx Hl]%not_elem_of_cons. rewrite filter_cons, decide_False by set_solver. by apply IH. }
  unfold inputsOf, outputsOf at 1. rewrite !Hz by tauto. rewrite bool_decide_eq_false_2; [done|].
  unfold firstPayer. intros He. apply head_Some_elem_of in He. apply list_elem_of_filter in He as [_ He]. tauto.
Qed.

Lemma sum_points groupBy ads (f : BalanceHistory -> Z) : account_ok groupBy ads -> (forall time t, f (mkBH time 1 0 0 0 t) = 0) ->
  let S := list_to_set (map xa_addrDesc ads) in
  sumZ f (allPoints S (loadedOf ads)) = sumZ (fun t => sumZ f (pointsAt (map xa_addrDesc ads) (row t) (timeOf t) t)) (List.filter inTime txs).
Proof.
  intros Hok Hf S. set (g a t := match pointOf S a t with Some y => f y | None => 0 end).
  assert (H1 : sumZ f (allPoints S (loadedOf ads)) = sumZ (fun a => sumZ (g a) (full a)) (usedOf ads)).
  { unfold allPoints, loadedOf. rewrite sumZ_concat, sumZ_map, sumZ_filter, sumZ_map. apply sumZ_ext. intros a _. cbn [fst snd].
    case_decide as Hd; [rewrite sumZ_omap; apply sumZ_perm; symmetry; apply Permutation_rev|]. by rewrite Hd. }
  assert (H2 : sumZ (fun a => sumZ (g a) (full a)) (usedOf ads) = sumZ (fun a => sumZ (g a) txs) (map xa_addrDesc ads)).
  { unfold usedOf. rewrite sumZ_omap, sumZ_map. apply sumZ_ext. intros ad Had.
    assert (Hg : sumZ (g (xa_addrDesc ad)) txs = sumZ (g (xa_addrDesc ad)) (full (xa_addrDesc ad))).
    { rewrite (ao_lists _ _ Hok ad Had), sumZ_filter. apply sumZ_ext. intros t _. case_decide as Ht; [done|]. unfold g, pointOf. destruct (inTime t); [|done].
      rewrite untouched_point; [done| |done]. unfold S. apply elem_of_list_to_set, list_elem_of_fmap. by exists ad. }
    rewrite Hg. destruct (xa_balance ad) eqn:Hb; [done|]. by rewrite (ao_unused _ _ Hok ad Had Hb). }
  rewrite H1, H2, sumZ_swap. clear H1 H2 Hok. induction txs as [|t l IH]; [done|]. cbn [sumZ List.filter]. unfold g at 1, pointOf. destruct (inTime t); cbn [sumZ].
  - f_equal; [unfold pointsAt; by rewrite !sumZ_map|apply IH].
  - rewrite sumZ_zero. apply IH.
Qed.

Lemma elem_of_allPoints S loaded b : b ∈ allPoints S loaded ->
  exists e t, e ∈ loaded /\ t ∈ e.2 /\ bh_Txs b = 1 /\ bh_Txid b = t /\ bh_Time b = timeOf t.
Proof.
  unfold allPoints. rewrite list_elem_of_In, in_concat. intros (l & (e & <- & He)%in_map_iff & Hb). apply list_elem_of_In, list_elem_of_omap in Hb as (t & Ht & Hp).
  exists e, t. split; [by apply list_elem_of_In|]. split; [apply list_elem_of_In; rewrite in_rev; by apply list_elem_of_In|].
  unfold pointOf in Hp. destruct (inTime t); [|done]. injection Hp as <-. unfold processBitcoinTypeBalanceHistory.
  by destruct (ownInputs _ _ _ _ _ _ _), (foldl _ _ _).
Qed.

Lemma allPoints_length S ads : zlen (allPoints S (loadedOf ads)) <= countOf ads.
Proof.
  unfold allPoints, loadedOf, countOf. induction (usedOf ads) as [|a l IH]; [done|]. cbn [map sumZ]. rewrite filter_cons. pose proof (zlen_nonneg (full a)).
  case_decide; [|lia]. cbn [map concat fst snd]. rewrite zlen_app. enough (zlen (omap (pointOf S a) (rev (full a))) <= zlen (full a)) by lia.
  unfold zlen. rewrite <- (length_rev (full a)). clear. induction (rev (full a)) as [|t l IH]; [done|]. cbn. destruct (pointOf S a t); cbn [length]; lia.
Qed.

Lemma loaded_count ads : sumZ (fun e => zlen e.2) (loadedOf ads) = countOf ads.
Proof.
  unfold loadedOf, countOf. rewrite sumZ_filter, sumZ_map. apply sumZ_ext. intros a _. cbn [snd]. case_decide as Hd; [done|]. by rewrite Hd.
Qed.

(** A loaded transaction is one of the account. *)
Lemma loaded_txs groupBy ads e t : account_ok groupBy ads -> e ∈ loadedOf ads -> t ∈ e.2 -> t ∈ txs.
Proof.
  intros Hok He Ht. unfold loadedOf, usedOf in He. apply list_elem_of_filter in He as [_ (a & -> & (ad & Had & Ha)%list_elem_of_omap)%list_elem_of_fmap]. cbn [snd] in Ht.
  destruct (xa_balance ad); [|done]. injection Ha as <-. rewrite (ao_lists _ _ Hok ad Had) in Ht. by apply list_elem_of_filter in Ht as [_ ?].
Qed.

Lemma account_points_ok groupBy S ads : account_ok groupBy ads -> points_ok groupBy (allPoints S (loadedOf ads)).
Proof.
  intros Hok. split.
  - intros b (e & t & He & Ht & H1 & H2 & H3)%elem_of_allPoints. pose proof (loaded_txs _ _ _ _ Hok He Ht) as Htx.
    destruct (ao_rows _ _ Hok t Htx) as (_ & Hne & Htime). rewrite H2, H3. done.
  - intros b b' (e & t & _ & _ & _ & H2 & H3)%elem_of_allPoints (e' & t' & _ & _ & _ & H2' & H3')%elem_of_allPoints Heq. congruence.
  - pose proof (allPoints_length S ads). pose proof (ao_count _ _ Hok). lia.
Qed.

Lemma account_readable groupBy ads : is_u32 fromHeight -> is_u32 toHeight -> fromHeight < toHeight -> 0 <= PackedTxidLen -> account_ok groupBy ads -> Forall readable (usedOf ads).
Proof.
  intros Hf Ht Hlt HP Hok. apply Forall_forall. intros a (ad & Had & Ha)%list_elem_of_omap max Hm. destruct (xa_balance ad) as [b|] eqn:Hb; [|done]. injection Ha as <-.
  apply indexes_read; try done. apply (ao_index _ _ Hok ad Had). by rewrite Hb.
Qed.

(** The sums over a history. *)
Definition sums (f : BalanceHistory -> Z) (g : TxAddresses -> Z) (h : list BalanceHistory) : Prop :=
  sumZ f h = sumZ (fun t => g (row t)) (List.filter inTime txs).

Lemma account_aggregated (groupBy : Z) (ads : list xpubAddress) (S := list_to_set (map xa_addrDesc ads) : gset bytes) : 0 < groupBy -> account_ok groupBy ads ->
  exists h, SortAndAggregate groupBy (allPoints S (loadedOf ads)) = Ok h /\ StronglySorted Z.le (map bh_Time h)
    /\ sums bh_ReceivedSat (outputsOf S) h /\ sums bh_SentSat (inputsOf S) h
    /\ sums bh_SentToSelfSat (fun ta => if pays S ta then outputsOf S ta else 0) h.
Proof.
  intros Hg Hok. set (pts := allPoints S (loadedOf ads)). destruct (aggregated groupBy pts Hg (account_points_ok _ _ _ Hok)) as [-> _].
  exists (map (summary groupBy pts) (intervals groupBy pts)). split; [done|]. split.
  { rewrite map_map. cbn [summary bh_Time]. rewrite map_id. apply StronglySorted_merge_sort; apply _. }
  assert (Hsum : forall f : BalanceHistory -> Z, (forall time t, f (mkBH time 1 0 0 0 t) = 0) -> (forall t, f (summary groupBy pts t) = sumZ f (members groupBy pts t)) ->
    sumZ f (map (summary groupBy pts) (intervals groupBy pts)) = sumZ (fun t => sumZ f (pointsAt (map xa_addrDesc ads) (row t) (timeOf t) t)) (List.filter inTime txs)).
  { intros f Hf Hs. rewrite sumZ_map. rewrite (sumZ_ext _ (fun t => sumZ f (members groupBy pts t))) by (intros; apply Hs). rewrite sumZ_intervals. by apply (sum_points groupBy). }
  unfold sums. rewrite !Hsum by done.
  split_and!; apply sumZ_ext; intros t _; by apply points_sum, (ao_distinct _ _ Hok).
Qed.

Lemma height_is_u32 time : is_u32 (GetBlockHeightOfTime time ist).
Proof. unfold GetBlockHeightOfTime. case_match; [unfold MaxUint32, is_u32; lia|apply u32_range]. Qed.

Lemma heights_are_u32 fromTimestamp toTimestamp : balanceHistoryHeightsFromTo ist fromTimestamp toTimestamp = (fromUnix, fromHeight, toUnix, toHeight) ->
  is_u32 fromHeight /\ is_u32 toHeight.
Proof.
  unfold balanceHistoryHeightsFromTo. destruct (negb (fromTimestamp =? 0)), (negb (toTimestamp =? 0)); intros [= _ <- _ <-];
    (split; first [apply height_is_u32|unfold maxUint32, is_u32; lia]).
Qed.

End AccountHistoryCorrect.

(** The balance history of a single address and the history of an account that consists of this used
    address only are the same, errors and the cap included. *)
Theorem address_is_account {V : Vlq} {P : ChainParser} {IX : IndexOpts} {K : KV} txVersion mempoolTxVersion (d : DB K) m ist ad fromTimestamp toTimestamp groupBy maxTxs :
  is_Some (xa_balance ad) ->
  GetXpubBalanceHistory txVersion mempoolTxVersion d m ist [[ad]] fromTimestamp toTimestamp groupBy maxTxs
  = GetBalanceHistory txVersion mempoolTxVersion d m ist (xa_addrDesc ad) fromTimestamp toTimestamp groupBy maxTxs.
Proof.
  intros [b Hb]. unfold GetXpubBalanceHistory, GetBalanceHistory. destruct (balanceHistoryHeightsFromTo ist fromTimestamp toTimestamp) as [[[fu fh] tu] th].
  destruct (th <=? fh); [done|]. cbn [concat app map loadTxids]. rewrite Hb. destruct (getAddressTxids _ _ _ _ _ _ _ _) as [txids|e|]; cbn [rbind]; [|done|done].
  assert (HS : list_to_set [xa_addrDesc ad] = ({[xa_addrDesc ad]} : gset bytes)) by (cbn; by rewrite union_empty_r_L). rewrite HS.
  destruct (Z.eqb_spec (zlen txids) 0) as [Hz|Hz].
  - apply zlen_0 in Hz as ->. cbn [rbind sumZ accountPoints rev pointsOf]. change (zlen []) with 0. by destruct (0 <? maxTxs), (maxTxs <? 0).
  - set (loaded := if (0 <? maxTxs) && _ then _ else _). assert (loaded = Ok [(xa_addrDesc ad, txids)]) as -> by (unfold loaded; by case_match). cbn [rbind sumZ snd fst accountPoints].
    rewrite Z.add_0_r. case_match; [done|]. destruct (pointsOf _ _ _ _ _ _ _) as [bhs|e|]; cbn [rbind]; [|done|done]. by rewrite app_nil_r.
Qed.

(** ** An instance *)

Module AccountHistoryExample.
#[local] Existing Instance RefVlq.vlq.
#[local] Existing Instance RefVlq.vlq_laws.
#[local] Existing Instance MapKV.map_kv.
#[local] Existing Instance MapKV.map_kv_laws.
#[local] Instance opts : IndexOpts := { extendedIndex := false }.
#[local] Instance parser : ChainParser := base_parser (fun _ => Err ErrAddressMissing) (fun _ => true) 100 false.

(** An account with two used addresses and an unused one; a transaction pays from the first, to the
    second, to the first and to a stranger. *)
Definition addrA : bytes := [x76; x0a].
Definition addrB : bytes := [x76; x0b].
Definition addrC : bytes := [x76; x0c].
Definition tx : bytes := replicate 32 x11.
Definition txid : bytes := okOrEmpty (UnpackTxid tx).
Definition txRow : TxAddresses := mkTxAddresses 5 [mkTxInput addrA 1000 None [] 0]
  [mkTxOutput addrB false 600 None [] 0 0; mkTxOutput addrA false 300 None [] 0 0; mkTxOutput [x51] false 50 None [] 0 0] 0 [] 0.

Definition indexAt (_ : Z) : list txIndexes := [mkTxIndexes tx [0]].
Definition addressColumn : gmap bytes bytes := <[packAddressKey addrA 5 := packTxIndexes (indexAt 5)]> {[packAddressKey addrB 5 := packTxIndexes (indexAt 5)]}.
Definition database : DB MapKV.map_kv :=
  mkDB MapKV.map_kv (fun cf => if decide (cf = cfTxAddresses) then {[tx := packTxAddresses txRow]} else if decide (cf = cfAddresses) then addressColumn else ∅) (fun _ _ => false) false.
Definition internal : InternalState := SetBlockTimes [3600; 4200; 4800; 5400; 6000; 7300] InternalStateExample.s0.

Definition some_balance : AddrBalance := mkAddrBalance 1 0 0 [] ∅ ∅.
Definition account : list (list xpubAddress) :=
  [[mkXpubAddress addrA (Some some_balance) 0 0 false []; mkXpubAddress addrC None 0 0 false []]; [mkXpubAddress addrB (Some some_balance) 0 0 false []]].
Definition listed (a : bytes) : list bytes := if bool_decide (a = addrA \/ a = addrB) then [txid] else [].

Definition history (maxTxs : Z) : result (list BalanceHistory) :=
  GetXpubBalanceHistory (fun _ => inr None) (fun _ => None) database (mkMempool ∅ ∅) internal account 0 0 3600 maxTxs.

Example history_evaluated : history 0 = Ok [mkBH 7200 1 900 1000 900 []] /\ history 2 = history 0 /\ history 1 = Err errHistoryCap.
Proof. vm_compute. done. Qed.

Lemma key_inj a h a' h' : packAddressKey a h = packAddressKey a' h' -> a <> [] -> a' <> [] -> is_u32 h -> is_u32 h' -> a = a' /\ h = h'.
Proof. intros E Ha Ha' Hh Hh'. apply (f_equal unpackAddressKey) in E. rewrite !unpackAddressKey_pack in E by done. by injection E. Qed.

Lemma rows_at a h : a = addrA \/ a = addrB -> is_u32 h -> addressColumn !! packAddressKey a h = if h =? 5 then Some (packTxIndexes (indexAt 5)) else None.
Proof.
  intros Ha Hh. assert (Hne : a <> []) by (by destruct Ha as [->| ->]). unfold addressColumn. destruct (Z.eqb_spec h 5) as [->|H5].
  - destruct Ha as [->| ->]; [apply lookup_insert_eq|]. rewrite lookup_insert_ne; [apply lookup_singleton_eq|]. intros E. by destruct (key_inj _ _ _ _ E).
  - rewrite lookup_insert_ne; [apply lookup_singleton_ne|]; intros E; by destruct (key_inj _ _ _ _ E).
Qed.

Lemma index_get a h : a = addrA \/ a = addrB -> is_u32 h ->
  kv_get (db_cf database cfAddresses) (packAddressKey a h) = if h =? 5 then Some (packTxIndexes (indexAt 5)) else None.
Proof. intros Ha Hh. by apply rows_at. Qed.

Lemma index_rows a : a = addrA \/ a = addrB -> history_rows database a indexAt.
Proof.
  intros Ha h v Hh Hv. rewrite index_get in Hv by done. destruct (h =? 5); [|done]. injection Hv as <-. split; [done|].
  split; apply Forall_singleton; [|by eexists]. split; [done|]. split; [done|]. apply Forall_singleton. unfold index_ok. lia.
Qed.

Lemma indexed a : a = addrA \/ a = addrB -> indexes database a 0 maxUint32 [txid].
Proof.
  intros Ha. split; [by destruct Ha as [->| ->]|]. exists indexAt, [5]. split_and!.
  - by apply index_rows.
  - destruct Ha as [->| ->]; vm_compute; discriminate.
  - repeat constructor.
  - intros h. rewrite list_elem_of_singleton. split.
    + intros ->. split_and!; [done..|]. by rewrite index_get.
    + intros (Hh & _ & Hs). rewrite index_get in Hs by done. destruct (Z.eqb_spec h 5); [done|by destruct Hs].
  - vm_compute. reflexivity.
Qed.

Lemma account_addresses ad : ad ∈ concat account ->
  (xa_addrDesc ad = addrA \/ xa_addrDesc ad = addrB) /\ xa_balance ad = Some some_balance \/ xa_addrDesc ad = addrC /\ xa_balance ad = None.
Proof. cbn. rewrite !elem_of_cons, elem_of_nil. intros [->|[->|[->|[]]]]; cbn; auto. Qed.

Lemma account_complete : account_ok database internal 0 maxUint32 listed [txid] (fun _ => txRow) 3600 (concat account).
Proof.
  split.
  - vm_compute. repeat constructor; set_solver.
  - intros ad [[Ha _]|[_ Hb]]%account_addresses Hs; [|rewrite Hb in Hs; by destruct Hs]. unfold listed. rewrite bool_decide_eq_true_2 by done. by apply indexed.
  - intros ad [[_ Hs]|[Ha _]]%account_addresses Hb; [congruence|]. by rewrite Ha.
  - intros ad [[[Ha|Ha] _]|[Ha _]]%account_addresses; rewrite Ha; vm_compute; reflexivity.
  - intros t Ht%list_elem_of_singleton. subst t. split_and!; [vm_compute; reflexivity|discriminate|vm_compute; discriminate].
  - vm_compute. reflexivity.
Qed.


Lemma self_counted_once_witness : sumZ bh_SentToSelfSat (pointsAt [addrA; addrC; addrB] txRow 7300 txid) = 900.
Proof.
  destruct (self_counted_once [addrA; addrC; addrB] txRow 7300 txid) as (_ & _ & H); [vm_compute; repeat constructor; set_solver|]. exact H.
Defined.

Lemma address_is_account_witness :
  GetXpubBalanceHistory (fun _ => inr None) (fun _ => None) database (mkMempool ∅ ∅) internal [[mkXpubAddress addrA (Some some_balance) 0 0 false []]] 0 0 3600 1
  = GetBalanceHistory (fun _ => inr None) (fun _ => None) database (mkMempool ∅ ∅) internal addrA 0 0 3600 1.
Proof. apply (address_is_account (fun _ => inr None) (fun _ => None) database (mkMempool ∅ ∅) internal (mkXpubAddress addrA (Some some_balance) 0 0 false [])). by eexists. Defined.
End AccountHistoryExample.
