(* ===== verification/TtlValue.v ===== *)
(** A value that is fetched at most once in a while ([common/ttlvalue.go]).

    A call of [Get] has up to two critical sections with the fetch between them: the first one answers
    from what is known or marks the fetch as running, the end of the fetch records its outcome, and the last one
    reads the state. When a value is known already the fetch runs in the background. [tstep] is the
    relation of the critical sections of any number of concurrent calls; a fetch may return a value, an error
    or panic, and may take any time.

    [ttl_single_flight]: at most one fetch runs; the cache is blocked never longer than the fetch runs, also
    when it panics; the value is that of the last successful fetch, the error that of the last one if it
    failed, since the first failure of the run; and fetches are paced. *)

From S2P Require Import Prelude.

Local Open Scope Z_scope.

(** Times and durations in nanoseconds; the zero time is [None]. *)
Definition ttlFailureRetry : Z := 5 * 10 ^ 9.
Definition errFetchPanicked : goerror := ErrMsg "fetch panicked".

Section TTLValue.
Context {T : Type}.

(** [failure]: the time of the first failure of the run and the last error. *)
Record TTLValue := mkTTL {
  tv_ttl : Z;
  tv_value : option T;
  tv_fetchedAt : Z;
  tv_fetching : bool;
  tv_lastAttempt : option Z;
  tv_failure : option (Z * goerror);
}.

Definition NewTTLValue (ttl : Z) : TTLValue := mkTTL ttl None 0 false None None.

(** What [Get] answers: the value, how long fetches have been failing, and the last error. *)
Definition Answer : Type := option T * Z * option goerror.

Definition stateLocked (now : Z) (c : TTLValue) : Answer :=
  match tv_failure c with
  | Some (since, err) => (tv_value c, now - since, Some err)
  | None => (tv_value c, 0, None)
  end.

Definition fresh (now : Z) (c : TTLValue) : bool :=
  match tv_value c with Some _ => now - tv_fetchedAt c <? tv_ttl c | None => false end.

Definition retryAfter (c : TTLValue) : Z := match tv_failure c with Some _ => ttlFailureRetry | None => tv_ttl c end.

(** The first critical section of [Get]: the answer, or the state with the fetch marked as running and
    whether it runs in the background. *)
Definition getFirst (now : Z) (c : TTLValue) : Answer + TTLValue * bool :=
  if fresh now c then inl (tv_value c, 0, None)
  else if tv_fetching c || match tv_lastAttempt c with Some last => now - last <? retryAfter c | None => false end
  then inl (stateLocked now c)
  else inr (mkTTL (tv_ttl c) (tv_value c) (tv_fetchedAt c) true (Some now) (tv_failure c),
            match tv_value c with Some _ => true | None => false end).

(** How a fetch ends. *)
Inductive outcome := Fetched (v : T) | Failed (err : goerror) | Panicked.

(** The deferred part of [fetchAndStore]; a panic leaves the preset error. *)
Definition recordOutcome (now : Z) (o : outcome) (c : TTLValue) : TTLValue :=
  let failed err := mkTTL (tv_ttl c) (tv_value c) (tv_fetchedAt c) false (tv_lastAttempt c)
                      (Some (match tv_failure c with Some (since, _) => since | None => now end, err)) in
  match o with
  | Fetched v => mkTTL (tv_ttl c) (Some v) now false (tv_lastAttempt c) None
  | Failed err => failed err
  | Panicked => failed errFetchPanicked
  end.

(** A call that no other call runs beside; [o] is the outcome of its fetch if it makes one. A fetch in
    the background ends here after the call has read its answer, and its panic is recovered; the first
    fetch panics through. *)
Definition Get (now : Z) (o : outcome) (c : TTLValue) : result Answer * TTLValue :=
  match getFirst now c with
  | inl answer => (Ok answer, c)
  | inr (c, true) => (Ok (stateLocked now c), recordOutcome now o c)
  | inr (c, false) =>
      let c := recordOutcome now o c in
      (match o with Panicked => Panic | _ => Ok (stateLocked now c) end, c)
  end.

(** ** Concurrent calls *)

(** The state, the fetches that run (by the time of their call), the times of all fetches so far and the
    outcomes of the finished ones, the last one first. *)
Record Calls := mkCalls { cs_state : TTLValue; cs_running : list Z; cs_attempts : list Z; cs_finished : list (Z * outcome) }.

Inductive tstep : Calls -> Calls -> Prop :=
| ts_answer c r a f now answer :
    getFirst now c = inl answer -> tstep (mkCalls c r a f) (mkCalls c r a f)
| ts_start c c' warm r a f now :
    getFirst now c = inr (c', warm) -> tstep (mkCalls c r a f) (mkCalls c' (now :: r) (now :: a) f)
| ts_finish c r1 r2 a f now o :
    tstep (mkCalls c (r1 ++ now :: r2) a f) (mkCalls (recordOutcome now o c) (r1 ++ r2) a ((now, o) :: f)).

(** ** What the state says of the past *)

Definition errOf (o : outcome) : option goerror :=
  match o with Fetched _ => None | Failed err => Some err | Panicked => Some errFetchPanicked end.

Fixpoint lastFetched (f : list (Z * outcome)) : option (Z * T) :=
  match f with
  | [] => None
  | (now, Fetched v) :: _ => Some (now, v)
  | _ :: f => lastFetched f
  end.

(** The run of failures since the last success: when it began, and its last error. *)
Fixpoint failingSince (f : list (Z * outcome)) : option (Z * goerror) :=
  match f with
  | [] => None
  | (now, o) :: f =>
      match errOf o with
      | None => None
      | Some err => Some (match failingSince f with Some (since, _) => since | None => now end, err)
      end
  end.

(** Every fetch begins at least [d] after the one before it. *)
Fixpoint paced (d : Z) (attempts : list Z) : Prop :=
  match attempts with
  | now :: (last :: _) as rest => d <= now - last /\ paced d rest
  | _ => True
  end.

Record past (ttl : Z) (s : Calls) : Prop := {
  pa_ttl : tv_ttl (cs_state s) = ttl;
  pa_running : cs_running s = if tv_fetching (cs_state s) then match cs_attempts s with now :: _ => [now] | [] => [] end else [];
  pa_flag : tv_fetching (cs_state s) = true -> cs_running s <> [];
  pa_attempts : length (cs_attempts s) = (length (cs_finished s) + length (cs_running s))%nat;
  pa_last : tv_lastAttempt (cs_state s) = head (cs_attempts s);
  pa_value : tv_value (cs_state s) = snd <$> lastFetched (cs_finished s);
  pa_fetchedAt : match lastFetched (cs_finished s) with Some (now, _) => tv_fetchedAt (cs_state s) = now | None => True end;
  pa_failure : tv_failure (cs_state s) = failingSince (cs_finished s);
  pa_paced : paced (Z.min ttl ttlFailureRetry) (cs_attempts s);
}.

Lemma past_step ttl s s' : tstep s s' -> past ttl s -> past ttl s'.
Proof.
  intros [c r a f now answer H|c c' warm r a f now H|c r1 r2 a f now o] [H1 H2 H9 H3 H4 H5 H6 H7 H8]; cbn [cs_state cs_running cs_attempts cs_finished] in *.
  - by split.
  - unfold getFirst in H. destruct (fresh now c); [done|]. destruct (tv_fetching c) eqn:Hf; [done|]. cbn [orb] in H.
    destruct (match tv_lastAttempt c with Some last => now - last <? retryAfter c | None => false end) eqn:Hp; [done|]. injection H as <- <-.
    subst r. split; cbn; try done; [cbn in H3; lia|]. destruct a as [|last a]; [done|]. split; [|done]. rewrite H4 in Hp. cbn in Hp. apply Z.ltb_ge in Hp.
    unfold retryAfter in Hp. destruct (tv_failure c); lia.
  - assert (Hr : r1 = [] /\ r2 = [] /\ tv_fetching c = true /\ exists a', a = now :: a').
    { destruct (tv_fetching c); [|by destruct r1]. destruct a as [|x a]; [by destruct r1|]. destruct r1 as [|y r1]; [|by destruct r1]. injection H2 as -> ->. eauto. }
    destruct Hr as (-> & -> & Hf & a' & ->). cbn in H3. split; cbn; try done; destruct o as [v|err|]; cbn; try done; try lia; by rewrite H7.
Qed.

Lemma past_new ttl : past ttl (mkCalls (NewTTLValue ttl) [] [] []).
Proof. by split. Qed.

Lemma past_reached ttl s : rtc tstep (mkCalls (NewTTLValue ttl) [] [] []) s -> past ttl s.
Proof.
  intros H. assert (Hg : forall s0, rtc tstep s0 s -> past ttl s0 -> past ttl s) by (induction 1 as [|x y z Hxy _ IH]; [done|]; intros Hx; eapply IH, past_step; done).
  apply (Hg _ H), past_new.
Qed.

(** C29: whatever calls run concurrently and however long and with whatever outcome their fetches run: at most
    one fetch runs at a time, and the cache counts as fetching exactly as long as one runs, also after a
    panic; two fetches begin at least the shorter of the lifetime and the retry delay apart. Every call
    that does not fetch answers the value of the last successful fetch, and either that value is younger than
    its lifetime or the call reports the current run of failures: its last error and its duration; so
    does a call that has fetched or started a fetch. When nothing runs, a call after both delays does fetch. *)
Theorem ttl_single_flight ttl s : rtc tstep (mkCalls (NewTTLValue ttl) [] [] []) s ->
  (length (cs_running s) <= 1)%nat /\ (tv_fetching (cs_state s) = true <-> cs_running s <> [])
  /\ paced (Z.min ttl ttlFailureRetry) (cs_attempts s) /\ length (cs_attempts s) = (length (cs_finished s) + length (cs_running s))%nat
  /\ (forall now v failing err, getFirst now (cs_state s) = inl (v, failing, err) ->
        v = snd <$> lastFetched (cs_finished s)
        /\ ((exists at_ x, lastFetched (cs_finished s) = Some (at_, x) /\ now - at_ < ttl /\ failing = 0 /\ err = None)
            \/ match failingSince (cs_finished s) with
               | Some (since, e) => failing = now - since /\ err = Some e
               | None => failing = 0 /\ err = None
               end))
  /\ (forall now, stateLocked now (cs_state s) =
        match failingSince (cs_finished s) with
        | Some (since, e) => (snd <$> lastFetched (cs_finished s), now - since, Some e)
        | None => (snd <$> lastFetched (cs_finished s), 0, None)
        end)
  /\ (forall now, cs_running s = [] -> match cs_attempts s with last :: _ => Z.max ttl ttlFailureRetry <= now - last | [] => True end ->
        match lastFetched (cs_finished s) with Some (at_, _) => ttl <= now - at_ | None => True end ->
        exists c warm, getFirst now (cs_state s) = inr (c, warm)).
Proof.
  intros Hr. destruct (past_reached ttl s Hr) as [H1 H2 H9 H3 H4 H5 H6 H7 H8]. destruct s as [c r a f]. cbn [cs_state cs_running cs_attempts cs_finished] in *.
  assert (Hfresh : forall now, fresh now c = match lastFetched f with Some (at_, _) => now - at_ <? ttl | None => false end).
  { intros now. unfold fresh. rewrite H5, H1. destruct (lastFetched f) as [[at_ x]|]; cbn; [by rewrite H6|done]. }
  split_and!; [subst r; destruct (tv_fetching c), a; cbn; lia| |done|done| | |].
  - subst r. destruct (tv_fetching c) eqn:Hf; [|by split]. split; [|done]. intros _. by apply H9.
  - intros now v failing err. unfold getFirst. rewrite Hfresh. destruct (lastFetched f) as [[at_ x]|] eqn:El.
    + destruct (Z.ltb_spec (now - at_) ttl).
      * intros [= <- <- <-]. split; [by rewrite ?H5, ?El|]. left. by exists at_, x.
      * destruct (tv_fetching c || _); [|intros [=]]. unfold stateLocked. rewrite H7. destruct (failingSince f) as [[since e]|]; intros [= <- <- <-]; (split; [by rewrite ?H5, ?El|by right]).
    + destruct (tv_fetching c || _); [|intros [=]]. unfold stateLocked. rewrite H7. destruct (failingSince f) as [[since e]|]; intros [= <- <- <-]; (split; [by rewrite ?H5, ?El|by right]).
  - intros now. unfold stateLocked. rewrite H7, H5. by destruct (failingSince f) as [[]|].
  - intros now Hr0 Ha Hl. unfold getFirst. rewrite Hfresh.
    assert ((match lastFetched f with Some (at_, _) => now - at_ <? ttl | None => false end) = false) as -> by (destruct (lastFetched f) as [[]|]; [apply Z.ltb_ge; lia|done]).
    destruct (tv_fetching c) eqn:Hf; [by destruct (H9 eq_refl)|]. cbn [orb]. rewrite H4. destruct a as [|last a]; cbn [head]; [by eexists _, _|].
    rewrite (proj2 (Z.ltb_ge _ _)); [by eexists _, _|]. unfold retryAfter. rewrite H1. destruct (tv_failure c); lia.
Qed.
End TTLValue.

(** ** A run *)

Module TtlExample.
Definition sec (n : Z) : Z := n * 10 ^ 9.

(** The first fetch panics, the second succeeds while another call asks. *)
Definition run : list (Calls (T := Z)) :=
  let c0 := NewTTLValue (sec 60) in
  let c1 := mkTTL (sec 60) None 0 true (Some (sec 1)) None in
  let c2 := recordOutcome (sec 1) Panicked c1 in
  let c3 := mkTTL (sec 60) None 0 true (Some (sec 9)) (tv_failure c2) in
  let c4 := recordOutcome (sec 9) (Fetched 42) c3 in
  [mkCalls c0 [] [] []; mkCalls c1 [sec 1] [sec 1] []; mkCalls c2 [] [sec 1] [(sec 1, Panicked)];
   mkCalls c3 [sec 9] [sec 9; sec 1] [(sec 1, Panicked)]; mkCalls c4 [] [sec 9; sec 1] [(sec 9, Fetched 42); (sec 1, Panicked)]].

Definition final : Calls (T := Z) := default (mkCalls (NewTTLValue 0) [] [] []) (last run).

Lemma run_steps : rtc tstep (mkCalls (NewTTLValue (sec 60)) [] [] []) final.
Proof.
  eapply rtc_l; [by eapply (ts_start _ _ _ _ _ _ (sec 1))|]. eapply rtc_l; [by apply (ts_finish _ [] [] _ _ (sec 1) Panicked)|].
  eapply rtc_l; [by eapply (ts_start _ _ _ _ _ _ (sec 9))|]. eapply rtc_l; [by apply (ts_finish _ [] [] _ _ (sec 9) (Fetched 42))|]. done.
Qed.

Example answers : getFirst (sec 30) (cs_state final) = inl (Some 42, 0, None)
  /\ (Get (sec 70) (Failed errFetchPanicked) (cs_state final)).1 = Ok (Some 42, 0, None)
  /\ (Get (sec 1) Panicked (NewTTLValue (T := Z) (sec 60))).1 = Panic.
Proof. done. Qed.

Lemma ttl_single_flight_witness : (length (cs_running final) <= 1)%nat /\ paced (Z.min (sec 60) ttlFailureRetry) (cs_attempts final).
Proof.
  destruct (ttl_single_flight (sec 60) final run_steps) as (H1 & _ & H2 & _). split; [exact H1|exact H2].
Defined.
End TtlExample.
