(* ===== verification/XpubHistory.v ===== *)
(** The transactions of an address of an account ([api/xpub.go]: [xpubGetAddressTxids],
    [xpubCheckAndLoadTxids]). The account is cached with the transactions of its addresses; when an
    address has new transactions only those after the cached height are read.

    [pending_listed_once]: pending transactions are listed once with all their directions.
    [xpub_txids_incremental]: the cached transactions with the new ones are those that a full load reads. *)

From S2P Require Import Prelude Codec Parser TxAddr Balance IndexCodec Store Assets Scan Golomb Mempool GoSort InternalState Paging History BalanceHistory Xpub AccountHistory.

Local Open Scope Z_scope.

Definition txInput : Z := 1.
Definition txOutput : Z := 2.

Definition directionOf (index : Z) : Z := if index <? 0 then txInput else txOutput.

Definition inputOutputOf (indexes : list Z) : Z := foldl (fun io index => Z.lor io (directionOf index)) 0 indexes.

(** The callback of the scan over the collected transactions and whether they are complete; [maxResults]
    is positive. *)
Definition addTxid (maxResults : Z) (txid : bytes) (height : Z) (indexes : list Z) (s : list xpubTxid * bool) : list xpubTxid * bool * option goerror :=
  let '(txs, complete) := s in
  if (maxResults <=? zlen txs) && match last txs with Some t => negb (xt_height t =? height) | None => false end
  then (txs, false, Some ErrStop)
  else (txs ++ [mkXpubTxid txid height (inputOutputOf indexes)], complete, None).

(** The loop over the pending transactions of the address; [uniqueTxs] are the positions of those collected. *)
Definition addPending (maxResults : Z) (s : list xpubTxid * bool * gmap bytes nat) (m : Outpoint) : list xpubTxid * bool * gmap bytes nat :=
  let '(txs, complete, uniqueTxs) := s in
  match uniqueTxs !! out_Txid m with
  | None =>
      let l := length txs in
      let '(txs, complete, _) := addTxid maxResults (out_Txid m) 0 [out_Vout m] (txs, complete) in
      (txs, complete, if (l <? length txs)%nat then <[out_Txid m := l]> uniqueTxs else uniqueTxs)
  | Some l =>
      (alter (fun t => mkXpubTxid (xt_txid t) (xt_height t) (Z.lor (xt_inputOutput t) (directionOf (out_Vout m)))) l txs, complete, uniqueTxs)
  end.

Section XpubHistory.
Context {V : Vlq} {P : ChainParser} {K : KV}.

Definition xpubGetAddressTxids (d : DB K) (m : BaseMempool) (addrDesc : bytes) (mempool : bool) (fromHeight toHeight maxResults : Z) : result (list xpubTxid * bool) :=
  if mempool then Ok (foldl (addPending maxResults) ([], true, ∅) (BaseMempool.GetAddrDescTransactions m addrDesc)).1
  else
    let '(s, r) := Scan.GetAddrDescTransactions (addTxid maxResults) d addrDesc fromHeight toHeight ([], true) in
    let! _ := r in Ok s.

(** Whether the transactions have changed, and the address. *)
Definition xpubCheckAndLoadTxids (d : DB K) (m : BaseMempool) (ad : xpubAddress) (maxHeight : Z) : result (bool * xpubAddress) :=
  match xa_balance ad with
  | None => Ok (false, ad)
  | Some balance =>
      if xa_complete ad then
        if negb (ab_Txs balance =? xa_txs ad) then
          let! '(newTxids, _) := xpubGetAddressTxids d m (xa_addrDesc ad) false (u32 (xa_maxHeight ad + 1)) maxHeight maxInt in
          let txids := newTxids ++ xa_txids ad in
          Ok (true, mkXpubAddress (xa_addrDesc ad) (xa_balance ad) (u32 (zlen txids)) maxHeight (xa_complete ad) txids)
        else Ok (false, ad)
      else
        let! '(newTxids, complete) := xpubGetAddressTxids d m (xa_addrDesc ad) false 0 maxHeight maxInt in
        Ok (true, mkXpubAddress (xa_addrDesc ad) (xa_balance ad) (if (complete : bool) then u32 (zlen newTxids) else xa_txs ad) maxHeight complete newTxids)
  end.
End XpubHistory.

(** ** Pending transactions *)

Lemma uniqueFrom_snoc seen l x : uniqueFrom seen (l ++ [x]) = uniqueFrom seen l ++ (if bool_decide (x ∈ seen \/ x ∈ l) then [] else [x]).
Proof.
  revert seen. induction l as [|y l IH]; intros seen; cbn [uniqueFrom app].
  - case_bool_decide; case_bool_decide; set_solver.
  - case_bool_decide as Hy; rewrite IH; cbn [app]; repeat f_equal; repeat case_bool_decide; set_solver.
Qed.

Lemma elem_of_unique x l : x ∈ GetUniqueTxids l <-> x ∈ l.
Proof.
  unfold GetUniqueTxids. assert (H : forall seen, x ∈ uniqueFrom seen l <-> x ∉ seen /\ x ∈ l); [|rewrite H; set_solver].
  induction l as [|y l IH]; intros seen; cbn [uniqueFrom]; [set_solver|]. case_bool_decide as Hy.
  - rewrite IH, elem_of_cons. destruct (decide (x = y)) as [->|]; tauto.
  - rewrite elem_of_cons, IH, elem_of_cons, not_elem_of_union, not_elem_of_singleton. destruct (decide (x = y)) as [->|]; tauto.
Qed.

Lemma NoDup_unique l : NoDup (GetUniqueTxids l).
Proof.
  unfold GetUniqueTxids. induction l as [|x l IH] using rev_ind; [constructor|]. rewrite uniqueFrom_snoc. case_bool_decide as Hx; [by rewrite app_nil_r|].
  apply NoDup_app. split_and!; [done| |apply NoDup_singleton]. intros y Hy ->%list_elem_of_singleton. change (x ∈ GetUniqueTxids l) in Hy. rewrite elem_of_unique in Hy. apply Hx. by right.
Qed.

(** What the outpoints [o] say of the transaction [t]. *)
Definition pendingRecord (o : list Outpoint) (t : bytes) : xpubTxid :=
  mkXpubTxid t 0 (inputOutputOf (map out_Vout (filter (fun x => out_Txid x = t) o))).

Lemma pendingRecord_snoc o x t : pendingRecord (o ++ [x]) t =
  if decide (out_Txid x = t) then mkXpubTxid t 0 (Z.lor (xt_inputOutput (pendingRecord o t)) (directionOf (out_Vout x))) else pendingRecord o t.
Proof.
  unfold pendingRecord. rewrite filter_app, filter_cons, filter_nil. case_decide; [|by rewrite app_nil_r]. rewrite map_app. unfold inputOutputOf. by rewrite foldl_app.
Qed.

(** The state of the loop after the outpoints [o]. *)
Definition pendingState (o : list Outpoint) (s : list xpubTxid * bool * gmap bytes nat) : Prop :=
  let ids := GetUniqueTxids (map out_Txid o) in
  s.1 = (map (pendingRecord o) ids, true) /\ forall t l, s.2 !! t = Some l <-> ids !! l = Some t.

Lemma addPending_state o x s : zlen o < maxInt -> pendingState o s -> pendingState (o ++ [x]) (addPending maxInt s x).
Proof.
  destruct s as [[txs complete] unique]. intros Hl [[= -> ->] Hu]. cbn [snd] in Hu. 
  pose proof (uniqueFrom_snoc ∅ (map out_Txid o) (out_Txid x) : GetUniqueTxids (map out_Txid o ++ [out_Txid x]) = GetUniqueTxids (map out_Txid o) ++ _) as Hsnoc.
  unfold pendingState, addPending. cbv zeta. rewrite map_app. cbn [map]. rewrite Hsnoc. clear Hsnoc. set (ids := GetUniqueTxids (map out_Txid o)) in *. set (t := out_Txid x).
  assert (Hids : forall y, y ∈ ids <-> y ∈ map out_Txid o) by (intros; apply elem_of_unique). pose proof (NoDup_unique (map out_Txid o) : NoDup ids) as Hnd.
  destruct (unique !! t) as [l|] eqn:El.
  - assert (Hin : t ∈ map out_Txid o) by (apply Hids, list_elem_of_lookup; exists l; by apply Hu). rewrite bool_decide_eq_true_2 by (by right). rewrite app_nil_r. cbn [fst snd]. split; [|done].
    f_equal. apply list_eq. intros i. rewrite list_lookup_fmap. destruct (decide (i = l)) as [->|Hne].
    + rewrite list_lookup_alter, list_lookup_fmap. pose proof (proj1 (Hu t l) El) as He. rewrite He. cbn. f_equal. rewrite pendingRecord_snoc, !decide_True by done. done.
    + rewrite list_lookup_alter_ne by done. rewrite list_lookup_fmap. destruct (ids !! i) as [t'|] eqn:Ei; [|done]. cbn. f_equal. rewrite pendingRecord_snoc, decide_False; [done|].
      intros Ht. apply Hne. eapply NoDup_lookup; [exact Hnd|exact Ei|]. rewrite <- Ht. by apply Hu.
  - assert (Hn : t ∉ map out_Txid o).
    { intros Ht%Hids. apply list_elem_of_lookup in Ht as [l Ht]. apply Hu in Ht. congruence. }
    rewrite bool_decide_eq_false_2 by set_solver. unfold addTxid.
    assert (Hlen : zlen (map (pendingRecord o) ids) < maxInt).
    { unfold zlen in *. rewrite length_map. enough (length ids <= length o)%nat by lia. rewrite <- (length_map out_Txid o). apply submseteq_length, NoDup_submseteq; [done|]. intros y. by rewrite Hids. }
    rewrite (proj2 (Z.leb_gt _ _)) by done. cbn [andb]. rewrite length_app. cbn [length]. rewrite (proj2 (Nat.ltb_lt _ _)) by lia. cbn [fst snd]. split.
    + f_equal. rewrite map_app. cbn [map]. f_equal.
      * apply list_fmap_ext. intros i t' Hi. rewrite pendingRecord_snoc, decide_False; [done|]. intros <-. apply Hn, Hids. by eapply list_elem_of_lookup_2.
      * f_equal. rewrite pendingRecord_snoc, decide_True by done. unfold pendingRecord. cbn [xt_inputOutput]. unfold t in Hn.
        assert (Hf : filter (fun y => out_Txid y = t) o = []).
        { clear -Hn. fold t in Hn. induction o as [|y o IH]; [done|]. rewrite filter_cons, decide_False by set_solver. apply IH. set_solver. }
        fold t. rewrite Hf. done.
    + intros t' l'. rewrite length_map. destruct (decide (t = t')) as [<-|Hne].
      * rewrite lookup_insert_eq. split; [intros [= <-]; by rewrite lookup_app_r, Nat.sub_diag|]. intros Hl'. f_equal.
        destruct (decide (l' < length ids)%nat) as [Hlt|Hge]; [rewrite lookup_app_l in Hl' by done; exfalso; apply Hn, Hids; by eapply list_elem_of_lookup_2|].
        apply lookup_lt_Some in Hl'. rewrite length_app in Hl'. cbn in Hl'. lia.
      * rewrite lookup_insert_ne by done. rewrite Hu. split; [intros H; by apply lookup_app_l_Some|]. intros [H|[_ H]]%lookup_app_Some; [done|].
        apply list_lookup_singleton_Some in H as [_ H]. congruence.
Qed.

(** The pending transactions of an address are listed once each, in the order of their first outpoint, as
    inputs, outputs or both. *)
Theorem pending_listed_once {V : Vlq} {P : ChainParser} {K : KV} (d : DB K) m a fromHeight toHeight : let o := BaseMempool.GetAddrDescTransactions m a in
  zlen o <= maxInt -> xpubGetAddressTxids d m a true fromHeight toHeight maxInt = Ok (map (pendingRecord o) (GetUniqueTxids (map out_Txid o)), true).
Proof.
  intros o Hl. unfold xpubGetAddressTxids. fold o.
  assert (Hst : pendingState o (foldl (addPending maxInt) ([], true, ∅) o)).
  { induction o as [|x o IH] using rev_ind; [by split|]. rewrite zlen_app in Hl. change (zlen [x]) with 1 in Hl. rewrite foldl_snoc. apply addPending_state; [lia|]. apply IH. lia. }
  by destruct Hst as [-> _].
Qed.

Section Confirmed.
Context {V : Vlq} {VL : VlqLaws V} {P : ChainParser} {K : KV} {KL : KVLaws K}.
Context (d : DB K) (m : BaseMempool) (a : bytes) (txsAt : Z -> list txIndexes).

(** The transactions of the address in a range of heights, the newest first. *)
Definition recordOf (e : bytes * Z * list Z) : xpubTxid := mkXpubTxid e.1.1 e.1.2 (inputOutputOf e.2).

Definition lists (lower higher : Z) (l : list xpubTxid) : Prop :=
  exists hs, StronglySorted Z.gt hs
    /\ (forall h, h ∈ hs <-> is_u32 h /\ lower <= h <= higher /\ is_Some (kv_get (db_cf d cfAddresses) (packAddressKey a h)))
    /\ l = map recordOf (historyOf txsAt hs).

Lemma lists_unique lower higher l l' : lists lower higher l -> lists lower higher l' -> l = l'.
Proof.
  intros (hs & Hs & Hin & ->) (hs' & Hs' & Hin' & ->). rewrite (sorted_gt_unique hs hs'); [done..|]. intros h. by rewrite Hin, Hin'.
Qed.

(** A range is split at a height. *)
Lemma lists_app lower mid higher l1 l2 : lower <= mid + 1 -> mid <= higher -> lists (mid + 1) higher l1 -> lists lower mid l2 -> lists lower higher (l1 ++ l2).
Proof.
  intros Hl Hh (hs1 & Hs1 & Hin1 & ->) (hs2 & Hs2 & Hin2 & ->). exists (hs1 ++ hs2). split_and!.
  - apply StronglySorted_app. split_and!; [|done..]. intros x y Hx%Hin1 Hy%Hin2. lia.
  - intros h. rewrite elem_of_app, Hin1, Hin2. split; [intros [(? & ? & ?)|(? & ? & ?)]; split_and!; done || lia|].
    intros (Hu & Hr & Hk). destruct (Z.le_gt_cases h mid); [right|left]; split_and!; done || lia.
  - unfold historyOf. by rewrite map_app, concat_app, map_app.
Qed.

Lemma addTxid_events evs txs : zlen txs + zlen evs < maxInt ->
  runEvents (addTxid maxInt) evs (txs, true) = ((txs ++ map recordOf evs, true), Ok false).
Proof.
  revert txs. induction evs as [|[[t h] ixs] evs IH]; intros txs Hl; cbn [runEvents map]; [by rewrite app_nil_r|].
  rewrite zlen_cons in Hl. pose proof (zlen_nonneg evs). unfold callback, addTxid at 1. rewrite (proj2 (Z.leb_gt _ _)) by lia. cbn [andb andThen].
  rewrite IH by (rewrite zlen_app; change (zlen [_]) with 1; lia). by rewrite <- app_assoc.
Qed.

Context (Ha : a <> []) (HP : 0 <= PackedTxidLen) (Hrows : history_rows d a txsAt).

Lemma get_txids lower higher l : is_u32 lower -> is_u32 higher ->
  zlen (List.filter (foreign a) (rangeRows d a lower higher)) <= maxAddrDescScanNonMatching -> lists lower higher l -> zlen l < maxInt ->
  xpubGetAddressTxids d m a false lower higher maxInt = Ok (l, true).
Proof.
  intros Hl Hh Hn (hs & Hs & Hin & ->) Hlen. destruct (history_exists d a lower higher txsAt Ha Hl Hh Hrows) as (hs' & H1 & H2 & H3 & H4).
  assert (hs' = hs) as -> by (apply sorted_gt_unique; [done..|]; intros h; by rewrite H2, Hin).
  unfold xpubGetAddressTxids, Scan.GetAddrDescTransactions. rewrite seek_range by apply kv_list_sorted.
  rewrite (scanRows_history _ a txsAt _ _ hs Ha HP H4 H3 (rangeRows_stop d a lower higher)) by done.
  rewrite addTxid_events; [done|]. unfold zlen in *. rewrite length_map in Hlen. cbn. lia.
Qed.

(** The cached transactions are those of the index up to the cached height. *)
Record cached_ok (ad : xpubAddress) : Prop := {
  co_height : 0 <= xa_maxHeight ad < maxUint32;
  co_txids : lists 0 (xa_maxHeight ad) (xa_txids ad);
  co_txs : xa_txs ad = zlen (xa_txids ad);
}.

Lemma lists_exists lower higher : is_u32 lower -> is_u32 higher -> exists l, lists lower higher l.
Proof.
  intros Hl Hh. destruct (history_exists d a lower higher txsAt Ha Hl Hh Hrows) as (hs & H1 & H2 & _). by eexists _, hs.
Qed.

(** C15: the transactions of an address of a cached account, when the balance of the address counts the
    transactions of the index: after [xpubCheckAndLoadTxids] they are all those up to the given height,
    the newest first and each with its directions, whether they were read in full, only those after the
    cached height, or not at all because the counts agree; the address can be cached again, and what is
    reported as unchanged is. *)
Theorem xpub_txids_incremental ad b maxHeight full :
  xa_addrDesc ad = a -> xa_balance ad = Some b -> 0 <= maxHeight < maxUint32 ->
  (forall lower, zlen (List.filter (foreign a) (rangeRows d a lower maxHeight)) <= maxAddrDescScanNonMatching) ->
  lists 0 maxHeight full -> ab_Txs b = zlen full -> zlen full < 2 ^ 32 ->
  (xa_complete ad = true -> cached_ok ad /\ xa_maxHeight ad <= maxHeight) ->
  exists changed ad', xpubCheckAndLoadTxids d m ad maxHeight = Ok (changed, ad')
    /\ xa_txids ad' = full /\ xa_complete ad' = true /\ cached_ok ad' /\ xa_maxHeight ad' <= maxHeight
    /\ xa_addrDesc ad' = a /\ xa_balance ad' = Some b /\ (changed = false -> ad' = ad).
Proof.
  intros Had Hb Hm Hfor Hfull Hcount Hlen Hcached. unfold xpubCheckAndLoadTxids. rewrite Hb, Had.
  assert (Hmu : is_u32 maxHeight) by (unfold is_u32, maxUint32 in *; lia). assert (H0u : is_u32 0) by done. assert (Hmi : 2 ^ 32 < maxInt) by done.
  destruct (xa_complete ad) eqn:Hc.
  - destruct (Hcached eq_refl) as [[C1 C2 C3] Cm]. assert (Hnu : is_u32 (xa_maxHeight ad + 1)) by (unfold is_u32, maxUint32 in *; lia).
    destruct (lists_exists (xa_maxHeight ad + 1) maxHeight Hnu Hmu) as [new Hnew].
    assert (Hsplit : full = new ++ xa_txids ad) by (eapply lists_unique; [exact Hfull|]; apply (lists_app 0 (xa_maxHeight ad)); done || lia).
    rewrite Hcount, C3. destruct (Z.eqb_spec (zlen full) (zlen (xa_txids ad))) as [He|He]; cbn [negb].
    + rewrite Hsplit, zlen_app in He. assert (new = []) as -> by (apply zlen_0; lia). exists false, ad. split_and!; done.
    + rewrite (u32_id (xa_maxHeight ad + 1)) by done. rewrite Hsplit, zlen_app in Hlen. pose proof (zlen_nonneg (xa_txids ad)).
      rewrite (get_txids _ _ new) by (done || lia). cbn [rbind]. rewrite <- Hsplit. exists true. eexists. split; [done|]. cbn. split_and!; try done || lia.
      split; cbn; [lia|done|]. apply u32_id. rewrite Hsplit, zlen_app. pose proof (zlen_nonneg new). unfold is_u32. lia.
  - rewrite (get_txids 0 maxHeight full) by (done || lia). cbn [rbind]. exists true. eexists. split; [done|]. cbn. split_and!; try done || lia.
    split; cbn; [lia|done|]. apply u32_id. pose proof (zlen_nonneg full). unfold is_u32. lia.
Qed.
End Confirmed.

(** ** An instance *)

Module XpubHistoryExample.
Import AccountHistoryExample.
#[local] Existing Instance RefVlq.vlq.
#[local] Existing Instance RefVlq.vlq_laws.
#[local] Existing Instance MapKV.map_kv.
#[local] Existing Instance MapKV.map_kv_laws.
#[local] Existing Instance AccountHistoryExample.parser.

(** The address was cached at height 3, before its only transaction. *)
Definition cachedAddress : xpubAddress := mkXpubAddress addrA (Some some_balance) 0 3 true [].
Definition loadedTxids : list xpubTxid := [mkXpubTxid txid 5 txOutput].

Lemma listed_at lower higher : lists database addrA indexAt lower higher (if (lower <=? 5) && (5 <=? higher) then loadedTxids else []).
Proof.
  exists (if (lower <=? 5) && (5 <=? higher) then [5] else []). split_and!; [by case_match; repeat constructor| |by case_match].
  intros h. split.
  - destruct (Z.leb_spec lower 5), (Z.leb_spec 5 higher); cbn [andb]; try (by intros ?%elem_of_nil). intros ->%list_elem_of_singleton.
    split_and!; [done|done..|]. by rewrite index_get by (by left || done).
  - intros (Hh & Hr & Hs). rewrite index_get in Hs by (by left || done). destruct (Z.eqb_spec h 5) as [->|]; [|by destruct Hs].
    rewrite !(proj2 (Z.leb_le _ _)) by lia. by apply list_elem_of_singleton.
Qed.

Lemma few_rows lower : zlen (List.filter (foreign addrA) (rangeRows database addrA lower 9)) <= maxAddrDescScanNonMatching.
Proof.
  unfold rangeRows, zlen. etrans; [apply inj_le, List.filter_length_le|]. etrans; [apply inj_le, List.filter_length_le|]. vm_compute. discriminate.
Qed.

Example incremental_load : xpubCheckAndLoadTxids database (mkMempool ∅ ∅) cachedAddress 9 = Ok (true, mkXpubAddress addrA (Some some_balance) 1 9 true loadedTxids).
Proof. vm_compute. done. Qed.

Lemma xpub_txids_incremental_witness :
  exists changed ad', xpubCheckAndLoadTxids database (mkMempool ∅ ∅) cachedAddress 9 = Ok (changed, ad') /\ xa_txids ad' = loadedTxids.
Proof.
  destruct (xpub_txids_incremental database (mkMempool ∅ ∅) addrA indexAt ltac:(discriminate) ltac:(vm_compute; discriminate) (index_rows addrA (or_introl eq_refl))
    cachedAddress some_balance 9 loadedTxids) as (changed & ad' & H1 & H2 & _);
    [reflexivity|reflexivity|unfold maxUint32; lia|exact few_rows|exact (listed_at 0 9)|reflexivity|reflexivity| |exists changed, ad'; split; [exact H1|exact H2]].
  intros _. split; [split; [unfold maxUint32; cbn; lia|exact (listed_at 0 3)|reflexivity]|cbn; lia].
Defined.
End XpubHistoryExample.
