(* ===== verification/ClientIP.v ===== *)
(** The address of a client ([server/client_ip.go]): which headers of a request are trusted, and the keys under
    which clients are limited and blocked.

    Addresses and prefixes of the package [netip] are modelled as integers; their text form is the class
    [NetipText] with the laws that its documentation states: what is printed is read back.

    - [client_ip_not_spoofed]: a peer that is not a trusted proxy cannot choose the address it is limited
      under, and an address from a header is safe for the blocklist only when a trusted peer has sent it;
    - [limit_keys]: addresses share the key of the rate limiter exactly when they are the same IPv4 address or
      lie in the same /64, and the key of the blocklist exactly when they are the same;
    - [block_target_sound]: no address of a proxy, of an edge or of the local network is blocked, and none
      that the client can choose;
    - [trusted_proxies_narrow]: configured prefixes are masked and not wider than the limits. *)

From S2P Require Import Prelude Parser Amounts.

Local Open Scope Z_scope.

(** ** Addresses *)

Inductive Addr := V4 (ip : Z) | V6 (ip : Z) (zone : bytes).

#[export] Instance Addr_eq_dec : EqDecision Addr.
Proof. solve_decision. Defined.

Definition addr_ok (a : Addr) : Prop := match a with V4 ip => 0 <= ip < 2 ^ 32 | V6 ip _ => 0 <= ip < 2 ^ 128 end.

Definition Is4 (a : Addr) : bool := match a with V4 _ => true | V6 _ _ => false end.
Definition Is6 (a : Addr) : bool := negb (Is4 a).
Definition Is4In6 (a : Addr) : bool := match a with V4 _ => false | V6 ip _ => Z.shiftr ip 32 =? 0xffff end.

Definition Unmap (a : Addr) : Addr :=
  match a with V6 ip _ => if Is4In6 a then V4 (Z.land ip (2 ^ 32 - 1)) else a | V4 _ => a end.
Definition WithoutZone (a : Addr) : Addr := match a with V6 ip _ => V6 ip [] | V4 ip => V4 ip end.

Definition IsLoopback (a : Addr) : bool := match Unmap a with V4 ip => Z.shiftr ip 24 =? 127 | V6 ip _ => ip =? 1 end.
Definition IsPrivate (a : Addr) : bool :=
  match Unmap a with
  | V4 ip => (Z.shiftr ip 24 =? 10) || (Z.shiftr ip 20 =? 172 * 16 + 1) || (Z.shiftr ip 16 =? 192 * 256 + 168)
  | V6 ip _ => Z.land (Z.shiftr ip 120) 0xfe =? 0xfc
  end.
Definition IsLinkLocalUnicast (a : Addr) : bool :=
  match Unmap a with V4 ip => Z.shiftr ip 16 =? 169 * 256 + 254 | V6 ip _ => Z.land (Z.shiftr ip 112) 0xffc0 =? 0xfe80 end.
Definition IsUnspecified (a : Addr) : bool := match a with V4 ip => ip =? 0 | V6 ip zone => (ip =? 0) && bool_decide (zone = []) end.
Definition IsMulticast (a : Addr) : bool :=
  match Unmap a with V4 ip => Z.land (Z.shiftr ip 24) 0xf0 =? 0xe0 | V6 ip _ => Z.shiftr ip 120 =? 0xff end.

(** A prefix: its address and its number of bits. *)
Record Prefix := mkPrefix { px_Addr : Addr; px_Bits : Z }.

Definition width (a : Addr) : Z := if Is4 a then 32 else 128.
Definition maskBits (w bits : Z) : Z := 2 ^ w - 2 ^ (w - bits).

(** The address with its lower bits cleared, without its zone. *)
Definition Masked (p : Prefix) : Prefix :=
  mkPrefix (match px_Addr p with
            | V4 ip => V4 (Z.land ip (maskBits 32 (px_Bits p)))
            | V6 ip _ => V6 (Z.land ip (maskBits 128 (px_Bits p))) []
            end) (px_Bits p).

Definition Contains (p : Prefix) (a : Addr) : bool :=
  match px_Addr p, a with
  | V4 x, V4 y => Z.shiftr (Z.lxor x y) (32 - px_Bits p) =? 0
  | V6 x _, V6 y [] => Z.land (Z.lxor x y) (maskBits 128 (px_Bits p)) =? 0
  | _, _ => false
  end.

(** ** Text *)

(** [SplitHostPort]: the host, when there is a port. *)
Class NetipText := {
  ParseAddr : bytes -> option Addr;
  AddrString : Addr -> bytes;
  ParsePrefix : bytes -> option Prefix;
  PrefixString : Prefix -> bytes;
  SplitHostPort : bytes -> option bytes;
}.

Definition zoneFree (a : Addr) : Prop := match a with V6 _ zone => zone = [] | V4 _ => True end.

Definition prefix_ok (p : Prefix) : Prop :=
  addr_ok (px_Addr p) /\ 0 <= px_Bits p <= width (px_Addr p) /\ zoneFree (px_Addr p).

(** What is printed has no blanks and is read back; what is read is well-formed. *)
Class NetipTextLaws (N : NetipText) : Prop := {
  parse_string a : addr_ok a -> zoneFree a -> ParseAddr (AddrString a) = Some a;
  string_trimmed a : addr_ok a -> zoneFree a -> TrimSpace (AddrString a) = AddrString a;
  parse_empty : ParseAddr [] = None;
  parse_ok s a : ParseAddr s = Some a -> addr_ok a;
  parsePrefix_string p : prefix_ok p -> ParsePrefix (PrefixString p) = Some p;
  parsePrefix_ok s p : ParsePrefix s = Some p -> prefix_ok p;
  (* a prefix is not an address: it has a slash *)
  parse_prefix p : prefix_ok p -> ParseAddr (PrefixString p) = None;
}.

Section ClientIP.
Context {N : NetipText}.

Definition parseAddr (value : bytes) : option Addr :=
  let value := TrimSpace value in
  if bool_decide (value = []) then None
  else match ParseAddr value with
       | None => None
       | Some addr => Some (WithoutZone (Unmap addr))
       end.

Definition parseIP (value : bytes) : option bytes := AddrString <$> parseAddr value.

(** ** Trust *)

Definition inAny (prefixes : list Prefix) (addr : Addr) : bool := existsb (fun p => Contains p addr) prefixes.

Definition isWhitelistedIP (addr : Addr) (prefixes : list Prefix) : bool := inAny prefixes addr.

Definition isTrustedProxy (addr : Addr) (extras : list Prefix) : bool :=
  if IsLoopback addr || IsPrivate addr then true else inAny extras addr.

(** The parts of a request that are read; a missing header is empty. *)
Record Request := mkRequest { RemoteAddr : bytes; CFConnectingIP : bytes; CFConnectingIPv6 : bytes; XRealIp : bytes }.

Definition peerOf (r : Request) : option Addr :=
  parseAddr (match SplitHostPort (RemoteAddr r) with Some h => h | None => RemoteAddr r end).

Definition trustsPeer (remote : option Addr) (extras : list Prefix) : bool :=
  match remote with Some remote => isTrustedProxy remote extras | None => false end.

(** The address, whether it is safe for a blocklist and whether it comes from a header. *)
Definition resolveClientIP (r : Request) (trustedProxies cloudflareProxies : list Prefix) (trustPseudoIPv6 : bool) : bytes * bool * bool :=
  let remote := peerOf r in
  let fromCloudflare :=
    match trustedProxies with
    | [] =>
        let cfTrusted := match cloudflareProxies with [] => true | _ => trustsPeer remote cloudflareProxies end in
        if cfTrusted then
          let cfBlockSafe := match cloudflareProxies with [] => false | _ => true end in
          match (if trustPseudoIPv6 then parseIP (CFConnectingIPv6 r) else None) with
          | Some ip => Some (ip, cfBlockSafe, true)
          | None =>
              match parseIP (CFConnectingIP r) with
              | Some ip => Some (ip, cfBlockSafe, true)
              | None => None
              end
          end
        else None
    | _ => None
    end in
  match fromCloudflare with
  | Some answer => answer
  | None =>
      match (if trustsPeer remote trustedProxies then parseIP (XRealIp r) else None) with
      | Some ip => (ip, true, true)
      | None =>
          let hadCFHeader := negb (bool_decide (CFConnectingIP r = [])) || negb (bool_decide (CFConnectingIPv6 r = [])) in
          match remote with
          | Some remote => (AddrString remote, negb hadCFHeader, false)
          | None => (TrimSpace (RemoteAddr r), negb hadCFHeader, false)
          end
      end
  end.

Definition isLocalOrTrustedProxyIP (ip : bytes) (trustedProxies : list Prefix) : bool :=
  match parseAddr ip with Some addr => isTrustedProxy addr trustedProxies | None => false end.

Definition isBlockableKey (ip : bytes) (trustedProxies cloudflareProxies : list Prefix) : bool :=
  match parseAddr ip with
  | None => false
  | Some addr =>
      if IsLoopback addr || IsPrivate addr || IsLinkLocalUnicast addr || IsUnspecified addr || IsMulticast addr then false
      else if inAny trustedProxies addr then false
      else negb (inAny cloudflareProxies addr)
  end.

(** ** Keys *)

Definition rateLimitKey (ip : bytes) : bytes :=
  match ParseAddr (TrimSpace ip) with
  | None => ip
  | Some addr =>
      let addr := WithoutZone (Unmap addr) in
      if Is6 addr then PrefixString (Masked (mkPrefix addr 64)) else AddrString addr
  end.

Definition blockKey (ip : bytes) : bytes :=
  match ParseAddr (TrimSpace ip) with
  | None => ip
  | Some addr => AddrString (WithoutZone (Unmap addr))
  end.

(** What the websocket server reads from its settings. *)
Record WsSettings := mkWsSettings {
  trustedProxyPrefixes : list Prefix; cloudflarePrefixes : list Prefix; trustPseudoIPv6 : bool;
  whitelistPrefixes : list Prefix; ipBlockEnabled : bool }.

(** What a new connection is known by: the key of the limiter, the key of the blocklist and whether that may be blocked. *)
Record ConnKeys := mkConnKeys { ck_ip : bytes; ck_whitelisted : bool; ck_ipKey : bytes; ck_blockKey : bytes; ck_blockable : bool }.

Definition connKeys (s : WsSettings) (r : Request) : ConnKeys :=
  let '(ip, blockSafe, _) := resolveClientIP r (trustedProxyPrefixes s) (cloudflarePrefixes s) (trustPseudoIPv6 s) in
  let whitelisted := match parseAddr ip with Some addr => isWhitelistedIP addr (whitelistPrefixes s) | None => false end in
  let blocks := ipBlockEnabled s && negb whitelisted in
  mkConnKeys ip whitelisted (rateLimitKey ip)
    (if blocks then blockKey ip else [])
    (blocks && (blockSafe && isBlockableKey ip (trustedProxyPrefixes s) (cloudflarePrefixes s))).

(** ** Configuration *)

(** [strings.Split] at a character. *)
Fixpoint split (sep : byte) (s : bytes) : list bytes :=
  match s with
  | [] => [[]]
  | c :: s =>
      if bool_decide (c = sep) then [] :: split sep s
      else match split sep s with w :: ws => (c :: w) :: ws | [] => [[c]] end
  end.

(** [line] up to a comment. *)
Fixpoint uncomment (line : bytes) : bytes :=
  match line with
  | [] => []
  | c :: line => if bool_decide (c = x23) then [] else c :: uncomment line
  end.

Definition splitCIDRList (content : bytes) : list bytes := split x0a content ≫= (fun line => split x2c (uncomment line)).

Definition errCIDR (m : string) : goerror := ErrMsg m.

Fixpoint parseCIDRList (raws : list bytes) : result (list Prefix) :=
  match raws with
  | [] => Ok []
  | raw :: raws =>
      let raw := TrimSpace raw in
      if bool_decide (raw = []) then parseCIDRList raws
      else match ParsePrefix raw with
           | None => Err (errCIDR "invalid CIDR")
           | Some p =>
               if Is4In6 (px_Addr p) then Err (errCIDR "refusing IPv4-mapped CIDR; use IPv4 CIDR notation")
               else let! rest := parseCIDRList raws in Ok (Masked p :: rest)
           end
  end.

Definition minIPv4Bits : Z := 8.
Definition minIPv6Bits : Z := 16.

Definition tooBroad (p : Prefix) : bool :=
  (Is4 (px_Addr p) && (px_Bits p <? minIPv4Bits)) || (Is6 (px_Addr p) && (px_Bits p <? minIPv6Bits)).

Definition parseTrustedProxies (value : bytes) : result (list Prefix) :=
  let! prefixes := parseCIDRList (split x2c value) in
  if existsb tooBroad prefixes then Err (errCIDR "refusing CIDR: prefix is too broad") else Ok prefixes.

Definition parseCIDRSource (content : bytes) : result (list Prefix) :=
  let! prefixes := parseCIDRList (splitCIDRList content) in
  match prefixes with [] => Err (errCIDR "no CIDRs") | _ => Ok prefixes end.

Definition lowerByte (c : byte) : byte := if (65 <=? b2z c) && (b2z c <=? 90) then z2b (b2z c + 32) else c.

Definition spelled (words : list string) (s : bytes) : bool :=
  existsb (fun w => bool_decide (s = Stdlib.Strings.String.list_byte_of_string w)) words.

(** The file of the build and the reading of files are arguments; letters are those of ASCII. *)
Definition parseCloudflareProxies (embedded : bytes) (readFile : bytes -> option bytes) (value : bytes) : result (list Prefix) :=
  let trimmed := TrimSpace value in
  let lower := map lowerByte trimmed in
  if spelled [""; "builtin"; "default"] lower then parseCIDRSource embedded
  else if spelled ["off"; "none"; "false"; "0"; "disabled"] lower then Ok []
  else match trimmed with
       | x40 :: path =>
           match readFile (TrimSpace path) with
           | None => Err (errCIDR "cannot read CIDR file")
           | Some content => parseCIDRSource content
           end
       | _ => parseCIDRSource trimmed
       end.
End ClientIP.

(** ** Theorems *)

Section ClientIPCorrect.
Context {N : NetipText} {NL : NetipTextLaws N}.

(** What [parseAddr] makes of an address. *)
Definition plain (a : Addr) : Addr := WithoutZone (Unmap a).

Lemma land_low x n : 0 <= n -> 0 <= x -> 0 <= Z.land x (2 ^ n - 1) < 2 ^ n.
Proof. intros Hn Hx. change (2 ^ n - 1) with (Z.pred (2 ^ n)). rewrite <- Z.ones_equiv, Z.land_ones by done. apply Z.mod_pos_bound, Z.pow_pos_nonneg; lia. Qed.

Lemma plain_ok a : addr_ok a -> addr_ok (plain a).
Proof.
  destruct a as [ip|ip zone]; cbn; [done|]. intros H. unfold plain, Unmap. destruct (Is4In6 (V6 ip zone)); cbn; [|done]. apply land_low; lia.
Qed.

Lemma plain_not_mapped a : addr_ok a -> plain (plain a) = plain a.
Proof.
  intros Ha. destruct a as [ip|ip zone]; [done|]. unfold plain, Unmap. destruct (Is4In6 (V6 ip zone)) eqn:E; [done|]. cbn [WithoutZone]. cbn [Is4In6] in *. by rewrite E.
Qed.

Lemma plain_zoneFree a : zoneFree (plain a).
Proof. unfold plain. by destruct (Unmap a). Qed.

Lemma parseAddr_ok s a : parseAddr s = Some a -> addr_ok a /\ plain a = a.
Proof.
  unfold parseAddr. case_bool_decide; [done|]. destruct (ParseAddr (TrimSpace s)) as [b|] eqn:E; [|done]. intros [= <-]. apply parse_ok in E.
  split; [by apply plain_ok|by apply plain_not_mapped].
Qed.

(** A printed address is read as the address it stands for. *)
Lemma parse_trimmed a : addr_ok a -> zoneFree a -> ParseAddr (TrimSpace (AddrString a)) = Some a.
Proof. intros Ha Hz. rewrite string_trimmed by done. by apply parse_string. Qed.

Lemma parseAddr_string a : addr_ok a -> zoneFree a -> parseAddr (AddrString a) = Some (plain a).
Proof.
  intros Ha Hz. unfold parseAddr. rewrite parse_trimmed by done. rewrite bool_decide_eq_false_2; [done|].
  intros He. pose proof (parse_trimmed a Ha Hz) as Hp. by rewrite He, parse_empty in Hp.
Qed.

Lemma AddrString_inj a b : addr_ok a -> zoneFree a -> addr_ok b -> zoneFree b -> AddrString a = AddrString b -> a = b.
Proof. intros Ha Za Hb Zb E. pose proof (parse_string a Ha Za) as H. rewrite E, parse_string in H by done. by injection H. Qed.

(** Masks *)

Lemma land_mask w bits z : 0 <= bits <= w -> 0 <= z < 2 ^ w -> Z.land z (maskBits w bits) = Z.shiftl (Z.shiftr z (w - bits)) (w - bits).
Proof.
  intros Hb Hz. unfold maskBits. replace (2 ^ w - 2 ^ (w - bits)) with (Z.shiftl (Z.ones bits) (w - bits)).
  2:{ rewrite Z.shiftl_mul_pow2, Z.ones_equiv by lia. unfold Z.pred. rewrite Z.mul_add_distr_r, <- Z.pow_add_r by lia. replace (bits + (w - bits)) with w by lia. lia. }
  apply Z.bits_inj'. intros n Hn. rewrite Z.land_spec, !Z.shiftl_spec by lia. destruct (Z.lt_ge_cases n (w - bits)).
  - rewrite (Z.testbit_neg_r (Z.ones bits)), (Z.testbit_neg_r (Z.shiftr z (w - bits))) by lia. by rewrite andb_false_r.
  - rewrite Z.shiftr_spec by lia. replace (n - (w - bits) + (w - bits)) with n by lia. destruct (Z.lt_ge_cases n w).
    + rewrite Z.ones_spec_low by lia. by rewrite andb_true_r.
    + rewrite Z.ones_spec_high by lia. rewrite andb_false_r. symmetry. destruct (Z.eq_dec z 0) as [->|]; [apply Z.bits_0|].
      apply Z.bits_above_log2; [lia|]. apply Z.log2_lt_pow2; [lia|]. apply Z.lt_le_trans with (2 ^ w); [lia|]. apply Z.pow_le_mono_r; lia.
Qed.

Lemma shiftl_inj x y k : 0 <= k -> Z.shiftl x k = Z.shiftl y k -> x = y.
Proof. intros Hk E. apply (f_equal (fun z => Z.shiftr z k)) in E. by rewrite !Z.shiftr_shiftl_l, !Z.sub_diag, !Z.shiftl_0_r in E by lia. Qed.

Lemma same_top w bits x y : 0 <= bits <= w -> 0 <= x < 2 ^ w -> 0 <= y < 2 ^ w ->
  Z.land x (maskBits w bits) = Z.land y (maskBits w bits) <-> Z.shiftr x (w - bits) = Z.shiftr y (w - bits).
Proof. intros Hb Hx Hy. rewrite !land_mask by done. split; [apply shiftl_inj; lia|by intros ->]. Qed.

Definition peerText (r : Request) : bytes := match peerOf r with Some remote => AddrString remote | None => TrimSpace (RemoteAddr r) end.
Definition cfHeader (r : Request) : bool := negb (bool_decide (CFConnectingIP r = [])) || negb (bool_decide (CFConnectingIPv6 r = [])).

Lemma parseIP_Some v ip : parseIP v = Some ip -> exists a, parseAddr v = Some a /\ ip = AddrString a.
Proof. unfold parseIP. destruct (parseAddr v) as [a|]; [|done]. intros [= <-]. by exists a. Qed.

(** The three ways to an address. *)
Inductive resolved (r : Request) (trustedProxies cloudflareProxies : list Prefix) (pseudo : bool) : bytes * bool * bool -> Prop :=
| by_edge a :
    trustedProxies = [] -> cloudflareProxies = [] \/ trustsPeer (peerOf r) cloudflareProxies = true ->
    parseAddr (CFConnectingIP r) = Some a \/ pseudo = true /\ parseAddr (CFConnectingIPv6 r) = Some a ->
    resolved r trustedProxies cloudflareProxies pseudo (AddrString a, match cloudflareProxies with [] => false | _ => true end, true)
| by_proxy a :
    trustsPeer (peerOf r) trustedProxies = true -> parseAddr (XRealIp r) = Some a ->
    resolved r trustedProxies cloudflareProxies pseudo (AddrString a, true, true)
| by_peer : resolved r trustedProxies cloudflareProxies pseudo (peerText r, negb (cfHeader r), false).

Lemma resolveClientIP_spec r trustedProxies cloudflareProxies pseudo :
  resolved r trustedProxies cloudflareProxies pseudo (resolveClientIP r trustedProxies cloudflareProxies pseudo).
Proof.
  unfold resolveClientIP.
  assert (Hrest : forall t, resolved r t cloudflareProxies pseudo
    (match (if trustsPeer (peerOf r) t then parseIP (XRealIp r) else None) with
     | Some ip => (ip, true, true)
     | None => match peerOf r with Some remote => (AddrString remote, negb (cfHeader r), false) | None => (TrimSpace (RemoteAddr r), negb (cfHeader r), false) end
     end)).
  { intros t. assert (Hp : resolved r t cloudflareProxies pseudo match peerOf r with Some remote => (AddrString remote, negb (cfHeader r), false) | None => (TrimSpace (RemoteAddr r), negb (cfHeader r), false) end).
    { pose proof (by_peer r t cloudflareProxies pseudo) as H. unfold peerText in H. by destruct (peerOf r). }
    destruct (trustsPeer (peerOf r) t) eqn:Ht; [|done]. destruct (parseIP (XRealIp r)) as [ip|] eqn:Hx; [|done]. apply parseIP_Some in Hx as (a & Ha & ->). by apply by_proxy. }
  destruct trustedProxies as [|p ps]; [|apply Hrest]. fold (cfHeader r).
  destruct (match cloudflareProxies with [] => true | _ => trustsPeer (peerOf r) cloudflareProxies end) eqn:Hc; [|apply Hrest].
  assert (Hcf : cloudflareProxies = [] \/ trustsPeer (peerOf r) cloudflareProxies = true) by (destruct cloudflareProxies; auto).
  destruct (if pseudo then parseIP (CFConnectingIPv6 r) else None) as [ip|] eqn:H6.
  - destruct pseudo; [|done]. apply parseIP_Some in H6 as (a & Ha & ->). apply by_edge; auto.
  - destruct (parseIP (CFConnectingIP r)) as [ip|] eqn:H4; [|apply Hrest]. apply parseIP_Some in H4 as (a & Ha & ->). apply by_edge; auto.
Qed.

(** C30: which headers decide about the address of a client. A header is believed only when the peer is a trusted
    proxy, or, without configured proxies, when it is an edge of Cloudflare or this check is switched
    off; in the last case the address is never marked as safe for the blocklist. Without a believed header the
    address is that of the peer. So a peer that is not trusted gets the same address whatever
    headers it sends. *)
Theorem client_ip_not_spoofed r trustedProxies cloudflareProxies pseudo :
  let '(ip, blockSafe, fromHeader) := resolveClientIP r trustedProxies cloudflareProxies pseudo in
  let byProxy := trustsPeer (peerOf r) trustedProxies = true in
  let byEdge := trustedProxies = [] /\ cloudflareProxies <> [] /\ trustsPeer (peerOf r) cloudflareProxies = true in
  (fromHeader = true -> (byProxy \/ byEdge \/ trustedProxies = [] /\ cloudflareProxies = []) /\ (blockSafe = true -> byProxy \/ byEdge)
     /\ exists a, ip = AddrString a
        /\ (parseAddr (XRealIp r) = Some a \/ trustedProxies = [] /\ (parseAddr (CFConnectingIP r) = Some a \/ pseudo = true /\ parseAddr (CFConnectingIPv6 r) = Some a)))
  /\ (fromHeader = false -> match peerOf r with Some remote => ip = AddrString remote | None => ip = TrimSpace (RemoteAddr r) end
     /\ (blockSafe = true <-> CFConnectingIP r = [] /\ CFConnectingIPv6 r = []))
  /\ (~ byProxy -> ~ byEdge -> ~ (trustedProxies = [] /\ cloudflareProxies = []) ->
      forall r', RemoteAddr r' = RemoteAddr r -> (resolveClientIP r' trustedProxies cloudflareProxies pseudo).1.1 = ip).
Proof.
  pose proof (resolveClientIP_spec r trustedProxies cloudflareProxies pseudo) as Hr. destruct (resolveClientIP r trustedProxies cloudflareProxies pseudo) as [[ip safe] from]. cbv zeta.
  split_and!.
  - inversion Hr as [a Ht Hc Hh|a Ht Hh|]; subst; intros Hf; [|split_and!; eauto 6|done]. split_and!; [|destruct cloudflareProxies; [done|]|exists a; auto].
    + destruct cloudflareProxies as [|c cs]; [auto|]. destruct Hc as [Hc|Hc]; [done|]. right; left. split_and!; done.
    + intros _. right. destruct Hc as [Hc|Hc]; [done|]. split_and!; done.
  - inversion Hr; subst; intros Hf; [done..|]. unfold peerText. split; [by destruct (peerOf r)|]. unfold cfHeader. by do 2 case_bool_decide; naive_solver.
  - intros Hnp Hne Hno r' Hra. assert (Hpeer : peerOf r' = peerOf r) by (unfold peerOf; by rewrite Hra).
    assert (Hown : forall x r1, resolved r1 trustedProxies cloudflareProxies pseudo x -> peerOf r1 = peerOf r -> x.1.1 = peerText r1).
    { intros x r1 Hx Hp1. destruct Hx as [a Ht Hc Hh|a Ht Hh|]; rewrite ?Hp1 in *; [|done|done]. exfalso. destruct Hc as [Hc|Hc]; [auto|].
      destruct cloudflareProxies; [auto|]. apply Hne. split_and!; done. }
    rewrite (Hown _ r' (resolveClientIP_spec r' _ _ _) Hpeer). change ip with (ip, safe, from).1.1. rewrite (Hown _ r Hr eq_refl).
    unfold peerText. by rewrite Hpeer, Hra.
Qed.

(** ** Keys *)

(** The same IPv4 address, or the same /64. *)
Definition sameNetwork (a b : Addr) : Prop :=
  match a, b with
  | V4 x, V4 y => x = y
  | V6 x _, V6 y _ => Z.shiftr x 64 = Z.shiftr y 64
  | _, _ => False
  end.

Lemma network_ok x zone : addr_ok (V6 x zone) -> prefix_ok (Masked (mkPrefix (V6 x zone) 64)).
Proof.
  intros Hx. cbn in Hx. unfold prefix_ok, Masked. cbn [px_Addr px_Bits]. split_and!; [|cbn; lia..|done]. cbn [addr_ok]. rewrite land_mask by lia.
  rewrite Z.shiftl_mul_pow2, Z.shiftr_div_pow2 by lia. pose proof (Z.div_mod x (2 ^ (128 - 64)) ltac:(lia)). pose proof (Z.mod_pos_bound x (2 ^ (128 - 64)) ltac:(lia)).
  pose proof (Z.div_pos x (2 ^ (128 - 64)) ltac:(lia) ltac:(lia)). nia.
Qed.

Lemma PrefixString_inj p q : prefix_ok p -> prefix_ok q -> PrefixString p = PrefixString q -> p = q.
Proof. intros Hp Hq E. pose proof (parsePrefix_string p Hp) as H. rewrite E, parsePrefix_string in H by done. by injection H. Qed.

(** C32: two addresses in whatever notation have the same key of the blocklist exactly when they are the same
    address up to a zone and to the mapping of IPv4 into IPv6, and the same key of the rate limiter exactly when
    they are the same IPv4 address or lie in the same /64; so a blocked key belongs to one limited key,
    and forming a key twice changes nothing. *)
Theorem limit_keys s t a b : ParseAddr (TrimSpace s) = Some a -> ParseAddr (TrimSpace t) = Some b ->
  (blockKey s = blockKey t <-> plain a = plain b)
  /\ (rateLimitKey s = rateLimitKey t <-> sameNetwork (plain a) (plain b))
  /\ blockKey (blockKey s) = blockKey s /\ rateLimitKey (blockKey s) = rateLimitKey s.
Proof.
  intros Hs Ht. pose proof (plain_ok a (parse_ok _ _ Hs)) as Ha. pose proof (plain_ok b (parse_ok _ _ Ht)) as Hb.
  pose proof (plain_zoneFree a) as Za. pose proof (plain_zoneFree b) as Zb. unfold blockKey, rateLimitKey. rewrite Hs, Ht. fold (plain a) (plain b).
  rewrite parse_trimmed by done. fold (plain (plain a)). rewrite plain_not_mapped by (by eapply parse_ok).
  split_and!; [split; [by apply AddrString_inj|by intros ->]| |done|done].
  clear Hs Ht. destruct (plain a) as [x|x zx], (plain b) as [y|y zy]; cbn [Is6 Is4 negb sameNetwork].
  - split; [intros E; apply AddrString_inj in E; [by injection E|done..]|by intros ->].
  - split; [|done]. intros E. pose proof (parse_prefix _ (network_ok y zy Hb)) as H. by rewrite <- E, parse_string in H.
  - split; [|done]. intros E. pose proof (parse_prefix _ (network_ok x zx Ha)) as H. by rewrite E, parse_string in H.
  - change 64 with (128 - 64) at 3 4. rewrite <- (same_top 128 64) by (cbn in Ha, Hb; lia). split.
    + intros E. apply PrefixString_inj in E; [|by apply network_ok..]. by injection E.
    + intros E. unfold Masked. cbn [px_Addr px_Bits]. by rewrite E.
Qed.

(** C31: what the websocket server may block for a connection is the printed form of an address that is neither whitelisted, local, private, link-local,
    unspecified nor multicast and lies in no range of a trusted proxy or an edge; and it is an address
    that the client cannot choose: that of the peer itself, which has sent no header of Cloudflare, or one
    that a trusted proxy or an edge has sent. *)
Theorem block_target_sound s r : ck_blockable (connKeys s r) = true ->
  exists a, ck_blockKey (connKeys s r) = AddrString a /\ parseAddr (ck_ip (connKeys s r)) = Some a
    /\ ipBlockEnabled s = true /\ isWhitelistedIP a (whitelistPrefixes s) = false
    /\ isTrustedProxy a (trustedProxyPrefixes s) = false /\ isTrustedProxy a (cloudflarePrefixes s) = false
    /\ IsLinkLocalUnicast a = false /\ IsUnspecified a = false /\ IsMulticast a = false
    /\ ((peerOf r = Some a \/ peerOf r = None /\ parseAddr (TrimSpace (RemoteAddr r)) = Some a) /\ CFConnectingIP r = [] /\ CFConnectingIPv6 r = []
        \/ trustsPeer (peerOf r) (trustedProxyPrefixes s) = true
        \/ trustedProxyPrefixes s = [] /\ trustsPeer (peerOf r) (cloudflarePrefixes s) = true).
Proof.
  destruct s as [trustedProxies cloudflareProxies pseudo whites enabled]. unfold connKeys. cbn [trustedProxyPrefixes cloudflarePrefixes trustPseudoIPv6 whitelistPrefixes ipBlockEnabled].
  pose proof (resolveClientIP_spec r trustedProxies cloudflareProxies pseudo) as Hr.
  destruct (resolveClientIP r trustedProxies cloudflareProxies pseudo) as [[ip safe] from]. destruct enabled; [|done]. cbn [andb ck_ip ck_blockKey ck_blockable].
  destruct safe; [|by rewrite andb_comm]. cbn [andb].
  unfold isBlockableKey. destruct (parseAddr ip) as [a|] eqn:Ha; [|done]. destruct (isWhitelistedIP a whites) eqn:Ew; [done|]. cbn [negb andb].
  destruct (IsLoopback a) eqn:E1, (IsPrivate a) eqn:E2, (IsLinkLocalUnicast a) eqn:E3, (IsUnspecified a) eqn:E4, (IsMulticast a) eqn:E5; cbn [orb]; try done.
  destruct (inAny trustedProxies a) eqn:E6; [done|]. destruct (inAny cloudflareProxies a) eqn:E7; cbn [negb]; [done|]. intros _.
  destruct (parseAddr_ok _ _ Ha) as [Hok Hpl].
  assert (Hkey : blockKey ip = AddrString a).
  { unfold blockKey. unfold parseAddr in Ha. case_bool_decide; [done|]. destruct (ParseAddr (TrimSpace ip)); [|done]. by injection Ha as ->. }
  exists a. split; [done|].
  unfold isTrustedProxy. rewrite E1, E2, E6, E7. cbn [orb]. split_and!; try done.
  remember (ip, true, from) as x eqn:Hx. destruct Hr as [b Ht Hc Hh|b Ht Hh|].
  - right; right. split; [done|]. destruct Hc as [->|Hc]; [|done]. discriminate.
  - auto.
  - injection Hx as <- Hs <-. left. unfold peerText in Ha. unfold cfHeader in Hs. apply negb_true_iff, orb_false_iff in Hs as [H4 H6]. apply negb_false_iff, bool_decide_eq_true in H4, H6.
    split_and!; [|done..]. destruct (peerOf r) as [p|] eqn:Ep; [left|by right]. unfold peerOf in Ep. destruct (parseAddr_ok _ _ Ep) as [Hp Hpp].
    rewrite parseAddr_string in Ha; [by rewrite Hpp in Ha|done|rewrite <- Hpp; apply plain_zoneFree].
Qed.

(** ** Configured prefixes *)

(** The number of the addresses below a prefix. *)
Definition spanOf (p : Prefix) : Z := 2 ^ (width (px_Addr p) - px_Bits p).

Definition numberOf (a : Addr) : Z := match a with V4 ip => ip | V6 ip _ => ip end.

Lemma land_mask_div w bits z : 0 <= bits <= w -> 0 <= z < 2 ^ w -> Z.land z (maskBits w bits) = z / 2 ^ (w - bits) * 2 ^ (w - bits).
Proof. intros Hb Hz. by rewrite land_mask, Z.shiftl_mul_pow2, Z.shiftr_div_pow2 by (done || lia). Qed.

Lemma land_mask_range w bits z : 0 <= bits <= w -> 0 <= z < 2 ^ w -> 0 <= Z.land z (maskBits w bits) < 2 ^ w.
Proof.
  intros Hb Hz. rewrite land_mask_div by done. assert (0 < 2 ^ (w - bits)) by (apply Z.pow_pos_nonneg; lia).
  pose proof (Z.div_pos z (2 ^ (w - bits)) ltac:(lia) ltac:(lia)). pose proof (Z.mul_div_le z (2 ^ (w - bits)) ltac:(lia)). nia.
Qed.

Lemma masked_ok p : prefix_ok p -> prefix_ok (Masked p) /\ Z.divide (spanOf (Masked p)) (numberOf (px_Addr (Masked p))).
Proof.
  destruct p as [[ip|ip zone] bits]; intros (Ha & Hb & Hz); cbn [px_Addr px_Bits addr_ok] in *; unfold prefix_ok, Masked, spanOf; cbn [px_Addr px_Bits addr_ok numberOf zoneFree];
    unfold width in *; cbn [Is4] in *; (split; [split_and!; [apply land_mask_range; lia..|lia|lia|done]|]); rewrite land_mask_div by lia; apply Z.divide_factor_r.
Qed.

(** Masking does not turn an address into a mapped one. *)
Lemma masked_unmapped p : prefix_ok p -> Is4In6 (px_Addr p) = false -> Is4In6 (px_Addr (Masked p)) = false.
Proof.
  destruct p as [[ip|ip zone] bits]; intros (Ha & Hb & Hz); cbn [px_Addr px_Bits addr_ok Masked Is4In6] in *; [done|]. unfold width in Hb. cbn [Is4] in Hb.
  intros Hn. apply Z.eqb_neq in Hn. apply Z.eqb_neq. rewrite land_mask by lia. intros He. destruct (Z.le_gt_cases (128 - bits) 32).
  - apply Hn. rewrite <- He. apply Z.bits_inj'. intros n Hn0. rewrite !Z.shiftr_spec, Z.shiftl_spec, Z.shiftr_spec by lia. f_equal. lia.
  - apply (f_equal (fun z => Z.testbit z 0)) in He. rewrite Z.shiftr_spec, Z.shiftl_spec, Z.testbit_neg_r in He by lia. done.
Qed.

Lemma land_lxor x y m : Z.land (Z.lxor x y) m = Z.lxor (Z.land x m) (Z.land y m).
Proof.
  apply Z.bits_inj'. intros n Hn. rewrite !Z.land_spec, !Z.lxor_spec, !Z.land_spec.
  by destruct (Z.testbit x n), (Z.testbit y n), (Z.testbit m n).
Qed.

Lemma contains_top w bits x y : 0 <= bits <= w -> 0 <= y -> Z.divide (2 ^ (w - bits)) x ->
  Z.shiftr x (w - bits) = Z.shiftr y (w - bits) <-> x <= y < x + 2 ^ (w - bits).
Proof.
  intros Hb Hy [q ->]. rewrite !Z.shiftr_div_pow2 by lia. assert (Hk : 0 < 2 ^ (w - bits)) by (apply Z.pow_pos_nonneg; lia). rewrite Z.div_mul by lia.
  pose proof (Z.div_mod y (2 ^ (w - bits)) ltac:(lia)). pose proof (Z.mod_pos_bound y (2 ^ (w - bits)) ltac:(lia)). split; [intros ->; nia|]. intros Hr. nia.
Qed.

(** An aligned prefix contains the addresses of its family from its own one on. *)
Lemma contains_range p a : prefix_ok p -> Z.divide (spanOf p) (numberOf (px_Addr p)) -> addr_ok a -> zoneFree a ->
  Contains p a = true <-> Is4 a = Is4 (px_Addr p) /\ numberOf (px_Addr p) <= numberOf a < numberOf (px_Addr p) + spanOf p.
Proof.
  destruct p as [[x|x zx] bits], a as [y|y zy]; intros (Hx & Hb & Hz) Hd Hy Hzy; cbn [px_Addr px_Bits addr_ok numberOf zoneFree] in *; unfold spanOf, width in *;
    cbn [Is4 px_Addr px_Bits] in *; unfold Contains; cbn [px_Addr px_Bits]; [|naive_solver..|].
  - rewrite Z.eqb_eq, Z.shiftr_lxor, Z.lxor_eq_0_iff. rewrite (contains_top 32) by (done || lia). naive_solver.
  - subst zy. rewrite Z.eqb_eq, land_lxor, Z.lxor_eq_0_iff. rewrite (same_top 128), (contains_top 128) by (done || lia). naive_solver.
Qed.

Lemma parseCIDRList_ok raws ps : parseCIDRList raws = Ok ps -> Forall (fun p => prefix_ok p /\ Is4In6 (px_Addr p) = false /\ Z.divide (spanOf p) (numberOf (px_Addr p))) ps.
Proof.
  revert ps. induction raws as [|raw raws IH]; intros ps; cbn [parseCIDRList]; [by intros [= <-]|]. case_bool_decide; [apply IH|].
  destruct (ParsePrefix (TrimSpace raw)) as [p|] eqn:Hp; [|done]. apply parsePrefix_ok in Hp. destruct (Is4In6 (px_Addr p)) eqn:H4; [done|].
  destruct (parseCIDRList raws) as [rest|e|]; cbn [rbind]; [|done|done]. intros [= <-]. constructor; [|by apply IH].
  destruct (masked_ok p Hp). split_and!; [done|by apply masked_unmapped|done].
Qed.

(** C39: the configured prefixes of trusted proxies: when they are accepted, each of them trusts an aligned range
    of at most 2^24 IPv4 addresses or 2^112 IPv6 addresses, and nothing else, and none is written as IPv4
    mapped into IPv6; anything wider is refused. *)
Theorem trusted_proxies_narrow value ps : parseTrustedProxies value = Ok ps ->
  Forall (fun p => prefix_ok p /\ Is4In6 (px_Addr p) = false /\ spanOf p <= (if Is4 (px_Addr p) then 2 ^ 24 else 2 ^ 112)
    /\ forall a, addr_ok a -> zoneFree a ->
       Contains p a = true <-> Is4 a = Is4 (px_Addr p) /\ numberOf (px_Addr p) <= numberOf a < numberOf (px_Addr p) + spanOf p) ps.
Proof.
  unfold parseTrustedProxies. destruct (parseCIDRList (split x2c value)) as [qs|e|] eqn:Hq; cbn [rbind]; [|done|done].
  destruct (existsb tooBroad qs) eqn:Hb; [done|]. intros [= <-]. apply parseCIDRList_ok in Hq. rewrite Forall_forall in Hq |- *.
  intros p Hin. destruct (Hq p Hin) as (Hok & H4 & Hd). split_and!; [done|done| |intros a Ha Hz; by apply contains_range].
  assert (Hn : tooBroad p = false).
  { destruct (tooBroad p) eqn:Ht; [|done]. rewrite <- Hb. symmetry. apply existsb_exists. exists p. split; [by apply list_elem_of_In|done]. }
  destruct Hok as (_ & Hbits & _). unfold tooBroad, minIPv4Bits, minIPv6Bits, Is6, spanOf, width in *.
  destruct (Is4 (px_Addr p)); cbn [andb orb negb] in Hn; rewrite ?orb_false_r in Hn; apply Z.ltb_ge in Hn; apply Z.pow_le_mono_r; lia.
Qed.
End ClientIPCorrect.

(** ** An instance *)

(** A text form with the laws: a digit for the family and the number in hexadecimal digits. *)
Module ClientIPExample.
Definition hexOf (n : nat) (z : Z) : bytes := hex_EncodeToString (be_put n z).
Definition numberIn (n : nat) (s : bytes) : option Z :=
  match hex_DecodeString s with Ok b => if (length b =? n)%nat then Some (be_get b) else None | _ => None end.

Definition parse (s : bytes) : option Addr :=
  match s with
  | x34 :: s => V4 <$> numberIn 4 s
  | x36 :: s => (fun ip => V6 ip []) <$> numberIn 16 s
  | _ => None
  end.
Definition print (a : Addr) : bytes := match a with V4 ip => x34 :: hexOf 4 ip | V6 ip _ => x36 :: hexOf 16 ip end.

#[export] Instance text : NetipText := {
  ParseAddr := parse;
  AddrString := print;
  ParsePrefix s :=
    match s with
    | x2f :: b :: s =>
        match parse s with
        | Some a => if b2z b <=? width a then Some (mkPrefix a (b2z b)) else None
        | None => None
        end
    | _ => None
    end;
  PrefixString p := x2f :: z2b (px_Bits p) :: print (px_Addr p);
  SplitHostPort s := None;
}.

Lemma numberIn_hexOf n z : 0 <= z < 256 ^ Z.of_nat n -> numberIn n (hexOf n z) = Some z.
Proof.
  intros Hz. unfold numberIn, hexOf. rewrite hex_Decode_Encode, be_put_length, Nat.eqb_refl. by rewrite be_get_put, Z.mod_small by done.
Qed.

Lemma numberIn_range n s z : numberIn n s = Some z -> 0 <= z < 256 ^ Z.of_nat n.
Proof.
  unfold numberIn. destruct (hex_DecodeString s) as [b|e|]; [|done|done]. destruct (Nat.eqb_spec (length b) n) as [<-|]; [|done]. intros [= <-]. apply be_get_range.
Qed.

Lemma parse_print a : addr_ok a -> zoneFree a -> parse (print a) = Some a.
Proof. destruct a as [ip|ip zone]; cbn [addr_ok zoneFree print parse]; intros Ha Hz; rewrite numberIn_hexOf by done; cbn; by subst. Qed.

Lemma hexOf_graphic n z : Forall (fun c => graphic c = true) (hexOf n z).
Proof.
  unfold hexOf. induction (be_put n z) as [|b l IH]; [constructor|]. cbn [hex_EncodeToString].
  assert (Hd : forall d, 0 <= d < 16 -> graphic (hex_digit d) = true).
  { intros d Hd. assert (Hf : Forall (fun d => graphic (hex_digit d) = true) (seqZ 0 16)) by (vm_compute; repeat constructor).
    rewrite Forall_forall in Hf. apply Hf, elem_of_seqZ. lia. }
  pose proof (b2z_range b). repeat constructor; [apply Hd; split; [apply Z.div_pos; lia|apply Z.div_lt_upper_bound; lia]|apply Hd, Z.mod_pos_bound; lia|done].
Qed.

Lemma parse_range s a : parse s = Some a -> addr_ok a /\ zoneFree a.
Proof.
  unfold parse. intros H. repeat case_match; try done; subst.
  - destruct (numberIn 4 _) as [z|] eqn:E; [|done]. injection H as <-. by apply numberIn_range in E.
  - destruct (numberIn 16 _) as [z|] eqn:E; [|done]. injection H as <-. by apply numberIn_range in E.
Qed.

#[export] Instance text_laws : NetipTextLaws text.
Proof.
  split; cbn [ParseAddr AddrString ParsePrefix PrefixString text].
  - apply parse_print.
  - intros a Ha Hz. assert (Hg : Forall (fun c => graphic c = true) (print a)) by (destruct a; constructor; done || apply hexOf_graphic).
    destruct (last (print a)) as [c|] eqn:El; [|apply last_None in El; by destruct a].
    eapply (TrimSpace_id _ (if Is4 a then x34 else x36) c); [by destruct a|done|by destruct a|]. rewrite Forall_forall in Hg. apply Hg. by apply last_Some_elem_of.
  - done.
  - intros s a Hp. exact (proj1 (parse_range s a Hp)).
  - intros [a bits] (Ha & Hb & Hz). cbn [px_Addr px_Bits] in *. rewrite parse_print by done. assert (bits < 256) by (unfold width in Hb; case_match; lia).
    rewrite b2z_z2b, Z.mod_small by lia. by rewrite (proj2 (Z.leb_le _ _)) by lia.
  - intros s p H. destruct s as [|c s]; [done|]. destruct (decide (c = x2f)) as [->|Hc]; [|by destruct c]. destruct s as [|b s]; [done|].
    destruct (parse s) as [a|] eqn:Hp; [|done]. destruct (Z.leb_spec (b2z b) (width a)); [|done]. injection H as <-. apply parse_range in Hp as [Ha Hz].
    pose proof (b2z_range b). split; [exact Ha|]. split; [cbn; lia|exact Hz].
  - done.
Qed.

Definition ipv4 (a b c d : Z) : Addr := V4 (((a * 256 + b) * 256 + c) * 256 + d).
Definition client : Addr := ipv4 203 0 113 9.
Definition edge : Prefix := mkPrefix (ipv4 104 16 0 0) 13.

(** A direct peer with a forged header, and the same header from an edge. *)
Definition forged : Request := mkRequest (print client) (print (ipv4 8 8 8 8)) [] (print (ipv4 8 8 4 4)).
Definition viaEdge : Request := mkRequest (print (ipv4 104 17 1 1)) (print (ipv4 8 8 8 8)) [] [].

Example resolved_addresses : resolveClientIP forged [] [edge] false = (print client, false, false)
  /\ resolveClientIP viaEdge [] [edge] false = (print (ipv4 8 8 8 8), true, true)
  /\ resolveClientIP forged [] [] false = (print (ipv4 8 8 8 8), false, true).
Proof. vm_compute. done. Qed.

Lemma client_ip_not_spoofed_witness : (resolveClientIP forged [] [edge] false).1.1 = (resolveClientIP (mkRequest (print client) [] [] []) [] [edge] false).1.1.
Proof.
  pose proof (client_ip_not_spoofed (mkRequest (print client) [] [] []) [] [edge] false) as H.
  destruct (resolveClientIP (mkRequest (print client) [] [] []) [] [edge] false) as [[ip safe] from]. destruct H as (_ & _ & H).
  apply H; [vm_compute; discriminate|vm_compute; intros (_ & _ & E); discriminate E|vm_compute; intros (_ & E); discriminate E|reflexivity].
Defined.

Lemma limit_keys_witness : rateLimitKey (print (V6 (2 ^ 125 + 1) [])) = rateLimitKey (print (V6 (2 ^ 125 + 2 ^ 63) []))
  /\ blockKey (print (V6 (0xffff * 2 ^ 32 + 7) [])) = blockKey (print (V4 7)).
Proof.
  split.
  - destruct (limit_keys (print (V6 (2 ^ 125 + 1) [])) (print (V6 (2 ^ 125 + 2 ^ 63) [])) (V6 (2 ^ 125 + 1) []) (V6 (2 ^ 125 + 2 ^ 63) [])) as (_ & H & _);
      [vm_compute; reflexivity|vm_compute; reflexivity|]. apply (proj2 H). vm_compute. reflexivity.
  - destruct (limit_keys (print (V6 (0xffff * 2 ^ 32 + 7) [])) (print (V4 7)) (V6 (0xffff * 2 ^ 32 + 7) []) (V4 7)) as (H & _);
      [vm_compute; reflexivity|vm_compute; reflexivity|]. apply (proj2 H). vm_compute. reflexivity.
Defined.

Lemma block_target_sound_witness : exists a, ck_blockKey (connKeys (mkWsSettings [] [edge] false [] true) viaEdge) = print (ipv4 8 8 8 8)
  /\ ck_blockKey (connKeys (mkWsSettings [] [edge] false [] true) viaEdge) = AddrString a /\ isTrustedProxy a [edge] = false.
Proof.
  destruct (block_target_sound (mkWsSettings [] [edge] false [] true) viaEdge) as (a & H1 & _ & _ & _ & _ & H2 & _); [vm_compute; reflexivity|].
  exists a. split; [vm_compute; reflexivity|]. split; [exact H1|exact H2].
Defined.

(** 203.0.0.0/16, written with a host part. *)
Lemma trusted_proxies_narrow_witness : exists ps, parseTrustedProxies (x2f :: x10 :: print client) = Ok ps /\ map spanOf ps = [2 ^ 16]
  /\ Forall (fun p => spanOf p <= (if Is4 (px_Addr p) then 2 ^ 24 else 2 ^ 112)) ps.
Proof.
  eexists. split; [vm_compute; reflexivity|]. split; [reflexivity|].
  eapply Forall_impl; [apply (trusted_proxies_narrow (x2f :: x10 :: print client)); vm_compute; reflexivity|]. intros p (_ & _ & H & _). exact H.
Defined.
End ClientIPExample.
